(* ===== verification/_CoqProject ===== *)
-Q . S2P
Prelude.v
KList.v
KListSort.v
KListRefine.v
Vaddr.v
Bitmap.v
Hash.v
CString.v
CStdlib.v
Arith64.v
FixedPoint.v
Random.v
Stdio.v
Palloc.v
Malloc.v
PageDir.v
PageDirSpec.v
PageDirInv.v
Paging.v
PageDirTheorems.v
FileApi.v
Process.v
ProcessSpec.v
ProcessImage.v
ProcessLoad.v
ProcessArgs.v
ProcessTheorems.v
Descriptor.v
Syscall.v
UserMemory.v
SyscallCheck.v
DescriptorInv.v
DescriptorCalls.v
SyscallTheorems.v
ProcessExit.v
ProcessStart.v
ProcessLife.v
BlockDevice.v
Block.v
BlockNames.v
Inode.v
FreeMap.v
Directory.v
Filesys.v
FsInv.v
FsTable.v
FsFile.v
FsDir.v
FsSys.v
FsCalls.v
FileInstance.v
FsSpec.v
FsMount.v
FsTheorems.v
ProcessExample.v
SyscallExample.v
Kernel.v
KProg.v
KLogic.v
KSpec.v
KSync.v
KSync2.v
KLock.v
KCond.v
KThread.v
KCreate.v
KClient.v
KSystem.v
KBoot.v
KExample.v
KTheorems.v
