(* ===== verification/Prelude.v ===== *)
(** * Pintos kernel: a verification development

    The program is the Pintos instructional operating system under
    src/pintos/src: a kernel of one processor with threads, memory allocation,
    virtual memory, a file system and user programs.  C functions are translated
    to programs of a state and error monad ([M], below) with the widths of their
    integers written out; assertions, panics and accesses to memory or objects
    that do not exist are errors of the monad, so that a theorem that says
    [f s = Ok ...] excludes them.

    ** Files

    - Prelude: outcomes, the monad, machine integers, little-endian words,
      sublists; the hints and tactics that the other files share.
    - KList, KListSort, KListRefine (lib/kernel/list.c): linked lists in memory;
      sorting; a refinement of finite sequences, which lets the other files take
      a kernel list for a sequence.
    - Vaddr (threads/vaddr.h, threads/pte.h, lib/round.h), Bitmap and Hash
      (lib/kernel), CString (lib/string.c), CStdlib (lib/stdlib.c), Arith64
      (lib/arithmetic.c), FixedPoint (threads/fixed-point.h), Random
      (lib/random.c), Stdio (lib/stdio.c).
    - Palloc and Malloc (threads/palloc.c, threads/malloc.c).  The classes
      [PageAllocator], [PageAllocatorLaws] and [PagePool] of Palloc are what the
      page allocator promises; Malloc and the page directories are proved
      against them.
    - PageDir (userprog/pagedir.c and the translation by the processor),
      PageDirSpec (address spaces without tables and cache), PageDirInv (the
      relation between the two), Paging (paging_init of threads/init.c),
      PageDirTheorems.
    - FileApi (the classes [Files] and [FilesLaws]: what files are to the code
      of processes), Process (the loader of userprog/process.c), ProcessSpec
      (the image of an executable, the stack of a new program), ProcessImage,
      ProcessLoad, ProcessArgs, ProcessTheorems; ProcessExample loads an
      executable from a disk.
    - Descriptor (userprog/descriptor.c and the end of process_exit), Syscall
      (userprog/syscall.c), UserMemory (the kernel reads and writes user
      addresses), SyscallCheck (the checks of pointers and strings),
      DescriptorInv (the page of descriptors as a table of open files),
      DescriptorCalls, SyscallTheorems, ProcessExit, ProcessStart (the start of
      start_process), ProcessLife (all that a program can do between start and
      exit); SyscallExample runs a program that opens files.
    - BlockDevice (the interface of devices that hold sectors), Block and
      BlockNames (devices/block.c, devices/partition.c).
    - Inode, FreeMap, Directory, Filesys (filesys/inode.c, file.c, free-map.c,
      directory.c, filesys.c), FsInv, FsTable, FsFile, FsDir, FsSys, FsCalls (the
      invariant and what the functions do to it), FileInstance (the file system
      is an instance of FileApi), FsSpec (an abstract file system), FsMount,
      FsTheorems.
    - Kernel and KProg (threads/thread.c, synch.c, switch.S, interrupt.c,
      devices/timer.c): functions that run to completion are in the monad;
      functions that can lose the processor are trees of actions ([prog]),
      between which a timer interrupt can be taken.  KLogic is the logic (the
      invariant, rely and guarantee, weakest preconditions and their soundness);
      KSpec, KSync, KSync2, KLock, KCond, KThread, KCreate are the
      specifications of the functions.  KClient is the code that calls them:
      programs of calls with branches and loops, and the rules that the comments
      of the functions state for callers.  KSystem is the whole machine, KBoot
      the boot, KExample a small system, KTheorems the theorems.

    ** What the theorems show

    - Threads: after boot, for all programs that keep to the rules of KClient,
      in every interleaving with timer interrupts, no step makes a bad access,
      panics or fails an assertion, but for the one that a priority record is
      free when all are in use; exactly one thread runs, the ready list is
      exact and no blocked thread is lost; at most one thread is between
      lock_acquire and lock_release of a lock; donation reaches every holder of
      a chain; the scheduler takes the thread of highest priority; a tick wakes
      exactly the threads that are due.
    - File system: any sequence of calls returns and keeps the invariant,
      whatever malloc answers; while memory lasts it refines an abstract file
      system; formatting gives the empty one; unmounting and mounting keeps all
      names and contents.
    - Block devices: a write to a device changes the sector it names and no
      device apart from it; the scan of a partition table without extended
      partitions registers exactly the entries that lie on the device, and the
      scan of one with extended partitions does not end.
    - Virtual memory: any sequence of calls refines abstract address spaces, no
      stale translation is used, user programs cannot reach the kernel or
      each other, destroyed directories give back every page.
    - Loader: for every file and every command line with a word, the loader
      returns; on success the program sees exactly the image of its executable
      and its arguments.
    - System calls: whatever a program has in its registers and its memory, the
      handler ends without a panic or a failed assertion, up to exceptions that
      are named, and other processes keep their memory and their files; exec
      and wait are followed up to the calls of process_execute and
      process_wait, which are not modelled; a pointer is accepted exactly if the program could use it itself; a process
      gives back at its exit what it got.
    - Libraries: lists, bitmaps and hash tables refine sequences, boolean lists
      and sets; sorting, formatted output and 64-bit division are correct.
    - The theorems of kind "error" exhibit inputs at which the code does not do
      what it means to.

    ** Bounds

    Loops that are not structural take a number of rounds as fuel, and the
    theorems show that it is enough: for loops over a string the size of memory
    and one; for reading and writing a file its size and one; for directories
    the number of entries and two; for a partition inside other partitions the number of
    blocks; for a partition table without extended partitions one round; for [load_segment] the number of pages and one; for the tokens of a
    command line their number and two; for strings of user programs the number
    of user addresses and one; for the page of descriptors 342 rounds, which is
    what the code has.  The file system takes devices of less
    than 2^31 sectors, and at least 4 to format.

    ** Limits of the model

    - A section of palloc.c, malloc.c or descriptor.c under its lock is one
      step; the locks themselves are the subject of the Kernel files.  The
      kernel of the Kernel files is the one built without USERPROG; threads use
      static locks, semaphores and condition variables and not
      lock_try_acquire, for which there is an error theorem.  Interrupts before
      synch_init are not covered.
    - An action of the Kernel files is one access to shared data.  Two members
      of the state of the kernel, [sections] and [creating], stand for no data of
      the program: they record which thread is between lock_acquire and
      lock_release of a lock and which is in thread_create, the clients of
      KClient set them, and no function of the kernel reads them.
    - The answers of malloc to the file system and the block layer are a list in
      their state; every answer may be null.
    - Physical memory is seen where the kernel maps it, from PHYS_BASE on.  The
      processor (tables, accessed and dirty bits, cached translations) is
      modelled as IA-32 documents it.  Addresses that the linker chooses and
      those of string literals are parameters.
    - Text that printf puts on the console is left out.  The keys that are
      pressed are a stream in the state of a process.
    - A program between two system calls is any sequence of loads and stores of
      bytes in its pages; a page fault of the program ends it and is not
      modelled.  The page of subprocesses of a process is left out.

    ** Not modelled

    - Drivers that talk to hardware: devices/ide.c (a parameter of the block
      layer), serial, vga, kbd, rtc, pit, speaker, shutdown, timer calibration;
      lib/kernel/console.c (but for putbuf) and debug.c, which print through
      them.
    - Assembly and tables for the processor: threads/loader.S, start.S,
      intr-stubs.S, userprog/gdt.c, exception.c and the interrupt gates of
      interrupt.c.
    - The protocol of parent and child in process.c, which exec and wait call;
      devices/intq.c; filesys/fsutil.c and lib/ustar.c; option parsing in
      init.c.
    - User programs, lib/user, tests and the scripts of utils. *)

From stdpp Require Export base option list numbers gmap.
From Stdlib Require Export ZArith Lia.

#[global] Open Scope Z_scope.

(** ** Outcomes of C code

    Kernel code either returns, or stops the machine.  [ASSERT] and [PANIC]
    (lib/debug.h) end in [debug_panic]; an access through a pointer that names
    no object is a fault; [OutOfFuel] only appears in models of loops that take
    an iteration bound and is shown to be unreachable for a large enough bound. *)
Inductive error : Type :=
| AssertFailed
| Panicked
| BadAccess
| OutOfFuel.

Inductive result (A : Type) : Type :=
| Ok (a : A)
| Err (e : error).
Arguments Ok {A} a.
Arguments Err {A} e.

#[global] Instance error_eq_dec : EqDecision error.
Proof. solve_decision. Defined.

#[global] Instance result_ret : MRet result := λ A a, Ok a.
#[global] Instance result_bind : MBind result := λ A B f m,
  match m with Ok a => f a | Err e => Err e end.
#[global] Instance result_fmap : FMap result := λ A B f m,
  match m with Ok a => Ok (f a) | Err e => Err e end.

Lemma ok_bind {A B} (a : A) (f : A → result B) : (Ok a ≫= f) = f a.
Proof. done. Qed.

(** Code that reads and writes a state [S]. *)
Definition M (S A : Type) : Type := S → result (A * S).

#[global] Instance M_ret {S} : MRet (M S) := λ A a s, Ok (a, s).
#[global] Instance M_bind {S} : MBind (M S) := λ A B f m s,
  match m s with Ok (a, s') => f a s' | Err e => Err e end.

Definition fail {S A} (e : error) : M S A := λ _, Err e.
Definition get {S} : M S S := λ s, Ok (s, s).
Definition gets {S A} (f : S → A) : M S A := λ s, Ok (f s, s).
Definition put {S} (s : S) : M S unit := λ _, Ok (tt, s).
Definition modify {S} (f : S → S) : M S unit := λ s, Ok (tt, f s).

(** [ASSERT (b)]. *)
Definition assert {S} (b : bool) : M S unit := λ s,
  if b then Ok (tt, s) else Err AssertFailed.

(** Code that does not touch the state, and code on a part of the state. *)
Definition lift {S A} (r : result A) : M S A := λ s, match r with Ok a => Ok (a, s) | Err e => Err e end.
Definition zoom {S T A} (part : S → T) (update : T → S → S) (m : M T A) : M S A := λ s,
  match m (part s) with Ok (a, t) => Ok (a, update t s) | Err e => Err e end.

Section monad.
  Context {S : Type}.

Lemma bind_ok {A B} (m : M S A) (f : A → M S B) s a s' :
  m s = Ok (a, s') → (m ≫= f) s = f a s'.
Proof. unfold mbind, M_bind. by intros ->. Qed.

(** The same, for a goal that asks for some final state. *)
Lemma bind_ok_ex {A B} (m : M S A) (k : A → M S B) s a s1 b (P : S → Prop) :
  m s = Ok (a, s1) → (∃ s', k a s1 = Ok (b, s') ∧ P s') →
  ∃ s', (m ≫= k) s = Ok (b, s') ∧ P s'.
Proof. intros H (s' & H1 & H2). exists s'. by rewrite (bind_ok _ _ _ _ _ H). Qed.

Lemma bind_err {A B} (m : M S A) (f : A → M S B) s e :
  m s = Err e → (m ≫= f) s = Err e.
Proof. unfold mbind, M_bind. by intros ->. Qed.

Lemma bind_inv {A B} (m : M S A) (f : A → M S B) s b s'' :
  (m ≫= f) s = Ok (b, s'') →
  ∃ a s', m s = Ok (a, s') ∧ f a s' = Ok (b, s'').
Proof.
  unfold mbind, M_bind. destruct (m s) as [[a s']|e]; [|done]. eauto.
Qed.

Lemma bind_assoc {A B C} (m : M S A) (f : A → M S B) (g : B → M S C) s :
  ((m ≫= f) ≫= g) s = (m ≫= (λ a, f a ≫= g)) s.
Proof. unfold mbind, M_bind. by destruct (m s) as [[a s']|e]. Qed.

Lemma ret_bind {A B} (a : A) (f : A → M S B) s :
  ((mret a : M S A) ≫= f) s = f a s.
Proof. done. Qed.

Lemma zoom_ok {T A} (part : S → T) update (m : M T A) s a t :
  m (part s) = Ok (a, t) → zoom part update m s = Ok (a, update t s).
Proof. unfold zoom. by intros ->. Qed.

End monad.

(** Linear arithmetic with division and modulo. *)
Ltac dlia := Z.to_euclidean_division_equations; lia.

(** ** Machine integers

    The kernel is compiled for 32-bit x86: [int], [long] and pointers have 32
    bits, [long long] has 64.  A w-bit value is a [Z] in the range of its type;
    these functions reduce an exact result to the type. *)
Definition wrapu (w x : Z) : Z := x mod 2 ^ w.
Definition wraps (w x : Z) : Z := (x + 2 ^ (w - 1)) mod 2 ^ w - 2 ^ (w - 1).

Abbreviation u8 := (wrapu 8).
Abbreviation u16 := (wrapu 16).
Abbreviation u32 := (wrapu 32).
Abbreviation u64 := (wrapu 64).
Abbreviation i8 := (wraps 8).
Abbreviation i16 := (wraps 16).
Abbreviation i32 := (wraps 32).
Abbreviation i64 := (wraps 64).

Definition in_u (w x : Z) : Prop := 0 ≤ x < 2 ^ w.
Definition in_s (w x : Z) : Prop := - 2 ^ (w - 1) ≤ x < 2 ^ (w - 1).

Lemma wrapu_small w x : in_u w x → wrapu w x = x.
Proof. intros. by apply Z.mod_small. Qed.

Lemma wrapu_range w x : 0 ≤ w → in_u w (wrapu w x).
Proof. intros. apply Z.mod_pos_bound. lia. Qed.

Lemma wraps_small w x : 0 < w → in_s w x → wraps w x = x.
Proof.
  unfold wraps, in_s. intros Hw Hx.
  assert (2 ^ w = 2 * 2 ^ (w - 1)) by (rewrite <-Z.pow_succ_r by lia; f_equal; lia).
  rewrite Z.mod_small by lia. lia.
Qed.

Lemma wraps_range w x : 0 < w → in_s w (wraps w x).
Proof.
  unfold wraps, in_s. intros Hw.
  assert (2 ^ w = 2 * 2 ^ (w - 1)) by (rewrite <-Z.pow_succ_r by lia; f_equal; lia).
  assert (0 < 2 ^ w) by lia.
  pose proof (Z.mod_pos_bound (x + 2 ^ (w - 1)) (2 ^ w)). lia.
Qed.

(** Reduction keeps the value modulo the range, and depends on it only. *)
Lemma wraps_mod w x : 0 < w → wraps w x mod 2 ^ w = x mod 2 ^ w.
Proof.
  intros Hw. assert (0 < 2 ^ w) by lia. unfold wraps. rewrite Zminus_mod_idemp_l. f_equal. lia.
Qed.
Lemma wraps_cong w x y : x mod 2 ^ w = y mod 2 ^ w → wraps w x = wraps w y.
Proof. intros H. unfold wraps. f_equal. rewrite <-(Zplus_mod_idemp_l x), H. apply Zplus_mod_idemp_l. Qed.

(** Bits of a value of [w] bits. *)
Lemma in_u_bits w x : 0 ≤ w → (∀ j, w ≤ j → Z.testbit x j = false) ↔ in_u w x.
Proof.
  intros Hw. split.
  - intros H. assert (x = x mod 2 ^ w) as ->; [|apply Z.mod_pos_bound; lia].
    apply Z.bits_inj'. intros j Hj. destruct (decide (j < w)).
    + by rewrite Z.mod_pow2_bits_low.
    + rewrite Z.mod_pow2_bits_high by lia. apply H. lia.
  - intros [H0 H1] j Hj. destruct (decide (x = 0)) as [->|]; [apply Z.bits_0|].
    apply Z.bits_above_log2; [done|]. apply Z.log2_lt_pow2; [lia|].
    pose proof (Z.pow_le_mono_r 2 w j). lia.
Qed.

Lemma wrapu_bits w x j : 0 ≤ w → 0 ≤ j → Z.testbit (wrapu w x) j = if decide (j < w) then Z.testbit x j else false.
Proof.
  intros. unfold wrapu. case_decide; [by rewrite Z.mod_pow2_bits_low|].
  rewrite Z.mod_pow2_bits_high by lia. done.
Qed.

(** Little-endian bytes. *)
Fixpoint le_bytes (n : nat) (x : Z) : list Z :=
  match n with O => [] | S n => x mod 256 :: le_bytes n (x / 256) end.
Fixpoint le_value (bs : list Z) : Z :=
  match bs with [] => 0 | b :: bs => b + 256 * le_value bs end.

Lemma le_bytes_length n x : length (le_bytes n x) = n.
Proof. revert x. induction n as [|n IH]; intros x; simpl; [done|]. by rewrite IH. Qed.

Lemma le_bytes_range n x : Forall (in_u 8) (le_bytes n x).
Proof.
  revert x. induction n as [|n IH]; intros x; simpl; constructor; [|done].
  apply Z.mod_pos_bound. lia.
Qed.

Lemma le_value_bytes n x : in_u (8 * Z.of_nat n) x → le_value (le_bytes n x) = x.
Proof.
  revert x. induction n as [|n IH]; intros x; unfold in_u; cbn [le_bytes le_value]; intros Hx.
  - change (2 ^ (8 * Z.of_nat 0)) with 1 in Hx. lia.
  - rewrite IH.
    + pose proof (Z.div_mod x 256). lia.
    + replace (8 * Z.of_nat (S n)) with (8 + 8 * Z.of_nat n) in Hx by lia.
      rewrite Z.pow_add_r in Hx by lia. change (2 ^ 8) with 256 in Hx. unfold in_u.
      split; [apply Z.div_pos; lia|]. apply Z.div_lt_upper_bound; lia.
Qed.

Lemma le_bytes_value bs : Forall (in_u 8) bs → le_bytes (length bs) (le_value bs) = bs.
Proof.
  induction 1 as [|b bs Hb _ IH]; [done|]. cbn [length le_bytes le_value]. unfold in_u in Hb. change (2 ^ 8) with 256 in Hb.
  rewrite (Z.mul_comm 256). rewrite Z.mod_add, Z.mod_small, Z.div_add, Z.div_small by lia. by f_equal.
Qed.

Lemma le_value_range bs : Forall (in_u 8) bs → in_u (8 * Z.of_nat (length bs)) (le_value bs).
Proof.
  induction 1 as [|b bs Hb _ IH]; [done|]. cbn [length le_value]. unfold in_u in *. change (2 ^ 8) with 256 in Hb.
  replace (8 * Z.of_nat (S (length bs))) with (8 + 8 * Z.of_nat (length bs)) by lia.
  rewrite Z.pow_add_r by lia. change (2 ^ 8) with 256. lia.
Qed.

(** ** Pointers

    A pointer is its 32-bit address; the null pointer is address 0. *)
Definition NULL : Z := 0.

(** ** Filters *)

Lemma filter_ext_in {A} (P Q : A → Prop) `{!∀ x, Decision (P x), !∀ x, Decision (Q x)} (l : list A) :
  (∀ x, x ∈ l → P x ↔ Q x) → filter P l = filter Q l.
Proof.
  induction l as [|x l IH]; intros Hx; [done|]. rewrite !filter_cons.
  rewrite IH by (intros; apply Hx; by right). specialize (Hx x (list_elem_of_here _ _)).
  destruct (decide (P x)), (decide (Q x)); tauto.
Qed.

Lemma insert_not_nil {A} i (x : A) l : l ≠ [] → <[i := x]> l ≠ [].
Proof. intros H E. by apply (f_equal length) in E; rewrite length_insert in E; apply nil_length_inv in E. Qed.

Lemma filter_all {A} (P : A → Prop) `{!∀ x, Decision (P x)} (l : list A) :
  (∀ x, x ∈ l → P x) → filter P l = l.
Proof.
  induction l as [|x l IH]; intros Hx; [done|]. rewrite filter_cons_True by (apply Hx; by left).
  f_equal. apply IH. intros. apply Hx. by right.
Qed.

Lemma filter_none {A} (P : A → Prop) `{!∀ x, Decision (P x)} (l : list A) :
  (∀ x, x ∈ l → ¬ P x) → filter P l = [].
Proof.
  induction l as [|x l IH]; intros Hx; [done|]. rewrite filter_cons_False by (apply Hx; by left).
  apply IH. intros. apply Hx. by right.
Qed.

(** ** Swapping two elements of a list *)

Lemma swap_lt_perm {A} (l : list A) i j x y :
  (i < j)%nat → l !! i = Some x → l !! j = Some y → <[j := x]> (<[i := y]> l) ≡ₚ l.
Proof.
  intros Hij Hi Hj. pose proof (take_drop_middle _ _ _ Hj) as E.
  assert (take j l !! i = Some x) as Hi' by (by rewrite lookup_take_lt).
  pose proof (take_drop_middle _ _ _ Hi') as E'.
  set (l1 := take i (take j l)) in *. set (l2 := drop (S i) (take j l)) in *. set (l3 := drop (S j) l) in *.
  assert (length l1 = i) as Hl1 by (unfold l1; rewrite !length_take; apply lookup_lt_Some in Hi; lia).
  assert (length (l1 ++ x :: l2) = j) as Hl2.
  { rewrite E', length_take. apply lookup_lt_Some in Hj. lia. }
  rewrite <-E, <-E'. rewrite <-app_assoc, <-app_comm_cons.
  rewrite length_app in Hl2. cbn [length] in Hl2.
  rewrite (insert_app_r_alt l1 _ i) by lia. replace (i - length l1)%nat with 0%nat by lia.
  rewrite (insert_app_r_alt l1 _ j) by lia. replace (j - length l1)%nat with (S (length l2)) by lia.
  change (<[0%nat := y]> (x :: l2 ++ y :: l3)) with (y :: l2 ++ y :: l3).
  change (<[S (length l2) := x]> (y :: l2 ++ y :: l3)) with (y :: <[length l2 := x]> (l2 ++ y :: l3)).
  rewrite (insert_app_r_alt l2 _ (length l2)) by lia. rewrite Nat.sub_diag.
  change (<[0%nat := x]> (y :: l3)) with (x :: l3). apply Permutation_app_head.
  rewrite <-!Permutation_middle. apply perm_swap.
Qed.

Lemma swap_perm {A} (l : list A) i j x y :
  l !! i = Some x → l !! j = Some y → <[j := x]> (<[i := y]> l) ≡ₚ l.
Proof.
  intros Hi Hj. destruct (Nat.lt_trichotomy i j) as [H|[<-|H]].
  - by apply swap_lt_perm.
  - assert (y = x) as -> by congruence. by rewrite (list_insert_id l), list_insert_id by done.
  - rewrite list_insert_insert_ne by lia. by apply swap_lt_perm.
Qed.

(** ** Ranges of a list

    [slice l a n] is the [n] elements of [l] from index [a]; [splice l a d] is
    [l] with the elements from index [a] replaced by those of [d]. *)
Definition slice {A} (l : list A) (a n : Z) : list A := take (Z.to_nat n) (drop (Z.to_nat a) l).
Definition splice {A} (l : list A) (a : Z) (d : list A) : list A := list_inserts (Z.to_nat a) d l.

Section slices.
  Context {A : Type}.
  Implicit Types l d : list A.

Lemma slice_lookup l a n i :
  0 ≤ a → slice l a n !! i = if decide (Z.of_nat i < n) then l !! Z.to_nat (a + Z.of_nat i) else None.
Proof.
  intros Ha. unfold slice. case_decide.
  - rewrite lookup_take_lt, lookup_drop by lia. f_equal. lia.
  - apply lookup_take_ge. lia.
Qed.

Lemma splice_lookup l a d i :
  0 ≤ a → a + Z.of_nat (length d) ≤ Z.of_nat (length l) →
  splice l a d !! i =
    if decide (a ≤ Z.of_nat i ∧ Z.of_nat i < a + Z.of_nat (length d)) then d !! Z.to_nat (Z.of_nat i - a) else l !! i.
Proof.
  intros Ha Hd. unfold splice. case_decide.
  - rewrite list_lookup_inserts by lia. f_equal. lia.
  - destruct (decide (Z.of_nat i < a)); [apply list_lookup_inserts_lt; lia|apply list_lookup_inserts_ge; lia].
Qed.

Lemma slice_length l a n :
  0 ≤ a → 0 ≤ n → a + n ≤ Z.of_nat (length l) → length (slice l a n) = Z.to_nat n.
Proof. intros. unfold slice. rewrite length_take, length_drop. lia. Qed.

Lemma slice_lengthZ l a n : 0 ≤ a → 0 ≤ n → a + n ≤ Z.of_nat (length l) → Z.of_nat (length (slice l a n)) = n.
Proof. intros. rewrite slice_length by done. lia. Qed.

Lemma splice_length l a d : length (splice l a d) = length l.
Proof. apply length_inserts. Qed.

Lemma slice_all l : slice l 0 (Z.of_nat (length l)) = l.
Proof. unfold slice. by rewrite Nat2Z.id, take_ge by done. Qed.

Lemma slice_nil l a n : n ≤ 0 → slice l a n = [].
Proof. intros. unfold slice. by replace (Z.to_nat n) with 0%nat by lia. Qed.

Lemma splice_nil l a : splice l a [] = l.
Proof. unfold splice. generalize (Z.to_nat a). by intros []. Qed.

Lemma slice_slice l a n b m : 0 ≤ a → 0 ≤ b → b + m ≤ n → slice (slice l a n) b m = slice l (a + b) m.
Proof.
  intros. apply list_eq. intros i. rewrite !slice_lookup by lia.
  destruct (decide (Z.of_nat i < m)); [|done]. rewrite decide_True by lia. f_equal. lia.
Qed.

Lemma slice_app l a n m : 0 ≤ a → 0 ≤ n → 0 ≤ m → slice l a n ++ slice l (a + n) m = slice l a (n + m).
Proof.
  intros. unfold slice. replace (Z.to_nat (n + m)) with (Z.to_nat n + Z.to_nat m)%nat by lia.
  rewrite <-take_take_drop, drop_drop. do 3 f_equal. lia.
Qed.

Lemma splice_app l a d e :
  0 ≤ a → a + Z.of_nat (length d) + Z.of_nat (length e) ≤ Z.of_nat (length l) →
  splice (splice l a d) (a + Z.of_nat (length d)) e = splice l a (d ++ e).
Proof.
  intros. apply list_eq. intros i.
  rewrite !splice_lookup by (rewrite ?splice_length, ?length_app; lia). rewrite length_app.
  destruct (decide (a + Z.of_nat (length d) ≤ Z.of_nat i ∧ Z.of_nat i < a + Z.of_nat (length d) + Z.of_nat (length e))).
  - rewrite (decide_True (P := a ≤ Z.of_nat i ∧ _)) by lia. rewrite lookup_app_r by lia. f_equal. lia.
  - destruct (decide (a ≤ Z.of_nat i ∧ Z.of_nat i < a + Z.of_nat (length d))).
    + rewrite decide_True by lia. rewrite lookup_app_l by lia. done.
    + rewrite decide_False by lia. done.
Qed.

Lemma slice_splice_out l a d b n :
  0 ≤ a → 0 ≤ b → a + Z.of_nat (length d) ≤ Z.of_nat (length l) →
  b + n ≤ a ∨ a + Z.of_nat (length d) ≤ b → slice (splice l a d) b n = slice l b n.
Proof.
  intros. apply list_eq. intros i. rewrite !slice_lookup by lia. case_decide; [|done].
  rewrite splice_lookup by lia. by rewrite decide_False by lia.
Qed.

(** A range of the list that covers the change. *)
Lemma slice_splice_in l a d b n :
  0 ≤ b → b ≤ a → a + Z.of_nat (length d) ≤ b + n → b + n ≤ Z.of_nat (length l) →
  slice (splice l a d) b n = splice (slice l b n) (a - b) d.
Proof.
  intros. apply list_eq. intros i. rewrite slice_lookup by lia.
  rewrite (splice_lookup (slice l b n)) by (rewrite ?slice_lengthZ; lia). rewrite slice_lookup by lia.
  destruct (decide (Z.of_nat i < n)).
  - rewrite splice_lookup by lia.
    destruct (decide (a ≤ Z.of_nat (Z.to_nat (b + Z.of_nat i)) ∧ Z.of_nat (Z.to_nat (b + Z.of_nat i)) < a + Z.of_nat (length d))).
    + rewrite decide_True by lia. f_equal. lia.
    + by rewrite decide_False by lia.
  - by rewrite decide_False by lia.
Qed.

Lemma slice_splice_eq l a d :
  0 ≤ a → a + Z.of_nat (length d) ≤ Z.of_nat (length l) → slice (splice l a d) a (Z.of_nat (length d)) = d.
Proof.
  intros. apply list_eq. intros i. rewrite slice_lookup by lia. case_decide.
  - rewrite splice_lookup by lia. rewrite decide_True by lia. f_equal. lia.
  - symmetry. apply lookup_ge_None. lia.
Qed.

(** Changing a range in a copy of a block and storing the block. *)
Lemma splice_slice l a n b d :
  0 ≤ a → 0 ≤ b → b + Z.of_nat (length d) ≤ n → a + n ≤ Z.of_nat (length l) →
  splice l a (splice (slice l a n) b d) = splice l (a + b) d.
Proof.
  intros. assert (length (splice (slice l a n) b d) = Z.to_nat n) as Hl by (rewrite splice_length, slice_length; lia).
  apply list_eq. intros i. rewrite (splice_lookup _ a), (splice_lookup _ (a + b)) by (rewrite ?Hl; lia). rewrite Hl.
  destruct (decide (a ≤ Z.of_nat i ∧ Z.of_nat i < a + Z.of_nat (Z.to_nat n))).
  - rewrite splice_lookup by (rewrite ?slice_lengthZ; lia).
    destruct (decide (a + b ≤ Z.of_nat i ∧ Z.of_nat i < a + b + Z.of_nat (length d))).
    + rewrite decide_True by lia. f_equal. lia.
    + rewrite decide_False by lia. rewrite slice_lookup by lia. rewrite decide_True by lia. f_equal. lia.
  - by rewrite decide_False by lia.
Qed.

Lemma splice_full l d : length d = length l → splice l 0 d = d.
Proof.
  intros E. apply list_eq. intros i. rewrite splice_lookup by lia. case_decide.
  - f_equal. lia.
  - rewrite !lookup_ge_None_2 by lia. done.
Qed.

Lemma slice_forall (P : A → Prop) l a n : Forall P l → Forall P (slice l a n).
Proof. intros. unfold slice. by apply Forall_take, Forall_drop. Qed.

End slices.
