(* ===== verification/KList.v ===== *)
(** * Doubly linked lists (lib/kernel/list.c)

    The memory that holds [struct list_elem]s is a finite map from addresses
    to elements, and every function of list.c is a program over it that reads
    and writes [prev] and [next] as the C code does, assertions included.
    [dll h l xs] says that the [struct list] at address [l] holds exactly the
    elements at addresses [xs], in that order. *)

From Stdlib Require Import Sorted.
From S2P Require Import Prelude.

(** ** Data *)

(** [struct list_elem]. *)
Record list_elem : Type := ListElem { prev : Z; next : Z }.

Abbreviation heap := (gmap Z list_elem).

(** [struct list] is its head element, at the address of the list, followed by
    its tail element, one [struct list_elem] (two 4-byte pointers) further. *)
Definition sizeof_list_elem : Z := 8.
Definition head_of (l : Z) : Z := l.
Definition tail_of (l : Z) : Z := l + sizeof_list_elem.

(** Reads and writes of the members of the element at address [e]. *)
Definition load (e : Z) : M heap list_elem := λ h,
  match h !! e with Some n => Ok (n, h) | None => Err BadAccess end.
Definition rd_prev (e : Z) : M heap Z := n ← load e; mret (prev n).
Definition rd_next (e : Z) : M heap Z := n ← load e; mret (next n).
Definition wr_prev (e v : Z) : M heap unit :=
  n ← load e; modify (<[e := ListElem v (next n)]>).
Definition wr_next (e v : Z) : M heap unit :=
  n ← load e; modify (<[e := ListElem (prev n) v]>).

(** An element visited by a loop over a list is in memory, and no loop visits
    one twice, so the number of elements in memory bounds the iterations. *)
Definition bound : M heap nat := λ h, Ok (S (size h), h).

(** ** Operations *)

Definition is_head (elem : Z) : M heap bool :=
  if decide (elem = NULL) then mret false
  else p ← rd_prev elem; n ← rd_next elem;
       mret (bool_decide (p = NULL) && bool_decide (n ≠ NULL)).

Definition is_interior (elem : Z) : M heap bool :=
  if decide (elem = NULL) then mret false
  else p ← rd_prev elem; n ← rd_next elem;
       mret (bool_decide (p ≠ NULL) && bool_decide (n ≠ NULL)).

Definition is_tail (elem : Z) : M heap bool :=
  if decide (elem = NULL) then mret false
  else p ← rd_prev elem; n ← rd_next elem;
       mret (bool_decide (p ≠ NULL) && bool_decide (n = NULL)).

Definition list_init (list : Z) : M heap unit :=
  assert (bool_decide (list ≠ NULL));;
  wr_prev (head_of list) NULL;;
  wr_next (head_of list) (tail_of list);;
  wr_prev (tail_of list) (head_of list);;
  wr_next (tail_of list) NULL.

Definition list_begin (list : Z) : M heap Z :=
  assert (bool_decide (list ≠ NULL));;
  rd_next (head_of list).

Definition list_next (elem : Z) : M heap Z :=
  b1 ← is_head elem; b2 ← is_interior elem;
  assert (b1 || b2);;
  rd_next elem.

Definition list_end (list : Z) : M heap Z :=
  assert (bool_decide (list ≠ NULL));;
  mret (tail_of list).

Definition list_rbegin (list : Z) : M heap Z :=
  assert (bool_decide (list ≠ NULL));;
  rd_prev (tail_of list).

Definition list_prev (elem : Z) : M heap Z :=
  b1 ← is_interior elem; b2 ← is_tail elem;
  assert (b1 || b2);;
  rd_prev elem.

Definition list_rend (list : Z) : M heap Z :=
  assert (bool_decide (list ≠ NULL));;
  mret (head_of list).

Definition list_head (list : Z) : M heap Z :=
  assert (bool_decide (list ≠ NULL));;
  mret (head_of list).

Definition list_tail (list : Z) : M heap Z :=
  assert (bool_decide (list ≠ NULL));;
  mret (tail_of list).

Definition list_insert (before elem : Z) : M heap unit :=
  b1 ← is_interior before; b2 ← is_tail before;
  assert (b1 || b2);;
  assert (bool_decide (elem ≠ NULL));;
  p ← rd_prev before;
  wr_prev elem p;;
  wr_next elem before;;
  p ← rd_prev before;
  wr_next p elem;;
  wr_prev before elem.

Definition list_splice (before first last : Z) : M heap unit :=
  b1 ← is_interior before; b2 ← is_tail before;
  assert (b1 || b2);;
  if decide (first = last) then mret tt
  else
    last ← list_prev last;
    b ← is_interior first; assert b;;
    b ← is_interior last; assert b;;
    (* Cleanly remove FIRST...LAST from its current list. *)
    fp ← rd_prev first; ln ← rd_next last;
    wr_next fp ln;;
    ln ← rd_next last; fp ← rd_prev first;
    wr_prev ln fp;;
    (* Splice FIRST...LAST into new list. *)
    bp ← rd_prev before;
    wr_prev first bp;;
    wr_next last before;;
    bp ← rd_prev before;
    wr_next bp first;;
    wr_prev before last.

Definition list_push_front (list elem : Z) : M heap unit :=
  b ← list_begin list; list_insert b elem.

Definition list_push_back (list elem : Z) : M heap unit :=
  e ← list_end list; list_insert e elem.

Definition list_remove (elem : Z) : M heap Z :=
  b ← is_interior elem; assert b;;
  p ← rd_prev elem; n ← rd_next elem;
  wr_next p n;;
  n ← rd_next elem; p ← rd_prev elem;
  wr_prev n p;;
  rd_next elem.

Definition list_empty (list : Z) : M heap bool :=
  b ← list_begin list; e ← list_end list;
  mret (bool_decide (b = e)).

Definition list_front (list : Z) : M heap Z :=
  b ← list_empty list; assert (negb b);;
  rd_next (head_of list).

Definition list_back (list : Z) : M heap Z :=
  b ← list_empty list; assert (negb b);;
  rd_prev (tail_of list).

Definition list_pop_front (list : Z) : M heap Z :=
  front ← list_front list;
  list_remove front;;
  mret front.

Definition list_pop_back (list : Z) : M heap Z :=
  back ← list_back list;
  list_remove back;;
  mret back.

Fixpoint list_size_loop (fuel : nat) (list e cnt : Z) : M heap Z :=
  match fuel with
  | O => fail OutOfFuel
  | S fuel =>
      en ← list_end list;
      if decide (e = en) then mret cnt
      else e' ← list_next e; list_size_loop fuel list e' (cnt + 1)
  end.

Definition list_size (list : Z) : M heap Z :=
  e ← list_begin list; n ← bound; list_size_loop n list e 0.

(** A member of an element, the target of the pointers [swap] takes. *)
Inductive cell : Type :=
| Prev (e : Z)
| Next (e : Z).

Definition rd_cell (c : cell) : M heap Z :=
  match c with Prev e => rd_prev e | Next e => rd_next e end.
Definition wr_cell (c : cell) (v : Z) : M heap unit :=
  match c with Prev e => wr_prev e v | Next e => wr_next e v end.

Definition swap (a b : cell) : M heap unit :=
  t ← rd_cell a;
  v ← rd_cell b;
  wr_cell a v;;
  wr_cell b t.

Fixpoint list_reverse_loop (fuel : nat) (list e : Z) : M heap unit :=
  match fuel with
  | O => fail OutOfFuel
  | S fuel =>
      en ← list_end list;
      if decide (e = en) then mret tt
      else swap (Prev e) (Next e);; e' ← rd_prev e; list_reverse_loop fuel list e'
  end.

Definition list_reverse (list : Z) : M heap unit :=
  b ← list_empty list;
  if (b : bool) then mret tt
  else
    e ← list_begin list; n ← bound;
    list_reverse_loop n list e;;
    swap (Next (head_of list)) (Prev (tail_of list));;
    a ← rd_next (head_of list); b ← rd_prev (tail_of list);
    swap (Prev a) (Next b).

(** ** Operations that take a comparison

    [less a b aux] reads the structures the elements are embedded in; here it
    is a function of the two element addresses. *)
Section ordered.
  Context (less : Z → Z → bool).

Fixpoint is_sorted_loop (fuel : nat) (a b : Z) : M heap bool :=
  match fuel with
  | O => fail OutOfFuel
  | S fuel =>
      a ← list_next a;
      if decide (a = b) then mret true
      else p ← list_prev a;
           if less a p then mret false else is_sorted_loop fuel a b
  end.

Definition is_sorted (a b : Z) : M heap bool :=
  if decide (a = b) then mret true else n ← bound; is_sorted_loop n a b.

Fixpoint find_end_of_run_loop (fuel : nat) (a b : Z) : M heap Z :=
  match fuel with
  | O => fail OutOfFuel
  | S fuel =>
      a ← list_next a;
      if decide (a = b) then mret a
      else p ← list_prev a;
           if less a p then mret a else find_end_of_run_loop fuel a b
  end.

Definition find_end_of_run (a b : Z) : M heap Z :=
  assert (bool_decide (a ≠ NULL));;
  assert (bool_decide (b ≠ NULL));;
  assert (bool_decide (a ≠ b));;
  n ← bound; find_end_of_run_loop n a b.

Fixpoint inplace_merge_loop (fuel : nat) (a0 a1b0 b1 : Z) : M heap unit :=
  match fuel with
  | O => fail OutOfFuel
  | S fuel =>
      if decide (a0 ≠ a1b0 ∧ a1b0 ≠ b1) then
        if negb (less a1b0 a0) then
          a0 ← list_next a0; inplace_merge_loop fuel a0 a1b0 b1
        else
          a1b0 ← list_next a1b0;
          p ← list_prev a1b0;
          list_splice a0 p a1b0;;
          inplace_merge_loop fuel a0 a1b0 b1
      else mret tt
  end.

Definition inplace_merge (a0 a1b0 b1 : Z) : M heap unit :=
  assert (bool_decide (a0 ≠ NULL));;
  assert (bool_decide (a1b0 ≠ NULL));;
  assert (bool_decide (b1 ≠ NULL));;
  b ← is_sorted a0 a1b0; assert b;;
  b ← is_sorted a1b0 b1; assert b;;
  n ← bound; inplace_merge_loop n a0 a1b0 b1.

(** One pass of the [do] loop of [list_sort]: returns [output_run_cnt]. *)
Fixpoint list_sort_pass (fuel : nat) (list a0 output_run_cnt : Z) : M heap Z :=
  match fuel with
  | O => fail OutOfFuel
  | S fuel =>
      en ← list_end list;
      if decide (a0 = en) then mret output_run_cnt
      else
        let output_run_cnt := output_run_cnt + 1 in
        a1b0 ← find_end_of_run a0 en;
        if decide (a1b0 = en) then mret output_run_cnt
        else
          b1 ← find_end_of_run a1b0 en;
          inplace_merge a0 a1b0 b1;;
          list_sort_pass fuel list b1 output_run_cnt
  end.

Fixpoint list_sort_loop (fuel : nat) (list : Z) : M heap unit :=
  match fuel with
  | O => fail OutOfFuel
  | S fuel =>
      a0 ← list_begin list; n ← bound;
      cnt ← list_sort_pass n list a0 0;
      if decide (1 < cnt) then list_sort_loop fuel list else mret tt
  end.

Definition list_sort (list : Z) : M heap unit :=
  assert (bool_decide (list ≠ NULL));;
  n ← bound; list_sort_loop n list;;
  b ← list_begin list; e ← list_end list;
  s ← is_sorted b e; assert s.

Fixpoint list_insert_ordered_loop (fuel : nat) (list elem e : Z) : M heap Z :=
  match fuel with
  | O => fail OutOfFuel
  | S fuel =>
      en ← list_end list;
      if decide (e = en) then mret e
      else if less elem e then mret e
      else e' ← list_next e; list_insert_ordered_loop fuel list elem e'
  end.

Definition list_insert_ordered (list elem : Z) : M heap unit :=
  assert (bool_decide (list ≠ NULL));;
  assert (bool_decide (elem ≠ NULL));;
  b ← list_begin list; n ← bound;
  e ← list_insert_ordered_loop n list elem b;
  list_insert e elem.

Fixpoint list_unique_loop (fuel : nat) (list duplicates elem : Z) : M heap unit :=
  match fuel with
  | O => fail OutOfFuel
  | S fuel =>
      nx ← list_next elem; en ← list_end list;
      if decide (nx = en) then mret tt
      else if negb (less elem nx) && negb (less nx elem) then
        list_remove nx;;
        (if decide (duplicates ≠ NULL) then list_push_back duplicates nx
         else mret tt);;
        list_unique_loop fuel list duplicates elem
      else list_unique_loop fuel list duplicates nx
  end.

Definition list_unique (list duplicates : Z) : M heap unit :=
  assert (bool_decide (list ≠ NULL));;
  b ← list_empty list;
  if (b : bool) then mret tt
  else elem ← list_begin list; n ← bound; list_unique_loop n list duplicates elem.

Fixpoint list_max_loop (fuel : nat) (list max e : Z) : M heap Z :=
  match fuel with
  | O => fail OutOfFuel
  | S fuel =>
      en ← list_end list;
      if decide (e = en) then mret max
      else e' ← list_next e;
           list_max_loop fuel list (if less max e then e else max) e'
  end.

Definition list_max (list : Z) : M heap Z :=
  max ← list_begin list; en ← list_end list;
  if decide (max ≠ en) then
    e ← list_next max; n ← bound; list_max_loop n list max e
  else mret max.

Fixpoint list_min_loop (fuel : nat) (list min e : Z) : M heap Z :=
  match fuel with
  | O => fail OutOfFuel
  | S fuel =>
      en ← list_end list;
      if decide (e = en) then mret min
      else e' ← list_next e;
           list_min_loop fuel list (if less e min then e else min) e'
  end.

Definition list_min (list : Z) : M heap Z :=
  min ← list_begin list; en ← list_end list;
  if decide (min ≠ en) then
    e ← list_next min; n ← bound; list_min_loop n list min e
  else mret min.

End ordered.

(** [default_list_less_func] with the converter passed as AUX. *)
Definition default_list_less_func (converter : Z → Z) (a b : Z) : bool :=
  converter a <? converter b.

(** ** Representation *)

Definition nxt (h : heap) (a : Z) : option Z := next <$> h !! a.
Definition prv (h : heap) (a : Z) : option Z := prev <$> h !! a.

(** Each element of [ns] is linked to the following one in both directions. *)
Fixpoint linked (h : heap) (ns : list Z) : Prop :=
  match ns with
  | a :: ((b :: _) as r) => nxt h a = Some b ∧ prv h b = Some a ∧ linked h r
  | _ => True
  end.

(** The addresses of a list's elements, the two headers included. *)
Definition nodes (l : Z) (xs : list Z) : list Z := l :: xs ++ [tail_of l].

Definition dll (h : heap) (l : Z) (xs : list Z) : Prop :=
  NoDup (nodes l xs) ∧ (NULL ∉ nodes l xs) ∧
  prv h l = Some NULL ∧ nxt h (tail_of l) = Some NULL ∧ linked h (nodes l xs).

(** The elements outside [ns] are untouched, and no element is created or lost. *)
Definition frame (ns : list Z) (h h' : heap) : Prop :=
  (∀ q, q ∉ ns → h' !! q = h !! q) ∧ dom h' = dom h.

(** ** Reading and writing members *)

Definition upd_prev (e v : Z) (h : heap) : heap :=
  alter (λ n, ListElem v (next n)) e h.
Definition upd_next (e v : Z) (h : heap) : heap :=
  alter (λ n, ListElem (prev n) v) e h.

Create HintDb klist.
Create Rewrite HintDb klist.

Lemma prv_dom h e v : prv h e = Some v → is_Some (h !! e).
Proof. unfold prv. destruct (h !! e); naive_solver. Qed.
Lemma nxt_dom h e v : nxt h e = Some v → is_Some (h !! e).
Proof. unfold nxt. destruct (h !! e); naive_solver. Qed.

Lemma is_Some_upd_prev h e v q : is_Some (upd_prev e v h !! q) ↔ is_Some (h !! q).
Proof. unfold upd_prev. rewrite lookup_alter. case_decide; subst; by rewrite ?fmap_is_Some. Qed.
Lemma is_Some_upd_next h e v q : is_Some (upd_next e v h !! q) ↔ is_Some (h !! q).
Proof. unfold upd_next. rewrite lookup_alter. case_decide; subst; by rewrite ?fmap_is_Some. Qed.

Lemma nxt_upd_prev h e v q : nxt (upd_prev e v h) q = nxt h q.
Proof.
  unfold nxt, upd_prev. rewrite lookup_alter. case_decide; subst; [|done].
  by destruct (h !! q).
Qed.
Lemma prv_upd_next h e v q : prv (upd_next e v h) q = prv h q.
Proof.
  unfold prv, upd_next. rewrite lookup_alter. case_decide; subst; [|done].
  by destruct (h !! q).
Qed.
Lemma prv_upd_prev h e v : is_Some (h !! e) → prv (upd_prev e v h) e = Some v.
Proof. intros [n Hn]. unfold prv, upd_prev. by rewrite lookup_alter_eq, Hn. Qed.
Lemma nxt_upd_next h e v : is_Some (h !! e) → nxt (upd_next e v h) e = Some v.
Proof. intros [n Hn]. unfold nxt, upd_next. by rewrite lookup_alter_eq, Hn. Qed.
Lemma prv_upd_prev_ne h e v q : q ≠ e → prv (upd_prev e v h) q = prv h q.
Proof. intros. unfold prv, upd_prev. by rewrite lookup_alter_ne. Qed.
Lemma nxt_upd_next_ne h e v q : q ≠ e → nxt (upd_next e v h) q = nxt h q.
Proof. intros. unfold nxt, upd_next. by rewrite lookup_alter_ne. Qed.

#[export] Hint Resolve prv_dom nxt_dom : klist.
#[export] Hint Resolve <- is_Some_upd_prev is_Some_upd_next : klist.
#[export] Hint Rewrite nxt_upd_prev prv_upd_next : klist.
#[export] Hint Rewrite prv_upd_prev nxt_upd_next using (solve [eauto 10 with klist]) : klist.
#[export] Hint Rewrite prv_upd_prev_ne nxt_upd_next_ne using (solve [congruence]) : klist.

(** Simplify lookups of members in an updated memory. *)
Ltac mem := autorewrite with klist in *.

Lemma rd_prev_ok h e v : prv h e = Some v → rd_prev e h = Ok (v, h).
Proof.
  unfold rd_prev, prv, load. intros H. destruct (h !! e) as [n|] eqn:E; [|done].
  simpl in *. unfold mbind, M_bind. rewrite E. simplify_eq. done.
Qed.
Lemma rd_next_ok h e v : nxt h e = Some v → rd_next e h = Ok (v, h).
Proof.
  unfold rd_next, nxt, load. intros H. destruct (h !! e) as [n|] eqn:E; [|done].
  simpl in *. unfold mbind, M_bind. rewrite E. simplify_eq. done.
Qed.
Lemma wr_prev_ok h e v : is_Some (h !! e) → wr_prev e v h = Ok (tt, upd_prev e v h).
Proof.
  intros [n E]. unfold wr_prev, load, mbind, M_bind, modify, upd_prev. rewrite E.
  f_equal. f_equal. apply map_eq. intros i. rewrite lookup_insert, lookup_alter.
  case_decide; subst; by rewrite ?E.
Qed.
Lemma wr_next_ok h e v : is_Some (h !! e) → wr_next e v h = Ok (tt, upd_next e v h).
Proof.
  intros [n E]. unfold wr_next, load, mbind, M_bind, modify, upd_next. rewrite E.
  f_equal. f_equal. apply map_eq. intros i. rewrite lookup_insert, lookup_alter.
  case_decide; subst; by rewrite ?E.
Qed.

Lemma assert_ok {T} (b : bool) (s : T) : b = true → assert b s = Ok (tt, s).
Proof. by intros ->. Qed.

(** Runs the next statement of a straight-line program. *)
Ltac step1 :=
  first
    [ rewrite bind_assoc
    | erewrite bind_ok;
      [| first
          [ eapply rd_prev_ok; by mem
          | eapply rd_next_ok; by mem
          | eapply wr_prev_ok; by eauto 10 with klist
          | eapply wr_next_ok; by eauto 10 with klist
          | eapply assert_ok; reflexivity ] ] ].
Ltac steps := repeat step1.

Lemma decide_ne_or_eq (x y : Z) : bool_decide (x ≠ y) || bool_decide (x = y) = true.
Proof. destruct (decide (x = y)); [by rewrite orb_comm, bool_decide_eq_true_2|].
  by rewrite bool_decide_eq_true_2. Qed.

Lemma is_interior_run h e p n :
  e ≠ NULL → prv h e = Some p → nxt h e = Some n →
  is_interior e h = Ok (bool_decide (p ≠ NULL) && bool_decide (n ≠ NULL), h).
Proof.
  intros. unfold is_interior. rewrite decide_False by done.
  erewrite bind_ok by by apply rd_prev_ok. erewrite bind_ok by by apply rd_next_ok. done.
Qed.
Lemma is_tail_run h e p n :
  e ≠ NULL → prv h e = Some p → nxt h e = Some n →
  is_tail e h = Ok (bool_decide (p ≠ NULL) && bool_decide (n = NULL), h).
Proof.
  intros. unfold is_tail. rewrite decide_False by done.
  erewrite bind_ok by by apply rd_prev_ok. erewrite bind_ok by by apply rd_next_ok. done.
Qed.
Lemma is_head_run h e p n :
  e ≠ NULL → prv h e = Some p → nxt h e = Some n →
  is_head e h = Ok (bool_decide (p = NULL) && bool_decide (n ≠ NULL), h).
Proof.
  intros. unfold is_head. rewrite decide_False by done.
  erewrite bind_ok by by apply rd_prev_ok. erewrite bind_ok by by apply rd_next_ok. done.
Qed.

(** The checks that guard traversal and insertion. *)
Lemma interior_or_tail h e p n {A} (k : M heap A) :
  e ≠ NULL → prv h e = Some p → p ≠ NULL → nxt h e = Some n →
  (b1 ← is_interior e; b2 ← is_tail e; assert (b1 || b2);; k) h = k h.
Proof.
  intros. erewrite bind_ok by by eapply is_interior_run.
  erewrite bind_ok by by eapply is_tail_run.
  rewrite bool_decide_eq_true_2 by done.
  rewrite bind_ok with (a := tt) (s' := h); [done|].
  apply assert_ok, decide_ne_or_eq.
Qed.

Lemma list_next_ok h e p n :
  e ≠ NULL → prv h e = Some p → nxt h e = Some n → n ≠ NULL →
  list_next e h = Ok (n, h).
Proof.
  intros. unfold list_next. erewrite bind_ok by by eapply is_head_run.
  erewrite bind_ok by by eapply is_interior_run.
  rewrite (bool_decide_eq_true_2 (n ≠ NULL)) by done. rewrite !andb_true_r.
  rewrite bind_ok with (a := tt) (s' := h); [by apply rd_next_ok|].
  rewrite orb_comm. apply assert_ok, decide_ne_or_eq.
Qed.

Lemma list_prev_ok h e p n :
  e ≠ NULL → prv h e = Some p → p ≠ NULL → nxt h e = Some n →
  list_prev e h = Ok (p, h).
Proof. intros. unfold list_prev. erewrite interior_or_tail by done. by apply rd_prev_ok. Qed.

(** ** Linked segments *)

Lemma linked_cons h a b r :
  linked h (a :: b :: r) ↔ nxt h a = Some b ∧ prv h b = Some a ∧ linked h (b :: r).
Proof. done. Qed.

Lemma linked_app h us a vs :
  linked h (us ++ a :: vs) ↔ linked h (us ++ [a]) ∧ linked h (a :: vs).
Proof.
  induction us as [|x us IH]; [simpl; naive_solver|].
  destruct us as [|y us]; [simpl in *; naive_solver|].
  change ((x :: y :: us) ++ a :: vs) with (x :: y :: us ++ a :: vs).
  change ((x :: y :: us) ++ [a]) with (x :: y :: us ++ [a]).
  rewrite !linked_cons. simpl in IH. naive_solver.
Qed.

(** A segment only depends on the [next] members of all but its last element
    and the [prev] members of all but its first. *)
Lemma linked_frame h h' ns :
  (∀ us x y vs, ns = us ++ x :: y :: vs → nxt h' x = nxt h x ∧ prv h' y = prv h y) →
  linked h ns → linked h' ns.
Proof.
  induction ns as [|a [|b r] IH]; [done..|].
  intros Hf. rewrite !linked_cons. intros (H1 & H2 & H3).
  destruct (Hf [] a b r) as [-> ->]; [done|]. split_and!; [done..|].
  apply IH; [|done]. intros us x y vs Heq. apply (Hf (a :: us) x y vs). by rewrite Heq.
Qed.

Lemma linked_frame_snoc h h' us a :
  (∀ x, x ∈ us → nxt h' x = nxt h x ∧ prv h' x = prv h x) → prv h' a = prv h a →
  linked h (us ++ [a]) → linked h' (us ++ [a]).
Proof.
  intros Hus Ha. apply linked_frame. intros us' x y vs Heq.
  destruct vs as [|v vs _] using rev_ind.
  - replace (us' ++ [x; y]) with ((us' ++ [x]) ++ [y]) in Heq by by rewrite <-(assoc_L (++)).
    apply app_inj_tail in Heq as [-> ->]. split; [apply Hus; set_solver|done].
  - replace (us' ++ x :: y :: vs ++ [v]) with ((us' ++ x :: y :: vs) ++ [v]) in Heq
      by by rewrite <-(assoc_L (++)).
    apply app_inj_tail in Heq as [-> ->]. split; apply Hus; set_solver.
Qed.

Lemma linked_frame_cons h h' a vs :
  (∀ x, x ∈ vs → nxt h' x = nxt h x ∧ prv h' x = prv h x) → nxt h' a = nxt h a →
  linked h (a :: vs) → linked h' (a :: vs).
Proof.
  intros Hvs Ha. apply linked_frame. intros us x y vs' Heq.
  destruct us as [|u us]; simplify_eq/=.
  - split; [done|]. apply Hvs. set_solver.
  - split; apply Hvs; set_solver.
Qed.

Lemma linked_same h h' ns :
  (∀ x, x ∈ ns → h' !! x = h !! x) → linked h ns → linked h' ns.
Proof.
  intros Hs. apply linked_frame. intros us x y vs ->. unfold nxt, prv.
  rewrite !Hs by set_solver. done.
Qed.

(** An element of the list in context: its neighbours and its links. *)
Lemma linked_nxt h us a b vs :
  linked h (us ++ a :: b :: vs) → nxt h a = Some b ∧ prv h b = Some a.
Proof. rewrite linked_app. intros [_ H]. by apply linked_cons in H as (?&?&_). Qed.

(** ** Frames *)

Lemma frame_refl ns h : frame ns h h.
Proof. done. Qed.
Lemma frame_trans ns h1 h2 h3 : frame ns h1 h2 → frame ns h2 h3 → frame ns h1 h3.
Proof.
  intros [H1 D1] [H2 D2]. split; [|congruence].
  intros q Hq. rewrite H2, H1 by done. done.
Qed.
Lemma frame_mono ns ns' h h' : ns ⊆ ns' → frame ns h h' → frame ns' h h'.
Proof. intros Hs [H D]. split; [|done]. set_solver. Qed.
Lemma frame_upd_prev ns h e v : e ∈ ns → frame ns h (upd_prev e v h).
Proof.
  intros. split; unfold upd_prev; [|apply dom_alter_L].
  intros q Hq. apply lookup_alter_ne. set_solver.
Qed.
Lemma frame_upd_next ns h e v : e ∈ ns → frame ns h (upd_next e v h).
Proof.
  intros. split; unfold upd_next; [|apply dom_alter_L].
  intros q Hq. apply lookup_alter_ne. set_solver.
Qed.
Lemma frame_size ns h h' : frame ns h h' → size h' = size h.
Proof. intros [_ D]. by rewrite <-!size_dom, D. Qed.
Lemma frame_is_Some ns h h' q : frame ns h h' → is_Some (h' !! q) ↔ is_Some (h !! q).
Proof. intros [_ D]. by rewrite <-!elem_of_dom, D. Qed.

Ltac solve_frame :=
  repeat first
    [ apply frame_refl
    | eapply frame_trans; [|apply frame_upd_prev; rewrite ?elem_of_cons; by auto]
    | eapply frame_trans; [|apply frame_upd_next; rewrite ?elem_of_cons; by auto] ].

Lemma dll_frame ns h h' l xs :
  frame ns h h' → (∀ x, x ∈ nodes l xs → x ∉ ns) → dll h l xs → dll h' l xs.
Proof.
  intros [Hf _] Hd (Hn & Hz & Hp & Ht & Hl).
  assert (∀ x, x ∈ nodes l xs → h' !! x = h !! x) as Hs by (intros; apply Hf; auto).
  split_and!; [done|done| | |].
  - unfold prv in *. rewrite Hs; [done|unfold nodes; set_solver].
  - unfold nxt in *. rewrite Hs; [done|unfold nodes; set_solver].
  - by eapply linked_same.
Qed.

(** A list at a position: [p] and [b] are the neighbours around it. *)
Lemma nodes_split l xs ys :
  ∃ us p b vs, l :: xs = us ++ [p] ∧ ys ++ [tail_of l] = b :: vs ∧
    nodes l (xs ++ ys) = us ++ p :: b :: vs.
Proof.
  destruct (exists_last (l := l :: xs)) as (us & p & E); [done|].
  assert (∃ b vs, ys ++ [tail_of l] = b :: vs) as (b & vs & E2).
  { destruct ys; simpl; eauto. }
  exists us, p, b, vs. split_and!; [done|done|].
  unfold nodes. rewrite <-(assoc_L (++)), E2, app_comm_cons, E.
  by rewrite <-(assoc_L (++)).
Qed.

(** The element at the front of [ys], the rest of a list at [l]: its first
    element, or the tail. *)
Definition front_of (l : Z) (ys : list Z) : Z :=
  match ys with [] => tail_of l | y :: _ => y end.
(** The element before the rest: the last one of [xs], or the head. *)
Definition back_of (l : Z) (xs : list Z) : Z := default l (last xs).

Lemma nodes_focus l xs ys :
  ∃ us vs, l :: xs = us ++ [back_of l xs] ∧ ys ++ [tail_of l] = front_of l ys :: vs ∧
    nodes l (xs ++ ys) = us ++ back_of l xs :: front_of l ys :: vs.
Proof.
  destruct (nodes_split l xs ys) as (us & p & b & vs & E1 & E2 & E3).
  assert (p = back_of l xs) as ->.
  { unfold back_of. assert (last (l :: xs) = Some p) as H by (by rewrite E1, last_snoc).
    destruct xs as [|x xs]; simpl in *; [naive_solver|].
    change (last (x :: xs) = Some p) in H. by rewrite H. }
  assert (b = front_of l ys) as -> by (destruct ys; naive_solver).
  eauto 10.
Qed.

(** Facts about the two neighbours of a position in a list. *)
Lemma dll_focus h l xs ys :
  dll h l (xs ++ ys) →
  let p := back_of l xs in let b := front_of l ys in
  p ≠ NULL ∧ b ≠ NULL ∧ p ≠ b ∧ nxt h p = Some b ∧ prv h b = Some p ∧
  (p ∈ nodes l (xs ++ ys)) ∧ (b ∈ nodes l (xs ++ ys)) ∧
  is_Some (prv h p) ∧ is_Some (nxt h b).
Proof.
  intros (Hn & Hz & Hp & Ht & Hl). destruct (nodes_focus l xs ys) as (us & vs & E1 & E2 & E3).
  simpl. rewrite E3 in *. pose proof (linked_nxt _ _ _ _ _ Hl) as [L1 L2].
  apply NoDup_app in Hn as (_ & _ & Hn). apply NoDup_cons in Hn as [Hn _].
  split_and!; [set_solver..| | |set_solver|set_solver| |]; [done|done| |].
  - apply nxt_dom in L1. unfold prv. by apply fmap_is_Some.
  - apply prv_dom in L2. unfold nxt. by apply fmap_is_Some.
Qed.

Lemma nodes_ends l xs : l ∈ nodes l xs ∧ tail_of l ∈ nodes l xs.
Proof. unfold nodes. set_solver. Qed.

Lemma ends_focus l xs ys :
  NoDup (nodes l (xs ++ ys)) → l ≠ front_of l ys ∧ tail_of l ≠ back_of l xs.
Proof.
  destruct (nodes_focus l xs ys) as (us & vs & E1 & E2 & _). unfold nodes. split; intros Heq.
  - apply NoDup_cons in H as [Hn _]. apply Hn. rewrite <-(assoc_L (++)), E2. set_solver.
  - rewrite app_comm_cons, (app_comm_cons xs), E1 in H.
    apply NoDup_app in H as (_ & Hn & _). apply (Hn (back_of l xs)); set_solver.
Qed.

Lemma list_insert_run h p b e :
  e ≠ NULL → b ≠ NULL → p ≠ NULL → prv h b = Some p → is_Some (nxt h b) →
  is_Some (h !! p) → is_Some (h !! e) → e ≠ p → e ≠ b →
  list_insert b e h = Ok (tt, upd_prev b e (upd_next p e (upd_next e b (upd_prev e p h)))).
Proof.
  intros ??? Hb [n ?] ????. unfold list_insert. erewrite interior_or_tail by done.
  rewrite bool_decide_eq_true_2 by done. steps. apply wr_prev_ok. eauto 10 with klist.
Qed.

Lemma insert_linked h us p b vs e :
  NoDup (us ++ p :: b :: vs) → e ∉ us ++ p :: b :: vs →
  linked h (us ++ p :: b :: vs) → is_Some (h !! e) →
  linked (upd_prev b e (upd_next p e (upd_next e b (upd_prev e p h)))) (us ++ p :: e :: b :: vs).
Proof.
  intros Hn He Hl Hs. pose proof (linked_nxt _ _ _ _ _ Hl) as [L1 L2].
  assert (e ≠ p ∧ e ≠ b ∧ p ≠ b) as (?&?&?).
  { apply NoDup_app in Hn as (_ & _ & Hn). apply NoDup_cons in Hn as [Hn _]. set_solver. }
  apply NoDup_app in Hn as (Hn1 & Hn2 & Hn3).
  apply NoDup_cons in Hn3 as [Hn3 Hn4]. apply NoDup_cons in Hn4 as [Hn4 _].
  apply linked_app in Hl as [Hl1 Hl2]. apply linked_cons in Hl2 as (_ & _ & Hl2).
  rewrite linked_app, !linked_cons. split_and!.
  - eapply linked_frame_snoc; [| |exact Hl1]; [|by mem].
    intros x Hx. assert (x ≠ p ∧ x ≠ b ∧ x ≠ e) as (?&?&?) by set_solver. by mem.
  - by mem.
  - by mem.
  - by mem.
  - mem; eauto 10 with klist.
  - eapply linked_frame_cons; [| |exact Hl2]; [|by mem].
    intros x Hx. assert (x ≠ p ∧ x ≠ b ∧ x ≠ e) as (?&?&?) by set_solver. by mem.
Qed.

Lemma list_insert_spec h l xs ys e :
  dll h l (xs ++ ys) → e ∉ nodes l (xs ++ ys) → e ≠ NULL → is_Some (h !! e) →
  ∃ h', list_insert (front_of l ys) e h = Ok (tt, h') ∧
    dll h' l (xs ++ e :: ys) ∧ frame (e :: nodes l (xs ++ ys)) h h'.
Proof.
  intros Hd He Hz Hs. pose proof (dll_focus _ _ _ _ Hd) as (?&?&?&N1&P1&?&?&?&?).
  eexists. split; [apply (list_insert_run _ (back_of l xs)); eauto with klist; by intros ->|].
  split; [|solve_frame].
  destruct Hd as (Hn & Hnz & Hp & Ht & Hl).
  destruct (nodes_focus l xs ys) as (us & vs & E1 & E2 & E3).
  assert (nodes l (xs ++ e :: ys) = us ++ back_of l xs :: e :: front_of l ys :: vs) as E4.
  { unfold nodes. rewrite <-(assoc_L (++)). simpl. rewrite E2, app_comm_cons, E1.
    by rewrite <-(assoc_L (++)). }
  assert (nodes l (xs ++ e :: ys) ≡ₚ e :: nodes l (xs ++ ys)) as Hperm.
  { unfold nodes. rewrite <-(Permutation_middle xs ys e). simpl. apply perm_swap. }
  destruct (nodes_ends l (xs ++ ys)) as [Hin1 Hin2].
  assert (l ≠ e ∧ tail_of l ≠ e) as [? ?] by (split; intros Heq; apply He; by rewrite <-Heq).
  destruct (ends_focus _ _ _ Hn) as [? ?].
  split_and!.
  - rewrite Hperm. by apply NoDup_cons.
  - rewrite Hperm. by apply not_elem_of_cons.
  - by mem.
  - by mem.
  - rewrite E4. rewrite E3 in *. by apply insert_linked.
Qed.

Lemma list_remove_run h p e n :
  e ≠ NULL → p ≠ NULL → n ≠ NULL → e ≠ p → e ≠ n →
  prv h e = Some p → nxt h e = Some n → is_Some (h !! p) → is_Some (h !! n) →
  list_remove e h = Ok (n, upd_prev n p (upd_next p n h)).
Proof.
  intros. unfold list_remove. erewrite bind_ok by by eapply is_interior_run.
  rewrite !bool_decide_eq_true_2 by done. steps. apply rd_next_ok. by mem.
Qed.

Lemma remove_linked h us p e n vs :
  NoDup (us ++ p :: e :: n :: vs) → linked h (us ++ p :: e :: n :: vs) →
  linked (upd_prev n p (upd_next p n h)) (us ++ p :: n :: vs).
Proof.
  intros Hn Hl. apply NoDup_app in Hn as (_ & Hn2 & Hn3).
  apply NoDup_cons in Hn3 as [Hn3 Hn4]. apply NoDup_cons in Hn4 as [Hn4 Hn5].
  apply NoDup_cons in Hn5 as [Hn5 _].
  apply linked_app in Hl as [Hl1 Hl2]. rewrite !linked_cons in Hl2.
  destruct Hl2 as (L1 & L2 & L3 & L4 & Hl2).
  assert (p ≠ n) by set_solver.
  rewrite linked_app, linked_cons. split_and!.
  - eapply linked_frame_snoc; [| |exact Hl1]; [|by mem].
    intros x Hx. pose proof (Hn2 x Hx). assert (x ≠ p ∧ x ≠ n) as (?&?) by set_solver. by mem.
  - by mem.
  - by mem.
  - eapply linked_frame_cons; [| |exact Hl2]; [|by mem].
    intros x Hx. assert (x ≠ p ∧ x ≠ n) as (?&?) by set_solver. by mem.
Qed.

Lemma back_of_snoc l xs e : back_of l (xs ++ [e]) = e.
Proof. unfold back_of. by rewrite last_snoc. Qed.

Lemma nodes_middle l xs e ys : nodes l (xs ++ e :: ys) ≡ₚ e :: nodes l (xs ++ ys).
Proof. unfold nodes. rewrite <-(Permutation_middle xs ys e). simpl. apply perm_swap. Qed.

Lemma perm_second (us : list Z) p e r : us ++ p :: e :: r ≡ₚ e :: us ++ p :: r.
Proof. rewrite Permutation_middle. apply Permutation_app_head, perm_swap. Qed.

Lemma list_remove_spec h l xs e ys :
  dll h l (xs ++ e :: ys) →
  ∃ h', list_remove e h = Ok (front_of l ys, h') ∧
    dll h' l (xs ++ ys) ∧ frame (nodes l (xs ++ ys)) h h'.
Proof.
  intros Hd. pose proof (dll_focus _ _ _ _ Hd) as (?&?&?&N1&P1&Hi1&Hi2&?&?).
  assert (Hd' := Hd). replace (xs ++ e :: ys) with ((xs ++ [e]) ++ ys) in Hd'
    by by rewrite <-(assoc_L (++)).
  pose proof (dll_focus _ _ _ _ Hd') as (?&?&?&N2&P2&Hi3&Hi4&?&?).
  rewrite back_of_snoc in *. cbn [front_of] in *.
  eexists. split; [apply (list_remove_run _ (back_of l xs)); eauto with klist|].
  destruct Hd as (Hn & Hnz & Hp & Ht & Hl). rewrite nodes_middle in Hn, Hnz.
  apply NoDup_cons in Hn as [He Hn]. apply not_elem_of_cons in Hnz as [_ Hnz].
  destruct (nodes_focus l xs ys) as (us & vs & E1 & E2 & E3).
  assert (back_of l xs ∈ nodes l (xs ++ ys) ∧ front_of l ys ∈ nodes l (xs ++ ys)) as [? ?].
  { rewrite E3, !elem_of_app, !elem_of_cons. auto. }
  split; [|solve_frame].
  destruct (ends_focus _ _ _ Hn) as [? ?]. split_and!; [done|done|by mem|by mem|].
  rewrite E3. apply remove_linked with e.
  - rewrite perm_second. rewrite E3 in Hn, He. by apply NoDup_cons.
  - revert Hl. unfold nodes. rewrite <-(assoc_L (++)). cbn [app]. rewrite E2, app_comm_cons, E1.
    by rewrite <-(assoc_L (++)).
Qed.

(** ** Traversal *)

Lemma dll_bound h l xs : dll h l xs → (length xs < size h)%nat.
Proof.
  intros (Hn & _ & Hp & _ & Hl).
  assert (∀ x, x ∈ nodes l xs → x ∈ dom h) as Hd.
  { intros x Hx. apply elem_of_dom. apply list_elem_of_split in Hx as (us & vs & E).
    destruct us as [|u us _] using rev_ind.
    - unfold nodes in E. simplify_eq/=. eauto with klist.
    - rewrite E, <-(assoc_L (++)) in Hl. cbn [app] in Hl.
      apply linked_nxt in Hl as [_ ?]. eauto with klist. }
  assert (size (list_to_set (nodes l xs) : gset Z) ≤ size (dom h))%nat as Hs
    by (apply subseteq_size; intros x; rewrite elem_of_list_to_set; auto).
  rewrite size_list_to_set, size_dom in Hs by done.
  unfold nodes in Hs. simpl in Hs. rewrite length_app in Hs. simpl in Hs. lia.
Qed.

Lemma dll_nonnull h l xs : dll h l xs → l ≠ NULL.
Proof. intros (_ & Hz & _). unfold nodes in Hz. set_solver. Qed.

Lemma list_end_ok h l : l ≠ NULL → list_end l h = Ok (tail_of l, h).
Proof. intros. unfold list_end. by rewrite bool_decide_eq_true_2. Qed.

Lemma list_begin_ok h l xs : dll h l xs → list_begin l h = Ok (front_of l xs, h).
Proof.
  intros Hd. unfold list_begin.
  rewrite bool_decide_eq_true_2 by (by eapply dll_nonnull). steps.
  apply rd_next_ok. by destruct (dll_focus h l [] xs Hd) as (_&_&_&?&_).
Qed.

(** [e] is neither end of the list and the rest of it is [ys]. *)
Lemma dll_next_ok h l xs e ys :
  dll h l (xs ++ e :: ys) → list_next e h = Ok (front_of l ys, h).
Proof.
  intros Hd. pose proof (dll_focus _ _ _ _ Hd) as (_&_&_&_&Hp&_&_&_&_).
  replace (xs ++ e :: ys) with ((xs ++ [e]) ++ ys) in Hd by by rewrite <-(assoc_L (++)).
  pose proof (dll_focus _ _ _ _ Hd) as (?&?&_&?&_). rewrite back_of_snoc in *.
  by eapply list_next_ok.
Qed.

Lemma dll_prev_ok h l xs ys :
  dll h l (xs ++ ys) → list_prev (front_of l ys) h = Ok (back_of l xs, h).
Proof.
  intros Hd. pose proof (dll_focus _ _ _ _ Hd) as (?&?&_&_&?&_&_&_&[n ?]).
  by eapply list_prev_ok.
Qed.

Lemma front_of_end h l xs ys :
  dll h l (xs ++ ys) → front_of l ys = tail_of l ↔ ys = [].
Proof.
  intros (Hn & _). split; [|by intros ->]. intros E. destruct ys as [|y ys]; [done|].
  simpl in E. subst. unfold nodes in Hn. apply NoDup_cons in Hn as [_ Hn].
  apply NoDup_app in Hn as (_ & Hn & _). destruct (Hn (tail_of l)); set_solver.
Qed.

(** The loop test [e != list_end (list)] with [e] at the front of [ys]. *)
Lemma loop_test {A} h0 h l xs ys (k1 k2 : M heap A) :
  dll h0 l (xs ++ ys) →
  (en ← list_end l; if decide (front_of l ys = en) then k1 else k2) h
  = match ys with [] => k1 h | _ :: _ => k2 h end.
Proof.
  intros Hd. pose proof (front_of_end _ _ _ _ Hd) as He.
  erewrite bind_ok by (apply list_end_ok; by eapply dll_nonnull).
  case_decide; destruct ys; naive_solver.
Qed.

Lemma bound_run {A} h (k : nat → M heap A) : (n ← bound; k n) h = k (S (size h)) h.
Proof. done. Qed.

Lemma list_empty_ok h l xs :
  dll h l xs → list_empty l h = Ok (bool_decide (xs = []), h).
Proof.
  intros Hd. unfold list_empty. erewrite bind_ok by by apply list_begin_ok.
  erewrite bind_ok by (apply list_end_ok; by eapply dll_nonnull).
  unfold mret, M_ret. do 2 f_equal. apply bool_decide_ext. by apply (front_of_end h l []).
Qed.

Lemma list_size_loop_ok fuel h l xs ys cnt :
  dll h l (xs ++ ys) → (length ys < fuel)%nat →
  list_size_loop fuel l (front_of l ys) cnt h = Ok (cnt + Z.of_nat (length ys), h).
Proof.
  revert xs ys cnt. induction fuel as [|fuel IH]; intros xs ys cnt Hd Hf; [lia|].
  cbn [list_size_loop]. erewrite loop_test by done. destruct ys as [|y ys].
  - simpl. by rewrite Z.add_0_r.
  - cbn [front_of]. erewrite bind_ok by by eapply dll_next_ok.
    replace (xs ++ y :: ys) with ((xs ++ [y]) ++ ys) in Hd by by rewrite <-(assoc_L (++)).
    rewrite (IH _ _ _ Hd) by (simpl in Hf; lia). do 2 f_equal. simpl. lia.
Qed.

Lemma list_size_ok h l xs : dll h l xs → list_size l h = Ok (Z.of_nat (length xs), h).
Proof.
  intros Hd. unfold list_size. erewrite bind_ok by by apply list_begin_ok.
  rewrite bound_run. pose proof (dll_bound _ _ _ Hd).
  by rewrite (list_size_loop_ok _ h l [] xs) by (done || lia).
Qed.

Lemma list_push_front_spec h l xs e :
  dll h l xs → e ∉ nodes l xs → e ≠ NULL → is_Some (h !! e) →
  ∃ h', list_push_front l e h = Ok (tt, h') ∧
    dll h' l (e :: xs) ∧ frame (e :: nodes l xs) h h'.
Proof.
  intros Hd ???. unfold list_push_front. erewrite bind_ok by by apply list_begin_ok.
  by apply (list_insert_spec h l [] xs).
Qed.

Lemma list_push_back_spec h l xs e :
  dll h l xs → e ∉ nodes l xs → e ≠ NULL → is_Some (h !! e) →
  ∃ h', list_push_back l e h = Ok (tt, h') ∧
    dll h' l (xs ++ [e]) ∧ frame (e :: nodes l xs) h h'.
Proof.
  intros Hd ???. unfold list_push_back.
  erewrite bind_ok by (apply list_end_ok; by eapply dll_nonnull).
  pose proof (list_insert_spec h l xs [] e) as Hi. rewrite app_nil_r in Hi. auto.
Qed.

Lemma list_front_ok h l x xs : dll h l (x :: xs) → list_front l h = Ok (x, h).
Proof.
  intros Hd. unfold list_front. erewrite bind_ok by by apply list_empty_ok.
  steps. apply rd_next_ok. by destruct (dll_focus h l [] _ Hd) as (_&_&_&?&_).
Qed.

Lemma list_back_ok h l xs x : dll h l (xs ++ [x]) → list_back l h = Ok (x, h).
Proof.
  intros Hd. unfold list_back. erewrite bind_ok by by apply list_empty_ok.
  rewrite bool_decide_eq_false_2 by (by destruct xs). steps. apply rd_prev_ok.
  rewrite <-(app_nil_r (xs ++ [x])) in Hd.
  destruct (dll_focus _ _ _ _ Hd) as (_&_&_&_&?&_). by rewrite back_of_snoc in *.
Qed.

(** On an empty list the assertion of [list_front] and [list_back] fails. *)
Lemma list_front_empty h l : dll h l [] → list_front l h = Err AssertFailed.
Proof. intros Hd. unfold list_front. by erewrite bind_ok by by apply list_empty_ok. Qed.
Lemma list_back_empty h l : dll h l [] → list_back l h = Err AssertFailed.
Proof. intros Hd. unfold list_back. by erewrite bind_ok by by apply list_empty_ok. Qed.

Lemma list_pop_front_spec h l x xs :
  dll h l (x :: xs) →
  ∃ h', list_pop_front l h = Ok (x, h') ∧ dll h' l xs ∧ frame (nodes l xs) h h'.
Proof.
  intros Hd. destruct (list_remove_spec h l [] x xs Hd) as (h' & Hr & ? & ?).
  exists h'. split; [|done]. unfold list_pop_front.
  erewrite bind_ok by by eapply list_front_ok. by erewrite bind_ok.
Qed.

Lemma list_pop_back_spec h l xs x :
  dll h l (xs ++ [x]) →
  ∃ h', list_pop_back l h = Ok (x, h') ∧ dll h' l xs ∧ frame (nodes l xs) h h'.
Proof.
  intros Hd. destruct (list_remove_spec h l xs x [] Hd) as (h' & Hr & H1 & H2).
  rewrite app_nil_r in *. exists h'. split; [|done]. unfold list_pop_back.
  erewrite bind_ok by by eapply list_back_ok. by erewrite bind_ok.
Qed.

Lemma list_init_spec h l :
  l ≠ NULL → tail_of l ≠ NULL → is_Some (h !! l) → is_Some (h !! tail_of l) →
  ∃ h', list_init l h = Ok (tt, h') ∧ dll h' l [] ∧ frame [l; tail_of l] h h'.
Proof.
  intros Hl Ht ? ?. assert (l ≠ tail_of l) by (unfold tail_of, sizeof_list_elem; lia).
  eexists. unfold list_init, head_of. rewrite bool_decide_eq_true_2 by done. steps.
  split; [apply wr_next_ok; eauto 10 with klist|].
  split; [|solve_frame]. unfold dll, nodes. cbn [app linked]. split_and!; try by mem.
  - apply NoDup_cons. split; [by rewrite list_elem_of_singleton|apply NoDup_singleton].
  - rewrite !not_elem_of_cons. auto using not_elem_of_nil.
Qed.

(** ** Extremal elements *)

Definition max_from (less : Z → Z → bool) (m : Z) (es : list Z) : Z :=
  foldl (λ m e, if less m e then e else m) m es.
Definition min_from (less : Z → Z → bool) (m : Z) (es : list Z) : Z :=
  foldl (λ m e, if less e m then e else m) m es.

Lemma list_max_loop_ok less fuel h l xs ys m :
  dll h l (xs ++ ys) → (length ys < fuel)%nat →
  list_max_loop less fuel l m (front_of l ys) h = Ok (max_from less m ys, h).
Proof.
  revert xs ys m. induction fuel as [|fuel IH]; intros xs ys m Hd Hf; [lia|].
  cbn [list_max_loop]. erewrite loop_test by done. destruct ys as [|y ys]; [done|].
  cbn [front_of]. erewrite bind_ok by by eapply dll_next_ok.
  replace (xs ++ y :: ys) with ((xs ++ [y]) ++ ys) in Hd by by rewrite <-(assoc_L (++)).
  rewrite (IH _ _ _ Hd) by (simpl in Hf; lia). done.
Qed.

Lemma list_min_loop_ok less fuel h l xs ys m :
  dll h l (xs ++ ys) → (length ys < fuel)%nat →
  list_min_loop less fuel l m (front_of l ys) h = Ok (min_from less m ys, h).
Proof.
  revert xs ys m. induction fuel as [|fuel IH]; intros xs ys m Hd Hf; [lia|].
  cbn [list_min_loop]. erewrite loop_test by done. destruct ys as [|y ys]; [done|].
  cbn [front_of]. erewrite bind_ok by by eapply dll_next_ok.
  replace (xs ++ y :: ys) with ((xs ++ [y]) ++ ys) in Hd by by rewrite <-(assoc_L (++)).
  rewrite (IH _ _ _ Hd) by (simpl in Hf; lia). done.
Qed.

(** What the loops compute: an empty list gives its tail. *)
Lemma list_max_run less h l xs :
  dll h l xs →
  list_max less l h =
    Ok (match xs with [] => tail_of l | x :: xs => max_from less x xs end, h).
Proof.
  intros Hd. unfold list_max. erewrite bind_ok by by apply list_begin_ok.
  erewrite bind_ok by (apply list_end_ok; by eapply dll_nonnull).
  pose proof (front_of_end h l [] _ Hd) as He. pose proof (dll_bound _ _ _ Hd).
  destruct xs as [|x xs]; case_decide; [naive_solver|done| |naive_solver].
  cbn [front_of]. erewrite bind_ok by by apply (dll_next_ok h l []).
  rewrite bound_run. by apply (list_max_loop_ok less _ h l [x]); [|simpl in *; lia].
Qed.

Lemma list_min_run less h l xs :
  dll h l xs →
  list_min less l h =
    Ok (match xs with [] => tail_of l | x :: xs => min_from less x xs end, h).
Proof.
  intros Hd. unfold list_min. erewrite bind_ok by by apply list_begin_ok.
  erewrite bind_ok by (apply list_end_ok; by eapply dll_nonnull).
  pose proof (front_of_end h l [] _ Hd) as He. pose proof (dll_bound _ _ _ Hd).
  destruct xs as [|x xs]; case_decide; [naive_solver|done| |naive_solver].
  cbn [front_of]. erewrite bind_ok by by apply (dll_next_ok h l []).
  rewrite bound_run. by apply (list_min_loop_ok less _ h l [x]); [|simpl in *; lia].
Qed.

(** A comparison that orders elements by a key: of three elements, one that
    lies strictly between two others is comparable with one of them. *)
Class StrictWeak (less : Z → Z → bool) : Prop := {
  less_asym x y : less x y = true → less y x = false;
  less_negtrans x y z : less x z = true → less x y = true ∨ less y z = true
}.

#[export] Instance default_less_strict_weak conv : StrictWeak (default_list_less_func conv).
Proof. split; unfold default_list_less_func; intros; lia. Qed.

#[export] Instance flip_strict_weak less : StrictWeak less → StrictWeak (λ a b, less b a).
Proof.
  intros []. split; [auto|]. intros x y z H. destruct (less_negtrans0 z y x H); auto.
Qed.

Lemma less_trans less `{!StrictWeak less} x y z :
  less x y = true → less y z = true → less x z = true.
Proof.
  intros H1 H2. destruct (less_negtrans x z y H1) as [|H3]; [done|].
  by rewrite (less_asym _ _ H2) in H3.
Qed.

(** The maximum found is the earliest: everything before it is smaller, and
    nothing after it is larger. *)
Definition first_max (less : Z → Z → bool) (xs : list Z) (m : Z) : Prop :=
  ∃ us vs, xs = us ++ m :: vs ∧
    Forall (λ e, less e m = true) us ∧ Forall (λ e, less m e = false) vs.

Lemma max_from_first less `{!StrictWeak less} m es :
  first_max less (m :: es) (max_from less m es).
Proof.
  revert m. induction es as [|e es IH]; intros m.
  { exists [], []. auto. }
  unfold max_from. simpl. destruct (less m e) eqn:E; fold (max_from less).
  - destruct (IH e) as (us & vs & Heq & H1 & H2). exists (m :: us), vs.
    fold (max_from less e es). split_and!; [by rewrite Heq| |done].
    constructor; [|done]. destruct us as [|u us]; simpl in Heq; [congruence|].
    simplify_eq. eapply less_trans; [done..|]. by inversion H1.
  - destruct (IH m) as (us & vs & Heq & H1 & H2). fold (max_from less m es).
    destruct us as [|u us]; simpl in Heq; injection Heq as Heq1 Heq2.
    + exists [], (e :: es). rewrite <-Heq1 in *. split_and!; [done..|].
      constructor; [done|]. by rewrite Heq2.
    + exists (m :: e :: us), vs. subst u. split_and!; [simpl; by do 2 f_equal| |done].
      inversion_clear H1 as [|? ? Hm Hus]. repeat constructor; [done| |done].
      destruct (less_negtrans m e (max_from less m es) Hm); [congruence|done].
Qed.

(** ** Sorted insertion and removal of duplicates *)

(** The position of [list_insert_ordered]: after every element that ELEM is
    not less than, up to the first one it is less than. *)
Fixpoint insert_pos (less : Z → Z → bool) (elem : Z) (ys : list Z) : list Z * list Z :=
  match ys with
  | [] => ([], [])
  | y :: ys' => if less elem y then ([], ys)
                else let '(us, vs) := insert_pos less elem ys' in (y :: us, vs)
  end.

Lemma insert_pos_app less elem ys us vs :
  insert_pos less elem ys = (us, vs) → ys = us ++ vs.
Proof.
  revert us vs. induction ys as [|y ys IH]; intros us vs; simpl; [naive_solver|].
  destruct (less elem y); [naive_solver|].
  destruct (insert_pos less elem ys); intros. simplify_eq/=. f_equal. by apply IH.
Qed.

Lemma list_insert_ordered_loop_ok less elem fuel h l xs ys us vs :
  dll h l (xs ++ ys) → (length ys < fuel)%nat →
  insert_pos less elem ys = (us, vs) →
  list_insert_ordered_loop less fuel l elem (front_of l ys) h = Ok (front_of l vs, h).
Proof.
  revert xs ys us vs. induction fuel as [|fuel IH]; intros xs ys us vs Hd Hf Hp; [lia|].
  cbn [list_insert_ordered_loop]. erewrite loop_test by done.
  destruct ys as [|y ys]; simpl in Hp; [by simplify_eq|].
  cbn [front_of]. destruct (less elem y) eqn:E; [by simplify_eq|].
  destruct (insert_pos less elem ys) as [us' vs'] eqn:E2. simplify_eq.
  erewrite bind_ok by by eapply dll_next_ok.
  replace (xs ++ y :: ys) with ((xs ++ [y]) ++ ys) in Hd by by rewrite <-(assoc_L (++)).
  eapply IH; [done| |done]. simpl in Hf. lia.
Qed.

Lemma list_insert_ordered_run less h l xs us vs e :
  dll h l xs → e ∉ nodes l xs → e ≠ NULL → is_Some (h !! e) →
  insert_pos less e xs = (us, vs) →
  ∃ h', list_insert_ordered less l e h = Ok (tt, h') ∧
    dll h' l (us ++ e :: vs) ∧ frame (e :: nodes l xs) h h'.
Proof.
  intros Hd Hn He Hs Hp. unfold list_insert_ordered.
  rewrite !bool_decide_eq_true_2 by eauto using dll_nonnull. steps.
  erewrite bind_ok by by apply list_begin_ok. rewrite bound_run.
  pose proof (dll_bound _ _ _ Hd).
  erewrite bind_ok by (eapply (list_insert_ordered_loop_ok less e _ h l []); [done|lia|done]).
  apply insert_pos_app in Hp as ->. by apply list_insert_spec.
Qed.

(** Adjacent elements are in nondecreasing order. *)
Definition sorted_by (less : Z → Z → bool) (xs : list Z) : Prop :=
  Sorted (λ x y, less y x = false) xs.

Lemma insert_pos_sorted less `{!StrictWeak less} e xs us vs :
  insert_pos less e xs = (us, vs) → sorted_by less xs → sorted_by less (us ++ e :: vs).
Proof.
  unfold sorted_by. revert us vs. induction xs as [|x xs IH]; intros us vs Hp Hs; simpl in Hp.
  { simplify_eq/=. repeat constructor. }
  destruct (less e x) eqn:E; simplify_eq/=.
  { repeat constructor; [inversion Hs; auto..|]. by apply less_asym. }
  destruct (insert_pos less e xs) as [us' vs'] eqn:E2. simplify_eq/=.
  inversion_clear Hs as [|? ? Hs1 Hs2]. constructor; [by eapply IH|].
  apply insert_pos_app in E2. subst. destruct us' as [|u us']; simpl in *.
  - by constructor.
  - constructor. by inversion Hs2.
Qed.

Lemma list_unique_null less h l : l ≠ NULL → dll h l [] → ∀ dup, list_unique less l dup h = Ok (tt, h).
Proof.
  intros Hl Hd dup. unfold list_unique. rewrite bool_decide_eq_true_2 by done. steps.
  by erewrite bind_ok by by apply list_empty_ok.
Qed.

(** The elements kept after [e] and those removed as duplicates, in order. *)
Fixpoint uniq_from (less : Z → Z → bool) (e : Z) (ys : list Z) : list Z * list Z :=
  match ys with
  | [] => ([], [])
  | y :: ys =>
      if negb (less e y) && negb (less y e)
      then let '(k, d) := uniq_from less e ys in (k, y :: d)
      else let '(k, d) := uniq_from less y ys in (y :: k, d)
  end.

Definition list_disjoint (l1 l2 : Z) (xs ys : list Z) : Prop :=
  ∀ x, x ∈ nodes l1 xs → x ∉ nodes l2 ys.

(** The list DUPLICATES, if there is one, holds [ds] and shares no element. *)
Definition dups_ok (h : heap) (l dup : Z) (xs ds : list Z) : Prop :=
  dup = NULL ∨ dll h dup ds ∧ list_disjoint l dup xs ds.

Lemma dll_elem_ok h l xs e ys :
  dll h l (xs ++ e :: ys) → e ≠ NULL ∧ is_Some (h !! e) ∧ e ∉ nodes l (xs ++ ys).
Proof.
  intros Hd. pose proof (dll_focus _ _ _ _ Hd) as (_&?&_&_&?&_).
  split_and!; [done|by eauto with klist|].
  destruct Hd as (Hn & _). rewrite nodes_middle in Hn. by apply NoDup_cons in Hn as [? _].
Qed.

Lemma nodes_snoc l xs e : nodes l (xs ++ [e]) ≡ₚ e :: nodes l xs.
Proof. pose proof (nodes_middle l xs e []) as H. by rewrite app_nil_r in H. Qed.

(** The removal of one duplicate. *)
Lemma unique_remove_ok h l dup xs y ys ds :
  dll h l (xs ++ y :: ys) → dups_ok h l dup (xs ++ y :: ys) ds →
  ∃ h', (list_remove y;; (if decide (dup ≠ NULL) then list_push_back dup y else mret tt)) h
          = Ok (tt, h') ∧
    dll h' l (xs ++ ys) ∧ dups_ok h' l dup (xs ++ ys) (ds ++ [y]) ∧ dom h' = dom h.
Proof.
  intros Hd Hu. destruct (list_remove_spec h l xs y ys Hd) as (h1 & R1 & Hd1 & F1).
  destruct (dll_elem_ok _ _ _ _ _ Hd) as (Hy1 & Hy2 & Hy3).
  erewrite bind_ok by exact R1. case_decide as Hdup; [|].
  2:{ exists h1. destruct F1. split_and!; [done|done|left; lia|done]. }
  destruct Hu as [|[Hu1 Hu2]]; [done|].
  assert (y ∉ nodes dup ds ∧ ∀ x, x ∈ nodes dup ds → x ∉ nodes l (xs ++ ys)) as [Hy4 Hdis].
  { unfold list_disjoint in Hu2. setoid_rewrite nodes_middle in Hu2. split.
    - apply Hu2. by left.
    - intros x Hx Hx'. by apply (Hu2 x); [right|]. }
  assert (dll h1 dup ds) as Hu1' by (eapply dll_frame; [exact F1|done|done]).
  destruct (list_push_back_spec h1 dup ds y Hu1' Hy4 Hy1) as (h2 & R2 & Hd2 & F2).
  { eapply frame_is_Some; [exact F1|done]. }
  exists h2. split_and!; [done| | |by destruct F1, F2; congruence].
  - eapply dll_frame; [exact F2| |exact Hd1]. intros x Hx.
    rewrite not_elem_of_cons. split; [by intros ->|]. intros Hx2. by apply (Hdis x).
  - right. split; [done|]. intros x Hx. rewrite nodes_snoc.
    rewrite not_elem_of_cons. split; [by intros ->|]. intros Hx2. by apply (Hdis x).
Qed.

Lemma list_unique_loop_ok less fuel h l dup xs e ys ds k d :
  dll h l (xs ++ e :: ys) → dups_ok h l dup (xs ++ e :: ys) ds →
  (length ys < fuel)%nat → uniq_from less e ys = (k, d) →
  ∃ h', list_unique_loop less fuel l dup e h = Ok (tt, h') ∧
    dll h' l (xs ++ e :: k) ∧ (dup = NULL ∨ dll h' dup (ds ++ d)) ∧ dom h' = dom h.
Proof.
  revert h xs e ys ds k d. induction fuel as [|fuel IH]; intros h xs e ys ds k d Hd Hu Hf E; [lia|].
  cbn [list_unique_loop]. erewrite bind_ok by by eapply dll_next_ok.
  assert (dll h l ((xs ++ [e]) ++ ys)) as Hd' by by rewrite <-(assoc_L (++)).
  erewrite loop_test by exact Hd'. destruct ys as [|y ys]; simpl in E.
  { simplify_eq. exists h. rewrite app_nil_r. unfold dups_ok in Hu. naive_solver. }
  cbn [front_of]. simpl in Hf. destruct (negb (less e y) && negb (less y e)).
  - destruct (uniq_from less e ys) as [k' d'] eqn:E2. simplify_eq.
    destruct (unique_remove_ok h l dup (xs ++ [e]) y ys ds) as (h1 & R1 & Hd1 & Hu1 & D1);
      [done|by rewrite <-(assoc_L (++))|].
    rewrite <-(bind_assoc (list_remove y)). erewrite bind_ok by exact R1.
    rewrite <-(assoc_L (++)) in Hd1, Hu1.
    destruct (IH h1 xs e ys (ds ++ [y]) k d') as (h3 & R3 & ? & Hd3 & D3); [done..|lia|done|].
    exists h3. rewrite <-(assoc_L (++)) in Hd3. split_and!; [done..|congruence].
  - destruct (uniq_from less y ys) as [k' d'] eqn:E2. simplify_eq.
    destruct (IH h (xs ++ [e]) y ys ds k' d) as (h3 & R3 & Hd3 & ?);
      [done|by rewrite <-(assoc_L (++))|lia|done|].
    exists h3. rewrite <-(assoc_L (++)) in Hd3. naive_solver.
Qed.

Lemma list_unique_run less h l dup x xs ds k d :
  dll h l (x :: xs) → dups_ok h l dup (x :: xs) ds → uniq_from less x xs = (k, d) →
  ∃ h', list_unique less l dup h = Ok (tt, h') ∧
    dll h' l (x :: k) ∧ (dup = NULL ∨ dll h' dup (ds ++ d)) ∧ dom h' = dom h.
Proof.
  intros Hd Hu E. unfold list_unique.
  rewrite bool_decide_eq_true_2 by (by eapply dll_nonnull). steps.
  erewrite bind_ok by by apply list_empty_ok. rewrite bool_decide_eq_false_2 by done.
  erewrite bind_ok by by apply list_begin_ok. rewrite bound_run.
  pose proof (dll_bound _ _ _ Hd) as Hb. simpl in Hb.
  by apply (list_unique_loop_ok less _ h l dup [] x xs); [..|lia|].
Qed.

(** ** Reversal *)

(** [h] is [h0] with the two members of every element of [us] exchanged. *)
Definition flipped (us : list Z) (h0 h : heap) : Prop :=
  (∀ q, q ∈ us → nxt h q = prv h0 q ∧ prv h q = nxt h0 q) ∧ frame us h0 h.

Lemma swap_flip h e p n :
  prv h e = Some p → nxt h e = Some n →
  swap (Prev e) (Next e) h = Ok (tt, upd_next e p (upd_prev e n h)).
Proof.
  intros. unfold swap, rd_cell, wr_cell. steps. apply wr_next_ok. eauto with klist.
Qed.

Lemma flipped_snoc us e h0 h p n :
  flipped us h0 h → e ∉ us → prv h0 e = Some p → nxt h0 e = Some n →
  flipped (us ++ [e]) h0 (upd_next e p (upd_prev e n h)).
Proof.
  intros [Hf Hfr] He Hp Hn. assert (is_Some (h !! e)).
  { eapply frame_is_Some; [done|]. eauto with klist. }
  split.
  - intros q [Hq| ->%list_elem_of_singleton]%elem_of_app.
    + assert (q ≠ e) by (by intros ->). mem. by apply Hf.
    + mem. by rewrite Hp, Hn.
  - eapply frame_trans; [eapply frame_mono; [|exact Hfr]; set_solver|].
    eapply frame_trans; [apply frame_upd_prev|apply frame_upd_next]; set_solver.
Qed.

Lemma list_reverse_loop_ok fuel h0 h l us vs :
  dll h0 l (us ++ vs) → flipped us h0 h → (length vs < fuel)%nat →
  ∃ h', list_reverse_loop fuel l (front_of l vs) h = Ok (tt, h') ∧
    flipped (us ++ vs) h0 h'.
Proof.
  revert h us vs. induction fuel as [|fuel IH]; intros h us vs Hd Hf Hl; [lia|].
  cbn [list_reverse_loop]. erewrite loop_test by done. destruct vs as [|v vs].
  { exists h. by rewrite app_nil_r. }
  cbn [front_of]. simpl in Hl.
  pose proof (dll_focus _ _ _ _ Hd) as (_&_&_&_&Hp&_). cbn [front_of] in Hp.
  destruct (dll_elem_ok _ _ _ _ _ Hd) as (_ & _ & Hv).
  assert (v ∉ us) as Hvu by (unfold nodes in Hv; set_solver).
  replace (us ++ v :: vs) with ((us ++ [v]) ++ vs) in Hd |- * by by rewrite <-(assoc_L (++)).
  pose proof (dll_focus _ _ _ _ Hd) as (_&_&_&Hn&_). rewrite back_of_snoc in Hn.
  pose proof (flipped_snoc _ _ _ _ _ _ Hf Hvu Hp Hn) as Hf'.
  assert (h !! v = h0 !! v) as Hsame by by apply Hf.
  erewrite bind_ok by (apply swap_flip; unfold prv, nxt; rewrite Hsame; done).
  erewrite bind_ok.
  2:{ apply rd_prev_ok. destruct Hf' as [Hf' _]. destruct (Hf' v) as [_ ->]; [set_solver|done]. }
  by apply IH; [..|lia].
Qed.

Lemma linked_flipped us h0 h :
  (∀ q, q ∈ us → nxt h q = prv h0 q ∧ prv h q = nxt h0 q) →
  linked h0 us → linked h (reverse us).
Proof.
  induction us as [|a [|b r] IH]; intros Hf Hl; [done..|].
  apply linked_cons in Hl as (L1 & L2 & Hl). rewrite reverse_cons.
  assert (linked h (reverse (b :: r))) as Hr by (apply IH; [set_solver|done]).
  rewrite reverse_cons, <-(assoc_L (++)) in *. apply linked_app.
  split; [done|]. apply linked_cons. destruct (Hf a), (Hf b); [set_solver..|].
  split_and!; [congruence..|done].
Qed.

Lemma nodes_reverse l xs : nodes l (reverse xs) ≡ₚ nodes l xs.
Proof. unfold nodes. by rewrite (reverse_Permutation xs). Qed.

(** The links left to set once the elements are flipped: those of the two
    ends, [a] the old last element and [b] the old first. *)
Lemma reverse_linked h l a b ms :
  let h' := upd_next b (tail_of l) (upd_prev a l (upd_prev (tail_of l) b (upd_next l a h))) in
  NoDup (nodes l ms) → is_Some (h !! l) → is_Some (h !! tail_of l) →
  is_Some (h !! a) → is_Some (h !! b) →
  head ms = Some a → last ms = Some b → linked h ms → linked h' (nodes l ms).
Proof.
  intros h' Hn Hl Ht Ha Hb Ea Eb Hm.
  apply last_Some in Eb as (ws & ->). destruct (ws ++ [b]) as [|a' ms] eqn:Ems; [done|].
  simpl in Ea. simplify_eq. unfold nodes in *. apply NoDup_cons in Hn as [Hn1 Hn2].
  apply NoDup_app in Hn2 as (Hn2 & Hn3 & _).
  assert (b ∈ a :: ms) as Hbm by (rewrite <-Ems; set_solver).
  assert (l ≠ a ∧ l ≠ b ∧ l ≠ tail_of l) as (?&?&?).
  { split_and!; intros E; apply Hn1; rewrite E at 1; set_solver. }
  assert (tail_of l ≠ a ∧ tail_of l ≠ b) as (?&?).
  { split; intros E; apply (Hn3 (tail_of l)); [rewrite E; by left|by left|by rewrite E|by left]. }
  assert (linked h' (a :: ms)) as Hm'.
  { eapply linked_frame; [|exact Hm]. intros us x y vs E. rewrite E in Hn2.
    assert (last (us ++ x :: y :: vs) = Some b) as Hlast by by rewrite <-E, <-Ems, last_snoc.
    replace (us ++ x :: y :: vs) with ((us ++ [x]) ++ y :: vs) in Hlast
      by by rewrite <-(assoc_L (++)).
    rewrite last_app_cons in Hlast.
    apply NoDup_app in Hn2 as (_ & Hd & [Hx _]%NoDup_cons).
    assert (x ≠ b) by (intros ->; apply Hx; eapply last_Some_elem_of; done).
    assert (y ≠ a).
    { intros ->. destruct us as [|u us]; simplify_eq/=; [apply Hx; by left|].
      apply (Hd u); [by left|]. right. by left. }
    assert (x ∈ a :: ms ∧ y ∈ a :: ms) as [Hx' Hy'] by (rewrite E; set_solver).
    assert (x ≠ l ∧ y ≠ tail_of l) as [? ?].
    { split; intros ->; [apply Hn1; set_solver|by apply (Hn3 (tail_of l)); [|left]]. }
    unfold h'. by mem. }
  change (l :: (a :: ms) ++ [tail_of l]) with (l :: a :: ms ++ [tail_of l]).
  rewrite linked_cons. unfold h' in *. split_and!; [by mem|by mem|].
  change (a :: ms ++ [tail_of l]) with ((a :: ms) ++ [tail_of l]). rewrite <-Ems in *.
  rewrite <-(assoc_L (++)). apply linked_app. split; [done|]. apply linked_cons.
  split_and!; [mem; eauto 10 with klist|by mem|done].
Qed.

Lemma dll_nodup h l xs :
  dll h l xs → NoDup xs ∧ (l ∉ xs) ∧ (tail_of l ∉ xs) ∧ l ≠ tail_of l.
Proof.
  intros (Hn & _). unfold nodes in Hn.
  apply NoDup_cons in Hn as [Hn1 Hn2]. apply NoDup_app in Hn2 as (Hn2 & Hn3 & _).
  split_and!; [done|set_solver|intros ?; eapply Hn3; [done|by left]|].
  intros E; apply Hn1; set_solver.
Qed.

(** The links at the two ends of a nonempty list. *)
Lemma dll_ends h l xs :
  xs ≠ [] → dll h l xs →
  let a := back_of l xs in let b := front_of l xs in
  head xs = Some b ∧ last xs = Some a ∧
  nxt h l = Some b ∧ prv h b = Some l ∧ nxt h a = Some (tail_of l) ∧ prv h (tail_of l) = Some a.
Proof.
  intros Hx Hd. simpl. pose proof (dll_focus h l [] xs Hd) as (_&_&_&?&?&_).
  assert (Hd' := Hd). rewrite <-(app_nil_r xs) in Hd'.
  pose proof (dll_focus h l xs [] Hd') as (_&_&_&?&?&_).
  split_and!; [by destruct xs| |done..]. unfold back_of.
  destruct (last xs) eqn:E; [done|]. by apply last_None in E.
Qed.

Lemma linked_interior h l xs : linked h (nodes l xs) → linked h xs.
Proof.
  unfold nodes. destruct xs as [|x xs]; [done|]. intros Hl.
  apply (linked_app h [l] x (xs ++ [tail_of l])) in Hl as [_ Hl].
  destruct (exists_last (l := x :: xs)) as (ws & z & E); [done|].
  rewrite app_comm_cons, E, <-(assoc_L (++)) in Hl. apply linked_app in Hl as [Hl _].
  by rewrite E.
Qed.

Lemma list_reverse_spec h l xs :
  dll h l xs →
  ∃ h', list_reverse l h = Ok (tt, h') ∧
    dll h' l (reverse xs) ∧ frame (nodes l xs) h h'.
Proof.
  intros Hd. unfold list_reverse. erewrite bind_ok by by apply list_empty_ok.
  case_bool_decide as Hx; [subst; by exists h|].
  erewrite bind_ok by by apply list_begin_ok. rewrite bound_run.
  destruct (list_reverse_loop_ok (S (size h)) h h l [] xs) as (h1 & R1 & Hf & Hfr);
    [done|split; [by intros q ?%not_elem_of_nil|done]|pose proof (dll_bound _ _ _ Hd); lia|].
  erewrite bind_ok by exact R1. cbn [app] in *.
  pose proof (dll_ends _ _ _ Hx Hd) as (Hb & Ha & Hnl & Hpb & Hna & Hpt).
  pose proof (dll_nodup _ _ _ Hd) as (Hnd & Hl1 & Hl2 & Hl3).
  destruct Hd as (Hn & Hz & Hp & Ht & Hl).
  set (a := back_of l xs) in *. set (b := front_of l xs) in *.
  assert (a ∈ xs ∧ b ∈ xs) as [Hain Hbin]
    by (split; [by apply last_Some_elem_of|by apply head_Some_elem_of]).
  destruct (Hf a Hain) as [_ Hpa], (Hf b Hbin) as [Hnb _]. rewrite Hna in Hpa. rewrite Hpb in Hnb.
  assert (h1 !! l = h !! l ∧ h1 !! tail_of l = h !! tail_of l) as [El Et] by (split; by apply Hfr).
  unfold prv in Hp, Hpt. unfold nxt in Ht, Hnl. rewrite <-El in Hnl, Hp. rewrite <-Et in Ht, Hpt.
  fold (nxt h1 l) (prv h1 l) (nxt h1 (tail_of l)) (prv h1 (tail_of l)) in *.
  assert (a ≠ l ∧ a ≠ tail_of l ∧ b ≠ l ∧ b ≠ tail_of l) as (?&?&?&?)
    by (split_and!; intros E; by rewrite E in *).
  unfold swap, rd_cell, wr_cell, head_of. steps.
  eexists. split; [apply wr_next_ok; eauto 10 with klist|]. split.
  - split_and!; [by rewrite nodes_reverse..|by mem|by mem|].
    apply reverse_linked; eauto with klist; [by rewrite nodes_reverse| | |].
    + by rewrite head_reverse.
    + by rewrite last_reverse.
    + apply linked_flipped with h; [done|]. by apply linked_interior in Hl.
  - assert (∀ x, x ∈ xs → x ∈ nodes l xs) as Hin by (unfold nodes; set_solver).
    destruct (nodes_ends l xs). pose proof (Hin a Hain). pose proof (Hin b Hbin).
    apply frame_trans with h1; [by eapply frame_mono; [|exact Hfr]|solve_frame].
Qed.
