(* ===== verification/KListSort.v ===== *)
(** * Splicing and sorting (lib/kernel/list.c)

    [list_splice], and the natural merge sort [list_sort] built on it: the
    pointer program terminates, leaves the elements in nondecreasing order,
    and keeps equal elements in their original order. *)

From Stdlib Require Import Sorted.
From S2P Require Import Prelude KList.

(** ** Splicing *)

Definition link (h : heap) (a b : Z) : Prop := nxt h a = Some b ∧ prv h b = Some a.

Lemma linked_join h us a b vs :
  linked h ((us ++ [a]) ++ b :: vs) ↔ linked h (us ++ [a]) ∧ link h a b ∧ linked h (b :: vs).
Proof.
  rewrite <-(assoc_L (++)). cbn [app]. rewrite linked_app, linked_cons. unfold link. tauto.
Qed.

(** Same, for segments given by their first and last elements. *)
Lemma linked_seg_app h us vs a b :
  last us = Some a → head vs = Some b →
  linked h (us ++ vs) ↔ linked h us ∧ link h a b ∧ linked h vs.
Proof.
  intros Ha Hb. apply last_Some in Ha as (us' & ->). destruct vs as [|b' vs]; [done|].
  simpl in Hb. simplify_eq. apply linked_join.
Qed.

Lemma linked_seg_frame h h' ns :
  NoDup ns →
  (∀ x, x ∈ ns → last ns ≠ Some x → nxt h' x = nxt h x) →
  (∀ x, x ∈ ns → head ns ≠ Some x → prv h' x = prv h x) →
  linked h ns → linked h' ns.
Proof.
  intros Hn Hnx Hpv. apply linked_frame. intros us x y vs ->.
  apply NoDup_app in Hn as (_ & Hd & [Hx Hn]%NoDup_cons). split.
  - apply Hnx; [set_solver|].
    replace (us ++ x :: y :: vs) with ((us ++ [x]) ++ y :: vs) by by rewrite <-(assoc_L (++)).
    rewrite last_app_cons. intros ?%last_Some_elem_of. done.
  - apply Hpv; [set_solver|]. destruct us as [|u us]; simpl; intros E; simplify_eq; [set_solver|].
    apply (Hd y); set_solver.
Qed.

(** The memory after [list_splice]: [fp] and [ln] are the neighbours of the
    segment [first .. lp], and [bp] the element before [before]. *)
Definition spliced (fp ln bp before first lp : Z) (h : heap) : heap :=
  upd_prev before lp (upd_next bp first (upd_next lp before (upd_prev first bp
    (upd_prev ln fp (upd_next fp ln h))))).

Lemma list_splice_run h before bp first lp ln fp :
  before ≠ NULL → bp ≠ NULL → first ≠ NULL → lp ≠ NULL → ln ≠ NULL → fp ≠ NULL →
  prv h before = Some bp → is_Some (nxt h before) →
  prv h ln = Some lp → nxt h lp = Some ln → is_Some (nxt h ln) →
  prv h first = Some fp → is_Some (nxt h first) → is_Some (prv h lp) →
  (∀ n, nxt h first = Some n → n ≠ NULL) → (∀ p, prv h lp = Some p → p ≠ NULL) →
  is_Some (h !! bp) → is_Some (h !! fp) →
  first ≠ ln → before ≠ first → before ≠ ln → lp ≠ fp → bp ≠ lp →
  list_splice before first ln h = Ok (tt, spliced fp ln bp before first lp h).
Proof.
  intros ?????? Hb [nb ?] Hln Hlp [nl ?] Hf [nf Hnf] [pl Hpl] Hnf' Hpl' ? ? ?????.
  assert (first ≠ NULL ∧ is_Some (h !! lp)) as [_ ?] by eauto with klist.
  unfold list_splice. erewrite interior_or_tail by done. rewrite decide_False by done.
  erewrite bind_ok by by eapply list_prev_ok.
  erewrite bind_ok by by eapply is_interior_run.
  rewrite !bool_decide_eq_true_2 by auto. steps.
  erewrite bind_ok by by eapply is_interior_run.
  rewrite !bool_decide_eq_true_2 by auto. steps.
  apply wr_prev_ok. eauto 10 with klist.
Qed.

Lemma spliced_nxt_ne fp ln bp before first lp h x :
  x ≠ fp → x ≠ lp → x ≠ bp → nxt (spliced fp ln bp before first lp h) x = nxt h x.
Proof. intros. unfold spliced. by mem. Qed.

Lemma spliced_prv_ne fp ln bp before first lp h x :
  x ≠ ln → x ≠ first → x ≠ before → prv (spliced fp ln bp before first lp h) x = prv h x.
Proof. intros. unfold spliced. by mem. Qed.

(** Elements of different segments of a list without duplicates differ. *)
Lemma nodup_app_ne (us vs : list Z) x y : NoDup (us ++ vs) → x ∈ us → y ∈ vs → x ≠ y.
Proof. intros (_ & Hd & _)%NoDup_app Hx Hy ->. by apply (Hd y). Qed.

Lemma nodup_four (S1 S2 S3 S4 : list Z) :
  NoDup (S1 ++ S2 ++ S3 ++ S4) →
  (NoDup S1 ∧ NoDup S2 ∧ NoDup S3 ∧ NoDup S4) ∧
  (∀ x y, x ∈ S1 → y ∈ S2 → x ≠ y) ∧ (∀ x y, x ∈ S1 → y ∈ S3 → x ≠ y) ∧
  (∀ x y, x ∈ S1 → y ∈ S4 → x ≠ y) ∧ (∀ x y, x ∈ S2 → y ∈ S3 → x ≠ y) ∧
  (∀ x y, x ∈ S2 → y ∈ S4 → x ≠ y) ∧ (∀ x y, x ∈ S3 → y ∈ S4 → x ≠ y).
Proof.
  intros Hn. pose proof Hn as (N1 & _ & Hn2)%NoDup_app. pose proof Hn2 as (N2 & _ & Hn3)%NoDup_app.
  pose proof Hn3 as (N3 & _ & N4)%NoDup_app.
  split_and!; try done; intros x y Hx Hy;
    first [by eapply nodup_app_ne in Hn; [apply Hn|..]; rewrite ?elem_of_app; auto
          |by eapply nodup_app_ne in Hn2; [apply Hn2|..]; rewrite ?elem_of_app; auto
          |by eapply nodup_app_ne in Hn3; [apply Hn3|..]; rewrite ?elem_of_app; auto].
Qed.

Ltac seg_frame L :=
  eapply linked_seg_frame; [done|..|exact L]; intros x Hx Hends;
    [apply spliced_nxt_ne|apply spliced_prv_ne];
    first [by intros ->|by eauto using not_eq_sym].

Lemma splice_linked h S1 S2 S3 S4 bp before fp first lp ln :
  last S1 = Some bp → head S2 = Some before → last S2 = Some fp →
  head S3 = Some first → last S3 = Some lp → head S4 = Some ln →
  NoDup (S1 ++ S2 ++ S3 ++ S4) → linked h (S1 ++ S2 ++ S3 ++ S4) →
  linked (spliced fp ln bp before first lp h) (S1 ++ S3 ++ S2 ++ S4).
Proof.
  intros H1 H2 H2' H3 H3' H4 (Nn & D12 & D13 & D14 & D23 & D24 & D34)%nodup_four Hl.
  destruct Nn as (N1 & N2 & N3 & N4).
  rewrite (linked_seg_app _ _ _ bp before), (linked_seg_app _ _ _ fp first),
    (linked_seg_app _ S3 S4 lp ln) in Hl by (done || by rewrite head_app, ?H2, ?H3).
  destruct Hl as (L1 & [K1 K1'] & L2 & [K2 K2'] & L3 & [K3 K3'] & L4).
  rewrite (linked_seg_app _ _ _ bp first), (linked_seg_app _ _ _ lp before),
    (linked_seg_app _ S2 S4 fp ln) by (done || by rewrite head_app, ?H2, ?H3).
  pose proof (last_Some_elem_of _ _ H1) as I1. pose proof (head_Some_elem_of _ _ H2) as I2.
  pose proof (last_Some_elem_of _ _ H2') as I2'. pose proof (head_Some_elem_of _ _ H3) as I3.
  pose proof (last_Some_elem_of _ _ H3') as I3'. pose proof (head_Some_elem_of _ _ H4) as I4.
  assert (bp ≠ fp ∧ bp ≠ lp ∧ lp ≠ fp ∧ before ≠ first ∧ before ≠ ln ∧ first ≠ ln)
    as (?&?&?&?&?&?) by (split_and!; eauto using not_eq_sym).
  split_and!; [seg_frame L1| |seg_frame L3| |seg_frame L2| |seg_frame L4];
    unfold spliced; split; mem; done.
Qed.

Lemma back_of_app_cons l xs u us : back_of l (xs ++ u :: us) = back_of u us.
Proof. unfold back_of. rewrite last_app_cons, last_cons. by destruct (last us). Qed.

Lemma back_of_cons l u us : back_of l (u :: us) = back_of u us.
Proof. apply (back_of_app_cons l []). Qed.

Lemma last_back_of l xs : last (l :: xs) = Some (back_of l xs).
Proof. unfold back_of. rewrite last_cons. by destruct (last xs). Qed.

Lemma head_front_of l ys : head (ys ++ [tail_of l]) = Some (front_of l ys).
Proof. by destruct ys. Qed.

Lemma dll_nxt_nonnull h l xs e ys n :
  dll h l (xs ++ e :: ys) → nxt h e = Some n → n ≠ NULL.
Proof.
  intros Hd Hn. rewrite (cons_middle e), (assoc_L (++)) in Hd.
  pose proof (dll_focus _ _ _ _ Hd) as (_&?&_&Hn'&_). rewrite back_of_snoc in Hn'. congruence.
Qed.

Lemma dll_prv_nonnull h l xs ys p :
  dll h l (xs ++ ys) → prv h (front_of l ys) = Some p → p ≠ NULL.
Proof. intros Hd Hp. pose proof (dll_focus _ _ _ _ Hd) as (?&_&_&_&?&_). congruence. Qed.

Lemma dll_back_prv_nonnull h l xs u us ys p :
  dll h l (xs ++ u :: us ++ ys) → prv h (back_of u us) = Some p → p ≠ NULL.
Proof.
  destruct us as [|z us _] using rev_ind; intros Hd Hp.
  - by eapply dll_prv_nonnull in Hd.
  - rewrite back_of_snoc in Hp. rewrite <-(assoc_L (++)), app_comm_cons, (assoc_L (++)) in Hd.
    by eapply dll_prv_nonnull in Hd.
Qed.

(** [list_splice] with [before] earlier in the same list moves the block
    [first .. last - 1] in front of the block that starts at [before]. *)
Lemma list_splice_left h l xs u us m ms ys :
  dll h l (xs ++ (u :: us) ++ (m :: ms) ++ ys) →
  ∃ h', list_splice u m (front_of l ys) h = Ok (tt, h') ∧
    dll h' l (xs ++ (m :: ms) ++ (u :: us) ++ ys) ∧
    frame (nodes l (xs ++ (u :: us) ++ (m :: ms) ++ ys)) h h'.
Proof.
  intros Hd. set (N := nodes l _).
  pose proof (dll_focus h l xs _ Hd) as (?&?&_&K1&K1'&I1&I1'&S1&S1'). fold N in I1, I1'.
  pose proof Hd as Hd2. rewrite (assoc_L (++)) in Hd2.
  pose proof (dll_focus h l (xs ++ u :: us) _ Hd2) as (?&?&_&K2&K2'&I2&I2'&S2&S2').
  rewrite <-(assoc_L (++)) in I2, I2'. fold N in I2, I2'.
  pose proof Hd2 as Hd3. rewrite (assoc_L (++)) in Hd3.
  pose proof (dll_focus h l _ _ Hd3) as (?&?&_&K3&K3'&I3&I3'&S3&S3').
  rewrite back_of_app_cons in I3. rewrite <-!(assoc_L (++)) in I3, I3'. fold N in I3, I3'.
  rewrite !back_of_app_cons in *. cbn [front_of app] in *.
  assert (N = (l :: xs) ++ (u :: us) ++ (m :: ms) ++ (ys ++ [tail_of l])) as EN
    by (unfold N, nodes; simpl; repeat (rewrite <-(assoc_L (++)); simpl); done).
  pose proof Hd as (Hn & Hz & Hp & Ht & Hl). fold N in Hn, Hz, Hl. rewrite EN in Hn, Hl.
  pose proof (nodup_four _ _ _ _ Hn) as (_ & D12 & D13 & D14 & D23 & D24 & D34).
  pose proof (last_back_of l xs) as B1. pose proof (last_back_of u us) as B2.
  pose proof (last_back_of m ms) as B3. pose proof (head_front_of l ys) as B4.
  eapply splice_linked in Hl as Hl'; [|done..].
  pose proof (last_Some_elem_of _ _ B1) as J1. pose proof (last_Some_elem_of _ _ B2) as J2.
  pose proof (last_Some_elem_of _ _ B3) as J3. pose proof (head_Some_elem_of _ _ B4) as J4.
  assert (u ∈ u :: us ∧ m ∈ m :: ms) as [Ju Jm] by (split; by left).
  exists (spliced (back_of u us) (front_of l ys) (back_of l xs) u m (back_of m ms) h).
  split; [|split].
  - apply list_splice_run; try done; eauto using not_eq_sym with klist.
    + intros n. eapply dll_nxt_nonnull, Hd2.
    + intros p. eapply dll_back_prv_nonnull, Hd2.
  - unfold dll. replace (nodes l (xs ++ m :: ms ++ u :: us ++ ys))
      with ((l :: xs) ++ (m :: ms) ++ (u :: us) ++ (ys ++ [tail_of l]))
      by (unfold nodes; simpl; repeat (rewrite <-(assoc_L (++)); simpl); done).
    assert ((l :: xs) ++ (m :: ms) ++ (u :: us) ++ (ys ++ [tail_of l]) ≡ₚ N) as P.
    { rewrite EN. apply Permutation_app_head, Permutation_app_swap_app. }
    split_and!; [by rewrite P, EN|by rewrite P| | |done].
    + assert (l ∈ l :: xs) by (by left). rewrite spliced_prv_ne by eauto. done.
    + assert (tail_of l ∈ ys ++ [tail_of l]) by (rewrite elem_of_app; right; by left).
      rewrite spliced_nxt_ne by eauto using not_eq_sym. done.
  - unfold spliced. clearbody N. clear -I1 I1' I2 I2' I3 I3'. solve_frame.
Qed.

(** ** Runs and merging, as functions on lists *)

Section runs.
  Context (less : Z → Z → bool) `{!StrictWeak less}.

(** The longest nondecreasing run that continues [p]. *)
Fixpoint run_split (p : Z) (ys : list Z) : list Z * list Z :=
  match ys with
  | [] => ([], [])
  | y :: ys' => if less y p then ([], ys)
                else let '(r, rest) := run_split y ys' in (y :: r, rest)
  end.

Fixpoint descents (p : Z) (ys : list Z) : nat :=
  match ys with
  | [] => 0
  | y :: ys => (if less y p then 1 else 0) + descents y ys
  end.

(** The number of maximal nondecreasing runs. *)
Definition runs (ys : list Z) : nat :=
  match ys with [] => 0 | y :: ys => S (descents y ys) end.

(** Merge; the second argument wins only when strictly smaller. *)
Fixpoint mrg (us : list Z) : list Z → list Z :=
  match us with
  | [] => λ vs, vs
  | u :: us' =>
      fix mrg_v vs :=
        match vs with
        | [] => us
        | v :: vs' => if less v u then v :: mrg_v vs' else u :: mrg us' vs
        end
  end.

Definition equiv_to (x y : Z) : bool := negb (less x y) && negb (less y x).

(** Same elements, and equivalent ones in the same order. *)
Definition stable_perm (xs ys : list Z) : Prop :=
  xs ≡ₚ ys ∧ ∀ x, filter (λ y, equiv_to x y = true) xs = filter (λ y, equiv_to x y = true) ys.

Lemma mrg_cons u us v vs :
  mrg (u :: us) (v :: vs) = if less v u then v :: mrg (u :: us) vs else u :: mrg us (v :: vs).
Proof. done. Qed.

Lemma mrg_nil_r us : mrg us [] = us.
Proof. by destruct us. Qed.

Lemma run_split_app p ys r rest :
  run_split p ys = (r, rest) →
  ys = r ++ rest ∧ descents p r = 0%nat ∧
  runs rest = descents p ys ∧ (length rest ≤ length ys)%nat.
Proof.
  revert p r rest. induction ys as [|y ys IH]; intros p r rest Hr; simpl in Hr.
  { by simplify_eq. }
  destruct (less y p) eqn:E; simplify_eq/=; [by rewrite E|].
  destruct (run_split y ys) as [r' rest'] eqn:E2. simplify_eq/=.
  destruct (IH _ _ _ E2) as (-> & Hd & Hs & Hl). rewrite E, Hd. simpl. split_and!; auto with lia.
Qed.

Lemma descents_sorted p ys : descents p ys = 0%nat ↔ sorted_by less (p :: ys).
Proof.
  unfold sorted_by. revert p. induction ys as [|y ys IH]; intros p; simpl.
  { split; [repeat constructor|done]. }
  destruct (less y p) eqn:E; simpl.
  - split; [done|]. intros [_ H]%Sorted_inv. apply HdRel_inv in H. congruence.
  - rewrite IH. split; [intros; constructor; [done|by constructor]|]. by intros [? _]%Sorted_inv.
Qed.

Lemma runs_sorted ys : (runs ys ≤ 1)%nat ↔ sorted_by less ys.
Proof.
  destruct ys as [|y ys]; simpl; [split; [constructor|lia]|].
  rewrite <-descents_sorted. lia.
Qed.

Lemma descents_length p ys : (descents p ys ≤ length ys)%nat.
Proof. revert p. induction ys as [|y ys IH]; intros p; simpl; [lia|]. specialize (IH y). case_match; lia. Qed.

Lemma runs_length ys : (runs ys ≤ length ys)%nat.
Proof. destruct ys as [|y ys]; simpl; [lia|]. pose proof (descents_length y ys). lia. Qed.

Lemma descents_app p xs y ys :
  (descents p (xs ++ y :: ys) ≤ descents p xs + S (descents y ys))%nat.
Proof.
  revert p. induction xs as [|x xs IH]; intros p; simpl; [case_match; lia|].
  specialize (IH x). lia.
Qed.

Lemma runs_app xs ys : (runs (xs ++ ys) ≤ runs xs + runs ys)%nat.
Proof.
  destruct xs as [|x xs]; simpl; [lia|]. destruct ys as [|y ys]; simpl.
  - rewrite app_nil_r. lia.
  - pose proof (descents_app x xs y ys). lia.
Qed.

Lemma sorted_strong xs :
  sorted_by less xs → StronglySorted (λ x y, less y x = false) xs.
Proof.
  apply Sorted_StronglySorted. intros x y z H1 H2. apply not_true_is_false. intros H3.
  destruct (less_negtrans z y x H3); congruence.
Qed.

Lemma mrg_perm us vs : mrg us vs ≡ₚ us ++ vs.
Proof.
  revert vs. induction us as [|u us IH]; intros vs; [done|].
  induction vs as [|v vs IHv]; [by rewrite app_nil_r|].
  rewrite mrg_cons. destruct (less v u).
  - rewrite IHv. by rewrite <-Permutation_middle.
  - by rewrite IH.
Qed.

Lemma mrg_hd p us vs :
  HdRel (λ x y, less y x = false) p us → HdRel (λ x y, less y x = false) p vs →
  HdRel (λ x y, less y x = false) p (mrg us vs).
Proof.
  destruct us as [|u us]; [done|]. destruct vs as [|v vs]; [done|]. rewrite mrg_cons.
  intros Hu%HdRel_inv Hv%HdRel_inv. by case_match; constructor.
Qed.

Lemma mrg_sorted us vs :
  sorted_by less us → sorted_by less vs → sorted_by less (mrg us vs).
Proof.
  unfold sorted_by. revert vs. induction us as [|u us IH]; intros vs Hu Hv; [done|].
  induction vs as [|v vs IHv]; [done|]. rewrite mrg_cons.
  apply Sorted_inv in Hu as Hu'. apply Sorted_inv in Hv as Hv'. destruct (less v u) eqn:E.
  - constructor; [naive_solver|]. apply mrg_hd; [|naive_solver]. constructor. by apply less_asym.
  - constructor; [naive_solver|]. apply mrg_hd; [naive_solver|]. by constructor.
Qed.

Lemma equiv_not_below x v us :
  equiv_to x v = true → (∀ u, u ∈ us → less v u = true) →
  filter (λ y, equiv_to x y = true) us = [].
Proof.
  intros [Hx1%negb_true_iff Hx2%negb_true_iff]%andb_true_iff Hu.
  induction us as [|u us IH]; [done|].
  rewrite filter_cons_False; [apply IH; intros; apply Hu; by right|].
  intros [Hu1%negb_true_iff Hu2%negb_true_iff]%andb_true_iff.
  destruct (less_negtrans v x u); [apply Hu; by left|congruence..].
Qed.

Lemma mrg_stable us vs x :
  sorted_by less us →
  filter (λ y, equiv_to x y = true) (mrg us vs) =
  filter (λ y, equiv_to x y = true) us ++ filter (λ y, equiv_to x y = true) vs.
Proof.
  revert vs. induction us as [|u us IH]; intros vs Hu; [done|].
  induction vs as [|v vs IHv]; [by rewrite app_nil_r|].
  rewrite mrg_cons. destruct (less v u) eqn:E.
  - rewrite !(filter_cons _ v), IHv. case_decide as Hx; [|done].
    rewrite (equiv_not_below x v (u :: us)); [done..|].
    apply sorted_strong, StronglySorted_inv in Hu as [_ Hu].
    intros w [->|Hw]%elem_of_cons; [done|]. rewrite Forall_forall in Hu.
    destruct (less_negtrans v w u E) as [|Hw']; [done|]. by rewrite Hu in Hw'.
  - rewrite !(filter_cons _ u), IH by (by apply Sorted_inv in Hu as [? _]). by case_decide.
Qed.

Lemma stable_perm_app xs xs' ys ys' :
  stable_perm xs xs' → stable_perm ys ys' → stable_perm (xs ++ ys) (xs' ++ ys').
Proof.
  intros [P1 F1] [P2 F2]. split; [by f_equiv|]. intros x. by rewrite !filter_app, F1, F2.
Qed.

Lemma stable_perm_trans xs ys zs :
  stable_perm xs ys → stable_perm ys zs → stable_perm xs zs.
Proof. intros [P1 F1] [P2 F2]. split; [by etrans|]. intros x. by rewrite F1, F2. Qed.

Lemma mrg_stable_perm us vs :
  sorted_by less us → stable_perm (mrg us vs) (us ++ vs).
Proof. intros. split; [apply mrg_perm|]. intros x. by rewrite filter_app, mrg_stable. Qed.
End runs.

(** ** The pointer program computes them *)

Lemma front_of_ne h l pre u us post :
  dll h l (pre ++ (u :: us) ++ post) → u ≠ front_of l post.
Proof.
  intros (Hn & _).
  replace (nodes l (pre ++ (u :: us) ++ post))
    with ((l :: pre) ++ (u :: us) ++ (post ++ [tail_of l])) in Hn
    by (unfold nodes; simpl; repeat (rewrite <-(assoc_L (++)); simpl); done).
  apply NoDup_app in Hn as (_ & _ & Hn). eapply nodup_app_ne; [exact Hn|by left|].
  apply head_Some_elem_of, head_front_of.
Qed.

Lemma front_of_eq h l pre us post :
  dll h l (pre ++ us ++ post) → front_of l (us ++ post) = front_of l post ↔ us = [].
Proof.
  intros Hd. destruct us as [|u us]; [done|]. split; [|done].
  intros H. by apply front_of_ne in Hd.
Qed.

Lemma dll_back_ok h l pre a ys :
  dll h l (pre ++ a :: ys) → list_prev (front_of l ys) h = Ok (a, h).
Proof.
  rewrite (cons_middle a), (assoc_L (++)). intros Hd%dll_prev_ok. by rewrite back_of_snoc in Hd.
Qed.

Section sorting.
  Context (less : Z → Z → bool).

Lemma is_sorted_loop_ok fuel h l pre a us post :
  dll h l (pre ++ a :: us ++ post) → (length us < fuel)%nat →
  is_sorted_loop less fuel a (front_of l post) h = Ok (bool_decide (descents less a us = 0%nat), h).
Proof.
  revert pre a us. induction fuel as [|fuel IH]; intros pre a us Hd Hf; [lia|].
  cbn [is_sorted_loop]. erewrite bind_ok by by eapply dll_next_ok.
  pose proof Hd as Hd'. rewrite (cons_middle a), (assoc_L (++)) in Hd'.
  case_decide as Ef; [apply (front_of_eq _ _ _ _ _ Hd') in Ef as ->; done|].
  destruct us as [|y us]; [done|]. cbn [app] in *.
  erewrite bind_ok by by eapply (dll_back_ok h l pre a (y :: us ++ post)).
  cbn [front_of descents]. destruct (less y a); [done|].
  apply (IH (pre ++ [a])); [done|simpl in *; lia].
Qed.

Lemma is_sorted_ok h l pre us post :
  dll h l (pre ++ us ++ post) →
  is_sorted less (front_of l (us ++ post)) (front_of l post) h
  = Ok (bool_decide (runs less us ≤ 1)%nat, h).
Proof.
  intros Hd. unfold is_sorted. case_decide as Ef.
  { apply (front_of_eq _ _ _ _ _ Hd) in Ef as ->. done. }
  destruct us as [|a us]; [done|]. cbn [app front_of runs] in *. rewrite bound_run.
  apply dll_bound in Hd as Hb. rewrite length_app in Hb. simpl in Hb. rewrite length_app in Hb.
  rewrite (is_sorted_loop_ok _ h l pre a us) by (done || lia). do 2 f_equal.
  apply bool_decide_ext. lia.
Qed.

Lemma find_end_of_run_loop_ok fuel h l pre a us post r rest :
  dll h l (pre ++ a :: us ++ post) → (length us < fuel)%nat →
  run_split less a us = (r, rest) →
  find_end_of_run_loop less fuel a (front_of l post) h = Ok (front_of l (rest ++ post), h).
Proof.
  revert pre a us r rest. induction fuel as [|fuel IH]; intros pre a us r rest Hd Hf Hr; [lia|].
  cbn [find_end_of_run_loop]. erewrite bind_ok by by eapply dll_next_ok.
  pose proof Hd as Hd'. rewrite (cons_middle a), (assoc_L (++)) in Hd'.
  case_decide as Ef.
  { apply (front_of_eq _ _ _ _ _ Hd') in Ef as ->. simpl in Hr. by simplify_eq/=. }
  destruct us as [|y us]; [done|]. cbn [app] in *.
  erewrite bind_ok by by eapply (dll_back_ok h l pre a (y :: us ++ post)).
  cbn [front_of]. simpl in Hr. destruct (less y a); [by simplify_eq/=|].
  destruct (run_split less y us) as [r' rest'] eqn:E. simplify_eq/=.
  eapply (IH (pre ++ [a])); [done|lia|done].
Qed.

Lemma find_end_of_run_ok h l pre a us r rest :
  dll h l (pre ++ a :: us) → run_split less a us = (r, rest) →
  find_end_of_run less a (tail_of l) h = Ok (front_of l rest, h).
Proof.
  intros Hd Hr. unfold find_end_of_run.
  pose proof (dll_elem_ok _ _ _ _ _ Hd) as (?&_). pose proof Hd as Hd'.
  rewrite <-(app_nil_r us), app_comm_cons in Hd'. apply front_of_ne in Hd' as ?.
  rewrite <-(app_nil_r (_ ++ _)) in Hd. pose proof (dll_focus _ _ _ _ Hd) as (_&?&_).
  cbn [front_of] in *. rewrite !bool_decide_eq_true_2 by done. steps. rewrite bound_run.
  rewrite app_nil_r in Hd. apply dll_bound in Hd. rewrite length_app in Hd. simpl in Hd.
  rewrite <-(app_nil_r rest). eapply (find_end_of_run_loop_ok _ h l pre a us []); [done|lia|done].
Qed.

Lemma frame_nodes_perm l xs ys h h' :
  xs ≡ₚ ys → frame (nodes l xs) h h' → frame (nodes l ys) h h'.
Proof.
  intros P [Hf Hd]. split; [|done]. intros q Hq. apply Hf. unfold nodes in *. by rewrite P.
Qed.

Lemma inplace_merge_loop_ok fuel h l pre us vs post :
  dll h l (pre ++ us ++ vs ++ post) → (length us + length vs < fuel)%nat →
  ∃ h', inplace_merge_loop less fuel (front_of l (us ++ vs ++ post))
          (front_of l (vs ++ post)) (front_of l post) h = Ok (tt, h') ∧
    dll h' l (pre ++ mrg less us vs ++ post) ∧ frame (nodes l (pre ++ us ++ vs ++ post)) h h'.
Proof.
  revert h pre us vs. induction fuel as [|fuel IH]; intros h pre us vs Hd Hf; [lia|].
  cbn [inplace_merge_loop]. pose proof (front_of_eq _ _ _ _ _ Hd) as Eu.
  pose proof Hd as Hd2. rewrite (assoc_L (++)) in Hd2.
  pose proof (front_of_eq _ _ _ _ _ Hd2) as Ev. case_decide as Ec.
  2: { exists h. split; [done|]. split; [|apply frame_refl].
       destruct us as [|u us]; [done|]. destruct vs as [|v vs]; [done|]. naive_solver. }
  destruct us as [|u us]; [naive_solver|]. destruct vs as [|v vs]; [naive_solver|].
  clear Ec Eu Ev. rewrite mrg_cons. cbn [app front_of] in *. destruct (less v u); simpl negb; cbn iota.
  - eapply bind_ok_ex; [by eapply dll_next_ok|].
    eapply bind_ok_ex; [by eapply (dll_back_ok h l (pre ++ u :: us) v (vs ++ post))|].
    destruct (list_splice_left h l pre u us v [] (vs ++ post)) as (h1 & E1 & Hd1 & Hf1); [done|].
    eapply bind_ok_ex; [exact E1|]. cbn [app] in *.
    destruct (IH h1 (pre ++ [v]) (u :: us) vs) as (h' & E' & Hd' & Hf');
      [by rewrite <-(assoc_L (++))|simpl in *; lia|].
    exists h'. split; [done|]. rewrite <-(assoc_L (++)) in Hd', Hf'. split; [done|].
    eapply frame_trans; [done|]. eapply frame_nodes_perm, Hf'. cbn [app]. f_equiv.
    apply (Permutation_app_swap_app [v] (u :: us)).
  - eapply bind_ok_ex; [by eapply dll_next_ok|].
    destruct (IH h (pre ++ [u]) us (v :: vs)) as (h' & E' & Hd' & Hf');
      [by rewrite <-(assoc_L (++))|simpl in *; lia|].
    exists h'. by rewrite <-(assoc_L (++)) in Hd', Hf'.
Qed.

Lemma inplace_merge_ok h l pre u us v vs post :
  dll h l (pre ++ (u :: us) ++ (v :: vs) ++ post) →
  sorted_by less (u :: us) → sorted_by less (v :: vs) →
  ∃ h', inplace_merge less u v (front_of l post) h = Ok (tt, h') ∧
    dll h' l (pre ++ mrg less (u :: us) (v :: vs) ++ post) ∧
    frame (nodes l (pre ++ (u :: us) ++ (v :: vs) ++ post)) h h'.
Proof.
  intros Hd Su%runs_sorted Sv%runs_sorted. unfold inplace_merge.
  pose proof (dll_focus _ _ _ _ Hd) as (_&?&_). pose proof Hd as Hd2.
  rewrite (assoc_L (++)) in Hd2. pose proof (dll_focus _ _ _ _ Hd2) as (_&?&_).
  pose proof Hd2 as Hd3. rewrite (assoc_L (++)) in Hd3. pose proof (dll_focus _ _ _ _ Hd3) as (_&?&_).
  rewrite !bool_decide_eq_true_2 by done. steps.
  eapply bind_ok_ex; [by eapply (is_sorted_ok h l pre (u :: us) ((v :: vs) ++ post))|].
  rewrite bool_decide_eq_true_2 by done. steps.
  eapply bind_ok_ex; [by eapply (is_sorted_ok h l (pre ++ u :: us) (v :: vs) post)|].
  rewrite bool_decide_eq_true_2 by done. steps. rewrite bound_run.
  apply (inplace_merge_loop_ok _ h l pre (u :: us) (v :: vs)); [done|].
  apply dll_bound in Hd. rewrite !length_app in Hd. lia.
Qed.

Context `{!StrictWeak less}.

(** What one pass over the list achieves: pairs of adjacent runs are merged. *)
Definition pass_result (ys out : list Z) (cnt : nat) : Prop :=
  stable_perm less out ys ∧ (runs less out ≤ cnt)%nat ∧ (2 * cnt ≤ runs less ys + 1)%nat.

Lemma pass_result_nil : pass_result [] [] 0.
Proof. split_and!; [by split|simpl; lia..]. Qed.

Lemma pass_result_one a r :
  run_split less a r = (r, []) → pass_result (a :: r) (a :: r) 1.
Proof.
  intros (_ & H & _)%run_split_app. simpl. split_and!; [by split|simpl; rewrite H; lia..].
Qed.

Lemma two_runs a ys r b rest r2 rest2 :
  run_split less a ys = (r, b :: rest) → run_split less b rest = (r2, rest2) →
  sorted_by less (a :: r) ∧ sorted_by less (b :: r2) ∧
  a :: ys = (a :: r) ++ (b :: r2) ++ rest2 ∧
  (length rest2 < length ys)%nat ∧ runs less (a :: ys) = S (S (runs less rest2)).
Proof.
  intros (-> & D1 & R1 & L1)%run_split_app (-> & D2 & R2 & L2)%run_split_app.
  apply descents_sorted in D1, D2. cbn [runs] in *. simpl in L1.
  rewrite <-R1, <-R2. split_and!; auto with lia.
Qed.

Lemma pass_result_cons us vs ys rest out cnt :
  sorted_by less us → sorted_by less vs → ys = us ++ vs ++ rest →
  runs less ys = S (S (runs less rest)) → pass_result rest out cnt →
  pass_result ys (mrg less us vs ++ out) (S cnt).
Proof.
  intros Su Sv E Er (Hp & Hr & Hc). split_and!; [| |lia].
  - rewrite E, (assoc_L (++)). apply stable_perm_app; [by apply mrg_stable_perm|done].
  - pose proof (runs_app less (mrg less us vs) out).
    assert (runs less (mrg less us vs) ≤ 1)%nat by (by apply runs_sorted, mrg_sorted).
    lia.
Qed.

Lemma list_sort_pass_nil fuel h l pre c :
  dll h l pre → list_sort_pass less (S fuel) l (tail_of l) c h = Ok (c, h).
Proof.
  intros Hd. cbn [list_sort_pass]. erewrite bind_ok by (apply list_end_ok; by eapply dll_nonnull).
  by rewrite decide_True.
Qed.

Lemma list_sort_pass_cons fuel h l pre a ys c r rest :
  dll h l (pre ++ a :: ys) → run_split less a ys = (r, rest) →
  list_sort_pass less (S fuel) l a c h =
  match rest with
  | [] => Ok (c + 1, h)
  | b :: rest' =>
      let b1 := front_of l (run_split less b rest').2 in
      (inplace_merge less a b b1;; list_sort_pass less fuel l b1 (c + 1)) h
  end.
Proof.
  intros Hd Hr. cbn [list_sort_pass].
  erewrite bind_ok by (apply list_end_ok; by eapply dll_nonnull).
  pose proof (front_of_end _ _ _ _ Hd) as He. rewrite decide_False by naive_solver.
  erewrite bind_ok by by eapply find_end_of_run_ok.
  pose proof (run_split_app _ _ _ _ _ Hr) as (-> & _).
  rewrite app_comm_cons, (assoc_L (++)) in Hd. pose proof (front_of_end _ _ _ _ Hd) as He'.
  destruct rest as [|b rest]; [by rewrite decide_True by done|].
  rewrite decide_False by naive_solver. cbn [front_of].
  erewrite bind_ok by (eapply find_end_of_run_ok; [done|by apply surjective_pairing]). done.
Qed.

Lemma list_sort_pass_ok fuel h l pre ys c :
  dll h l (pre ++ ys) → (length ys < fuel)%nat →
  ∃ cnt out h', list_sort_pass less fuel l (front_of l ys) c h = Ok (c + Z.of_nat cnt, h') ∧
    dll h' l (pre ++ out) ∧ frame (nodes l (pre ++ ys)) h h' ∧ pass_result ys out cnt.
Proof.
  revert h pre ys c. induction fuel as [|fuel IH]; intros h pre ys c Hd Hf; [lia|].
  destruct ys as [|a ys].
  { exists 0%nat, [], h. cbn [front_of]. erewrite list_sort_pass_nil by done.
    rewrite Z.add_0_r. auto using pass_result_nil, frame_refl. }
  cbn [front_of] in *. destruct (run_split less a ys) as [r rest] eqn:E1.
  erewrite list_sort_pass_cons by done. destruct rest as [|b rest].
  { exists 1%nat, (a :: ys), h. pose proof (run_split_app _ _ _ _ _ E1) as (E & _).
    rewrite app_nil_r in E. subst r. auto using pass_result_one, frame_refl. }
  destruct (run_split less b rest) as [r2 rest2] eqn:E2. cbn [snd].
  destruct (two_runs _ _ _ _ _ _ _ E1 E2) as (Su & Sv & E & L & R). rewrite E in Hd.
  destruct (inplace_merge_ok h l pre a r b r2 rest2) as (h1 & M1 & Hd1 & Hf1); [done..|].
  rewrite (assoc_L (++)) in Hd1.
  destruct (IH h1 _ rest2 (c + 1) Hd1) as (cnt & out & h' & Eq & Hd' & Hf' & Hp);
    [simpl in *; lia|].
  exists (S cnt), (mrg less (a :: r) (b :: r2) ++ out), h'. cbn [front_of] in *.
  split; [|split; [by rewrite (assoc_L (++))|split; [|by eapply pass_result_cons]]].
  - erewrite bind_ok by done. rewrite Eq. do 2 f_equal. lia.
  - rewrite E. eapply frame_trans; [done|]. eapply frame_nodes_perm, Hf'.
    rewrite mrg_perm. by rewrite <-!(assoc_L (++)).
Qed.

Lemma list_sort_loop_ok fuel h l xs :
  dll h l xs → (runs less xs < fuel)%nat →
  ∃ h', list_sort_loop less fuel l h = Ok (tt, h') ∧
    ∃ xs', dll h' l xs' ∧ frame (nodes l xs) h h' ∧ stable_perm less xs' xs ∧ sorted_by less xs'.
Proof.
  revert h xs. induction fuel as [|fuel IH]; intros h xs Hd Hf; [lia|]. cbn [list_sort_loop].
  eapply bind_ok_ex; [by apply list_begin_ok|]. rewrite bound_run.
  destruct (list_sort_pass_ok (S (size h)) h l [] xs 0 Hd) as (cnt & out & h1 & E1 & Hd1 & Hf1 & Hp).
  { apply dll_bound in Hd. lia. }
  cbn [app] in *. eapply bind_ok_ex; [exact E1|]. destruct Hp as (Hp & Hr & Hc).
  case_decide as Hcnt.
  - destruct (IH h1 out Hd1) as (h' & E & xs' & Hd' & Hf' & Hp' & Hs); [lia|].
    exists h'. split; [done|]. exists xs'. split_and!; try done.
    + eapply frame_trans; [done|]. eapply frame_nodes_perm, Hf'. apply Hp.
    + by eapply stable_perm_trans.
  - exists h1. split; [done|]. exists out. split_and!; try done. apply runs_sorted. lia.
Qed.

Lemma list_sort_ok h l xs :
  dll h l xs →
  ∃ h', list_sort less l h = Ok (tt, h') ∧
    ∃ xs', dll h' l xs' ∧ frame (nodes l xs) h h' ∧ stable_perm less xs' xs ∧ sorted_by less xs'.
Proof.
  intros Hd. unfold list_sort. apply dll_nonnull in Hd as Hl.
  rewrite bool_decide_eq_true_2 by done. steps. rewrite bound_run.
  destruct (list_sort_loop_ok (S (size h)) h l xs) as (h' & E & xs' & Hd' & Hf & Hp & Hs).
  { done. }
  { apply dll_bound in Hd. pose proof (runs_length less xs). lia. }
  eapply bind_ok_ex; [done|]. eapply bind_ok_ex; [by apply list_begin_ok|].
  eapply bind_ok_ex; [by apply list_end_ok|].
  pose proof (is_sorted_ok h' l [] xs' []) as Hok. cbn [app front_of] in Hok.
  rewrite app_nil_r in Hok. eapply bind_ok_ex; [by apply Hok|].
  rewrite bool_decide_eq_true_2 by (by apply runs_sorted). exists h'. split; [done|]. by exists xs'.
Qed.

End sorting.
