(* ===== verification/KListRefine.v ===== *)
(** * The list library refines finite sequences

    Clients of lib/kernel/list.c see a list as a sequence of elements.  Here
    a client program is a sequence of calls; run on the memory through
    KList's functions it returns the same values, and fails at the same call
    with the same error, as the sequence machine below.  The properties of
    searching, ordered insertion and duplicate removal follow. *)

From Stdlib Require Import Sorted.
From S2P Require Import Prelude KList KListSort.

(** ** Client programs *)

Inductive list_op :=
  | PushFront (e : Z) | PushBack (e : Z) | InsertAt (i : nat) (e : Z)
  | RemoveAt (i : nat) | PopFront | PopBack | Front | Back
  | Size | Empty | Reverse.

(** The element with index [i], the tail after the last one. *)
Fixpoint walk (i : nat) (e : Z) : M heap Z :=
  match i with O => mret e | S i => e ← list_next e; walk i e end.

Definition list_at (l : Z) (i : nat) : M heap Z := e ← list_begin l; walk i e.

Definition run_op (l : Z) (op : list_op) : M heap Z :=
  match op with
  | PushFront e => list_push_front l e;; mret 0
  | PushBack e => list_push_back l e;; mret 0
  | InsertAt i e => b ← list_at l i; list_insert b e;; mret 0
  | RemoveAt i => b ← list_at l i; list_remove b;; mret b
  | PopFront => list_pop_front l
  | PopBack => list_pop_back l
  | Front => list_front l
  | Back => list_back l
  | Size => list_size l
  | Empty => b ← list_empty l; mret (if (b : bool) then 1 else 0)
  | Reverse => list_reverse l;; mret 0
  end.

(** ** The sequence machine *)

Definition seq_op (op : list_op) : M (list Z) Z :=
  match op with
  | PushFront e => modify (cons e);; mret 0
  | PushBack e => modify (λ xs, xs ++ [e]);; mret 0
  | InsertAt i e => λ xs,
      if decide (i ≤ length xs)%nat then Ok (0, take i xs ++ e :: drop i xs)
      else Err AssertFailed
  | RemoveAt i => λ xs,
      match xs !! i with Some x => Ok (x, take i xs ++ drop (S i) xs) | None => Err AssertFailed end
  | PopFront => λ xs, match xs with x :: xs => Ok (x, xs) | [] => Err AssertFailed end
  | PopBack => λ xs,
      match last xs with Some x => Ok (x, removelast xs) | None => Err AssertFailed end
  | Front => λ xs, match xs with x :: _ => Ok (x, xs) | [] => Err AssertFailed end
  | Back => λ xs, match last xs with Some x => Ok (x, xs) | None => Err AssertFailed end
  | Size => gets (λ xs, Z.of_nat (length xs))
  | Empty => gets (λ xs, if decide (xs = []) then 1 else 0)
  | Reverse => modify (@reverse Z);; mret 0
  end.

(** An element may be inserted when it is an allocated one that is not yet in
    the list: the callers' obligation in list.h. *)
Definition op_elem (op : list_op) : option Z :=
  match op with PushFront e | PushBack e | InsertAt _ e => Some e | _ => None end.

Definition op_allowed (D : gset Z) (l : Z) (xs : list Z) (op : list_op) : Prop :=
  match op_elem op with
  | Some e => e ≠ NULL ∧ e ∈ D ∧ e ∉ nodes l xs
  | None => True
  end.

#[export] Instance op_allowed_dec D l xs op : Decision (op_allowed D l xs op).
Proof. unfold op_allowed. destruct (op_elem op); apply _. Defined.

(** Run a program, collecting the results of its calls. *)
Fixpoint run_ops (l : Z) (ops : list list_op) : M heap (list Z) :=
  match ops with
  | [] => mret []
  | op :: ops => r ← run_op l op; rs ← run_ops l ops; mret (r :: rs)
  end.

Fixpoint seq_ops (ops : list list_op) : M (list Z) (list Z) :=
  match ops with
  | [] => mret []
  | op :: ops => r ← seq_op op; rs ← seq_ops ops; mret (r :: rs)
  end.

Fixpoint ops_allowed (D : gset Z) (l : Z) (xs : list Z) (ops : list list_op) : bool :=
  match ops with
  | [] => true
  | op :: ops =>
      bool_decide (op_allowed D l xs op) &&
      match seq_op op xs with
      | Ok (_, xs') => ops_allowed D l xs' ops
      | Err _ => true
      end
  end.

(** The memory outcome matches the sequence outcome. *)
Definition sim {A} (l : Z) (h : heap) (c : result (A * heap)) (a : result (A * list Z)) : Prop :=
  match c, a with
  | Ok (v, h'), Ok (w, xs') => v = w ∧ dll h' l xs' ∧ dom h' = dom h
  | Err e, Err e' => e = e'
  | _, _ => False
  end.

(** ** Each call *)

Lemma dll_tail_run h l xs :
  dll h l xs → ∃ p, tail_of l ≠ NULL ∧ p ≠ NULL ∧
    prv h (tail_of l) = Some p ∧ nxt h (tail_of l) = Some NULL.
Proof.
  intros Hd. pose proof Hd as (_&_&_&Ht&_). rewrite <-(app_nil_r xs) in Hd.
  pose proof (dll_focus _ _ _ _ Hd) as (?&?&_&_&Hp&_). cbn [front_of] in *. eauto.
Qed.

Lemma list_next_tail h l xs : dll h l xs → list_next (tail_of l) h = Err AssertFailed.
Proof.
  intros (p & ? & ? & Hp & Hn)%dll_tail_run.
  unfold list_next. erewrite bind_ok by by eapply is_head_run.
  erewrite bind_ok by by eapply is_interior_run. rewrite (bool_decide_eq_false_2 (p = NULL)) by done.
  by rewrite (bool_decide_eq_true_2 (p ≠ NULL)).
Qed.

Lemma list_remove_tail h l xs : dll h l xs → list_remove (tail_of l) h = Err AssertFailed.
Proof.
  intros (p & ? & ? & Hp & Hn)%dll_tail_run.
  unfold list_remove. erewrite bind_ok by by eapply is_interior_run.
  by rewrite (bool_decide_eq_true_2 (p ≠ NULL)).
Qed.

Lemma walk_ok i h l us vs :
  dll h l (us ++ vs) →
  walk i (front_of l vs) h =
  if decide (i ≤ length vs)%nat then Ok (front_of l (drop i vs), h) else Err AssertFailed.
Proof.
  revert us vs. induction i as [|i IH]; intros us vs Hd; cbn [walk].
  { rewrite decide_True by lia. by rewrite drop_0. }
  destruct vs as [|v vs]; cbn [front_of].
  { rewrite decide_False by (simpl; lia). by erewrite bind_err by by eapply list_next_tail. }
  erewrite bind_ok by by eapply dll_next_ok. rewrite (IH (us ++ [v])) by by rewrite <-(assoc_L (++)).
  cbn [length drop]. by do 2 case_decide; try lia.
Qed.

Lemma list_at_ok h l xs i :
  dll h l xs →
  list_at l i h =
  if decide (i ≤ length xs)%nat then Ok (front_of l (drop i xs), h) else Err AssertFailed.
Proof.
  intros Hd. unfold list_at. erewrite bind_ok by by apply list_begin_ok. by apply (walk_ok i h l []).
Qed.

(** A call that returns and leaves the list [xs']. *)
Lemma sim_ex {A} l h (m : M heap A) v xs' ns :
  (∃ h', m h = Ok (v, h') ∧ dll h' l xs' ∧ frame ns h h') → sim l h (m h) (Ok (v, xs')).
Proof. intros (h' & -> & Hd & [_ Hf]). done. Qed.

Lemma sim_ex0 l h (m : M heap unit) v xs' ns :
  (∃ h', m h = Ok (tt, h') ∧ dll h' l xs' ∧ frame ns h h') →
  sim l h ((m;; mret v) h) (Ok (v : Z, xs')).
Proof. intros (h' & E & Hd & [_ Hf]). by erewrite bind_ok by exact E. Qed.

Lemma sim_insert_at h l xs i e :
  dll h l xs → op_allowed (dom h) l xs (InsertAt i e) →
  sim l h (run_op l (InsertAt i e) h) (seq_op (InsertAt i e) xs).
Proof.
  intros Hd (? & ?%elem_of_dom & ?). simpl. pose proof (list_at_ok h l xs i Hd) as Ha.
  case_decide; [|by erewrite bind_err by exact Ha].
  erewrite bind_ok by exact Ha. eapply sim_ex0.
  rewrite <-(take_drop i xs) in Hd. apply list_insert_spec; rewrite ?take_drop in *; try done.
Qed.

Lemma sim_remove_at h l xs i :
  dll h l xs → sim l h (run_op l (RemoveAt i) h) (seq_op (RemoveAt i) xs).
Proof.
  intros Hd. simpl. pose proof (list_at_ok h l xs i Hd) as Ha.
  destruct (xs !! i) as [x|] eqn:E.
  - apply lookup_lt_Some in E as ?. rewrite decide_True in Ha by lia.
    rewrite (drop_S _ _ _ E) in Ha. cbn [front_of] in Ha. erewrite bind_ok by exact Ha.
    rewrite <-(take_drop_middle _ _ _ E) in Hd.
    destruct (list_remove_spec _ _ _ _ _ Hd) as (h' & E' & Hd' & [_ Hf]).
    by erewrite bind_ok by exact E'.
  - apply lookup_ge_None in E. case_decide; [|by erewrite bind_err by exact Ha].
    rewrite drop_ge in Ha by done. erewrite bind_ok by exact Ha. cbn [front_of].
    by erewrite bind_err by by eapply list_remove_tail.
Qed.

Lemma run_op_sim h l xs op :
  dll h l xs → op_allowed (dom h) l xs op → sim l h (run_op l op h) (seq_op op xs).
Proof.
  intros Hd Ho. destruct op as [e|e|i e|i| | | | | | |].
  - destruct Ho as (? & ?%elem_of_dom & ?). by eapply sim_ex0, list_push_front_spec.
  - destruct Ho as (? & ?%elem_of_dom & ?). by eapply sim_ex0, list_push_back_spec.
  - by apply sim_insert_at.
  - by apply sim_remove_at.
  - destruct xs as [|x xs]; [|by eapply sim_ex, list_pop_front_spec].
    simpl. unfold list_pop_front. by erewrite bind_err by by apply list_front_empty.
  - destruct xs as [|x xs _] using rev_ind; simpl.
    { unfold list_pop_back. by erewrite bind_err by by apply list_back_empty. }
    rewrite last_snoc, removelast_last. by eapply sim_ex, list_pop_back_spec.
  - destruct xs as [|x xs]; simpl; [by rewrite (list_front_empty _ _ Hd)|].
    by erewrite list_front_ok.
  - destruct xs as [|x xs _] using rev_ind; simpl; [by rewrite (list_back_empty _ _ Hd)|].
    rewrite last_snoc. by erewrite list_back_ok.
  - simpl. by erewrite list_size_ok.
  - simpl. erewrite bind_ok by by apply list_empty_ok. split_and!; [|done..].
    by case_bool_decide; case_decide.
  - by eapply sim_ex0, list_reverse_spec.
Qed.

(** ** Programs *)

Lemma run_ops_sim ops h l xs :
  dll h l xs → ops_allowed (dom h) l xs ops = true → sim l h (run_ops l ops h) (seq_ops ops xs).
Proof.
  revert h xs. induction ops as [|op ops IH]; intros h xs Hd Ha; cbn [run_ops seq_ops]; [done|].
  cbn [ops_allowed] in Ha. apply andb_true_iff in Ha as [Ho%bool_decide_eq_true_1 Ha].
  pose proof (run_op_sim h l xs op Hd Ho) as Hs.
  destruct (run_op l op h) as [[v h1]|e] eqn:E1, (seq_op op xs) as [[w xs1]|e'] eqn:E2;
    simpl in Hs; try done.
  - destruct Hs as (-> & Hd1 & Hdom). rewrite (bind_ok _ _ _ _ _ E1), (bind_ok _ _ _ _ _ E2).
    rewrite <-Hdom in Ha. pose proof (IH h1 xs1 Hd1 Ha) as Hs.
    destruct (run_ops l ops h1) as [[vs h2]|e] eqn:E3, (seq_ops ops xs1) as [[ws xs2]|e'] eqn:E4;
      simpl in Hs; try done.
    + destruct Hs as (-> & Hd2 & Hdom2). rewrite (bind_ok _ _ _ _ _ E3), (bind_ok _ _ _ _ _ E4). split_and!; [done..|congruence].
    + subst. by rewrite (bind_err _ _ _ _ E3), (bind_err _ _ _ _ E4).
  - subst. by rewrite (bind_err _ _ _ _ E1), (bind_err _ _ _ _ E2).
Qed.

(** ** Ordered insertion and duplicates, on sequences *)

Lemma insert_pos_split less `{!StrictWeak less} e xs us vs :
  insert_pos less e xs = (us, vs) → sorted_by less xs →
  Forall (λ u, less e u = false) us ∧ Forall (λ v, less e v = true) vs.
Proof.
  revert us vs. induction xs as [|x xs IH]; intros us vs Hp Hs; simpl in Hp; [by simplify_eq|].
  destruct (less e x) eqn:E; simplify_eq/=.
  - split; [done|]. apply sorted_strong, StronglySorted_inv in Hs as [_ Hs]; [|done].
    constructor; [done|]. eapply Forall_impl; [exact Hs|]. simpl. intros v Hv.
    destruct (less_negtrans e v x E); congruence.
  - destruct (insert_pos less e xs) as [us' vs'] eqn:E2. simplify_eq/=.
    apply Sorted_inv in Hs as [Hs _]. destruct (IH us' vs) as [? ?]; auto.
Qed.

Lemma uniq_from_spec less `{!StrictWeak less} e ys k d :
  uniq_from less e ys = (k, d) → sorted_by less (e :: ys) →
  Sorted (λ x y, less x y = true) (e :: k) ∧ (e :: k) ++ d ≡ₚ e :: ys ∧
  Forall (λ y, ∃ x, x ∈ e :: k ∧ equiv_to less x y = true) d.
Proof.
  revert e k d. induction ys as [|y ys IH]; intros e k d E Hs; simpl in E.
  { simplify_eq. split_and!; [repeat constructor|done|done]. }
  pose proof (sorted_strong _ _ Hs) as Hss. apply Sorted_inv in Hs as [Hs Hh].
  apply HdRel_inv in Hh. destruct (negb (less e y) && negb (less y e)) eqn:Ee.
  - destruct (uniq_from less e ys) as [k' d'] eqn:E2. simplify_eq.
    destruct (IH e k d') as (H1 & H2 & H3); [done| |].
    { apply StronglySorted_Sorted. apply StronglySorted_inv in Hss as [Hss Hf].
      apply StronglySorted_inv in Hss as [Hss _]. apply Forall_cons in Hf as [_ Hf].
      by constructor. }
    split_and!; [done| |].
    + rewrite <-Permutation_middle, H2. apply Permutation_swap.
    + constructor; [|done]. exists e. split; [by left|done].
  - destruct (uniq_from less y ys) as [k' d'] eqn:E2. simplify_eq.
    destruct (IH y k' d) as (H1 & H2 & H3); [done..|]. split_and!.
    + constructor; [done|]. constructor. rewrite Hh, andb_true_r in Ee. by destruct (less e y).
    + simpl. by f_equiv.
    + eapply Forall_impl; [exact H3|]. simpl. intros z (x & Hx & Hz). exists x. split; [by right|done].
Qed.

(** ** A concrete memory *)

#[export] Instance linked_dec h ns : Decision (linked h ns).
Proof.
  induction ns as [|a [|b ns] IH]; [left; exact I..|].
  destruct (decide (nxt h a = Some b ∧ prv h b = Some a)) as [H|H].
  - destruct IH as [H'|H']; [left; naive_solver|right; naive_solver].
  - right. naive_solver.
Defined.

#[export] Instance dll_dec h l xs : Decision (dll h l xs).
Proof. unfold dll. apply _. Defined.

(** The list at 8 with the elements 100, 200, 300; the elements 400 and 500,
    and a second list at 40, empty. *)
Definition example_heap : heap :=
  list_to_map [(8, ListElem 0 100); (100, ListElem 8 200); (200, ListElem 100 300);
               (300, ListElem 200 16); (16, ListElem 300 0); (400, ListElem 0 0);
               (500, ListElem 0 0); (40, ListElem 0 48); (48, ListElem 40 0)].

Lemma example_dll : dll example_heap 8 [100; 200; 300].
Proof. apply (bool_decide_unpack _). vm_compute. exact I. Qed.

Lemma example_dll_empty : dll example_heap 40 [].
Proof. apply (bool_decide_unpack _). vm_compute. exact I. Qed.

(** Elements are ordered by address modulo 200: 200 before 100 and 300. *)
Definition example_less (a b : Z) : bool := a mod 200 <? b mod 200.

#[export] Instance example_less_strict_weak : StrictWeak example_less.
Proof. split; unfold example_less; intros; lia. Qed.

(** ** Properties *)

(** C25. Running any client program of list calls on a well-formed list in
    memory returns the same values as running it on the sequence of its
    elements, fails with the same error at the same call, and leaves a
    well-formed list that holds the resulting sequence. *)
Theorem list_refines_sequence ops h l xs :
  dll h l xs → ops_allowed (dom h) l xs ops = true →
  sim l h (run_ops l ops h) (seq_ops ops xs).
Proof. apply run_ops_sim. Qed.

Definition example_ops : list list_op :=
  [PushBack 400; InsertAt 1 500; RemoveAt 2; Reverse; Front; PopBack; Size; PushFront 200; PopFront].

Lemma list_refines_sequence_witness :
  sim 8 example_heap (run_ops 8 example_ops example_heap) (seq_ops example_ops [100; 200; 300]).
Proof.
  apply (list_refines_sequence example_ops example_heap 8 [100; 200; 300] example_dll).
  vm_compute. reflexivity.
Defined.

(** C26. [list_sort] always returns, for every order that is a strict weak
    order: it leaves the same elements, in nondecreasing order, with equal
    ones in their original relative order, and touches no other element. *)
Theorem list_sort_correct less h l xs :
  StrictWeak less → dll h l xs →
  ∃ h', list_sort less l h = Ok (tt, h') ∧
    ∃ xs', dll h' l xs' ∧ frame (nodes l xs) h h' ∧ stable_perm less xs' xs ∧ sorted_by less xs'.
Proof. intros. by apply list_sort_ok. Qed.

Lemma list_sort_correct_witness :
  ∃ h', list_sort example_less 8 example_heap = Ok (tt, h') ∧
    ∃ xs', dll h' 8 xs' ∧ frame (nodes 8 [100; 200; 300]) example_heap h' ∧
      stable_perm example_less xs' [100; 200; 300] ∧ sorted_by example_less xs'.
Proof. apply (list_sort_correct example_less example_heap 8 [100; 200; 300]); [apply _|apply example_dll]. Defined.

(** [list_insert_ordered] inserts into a sorted list, after the elements
    that are equal to the new one, and leaves a sorted list. *)
Theorem list_insert_ordered_correct less h l xs e :
  StrictWeak less → dll h l xs → sorted_by less xs →
  e ≠ NULL → is_Some (h !! e) → e ∉ nodes l xs →
  ∃ us vs h', list_insert_ordered less l e h = Ok (tt, h') ∧ xs = us ++ vs ∧
    dll h' l (us ++ e :: vs) ∧ sorted_by less (us ++ e :: vs) ∧
    Forall (λ u, less e u = false) us ∧ Forall (λ v, less e v = true) vs ∧
    frame (e :: nodes l xs) h h'.
Proof.
  intros Hw Hd Hs He Hm Hn. destruct (insert_pos less e xs) as [us vs] eqn:E.
  destruct (list_insert_ordered_run less h l xs us vs e) as (h' & E' & Hd' & Hf); [done..|].
  exists us, vs, h'. destruct (insert_pos_split less e xs us vs E Hs).
  eauto 10 using insert_pos_app, insert_pos_sorted.
Qed.

Lemma list_insert_ordered_correct_witness :
  ∃ us vs h', list_insert_ordered Z.ltb 8 250 (<[250 := ListElem 0 0]> example_heap) = Ok (tt, h') ∧
    [100; 200; 300] = us ++ vs ∧
    dll h' 8 (us ++ 250 :: vs) ∧ sorted_by Z.ltb (us ++ 250 :: vs) ∧
    Forall (λ u, (250 <? u) = false) us ∧ Forall (λ v, (250 <? v) = true) vs ∧
    frame (250 :: nodes 8 [100; 200; 300]) (<[250 := ListElem 0 0]> example_heap) h'.
Proof.
  apply (list_insert_ordered_correct Z.ltb).
  - split; intros; lia.
  - apply (bool_decide_unpack _). vm_compute. exact I.
  - repeat constructor.
  - done.
  - by eexists.
  - apply (bool_decide_unpack _). vm_compute. exact I.
Defined.

(** [list_max] returns the first of the largest elements and [list_min]
    the first of the smallest ones, and neither changes the memory. *)
Theorem list_max_min_first less h l x xs :
  StrictWeak less → dll h l (x :: xs) →
  ∃ m n, list_max less l h = Ok (m, h) ∧ list_min less l h = Ok (n, h) ∧
    first_max less (x :: xs) m ∧ first_max (λ a b, less b a) (x :: xs) n.
Proof.
  intros Hw Hd. exists (max_from less x xs), (min_from less x xs).
  rewrite (list_max_run _ _ _ _ Hd), (list_min_run _ _ _ _ Hd). split_and!; [done..| |].
  - by apply max_from_first.
  - apply (max_from_first (λ a b, less b a)).
Qed.

Lemma list_max_min_first_witness :
  ∃ m n, list_max example_less 8 example_heap = Ok (m, example_heap) ∧
    list_min example_less 8 example_heap = Ok (n, example_heap) ∧
    first_max example_less [100; 200; 300] m ∧
    first_max (λ a b, example_less b a) [100; 200; 300] n.
Proof. apply (list_max_min_first example_less example_heap 8 100 [200; 300]); [apply _|apply example_dll]. Defined.

(** [list_unique] on a sorted list leaves a strictly increasing list of
    the first elements of each class of equal ones; the removed elements are
    equal to kept ones, and are appended in order to DUPLICATES when it is
    given. *)
Theorem list_unique_correct less h l dup x xs ds :
  StrictWeak less → dll h l (x :: xs) → sorted_by less (x :: xs) →
  dups_ok h l dup (x :: xs) ds →
  ∃ k d h', list_unique less l dup h = Ok (tt, h') ∧ dll h' l (x :: k) ∧
    (dup = NULL ∨ dll h' dup (ds ++ d)) ∧
    Sorted (λ x y, less x y = true) (x :: k) ∧ (x :: k) ++ d ≡ₚ x :: xs ∧
    Forall (λ y, ∃ z, z ∈ x :: k ∧ equiv_to less z y = true) d.
Proof.
  intros Hw Hd Hs Hu. destruct (uniq_from less x xs) as [k d] eqn:E.
  destruct (list_unique_run less h l dup x xs ds k d) as (h' & Er & Hd' & Hdup & _); [done..|].
  exists k, d, h'. destruct (uniq_from_spec less x xs k d E Hs). auto.
Qed.

(** The order by address modulo 100 makes all elements equal. *)
Lemma list_unique_correct_witness :
  ∃ k d h', list_unique (λ a b, a mod 100 <? b mod 100) 8 40 example_heap = Ok (tt, h') ∧
    dll h' 8 (100 :: k) ∧ (40 = NULL ∨ dll h' 40 ([] ++ d)) ∧
    Sorted (λ x y, (x mod 100 <? y mod 100) = true) (100 :: k) ∧
    (100 :: k) ++ d ≡ₚ [100; 200; 300] ∧
    Forall (λ y, ∃ z, z ∈ 100 :: k ∧ equiv_to (λ a b, a mod 100 <? b mod 100) z y = true) d.
Proof.
  apply (list_unique_correct (λ a b, a mod 100 <? b mod 100) example_heap 8 40 100 [200; 300] []).
  - split; intros; lia.
  - apply example_dll.
  - repeat constructor.
  - right. split; [apply example_dll_empty|]. unfold list_disjoint, nodes, tail_of, sizeof_list_elem. simpl.
    intros x. rewrite !elem_of_cons, elem_of_nil. intros ? ?. lia.
Defined.
