(* ===== verification/Vaddr.v ===== *)
(** * Virtual addresses

    threads/vaddr.h, threads/pte.h and lib/round.h: pages, the mapping of
    physical memory into the kernel's half of the address space, and page table
    entries.  Addresses are values below 2^32. *)

From S2P Require Import Prelude.

(** ** lib/round.h, on unsigned values *)

Definition ROUND_UP (x step : Z) : Z := u32 (u32 (x + step - 1) / step * step).
Definition DIV_ROUND_UP (x step : Z) : Z := u32 (x + step - 1) / step.
Definition ROUND_DOWN (x step : Z) : Z := x / step * step.

(** ** threads/vaddr.h *)

Definition BITMASK (shift cnt : Z) : Z := u32 (Z.shiftl (Z.shiftl 1 cnt - 1) shift).
Definition PGSHIFT : Z := 0.
Definition PGBITS : Z := 12.
Definition PGSIZE : Z := Z.shiftl 1 PGBITS.
Definition PGMASK : Z := BITMASK PGSHIFT PGBITS.

(** The complement of a 32-bit mask. *)
Definition not32 (x : Z) : Z := u32 (Z.lnot x).

Definition pg_ofs (va : Z) : Z := Z.land va PGMASK.
Definition pg_no (va : Z) : Z := Z.shiftr va PGBITS.
Definition pg_round_up (va : Z) : Z := Z.land (u32 (va + PGSIZE - 1)) (not32 PGMASK).
Definition pg_round_down (va : Z) : Z := Z.land va (not32 PGMASK).

(** [LOADER_PHYS_BASE]. *)
Definition PHYS_BASE : Z := 0xc0000000.

Definition is_user_vaddr (vaddr : Z) : bool := bool_decide (vaddr < PHYS_BASE).
Definition is_kernel_vaddr (vaddr : Z) : bool := bool_decide (PHYS_BASE ≤ vaddr).

Definition check (b : bool) : result unit := if b then Ok tt else Err AssertFailed.

Definition ptov (paddr : Z) : result Z :=
  _ ← check (bool_decide (paddr < PHYS_BASE)); Ok (u32 (paddr + PHYS_BASE)).
Definition vtop (vaddr : Z) : result Z :=
  _ ← check (is_kernel_vaddr vaddr); Ok (u32 (vaddr - PHYS_BASE)).

(** ** threads/pte.h *)

Definition PTSHIFT : Z := PGBITS.
Definition PTBITS : Z := 10.
Definition PTSPAN : Z := Z.shiftl (Z.shiftl 1 PTBITS) PGBITS.
Definition PTMASK : Z := BITMASK PTSHIFT PTBITS.
Definition PDSHIFT : Z := PTSHIFT + PTBITS.
Definition PDBITS : Z := 10.
Definition PDMASK : Z := BITMASK PDSHIFT PDBITS.

Definition pt_no (va : Z) : Z := Z.shiftr (Z.land va PTMASK) PTSHIFT.
Definition pd_no (va : Z) : Z := Z.shiftr va PDSHIFT.

Definition PTE_FLAGS : Z := 0x00000fff.
Definition PTE_ADDR : Z := 0xfffff000.
Definition PTE_AVL : Z := 0x00000e00.
Definition PTE_P : Z := 0x1.
Definition PTE_W : Z := 0x2.
Definition PTE_U : Z := 0x4.
Definition PTE_A : Z := 0x20.
Definition PTE_D : Z := 0x40.

Definition pde_create (pt : Z) : result Z :=
  _ ← check (bool_decide (pg_ofs pt = 0));
  p ← vtop pt; Ok (Z.lor (Z.lor (Z.lor p PTE_U) PTE_P) PTE_W).
Definition pde_get_pt (pde : Z) : result Z :=
  _ ← check (bool_decide (Z.land pde PTE_P ≠ 0)); ptov (Z.land pde PTE_ADDR).
Definition pte_create_kernel (page : Z) (writable : bool) : result Z :=
  _ ← check (bool_decide (pg_ofs page = 0));
  p ← vtop page; Ok (Z.lor (Z.lor p PTE_P) (if writable then PTE_W else 0)).
Definition pte_create_user (page : Z) (writable : bool) : result Z :=
  e ← pte_create_kernel page writable; Ok (Z.lor e PTE_U).
Definition pte_get_page (pte : Z) : result Z := ptov (Z.land pte PTE_ADDR).

(** ** Arithmetic of pages *)

Lemma PGSIZE_eq : PGSIZE = 4096.
Proof. done. Qed.

Lemma pg_ofs_eq va : pg_ofs va = va mod PGSIZE.
Proof. unfold pg_ofs. change PGMASK with (Z.ones 12). by rewrite Z.land_ones. Qed.

Lemma pg_no_eq va : pg_no va = va / PGSIZE.
Proof. unfold pg_no. by rewrite Z.shiftr_div_pow2. Qed.

Lemma mask_low (x k : Z) : in_u 32 x → 0 ≤ k → k ≤ 32 → Z.land x (not32 (Z.ones k)) = x - x mod 2 ^ k.
Proof.
  intros Hx Hk Hk32. assert (Z.land x (not32 (Z.ones k)) = Z.land x (Z.lnot (Z.ones k))) as ->.
  { apply Z.bits_inj'. intros j Hj. unfold not32. rewrite !Z.land_spec, wrapu_bits by lia.
    destruct (decide (j < 32)); [done|]. rewrite (proj2 (in_u_bits 32 x ltac:(lia)) Hx) by lia. done. }
  rewrite <-Z.ldiff_land, Z.ldiff_ones_r, Z.shiftl_mul_pow2, Z.shiftr_div_pow2 by done.
  pose proof (Z.div_mod x (2 ^ k)). lia.
Qed.

Lemma pg_round_down_eq va : in_u 32 va → pg_round_down va = va - va mod PGSIZE.
Proof. intros. by apply (mask_low va 12). Qed.

Lemma pg_round_up_eq va : 0 ≤ va → va ≤ 2 ^ 32 - PGSIZE → pg_round_up va = (va + PGSIZE - 1) / PGSIZE * PGSIZE.
Proof.
  intros H0 H1. rewrite PGSIZE_eq in *. unfold pg_round_up. rewrite PGSIZE_eq, wrapu_small by (unfold in_u; lia).
  change (not32 PGMASK) with (not32 (Z.ones 12)). rewrite (mask_low _ 12) by (done || unfold in_u; lia).
  change (2 ^ 12) with 4096. pose proof (Z.div_mod (va + 4096 - 1) 4096). lia.
Qed.

Lemma ptov_ok paddr : 0 ≤ paddr → paddr < 2 ^ 32 - PHYS_BASE → ptov paddr = Ok (paddr + PHYS_BASE).
Proof.
  intros H0 H1. unfold ptov, check, PHYS_BASE in *. rewrite bool_decide_eq_true_2 by lia. cbn.
  by rewrite wrapu_small by (unfold in_u; lia).
Qed.

Lemma vtop_ok vaddr : PHYS_BASE ≤ vaddr → vaddr < 2 ^ 32 → vtop vaddr = Ok (vaddr - PHYS_BASE).
Proof.
  intros H0 H1. unfold vtop, check, is_kernel_vaddr, PHYS_BASE in *. rewrite bool_decide_eq_true_2 by lia. cbn.
  by rewrite wrapu_small by (unfold in_u; lia).
Qed.

(** An address is made of its directory index, its table index and its offset. *)
Lemma pd_no_eq va : pd_no va = va / 2 ^ 22.
Proof. unfold pd_no. by rewrite Z.shiftr_div_pow2. Qed.

Lemma pt_no_eq va : pt_no va = va / PGSIZE mod 1024.
Proof.
  unfold pt_no. change PTMASK with (Z.shiftl (Z.ones 10) 12). change PTSHIFT with 12.
  rewrite Z.shiftr_land, Z.shiftr_shiftl_l by lia. change (12 - 12) with 0.
  rewrite Z.shiftl_0_r, Z.land_ones, Z.shiftr_div_pow2 by lia. done.
Qed.

Lemma vaddr_parts va : 0 ≤ va → va = pd_no va * 2 ^ 22 + pt_no va * PGSIZE + pg_ofs va.
Proof.
  intros H. rewrite pd_no_eq, pt_no_eq, pg_ofs_eq, PGSIZE_eq. change (2 ^ 22) with (4096 * 1024).
  rewrite <-Z.div_div by lia. pose proof (Z.div_mod va 4096). pose proof (Z.div_mod (va / 4096) 1024). lia.
Qed.
