(* ===== verification/Bitmap.v ===== *)
(** * Bitmaps

    lib/kernel/bitmap.c: an array of bits in an array of 32-bit elements.  The
    state of an operation is the bitmap object, so [ASSERT (b != NULL)] holds
    wherever an operation is applied.  The reference is a list of booleans. *)

From S2P Require Import Prelude.

(** ** lib/kernel/bitmap.c *)

Definition ELEM_BITS : Z := 32.

Record bitmap := Bitmap { bit_cnt : Z; bits : list Z }.

Definition elem_idx (bit_idx : Z) : Z := bit_idx / ELEM_BITS.
Definition bit_mask (bit_idx : Z) : Z := u32 (Z.shiftl 1 (bit_idx mod ELEM_BITS)).
Definition elem_cnt (cnt : Z) : Z := u32 (cnt + (ELEM_BITS - 1)) / ELEM_BITS.
Definition byte_cnt (cnt : Z) : Z := u32 (4 * elem_cnt cnt).

Definition last_mask (b : bitmap) : Z :=
  let last_bits := bit_cnt b mod ELEM_BITS in
  if decide (last_bits ≠ 0) then u32 (Z.shiftl 1 last_bits - 1) else u32 (-1).

(** [b->bits[idx]], read and written. *)
Definition rd_elem (idx : Z) : M bitmap Z := λ b,
  match bits b !! Z.to_nat idx with Some e => Ok (e, b) | None => Err BadAccess end.
Definition wr_elem (idx e : Z) : M bitmap unit := λ b,
  if decide (Z.to_nat idx < length (bits b))%nat
  then Ok (tt, Bitmap (bit_cnt b) (<[Z.to_nat idx := e]> (bits b))) else Err BadAccess.

Definition bitmap_size : M bitmap Z := gets bit_cnt.

Definition bitmap_mark (bit_idx : Z) : M bitmap unit :=
  let idx := elem_idx bit_idx in
  let mask := bit_mask bit_idx in
  e ← rd_elem idx; wr_elem idx (Z.lor e mask).

Definition bitmap_reset (bit_idx : Z) : M bitmap unit :=
  let idx := elem_idx bit_idx in
  let mask := bit_mask bit_idx in
  e ← rd_elem idx; wr_elem idx (Z.land e (u32 (Z.lnot mask))).

Definition bitmap_flip (bit_idx : Z) : M bitmap unit :=
  let idx := elem_idx bit_idx in
  let mask := bit_mask bit_idx in
  e ← rd_elem idx; wr_elem idx (Z.lxor e mask).

Definition bitmap_set (idx : Z) (value : bool) : M bitmap unit :=
  cnt ← gets bit_cnt; assert (bool_decide (idx < cnt));;
  if value then bitmap_mark idx else bitmap_reset idx.

Definition bitmap_test (idx : Z) : M bitmap bool :=
  cnt ← gets bit_cnt; assert (bool_decide (idx < cnt));;
  e ← rd_elem (elem_idx idx);
  mret (bool_decide (Z.land e (bit_mask idx) ≠ 0)).

(** The assertions on a range of bits; the sum is a [size_t]. *)
Definition assert_range (start cnt : Z) : M bitmap unit :=
  n ← gets bit_cnt;
  assert (bool_decide (start ≤ n));; assert (bool_decide (u32 (start + cnt) ≤ n)).

(** The loops run for [i] from the given value, [n] times. *)
Fixpoint set_multiple_loop (start : Z) (value : bool) (i : Z) (n : nat) : M bitmap unit :=
  match n with
  | O => mret tt
  | S n => bitmap_set (u32 (start + i)) value;; set_multiple_loop start value (i + 1) n
  end.

Definition bitmap_set_multiple (start cnt : Z) (value : bool) : M bitmap unit :=
  assert_range start cnt;; set_multiple_loop start value 0 (Z.to_nat cnt).

Definition bitmap_set_all (value : bool) : M bitmap unit :=
  n ← bitmap_size; bitmap_set_multiple 0 n value.

Fixpoint count_loop (start : Z) (value : bool) (i value_cnt : Z) (n : nat) : M bitmap Z :=
  match n with
  | O => mret value_cnt
  | S n =>
      v ← bitmap_test (u32 (start + i));
      count_loop start value (i + 1) (if eqb v value then u32 (value_cnt + 1) else value_cnt) n
  end.

Definition bitmap_count (start cnt : Z) (value : bool) : M bitmap Z :=
  assert_range start cnt;; count_loop start value 0 0 (Z.to_nat cnt).

Fixpoint contains_loop (start : Z) (value : bool) (i : Z) (n : nat) : M bitmap bool :=
  match n with
  | O => mret false
  | S n =>
      v ← bitmap_test (u32 (start + i));
      if eqb v value then mret true else contains_loop start value (i + 1) n
  end.

Definition bitmap_contains (start cnt : Z) (value : bool) : M bitmap bool :=
  assert_range start cnt;; contains_loop start value 0 (Z.to_nat cnt).

Definition bitmap_any (start cnt : Z) : M bitmap bool := bitmap_contains start cnt true.
Definition bitmap_none (start cnt : Z) : M bitmap bool :=
  b ← bitmap_contains start cnt true; mret (negb b).
Definition bitmap_all (start cnt : Z) : M bitmap bool :=
  b ← bitmap_contains start cnt false; mret (negb b).

(** [SIZE_MAX]. *)
Definition BITMAP_ERROR : Z := 2 ^ 32 - 1.

Fixpoint scan_loop (cnt : Z) (value : bool) (i : Z) (n : nat) : M bitmap Z :=
  match n with
  | O => mret BITMAP_ERROR
  | S n =>
      c ← bitmap_contains i cnt (negb value);
      if negb c then mret i else scan_loop cnt value (i + 1) n
  end.

Definition bitmap_scan (start cnt : Z) (value : bool) : M bitmap Z :=
  n ← gets bit_cnt;
  assert (bool_decide (start ≤ n));;
  if decide (cnt ≤ n) then
    let last := n - cnt in scan_loop cnt value start (Z.to_nat (last - start + 1))
  else mret BITMAP_ERROR.

Definition bitmap_scan_and_flip (start cnt : Z) (value : bool) : M bitmap Z :=
  idx ← bitmap_scan start cnt value;
  (if decide (idx ≠ BITMAP_ERROR) then bitmap_set_multiple idx cnt (negb value) else mret tt);;
  mret idx.

(** Creation.  The answers of [malloc] are arguments: whether there is a block
    for the structure, and the contents of the block for the elements, [None]
    when there is no such block.  [None] is the null pointer. *)
Definition bitmap_create (room : bool) (block : option (list Z)) (cnt : Z) : result (option bitmap) :=
  if room then
    match block with
    | Some es => '(_, b) ← bitmap_set_all false (Bitmap cnt es); Ok (Some b)
    | None =>
        if decide (cnt = 0) then '(_, b) ← bitmap_set_all false (Bitmap cnt []); Ok (Some b)
        else Ok None
    end
  else Ok None.

Definition bitmap_buf_size (cnt : Z) : Z := u32 (8 + byte_cnt cnt).

(** [block] holds the elements that follow the structure in the buffer. *)
Definition bitmap_create_in_buf (cnt : Z) (block : list Z) (block_size : Z) : result bitmap :=
  if decide (bitmap_buf_size cnt ≤ block_size) then
    '(_, b) ← bitmap_set_all false (Bitmap cnt block); Ok b
  else Err AssertFailed.

(** ** Files: the elements as bytes *)

Definition bitmap_file_size : M bitmap Z := gets (λ b, byte_cnt (bit_cnt b)).

(** The bytes of [b->bits], and the elements they encode. *)
Definition elem_bytes (es : list Z) : list Z := es ≫= le_bytes 4.
Fixpoint bytes_elems (bs : list Z) : list Z :=
  match bs with
  | b0 :: b1 :: b2 :: b3 :: bs => le_value [b0; b1; b2; b3] :: bytes_elems bs
  | _ => []
  end.

(** Clearing the unused bits of the last element. *)
Definition mask_last : M bitmap unit := λ b,
  let last := elem_cnt (bit_cnt b) - 1 in (e ← rd_elem last; wr_elem last (Z.land e (last_mask b))) b.

(** [read] is [file_read_at] on the file, with a size and an offset; it gives
    the bytes copied to the start of [b->bits].  The bitmap after the call is
    part of the result. *)
Definition bitmap_read {S} (read : Z → Z → M S (list Z)) (b : bitmap) : M S (bool * bitmap) :=
  if decide (bit_cnt b > 0) then
    let size := i32 (byte_cnt (bit_cnt b)) in
    data ← read size 0;
    let success := bool_decide (Z.of_nat (length data) = size) in
    let es := bytes_elems (data ++ drop (length data) (elem_bytes (bits b))) in
    '(_, b) ← lift (mask_last (Bitmap (bit_cnt b) es));
    mret (success, b)
  else mret (true, b).

(** [write] is [file_write_at] on the file, with a buffer, a size and an
    offset: the number of bytes it wrote. *)
Definition bitmap_write {S} (write : list Z → Z → Z → M S Z) (b : bitmap) : M S bool :=
  let size := i32 (byte_cnt (bit_cnt b)) in
  n ← write (elem_bytes (bits b)) size 0; mret (bool_decide (n = size)).

(** ** The bits of a bitmap *)

(** The elements are 32-bit values and there are enough of them; rounding the
    number of bits up to a multiple of 32 does not overflow. *)
Record bitmap_wf (b : bitmap) : Prop := {
  wf_cnt : 0 ≤ bit_cnt b ∧ bit_cnt b ≤ 2 ^ 32 - 32;
  wf_len : Z.of_nat (length (bits b)) = elem_cnt (bit_cnt b);
  wf_elems : Forall (in_u 32) (bits b)
}.

Definition bit (b : bitmap) (i : nat) : bool :=
  Z.testbit (default 0 (bits b !! Z.to_nat (Z.of_nat i / 32))) (Z.of_nat i mod 32).

Definition bools (b : bitmap) : list bool := bit b <$> seq 0 (Z.to_nat (bit_cnt b)).

Lemma bools_length b : length (bools b) = Z.to_nat (bit_cnt b).
Proof. unfold bools. by rewrite length_fmap, length_seq. Qed.

Lemma bools_lookup b i :
  bools b !! i = if decide (Z.of_nat i < bit_cnt b) then Some (bit b i) else None.
Proof.
  unfold bools. rewrite list_lookup_fmap. case_decide.
  - rewrite (lookup_seq_lt _ _ i) by lia. done.
  - rewrite (lookup_seq_ge _ _ i) by lia. done.
Qed.

Lemma elem_cnt_eq n : 0 ≤ n ∧ n ≤ 2 ^ 32 - 32 → elem_cnt n = (n + 31) / 32.
Proof. intros. unfold elem_cnt, ELEM_BITS. rewrite wrapu_small; [done|]. unfold in_u. lia. Qed.

Lemma bit_mask_eq i : 0 ≤ i → bit_mask i = 2 ^ (i mod 32).
Proof.
  intros Hi. unfold bit_mask, ELEM_BITS. pose proof (Z.mod_pos_bound i 32).
  rewrite Z.shiftl_mul_pow2, Z.mul_1_l by lia. apply wrapu_small. split; [apply Z.pow_nonneg; lia|].
  apply Z.pow_lt_mono_r; lia.
Qed.

Section elem.
  Context (b : bitmap) (Hwf : bitmap_wf b) (i : nat) (Hi : Z.of_nat i < bit_cnt b).

Lemma elem_idx_lt : (Z.to_nat (elem_idx (Z.of_nat i)) < length (bits b))%nat.
Proof.
  pose proof (wf_len _ Hwf) as Hl. rewrite elem_cnt_eq in Hl by apply Hwf. unfold elem_idx, ELEM_BITS.
  apply Nat2Z.inj_lt. rewrite Hl, Z2Nat.id by (apply Z.div_pos; lia). apply Z.div_lt_upper_bound; [lia|].
  pose proof (Z.div_mod (bit_cnt b + 31) 32). pose proof (Z.mod_pos_bound (bit_cnt b + 31) 32). lia.
Qed.

Lemma rd_elem_ok : ∃ e, bits b !! Z.to_nat (elem_idx (Z.of_nat i)) = Some e ∧ in_u 32 e ∧
  rd_elem (elem_idx (Z.of_nat i)) b = Ok (e, b) ∧ bit b i = Z.testbit e (Z.of_nat i mod 32).
Proof.
  destruct (lookup_lt_is_Some_2 _ _ elem_idx_lt) as [e E]. exists e. split_and!; [done|..].
  - by eapply (Forall_lookup_1 _ _ _ _ (wf_elems _ Hwf)).
  - unfold rd_elem. by rewrite E.
  - unfold bit. unfold elem_idx, ELEM_BITS in E. by rewrite E.
Qed.

(** Writing an element that differs in bit [i] alone. *)
Lemma wr_elem_ok e e' v :
  bits b !! Z.to_nat (elem_idx (Z.of_nat i)) = Some e →
  (∀ j, 0 ≤ j → Z.testbit e' j = if decide (j = Z.of_nat i mod 32) then v else Z.testbit e j) →
  in_u 32 e →
  ∃ b', wr_elem (elem_idx (Z.of_nat i)) e' b = Ok (tt, b') ∧ bitmap_wf b' ∧ bools b' = <[i := v]> (bools b).
Proof.
  intros E He Hr. unfold wr_elem. rewrite decide_True by apply elem_idx_lt.
  pose proof (Z.mod_pos_bound (Z.of_nat i) 32).
  assert (in_u 32 e') as Hr'.
  { apply in_u_bits; [lia|]. intros j Hj. rewrite He, decide_False by lia. by apply (in_u_bits 32 e). }
  eexists. split; [done|]. destruct Hwf as [W1 W2 W3]. split.
  - split; simpl; [done|by rewrite length_insert|by apply Forall_insert].
  - apply list_eq. intros j. destruct (decide (i = j)) as [<-|Hne].
    + rewrite list_lookup_insert_eq by (rewrite bools_length; lia).
      rewrite bools_lookup, decide_True by done. f_equal. unfold bit. simpl.
      unfold elem_idx, ELEM_BITS in *. rewrite list_lookup_insert_eq by by eapply lookup_lt_Some.
      simpl. by rewrite He, decide_True by lia.
    + rewrite list_lookup_insert_ne, !bools_lookup by done. simpl.
      destruct (decide (Z.of_nat j < bit_cnt b)); [|done]. f_equal.
      unfold bit. simpl. unfold elem_idx, ELEM_BITS in *.
      pose proof (Z.div_mod (Z.of_nat i) 32). pose proof (Z.div_mod (Z.of_nat j) 32).
      pose proof (Z.mod_pos_bound (Z.of_nat j) 32).
      destruct (decide (Z.of_nat i / 32 = Z.of_nat j / 32)) as [Eq|Ne].
      * rewrite <-Eq. rewrite list_lookup_insert_eq by by eapply lookup_lt_Some. rewrite E. simpl.
        rewrite He, decide_False by lia. done.
      * rewrite list_lookup_insert_ne; [done|]. intros E'. apply Ne.
        apply Z2Nat.inj; [apply Z.div_pos; lia..|done].
Qed.

Lemma bitmap_mark_ok :
  ∃ b', bitmap_mark (Z.of_nat i) b = Ok (tt, b') ∧ bitmap_wf b' ∧ bools b' = <[i := true]> (bools b).
Proof.
  destruct rd_elem_ok as (e & E & Hr & Hrd & _). unfold bitmap_mark. rewrite (bind_ok _ _ _ _ _ Hrd).
  apply (wr_elem_ok e); [done| |done]. intros j Hj. rewrite bit_mask_eq by lia.
  pose proof (Z.mod_pos_bound (Z.of_nat i) 32).
  rewrite Z.lor_spec, Z.pow2_bits_eqb by lia. case_decide as Ej.
  - subst j. by rewrite Z.eqb_refl, orb_true_r.
  - rewrite (proj2 (Z.eqb_neq _ _)) by done. apply orb_false_r.
Qed.

Lemma bitmap_reset_ok :
  ∃ b', bitmap_reset (Z.of_nat i) b = Ok (tt, b') ∧ bitmap_wf b' ∧ bools b' = <[i := false]> (bools b).
Proof.
  destruct rd_elem_ok as (e & E & Hr & Hrd & _). unfold bitmap_reset. rewrite (bind_ok _ _ _ _ _ Hrd).
  apply (wr_elem_ok e); [done| |done]. intros j Hj. rewrite bit_mask_eq by lia.
  pose proof (Z.mod_pos_bound (Z.of_nat i) 32).
  rewrite Z.land_spec, wrapu_bits, Z.lnot_spec, Z.pow2_bits_eqb by lia. destruct (decide (j < 32)).
  - case_decide as Ej.
    + subst j. rewrite Z.eqb_refl. apply andb_false_r.
    + rewrite (proj2 (Z.eqb_neq _ _)) by done. apply andb_true_r.
  - rewrite decide_False by lia. rewrite (proj2 (in_u_bits 32 e ltac:(lia)) Hr) by lia. done.
Qed.

Lemma bitmap_flip_ok :
  ∃ b', bitmap_flip (Z.of_nat i) b = Ok (tt, b') ∧ bitmap_wf b' ∧ bools b' = <[i := negb (bit b i)]> (bools b).
Proof.
  destruct rd_elem_ok as (e & E & Hr & Hrd & Hb). unfold bitmap_flip. rewrite (bind_ok _ _ _ _ _ Hrd).
  apply (wr_elem_ok e); [done| |done]. intros j Hj. rewrite bit_mask_eq by lia.
  pose proof (Z.mod_pos_bound (Z.of_nat i) 32).
  rewrite Z.lxor_spec, Z.pow2_bits_eqb by lia. case_decide as Ej.
  - subst j. by rewrite Z.eqb_refl, Hb.
  - rewrite (proj2 (Z.eqb_neq _ _)) by done. apply xorb_false_r.
Qed.

Lemma bitmap_test_ok : bitmap_test (Z.of_nat i) b = Ok (bit b i, b).
Proof.
  destruct rd_elem_ok as (e & E & Hr & Hrd & Hb). unfold bitmap_test.
  rewrite (bind_ok _ _ _ _ b eq_refl). rewrite bool_decide_eq_true_2 by done.
  rewrite (bind_ok _ _ _ _ b eq_refl), (bind_ok _ _ _ _ _ Hrd). rewrite bit_mask_eq, Hb by lia.
  unfold mret, M_ret. do 2 f_equal. pose proof (Z.mod_pos_bound (Z.of_nat i) 32).
  destruct (Z.testbit e (Z.of_nat i mod 32)) eqn:Et.
  - apply bool_decide_eq_true_2. intros Hz. apply (f_equal (λ x, Z.testbit x (Z.of_nat i mod 32))) in Hz.
    by rewrite Z.land_spec, Et, Z.pow2_bits_eqb, Z.eqb_refl, Z.bits_0 in Hz by lia.
  - apply bool_decide_eq_false_2. intros Hz. apply Hz. apply Z.bits_inj'. intros j Hj.
    rewrite Z.land_spec, Z.pow2_bits_eqb, Z.bits_0 by lia. destruct (Z.eqb_spec (Z.of_nat i mod 32) j) as [<-|].
    + by rewrite Et.
    + apply andb_false_r.
Qed.
End elem.

(** ** The operations on lists of booleans *)

Definition set_range (s n : nat) (v : bool) (l : list bool) : list bool :=
  imap (λ j x, if decide (s ≤ j < s + n)%nat then v else x) l.
Definition range (s n : nat) (l : list bool) : list bool := take n (drop s l).

(** The start of the first group of [n] bits at or after [s] that are all [v]. *)
Definition is_group (n : nat) (v : bool) (l : list bool) (i : nat) : Prop :=
  (i + n ≤ length l)%nat ∧ negb v ∉ range i n l.
#[export] Instance is_group_dec n v l i : Decision (is_group n v l i).
Proof. unfold is_group. apply _. Defined.
Definition first_group (s n : nat) (v : bool) (l : list bool) : option nat :=
  snd <$> list_find (is_group n v l) (seq s (S (length l) - n - s)).

Lemma set_range_length s n v l : length (set_range s n v l) = length l.
Proof. apply length_imap. Qed.

Lemma set_range_O s v l : set_range s 0 v l = l.
Proof.
  apply list_eq. intros j. unfold set_range. rewrite list_lookup_imap.
  destruct (l !! j); simpl; [|done]. rewrite decide_False by lia. done.
Qed.

Lemma set_range_S s n v l : set_range (S s) n v (<[s := v]> l) = set_range s (S n) v l.
Proof.
  apply list_eq. intros j. unfold set_range. rewrite !list_lookup_imap, list_lookup_insert.
  destruct (decide (s = j ∧ (s < length l)%nat)) as [[<- Hj]|Hj]; simpl.
  - destruct (lookup_lt_is_Some_2 _ _ Hj) as [x ->]. simpl.
    rewrite decide_False, decide_True by lia. done.
  - destruct (l !! j) as [x|] eqn:E; simpl; [|done]. apply lookup_lt_Some in E.
    assert (s ≠ j) by (intros ->; tauto). f_equal. repeat case_decide; done || lia.
Qed.

Lemma set_range_all n v l : length l = n → set_range 0 n v l = replicate n v.
Proof.
  intros <-. apply list_eq. intros j. unfold set_range. rewrite list_lookup_imap.
  destruct (l !! j) as [x|] eqn:E; simpl.
  - apply lookup_lt_Some in E. rewrite decide_True by lia. by rewrite lookup_replicate_2.
  - apply lookup_ge_None in E. symmetry. by apply lookup_replicate_None.
Qed.

Lemma range_S s n l x : l !! s = Some x → range s (S n) l = x :: range (S s) n l.
Proof. intros E. unfold range. by rewrite (drop_S _ _ _ E). Qed.

(** ** The loops *)

Lemma set_range_lookup s n v l j :
  set_range s n v l !! j = (if decide (s ≤ j < s + n)%nat then λ _, v else id) <$> l !! j.
Proof. unfold set_range. rewrite list_lookup_imap. by case_decide. Qed.

Lemma elem_of_range v i n l : v ∈ range i n l ↔ ∃ j, (i ≤ j < i + n)%nat ∧ l !! j = Some v.
Proof.
  unfold range. rewrite list_elem_of_lookup. split.
  - intros (k & Hk). apply lookup_take_Some in Hk as [Hk ?]. rewrite lookup_drop in Hk. exists (i + k)%nat. split; [lia|done].
  - intros (j & Hj & E). exists (j - i)%nat. rewrite lookup_take_lt, lookup_drop by lia. by replace (i + (j - i))%nat with j by lia.
Qed.

Lemma u32_nat s i b : bitmap_wf b → Z.of_nat (s + i) ≤ bit_cnt b → u32 (Z.of_nat s + Z.of_nat i) = Z.of_nat (s + i).
Proof. intros [[? ?] _ _] Hs. rewrite <-Nat2Z.inj_add. apply wrapu_small. unfold in_u. lia. Qed.

Lemma bitmap_set_run b i v :
  bitmap_wf b → Z.of_nat i < bit_cnt b →
  ∃ b', bitmap_set (Z.of_nat i) v b = Ok (tt, b') ∧ bitmap_wf b' ∧ bools b' = <[i := v]> (bools b).
Proof.
  intros Hwf Hi. unfold bitmap_set. apply (bind_ok_ex _ _ _ _ _ _ _ eq_refl).
  rewrite bool_decide_eq_true_2 by done. apply (bind_ok_ex _ _ _ _ _ _ _ eq_refl).
  destruct v; [by apply bitmap_mark_ok|by apply bitmap_reset_ok].
Qed.

Lemma bools_cnt b b' : bitmap_wf b → bitmap_wf b' → length (bools b') = length (bools b) → bit_cnt b' = bit_cnt b.
Proof. intros [[? _] _ _] [[? _] _ _]. rewrite !bools_length. intros E. apply Z2Nat.inj in E; lia. Qed.

Lemma bitmap_set_cnt b b' i v :
  bitmap_wf b → bitmap_wf b' → bools b' = <[i := v]> (bools b) → bit_cnt b' = bit_cnt b.
Proof. intros ?? E. apply bools_cnt; [done..|]. by rewrite E, length_insert. Qed.

Lemma set_multiple_loop_ok s v n i b :
  bitmap_wf b → Z.of_nat (s + i + n) ≤ bit_cnt b →
  ∃ b', set_multiple_loop (Z.of_nat s) v (Z.of_nat i) n b = Ok (tt, b') ∧
    (bitmap_wf b' ∧ bools b' = set_range (s + i) n v (bools b)).
Proof.
  revert i b. induction n as [|n IH]; intros i b Hwf Hb.
  { exists b. by rewrite set_range_O. }
  cbn [set_multiple_loop]. rewrite (u32_nat s i b) by (done || lia).
  destruct (bitmap_set_run b (s + i) v) as (b1 & E & Hwf1 & Hb1); [done|lia|].
  apply (bind_ok_ex _ _ _ _ _ _ _ E). replace (Z.of_nat i + 1) with (Z.of_nat (S i)) by lia.
  destruct (IH (S i) b1) as (b2 & E2 & Hwf2 & Hb2); [done| |].
  - rewrite (bitmap_set_cnt b b1 (s + i) v) by done. lia.
  - exists b2. rewrite E2, Hb2, Hb1. split; [done|]. split; [done|].
    rewrite <-set_range_S. by replace (s + S i)%nat with (S (s + i)) by lia.
Qed.

Lemma test_lookup b i :
  bitmap_wf b → Z.of_nat i < bit_cnt b →
  ∃ x, bools b !! i = Some x ∧ bitmap_test (Z.of_nat i) b = Ok (x, b).
Proof.
  intros Hwf Hi. exists (bit b i). by rewrite bools_lookup, decide_True, bitmap_test_ok.
Qed.

Lemma count_loop_ok s v n i c b :
  bitmap_wf b → Z.of_nat (s + i + n) ≤ bit_cnt b → c + Z.of_nat n ≤ bit_cnt b → 0 ≤ c →
  count_loop (Z.of_nat s) v (Z.of_nat i) c n b =
    Ok (c + Z.of_nat (length (filter (λ x, x = v) (range (s + i) n (bools b)))), b).
Proof.
  revert i c. induction n as [|n IH]; intros i c Hwf Hb Hc H0.
  { unfold range. rewrite take_0. cbn. unfold mret, M_ret. do 2 f_equal. lia. }
  cbn [count_loop]. rewrite (u32_nat s i b) by (done || lia).
  destruct (test_lookup b (s + i)) as (x & Ex & Et); [done|lia|]. rewrite (bind_ok _ _ _ _ _ Et).
  rewrite (range_S _ _ _ x) by done. replace (Z.of_nat i + 1) with (Z.of_nat (S i)) by lia.
  pose proof (wf_cnt _ Hwf). replace (S (s + i)) with (s + S i)%nat by lia.
  destruct (eqb x v) eqn:Ev.
  - apply eqb_prop in Ev as ->. rewrite filter_cons_True by done. rewrite wrapu_small by (unfold in_u; lia).
    rewrite IH by (done || lia). do 2 f_equal. simpl. lia.
  - apply eqb_false_iff in Ev. rewrite filter_cons_False by done. rewrite IH by (done || lia). done.
Qed.

Lemma contains_loop_ok s v n i b :
  bitmap_wf b → Z.of_nat (s + i + n) ≤ bit_cnt b →
  contains_loop (Z.of_nat s) v (Z.of_nat i) n b = Ok (bool_decide (v ∈ range (s + i) n (bools b)), b).
Proof.
  revert i. induction n as [|n IH]; intros i Hwf Hb.
  { unfold range. rewrite take_0. cbn. unfold mret, M_ret. rewrite bool_decide_eq_false_2; [done|].
    apply not_elem_of_nil. }
  cbn [contains_loop]. rewrite (u32_nat s i b) by (done || lia).
  destruct (test_lookup b (s + i)) as (x & Ex & Et); [done|lia|]. rewrite (bind_ok _ _ _ _ _ Et).
  rewrite (range_S _ _ _ x) by done. replace (Z.of_nat i + 1) with (Z.of_nat (S i)) by lia.
  replace (S (s + i)) with (s + S i)%nat by lia. destruct (eqb x v) eqn:Ev.
  - apply eqb_prop in Ev as ->. rewrite bool_decide_eq_true_2; [done|by left].
  - apply eqb_false_iff in Ev. rewrite IH by (done || lia). do 2 f_equal. apply bool_decide_ext.
    rewrite elem_of_cons. naive_solver.
Qed.

(** The range assertions of a range that does not overflow. *)
Lemma assert_range_run s n b :
  bitmap_wf b → Z.of_nat (s + n) < 2 ^ 32 →
  assert_range (Z.of_nat s) (Z.of_nat n) b =
    if decide (s + n ≤ length (bools b))%nat then Ok (tt, b) else Err AssertFailed.
Proof.
  intros Hwf Hs. unfold assert_range. rewrite (bind_ok _ _ _ _ b eq_refl), bools_length.
  rewrite <-Nat2Z.inj_add. rewrite wrapu_small by (unfold in_u; lia). pose proof (wf_cnt _ Hwf). case_decide.
  - rewrite !bool_decide_eq_true_2 by lia. done.
  - unfold assert. cbv [mbind M_bind]. rewrite (bool_decide_eq_false_2 (Z.of_nat (s + n) ≤ _)) by lia.
    by case_bool_decide.
Qed.

(** ** The operations *)

Lemma set_multiple_run s n v b :
  bitmap_wf b → Z.of_nat (s + n) < 2 ^ 32 →
  if decide (s + n ≤ length (bools b))%nat then
    ∃ b', bitmap_set_multiple (Z.of_nat s) (Z.of_nat n) v b = Ok (tt, b') ∧
      (bitmap_wf b' ∧ bools b' = set_range s n v (bools b))
  else bitmap_set_multiple (Z.of_nat s) (Z.of_nat n) v b = Err AssertFailed.
Proof.
  intros Hwf Hs. unfold bitmap_set_multiple. pose proof (assert_range_run s n b Hwf Hs) as Ha.
  rewrite Nat2Z.id. case_decide as Hl.
  - apply (bind_ok_ex _ _ _ _ _ _ _ Ha). rewrite bools_length in Hl. pose proof (wf_cnt _ Hwf).
    destruct (set_multiple_loop_ok s v n 0 b) as (b' & E & H'); [done|lia|]. exists b'.
    by rewrite Nat.add_0_r in H'.
  - by apply bind_err.
Qed.

Lemma count_run s n v b :
  bitmap_wf b → Z.of_nat (s + n) < 2 ^ 32 →
  bitmap_count (Z.of_nat s) (Z.of_nat n) v b =
    if decide (s + n ≤ length (bools b))%nat
    then Ok (Z.of_nat (length (filter (λ x, x = v) (range s n (bools b)))), b) else Err AssertFailed.
Proof.
  intros Hwf Hs. unfold bitmap_count. pose proof (assert_range_run s n b Hwf Hs) as Ha.
  rewrite Nat2Z.id. case_decide as Hl; [|by apply bind_err].
  rewrite (bind_ok _ _ _ _ _ Ha). rewrite bools_length in Hl. pose proof (wf_cnt _ Hwf).
  pose proof (count_loop_ok s v n 0 0 b Hwf) as E. rewrite Nat.add_0_r in E. apply E; lia.
Qed.

Lemma contains_run s n v b :
  bitmap_wf b → Z.of_nat (s + n) < 2 ^ 32 →
  bitmap_contains (Z.of_nat s) (Z.of_nat n) v b =
    if decide (s + n ≤ length (bools b))%nat
    then Ok (bool_decide (v ∈ range s n (bools b)), b) else Err AssertFailed.
Proof.
  intros Hwf Hs. unfold bitmap_contains. pose proof (assert_range_run s n b Hwf Hs) as Ha.
  rewrite Nat2Z.id. case_decide as Hl; [|by apply bind_err].
  rewrite (bind_ok _ _ _ _ _ Ha). rewrite bools_length in Hl. pose proof (wf_cnt _ Hwf).
  pose proof (contains_loop_ok s v n 0 b Hwf) as E. rewrite Nat.add_0_r in E. apply E; lia.
Qed.

(** The index that [bitmap_scan] returns for a group. *)
Definition index (o : option nat) : Z := match o with Some i => Z.of_nat i | None => BITMAP_ERROR end.

Lemma scan_loop_ok n v m i b :
  bitmap_wf b → Z.of_nat (i + m + n) ≤ bit_cnt b + 1 →
  scan_loop (Z.of_nat n) v (Z.of_nat i) m b =
    Ok (index (snd <$> list_find (is_group n v (bools b)) (seq i m)), b).
Proof.
  revert i. induction m as [|m IH]; intros i Hwf Hb; [done|]. cbn [scan_loop seq list_find].
  pose proof (wf_cnt _ Hwf). pose proof (bools_length b) as Hl.
  pose proof (contains_run i n (negb v) b Hwf) as Ec. rewrite decide_True in Ec by lia.
  rewrite (bind_ok _ _ _ _ _ (Ec ltac:(lia))).
  destruct (decide (is_group n v (bools b) i)) as [Hg|Hg].
  - rewrite bool_decide_eq_false_2 by apply Hg. done.
  - rewrite bool_decide_eq_true_2.
    2: { destruct (decide (negb v ∈ range i n (bools b))); [done|]. destruct Hg. split; [lia|done]. }
    cbn [negb]. replace (Z.of_nat i + 1) with (Z.of_nat (S i)) by lia. rewrite IH by (done || lia).
    do 3 f_equal. by destruct (list_find _ (seq (S i) m)) as [[]|].
Qed.

Lemma scan_run s n v b :
  bitmap_wf b → bitmap_scan (Z.of_nat s) (Z.of_nat n) v b =
    if decide (s ≤ length (bools b))%nat then Ok (index (first_group s n v (bools b)), b) else Err AssertFailed.
Proof.
  intros Hwf. unfold bitmap_scan. rewrite (bind_ok _ _ _ _ b eq_refl). pose proof (wf_cnt _ Hwf).
  pose proof (bools_length b) as Hl. destruct (decide (s ≤ length (bools b))%nat) as [Hs|Hs].
  - rewrite bool_decide_eq_true_2 by lia. rewrite (bind_ok _ _ _ _ b eq_refl). unfold first_group.
    destruct (decide (Z.of_nat n ≤ bit_cnt b)).
    + replace (Z.to_nat (bit_cnt b - Z.of_nat n - Z.of_nat s + 1)) with (S (length (bools b)) - n - s)%nat by lia.
      destruct (decide (n + s ≤ S (length (bools b)))%nat).
      * apply scan_loop_ok; [done|]. lia.
      * replace (S (length (bools b)) - n - s)%nat with 0%nat by lia. done.
    + replace (S (length (bools b)) - n - s)%nat with 0%nat by lia. done.
  - rewrite bool_decide_eq_false_2 by lia. done.
Qed.

Lemma first_group_Some s n v l i :
  first_group s n v l = Some i →
  ((s ≤ i)%nat ∧ is_group n v l i) ∧ ∀ j, (s ≤ j < i)%nat → ¬ is_group n v l j.
Proof.
  unfold first_group. destruct (list_find _ _) as [[k x]|] eqn:E; intros [= ->].
  apply list_find_Some in E as (Ei & Hg & Hl). apply lookup_seq in Ei as [-> Hk].
  split; [by split; [lia|]|]. intros j Hj. apply (Hl (j - s)%nat); [|lia].
  apply lookup_seq. lia.
Qed.

Lemma first_group_None s n v l i :
  first_group s n v l = None → (s ≤ i)%nat → ¬ is_group n v l i.
Proof.
  unfold first_group. destruct (list_find _ _) eqn:E; [done|]. intros _ Hi Hg.
  apply list_find_None in E. rewrite Forall_forall in E. apply (E i); [|done].
  apply elem_of_seq. destruct Hg. lia.
Qed.

Lemma group_index s n v b i : bitmap_wf b → first_group s n v (bools b) = Some i → index (Some i) ≠ BITMAP_ERROR.
Proof.
  intros Hwf [[_ [Hi _]] _]%first_group_Some. pose proof (wf_cnt _ Hwf). rewrite bools_length in Hi.
  unfold index, BITMAP_ERROR. lia.
Qed.

Lemma scan_and_flip_run s n v b :
  bitmap_wf b → (s ≤ length (bools b))%nat →
  ∃ b', bitmap_scan_and_flip (Z.of_nat s) (Z.of_nat n) v b = Ok (index (first_group s n v (bools b)), b') ∧
    bitmap_wf b' ∧ bools b' =
      match first_group s n v (bools b) with Some i => set_range i n (negb v) (bools b) | None => bools b end.
Proof.
  intros Hwf Hs. unfold bitmap_scan_and_flip. pose proof (scan_run s n v b Hwf) as E.
  rewrite decide_True in E by done. rewrite (bind_ok _ _ _ _ _ E).
  destruct (first_group s n v (bools b)) as [i|] eqn:Eg.
  - rewrite decide_True by by eapply group_index. apply first_group_Some in Eg as [[_ [Hi _]] _].
    pose proof (set_multiple_run i n (negb v) b Hwf) as Em. rewrite decide_True in Em by done.
    pose proof (bools_length b). pose proof (wf_cnt _ Hwf). destruct Em as (b' & Em & Hwf' & Hb'); [lia|].
    exists b'. unfold index. by rewrite (bind_ok _ _ _ _ _ Em).
  - rewrite decide_False by (intros H; by apply H). by exists b.
Qed.

(** ** Programs of operations *)

Inductive bitmap_op :=
  | OpSize
  | OpSet (i : nat) (v : bool)
  | OpMark (i : nat)
  | OpReset (i : nat)
  | OpFlip (i : nat)
  | OpTest (i : nat)
  | OpSetAll (v : bool)
  | OpSetMultiple (s n : nat) (v : bool)
  | OpCount (s n : nat) (v : bool)
  | OpContains (s n : nat) (v : bool)
  | OpAny (s n : nat)
  | OpNone (s n : nat)
  | OpAll (s n : nat)
  | OpScan (s n : nat) (v : bool)
  | OpScanAndFlip (s n : nat) (v : bool).

Definition num {S} (m : M S bool) : M S Z := b ← m; mret (if (b : bool) then 1 else 0).
Definition void {S} (m : M S unit) : M S Z := m;; mret 0.

Definition run_bitmap_op (o : bitmap_op) : M bitmap Z :=
  match o with
  | OpSize => bitmap_size
  | OpSet i v => void (bitmap_set (Z.of_nat i) v)
  | OpMark i => void (bitmap_mark (Z.of_nat i))
  | OpReset i => void (bitmap_reset (Z.of_nat i))
  | OpFlip i => void (bitmap_flip (Z.of_nat i))
  | OpTest i => num (bitmap_test (Z.of_nat i))
  | OpSetAll v => void (bitmap_set_all v)
  | OpSetMultiple s n v => void (bitmap_set_multiple (Z.of_nat s) (Z.of_nat n) v)
  | OpCount s n v => bitmap_count (Z.of_nat s) (Z.of_nat n) v
  | OpContains s n v => num (bitmap_contains (Z.of_nat s) (Z.of_nat n) v)
  | OpAny s n => num (bitmap_any (Z.of_nat s) (Z.of_nat n))
  | OpNone s n => num (bitmap_none (Z.of_nat s) (Z.of_nat n))
  | OpAll s n => num (bitmap_all (Z.of_nat s) (Z.of_nat n))
  | OpScan s n v => bitmap_scan (Z.of_nat s) (Z.of_nat n) v
  | OpScanAndFlip s n v => bitmap_scan_and_flip (Z.of_nat s) (Z.of_nat n) v
  end.

(** The same operations on a list of booleans; an operation on bits that do
    not exist fails its assertion. *)
Definition upto {A} (n : nat) (l : list bool) (a : A) : result A :=
  if decide (n ≤ length l)%nat then Ok a else Err AssertFailed.
Definition truth (P : Prop) `{Decision P} : Z := if decide P then 1 else 0.

Definition spec_bitmap_op (o : bitmap_op) (l : list bool) : result (Z * list bool) :=
  match o with
  | OpSize => Ok (Z.of_nat (length l), l)
  | OpSet i v => upto (S i) l (0, <[i := v]> l)
  | OpMark i => Ok (0, <[i := true]> l)
  | OpReset i => Ok (0, <[i := false]> l)
  | OpFlip i => Ok (0, alter negb i l)
  | OpTest i => upto (S i) l (truth (l !! i = Some true), l)
  | OpSetAll v => Ok (0, replicate (length l) v)
  | OpSetMultiple s n v => upto (s + n) l (0, set_range s n v l)
  | OpCount s n v => upto (s + n) l (Z.of_nat (length (filter (λ x, x = v) (range s n l))), l)
  | OpContains s n v => upto (s + n) l (truth (v ∈ range s n l), l)
  | OpAny s n => upto (s + n) l (truth (true ∈ range s n l), l)
  | OpNone s n => upto (s + n) l (truth (true ∉ range s n l), l)
  | OpAll s n => upto (s + n) l (truth (false ∉ range s n l), l)
  | OpScan s n v => upto s l (index (first_group s n v l), l)
  | OpScanAndFlip s n v => upto s l
      (index (first_group s n v l),
       match first_group s n v l with Some i => set_range i n (negb v) l | None => l end)
  end.

(** The arguments are [size_t]s whose sum does not overflow, and the three
    operations without an assertion get a bit that exists. *)
Definition bitmap_op_ok (cnt : nat) (o : bitmap_op) : Prop :=
  match o with
  | OpMark i | OpReset i | OpFlip i => (i < cnt)%nat
  | OpSetMultiple s n _ | OpCount s n _ | OpContains s n _ | OpAny s n | OpNone s n | OpAll s n =>
      Z.of_nat (s + n) < 2 ^ 32
  | _ => True
  end.
#[export] Instance bitmap_op_ok_dec cnt o : Decision (bitmap_op_ok cnt o).
Proof. destruct o; simpl; apply _. Defined.

(** The result of a run on a bitmap matches the one on its booleans. *)
Definition matches {A} (r : result (A * bitmap)) (s : result (A * list bool)) : Prop :=
  match s with
  | Ok (v, l) => ∃ b', r = Ok (v, b') ∧ bitmap_wf b' ∧ bools b' = l
  | Err e => r = Err e
  end.

Lemma matches_void m l b :
  (∃ b', m b = Ok (tt, b') ∧ bitmap_wf b' ∧ bools b' = l) → matches (void m b) (Ok (0, l)).
Proof. intros (b' & E & H). exists b'. unfold void. by rewrite (bind_ok _ _ _ _ _ E). Qed.

Lemma num_truth (x : bool) P `{Decision P} : (x = true ↔ P) → (if x then 1 else 0) = truth P.
Proof. intros H1. unfold truth. destruct x; case_decide; naive_solver. Qed.

Lemma matches_num m n (v : bool) P `{Decision P} b :
  bitmap_wf b → (v = true ↔ P) → m b = (if decide (n ≤ length (bools b))%nat then Ok (v, b) else Err AssertFailed) →
  matches (num m b) (upto n (bools b) (truth P, bools b)).
Proof.
  intros Hwf Hv E. unfold upto, num. destruct (decide (n ≤ length (bools b))%nat).
  - exists b. rewrite (bind_ok _ _ _ _ _ E). cbn. by rewrite (num_truth v P).
  - by apply bind_err.
Qed.

Lemma matches_val m n (v : Z) b :
  bitmap_wf b → m b = (if decide (n ≤ length (bools b))%nat then Ok (v, b) else Err AssertFailed) →
  matches (m b) (upto n (bools b) (v, bools b)).
Proof. intros Hwf ->. unfold upto. case_decide; [by exists b|done]. Qed.

Lemma out_of_range b i :
  bitmap_wf b → ¬ (S i ≤ length (bools b))%nat → bool_decide (Z.of_nat i < bit_cnt b) = false.
Proof. intros [? _ _]. rewrite bools_length. intros. apply bool_decide_eq_false_2. lia. Qed.

Lemma contains_negb s n v b :
  bitmap_wf b → Z.of_nat (s + n) < 2 ^ 32 →
  (x ← bitmap_contains (Z.of_nat s) (Z.of_nat n) v; mret (negb x)) b =
    if decide (s + n ≤ length (bools b))%nat
    then Ok (negb (bool_decide (v ∈ range s n (bools b))), b) else Err AssertFailed.
Proof.
  intros Hwf Hs. pose proof (contains_run s n v b Hwf Hs) as E.
  destruct (decide (s + n ≤ length (bools b))%nat); [by rewrite (bind_ok _ _ _ _ _ E)|by apply bind_err].
Qed.

Lemma negb_bool_decide P `{Decision P} : negb (bool_decide P) = true ↔ ¬ P.
Proof. rewrite negb_true_iff. apply bool_decide_eq_false. Qed.

Lemma bitmap_op_sim o b :
  bitmap_wf b → bitmap_op_ok (length (bools b)) o → matches (run_bitmap_op o b) (spec_bitmap_op o (bools b)).
Proof.
  intros Hwf Ho. pose proof (wf_cnt _ Hwf) as Hc. pose proof (bools_length b) as Hl.
  destruct o as [|i v|i|i|i|i|v|s n v|s n v|s n v|s n|s n|s n|s n v|s n v]; simpl in Ho |- *.
  - exists b. split; [|done]. unfold bitmap_size, gets. do 2 f_equal. lia.
  - unfold upto. case_decide as Hi.
    + apply matches_void, bitmap_set_run; [done|lia].
    + unfold void, bitmap_set. by cbv [mbind M_bind gets assert matches]; rewrite out_of_range.
  - apply matches_void, bitmap_mark_ok; [done|lia].
  - apply matches_void, bitmap_reset_ok; [done|lia].
  - apply matches_void. destruct (bitmap_flip_ok b Hwf i) as (b' & E & H' & Hb); [lia|].
    exists b'. split_and!; [done..|]. rewrite Hb. apply list_eq. intros j. destruct (decide (i = j)) as [<-|].
    + rewrite list_lookup_insert_eq, list_lookup_alter_eq, bools_lookup by lia. by rewrite decide_True by lia.
    + by rewrite list_lookup_insert_ne, list_lookup_alter_ne.
  - apply (matches_num _ (S i) (default false (bools b !! i))); [done| |].
    + destruct (bools b !! i) as [[]|]; naive_solver.
    + rewrite bools_lookup. case_decide.
      * rewrite decide_True by lia. apply bitmap_test_ok; [done|lia].
      * unfold bitmap_test. cbv [mbind M_bind gets assert]. by rewrite out_of_range.
  - apply matches_void. unfold bitmap_set_all, bitmap_size. pose proof (set_multiple_run 0 (length (bools b)) v b Hwf) as Em.
    rewrite decide_True in Em by lia. destruct Em as (b' & E & H' & Hb); [lia|].
    exists b'. rewrite <-(set_range_all _ v (bools b) eq_refl), <-Hb. split; [|done].
    rewrite (bind_ok _ _ _ _ b eq_refl). by replace (bit_cnt b) with (Z.of_nat (length (bools b))) by lia.
  - pose proof (set_multiple_run s n v b Hwf Ho) as E. unfold upto.
    destruct (decide (s + n ≤ length (bools b))%nat); [by apply matches_void|]. by apply bind_err.
  - apply matches_val, count_run; done.
  - apply (matches_num _ (s + n) (bool_decide (v ∈ range s n (bools b)))); [done|apply bool_decide_eq_true|].
    by apply contains_run.
  - apply (matches_num _ (s + n) (bool_decide (true ∈ range s n (bools b)))); [done|apply bool_decide_eq_true|].
    by apply contains_run.
  - eapply (matches_num _ (s + n)); [done|apply negb_bool_decide|by apply contains_negb].
  - eapply (matches_num _ (s + n)); [done|apply negb_bool_decide|by apply contains_negb].
  - by apply matches_val, scan_run.
  - unfold upto. destruct (decide (s ≤ length (bools b))%nat) as [Hs|Hs].
    + exact (scan_and_flip_run s n v b Hwf Hs).
    + pose proof (scan_run s n v b Hwf) as E. rewrite decide_False in E by done. by apply bind_err.
Qed.

Fixpoint run_bitmap_ops (os : list bitmap_op) : M bitmap (list Z) :=
  match os with
  | [] => mret []
  | o :: os => v ← run_bitmap_op o; vs ← run_bitmap_ops os; mret (v :: vs)
  end.
Fixpoint spec_bitmap_ops (os : list bitmap_op) : M (list bool) (list Z) :=
  match os with
  | [] => mret []
  | o :: os => v ← spec_bitmap_op o; vs ← spec_bitmap_ops os; mret (v :: vs)
  end.

Lemma spec_bitmap_op_length o l v l' : spec_bitmap_op o l = Ok (v, l') → length l' = length l.
Proof.
  destruct o; simpl; unfold upto; repeat case_decide; intros [= <- <-];
    rewrite ?length_insert, ?length_alter, ?length_replicate, ?set_range_length; try done.
  destruct (first_group _ _ _ _); by rewrite ?set_range_length.
Qed.


Definition example_bitmap : bitmap := Bitmap 40 [0; 0].
Definition example_bitmap_ops : list bitmap_op :=
  [OpSetMultiple 3 30 true; OpFlip 34; OpScan 2 2 false; OpCount 0 40 true; OpScanAndFlip 0 5 false; OpTest 40].

Lemma example_bitmap_wf : bitmap_wf example_bitmap.
Proof. split; [simpl; lia|done|]. repeat constructor; unfold in_u; simpl; lia. Qed.


(** [bitmap_scan] returns the start of the first group of [n] bits at or
    after [s] that all have the value [v], or BITMAP_ERROR when there is none,
    and changes nothing. *)
Theorem bitmap_scan_first s n v b :
  bitmap_wf b → (s ≤ length (bools b))%nat →
  (∃ i, bitmap_scan (Z.of_nat s) (Z.of_nat n) v b = Ok (Z.of_nat i, b) ∧
     (s ≤ i)%nat ∧ is_group n v (bools b) i ∧ ∀ j, (s ≤ j < i)%nat → ¬ is_group n v (bools b) j) ∨
  (bitmap_scan (Z.of_nat s) (Z.of_nat n) v b = Ok (BITMAP_ERROR, b) ∧
     ∀ i, (s ≤ i)%nat → ¬ is_group n v (bools b) i).
Proof.
  intros Hwf Hs. rewrite scan_run, decide_True by done.
  destruct (first_group s n v (bools b)) as [i|] eqn:E.
  - left. exists i. apply first_group_Some in E as [[? ?] ?]. done.
  - right. split; [done|]. intros i Hi. by eapply first_group_None.
Qed.

Lemma bitmap_scan_first_witness :
  let b := Bitmap 40 [0xfffffff0; 7] in
  bitmap_scan 0 3 true b = Ok (4, b) ∧ bitmap_scan 36 5 false b = Ok (BITMAP_ERROR, b).
Proof.
  intros b. assert (bitmap_wf b) as Hwf by (split; [simpl; lia|done|repeat constructor; unfold in_u; simpl; lia]).
  split.
  - destruct (bitmap_scan_first 0 3 true b Hwf) as [(i & E & _)|[E _]];
      [apply (bool_decide_unpack _); vm_compute; exact I|vm_compute; reflexivity|vm_compute in E; discriminate].
  - destruct (bitmap_scan_first 36 5 false b Hwf) as [(i & E & _)|[E _]];
      [apply (bool_decide_unpack _); vm_compute; exact I|vm_compute; reflexivity|exact E].
Defined.

(** ** Creation, and storage in a file *)

Lemma set_all_run v b : bitmap_wf b → ∃ b', bitmap_set_all v b = Ok (tt, b') ∧ bitmap_wf b' ∧ bools b' = replicate (length (bools b)) v.
Proof.
  intros Hwf. pose proof (bitmap_op_sim (OpSetAll v) b Hwf I) as (b' & E & H).
  apply bind_inv in E as ([] & b1 & E & [= ->]). by exists b'.
Qed.

Lemma bitmap_create_ok es cnt :
  bitmap_wf (Bitmap cnt es) →
  ∃ b, bitmap_create true (Some es) cnt = Ok (Some b) ∧ bitmap_wf b ∧ bools b = replicate (Z.to_nat cnt) false.
Proof.
  intros Hwf. destruct (set_all_run false _ Hwf) as (b & E & Hb). exists b. unfold bitmap_create.
  rewrite E. by rewrite bools_length in Hb.
Qed.

Lemma bitmap_create_in_buf_ok es cnt size :
  bitmap_wf (Bitmap cnt es) → bitmap_buf_size cnt ≤ size →
  ∃ b, bitmap_create_in_buf cnt es size = Ok b ∧ bitmap_wf b ∧ bools b = replicate (Z.to_nat cnt) false.
Proof.
  intros Hwf Hs. destruct (set_all_run false _ Hwf) as (b & E & Hb). exists b. unfold bitmap_create_in_buf.
  rewrite decide_True, E by done. by rewrite bools_length in Hb.
Qed.

Lemma bytes_elems_bytes es : Forall (in_u 32) es → bytes_elems (elem_bytes es) = es.
Proof.
  induction 1 as [|e es He _ IH]; [done|]. unfold elem_bytes in *. rewrite bind_cons.
  pose proof (le_value_bytes 4 e He) as Hv. destruct (le_bytes 4 e) as [|b0 [|b1 [|b2 [|b3 [|]]]]] eqn:E;
    apply (f_equal length) in E; rewrite le_bytes_length in E; try done.
  cbn [app bytes_elems]. by rewrite Hv, IH.
Qed.

Lemma elem_bytes_length es : length (elem_bytes es) = (4 * length es)%nat.
Proof. induction es as [|e es IH]; [done|]. unfold elem_bytes in *. rewrite bind_cons, length_app, IH, le_bytes_length. simpl. lia. Qed.

Lemma last_mask_bits b j :
  bitmap_wf b → 0 ≤ j →
  Z.testbit (last_mask b) j =
    bool_decide (j < if decide (bit_cnt b mod 32 = 0) then 32 else bit_cnt b mod 32).
Proof.
  intros Hwf Hj. unfold last_mask, ELEM_BITS. pose proof (Z.mod_pos_bound (bit_cnt b) 32).
  destruct (decide (bit_cnt b mod 32 = 0)) as [E|E].
  - rewrite decide_False by lia. rewrite wrapu_bits, Z.bits_m1 by lia. by repeat case_decide || case_bool_decide.
  - rewrite decide_True by lia. rewrite Z.shiftl_mul_pow2, Z.mul_1_l by lia.
    rewrite wrapu_small.
    + replace (2 ^ (bit_cnt b mod 32) - 1) with (Z.ones (bit_cnt b mod 32)) by (rewrite Z.ones_equiv; lia).
      case_bool_decide; [by apply Z.ones_spec_low|apply Z.ones_spec_high; lia].
    + unfold in_u. pose proof (Z.pow_pos_nonneg 2 (bit_cnt b mod 32)).
      pose proof (Z.pow_lt_mono_r 2 (bit_cnt b mod 32) 32). lia.
Qed.

Lemma mask_last_ok b :
  bitmap_wf b → bit_cnt b > 0 → ∃ b', mask_last b = Ok (tt, b') ∧ bitmap_wf b' ∧ bools b' = bools b.
Proof.
  intros Hwf Hc. pose proof (wf_cnt _ Hwf) as Hn. pose proof (wf_len _ Hwf) as Hl.
  unfold mask_last. rewrite elem_cnt_eq in Hl |- * by done. set (q := (bit_cnt b + 31) / 32) in *.
  assert (32 * q = bit_cnt b + 31 - (bit_cnt b + 31) mod 32) as Hq by (pose proof (Z.div_mod (bit_cnt b + 31) 32); lia).
  pose proof (Z.mod_pos_bound (bit_cnt b + 31) 32) as Hm.
  destruct (lookup_lt_is_Some_2 (bits b) (Z.to_nat (q - 1))) as [e E]; [lia|].
  unfold rd_elem, wr_elem. cbv [mbind M_bind]. rewrite E, decide_True by lia. eexists. split; [done|].
  pose proof (Forall_lookup_1 _ _ _ _ (wf_elems _ Hwf) E) as He. split.
  - split; simpl; [done|by rewrite length_insert, elem_cnt_eq|]. apply Forall_insert; [apply Hwf|].
    apply in_u_bits; [lia|]. intros j Hj. rewrite Z.land_spec. by rewrite (proj2 (in_u_bits 32 e ltac:(lia)) He).
  - apply list_eq. intros i. rewrite !bools_lookup. simpl. destruct (decide (Z.of_nat i < bit_cnt b)) as [Hi|]; [|done].
    f_equal. unfold bit. simpl. destruct (decide (Z.to_nat (q - 1) = Z.to_nat (Z.of_nat i / 32))) as [Eq|Ne].
    + rewrite <-Eq, list_lookup_insert_eq, E by lia. simpl. rewrite Z.land_spec.
      pose proof (Z.mod_pos_bound (Z.of_nat i) 32). rewrite last_mask_bits by (done || lia).
      rewrite bool_decide_eq_true_2; [apply andb_true_r|].
      assert (q - 1 = Z.of_nat i / 32) as Eq' by (pose proof (Z.div_pos (Z.of_nat i) 32); lia).
      pose proof (Z.div_mod (Z.of_nat i) 32). case_decide; [lia|].
      pose proof (Z.div_mod (bit_cnt b) 32). pose proof (Z.mod_pos_bound (bit_cnt b) 32).
      assert (bit_cnt b / 32 = q - 1) by (symmetry; apply (Z.div_unique_pos _ _ _ (bit_cnt b - 32 * (q - 1))); nia).
      lia.
    + by rewrite list_lookup_insert_ne.
Qed.

(** The bytes of a bitmap. *)
Lemma bitmap_bytes b :
  bitmap_wf b → Z.of_nat (length (elem_bytes (bits b))) = byte_cnt (bit_cnt b) ∧ byte_cnt (bit_cnt b) < 2 ^ 31 ∧
    i32 (byte_cnt (bit_cnt b)) = byte_cnt (bit_cnt b).
Proof.
  intros Hwf. pose proof (wf_cnt _ Hwf) as Hn. pose proof (wf_len _ Hwf) as Hl. rewrite elem_bytes_length.
  assert (byte_cnt (bit_cnt b) = 4 * elem_cnt (bit_cnt b) ∧ 0 ≤ 4 * elem_cnt (bit_cnt b) < 2 ^ 31) as [-> Hr].
  { unfold byte_cnt. rewrite elem_cnt_eq in Hl |- * by done.
    pose proof (Z.div_mod (bit_cnt b + 31) 32). pose proof (Z.mod_pos_bound (bit_cnt b + 31) 32).
    rewrite wrapu_small by (unfold in_u; lia). lia. }
  split_and!; [lia..|]. rewrite wraps_small by (unfold in_s; lia). done.
Qed.

Lemma bitmap_read_ok {S} (read : Z → Z → M S (list Z)) b b0 (s s' : S) :
  bitmap_wf b → bitmap_wf b0 → bit_cnt b0 = bit_cnt b →
  read (byte_cnt (bit_cnt b)) 0 s = Ok (elem_bytes (bits b), s') →
  ∃ b', bitmap_read read b0 s = Ok ((true, b'), if decide (bit_cnt b > 0) then s' else s) ∧
    bitmap_wf b' ∧ bools b' = bools b.
Proof.
  intros Hwf Hwf0 Hc Hr. destruct (bitmap_bytes b Hwf) as (Hs & _ & Hi). pose proof (wf_len _ Hwf0) as Hl0.
  unfold bitmap_read. rewrite Hc. destruct (decide (bit_cnt b > 0)) as [Hp|Hp].
  - rewrite Hi, (bind_ok _ _ _ _ _ Hr).
    rewrite drop_ge, app_nil_r, bytes_elems_bytes by (apply Hwf || (rewrite !elem_bytes_length; rewrite elem_bytes_length in Hs; pose proof (wf_len _ Hwf); rewrite Hc in *; lia)).
    rewrite bool_decide_eq_true_2 by done.
    assert (Bitmap (bit_cnt b) (bits b) = b) as -> by by destruct b.
    destruct (mask_last_ok b Hwf) as (b' & E & H'); [lia|]. exists b'. split; [|done]. unfold lift. cbv [mbind M_bind]. by rewrite E.
  - exists b0. split_and!; [done..|]. unfold bools. pose proof (wf_cnt _ Hwf). by replace (bit_cnt b0) with 0 by lia; replace (bit_cnt b) with 0 by lia.
Qed.

(** Storing a bitmap in a file and reading it back into a bitmap of the
    same size gives the same bits, whatever the second bitmap held; the unused
    bits of the last element do not matter. *)
Theorem bitmap_read_write {S} (write : list Z → Z → Z → M S Z) (read : Z → Z → M S (list Z)) b b0 s1 s2 s3 s4 :
  bitmap_wf b → bitmap_wf b0 → bit_cnt b0 = bit_cnt b →
  let size := byte_cnt (bit_cnt b) in
  write (elem_bytes (bits b)) size 0 s1 = Ok (size, s2) →
  read size 0 s3 = Ok (take (Z.to_nat size) (elem_bytes (bits b)), s4) →
  bitmap_write write b s1 = Ok (true, s2) ∧
  ∃ b', bitmap_read read b0 s3 = Ok ((true, b'), if decide (bit_cnt b > 0) then s4 else s3) ∧
    bitmap_wf b' ∧ bools b' = bools b.
Proof.
  intros Hwf Hwf0 Hc size Hw Hr. destruct (bitmap_bytes b Hwf) as (Hs & _ & Hi).
  rewrite take_ge in Hr by (unfold size; lia). split.
  { unfold bitmap_write. rewrite Hi, (bind_ok _ _ _ _ _ Hw). by rewrite bool_decide_eq_true_2. }
  by apply bitmap_read_ok.
Qed.

Lemma bitmap_read_write_witness :
  ∃ b', bitmap_read (λ n ofs s, Ok (slice s ofs n, s)) (Bitmap 40 [1; 2]) (elem_bytes [0xdeadbeef; 0x1234]) =
      Ok ((true, b'), elem_bytes [0xdeadbeef; 0x1234]) ∧
    bools b' = bools (Bitmap 40 [0xdeadbeef; 0x1234]).
Proof.
  destruct (bitmap_read_write (λ d n ofs s, Ok (n, splice s ofs (take (Z.to_nat n) d))) (λ n ofs s, Ok (slice s ofs n, s))
      (Bitmap 40 [0xdeadbeef; 0x1234]) (Bitmap 40 [1; 2])
      (replicate 8 0) (elem_bytes [0xdeadbeef; 0x1234]) (elem_bytes [0xdeadbeef; 0x1234]) (elem_bytes [0xdeadbeef; 0x1234]))
    as [_ (b' & E & _ & Hb)]; try (by split; [simpl; lia|done|repeat constructor; unfold in_u; simpl; lia]).
  - reflexivity.
  - reflexivity.
  - reflexivity.
  - exists b'. exact (conj E Hb).
Defined.
