(* ===== verification/Hash.v ===== *)
(** * Hash tables

    lib/kernel/hash.c: chained buckets, a power of two of them, resized as the
    number of elements changes.  A bucket is the sequence its list holds
    (KListRefine.v), an element its address.  Whether [malloc] finds a block for
    the buckets is an argument of the operations that call it.  The reference
    is the finite set of the elements. *)

From S2P Require Import Prelude KList.

(** ** lib/kernel/hash.c *)

Record hash := Hash { elem_cnt : Z; bucket_cnt : Z; buckets : list (list Z) }.

Definition FNV_32_PRIME : Z := 16777619.
Definition FNV_32_BASIS : Z := 2166136261.

Definition fnv (h b : Z) : Z := Z.lxor (u32 (h * FNV_32_PRIME)) b.

(** The bytes in the buffer. *)
Definition hash_bytes (buf : list Z) : Z := foldl fnv FNV_32_BASIS buf.

(** [s] is the memory from the start of the string; reading past it is a bad
    access. *)
Fixpoint hash_string_loop (s : list Z) (h : Z) : result Z :=
  match s with
  | [] => Err BadAccess
  | c :: s => if decide (c ≠ 0) then hash_string_loop s (fnv h c) else Ok h
  end.
Definition hash_string (s : list Z) : result Z := hash_string_loop s FNV_32_BASIS.

Definition hash_int (i : Z) : Z := hash_bytes (le_bytes 4 (u32 i)).

Definition turn_off_least_1bit (x : Z) : Z := Z.land x (u32 (x - 1)).
Definition is_power_of_2 (x : Z) : bool :=
  bool_decide (x ≠ 0) && bool_decide (turn_off_least_1bit x = 0).

Definition BEST_ELEMS_PER_BUCKET : Z := 2.

(** The loop that rounds down to a power of two. *)
Fixpoint round_down_loop (fuel : nat) (n : Z) : result Z :=
  if is_power_of_2 n then Ok n
  else match fuel with O => Err OutOfFuel | S fuel => round_down_loop fuel (turn_off_least_1bit n) end.

Definition new_bucket_cnt (cnt : Z) : result Z :=
  let n := cnt / BEST_ELEMS_PER_BUCKET in
  let n := if decide (n < 4) then 4 else n in
  round_down_loop 32 n.

Section hash.
  (** The table's [hash] and [less], with [aux] applied. *)
  Context (hash_func : Z → Z) (less : Z → Z → bool).

Definition find_bucket (e : Z) : M hash nat :=
  n ← gets bucket_cnt;
  mret (Z.to_nat (Z.land (hash_func e) (u32 (n - 1)))).

Definition rd_bucket (i : nat) : M hash (list Z) := λ h,
  match buckets h !! i with Some b => Ok (b, h) | None => Err BadAccess end.
Definition wr_bucket (i : nat) (b : list Z) : M hash unit :=
  modify (λ h, Hash (elem_cnt h) (bucket_cnt h) (<[i := b]> (buckets h))).

Fixpoint find_in (bucket : list Z) (e : Z) : option Z :=
  match bucket with
  | [] => None
  | hi :: bucket => if negb (less hi e) && negb (less e hi) then Some hi else find_in bucket e
  end.

Definition find_elem (i : nat) (e : Z) : M hash (option Z) :=
  b ← rd_bucket i; mret (find_in b e).

Definition insert_elem (i : nat) (e : Z) : M hash unit :=
  modify (λ h, Hash (u32 (elem_cnt h + 1)) (bucket_cnt h) (buckets h));;
  b ← rd_bucket i; wr_bucket i (e :: b).

(** [list_remove] takes the element out of the bucket it is in. *)
Definition remove_elem (e : Z) : M hash unit :=
  modify (λ h, Hash (u32 (elem_cnt h - 1)) (bucket_cnt h) (filter (λ x, x ≠ e) <$> buckets h)).

(** Moving the elements of the old buckets, which are empty afterwards. *)
Fixpoint move_elems (es : list Z) : M hash unit :=
  match es with
  | [] => mret tt
  | e :: es => i ← find_bucket e; b ← rd_bucket i; wr_bucket i (e :: b);; move_elems es
  end.
Fixpoint move_buckets (old : list (list Z)) : M hash unit :=
  match old with [] => mret tt | b :: old => move_elems b;; move_buckets old end.

Definition rehash (room : bool) : M hash unit := λ h,
  n ← new_bucket_cnt (elem_cnt h);
  if decide (n = bucket_cnt h) then Ok (tt, h)
  else if room
  then move_buckets (buckets h) (Hash (elem_cnt h) n (replicate (Z.to_nat n) []))
  else Ok (tt, h).

(** [None] is the null pointer. *)
Definition hash_insert (room : bool) (new : Z) : M hash (option Z) :=
  i ← find_bucket new; old ← find_elem i new;
  (if decide (old = None) then insert_elem i new else mret tt);;
  rehash room;; mret old.

Definition hash_replace (room : bool) (new : Z) : M hash (option Z) :=
  i ← find_bucket new; old ← find_elem i new;
  (match old with Some o => remove_elem o | None => mret tt end);;
  insert_elem i new;;
  rehash room;; mret old.

Definition hash_find (e : Z) : M hash (option Z) := i ← find_bucket e; find_elem i e.

Definition hash_delete (room : bool) (e : Z) : M hash (option Z) :=
  i ← find_bucket e; found ← find_elem i e;
  match found with
  | Some o => remove_elem o;; rehash room;; mret found
  | None => mret found
  end.

(** The elements given to the destructor, in order; [None] is a null
    destructor. *)
Definition hash_clear (destructor : bool) : M hash (list Z) := λ h,
  Ok (if destructor then concat (buckets h) else [],
      Hash 0 (bucket_cnt h) ((λ _, []) <$> buckets h)).

(** [None] when there is no block for the buckets. *)
Definition hash_init (room : bool) : result (option hash) :=
  if room then '(_, h) ← hash_clear false (Hash 0 4 (replicate 4 [])); Ok (Some h) else Ok None.

Definition hash_destroy (destructor : bool) : M hash (list Z) :=
  if destructor then hash_clear true else mret [].

Definition hash_size : M hash Z := gets elem_cnt.
Definition hash_empty : M hash bool := gets (λ h, bool_decide (elem_cnt h = 0)).

(** [action] may change a state of its own, not the table. *)
Fixpoint apply_elems {S} (action : Z → M S unit) (es : list Z) : M S unit :=
  match es with [] => mret tt | e :: es => action e;; apply_elems action es end.
Fixpoint apply_buckets {S} (action : Z → M S unit) (bs : list (list Z)) : M S unit :=
  match bs with [] => mret tt | b :: bs => apply_elems action b;; apply_buckets action bs end.
Definition hash_apply {S} (h : hash) (action : Z → M S unit) : M S unit :=
  apply_buckets action (buckets h).

(** Iterators: the index of the bucket, and the list head or an element of
    it, or null at the end. *)
Inductive position := AtHead | AtElem (e : Z) | AtNull.
Record hash_iterator := HashIterator { it_bucket : nat; it_elem : position }.

Definition hash_first : hash_iterator := HashIterator 0 AtHead.
Definition hash_cur (i : hash_iterator) : position := it_elem i.

(** [list_next] in a bucket, [None] at its tail. *)
Definition next_in (b : list Z) (p : position) : result (option Z) :=
  match p with
  | AtHead => Ok (head b)
  | AtElem e =>
      match list_find (λ x, x = e) b with
      | Some (i, _) => Ok (b !! Datatypes.S i)
      | None => Err BadAccess
      end
  | AtNull => Err BadAccess
  end.

(** The loop over the buckets, [elem = None] at the tail of bucket [i]. *)
Fixpoint next_loop (fuel : nat) (h : hash) (i : nat) (elem : option Z) : result hash_iterator :=
  match elem with
  | Some e => Ok (HashIterator i (AtElem e))
  | None =>
      match fuel with
      | O => Err OutOfFuel
      | Datatypes.S fuel =>
          let i := Datatypes.S i in
          if decide (bucket_cnt h ≤ Z.of_nat i) then Ok (HashIterator i AtNull)
          else match buckets h !! i with
               | Some b => next_loop fuel h i (head b)
               | None => Err BadAccess
               end
      end
  end.

Definition hash_next (h : hash) (it : hash_iterator) : result hash_iterator :=
  match buckets h !! it_bucket it with
  | Some b => e ← next_in b (it_elem it); next_loop (Z.to_nat (bucket_cnt h)) h (it_bucket it) e
  | None => Err BadAccess
  end.

(** The iteration idiom of the comment of [hash_first]. *)
Fixpoint iterate (fuel : nat) (h : hash) (it : hash_iterator) : result (list Z) :=
  match fuel with
  | O => Err OutOfFuel
  | Datatypes.S fuel =>
      it ← hash_next h it;
      match hash_cur it with
      | AtElem e => es ← iterate fuel h it; Ok (e :: es)
      | _ => Ok []
      end
  end.
End hash.

(** ** Rounding down to a power of two *)

Lemma odd_part x : 0 < x → ∃ k m, 0 ≤ k ∧ 0 ≤ m ∧ x = 2 ^ k * (2 * m + 1).
Proof.
  induction x as [x IH] using (well_founded_induction (Z.lt_wf 0)). intros Hx.
  destruct (Z.Even_or_Odd x) as [[y E]|[y E]].
  - destruct (IH y) as (k & m & ? & ? & ->); [lia|lia|]. exists (k + 1), m. split_and!; [lia..|].
    rewrite Z.pow_add_r by lia. lia.
  - exists 0, y. split_and!; lia.
Qed.

Lemma land_pred k m :
  0 ≤ k → 0 ≤ m → Z.land (2 ^ k * (2 * m + 1)) (2 ^ k * (2 * m + 1) - 1) = 2 ^ (k + 1) * m.
Proof.
  intros Hk Hm. assert (0 < 2 ^ k) by lia. apply Z.bits_inj'. intros j Hj. rewrite Z.land_spec.
  destruct (decide (j < k)).
  - rewrite (Z.mul_comm (2 ^ k)), Z.mul_pow2_bits_low by lia.
    by rewrite (Z.mul_comm (2 ^ (k + 1))), Z.mul_pow2_bits_low by lia.
  - assert (∀ a, Z.testbit a j = Z.testbit (a / 2 ^ k) (j - k)) as Hd
      by (intros a; rewrite Z.div_pow2_bits by lia; f_equal; lia).
    rewrite !Hd. assert ((2 ^ k * (2 * m + 1)) / 2 ^ k = 2 * m + 1) as ->
      by (rewrite Z.mul_comm; by apply Z.div_mul; lia).
    assert ((2 ^ k * (2 * m + 1) - 1) / 2 ^ k = 2 * m) as ->
      by (symmetry; apply (Z.div_unique_pos _ _ _ (2 ^ k - 1)); lia).
    assert ((2 ^ (k + 1) * m) / 2 ^ k = 2 * m) as ->
      by (rewrite Z.pow_add_r by lia; symmetry; apply (Z.div_unique_pos _ _ _ 0); lia).
    destruct (decide (j - k = 0)) as [->|].
    + rewrite Z.testbit_odd_0, Z.testbit_even_0. done.
    + replace (j - k) with (Z.succ (j - k - 1)) by lia.
      rewrite Z.testbit_odd_succ, Z.testbit_even_succ by lia. apply andb_diag.
Qed.

Lemma turn_off_ok k m :
  0 ≤ k → 0 ≤ m → in_u 32 (2 ^ k * (2 * m + 1)) →
  turn_off_least_1bit (2 ^ k * (2 * m + 1)) = 2 ^ (k + 1) * m.
Proof.
  intros Hk Hm Hr. unfold turn_off_least_1bit. rewrite wrapu_small; [by apply land_pred|].
  unfold in_u in *. assert (0 < 2 ^ k) by lia. nia.
Qed.

Lemma is_power_ok k m :
  0 ≤ k → 0 ≤ m → in_u 32 (2 ^ k * (2 * m + 1)) → is_power_of_2 (2 ^ k * (2 * m + 1)) = bool_decide (m = 0).
Proof.
  intros Hk Hm Hr. unfold is_power_of_2. rewrite turn_off_ok by done. assert (0 < 2 ^ k) by lia.
  assert (0 < 2 ^ (k + 1)) by lia. rewrite bool_decide_eq_true_2 by nia. apply bool_decide_ext. nia.
Qed.

Lemma log2_odd k m : 0 ≤ k → 0 < m → Z.log2 (2 ^ k * (2 * m + 1)) = Z.log2 (2 ^ (k + 1) * m).
Proof.
  intros. rewrite !(Z.mul_comm (2 ^ _)), !Z.log2_mul_pow2 by lia. rewrite Z.log2_succ_double by lia. lia.
Qed.

Lemma round_down_loop_ok fuel j x :
  0 < x → in_u 32 x → (2 ^ j | x) → 0 ≤ j → 32 - j ≤ Z.of_nat fuel → round_down_loop fuel x = Ok (2 ^ Z.log2 x).
Proof.
  revert j x. induction fuel as [|fuel IH]; intros j x Hx Hr Hd Hj Hf;
    destruct (odd_part x Hx) as (k & m & Hk & Hm & ->); cbn [round_down_loop]; rewrite is_power_ok by done.
  - exfalso. apply Z.divide_pos_le in Hd; [|done]. assert (2 ^ 32 ≤ 2 ^ j) by (apply Z.pow_le_mono_r; lia).
    unfold in_u in Hr. lia.
  - case_bool_decide as Em.
    + subst m. replace (2 ^ k * (2 * 0 + 1)) with (2 ^ k) by lia. by rewrite Z.log2_pow2.
    + rewrite turn_off_ok by done. rewrite log2_odd by lia. assert (0 < 2 ^ (k + 1)) by lia. apply (IH (j + 1)); [nia| | |lia|lia].
      * unfold in_u in *. rewrite Z.pow_add_r by lia. assert (0 < 2 ^ k) by lia. nia.
      * apply Z.divide_mul_l. destruct (decide (j ≤ k)).
        { exists (2 ^ (k - j)). rewrite <-Z.pow_add_r by lia. f_equal. lia. }
        exfalso. destruct Hd as [q Hq]. assert (2 ^ j = 2 ^ k * (2 * 2 ^ (j - k - 1))) as E.
        { replace (2 * 2 ^ (j - k - 1)) with (2 ^ (j - k)); [|rewrite <-Z.pow_succ_r by lia; f_equal; lia].
          rewrite <-Z.pow_add_r by lia. f_equal. lia. }
        rewrite E in Hq. assert (2 ^ k ≠ 0) as Hn by lia.
        assert (2 * m + 1 = q * (2 * 2 ^ (j - k - 1))) by (apply (Z.mul_cancel_l _ _ (2 ^ k)); lia). lia.
Qed.

Lemma new_bucket_cnt_ok cnt :
  in_u 32 cnt → ∃ k, 2 ≤ k ∧ k < 32 ∧ new_bucket_cnt cnt = Ok (2 ^ k).
Proof.
  intros Hc. unfold new_bucket_cnt, BEST_ELEMS_PER_BUCKET. unfold in_u in Hc.
  assert (0 ≤ cnt / 2 ∧ cnt / 2 < 2 ^ 31) by (split; [apply Z.div_pos; lia|apply Z.div_lt_upper_bound; lia]).
  set (n := if decide (cnt / 2 < 4) then 4 else cnt / 2).
  assert (4 ≤ n ∧ n < 2 ^ 31) by (unfold n; case_decide; lia).
  exists (Z.log2 n). split_and!.
  - change 2 with (Z.log2 4) at 1. apply Z.log2_le_mono. lia.
  - pose proof (Z.log2_lt_pow2 n 31). lia.
  - apply (round_down_loop_ok 32 0); unfold in_u; try lia. apply Z.divide_1_l.
Qed.

(** ** The elements of a table *)

Definition elems (h : hash) : list Z := concat (buckets h).

Lemma concat_insert {A} (bs : list (list A)) i b e :
  bs !! i = Some b → concat (<[i := e :: b]> bs) ≡ₚ e :: concat bs.
Proof.
  intros E. pose proof (lookup_lt_Some _ _ _ E) as Hi. rewrite insert_take_drop by done.
  rewrite <-(take_drop_middle _ _ _ E) at 3. rewrite !concat_app. simpl. symmetry. apply Permutation_middle.
Qed.

Lemma filter_concat {A} (P : A → Prop) `{!∀ x, Decision (P x)} (bs : list (list A)) :
  filter P (concat bs) = concat (filter P <$> bs).
Proof. induction bs as [|b bs IH]; [done|]. simpl. by rewrite filter_app, IH. Qed.

Lemma concat_nil {A B} (bs : list B) : concat ((λ _, @nil A) <$> bs) = [].
Proof. by induction bs. Qed.

Lemma concat_replicate_nil {A} n : concat (replicate n (@nil A)) = [].
Proof. by induction n. Qed.

Lemma elem_concat {A} (bs : list (list A)) e : e ∈ concat bs ↔ ∃ i b, bs !! i = Some b ∧ e ∈ b.
Proof.
  rewrite list_elem_of_In, in_concat. split.
  - intros (b & Hb & He). apply list_elem_of_In, list_elem_of_lookup in Hb as [i Hb].
    exists i, b. split; [done|]. by apply list_elem_of_In.
  - intros (i & b & Hb & He). exists b. split; apply list_elem_of_In; [|done]. by eapply list_elem_of_lookup_2.
Qed.

Lemma filter_one (e : Z) xs : NoDup xs → e ∈ xs → xs ≡ₚ e :: filter (λ x, x ≠ e) xs.
Proof.
  induction 1 as [|x xs Hx Hnd IH]; [by intros ?%not_elem_of_nil|]. intros [->|He]%elem_of_cons.
  - rewrite filter_cons_False by naive_solver. rewrite filter_all; [done|]. intros y Hy ->. done.
  - rewrite filter_cons_True by (intros ->; done). rewrite (IH He) at 1. apply perm_swap.
Qed.

(** The client's functions: the order is a strict weak order, and elements
    that are equal for it have the same hash value, an [unsigned]. *)
Class HashFuncs (hash_func : Z → Z) (less : Z → Z → bool) : Prop := {
  hf_less :: StrictWeak less;
  hf_range e : in_u 32 (hash_func e);
  hf_equal x y : less x y = false → less y x = false → hash_func x = hash_func y
}.

Section table.
  Context (hash_func : Z → Z) (less : Z → Z → bool) `{!HashFuncs hash_func less}.

Definition same (x y : Z) : Prop := less x y = false ∧ less y x = false.
#[export] Instance same_dec x y : Decision (same x y).
Proof. unfold same. apply _. Defined.

Lemma same_refl x : same x x.
Proof. unfold same. destruct (less x x) eqn:E; [|done]. pose proof (less_asym _ _ E). congruence. Qed.
Lemma same_sym x y : same x y → same y x.
Proof. unfold same. tauto. Qed.
Lemma same_trans x y z : same x y → same y z → same x z.
Proof.
  intros [H1 H2] [H3 H4]. split.
  - destruct (less x z) eqn:E; [|done]. destruct (less_negtrans x y z E); congruence.
  - destruct (less z x) eqn:E; [|done]. destruct (less_negtrans z y x E); congruence.
Qed.

(** The bucket of an element among [n]. *)
Definition slot (n e : Z) : nat := Z.to_nat (Z.land (hash_func e) (u32 (n - 1))).

Definition pow2 (n : Z) : Prop := ∃ k, 2 ≤ k ∧ k < 32 ∧ n = 2 ^ k.

Lemma slot_lt n e : pow2 n → Z.of_nat (slot n e) < n.
Proof.
  intros (k & H2 & H32 & ->). unfold slot. assert (2 ^ k < 2 ^ 32) by (apply Z.pow_lt_mono_r; lia).
  assert (0 < 2 ^ k) by lia. rewrite wrapu_small by (unfold in_u; lia).
  replace (2 ^ k - 1) with (Z.ones k) by (rewrite Z.ones_equiv; lia). rewrite Z.land_ones by lia.
  pose proof (Z.mod_pos_bound (hash_func e) (2 ^ k)). lia.
Qed.

Lemma slot_same n x y : same x y → slot n x = slot n y.
Proof. intros [H1 H2]. unfold slot. by rewrite (hf_equal x y H1 H2). Qed.

(** Every element is in the bucket of its hash value. *)
Definition placed (n : Z) (bs : list (list Z)) : Prop :=
  pow2 n ∧ Z.of_nat (length bs) = n ∧ ∀ i b e, bs !! i = Some b → e ∈ b → i = slot n e.

Record hash_wf (h : hash) : Prop := {
  hw_placed : placed (bucket_cnt h) (buckets h);
  hw_nodup : NoDup (elems h);
  hw_same x y : x ∈ elems h → y ∈ elems h → same x y → x = y;
  hw_cnt : elem_cnt h = Z.of_nat (length (elems h));
  hw_addr : Forall (λ e, 0 < e ∧ e < 2 ^ 32) (elems h)
}.

Lemma placed_bucket n bs e : placed n bs → ∃ b, bs !! slot n e = Some b.
Proof. intros (Hp & Hl & _). apply lookup_lt_is_Some_2. pose proof (slot_lt n e Hp). lia. Qed.

Lemma placed_insert n bs e b : placed n bs → bs !! slot n e = Some b → placed n (<[slot n e := e :: b]> bs).
Proof.
  intros (Hp & Hl & Hs) E. split_and!; [done|by rewrite length_insert|]. intros i b' x.
  rewrite list_lookup_insert_Some. intros [(<- & <- & _)|(_ & E')]; [|by apply Hs].
  intros [->|Hx]%elem_of_cons; [done|]. by eapply Hs.
Qed.

Lemma placed_filter n bs (P : Z → Prop) `{!∀ x, Decision (P x)} : placed n bs → placed n (filter P <$> bs).
Proof.
  intros (Hp & Hl & Hs). split_and!; [done|by rewrite length_fmap|]. intros i b x.
  rewrite list_lookup_fmap. destruct (bs !! i) as [b'|] eqn:E; [|done]. intros [= <-] [_ Hx]%list_elem_of_filter.
  by eapply Hs.
Qed.

Lemma placed_nil n : pow2 n → placed n (replicate (Z.to_nat n) []).
Proof.
  intros Hp. pose proof Hp as (k & ? & ? & ->). split_and!; [done|rewrite length_replicate; lia|].
  intros i b e [-> _]%lookup_replicate []%not_elem_of_nil.
Qed.

(** The elements determine the order-free properties. *)
Lemma hash_wf_perm h h' :
  hash_wf h → elems h' ≡ₚ elems h → elem_cnt h' = elem_cnt h → placed (bucket_cnt h') (buckets h') → hash_wf h'.
Proof.
  intros [H1 H2 H3 H4 H5] He Hc Hp. split; [done|by rewrite He|..].
  - intros x y. rewrite He. apply H3.
  - by rewrite Hc, H4, He.
  - by rewrite He.
Qed.

Lemma addrs_bound es : NoDup es → Forall (λ e, 0 < e ∧ e < 2 ^ 32) es → Z.of_nat (length es) < 2 ^ 32.
Proof.
  intros Hn Ha. assert (length es ≤ length (seqZ 1 (2 ^ 32 - 1)))%nat as Hl.
  { apply submseteq_length, NoDup_submseteq; [done|]. intros e He. rewrite Forall_forall in Ha.
    apply elem_of_seqZ. specialize (Ha e He). lia. }
  rewrite length_seqZ in Hl. lia.
Qed.

Lemma wf_cnt_range h : hash_wf h → in_u 32 (elem_cnt h).
Proof. intros [_ Hn _ -> Ha]. unfold in_u. pose proof (addrs_bound _ Hn Ha). lia. Qed.

(** ** Resizing *)

Lemma move_elems_ok es c n bs :
  placed n bs →
  ∃ bs', move_elems hash_func es (Hash c n bs) = Ok (tt, Hash c n bs') ∧ placed n bs' ∧
    concat bs' ≡ₚ es ++ concat bs.
Proof.
  revert bs. induction es as [|e es IH]; intros bs Hp; [by exists bs|]. cbn [move_elems].
  destruct (placed_bucket n bs e Hp) as [b E]. unfold find_bucket, rd_bucket, wr_bucket.
  cbv [mbind M_bind gets mret M_ret modify]. cbn. fold (slot n e). rewrite E.
  destruct (IH (<[slot n e := e :: b]> bs)) as (bs' & Em & Hp' & Hc); [by apply placed_insert|].
  exists bs'. split_and!; [done..|]. rewrite Hc, concat_insert by done. simpl. symmetry. apply Permutation_middle.
Qed.

Lemma move_buckets_ok old c n bs :
  placed n bs →
  ∃ bs', move_buckets hash_func old (Hash c n bs) = Ok (tt, Hash c n bs') ∧ placed n bs' ∧
    concat bs' ≡ₚ concat old ++ concat bs.
Proof.
  revert bs. induction old as [|b old IH]; intros bs Hp; [by exists bs|]. cbn [move_buckets].
  destruct (move_elems_ok b c n bs Hp) as (bs1 & E1 & Hp1 & Hc1). rewrite (bind_ok _ _ _ _ _ E1).
  destruct (IH bs1 Hp1) as (bs2 & E2 & Hp2 & Hc2). exists bs2. split_and!; [done..|].
  rewrite Hc2, Hc1. simpl. rewrite !app_assoc. f_equiv. apply Permutation_app_comm.
Qed.

Lemma rehash_ok room h :
  hash_wf h → ∃ h', rehash hash_func room h = Ok (tt, h') ∧ hash_wf h' ∧ elems h' ≡ₚ elems h.
Proof.
  intros Hwf. destruct (new_bucket_cnt_ok (elem_cnt h)) as (k & H2 & H32 & E); [by apply wf_cnt_range|].
  unfold rehash. rewrite E. cbn. case_decide; [by exists h|]. destruct room; [|by exists h].
  destruct (move_buckets_ok (buckets h) (elem_cnt h) (2 ^ k) (replicate (Z.to_nat (2 ^ k)) []))
    as (bs & Em & Hp & Hc); [apply placed_nil; by exists k|].
  assert (elems (Hash (elem_cnt h) (2 ^ k) bs) ≡ₚ elems h) as He
    by (unfold elems; simpl; by rewrite Hc, concat_replicate_nil, app_nil_r).
  eexists. split; [exact Em|]. split; [|done]. by apply (hash_wf_perm h).
Qed.

(** ** Finding, inserting and removing *)

Lemma find_in_Some b e x : find_in less b e = Some x → x ∈ b ∧ same x e.
Proof.
  induction b as [|y b IH]; [done|]. cbn [find_in]. destruct (negb (less y e) && negb (less e y)) eqn:E.
  - intros [= <-]. apply andb_prop in E as [E1%negb_true_iff E2%negb_true_iff]. split; [by left|done].
  - intros [? ?]%IH. split; [by right|done].
Qed.

Lemma find_in_None b e x : find_in less b e = None → x ∈ b → ¬ same x e.
Proof.
  induction b as [|y b IH]; [by intros _ ?%not_elem_of_nil|]. cbn [find_in].
  destruct (negb (less y e) && negb (less e y)) eqn:E; [done|]. intros H [->|Hx]%elem_of_cons; [|by apply IH].
  intros [H1 H2]. by rewrite H1, H2 in E.
Qed.

(** The element of a set that is equal to [e] for the order. *)
Definition lookup_same (X : gset Z) (e : Z) : option Z := head (filter (λ x, same x e) (elements X)).

Lemma lookup_same_Some X e x : lookup_same X e = Some x → x ∈ X ∧ same x e.
Proof.
  unfold lookup_same. intros H%head_Some_elem_of. apply list_elem_of_filter in H as [? ?].
  by rewrite elem_of_elements in *.
Qed.

Lemma lookup_same_None X e x : lookup_same X e = None → x ∈ X → ¬ same x e.
Proof.
  unfold lookup_same. intros H Hx Hs. assert (x ∈ filter (λ x, same x e) (elements X)) as Hin.
  { apply list_elem_of_filter. by rewrite elem_of_elements. }
  destruct (filter _ _); [by apply not_elem_of_nil in Hin|done].
Qed.

Definition contents (h : hash) : gset Z := list_to_set (elems h).

Lemma find_elem_ok h e :
  hash_wf h → ∃ b, buckets h !! slot (bucket_cnt h) e = Some b ∧
    find_elem less (slot (bucket_cnt h) e) e h = Ok (find_in less b e, h) ∧
    find_in less b e = lookup_same (contents h) e.
Proof.
  intros Hwf. destruct (placed_bucket (bucket_cnt h) (buckets h) e) as [b E]; [apply Hwf|].
  exists b. split; [done|]. split; [unfold find_elem, rd_bucket; cbv [mbind M_bind]; by rewrite E|].
  assert (∀ x, x ∈ b → x ∈ elems h) as Hin by (intros x Hx; apply elem_concat; eauto).
  destruct (find_in less b e) as [x|] eqn:Ef.
  - apply find_in_Some in Ef as [Hx Hs]. destruct (lookup_same (contents h) e) as [y|] eqn:El.
    + apply lookup_same_Some in El as [Hy Hs']. f_equal. apply (hw_same _ Hwf); [auto|by apply elem_of_list_to_set in Hy|].
      eapply same_trans; [done|by apply same_sym].
    + exfalso. apply (lookup_same_None _ _ x) in El; [done|]. apply elem_of_list_to_set. auto.
  - destruct (lookup_same (contents h) e) as [y|] eqn:El; [|done]. exfalso.
    apply lookup_same_Some in El as [Hy Hs]. apply elem_of_list_to_set, elem_concat in Hy as (i & b' & Eb & Hy).
    pose proof (hw_placed _ Hwf) as (_ & _ & Hp). assert (i = slot (bucket_cnt h) e) as ->.
    { rewrite <-(slot_same _ y e) by done. by eapply Hp. }
    rewrite E in Eb. injection Eb as <-. by apply (find_in_None b e y).
Qed.

Lemma contents_perm h h' : elems h' ≡ₚ elems h → contents h' = contents h.
Proof. intros E. apply leibniz_equiv. unfold contents. by rewrite E. Qed.

Lemma insert_elem_ok h e :
  hash_wf h → 0 < e ∧ e < 2 ^ 32 → (∀ x, x ∈ elems h → ¬ same x e) →
  ∃ h', insert_elem (slot (bucket_cnt h) e) e h = Ok (tt, h') ∧ hash_wf h' ∧ contents h' = {[e]} ∪ contents h.
Proof.
  intros Hwf He Hn. destruct (placed_bucket (bucket_cnt h) (buckets h) e) as [b E]; [apply Hwf|].
  unfold insert_elem, rd_bucket, wr_bucket. cbv [mbind M_bind modify]. cbn. rewrite E. cbn. eexists. split; [done|].
  set (h' := Hash _ _ _). assert (elems h' ≡ₚ e :: elems h) as Hp by by apply concat_insert.
  assert (NoDup (e :: elems h)) as Hnd.
  { apply NoDup_cons. split; [|apply Hwf]. intros Hin. by apply (Hn e Hin), same_refl. }
  assert (Forall (λ e, 0 < e ∧ e < 2 ^ 32) (e :: elems h)) as Ha by (constructor; [done|apply Hwf]).
  split; [split|].
  - apply placed_insert; [apply Hwf|done].
  - by rewrite Hp.
  - intros x y. rewrite !Hp, !elem_of_cons. intros [->|Hx] [->|Hy] Hs; [done|..].
    + by destruct (Hn y Hy), (same_sym _ _ Hs).
    + by destruct (Hn x Hx).
    + by apply (hw_same _ Hwf).
  - rewrite Hp. cbn. pose proof (addrs_bound _ Hnd Ha) as Hl. simpl in Hl. rewrite (hw_cnt _ Hwf).
    rewrite wrapu_small by (unfold in_u; lia). lia.
  - by rewrite Hp.
  - apply leibniz_equiv. unfold contents. by rewrite Hp.
Qed.

Lemma remove_elem_ok h e :
  hash_wf h → e ∈ elems h →
  ∃ h', remove_elem e h = Ok (tt, h') ∧ hash_wf h' ∧ contents h' = contents h ∖ {[e]} ∧ bucket_cnt h' = bucket_cnt h.
Proof.
  intros Hwf He. unfold remove_elem. cbv [modify]. eexists. split; [done|]. set (h' := Hash _ _ _).
  assert (elems h' = filter (λ x, x ≠ e) (elems h)) as Ee by (unfold elems; by rewrite filter_concat).
  pose proof (filter_one e (elems h) (hw_nodup _ Hwf) He) as Hp. apply Permutation_length in Hp. simpl in Hp.
  split; [split|].
  - apply placed_filter, Hwf.
  - rewrite Ee. apply NoDup_filter, Hwf.
  - intros x y. rewrite Ee. intros [_ Hx]%list_elem_of_filter [_ Hy]%list_elem_of_filter. by apply (hw_same _ Hwf).
  - rewrite Ee. cbn. pose proof (wf_cnt_range _ Hwf) as Hr. rewrite (hw_cnt _ Hwf) in *. unfold in_u in Hr.
    rewrite wrapu_small by (unfold in_u; lia). lia.
  - rewrite Ee. rewrite Forall_forall. intros x [_ Hx]%list_elem_of_filter.
    pose proof (hw_addr _ Hwf) as Ha. rewrite Forall_forall in Ha. by apply Ha.
  - split; [|done]. apply leibniz_equiv. intros x. unfold contents. rewrite Ee.
    rewrite elem_of_list_to_set, list_elem_of_filter. set_solver.
Qed.
(** ** Programs of operations *)

Inductive hash_op :=
  | HInsert (room : bool) (e : Z)
  | HReplace (room : bool) (e : Z)
  | HFind (e : Z)
  | HDelete (room : bool) (e : Z)
  | HClear (destructor : bool)
  | HSize.

Inductive hash_val := Elem (o : option Z) | Num (n : Z) | Cleared (n : nat).

Definition run_hash_op (o : hash_op) : M hash hash_val :=
  match o with
  | HInsert room e => r ← hash_insert hash_func less room e; mret (Elem r)
  | HReplace room e => r ← hash_replace hash_func less room e; mret (Elem r)
  | HFind e => r ← hash_find hash_func less e; mret (Elem r)
  | HDelete room e => r ← hash_delete hash_func less room e; mret (Elem r)
  | HClear d => es ← hash_clear d; mret (Cleared (length es))
  | HSize => n ← hash_size; mret (Num n)
  end.

(** The same on a set of elements no two of which are equal for the order. *)
Definition spec_hash_op (o : hash_op) (X : gset Z) : hash_val * gset Z :=
  match o with
  | HInsert _ e =>
      match lookup_same X e with Some x => (Elem (Some x), X) | None => (Elem None, {[e]} ∪ X) end
  | HReplace _ e =>
      match lookup_same X e with
      | Some x => (Elem (Some x), {[e]} ∪ X ∖ {[x]}) | None => (Elem None, {[e]} ∪ X)
      end
  | HFind e => (Elem (lookup_same X e), X)
  | HDelete _ e =>
      match lookup_same X e with Some x => (Elem (Some x), X ∖ {[x]}) | None => (Elem None, X) end
  | HClear d => (Cleared (if d then size X else 0), ∅)
  | HSize => (Num (Z.of_nat (size X)), X)
  end.

Definition hash_op_ok (o : hash_op) : Prop :=
  match o with HInsert _ e | HReplace _ e => 0 < e ∧ e < 2 ^ 32 | _ => True end.
#[export] Instance hash_op_ok_dec o : Decision (hash_op_ok o).
Proof. destruct o; simpl; apply _. Defined.

Lemma elem_contents h x : x ∈ contents h ↔ x ∈ elems h.
Proof. unfold contents. apply elem_of_list_to_set. Qed.

Lemma contents_size h : hash_wf h → size (contents h) = length (elems h).
Proof. intros Hwf. unfold contents. by rewrite size_list_to_set by apply Hwf. Qed.

Lemma find_bucket_run h e : find_bucket hash_func e h = Ok (slot (bucket_cnt h) e, h).
Proof. done. Qed.

(** Finding the bucket and the element, the start of four operations. *)
Lemma find_run {A} h e (k : nat → option Z → M hash A) :
  hash_wf h →
  (i ← find_bucket hash_func e; o ← find_elem less i e; k i o) h =
  k (slot (bucket_cnt h) e) (lookup_same (contents h) e) h.
Proof.
  intros Hwf. rewrite (bind_ok _ _ _ _ _ (find_bucket_run h e)).
  destruct (find_elem_ok h e Hwf) as (b & _ & E & Ef). rewrite Ef in E. by rewrite (bind_ok _ _ _ _ _ E).
Qed.

Lemma rehash_ret room h (o : option Z) :
  hash_wf h →
  ∃ h', (rehash hash_func room;; mret o) h = Ok (o, h') ∧ hash_wf h' ∧ contents h' = contents h.
Proof.
  intros Hwf. destruct (rehash_ok room h Hwf) as (h' & E & Hwf' & Hp). exists h'.
  rewrite (bind_ok _ _ _ _ _ E). split_and!; [done..|by apply contents_perm].
Qed.

Lemma hash_insert_ok room h e :
  hash_wf h → 0 < e ∧ e < 2 ^ 32 →
  ∃ h', hash_insert hash_func less room e h = Ok (lookup_same (contents h) e, h') ∧ hash_wf h' ∧
    contents h' = match lookup_same (contents h) e with Some _ => contents h | None => {[e]} ∪ contents h end.
Proof.
  intros Hwf He. unfold hash_insert. rewrite find_run by done. destruct (lookup_same _ e) as [x|] eqn:El.
  - rewrite decide_False by done. by apply rehash_ret.
  - rewrite decide_True by done. destruct (insert_elem_ok h e Hwf He) as (h1 & E1 & Hwf1 & Hc).
    { intros x Hx. eapply lookup_same_None; [done|]. by apply elem_contents. }
    rewrite (bind_ok _ _ _ _ _ E1), <-Hc. by apply rehash_ret.
Qed.

Lemma hash_replace_ok room h e :
  hash_wf h → 0 < e ∧ e < 2 ^ 32 →
  ∃ h', hash_replace hash_func less room e h = Ok (lookup_same (contents h) e, h') ∧ hash_wf h' ∧
    contents h' = match lookup_same (contents h) e with
                  | Some x => {[e]} ∪ contents h ∖ {[x]} | None => {[e]} ∪ contents h end.
Proof.
  intros Hwf He. unfold hash_replace. rewrite find_run by done. destruct (lookup_same _ e) as [x|] eqn:El.
  - apply lookup_same_Some in El as [Hx Hs]. apply elem_contents in Hx.
    destruct (remove_elem_ok h x Hwf Hx) as (h1 & E1 & Hwf1 & Hc1 & Hb). rewrite (bind_ok _ _ _ _ _ E1), <-Hb.
    destruct (insert_elem_ok h1 e Hwf1 He) as (h2 & E2 & Hwf2 & Hc2).
    { intros y Hy Hye. apply elem_contents in Hy. rewrite Hc1 in Hy. apply elem_of_difference in Hy as [Hy Hn].
      apply Hn, elem_of_singleton. apply (hw_same _ Hwf); [by apply elem_contents|done|].
      eapply same_trans; [done|by apply same_sym]. }
    rewrite (bind_ok _ _ _ _ _ E2), <-Hc1, <-Hc2. by apply rehash_ret.
  - rewrite ret_bind. destruct (insert_elem_ok h e Hwf He) as (h1 & E1 & Hwf1 & Hc).
    { intros x Hx. eapply lookup_same_None; [done|]. by apply elem_contents. }
    rewrite (bind_ok _ _ _ _ _ E1), <-Hc. by apply rehash_ret.
Qed.

Lemma hash_delete_ok room h e :
  hash_wf h →
  ∃ h', hash_delete hash_func less room e h = Ok (lookup_same (contents h) e, h') ∧ hash_wf h' ∧
    contents h' = match lookup_same (contents h) e with Some x => contents h ∖ {[x]} | None => contents h end.
Proof.
  intros Hwf. unfold hash_delete. rewrite find_run by done. destruct (lookup_same _ e) as [x|] eqn:El.
  - apply lookup_same_Some in El as [Hx _]. apply elem_contents in Hx.
    destruct (remove_elem_ok h x Hwf Hx) as (h1 & E1 & Hwf1 & Hc1 & Hb).
    rewrite (bind_ok _ _ _ _ _ E1), <-Hc1. by apply rehash_ret.
  - by exists h.
Qed.

Lemma hash_clear_ok d h :
  hash_wf h →
  ∃ h', hash_clear d h = Ok (if d then elems h else [], h') ∧ hash_wf h' ∧ contents h' = ∅.
Proof.
  intros Hwf. unfold hash_clear. eexists. split; [done|]. set (h' := Hash _ _ _).
  assert (elems h' = []) as Ee by apply concat_nil. split.
  - destruct (hw_placed _ Hwf) as (Hp & Hl & _). split; rewrite ?Ee; try done.
    + split_and!; [done|simpl; by rewrite length_fmap|]. intros i b e. simpl. rewrite list_lookup_fmap.
      destruct (buckets h !! i); intros [= <-] []%not_elem_of_nil.
    + apply NoDup_nil_2.
    + intros x y []%not_elem_of_nil.
  - unfold contents. by rewrite Ee.
Qed.

Lemma hash_op_sim o h :
  hash_wf h → hash_op_ok o →
  ∃ h', run_hash_op o h = Ok (fst (spec_hash_op o (contents h)), h') ∧ hash_wf h' ∧
    contents h' = snd (spec_hash_op o (contents h)).
Proof.
  intros Hwf Ho. destruct o as [room e|room e|e|room e|d|]; cbn [run_hash_op spec_hash_op].
  - destruct (hash_insert_ok room h e Hwf Ho) as (h' & E & Hwf' & Hc). exists h'.
    rewrite (bind_ok _ _ _ _ _ E). by destruct (lookup_same _ e).
  - destruct (hash_replace_ok room h e Hwf Ho) as (h' & E & Hwf' & Hc). exists h'.
    rewrite (bind_ok _ _ _ _ _ E). by destruct (lookup_same _ e).
  - exists h. destruct (find_elem_ok h e Hwf) as (b & _ & E & Ef). unfold hash_find.
    rewrite Ef in E. split; [|done]. cbv [mbind M_bind]. rewrite find_bucket_run, E. done.
  - destruct (hash_delete_ok room h e Hwf) as (h' & E & Hwf' & Hc). exists h'.
    rewrite (bind_ok _ _ _ _ _ E). by destruct (lookup_same _ e).
  - destruct (hash_clear_ok d h Hwf) as (h' & E & Hwf' & Hc). exists h'. rewrite (bind_ok _ _ _ _ _ E).
    split; [|done]. cbn. do 3 f_equal. destruct d; [by rewrite contents_size|done].
  - exists h. split; [|done]. cbn. unfold hash_size. cbv [mbind M_bind gets mret M_ret].
    by rewrite contents_size, (hw_cnt _ Hwf).
Qed.

Fixpoint run_hash_ops (os : list hash_op) : M hash (list hash_val) :=
  match os with
  | [] => mret []
  | o :: os => v ← run_hash_op o; vs ← run_hash_ops os; mret (v :: vs)
  end.
Fixpoint spec_hash_ops (os : list hash_op) (X : gset Z) : list hash_val * gset Z :=
  match os with
  | [] => ([], X)
  | o :: os => let (v, X) := spec_hash_op o X in let (vs, X) := spec_hash_ops os X in (v :: vs, X)
  end.

Lemma hash_ops_sim os h :
  hash_wf h → Forall hash_op_ok os →
  ∃ h', run_hash_ops os h = Ok (fst (spec_hash_ops os (contents h)), h') ∧ hash_wf h' ∧
    contents h' = snd (spec_hash_ops os (contents h)).
Proof.
  revert h. induction os as [|o os IH]; intros h Hwf Hos; [by exists h|].
  apply Forall_cons in Hos as [Ho Hos]. cbn [run_hash_ops spec_hash_ops].
  destruct (hash_op_sim o h Hwf Ho) as (h1 & E1 & Hwf1 & Hc1). rewrite (bind_ok _ _ _ _ _ E1).
  destruct (IH h1 Hwf1 Hos) as (h2 & E2 & Hwf2 & Hc2). exists h2. rewrite (bind_ok _ _ _ _ _ E2).
  destruct (spec_hash_op o (contents h)) as [v X]. simpl in Hc1. subst X.
  by destruct (spec_hash_ops os (contents h1)).
Qed.
End table.

(** C30. Starting from [hash_init], any program of insertions, replacements,
    searches, deletions and clearings returns what the same program returns on
    the set of the elements, and the table stays well formed, whatever [malloc]
    answers when the table is resized.  The client's order is a strict weak
    order for which equal elements have equal hash values. *)
Theorem hash_refines_set hash_func less os :
  HashFuncs hash_func less → Forall hash_op_ok os →
  ∃ h0 h, hash_init true = Ok (Some h0) ∧
    run_hash_ops hash_func less os h0 = Ok (fst (spec_hash_ops less os ∅), h) ∧
    hash_wf hash_func less h ∧ contents h = snd (spec_hash_ops less os ∅).
Proof.
  intros Hf Hos. set (h0 := Hash 0 4 (replicate 4 [])).
  assert (hash_wf hash_func less h0) as Hwf.
  { split; try done; unfold elems; cbn; [|apply NoDup_nil_2|intros x y []%not_elem_of_nil].
    apply (placed_nil hash_func 4). by exists 2. }
  destruct (hash_ops_sim hash_func less os h0 Hwf Hos) as (h & E & H'). exists h0, h.
  split; [done|]. split; [exact E|exact H'].
Qed.

(** Elements ordered and hashed by their last two digits. *)
Definition example_key (e : Z) : Z := e mod 100.
Definition example_hash (e : Z) : Z := hash_int (example_key e).
Definition example_hash_less (x y : Z) : bool := example_key x <? example_key y.

Lemma fnv_range h b : in_u 8 b → in_u 32 (fnv h b).
Proof.
  intros Hb. unfold fnv. apply in_u_bits; [lia|]. intros j Hj. rewrite Z.lxor_spec.
  pose proof (wrapu_range 32 (h * FNV_32_PRIME) ltac:(lia)) as Hr.
  rewrite (proj2 (in_u_bits 32 _ ltac:(lia)) Hr) by lia.
  rewrite (proj2 (in_u_bits 8 _ ltac:(lia)) Hb) by lia. done.
Qed.

Lemma hash_bytes_range bs : Forall (in_u 8) bs → in_u 32 (hash_bytes bs).
Proof.
  unfold hash_bytes. intros H. assert (in_u 32 FNV_32_BASIS) as Hh by done. revert Hh.
  generalize FNV_32_BASIS. induction H as [|b bs Hb _ IH]; intros h Hh; [done|]. simpl. by apply IH, fnv_range.
Qed.

#[export] Instance example_hash_funcs : HashFuncs example_hash example_hash_less.
Proof.
  split.
  - apply default_less_strict_weak.
  - intros e. apply hash_bytes_range, le_bytes_range.
  - intros x y H1 H2. unfold example_hash, example_hash_less in *. f_equal. lia.
Qed.

Definition example_hash_ops : list hash_op :=
  [HInsert true 101; HInsert true 102; HInsert false 201; HFind 301; HReplace true 301; HDelete true 2; HSize;
   HClear true; HSize].

Lemma hash_refines_set_witness :
  ∃ h0 h, hash_init true = Ok (Some h0) ∧
    run_hash_ops example_hash example_hash_less example_hash_ops h0 =
      Ok ([Elem None; Elem None; Elem (Some 101); Elem (Some 101); Elem (Some 101); Elem (Some 102); Num 1;
           Cleared 1; Num 0], h) ∧ contents h = ∅.
Proof.
  destruct (hash_refines_set example_hash example_hash_less example_hash_ops example_hash_funcs)
    as (h0 & h & E0 & E & _ & Hc).
  { apply (bool_decide_unpack _). vm_compute. exact I. }
  exists h0, h. split; [exact E0|]. split.
  - rewrite E. assert (fst (spec_hash_ops example_hash_less example_hash_ops ∅) =
      [Elem None; Elem None; Elem (Some 101); Elem (Some 101); Elem (Some 101); Elem (Some 102); Num 1;
       Cleared 1; Num 0]) as -> by (vm_compute; reflexivity). reflexivity.
  - rewrite Hc. vm_compute. reflexivity.
Defined.

(** [hash_string] is [hash_bytes] of the characters before the terminator. *)
Lemma hash_string_ok s t : Forall (λ c, c ≠ 0) s → hash_string (s ++ 0 :: t) = Ok (hash_bytes s).
Proof.
  unfold hash_string, hash_bytes. intros H. generalize FNV_32_BASIS.
  induction H as [|c s Hc _ IH]; intros h; [done|]. cbn [hash_string_loop app foldl].
  rewrite decide_True by exact Hc. apply IH.
Qed.

(** ** Iteration *)

Lemma next_in_middle us e vs : NoDup (us ++ e :: vs) → next_in (us ++ e :: vs) (AtElem e) = Ok (head vs).
Proof.
  intros Hnd. cbn. apply NoDup_app in Hnd as (_ & Hd & _).
  rewrite list_find_app_r.
  - cbn. rewrite decide_True by done. cbn. f_equal. rewrite lookup_app_r by lia.
    replace (S (length us) - length us)%nat with 1%nat by lia. by destruct vs.
  - apply list_find_None. rewrite Forall_forall. intros x Hx ->. apply (Hd e Hx). by left.
Qed.

Section iterate.
  Context (h : hash) (Hcnt : Z.of_nat (length (buckets h)) = bucket_cnt h) (Hnd : NoDup (elems h)).

Lemma bucket_nodup i b : buckets h !! i = Some b → NoDup b.
Proof.
  intros E. unfold elems in Hnd. rewrite <-(take_drop_middle _ _ _ E), concat_app in Hnd. simpl in Hnd.
  apply NoDup_app in Hnd as (_ & _ & H). by apply NoDup_app in H as (H & _).
Qed.

Lemma next_loop_ok fuel i us vs :
  buckets h !! i = Some (us ++ vs) → (length (buckets h) - i ≤ fuel)%nat →
  match vs ++ concat (drop (S i) (buckets h)) with
  | [] => ∃ j, next_loop fuel h i (head vs) = Ok (HashIterator j AtNull)
  | e :: rest => ∃ j us' vs', next_loop fuel h i (head vs) = Ok (HashIterator j (AtElem e)) ∧
      buckets h !! j = Some (us' ++ e :: vs') ∧ rest = vs' ++ concat (drop (S j) (buckets h))
  end.
Proof.
  revert i us vs. induction fuel as [|fuel IH]; intros i us vs E Hf;
    (destruct vs as [|e vs]; [|by exists i, us, vs]); pose proof (lookup_lt_Some _ _ _ E); [lia|].
  cbn [next_loop head app]. case_decide as Hi.
  - rewrite drop_ge by lia. by eexists.
  - destruct (lookup_lt_is_Some_2 (buckets h) (S i)) as [b Eb]; [lia|]. rewrite Eb.
    rewrite (drop_S _ _ _ Eb). cbn [concat]. apply (IH (S i) []); [done|lia].
Qed.

Lemma iterate_ok fuel it i us vs :
  it_bucket it = i → buckets h !! i = Some (us ++ vs) → next_in (us ++ vs) (it_elem it) = Ok (head vs) →
  (length (vs ++ concat (drop (S i) (buckets h))) < fuel)%nat →
  iterate fuel h it = Ok (vs ++ concat (drop (S i) (buckets h))).
Proof.
  revert it i us vs. induction fuel as [|fuel IH]; intros it i us vs Hi E Hn Hf; [lia|].
  cbn [iterate]. unfold hash_next. rewrite Hi, E. cbn. rewrite Hn. cbn.
  pose proof (next_loop_ok (Z.to_nat (bucket_cnt h)) i us vs E ltac:(lia)) as Hl.
  destruct (vs ++ concat (drop (S i) (buckets h))) as [|e rest].
  - destruct Hl as [j ->]. done.
  - destruct Hl as (j & us' & vs' & -> & Ej & ->). cbn.
    rewrite (IH _ j (us' ++ [e]) vs'); [done|done|by rewrite <-app_assoc| |simpl in Hf; lia].
    rewrite <-app_assoc. cbn [it_elem app]. apply next_in_middle. by eapply bucket_nodup.
Qed.
End iterate.

(** The iteration idiom, [hash_first] and then [hash_next] until it returns
    null, visits every element of the table exactly once and terminates. *)
Theorem hash_iteration_complete hash_func less h :
  hash_wf hash_func less h →
  ∃ es, iterate (S (length (elems h))) h hash_first = Ok es ∧ NoDup es ∧ ∀ e, e ∈ es ↔ e ∈ contents h.
Proof.
  intros Hwf. exists (elems h). split; [|split; [apply Hwf|intros e; by rewrite elem_contents]].
  destruct (hw_placed _ _ _ Hwf) as ((k & ? & _ & Hk) & Hl & _).
  unfold elems. destruct (buckets h) as [|b bs] eqn:Eb.
  { assert (0 < 2 ^ k) by lia. simpl in Hl. lia. }
  rewrite (iterate_ok h) with (i := 0%nat) (us := []) (vs := b); [| |apply Hwf|done|..].
  - by rewrite Eb.
  - by rewrite Eb.
  - by rewrite Eb.
  - done.
  - rewrite Eb. simpl. rewrite drop_0. lia.
Qed.

Lemma hash_iteration_complete_witness :
  ∃ es, iterate 4 (Hash 3 4 [[]; [101]; []; [7; 102]]) hash_first = Ok es ∧ NoDup es.
Proof.
  destruct (hash_iteration_complete (λ e, if decide (e = 101) then 1 else 3) Z.ltb (Hash 3 4 [[]; [101]; []; [7; 102]]))
    as (es & E & Hnd & _); [|by exists es].
  split; unfold elems; cbn.
  - split_and!; [by exists 2|done|]. intros i b e Hb He. destruct i as [|[|[|[|i]]]]; simplify_eq/=;
      repeat (apply elem_of_cons in He as [->|He]; [reflexivity|]); by apply not_elem_of_nil in He.
  - apply (bool_decide_unpack _). vm_compute. exact I.
  - intros x y _ _ [H1 H2]. lia.
  - done.
  - repeat constructor; done.
Defined.
