(* ===== verification/CString.v ===== *)
(** * Strings and blocks of memory

    lib/string.c, on a memory of bytes by address: reading or writing an address
    that holds no byte is a bad access.  Loops that stop at a terminator take
    the size of the memory as their bound: each iteration reads another byte,
    so the bound is never reached on a string. *)

From S2P Require Import Prelude.

Abbreviation mem := (gmap Z Z).

Definition rd8 (a : Z) : M mem Z := λ m,
  match m !! a with Some b => Ok (b, m) | None => Err BadAccess end.
Definition wr8 (a b : Z) : M mem unit := λ m,
  match m !! a with Some _ => Ok (tt, <[a := b]> m) | None => Err BadAccess end.

(** The bound of a loop over distinct addresses. *)
Definition bound : M mem nat := gets (λ m, S (size m)).

(** ** lib/string.c: blocks *)

Definition nonnull_or_empty (p size : Z) : bool := bool_decide (p ≠ NULL ∨ size = 0).

Fixpoint memcpy_loop (dst src : Z) (n : nat) : M mem unit :=
  match n with
  | O => mret tt
  | S n => b ← rd8 src; wr8 dst b;; memcpy_loop (dst + 1) (src + 1) n
  end.

Definition memcpy (dst src size : Z) : M mem Z :=
  assert (nonnull_or_empty dst size);; assert (nonnull_or_empty src size);;
  memcpy_loop dst src (Z.to_nat size);; mret dst.

(** The loop that goes down; the pointers are one past the last byte. *)
Fixpoint memmove_down (dst src : Z) (n : nat) : M mem Z :=
  match n with
  | O => mret dst
  | S n => b ← rd8 (src - 1); wr8 (dst - 1) b;; memmove_down (dst - 1) (src - 1) n
  end.
(** The loop that goes up; it leaves [dst] one past the last byte. *)
Fixpoint memmove_up (dst src : Z) (n : nat) : M mem Z :=
  match n with
  | O => mret dst
  | S n => b ← rd8 src; wr8 dst b;; memmove_up (dst + 1) (src + 1) n
  end.

Definition memmove (dst src size : Z) : M mem Z :=
  assert (nonnull_or_empty dst size);; assert (nonnull_or_empty src size);;
  if decide (dst < src) then memmove_up dst src (Z.to_nat size)
  else memmove_down (dst + size) (src + size) (Z.to_nat size).

Fixpoint memcmp_loop (a b : Z) (n : nat) : M mem Z :=
  match n with
  | O => mret 0
  | S n =>
      x ← rd8 a; y ← rd8 b;
      if decide (x ≠ y) then mret (if decide (x > y) then 1 else -1) else memcmp_loop (a + 1) (b + 1) n
  end.

Definition memcmp (a b size : Z) : M mem Z :=
  assert (nonnull_or_empty a size);; assert (nonnull_or_empty b size);;
  memcmp_loop a b (Z.to_nat size).

Fixpoint memchr_loop (block ch : Z) (n : nat) : M mem Z :=
  match n with
  | O => mret NULL
  | S n => b ← rd8 block; if decide (b = ch) then mret block else memchr_loop (block + 1) ch n
  end.

Definition memchr (block ch size : Z) : M mem Z :=
  assert (nonnull_or_empty block size);; memchr_loop block (u8 ch) (Z.to_nat size).

Fixpoint memset_loop (dst value : Z) (n : nat) : M mem unit :=
  match n with O => mret tt | S n => wr8 dst (u8 value);; memset_loop (dst + 1) value n end.

Definition memset (dst value size : Z) : M mem Z :=
  assert (nonnull_or_empty dst size);; memset_loop dst value (Z.to_nat size);; mret dst.

(** ** lib/string.c: strings *)

Fixpoint strcmp_loop (fuel : nat) (a b : Z) : M mem Z :=
  match fuel with
  | O => fail OutOfFuel
  | S fuel =>
      x ← rd8 a;
      y ← rd8 b;
      if decide (x ≠ 0 ∧ x = y) then strcmp_loop fuel (a + 1) (b + 1)
      else mret (if decide (x < y) then -1 else if decide (x > y) then 1 else 0)
  end.

Definition strcmp (a b : Z) : M mem Z :=
  assert (bool_decide (a ≠ NULL));; assert (bool_decide (b ≠ NULL));;
  n ← bound; strcmp_loop n a b.

Fixpoint strchr_loop (fuel : nat) (string c : Z) : M mem Z :=
  match fuel with
  | O => fail OutOfFuel
  | S fuel =>
      b ← rd8 string;
      if decide (b = c) then mret string
      else if decide (b = 0) then mret NULL
      else strchr_loop fuel (string + 1) c
  end.

Definition strchr (string c : Z) : M mem Z :=
  assert (bool_decide (string ≠ NULL));; n ← bound; strchr_loop n string (u8 c).

Fixpoint strcspn_loop (fuel : nat) (string stop length : Z) : M mem Z :=
  match fuel with
  | O => fail OutOfFuel
  | S fuel =>
      b ← rd8 (string + length);
      if decide (b = 0) then mret length
      else p ← strchr stop b; if decide (p ≠ NULL) then mret length else strcspn_loop fuel string stop (length + 1)
  end.
Definition strcspn (string stop : Z) : M mem Z := n ← bound; strcspn_loop n string stop 0.

Fixpoint strpbrk_loop (fuel : nat) (string stop : Z) : M mem Z :=
  match fuel with
  | O => fail OutOfFuel
  | S fuel =>
      b ← rd8 string;
      if decide (b = 0) then mret NULL
      else p ← strchr stop b; if decide (p ≠ NULL) then mret string else strpbrk_loop fuel (string + 1) stop
  end.
Definition strpbrk (string stop : Z) : M mem Z := n ← bound; strpbrk_loop n string stop.

Fixpoint strrchr_loop (fuel : nat) (string c p : Z) : M mem Z :=
  match fuel with
  | O => fail OutOfFuel
  | S fuel =>
      b ← rd8 string;
      if decide (b = 0) then mret p else strrchr_loop fuel (string + 1) c (if decide (b = c) then string else p)
  end.
Definition strrchr (string c : Z) : M mem Z := n ← bound; strrchr_loop n string (u8 c) NULL.

Fixpoint strspn_loop (fuel : nat) (string skip length : Z) : M mem Z :=
  match fuel with
  | O => fail OutOfFuel
  | S fuel =>
      b ← rd8 (string + length);
      if decide (b = 0) then mret length
      else p ← strchr skip b; if decide (p = NULL) then mret length else strspn_loop fuel string skip (length + 1)
  end.
Definition strspn (string skip : Z) : M mem Z := n ← bound; strspn_loop n string skip 0.

Fixpoint strlen_loop (fuel : nat) (p : Z) : M mem Z :=
  match fuel with
  | O => fail OutOfFuel
  | S fuel => b ← rd8 p; if decide (b ≠ 0) then strlen_loop fuel (p + 1) else mret p
  end.
Definition strlen (string : Z) : M mem Z :=
  assert (bool_decide (string ≠ NULL));; n ← bound; p ← strlen_loop n string; mret (p - string).

Fixpoint strnlen_loop (fuel : nat) (string length maxlen : Z) : M mem Z :=
  match fuel with
  | O => fail OutOfFuel
  | S fuel =>
      b ← rd8 (string + length);
      if decide (b ≠ 0 ∧ length < maxlen) then strnlen_loop fuel string (length + 1) maxlen else mret length
  end.
Definition strnlen (string maxlen : Z) : M mem Z := n ← bound; strnlen_loop n string 0 maxlen.

(** [n] more positions to try, from [i]. *)
Fixpoint strstr_loop (haystack needle needle_len i : Z) (n : nat) : M mem Z :=
  match n with
  | O => mret NULL
  | S n =>
      c ← memcmp (haystack + i) needle needle_len;
      if decide (c = 0) then mret (haystack + i) else strstr_loop haystack needle needle_len (i + 1) n
  end.
Definition strstr (haystack needle : Z) : M mem Z :=
  haystack_len ← strlen haystack;
  needle_len ← strlen needle;
  if decide (haystack_len >= needle_len) then
    strstr_loop haystack needle needle_len 0 (Z.to_nat (haystack_len - needle_len + 1))
  else mret NULL.

Definition strlcpy (dst src size : Z) : M mem Z :=
  assert (bool_decide (dst ≠ NULL));; assert (bool_decide (src ≠ NULL));;
  src_len ← strlen src;
  (if decide (size > 0) then
     let dst_len := size - 1 in
     let dst_len := if decide (src_len < dst_len) then src_len else dst_len in
     memcpy dst src dst_len;; wr8 (dst + dst_len) 0
   else mret tt);;
  mret src_len.

Definition strlcat (dst src size : Z) : M mem Z :=
  assert (bool_decide (dst ≠ NULL));; assert (bool_decide (src ≠ NULL));;
  src_len ← strlen src;
  dst_len ← strlen dst;
  (if decide (size > 0 ∧ dst_len < size) then
     let copy_cnt := size - dst_len - 1 in
     let copy_cnt := if decide (src_len < copy_cnt) then src_len else copy_cnt in
     memcpy (dst + dst_len) src copy_cnt;; wr8 (dst + dst_len + copy_cnt) 0
   else mret tt);;
  mret (src_len + dst_len).

(** ** lib/string.c: tokens *)

(** Skip characters while they are delimiters ([delims]) or are not; a
    terminator counts as a delimiter for [strchr]. Stops at a terminator. *)
Fixpoint skip_delimiters (fuel : nat) (s delimiters : Z) : M mem Z :=
  match fuel with
  | O => fail OutOfFuel
  | S fuel =>
      b ← rd8 s; p ← strchr delimiters b;
      if decide (p ≠ NULL) then
        if decide (b = 0) then mret s else skip_delimiters fuel (s + 1) delimiters
      else mret s
  end.
Fixpoint skip_token (fuel : nat) (s delimiters : Z) : M mem Z :=
  match fuel with
  | O => fail OutOfFuel
  | S fuel =>
      b ← rd8 s; p ← strchr delimiters b;
      if decide (p = NULL) then skip_token fuel (s + 1) delimiters else mret s
  end.

(** The argument [save] is the value of [*save_ptr]; the new one is returned
    with the token. *)
Definition strtok_r (s delimiters save : Z) : M mem (Z * Z) :=
  assert (bool_decide (delimiters ≠ NULL));;
  let s := if decide (s = NULL) then save else s in
  assert (bool_decide (s ≠ NULL));;
  n ← bound;
  s ← skip_delimiters n s delimiters;
  b ← rd8 s;
  if decide (b = 0) then mret (NULL, s)
  else
    let token := s in
    n ← bound;
    s ← skip_token n s delimiters;
    b ← rd8 s;
    if decide (b ≠ 0) then wr8 s 0;; mret (token, s + 1) else mret (token, s).

(** The loop over tokens; [s] is at the start of one. *)
Fixpoint strtok_c_loop (fuel : nat) (s delimiters num : Z) : M mem Z :=
  match fuel with
  | O => fail OutOfFuel
  | S fuel =>
      n ← bound; s ← skip_token n s delimiters;
      let num := i32 (num + 1) in
      n ← bound; s ← skip_delimiters n s delimiters;
      b ← rd8 s;
      if decide (b = 0) then mret (u32 num) else strtok_c_loop fuel s delimiters num
  end.

Definition strtok_c (s delimiters : Z) : M mem Z :=
  assert (bool_decide (delimiters ≠ NULL));;
  if decide (s = NULL) then mret 0
  else
    n ← bound; s ← skip_delimiters n s delimiters;
    b ← rd8 s;
    if decide (b = 0) then mret 0
    else n ← bound; strtok_c_loop n s delimiters 0.

(** ** Bytes in memory *)

Definition bytes_at (m : mem) (a : Z) (bs : list Z) : Prop :=
  ∀ i b, bs !! i = Some b → m !! (a + Z.of_nat i) = Some b.
Definition mapped (m : mem) (a n : Z) : Prop := ∀ x, a ≤ x ∧ x < a + n → is_Some (m !! x).

(** Memory after bytes have been stored from [a] on. *)
Fixpoint store (a : Z) (bs : list Z) (m : mem) : mem :=
  match bs with [] => m | b :: bs => store (a + 1) bs (<[a := b]> m) end.

Lemma store_lookup bs a m x :
  store a bs m !! x =
    if decide (a ≤ x ∧ x < a + Z.of_nat (length bs)) then bs !! Z.to_nat (x - a) else m !! x.
Proof.
  revert a m. induction bs as [|b bs IH]; intros a m; cbn [store length].
  { rewrite decide_False by lia. done. }
  rewrite IH. destruct (decide (x = a)) as [->|].
  - rewrite decide_False, decide_True by lia. rewrite Z.sub_diag. apply lookup_insert_eq.
  - rewrite lookup_insert_ne by done. destruct (decide (a + 1 ≤ x ∧ x < a + 1 + Z.of_nat (length bs))).
    + rewrite decide_True by lia. by replace (Z.to_nat (x - a)) with (S (Z.to_nat (x - (a + 1)))) by lia.
    + rewrite decide_False by lia. done.
Qed.

Lemma store_snoc a bs b m : store a (bs ++ [b]) m = store a bs (<[a + Z.of_nat (length bs) := b]> m).
Proof.
  apply map_eq. intros x. rewrite !store_lookup, length_app. cbn [length].
  destruct (decide (a ≤ x ∧ x < a + Z.of_nat (length bs))).
  - rewrite decide_True by lia. rewrite lookup_app_l by lia. done.
  - destruct (decide (x = a + Z.of_nat (length bs))) as [->|].
    + rewrite decide_True, lookup_insert_eq by lia. rewrite lookup_app_r by lia.
      by replace (Z.to_nat _ - length bs)%nat with 0%nat by lia.
    + rewrite decide_False by lia. by rewrite lookup_insert_ne.
Qed.

Lemma store_then a bs b m : <[a + Z.of_nat (length bs) := b]> (store a bs m) = store a (bs ++ [b]) m.
Proof.
  rewrite store_snoc. apply map_eq. intros x. rewrite store_lookup.
  destruct (decide (x = a + Z.of_nat (length bs))) as [->|].
  - rewrite decide_False by lia. by rewrite !lookup_insert_eq.
  - rewrite !lookup_insert_ne, store_lookup by done. done.
Qed.

Lemma store_mapped a bs m x n : mapped m x n → mapped (store a bs m) x n.
Proof.
  intros H y Hy. rewrite store_lookup. case_decide; [|by apply H]. apply lookup_lt_is_Some_2. lia.
Qed.

Lemma bytes_at_cons m a b bs : bytes_at m a (b :: bs) ↔ m !! a = Some b ∧ bytes_at m (a + 1) bs.
Proof.
  split.
  - intros H. split; [rewrite <-(Z.add_0_r a); by apply (H 0%nat)|]. intros i c E.
    replace (a + 1 + Z.of_nat i) with (a + Z.of_nat (S i)) by lia. by apply (H (S i)).
  - intros [H1 H2] [|i] c E; [rewrite Z.add_0_r; by simplify_eq/=|].
    replace (a + Z.of_nat (S i)) with (a + 1 + Z.of_nat i) by lia. by apply H2.
Qed.

Lemma bytes_at_app m a bs cs :
  bytes_at m a (bs ++ cs) ↔ bytes_at m a bs ∧ bytes_at m (a + Z.of_nat (length bs)) cs.
Proof.
  revert a. induction bs as [|b bs IH]; intros a; cbn [app length].
  - rewrite Z.add_0_r. split; [|by intros [_ ?]]. intros H. split; [by intros i c|done].
  - rewrite !bytes_at_cons, IH. replace (a + Z.of_nat (S (length bs))) with (a + 1 + Z.of_nat (length bs)) by lia. tauto.
Qed.

Lemma bytes_at_insert m a bs x b :
  bytes_at m a bs → x < a ∨ a + Z.of_nat (length bs) ≤ x → bytes_at (<[x := b]> m) a bs.
Proof.
  intros H Hx i c E. rewrite lookup_insert_ne; [by apply H|]. apply lookup_lt_Some in E. lia.
Qed.

Lemma bytes_at_store m a bs x cs :
  bytes_at m a bs → x + Z.of_nat (length cs) ≤ a ∨ a + Z.of_nat (length bs) ≤ x → bytes_at (store x cs m) a bs.
Proof.
  intros H Hx i c E. rewrite store_lookup, decide_False; [by apply H|]. apply lookup_lt_Some in E. lia.
Qed.

Lemma bytes_at_stored m a bs : bytes_at (store a bs m) a bs.
Proof.
  intros i b E. pose proof (lookup_lt_Some _ _ _ E). rewrite store_lookup, decide_True by lia.
  by replace (Z.to_nat (a + Z.of_nat i - a)) with i by lia.
Qed.

Lemma bytes_at_size m a bs : bytes_at m a bs → (length bs ≤ size m)%nat.
Proof.
  revert m a. induction bs as [|b bs IH]; intros m a; [simpl; lia|]. rewrite bytes_at_cons. intros [E H]. simpl.
  assert (bytes_at (delete a m) (a + 1) bs) as H'.
  { intros i c Ei. rewrite lookup_delete_ne by lia. by apply H. }
  apply IH in H'. rewrite map_size_delete, E in H'.
  assert (size m ≠ 0%nat); [|lia]. intros Hz%map_size_empty_inv. subst. by rewrite lookup_empty in E.
Qed.

(** The [n] bytes of memory at [a]. *)
Definition bytes_of (m : mem) (a n : Z) : list Z := (λ k, default 0 (m !! (a + k))) <$> seqZ 0 n.

Lemma bytes_of_at m a n : 0 ≤ n → mapped m a n → bytes_at m a (bytes_of m a n) ∧ Z.of_nat (length (bytes_of m a n)) = n.
Proof.
  intros Hn Hm. split; [|unfold bytes_of; rewrite length_fmap, length_seqZ; lia]. intros i b E. unfold bytes_of in E.
  rewrite list_lookup_fmap in E. destruct (seqZ 0 n !! i) as [k|] eqn:Ek; [|done]. apply lookup_seqZ in Ek as [-> Hi].
  rewrite Z.add_0_l in E. destruct (Hm (a + Z.of_nat i)) as [c Ec]; [lia|]. cbn in E. rewrite Ec in *. by injection E as <-.
Qed.

Lemma bytes_of_lookup m a n k : 0 ≤ k → k < n → mapped m a n → bytes_of m a n !! Z.to_nat k = m !! (a + k).
Proof.
  intros H1 H2 Hm. unfold bytes_of. rewrite list_lookup_fmap. destruct (seqZ 0 n !! Z.to_nat k) as [j|] eqn:E.
  - apply lookup_seqZ in E as [-> _]. replace (0 + Z.of_nat (Z.to_nat k)) with k by lia. cbn.
    destruct (Hm (a + k)) as [c Ec]; [lia|]. by rewrite Ec.
  - apply lookup_ge_None in E. rewrite length_seqZ in E. lia.
Qed.

Lemma rd8_ok m a b : m !! a = Some b → rd8 a m = Ok (b, m).
Proof. unfold rd8. by intros ->. Qed.
Lemma wr8_ok m a b : is_Some (m !! a) → wr8 a b m = Ok (tt, <[a := b]> m).
Proof. unfold wr8. by intros [? ->]. Qed.

(** Memory of [n] zeros from [a] on. *)
Definition zero_memory (a n : Z) : mem := store a (replicate (Z.to_nat n) 0) ∅.

Lemma zero_memory_mapped a n : mapped (zero_memory a n) a n.
Proof.
  intros x Hx. unfold zero_memory. rewrite store_lookup, length_replicate, decide_True by lia. exists 0. apply lookup_replicate_2. lia.
Qed.

(** ** Copying *)

Lemma memmove_up_ok bs dst src m :
  bytes_at m src bs → mapped m dst (Z.of_nat (length bs)) →
  dst < src ∨ src + Z.of_nat (length bs) ≤ dst →
  memmove_up dst src (length bs) m = Ok (dst + Z.of_nat (length bs), store dst bs m).
Proof.
  revert dst src m. induction bs as [|b bs IH]; intros dst src m Hs Hd Ho; cbn [memmove_up length store] in *.
  { by rewrite Z.add_0_r. }
  apply bytes_at_cons in Hs as [E Hs]. rewrite (bind_ok _ _ _ _ _ (rd8_ok _ _ _ E)).
  rewrite (bind_ok _ _ _ _ _ (wr8_ok m dst b (Hd dst ltac:(lia)))). rewrite IH.
  - do 2 f_equal. lia.
  - apply bytes_at_insert; [done|]. lia.
  - intros x Hx. destruct (decide (x = dst)) as [->|]; [by rewrite lookup_insert_eq|].
    rewrite lookup_insert_ne by done. apply Hd. lia.
  - lia.
Qed.

Lemma memcpy_loop_up dst src n m :
  memcpy_loop dst src n m = match memmove_up dst src n m with Ok (_, m') => Ok (tt, m') | Err e => Err e end.
Proof.
  revert dst src m. induction n as [|n IH]; intros dst src m; [done|]. cbn [memcpy_loop memmove_up].
  cbv [mbind M_bind]. destruct (rd8 src m) as [[b m1]|]; [|done]. destruct (wr8 dst b m1) as [[u m2]|]; [|done].
  apply IH.
Qed.

Lemma memmove_down_ok bs dst src m :
  bytes_at m src bs → mapped m dst (Z.of_nat (length bs)) → src ≤ dst →
  memmove_down (dst + Z.of_nat (length bs)) (src + Z.of_nat (length bs)) (length bs) m = Ok (dst, store dst bs m).
Proof.
  revert m. induction bs as [|b bs IH] using rev_ind; intros m Hs Hd Ho; [by rewrite Z.add_0_r|].
  rewrite length_app, Nat.add_comm in *. cbn [length Nat.add memmove_down] in *.
  apply bytes_at_app in Hs as [Hs [E _]%bytes_at_cons].
  replace (src + Z.of_nat (S (length bs)) - 1) with (src + Z.of_nat (length bs)) by lia.
  replace (dst + Z.of_nat (S (length bs)) - 1) with (dst + Z.of_nat (length bs)) by lia.
  rewrite (bind_ok _ _ _ _ _ (rd8_ok _ _ _ E)).
  rewrite (bind_ok _ _ _ _ _ (wr8_ok m (dst + Z.of_nat (length bs)) b (Hd (dst + Z.of_nat (length bs)) ltac:(lia)))).
  rewrite store_snoc. apply IH; [|..|done].
  - apply bytes_at_insert; [done|]. lia.
  - intros x Hx. rewrite lookup_insert_ne by lia. apply Hd. lia.
Qed.

Lemma nonnull_ok p size : p ≠ NULL ∨ size = 0 → nonnull_or_empty p size = true.
Proof. intros. by apply bool_decide_eq_true_2. Qed.

Lemma memcpy_ok bs dst src m :
  bytes_at m src bs → mapped m dst (Z.of_nat (length bs)) → dst ≠ NULL → src ≠ NULL →
  dst + Z.of_nat (length bs) ≤ src ∨ src + Z.of_nat (length bs) ≤ dst →
  memcpy dst src (Z.of_nat (length bs)) m = Ok (dst, store dst bs m).
Proof.
  intros Hs Hd Hdn Hsn Ho. unfold memcpy. rewrite !nonnull_ok by (by left). rewrite Nat2Z.id.
  cbv [mbind M_bind assert]. destruct bs as [|b bs]; [done|]. rewrite memcpy_loop_up, memmove_up_ok by (done || cbn [length] in *; lia).
  done.
Qed.

(** [memmove] copies the bytes that were at the source, also when the two
    blocks overlap, changes nothing else, and fails no access.  The pointer it
    returns is one past the destination block when the destination is below
    the source, where the comment promises the destination. *)
Theorem memmove_copies bs dst src m :
  bytes_at m src bs → mapped m dst (Z.of_nat (length bs)) → dst ≠ NULL → src ≠ NULL →
  ∃ m', memmove dst src (Z.of_nat (length bs)) m =
      Ok (if decide (dst < src) then dst + Z.of_nat (length bs) else dst, m') ∧
    bytes_at m' dst bs ∧
    ∀ x, x < dst ∨ dst + Z.of_nat (length bs) ≤ x → m' !! x = m !! x.
Proof.
  intros Hs Hd Hdn Hsn. exists (store dst bs m). split_and!; [|apply bytes_at_stored|].
  - unfold memmove. rewrite !nonnull_ok by (by left). rewrite Nat2Z.id. cbv [mbind M_bind assert].
    destruct (decide (dst < src)); [by apply memmove_up_ok; [..|left]|apply memmove_down_ok; [done..|lia]].
  - intros x Hx. rewrite store_lookup, decide_False by lia. done.
Qed.

Definition example_mem : mem := list_to_map (zip (seqZ 100 8) [1; 2; 3; 4; 5; 6; 7; 8]).

Lemma memmove_copies_witness :
  ∃ m', memmove 101 100 5 example_mem = Ok (101, m') ∧ bytes_at m' 101 [1; 2; 3; 4; 5].
Proof.
  destruct (memmove_copies [1; 2; 3; 4; 5] 101 100 example_mem) as (m' & E & H & _); try done.
  - intros i b Hi. do 5 (destruct i as [|i]; [by injection Hi as <-|]). done.
  - intros x Hx. cbn in Hx. assert (x = 101 ∨ x = 102 ∨ x = 103 ∨ x = 104 ∨ x = 105) as Hc by lia.
    destruct Hc as [->|[->|[->|[->| ->]]]]; by eexists.
  - exists m'. exact (conj E H).
Defined.

(** ** Strings *)

Definition cstr (m : mem) (a : Z) (s : list Z) : Prop :=
  0 < a ∧ bytes_at m a (s ++ [0]) ∧ Forall (λ b, 0 < b ∧ b < 256) s.

Lemma cstr_cons m a b s : cstr m a (b :: s) ↔ 0 < a ∧ m !! a = Some b ∧ 0 < b ∧ b < 256 ∧ cstr m (a + 1) s.
Proof. unfold cstr. cbn [app]. rewrite bytes_at_cons, Forall_cons. split; intros; destruct_and?; split_and!; done || lia. Qed.

Lemma cstr_nil m a : cstr m a [] ↔ 0 < a ∧ m !! a = Some 0.
Proof.
  unfold cstr. cbn [app]. rewrite bytes_at_cons. split; [tauto|]. intros [? ?]. split_and!; [done|done|done|].
  constructor.
Qed.

Lemma cstr_app m a s t :
  Forall (λ b, 0 < b ∧ b < 256) s →
  cstr m a (s ++ t) ↔ 0 < a ∧ bytes_at m a s ∧ cstr m (a + Z.of_nat (length s)) t.
Proof.
  intros Hs. unfold cstr. rewrite <-app_assoc, bytes_at_app, Forall_app. split; intros; destruct_and?; split_and!; done || lia.
Qed.

Lemma cstr_suffix m a s t : cstr m a (s ++ t) → cstr m (a + Z.of_nat (length s)) t.
Proof. intros H. apply cstr_app in H; [tauto|]. destruct H as (_ & _ & H). by apply Forall_app in H as [H _]. Qed.

Lemma cstr_size m a s : cstr m a s → (length s < size m)%nat.
Proof. intros (_ & H%bytes_at_size & _). rewrite length_app in H. simpl in H. lia. Qed.

Lemma cstr_chars m a s : cstr m a s → Forall (λ b, 0 < b ∧ b < 256) s.
Proof. by intros (_ & _ & H). Qed.

(** The first byte, the terminator of an empty string included. *)
Lemma cstr_head m a s : cstr m a s → rd8 a m = Ok (default 0 (head s), m).
Proof.
  destruct s; [rewrite cstr_nil; intros [_ E]|rewrite cstr_cons; intros (_ & E & _)]; by apply rd8_ok.
Qed.

Lemma bound_ok {A} (k : nat → M mem A) m : (n ← bound; k n) m = k (S (size m)) m.
Proof. done. Qed.

Lemma strlen_loop_ok fuel m p s :
  cstr m p s → (length s < fuel)%nat → strlen_loop fuel p m = Ok (p + Z.of_nat (length s), m).
Proof.
  revert p s. induction fuel as [|fuel IH]; intros p s H Hf; [lia|]. cbn [strlen_loop].
  rewrite (bind_ok _ _ _ _ _ (cstr_head _ _ _ H)). destruct s as [|b s]; cbn [head from_option id].
  - rewrite decide_False by auto. cbn. by rewrite Z.add_0_r.
  - apply cstr_cons in H as (_ & _ & Hb & _ & H). rewrite decide_True by lia.
    rewrite (IH _ s) by (done || simpl in Hf; lia). do 2 f_equal. simpl. lia.
Qed.

Lemma strlen_ok m a s : cstr m a s → strlen a m = Ok (Z.of_nat (length s), m).
Proof.
  intros H. unfold strlen. rewrite bool_decide_eq_true_2 by (destruct H; unfold NULL; lia).
  rewrite (bind_ok _ _ _ _ m eq_refl), bound_ok. pose proof (cstr_size _ _ _ H).
  rewrite (bind_ok _ _ _ _ _ (strlen_loop_ok (S (size m)) m a s H ltac:(lia))). unfold mret, M_ret. do 2 f_equal. lia.
Qed.

(** What [strchr] returns: the first occurrence, the terminator for 0. *)
Definition chr_result (a c : Z) (s : list Z) : Z :=
  match list_find (λ b, b = c) (s ++ [0]) with Some (i, _) => a + Z.of_nat i | None => NULL end.

Lemma strchr_loop_ok fuel m p c s :
  cstr m p s → (length s < fuel)%nat → strchr_loop fuel p c m = Ok (chr_result p c s, m).
Proof.
  revert p s. induction fuel as [|fuel IH]; intros p s H Hf; [lia|]. cbn [strchr_loop].
  rewrite (bind_ok _ _ _ _ _ (cstr_head _ _ _ H)). unfold chr_result. destruct s as [|b s]; cbn [head from_option id app list_find].
  - destruct (decide (0 = c)); [by rewrite Z.add_0_r|]. by rewrite decide_True.
  - apply cstr_cons in H as (_ & _ & Hb & _ & H). destruct (decide (b = c)); [by rewrite Z.add_0_r|].
    rewrite decide_False by lia. rewrite (IH _ s) by (done || simpl in Hf; lia). unfold chr_result.
    destruct (list_find _ (s ++ [0])) as [[i x]|]; cbn; [|done]. do 2 f_equal. lia.
Qed.

Lemma strchr_ok m a c s : cstr m a s → strchr a c m = Ok (chr_result a (u8 c) s, m).
Proof.
  intros H. unfold strchr. rewrite bool_decide_eq_true_2 by (destruct H; unfold NULL; lia).
  rewrite (bind_ok _ _ _ _ m eq_refl), bound_ok. pose proof (cstr_size _ _ _ H). apply strchr_loop_ok; [done|lia].
Qed.

Lemma chr_result_null a c s : 0 < a → (chr_result a c s = NULL ↔ c ≠ 0 ∧ c ∉ s).
Proof.
  intros Ha. unfold chr_result. destruct (list_find _ _) as [[i x]|] eqn:E.
  - apply list_find_Some in E as (Ei & -> & _). apply list_elem_of_lookup_2 in Ei.
    rewrite elem_of_app, list_elem_of_singleton in Ei. unfold NULL. split; [lia|]. intros [? ?]. destruct Ei; tauto.
  - apply list_find_None in E. rewrite Forall_forall in E. split; [|done]. intros _. split.
    + intros ->. apply (E 0); [apply elem_of_app; right; by left|done].
    + intros Hc. apply (E c); [apply elem_of_app; by left|done].
Qed.

Lemma strlcpy_ok m dst src s size :
  cstr m src s → 0 < dst → 0 < size → mapped m dst size →
  dst + size ≤ src ∨ src + Z.of_nat (length s) < dst →
  strlcpy dst src size m = Ok (Z.of_nat (length s), store dst (take (Z.to_nat (size - 1)) s ++ [0]) m).
Proof.
  intros Hs Hd Hp Hm Ho. pose proof Hs as (Hsrc & Hb & Hc). unfold strlcpy.
  rewrite !bool_decide_eq_true_2 by (unfold NULL; lia). rewrite !(bind_ok _ _ _ _ m eq_refl).
  rewrite (bind_ok _ _ _ _ _ (strlen_ok _ _ _ Hs)). rewrite decide_True by lia.
  set (t := take (Z.to_nat (size - 1)) s). set (n := if decide _ then _ else _).
  assert (n = Z.of_nat (length t)) as ->.
  { unfold n, t. rewrite length_take. case_decide; lia. }
  assert (length t ≤ Z.to_nat (size - 1))%nat as Ht by (unfold t; rewrite length_take; lia).
  assert (length t ≤ length s)%nat as Ht' by (unfold t; rewrite length_take; lia).
  assert (bytes_at m src t) as Hbt.
  { rewrite <-(take_drop (Z.to_nat (size - 1)) s), <-app_assoc in Hb. by apply bytes_at_app in Hb as [? _]. }
  assert (mapped m dst (Z.of_nat (length t))) as Hmt by (intros x Hx; apply Hm; lia).
  pose proof (memcpy_ok t dst src m Hbt Hmt) as E. unfold NULL in E.
  rewrite bind_assoc. rewrite (bind_ok _ _ _ _ _ (E ltac:(lia) ltac:(lia) ltac:(lia))).
  rewrite (bind_ok _ _ _ _ _ (wr8_ok _ (dst + Z.of_nat (length t)) 0 (store_mapped dst t m dst size Hm (dst + Z.of_nat (length t)) ltac:(lia)))).
  by rewrite store_then.
Qed.

(** [strlcpy] stores at the destination the longest prefix of the source
    that fits with its terminator, returns the length of the source, and
    writes nowhere else; with a size of zero it writes nothing. *)
Theorem strlcpy_bounded m dst src s size :
  cstr m src s → 0 < dst → 0 ≤ size → mapped m dst size →
  dst + size ≤ src ∨ src + Z.of_nat (length s) < dst →
  ∃ m', strlcpy dst src size m = Ok (Z.of_nat (length s), m') ∧
    (0 < size → cstr m' dst (take (Z.to_nat (size - 1)) s)) ∧
    ∀ x, x < dst ∨ dst + size ≤ x → m' !! x = m !! x.
Proof.
  intros Hs Hd Hz Hm Ho. pose proof Hs as (Hsrc & Hb & Hc). destruct (decide (0 < size)) as [Hp|Hp].
  - rewrite (strlcpy_ok m dst src s) by done. eexists. split; [done|]. split.
    + intros _. split_and!; [done|apply bytes_at_stored|by apply Forall_take].
    + intros x Hx. rewrite store_lookup, decide_False; [done|]. rewrite length_app, length_take. simpl. lia.
  - exists m. split_and!; [|lia|done]. unfold strlcpy. rewrite !bool_decide_eq_true_2 by (unfold NULL; lia).
    rewrite !(bind_ok _ _ _ _ m eq_refl), (bind_ok _ _ _ _ _ (strlen_ok _ _ _ Hs)), decide_False by lia. done.
Qed.

(** Concrete memories: blocks of bytes at given addresses. *)
Definition blocks (bs : list (Z * list Z)) : mem := foldr (λ b m, store b.1 b.2 m) ∅ bs.

#[export] Instance bytes_at_dec m a bs : Decision (bytes_at m a bs).
Proof.
  refine (cast_if (decide (Forall (λ p : nat * Z, m !! (a + Z.of_nat p.1) = Some p.2) (imap pair bs)))).
  - intros i b E. rewrite Forall_lookup in f. apply (f i (i, b)). by rewrite list_lookup_imap, E.
  - intros H. apply n, Forall_lookup. intros i [j b]. rewrite list_lookup_imap.
    destruct (bs !! i) as [c|] eqn:E; intros [= <- <-]. by apply H.
Defined.
#[export] Instance cstr_dec m a s : Decision (cstr m a s).
Proof. unfold cstr. apply _. Defined.
#[export] Instance mapped_dec m a n : Decision (mapped m a n).
Proof.
  refine (cast_if (decide (Forall (λ x, is_Some (m !! x)) (seqZ a n)))).
  - intros x Hx. rewrite Forall_forall in f. apply f, elem_of_seqZ. lia.
  - intros H. apply n0, Forall_forall. intros x Hx%elem_of_seqZ. apply H. lia.
Defined.

Lemma strlcpy_bounded_witness :
  let m := blocks [(100, [72; 101; 108; 108; 111; 0]); (200, [1; 1; 1; 1])] in
  ∃ m', strlcpy 200 100 4 m = Ok (5, m') ∧ cstr m' 200 [72; 101; 108].
Proof.
  intros m. destruct (strlcpy_bounded m 200 100 [72; 101; 108; 108; 111] 4) as (m' & E & H & _).
  - apply (bool_decide_unpack _). vm_compute. exact I.
  - reflexivity.
  - discriminate.
  - apply (bool_decide_unpack _). vm_compute. exact I.
  - right. reflexivity.
  - exists m'. exact (conj E (H eq_refl)).
Defined.

(** ** Tokens *)

(** The maximal runs of characters that are not delimiters; [w] is the run
    read so far. *)
Fixpoint words (D : list Z) (w s : list Z) : list (list Z) :=
  match s with
  | [] => if decide (w = []) then [] else [w]
  | c :: s =>
      if decide (c ∈ D) then (if decide (w = []) then words D [] s else w :: words D [] s)
      else words D (w ++ [c]) s
  end.

Lemma words_delims D ds s : Forall (λ c, c ∈ D) ds → words D [] (ds ++ s) = words D [] s.
Proof. induction 1 as [|c ds Hc _ IH]; [done|]. cbn. by rewrite decide_True. Qed.

Lemma words_token D w t s : Forall (λ c, c ∉ D) t → words D w (t ++ s) = words D (w ++ t) s.
Proof.
  intros H. revert w. induction H as [|c t Hc _ IH]; intros w; cbn [app words]; [by rewrite app_nil_r|].
  rewrite decide_False by done. rewrite IH. by rewrite <-app_assoc.
Qed.

(** The longest prefix of characters that satisfy [P]. *)
Lemma span_ex (P : Z → Prop) `{!∀ c, Decision (P c)} (s : list Z) :
  ∃ t r, s = t ++ r ∧ Forall P t ∧ match r with [] => True | c :: _ => ¬ P c end.
Proof.
  induction s as [|c s (t & r & -> & Ht & Hr)]; [by exists [], []|]. destruct (decide (P c)) as [Hc|Hc].
  - exists (c :: t), r. split_and!; [done|by constructor|done].
  - exists [], (c :: t ++ r). split_and!; [done|constructor|done].
Qed.

Section tokens.
  Context (d : Z) (D : list Z).

(** One test of a character against the delimiters. *)
Lemma delim_test {A} m b (k : Z → M mem A) :
  cstr m d D → 0 ≤ b → b < 256 →
  ∃ p, (p ← strchr d b; k p) m = k p m ∧ (p = NULL ↔ b ≠ 0 ∧ b ∉ D).
Proof.
  intros H Hb0 Hb1. exists (chr_result d (u8 b) D). rewrite (bind_ok _ _ _ _ _ (strchr_ok _ _ _ _ H)).
  split; [done|]. rewrite wrapu_small by (unfold in_u; lia). apply chr_result_null, H.
Qed.

Lemma skip_delimiters_ok fuel m p ds s :
  cstr m d D → cstr m p (ds ++ s) → Forall (λ c, c ∈ D) ds → match s with [] => True | c :: _ => c ∉ D end →
  (length ds < fuel)%nat →
  skip_delimiters fuel p d m = Ok (p + Z.of_nat (length ds), m).
Proof.
  intros HD. revert p ds. induction fuel as [|fuel IH]; intros p ds H Hds Hs Hf; [lia|]. cbn [skip_delimiters].
  rewrite (bind_ok _ _ _ _ _ (cstr_head _ _ _ H)). destruct ds as [|c ds]; cbn [app head from_option id] in *.
  - pose proof (cstr_chars _ _ _ H) as Hc. destruct s as [|c s]; cbn [head from_option id].
    + destruct (delim_test m 0 (λ q, if decide (q ≠ NULL) then if decide (0 = 0) then mret p else
        skip_delimiters fuel (p + 1) d else mret p) HD) as (q & -> & Hq); [lia..|].
      rewrite decide_True by (intros E; by apply Hq in E as [? _]). cbn. by rewrite Z.add_0_r.
    + apply Forall_cons in Hc as [Hc _]. destruct (delim_test m c (λ q, if decide (q ≠ NULL) then
        if decide (c = 0) then mret p else skip_delimiters fuel (p + 1) d else mret p) HD) as (q & -> & Hq); [lia..|].
      rewrite decide_False by (intros E; apply E, Hq; split; [lia|done]). cbn. by rewrite Z.add_0_r.
  - apply cstr_cons in H as (_ & _ & Hc0 & Hc1 & H). apply Forall_cons in Hds as [Hc Hds].
    destruct (delim_test m c (λ q, if decide (q ≠ NULL) then if decide (c = 0) then mret p else
      skip_delimiters fuel (p + 1) d else mret p) HD) as (q & -> & Hq); [lia..|].
    rewrite decide_True by (intros E; apply Hq in E; tauto). rewrite decide_False by lia.
    rewrite (IH (p + 1) ds) by (done || simpl in Hf; lia). do 2 f_equal. cbn [length]. lia.
Qed.

Lemma skip_token_ok fuel m p t s :
  cstr m d D → cstr m p (t ++ s) → Forall (λ c, c ∉ D) t → match s with [] => True | c :: _ => c ∈ D end →
  (length t < fuel)%nat →
  skip_token fuel p d m = Ok (p + Z.of_nat (length t), m).
Proof.
  intros HD. revert p t. induction fuel as [|fuel IH]; intros p t H Ht Hs Hf; [lia|]. cbn [skip_token].
  rewrite (bind_ok _ _ _ _ _ (cstr_head _ _ _ H)). destruct t as [|c t]; cbn [app head from_option id] in *.
  - assert (0 ≤ default 0 (head s) ∧ default 0 (head s) < 256) as [Hb0 Hb1].
    { destruct s; [simpl; lia|]. apply cstr_cons in H. simpl. lia. }
    destruct (delim_test m (default 0 (head s)) (λ q, if decide (q = NULL) then skip_token fuel (p + 1) d
      else mret p) HD Hb0 Hb1) as (q & -> & Hq).
    rewrite decide_False; [cbn; by rewrite Z.add_0_r|]. intros E. apply Hq in E as [E1 E2].
    by destruct s.
  - apply cstr_cons in H as (_ & _ & Hc0 & Hc1 & H). apply Forall_cons in Ht as [Hc Ht].
    destruct (delim_test m c (λ q, if decide (q = NULL) then skip_token fuel (p + 1) d else mret p) HD)
      as (q & -> & Hq); [lia..|].
    rewrite decide_True by (apply Hq; split; [lia|done]).
    rewrite (IH (p + 1) t) by (done || simpl in Hf; lia). do 2 f_equal. cbn [length]. lia.
Qed.

(** A string is delimiters, a token, and the rest after it. *)
Definition parts (s ds t r : list Z) : Prop :=
  s = ds ++ t ++ r ∧ Forall (λ c, c ∈ D) ds ∧ Forall (λ c, c ∉ D) t ∧ (t = [] → r = []) ∧
  match r with [] => True | c :: _ => c ∈ D end.

Lemma parts_ex s : ∃ ds t r, parts s ds t r.
Proof.
  destruct (span_ex (λ c, c ∈ D) s) as (ds & s1 & -> & Hds & H1).
  destruct (span_ex (λ c, c ∉ D) s1) as (t & r & -> & Ht & Hr). exists ds, t, r.
  split_and!; [done..| |].
  - intros ->. destruct r; [done|]. simpl in H1. by destruct Hr.
  - destruct r; [done|]. by apply dec_stable in Hr.
Qed.

Lemma parts_words s ds t r :
  parts s ds t r →
  words D [] s = match t with [] => [] | _ => t :: words D [] (tail r) end.
Proof.
  intros (-> & Hds & Ht & Htr & Hr). rewrite words_delims, words_token by done. cbn [app].
  destruct t as [|c t]; [by rewrite (Htr eq_refl)|]. destruct r as [|c' r]; cbn [words tail].
  - by rewrite decide_False.
  - by rewrite decide_True, decide_False.
Qed.

Lemma skip_head s ds t r : parts s ds t r → match t ++ r with [] => True | c :: _ => c ∉ D end.
Proof.
  intros (_ & _ & Ht & Htr & _). destruct t as [|c t]; [by rewrite (Htr eq_refl)|]. by apply Forall_cons in Ht as [? _].
Qed.

Lemma strtok_r_ok m p s ds t r sarg save :
  cstr m d D → cstr m p s → parts s ds t r → (if decide (sarg = NULL) then save else sarg) = p →
  let e := p + Z.of_nat (length ds) + Z.of_nat (length t) in
  strtok_r sarg d save m =
    match t, r with
    | [], _ => Ok ((NULL, p + Z.of_nat (length ds)), m)
    | _, [] => Ok ((p + Z.of_nat (length ds), e), m)
    | _, _ => Ok ((p + Z.of_nat (length ds), e + 1), <[e := 0]> m)
    end.
Proof.
  intros HD H Hp Hs e. pose proof (skip_head _ _ _ _ Hp) as Hh. destruct Hp as (-> & Hds & Ht & Htr & Hr).
  unfold strtok_r. rewrite Hs. pose proof H as (Hp0 & _). pose proof HD as (Hd0 & _).
  rewrite !bool_decide_eq_true_2 by (unfold NULL; lia). rewrite !(bind_ok _ _ _ _ m eq_refl).
  pose proof (cstr_size _ _ _ H) as Hz. rewrite !length_app in Hz.
  rewrite (bind_ok _ _ _ _ _ (skip_delimiters_ok (S (size m)) m p ds (t ++ r) HD H Hds Hh ltac:(lia))).
  pose proof (cstr_suffix _ _ _ _ H) as H1. rewrite (bind_ok _ _ _ _ _ (cstr_head _ _ _ H1)).
  destruct t as [|c t]; [by rewrite (Htr eq_refl)|]. cbn [app head from_option id].
  assert (c ≠ 0) as Hc by (apply cstr_cons in H1; lia). rewrite decide_False by done.
  rewrite bound_ok. rewrite (bind_ok _ _ _ _ _ (skip_token_ok (S (size m)) m _ (c :: t) r HD H1 Ht Hr ltac:(lia))).
  fold e. pose proof (cstr_suffix _ _ (c :: t) r H1) as H2. fold e in H2. rewrite (bind_ok _ _ _ _ _ (cstr_head _ _ _ H2)).
  destruct r as [|c' r]; cbn [head from_option id]; [done|].
  apply cstr_cons in H2 as (_ & E & Hc0 & _). rewrite decide_True by lia.
  by rewrite (bind_ok _ _ _ _ _ (wr8_ok m e 0 (mk_is_Some _ _ E))).
Qed.

Lemma cstr_ext m m' a s :
  cstr m a s → (∀ x, a ≤ x ∧ x ≤ a + Z.of_nat (length s) → m' !! x = m !! x) → cstr m' a s.
Proof.
  intros (Ha & Hb & Hc) Hx. split_and!; [done| |done]. intros i b E. rewrite Hx; [by apply Hb|].
  apply lookup_lt_Some in E. rewrite length_app in E. simpl in E. lia.
Qed.

(** The loop of the comment of [strtok_r]: the tokens of a string. *)
Fixpoint strtok_all (fuel : nat) (s save : Z) : M mem (list Z) :=
  match fuel with
  | O => fail OutOfFuel
  | S fuel =>
      '(token, save) ← strtok_r s d save;
      if decide (token = NULL) then mret [] else ts ← strtok_all fuel NULL save; mret (token :: ts)
  end.

(** Memory and delimiters after a token has been cut off. *)
Lemma strtok_cut m p s ds t c r :
  cstr m p s → parts s ds t (c :: r) →
  let e := p + Z.of_nat (length ds) + Z.of_nat (length t) in
  cstr (<[e := 0]> m) (p + Z.of_nat (length ds)) t ∧ cstr (<[e := 0]> m) (e + 1) r.
Proof.
  intros H (-> & _) e. apply cstr_suffix in H as H1. apply cstr_suffix in H1 as H2. fold e in H2.
  apply cstr_cons in H2 as (He & _ & _ & _ & H2). split.
  - destruct H1 as (Hq & Hb & Hc). apply Forall_app in Hc as [Hc _]. rewrite <-app_assoc in Hb.
    apply bytes_at_app in Hb as [Hb _]. split_and!; [done| |done]. apply bytes_at_app. split.
    + apply bytes_at_insert; [done|]. unfold e. lia.
    + apply bytes_at_cons. split; [apply lookup_insert_eq|by intros i b].
  - eapply cstr_ext; [exact H2|]. intros x Hx. rewrite lookup_insert_ne by lia. done.
Qed.

Lemma cstr_delims m p n e :
  cstr m d D → d + Z.of_nat (length D) < p ∨ p + n ≤ d → p ≤ e ∧ e < p + n → cstr (<[e := 0]> m) d D.
Proof. intros H Ho He. eapply cstr_ext; [done|]. intros x Hx. rewrite lookup_insert_ne by lia. done. Qed.

Lemma strtok_all_ok fuel s m p sarg save :
  (length s < fuel)%nat → cstr m d D → cstr m p s →
  d + Z.of_nat (length D) < p ∨ p + Z.of_nat (length s) ≤ d →
  (if decide (sarg = NULL) then save else sarg) = p →
  ∃ ts m', strtok_all fuel sarg save m = Ok (ts, m') ∧ Forall2 (cstr m') ts (words D [] s) ∧
    ∀ x, x < p ∨ p + Z.of_nat (length s) ≤ x → m' !! x = m !! x.
Proof.
  revert s m p sarg save. induction fuel as [|fuel IH]; intros s m p sarg save Hf HD H Ho Hs; [lia|].
  destruct (parts_ex s) as (ds & t & r & Hp). cbn [strtok_all]. cbv [mbind M_bind].
  rewrite (strtok_r_ok m p s ds t r) by done. rewrite (parts_words _ _ _ _ Hp).
  pose proof Hp as (Es & _). assert (length s = length ds + length t + length r)%nat as Hl
    by (rewrite Es, !length_app; lia).
  pose proof H as (Hp0 & _). destruct t as [|c t].
  { exists [], m. by split; [|split]. }
  set (q := p + Z.of_nat (length ds)) in *. set (e := q + Z.of_nat (length (c :: t))) in *.
  assert (q ≠ NULL) as Hq by (unfold q, NULL; lia).
  destruct r as [|c' r]; cbn [tail]; cbn iota beta; rewrite decide_False by done.
  - assert (cstr m q (c :: t)) as H1 by (rewrite Es, app_nil_r in H; by apply cstr_suffix in H).
    destruct (IH [] m e NULL e) as (ts & m' & E & Ht & Hx); try done.
    + simpl in Hl. simpl. lia.
    + rewrite <-(app_nil_r (c :: t)) in H1. by apply cstr_suffix in H1.
    + cbn [length] in *. unfold e, q. cbn [length]. lia.
    + cbv [mbind M_bind] in E. rewrite E. exists (q :: ts), m'. split_and!; [done| |].
      * constructor; [|done]. eapply cstr_ext; [exact H1|]. intros x Hy. apply Hx. simpl. lia.
      * intros x Hy. apply Hx. simpl. lia.
  - destruct (strtok_cut m p s ds (c :: t) c' r H Hp) as [H1 H2]. fold q in H1, H2. fold e in H1, H2.
    assert (p ≤ e ∧ e < p + Z.of_nat (length s)) as He by (cbn [length] in *; unfold e, q; cbn [length]; lia).
    destruct (IH r (<[e := 0]> m) (e + 1) NULL (e + 1)) as (ts & m' & E & Ht & Hx); try done.
    + cbn [length] in *. lia.
    + by eapply cstr_delims.
    + cbn [length] in *. unfold e, q in *. cbn [length] in *. lia.
    + cbv [mbind M_bind] in E. rewrite E. exists (q :: ts), m'. split_and!; [done| |].
      * constructor; [|done]. eapply cstr_ext; [exact H1|]. intros x Hy. apply Hx. lia.
      * intros x Hy. rewrite Hx by (cbn [length] in *; lia). by rewrite lookup_insert_ne by lia.
Qed.
Lemma words_length w s : (length (words D w s) ≤ length s + (if decide (w = []) then 0 else 1))%nat.
Proof.
  revert w. induction s as [|c s IH]; intros w; cbn [words length]; [case_decide; simpl; lia|].
  destruct (decide (c ∈ D)).
  - specialize (IH []). rewrite decide_True in IH by done. case_decide; simpl; lia.
  - specialize (IH (w ++ [c])). rewrite decide_False in IH by (by destruct w). case_decide; lia.
Qed.

Lemma words_tail r : match r with [] => True | c :: _ => c ∈ D end → words D [] (tail r) = words D [] r.
Proof. destruct r as [|c r]; [done|]. intros Hc. cbn [tail words]. by rewrite decide_True. Qed.

Lemma strtok_c_loop_ok fuel m p t r num :
  cstr m d D → cstr m p (t ++ r) → Forall (λ c, c ∉ D) t → t ≠ [] → match r with [] => True | c :: _ => c ∈ D end →
  (length t + length r ≤ fuel)%nat → 0 ≤ num → num + 1 + Z.of_nat (length r) < 2 ^ 31 →
  strtok_c_loop fuel p d num m = Ok (num + 1 + Z.of_nat (length (words D [] r)), m).
Proof.
  intros HD. revert p t r num. induction fuel as [|fuel IH]; intros p t r num H Ht Hne Hr Hf Hn Hb.
  { destruct t; [done|]. simpl in Hf. lia. }
  cbn [strtok_c_loop]. rewrite bound_ok. pose proof (cstr_size _ _ _ H) as Hz. rewrite length_app in Hz.
  rewrite (bind_ok _ _ _ _ _ (skip_token_ok (S (size m)) m p t r HD H Ht Hr ltac:(lia))).
  apply cstr_suffix in H. destruct (parts_ex r) as (ds & t' & r' & Hp). pose proof (skip_head _ _ _ _ Hp) as Hh.
  pose proof (parts_words _ _ _ _ Hp) as Hw. destruct Hp as (Er & Hds & Ht' & Htr & Hr').
  rewrite Er in H, Hz, Hf, Hb. rewrite !length_app in Hz, Hf, Hb. rewrite bound_ok.
  rewrite (bind_ok _ _ _ _ _ (skip_delimiters_ok (S (size m)) m _ ds (t' ++ r') HD H Hds Hh ltac:(lia))).
  apply cstr_suffix in H. rewrite (bind_ok _ _ _ _ _ (cstr_head _ _ _ H)). rewrite Hw.
  rewrite wraps_small by (unfold in_s; lia). destruct t' as [|c t'].
  - rewrite (Htr eq_refl). cbn [app head from_option id]. rewrite decide_True by done. cbn [length].
    rewrite wrapu_small by (unfold in_u; lia). by rewrite Z.add_0_r.
  - cbn [app head from_option id]. assert (c ≠ 0) by (apply cstr_cons in H; lia). rewrite decide_False by done.
    rewrite (IH _ (c :: t') r'); try done.
    + rewrite (words_tail r') by done. do 2 f_equal. cbn [length]. lia.
    + destruct t; [done|]. cbn [length] in *. lia.
    + lia.
    + cbn [length] in *. lia.
Qed.

Lemma strtok_c_ok m p s :
  cstr m d D → cstr m p s → Z.of_nat (length s) < 2 ^ 31 →
  strtok_c p d m = Ok (Z.of_nat (length (words D [] s)), m).
Proof.
  intros HD H Hl. pose proof H as (Hp0 & _). pose proof HD as (Hd0 & _). unfold strtok_c.
  rewrite bool_decide_eq_true_2 by (unfold NULL; lia). rewrite (bind_ok _ _ _ _ m eq_refl).
  rewrite decide_False by (unfold NULL; lia). rewrite bound_ok. pose proof (cstr_size _ _ _ H) as Hz.
  destruct (parts_ex s) as (ds & t & r & Hp). pose proof (skip_head _ _ _ _ Hp) as Hh.
  pose proof (parts_words _ _ _ _ Hp) as Hw. destruct Hp as (Es & Hds & Ht & Htr & Hr).
  rewrite Es in H, Hz, Hl. rewrite !length_app in Hz, Hl.
  rewrite (bind_ok _ _ _ _ _ (skip_delimiters_ok (S (size m)) m p ds (t ++ r) HD H Hds Hh ltac:(lia))).
  apply cstr_suffix in H. rewrite (bind_ok _ _ _ _ _ (cstr_head _ _ _ H)). rewrite Hw. destruct t as [|c t].
  - by rewrite (Htr eq_refl).
  - cbn [app head from_option id]. assert (c ≠ 0) by (apply cstr_cons in H; lia). rewrite decide_False by done.
    rewrite bound_ok. rewrite (strtok_c_loop_ok _ m _ (c :: t) r); try done; cbn [length] in *; [|lia..].
    rewrite words_tail by done. do 2 f_equal. lia.
Qed.
End tokens.

(** Calling [strtok_r] until it returns null cuts a string into its maximal
    runs of characters that are not delimiters, each one a terminated string at
    the returned pointer; memory outside the string is untouched.  [strtok_c]
    counts exactly these tokens and changes nothing. *)
Theorem strtok_splits m p s d D save :
  cstr m d D → cstr m p s → d + Z.of_nat (length D) < p ∨ p + Z.of_nat (length s) ≤ d →
  Z.of_nat (length s) < 2 ^ 31 →
  strtok_c p d m = Ok (Z.of_nat (length (words D [] s)), m) ∧
  ∃ ts m', strtok_all d (S (length s)) p save m = Ok (ts, m') ∧
    Forall2 (cstr m') ts (words D [] s) ∧
    ∀ x, x < p ∨ p + Z.of_nat (length s) ≤ x → m' !! x = m !! x.
Proof.
  intros HD H Ho Hl. split; [by apply strtok_c_ok|]. apply (strtok_all_ok d D); [lia|done..|].
  rewrite decide_False; [done|]. destruct H as (? & _). unfold NULL. lia.
Qed.

(** "  ab c " with the delimiter " ". *)
Lemma strtok_splits_witness :
  let m := blocks [(100, [32; 32; 97; 98; 32; 99; 32; 0]); (200, [32; 0])] in
  strtok_c 100 200 m = Ok (2, m) ∧
  ∃ ts m', strtok_all 200 8 100 0 m = Ok (ts, m') ∧ Forall2 (cstr m') ts [[97; 98]; [99]].
Proof.
  intros m. destruct (strtok_splits m 100 [32; 32; 97; 98; 32; 99; 32] 200 [32] 0) as (E & ts & m' & E' & H & _).
  - apply (bool_decide_unpack _). vm_compute. exact I.
  - apply (bool_decide_unpack _). vm_compute. exact I.
  - right. vm_compute. discriminate.
  - reflexivity.
  - split; [exact E|]. exists ts, m'. exact (conj E' H).
Defined.

(** ** Comparing and searching *)

(** The sign of the first difference, the terminators included. *)
Fixpoint compare_bytes (s t : list Z) : Z :=
  match s, t with
  | b :: s, c :: t => if decide (b = c) then compare_bytes s t else if decide (b < c) then -1 else 1
  | [], _ :: _ => -1
  | _ :: _, [] => 1
  | [], [] => 0
  end.

Lemma compare_bytes_eq s t : compare_bytes s t = 0 ↔ s = t.
Proof.
  revert t. induction s as [|b s IH]; intros [|c t]; cbn; try done. case_decide as E.
  - rewrite IH. naive_solver.
  - case_decide; naive_solver.
Qed.

Lemma strcmp_loop_ok fuel m a b s t :
  cstr m a s → cstr m b t → (length s < fuel)%nat → strcmp_loop fuel a b m = Ok (compare_bytes s t, m).
Proof.
  revert a b s t. induction fuel as [|fuel IH]; intros a b s t Hs Ht Hf; [lia|]. cbn [strcmp_loop].
  rewrite (bind_ok _ _ _ _ _ (cstr_head _ _ _ Hs)), (bind_ok _ _ _ _ _ (cstr_head _ _ _ Ht)).
  pose proof (cstr_chars _ _ _ Hs) as Cs. pose proof (cstr_chars _ _ _ Ht) as Ct.
  destruct s as [|x s], t as [|y t]; cbn [head from_option id compare_bytes length] in *;
    rewrite ?Forall_cons in Cs; rewrite ?Forall_cons in Ct.
  - done.
  - rewrite decide_False, decide_True by lia. done.
  - rewrite decide_False, decide_False, decide_True by lia. done.
  - destruct (decide (x = y)) as [->|Hne].
    + rewrite decide_True by lia. apply cstr_cons in Hs, Ht. apply IH; [tauto..|lia].
    + rewrite decide_False by lia. destruct (decide (x < y)); [done|]. by rewrite decide_True by lia.
Qed.

Lemma strcmp_ok m a b s t : cstr m a s → cstr m b t → strcmp a b m = Ok (compare_bytes s t, m).
Proof.
  intros Hs Ht. pose proof Hs as (Ha & _). pose proof Ht as (Hb & _). unfold strcmp.
  rewrite !bool_decide_eq_true_2 by (unfold NULL; lia). rewrite !(bind_ok _ _ _ _ m eq_refl).
  pose proof (cstr_size _ _ _ Hs). by apply strcmp_loop_ok; [..|lia].
Qed.

Lemma memcmp_loop_ok s t a b m :
  bytes_at m a s → bytes_at m b t → length s = length t → memcmp_loop a b (length s) m = Ok (compare_bytes s t, m).
Proof.
  revert t a b. induction s as [|x s IH]; intros [|y t] a b Hs Ht Hl; try done. cbn [memcmp_loop length compare_bytes].
  apply bytes_at_cons in Hs as [Ex Hs]. apply bytes_at_cons in Ht as [Ey Ht].
  rewrite (bind_ok _ _ _ _ _ (rd8_ok _ _ _ Ex)), (bind_ok _ _ _ _ _ (rd8_ok _ _ _ Ey)).
  destruct (decide (x = y)) as [->|Hne].
  - rewrite decide_False by auto. apply IH; [done..|]. by injection Hl.
  - rewrite decide_True by done. unfold mret, M_ret. do 2 f_equal. repeat case_decide; lia.
Qed.

Lemma memcmp_ok s t a b m :
  bytes_at m a s → bytes_at m b t → length s = length t → 0 < a → 0 < b →
  memcmp a b (Z.of_nat (length s)) m = Ok (compare_bytes s t, m).
Proof.
  intros Hs Ht Hl Ha Hb. unfold memcmp. rewrite !nonnull_ok by (unfold NULL; lia).
  rewrite !(bind_ok _ _ _ _ m eq_refl), Nat2Z.id. by apply memcmp_loop_ok.
Qed.

(** [t] occurs in [s] at position [i]. *)
Definition occurs (t s : list Z) (i : nat) : Prop := (i + length t ≤ length s)%nat ∧ take (length t) (drop i s) = t.
#[export] Instance occurs_dec t s i : Decision (occurs t s i).
Proof. unfold occurs. apply _. Defined.

Lemma strstr_loop_ok m h n s t k i :
  cstr m h s → cstr m n t → (i + k + length t = length s + 1)%nat →
  strstr_loop h n (Z.of_nat (length t)) (Z.of_nat i) k m =
    Ok (match list_find (occurs t s) (seq i k) with Some (_, j) => h + Z.of_nat j | None => NULL end, m).
Proof.
  intros Hs Ht. revert i. induction k as [|k IH]; intros i Hk; [done|]. cbn [strstr_loop seq list_find].
  assert (bytes_at m (h + Z.of_nat i) (take (length t) (drop i s))) as Hb.
  { destruct Hs as (_ & Hb & _). rewrite <-(take_drop i s), <-app_assoc in Hb. apply bytes_at_app in Hb as [_ Hb].
    rewrite length_take in Hb. replace (i `min` length s)%nat with i in Hb by lia.
    rewrite <-(take_drop (length t) (drop i s)), <-app_assoc in Hb. by apply bytes_at_app in Hb as [? _]. }
  assert (length (take (length t) (drop i s)) = length t) as Hl by (rewrite length_take, length_drop; lia).
  pose proof Hs as (Hh & _). pose proof Ht as (Hn & Hbt & _). apply bytes_at_app in Hbt as [Hbt _].
  pose proof (memcmp_ok _ t (h + Z.of_nat i) n m Hb Hbt Hl ltac:(lia) Hn) as E. rewrite Hl in E.
  rewrite (bind_ok _ _ _ _ _ E). destruct (decide (occurs t s i)) as [[H1 H2]|Ho].
  - rewrite decide_True by (by apply compare_bytes_eq). done.
  - rewrite decide_False. 2: { intros Hc%compare_bytes_eq. apply Ho. split; [lia|done]. }
    replace (Z.of_nat i + 1) with (Z.of_nat (S i)) by lia. rewrite IH by lia.
    by destruct (list_find _ (seq (S i) k)) as [[]|].
Qed.

(** [strstr] returns a pointer to the first occurrence of the needle in the
    haystack, or null when there is none, and changes nothing. *)
Theorem strstr_first m h n s t :
  cstr m h s → cstr m n t →
  (∃ i, strstr h n m = Ok (h + Z.of_nat i, m) ∧ occurs t s i ∧ ∀ j, (j < i)%nat → ¬ occurs t s j) ∨
  (strstr h n m = Ok (NULL, m) ∧ ∀ j, ¬ occurs t s j).
Proof.
  intros Hs Ht. unfold strstr. rewrite (bind_ok _ _ _ _ _ (strlen_ok _ _ _ Hs)), (bind_ok _ _ _ _ _ (strlen_ok _ _ _ Ht)).
  destruct (decide _) as [Hl|Hl]; [|right; split; [done|intros j [? _]; lia]].
  set (k := Z.to_nat _). assert (0 + k + length t = length s + 1)%nat as Hk by (unfold k; lia).
  pose proof (strstr_loop_ok m h n s t k 0 Hs Ht Hk) as E. change (Z.of_nat 0) with 0 in E. rewrite E.
  destruct (list_find (occurs t s) (seq 0 k)) as [[i j]|] eqn:Ef.
  - left. exists j. apply list_find_Some in Ef as (Ei & Ho & Hf). apply lookup_seq in Ei as [-> Hi].
    split_and!; [done..|]. intros l Hl'. apply (Hf l); [|lia]. apply lookup_seq. lia.
  - right. split; [done|]. intros j Ho. apply list_find_None in Ef. rewrite Forall_forall in Ef.
    apply (Ef j); [|done]. apply elem_of_seq. destruct Ho. lia.
Qed.

Lemma strstr_first_witness :
  let m := blocks [(100, [97; 98; 97; 99; 0]); (200, [97; 99; 0])] in strstr 100 200 m = Ok (102, m).
Proof.
  intros m. destruct (strstr_first m 100 200 [97; 98; 97; 99] [97; 99]) as [(i & E & Ho & Hf)|[E Hf]].
  - apply (bool_decide_unpack _). vm_compute. exact I.
  - apply (bool_decide_unpack _). vm_compute. exact I.
  - vm_compute. reflexivity.
  - exfalso. apply (Hf 2%nat). apply (bool_decide_unpack _). vm_compute. exact I.
Defined.

Lemma memset_ok v n dst m :
  mapped m dst (Z.of_nat n) → 0 < dst →
  memset dst v (Z.of_nat n) m = Ok (dst, store dst (replicate n (u8 v)) m).
Proof.
  intros Hm Hd. unfold memset. rewrite nonnull_ok by (unfold NULL; lia). rewrite (bind_ok _ _ _ _ m eq_refl), Nat2Z.id.
  assert (memset_loop dst v n m = Ok (tt, store dst (replicate n (u8 v)) m)) as E; [|by rewrite (bind_ok _ _ _ _ _ E)].
  clear Hd. revert dst m Hm. induction n as [|n IH]; intros dst m Hm; [done|]. cbn [memset_loop replicate store].
  rewrite (bind_ok _ _ _ _ _ (wr8_ok m dst (u8 v) (Hm dst ltac:(lia)))). apply IH. intros x Hx.
  rewrite lookup_insert_ne by lia. apply Hm. lia.
Qed.

(** [strspn] and [strcspn] measure the longest prefix of characters in, or not
    in, a set. *)
Lemma strspn_loop_ok fuel m a b t r l D :
  cstr m b D → cstr m (a + l) (t ++ r) → Forall (λ c, c ∈ D) t → match r with [] => True | c :: _ => c ∉ D end →
  (length t < fuel)%nat → strspn_loop fuel a b l m = Ok (l + Z.of_nat (length t), m).
Proof.
  intros HD. revert t l. induction fuel as [|fuel IH]; intros t l H Ht Hr Hf; [lia|]. cbn [strspn_loop].
  rewrite (bind_ok _ _ _ _ _ (cstr_head _ _ _ H)). destruct t as [|c t]; cbn [app head from_option id] in *.
  - destruct r as [|c r]; cbn [head from_option id]; [by rewrite Z.add_0_r|].
    apply cstr_cons in H as (_ & _ & Hc0 & Hc1 & _). rewrite decide_False by lia.
    rewrite (bind_ok _ _ _ _ _ (strchr_ok _ _ _ _ HD)). rewrite wrapu_small by (unfold in_u; lia).
    rewrite decide_True by (apply chr_result_null; [apply HD|split; [lia|done]]). by rewrite Z.add_0_r.
  - apply cstr_cons in H as (_ & _ & Hc0 & Hc1 & H). apply Forall_cons in Ht as [Hc Ht]. rewrite decide_False by lia.
    rewrite (bind_ok _ _ _ _ _ (strchr_ok _ _ _ _ HD)). rewrite wrapu_small by (unfold in_u; lia).
    rewrite decide_False by (intros E; apply chr_result_null in E; [tauto|apply HD]).
    rewrite <-Z.add_assoc in H. rewrite (IH t) by (done || simpl in Hf; lia). do 2 f_equal. cbn [length]. lia.
Qed.

Lemma strspn_ok m a b t r D :
  cstr m b D → cstr m a (t ++ r) → Forall (λ c, c ∈ D) t → match r with [] => True | c :: _ => c ∉ D end →
  strspn a b m = Ok (Z.of_nat (length t), m).
Proof.
  intros HD H Ht Hr. unfold strspn. rewrite bound_ok. pose proof (cstr_size _ _ _ H) as Hz. rewrite length_app in Hz.
  rewrite (strspn_loop_ok _ m a b t r 0 D); [done|done|by rewrite Z.add_0_r|done|done|lia].
Qed.

Lemma strcspn_loop_ok fuel m a b t r l D :
  cstr m b D → cstr m (a + l) (t ++ r) → Forall (λ c, c ∉ D) t → match r with [] => True | c :: _ => c ∈ D end →
  (length t < fuel)%nat → strcspn_loop fuel a b l m = Ok (l + Z.of_nat (length t), m).
Proof.
  intros HD. revert t l. induction fuel as [|fuel IH]; intros t l H Ht Hr Hf; [lia|]. cbn [strcspn_loop].
  rewrite (bind_ok _ _ _ _ _ (cstr_head _ _ _ H)). destruct t as [|c t]; cbn [app head from_option id] in *.
  - destruct r as [|c r]; cbn [head from_option id]; [by rewrite Z.add_0_r|].
    apply cstr_cons in H as (_ & _ & Hc0 & Hc1 & _). rewrite decide_False by lia.
    rewrite (bind_ok _ _ _ _ _ (strchr_ok _ _ _ _ HD)). rewrite wrapu_small by (unfold in_u; lia).
    rewrite decide_True by (intros E; apply chr_result_null in E; [tauto|apply HD]). by rewrite Z.add_0_r.
  - apply cstr_cons in H as (_ & _ & Hc0 & Hc1 & H). apply Forall_cons in Ht as [Hc Ht]. rewrite decide_False by lia.
    rewrite (bind_ok _ _ _ _ _ (strchr_ok _ _ _ _ HD)). rewrite wrapu_small by (unfold in_u; lia).
    assert (chr_result b c D = NULL) as -> by (apply chr_result_null; [apply HD|split; [lia|done]]). rewrite decide_False by tauto.
    rewrite <-Z.add_assoc in H. rewrite (IH t) by (done || simpl in Hf; lia). do 2 f_equal. cbn [length]. lia.
Qed.

Lemma strcspn_ok m a b t r D :
  cstr m b D → cstr m a (t ++ r) → Forall (λ c, c ∉ D) t → match r with [] => True | c :: _ => c ∈ D end →
  strcspn a b m = Ok (Z.of_nat (length t), m).
Proof.
  intros HD H Ht Hr. unfold strcspn. rewrite bound_ok. pose proof (cstr_size _ _ _ H) as Hz. rewrite length_app in Hz.
  rewrite (strcspn_loop_ok _ m a b t r 0 D); [done|done|by rewrite Z.add_0_r|done|done|lia].
Qed.

Lemma strnlen_ok m a s n : cstr m a s → 0 ≤ n → strnlen a n m = Ok (Z.of_nat (length s) `min` n, m).
Proof.
  intros H Hn. unfold strnlen. rewrite bound_ok. pose proof (cstr_size _ _ _ H) as Hz. pose proof (cstr_chars _ _ _ H) as Hc.
  assert (∀ t u fuel, s = t ++ u → (length u < fuel)%nat → Z.of_nat (length t) ≤ n →
    strnlen_loop fuel a (Z.of_nat (length t)) n m = Ok (Z.of_nat (length s) `min` n, m)) as Hl.
  { intros t u fuel. revert t u. induction fuel as [|fuel IH]; intros t u E Hf Ht; [lia|]. cbn [strnlen_loop].
    assert (cstr m (a + Z.of_nat (length t)) u) as Hu by (rewrite E in H; by apply cstr_suffix in H).
    rewrite (bind_ok _ _ _ _ _ (cstr_head _ _ _ Hu)). destruct u as [|b u]; cbn [head from_option id].
    - rewrite decide_False by tauto. rewrite E, app_nil_r. unfold mret, M_ret. do 2 f_equal. lia.
    - apply cstr_cons in Hu as (_ & _ & Hb0 & _). destruct (decide (Z.of_nat (length t) < n)).
      + rewrite decide_True by lia. replace (Z.of_nat (length t) + 1) with (Z.of_nat (length (t ++ [b]))) by (rewrite length_app; simpl; lia).
        apply (IH (t ++ [b]) u); [by rewrite <-app_assoc|simpl in Hf; lia|rewrite length_app; simpl; lia].
      + rewrite decide_False by lia. rewrite E, length_app. simpl. unfold mret, M_ret. do 2 f_equal. lia. }
  apply (Hl [] s); [done|lia|done].
Qed.

(** [strnlen] reads the byte at MAXLEN before it compares the length: on a
    block of MAXLEN characters without a terminator it reads one byte too many. *)
Lemma strnlen_reads_past m a s :
  bytes_at m a s → Forall (λ b, b ≠ 0) s → m !! (a + Z.of_nat (length s)) = None →
  strnlen a (Z.of_nat (length s)) m = Err BadAccess.
Proof.
  intros Hb Hs Hn. unfold strnlen. rewrite bound_ok. pose proof (bytes_at_size _ _ _ Hb).
  assert (∀ t u fuel, s = t ++ u → (length u < fuel)%nat →
    strnlen_loop fuel a (Z.of_nat (length t)) (Z.of_nat (length s)) m = Err BadAccess) as Hl.
  { intros t u fuel. revert t u. induction fuel as [|fuel IH]; intros t u -> Hf; [lia|]. cbn [strnlen_loop].
    destruct u as [|b u].
    - apply bind_err. unfold rd8. rewrite app_nil_r in Hn. by rewrite Hn.
    - apply bytes_at_app in Hb as [_ [Eb _]%bytes_at_cons]. rewrite (bind_ok _ _ _ _ _ (rd8_ok _ _ _ Eb)).
      apply Forall_app in Hs as [_ [Hb0 _]%Forall_cons]. rewrite decide_True by (rewrite length_app; simpl; lia).
      replace (Z.of_nat (length t) + 1) with (Z.of_nat (length (t ++ [b]))) by (rewrite length_app; simpl; lia).
      apply (IH (t ++ [b]) u); [by rewrite <-app_assoc|simpl in Hf; lia]. }
  apply (Hl [] s); [done|lia].
Qed.
