(* ===== verification/CStdlib.v ===== *)
(** * Sorting, searching and numbers

    lib/stdlib.c: heap sort and binary search on an array of elements that a
    client function compares, and [atoi] on a string in memory.  [do_swap] and
    the comparisons address whole elements, so the array is the list of its
    elements and [size] does not appear. *)

From Stdlib Require Import Sorting.Sorted.
From S2P Require Import Prelude CString.

(** ** lib/ctype.h *)

Definition isdigit (c : Z) : bool := bool_decide (48 ≤ c ∧ c ≤ 57).
Definition isspace (c : Z) : bool :=
  bool_decide (c = 32 ∨ c = 12 ∨ c = 10 ∨ c = 13 ∨ c = 9 ∨ c = 11).

(** ** lib/stdlib.c: atoi *)

Fixpoint skip_space (fuel : nat) (s : Z) : M mem Z :=
  match fuel with
  | O => fail OutOfFuel
  | S fuel => c ← rd8 s; if isspace c then skip_space fuel (s + 1) else mret s
  end.

(** A character is read as a signed [char]; only digits matter here. *)
Fixpoint atoi_digits (fuel : nat) (s value : Z) : M mem Z :=
  match fuel with
  | O => fail OutOfFuel
  | S fuel =>
      c ← rd8 s;
      if isdigit c then atoi_digits fuel (s + 1) (i32 (i32 (value * 10) - (c - 48))) else mret value
  end.

Definition atoi (s : Z) : M mem Z :=
  assert (bool_decide (s ≠ NULL));;
  n ← bound;
  s ← skip_space n s;
  c ← rd8 s;
  let '(negative, s) :=
    if decide (c = 43) then (false, s + 1) else if decide (c = 45) then (true, s + 1) else (false, s) in
  value ← atoi_digits n s 0;
  mret (if negative : bool then value else i32 (- value)).

(** ** lib/stdlib.c: heap sort *)

Section sort.
  Context {E : Type} (compare : E → E → Z).

(** Elements have 1-based indexes. *)
Definition elem (array : list E) (idx : nat) : result E :=
  match array !! (idx - 1)%nat with Some x => Ok x | None => Err BadAccess end.

Definition do_swap (array : list E) (a_idx b_idx : nat) : result (list E) :=
  a ← elem array a_idx; b ← elem array b_idx;
  Ok (<[(b_idx - 1)%nat := a]> (<[(a_idx - 1)%nat := b]> array)).

Definition do_compare (array : list E) (a_idx b_idx : nat) : result Z :=
  a ← elem array a_idx; b ← elem array b_idx; Ok (compare a b).

(** The larger of two elements, the second one if it is within [cnt] and
    strictly larger. *)
Definition larger (array : list E) (cnt max child : nat) : result nat :=
  if decide (child ≤ cnt)%nat then
    c ← do_compare array child max; Ok (if decide (c > 0) then child else max)
  else Ok max.

Fixpoint heapify (fuel : nat) (array : list E) (i cnt : nat) : result (list E) :=
  match fuel with
  | O => Err OutOfFuel
  | S fuel =>
      let left := (2 * i)%nat in
      let right := (2 * i + 1)%nat in
      max ← larger array cnt i left;
      max ← larger array cnt max right;
      if decide (max = i) then Ok array
      else array ← do_swap array i max; heapify fuel array max cnt
  end.

(** [heapify] with a bound that is enough: the index grows up to [cnt]. *)
Definition heapify_at (array : list E) (i cnt : nat) : result (list E) := heapify (S cnt) array i cnt.

Fixpoint build_heap (array : list E) (cnt i : nat) : result (list E) :=
  match i with
  | O => Ok array
  | S i' => array ← heapify_at array i cnt; build_heap array cnt i'
  end.

(** The second loop; [i] counts down to 1. *)
Fixpoint sort_heap (array : list E) (i : nat) : result (list E) :=
  match i with
  | O | 1%nat => Ok array
  | S i' => array ← do_swap array 1 i; array ← heapify_at array 1 i'; sort_heap array i'
  end.

Definition sort (array : list E) : result (list E) :=
  let cnt := length array in
  array ← build_heap array cnt (cnt / 2)%nat; sort_heap array cnt.

Definition qsort (array : list E) : result (list E) := sort array.
End sort.

(** ** lib/stdlib.c: binary search *)

Section search.
  Context {K E : Type} (compare : K → E → Z).

(** [first] and [last] are indexes of elements; the result is the index of the
    element found, [None] for a null pointer. *)
Fixpoint binary_search_loop (fuel : nat) (key : K) (array : list E) (first last : nat) : result (option nat) :=
  match fuel with
  | O => Err OutOfFuel
  | S fuel =>
      if decide (first < last)%nat then
        let range := (last - first)%nat in
        let middle := (first + range / 2)%nat in
        match array !! middle with
        | None => Err BadAccess
        | Some x =>
            let cmp := compare key x in
            if decide (cmp < 0) then binary_search_loop fuel key array first middle
            else if decide (cmp > 0) then binary_search_loop fuel key array (middle + 1) last
            else Ok (Some middle)
        end
      else Ok None
  end.

Definition binary_search (key : K) (array : list E) : result (option nat) :=
  binary_search_loop (S (length array)) key array 0 (length array).
Definition bsearch (key : K) (array : list E) : result (option nat) := binary_search key array.
End search.

(** ** Heap sort is correct *)

(** A comparison function of the [strcmp] kind. *)
Class TotalCompare {E} (compare : E → E → Z) : Prop := {
  tc_sign x y : compare x y > 0 ↔ compare y x < 0;
  tc_trans x y z : compare x y ≤ 0 → compare y z ≤ 0 → compare x z ≤ 0
}.

Section heap.
  Context {E : Type} (compare : E → E → Z) `{!TotalCompare compare}.

Definition below (x y : E) : Prop := compare x y ≤ 0.

Lemma below_refl x : below x x.
Proof. unfold below. pose proof (tc_sign x x). lia. Qed.
Lemma below_trans x y z : below x y → below y z → below x z.
Proof. apply tc_trans. Qed.
Lemma above_below x y : compare x y > 0 → below y x.
Proof. unfold below. pose proof (tc_sign x y). lia. Qed.
Lemma not_above_below x y : ¬ compare x y > 0 → below x y.
Proof. unfold below. lia. Qed.

(** The element at index [i] is at least the one at index [j]. *)
Definition dominates (a : list E) (i j : nat) : Prop :=
  ∀ x y, a !! (i - 1)%nat = Some x → a !! (j - 1)%nat = Some y → below y x.

Definition child (i j : nat) : Prop := j = (2 * i)%nat ∨ j = (2 * i + 1)%nat.

(** The part of the array from index [lo] to [n] is a heap, except that index
    [k] may be smaller than its children. *)
Definition heap (a : list E) (lo n : nat) : Prop :=
  ∀ i j, (lo ≤ i)%nat → child i j → (j ≤ n)%nat → dominates a i j.
Definition heap_but (a : list E) (lo n k : nat) : Prop :=
  (∀ i j, (lo ≤ i)%nat → i ≠ k → child i j → (j ≤ n)%nat → dominates a i j) ∧
  (∀ p j, (lo ≤ p)%nat → child p k → child k j → (j ≤ n)%nat → dominates a p j).

Lemma dominates_refl a i : dominates a i i.
Proof. intros x y H1 H2. rewrite H1 in H2. injection H2 as <-. apply below_refl. Qed.

Lemma dominates_trans a i j k :
  (j - 1 < length a)%nat → dominates a i j → dominates a j k → dominates a i k.
Proof.
  intros Hj H1 H2 x z Hx Hz. destruct (lookup_lt_is_Some_2 _ _ Hj) as [y Hy].
  eapply below_trans; [by eapply H2|by eapply H1].
Qed.

Lemma larger_ok a n max ch :
  (1 ≤ max)%nat → (1 ≤ ch)%nat → (max ≤ n)%nat → (n ≤ length a)%nat →
  ∃ m, larger compare a n max ch = Ok m ∧ (m = max ∨ m = ch ∧ (ch ≤ n)%nat) ∧
    dominates a m max ∧ ((ch ≤ n)%nat → dominates a m ch).
Proof.
  intros H1 H2 Hm Hn. unfold larger. case_decide as Hc.
  2: { exists max. split_and!; [done|by left|apply dominates_refl|done]. }
  destruct (lookup_lt_is_Some_2 a (ch - 1)) as [x Ex]; [lia|].
  destruct (lookup_lt_is_Some_2 a (max - 1)) as [y Ey]; [lia|].
  unfold do_compare, elem. rewrite Ex, Ey. cbn. case_decide as Hd.
  - exists ch. split_and!; [done|by right| |intros _; apply dominates_refl].
    intros x' y' Hx Hy. simplify_eq. by apply above_below.
  - exists max. split_and!; [done|by left|apply dominates_refl|]. intros _ x' y' Hx Hy. simplify_eq.
    by apply not_above_below.
Qed.

(** The array after a swap, seen from an index. *)
Lemma do_swap_ok (a : list E) i j :
  (1 ≤ i)%nat → (i < j)%nat → (j ≤ length a)%nat →
  ∃ a', do_swap a i j = Ok a' ∧ length a' = length a ∧
    (∀ k, (1 ≤ k)%nat → a' !! (k - 1)%nat = a !! ((if decide (k = i) then j else if decide (k = j) then i else k) - 1)%nat) ∧
    (∀ n, (j ≤ n)%nat → take n a' ≡ₚ take n a ∧ drop n a' = drop n a).
Proof.
  intros Hi Hij Hj. destruct (lookup_lt_is_Some_2 a (i - 1)) as [x Ex]; [lia|].
  destruct (lookup_lt_is_Some_2 a (j - 1)) as [y Ey]; [lia|].
  unfold do_swap, elem. rewrite Ex, Ey. cbn. eexists. split; [done|]. rewrite !length_insert. split; [done|]. split.
  - intros k Hk. destruct (decide (k = i)) as [->|].
    + rewrite list_lookup_insert_ne, list_lookup_insert_eq by lia. done.
    + destruct (decide (k = j)) as [->|].
      * rewrite list_lookup_insert_eq by (rewrite length_insert; lia). done.
      * by rewrite !list_lookup_insert_ne by lia.
  - intros n Hn. split.
    + rewrite !take_insert_lt by lia. apply swap_lt_perm; [lia|by rewrite lookup_take_lt by lia..].
    + by rewrite !drop_insert_lt by lia.
Qed.

Lemma heap_swap a a' lo n i m :
  (1 ≤ lo)%nat → (lo ≤ i)%nat → heap_but a lo n i → child i m → (m ≤ n)%nat →
  dominates a m i → (∀ j, child i j → (j ≤ n)%nat → dominates a m j) →
  (∀ k, (1 ≤ k)%nat → a' !! (k - 1)%nat = a !! ((if decide (k = i) then m else if decide (k = m) then i else k) - 1)%nat) →
  heap_but a' lo n m.
Proof.
  intros Hlo Hi [Hb1 Hb2] Hm Hmn Hmi Hmj Ha. unfold child in *. split.
  - intros p j Hp Hpm Hc Hj x y. unfold child in Hc. rewrite !Ha by lia. destruct (decide (p = i)) as [->|Hpi].
    + rewrite (decide_False (P := j = i)) by lia. case_decide; [apply Hmi|by apply Hmj].
    + rewrite (decide_False (P := p = m)) by done. destruct (decide (j = i)) as [->|].
      * by apply (Hb2 p m).
      * rewrite decide_False by lia. by apply Hb1.
  - intros p j Hp Hc Hc' Hj x y. unfold child in Hc, Hc'. assert (p = i) as -> by lia. rewrite !Ha by lia.
    rewrite decide_True, !decide_False by lia. apply Hb1; [lia|lia|done|done].
Qed.

Lemma heapify_ok fuel a lo n i :
  (1 ≤ lo)%nat → (lo ≤ i)%nat → (i ≤ n)%nat → (n ≤ length a)%nat → (n - i < fuel)%nat → heap_but a lo n i →
  ∃ a', heapify compare fuel a i n = Ok a' ∧ heap a' lo n ∧ length a' = length a ∧
    take n a' ≡ₚ take n a ∧ drop n a' = drop n a.
Proof.
  revert a i. induction fuel as [|fuel IH]; intros a i Hlo Hi Hin Hn Hf Hb; [lia|]. cbn [heapify].
  destruct (larger_ok a n i (2 * i)) as (m1 & E1 & Hm1 & D1 & D1'); [lia..|]. rewrite E1. cbn [mbind result_bind].
  destruct (larger_ok a n m1 (2 * i + 1)) as (m & E2 & Hm2 & D2 & D2'); [lia..|]. rewrite E2. cbn [mbind result_bind].
  assert (dominates a m i) as Dmi by (apply (dominates_trans a m m1); [lia|done|done]).
  assert (∀ j, child i j → (j ≤ n)%nat → dominates a m j) as Dmj.
  { intros j [->| ->] Hj; [|by apply D2']. apply (dominates_trans a m m1); [lia|done|by apply D1']. }
  case_decide as Em.
  - exists a. split_and!; try done. subst m. intros p j Hp Hc Hj. destruct (decide (p = i)) as [->|]; [by apply Dmj|].
    by apply (proj1 Hb).
  - assert (child i m ∧ (m ≤ n)%nat) as [Hc Hmn] by (unfold child; destruct Hm2 as [->|[-> ?]]; [destruct Hm1 as [->|[-> ?]]|]; [done|lia..]).
    assert (i < m)%nat as Him by (unfold child in Hc; lia).
    destruct (do_swap_ok a i m) as (a1 & Es & Hl1 & Ha1 & Hp1); [lia|lia|lia|]. rewrite Es. cbn [mbind result_bind].
    destruct (IH a1 m) as (a2 & E3 & Hh & Hl2 & Hp2 & Hd2); [lia..| |].
    + by eapply (heap_swap a a1 lo n i m).
    + destruct (Hp1 n Hmn) as [Hp1' Hd1']. exists a2. split_and!; [done|done|lia|by rewrite Hp2|by rewrite Hd2].
Qed.

Lemma build_heap_ok i a n :
  n = length a → heap a (S i) n → (i ≤ n)%nat →
  ∃ a', build_heap compare a n i = Ok a' ∧ heap a' 1 n ∧ length a' = n ∧ a' ≡ₚ a.
Proof.
  revert a. induction i as [|i IH]; intros a Hn Hh Hi.
  { exists a. split_and!; done. }
  cbn [build_heap]. destruct (heapify_ok (S n) a (S i) n (S i)) as (a1 & E1 & Hh1 & Hl & Hp & _); [lia..| |].
  - split; [intros p j Hp Hne; apply Hh; lia|]. intros p j Hp Hc. unfold child in Hc. lia.
  - unfold heapify_at. rewrite E1. cbn [mbind result_bind]. rewrite !take_ge in Hp by lia.
    destruct (IH a1) as (a2 & E2 & Hh2 & Hl2 & Hp2); [lia|done|lia|]. exists a2. split_and!; [done..|by rewrite Hp2].
Qed.

Lemma heap_root a n k : heap a 1 n → (n ≤ length a)%nat → (1 ≤ k)%nat → (k ≤ n)%nat → dominates a 1 k.
Proof.
  intros Hh Hn. induction k as [k IH] using lt_wf_ind. intros H1 Hk.
  destruct (decide (k = 1)%nat) as [->|]; [apply dominates_refl|].
  pose proof (Nat.div_mod k 2). pose proof (Nat.mod_upper_bound k 2).
  apply (dominates_trans a 1 (k / 2)); [lia|apply IH; lia|]. apply Hh; [lia| |done]. unfold child. lia.
Qed.
Lemma sort_heap_ok i a :
  (i ≤ length a)%nat → heap a 1 i → StronglySorted below (drop i a) →
  (∀ x y, x ∈ take i a → y ∈ drop i a → below x y) →
  ∃ a', sort_heap compare a i = Ok a' ∧ a' ≡ₚ a ∧ StronglySorted below a'.
Proof.
  revert a. induction i as [|i IH]; intros a Hi Hh Hs Hb; [by exists a|].
  destruct i as [|i].
  { exists a. split_and!; [done..|]. destruct a as [|x a]; [simpl in Hi; lia|].
    cbn in Hs, Hb. rewrite ?drop_0, ?take_0 in *. constructor; [done|].
    rewrite Forall_forall. intros y Hy. apply Hb; [by left|done]. }
  change (sort_heap compare a (S (S i))) with
    (a1 ← do_swap a 1 (S (S i)); a2 ← heapify_at compare a1 1 (S i); sort_heap compare a2 (S i)).
  destruct (do_swap_ok a 1 (S (S i))) as (a1 & E1 & Hl1 & Ha1 & Hp1); [lia..|]. rewrite E1. cbn [mbind result_bind].
  destruct (heapify_ok (S (S i)) a1 1 (S i) 1) as (a2 & E2 & Hh2 & Hl2 & Hp2 & Hd2); [lia..| |].
  { split.
    - intros p j Hp Hp1' Hc Hj x y. unfold child in Hc. rewrite !Ha1, !decide_False by lia.
      apply Hh; [lia|done|lia].
    - intros p j Hp Hc. unfold child in Hc. lia. }
  unfold heapify_at. rewrite E2. cbn [mbind result_bind].
  destruct (lookup_lt_is_Some_2 a 0) as [r Er]; [lia|].
  assert (a1 !! S i = Some r) as Er1.
  { specialize (Ha1 (S (S i)) ltac:(lia)). rewrite decide_False, decide_True in Ha1 by lia.
    replace (S i) with (S (S i) - 1)%nat by lia. by rewrite Ha1. }
  destruct (Hp1 (S (S i)) (le_n _)) as [Hpm Hdr].
  assert (drop (S i) a2 = r :: drop (S (S i)) a) as Ed by (by rewrite Hd2, (drop_S _ _ _ Er1), Hdr).
  assert (∀ x, x ∈ take (S i) a2 → x ∈ take (S (S i)) a) as Hin.
  { intros x Hx. rewrite Hp2 in Hx. rewrite <-Hpm, (take_S_r _ _ _ Er1). apply elem_of_app. by left. }
  assert (∀ x, x ∈ take (S (S i)) a → below x r) as Hr.
  { intros x [k Hk]%list_elem_of_lookup. assert (k < S (S i))%nat as Hk'.
    { apply lookup_lt_Some in Hk. rewrite length_take in Hk. lia. }
    rewrite lookup_take_lt in Hk by done. apply (heap_root a (S (S i)) (S k) Hh Hi ltac:(lia) ltac:(lia)); [done|].
    simpl. by rewrite Nat.sub_0_r. }
  destruct (IH a2) as (a3 & E3 & Hp3 & Hs3); [lia|done|..].
  - rewrite Ed. constructor; [done|]. rewrite Forall_forall. intros y Hy. apply Hb; [|done].
    apply (list_elem_of_lookup_2 _ 0). by rewrite lookup_take_lt by lia.
  - intros x y Hx. rewrite Ed. intros [->|Hy]%elem_of_cons; [by apply Hr, Hin|]. by apply Hb; [apply Hin|].
  - exists a3. split_and!; [done| |done]. rewrite Hp3, <-(take_drop (S (S i)) a), <-Hpm, (take_S_r _ _ _ Er1).
    rewrite <-(take_drop (S i) a2) at 1. rewrite Hp2, Ed. by rewrite <-app_assoc.
Qed.
End heap.

(** C31. [sort] (and [qsort]) terminates without a bad access, and its result
    is a permutation of the array in ascending order, for any comparison
    function of the [strcmp] kind. *)
Theorem sort_correct {E} (compare : E → E → Z) array :
  TotalCompare compare →
  ∃ array', qsort compare array = Ok array' ∧ array' ≡ₚ array ∧ StronglySorted (below compare) array'.
Proof.
  intros Hc. unfold qsort, sort.
  destruct (build_heap_ok compare (length array / 2) array (length array)) as (a1 & E1 & Hh & Hl & Hp); [done|..].
  - intros i j Hi Hch Hj. unfold child in Hch. pose proof (Nat.div_mod (length array) 2).
    pose proof (Nat.mod_upper_bound (length array) 2). lia.
  - apply Nat.Div0.div_le_upper_bound. lia.
  - rewrite E1. cbn [mbind result_bind]. rewrite <-Hl in Hh |- *.
    destruct (sort_heap_ok compare (length a1) a1) as (a2 & E2 & Hp2 & Hs); [done|done|..].
    + rewrite drop_all. constructor.
    + intros x y _. rewrite drop_all. by intros ?%not_elem_of_nil.
    + exists a2. split_and!; [done|by rewrite Hp2|done].
Qed.

#[export] Instance sub_total : TotalCompare Z.sub.
Proof. split; intros; lia. Qed.

Lemma sort_correct_witness : ∃ a, qsort Z.sub [5; 3; 9; 1; 3] = Ok a ∧ a ≡ₚ [5; 3; 9; 1; 3] ∧ StronglySorted (below Z.sub) a.
Proof. apply (sort_correct Z.sub [5; 3; 9; 1; 3] sub_total). Defined.

(** ** Binary search is correct *)

Section bsearch.
  Context {K E : Type} (compare : K → E → Z) (key : K).

(** The array is in ascending order as far as the key can tell. *)
Definition ordered_for (array : list E) : Prop :=
  ∀ i j x y, (i ≤ j)%nat → array !! i = Some x → array !! j = Some y →
    (compare key x < 0 → compare key y < 0) ∧ (compare key y > 0 → compare key x > 0).

Lemma binary_search_loop_ok fuel array first last :
  ordered_for array → (first ≤ last)%nat → (last ≤ length array)%nat → (last - first < fuel)%nat →
  (∀ i x, (i < first)%nat → array !! i = Some x → compare key x > 0) →
  (∀ i x, (last ≤ i)%nat → array !! i = Some x → compare key x < 0) →
  ∃ r, binary_search_loop compare fuel key array first last = Ok r ∧
    match r with
    | Some i => ∃ x, array !! i = Some x ∧ compare key x = 0
    | None => ∀ i x, array !! i = Some x → compare key x ≠ 0
    end.
Proof.
  intros Ho. revert first last. induction fuel as [|fuel IH]; intros first last Hfl Hl Hf Hlo Hhi; [lia|].
  cbn [binary_search_loop]. destruct (decide (first < last)%nat) as [Hlt|Hge].
  2: { exists None. split; [done|]. intros i x Hx. destruct (decide (i < first)%nat).
       - specialize (Hlo i x ltac:(done) Hx). lia.
       - specialize (Hhi i x ltac:(lia) Hx). lia. }
  set (mid := (first + (last - first) / 2)%nat). pose proof (Nat.div_mod (last - first) 2).
  pose proof (Nat.mod_upper_bound (last - first) 2).
  destruct (lookup_lt_is_Some_2 array mid) as [x Ex]; [unfold mid; lia|]. rewrite Ex.
  destruct (decide (compare key x < 0)) as [Hc|Hc].
  - apply IH; [unfold mid; lia|unfold mid; lia|unfold mid; lia|done|]. intros i y Hi Hy. by apply (Ho mid i x y Hi Ex Hy).
  - destruct (decide (compare key x > 0)) as [Hc'|Hc'].
    + apply IH; [unfold mid; lia|done|unfold mid; lia| |done]. intros i y Hi Hy.
      by apply (Ho i mid y x ltac:(lia) Hy Ex).
    + exists (Some mid). split; [done|]. exists x. split; [done|lia].
Qed.
End bsearch.

(** On an array in ascending order, [binary_search] (and [bsearch])
    terminates and returns the index of an element equal to the key, or null
    when no element is. *)
Theorem binary_search_correct {K E} (compare : K → E → Z) key array :
  ordered_for compare key array →
  ∃ r, bsearch compare key array = Ok r ∧
    match r with
    | Some i => ∃ x, array !! i = Some x ∧ compare key x = 0
    | None => ∀ i x, array !! i = Some x → compare key x ≠ 0
    end.
Proof.
  intros Ho. apply binary_search_loop_ok; [done|lia|lia|lia|lia|]. intros i x Hi Hx.
  apply lookup_lt_Some in Hx. lia.
Qed.

Lemma binary_search_correct_witness :
  ∃ i, bsearch Z.sub 7 [1; 3; 7; 9; 12] = Ok (Some i) ∧ [1; 3; 7; 9; 12] !! i = Some 7.
Proof.
  destruct (binary_search_correct Z.sub 7 [1; 3; 7; 9; 12]) as (r & E & H).
  - intros i j x y Hij Hx Hy.
    assert (∀ k z, [1; 3; 7; 9; 12] !! k = Some z →
      z = match k with O => 1 | S O => 3 | S (S O) => 7 | S (S (S O)) => 9 | _ => 12 end ∧ (k < 5)%nat) as Hk.
    { intros k z Hz. do 5 (destruct k as [|k]; [by injection Hz as <-; split; [|lia]|]). done. }
    apply Hk in Hx as [-> Hi]. apply Hk in Hy as [-> Hj].
    do 5 (destruct i as [|i]; [do 5 (destruct j as [|j]; [lia|]); lia|]). lia.
  - destruct r as [i|]; [|by destruct (H 2%nat 7 eq_refl)]. exists i. split; [exact E|].
    destruct H as (x & Hx & H0). rewrite Hx. f_equal. lia.
Defined.

(** ** atoi *)

Definition digits_value (ds : list Z) : Z := foldl (λ v c, v * 10 + (c - 48)) 0 ds.

Lemma digits_value_foldl v ds : foldl (λ v c, v * 10 + (c - 48)) v ds = v * 10 ^ Z.of_nat (length ds) + digits_value ds.
Proof.
  unfold digits_value. revert v. induction ds as [|c ds IH]; intros v; cbn [foldl length]; [lia|].
  rewrite IH, (IH (0 * 10 + (c - 48))). rewrite Nat2Z.inj_succ, Z.pow_succ_r by lia. lia.
Qed.

Lemma atoi_digits_ok fuel m s v ds r :
  cstr m s (ds ++ r) → Forall (λ c, isdigit c = true) ds → match r with [] => True | c :: _ => isdigit c = false end →
  (length ds < fuel)%nat →
  atoi_digits fuel s (i32 (- v)) m = Ok (i32 (- foldl (λ v c, v * 10 + (c - 48)) v ds), m).
Proof.
  revert s v ds. induction fuel as [|fuel IH]; intros s v ds H Hds Hr Hf; [lia|]. cbn [atoi_digits].
  rewrite (bind_ok _ _ _ _ _ (cstr_head _ _ _ H)). destruct ds as [|c ds]; cbn [app head from_option id foldl] in *.
  - destruct r as [|c r]; cbn [head from_option id]; [done|]. by rewrite Hr.
  - apply cstr_cons in H as (_ & _ & _ & _ & H). apply Forall_cons in Hds as [Hc Hds]. rewrite Hc.
    rewrite <-(IH (s + 1) (v * 10 + (c - 48)) ds); [|done..|simpl in Hf; lia]. f_equal. apply wraps_cong.
    rewrite Zminus_mod, wraps_mod, <-Zminus_mod by lia. rewrite Zminus_mod, Zmult_mod, wraps_mod by lia.
    rewrite <-Zmult_mod, <-Zminus_mod. f_equal. lia.
Qed.

Lemma skip_space_ok fuel m s ws r :
  cstr m s (ws ++ r) → Forall (λ c, isspace c = true) ws → match r with [] => True | c :: _ => isspace c = false end →
  (length ws < fuel)%nat → skip_space fuel s m = Ok (s + Z.of_nat (length ws), m).
Proof.
  revert s ws. induction fuel as [|fuel IH]; intros s ws H Hws Hr Hf; [lia|]. cbn [skip_space].
  rewrite (bind_ok _ _ _ _ _ (cstr_head _ _ _ H)). destruct ws as [|c ws]; cbn [app head from_option id] in *.
  - destruct r as [|c r]; cbn [head from_option id]; [by rewrite Z.add_0_r|]. rewrite Hr. by rewrite Z.add_0_r.
  - apply cstr_cons in H as (_ & _ & _ & _ & H). apply Forall_cons in Hws as [Hc Hws]. rewrite Hc.
    rewrite (IH (s + 1) ws) by (done || simpl in Hf; lia). do 2 f_equal. cbn [length]. lia.
Qed.

Lemma digit_range c : isdigit c = true → 48 ≤ c ∧ c ≤ 57.
Proof. apply bool_decide_eq_true. Qed.

(** The signs that [atoi] accepts. *)
Inductive sign : list Z → bool → Prop :=
  | sign_none : sign [] false
  | sign_plus : sign [43] false
  | sign_minus : sign [45] true.

(** [atoi] on white space, an optional sign, at least one digit and
    anything that is not a digit returns the number written, reduced to an int
    when it does not fit, and changes nothing. *)
Lemma atoi_read m s ws sg negative ds r :
  cstr m s (ws ++ sg ++ ds ++ r) → Forall (λ c, isspace c = true) ws → sign sg negative →
  Forall (λ c, isdigit c = true) ds → ds ≠ [] → match r with [] => True | c :: _ => isdigit c = false end →
  atoi s m = Ok (i32 (if negative then - digits_value ds else digits_value ds), m).
Proof.
  intros H Hws Hsg Hds Hne Hr. pose proof H as (Hs0 & _). pose proof (cstr_size _ _ _ H) as Hz.
  rewrite !length_app in Hz. unfold atoi. rewrite bool_decide_eq_true_2 by (unfold NULL; lia).
  rewrite !(bind_ok _ _ _ _ m eq_refl).
  assert (match sg ++ ds ++ r with [] => True | c :: _ => isspace c = false end) as Hh.
  { destruct ds as [|c ds]; [done|]. apply Forall_cons in Hds as [Hc%digit_range _].
    destruct Hsg; cbn [app]; [|done..]. unfold isspace. apply bool_decide_eq_false_2. lia. }
  rewrite (bind_ok _ _ _ _ _ (skip_space_ok (S (size m)) m s ws _ H Hws Hh ltac:(lia))).
  apply cstr_suffix in H. set (p := s + Z.of_nat (length ws)) in *.
  rewrite (bind_ok _ _ _ _ _ (cstr_head _ _ _ H)).
  assert (∀ q b, cstr m q (ds ++ r) → (v ← atoi_digits (S (size m)) q 0; mret (if b : bool then v else i32 (- v))) m =
    Ok (i32 (if b then - digits_value ds else digits_value ds), m)) as Hd.
  { intros q b Hq. pose proof (atoi_digits_ok (S (size m)) m q 0 ds r Hq Hds Hr ltac:(lia)) as E.
    change (i32 (- 0)) with 0 in E. rewrite (bind_ok _ _ _ _ _ E). unfold mret, M_ret.
    destruct b; [done|]. do 2 f_equal. apply wraps_cong. fold (digits_value ds).
    rewrite Z.opp_eq_mul_m1, Zmult_mod, wraps_mod, <-Zmult_mod by lia. f_equal. lia. }
  destruct ds as [|c ds]; [done|]. pose proof (Forall_inv Hds) as Hc%digit_range.
  destruct Hsg; cbn [app head from_option id] in *.
  - rewrite !decide_False by lia. by apply (Hd p false).
  - apply cstr_cons in H as (_ & _ & _ & _ & H). rewrite decide_True by done. by apply (Hd (p + 1) false).
  - apply cstr_cons in H as (_ & _ & _ & _ & H). rewrite decide_False, decide_True by done. by apply (Hd (p + 1) true).
Qed.

(** " -2147483648x" *)
