(* ===== verification/Arith64.v ===== *)
(** * 64-bit division

    lib/arithmetic.c: the division routines that the compiler calls for
    [long long], built from the 64-by-32-bit [DIVL] instruction. *)

From Stdlib Require Import Znumtheory.
From S2P Require Import Prelude.

(** ** lib/arithmetic.c *)

(** The instruction traps with a divide error, which the kernel does not
    survive, when the quotient does not fit in 32 bits. *)
Definition divl (n d : Z) : result Z :=
  if decide (d = 0 ∨ 2 ^ 32 ≤ n / d) then Err Panicked else Ok (n / d).

Definition nlz (x : Z) : Z :=
  let '(n, x) := (0, x) in
  let '(n, x) := if decide (x ≤ 0x0000FFFF) then (n + 16, u32 (Z.shiftl x 16)) else (n, x) in
  let '(n, x) := if decide (x ≤ 0x00FFFFFF) then (n + 8, u32 (Z.shiftl x 8)) else (n, x) in
  let '(n, x) := if decide (x ≤ 0x0FFFFFFF) then (n + 4, u32 (Z.shiftl x 4)) else (n, x) in
  let '(n, x) := if decide (x ≤ 0x3FFFFFFF) then (n + 2, u32 (Z.shiftl x 2)) else (n, x) in
  if decide (x ≤ 0x7FFFFFFF) then n + 1 else n.

Definition udiv64 (n d : Z) : result Z :=
  if decide (Z.shiftr d 32 = 0) then
    let b := 2 ^ 32 in
    let n1 := u32 (Z.shiftr n 32) in
    let n0 := u32 n in
    let d0 := u32 d in
    if decide (d0 = 0) then Err Panicked      (* n1 % d0 divides by zero *)
    else
      q ← divl (u64 (u64 (b * (n1 mod d0)) + n0)) d0;
      Ok (u64 (q + u64 (b * (n1 / d0))))
  else if decide (n < d) then Ok 0
  else
    let d1 := u32 (Z.shiftr d 32) in
    let s := nlz d1 in
    q ← divl (Z.shiftr n 1) (u32 (Z.shiftr (u64 (Z.shiftl d s)) 32));
    let q := Z.shiftr q (31 - s) in
    Ok (if decide (u64 (n - u64 (u64 (q - 1) * d)) < d) then u64 (q - 1) else q).

(** The result type has 32 bits. *)
Definition umod64 (n d : Z) : result Z :=
  q ← udiv64 n d; Ok (u32 (u64 (n - u64 (d * q)))).

Definition abs64 (n : Z) : Z := if decide (n >= 0) then u64 n else u64 (- u64 n).

Definition sdiv64 (n d : Z) : result Z :=
  let n_abs := abs64 n in
  let d_abs := abs64 d in
  q_abs ← udiv64 n_abs d_abs;
  Ok (if eqb (bool_decide (n < 0)) (bool_decide (d < 0)) then i64 q_abs else i64 (- i64 q_abs)).

(** The result type has 32 bits. *)
Definition smod64 (n d : Z) : result Z :=
  q ← sdiv64 n d; Ok (i32 (i64 (n - i64 (d * q)))).

Definition divdi3 (n d : Z) : result Z := sdiv64 n d.
Definition moddi3 (n d : Z) : result Z := smod64 n d.
Definition udivdi3 (n d : Z) : result Z := udiv64 n d.
Definition umoddi3 (n d : Z) : result Z := umod64 n d.

(** ** Leading zeros *)

(** One step: the value is shifted by [k] if its upper [k] bits are zero. *)
Lemma nlz_step k x n y :
  0 < k → k ≤ 16 → 0 ≤ n → y = x * 2 ^ n → 2 ^ (32 - 2 * k) ≤ y → y < 2 ^ 32 →
  let p := if decide (y ≤ 2 ^ (32 - k) - 1) then (n + k, u32 (Z.shiftl y k)) else (n, y) in
  snd p = x * 2 ^ fst p ∧ 2 ^ (32 - k) ≤ snd p ∧ snd p < 2 ^ 32 ∧ n ≤ fst p ∧ fst p ≤ n + k.
Proof.
  intros Hk Hk' Hn E Hlo Hhi. simpl. assert (0 < 2 ^ k) by lia.
  assert (2 ^ 32 = 2 ^ (32 - k) * 2 ^ k) as E1 by (rewrite <-Z.pow_add_r by lia; f_equal; lia).
  assert (2 ^ (32 - k) = 2 ^ (32 - 2 * k) * 2 ^ k) as E2 by (rewrite <-Z.pow_add_r by lia; f_equal; lia).
  case_decide; simpl.
  - rewrite Z.shiftl_mul_pow2 by lia. rewrite wrapu_small by (unfold in_u; nia).
    split_and!; [rewrite E, Z.pow_add_r by lia; lia|nia|nia|lia|lia].
  - split_and!; lia.
Qed.

Lemma nlz_ok x : 0 < x → x < 2 ^ 32 → 0 ≤ nlz x ∧ nlz x ≤ 31 ∧ 2 ^ 31 ≤ x * 2 ^ nlz x ∧ x * 2 ^ nlz x < 2 ^ 32.
Proof.
  intros H0 H1. unfold nlz.
  pose proof (nlz_step 16 x 0 x ltac:(lia) ltac:(lia) ltac:(lia) ltac:(lia) ltac:(lia) H1) as S1.
  change (2 ^ (32 - 16) - 1) with 0x0000FFFF in S1. destruct (if decide (x ≤ _) then _ else _) as [n1 y1]. simpl in S1.
  destruct S1 as (E1 & L1 & U1 & N1 & M1).
  pose proof (nlz_step 8 x n1 y1 ltac:(lia) ltac:(lia) ltac:(lia) E1 L1 U1) as S2.
  change (2 ^ (32 - 8) - 1) with 0x00FFFFFF in S2. destruct (if decide (y1 ≤ _) then _ else _) as [n2 y2]. simpl in S2.
  destruct S2 as (E2 & L2 & U2 & N2 & M2).
  pose proof (nlz_step 4 x n2 y2 ltac:(lia) ltac:(lia) ltac:(lia) E2 L2 U2) as S3.
  change (2 ^ (32 - 4) - 1) with 0x0FFFFFFF in S3. destruct (if decide (y2 ≤ _) then _ else _) as [n3 y3]. simpl in S3.
  destruct S3 as (E3 & L3 & U3 & N3 & M3).
  pose proof (nlz_step 2 x n3 y3 ltac:(lia) ltac:(lia) ltac:(lia) E3 L3 U3) as S4.
  change (2 ^ (32 - 2) - 1) with 0x3FFFFFFF in S4. destruct (if decide (y3 ≤ _) then _ else _) as [n4 y4]. simpl in S4.
  destruct S4 as (E4 & L4 & U4 & N4 & M4).
  pose proof (nlz_step 1 x n4 y4 ltac:(lia) ltac:(lia) ltac:(lia) E4 L4 U4) as S5.
  change (2 ^ (32 - 1) - 1) with 0x7FFFFFFF in S5. case_decide; simpl in S5.
  - destruct S5 as (E5 & L5 & U5 & N5 & M5). rewrite <-E5. change (2 ^ (32 - 1)) with (2 ^ 31) in L5. lia.
  - rewrite <-E4. lia.
Qed.

(** ** Unsigned division *)

Lemma divl_ok n d : 0 < d → n / d < 2 ^ 32 → divl n d = Ok (n / d).
Proof. intros Hd Hq. unfold divl. rewrite decide_False by lia. done. Qed.

Lemma udiv64_small n d : in_u 64 n → 0 < d → d < 2 ^ 32 → udiv64 n d = Ok (n / d).
Proof.
  intros Hn Hd Hd'. unfold udiv64, in_u in *.
  assert (Z.shiftr d 32 = 0) as Es by (rewrite Z.shiftr_div_pow2 by lia; apply Z.div_small; lia).
  rewrite decide_True by done. rewrite (wrapu_small 32 d) by (unfold in_u; lia). rewrite decide_False by lia.
  rewrite Z.shiftr_div_pow2 by lia. set (b := 2 ^ 32) in *.
  assert (0 ≤ n / b ∧ n / b < b) as Hn1 by (split; [apply Z.div_pos; lia|apply Z.div_lt_upper_bound; lia]).
  rewrite (wrapu_small 32 (n / b)) by (unfold in_u; fold b; lia). change (u32 n) with (n mod b).
  pose proof (Z.div_mod n b ltac:(lia)) as En. pose proof (Z.mod_pos_bound n b ltac:(lia)) as Hn0.
  pose proof (Z.div_mod (n / b) d ltac:(lia)) as En1. pose proof (Z.mod_pos_bound (n / b) d ltac:(lia)) as Hr.
  set (n1 := n / b) in *. set (n0 := n mod b) in *. set (q1 := n1 / d) in *. set (r1 := n1 mod d) in *.
  assert (0 ≤ q1) by (apply Z.div_pos; lia).
  rewrite (wrapu_small 64 (b * r1)) by (unfold in_u; nia). rewrite (wrapu_small 64 (b * r1 + n0)) by (unfold in_u; nia).
  assert (n / d = (b * r1 + n0) / d + b * q1) as Eq.
  { rewrite <-Z.div_add by lia. f_equal. nia. }
  assert ((b * r1 + n0) / d < b) by (apply Z.div_lt_upper_bound; nia).
  assert (0 ≤ (b * r1 + n0) / d) by (apply Z.div_pos; nia).
  assert (n / d < 2 ^ 64) by (apply Z.div_lt_upper_bound; nia).
  rewrite divl_ok by (fold b; lia). cbn [mbind result_bind].
  rewrite (wrapu_small 64 (b * q1)) by (unfold in_u; lia). rewrite wrapu_small by (unfold in_u; lia). by rewrite Eq.
Qed.

(** The estimate of the quotient from the upper half of the divisor is right
    or one too large. *)
Lemma estimate n d D :
  0 < D → D ≤ d → n * (d - D) < d * D → 0 ≤ n → n / d ≤ n / D ∧ n / D ≤ n / d + 1.
Proof.
  intros HD Hd Hn H0. split; [apply Z.div_le_compat_l; lia|].
  assert (n / D < n / d + 2); [|lia]. apply Z.div_lt_upper_bound; [done|].
  pose proof (Z.div_mod n d ltac:(lia)) as En. pose proof (Z.mod_pos_bound n d ltac:(lia)).
  set (Q := n / d) in *. assert (n < (Q + 1) * d) by lia. nia.
Qed.

Section large.
  Context (n d : Z) (Hn : in_u 64 n) (Hd0 : 2 ^ 32 ≤ d) (Hd1 : d < 2 ^ 64).

Lemma divisor_shift (s := nlz (d / 2 ^ 32)) (v := d * 2 ^ s / 2 ^ 32) :
  0 ≤ s ∧ s ≤ 31 ∧ u64 (Z.shiftl d s) = d * 2 ^ s ∧ 2 ^ 31 ≤ v ∧ v < 2 ^ 32 ∧
  v * 2 ^ (32 - s) ≤ d ∧ d < v * 2 ^ (32 - s) + 2 ^ (32 - s).
Proof.
  assert (1 ≤ d / 2 ^ 32 ∧ d / 2 ^ 32 < 2 ^ 32) as Hh
    by (split; [apply Z.div_le_lower_bound; lia|apply Z.div_lt_upper_bound; lia]).
  destruct (nlz_ok (d / 2 ^ 32)) as (S0 & S1 & S2 & S3); [lia..|]. fold s in S0, S1, S2, S3.
  pose proof (Z.div_mod d (2 ^ 32) ltac:(lia)) as Ed. pose proof (Z.mod_pos_bound d (2 ^ 32) ltac:(lia)).
  assert (0 < 2 ^ s) by lia. set (h := d / 2 ^ 32) in *. set (r := d mod 2 ^ 32) in *.
  assert (2 ^ 32 = 2 ^ (32 - s) * 2 ^ s) as E32 by (rewrite <-Z.pow_add_r by lia; f_equal; lia).
  assert (h < 2 ^ (32 - s)) as Hh' by (apply (Z.mul_lt_mono_pos_r (2 ^ s)); lia).
  assert (d * 2 ^ s < 2 ^ 64) as Hlt.
  { change (2 ^ 64) with (2 ^ 32 * 2 ^ 32). rewrite E32 at 2. rewrite Z.mul_assoc.
    apply Z.mul_lt_mono_pos_r; nia. }
  assert (2 ^ 63 ≤ d * 2 ^ s) as Hge by (change (2 ^ 63) with (2 ^ 32 * 2 ^ 31); nia).
  split_and!; try done.
  - rewrite Z.shiftl_mul_pow2 by lia. apply wrapu_small. unfold in_u. lia.
  - apply Z.div_le_lower_bound; lia.
  - apply Z.div_lt_upper_bound; lia.
  - pose proof (Z.mul_div_le (d * 2 ^ s) (2 ^ 32) ltac:(lia)) as Hm. fold v in Hm. nia.
  - pose proof (Z.mul_succ_div_gt (d * 2 ^ s) (2 ^ 32) ltac:(lia)) as Hm. fold v in Hm. nia.
Qed.

Lemma udiv64_large : udiv64 n d = Ok (n / d).
Proof.
  unfold udiv64, in_u in *.
  assert (1 ≤ d / 2 ^ 32 ∧ d / 2 ^ 32 < 2 ^ 32) as Hh
    by (split; [apply Z.div_le_lower_bound; lia|apply Z.div_lt_upper_bound; lia]).
  rewrite !(Z.shiftr_div_pow2 d 32) by lia. rewrite decide_False by lia.
  case_decide as Hnd; [by rewrite Z.div_small by lia|].
  rewrite (wrapu_small 32 (d / 2 ^ 32)) by (unfold in_u; lia).
  destruct divisor_shift as (S0 & S1 & -> & V0 & V1 & D0 & D1).
  set (s := nlz (d / 2 ^ 32)) in *. rewrite !Z.shiftr_div_pow2 by lia. set (v := d * 2 ^ s / 2 ^ 32) in *.
  rewrite (wrapu_small 32 v) by (unfold in_u; lia).
  assert (n / 2 ^ 1 / v < 2 ^ 32) by (apply Z.div_lt_upper_bound; [lia|]; apply Z.div_lt_upper_bound; nia).
  rewrite divl_ok by lia. cbn [mbind result_bind]. rewrite Z.shiftr_div_pow2 by lia.
  set (D := v * 2 ^ (32 - s)) in *.
  assert (n / 2 ^ 1 / v / 2 ^ (31 - s) = n / D) as ->.
  { rewrite !Z.div_div by lia. f_equal. unfold D. replace (32 - s) with (1 + (31 - s)) by lia.
    rewrite Z.pow_add_r by lia. lia. }
  assert (0 < 2 ^ (32 - s)) by lia. assert (0 < D) by (unfold D; nia).
  assert (n * (d - D) < d * D) as Hnd'.
  { assert (2 ^ 31 * 2 ^ (32 - s) ≤ D) as HD by (unfold D; nia).
    destruct (decide (s = 31)) as [Es|].
    - rewrite Es in *. change (2 ^ (32 - 31)) with 2 in *. nia.
    - assert (2 ^ 2 ≤ 2 ^ (32 - s)) by (apply Z.pow_le_mono_r; lia). set (e := 2 ^ (32 - s)) in *.
      assert (2 ^ 33 ≤ D) by nia. assert (2 ^ 31 * e * 2 ^ 33 ≤ D * D) by (apply Z.mul_le_mono_nonneg; lia).
      assert (n * (d - D) < 2 ^ 64 * e) by nia. nia. }
  destruct (estimate n d D) as [Q0 Q1]; [lia..|].
  pose proof (Z.div_mod n d ltac:(lia)) as En. pose proof (Z.mod_pos_bound n d ltac:(lia)) as Hr.
  assert (1 ≤ n / d) by (apply Z.div_le_lower_bound; lia).
  assert (n / d < 2 ^ 32) by (apply Z.div_lt_upper_bound; nia).
  set (Q := n / d) in *. set (q := n / D) in *. rewrite (wrapu_small 64 (q - 1)) by (unfold in_u; lia).
  assert (q = Q ∨ q = Q + 1) as Hq by lia. clear - En Hr Hq Hn Hd0 H2 H3. 
  assert (0 ≤ (q - 1) * d ∧ (q - 1) * d ≤ n) as Hp by (destruct Hq as [->| ->]; [split; [apply Z.mul_nonneg_nonneg; lia|lia]|split; [apply Z.mul_nonneg_nonneg; lia|lia]]).
  rewrite (wrapu_small 64 ((q - 1) * d)) by (unfold in_u; lia). rewrite (wrapu_small 64 (n - _)) by (unfold in_u; lia).
  f_equal. case_decide; destruct Hq as [->| ->]; lia.
Qed.
End large.

Lemma udiv64_ok n d : in_u 64 n → in_u 64 d → d ≠ 0 → udiv64 n d = Ok (n / d).
Proof.
  intros Hn [H0 H1] Hd. destruct (decide (d < 2 ^ 32)); [apply udiv64_small; [done|lia..]|].
  apply udiv64_large; [done|lia..].
Qed.

(** ** Signed division *)

Lemma abs64_ok n : in_s 64 n → abs64 n = Z.abs n ∧ in_u 64 (Z.abs n).
Proof.
  unfold in_s, in_u, abs64. change (2 ^ (64 - 1)) with (2 ^ 63). intros Hn. split; [|lia]. case_decide.
  - rewrite wrapu_small by (unfold in_u; lia). lia.
  - unfold wrapu. rewrite <-(Z.sub_0_l (n mod 2 ^ 64)), Zminus_mod_idemp_r.
    rewrite Z.mod_small by lia. lia.
Qed.

Lemma wraps_opp w x : 0 < w → wraps w (- wraps w x) = wraps w (- x).
Proof.
  intros Hw. apply wraps_cong. by rewrite <-!(Z.sub_0_l), Zminus_mod, wraps_mod, <-Zminus_mod by done.
Qed.

Lemma sdiv64_ok n d : in_s 64 n → in_s 64 d → d ≠ 0 → sdiv64 n d = Ok (i64 (Z.quot n d)).
Proof.
  intros Hn Hd H0. destruct (abs64_ok n Hn) as [En Un], (abs64_ok d Hd) as [Ed Ud]. unfold sdiv64.
  rewrite En, Ed, udiv64_ok by (done || lia). cbn [mbind result_bind]. f_equal. rewrite Z.quot_div by done.
  rewrite wraps_opp by lia. destruct (Z.sgn_spec n) as [[? ->]|[[<- ->]|[? ->]]].
  2: { rewrite Z.div_0_l by lia. by destruct (eqb _ _). }
  - destruct (Z.sgn_spec d) as [[? ->]|[[? ->]|[? ->]]]; [|lia|].
    + rewrite !bool_decide_eq_false_2 by lia. simpl; f_equal; lia.
    + rewrite bool_decide_eq_false_2, bool_decide_eq_true_2 by lia. simpl; f_equal; lia.
  - destruct (Z.sgn_spec d) as [[? ->]|[[? ->]|[? ->]]]; [|lia|].
    + rewrite bool_decide_eq_true_2, bool_decide_eq_false_2 by lia. simpl; f_equal; lia.
    + rewrite !bool_decide_eq_true_2 by lia. simpl; f_equal; lia.
Qed.

(** C32. The division routines compute the quotient: the unsigned one for all
    64-bit operands with a nonzero divisor, without a divide error in [DIVL];
    the signed one the quotient rounded toward zero, reduced to 64 bits for
    the smallest value divided by -1. *)
Theorem division64_correct n d :
  d ≠ 0 →
  (in_u 64 n → in_u 64 d → udivdi3 n d = Ok (n / d)) ∧
  (in_s 64 n → in_s 64 d → divdi3 n d = Ok (i64 (Z.quot n d))).
Proof. intros Hd. split; intros; [by apply udiv64_ok|by apply sdiv64_ok]. Qed.

Lemma division64_correct_witness :
  udivdi3 0xffffffffffffffff 0x1000000ff = Ok 0xffffff01 ∧ divdi3 (-7) 2 = Ok (-3).
Proof.
  split.
  - refine (proj1 (division64_correct 0xffffffffffffffff 0x1000000ff _) _ _); [done|by split|by split].
  - refine (proj2 (division64_correct (-7) 2 _) _ _); [done|by split|by split].
Defined.

(** The remainder routines return only the low 32 bits of the remainder:
    when the remainder does not fit in 32 bits, the result is wrong. *)
Theorem remainder64_truncated n d :
  d ≠ 0 →
  (in_u 64 n → in_u 64 d → umoddi3 n d = Ok (u32 (n mod d))) ∧
  (in_s 64 n → in_s 64 d → moddi3 n d = Ok (i32 (Z.rem n d))).
Proof.
  intros Hd. split; intros Hn Hd'.
  - unfold umoddi3, umod64. rewrite udiv64_ok by done. cbn [mbind result_bind]. do 2 f_equal.
    unfold in_u in *. pose proof (Z.div_mod n d Hd) as E. pose proof (Z.mod_pos_bound n d ltac:(lia)).
    assert (0 ≤ n / d) by (apply Z.div_pos; lia).
    rewrite (wrapu_small 64 (d * _)) by (unfold in_u; nia). rewrite wrapu_small by (unfold in_u; lia). lia.
  - unfold moddi3, smod64. rewrite sdiv64_ok by done. cbn [mbind result_bind]. f_equal. apply wraps_cong.
    assert (∀ x y, x mod 2 ^ 64 = y mod 2 ^ 64 → x mod 2 ^ 32 = y mod 2 ^ 32) as Hm.
    { intros x y E. assert (∀ z, z mod 2 ^ 32 = (z mod 2 ^ 64) mod 2 ^ 32) as Hz
        by (intros z; apply Znumtheory.Zmod_div_mod; [lia|lia|by exists (2 ^ 32)]).
      by rewrite (Hz x), (Hz y), E. }
    apply Hm. rewrite wraps_mod by lia. rewrite Zminus_mod, wraps_mod, Zmult_mod, wraps_mod by lia.
    rewrite <-Zmult_mod, <-Zminus_mod. f_equal. pose proof (Z.quot_rem n d Hd). lia.
Qed.

Lemma remainder64_truncated_witness :
  umoddi3 0x300000000 0x200000000 = Ok 0 ∧ 0x300000000 mod 0x200000000 = 0x100000000.
Proof.
  split; [|reflexivity]. refine (proj1 (remainder64_truncated 0x300000000 0x200000000 _) _ _); [done|by split|by split].
Defined.
