(* ===== verification/FixedPoint.v ===== *)
(** * Fixed-point numbers

    threads/fixed-point.h: 32-bit numbers with 16 fractional bits.  [int] and
    [long long] results are reduced to their width; division truncates toward
    zero and a zero divisor is a divide error. *)

From S2P Require Import Prelude.

Definition FIX_P : Z := 16.
Definition FIX_Q : Z := 16.
Definition FIX_F : Z := Z.shiftl 1 FIX_Q.
Definition FIX_MAX_INT : Z := Z.shiftl 1 FIX_P - 1.
Definition FIX_MIN_INT : Z := - FIX_MAX_INT.

Record fixed_point_t := mk_fix { f : Z }.

Definition check (b : bool) : result unit := if b then Ok tt else Err AssertFailed.
Definition quot (n d : Z) : result Z := if decide (d = 0) then Err Panicked else Ok (Z.quot n d).

Definition fix_int (n : Z) : result fixed_point_t :=
  check (bool_decide (n >= FIX_MIN_INT ∧ n ≤ FIX_MAX_INT));;
  Ok (mk_fix (i32 (n * FIX_F))).

Definition fix_frac (n d : Z) : result fixed_point_t :=
  check (bool_decide (d ≠ 0));;
  q ← quot n d;
  check (bool_decide (q >= FIX_MIN_INT ∧ q ≤ FIX_MAX_INT));;
  r ← quot (i64 (n * FIX_F)) d; Ok (mk_fix (i32 r)).

Definition fix_round (x : fixed_point_t) : Z := Z.quot (i32 (f x + FIX_F / 2)) FIX_F.
Definition fix_trunc (x : fixed_point_t) : Z := Z.quot (f x) FIX_F.
Definition fix_add (x y : fixed_point_t) : fixed_point_t := mk_fix (i32 (f x + f y)).
Definition fix_sub (x y : fixed_point_t) : fixed_point_t := mk_fix (i32 (f x - f y)).
Definition fix_mul (x y : fixed_point_t) : fixed_point_t := mk_fix (i32 (Z.quot (i64 (f x * f y)) FIX_F)).
Definition fix_scale (x : fixed_point_t) (n : Z) : result fixed_point_t :=
  check (bool_decide (n >= 0));; Ok (mk_fix (i32 (f x * n))).
Definition fix_div (x y : fixed_point_t) : result fixed_point_t :=
  r ← quot (i64 (f x * FIX_F)) (f y); Ok (mk_fix (i32 r)).
Definition fix_unscale (x : fixed_point_t) (n : Z) : result fixed_point_t :=
  check (bool_decide (n > 0));; r ← quot (f x) n; Ok (mk_fix (i32 r)).
Definition fix_inv (x : fixed_point_t) : result fixed_point_t := one ← fix_int 1; fix_div one x.
Definition fix_compare (x y : fixed_point_t) : Z :=
  if decide (f x < f y) then -1 else if decide (f x > f y) then 1 else 0.

(** ** Integers and fractions *)

Lemma i32_small x : - 2 ^ 31 ≤ x → x < 2 ^ 31 → i32 x = x.
Proof. intros. apply wraps_small; [lia|]. unfold in_s. change (2 ^ (32 - 1)) with (2 ^ 31). lia. Qed.

Lemma fix_int_ok k : in_s 16 k → fix_int k = Ok (mk_fix (k * 65536)).
Proof.
  unfold in_s. change (2 ^ (16 - 1)) with 32768. intros Hk.
  unfold fix_int, check, FIX_MIN_INT, FIX_MAX_INT, FIX_F, FIX_P, FIX_Q.
  change (Z.shiftl 1 16) with 65536. rewrite bool_decide_eq_true_2 by lia. cbn [mbind result_bind].
  by rewrite i32_small by lia.
Qed.

(** Integers of 16 bits survive the conversion to fixed point and back,
    and sums, differences and products of them are exact when the result is
    such an integer.  Rounding is exact for the integers that are not negative
    and one too large for the negative ones. *)
Theorem fixed_point_integers m n :
  in_s 16 m → in_s 16 n →
  ∃ x y, fix_int m = Ok x ∧ fix_int n = Ok y ∧
    fix_trunc x = m ∧ fix_round x = (if decide (m < 0) then m + 1 else m) ∧
    (in_s 16 (m + n) → fix_int (m + n) = Ok (fix_add x y)) ∧
    (in_s 16 (m - n) → fix_int (m - n) = Ok (fix_sub x y)) ∧
    (in_s 16 (m * n) → fix_int (m * n) = Ok (fix_mul x y)) ∧
    fix_compare x y = (if decide (m < n) then -1 else if decide (m > n) then 1 else 0).
Proof.
  intros Hm Hn. exists (mk_fix (m * 65536)), (mk_fix (n * 65536)).
  split; [by apply fix_int_ok|]. split; [by apply fix_int_ok|].
  unfold fix_trunc, fix_round, fix_add, fix_sub, fix_mul, fix_compare, FIX_F, FIX_Q, in_s in *. cbn [f].
  change (Z.shiftl 1 16) with 65536. change (65536 / 2) with 32768. change (2 ^ (16 - 1)) with 32768 in *.
  split_and!.
  - by apply Z.quot_mul.
  - rewrite i32_small by lia. case_decide.
    + rewrite <-(Z.opp_involutive (_ + 32768)), Z.quot_opp_l, Z.quot_div_nonneg by lia.
      rewrite <-(Z.div_unique_pos _ _ (- m - 1) 32768); lia.
    + rewrite Z.quot_div_nonneg by lia. symmetry. apply (Z.div_unique_pos _ _ _ 32768); lia.
  - intros Hs. rewrite fix_int_ok by done. do 2 f_equal. rewrite i32_small by lia. lia.
  - intros Hs. rewrite fix_int_ok by done. do 2 f_equal. rewrite i32_small by lia. lia.
  - intros Hs. rewrite fix_int_ok by done. do 2 f_equal.
    rewrite (wraps_small 64) by (unfold in_s; change (2 ^ (64 - 1)) with (2 ^ 63); nia).
    replace (m * 65536 * (n * 65536)) with (m * n * 65536 * 65536) by lia.
    rewrite Z.quot_mul by lia. rewrite i32_small by lia. done.
  - repeat case_decide; lia.
Qed.

Lemma fixed_point_integers_witness :
  ∃ x y, fix_int (-3) = Ok x ∧ fix_int 200 = Ok y ∧ fix_round x = -2 ∧ fix_int (-600) = Ok (fix_mul x y).
Proof.
  destruct (fixed_point_integers (-3) 200) as (x & y & E1 & E2 & _ & Hr & _ & _ & Hp & _);
    [split; vm_compute; discriminate || reflexivity..|].
  exists x, y. split_and!; [exact E1|exact E2|exact Hr|]. apply Hp. split; vm_compute; discriminate || reflexivity.
Defined.

(** The assertion of [fix_int] admits integers of 17 bits, whose fixed-point
    value overflows. *)
Lemma fix_int_overflow n :
  2 ^ 15 ≤ n → n ≤ FIX_MAX_INT → ∃ x, fix_int n = Ok x ∧ fix_trunc x = n - 2 ^ 16.
Proof.
  unfold fix_int, check, fix_trunc, FIX_MIN_INT, FIX_MAX_INT, FIX_F, FIX_P, FIX_Q.
  change (Z.shiftl 1 16) with 65536. intros H1 H2. rewrite bool_decide_eq_true_2 by lia. cbn [mbind result_bind].
  eexists. split; [done|]. cbn [f].
  assert (i32 (n * 65536) = (n - 65536) * 65536) as ->; [|by apply Z.quot_mul].
  rewrite <-(i32_small ((n - 65536) * 65536)) by lia. apply wraps_cong.
  replace (n * 65536) with ((n - 65536) * 65536 + 1 * 2 ^ 32) by lia. apply Z_mod_plus_full.
Qed.
