(* ===== verification/Random.v ===== *)
(** * Pseudo-random numbers

    lib/random.c: an RC4 key stream.  The state is the static array [s], its
    two indexes and the flag that says whether it has been initialised. *)

From S2P Require Import Prelude.

Record random := Random { s : list Z; s_i : Z; s_j : Z; inited : bool }.

Definition rd_s (i : Z) : M random Z := λ r,
  match s r !! Z.to_nat i with Some b => Ok (b, r) | None => Err BadAccess end.
Definition wr_s (i b : Z) : M random unit := λ r,
  if decide (Z.to_nat i < length (s r))%nat
  then Ok (tt, Random (<[Z.to_nat i := b]> (s r)) (s_i r) (s_j r) (inited r)) else Err BadAccess.

(** [swap_byte (s + i, s + j)]. *)
Definition swap_byte (i j : Z) : M random unit :=
  t ← rd_s i; b ← rd_s j; wr_s i b;; wr_s j t.

(** [for (i = 0; i < 256; i++) s[i] = i], [n] iterations left. *)
Fixpoint init_identity (i : Z) (n : nat) : M random unit :=
  match n with O => mret tt | S n => wr_s i (u8 i);; init_identity (i + 1) n end.

(** The key schedule, [n] iterations left; [seedp] holds the bytes of the seed. *)
Fixpoint init_schedule (seedp : list Z) (i j : Z) (n : nat) : M random unit :=
  match n with
  | O => mret tt
  | S n =>
      si ← rd_s i;
      let j := u8 (j + (si + default 0 (seedp !! Z.to_nat (i mod 4)))) in
      swap_byte i j;; init_schedule seedp (i + 1) j n
  end.

Definition random_init (seed : Z) : M random unit :=
  let seedp := le_bytes 4 (u32 seed) in
  init_identity 0 256;;
  init_schedule seedp 0 0 256;;
  modify (λ r, Random (s r) 0 0 true).

(** The bytes written to the buffer. *)
Fixpoint random_bytes_loop (size : nat) : M random (list Z) :=
  match size with
  | O => mret []
  | S size =>
      modify (λ r, Random (s r) (u8 (s_i r + 1)) (s_j r) (inited r));;
      i ← gets s_i; si ← rd_s i;
      modify (λ r, Random (s r) (s_i r) (u8 (s_j r + si)) (inited r));;
      j ← gets s_j;
      swap_byte i j;;
      si ← rd_s i; sj ← rd_s j;
      b ← rd_s (u8 (si + sj));
      bs ← random_bytes_loop size; mret (b :: bs)
  end.

Definition random_bytes (size : nat) : M random (list Z) :=
  i ← gets inited;
  (if (i : bool) then mret tt else random_init 0);;
  random_bytes_loop size.

Definition random_ulong : M random Z := bs ← random_bytes 4; mret (le_value bs).

(** ** The state stays a permutation *)

Definition perm_state (r : random) : Prop := s r ≡ₚ seqZ 0 256 ∧ in_u 8 (s_i r) ∧ in_u 8 (s_j r).

(** Before initialisation only the size of the array is known. *)
Definition random_wf (r : random) : Prop :=
  length (s r) = 256%nat ∧ (inited r = true → perm_state r).

Lemma perm_length (l : list Z) : l ≡ₚ seqZ 0 256 → length l = 256%nat.
Proof. intros ->. apply length_seqZ. Qed.

Lemma perm_elem (l : list Z) i : l ≡ₚ seqZ 0 256 → in_u 8 i → ∃ b, l !! Z.to_nat i = Some b ∧ in_u 8 b.
Proof.
  intros Hp Hi. unfold in_u in *. destruct (lookup_lt_is_Some_2 l (Z.to_nat i)) as [b E]; [rewrite perm_length by done; lia|].
  exists b. split; [done|]. apply list_elem_of_lookup_2 in E. rewrite Hp in E. apply elem_of_seqZ in E. lia.
Qed.

Lemma rd_s_ok r i : s r ≡ₚ seqZ 0 256 → in_u 8 i →
  ∃ b, s r !! Z.to_nat i = Some b ∧ rd_s i r = Ok (b, r) ∧ in_u 8 b.
Proof. intros Hp Hi. destruct (perm_elem (s r) i Hp Hi) as (b & E & Hb). exists b. unfold rd_s. by rewrite E. Qed.

Lemma swap_byte_ok r i j :
  s r ≡ₚ seqZ 0 256 → in_u 8 i → in_u 8 j →
  ∃ l, swap_byte i j r = Ok (tt, Random l (s_i r) (s_j r) (inited r)) ∧ l ≡ₚ seqZ 0 256.
Proof.
  intros Hp Hi Hj. destruct (rd_s_ok r i Hp Hi) as (t & Et & Ert & _).
  destruct (rd_s_ok r j Hp Hj) as (b & Eb & Erb & _). unfold swap_byte.
  rewrite (bind_ok _ _ _ _ _ Ert), (bind_ok _ _ _ _ _ Erb). unfold wr_s. cbv [mbind M_bind]. cbn [s s_i s_j inited].
  pose proof (perm_length _ Hp). unfold in_u in *. rewrite decide_True by lia. cbn [s s_i s_j inited].
  rewrite length_insert, decide_True by lia. eexists. split; [done|]. rewrite <-Hp. by apply swap_perm.
Qed.

Lemma init_identity_ok n i r :
  length (s r) = 256%nat → 0 ≤ i → i + Z.of_nat n = 256 → take (Z.to_nat i) (s r) = seqZ 0 i →
  init_identity i n r = Ok (tt, Random (seqZ 0 256) (s_i r) (s_j r) (inited r)).
Proof.
  revert i r. induction n as [|n IH]; intros i r Hl Hi Hn Ht; cbn [init_identity].
  - replace i with 256 in Ht by lia. rewrite take_ge in Ht by lia. rewrite <-Ht. by destruct r.
  - unfold wr_s. cbv [mbind M_bind]. rewrite decide_True by lia. rewrite IH; cbn [s s_i s_j inited]; try lia.
    + done.
    + by rewrite length_insert.
    + rewrite wrapu_small by (unfold in_u; lia). replace (Z.to_nat (i + 1)) with (S (Z.to_nat i)) by lia.
      rewrite (take_S_r _ _ i) by (apply list_lookup_insert_eq; lia). rewrite take_insert_ge by lia. rewrite Ht.
      rewrite (seqZ_app 0 i 1) by lia. done.
Qed.

Lemma init_schedule_ok seedp n i j r :
  s r ≡ₚ seqZ 0 256 → 0 ≤ i → i + Z.of_nat n ≤ 256 →
  ∃ l, init_schedule seedp i j n r = Ok (tt, Random l (s_i r) (s_j r) (inited r)) ∧ l ≡ₚ seqZ 0 256.
Proof.
  revert i j r. induction n as [|n IH]; intros i j r Hp Hi Hn.
  { exists (s r). split; [by destruct r|done]. }
  cbn [init_schedule]. destruct (rd_s_ok r i Hp) as (b & _ & E & _); [unfold in_u; lia|].
  rewrite (bind_ok _ _ _ _ _ E). set (j' := u8 _).
  destruct (swap_byte_ok r i j' Hp) as (l & E' & Hl); [unfold in_u; lia|by apply wrapu_range|].
  rewrite (bind_ok _ _ _ _ _ E'). apply (IH (i + 1) j' (Random l (s_i r) (s_j r) (inited r))); [done|lia..].
Qed.

Lemma random_init_ok seed r :
  length (s r) = 256%nat → ∃ r', random_init seed r = Ok (tt, r') ∧ perm_state r' ∧ inited r' = true.
Proof.
  intros Hl. unfold random_init.
  rewrite (bind_ok _ _ _ _ _ (init_identity_ok 256 0 r Hl ltac:(lia) ltac:(lia) eq_refl)).
  destruct (init_schedule_ok (le_bytes 4 (u32 seed)) 256 0 0 (Random (seqZ 0 256) (s_i r) (s_j r) (inited r)))
    as (l & E & Hp); [done|lia..|]. rewrite (bind_ok _ _ _ _ _ E). eexists. split; [done|]. by split.
Qed.

Lemma random_bytes_loop_ok n r :
  perm_state r → inited r = true →
  ∃ bs r', random_bytes_loop n r = Ok (bs, r') ∧ length bs = n ∧ Forall (in_u 8) bs ∧ perm_state r' ∧ inited r' = true.
Proof.
  revert r. induction n as [|n IH]; intros r (Hp & Hi & Hj) Hin.
  { exists [], r. split_and!; done. }
  cbn [random_bytes_loop]. rewrite (bind_ok _ _ _ _ _ (eq_refl : modify _ r = _)). cbn [s s_i s_j inited].
  set (r1 := Random (s r) _ _ _). assert (in_u 8 (s_i r1)) as Hi1 by by apply wrapu_range.
  rewrite (bind_ok _ _ _ _ r1 eq_refl). destruct (rd_s_ok r1 (s_i r1) Hp Hi1) as (b1 & _ & E1 & _).
  rewrite (bind_ok _ _ _ _ _ E1), (bind_ok _ _ _ _ _ (eq_refl : modify _ r1 = _)).
  set (r2 := Random (s r1) _ _ _). assert (in_u 8 (s_j r2)) as Hj2 by by apply wrapu_range.
  rewrite (bind_ok _ _ _ _ r2 eq_refl).
  destruct (swap_byte_ok r2 (s_i r1) (s_j r2) Hp Hi1 Hj2) as (l & E2 & Hl). rewrite (bind_ok _ _ _ _ _ E2).
  set (r3 := Random l _ _ _). destruct (rd_s_ok r3 (s_i r1) Hl Hi1) as (b2 & _ & E3 & _).
  destruct (rd_s_ok r3 (s_j r2) Hl Hj2) as (b3 & _ & E4 & _).
  destruct (rd_s_ok r3 (u8 (b2 + b3)) Hl) as (b4 & _ & E5 & Hb4); [by apply wrapu_range|].
  rewrite (bind_ok _ _ _ _ _ E3), (bind_ok _ _ _ _ _ E4), (bind_ok _ _ _ _ _ E5).
  destruct (IH r3) as (bs & r' & E6 & Hbs & Hf & Hr'); [by split|done|]. rewrite (bind_ok _ _ _ _ _ E6).
  exists (b4 :: bs), r'. split_and!; [done|simpl; by rewrite Hbs|by constructor|apply Hr'|apply Hr'].
Qed.

(** The generator never indexes outside its array, whether or not it was
    seeded: from any state in which the array has its size and, once seeded, is
    a permutation of the bytes, [random_bytes] returns the requested number of
    bytes and leaves such a state; [random_ulong] returns a 32-bit number. *)
Theorem random_in_bounds n r :
  random_wf r →
  (∃ bs r', random_bytes n r = Ok (bs, r') ∧ length bs = n ∧ Forall (in_u 8) bs ∧ random_wf r' ∧ inited r' = true) ∧
  (∃ v r', random_ulong r = Ok (v, r') ∧ in_u 32 v ∧ random_wf r').
Proof.
  intros [Hl Hi].
  assert (∀ n, ∃ bs r', random_bytes n r = Ok (bs, r') ∧ length bs = n ∧ Forall (in_u 8) bs ∧ random_wf r' ∧
    inited r' = true) as Hb.
  { intros k. unfold random_bytes. rewrite (bind_ok _ _ _ _ r eq_refl).
    assert (∃ r1, (if inited r then mret tt else random_init 0) r = Ok (tt, r1) ∧ perm_state r1 ∧ inited r1 = true)
      as (r1 & E1 & Hp & Hin).
    { destruct (inited r) eqn:E; [by exists r; auto|]. by apply random_init_ok. }
    rewrite (bind_ok _ _ _ _ _ E1). destruct (random_bytes_loop_ok k r1 Hp Hin) as (bs & r' & E & Hbs & Hf & Hp' & Hin').
    exists bs, r'. split_and!; try done. split; [by apply perm_length, Hp'|done]. }
  split; [apply Hb|]. destruct (Hb 4%nat) as (bs & r' & E & Hbs & Hf & Hwf & _). exists (le_value bs), r'.
  unfold random_ulong. rewrite (bind_ok _ _ _ _ _ E). split_and!; [done| |done].
  pose proof (le_value_range bs Hf) as Hv. by rewrite Hbs in Hv.
Qed.

Lemma random_in_bounds_witness :
  ∃ bs r', random_bytes 3 (Random (replicate 256 0) 0 0 false) = Ok (bs, r') ∧ length bs = 3%nat.
Proof.
  destruct (random_in_bounds 3 (Random (replicate 256 0) 0 0 false)) as [(bs & r' & E & Hl & _) _].
  - split; [reflexivity|discriminate].
  - exists bs, r'. exact (conj E Hl).
Defined.
