(* ===== verification/Stdio.v ===== *)
(** * Formatted output

    lib/stdio.c: [printf] conversions.  The characters that a function passes to
    its [output] callback are modelled as the list it returns, in order; the
    callbacks consume that list.  Formats and strings are in memory; the
    [va_list] is the list of the 32-bit words of the arguments on the stack, a
    64-bit argument being two words, the low one first.  A buffer to write is taken
    not to overlap the format and the arguments. *)

From S2P Require Import Prelude CString CStdlib.

(** ** Conversions *)

Definition MINUS : Z := 1.
Definition PLUS : Z := 2.
Definition SPACE : Z := 4.
Definition POUND : Z := 8.
Definition ZERO : Z := 16.
Definition GROUP : Z := 32.

Inductive arg_type := CHAR | SHORT | INT | INTMAX | LONG | LONGLONG | PTRDIFFT | SIZET.

Record printf_conversion := Conversion { flags : Z; width : Z; precision : Z; type : arg_type }.

Record integer_base := IntegerBase { base : Z; digits : list Z; x_char : Z; group : Z }.

(** "0123456789" and so on. *)
Definition base_d : integer_base := IntegerBase 10 (seqZ 48 10) 0 3.
Definition base_o : integer_base := IntegerBase 8 (seqZ 48 8) 0 3.
Definition base_x : integer_base := IntegerBase 16 (seqZ 48 10 ++ seqZ 97 6) 120 4.
Definition base_X : integer_base := IntegerBase 16 (seqZ 48 10 ++ seqZ 65 6) 88 4.

(** [c->flags & flag]. *)
Definition has (c : printf_conversion) (flag : Z) : bool := bool_decide (Z.land (flags c) flag ≠ 0).

(** ** Arguments *)

Definition va_word (args : list Z) : result (Z * list Z) :=
  match args with w :: args => Ok (w, args) | [] => Err BadAccess end.
Definition va_int (args : list Z) : result (Z * list Z) :=
  '(w, args) ← va_word args; Ok (i32 w, args).
Definition va_unsigned (args : list Z) : result (Z * list Z) :=
  '(w, args) ← va_word args; Ok (u32 w, args).
Definition va_u64 (args : list Z) : result (Z * list Z) :=
  '(lo, args) ← va_word args; '(hi, args) ← va_word args; Ok (u64 (u32 lo + 2 ^ 32 * u32 hi), args).
Definition va_i64 (args : list Z) : result (Z * list Z) :=
  '(v, args) ← va_u64 args; Ok (i64 v, args).

(** The argument of a signed conversion. *)
Definition signed_arg (t : arg_type) (args : list Z) : result (Z * list Z) :=
  match t with
  | CHAR => '(v, args) ← va_int args; Ok (i8 v, args)
  | SHORT => '(v, args) ← va_int args; Ok (i16 v, args)
  | INT | LONG | PTRDIFFT => va_int args
  | INTMAX | LONGLONG => va_i64 args
  | SIZET =>
      '(v, args) ← va_unsigned args;
      Ok (if decide (v > (2 ^ 32 - 1) / 2) then v - (2 ^ 32 - 1) - 1 else v, args)
  end.

(** The argument of an unsigned conversion. *)
Definition unsigned_arg (t : arg_type) (args : list Z) : result (Z * list Z) :=
  match t with
  | CHAR => '(v, args) ← va_unsigned args; Ok (u8 v, args)
  | SHORT => '(v, args) ← va_unsigned args; Ok (u16 v, args)
  | INT | LONG | SIZET => va_unsigned args
  | INTMAX | LONGLONG => va_u64 args
  | PTRDIFFT => '(v, args) ← va_int args; Ok (Z.land (u64 v) (Z.lor (Z.shiftl (2 ^ 31 - 1) 1) 1), args)
  end.

(** ** Formatting *)

Definition output_dup (ch cnt : Z) : list Z := replicate (Z.to_nat cnt) ch.

(** [*cp++ = ch] in [char buf[64]]. *)
Definition push (buf : list Z) (ch : Z) : result (list Z) :=
  if decide (length buf < 64)%nat then Ok (buf ++ [ch]) else Err BadAccess.

(** The loop that accumulates digits, in reverse order. *)
Fixpoint format_digits (fuel : nat) (b : integer_base) (c : printf_conversion) (value digit_cnt : Z)
    (buf : list Z) : result (list Z) :=
  if decide (value > 0) then
    match fuel with
    | O => Err OutOfFuel
    | S fuel =>
        buf ← (if has c GROUP && bool_decide (digit_cnt > 0 ∧ digit_cnt mod group b = 0)
               then push buf 44 else Ok buf);
        match digits b !! Z.to_nat (value mod base b) with
        | None => Err BadAccess
        | Some d => buf ← push buf d; format_digits fuel b c (value / base b) (digit_cnt + 1) buf
        end
    end
  else Ok buf.

(** The loop that appends zeros; at most [n] are needed. *)
Fixpoint pad_zeros (n : nat) (prec : Z) (buf : list Z) : result (list Z) :=
  if decide (Z.of_nat (length buf) < prec ∧ (length buf < 63)%nat) then
    match n with O => Err OutOfFuel | S n => buf ← push buf 48; pad_zeros n prec buf end
  else Ok buf.

Definition sign_char (is_signed negative : bool) (c : printf_conversion) : Z :=
  if is_signed then
    if has c PLUS then (if negative then 45 else 43)
    else if has c SPACE then (if negative then 45 else 32)
    else if negative then 45 else 0
  else 0.

Definition format_integer (value : Z) (is_signed negative : bool) (b : integer_base) (c : printf_conversion)
    : result (list Z) :=
  let sign := sign_char is_signed negative c in
  let xc := if has c POUND && bool_decide (value ≠ 0) then x_char b else 0 in
  buf ← format_digits 64 b c value 0 [];
  let prec := if decide (precision c < 0) then 1 else precision c in
  buf ← pad_zeros 64 prec buf;
  buf ← (if has c POUND && bool_decide (base b = 8 ∧ last buf ≠ Some 48) then push buf 48 else Ok buf);
  let pad_cnt := i32 (width c - Z.of_nat (length buf) - (if decide (xc ≠ 0) then 2 else 0)
                      - (if decide (sign ≠ 0) then 1 else 0)) in
  let pad_cnt := if decide (pad_cnt < 0) then 0 else pad_cnt in
  Ok ((if negb (has c (Z.lor MINUS ZERO)) then output_dup 32 pad_cnt else []) ++
      (if decide (sign ≠ 0) then [sign] else []) ++
      (if decide (xc ≠ 0) then [48; xc] else []) ++
      (if has c ZERO then output_dup 48 pad_cnt else []) ++
      rev buf ++
      (if has c MINUS then output_dup 32 pad_cnt else [])).

(** The characters of a string are given. *)
Definition format_string (string : list Z) (c : printf_conversion) : list Z :=
  let length := Z.of_nat (length string) in
  (if decide (width c > length) then if has c MINUS then [] else output_dup 32 (width c - length) else []) ++
  string ++
  (if decide (width c > length) then if has c MINUS then output_dup 32 (width c - length) else [] else []).

(** ** Parsing a conversion *)

Definition flag_of (ch : Z) : option Z :=
  if decide (ch = 45) then Some MINUS else if decide (ch = 43) then Some PLUS
  else if decide (ch = 32) then Some SPACE else if decide (ch = 35) then Some POUND
  else if decide (ch = 48) then Some ZERO else if decide (ch = 39) then Some GROUP else None.

Fixpoint parse_flags (fuel : nat) (format fl : Z) : M mem (Z * Z) :=
  match fuel with
  | O => fail OutOfFuel
  | S fuel =>
      ch ← rd8 format;
      match flag_of ch with
      | Some f => parse_flags fuel (format + 1) (Z.lor fl f)
      | None => mret (format, fl)
      end
  end.

(** A decimal number, accumulated from [v]. *)
Fixpoint parse_number (fuel : nat) (format v : Z) : M mem (Z * Z) :=
  match fuel with
  | O => fail OutOfFuel
  | S fuel =>
      ch ← rd8 format;
      if isdigit ch then parse_number fuel (format + 1) (i32 (i32 (i32 (v * 10) + ch) - 48)) else mret (format, v)
  end.

Definition parse_width (format fl : Z) (args : list Z) : M mem (Z * Z * Z * list Z) :=
  ch ← rd8 format;
  n ← bound;
  '(format, width, args) ←
    (if decide (ch = 42) then '(w, args) ← lift (va_int args); mret (format + 1, w, args)
     else '(format, w) ← parse_number n format 0; mret (format, w, args));
  mret (if decide (width < 0) then (format, Z.lor fl MINUS, i32 (- width), args) else (format, fl, width, args)).

Definition parse_precision (format : Z) (args : list Z) : M mem (Z * Z * list Z) :=
  ch ← rd8 format;
  if decide (ch = 46) then
    let format := format + 1 in
    ch ← rd8 format;
    n ← bound;
    '(format, precision, args) ←
      (if decide (ch = 42) then '(p, args) ← lift (va_int args); mret (format + 1, p, args)
       else '(format, p) ← parse_number n format 0; mret (format, p, args));
    mret (format, if decide (precision < 0) then -1 else precision, args)
  else mret (format, -1, args).

Definition parse_type (format : Z) : M mem (Z * arg_type) :=
  ch ← rd8 format;
  if decide (ch = 104) then
    ch ← rd8 (format + 1); mret (if decide (ch = 104) then (format + 2, CHAR) else (format + 1, SHORT))
  else if decide (ch = 106) then mret (format + 1, INTMAX)
  else if decide (ch = 108) then
    ch ← rd8 (format + 1); mret (if decide (ch = 108) then (format + 2, LONGLONG) else (format + 1, LONG))
  else if decide (ch = 116) then mret (format + 1, PTRDIFFT)
  else if decide (ch = 122) then mret (format + 1, SIZET)
  else mret (format, INT).

Definition parse_conversion (format : Z) (args : list Z) : M mem (Z * printf_conversion * list Z) :=
  n ← bound;
  '(format, fl) ← parse_flags n format 0;
  let fl := if decide (Z.land fl MINUS ≠ 0) then Z.land fl (Z.lnot ZERO) else fl in
  let fl := if decide (Z.land fl PLUS ≠ 0) then Z.land fl (Z.lnot SPACE) else fl in
  '(format, fl, width, args) ← parse_width format fl args;
  '(format, precision, args) ← parse_precision format args;
  let fl := if decide (precision >= 0) then Z.land fl (Z.lnot ZERO) else fl in
  '(format, type) ← parse_type format;
  mret (format, Conversion fl width precision type, args).

(** ** __vprintf *)

(** [n] characters of memory. *)
Fixpoint read_chars (a : Z) (n : nat) : M mem (list Z) :=
  match n with O => mret [] | S n => b ← rd8 a; bs ← read_chars (a + 1) n; mret (b :: bs) end.

(** "(null)" *)
Definition null_string : list Z := [40; 110; 117; 108; 108; 41].
(** "<<no %" and " in kernel>>", " conversion>>" *)
Definition no_prefix : list Z := [60; 60; 110; 111; 32; 37].
Definition in_kernel : list Z := [32; 105; 110; 32; 107; 101; 114; 110; 101; 108; 62; 62].
Definition no_conversion : list Z := [32; 99; 111; 110; 118; 101; 114; 115; 105; 111; 110; 62; 62].

(** One conversion, the character [ch] of which has been reached. *)
Definition do_conversion (ch : Z) (c : printf_conversion) (args : list Z) : M mem (list Z * list Z) :=
  if decide (ch = 100 ∨ ch = 105) then
    '(value, args) ← lift (signed_arg (type c) args);
    out ← lift (format_integer (u64 (if decide (value < 0) then - value else value)) true
                  (bool_decide (value < 0)) base_d c);
    mret (out, args)
  else if decide (ch = 111 ∨ ch = 117 ∨ ch = 120 ∨ ch = 88) then
    '(value, args) ← lift (unsigned_arg (type c) args);
    let b := if decide (ch = 111) then base_o else if decide (ch = 117) then base_d
             else if decide (ch = 120) then base_x else base_X in
    out ← lift (format_integer value false false b c);
    mret (out, args)
  else if decide (ch = 99) then
    '(v, args) ← lift (va_int args); mret (format_string [u8 v] c, args)
  else if decide (ch = 115) then
    '(s, args) ← lift (va_unsigned args);
    (if decide (s = NULL) then
       let n := if decide (precision c < 0) then 6%nat else Z.to_nat (precision c) in
       mret (format_string (take n null_string) c, args)
     else
       len ← strnlen s (u32 (precision c));
       string ← read_chars s (Z.to_nat len); mret (format_string string c, args))
  else if decide (ch = 112) then
    '(p, args) ← lift (va_unsigned args);
    out ← lift (format_integer p false false base_x (Conversion POUND (width c) (precision c) (type c)));
    mret (out, args)
  else if decide (ch = 102 ∨ ch = 101 ∨ ch = 69 ∨ ch = 103 ∨ ch = 71 ∨ ch = 110) then
    mret (no_prefix ++ [ch] ++ in_kernel, args)
  else mret (no_prefix ++ [ch] ++ no_conversion, args).

Fixpoint vprintf_loop (fuel : nat) (format : Z) (args : list Z) : M mem (list Z) :=
  match fuel with
  | O => fail OutOfFuel
  | S fuel =>
      ch ← rd8 format;
      if decide (ch = 0) then mret []
      else if decide (ch ≠ 37) then out ← vprintf_loop fuel (format + 1) args; mret (ch :: out)
      else
        ch ← rd8 (format + 1);
        if decide (ch = 37) then out ← vprintf_loop fuel (format + 2) args; mret (37 :: out)
        else
          '(format, c, args) ← parse_conversion (format + 1) args;
          ch ← rd8 format;
          '(text, args) ← do_conversion ch c args;
          out ← vprintf_loop fuel (format + 1) args; mret (text ++ out)
  end.

(** The characters that [__vprintf] outputs. *)
Definition vprintf (format : Z) (args : list Z) : M mem (list Z) := n ← bound; vprintf_loop n format args.

(** ** vsnprintf *)

Record vsnprintf_aux := Aux { aux_p : Z; aux_length : Z; max_length : Z }.

Definition vsnprintf_helper (ch : Z) (aux : vsnprintf_aux) : M mem vsnprintf_aux :=
  let aux' := Aux (aux_p aux) (i32 (aux_length aux + 1)) (max_length aux) in
  if decide (aux_length aux < max_length aux)
  then wr8 (aux_p aux) ch;; mret (Aux (aux_p aux + 1) (aux_length aux') (max_length aux)) else mret aux'.

Fixpoint output_all (out : list Z) (aux : vsnprintf_aux) : M mem vsnprintf_aux :=
  match out with [] => mret aux | ch :: out => aux ← vsnprintf_helper ch aux; output_all out aux end.

Definition vsnprintf (buffer buf_size format : Z) (args : list Z) : M mem Z :=
  let aux := Aux buffer 0 (i32 (if decide (buf_size > 0) then buf_size - 1 else 0)) in
  out ← vprintf format args;
  aux ← output_all out aux;
  (if decide (buf_size > 0) then wr8 (aux_p aux) 0 else mret tt);;
  mret (aux_length aux).

Definition snprintf (buffer buf_size format : Z) (args : list Z) : M mem Z :=
  vsnprintf buffer buf_size format args.

(** ** Dumps and sizes *)

Definition zero_padded (width : Z) (t : arg_type) : printf_conversion := Conversion ZERO width (-1) t.

(** "   ", the place of a byte that is not shown. *)
Definition blank (n : Z) : list Z := concat (replicate (Z.to_nat n) [32; 32; 32]).

Definition isprint (c : Z) : bool := bool_decide (32 ≤ c ∧ c < 127).

(** The bytes [buf] of a line, the first one at position [i], in hex. *)
Fixpoint hex_bytes (i : Z) (buf : list Z) : result (list Z) :=
  match buf with
  | [] => Ok []
  | b :: buf =>
      h ← format_integer (u8 b) false false base_x (zero_padded 2 CHAR);
      rest ← hex_bytes (i + 1) buf;
      Ok (h ++ [if decide (i = 7) then 45 else 32] ++ rest)
  end.

Definition hex_line (ofs start fin : Z) (buf : list Z) (ascii : bool) : result (list Z) :=
  h ← format_integer (u64 (ofs - ofs mod 16)) false false base_x (zero_padded 8 INTMAX);
  bytes ← hex_bytes start buf;
  Ok (h ++ [32; 32] ++ blank start ++ bytes ++
      (if ascii then
         blank (16 - fin) ++ [124] ++ replicate (Z.to_nat start) 32 ++
         map (λ b, if isprint b then b else 46) buf ++ replicate (Z.to_nat (16 - fin)) 32 ++ [124]
       else []) ++ [10]).

(** The text printed for the bytes [buf]; each line shows at least one. *)
Fixpoint hex_dump_loop (fuel : nat) (ofs : Z) (buf : list Z) (ascii : bool) : result (list Z) :=
  match fuel with
  | O => Err OutOfFuel
  | S fuel =>
      match buf with
      | [] => Ok []
      | _ =>
          let size := Z.of_nat (length buf) in
          let start := ofs mod 16 in
          let fin := if decide (16 - start > size) then start + size else 16 in
          let n := fin - start in
          line ← hex_line ofs start fin (take (Z.to_nat n) buf) ascii;
          rest ← hex_dump_loop fuel (u32 (ofs + n)) (drop (Z.to_nat n) buf) ascii;
          Ok (line ++ rest)
      end
  end.

Definition hex_dump (ofs buf size : Z) (ascii : bool) : M mem (list Z) :=
  bytes ← read_chars buf (Z.to_nat size);
  lift (hex_dump_loop (S (Z.to_nat size)) ofs bytes ascii).

(** The units "bytes" to "TB". *)
Definition factors : list (list Z) := [[98; 121; 116; 101; 115]; [107; 66]; [77; 66]; [71; 66]; [84; 66]].

Fixpoint scale_size (size : Z) (fp : list (list Z)) : Z * list Z :=
  match fp with
  | [] => (size, [])
  | f :: fp' =>
      match fp' with
      | [] => (size, f)
      | _ => if decide (1024 ≤ size) then scale_size (size / 1024) fp' else (size, f)
      end
  end.

Definition print_human_readable_size (size : Z) : result (list Z) :=
  if decide (size = 1) then Ok [49; 32; 98; 121; 116; 101]
  else
    let '(size, unit) := scale_size size factors in
    n ← format_integer size false false base_d (Conversion 0 0 (-1) LONGLONG);
    Ok (n ++ [32] ++ unit).

(** ** Digits *)

(** The characters [ds], the last digit first and with commas anywhere,
    write [v] in the base [b]. *)
Inductive writes (b : integer_base) : list Z → Z → Prop :=
  | writes_nil : writes b [] 0
  | writes_comma ds v : writes b ds v → writes b (44 :: ds) v
  | writes_digit i d ds v :
      0 ≤ i → i < base b → digits b !! Z.to_nat i = Some d → writes b ds v → writes b (d :: ds) (i + base b * v).

Definition base_ok (b : integer_base) : Prop :=
  8 ≤ base b ∧ Z.of_nat (length (digits b)) = base b ∧ digits b !! 0%nat = Some 48.

Lemma bases_ok b : b ∈ [base_d; base_o; base_x; base_X] → base_ok b.
Proof. intros H. repeat (apply elem_of_cons in H as [->|H]; [by split_and!|]). by apply elem_of_nil in H. Qed.

Lemma push_ok buf ch : (length buf < 64)%nat → push buf ch = Ok (buf ++ [ch]).
Proof. intros. unfold push. by rewrite decide_True. Qed.

Lemma format_digits_ok k fuel b c value cnt buf :
  base_ok b → 0 ≤ value → value < base b ^ Z.of_nat k → (k ≤ fuel)%nat → (length buf + 2 * k ≤ 64)%nat →
  ∃ ds, format_digits fuel b c value cnt buf = Ok (buf ++ ds) ∧ writes b ds value ∧ (length ds ≤ 2 * k)%nat ∧
    (has c GROUP = false → ds ⊆ digits b ∧ (length ds ≤ k)%nat).
Proof.
  intros Hb Hv. pose proof Hb as (Hb8 & Hbl & _). revert fuel value cnt buf Hv.
  induction k as [|k IH]; intros fuel value cnt buf Hv Hlt Hf Hl.
  { change (base b ^ Z.of_nat 0) with 1 in Hlt. exists []. replace value with 0 by lia. rewrite app_nil_r.
    split_and!; [by destruct fuel|constructor|simpl; lia|intros _; split; [apply list_subseteq_nil|simpl; lia]]. }
  destruct fuel as [|fuel]; [lia|]. cbn [format_digits]. destruct (decide (value > 0)).
  2:{ exists []. rewrite app_nil_r. replace value with 0 by lia.
      split_and!; [done|constructor|simpl; lia|intros _; split; [apply list_subseteq_nil|simpl; lia]]. }
  pose proof (Z.mod_pos_bound value (base b) ltac:(lia)) as Hm.
  destruct (lookup_lt_is_Some_2 (digits b) (Z.to_nat (value mod base b))) as [d Ed]; [lia|].
  assert (0 ≤ value / base b) by (apply Z.div_pos; lia).
  assert (value / base b < base b ^ Z.of_nat k).
  { apply Z.div_lt_upper_bound; [lia|]. rewrite Nat2Z.inj_succ, Z.pow_succ_r in Hlt by lia. lia. }
  assert (value = value mod base b + base b * (value / base b)) as Ev by (pose proof (Z_div_mod_eq_full value (base b)); lia).
  assert (∀ buf', (length buf' + 2 * k < 64)%nat → ∃ ds,
    (buf ← push buf' d; format_digits fuel b c (value / base b) (cnt + 1) buf) = Ok (buf' ++ d :: ds) ∧
    writes b (d :: ds) value ∧ (length ds ≤ 2 * k)%nat ∧ (has c GROUP = false → d :: ds ⊆ digits b ∧ (length ds ≤ k)%nat)) as Hrest.
  { intros buf' Hl'. rewrite push_ok by lia. cbn [mbind result_bind].
    destruct (IH fuel (value / base b) (cnt + 1) (buf' ++ [d])) as (ds & E & Hw & Hds & Hg); [lia..|rewrite length_app; simpl; lia|].
    exists ds. rewrite E, <-app_assoc. split_and!; [done| |done|].
    - rewrite Ev. constructor; try done; lia.
    - intros HG. destruct (Hg HG) as [Hs ?]. split; [|lia].
      intros y [->|Hy]%elem_of_cons; [by eapply list_elem_of_lookup_2|by apply Hs]. }
  destruct (has c GROUP && _) eqn:Eg; cbn [mbind result_bind] in *.
  - rewrite push_ok by lia. cbn [mbind result_bind]. rewrite Ed.
    destruct (Hrest (buf ++ [44])) as (ds & E & Hw & Hds & Hg); [rewrite length_app; simpl; lia|].
    exists (44 :: d :: ds). rewrite E, <-app_assoc.
    split_and!; [done|by constructor|simpl; lia|]. intros HG. by rewrite HG in Eg.
  - rewrite Ed. destruct (Hrest buf) as (ds & E & Hw & Hds & Hg); [lia|].
    exists (d :: ds). rewrite E. split_and!; [done..|simpl; lia|].
    intros HG. destruct (Hg HG). split; [done|simpl; lia].
Qed.

Lemma writes_zeros b ds v n : base_ok b → writes b ds v → writes b (ds ++ replicate n 48) v.
Proof.
  intros (Hb & _ & H0). assert (writes b (replicate n 48) 0) as Hn.
  { induction n as [|n IH]; [constructor|]. cbn [replicate].
    replace 0 with (0 + base b * 0) by lia. apply (writes_digit b 0); [lia..|done|]. done. }
  induction 1 as [|ds v _ IH|i d ds v H1 H2 H3 _ IH]; cbn [app]; [done|by constructor|by constructor].
Qed.

Lemma pad_zeros_ok n prec buf :
  (length buf + n ≥ 63)%nat →
  ∃ k, pad_zeros n prec buf = Ok (buf ++ replicate k 48) ∧ (length buf ≤ 63 → length buf + k ≤ 63)%nat ∧
    Z.min prec 63 ≤ Z.of_nat (length buf + k) ∧ (prec ≤ Z.of_nat (length buf) → k = 0%nat).
Proof.
  revert buf. induction n as [|n IH]; intros buf Hn; cbn [pad_zeros].
  - rewrite decide_False by lia. exists 0%nat. rewrite app_nil_r. split_and!; [done|lia..].
  - case_decide as Hd.
    + rewrite push_ok by lia. cbn [mbind result_bind].
      destruct (IH (buf ++ [48])) as (k & E & H1 & H2 & _); [rewrite length_app; simpl; lia|].
      rewrite length_app in *. cbn [length] in *. exists (S k). rewrite E, <-app_assoc.
      split_and!; [done|lia..].
    + exists 0%nat. rewrite app_nil_r. split_and!; [done|lia..].
Qed.

(** A number with [n] characters of padding, where the flags put them. *)
Definition layout (c : printf_conversion) (sign prefix number : list Z) (n : Z) : list Z :=
  (if negb (has c (Z.lor MINUS ZERO)) then output_dup 32 n else []) ++ sign ++ prefix ++
  (if has c ZERO then output_dup 48 n else []) ++ number ++ (if has c MINUS then output_dup 32 n else []).

Definition optional (ch : Z) (s : list Z) : list Z := if decide (ch ≠ 0) then s else [].

(** An integer conversion keeps within its buffer of 64 characters
    whatever the precision and the flags; the characters it puts there write
    the value in the base, at least as many as the precision asks for; around
    them are the sign, the prefix, and the padding that fills the width. *)
Theorem format_integer_layout value is_signed negative b c :
  b ∈ [base_d; base_o; base_x; base_X] → 0 ≤ value → value < 2 ^ 64 → 0 ≤ width c → width c < 2 ^ 31 →
  let sign := sign_char is_signed negative c in
  let xc := if has c POUND && bool_decide (value ≠ 0) then x_char b else 0 in
  ∃ ds n,
    format_integer value is_signed negative b c =
      Ok (layout c (optional sign [sign]) (optional xc [48; xc]) (rev ds) n) ∧
    writes b ds value ∧ (length ds ≤ 64)%nat ∧
    Z.min (if decide (precision c < 0) then 1 else precision c) 63 ≤ Z.of_nat (length ds) ∧
    (has c GROUP = false → ds ⊆ digits b) ∧
    n = Z.max 0 (width c - Z.of_nat (length (optional sign [sign] ++ optional xc [48; xc] ++ ds))).
Proof.
  intros Hb%bases_ok Hv0 Hv Hw0 Hw sign xc. pose proof Hb as (Hb8 & _ & H0).
  set (prec := if decide (precision c < 0) then 1 else precision c).
  assert (value < base b ^ Z.of_nat 22).
  { assert (8 ^ Z.of_nat 22 ≤ base b ^ Z.of_nat 22) by (apply Z.pow_le_mono_l; lia).
    change (8 ^ Z.of_nat 22) with (2 ^ 66) in *. lia. }
  destruct (format_digits_ok 22 64 b c value 0 []) as (ds & Ed & Wd & Ld & Gd); [done|lia..|simpl; lia|].
  destruct (pad_zeros_ok 64 prec ds) as (k & Ek & Lk & Pk & _); [lia|].
  set (ds1 := ds ++ replicate k 48) in *.
  assert (length ds1 = (length ds + k)%nat) as L1 by (unfold ds1; by rewrite length_app, length_replicate).
  assert (48 ∈ digits b) as H48 by by eapply list_elem_of_lookup_2.
  assert (∃ j, (j ≤ 1)%nat ∧ (if has c POUND && bool_decide (base b = 8 ∧ last ds1 ≠ Some 48) then push ds1 48
    else Ok ds1) = Ok (ds1 ++ replicate j 48)) as (j & Hj & Ej).
  { destruct (has c POUND && bool_decide (base b = 8 ∧ _)).
    - exists 1%nat. split; [lia|]. by rewrite push_ok by lia.
    - exists 0%nat. split; [lia|]. cbn [replicate]. by rewrite app_nil_r. }
  set (ds2 := ds1 ++ replicate j 48) in *.
  assert (length ds2 = (length ds1 + j)%nat) as L2 by (unfold ds2; by rewrite length_app, length_replicate).
  exists ds2. eexists. split_and!; [| |lia|lia| |reflexivity].
  - unfold format_integer. rewrite Ed. cbn [mbind result_bind app]. fold prec. rewrite Ek. cbn [mbind result_bind].
    rewrite Ej. cbn [mbind result_bind]. fold sign xc. unfold layout, optional.
    assert (∀ i, -4000 ≤ i → i < 2 ^ 31 → (if decide (i32 i < 0) then 0 else i32 i) = Z.max 0 i) as Hpad.
    { intros i ??. rewrite wraps_small by (done || unfold in_s; lia). destruct (decide (i < 0)); lia. }
    rewrite Hpad by (repeat case_decide; lia).
    assert (width c - Z.of_nat (length ds2) - (if decide (xc ≠ 0) then 2 else 0) - (if decide (sign ≠ 0) then 1 else 0) =
      width c - Z.of_nat (length ((if decide (sign ≠ 0) then [sign] else []) ++
        (if decide (xc ≠ 0) then [48; xc] else []) ++ ds2))) as -> by (rewrite !length_app; repeat case_decide; simpl; lia).
    done.
  - unfold ds2, ds1. by repeat apply writes_zeros.
  - intros HG. unfold ds2, ds1. intros y. rewrite !elem_of_app, !elem_of_replicate.
    intros [[Hy|[-> _]]|[-> _]]; [by apply (Gd HG)|done..].
Qed.

Lemma format_integer_layout_witness :
  let c := Conversion (Z.lor PLUS GROUP) 12 (-1) INT in
  ∃ ds n, format_integer 1234567 true true base_d c = Ok (layout c [45] [] (rev ds) n) ∧ writes base_d ds 1234567.
Proof.
  intros c. destruct (format_integer_layout 1234567 true true base_d c) as (ds & n & E & Hw & _); [set_solver|done..|].
  by exists ds, n.
Defined.

(** ** Writing into a buffer *)

Lemma output_all_ok out p l mx m :
  0 ≤ l → l + Z.of_nat (length out) < 2 ^ 31 → mapped m p (mx - l) →
  output_all out (Aux p l mx) m =
    Ok (Aux (p + Z.of_nat (length (take (Z.to_nat (mx - l)) out))) (l + Z.of_nat (length out)) mx,
        store p (take (Z.to_nat (mx - l)) out) m).
Proof.
  revert p l m. induction out as [|ch out IH]; intros p l m Hl Hlen Hm; cbn [output_all length] in *.
  { rewrite take_nil. cbn. by rewrite !Z.add_0_r. }
  unfold vsnprintf_helper. cbn [aux_p aux_length max_length]. rewrite wraps_small by (done || unfold in_s; lia).
  destruct (decide (l < mx)).
  - replace (Z.to_nat (mx - l)) with (S (Z.to_nat (mx - (l + 1)))) by lia. cbn [firstn length store].
    rewrite (bind_ok _ _ _ (Aux (p + 1) (l + 1) mx) (<[p:=ch]> m)).
    2:{ rewrite (bind_ok _ _ _ _ _ (wr8_ok m p ch (Hm p ltac:(lia)))). done. }
    rewrite IH; [|lia..|]; [do 3 f_equal; lia|]. intros y Hy. destruct (decide (y = p)) as [->|].
    + by rewrite lookup_insert_eq.
    + rewrite lookup_insert_ne by done. apply Hm. lia.
  - rewrite (bind_ok _ _ _ (Aux p (l + 1) mx) m eq_refl).
    rewrite IH; [|lia..|intros y Hy; lia].
    replace (Z.to_nat (mx - (l + 1))) with 0%nat by lia. replace (Z.to_nat (mx - l)) with 0%nat by lia.
    cbn [firstn length store]. do 3 f_equal; lia.
Qed.

Lemma vsnprintf_ok m buffer buf_size format args out :
  vprintf format args m = Ok (out, m) → Z.of_nat (length out) < 2 ^ 31 → 0 ≤ buf_size → buf_size ≤ 2 ^ 31 →
  mapped m buffer buf_size →
  snprintf buffer buf_size format args m =
    Ok (Z.of_nat (length out),
        if decide (buf_size > 0) then store buffer (take (Z.to_nat (buf_size - 1)) out ++ [0]) m else m).
Proof.
  intros E Ho Hb0 Hb Hm. unfold snprintf, vsnprintf. rewrite (bind_ok _ _ _ _ _ E).
  destruct (decide (buf_size > 0)).
  - rewrite wraps_small by (done || unfold in_s; lia).
    rewrite (bind_ok _ _ _ _ _ (output_all_ok out buffer 0 (buf_size - 1) m ltac:(lia) ltac:(lia)
      (λ y Hy, Hm y ltac:(lia)))). rewrite Z.sub_0_r. cbn [aux_p aux_length].
    rewrite (bind_ok _ _ _ tt (store buffer (take (Z.to_nat (buf_size - 1)) out ++ [0]) m)).
    { done. }
    rewrite wr8_ok; [by rewrite store_then|]. apply (store_mapped _ _ _ _ _ Hm). rewrite length_take. lia.
  - rewrite (bind_ok _ _ _ _ _ (output_all_ok out buffer 0 0 m ltac:(lia) ltac:(lia) (λ y Hy, ltac:(lia)))).
    done.
Qed.

(** A program that does not change memory. *)
Definition reads_only {A} (p : M mem A) : Prop := ∀ m a m', p m = Ok (a, m') → m' = m.

Create HintDb reads.

Lemma reads_ret {A} (a : A) : reads_only (mret a).
Proof. intros m b m' E. unfold mret, M_ret in E. by simplify_eq. Qed.
Lemma reads_fail {A} e : reads_only (fail e : M mem A).
Proof. by intros m b m' E. Qed.
Lemma reads_lift {A} (r : result A) : reads_only (lift r).
Proof. intros m b m' E. unfold lift in E. destruct r; by simplify_eq. Qed.
Lemma reads_rd8 a : reads_only (rd8 a).
Proof. intros m b m' E. unfold rd8 in E. destruct (m !! a); by simplify_eq. Qed.
Lemma reads_bound : reads_only bound.
Proof. intros m b m' E. unfold bound, gets in E. by simplify_eq. Qed.
Lemma reads_bind {A B} (p : M mem A) (k : A → M mem B) :
  reads_only p → (∀ a, reads_only (k a)) → reads_only (p ≫= k).
Proof. intros Hp Hk m b m' (a & m1 & E1 & E2)%bind_inv. apply Hp in E1 as ->. by eapply Hk. Qed.
#[export] Hint Resolve reads_ret reads_fail reads_lift reads_rd8 reads_bound : reads.

(** Step through a program that only reads. *)
Ltac reads_step :=
  match goal with
  | |- reads_only (mbind _ _) => apply reads_bind; [|intros ?]
  | |- reads_only (if ?b then _ else _) => destruct b
  | |- reads_only (match ?b with _ => _ end) => destruct b
  | |- reads_only (let _ := _ in _) => cbv zeta
  end.
Ltac reads := repeat (eauto with reads || reads_step).

Lemma reads_strnlen s n : reads_only (strnlen s n).
Proof.
  unfold strnlen. reads. generalize 0 as l, a as fuel. intros l fuel. revert l.
  induction fuel as [|fuel IH]; intros l; cbn [strnlen_loop]; reads.
Qed.
Lemma reads_chars a n : reads_only (read_chars a n).
Proof. revert a. induction n as [|n IH]; intros a; cbn [read_chars]; reads. Qed.
Lemma reads_flags n f fl : reads_only (parse_flags n f fl).
Proof. revert f fl. induction n as [|n IH]; intros f fl; cbn [parse_flags]; reads. Qed.
Lemma reads_number n f v : reads_only (parse_number n f v).
Proof. revert f v. induction n as [|n IH]; intros f v; cbn [parse_number]; reads. Qed.
#[export] Hint Resolve reads_strnlen reads_chars reads_flags reads_number : reads.

Lemma reads_conversion f args : reads_only (parse_conversion f args).
Proof. unfold parse_conversion, parse_width, parse_precision, parse_type. reads. Qed.
Lemma reads_do_conversion ch c args : reads_only (do_conversion ch c args).
Proof. unfold do_conversion. reads. Qed.
#[export] Hint Resolve reads_conversion reads_do_conversion : reads.

Lemma reads_vprintf f args : reads_only (vprintf f args).
Proof.
  unfold vprintf. reads. revert f args. induction a as [|n IH]; intros f args; cbn [vprintf_loop]; reads.
Qed.

(** C33. [snprintf], when the conversions succeed, stores as much of the text
    as fits in [BUF_SIZE - 1] characters and a terminator, changes no other
    byte, stores nothing in a buffer of size zero, and returns the length of
    the whole text. *)
Theorem snprintf_bounded m m' buffer buf_size format args out :
  vprintf format args m = Ok (out, m') → Z.of_nat (length out) < 2 ^ 31 → 0 ≤ buf_size → buf_size ≤ 2 ^ 31 →
  mapped m buffer buf_size →
  ∃ m1, snprintf buffer buf_size format args m = Ok (Z.of_nat (length out), m1) ∧
    (0 < buf_size → bytes_at m1 buffer (take (Z.to_nat (buf_size - 1)) out ++ [0])) ∧
    ∀ y, y < buffer ∨ buffer + Z.min buf_size (Z.of_nat (length out) + 1) ≤ y → m1 !! y = m !! y.
Proof.
  intros E Ho Hb0 Hb Hm. pose proof (reads_vprintf _ _ _ _ _ E) as ->.
  eexists. split; [by apply vsnprintf_ok|]. destruct (decide (buf_size > 0)).
  - split; [intros _; apply bytes_at_stored|]. intros y Hy. rewrite store_lookup, decide_False; [done|].
    rewrite length_app, length_take. cbn [length]. lia.
  - split; [lia|done].
Qed.

(** "%s-%#x" with the string "abc" and the number 255, in a buffer of 6. *)
Lemma snprintf_bounded_witness :
  let m := blocks [(100, [37; 115; 45; 37; 35; 120; 0]); (200, [97; 98; 99; 0]); (300, [0; 0; 0; 0; 0; 0; 7])] in
  ∃ m1, snprintf 300 6 100 [200; 255] m = Ok (8, m1) ∧ (0 < 6 → bytes_at m1 300 [97; 98; 99; 45; 48; 0]) ∧
    ∀ y, y < 300 ∨ 300 + Z.min 6 (Z.of_nat 8 + 1) ≤ y → m1 !! y = m !! y.
Proof.
  intros m. assert (vprintf 100 [200; 255] m = Ok ([97; 98; 99; 45; 48; 120; 102; 102], m)) as E by (vm_compute; reflexivity).
  apply (snprintf_bounded m m 300 6 100 [200; 255] [97; 98; 99; 45; 48; 120; 102; 102] E); [done..|].
  apply (bool_decide_unpack _). vm_compute. exact I.
Defined.

(** ** Printing and reading back *)

Lemma digits_value_snoc ds d : digits_value (ds ++ [d]) = digits_value ds * 10 + (d - 48).
Proof. unfold digits_value. by rewrite foldl_app. Qed.

Lemma writes_decimal ds v : writes base_d ds v → ds ⊆ digits base_d → digits_value (rev ds) = v.
Proof.
  induction 1 as [|ds v _ IH|i d ds v H1 H2 H3 _ IH]; intros Hs; [done| |].
  - exfalso. assert (44 ∈ digits base_d) as H by (apply Hs; left). vm_compute in H. set_solver.
  - cbn [rev]. rewrite digits_value_snoc, IH by (intros y ?; apply Hs; by right).
    apply lookup_seqZ in H3 as [-> _]. cbn [base base_d]. lia.
Qed.

Lemma digits_decimal ds : ds ⊆ digits base_d → Forall (λ c, isdigit c = true) (rev ds).
Proof.
  intros Hs. apply Forall_forall. intros c Hc. assert (c ∈ digits base_d) as H.
  { apply Hs. apply list_elem_of_In, in_rev. by apply list_elem_of_In. }
  apply elem_of_seqZ in H. unfold isdigit. apply bool_decide_eq_true_2. lia.
Qed.

(** The conversion of "%d". *)
Definition plain : printf_conversion := Conversion 0 0 (-1) INT.

Lemma format_decimal value negative :
  0 ≤ value → value < 10 ^ 10 →
  ∃ ds, format_integer value true negative base_d plain = Ok ((if negative then [45] else []) ++ rev ds) ∧
    writes base_d ds value ∧ ds ⊆ digits base_d ∧ ds ≠ [] ∧ (length ds ≤ 10)%nat.
Proof.
  intros H0 Hv. assert (base_ok base_d) as Hb by (apply bases_ok; set_solver).
  destruct (format_digits_ok 10 64 base_d plain value 0 []) as (ds & Ed & Wd & _ & Gd);
    [done..|lia|simpl; lia|]. destruct (Gd eq_refl) as [Sd Ld].
  assert (∃ ds', pad_zeros 64 1 ds = Ok ds' ∧ writes base_d ds' value ∧ ds' ⊆ digits base_d ∧ ds' ≠ [] ∧
    (length ds' ≤ 10)%nat) as (ds' & Ep & Wp & Sp & Np & Lp).
  { destruct (pad_zeros_ok 64 1 ds) as (k & Ek & _ & _ & Zk); [lia|]. destruct ds as [|d ds].
    - exists [48]. split; [vm_compute; reflexivity|]. split; [|split_and!; [|done|simpl; lia]].
      2:{ intros y Hy%list_elem_of_singleton. subst. apply elem_of_seqZ. lia. }
      exact (writes_zeros base_d [] value 1 Hb Wd).
    - rewrite Zk, app_nil_r in Ek by (simpl; lia). by exists (d :: ds). }
  exists ds'. split_and!; [|done..]. unfold format_integer. rewrite Ed. cbn [mbind result_bind app].
  change (if decide (precision plain < 0) then 1 else precision plain) with 1. rewrite Ep. cbn [mbind result_bind].
  change (has plain POUND) with false. cbn [andb mbind result_bind].
  rewrite wraps_small by (done || unfold in_s; repeat case_decide; simpl; lia).
  rewrite (decide_True (P := width plain - _ - _ - _ < 0)).
  2:{ destruct ds'; [done|]. repeat case_decide; simpl; lia. }
  change (has plain (Z.lor MINUS ZERO)) with false. change (has plain ZERO) with false. change (has plain MINUS) with false.
  cbn [negb output_dup Z.to_nat replicate app]. rewrite app_nil_r. by destruct negative.
Qed.

Lemma parse_plain m format args :
  m !! format = Some 100 → parse_conversion format args m = Ok ((format, plain, args), m).
Proof.
  intros E. unfold parse_conversion. rewrite bound_ok. cbn [parse_flags].
  assert (∀ A (k : Z → M mem A), (ch ← rd8 format; k ch) m = k 100 m) as Hr.
  { intros A k. by rewrite (bind_ok _ _ _ _ _ (rd8_ok _ _ _ E)). }
  assert (parse_width format 0 args m = Ok ((format, 0, 0, args), m)) as Ew.
  { unfold parse_width. rewrite Hr, bound_ok. cbn [decide].
    rewrite (bind_ok _ _ _ (format, 0, args) m); [done|]. rewrite decide_False by lia. cbn [parse_number].
    rewrite (bind_ok _ _ _ (format, 0) m); [done|]. by rewrite Hr. }
  rewrite (bind_ok _ _ _ (format, 0) m); [|by rewrite Hr]. cbv beta iota zeta.
  rewrite !decide_False by (intros Hx; by apply Hx). rewrite (bind_ok _ _ _ _ _ Ew).
  rewrite (bind_ok _ _ _ (format, -1, args) m); [|unfold parse_precision; by rewrite Hr].
  rewrite decide_False by lia. rewrite (bind_ok _ _ _ (format, INT) m); [done|]. unfold parse_type. by rewrite Hr.
Qed.

Lemma vprintf_decimal m format n out :
  cstr m format [37; 100] → in_s 32 n →
  format_integer (Z.abs n) true (bool_decide (n < 0)) base_d plain = Ok out →
  vprintf format [u32 n] m = Ok (out, m).
Proof.
  intros H Hn Hf. pose proof (cstr_size _ _ _ H) as Hz. apply cstr_cons in H as (H0 & E0 & _ & _ & H).
  apply cstr_cons in H as (_ & E1 & _ & _ & H). apply cstr_nil in H as (_ & E2). cbn [length] in Hz.
  unfold vprintf. rewrite bound_ok. destruct (size m) as [|[|[|k]]] eqn:Ek; [lia..|]. cbn [vprintf_loop].
  rewrite (bind_ok _ _ _ _ _ (rd8_ok _ _ _ E0)). rewrite decide_False, decide_False by lia.
  rewrite (bind_ok _ _ _ _ _ (rd8_ok _ _ _ E1)). rewrite decide_False by lia.
  rewrite (bind_ok _ _ _ _ _ (parse_plain _ _ _ E1)). rewrite (bind_ok _ _ _ _ _ (rd8_ok _ _ _ E1)).
  rewrite (bind_ok _ _ _ (out, []) m).
  - rewrite (bind_ok _ _ _ [] m); [by rewrite app_nil_r|]. by rewrite (bind_ok _ _ _ _ _ (rd8_ok _ _ _ E2)).
  - unfold do_conversion. rewrite decide_True by lia.
    assert (i32 (u32 n) = n) as En.
    { rewrite <-(wraps_small 32 n) at 2 by done. apply wraps_cong. unfold wrapu. by rewrite Zmod_mod. }
    rewrite (bind_ok _ _ _ (n, []) m); [|cbn; by rewrite En].
    rewrite (bind_ok _ _ _ out m); [done|].
    replace (u64 (if decide (n < 0) then - n else n)) with (Z.abs n); [by rewrite Hf|].
    unfold in_s in Hn. rewrite wrapu_small; [destruct (decide (n < 0)); lia|]. unfold in_u. destruct (decide (n < 0)); lia.
Qed.

(** Printing an int with "%d" into a buffer that can hold it and reading
    it back with [atoi] gives the same int. *)
Theorem snprintf_atoi m buffer buf_size format n :
  cstr m format [37; 100] → in_s 32 n → 12 ≤ buf_size → buf_size ≤ 2 ^ 31 → 0 < buffer → mapped m buffer buf_size →
  ∃ len m', snprintf buffer buf_size format [u32 n] m = Ok (len, m') ∧ atoi buffer m' = Ok (n, m').
Proof.
  intros Hf Hn Hb1 Hb2 Hb0 Hm. destruct (format_decimal (Z.abs n) (bool_decide (n < 0))) as (ds & E & Hw & Hs & Hne & Hl);
    [lia|unfold in_s in Hn; lia|].
  pose proof (vprintf_decimal _ _ _ _ Hf Hn E) as Ev. set (out := (if bool_decide (n < 0) then [45] else []) ++ rev ds) in *.
  assert (length out ≤ 11)%nat as Lo by (unfold out; rewrite length_app, length_rev; case_match; simpl; lia).
  do 2 eexists. split; [apply (vsnprintf_ok _ _ _ _ _ _ Ev); [lia..|done]|]. rewrite decide_True by lia.
  rewrite take_ge by lia. pose proof (digits_decimal _ Hs) as Hd.
  assert (cstr (store buffer (out ++ [0]) m) buffer out) as Hc.
  { split_and!; [done|apply bytes_at_stored|]. apply Forall_app. split.
    - case_match; repeat constructor; lia.
    - eapply Forall_impl; [exact Hd|]. intros c [? ?]%digit_range. lia. }
  rewrite (atoi_read _ _ [] (if bool_decide (n < 0) then [45] else []) (bool_decide (n < 0)) (rev ds) []).
  - rewrite (writes_decimal _ _ Hw Hs). do 2 f_equal. rewrite wraps_small; [case_bool_decide; lia|done|].
    by replace (if bool_decide (n < 0) then - Z.abs n else Z.abs n) with n by (case_bool_decide; lia).
  - by rewrite app_nil_r.
  - constructor.
  - case_match; constructor.
  - done.
  - intros Hr. apply Hne. by rewrite <-(rev_involutive ds), Hr.
  - done.
Qed.

Lemma snprintf_atoi_witness :
  let m := blocks [(100, [37; 100; 0]); (200, [0; 0; 0; 0; 0; 0; 0; 0; 0; 0; 0; 0])] in
  ∃ len m', snprintf 200 12 100 [u32 (-2147483648)] m = Ok (len, m') ∧ atoi 200 m' = Ok (-2147483648, m').
Proof.
  intros m. apply (snprintf_atoi m 200 12 100 (-2147483648)).
  - apply (bool_decide_unpack _). vm_compute. exact I.
  - unfold in_s. lia.
  - lia.
  - lia.
  - lia.
  - apply (bool_decide_unpack _). vm_compute. exact I.
Defined.

(** ** Dumps and sizes are printed for every argument *)

Lemma format_integer_total value b c :
  b ∈ [base_d; base_o; base_x; base_X] → in_u 64 value → 0 ≤ width c → width c < 2 ^ 31 →
  ∃ out, format_integer value false false b c = Ok out.
Proof.
  intros Hb [??] ??. destruct (format_integer_layout value false false b c) as (ds & n & E & _); [done..|]. eauto.
Qed.

Lemma hex_bytes_total i buf : ∃ out, hex_bytes i buf = Ok out.
Proof.
  revert i. induction buf as [|b buf IH]; intros i; cbn [hex_bytes]; [eauto|].
  destruct (format_integer_total (u8 b) base_x (zero_padded 2 CHAR)) as [h ->]; [set_solver| |done..|].
  { pose proof (wrapu_range 8 b) as [? ?]; [lia|]. unfold in_u. lia. }
  destruct (IH (i + 1)) as [r Er]. cbn [mbind result_bind]. rewrite Er. eauto.
Qed.

Lemma hex_dump_loop_total fuel ofs buf ascii :
  (length buf < fuel)%nat → ∃ out, hex_dump_loop fuel ofs buf ascii = Ok out.
Proof.
  revert ofs buf. induction fuel as [|fuel IH]; intros ofs buf Hf; [lia|]. cbn [hex_dump_loop].
  destruct buf as [|b buf]; [eauto|]. set (l := b :: buf) in *.
  pose proof (Z.mod_pos_bound ofs 16 ltac:(lia)) as Hm. assert (0 < length l)%nat by (simpl; lia).
  set (n := Z.to_nat _). unfold hex_line.
  destruct (format_integer_total (u64 (ofs - ofs mod 16)) base_x (zero_padded 8 INTMAX)) as [h ->];
    [set_solver|apply wrapu_range; lia|done..|].
  destruct (hex_bytes_total (ofs mod 16) (take n l)) as [hb Eb].
  cbn [mbind result_bind]. rewrite Eb. cbn [mbind result_bind].
  assert (0 < n)%nat by (unfold n; case_decide; lia).
  assert (∀ o, ∃ out, hex_dump_loop fuel o (drop n l) ascii = Ok out) as Hr by (intros o; apply IH; rewrite length_drop; lia).
  match goal with |- context [hex_dump_loop fuel ?o _ _] => destruct (Hr o) as [r ->] end. cbn [mbind result_bind]. eauto.
Qed.

Lemma scale_size_range size fp : in_u 64 size → in_u 64 (scale_size size fp).1.
Proof.
  revert size. induction fp as [|f fp IH]; intros size [H0 H1]; [by split|]. cbn [scale_size].
  destruct fp as [|g fp]; [by split|]. case_decide; [|by split]. apply IH. split; [apply Z.div_pos; lia|].
  apply Z.div_lt_upper_bound; lia.
Qed.

Lemma print_human_readable_size_total size :
  in_u 64 size → ∃ out, print_human_readable_size size = Ok out.
Proof.
  intros H. unfold print_human_readable_size. case_decide; [eauto|]. pose proof (scale_size_range size factors H) as Hr.
  destruct (scale_size size factors) as [sz u].
  destruct (format_integer_total sz base_d (Conversion 0 0 (-1) LONGLONG)) as [out E]; [set_solver|done..|].
  rewrite E. cbn. eauto.
Qed.
