(* ===== verification/Palloc.v ===== *)
(** * The page allocator

    threads/palloc.c: two pools of pages, each with a bitmap of the pages in
    use.  The section a pool's lock protects is one step here; the lock itself
    is the subject of Kernel.v.  [PageAllocator] is what the allocator promises
    to the code that uses pages. *)

From S2P Require Import Prelude Vaddr Bitmap CString.

(** ** Definitions *)

Definition PAL_ASSERT : Z := 1.
Definition PAL_ZERO : Z := 2.
Definition PAL_USER : Z := 4.

Record pool := Pool { used_map : bitmap; base : Z }.

(** The two pools, and the memory that they hand out. *)
Record palloc := Palloc { kernel_pool : pool; user_pool : pool; ram : mem }.

Definition set_used_map (b : bitmap) (p : pool) : pool := Pool b (base p).
Definition set_ram (m : mem) (s : palloc) : palloc := Palloc (kernel_pool s) (user_pool s) m.

(** [&kernel_pool] and [&user_pool]. *)
Definition the_pool (user : bool) (s : palloc) : pool := if user then user_pool s else kernel_pool s.
Definition set_pool (user : bool) (p : pool) (s : palloc) : palloc :=
  if user then Palloc (kernel_pool s) p (ram s) else Palloc p (user_pool s) (ram s).
Definition on_map {A} (user : bool) (m : M bitmap A) : M palloc A :=
  zoom (λ s, used_map (the_pool user s)) (λ b s, set_pool user (set_used_map b (the_pool user s)) s) m.
Definition on_ram {A} (m : M mem A) : M palloc A := zoom ram set_ram m.

(** [block] is what the buffer held after the structure of the bitmap. *)
Definition init_pool (start page_cnt : Z) (block : list Z) : result pool :=
  let bm_pages := DIV_ROUND_UP (bitmap_buf_size page_cnt) PGSIZE in
  if decide (bm_pages > page_cnt) then Err Panicked
  else
    let page_cnt := page_cnt - bm_pages in
    b ← bitmap_create_in_buf page_cnt (take (Z.to_nat (elem_cnt page_cnt)) block) (u32 (bm_pages * PGSIZE));
    Ok (Pool b (u32 (start + bm_pages * PGSIZE))).

(** [init_ram_pages] is the number of pages the loader found. *)
Definition palloc_init (init_ram_pages user_page_limit : Z) (kblock ublock : list Z) (m : mem) : result palloc :=
  free_start ← ptov (1024 * 1024);
  free_end ← ptov (u32 (init_ram_pages * PGSIZE));
  let free_pages := u32 (Z.quot (i32 (free_end - free_start)) PGSIZE) in
  let user_pages := free_pages / 2 in
  let user_pages := if decide (user_pages > user_page_limit) then user_page_limit else user_pages in
  let kernel_pages := free_pages - user_pages in
  k ← init_pool free_start kernel_pages kblock;
  u ← init_pool (u32 (free_start + kernel_pages * PGSIZE)) user_pages ublock;
  Ok (Palloc k u m).

Definition is_kaddr_valid (kaddr : Z) : M palloc bool :=
  assert (is_kernel_vaddr kaddr);;
  b ← gets (λ s, base (kernel_pool s));
  let page_index := u32 (Z.quot (i32 (pg_round_down kaddr - b)) PGSIZE) in
  on_map false (bitmap_test page_index).

Definition palloc_get_multiple (flags page_cnt : Z) : M palloc Z :=
  let user := bool_decide (Z.land flags PAL_USER ≠ 0) in
  if decide (page_cnt = 0) then mret NULL
  else
    page_idx ← on_map user (bitmap_scan_and_flip 0 page_cnt false);
    b ← gets (λ s, base (the_pool user s));
    let pages := if decide (page_idx ≠ BITMAP_ERROR) then u32 (b + PGSIZE * page_idx) else NULL in
    (if decide (pages ≠ NULL) then
       if decide (Z.land flags PAL_ZERO ≠ 0) then on_ram (memset pages 0 (u32 (PGSIZE * page_cnt)));; mret tt else mret tt
     else if decide (Z.land flags PAL_ASSERT ≠ 0) then fail Panicked else mret tt);;
    mret pages.

Definition palloc_get_page (flags : Z) : M palloc Z := palloc_get_multiple flags 1.

Definition page_from_pool (user : bool) (page : Z) : M palloc bool :=
  p ← gets (the_pool user);
  size ← on_map user bitmap_size;
  let page_no := pg_no page in
  let start_page := pg_no (base p) in
  let end_page := u32 (start_page + size) in
  mret (bool_decide (start_page ≤ page_no ∧ page_no < end_page)).

Definition palloc_free_multiple (pages page_cnt : Z) : M palloc unit :=
  assert (bool_decide (pg_ofs pages = 0));;
  if decide (pages = NULL ∨ page_cnt = 0) then mret tt
  else
    in_kernel ← page_from_pool false pages;
    user ← (if in_kernel : bool then mret false
            else in_user ← page_from_pool true pages; if in_user : bool then mret true else fail Panicked);
    p ← gets (the_pool user);
    let page_idx := u32 (pg_no pages - pg_no (base p)) in
    on_ram (memset pages 0xcc (u32 (PGSIZE * page_cnt)));;
    all ← on_map user (bitmap_all page_idx page_cnt);
    assert all;;
    on_map user (bitmap_set_multiple page_idx page_cnt false).

Definition palloc_free_page (page : Z) : M palloc unit := palloc_free_multiple page 1.

(** ** The interface *)

(** The addresses of [n] pages from [p] on. *)
Definition pages (p : Z) (n : nat) : gset Z := list_to_set ((λ i, p + PGSIZE * i) <$> seqZ 0 (Z.of_nat n)).

Lemma elem_of_pages a p n : a ∈ pages p n ↔ ∃ i, (i < n)%nat ∧ a = p + PGSIZE * Z.of_nat i.
Proof.
  unfold pages. rewrite elem_of_list_to_set, list_elem_of_fmap. split.
  - intros (i & -> & Hi%elem_of_seqZ). exists (Z.to_nat i). split; [lia|]. by rewrite Z2Nat.id by lia.
  - intros (i & Hi & ->). exists (Z.of_nat i). split; [done|]. apply elem_of_seqZ. lia.
Qed.

(** A store [S] with pages to hand out: [held] are the pages in use, [memory]
    the bytes of all pages. *)
Class PageAllocator (S : Type) := {
  pa_get : Z → Z → M S Z;
  pa_free : Z → Z → M S unit;
  pa_wf : S → Prop;
  held : S → gset Z;
  memory : S → mem;
  set_memory : mem → S → S
}.

(** What a call of [pa_get] does: it finds [n] pages that were not in use, or
    there are no such pages in the pool. *)
Inductive got {S} `{PageAllocator S} (flags : Z) (n : nat) (s : S) : result (Z * S) → Prop :=
  | got_none s' :
      pa_wf s' → held s' = held s → memory s' = memory s → Z.land flags PAL_ASSERT = 0 →
      got flags n s (Ok (NULL, s'))
  | got_panic :
      Z.land flags PAL_ASSERT ≠ 0 → got flags n s (Err Panicked)
  | got_pages p s' :
      pa_wf s' → PHYS_BASE ≤ p → p + PGSIZE * Z.of_nat n ≤ 2 ^ 32 → p mod PGSIZE = 0 →
      pages p n ## held s → held s' = held s ∪ pages p n →
      memory s' = (if decide (Z.land flags PAL_ZERO ≠ 0)
                   then store p (replicate (Z.to_nat (PGSIZE * Z.of_nat n)) 0) (memory s) else memory s) →
      got flags n s (Ok (p, s')).

Class PageAllocatorLaws (S : Type) `{PageAllocator S} := {
  pa_get_ok (s : S) flags n :
    pa_wf s → (0 < n)%nat → Z.of_nat n < 2 ^ 20 → got flags n s (pa_get flags (Z.of_nat n) s);
  pa_free_ok (s : S) p n :
    pa_wf s → (0 < n)%nat → pages p n ⊆ held s →
    ∃ s', pa_free p (Z.of_nat n) s = Ok (tt, s') ∧ pa_wf s' ∧ held s' = held s ∖ pages p n ∧
      memory s' = store p (replicate (Z.to_nat (PGSIZE * Z.of_nat n)) 0xcc) (memory s);
  pa_held_page (s : S) p :
    pa_wf s → p ∈ held s → PHYS_BASE ≤ p ∧ p + PGSIZE ≤ 2 ^ 32 ∧ p mod PGSIZE = 0 ∧ mapped (memory s) p PGSIZE;
  pa_set_memory (s : S) m :
    pa_wf s → dom m = dom (memory s) →
    pa_wf (set_memory m s) ∧ held (set_memory m s) = held s ∧ memory (set_memory m s) = m;
  pa_set_same (s : S) : set_memory (memory s) s = s;
  pa_set_twice (s : S) m m' : set_memory m (set_memory m' s) = set_memory m s
}.

(** ** The pages of the pools

    Which pages a store can hand out at all: this does not change. *)
Class PagePool (S : Type) `{PageAllocator S} := {
  pool_range : S → gset Z;
  pool_range_get (s : S) flags n p s' :
    pa_wf s → (0 < n)%nat → pa_get flags (Z.of_nat n) s = Ok (p, s') → pool_range s' = pool_range s;
  pool_range_free (s : S) p n s' :
    pa_wf s → (0 < n)%nat → pages p n ⊆ held s → pa_free p (Z.of_nat n) s = Ok (tt, s') → pool_range s' = pool_range s;
  pool_range_set (s : S) m : pool_range (set_memory m s) = pool_range s;
  pool_range_held (s : S) : pa_wf s → held s ⊆ pool_range s;
  pool_range_aligned (s : S) k : pa_wf s → k ∈ pool_range s → k mod PGSIZE = 0
}.

(** ** Pools *)

Definition pool_end (p : pool) : Z := base p + PGSIZE * bit_cnt (used_map p).

(** The pages of a pool that are in use. *)
Definition pool_held (p : pool) : gset Z :=
  list_to_set (concat (imap (λ i (b : bool), if b then [base p + PGSIZE * Z.of_nat i] else []) (bools (used_map p)))).

Lemma elem_of_pool_held a p :
  a ∈ pool_held p ↔ ∃ i, bools (used_map p) !! i = Some true ∧ a = base p + PGSIZE * Z.of_nat i.
Proof.
  unfold pool_held. rewrite elem_of_list_to_set, list_elem_of_In, in_concat. split.
  - intros (l & Hl & Ha). apply list_elem_of_In, elem_of_lookup_imap in Hl as (i & [] & -> & Hi); [|done].
    destruct Ha as [<-|[]]. by exists i.
  - intros (i & Hi & ->). exists [base p + PGSIZE * Z.of_nat i]. split; [|by left].
    apply list_elem_of_In, elem_of_lookup_imap. by exists i, true.
Qed.

Lemma page_inj p i j : p + PGSIZE * i = p + PGSIZE * j → i = j.
Proof. rewrite PGSIZE_eq. lia. Qed.

Lemma pool_held_mark p b' i n :
  (i + n ≤ length (bools (used_map p)))%nat → bools b' = set_range i n true (bools (used_map p)) →
  pool_held (set_used_map b' p) = pool_held p ∪ pages (base p + PGSIZE * Z.of_nat i) n.
Proof.
  intros Hl Hb. apply set_eq. intros a. rewrite elem_of_union, !elem_of_pool_held, elem_of_pages. cbn [used_map set_used_map base].
  rewrite Hb. setoid_rewrite set_range_lookup. split.
  - intros (j & Hj & ->). case_decide as Hd.
    + right. exists (j - i)%nat. split; [lia|]. rewrite PGSIZE_eq. lia.
    + left. exists j. by destruct (bools (used_map p) !! j) as [[]|].
  - intros [(j & Hj & ->)|(j & Hj & ->)].
    + exists j. rewrite Hj. split; [|done]. by case_decide.
    + exists (i + j)%nat. rewrite decide_True by lia. split; [|rewrite PGSIZE_eq; lia].
      destruct (lookup_lt_is_Some_2 (bools (used_map p)) (i + j)) as [x ->]; [lia|done].
Qed.

Lemma pool_held_clear p b' i n :
  bools b' = set_range i n false (bools (used_map p)) →
  pool_held (set_used_map b' p) = pool_held p ∖ pages (base p + PGSIZE * Z.of_nat i) n.
Proof.
  intros Hb. apply set_eq. intros a. rewrite elem_of_difference, !elem_of_pool_held, elem_of_pages. cbn [used_map set_used_map base].
  rewrite Hb. setoid_rewrite set_range_lookup. split.
  - intros (j & Hj & ->). case_decide as Hd; destruct (bools (used_map p) !! j) as [x|] eqn:Ej; try done.
    split; [exists j; by rewrite Ej|]. intros (k & Hk & E). apply Hd.
    assert (Z.of_nat j = Z.of_nat i + Z.of_nat k) by (rewrite PGSIZE_eq in E; lia). lia.
  - intros [(j & Hj & ->) Hn]. exists j. rewrite Hj. split; [|done]. case_decide as Hd; [|done].
    destruct Hn. exists (j - i)%nat. split; [lia|]. rewrite PGSIZE_eq. lia.
Qed.

Lemma pool_free_disjoint p i n :
  true ∉ range i n (bools (used_map p)) → pages (base p + PGSIZE * Z.of_nat i) n ## pool_held p.
Proof.
  intros Hn a Ha Hp. apply elem_of_pages in Ha as (k & Hk & ->). apply elem_of_pool_held in Hp as (j & Hj & E).
  apply Hn, elem_of_range. exists j. split; [|done]. rewrite PGSIZE_eq in E. lia.
Qed.

(** Held pages in a row are marked in the bitmap. *)
Lemma pool_held_range p i n :
  pages (base p + PGSIZE * Z.of_nat i) n ⊆ pool_held p → (i + n ≤ length (bools (used_map p)))%nat ∨ n = 0%nat.
Proof.
  intros H. destruct n as [|n]; [by right|left]. assert (base p + PGSIZE * Z.of_nat (i + n) ∈ pool_held p) as Hp.
  { apply H, elem_of_pages. exists n. split; [lia|]. rewrite PGSIZE_eq. lia. }
  apply elem_of_pool_held in Hp as (j & Hj%lookup_lt_Some & E%page_inj). lia.
Qed.

Lemma pool_held_marked p i n : pages (base p + PGSIZE * Z.of_nat i) n ⊆ pool_held p → false ∉ range i n (bools (used_map p)).
Proof.
  intros H (j & Hj & E)%elem_of_range. assert (base p + PGSIZE * Z.of_nat j ∈ pool_held p) as Hp.
  { apply H, elem_of_pages. exists (j - i)%nat. split; [lia|]. rewrite PGSIZE_eq. lia. }
  apply elem_of_pool_held in Hp as (k & Hk & Ek%page_inj). assert (j = k) as -> by lia. congruence.
Qed.

Lemma pool_held_bounds p a :
  a ∈ pool_held p → base p ≤ a ∧ a + PGSIZE ≤ pool_end p ∧ (a - base p) mod PGSIZE = 0.
Proof.
  intros (i & Hi%lookup_lt_Some & ->)%elem_of_pool_held. rewrite bools_length in Hi. unfold pool_end. rewrite PGSIZE_eq.
  split_and!; [lia..|]. replace (base p + 4096 * Z.of_nat i - base p) with (Z.of_nat i * 4096) by lia. apply Z.mod_mul. lia.
Qed.

(** ** The allocator *)

Record palloc_wf (s : palloc) : Prop := {
  pw_map user : bitmap_wf (used_map (the_pool user s));
  pw_base user : base (the_pool user s) mod PGSIZE = 0;
  pw_low user : PHYS_BASE ≤ base (the_pool user s);
  pw_high user : pool_end (the_pool user s) ≤ 2 ^ 32;
  pw_sep : pool_end (kernel_pool s) + PGSIZE ≤ base (user_pool s);
  pw_ram user : mapped (ram s) (base (the_pool user s)) (PGSIZE * bit_cnt (used_map (the_pool user s)))
}.

Definition palloc_held (s : palloc) : gset Z := pool_held (kernel_pool s) ∪ pool_held (user_pool s).

#[export] Instance palloc_allocator : PageAllocator palloc := {
  pa_get := palloc_get_multiple;
  pa_free := palloc_free_multiple;
  pa_wf := palloc_wf;
  held := palloc_held;
  memory := ram;
  set_memory := set_ram
}.

Lemma the_pool_set user u p s : the_pool u (set_pool user p s) = if decide (u = user) then p else the_pool u s.
Proof. by destruct user, u. Qed.

Lemma palloc_wf_map user b s :
  palloc_wf s → bitmap_wf b → length (bools b) = length (bools (used_map (the_pool user s))) →
  palloc_wf (set_pool user (set_used_map b (the_pool user s)) s).
Proof.
  intros Hs Hb Hl. assert (bit_cnt b = bit_cnt (used_map (the_pool user s))) as Hc.
  { apply bools_cnt; [apply (pw_map _ Hs)|done|done]. }
  assert (ram (set_pool user (set_used_map b (the_pool user s)) s) = ram s) as Hr by by destruct user.
  constructor; rewrite ?Hr.
  - intros u. rewrite the_pool_set. case_decide; [done|]. apply (pw_map _ Hs).
  - intros u. rewrite the_pool_set. case_decide; subst; apply (pw_base _ Hs).
  - intros u. rewrite the_pool_set. case_decide; subst; apply (pw_low _ Hs).
  - intros u. rewrite the_pool_set. case_decide; subst; [|apply (pw_high _ Hs)].
    unfold pool_end. cbn [used_map set_used_map base]. rewrite Hc. apply (pw_high _ Hs).
  - pose proof (pw_sep _ Hs) as H. unfold pool_end in *. destruct user; cbn in *; [done|]. by rewrite Hc.
  - intros u. rewrite the_pool_set. case_decide; subst; [|apply (pw_ram _ Hs)].
    cbn [used_map set_used_map base]. rewrite Hc. apply (pw_ram _ Hs).
Qed.

Lemma palloc_wf_ram s m : palloc_wf s → dom m = dom (ram s) → palloc_wf (set_ram m s).
Proof.
  intros Hs Hd. constructor.
  - apply (pw_map _ Hs).
  - apply (pw_base _ Hs).
  - apply (pw_low _ Hs).
  - apply (pw_high _ Hs).
  - apply (pw_sep _ Hs).
  - intros u x Hx. cbn [ram set_ram]. apply elem_of_dom. rewrite Hd. apply elem_of_dom. by apply (pw_ram _ Hs u).
Qed.

Lemma store_dom a bs m : mapped m a (Z.of_nat (length bs)) → dom (store a bs m) = dom m.
Proof.
  intros Hm. apply set_eq. intros x. rewrite !elem_of_dom, store_lookup. case_decide as Hd; [|done].
  split; [intros _; by apply Hm|]. intros _. apply lookup_lt_is_Some_2. lia.
Qed.

(** Pages of a pool, counted from its base. *)
Lemma pool_pages_ok s user i n :
  palloc_wf s → (i + n ≤ length (bools (used_map (the_pool user s))))%nat →
  let p := base (the_pool user s) + PGSIZE * Z.of_nat i in
  PHYS_BASE ≤ p ∧ p + PGSIZE * Z.of_nat n ≤ 2 ^ 32 ∧ p mod PGSIZE = 0 ∧ mapped (ram s) p (PGSIZE * Z.of_nat n).
Proof.
  intros Hs Hn p. rewrite bools_length in Hn. pose proof (pw_low _ Hs user). pose proof (pw_high _ Hs user) as Hh.
  pose proof (pw_base _ Hs user) as Hb. pose proof (wf_cnt _ (pw_map _ Hs user)). unfold pool_end in Hh. subst p. rewrite PGSIZE_eq in *.
  split_and!; [lia|lia| |].
  - by rewrite Z.mul_comm, Z.mod_add by lia.
  - intros x Hx. apply (pw_ram _ Hs user). rewrite PGSIZE_eq. lia.
Qed.

Lemma pools_disjoint s a : palloc_wf s → a ∈ pool_held (kernel_pool s) → a ∈ pool_held (user_pool s) → False.
Proof.
  intros Hs [? [? _]]%pool_held_bounds [? _]%pool_held_bounds. pose proof (pw_sep _ Hs). rewrite PGSIZE_eq in *. lia.
Qed.

(** The pages of one pool are not held by the other. *)
Lemma other_pool_disjoint s user i n :
  palloc_wf s → (i + n ≤ length (bools (used_map (the_pool user s))))%nat →
  pages (base (the_pool user s) + PGSIZE * Z.of_nat i) n ## pool_held (the_pool (negb user) s).
Proof.
  intros Hs Hn a Ha Hp. apply elem_of_pages in Ha as (k & Hk & ->). rewrite bools_length in Hn.
  apply pool_held_bounds in Hp as (H1 & H2 & _). pose proof (pw_sep _ Hs) as Hsep.
  unfold pool_end in *. rewrite PGSIZE_eq in *. destruct user; cbn in *; lia.
Qed.

Lemma held_the_pool s user : palloc_held s = pool_held (the_pool user s) ∪ pool_held (the_pool (negb user) s).
Proof. unfold palloc_held. destruct user; cbn; [|done]. by rewrite (union_comm_L (pool_held (kernel_pool s))). Qed.

Lemma held_set_pool s user p :
  palloc_held (set_pool user p s) = pool_held p ∪ pool_held (the_pool (negb user) s).
Proof. rewrite (held_the_pool _ user), !the_pool_set. by destruct user. Qed.

Lemma on_map_ok {A} user (m : M bitmap A) s a b :
  m (used_map (the_pool user s)) = Ok (a, b) →
  on_map user m s = Ok (a, set_pool user (set_used_map b (the_pool user s)) s).
Proof. intros E. unfold on_map, zoom. by rewrite E. Qed.
Lemma on_ram_ok {A} (m : M mem A) s a r : m (ram s) = Ok (a, r) → on_ram m s = Ok (a, set_ram r s).
Proof. apply zoom_ok. Qed.

Lemma palloc_get_ok s flags n :
  palloc_wf s → (0 < n)%nat → Z.of_nat n < 2 ^ 20 → got flags n s (palloc_get_multiple flags (Z.of_nat n) s).
Proof.
  intros Hs Hn Hn2. unfold palloc_get_multiple. rewrite decide_False by lia.
  set (user := bool_decide (Z.land flags PAL_USER ≠ 0)). set (b := used_map (the_pool user s)).
  destruct (scan_and_flip_run 0 n false b) as (b' & E & Hb' & Hbools); [apply (pw_map _ Hs)|lia|].
  rewrite (bind_ok _ _ _ _ _ (on_map_ok user _ s _ _ E)). set (s1 := set_pool user (set_used_map b' (the_pool user s)) s).
  rewrite (bind_ok _ _ _ (base (the_pool user s)) s1) by (unfold gets, s1; by rewrite the_pool_set, decide_True).
  destruct (first_group 0 n false (bools b)) as [i|] eqn:Eg.
  - rewrite (decide_True (P := index (Some i) ≠ _)) by (by eapply group_index; [apply (pw_map _ Hs)|exact Eg]).
    apply first_group_Some in Eg as [[_ [Hi Hr]] _]. cbn [index].
    destruct (pool_pages_ok s user i n Hs Hi) as (Hp1 & Hp2 & Hp3 & Hp4). set (p := base _ + _) in *.
    assert (PHYS_BASE ≤ p) by done. unfold PHYS_BASE in Hp1. rewrite wrapu_small by (unfold in_u; rewrite PGSIZE_eq in *; lia).
    rewrite decide_True by (unfold NULL; lia).
    assert (palloc_wf s1) as Hs1 by (apply palloc_wf_map; [done..|]; rewrite Hbools; apply set_range_length).
    assert (ram s1 = ram s) as Hr1 by (unfold s1; by destruct user).
    assert (palloc_held s1 = palloc_held s ∪ pages p n) as Hh1.
    { unfold s1. rewrite held_set_pool, (pool_held_mark _ _ i n Hi Hbools), (held_the_pool s user). fold p. set_solver. }
    assert (pages p n ## palloc_held s) as Hd.
    { rewrite (held_the_pool s user). apply disjoint_union_r. split; [by apply pool_free_disjoint|by apply other_pool_disjoint]. }
    destruct (decide (Z.land flags PAL_ZERO ≠ 0)) as [Hz|Hz].
    + assert (on_ram (memset p 0 (u32 (PGSIZE * Z.of_nat n))) s1 =
        Ok (p, set_ram (store p (replicate (Z.to_nat (PGSIZE * Z.of_nat n)) 0) (ram s)) s1)) as Em.
      { apply on_ram_ok. rewrite Hr1, wrapu_small by (unfold in_u; rewrite PGSIZE_eq in *; lia).
        rewrite <-(Z2Nat.id (PGSIZE * Z.of_nat n)) by (rewrite PGSIZE_eq; lia).
        rewrite memset_ok; [by rewrite Z2Nat.id by (rewrite PGSIZE_eq; lia)| |lia].
        by rewrite Z2Nat.id by (rewrite PGSIZE_eq; lia). }
      cbv [mbind M_bind]. rewrite Em. unfold mret, M_ret. apply got_pages; cbn; try done.
      * apply palloc_wf_ram; [done|]. rewrite Hr1. apply store_dom.
        rewrite length_replicate, Z2Nat.id by (rewrite PGSIZE_eq; lia). done.
      * by rewrite decide_True.
    + apply got_pages; cbn; try done. by rewrite decide_False.
  - cbn [index]. rewrite (decide_False (P := BITMAP_ERROR ≠ _)) by (intros Hx; by apply Hx).
    rewrite (decide_False (P := NULL ≠ NULL)) by (intros Hx; by apply Hx).
    destruct (decide (Z.land flags PAL_ASSERT ≠ 0)); [by apply got_panic|].
    apply got_none; cbn; [|..|by apply dec_stable].
    + apply palloc_wf_map; [done..|]. by rewrite Hbools.
    + unfold s1. rewrite held_set_pool, (held_the_pool s user). f_equal. unfold pool_held. cbn [used_map set_used_map base]. by rewrite Hbools.
    + unfold s1. by destruct user.
Qed.

(** Pages in a row that are held belong to one pool: the bitmap of the user
    pool is between the pools. *)
Lemma held_one_pool s p n :
  palloc_wf s → (0 < n)%nat → pages p n ⊆ palloc_held s →
  ∃ user i, p = base (the_pool user s) + PGSIZE * Z.of_nat i ∧ pages p n ⊆ pool_held (the_pool user s).
Proof.
  intros Hs Hn Hp. assert (∃ user, p ∈ pool_held (the_pool user s)) as (user & Hu).
  { assert (p ∈ palloc_held s) as H by (apply Hp, elem_of_pages; exists 0%nat; split; [done|lia]).
    apply elem_of_union in H as [?|?]; [by exists false|by exists true]. }
  apply elem_of_pool_held in Hu as Hi. destruct Hi as (i & _ & Ep). exists user, i. split; [done|].
  intros a (k & Hk & ->)%elem_of_pages. induction k as [|k IH]; [by rewrite Z.mul_0_r, Z.add_0_r|].
  specialize (IH ltac:(lia)). apply pool_held_bounds in IH as (H1 & H2 & _).
  assert (p + PGSIZE * Z.of_nat (S k) ∈ palloc_held s) as H by (apply Hp, elem_of_pages; by exists (S k)).
  rewrite (held_the_pool s user) in H. apply elem_of_union in H as [?|(H3 & H4 & _)%pool_held_bounds]; [done|].
  exfalso. pose proof (pw_sep _ Hs). rewrite PGSIZE_eq in *. unfold pool_end in *. destruct user; cbn in *; lia.
Qed.

Lemma page_from_pool_ok s user a :
  palloc_wf s → a mod PGSIZE = 0 →
  page_from_pool user a s =
    Ok (bool_decide (base (the_pool user s) ≤ a ∧ a < pool_end (the_pool user s)), s).
Proof.
  intros Hs Ha. unfold page_from_pool. rewrite (bind_ok _ _ _ _ _ eq_refl).
  rewrite (bind_ok _ _ _ (bit_cnt (used_map (the_pool user s))) s).
  2:{ erewrite on_map_ok by done. f_equal. f_equal. destruct s as [[] [] r], user; done. }
  unfold mret, M_ret. do 2 f_equal. apply bool_decide_ext. rewrite !pg_no_eq.
  pose proof (pw_base _ Hs user). pose proof (pw_low _ Hs user) as Hl. pose proof (pw_high _ Hs user). unfold PHYS_BASE in Hl.
  pose proof (wf_cnt _ (pw_map _ Hs user)). unfold pool_end in *. rewrite PGSIZE_eq in *.
  pose proof (Z.div_mod a 4096). pose proof (Z.div_mod (base (the_pool user s)) 4096).
  rewrite wrapu_small by (unfold in_u; lia). lia.
Qed.

(** The place and size of a pool. *)
Definition geometry (s : palloc) (user : bool) : Z * Z := (base (the_pool user s), bit_cnt (used_map (the_pool user s))).

Lemma geometry_map user b s u : bit_cnt b = bit_cnt (used_map (the_pool user s)) → geometry (set_pool user (set_used_map b (the_pool user s)) s) u = geometry s u.
Proof. intros E. unfold geometry. rewrite the_pool_set. case_decide as Hu; [subst u|done]. cbn. by rewrite E. Qed.

Lemma palloc_free_ok s p n :
  palloc_wf s → (0 < n)%nat → pages p n ⊆ palloc_held s →
  ∃ s', palloc_free_multiple p (Z.of_nat n) s = Ok (tt, s') ∧ palloc_wf s' ∧ palloc_held s' = palloc_held s ∖ pages p n ∧
    ram s' = store p (replicate (Z.to_nat (PGSIZE * Z.of_nat n)) 0xcc) (ram s) ∧ ∀ u, geometry s' u = geometry s u.
Proof.
  intros Hs Hn Hp. destruct (held_one_pool s p n Hs Hn Hp) as (user & i & Ep & Hu).
  assert (i + n ≤ length (bools (used_map (the_pool user s))))%nat as Hi.
  { rewrite Ep in Hu. apply pool_held_range in Hu as [?|?]; lia. }
  pose proof (pool_pages_ok s user i n Hs Hi) as (Hp1 & Hp2 & Hp3 & Hp4). rewrite <-Ep in *.
  unfold palloc_free_multiple. rewrite pg_ofs_eq, bool_decide_eq_true_2 by done. rewrite (bind_ok _ _ _ _ s eq_refl).
  pose proof Hp1 as Hp1'. unfold PHYS_BASE in Hp1'. rewrite decide_False by (unfold NULL; lia).
  rewrite (bind_ok _ _ _ _ _ (page_from_pool_ok s false p Hs Hp3)).
  assert (base (the_pool user s) ≤ p ∧ p < pool_end (the_pool user s)) as Hin.
  { unfold pool_end. rewrite bools_length in Hi. rewrite PGSIZE_eq in *. lia. }
  rewrite (bind_ok _ _ _ user s).
  2:{ destruct user; [|by rewrite bool_decide_eq_true_2].
      rewrite bool_decide_eq_false_2 by (pose proof (pw_sep _ Hs); rewrite PGSIZE_eq in *; cbn in *; lia).
      rewrite (bind_ok _ _ _ _ _ (page_from_pool_ok s true p Hs Hp3)). by rewrite bool_decide_eq_true_2. }
  rewrite (bind_ok _ _ _ _ _ eq_refl).
  assert (u32 (pg_no p - pg_no (base (the_pool user s))) = Z.of_nat i) as ->.
  { rewrite !pg_no_eq. pose proof (pw_base _ Hs user). pose proof (pw_low _ Hs user) as Hl. unfold PHYS_BASE in Hl.
    rewrite PGSIZE_eq in *. pose proof (Z.div_mod p 4096). pose proof (Z.div_mod (base (the_pool user s)) 4096).
    rewrite wrapu_small by (unfold in_u; lia). lia. }
  set (cc := replicate (Z.to_nat (PGSIZE * Z.of_nat n)) 0xcc). set (s1 := set_ram (store p cc (ram s)) s).
  assert (Z.of_nat (Z.to_nat (PGSIZE * Z.of_nat n)) = PGSIZE * Z.of_nat n) as Hsz by (rewrite PGSIZE_eq; lia).
  rewrite (bind_ok _ _ _ p s1).
  2:{ apply on_ram_ok. rewrite wrapu_small by (unfold in_u; rewrite PGSIZE_eq in *; lia). rewrite <-Hsz.
      rewrite memset_ok; [done|by rewrite Hsz|lia]. }
  assert (palloc_wf s1) as Hs1.
  { apply palloc_wf_ram; [done|]. apply store_dom. unfold cc. by rewrite length_replicate, Hsz. }
  assert (the_pool user s1 = the_pool user s) as Hps by by destruct user.
  assert (Z.of_nat (i + n) < 2 ^ 32) as Hin32.
  { rewrite bools_length in Hi. pose proof (wf_cnt _ (pw_map _ Hs user)). lia. }
  rewrite (bind_ok _ _ _ true s1).
  2:{ erewrite on_map_ok.
      2:{ unfold bitmap_all. rewrite Hps. pose proof (contains_run i n false _ (pw_map _ Hs user) Hin32) as Ec.
          rewrite decide_True in Ec by done. rewrite (bind_ok _ _ _ _ _ Ec).
          rewrite bool_decide_eq_false_2; [done|]. apply pool_held_marked. by rewrite <-Ep. }
      f_equal. f_equal. rewrite Hps. by destruct s as [[] [] r], user. }
  rewrite (bind_ok _ _ _ _ s1 eq_refl).
  pose proof (set_multiple_run i n false _ (pw_map _ Hs user) Hin32) as Em. rewrite decide_True in Em by done.
  destruct Em as (b' & Em & Hb' & Hbools).
  eexists. split; [apply on_map_ok; rewrite Hps; exact Em|]. split_and!.
  - apply palloc_wf_map; [done..|]. by rewrite Hbools, set_range_length, Hps.
  - rewrite held_set_pool, Hps, (pool_held_clear _ _ i n Hbools), <-Ep, (held_the_pool s user).
    assert (pool_held (the_pool (negb user) s1) = pool_held (the_pool (negb user) s)) as -> by by destruct user.
    pose proof (other_pool_disjoint s user i n Hs Hi) as Hd. rewrite <-Ep in Hd. set_solver.
  - by destruct user.
  - intros u. rewrite geometry_map; [by destruct u|]. apply bools_cnt; [rewrite Hps; apply (pw_map _ Hs)|done|]. by rewrite Hbools, set_range_length, Hps.
Qed.

Lemma palloc_held_page s p :
  palloc_wf s → p ∈ palloc_held s → PHYS_BASE ≤ p ∧ p + PGSIZE ≤ 2 ^ 32 ∧ p mod PGSIZE = 0 ∧ mapped (ram s) p PGSIZE.
Proof.
  intros Hs Hp. destruct (held_one_pool s p 1 Hs) as (user & i & Ep & Hu); [lia| |].
  { intros a (k & Hk & ->)%elem_of_pages. by replace (p + PGSIZE * Z.of_nat k) with p by (rewrite PGSIZE_eq; lia). }
  rewrite Ep in Hu. apply pool_held_range in Hu as [Hi|]; [|done].
  destruct (pool_pages_ok s user i 1 Hs Hi) as (H1 & H2 & H3 & H4). rewrite <-Ep, Z.mul_1_r in *. done.
Qed.

#[export] Instance palloc_laws : PageAllocatorLaws palloc.
Proof.
  constructor.
  - intros s flags n. apply palloc_get_ok.
  - intros s p n Hs Hn Hp. destruct (palloc_free_ok s p n Hs Hn Hp) as (s' & E & H1 & H2 & H3 & _). by exists s'.
  - intros s p. apply palloc_held_page.
  - intros s m Hs Hd. split; [by apply palloc_wf_ram|done].
  - by intros [].
  - done.
Qed.

Definition palloc_range (s : palloc) : gset Z :=
  pages (geometry s false).1 (Z.to_nat (geometry s false).2) ∪ pages (geometry s true).1 (Z.to_nat (geometry s true).2).

Lemma palloc_get_geometry s flags n p s' u :
  palloc_wf s → (0 < n)%nat → palloc_get_multiple flags (Z.of_nat n) s = Ok (p, s') → geometry s' u = geometry s u.
Proof.
  intros Hs Hn. unfold palloc_get_multiple. rewrite decide_False by lia. set (user := bool_decide _).
  destruct (scan_and_flip_run 0 n false (used_map (the_pool user s))) as (b' & E & Hb' & Hbools); [apply (pw_map _ Hs)|lia|].
  rewrite (bind_ok _ _ _ _ _ (on_map_ok user _ s _ _ E)). set (s1 := set_pool _ _ s).
  assert (geometry s1 u = geometry s u) as <-.
  { apply geometry_map. apply bools_cnt; [apply (pw_map _ Hs)|done|]. rewrite Hbools. case_match; [apply set_range_length|done]. }
  rewrite (bind_ok _ _ _ _ _ eq_refl). intros ([] & s2 & E2 & E3)%bind_inv. injection E3 as <- <-. clear E. revert E2. generalize s1. clear. intros s1.
  repeat case_decide; intros E2; try done; try (by injection E2 as <-). apply bind_inv in E2 as (x & s3 & E3 & E4). injection E4 as <-.
  unfold on_ram, zoom in E3. destruct (memset _ _ _ _) as [[y m]|]; [|done]. injection E3 as <- <-. done.
Qed.

Lemma palloc_free_geometry s p n s' u :
  palloc_wf s → (0 < n)%nat → pages p n ⊆ palloc_held s → palloc_free_multiple p (Z.of_nat n) s = Ok (tt, s') → geometry s' u = geometry s u.
Proof.
  intros Hs Hn Hp E. destruct (palloc_free_ok s p n Hs Hn Hp) as (s2 & E2 & _ & _ & _ & Hg). rewrite E in E2. injection E2 as <-. apply Hg.
Qed.

#[export, refine] Instance palloc_pool : PagePool palloc := { pool_range := palloc_range }.
Proof.
  - intros s flags n p s' Hs Hn E. unfold palloc_range. by rewrite !(palloc_get_geometry s flags n p s') by done.
  - intros s p n s' Hs Hn Hp E. unfold palloc_range. by rewrite !(palloc_free_geometry s p n s') by done.
  - intros s m. done.
  - intros s Hs k Hk. change (k ∈ palloc_held s) in Hk. change (k ∈ palloc_range s). unfold palloc_held in Hk. unfold palloc_range.
    apply elem_of_union in Hk as [Hk|Hk]; apply elem_of_pool_held in Hk as (i & Hi & ->); apply lookup_lt_Some in Hi; rewrite bools_length in Hi; apply elem_of_union;
      [left|right]; apply elem_of_pages; exists i; (split; [|done]); cbn; lia.
  - intros s k Hs Hk. change (k ∈ palloc_range s) in Hk. apply elem_of_union in Hk as [Hk|Hk]; apply elem_of_pages in Hk as (i & _ & ->); rewrite Z.mul_comm, Z.mod_add by done;
      [apply (pw_base _ Hs false)|apply (pw_base _ Hs true)].
Defined.

(** ** Initialization *)

Lemma bm_pages_bounds cnt :
  1 ≤ cnt → cnt ≤ 2 ^ 20 →
  let bm := DIV_ROUND_UP (bitmap_buf_size cnt) PGSIZE in
  1 ≤ bm ∧ bm ≤ cnt ∧ ∀ c, 0 ≤ c → c ≤ cnt → bitmap_buf_size c ≤ bm * PGSIZE.
Proof.
  intros H1 H2. assert (∀ c, 0 ≤ c → c ≤ cnt → bitmap_buf_size c = 8 + 4 * ((c + 31) / 32)) as Hb.
  { intros c ??. unfold bitmap_buf_size, byte_cnt. rewrite elem_cnt_eq by lia.
    rewrite (wrapu_small 32 (4 * _)) by (unfold in_u; dlia). apply wrapu_small. unfold in_u. dlia. }
  cbv zeta. unfold DIV_ROUND_UP. rewrite (Hb cnt) by lia. rewrite PGSIZE_eq, wrapu_small by (unfold in_u; dlia).
  split_and!; [dlia..|]. intros c ??. rewrite Hb by lia. dlia.
Qed.

Lemma init_pool_ok start cnt block :
  1 ≤ cnt → cnt ≤ 2 ^ 20 → 0 ≤ start → start + PGSIZE * cnt < 2 ^ 32 → start mod PGSIZE = 0 →
  Forall (in_u 32) block → elem_cnt cnt ≤ Z.of_nat (length block) →
  ∃ p, init_pool start cnt block = Ok p ∧ bitmap_wf (used_map p) ∧ pool_held p = ∅ ∧
    start + PGSIZE ≤ base p ∧ pool_end p = start + PGSIZE * cnt ∧ base p mod PGSIZE = 0.
Proof.
  intros H1 H2 H3 H4 H5 Hb Hl. destruct (bm_pages_bounds cnt H1 H2) as (B1 & B2 & B3). unfold init_pool.
  set (bm := DIV_ROUND_UP _ _) in *. rewrite decide_False by lia.
  assert (bm * PGSIZE < 2 ^ 32) by (rewrite PGSIZE_eq in *; unfold bm in *; lia).
  rewrite PGSIZE_eq in *. rewrite (wrapu_small 32 (bm * 4096)) by (unfold in_u; lia).
  assert (elem_cnt (cnt - bm) ≤ elem_cnt cnt) by (rewrite !elem_cnt_eq by lia; apply Z.div_le_mono; lia).
  assert (0 ≤ elem_cnt (cnt - bm)) by (rewrite elem_cnt_eq by lia; apply Z.div_pos; lia).
  destruct (bitmap_create_in_buf_ok (take (Z.to_nat (elem_cnt (cnt - bm))) block) (cnt - bm) (bm * 4096)) as (b & E & Hwf & Hbs).
  - constructor; cbn; [lia|rewrite length_take; lia|by apply Forall_take].
  - apply B3; lia.
  - exists (Pool b (u32 (start + bm * 4096))). rewrite E. cbn [mbind result_bind used_map base].
    assert (bit_cnt b = cnt - bm) as Hc.
    { pose proof (bools_length b) as Hx. rewrite Hbs, length_replicate in Hx. pose proof (wf_cnt _ Hwf). lia. }
    rewrite (wrapu_small 32 (start + bm * 4096)) by (unfold in_u; lia). unfold pool_end. cbn [used_map base]. rewrite Hc, PGSIZE_eq.
    split_and!; [done|done| |lia|lia|by rewrite Z.mod_add by lia]. apply set_eq. intros a.
    rewrite elem_of_pool_held. cbn [used_map base]. rewrite Hbs. split; [|set_solver].
    intros (i & E' & _). by apply lookup_replicate in E' as [? _].
Qed.

Lemma pool_end_held p s' : pool_held p = ∅ → pool_held s' = ∅ → ∀ m, palloc_held (Palloc p s' m) = ∅.
Proof. intros H1 H2 m. unfold palloc_held. cbn. rewrite H1, H2. set_solver. Qed.

Lemma palloc_range_end s k e : palloc_wf s → (∀ user, pool_end (the_pool user s) ≤ e) → k ∈ palloc_range s → k + PGSIZE ≤ e.
Proof.
  intros Hs He. unfold palloc_range, geometry. cbn [fst snd]. rewrite elem_of_union, !elem_of_pages.
  pose proof (wf_cnt _ (pw_map _ Hs false)) as H1. pose proof (wf_cnt _ (pw_map _ Hs true)) as H2.
  pose proof (He false) as E1. pose proof (He true) as E2. unfold pool_end in *. rewrite PGSIZE_eq in *. intros [(i & Hi & ->)|(i & Hi & ->)]; lia.
Qed.

(** What the machine must provide: between 258 pages and 1 GB of memory, and
    at least one page allowed in the user pool. *)
Record machine (init_ram_pages user_page_limit : Z) (kblock ublock : list Z) (m : mem) : Prop := {
  mc_ram : 258 ≤ init_ram_pages ∧ init_ram_pages < 2 ^ 18;
  mc_limit : 1 ≤ user_page_limit;
  mc_kblock : Forall (in_u 32) kblock ∧ init_ram_pages ≤ Z.of_nat (length kblock);
  mc_ublock : Forall (in_u 32) ublock ∧ init_ram_pages ≤ Z.of_nat (length ublock);
  mc_mapped : mapped m (PHYS_BASE + 2 ^ 20) (PGSIZE * init_ram_pages - 2 ^ 20)
}.

Lemma palloc_init_ok pages limit kblock ublock m :
  machine pages limit kblock ublock m →
  ∃ s, palloc_init pages limit kblock ublock m = Ok s ∧ palloc_wf s ∧ palloc_held s = ∅ ∧ ram s = m ∧
    ∀ user, pool_end (the_pool user s) ≤ PHYS_BASE + pages * PGSIZE.
Proof.
  intros [[H1 H2] H3 [K1 K2] [U1 U2] Hm]. unfold palloc_init. rewrite PGSIZE_eq in *.
  rewrite (ptov_ok (1024 * 1024)) by (unfold PHYS_BASE; lia). rewrite ok_bind. cbv beta.
  rewrite (wrapu_small 32 (pages * 4096)) by (unfold in_u; lia).
  rewrite ptov_ok by (unfold PHYS_BASE; lia). rewrite ok_bind. cbv beta.
  replace (pages * 4096 + PHYS_BASE - (1024 * 1024 + PHYS_BASE)) with ((pages - 256) * 4096) by lia.
  rewrite wraps_small by (done || unfold in_s; lia). rewrite Z.quot_mul by lia.
  rewrite (wrapu_small 32 (pages - 256)) by (unfold in_u; lia).
  set (up := if decide _ then limit else _).
  assert (1 ≤ up ∧ up ≤ (pages - 256) / 2) as [Hu1 Hu2] by (unfold up; case_decide; dlia).
  set (kp := pages - 256 - up). assert (1 ≤ kp) by (unfold kp; dlia).
  assert (∀ c, 0 ≤ c → c ≤ pages → elem_cnt c ≤ pages) as He by (intros; rewrite elem_cnt_eq by lia; dlia).
  destruct (init_pool_ok (1024 * 1024 + PHYS_BASE) kp kblock) as (k & Ek & Kw & Kh & Kb & Ke & Km);
    [unfold PHYS_BASE, kp in *; rewrite ?PGSIZE_eq; try done; try lia..|].
  { pose proof (He (pages - 256 - up)). lia. }
  rewrite Ek. rewrite ok_bind. cbv beta.
  rewrite (wrapu_small 32 (1024 * 1024 + PHYS_BASE + kp * 4096)) by (unfold in_u, PHYS_BASE; lia).
  destruct (init_pool_ok (1024 * 1024 + PHYS_BASE + kp * 4096) up ublock) as (u & Eu & Uw & Uh & Ub & Ue & Um);
    [unfold PHYS_BASE, kp in *; rewrite ?PGSIZE_eq; try done; try lia..|].
  { rewrite Z.mod_add by lia. done. }
  { pose proof (He up). lia. }
  rewrite Eu. rewrite ok_bind. cbv beta. eexists. split; [done|]. split; [|split_and!; [by apply pool_end_held|done|]].
  2:{ unfold pool_end, kp, PHYS_BASE in *. rewrite PGSIZE_eq in *. intros []; cbn; lia. }
  unfold pool_end, kp, PHYS_BASE in *. rewrite PGSIZE_eq in *.
  constructor.
  - by intros [].
  - rewrite PGSIZE_eq. by intros [].
  - unfold PHYS_BASE. intros []; cbn; lia.
  - unfold pool_end. rewrite PGSIZE_eq. intros []; cbn; lia.
  - unfold pool_end. rewrite PGSIZE_eq. cbn. lia.
  - rewrite PGSIZE_eq. intros user x Hx. apply Hm. destruct user; cbn in Hx; lia.
Qed.

(** ** is_kaddr_valid *)

Lemma on_map_reads {A} user (m : M bitmap A) s a :
  m (used_map (the_pool user s)) = Ok (a, used_map (the_pool user s)) → on_map user m s = Ok (a, s).
Proof. intros E. rewrite (on_map_ok _ _ _ _ _ E). by destruct s as [[] [] r], user. Qed.

(** It tells whether the page is in use for an address in the kernel pool, and
    fails an assertion for a kernel address below or above that pool. *)
Lemma is_kaddr_valid_ok s a :
  palloc_wf s → PHYS_BASE ≤ a → a < 2 ^ 32 →
  is_kaddr_valid a s =
    if decide (base (kernel_pool s) ≤ a ∧ a < pool_end (kernel_pool s))
    then Ok (bool_decide (pg_round_down a ∈ pool_held (kernel_pool s)), s) else Err AssertFailed.
Proof.
  intros Hs H1 H2. unfold is_kaddr_valid, is_kernel_vaddr. rewrite bool_decide_eq_true_2 by done.
  rewrite (bind_ok _ _ _ _ s eq_refl), (bind_ok _ _ _ _ s eq_refl). unfold PHYS_BASE in H1.
  rewrite pg_round_down_eq by (unfold in_u; lia). pose proof (pw_low _ Hs false) as Hl. unfold PHYS_BASE in Hl.
  pose proof (pw_high _ Hs false) as Hh. pose proof (pw_base _ Hs false) as Hb. pose proof (pw_map _ Hs false) as Hm.
  pose proof (wf_cnt _ Hm) as Hc. unfold pool_end in *. cbn [the_pool] in *. rewrite PGSIZE_eq in *.
  set (k := kernel_pool s) in *. pose proof (Z.mod_pos_bound a 4096 ltac:(lia)) as Ha.
  rewrite wraps_small by (done || unfold in_s; lia).
  assert (Z.quot (a - a mod 4096 - base k) 4096 = a / 4096 - base k / 4096) as ->.
  { replace (a - a mod 4096 - base k) with ((a / 4096 - base k / 4096) * 4096) by dlia. by rewrite Z.quot_mul. }
  destruct (decide (base k ≤ a ∧ a < base k + 4096 * bit_cnt (used_map k))) as [Hd|Hd].
  - rewrite wrapu_small by (unfold in_u; dlia). set (i := Z.to_nat (a / 4096 - base k / 4096)).
    replace (a / 4096 - base k / 4096) with (Z.of_nat i) by dlia. apply on_map_reads. cbn [the_pool]. fold k.
    assert (Z.of_nat i < bit_cnt (used_map k)) as Hi by dlia.
    rewrite bitmap_test_ok by (done || lia). do 2 f_equal. symmetry.
    assert (pg_round_down a = base k + 4096 * Z.of_nat i) as Ea.
    { rewrite pg_round_down_eq by (unfold in_u; lia). rewrite PGSIZE_eq. dlia. }
    pose proof (bools_lookup (used_map k) i) as Eb. rewrite decide_True in Eb by done.
    destruct (bit (used_map k) i) eqn:Ei.
    + apply bool_decide_eq_true_2, elem_of_pool_held. exists i. split; [done|]. rewrite PGSIZE_eq. dlia.
    + apply bool_decide_eq_false_2. intros (j & Hj & Ej)%elem_of_pool_held. rewrite PGSIZE_eq in Ej.
      assert (j = i) as -> by dlia. congruence.
  - unfold on_map, zoom. cbn [the_pool]. fold k. unfold bitmap_test.
    rewrite (bind_ok _ _ _ _ (used_map k) eq_refl). rewrite bool_decide_eq_false_2; [done|].
    unfold wrapu. destruct (decide (base k ≤ a)); dlia.
Qed.

(** ** Programs that allocate and free *)

(** Free the block that is [i]-th among those in use. *)
Inductive page_op := GetPages (flags : Z) (n : nat) | FreePages (i : nat).

Definition run_page_op (o : page_op) (st : palloc * list (Z * nat)) : result (palloc * list (Z * nat)) :=
  let '(s, live) := st in
  match o with
  | GetPages flags n =>
      '(p, s) ← palloc_get_multiple flags (Z.of_nat n) s; Ok (s, if decide (p = NULL) then live else live ++ [(p, n)])
  | FreePages i =>
      match live !! i with
      | Some (p, n) => '(_, s) ← palloc_free_multiple p (Z.of_nat n) s; Ok (s, delete i live)
      | None => Ok (s, live)
      end
  end.

Fixpoint run_page_ops (os : list page_op) (st : palloc * list (Z * nat)) : result (palloc * list (Z * nat)) :=
  match os with [] => Ok st | o :: os => st ← run_page_op o st; run_page_ops os st end.

Definition page_op_ok (o : page_op) : Prop :=
  match o with GetPages flags n => (0 < n)%nat ∧ Z.of_nat n < 2 ^ 20 ∧ Z.land flags PAL_ASSERT = 0 | FreePages _ => True end.

(** The pages of a block. *)
Definition block_pages (b : Z * nat) : list Z := (λ i, b.1 + PGSIZE * i) <$> seqZ 0 (Z.of_nat b.2).

(** No page is in two blocks, and the pages in use are those of the blocks. *)
Record pages_inv (st : palloc * list (Z * nat)) : Prop := {
  pi_wf : palloc_wf st.1;
  pi_nodup : NoDup (st.2 ≫= block_pages);
  pi_held : palloc_held st.1 = list_to_set (st.2 ≫= block_pages);
  pi_blocks : Forall (λ b, (0 < b.2)%nat) st.2
}.

Lemma block_pages_nodup b : NoDup (block_pages b).
Proof. apply NoDup_fmap_2; [|apply NoDup_seqZ]. intros i j E. by apply page_inj in E. Qed.

Lemma delete_blocks_perm (live : list (Z * nat)) i b :
  live !! i = Some b → live ≫= block_pages ≡ₚ block_pages b ++ (delete i live ≫= block_pages).
Proof. intros E. by rewrite (delete_Permutation live i b E) at 1. Qed.

Lemma page_op_inv o st : pages_inv st → page_op_ok o → ∃ st', run_page_op o st = Ok st' ∧ pages_inv st'.
Proof.
  destruct st as [s live]. intros [Hs Hn Hh Hb] Ho. cbn in *. destruct o as [flags n|i]; cbn.
  - destruct Ho as (H1 & H2 & H3). destruct (palloc_get_ok s flags n Hs H1 H2) as [s' Hs' Hh' Hm _|H|p s' Hs' Hp1 Hp2 Hp3 Hd Hh' Hm];
      [|done|]; cbn; eexists; (split; [reflexivity|]).
    + rewrite decide_True by done. constructor; cbn; try done. by rewrite <-Hh.
    + unfold PHYS_BASE in Hp1. rewrite decide_False by (unfold NULL; lia). cbn in Hh', Hd. rewrite Hh in Hd, Hh'.
      assert (∀ a, a ∈ pages p n ↔ a ∈ block_pages (p, n)) as Hpb by (intros a; unfold pages; by rewrite elem_of_list_to_set).
      constructor; cbn; [done|..]; rewrite ?bind_app; cbn [mbind list_bind]; rewrite ?app_nil_r.
      * apply NoDup_app. split_and!; [done| |apply block_pages_nodup]. intros a Ha Hb'%Hpb. apply (Hd a); [done|].
        by apply elem_of_list_to_set.
      * rewrite list_to_set_app_L. exact Hh'.
      * apply Forall_app. by split; [|constructor].
  - destruct (live !! i) as [[p n]|] eqn:E; [|by eexists]. pose proof (delete_blocks_perm live i _ E) as Hperm.
    assert (0 < n)%nat as Hn0 by (by apply (Forall_lookup_1 _ _ _ _ Hb E)).
    destruct (palloc_free_ok s p n) as (s' & Ef & Hs' & Hh' & _); [done|done| |].
    { rewrite Hh, Hperm, list_to_set_app_L. apply union_subseteq_l. }
    rewrite Ef. cbn. eexists. split; [reflexivity|]. rewrite Hperm in Hn. apply NoDup_app in Hn as (_ & Hd & Hn).
    constructor; cbn; [done|done| |by apply Forall_delete].
    rewrite Hh', Hh, Hperm, list_to_set_app_L. unfold pages, block_pages in *. cbn in *. apply set_eq. intros a.
    rewrite elem_of_difference, elem_of_union, !elem_of_list_to_set. split; [tauto|]. intros Ha. split; [by right|].
    intros Ha'. by apply (Hd a).
Qed.

(** C34. From the state that [palloc_init] sets up, any sequence of allocations
    without [PAL_ASSERT] (of at least one page and less than [2^20]) and of frees
    of allocated blocks succeeds: no assertion fails and no access is bad.  The blocks in use do not share a page, and the pages that
    the pools mark as used are exactly theirs. *)
Theorem palloc_blocks_disjoint npages limit kblock ublock m os :
  machine npages limit kblock ublock m → Forall page_op_ok os →
  ∃ s s' live, palloc_init npages limit kblock ublock m = Ok s ∧ run_page_ops os (s, []) = Ok (s', live) ∧
    palloc_wf s' ∧ NoDup (live ≫= block_pages) ∧ palloc_held s' = list_to_set (live ≫= block_pages).
Proof.
  intros Hm Ho. destruct (palloc_init_ok _ _ _ _ _ Hm) as (s & E & Hs & Hh & _).
  assert (pages_inv (s, [])) as Hi by (constructor; cbn; [done|constructor|done|constructor]).
  assert (∀ st, pages_inv st → ∃ st', run_page_ops os st = Ok st' ∧ pages_inv st') as Hrun.
  { clear -Ho. induction Ho as [|o os Ho Hos IH]; intros st Hi; [by exists st|]. cbn.
    destruct (page_op_inv o st Hi Ho) as (st1 & -> & Hi1). apply (IH st1 Hi1). }
  destruct (Hrun _ Hi) as ([s' live] & Er & [Hw Hn Hl _]). by exists s, s', live.
Qed.

Definition example_ops : list page_op := [GetPages 0 2; GetPages PAL_USER 3; GetPages PAL_ZERO 1; FreePages 0; GetPages 0 2].

Lemma palloc_blocks_disjoint_witness :
  let m := zero_memory (PHYS_BASE + 2 ^ 20) 32768 in
  ∃ s s' live, palloc_init 264 1000 (replicate 300 0) (replicate 300 0) m = Ok s ∧
    run_page_ops example_ops (s, []) = Ok (s', live) ∧
    palloc_wf s' ∧ NoDup (live ≫= block_pages) ∧ palloc_held s' = list_to_set (live ≫= block_pages).
Proof.
  intros m. apply (palloc_blocks_disjoint 264 1000 (replicate 300 0) (replicate 300 0) m example_ops).
  - constructor; [lia|lia|..].
    + split; [by apply Forall_replicate|done].
    + split; [by apply Forall_replicate|done].
    + apply zero_memory_mapped.
  - repeat constructor; cbn; lia.
Defined.
