(* ===== verification/Malloc.v ===== *)
(** * The block allocator

    threads/malloc.c, over any page allocator: descriptors for the block sizes,
    arenas of one page cut into blocks, and big blocks of whole pages.  The
    header of an arena is a record found by the address of its page; a free
    list is the sequence of the addresses of its blocks.  A section under the
    lock of a descriptor is one step. *)

From S2P Require Import Prelude Vaddr Bitmap CString Palloc.

(** ** Definitions *)

Record desc := Desc { block_size : Z; blocks_per_arena : Z; free_list : list Z }.

Definition ARENA_MAGIC : Z := 0x9a548eed.

(** [adesc] is the index of the descriptor in [descs], [None] for the null
    pointer. *)
Record arena := Arena { magic : Z; adesc : option nat; free_cnt : Z }.

(** [sizeof (struct arena)]. *)
Definition sizeof_arena : Z := 12.

Definition set_free_list (l : list Z) (d : desc) : desc := Desc (block_size d) (blocks_per_arena d) l.
Definition set_free_cnt (n : Z) (a : arena) : arena := Arena (magic a) (adesc a) n.

(** The loop of [malloc_init], which fills [descs] from its length on. *)
Fixpoint malloc_init_loop (fuel : nat) (size : Z) (descs : list desc) : result (list desc) :=
  if decide (size < PGSIZE / 2) then
    match fuel with
    | O => Err OutOfFuel
    | S fuel =>
        let d := Desc size ((PGSIZE - sizeof_arena) / size) [] in
        if decide (length descs + 1 ≤ 10)%nat then malloc_init_loop fuel (u32 (size * 2)) (descs ++ [d]) else Err AssertFailed
    end
  else Ok descs.
Definition malloc_init : result (list desc) := malloc_init_loop 12 16 [].

Section malloc.
  Context {S : Type} {PA : PageAllocator S}.

Record heap := Heap { pa : S; descs : list desc; arenas : gmap Z arena }.

Definition set_pa (s : S) (h : heap) : heap := Heap s (descs h) (arenas h).
Definition set_descs (ds : list desc) (h : heap) : heap := Heap (pa h) ds (arenas h).
Definition set_arenas (m : gmap Z arena) (h : heap) : heap := Heap (pa h) (descs h) m.

Definition on_pa {A} (m : M S A) : M heap A := zoom pa set_pa m.
Definition on_mem {A} (m : M mem A) : M heap A := on_pa (zoom memory set_memory m).

(** The header at [a], and the descriptor [i]. *)
Definition rd_arena (a : Z) : M heap arena := λ h,
  match arenas h !! a with Some ar => Ok (ar, h) | None => Err BadAccess end.
Definition wr_arena (a : Z) (ar : arena) : M heap unit := modify (λ h, set_arenas (<[a := ar]> (arenas h)) h).
Definition rd_desc (i : nat) : M heap desc := λ h,
  match descs h !! i with Some d => Ok (d, h) | None => Err BadAccess end.
Definition wr_free_list (i : nat) (l : list Z) : M heap unit :=
  d ← rd_desc i; modify (λ h, set_descs (<[i := set_free_list l d]> (descs h)) h).

Definition block_to_arena (b : Z) : M heap Z :=
  let a := pg_round_down b in
  assert (bool_decide (a ≠ NULL));;
  ar ← rd_arena a;
  assert (bool_decide (magic ar = ARENA_MAGIC));;
  (match adesc ar with
   | None => mret tt
   | Some i => d ← rd_desc i; assert (bool_decide (u32 (pg_ofs b - sizeof_arena) mod block_size d = 0))
   end);;
  assert (bool_decide (adesc ar ≠ None ∨ pg_ofs b = sizeof_arena));;
  mret a.

Definition arena_to_block (a idx : Z) : M heap Z :=
  assert (bool_decide (a ≠ NULL));;
  ar ← rd_arena a;
  assert (bool_decide (magic ar = ARENA_MAGIC));;
  match adesc ar with
  | None => fail BadAccess
  | Some i =>
      d ← rd_desc i;
      assert (bool_decide (idx < blocks_per_arena d));;
      mret (u32 (a + sizeof_arena + idx * block_size d))
  end.

(** The first descriptor, from the [i]-th on, of blocks of at least [size]. *)
Fixpoint find_desc (size : Z) (i : nat) (ds : list desc) : option nat :=
  match ds with
  | [] => None
  | d :: ds => if decide (size ≤ block_size d) then Some i else find_desc size (i + 1)%nat ds
  end.

(** The [n] blocks of the new arena [a] from [idx] on join the free list. *)
Fixpoint add_blocks (i : nat) (a idx : Z) (n : nat) : M heap unit :=
  match n with
  | O => mret tt
  | Datatypes.S n =>
      b ← arena_to_block a idx; d ← rd_desc i; wr_free_list i (free_list d ++ [b]);; add_blocks i a (idx + 1) n
  end.

Definition malloc_big (size : Z) : M heap Z :=
  let page_cnt := DIV_ROUND_UP (u32 (size + sizeof_arena)) PGSIZE in
  a ← on_pa (pa_get 0 page_cnt);
  if decide (a = NULL) then mret NULL
  else wr_arena a (Arena ARENA_MAGIC None page_cnt);; mret (u32 (a + sizeof_arena)).

(** Whether there is a block in the free list, after creating an arena when
    it was empty. *)
Definition malloc_refill (i : nat) : M heap bool :=
  d ← rd_desc i;
  match free_list d with
  | [] =>
      a ← on_pa (pa_get 0 1);
      if decide (a = NULL) then mret false
      else
        wr_arena a (Arena ARENA_MAGIC (Some i) (blocks_per_arena d));;
        add_blocks i a 0 (Z.to_nat (blocks_per_arena d));; mret true
  | _ => mret true
  end.

Definition malloc_pop (i : nat) : M heap Z :=
  d ← rd_desc i;
  match free_list d with
  | [] => fail AssertFailed
  | b :: l =>
      wr_free_list i l;;
      a ← block_to_arena b;
      ar ← rd_arena a;
      wr_arena a (set_free_cnt (u32 (free_cnt ar - 1)) ar);; mret b
  end.

Definition malloc (size : Z) : M heap Z :=
  if decide (size = 0) then mret NULL
  else
    ds ← gets descs;
    match find_desc size 0 ds with
    | None => malloc_big size
    | Some i => ok ← malloc_refill i; if ok : bool then malloc_pop i else mret NULL
    end.

Definition calloc (a b : Z) : M heap Z :=
  let size := u32 (a * b) in
  if decide (size < a ∨ size < b) then mret NULL
  else
    p ← malloc size;
    (if decide (p ≠ NULL) then on_mem (memset p 0 size);; mret tt else mret tt);;
    mret p.

(** [block_size (block)], the function. *)
Definition size_of_block (block : Z) : M heap Z :=
  a ← block_to_arena block;
  ar ← rd_arena a;
  match adesc ar with
  | Some i => d ← rd_desc i; mret (block_size d)
  | None => mret (u32 (PGSIZE * free_cnt ar - pg_ofs block))
  end.

(** [list_remove] of the [n] blocks of the arena [a] from [idx] on. *)
Fixpoint remove_blocks (i : nat) (a idx : Z) (n : nat) : M heap unit :=
  match n with
  | O => mret tt
  | Datatypes.S n =>
      b ← arena_to_block a idx;
      d ← rd_desc i;
      if decide (b ∈ free_list d) then wr_free_list i (filter (.≠ b) (free_list d));; remove_blocks i a (idx + 1) n
      else fail BadAccess
  end.

Definition free_small (i : nat) (a b : Z) : M heap unit :=
  d ← rd_desc i;
  on_mem (memset b 0xcc (block_size d));;
  wr_free_list i (b :: free_list d);;
  ar ← rd_arena a;
  let cnt := u32 (free_cnt ar + 1) in
  wr_arena a (set_free_cnt cnt ar);;
  if decide (blocks_per_arena d ≤ cnt) then
    assert (bool_decide (cnt = blocks_per_arena d));;
    remove_blocks i a 0 (Z.to_nat (blocks_per_arena d));;
    on_pa (pa_free a 1);; modify (λ h, set_arenas (delete a (arenas h)) h)
  else mret tt.

Definition free (p : Z) : M heap unit :=
  if decide (p ≠ NULL) then
    a ← block_to_arena p;
    ar ← rd_arena a;
    match adesc ar with
    | Some i => free_small i a p
    | None => on_pa (pa_free a (free_cnt ar));; modify (λ h, set_arenas (delete a (arenas h)) h)
    end
  else mret tt.

Definition realloc (old_block new_size : Z) : M heap Z :=
  if decide (new_size = 0) then free old_block;; mret NULL
  else
    new_block ← malloc new_size;
    (if decide (old_block ≠ NULL ∧ new_block ≠ NULL) then
       old_size ← size_of_block old_block;
       let min_size := if decide (new_size < old_size) then new_size else old_size in
       on_mem (memcpy new_block old_block min_size);; free old_block
     else mret tt);;
    mret new_block.

End malloc.
Arguments heap : clear implicits.

(** ** Blocks *)

Definition desc_ok (d : desc) : Prop :=
  0 < block_size d ∧ block_size d ≤ 1024 ∧ blocks_per_arena d = (PGSIZE - sizeof_arena) / block_size d.

Lemma desc_room d : desc_ok d → 3 ≤ blocks_per_arena d ∧ sizeof_arena + blocks_per_arena d * block_size d ≤ PGSIZE.
Proof.
  intros (H1 & H2 & ->). unfold sizeof_arena. rewrite PGSIZE_eq. split.
  - apply Z.div_le_lower_bound; lia.
  - pose proof (Z.mul_div_le (4096 - 12) (block_size d)). lia.
Qed.

Lemma malloc_init_ok : ∃ ds, malloc_init = Ok ds ∧ Forall desc_ok ds ∧ Forall (λ d, free_list d = []) ds ∧ length ds = 7%nat.
Proof. eexists. split; [vm_compute; reflexivity|]. split_and!; [|by repeat constructor|done]. by repeat constructor. Qed.

(** A page. *)
Definition is_page (a : Z) : Prop := PHYS_BASE ≤ a ∧ a + PGSIZE ≤ 2 ^ 32 ∧ a mod PGSIZE = 0.

(** The block [k] of the arena [a]. *)
Definition small_block (d : desc) (a k : Z) : Z := a + sizeof_arena + k * block_size d.

Lemma offset_in_page a o : is_page a → 0 ≤ o → o < PGSIZE → pg_round_down (a + o) = a ∧ pg_ofs (a + o) = o.
Proof.
  intros (H1 & H2 & H3) H4 H5. unfold PHYS_BASE in H1. rewrite PGSIZE_eq in *.
  rewrite pg_round_down_eq by (unfold in_u; lia). rewrite pg_ofs_eq, PGSIZE_eq. dlia.
Qed.

Section small.
  Context (d : desc) (Hd : desc_ok d).

Lemma small_block_range k :
  0 ≤ k → k < blocks_per_arena d → 0 ≤ sizeof_arena + k * block_size d ∧ sizeof_arena + k * block_size d + block_size d ≤ PGSIZE.
Proof.
  intros. destruct (desc_room d Hd) as [? ?], Hd as (? & ? & _). unfold sizeof_arena in *. rewrite PGSIZE_eq in *. nia.
Qed.

Lemma small_block_page a k :
  is_page a → 0 ≤ k → k < blocks_per_arena d →
  pg_round_down (small_block d a k) = a ∧ pg_ofs (small_block d a k) = sizeof_arena + k * block_size d.
Proof.
  intros Ha H1 H2. pose proof (small_block_range k H1 H2). destruct Hd as (? & _). unfold small_block. rewrite <-Z.add_assoc.
  apply offset_in_page; [done|lia..].
Qed.

Lemma small_block_inj a a' k k' :
  is_page a → is_page a' → 0 ≤ k → k < blocks_per_arena d → 0 ≤ k' → k' < blocks_per_arena d →
  small_block d a k = small_block d a' k' → a = a' ∧ k = k'.
Proof.
  intros Ha Ha' ???? E. destruct (small_block_page a k) as [E1 E2]; [done..|].
  destruct (small_block_page a' k') as [E1' E2']; [done..|]. rewrite E in E1, E2. split; [congruence|].
  rewrite E2 in E2'. destruct Hd as (? & _). nia.
Qed.

Lemma small_block_bounds a k :
  is_page a → 0 ≤ k → k < blocks_per_arena d → a < small_block d a k ∧ small_block d a k + block_size d ≤ a + PGSIZE.
Proof.
  intros _ H1 H2. pose proof (small_block_range k H1 H2). destruct Hd as (? & _). unfold small_block, sizeof_arena in *. nia.
Qed.

End small.

(** The blocks of an arena, in order. *)
Definition arena_blocks (d : desc) (a : Z) : list Z := small_block d a <$> seqZ 0 (blocks_per_arena d).

Lemma elem_of_arena_blocks d a b :
  b ∈ arena_blocks d a ↔ ∃ k, 0 ≤ k ∧ k < blocks_per_arena d ∧ b = small_block d a k.
Proof.
  unfold arena_blocks. rewrite list_elem_of_fmap. split.
  - intros (k & -> & Hk%elem_of_seqZ). exists k. split_and!; [lia..|done].
  - intros (k & ? & ? & ->). exists k. split; [done|]. apply elem_of_seqZ. lia.
Qed.

Lemma arena_blocks_length d a : length (arena_blocks d a) = Z.to_nat (blocks_per_arena d).
Proof. unfold arena_blocks. by rewrite length_fmap, length_seqZ. Qed.

Lemma arena_blocks_nodup d a : desc_ok d → NoDup (arena_blocks d a).
Proof.
  intros (H & _). apply NoDup_fmap_2; [|apply NoDup_seqZ]. intros k k'. unfold small_block. nia.
Qed.

(** ** The invariant *)

Section inv.
  Context {S : Type} {PA : PageAllocator S} {PL : PageAllocatorLaws S}.
  Implicit Types (h : heap S) (live other : gset Z).

(** The number of pages of an arena. *)
Definition npages (ar : arena) : nat := match adesc ar with Some _ => 1%nat | None => Z.to_nat (free_cnt ar) end.

(** [b] is a block of [sz] bytes of the arena [a], in use or free. *)
Definition block_at h (a b sz : Z) : Prop :=
  ∃ ar, arenas h !! a = Some ar ∧
    match adesc ar with
    | Some i => ∃ d, descs h !! i = Some d ∧ b ∈ arena_blocks d a ∧ sz = block_size d
    | None => b = a + sizeof_arena ∧ sz = PGSIZE * free_cnt ar - sizeof_arena
    end.

(** [live] are the blocks handed out; [other] are the pages that other code
    got from the page allocator. *)
Record heap_inv other h live : Prop := {
  hi_pa : pa_wf (pa h);
  hi_descs : Forall desc_ok (descs h);
  hi_arena a ar :
    arenas h !! a = Some ar → magic ar = ARENA_MAGIC ∧ 0 ≤ free_cnt ar ∧
      match adesc ar with Some i => is_Some (descs h !! i) | None => 0 < free_cnt ar end;
  hi_held p : p ∈ held (pa h) ↔ p ∈ other ∨ ∃ a ar, arenas h !! a = Some ar ∧ p ∈ pages a (npages ar);
  hi_other a ar : arenas h !! a = Some ar → pages a (npages ar) ## other;
  hi_disj a a' ar ar' :
    arenas h !! a = Some ar → arenas h !! a' = Some ar' → a ≠ a' → pages a (npages ar) ## pages a' (npages ar');
  hi_nodup i d : descs h !! i = Some d → NoDup (free_list d);
  hi_free i d b :
    descs h !! i = Some d → b ∈ free_list d →
    ∃ a ar, arenas h !! a = Some ar ∧ adesc ar = Some i ∧ b ∈ arena_blocks d a;
  hi_count a ar i d :
    arenas h !! a = Some ar → adesc ar = Some i → descs h !! i = Some d →
    free_cnt ar = Z.of_nat (length (filter (.∈ arena_blocks d a) (free_list d)));
  hi_live b : b ∈ live ↔ ∃ a sz, block_at h a b sz ∧ ∀ i d, descs h !! i = Some d → b ∉ free_list d
}.

Lemma npages_pos other h live a ar : heap_inv other h live → arenas h !! a = Some ar → (0 < npages ar)%nat.
Proof. intros Hi E. apply (hi_arena _ _ _ Hi) in E as (_ & _ & E). unfold npages. destruct (adesc ar); lia. Qed.

Lemma arena_held other h live a ar p :
  heap_inv other h live → arenas h !! a = Some ar → p ∈ pages a (npages ar) → p ∈ held (pa h).
Proof. intros Hi E Hp. apply (hi_held _ _ _ Hi). right. eauto. Qed.

Lemma first_page a n : (0 < n)%nat → a ∈ pages a n.
Proof. intros. apply elem_of_pages. exists 0%nat. split; [done|lia]. Qed.

Lemma arena_page other h live a ar : heap_inv other h live → arenas h !! a = Some ar → is_page a.
Proof.
  intros Hi E. destruct (pa_held_page (pa h) a (hi_pa _ _ _ Hi)) as (? & ? & ? & _); [|done].
  eapply arena_held; [done..|]. apply first_page. by eapply npages_pos.
Qed.

Lemma desc_at other h live i d : heap_inv other h live → descs h !! i = Some d → desc_ok d.
Proof. intros Hi E. by eapply Forall_lookup_1; [apply (hi_descs _ _ _ Hi)|]. Qed.

(** The bytes of an arena are mapped. *)
Lemma arena_mapped other h live a ar :
  heap_inv other h live → arenas h !! a = Some ar → mapped (memory (pa h)) a (PGSIZE * Z.of_nat (npages ar)).
Proof.
  intros Hi E y Hy. set (k := Z.to_nat ((y - a) / 4096)). rewrite PGSIZE_eq in *.
  assert (a + PGSIZE * Z.of_nat k ∈ held (pa h)) as Hk.
  { eapply arena_held; [done..|]. apply elem_of_pages. exists k. split; [unfold k; dlia|done]. }
  apply (pa_held_page _ _ (hi_pa _ _ _ Hi)) in Hk as (_ & _ & _ & Hm). apply Hm. rewrite PGSIZE_eq. unfold k. dlia.
Qed.

Lemma block_in_arena other h live a b sz :
  heap_inv other h live → block_at h a b sz →
  ∃ ar, arenas h !! a = Some ar ∧ pg_round_down b = a ∧ a < b ∧ 0 < sz ∧ b + sz ≤ a + PGSIZE * Z.of_nat (npages ar).
Proof.
  intros Hi (ar & Ea & Hb). exists ar. split; [done|]. pose proof (arena_page _ _ _ _ _ Hi Ea) as Hp. unfold npages.
  destruct (adesc ar) as [i|] eqn:Ei.
  - destruct Hb as (d & Ed & (k & ? & ? & ->)%elem_of_arena_blocks & ->). pose proof (desc_at _ _ _ _ _ Hi Ed) as Hd.
    destruct (small_block_page d Hd a k) as [? _]; [done..|]. destruct (small_block_bounds d Hd a k) as [? ?]; [done..|].
    destruct Hd as (? & _). rewrite Z.mul_1_r. done.
  - destruct Hb as [-> ->]. apply (hi_arena _ _ _ Hi) in Ea as (_ & _ & Ha). rewrite Ei in Ha.
    unfold sizeof_arena in *. destruct (offset_in_page a 12 Hp) as [? _]; [lia|rewrite PGSIZE_eq; lia|]. rewrite PGSIZE_eq.
    split_and!; [done|lia..].
Qed.

(** A block is in one arena, with one size. *)
Lemma block_at_fun other h live a a' b sz sz' :
  heap_inv other h live → block_at h a b sz → block_at h a' b sz' → a = a' ∧ sz = sz'.
Proof.
  intros Hi H1 H2. destruct (block_in_arena _ _ _ _ _ _ Hi H1) as (ar & Ea & Er & _).
  destruct (block_in_arena _ _ _ _ _ _ Hi H2) as (ar' & Ea' & Er' & _). assert (a = a') as <- by congruence.
  split; [done|]. destruct H1 as (x & Ex & Hx), H2 as (x' & Ex' & Hx'). assert (x = x') as <- by congruence.
  destruct (adesc x); destruct_and?; [|congruence]. destruct Hx as (? & ? & ? & ->), Hx' as (? & ? & ? & ->). congruence.
Qed.

(** ** Running the operations *)

Lemma rd_arena_ok h a ar : arenas h !! a = Some ar → rd_arena a h = Ok (ar, h).
Proof. unfold rd_arena. by intros ->. Qed.
Lemma rd_desc_ok h i d : descs h !! i = Some d → rd_desc i h = Ok (d, h).
Proof. unfold rd_desc. by intros ->. Qed.
Lemma wr_free_list_ok h i d l :
  descs h !! i = Some d → wr_free_list i l h = Ok (tt, set_descs (<[i := set_free_list l d]> (descs h)) h).
Proof. intros E. unfold wr_free_list. by rewrite (bind_ok _ _ _ _ _ (rd_desc_ok _ _ _ E)). Qed.

Lemma page_not_null a : is_page a → a ≠ NULL.
Proof. intros (Ha & _). unfold PHYS_BASE, NULL in *. lia. Qed.

Lemma arena_to_block_ok h a ar i d k :
  arenas h !! a = Some ar → magic ar = ARENA_MAGIC → adesc ar = Some i → descs h !! i = Some d →
  desc_ok d → is_page a → 0 ≤ k → k < blocks_per_arena d →
  arena_to_block a k h = Ok (small_block d a k, h).
Proof.
  intros Ea Em Ei Ed Hd Ha H1 H2. unfold arena_to_block. rewrite bool_decide_eq_true_2 by by apply page_not_null.
  rewrite (bind_ok _ _ _ _ h eq_refl), (bind_ok _ _ _ _ _ (rd_arena_ok _ _ _ Ea)).
  rewrite bool_decide_eq_true_2 by done. rewrite (bind_ok _ _ _ _ h eq_refl), Ei.
  rewrite (bind_ok _ _ _ _ _ (rd_desc_ok _ _ _ Ed)). rewrite bool_decide_eq_true_2 by done.
  rewrite (bind_ok _ _ _ _ h eq_refl). destruct (small_block_bounds d Hd a k Ha H1 H2) as [? ?].
  destruct Ha as (Ha & ? & _), Hd as (? & _). unfold PHYS_BASE in Ha.
  unfold mret, M_ret. do 2 f_equal. apply wrapu_small. fold (small_block d a k). unfold in_u. lia.
Qed.

Lemma block_to_arena_ok other h live a b sz :
  heap_inv other h live → block_at h a b sz → block_to_arena b h = Ok (a, h).
Proof.
  intros Hi Hb. destruct (block_in_arena _ _ _ _ _ _ Hi Hb) as (ar & Ea & Er & _).
  pose proof (arena_page _ _ _ _ _ Hi Ea) as Ha. pose proof (hi_arena _ _ _ Hi _ _ Ea) as (Em & _ & _).
  destruct Hb as (ar' & Ea' & Hb). assert (ar' = ar) as -> by congruence. clear Ea'. unfold block_to_arena. rewrite Er.
  rewrite (bool_decide_eq_true_2 (a ≠ NULL)) by by apply page_not_null.
  rewrite (bind_ok _ _ _ _ h eq_refl), (bind_ok _ _ _ _ _ (rd_arena_ok _ _ _ Ea)).
  rewrite (bool_decide_eq_true_2 (magic ar = _)) by done. rewrite (bind_ok _ _ _ _ h eq_refl).
  destruct (adesc ar) as [i|] eqn:Ei.
  - destruct Hb as (d & Ed & (k & ? & ? & ->)%elem_of_arena_blocks & ->). pose proof (desc_at _ _ _ _ _ Hi Ed) as Hd.
    destruct (small_block_page d Hd a k) as [_ Eo]; [done..|]. pose proof (small_block_range d Hd k ltac:(lia) ltac:(lia)).
    destruct Hd as (? & _). unfold sizeof_arena in *. rewrite PGSIZE_eq in *.
    rewrite (bind_ok _ _ _ tt h); [by rewrite bool_decide_eq_true_2 by (left; discriminate)|].
    rewrite (bind_ok _ _ _ _ _ (rd_desc_ok _ _ _ Ed)), Eo.
    rewrite wrapu_small by (unfold in_u; nia). replace (12 + k * block_size d - 12) with (k * block_size d) by lia.
    rewrite Z.mod_mul by lia. by rewrite bool_decide_eq_true_2.
  - destruct Hb as [-> _]. rewrite (bind_ok _ _ _ _ h eq_refl). rewrite bool_decide_eq_true_2; [done|]. right.
    by apply offset_in_page.
Qed.

Lemma insert_twice {A} (l : list A) i x y : <[i := x]> (<[i := y]> l) = <[i := x]> l.
Proof. apply list_insert_insert_eq. Qed.

Lemma add_blocks_ok n h a ar i d k :
  arenas h !! a = Some ar → magic ar = ARENA_MAGIC → adesc ar = Some i → descs h !! i = Some d →
  desc_ok d → is_page a → 0 ≤ k → k + Z.of_nat n ≤ blocks_per_arena d →
  add_blocks i a k n h =
    Ok (tt, set_descs (<[i := set_free_list (free_list d ++ (small_block d a <$> seqZ k (Z.of_nat n))) d]> (descs h)) h).
Proof.
  revert h d k. induction n as [|n IH]; intros h d k Ea Em Ei Ed Hd Ha H1 H2; cbn [add_blocks].
  { cbn. rewrite app_nil_r. destruct d. cbn. unfold set_descs, set_free_list. cbn. rewrite list_insert_id by done. by destruct h. }
  rewrite (bind_ok _ _ _ _ _ (arena_to_block_ok h a ar i d k Ea Em Ei Ed Hd Ha H1 ltac:(lia))).
  rewrite (bind_ok _ _ _ _ _ (rd_desc_ok _ _ _ Ed)), (bind_ok _ _ _ _ _ (wr_free_list_ok _ _ _ _ Ed)).
  set (d1 := set_free_list _ d). rewrite (IH _ d1 (k + 1)); cbn [arenas descs set_descs]; try done; [| |cbn; lia..].
  - assert (set_free_list (free_list d1 ++ (small_block d1 a <$> seqZ (k + 1) (Z.of_nat n))) d1 =
      set_free_list (free_list d ++ (small_block d a <$> seqZ k (Z.of_nat (Datatypes.S n)))) d) as ->.
    { unfold d1, set_free_list. cbn [free_list block_size blocks_per_arena]. f_equal. rewrite <-app_assoc. f_equal.
      rewrite (seqZ_cons k) by lia. replace (Z.pred (Z.of_nat (Datatypes.S n))) with (Z.of_nat n) by lia. done. }
    unfold set_descs. cbn. by rewrite insert_twice.
  - apply list_lookup_insert_eq. by eapply lookup_lt_Some.
Qed.

Lemma remove_blocks_ok n h a ar i d k :
  arenas h !! a = Some ar → magic ar = ARENA_MAGIC → adesc ar = Some i → descs h !! i = Some d →
  desc_ok d → is_page a → 0 ≤ k → k + Z.of_nat n ≤ blocks_per_arena d →
  (small_block d a <$> seqZ k (Z.of_nat n)) ⊆ free_list d →
  remove_blocks i a k n h =
    Ok (tt, set_descs (<[i := set_free_list
      (filter (λ b, b ∉ (small_block d a <$> seqZ k (Z.of_nat n))) (free_list d)) d]> (descs h)) h).
Proof.
  revert h d k. induction n as [|n IH]; intros h d k Ea Em Ei Ed Hd Ha H1 H2 Hs; cbn [remove_blocks].
  { cbn. rewrite filter_all by set_solver. destruct d. unfold set_descs, set_free_list. cbn. rewrite list_insert_id by done. by destruct h. }
  rewrite (bind_ok _ _ _ _ _ (arena_to_block_ok h a ar i d k Ea Em Ei Ed Hd Ha H1 ltac:(lia))).
  rewrite (bind_ok _ _ _ _ _ (rd_desc_ok _ _ _ Ed)).
  assert (seqZ k (Z.of_nat (Datatypes.S n)) = k :: seqZ (k + 1) (Z.of_nat n)) as Esq.
  { rewrite (seqZ_cons k) by lia. by replace (Z.pred (Z.of_nat (Datatypes.S n))) with (Z.of_nat n) by lia. }
  rewrite Esq in *. rewrite fmap_cons in *. rewrite decide_True by (apply Hs; left).
  rewrite (bind_ok _ _ _ _ _ (wr_free_list_ok _ _ _ _ Ed)). set (d1 := set_free_list _ d).
  rewrite (IH _ d1 (k + 1)); cbn [arenas descs set_descs]; try done; [| |cbn; lia..|].
  - assert (filter (λ b, b ∉ small_block d1 a <$> seqZ (k + 1) (Z.of_nat n)) (free_list d1) =
      filter (λ b, b ∉ small_block d a k :: (small_block d a <$> seqZ (k + 1) (Z.of_nat n))) (free_list d)) as ->.
    { unfold d1. cbn [free_list set_free_list]. rewrite list_filter_filter. apply filter_ext_in. intros b _.
      change (small_block (set_free_list _ d) a) with (small_block d a). rewrite not_elem_of_cons. tauto. }
    unfold set_descs. cbn. by rewrite insert_twice.
  - apply list_lookup_insert_eq. by eapply lookup_lt_Some.
  - intros b Hb. change (small_block d1 a) with (small_block d a) in Hb. apply list_elem_of_filter. split; [|apply Hs; by right].
    apply list_elem_of_fmap in Hb as (j & -> & Hj%elem_of_seqZ). unfold small_block. destruct Hd as (? & _). nia.
Qed.

(** ** Steps that keep the invariant *)

Lemma inv_mem other h live m :
  heap_inv other h live → dom m = dom (memory (pa h)) →
  heap_inv other (set_pa (set_memory m (pa h)) h) live ∧ memory (pa (set_pa (set_memory m (pa h)) h)) = m.
Proof.
  intros Hi Hd. destruct (pa_set_memory (pa h) m (hi_pa _ _ _ Hi) Hd) as (Hw & Hh & Hm). split; [|done].
  destruct Hi. constructor; cbn; try done. by rewrite Hh.
Qed.

(** The descriptors after the free list of one has changed. *)
Lemma descs_insert h i d l j d' :
  descs h !! i = Some d →
  <[i := set_free_list l d]> (descs h) !! j = Some d' ↔
    (j = i ∧ d' = set_free_list l d) ∨ (j ≠ i ∧ descs h !! j = Some d').
Proof.
  intros Ed. pose proof (lookup_lt_Some _ _ _ Ed) as Hl. destruct (decide (j = i)) as [->|Hne].
  - rewrite list_lookup_insert_eq by done. naive_solver.
  - rewrite list_lookup_insert_ne by done. naive_solver.
Qed.

Lemma descs_ok_insert h i d l :
  descs h !! i = Some d → Forall desc_ok (descs h) → Forall desc_ok (<[i := set_free_list l d]> (descs h)).
Proof. intros Ed Hf. apply Forall_insert; [done|]. by apply (Forall_lookup_1 _ _ _ _ Hf Ed). Qed.

(** The free block that [malloc] takes. *)
Lemma free_block other h live i d b :
  heap_inv other h live → descs h !! i = Some d → b ∈ free_list d →
  ∃ a ar, arenas h !! a = Some ar ∧ adesc ar = Some i ∧ b ∈ arena_blocks d a ∧ block_at h a b (block_size d).
Proof.
  intros Hi Ed Hb. destruct (hi_free _ _ _ Hi i d b Ed Hb) as (a & ar & Ea & Ei & Hab). exists a, ar.
  split_and!; [done..|]. exists ar. rewrite Ei. eauto.
Qed.

(** A block of one arena is not a block of another one. *)
Lemma arena_of_block other h live a a' ar ar' i i' d d' b :
  heap_inv other h live → arenas h !! a = Some ar → arenas h !! a' = Some ar' →
  adesc ar = Some i → adesc ar' = Some i' → descs h !! i = Some d → descs h !! i' = Some d' →
  b ∈ arena_blocks d a → b ∈ arena_blocks d' a' → a = a'.
Proof.
  intros Hi Ea Ea' Ei Ei' Ed Ed' Hb Hb'.
  assert (block_at h a b (block_size d)) as H1 by (exists ar; rewrite Ei; eauto).
  assert (block_at h a' b (block_size d')) as H2 by (exists ar'; rewrite Ei'; eauto).
  by apply (block_at_fun _ _ _ _ _ _ _ _ Hi H1 H2).
Qed.

(** Two heaps that differ in free lists and counts of free blocks only. *)
Definition shape (ar : arena) : Z * option nat * Z :=
  (magic ar, adesc ar, match adesc ar with Some _ => 0 | None => free_cnt ar end).
Definition dshape (d : desc) : Z * Z := (block_size d, blocks_per_arena d).
Definition same_shape (h h' : heap S) : Prop :=
  (∀ a, shape <$> arenas h !! a = shape <$> arenas h' !! a) ∧ (∀ i, dshape <$> descs h !! i = dshape <$> descs h' !! i).

Lemma same_shape_sym h h' : same_shape h h' → same_shape h' h.
Proof. intros [H1 H2]. split; intros; symmetry; auto. Qed.

Lemma shape_npages ar ar' : shape ar = shape ar' → npages ar = npages ar' ∧ adesc ar = adesc ar' ∧ magic ar = magic ar'.
Proof. unfold shape, npages. intros [= -> E Ef]. rewrite E in *. split_and!; [|done..]. by destruct (adesc ar'); rewrite ?Ef. Qed.

Lemma same_shape_arena h h' a ar :
  same_shape h h' → arenas h !! a = Some ar → ∃ ar', arenas h' !! a = Some ar' ∧ shape ar = shape ar'.
Proof.
  intros [Hs _] E. specialize (Hs a). rewrite E in Hs. destruct (arenas h' !! a) as [ar'|]; [|done]. apply (inj Some) in Hs.
  exists ar'. split; [done|]. congruence.
Qed.
Lemma same_shape_desc h h' i d :
  same_shape h h' → descs h !! i = Some d → ∃ d', descs h' !! i = Some d' ∧ dshape d = dshape d'.
Proof.
  intros [_ Hs] E. specialize (Hs i). rewrite E in Hs. destruct (descs h' !! i) as [d'|]; [|done]. apply (inj Some) in Hs.
  exists d'. split; [done|]. congruence.
Qed.

Lemma dshape_blocks d d' a : dshape d = dshape d' → arena_blocks d a = arena_blocks d' a.
Proof. unfold dshape, arena_blocks, small_block. by intros [= -> ->]. Qed.

Lemma same_shape_block h h' a b sz : same_shape h h' → block_at h a b sz → block_at h' a b sz.
Proof.
  intros Hs (ar & Ea & Hb). destruct (same_shape_arena _ _ _ _ Hs Ea) as (ar' & Ea' & Es). exists ar'. split; [done|].
  pose proof (shape_npages _ _ Es) as (_ & Ei & _). rewrite <-Ei. unfold shape in Es. rewrite <-Ei in Es.
  destruct (adesc ar) as [i|]; [|by injection Es as _ <-].
  destruct Hb as (d & Ed & Hb & ->). destruct (same_shape_desc _ _ _ _ Hs Ed) as (d' & Ed' & Eds). exists d'.
  split; [done|]. rewrite <-(dshape_blocks _ _ _ Eds). by injection Eds as ? _.
Qed.

(** The invariant of a heap of the same shape, but for free lists, counts and
    live blocks. *)
Lemma inv_shape other h h' live live' :
  heap_inv other h live → same_shape h h' → pa h' = pa h →
  (∀ a ar, arenas h' !! a = Some ar → 0 ≤ free_cnt ar) →
  (∀ i d, descs h' !! i = Some d → NoDup (free_list d)) →
  (∀ i d b, descs h' !! i = Some d → b ∈ free_list d →
    ∃ a ar, arenas h' !! a = Some ar ∧ adesc ar = Some i ∧ b ∈ arena_blocks d a) →
  (∀ a ar i d, arenas h' !! a = Some ar → adesc ar = Some i → descs h' !! i = Some d →
    free_cnt ar = Z.of_nat (length (filter (.∈ arena_blocks d a) (free_list d)))) →
  (∀ b, b ∈ live' ↔ ∃ a sz, block_at h a b sz ∧ ∀ i d, descs h' !! i = Some d → b ∉ free_list d) →
  heap_inv other h' live'.
Proof.
  intros Hi Hs Hpa H0 Hnd Hfree Hcnt Hlive. pose proof (same_shape_sym _ _ Hs) as Hs'. constructor; try done.
  - rewrite Hpa. apply Hi.
  - apply Forall_lookup_2. intros i d' (d & Ed & Es)%(same_shape_desc _ _ _ _ Hs').
    apply (desc_at _ _ _ _ _ Hi) in Ed. unfold desc_ok in *. injection Es as -> ->. done.
  - intros a ar' E'. destruct (same_shape_arena _ _ _ _ Hs' E') as (ar & E & Es). pose proof (H0 _ _ E') as H0'.
    apply (hi_arena _ _ _ Hi) in E as (Em & _ & Ed). pose proof (shape_npages _ _ Es) as (_ & Ei & Em'). rewrite Em', Ei.
    split_and!; [done..|]. unfold shape in Es. rewrite Ei in Es. destruct (adesc ar) as [i|].
    + destruct Ed as [d Ed]. apply (same_shape_desc _ _ _ _ Hs) in Ed as (d' & -> & _). eauto.
    + by injection Es as _ ->.
  - intros p. rewrite Hpa, (hi_held _ _ _ Hi). f_equiv. split; intros (a & ar & E & Hp).
    + destruct (same_shape_arena _ _ _ _ Hs E) as (ar' & E' & (En & _)%shape_npages). exists a, ar'. by rewrite <-En.
    + destruct (same_shape_arena _ _ _ _ Hs' E) as (ar' & E' & (En & _)%shape_npages). exists a, ar'. by rewrite <-En.
  - intros a ar E. destruct (same_shape_arena _ _ _ _ Hs' E) as (ar' & E' & (-> & _)%shape_npages). by eapply hi_other.
  - intros a a' ar ar' E E' Hne. destruct (same_shape_arena _ _ _ _ Hs' E) as (x & Ex & (-> & _)%shape_npages).
    destruct (same_shape_arena _ _ _ _ Hs' E') as (x' & Ex' & (-> & _)%shape_npages). by eapply hi_disj.
  - intros b. rewrite Hlive. split; intros (a & sz & Hb & Hf); exists a, sz; (split; [|done]).
    + by apply (same_shape_block h).
    + by apply (same_shape_block h').
Qed.

(** The heap after the free list of [i] and the count of the arena [a] have
    changed. *)
Definition update h (i : nat) (d : desc) (l : list Z) (a : Z) (ar : arena) (n : Z) : heap S :=
  Heap (pa h) (<[i := set_free_list l d]> (descs h)) (<[a := set_free_cnt n ar]> (arenas h)).

Section update.
  Context other h live (i : nat) (d : desc) (a : Z) (ar : arena) (Hi : heap_inv other h live).
  Context (Ed : descs h !! i = Some d) (Ea : arenas h !! a = Some ar) (Ei : adesc ar = Some i).

Lemma update_shape l n : same_shape h (update h i d l a ar n).
Proof.
  split; cbn.
  - intros a'. destruct (decide (a' = a)) as [->|]; [|by rewrite lookup_insert_ne].
    rewrite lookup_insert_eq, Ea. unfold shape. cbn. by rewrite Ei.
  - intros j. destruct (decide (j = i)) as [->|]; [|by rewrite list_lookup_insert_ne].
    rewrite list_lookup_insert_eq by (by eapply lookup_lt_Some). by rewrite Ed.
Qed.

Lemma update_arena l n a' ar' :
  arenas (update h i d l a ar n) !! a' = Some ar' ↔
    (a' = a ∧ ar' = set_free_cnt n ar) ∨ (a' ≠ a ∧ arenas h !! a' = Some ar').
Proof.
  cbn. destruct (decide (a' = a)) as [->|]; [rewrite lookup_insert_eq|rewrite lookup_insert_ne by done]; naive_solver.
Qed.

Lemma update_inv live' l n :
  n = Z.of_nat (length (filter (.∈ arena_blocks d a) l)) → NoDup l →
  (∀ b, b ∈ l → b ∈ free_list d ∨ b ∈ arena_blocks d a) →
  (∀ a' ar', arenas h !! a' = Some ar' → adesc ar' = Some i → a' ≠ a →
    length (filter (.∈ arena_blocks d a') l) = length (filter (.∈ arena_blocks d a') (free_list d))) →
  (∀ b, b ∈ live' ↔ ∃ a' sz, block_at h a' b sz ∧ b ∉ l ∧ ∀ j d', j ≠ i → descs h !! j = Some d' → b ∉ free_list d') →
  heap_inv other (update h i d l a ar n) live'.
Proof.
  intros Hn Hl Hf Ho Hlive. apply (inv_shape other h _ live); [done|apply update_shape|done|..].
  - intros a' ar' [[-> ->]|[_ E]]%update_arena; [cbn; lia|]. by apply (hi_arena _ _ _ Hi) in E as (_ & ? & _).
  - intros j d' [[-> ->]|[_ E]]%descs_insert; [done| |done]. by eapply hi_nodup.
  - intros j d' b E Hb. apply descs_insert in E as [[-> ->]|[Hne E]]; [| |done].
    + assert (∃ a1 ar1, arenas h !! a1 = Some ar1 ∧ adesc ar1 = Some i ∧ b ∈ arena_blocks d a1) as (a1 & ar1 & E1 & E2 & Hb1).
      { destruct (Hf b Hb) as [Hb'|Hb']; [by apply (hi_free _ _ _ Hi i d b Ed)|eauto]. }
      destruct (decide (a1 = a)) as [->|]; [exists a, (set_free_cnt n ar)|exists a1, ar1]; rewrite update_arena; naive_solver.
    + destruct (hi_free _ _ _ Hi j d' b E Hb) as (a1 & ar1 & E1 & E2 & Hb1).
      destruct (decide (a1 = a)) as [->|]; [exists a, (set_free_cnt n ar)|exists a1, ar1]; rewrite update_arena; naive_solver.
  - intros a' ar' j d' E1 E2 E3. apply update_arena in E1 as [[-> ->]|[Hne E1]]; cbn in E2.
    + assert (j = i) as -> by congruence. by apply descs_insert in E3 as [[_ ->]|[? _]].
    + apply descs_insert in E3 as [[-> ->]|[Hne' E3]]; [| |done].
      * rewrite (hi_count _ _ _ Hi a' ar' i d E1 E2 Ed). cbn. f_equal. symmetry. by apply (Ho a' ar').
      * by apply (hi_count _ _ _ Hi a' ar' j d').
  - intros b. rewrite Hlive. split; intros (a' & sz & Hb & Hx); exists a', sz; (split; [done|]).
    + destruct Hx as [Hx1 Hx2]. intros j d' [[-> ->]|[Hne E]]%descs_insert; [done|by eapply Hx2|done].
    + split; [apply (Hx i (set_free_list l d)), descs_insert; naive_solver|].
      intros j d' Hne E. apply (Hx j d'), descs_insert; naive_solver.
Qed.

(** A block of the arena is in no other free list. *)
Lemma block_other_list b j d' : b ∈ arena_blocks d a → j ≠ i → descs h !! j = Some d' → b ∉ free_list d'.
Proof.
  intros Hb Hne Ed' Hb'. destruct (hi_free _ _ _ Hi j d' b Ed' Hb') as (a' & ar' & Ea' & Ei' & Hab).
  assert (a = a') as <- by (by eapply (arena_of_block _ _ _ a a' ar ar' i j d d')). congruence.
Qed.

Lemma block_other_arena b a' ar' :
  b ∈ arena_blocks d a → arenas h !! a' = Some ar' → adesc ar' = Some i → a' ≠ a → b ∉ arena_blocks d a'.
Proof. intros Hb Ea' Ei' Hne Hb'. apply Hne. symmetry. by eapply (arena_of_block _ _ _ a a' ar ar' i i d d). Qed.

Lemma inv_pop b l :
  free_list d = b :: l → b ∈ arena_blocks d a →
  heap_inv other (update h i d l a ar (free_cnt ar - 1)) ({[b]} ∪ live) ∧ b ∉ live ∧ 0 < free_cnt ar.
Proof.
  intros El Hb. pose proof (hi_nodup _ _ _ Hi i d Ed) as Hnd. rewrite El in Hnd. apply NoDup_cons in Hnd as [Hbl Hnd].
  pose proof (hi_count _ _ _ Hi a ar i d Ea Ei Ed) as Hc. rewrite El, filter_cons_True in Hc by done. cbn [length] in Hc.
  assert (block_at h a b (block_size d)) as Hba by (exists ar; rewrite Ei; eauto).
  split_and!; [|rewrite (hi_live _ _ _ Hi); intros (? & ? & _ & Hx); apply (Hx i d Ed); rewrite El; left|lia].
  apply update_inv; [lia|done|..].
  - intros b' Hb'. left. rewrite El. by right.
  - intros a' ar' Ea' Ei' Hne. rewrite El, filter_cons_False; [done|]. by eapply block_other_arena.
  - intros b'. rewrite elem_of_union, elem_of_singleton, (hi_live _ _ _ Hi). split.
    + intros [->|(a' & sz & Hb' & Hx)].
      * exists a, (block_size d). split_and!; [done..|]. intros j d' Hne Ed'. by apply (block_other_list b j d').
      * exists a', sz. split_and!; [done| |by eauto]. pose proof (Hx i d Ed) as Hx'. rewrite El in Hx'. set_solver.
    + intros (a' & sz & Hb' & Hx1 & Hx2). destruct (decide (b' = b)) as [->|]; [by left|]. right. exists a', sz. split; [done|].
      intros j d' E. destruct (decide (j = i)) as [->|]; [|by eauto]. assert (d' = d) as -> by congruence. rewrite El. set_solver.
Qed.

Lemma inv_push b :
  b ∈ live → b ∈ arena_blocks d a →
  heap_inv other (update h i d (b :: free_list d) a ar (free_cnt ar + 1)) (live ∖ {[b]}) ∧ free_cnt ar < blocks_per_arena d.
Proof.
  intros Hl Hb. pose proof (hi_nodup _ _ _ Hi i d Ed) as Hnd. pose proof (hi_count _ _ _ Hi a ar i d Ea Ei Ed) as Hc.
  apply (hi_live _ _ _ Hi) in Hl as Hl'. destruct Hl' as (? & ? & _ & Hnf). specialize (Hnf i d Ed).
  assert (block_at h a b (block_size d)) as Hba by (exists ar; rewrite Ei; eauto). split.
  - apply update_inv; [rewrite filter_cons_True by done; cbn; lia|by constructor|..].
    + intros b' [->|]%elem_of_cons; [by right|by left].
    + intros a' ar' Ea' Ei' Hne. rewrite filter_cons_False; [done|]. by eapply block_other_arena.
    + intros b'. rewrite elem_of_difference, elem_of_singleton, (hi_live _ _ _ Hi). split.
      * intros [(a' & sz & Hb' & Hx) Hne]. exists a', sz. split_and!; [done| |by eauto]. rewrite not_elem_of_cons. eauto.
      * intros (a' & sz & Hb' & [Hne Hx1]%not_elem_of_cons & Hx2). split; [|done]. exists a', sz. split; [done|].
        intros j d' E. destruct (decide (j = i)) as [->|]; [|by eauto]. by assert (d' = d) as -> by congruence.
  - assert (NoDup (b :: filter (.∈ arena_blocks d a) (free_list d))) as Hn.
    { constructor; [|by apply NoDup_filter]. rewrite list_elem_of_filter. naive_solver. }
    assert (length (b :: filter (.∈ arena_blocks d a) (free_list d)) ≤ length (arena_blocks d a))%nat as Hle.
    { apply submseteq_length, NoDup_submseteq; [done|]. intros b' [->|Hb']%elem_of_cons; [done|]. by apply list_elem_of_filter in Hb' as [? _]. }
    rewrite arena_blocks_length in Hle. cbn in Hle.
    pose proof (desc_room d (desc_at _ _ _ _ _ Hi Ed)). lia.
Qed.

End update.

(** A new arena, on pages that the page allocator has just handed out. *)
Section add.
  Context other h live (p : Z) (ar : arena) (s' : S) (ds : list desc) (Hi : heap_inv other h live).
  Context (Hs' : pa_wf s') (Hd : pages p (npages ar) ## held (pa h)) (Hh : held s' = held (pa h) ∪ pages p (npages ar)).
  Context (Hn : (0 < npages ar)%nat) (Hds : ∀ i, dshape <$> descs h !! i = dshape <$> ds !! i).
Let h' := Heap s' ds (<[p := ar]> (arenas h)).

Lemma add_fresh : arenas h !! p = None.
Proof.
  destruct (arenas h !! p) as [x|] eqn:E; [|done]. exfalso. apply (Hd p); [by apply first_page|].
  eapply arena_held; [done..|]. apply first_page. by eapply npages_pos.
Qed.

Lemma add_arena a x : arenas h' !! a = Some x ↔ (a = p ∧ x = ar) ∨ (a ≠ p ∧ arenas h !! a = Some x).
Proof. cbn. destruct (decide (a = p)) as [->|]; [rewrite lookup_insert_eq|rewrite lookup_insert_ne by done]; naive_solver. Qed.

Lemma add_old a x : arenas h !! a = Some x → arenas h' !! a = Some x.
Proof. intros E. apply add_arena. right. split; [|done]. intros ->. by rewrite add_fresh in E. Qed.

Lemma inv_add live' :
  magic ar = ARENA_MAGIC → 0 ≤ free_cnt ar → match adesc ar with Some i => is_Some (descs h !! i) | None => 0 < free_cnt ar end →
  (∀ i d, ds !! i = Some d → NoDup (free_list d)) →
  (∀ i d b, ds !! i = Some d → b ∈ free_list d → ∃ a x, arenas h' !! a = Some x ∧ adesc x = Some i ∧ b ∈ arena_blocks d a) →
  (∀ a x i d, arenas h' !! a = Some x → adesc x = Some i → ds !! i = Some d →
    free_cnt x = Z.of_nat (length (filter (.∈ arena_blocks d a) (free_list d)))) →
  (∀ b, b ∈ live' ↔ ∃ a sz, block_at h' a b sz ∧ ∀ i d, ds !! i = Some d → b ∉ free_list d) →
  heap_inv other h' live'.
Proof.
  intros Hm Hc0 Ha Hnd Hfree Hcnt Hlive. constructor; try done.
  - apply Forall_lookup_2. intros i d' E. specialize (Hds i). unfold h' in E. cbn in E. rewrite E in Hds.
    destruct (descs h !! i) as [d|] eqn:Ed; [|done]. apply (inj Some) in Hds. injection Hds as Eb Ep.
    apply (desc_at _ _ _ _ _ Hi) in Ed. unfold desc_ok in *. by rewrite <-Eb, <-Ep.
  - assert (∀ i, is_Some (descs h !! i) → is_Some (descs h' !! i)) as Hsome.
    { intros i [d E]. specialize (Hds i). rewrite E in Hds. unfold h'. cbn. by destruct (ds !! i). }
    intros a x [[-> ->]|[_ E]]%add_arena.
    + split_and!; [done..|]. destruct (adesc ar); eauto.
    + apply (hi_arena _ _ _ Hi) in E as (? & ? & ?). split_and!; [done..|]. destruct (adesc x); eauto.
  - intros q. cbn. rewrite Hh, elem_of_union, (hi_held _ _ _ Hi). split.
    + intros [[?|(a & x & E & Hq)]|Hq]; [by left|right..].
      * exists a, x. split; [by apply add_old|done].
      * exists p, ar. split; [apply add_arena; by left|done].
    + intros [?|(a & x & [[-> ->]|[_ E]]%add_arena & Hq)]; [by left; left|by right|left; right; eauto].
  - intros a x [[-> ->]|[_ E]]%add_arena; [|by eapply hi_other].
    intros q Hq Hq'. apply (Hd q Hq). apply (hi_held _ _ _ Hi). by left.
  - intros a a' x x' [[-> ->]|[Hne E]]%add_arena [[-> ->]|[Hne' E']]%add_arena Hx; [done|..].
    + intros q Hq Hq'. apply (Hd q Hq). by eapply arena_held.
    + intros q Hq Hq'. apply (Hd q Hq'). by eapply arena_held.
    + by eapply hi_disj.
Qed.

End add.

Lemma blocks_round d a b : desc_ok d → is_page a → b ∈ arena_blocks d a → pg_round_down b = a.
Proof. intros Hd Ha (k & ? & ? & ->)%elem_of_arena_blocks. by apply small_block_page. Qed.

Lemma inv_new_small other h live p s' i d :
  heap_inv other h live → pa_wf s' → is_page p → pages p 1 ## held (pa h) → held s' = held (pa h) ∪ pages p 1 →
  descs h !! i = Some d → free_list d = [] →
  heap_inv other (Heap s' (<[i := set_free_list (arena_blocks d p) d]> (descs h))
    (<[p := Arena ARENA_MAGIC (Some i) (blocks_per_arena d)]> (arenas h))) live.
Proof.
  intros Hi Hs' Hp Hd Hh Ed El. pose proof (desc_at _ _ _ _ _ Hi Ed) as Hok. pose proof (desc_room d Hok) as [? _].
  set (ar := Arena ARENA_MAGIC (Some i) (blocks_per_arena d)). set (ds := <[i := set_free_list (arena_blocks d p) d]> (descs h)).
  assert (∀ j d', ds !! j = Some d' ↔ (j = i ∧ d' = set_free_list (arena_blocks d p) d) ∨ (j ≠ i ∧ descs h !! j = Some d')) as Hdl
    by (intros j d'; by apply descs_insert).
  assert (0 < npages ar)%nat as Hn by (unfold npages; cbn; lia).
  pose proof (add_arena h p ar s' ds Hd Hh Hn) as Ha. pose proof (add_old other h live p ar s' ds Hi Hd Hh Hn) as Ho.
  pose proof (add_fresh other h live p ar Hi Hd Hn) as Hnew. set (h' := Heap s' ds _) in *.
  assert (∀ a b, is_Some (arenas h !! a) → pg_round_down b = a → b ∉ arena_blocks d p) as Hnb.
  { intros a b [x Ex] Er Hb. rewrite (blocks_round d p b Hok Hp Hb) in Er. congruence. }
  apply (inv_add other h live p ar s' ds); try done; [|cbn; lia|cbn; eauto|..].
  - intros j. unfold ds. destruct (decide (j = i)) as [->|]; [|by rewrite list_lookup_insert_ne].
    rewrite list_lookup_insert_eq by (by eapply lookup_lt_Some). by rewrite Ed.
  - intros j d' [[-> ->]|[_ E]]%Hdl; [by apply arena_blocks_nodup|by eapply hi_nodup].
  - intros j d' b [[-> ->]|[_ E]]%Hdl Hb.
    + exists p, ar. split_and!; [apply Ha; by left|done..].
    + destruct (hi_free _ _ _ Hi j d' b E Hb) as (a & x & ? & ? & ?). exists a, x. split; [by apply Ho|done].
  - intros a x j d' [[-> ->]|[Hne Ex]]%Ha Ei E%Hdl.
    + destruct E as [[-> ->]|[Hj _]]; [|cbn in Ei; congruence]. cbn [free_list set_free_list free_cnt ar].
      change (arena_blocks (set_free_list _ d) p) with (arena_blocks d p).
      rewrite filter_all by done. rewrite arena_blocks_length. lia.
    + destruct E as [[-> ->]|[Hj E]]; [|by apply (hi_count _ _ _ Hi a x j d')].
      rewrite (hi_count _ _ _ Hi a x i d Ex Ei Ed), El. cbn [free_list set_free_list].
      change (arena_blocks (set_free_list _ d) a) with (arena_blocks d a). rewrite filter_nil.
      rewrite (filter_none (.∈ arena_blocks d a)); [done|]. intros b Hb Hb'.
      apply (Hnb a b); [eauto| |done]. apply (blocks_round d a b Hok); [by eapply arena_page|done].
  - intros b. rewrite (hi_live _ _ _ Hi). split.
    + intros (a & sz & Hb & Hx). destruct (block_in_arena _ _ _ _ _ _ Hi Hb) as (x & Ex & Er & _). exists a, sz. split.
      * destruct Hb as (y & Ey & Hb). exists y. split; [by apply Ho|]. destruct (adesc y) as [j|]; [|done].
        destruct Hb as (d' & Ed' & Hb & ->). destruct (decide (j = i)) as [->|].
        -- assert (d' = d) as -> by congruence. exists (set_free_list (arena_blocks d p) d). split_and!; [|done..].
           apply Hdl. by left.
        -- exists d'. split_and!; [|done..]. apply Hdl. by right.
      * intros j d' [[-> ->]|[_ E]]%Hdl; [|by eapply Hx]. apply (Hnb a); [eauto|done].
    + intros (a & sz & (y & [[-> ->]|[Hne Ey]]%Ha & Hb) & Hx); cbn in Hb.
      * exfalso. destruct Hb as (d' & [[_ ->]|[? _]]%Hdl & Hb & _); [|done].
        apply (Hx i (set_free_list (arena_blocks d p) d)); [apply Hdl; by left|done].
      * exists a, sz. split.
        -- exists y. split; [done|]. destruct (adesc y) as [j|]; [|done]. destruct Hb as (d' & [[-> ->]|[_ Ed']]%Hdl & Hb & ->); eauto.
        -- intros j d' E. destruct (decide (j = i)) as [->|]; [|apply (Hx j d'), Hdl; by right].
           assert (d' = d) as -> by congruence. rewrite El. apply not_elem_of_nil.
Qed.

Lemma inv_new_big other h live p s' n :
  heap_inv other h live → pa_wf s' → is_page p → (0 < n)%nat →
  pages p n ## held (pa h) → held s' = held (pa h) ∪ pages p n →
  heap_inv other (Heap s' (descs h) (<[p := Arena ARENA_MAGIC None (Z.of_nat n)]> (arenas h))) ({[p + sizeof_arena]} ∪ live) ∧
  p + sizeof_arena ∉ live.
Proof.
  intros Hi Hs' Hp Hn0 Hd Hh. set (ar := Arena ARENA_MAGIC None (Z.of_nat n)).
  assert (npages ar = n) as En by (unfold npages; cbn; lia). rewrite <-En in Hd, Hh, Hn0.
  pose proof (add_arena h p ar s' (descs h) Hd Hh Hn0) as Ha.
  pose proof (add_old other h live p ar s' (descs h) Hi Hd Hh Hn0) as Ho.
  pose proof (add_fresh other h live p ar Hi Hd Hn0) as Hnew. set (h' := Heap s' (descs h) _) in *.
  assert (pg_round_down (p + sizeof_arena) = p) as Er by (by apply offset_in_page).
  assert (∀ a sz, ¬ block_at h a (p + sizeof_arena) sz) as Hnb.
  { intros a sz Hb. destruct (block_in_arena _ _ _ _ _ _ Hi Hb) as (x & Ex & Ex' & _). congruence. }
  split; [|rewrite (hi_live _ _ _ Hi); intros (a & sz & Hb & _); by apply (Hnb a sz)].
  apply (inv_add other h live p ar s' (descs h)); try done; [cbn; lia|cbn; lia|..].
  - intros j d E. by eapply hi_nodup.
  - intros j d b E Hb. destruct (hi_free _ _ _ Hi j d b E Hb) as (a & x & ? & ? & ?). exists a, x. split; [by apply Ho|done].
  - intros a x j d [[-> ->]|[Hne Ex]]%Ha Ei E; [done|]. by apply (hi_count _ _ _ Hi a x j d).
  - intros b. rewrite elem_of_union, elem_of_singleton, (hi_live _ _ _ Hi). split.
    + intros [->|(a & sz & (x & Ex & Hb) & Hx)].
      * exists p, (PGSIZE * Z.of_nat n - sizeof_arena). split; [exists ar; split; [apply Ha; by left|done]|].
        intros j d E Hb. destruct (free_block _ _ _ _ _ _ Hi E Hb) as (a & x & _ & _ & _ & Hb'). by apply (Hnb _ _ Hb').
      * exists a, sz. split; [|done]. exists x. split; [by apply Ho|done].
    + intros (a & sz & (x & [[-> ->]|[Hne Ex]]%Ha & Hb) & Hx); [left; by destruct Hb|].
      right. exists a, sz. split; [|done]. by exists x.
Qed.

(** An arena whose pages have gone back to the page allocator. *)
Section remove.
  Context other h live (a : Z) (ar : arena) (s' : S) (ds : list desc) (Hi : heap_inv other h live).
  Context (Ea : arenas h !! a = Some ar) (Hs' : pa_wf s') (Hh : held s' = held (pa h) ∖ pages a (npages ar)).
  Context (Hds : ∀ i, dshape <$> descs h !! i = dshape <$> ds !! i).
Let h' := Heap s' ds (delete a (arenas h)).

Lemma remove_arena a' x : arenas h' !! a' = Some x ↔ a' ≠ a ∧ arenas h !! a' = Some x.
Proof. cbn. rewrite lookup_delete_Some. naive_solver. Qed.

Lemma inv_remove live' :
  (∀ i d, ds !! i = Some d → NoDup (free_list d)) →
  (∀ i d b, ds !! i = Some d → b ∈ free_list d → ∃ a x, arenas h' !! a = Some x ∧ adesc x = Some i ∧ b ∈ arena_blocks d a) →
  (∀ a x i d, arenas h' !! a = Some x → adesc x = Some i → ds !! i = Some d →
    free_cnt x = Z.of_nat (length (filter (.∈ arena_blocks d a) (free_list d)))) →
  (∀ b, b ∈ live' ↔ ∃ a sz, block_at h' a b sz ∧ ∀ i d, ds !! i = Some d → b ∉ free_list d) →
  heap_inv other h' live'.
Proof.
  intros Hnd Hfree Hcnt Hlive. constructor; try done.
  - apply Forall_lookup_2. intros i d' E. specialize (Hds i). unfold h' in E. cbn in E. rewrite E in Hds.
    destruct (descs h !! i) as [d|] eqn:Ed; [|done]. apply (inj Some) in Hds. injection Hds as Eb Ep.
    apply (desc_at _ _ _ _ _ Hi) in Ed. unfold desc_ok in *. by rewrite <-Eb, <-Ep.
  - intros a' x [_ E]%remove_arena. apply (hi_arena _ _ _ Hi) in E as (? & ? & Hx). split_and!; [done..|].
    destruct (adesc x) as [i|]; [|done]. destruct Hx as [d Hx]. specialize (Hds i). rewrite Hx in Hds. cbn. by destruct (ds !! i).
  - intros q. cbn. rewrite Hh, elem_of_difference, (hi_held _ _ _ Hi). split.
    + intros [[?|(a' & x & E & Hq)] Hn]; [by left|]. right. exists a', x. split; [|done]. apply remove_arena. split; [|done].
      intros ->. by assert (x = ar) as -> by congruence.
    + intros [Ho|(a' & x & [Hne E]%remove_arena & Hq)].
      * split; [by left|]. intros Hq. by apply (hi_other _ _ _ Hi a ar Ea q).
      * split; [right; eauto|]. intros Hq'. by apply (hi_disj _ _ _ Hi a' a x ar E Ea Hne q).
  - intros a' x [_ E]%remove_arena. by eapply hi_other.
  - intros a1 a2 x1 x2 [_ E1]%remove_arena [_ E2]%remove_arena. by eapply hi_disj.
Qed.

End remove.

Lemma inv_free_big other h live a ar s' :
  heap_inv other h live → arenas h !! a = Some ar → adesc ar = None → pa_wf s' →
  held s' = held (pa h) ∖ pages a (npages ar) →
  heap_inv other (Heap s' (descs h) (delete a (arenas h))) (live ∖ {[a + sizeof_arena]}).
Proof.
  intros Hi Ea Ei Hs' Hh. pose proof (arena_page _ _ _ _ _ Hi Ea) as Hp.
  pose proof (remove_arena h a s' (descs h)) as Hr. set (h' := Heap s' (descs h) _) in *.
  apply (inv_remove other h live a ar s' (descs h)); try done.
  - intros j d E. by eapply hi_nodup.
  - intros j d b E Hb. destruct (hi_free _ _ _ Hi j d b E Hb) as (a' & x & ? & ? & ?). exists a', x.
    split; [|done]. apply Hr. split; [|done]. intros ->. congruence.
  - intros a' x j d [_ E1]%Hr. by apply (hi_count _ _ _ Hi a' x j d).
  - intros b. rewrite elem_of_difference, elem_of_singleton, (hi_live _ _ _ Hi). split.
    + intros [(a' & sz & (x & Ex & Hb) & Hx) Hne]. exists a', sz. split; [|done]. exists x. split; [|done]. apply Hr. split; [|done].
      intros ->. assert (x = ar) as -> by congruence. rewrite Ei in Hb. by destruct Hb.
    + intros (a' & sz & (x & [Hne Ex]%Hr & Hb) & Hx). assert (block_at h a' b sz) as Hb' by (by exists x). split; [by exists a', sz|].
      intros ->. destruct (block_in_arena _ _ _ _ _ _ Hi Hb') as (y & _ & Er & _). destruct (offset_in_page a sizeof_arena Hp) as [Er' _]; done || congruence.
Qed.

Lemma inv_release other h live a ar i d s' :
  heap_inv other h live → arenas h !! a = Some ar → adesc ar = Some i → descs h !! i = Some d →
  arena_blocks d a ⊆ free_list d → pa_wf s' → held s' = held (pa h) ∖ pages a 1 →
  heap_inv other (Heap s' (<[i := set_free_list (filter (λ b, b ∉ arena_blocks d a) (free_list d)) d]> (descs h))
    (delete a (arenas h))) live.
Proof.
  intros Hi Ea Ei Ed Hsub Hs' Hh. set (l := filter _ (free_list d)). set (ds := <[i := set_free_list l d]> (descs h)).
  assert (∀ j d', ds !! j = Some d' ↔ (j = i ∧ d' = set_free_list l d) ∨ (j ≠ i ∧ descs h !! j = Some d')) as Hdl
    by (intros j d'; by apply descs_insert).
  assert (npages ar = 1%nat) as En by (unfold npages; by rewrite Ei). rewrite <-En in Hh.
  pose proof (remove_arena h a s' ds) as Hr. set (h' := Heap s' ds _) in *.
  apply (inv_remove other h live a ar s' ds); try done.
  - intros j. unfold ds. destruct (decide (j = i)) as [->|]; [|by rewrite list_lookup_insert_ne].
    rewrite list_lookup_insert_eq by (by eapply lookup_lt_Some). by rewrite Ed.
  - intros j d' [[-> ->]|[_ E]]%Hdl; [apply NoDup_filter|]; by eapply hi_nodup.
  - intros j d' b [[-> ->]|[Hne E]]%Hdl Hb.
    + apply list_elem_of_filter in Hb as [Hb1 Hb2]. destruct (hi_free _ _ _ Hi i d b Ed Hb2) as (a' & x & ? & ? & ?).
      exists a', x. split_and!; [apply Hr; split; [congruence|done]|done..].
    + destruct (hi_free _ _ _ Hi j d' b E Hb) as (a' & x & ? & ? & ?). exists a', x.
      split_and!; [apply Hr; split; [|done]|done..]. intros ->. congruence.
  - intros a' x j d' [Hne Ex]%Hr Ex' [[-> ->]|[_ E]]%Hdl; [|by apply (hi_count _ _ _ Hi a' x j d')].
    rewrite (hi_count _ _ _ Hi a' x i d Ex Ex' Ed). cbn [free_list set_free_list].
    change (arena_blocks (set_free_list _ d) a') with (arena_blocks d a'). unfold l. rewrite list_filter_filter.
    do 2 f_equal. apply filter_ext_in. intros b _. split; [|tauto]. intros Hb. split; [done|]. intros Hb'.
    by apply Hne, (arena_of_block _ _ _ a' a x ar i i d d b Hi).
  - intros b. rewrite (hi_live _ _ _ Hi). split.
    + intros (a' & sz & (x & Ex & Hb) & Hx). exists a', sz. split.
      * exists x. split.
        -- apply Hr. split; [|done]. intros ->. assert (x = ar) as -> by congruence. rewrite Ei in Hb.
           destruct Hb as (d' & Ed' & Hb & _). assert (d' = d) as -> by congruence. by apply (Hx i d Ed), Hsub.
        -- destruct (adesc x) as [j|]; [|done]. destruct Hb as (d' & Ed' & Hb & ->). destruct (decide (j = i)) as [->|].
           ++ assert (d' = d) as -> by congruence. exists (set_free_list l d). split_and!; [apply Hdl; by left|done..].
           ++ exists d'. split_and!; [apply Hdl; by right|done..].
      * intros j d' [[-> ->]|[_ E]]%Hdl; [|by eapply Hx]. intros [_ Hb']%list_elem_of_filter. by apply (Hx i d).
    + intros (a' & sz & (x & [Hne Ex]%Hr & Hb) & Hx).
      assert (block_at h a' b sz) as Hb'.
      { exists x. split; [done|]. destruct (adesc x) as [j|]; [|done]. destruct Hb as (d' & [[-> ->]|[_ ?]]%Hdl & ? & ->); eauto. }
      exists a', sz. split; [done|]. intros j d' E Hf. destruct (decide (j = i)) as [->|]; [|apply (Hx j d'); [apply Hdl; by right|done]].
      assert (d' = d) as -> by congruence. apply (Hx i (set_free_list l d)); [apply Hdl; by left|]. apply list_elem_of_filter.
      split; [|done]. intros Hba. destruct (free_block _ _ _ _ _ _ Hi Ed Hf) as (a1 & x1 & E1 & E1' & H1 & H2).
      assert (a1 = a') as -> by by apply (block_at_fun _ _ _ _ _ _ _ _ Hi H2 Hb').
      by apply Hne, (arena_of_block _ _ _ a' a x1 ar i i d d b Hi).
Qed.


(** The checks of [block_to_arena] look at the shape only. *)
Lemma block_to_arena_shape other h h1 live a b sz :
  heap_inv other h live → same_shape h h1 → block_at h a b sz → block_to_arena b h1 = Ok (a, h1).
Proof.
  intros Hi Hs Hb. pose proof (block_to_arena_ok _ _ _ _ _ _ Hi Hb) as E.
  cbv [block_to_arena assert mbind M_bind mret M_ret rd_arena rd_desc] in *.
  destruct (bool_decide (pg_round_down b ≠ NULL)); [|done].
  destruct (arenas h !! pg_round_down b) as [ar|] eqn:Ea; [|done].
  destruct (same_shape_arena _ _ _ _ Hs Ea) as (ar1 & -> & (_ & <- & <-)%shape_npages).
  destruct (bool_decide (magic ar = ARENA_MAGIC)); [|done].
  destruct (adesc ar) as [i|]; [|by repeat case_match; simplify_eq].
  destruct (descs h !! i) as [d|] eqn:Ed; [|done].
  destruct (same_shape_desc _ _ _ _ Hs Ed) as (d1 & -> & Esd). injection Esd as <- _. by repeat case_match; simplify_eq.
Qed.

(** ** malloc *)

Lemma find_desc_Some size j ds i :
  find_desc size j ds = Some i → ∃ d, ds !! (i - j)%nat = Some d ∧ size ≤ block_size d ∧ (j ≤ i)%nat.
Proof.
  revert j. induction ds as [|d ds IH]; intros j; cbn; [done|]. case_decide as Hs.
  - intros [= <-]. exists d. rewrite Nat.sub_diag. done.
  - intros (d' & E & ? & ?)%IH. exists d'. replace (i - j)%nat with (Datatypes.S (i - (j + 1))) by lia. split_and!; [done..|lia].
Qed.

Lemma inv_count_bound other h live a ar i d :
  heap_inv other h live → arenas h !! a = Some ar → adesc ar = Some i → descs h !! i = Some d →
  free_cnt ar ≤ blocks_per_arena d ∧ blocks_per_arena d ≤ PGSIZE.
Proof.
  intros Hi Ea Ei Ed. pose proof (desc_at _ _ _ _ _ Hi Ed) as Hd. destruct (desc_room d Hd) as [H3 Hr].
  split; [|destruct Hd; unfold sizeof_arena in *; nia].
  rewrite (hi_count _ _ _ Hi a ar i d Ea Ei Ed).
  assert (length (filter (.∈ arena_blocks d a) (free_list d)) ≤ length (arena_blocks d a))%nat as Hle.
  { apply submseteq_length, NoDup_submseteq; [by eapply NoDup_filter, hi_nodup|]. by intros b [? _]%list_elem_of_filter. }
  rewrite arena_blocks_length in Hle. lia.
Qed.

(** No arena, but for [a0], has all its blocks free. *)
Definition tight_but (a0 : option Z) h : Prop := ∀ a ar i d,
  arenas h !! a = Some ar → adesc ar = Some i → descs h !! i = Some d → a0 = Some a ∨ free_cnt ar < blocks_per_arena d.
Definition tight h : Prop := tight_but None h.

(** The result of an allocation: no block, or a new one with [size] bytes. *)
Definition allocated (T : Prop) other h live (size : Z) (r : result (Z * heap S)) : Prop :=
  ∃ b h', r = Ok (b, h') ∧ memory (pa h') = memory (pa h) ∧ (T → tight h') ∧
    (∀ a' b' sz', block_at h a' b' sz' → block_at h' a' b' sz') ∧
    ((b = NULL ∧ heap_inv other h' live) ∨
     (b ≠ NULL ∧ b ∉ live ∧ heap_inv other h' ({[b]} ∪ live) ∧ ∃ a sz, block_at h' a b sz ∧ size ≤ sz)).

Lemma malloc_pop_ok other h live i d b l size :
  heap_inv other h live → descs h !! i = Some d → free_list d = b :: l → size ≤ block_size d →
  allocated (tight_but (Some (pg_round_down b)) h) other h live size (malloc_pop i h).
Proof.
  intros Hi Ed El Hs. destruct (free_block _ _ _ i d b Hi Ed) as (a & ar & Ea & Ei & Hb & Hba); [rewrite El; left|].
  destruct (inv_pop _ _ _ _ _ _ _ Hi Ed Ea Ei b l El Hb) as (Hi' & Hnl & Hc).
  pose proof (update_shape _ _ _ _ _ Ed Ea Ei l (free_cnt ar - 1)) as Hsh. set (h' := update h i d l a ar (free_cnt ar - 1)) in *.
  exists b, h'. split_and!.
  - unfold malloc_pop. rewrite (bind_ok _ _ _ _ _ (rd_desc_ok _ _ _ Ed)), El.
    rewrite (bind_ok _ _ _ _ _ (wr_free_list_ok _ _ _ _ Ed)).
    set (h1 := set_descs _ h).
    assert (same_shape h h1) as Hs1.
    { split; [done|]. intros j. apply (proj2 Hsh). }
    rewrite (bind_ok _ _ _ _ _ (block_to_arena_shape _ _ h1 _ _ _ _ Hi Hs1 Hba)).
    rewrite (bind_ok _ _ _ _ _ (rd_arena_ok h1 a ar Ea)).
    assert (u32 (free_cnt ar - 1) = free_cnt ar - 1) as ->; [|done]. apply wrapu_small.
    pose proof (inv_count_bound _ _ _ _ _ _ _ Hi Ea Ei Ed). rewrite PGSIZE_eq in *. unfold in_u. lia.
  - done.
  - intros Ht a' ar' j d' E1 E2 E3. right. apply (update_arena h i d a ar l) in E1.
    apply (descs_insert _ _ _ _ _ _ Ed) in E3. destruct (block_in_arena _ _ _ _ _ _ Hi Hba) as (_ & _ & Er & _). rewrite Er in Ht.
    pose proof (inv_count_bound _ _ _ _ _ _ _ Hi Ea Ei Ed).
    destruct E1 as [[-> ->]|[Hne E1]], E3 as [[-> ->]|[Hj E3]]; cbn in *; [lia|congruence|..].
    + destruct (Ht a' ar' i d E1 E2 Ed) as [?|?]; [congruence|done].
    + destruct (Ht a' ar' j d' E1 E2 E3) as [?|?]; [congruence|done].
  - intros a' b' sz'. by apply (same_shape_block h).
  - right. split_and!; [|done|done|].
    + destruct (block_in_arena _ _ _ _ _ _ Hi Hba) as (x & Ex & _ & Hab & _). pose proof (arena_page _ _ _ _ _ Hi Ex) as (Hp & _).
      unfold PHYS_BASE, NULL in *. lia.
    + exists a, (block_size d). split; [by apply (same_shape_block h)|done].
Qed.

Lemma inv_pa other h live s' :
  heap_inv other h live → pa_wf s' → held s' = held (pa h) → heap_inv other (set_pa s' h) live.
Proof. intros [] Hs Hh. constructor; cbn; try done. by rewrite Hh. Qed.

Lemma on_pa_ok {A} (m : M S A) h x s' : m (pa h) = Ok (x, s') → on_pa m h = Ok (x, set_pa s' h).
Proof. apply zoom_ok. Qed.

Lemma got_is_page n (s : S) p : PHYS_BASE ≤ p → p + PGSIZE * Z.of_nat n ≤ 2 ^ 32 → p mod PGSIZE = 0 → (0 < n)%nat → is_page p.
Proof. intros. rewrite PGSIZE_eq in *. unfold is_page. rewrite PGSIZE_eq. split_and!; [done|lia|done]. Qed.

Lemma malloc_refill_ok other h live i d :
  heap_inv other h live → descs h !! i = Some d →
  ∃ ok h', malloc_refill i h = Ok (ok, h') ∧ heap_inv other h' live ∧ memory (pa h') = memory (pa h) ∧
    (∀ a b sz, block_at h a b sz → block_at h' a b sz) ∧
    (ok = false → tight h → tight h') ∧
    (ok = true → ∃ d' b l, descs h' !! i = Some d' ∧ free_list d' = b :: l ∧ block_size d' = block_size d ∧
      (tight h → tight_but (Some (pg_round_down b)) h')).
Proof.
  intros Hi Ed. unfold malloc_refill. rewrite (bind_ok _ _ _ _ _ (rd_desc_ok _ _ _ Ed)).
  destruct (free_list d) as [|b l] eqn:El.
  2:{ exists true, h. split_and!; [done..|]. intros _. exists d, b, l. split_and!; [done..|].
      intros Ht a ar j d' E1 E2 E3. destruct (Ht a ar j d' E1 E2 E3); [done|by right]. }
  pose proof (desc_at _ _ _ _ _ Hi Ed) as Hok. pose proof (desc_room d Hok) as [H3 _].
  pose proof (pa_get_ok (pa h) 0 1 (hi_pa _ _ _ Hi) ltac:(lia) ltac:(lia)) as Hg. change (Z.of_nat 1) with 1 in Hg.
  destruct (pa_get 0 1 (pa h)) as [[p s']|e] eqn:Eg; [|by inversion Hg].
  rewrite (bind_ok _ _ _ _ _ (on_pa_ok _ _ _ _ Eg)).
  inversion Hg as [s2 Hs2 Hh2 Hm2 _|?|p2 s2 Hs2 Hp1 Hp2 Hp3 Hd2 Hh2 Hm2]; subst.
  - rewrite decide_True by done. exists false, (set_pa s' h). split_and!; [done|by apply inv_pa|done..].
  - pose proof (got_is_page 1 (pa h) p Hp1 Hp2 Hp3 ltac:(lia)) as Hp. rewrite decide_False by by apply page_not_null.
    set (ar := Arena ARENA_MAGIC (Some i) (blocks_per_arena d)).
    rewrite (bind_ok _ _ _ tt (set_arenas (<[p := ar]> (arenas h)) (set_pa s' h)) eq_refl).
    rewrite (bind_ok _ _ _ _ _ (add_blocks_ok (Z.to_nat (blocks_per_arena d)) (set_arenas (<[p := ar]> (arenas h)) (set_pa s' h))
      p ar i d 0 ltac:(cbn; apply lookup_insert_eq) eq_refl eq_refl Ed Hok Hp ltac:(lia) ltac:(lia))).
    rewrite El, Z2Nat.id by lia. cbn [app]. fold (arena_blocks d p).
    pose proof (inv_new_small _ _ _ _ _ _ _ Hi Hs2 Hp Hd2 Hh2 Ed El) as Hi'. do 2 eexists. split; [reflexivity|].
    split; [exact Hi'|]. split; [done|]. split.
    + intros a b sz (x & Ex & Hb). exists x. cbn. split.
      * rewrite lookup_insert_ne; [done|]. intros <-. pose proof (npages_pos _ _ _ _ _ Hi Ex).
        apply (Hd2 p); [apply first_page; lia|]. eapply arena_held; [done..|by apply first_page].
      * destruct (adesc x) as [j|]; [|done]. destruct Hb as (d' & Ed' & Hb & ->). destruct (decide (j = i)) as [->|].
        -- rewrite list_lookup_insert_eq by (by eapply lookup_lt_Some). assert (d' = d) as -> by congruence. eauto.
        -- rewrite list_lookup_insert_ne by done. eauto.
    + split; [done|]. intros _. exists (set_free_list (arena_blocks d p) d), (small_block d p 0), (small_block d p <$> seqZ 1 (Z.pred (blocks_per_arena d))).
      cbn. rewrite list_lookup_insert_eq by (by eapply lookup_lt_Some). split_and!; [done| |done|].
      * unfold arena_blocks. by rewrite seqZ_cons by lia.
      * intros Ht a x j d' E1 E2 E3. cbn in E1, E3. destruct (small_block_page d Hok p 0) as [-> _]; [done|lia..|].
        destruct (decide (a = p)) as [->|]; [by left|right]. rewrite lookup_insert_ne in E1 by congruence.
        apply (descs_insert _ _ _ _ _ _ Ed) in E3 as [[-> ->]|[_ E3]]; [destruct (Ht a x i d E1 E2 Ed)|destruct (Ht a x j d' E1 E2 E3)]; done.
Qed.

Lemma malloc_big_ok other h live size :
  heap_inv other h live → 0 < size → size + sizeof_arena + PGSIZE ≤ 2 ^ 32 → allocated (tight h) other h live size (malloc_big size h).
Proof.
  intros Hi H0 Hs. unfold malloc_big, DIV_ROUND_UP, sizeof_arena in *. rewrite PGSIZE_eq in *.
  rewrite (wrapu_small 32 (size + 12)) by (unfold in_u; lia). rewrite wrapu_small by (unfold in_u; lia).
  set (n := Z.to_nat ((size + 12 + 4096 - 1) / 4096)).
  assert (Z.of_nat n = (size + 12 + 4096 - 1) / 4096) as En by (unfold n; dlia).
  assert (0 < n)%nat as Hn by dlia. assert (Z.of_nat n < 2 ^ 20) as Hn2 by dlia. assert (size + 12 ≤ 4096 * Z.of_nat n) as Hsz by dlia.
  rewrite <-En. pose proof (pa_get_ok (pa h) 0 n (hi_pa _ _ _ Hi) Hn Hn2) as Hg.
  destruct (pa_get 0 (Z.of_nat n) (pa h)) as [[p s']|e] eqn:Eg; [|by inversion Hg].
  rewrite (bind_ok _ _ _ _ _ (on_pa_ok _ _ _ _ Eg)).
  inversion Hg as [s2 Hs2 Hh2 Hm2 _|?|p2 s2 Hs2 Hp1 Hp2 Hp3 Hd2 Hh2 Hm2]; subst.
  - rewrite decide_True by done. exists NULL, (set_pa s' h). split_and!; [done..|]. left. split; [done|by apply inv_pa].
  - pose proof (got_is_page n (pa h) p Hp1 Hp2 Hp3 Hn) as Hp. rewrite decide_False by by apply page_not_null.
    destruct (inv_new_big _ _ _ _ _ _ Hi Hs2 Hp Hn Hd2 Hh2) as [Hi' Hnl]. unfold sizeof_arena in *.
    exists (p + 12). eexists. split_and!.
    + rewrite (bind_ok _ _ _ tt _ eq_refl). rewrite wrapu_small; [reflexivity|].
      destruct Hp as (Hp & ? & _). unfold PHYS_BASE, in_u in *. rewrite PGSIZE_eq in *. lia.
    + done.
    + intros Ht a x j d E1 E2 E3. cbn in E1, E3. destruct (decide (a = p)) as [->|].
      * rewrite lookup_insert_eq in E1. by simplify_eq/=.
      * rewrite lookup_insert_ne in E1 by congruence. by apply (Ht a x j d).
    + intros a b sz (x & Ex & Hb). exists x. cbn. split; [|done]. rewrite lookup_insert_ne; [done|].
      intros <-. pose proof (npages_pos _ _ _ _ _ Hi Ex). apply (Hd2 p); [by apply first_page|].
      eapply arena_held; [done..|by apply first_page].
    + right. split_and!; [|done|exact Hi'|].
      * destruct Hp as (Hp & _). unfold PHYS_BASE, NULL in *. lia.
      * exists p, (PGSIZE * Z.of_nat n - 12). split; [|rewrite PGSIZE_eq; lia]. eexists. cbn. rewrite lookup_insert_eq. done.
Qed.

Lemma malloc_ok other h live size :
  heap_inv other h live → 0 ≤ size → size + sizeof_arena + PGSIZE ≤ 2 ^ 32 → allocated (tight h) other h live size (malloc size h).
Proof.
  intros Hi H0 Hs. unfold malloc. case_decide as Hz.
  { exists NULL, h. split_and!; [done..|]. by left. }
  rewrite (bind_ok _ _ _ _ h eq_refl). destruct (find_desc size 0 (descs h)) as [i|] eqn:Ef.
  - apply find_desc_Some in Ef as (d & Ed & Hle & _). rewrite Nat.sub_0_r in Ed.
    destruct (malloc_refill_ok _ _ _ _ _ Hi Ed) as (ok & h1 & E & Hi1 & Hm1 & Hb1 & Htf & Hok). rewrite (bind_ok _ _ _ _ _ E).
    destruct ok; [|exists NULL, h1; split_and!; [done|done|by apply Htf|done|by left]].
    destruct Hok as (d' & b & l & Ed' & El & Es & Ht); [done|].
    destruct (malloc_pop_ok _ _ _ _ _ b l size Hi1 Ed' El ltac:(lia)) as (b' & h2 & E2 & Hm2 & Ht2 & Hb2 & Hcase).
    exists b', h2. split_and!; [done|congruence|tauto|by eauto|done].
  - apply malloc_big_ok; [done|lia|done].
Qed.

(** ** Blocks do not overlap *)

Definition in_range (y b sz : Z) : Prop := b ≤ y ∧ y < b + sz.

Lemma page_of_address a n y : a mod PGSIZE = 0 → in_range y a (PGSIZE * Z.of_nat n) → y - y mod PGSIZE ∈ pages a n.
Proof.
  unfold in_range. rewrite PGSIZE_eq. intros Ha Hy. apply elem_of_pages. exists (Z.to_nat ((y - a) / 4096)). rewrite PGSIZE_eq.
  split; [dlia|]. dlia.
Qed.

Lemma arenas_apart other h live a a' ar ar' y :
  heap_inv other h live → arenas h !! a = Some ar → arenas h !! a' = Some ar' →
  in_range y a (PGSIZE * Z.of_nat (npages ar)) → in_range y a' (PGSIZE * Z.of_nat (npages ar')) → a = a'.
Proof.
  intros Hi Ea Ea' Hy Hy'. destruct (decide (a = a')) as [|Hne]; [done|exfalso].
  pose proof (arena_page _ _ _ _ _ Hi Ea) as (_ & _ & Hm). pose proof (arena_page _ _ _ _ _ Hi Ea') as (_ & _ & Hm').
  apply (hi_disj _ _ _ Hi a a' ar ar' Ea Ea' Hne (y - y mod PGSIZE)); by apply page_of_address.
Qed.

Lemma block_in_range other h live a b sz y :
  heap_inv other h live → block_at h a b sz → in_range y b sz →
  ∃ ar, arenas h !! a = Some ar ∧ in_range y a (PGSIZE * Z.of_nat (npages ar)).
Proof.
  intros Hi Hb Hy. destruct (block_in_arena _ _ _ _ _ _ Hi Hb) as (ar & Ea & _ & ? & ? & ?). exists ar. split; [done|].
  unfold in_range in *. lia.
Qed.

Lemma blocks_apart other h live a b sz a' b' sz' y :
  heap_inv other h live → block_at h a b sz → block_at h a' b' sz' → in_range y b sz → in_range y b' sz' → b = b'.
Proof.
  intros Hi Hb Hb' Hy Hy'. destruct (block_in_range _ _ _ _ _ _ _ Hi Hb Hy) as (ar & Ea & Hya).
  destruct (block_in_range _ _ _ _ _ _ _ Hi Hb' Hy') as (ar' & Ea' & Hya').
  assert (a = a') as <- by by eapply arenas_apart. destruct Hb as (x & Ex & Hb), Hb' as (x' & Ex' & Hb').
  assert (x = x') as <- by congruence. destruct (adesc x) as [i|]; [|destruct Hb, Hb'; congruence].
  destruct Hb as (d & Ed & (k & ? & ? & ->)%elem_of_arena_blocks & ->), Hb' as (d' & Ed' & (k' & ? & ? & ->)%elem_of_arena_blocks & ->).
  assert (d' = d) as -> by congruence. destruct (desc_at _ _ _ _ _ Hi Ed) as (Hbs & _).
  unfold in_range, small_block in *. assert (k = k') by nia. by subst.
Qed.

(** ** free *)

Lemma on_mem_ok {A} (m : M mem A) h x m' :
  m (memory (pa h)) = Ok (x, m') → on_mem m h = Ok (x, set_pa (set_memory m' (pa h)) h).
Proof. intros E. unfold on_mem. apply on_pa_ok. by apply zoom_ok. Qed.

(** The result of freeing [b]: the other blocks and their bytes are as before. *)
Definition freed other h live (b : Z) (r : result (unit * heap S)) : Prop :=
  ∃ h', r = Ok (tt, h') ∧ heap_inv other h' (live ∖ {[b]}) ∧ (tight h → tight h') ∧
    ∀ a' b' sz', b' ∈ live → b' ≠ b → block_at h a' b' sz' →
      block_at h' a' b' sz' ∧ ∀ y, in_range y b' sz' → memory (pa h') !! y = memory (pa h) !! y.

Lemma inv_arena_pages other h live a ar :
  heap_inv other h live → arenas h !! a = Some ar → pages a (npages ar) ⊆ held (pa h).
Proof. intros Hi Ea p Hp. by eapply arena_held. Qed.

Lemma free_big_ok other h live a ar :
  heap_inv other h live → arenas h !! a = Some ar → adesc ar = None → a + sizeof_arena ∈ live →
  freed other h live (a + sizeof_arena)
    ((on_pa (pa_free a (free_cnt ar));; modify (λ h, set_arenas (delete a (arenas h)) h)) h).
Proof.
  intros Hi Ea Ei Hl. pose proof (hi_arena _ _ _ Hi _ _ Ea) as (_ & Hc & Hc'). rewrite Ei in Hc'.
  assert (Z.of_nat (npages ar) = free_cnt ar) as En by (unfold npages; rewrite Ei; lia).
  destruct (pa_free_ok (pa h) a (npages ar) (hi_pa _ _ _ Hi) ltac:(lia) (inv_arena_pages _ _ _ _ _ Hi Ea)) as (s' & E & Hs' & Hh & Hm).
  rewrite En in E. rewrite (bind_ok _ _ _ _ _ (on_pa_ok _ _ _ _ E)). eexists. split; [reflexivity|].
  split; [exact (inv_free_big _ _ _ _ _ _ Hi Ea Ei Hs' Hh)|].
  split; [intros Ht a' x j d E1; cbn in E1; apply lookup_delete_Some in E1 as [_ E1]; by apply (Ht a' x j d)|]. intros a' b' sz' Hb' Hne Hba.
  assert (a' ≠ a) as Hna.
  { intros ->. destruct Hba as (x & Ex & Hx). assert (x = ar) as -> by congruence. rewrite Ei in Hx. by destruct Hx. }
  split.
  - destruct Hba as (x & Ex & Hx). exists x. split; [|done]. cbn. by rewrite lookup_delete_ne by congruence.
  - intros y Hy. cbn. rewrite Hm, store_lookup, decide_False; [done|]. rewrite length_replicate, Z2Nat.id by (rewrite PGSIZE_eq; lia).
    intros Hy'. destruct (block_in_range _ _ _ _ _ _ _ Hi Hba Hy) as (ar' & Ea' & Hya). apply Hna. symmetry.
    by eapply (arenas_apart _ _ _ a a' ar ar' y).
Qed.

(** When the count of an arena reaches its number of blocks, all are free. *)
Lemma all_free other h live a ar i d :
  heap_inv other h live → arenas h !! a = Some ar → adesc ar = Some i → descs h !! i = Some d →
  free_cnt ar = blocks_per_arena d → arena_blocks d a ⊆ free_list d.
Proof.
  intros Hi Ea Ei Ed Hc. rewrite (hi_count _ _ _ Hi a ar i d Ea Ei Ed) in Hc.
  assert (filter (.∈ arena_blocks d a) (free_list d) ≡ₚ arena_blocks d a) as Hp.
  { apply submseteq_length_Permutation.
    - apply NoDup_submseteq; [by eapply NoDup_filter, hi_nodup|]. by intros b [? _]%list_elem_of_filter.
    - rewrite arena_blocks_length. lia. }
  intros b Hb. rewrite <-Hp in Hb. by apply list_elem_of_filter in Hb as [_ ?].
Qed.

(** The end of [free]: an arena whose blocks are all free goes back. *)
Lemma release_ok other h live a ar i d :
  heap_inv other h live → arenas h !! a = Some ar → adesc ar = Some i → descs h !! i = Some d →
  free_cnt ar = blocks_per_arena d →
  ∃ h', (remove_blocks i a 0 (Z.to_nat (blocks_per_arena d));;
         on_pa (pa_free a 1);; modify (λ h, set_arenas (delete a (arenas h)) h)) h = Ok (tt, h') ∧
    heap_inv other h' live ∧ (tight_but (Some a) h → tight h') ∧
    ∀ a' b' sz', b' ∈ live → block_at h a' b' sz' →
      block_at h' a' b' sz' ∧ ∀ y, in_range y b' sz' → memory (pa h') !! y = memory (pa h) !! y.
Proof.
  intros Hi Ea Ei Ed Hc. pose proof (desc_at _ _ _ _ _ Hi Ed) as Hok. destruct (desc_room d Hok) as [H3 _].
  pose proof (all_free _ _ _ _ _ _ _ Hi Ea Ei Ed Hc) as Hall. pose proof (arena_page _ _ _ _ _ Hi Ea) as Hp.
  pose proof (hi_arena _ _ _ Hi _ _ Ea) as (Em & _ & _).
  assert (npages ar = 1%nat) as En by (unfold npages; by rewrite Ei).
  assert (Z.of_nat (Z.to_nat (blocks_per_arena d)) = blocks_per_arena d) as Hbn by lia.
  pose proof (remove_blocks_ok (Z.to_nat (blocks_per_arena d)) h a ar i d 0 Ea Em Ei Ed Hok Hp ltac:(lia) ltac:(lia)) as Er.
  rewrite Hbn in Er. fold (arena_blocks d a) in Er. rewrite (bind_ok _ _ _ _ _ (Er Hall)).
  pose proof (inv_arena_pages _ _ _ _ _ Hi Ea) as Hpg. rewrite En in Hpg.
  destruct (pa_free_ok (pa h) a 1 (hi_pa _ _ _ Hi) ltac:(lia) Hpg) as (s' & E & Hs' & Hh & Hm).
  set (h1 := set_descs _ h). rewrite (bind_ok _ _ _ _ _ (on_pa_ok _ h1 _ _ E)). eexists. split; [reflexivity|].
  split; [exact (inv_release _ _ _ _ _ _ _ _ Hi Ea Ei Ed Hall Hs' Hh)|]. split.
  { intros Ht a' x j d' E1 E2 E3. right. cbn in E1, E3. apply lookup_delete_Some in E1 as [Hne E1].
    apply (descs_insert h i d _ j d' Ed) in E3 as [[-> ->]|[_ E3]].
    - destruct (Ht a' x i d E1 E2 Ed) as [[= Ha]|Hlt]; [by destruct Hne|exact Hlt].
    - destruct (Ht a' x j d' E1 E2 E3) as [[= Ha]|Hlt]; [by destruct Hne|exact Hlt]. }
  intros a' b' sz' Hb' Hba.
  assert (a' ≠ a) as Hna.
  { intros ->. destruct Hba as (x & Ex & Hx). assert (x = ar) as -> by congruence. rewrite Ei in Hx.
    destruct Hx as (d' & Ed' & Hx & _). assert (d' = d) as -> by congruence.
    apply (hi_live _ _ _ Hi) in Hb' as (_ & _ & _ & Hn). by apply (Hn i d Ed), Hall. }
  split.
  - destruct Hba as (x & Ex & Hx). exists x. cbn. rewrite lookup_delete_ne by congruence. split; [done|].
    destruct (adesc x) as [j|]; [|done]. destruct Hx as (d' & Ed' & Hx & ->). destruct (decide (j = i)) as [->|].
    + assert (d' = d) as -> by congruence. rewrite list_lookup_insert_eq by (by eapply lookup_lt_Some). eauto.
    + rewrite list_lookup_insert_ne by done. eauto.
  - intros y Hy. cbn. rewrite Hm, store_lookup, decide_False; [done|]. rewrite length_replicate. intros Hy'.
    destruct (block_in_range _ _ _ _ _ _ _ Hi Hba Hy) as (ar' & Ea' & Hya). apply Hna. symmetry.
    apply (arenas_apart _ _ _ a a' ar ar' y Hi Ea Ea'); [|done]. rewrite En. unfold in_range. rewrite PGSIZE_eq in *. lia.
Qed.

Lemma free_small_ok other h live a ar i d b :
  heap_inv other h live → arenas h !! a = Some ar → adesc ar = Some i → descs h !! i = Some d →
  b ∈ arena_blocks d a → b ∈ live → freed other h live b (free_small i a b h).
Proof.
  intros Hi Ea Ei Ed Hb Hl. assert (block_at h a b (block_size d)) as Hba by (exists ar; rewrite Ei; eauto).
  pose proof (desc_at _ _ _ _ _ Hi Ed) as (Hbs & _).
  destruct (block_in_arena _ _ _ _ _ _ Hi Hba) as (ar' & Ea' & _ & Hab & _ & Hbb). assert (ar' = ar) as -> by congruence.
  pose proof (arena_page _ _ _ _ _ Hi Ea) as (Hp & _). unfold PHYS_BASE in Hp.
  assert (Z.of_nat (Z.to_nat (block_size d)) = block_size d) as Hbn by lia.
  assert (mapped (memory (pa h)) b (block_size d)) as Hmap.
  { intros y Hy. apply (arena_mapped _ _ _ _ _ Hi Ea). lia. }
  set (m1 := store b (replicate (Z.to_nat (block_size d)) 0xcc) (memory (pa h))).
  destruct (inv_mem _ _ _ m1 Hi) as [Hi1 Hm1]; [apply store_dom; by rewrite length_replicate, Hbn|].
  set (h1 := set_pa (set_memory m1 (pa h)) h) in *. unfold free_small.
  rewrite (bind_ok _ _ _ _ _ (rd_desc_ok _ _ _ Ed)). rewrite (bind_ok _ _ _ b h1).
  2:{ apply on_mem_ok. rewrite <-Hbn at 1. rewrite memset_ok; [done|by rewrite Hbn|lia]. }
  rewrite (bind_ok _ _ _ _ _ (wr_free_list_ok h1 i d (b :: free_list d) Ed)).
  rewrite (bind_ok _ _ _ _ _ (rd_arena_ok (set_descs _ h1) a ar Ea)).
  destruct (inv_push _ _ _ _ _ _ _ Hi1 Ed Ea Ei b Hl Hb) as [Hi3 Hc].
  pose proof (inv_count_bound _ _ _ _ _ _ _ Hi Ea Ei Ed). pose proof (hi_arena _ _ _ Hi _ _ Ea) as (_ & Hc0 & _).
  rewrite (wrapu_small 32 (free_cnt ar + 1)) by (rewrite PGSIZE_eq in *; unfold in_u; lia).
  pose proof (update_shape h1 i d a ar Ed Ea Ei (b :: free_list d) (free_cnt ar + 1)) as Hsh.
  set (h3 := update h1 i d (b :: free_list d) a ar (free_cnt ar + 1)) in *.
  rewrite (bind_ok _ _ _ tt h3) by reflexivity.
  assert (∀ a' b' sz' y, b' ≠ b → block_at h a' b' sz' → in_range y b' sz' → m1 !! y = memory (pa h) !! y) as Hmem.
  { intros a' b' sz' y Hne Hb' Hy. unfold m1. rewrite store_lookup, decide_False; [done|].
    rewrite length_replicate, Hbn. intros Hy'. apply Hne. by eapply (blocks_apart _ h _ a' b' sz' a b (block_size d) y). }
  assert (tight h → tight_but (Some a) h3) as Ht3.
  { intros Ht a' x j d' E1 E2 E3. apply (update_arena h1 i d a ar) in E1. apply (descs_insert h1 _ _ _ _ _ Ed) in E3.
    destruct E1 as [[-> ->]|[Hne E1]], E3 as [[-> ->]|[Hj E3]]; [by left..| |].
    - destruct (Ht a' x i d E1 E2 Ed); [done|by right].
    - destruct (Ht a' x j d' E1 E2 E3); [done|by right]. }
  destruct (decide (blocks_per_arena d ≤ free_cnt ar + 1)) as [Hfull|Hnot].
  - rewrite bool_decide_eq_true_2 by lia. rewrite (bind_ok _ _ _ _ h3 eq_refl).
    destruct (release_ok _ h3 _ a (set_free_cnt (free_cnt ar + 1) ar) i (set_free_list (b :: free_list d) d) Hi3)
      as (h' & E & Hi' & Ht' & Hold); [cbn; apply lookup_insert_eq|done| |cbn; lia|].
    { cbn. apply list_lookup_insert_eq. by eapply lookup_lt_Some. }
    cbn [blocks_per_arena set_free_list] in E. exists h'. split_and!; [done|done|tauto|]. intros a' b' sz' Hb' Hne Hb2.
    destruct (Hold a' b' sz') as [H1 H2]; [set_solver|by apply (same_shape_block h1)|]. split; [done|].
    intros y Hy. rewrite H2 by done. change (pa h3) with (pa h1). rewrite Hm1. by eapply Hmem.
  - exists h3. split_and!; [done|done| |].
    { intros Ht a' x j d' E1 E2 E3. right. destruct (Ht3 Ht a' x j d' E1 E2 E3) as [[= <-]|?]; [|done].
      apply (update_arena h1 i d a ar) in E1 as [[_ ->]|[? _]]; [|done]. cbn in E2.
      apply (descs_insert h1 _ _ _ _ _ Ed) in E3 as [[_ ->]|[? _]]; [cbn; lia|congruence]. }
    intros a' b' sz' Hb' Hne Hb2. split; [by apply (same_shape_block h1)|].
    intros y Hy. change (pa h3) with (pa h1). rewrite Hm1. by eapply Hmem.
Qed.

Lemma free_ok other h live b : heap_inv other h live → b ∈ live → freed other h live b (free b h).
Proof.
  intros Hi Hl. apply (hi_live _ _ _ Hi) in Hl as Hl'. destruct Hl' as (a & sz & Hba & _).
  destruct (block_in_arena _ _ _ _ _ _ Hi Hba) as (ar & Ea & _ & Hab & _). pose proof (arena_page _ _ _ _ _ Hi Ea) as (Hp & _).
  unfold free. rewrite decide_True by (unfold NULL, PHYS_BASE in *; lia).
  rewrite (bind_ok _ _ _ _ _ (block_to_arena_ok _ _ _ _ _ _ Hi Hba)), (bind_ok _ _ _ _ _ (rd_arena_ok _ _ _ Ea)).
  destruct Hba as (x & Ex & Hx). assert (x = ar) as -> by congruence. destruct (adesc ar) as [i|] eqn:Ei.
  - destruct Hx as (d & Ed & Hb & _). by eapply free_small_ok.
  - destruct Hx as [-> _]. by apply free_big_ok.
Qed.

(** ** calloc and realloc *)

Lemma arena_end other h live a ar :
  heap_inv other h live → arenas h !! a = Some ar → a + PGSIZE * Z.of_nat (npages ar) ≤ 2 ^ 32.
Proof.
  intros Hi Ea. pose proof (npages_pos _ _ _ _ _ Hi Ea) as Hn.
  assert (a + PGSIZE * Z.of_nat (npages ar - 1) ∈ held (pa h)) as Hp.
  { eapply arena_held; [done..|]. apply elem_of_pages. exists (npages ar - 1)%nat. split; [lia|done]. }
  apply (pa_held_page _ _ (hi_pa _ _ _ Hi)) in Hp as (_ & Hp & _). rewrite PGSIZE_eq in *. lia.
Qed.

Lemma block_mapped other h live a b sz : heap_inv other h live → block_at h a b sz → mapped (memory (pa h)) b sz ∧ 0 < b ∧ 0 < sz ∧ b + sz ≤ 2 ^ 32.
Proof.
  intros Hi Hb. destruct (block_in_arena _ _ _ _ _ _ Hi Hb) as (ar & Ea & _ & ? & ? & ?).
  pose proof (arena_page _ _ _ _ _ Hi Ea) as (Hp & _). unfold PHYS_BASE in Hp. pose proof (arena_end _ _ _ _ _ Hi Ea).
  split_and!; [|lia..]. intros y Hy. apply (arena_mapped _ _ _ _ _ Hi Ea). lia.
Qed.

Lemma size_of_block_ok other h live a b sz :
  heap_inv other h live → block_at h a b sz → size_of_block b h = Ok (sz, h).
Proof.
  intros Hi Hb. unfold size_of_block. rewrite (bind_ok _ _ _ _ _ (block_to_arena_ok _ _ _ _ _ _ Hi Hb)).
  destruct Hb as (ar & Ea & Hb). rewrite (bind_ok _ _ _ _ _ (rd_arena_ok _ _ _ Ea)).
  pose proof (arena_page _ _ _ _ _ Hi Ea) as Hp. pose proof (arena_end _ _ _ _ _ Hi Ea) as He. unfold npages in He.
  pose proof (hi_arena _ _ _ Hi _ _ Ea) as (_ & _ & Hc).
  destruct (adesc ar) as [i|].
  - destruct Hb as (d & Ed & _ & ->). by rewrite (bind_ok _ _ _ _ _ (rd_desc_ok _ _ _ Ed)).
  - destruct Hb as [-> ->]. destruct (offset_in_page a sizeof_arena Hp) as [_ ->]; [done..|]. destruct Hp as (Hp & _).
    unfold sizeof_arena, PHYS_BASE in *. rewrite PGSIZE_eq in *. rewrite wrapu_small by (unfold in_u; lia). done.
Qed.

(** Storing bytes in a block changes no other block. *)
Lemma store_in_block other h live a b sz bs :
  heap_inv other h live → block_at h a b sz → Z.of_nat (length bs) ≤ sz →
  let m := store b bs (memory (pa h)) in
  let h' := set_pa (set_memory m (pa h)) h in
  heap_inv other h' live ∧ memory (pa h') = m ∧
  ∀ a' b' sz' y, b' ≠ b → block_at h a' b' sz' → in_range y b' sz' → m !! y = memory (pa h) !! y.
Proof.
  intros Hi Hb Hl m h'. destruct (block_mapped _ _ _ _ _ _ Hi Hb) as (Hm & _). destruct (inv_mem _ _ _ m Hi) as [Hi' Hm'].
  { apply store_dom. intros y Hy. apply Hm. lia. }
  split_and!; [done..|]. intros a' b' sz' y Hne Hb' Hy. unfold m. rewrite store_lookup, decide_False; [done|].
  intros Hy'. apply Hne. apply (blocks_apart other h live a' b' sz' a b sz y); try done. unfold in_range. lia.
Qed.

(** The result of [calloc]. *)
Lemma calloc_ok other h live x y :
  heap_inv other h live → 0 ≤ x → 0 ≤ y → x * y + sizeof_arena + PGSIZE ≤ 2 ^ 32 →
  ∃ p h', calloc x y h = Ok (p, h') ∧ (tight h → tight h') ∧
    ((p = NULL ∧ heap_inv other h' live) ∨
     (p ≠ NULL ∧ p ∉ live ∧ heap_inv other h' ({[p]} ∪ live) ∧ (∃ a sz, block_at h' a p sz ∧ x * y ≤ sz) ∧
      (∀ z, in_range z p (x * y) → memory (pa h') !! z = Some 0))) ∧
    ∀ a' b' sz', b' ∈ live → block_at h a' b' sz' →
      block_at h' a' b' sz' ∧ ∀ z, in_range z b' sz' → memory (pa h') !! z = memory (pa h) !! z.
Proof.
  intros Hi Hx Hy Hs. unfold calloc, sizeof_arena in *. rewrite PGSIZE_eq in *. rewrite wrapu_small by (unfold in_u; nia).
  case_decide; [exists NULL, h; split_and!; [done|done|by left|done]|].
  destruct (malloc_ok other h live (x * y) Hi ltac:(nia)) as (p & h1 & E & Hm & Ht & Hold & Hcase); [unfold sizeof_arena; rewrite PGSIZE_eq; lia|].
  rewrite (bind_ok _ _ _ _ _ E). destruct Hcase as [[-> Hi1]|(Hp & Hn & Hi1 & a & sz & Hb & Hsz)].
  - rewrite decide_False by (intros Hz; by apply Hz). exists NULL, h1. split_and!; [done|done|by left|]. intros a' b' sz' _ Hba'. split; [by apply Hold|]. intros z _. by rewrite Hm.
  - rewrite decide_True by done. destruct (block_mapped _ _ _ _ _ _ Hi1 Hb) as (Hmap & Hp0 & _ & Hend).
    set (bs := replicate (Z.to_nat (x * y)) 0). assert (Z.of_nat (length bs) = x * y) as Hl by (unfold bs; rewrite length_replicate; nia).
    destruct (store_in_block _ _ _ _ _ _ bs Hi1 Hb ltac:(lia)) as (Hi2 & Hm2 & Hoth). set (h2 := set_pa _ h1) in *.
    exists p, h2. split_and!.
    + rewrite (bind_ok _ _ _ tt h2); [done|]. rewrite (bind_ok _ _ _ p h2); [done|]. apply on_mem_ok.
      rewrite <-(Z2Nat.id (x * y)) by nia. rewrite memset_ok; [done| |lia]. intros z Hz. apply Hmap. lia.
    + done.
    + right. split_and!; [done|done|done|by exists a, sz|]. intros z Hz.
      rewrite Hm2, store_lookup, decide_True by (unfold in_range in Hz; lia).
      unfold bs. apply lookup_replicate_2. unfold in_range in Hz. lia.
    + intros a' b' sz' Hb' Hba'. pose proof (Hold a' b' sz' Hba') as Hb1. split; [done|]. intros z Hz.
      rewrite Hm2, <-Hm. apply (Hoth a' b' sz' z); [by intros ->|done..].
Qed.

(** The result of [realloc] of the live block [old]. *)
Lemma realloc_ok other h live a old osz size :
  heap_inv other h live → old ∈ live → block_at h a old osz → 0 < size → size + sizeof_arena + PGSIZE ≤ 2 ^ 32 →
  ∃ p h', realloc old size h = Ok (p, h') ∧ (tight h → tight h') ∧
    ((p = NULL ∧ heap_inv other h' live ∧ memory (pa h') = memory (pa h)) ∨
     (p ≠ NULL ∧ p ∉ live ∧ heap_inv other h' ({[p]} ∪ live ∖ {[old]}) ∧ (∃ a sz, block_at h' a p sz ∧ size ≤ sz) ∧
      (∀ k, 0 ≤ k → k < Z.min size osz → memory (pa h') !! (p + k) = memory (pa h) !! (old + k)))) ∧
    ∀ a' b' sz', b' ∈ live → b' ≠ old ∨ p = NULL → block_at h a' b' sz' →
      block_at h' a' b' sz' ∧ ∀ z, in_range z b' sz' → memory (pa h') !! z = memory (pa h) !! z.
Proof.
  intros Hi Hold Hba H0 Hs. destruct (malloc_ok other h live size Hi ltac:(lia) Hs) as (p & h1 & E & Hm & Ht & Hkeep & Hcase).
  destruct (block_mapped _ _ _ _ _ _ Hi Hba) as (Hmap & Hpos & Hosz & _).
  unfold realloc. rewrite decide_False by lia. rewrite (bind_ok _ _ _ _ _ E).
  destruct Hcase as [[-> Hi1]|(Hp & Hn & Hi1 & a1 & sz & Hb & Hsz)].
  - rewrite decide_False by (intros [_ Hz]; by apply Hz). exists NULL, h1. split_and!; [done|done|by left|].
    intros a' b' sz' Hb' _ Hba'. split; [by apply Hkeep|intros z _; by rewrite Hm].
  - rewrite decide_True by (split; [unfold NULL; lia|done]). pose proof (Hkeep _ _ _ Hba) as Hba1.
    set (n := Z.min size osz).
    destruct (bytes_of_at (memory (pa h1)) old n) as [Hbs Hlen]; [lia|rewrite Hm; intros z Hz; apply Hmap; lia|].
    set (bs := bytes_of (memory (pa h1)) old n) in *.
    destruct (block_mapped _ _ _ _ _ _ Hi1 Hb) as (Hmap1 & Hp0 & _ & _).
    destruct (store_in_block _ _ _ _ _ _ bs Hi1 Hb ltac:(lia)) as (Hi2 & Hm2 & Hoth). set (h2 := set_pa _ h1) in *.
    assert (p ≠ old) as Hpo by (by intros ->).
    destruct (free_ok _ h2 _ old Hi2) as (h3 & Ef & Hi3 & Ht3 & Hkeep3); [set_solver|].
    exists p, h3. split_and!.
    + rewrite (bind_ok _ _ _ tt h3); [done|]. rewrite (bind_ok _ _ _ _ _ (size_of_block_ok _ _ _ _ _ _ Hi1 Hba1)).
      replace (if decide (size < osz) then size else osz) with n by (unfold n; case_decide; lia).
      rewrite (bind_ok _ _ _ p h2); [done|]. apply on_mem_ok. rewrite <-Hlen.
      apply memcpy_ok; [done| |done|unfold NULL; lia|].
      * intros z Hz. apply Hmap1. lia.
      * destruct (Z.le_gt_cases (p + n) old); [lia|]. destruct (Z.le_gt_cases (old + n) p); [lia|]. destruct Hpo.
        apply (blocks_apart _ _ _ a1 p sz a old osz (Z.max p old) Hi1 Hb Hba1); unfold in_range; lia.
    + intros Hth. apply Ht3. by apply Ht.
    + right. split_and!; [done|done| | |].
      * replace ({[p]} ∪ live ∖ {[old]}) with (({[p]} ∪ live) ∖ {[old]}); [done|set_solver].
      * exists a1, sz. split; [|done]. apply Hkeep3; [set_solver|done|done].
      * intros k Hk1 Hk2. destruct (Hkeep3 a1 p sz) as [_ H3]; [set_solver|done|done|].
        rewrite H3, Hm2, store_lookup, decide_True by (unfold in_range; lia). replace (p + k - p) with k by lia.
        unfold bs. rewrite bytes_of_lookup by (try done; intros z Hz; rewrite Hm; apply Hmap; lia). by rewrite Hm.
    + intros a' b' sz' Hb' [Hne|?] Hba'; [|done]. pose proof (Hkeep _ _ _ Hba') as Hb1.
      destruct (Hkeep3 a' b' sz') as [H1 H2]; [set_solver|done|done|]. split; [done|]. intros z Hz.
      rewrite H2, Hm2 by done. rewrite <-Hm. apply (Hoth a' b' sz' z); [by intros ->|done..].
Qed.

(** ** Programs that use the heap *)

(** [OpRealloc i] and [OpFree i] are on the [i]-th block in use. *)
Inductive heap_op := OpMalloc (size : Z) | OpCalloc (a b : Z) | OpRealloc (i : nat) (size : Z) | OpFree (i : nat).

(** A block in use and the size that was asked for. *)
Definition add_block (p size : Z) (live : list (Z * Z)) : list (Z * Z) :=
  if decide (p = NULL) then live else live ++ [(p, size)].

Definition run_heap_op (o : heap_op) (st : heap S * list (Z * Z)) : result (heap S * list (Z * Z)) :=
  let '(h, live) := st in
  match o with
  | OpMalloc size => '(p, h) ← malloc size h; Ok (h, add_block p size live)
  | OpCalloc a b => '(p, h) ← calloc a b h; Ok (h, add_block p (a * b) live)
  | OpRealloc i size =>
      match live !! i with
      | None => Ok (h, live)
      | Some (q, _) =>
          '(p, h) ← realloc q size h;
          Ok (h, if decide (size ≠ 0 ∧ p = NULL) then live else add_block p size (delete i live))
      end
  | OpFree i =>
      match live !! i with None => Ok (h, live) | Some (q, _) => '(_, h) ← free q h; Ok (h, delete i live) end
  end.

Fixpoint run_heap_ops (os : list heap_op) (st : heap S * list (Z * Z)) : result (heap S * list (Z * Z)) :=
  match os with [] => Ok st | o :: os => st ← run_heap_op o st; run_heap_ops os st end.

Definition heap_op_ok (o : heap_op) : Prop :=
  match o with
  | OpMalloc size | OpRealloc _ size => 0 ≤ size ∧ size ≤ 2 ^ 31
  | OpCalloc a b => 0 ≤ a ∧ 0 ≤ b ∧ a * b ≤ 2 ^ 31
  | OpFree _ => True
  end.

Record trace_inv other (st : heap S * list (Z * Z)) : Prop := {
  ti_inv : heap_inv other st.1 (list_to_set st.2.*1);
  ti_nodup : NoDup st.2.*1;
  ti_tight : tight st.1;
  ti_size : Forall (λ b, ∃ a sz, block_at st.1 a b.1 sz ∧ b.2 ≤ sz) st.2
}.

Lemma trace_add other h h' (live : list (Z * Z)) p size :
  trace_inv other (h, live) → tight h' → (∀ a b sz, b ∈ live.*1 → block_at h a b sz → block_at h' a b sz) →
  ((p = NULL ∧ heap_inv other h' (list_to_set live.*1)) ∨
   (p ≠ NULL ∧ p ∉ (list_to_set live.*1 : gset Z) ∧ heap_inv other h' ({[p]} ∪ list_to_set live.*1) ∧ ∃ a sz, block_at h' a p sz ∧ size ≤ sz)) →
  trace_inv other (h', add_block p size live).
Proof.
  intros [Hi Hn Ht Hs] Ht' Hkeep Hcase. cbn in *. unfold add_block.
  assert (Forall (λ b, ∃ a sz, block_at h' a b.1 sz ∧ b.2 ≤ sz) live) as Hs'.
  { apply Forall_forall. intros b Hb. rewrite Forall_forall in Hs. destruct (Hs b Hb) as (a & sz & Hba & Hle). exists a, sz.
    split; [|done]. apply Hkeep; [|done]. by apply list_elem_of_fmap_2. }
  destruct Hcase as [[-> Hi']|(Hp & Hnl & Hi' & Hb)].
  - rewrite decide_True by done. by constructor.
  - rewrite decide_False by done. constructor; cbn; rewrite ?fmap_app; cbn.
    + rewrite list_to_set_app_L. cbn. rewrite union_empty_r_L, (union_comm_L (list_to_set _)). done.
    + apply NoDup_app. split_and!; [done| |apply NoDup_singleton]. intros b Hb' ->%list_elem_of_singleton.
      apply Hnl. by apply elem_of_list_to_set.
    + done.
    + apply Forall_app. split; [done|]. by constructor.
Qed.

Lemma delete_fst (live : list (Z * Z)) i q req :
  live !! i = Some (q, req) → NoDup live.*1 →
  list_to_set (delete i live).*1 = (list_to_set live.*1 : gset Z) ∖ {[q]} ∧ NoDup (delete i live).*1 ∧ q ∈ live.*1.
Proof.
  intros E Hn. assert (live.*1 ≡ₚ q :: (delete i live).*1) as Hp by (by rewrite (delete_Permutation live i _ E) at 1).
  assert (∀ b, b ∈ live.*1 ↔ b = q ∨ b ∈ (delete i live).*1) as Hel by (intros b; rewrite Hp; apply elem_of_cons).
  rewrite Hp in Hn. apply NoDup_cons in Hn as [Hq Hn]. split_and!; [|done|apply Hel; by left].
  apply set_eq. intros b. rewrite elem_of_difference, elem_of_singleton, !elem_of_list_to_set, Hel.
  split; [|tauto]. intros Hb. split; [by right|]. by intros ->.
Qed.

(** A live block leaves; the others stay. *)
Lemma trace_drop other h h' (live : list (Z * Z)) i q req :
  trace_inv other (h, live) → live !! i = Some (q, req) → tight h' →
  (∀ a b sz, b ∈ live.*1 → b ≠ q → block_at h a b sz → block_at h' a b sz) →
  heap_inv other h' (list_to_set live.*1 ∖ {[q]}) →
  trace_inv other (h', delete i live).
Proof.
  intros [Hi Hn Ht Hs] E Ht' Hkeep Hi'. cbn in *. destruct (delete_fst live i q req E Hn) as (Hd & Hn' & Hq).
  constructor; cbn; [by rewrite Hd|done|done|]. apply Forall_forall. intros b Hb.
  assert (b.1 ∈ (delete i live).*1) as Hb1 by (by apply list_elem_of_fmap_2).
  assert (b.1 ∈ (list_to_set live.*1 : gset Z) ∖ {[q]}) as Hb2 by (rewrite <-Hd; by apply elem_of_list_to_set).
  apply elem_of_difference in Hb2 as [Hb2 Hbq]. rewrite Forall_forall in Hs.
  destruct (Hs b) as (a & sz & Hba & Hle); [rewrite (delete_Permutation live i _ E); by right|].
  exists a, sz. split; [|done]. apply Hkeep; [set_solver|set_solver|done].
Qed.

Lemma trace_realloc other h h' (live : list (Z * Z)) i q req p size :
  trace_inv other (h, live) → live !! i = Some (q, req) → (tight h → tight h') → p ≠ NULL → p ∉ (list_to_set live.*1 : gset Z) →
  heap_inv other h' ({[p]} ∪ list_to_set live.*1 ∖ {[q]}) → (∃ a sz, block_at h' a p sz ∧ size ≤ sz) →
  (∀ a b sz, b ∈ (list_to_set live.*1 : gset Z) → b ≠ q ∨ p = NULL → block_at h a b sz →
    block_at h' a b sz ∧ ∀ z, in_range z b sz → memory (pa h') !! z = memory (pa h) !! z) →
  trace_inv other (h', add_block p size (delete i live)).
Proof.
  intros [Hi Hn Ht Hs] E Ht' Hp Hpl Hi' Hpb Hkeep. cbn in *. destruct (delete_fst live i q req E Hn) as (Hd & Hnd & Hq).
  unfold add_block. rewrite decide_False by done. constructor; cbn; rewrite ?fmap_app; cbn.
  - rewrite list_to_set_app_L, Hd. cbn. rewrite union_empty_r_L, (union_comm_L (_ ∖ _)). done.
  - apply NoDup_app. split_and!; [done| |apply NoDup_singleton]. intros b Hb ->%list_elem_of_singleton.
    apply Hpl. apply (elem_of_list_to_set (C := gset Z)) in Hb. rewrite Hd in Hb. by apply elem_of_difference in Hb as [? _].
  - auto.
  - apply Forall_app. split; [|by constructor]. apply Forall_forall. intros b Hb.
    assert (b.1 ∈ (list_to_set live.*1 : gset Z) ∖ {[q]}) as [Hb1 Hbq]%elem_of_difference.
    { rewrite <-Hd. apply elem_of_list_to_set. by apply list_elem_of_fmap_2. }
    rewrite Forall_forall in Hs. destruct (Hs b) as (a & sz & Hba & Hle); [rewrite (delete_Permutation live i _ E); by right|].
    exists a, sz. split; [|done]. apply Hkeep; [done|left; set_solver|done].
Qed.

Lemma heap_op_inv other o st : trace_inv other st → heap_op_ok o → ∃ st', run_heap_op o st = Ok st' ∧ trace_inv other st'.
Proof.
  destruct st as [h live]. intros Hti Ho. pose proof Hti as [Hi Hn Ht Hs]. cbn in Hi, Hn, Ht, Hs.
  assert (∀ q, q ∈ live.*1 → q ∈ (list_to_set live.*1 : gset Z)) as Hin by (intros q; by rewrite elem_of_list_to_set).
  assert (∀ size, size ≤ 2 ^ 31 → size + sizeof_arena + PGSIZE ≤ 2 ^ 32) as Hsz
    by (intros; unfold sizeof_arena; rewrite PGSIZE_eq; lia).
  destruct o as [size|x y|i size|i]; cbn [run_heap_op heap_op_ok] in *.
  - destruct Ho as [H0 H1]. destruct (malloc_ok _ _ _ size Hi H0 (Hsz _ H1)) as (p & h' & E & _ & Ht' & Hkeep & Hcase).
    rewrite E. eexists. split; [reflexivity|]. apply (trace_add other h); [done|by apply Ht'|by eauto|done].
  - destruct Ho as (H0 & H1 & H2). destruct (calloc_ok _ _ _ x y Hi H0 H1 (Hsz _ H2)) as (p & h' & E & Ht' & Hcase & Hkeep).
    rewrite E. eexists. split; [reflexivity|]. apply (trace_add other h); [done|by apply Ht'| |].
    + intros a b sz Hb Hba. by apply Hkeep; [apply Hin|].
    + destruct Hcase as [?|(? & ? & ? & ? & _)]; [by left|by right].
  - destruct (live !! i) as [[q req]|] eqn:E; [|by eexists]. destruct (delete_fst _ _ _ _ E Hn) as (Hd & Hnd & Hq).
    destruct (proj1 (Forall_forall _ _) Hs _ (list_elem_of_lookup_2 _ _ _ E)) as (a & osz & Hba & _). cbn in Hba.
    destruct (decide (size = 0)) as [->|Hnz].
    + destruct (free_ok _ _ _ q Hi (Hin q Hq)) as (h' & Ef & Hi' & Ht' & Hkeep).
      assert (realloc q 0 h = Ok (NULL, h')) as -> by (unfold realloc; rewrite decide_True by done; by rewrite (bind_ok _ _ _ _ _ Ef)).
      eexists. split; [reflexivity|]. rewrite decide_False by lia. unfold add_block. rewrite decide_True by done.
      eapply (trace_drop other h); [done..|by apply Ht'| |done]. intros a' b sz Hb Hne Hba'. by apply Hkeep; [apply Hin|..].
    + destruct (realloc_ok _ _ _ a q osz size Hi (Hin q Hq) Hba ltac:(lia) (Hsz size ltac:(lia))) as (p & h' & Er & Ht' & Hcase & Hkeep).
      rewrite Er. eexists. split; [reflexivity|]. destruct Hcase as [(-> & Hi' & _)|(Hp & Hpl & Hi' & Hpb & _)].
      * rewrite decide_True by done. apply (trace_add other h h' live NULL 0) in Hti; [done|by apply Ht'| |by left].
        intros a' b sz Hb Hba'. by apply Hkeep; [apply Hin|right|].
      * rewrite decide_False by tauto. by apply (trace_realloc other h h' live i q req p size).
  - destruct (live !! i) as [[q req]|] eqn:E; [|by eexists]. destruct (delete_fst _ _ _ _ E Hn) as (Hd & _ & Hq).
    destruct (free_ok _ _ _ q Hi (Hin q Hq)) as (h' & Ef & Hi' & Ht' & Hkeep). rewrite Ef. eexists. split; [reflexivity|].
    eapply (trace_drop other h); [done..|by apply Ht'| |done]. intros a b sz Hb Hne Hba. by apply Hkeep; [apply Hin|..].
Qed.

(** The heap that [malloc_init] sets up. *)
Lemma malloc_init_inv s ds :
  pa_wf s → malloc_init = Ok ds → trace_inv (held s) (Heap s ds ∅, []).
Proof.
  intros Hs E. destruct malloc_init_ok as (ds' & E' & Hd & Hf & _). assert (ds' = ds) as -> by congruence.
  rewrite Forall_forall in Hf. constructor; cbn; [|constructor|by intros a ar i d [=]|constructor].
  constructor; cbn; try done.
  - intros p. split; [by left|]. by intros [?|(a & ar & [=] & _)].
  - intros i d Ei. rewrite (Hf d) by (by eapply list_elem_of_lookup_2). constructor.
  - intros i d b Ei Hb. rewrite (Hf d) in Hb by (by eapply list_elem_of_lookup_2). by apply elem_of_nil in Hb.
  - intros b. split; [set_solver|]. by intros (a & sz & (ar & [=] & _) & _).
Qed.

Lemma trace_run other os st : Forall heap_op_ok os → trace_inv other st → ∃ st', run_heap_ops os st = Ok st' ∧ trace_inv other st'.
Proof.
  intros Ho. revert st. induction Ho as [|o os Ho _ IH]; intros st Hi; [by exists st|]. cbn.
  destruct (heap_op_inv _ _ _ Hi Ho) as (st1 & -> & Hi1). apply (IH st1 Hi1).
Qed.

(** When nothing is in use, every page has been given back. *)
Lemma trace_empty other h : trace_inv other (h, []) → held (pa h) = other.
Proof.
  intros [Hi _ Ht _]. cbn in *. apply set_eq. intros p. rewrite (hi_held _ _ _ Hi). split; [|by left].
  intros [?|(a & ar & Ea & _)]; [done|exfalso]. pose proof (hi_arena _ _ _ Hi _ _ Ea) as (_ & _ & Hx).
  destruct (adesc ar) as [i|] eqn:Ei.
  - destruct Hx as [d Ed]. destruct (Ht a ar i d Ea Ei Ed) as [?|Hlt]; [done|].
    assert (arena_blocks d a ⊆ free_list d) as Hsub.
    { intros b Hb. destruct (decide (b ∈ free_list d)) as [|Hnb]; [done|exfalso].
      assert (b ∈ (∅ : gset Z)) as H; [|set_solver]. apply (hi_live _ _ _ Hi). exists a, (block_size d).
      split; [exists ar; rewrite Ei; eauto|]. intros j d' Ed'. destruct (decide (j = i)) as [->|]; [by assert (d' = d) as -> by congruence|].
      by eapply (block_other_list _ h _ i d a ar). }
    rewrite (hi_count _ _ _ Hi a ar i d Ea Ei Ed) in Hlt. pose proof (desc_room d (desc_at _ _ _ _ _ Hi Ed)).
    assert (length (arena_blocks d a) ≤ length (filter (.∈ arena_blocks d a) (free_list d)))%nat as Hle.
    { apply submseteq_length, NoDup_submseteq; [apply arena_blocks_nodup; by eapply desc_at|].
      intros b Hb. apply list_elem_of_filter. auto. }
    rewrite arena_blocks_length in Hle. lia.
  - assert (a + sizeof_arena ∈ (∅ : gset Z)) as H; [|set_solver]. apply (hi_live _ _ _ Hi).
    exists a, (PGSIZE * free_cnt ar - sizeof_arena). split; [exists ar; by rewrite Ei|]. intros j d' Ed' Hb.
    destruct (free_block _ _ _ _ _ _ Hi Ed' Hb) as (a' & ar' & Ea' & Ei' & _ & Hb').
    assert (block_at h a (a + sizeof_arena) (PGSIZE * free_cnt ar - sizeof_arena)) as Hb2 by (exists ar; by rewrite Ei).
    destruct (block_at_fun _ _ _ _ _ _ _ _ Hi Hb' Hb2) as [-> _]. congruence.
Qed.

End inv.

(** C35. Over any page allocator that keeps its promises, from the heap that
    [malloc_init] sets up, any sequence of [malloc], [calloc], [realloc] and
    [free] calls on blocks in use, in which no size and no product of the two
    arguments of [calloc] is above [2^31], succeeds: no assertion fails and no
    access is bad.  Blocks in use do not overlap and their bytes are mapped; when all
    have been freed, every page is back with the page allocator. *)
Theorem malloc_safe {S : Type} {PA : PageAllocator S} {PL : PageAllocatorLaws S} (s : S) ds os :
  pa_wf s → malloc_init = Ok ds → Forall heap_op_ok os →
  ∃ h live, run_heap_ops os (Heap s ds ∅, []) = Ok (h, live) ∧
    (∀ i j b b' n n' y, live !! i = Some (b, n) → live !! j = Some (b', n') → i ≠ j →
      in_range y b n → ¬ in_range y b' n') ∧
    (∀ i b n, live !! i = Some (b, n) → mapped (memory (pa h)) b n) ∧
    (live = [] → held (pa h) = held s).
Proof.
  intros Hs E Ho. destruct (trace_run (held s) os _ Ho (malloc_init_inv s ds Hs E)) as ([h live] & Er & Hi).
  exists h, live. split; [done|]. pose proof Hi as [Hh Hn _ Hsz]. cbn in Hh, Hn, Hsz. rewrite Forall_forall in Hsz. split_and!.
  - intros i j b b' n n' y Ei Ej Hne Hy Hy'. apply Hne. apply (NoDup_lookup live.*1 i j b Hn); rewrite list_lookup_fmap.
    + by rewrite Ei.
    + rewrite Ej. cbn. f_equal. destruct (Hsz _ (list_elem_of_lookup_2 _ _ _ Ei)) as (a & sz & Hb & Hle).
      destruct (Hsz _ (list_elem_of_lookup_2 _ _ _ Ej)) as (a' & sz' & Hb' & Hle'). cbn in *. symmetry.
      apply (blocks_apart _ _ _ a b sz a' b' sz' y Hh Hb Hb'); unfold in_range in *; lia.
  - intros i b n Ei. destruct (Hsz _ (list_elem_of_lookup_2 _ _ _ Ei)) as (a & sz & Hb & Hle). cbn in *.
    destruct (block_mapped _ _ _ _ _ _ Hh Hb) as (Hm & _). intros y Hy. apply Hm. lia.
  - intros ->. by apply (trace_empty (held s) h).
Qed.

(** ** A heap over the page allocator of the kernel *)

Definition example_heap_ops : list heap_op :=
  [OpMalloc 100; OpCalloc 10 20; OpMalloc 5000; OpRealloc 0 300; OpFree 1; OpFree 0; OpFree 0].

Lemma example_machine : machine 264 1000 (replicate 300 0) (replicate 300 0) (zero_memory (PHYS_BASE + 2 ^ 20) 32768).
Proof.
  constructor; [lia|lia|..].
  - split; [by apply Forall_replicate|done].
  - split; [by apply Forall_replicate|done].
  - apply zero_memory_mapped.
Qed.

Lemma malloc_safe_witness :
  ∃ (s : palloc) ds h live,
    palloc_init 264 1000 (replicate 300 0) (replicate 300 0) (zero_memory (PHYS_BASE + 2 ^ 20) 32768) = Ok s ∧
    malloc_init = Ok ds ∧ run_heap_ops example_heap_ops (Heap s ds ∅, []) = Ok (h, live) ∧
    (live = [] → held (pa h) = held s).
Proof.
  destruct (palloc_init_ok _ _ _ _ _ example_machine) as (s & Es & Hs & _).
  destruct malloc_init_ok as (ds & Ed & _).
  destruct (malloc_safe (PA := palloc_allocator) s ds example_heap_ops Hs Ed) as (h & live & Er & _ & _ & Hf).
  - repeat constructor; cbn; lia.
  - exists s, ds, h, live. exact (conj Es (conj Ed (conj Er Hf))).
Defined.

(** [realloc] of a block in use to a size that is not zero either finds no
    room, and then the block is still in use with its bytes, or returns a new
    block of at least that size that starts with the bytes of the old one, as
    many as fit; the blocks of others keep their bytes. *)
Theorem realloc_keeps_data {S : Type} {PA : PageAllocator S} {PL : PageAllocatorLaws S}
    other (h : heap S) live a old osz size :
  heap_inv other h live → old ∈ live → block_at h a old osz → 0 < size → size + sizeof_arena + PGSIZE ≤ 2 ^ 32 →
  ∃ p h', realloc old size h = Ok (p, h') ∧
    ((p = NULL ∧ heap_inv other h' live ∧ memory (pa h') = memory (pa h)) ∨
     (heap_inv other h' ({[p]} ∪ live ∖ {[old]}) ∧ (∃ a sz, block_at h' a p sz ∧ size ≤ sz) ∧
      ∀ k, 0 ≤ k → k < Z.min size osz → memory (pa h') !! (p + k) = memory (pa h) !! (old + k))) ∧
    ∀ a' b' sz', b' ∈ live → b' ≠ old → block_at h a' b' sz' →
      ∀ z, in_range z b' sz' → memory (pa h') !! z = memory (pa h) !! z.
Proof.
  intros Hi Ho Hb H0 Hs. destruct (realloc_ok _ _ _ _ _ _ _ Hi Ho Hb H0 Hs) as (p & h' & E & _ & Hcase & Hkeep).
  exists p, h'. split_and!; [done| |].
  - destruct Hcase as [?|(_ & _ & ? & ? & ?)]; [by left|by right].
  - intros a' b' sz' Hb' Hne Hba. apply (Hkeep a' b' sz' Hb' (or_introl Hne) Hba).
Qed.

(** The first block that [malloc] hands out on the example machine. *)
Definition example_malloc (m : mem) : option (Z * heap palloc) :=
  match palloc_init 264 1000 (replicate 300 0) (replicate 300 0) m, malloc_init with
  | Ok s, Ok ds => match malloc 40 (Heap s ds ∅) with Ok r => Some r | Err _ => None end
  | _, _ => None
  end.

Lemma example_malloc_found m :
  match example_malloc m with Some (p, _) => bool_decide (p ≠ NULL) | None => false end = true.
Proof. vm_compute. reflexivity. Qed.

Lemma example_malloc_block :
  ∃ p h a sz, example_malloc (zero_memory (PHYS_BASE + 2 ^ 20) 32768) = Some (p, h) ∧ heap_inv ∅ h {[p]} ∧ block_at h a p sz ∧ 40 ≤ sz.
Proof.
  pose proof (example_malloc_found (zero_memory (PHYS_BASE + 2 ^ 20) 32768)) as Hne. unfold example_malloc in *. destruct (palloc_init_ok _ _ _ _ _ example_machine) as (s & Es & Hs & Hh & _).
  destruct malloc_init_ok as (ds & Ed & _). rewrite Es, Ed in *.
  pose proof (malloc_init_inv (PA := palloc_allocator) s ds Hs Ed) as [Hi _ _ _]. cbn in Hi. rewrite Hh in Hi.
  destruct (malloc_ok _ _ _ 40 Hi ltac:(lia)) as (p & h & E & _ & _ & _ & Hcase); [unfold sizeof_arena; rewrite PGSIZE_eq; lia|].
  rewrite E in *. apply bool_decide_eq_true in Hne. clear Es Ed E.
  destruct Hcase as [[Hp _]|(_ & _ & Hi' & a & sz & Hb & Hle)]; [by destruct Hne|]. exists p, h, a, sz.
  rewrite union_empty_r_L in Hi'. by split_and!.
Qed.

Lemma realloc_keeps_data_witness :
  ∃ p0 (h : heap palloc) p h', example_malloc (zero_memory (PHYS_BASE + 2 ^ 20) 32768) = Some (p0, h) ∧ realloc p0 3000 h = Ok (p, h') ∧
    (p ≠ NULL → ∀ k, 0 ≤ k → k < 40 → memory (pa h') !! (p + k) = memory (pa h) !! (p0 + k)).
Proof.
  destruct example_malloc_block as (p0 & h & a & sz & E & Hi & Hb & Hsz).
  destruct (realloc_keeps_data ∅ h {[p0]} a p0 sz 3000 Hi (proj2 (elem_of_singleton p0 p0) eq_refl) Hb eq_refl) as (p & h' & Er & Hcase & _).
  { unfold sizeof_arena. rewrite PGSIZE_eq. lia. }
  exists p0, h, p, h'. split; [exact E|]. split; [exact Er|]. intros Hp k H1 H2. clear E Er.
  destruct Hcase as [[Hz _]|(_ & _ & Hd)]; [by destruct Hp|]. apply Hd; lia.
Defined.

(** ** Sizes that overflow *)

(** [calloc] checks the product against each factor only: a product that wraps
    to something larger than both goes undetected.  Here 131073 bytes are
    allocated for 65537 times 65537. *)
Lemma calloc_overflow {S : Type} {PA : PageAllocator S} (h : heap S) : calloc 65537 65537 h = calloc 1 131073 h.
Proof. done. Qed.

(** The sum of the size of a big block and of its header wraps: one page is
    allocated for a block of 2^32 - 1 bytes. *)
Lemma malloc_big_overflow {S : Type} {PA : PageAllocator S} (h : heap S) : malloc_big (2 ^ 32 - 1) h = malloc_big 1 h.
Proof. done. Qed.
