(* ===== verification/PageDir.v ===== *)
(** * Page directories

    userprog/pagedir.c, over any page allocator.  A page directory or page table
    is a page of 1024 words; the words are read and written in the memory of the
    allocator, at kernel virtual addresses.  [cr3] is the register with the
    physical address of the active directory, [tlb] the translations that the
    processor has cached: page numbers with the entry that was read; loading
    [cr3] empties it. *)

From S2P Require Import Prelude Vaddr CString Bitmap Palloc.

(** ** Words of memory *)

Definition word (m : mem) (a : Z) : option Z :=
  match m !! a, m !! (a + 1), m !! (a + 2), m !! (a + 3) with
  | Some b0, Some b1, Some b2, Some b3 => Some (le_value [b0; b1; b2; b3])
  | _, _, _, _ => None
  end.

Section pagedir.
  Context {S : Type} {PA : PageAllocator S}.

Record mmu := Mmu { pool_of : S; init_page_dir : Z; init_ram_pages : Z; cr3 : Z; tlb : gmap Z Z }.

Definition set_pool (p : S) (s : mmu) : mmu := Mmu p (init_page_dir s) (init_ram_pages s) (cr3 s) (tlb s).

Definition on_pool {A} (m : M S A) : M mmu A := zoom pool_of set_pool m.
Definition on_memory {A} (m : M mem A) : M mmu A := on_pool (zoom memory set_memory m).

Definition rd32 (a : Z) : M mmu Z := λ s,
  match word (memory (pool_of s)) a with Some v => Ok (v, s) | None => Err BadAccess end.
Definition wr32 (a v : Z) : M mmu unit := λ s,
  match word (memory (pool_of s)) a with
  | Some _ => Ok (tt, set_pool (set_memory (store a (le_bytes 4 v) (memory (pool_of s))) (pool_of s)) s)
  | None => Err BadAccess
  end.

Definition get_page (flags : Z) : M mmu Z := on_pool (pa_get flags 1).
Definition free_page (p : Z) : M mmu unit := on_pool (pa_free p 1).

(** ** userprog/pagedir.c *)

Definition pagedir_create : M mmu Z :=
  pd ← get_page 0;
  src ← gets init_page_dir;
  (if decide (pd ≠ NULL) then on_memory (memcpy pd src PGSIZE);; mret tt else mret tt);;
  mret pd.

(** The loop over the entries of a page table, [n] entries from [pte] on. *)
Fixpoint destroy_entries (n : nat) (pte : Z) : M mmu unit :=
  match n with
  | O => mret tt
  | Datatypes.S n =>
      e ← rd32 pte;
      (if decide (Z.land e PTE_P ≠ 0) then page ← lift (pte_get_page e); free_page page else mret tt);;
      destroy_entries n (pte + 4)
  end.

(** The loop over the entries of the directory. *)
Fixpoint destroy_tables (n : nat) (pde : Z) : M mmu unit :=
  match n with
  | O => mret tt
  | Datatypes.S n =>
      e ← rd32 pde;
      (if decide (Z.land e PTE_P ≠ 0) then
         pt ← lift (pde_get_pt e); destroy_entries (Z.to_nat (PGSIZE / 4)) pt;; free_page pt
       else mret tt);;
      destroy_tables n (pde + 4)
  end.

Definition pagedir_destroy (pd : Z) : M mmu unit :=
  if decide (pd = NULL) then mret tt else
  init ← gets init_page_dir;
  assert (bool_decide (pd ≠ init));;
  destroy_tables (Z.to_nat (pd_no PHYS_BASE)) pd;;
  free_page pd.

(** The address of the entry, or null. *)
Definition lookup_page (pd vaddr : Z) (create : bool) : M mmu Z :=
  assert (bool_decide (pd ≠ NULL));;
  assert (negb create || is_user_vaddr vaddr);;
  let pde := pd + 4 * pd_no vaddr in
  e ← rd32 pde;
  ok ← (if decide (e = 0) then
          if create then
            pt ← get_page PAL_ZERO;
            if decide (pt = NULL) then mret false else v ← lift (pde_create pt); wr32 pde v;; mret true
          else mret false
        else mret true);
  if (ok : bool) then e ← rd32 pde; pt ← lift (pde_get_pt e); mret (pt + 4 * pt_no vaddr) else mret NULL.

Definition pagedir_set_page (pd upage kpage : Z) (writable : bool) : M mmu bool :=
  assert (bool_decide (pg_ofs upage = 0));;
  assert (bool_decide (pg_ofs kpage = 0));;
  assert (is_user_vaddr upage);;
  n ← gets init_ram_pages;
  p ← lift (vtop kpage);
  assert (bool_decide (Z.shiftr p PTSHIFT < n));;
  init ← gets init_page_dir;
  assert (bool_decide (pd ≠ init));;
  pte ← lookup_page pd upage true;
  if decide (pte ≠ NULL) then
    e ← rd32 pte;
    assert (bool_decide (Z.land e PTE_P = 0));;
    v ← lift (pte_create_user kpage writable);
    wr32 pte v;;
    mret true
  else mret false.

Definition pagedir_get_page (pd uaddr : Z) : M mmu Z :=
  assert (is_user_vaddr uaddr);;
  pte ← lookup_page pd uaddr false;
  if decide (pte = NULL) then mret NULL else
  e ← rd32 pte;
  if decide (Z.land e PTE_P ≠ 0) then page ← lift (pte_get_page e); mret (u32 (page + pg_ofs uaddr)) else mret NULL.

Definition utok (pd uaddr : Z) : M mmu Z :=
  assert (bool_decide (pd ≠ NULL));; assert (is_user_vaddr uaddr);; pagedir_get_page pd uaddr.

Definition ktou (kaddr uaddr : Z) : M mmu Z :=
  assert (is_kernel_vaddr kaddr);; mret (u32 (pg_round_down uaddr + pg_ofs kaddr)).

Definition is_user_page_present (pd uaddr : Z) (check_writable : bool) : M mmu bool :=
  assert (bool_decide (pd ≠ NULL));;
  assert (is_user_vaddr uaddr);;
  pte ← lookup_page pd uaddr false;
  if decide (pte = NULL) then mret false else
  e ← rd32 pte;
  if decide (Z.land e PTE_P ≠ 0) then
    if check_writable then mret (bool_decide (Z.land e PTE_W ≠ 0)) else mret true
  else mret false.

Definition pagedir_activate (pd : Z) : M mmu unit :=
  init ← gets init_page_dir;
  let pd := if decide (pd = NULL) then init else pd in
  p ← lift (vtop pd);
  modify (λ s, Mmu (pool_of s) (init_page_dir s) (init_ram_pages s) p ∅).

Definition active_pd : M mmu Z := p ← gets cr3; lift (ptov p).

Definition invalidate_pagedir (pd : Z) : M mmu unit :=
  active ← active_pd; if decide (active = pd) then pagedir_activate pd else mret tt.

Definition pagedir_clear_page (pd upage : Z) : M mmu unit :=
  assert (bool_decide (pg_ofs upage = 0));;
  assert (is_user_vaddr upage);;
  pte ← lookup_page pd upage false;
  if decide (pte = NULL) then mret tt else
  e ← rd32 pte;
  if decide (Z.land e PTE_P ≠ 0) then wr32 pte (Z.land e (not32 PTE_P));; invalidate_pagedir pd else mret tt.

(** A test of a flag of the entry for a page. *)
Definition test_flag (flag pd vpage : Z) : M mmu bool :=
  pte ← lookup_page pd vpage false;
  if decide (pte = NULL) then mret false else e ← rd32 pte; mret (bool_decide (Z.land e flag ≠ 0)).

(** Setting or clearing a flag. *)
Definition set_flag (flag pd vpage : Z) (b : bool) : M mmu unit :=
  pte ← lookup_page pd vpage false;
  if decide (pte = NULL) then mret tt else
  e ← rd32 pte;
  if b then wr32 pte (Z.lor e flag) else wr32 pte (Z.land e (not32 flag));; invalidate_pagedir pd.

Definition pagedir_is_dirty : Z → Z → M mmu bool := test_flag PTE_D.
Definition pagedir_set_dirty : Z → Z → bool → M mmu unit := set_flag PTE_D.
Definition pagedir_is_accessed : Z → Z → M mmu bool := test_flag PTE_A.
Definition pagedir_set_accessed : Z → Z → bool → M mmu unit := set_flag PTE_A.

(** ** The processor

    The translation of a user address: the cached entry if there is one that
    allows the access, else a walk over the directory that [cr3] names, which
    sets the accessed and dirty flags and caches the entry.  A write through an
    entry cached without the dirty flag walks again to set the flag in memory.
    Physical memory is seen at [PHYS_BASE]. *)

Definition user_ok (write : bool) (e : Z) : bool :=
  bool_decide (Z.land e PTE_P ≠ 0) && bool_decide (Z.land e PTE_U ≠ 0) &&
  (negb write || bool_decide (Z.land e PTE_W ≠ 0)).

Definition used (write : bool) (e : Z) : Z := Z.lor e (if write then Z.lor PTE_A PTE_D else PTE_A).

Definition walk (write : bool) (va : Z) : M mmu (option Z) :=
  root ← gets cr3;
  let pde := root + PHYS_BASE + 4 * pd_no va in
  d ← rd32 pde;
  if user_ok write d then
    wr32 pde (Z.lor d PTE_A);;
    let pte := Z.land d PTE_ADDR + PHYS_BASE + 4 * pt_no va in
    e ← rd32 pte;
    if user_ok write e then
      wr32 pte (used write e);;
      modify (λ s, Mmu (pool_of s) (init_page_dir s) (init_ram_pages s) (cr3 s) (<[pg_no va := used write e]> (tlb s)));;
      mret (Some (used write e))
    else mret None
  else mret None.

(** The physical address, or a page fault. *)
Definition translate (write : bool) (va : Z) : M mmu (option Z) :=
  t ← gets tlb;
  e ← match t !! pg_no va with
      | Some e =>
          if user_ok write e then
            if negb write || bool_decide (Z.land e PTE_D ≠ 0) then mret (Some e) else walk write va
          else mret None
      | None => walk write va
      end;
  mret ((λ e, Z.land e PTE_ADDR + pg_ofs va) <$> e).

Definition user_read (va : Z) : M mmu (option Z) :=
  p ← translate false va;
  match p with Some p => b ← on_memory (rd8 (p + PHYS_BASE)); mret (Some b) | None => mret None end.

Definition user_write (va b : Z) : M mmu bool :=
  p ← translate true va;
  match p with Some p => on_memory (wr8 (p + PHYS_BASE) b);; mret true | None => mret false end.

(** An entry may leave the cache at any time. *)
Definition evict (n : Z) : M mmu unit :=
  modify (λ s, Mmu (pool_of s) (init_page_dir s) (init_ram_pages s) (cr3 s) (delete n (tlb s))).

End pagedir.
Arguments mmu : clear implicits.
