(* ===== verification/PageDirSpec.v ===== *)
(** * Address spaces as their users see them

    An abstract machine for userprog/pagedir.c and the memory accesses of user
    programs: page directories are maps from page numbers to entries, without
    page tables in memory and without a cache of translations.  The pages of a
    client are loose, or mapped at one page of one directory. *)

From S2P Require Import Prelude Vaddr CString Bitmap Palloc PageDir.

(** ** Entries *)

Definition present (e : Z) : Prop := Z.land e PTE_P ≠ 0.
#[global] Instance present_dec e : Decision (present e).
Proof. unfold present. apply _. Defined.

(** The kernel address of the frame of an entry. *)
Definition frame (e : Z) : Z := Z.land e PTE_ADDR + PHYS_BASE.

Definition new_entry (kpage : Z) (writable : bool) : Z :=
  Z.lor (Z.lor (Z.lor (kpage - PHYS_BASE) PTE_P) (if writable then PTE_W else 0)) PTE_U.

(** ** States *)

(** The entries of a directory, by page number; entries that are missing are
    zero.  [tables] are the groups of 1024 pages that have entries at all. *)
Record space := Space { entries : gmap Z Z; tables : gset Z }.

Record vm := Vm { spaces : gmap Z space; loose : gset Z; bytes : mem; active : Z }.

Definition entry (sp : space) (n : Z) : option Z :=
  if decide (n / 1024 ∈ tables sp) then Some (default 0 (entries sp !! n)) else None.

(** The entry for an address, if it is present. *)
Definition mapping (sp : space) (va : Z) : option Z :=
  e ← entry sp (pg_no va); if decide (present e) then Some e else None.

Definition with_entry (n e : Z) (sp : space) : space := Space (<[n := e]> (entries sp)) ({[n / 1024]} ∪ tables sp).

Definition set_space (pd : Z) (sp : space) (a : vm) : vm := Vm (<[pd := sp]> (spaces a)) (loose a) (bytes a) (active a).
Definition set_loose (l : gset Z) (a : vm) : vm := Vm (spaces a) l (bytes a) (active a).
Definition set_bytes (b : mem) (a : vm) : vm := Vm (spaces a) (loose a) b (active a).

(** ** Calls *)

Inductive call : Type :=
  | GetPage (flags : Z)
  | FreePage (k : Z)
  | Poke (k b : Z)
  | Create
  | Destroy (pd : Z)
  | SetPage (pd upage kpage : Z) (writable : bool)
  | Lookup (pd uaddr : Z)
  | IsPresent (pd uaddr : Z) (check_writable : bool)
  | Clear (pd upage : Z)
  | IsDirty (pd vpage : Z)
  | SetDirty (pd vpage : Z) (b : bool)
  | IsAccessed (pd vpage : Z)
  | SetAccessed (pd vpage : Z) (b : bool)
  | Activate (pd : Z)
  | UserRead (va : Z)
  | UserWrite (va b : Z)
  | Evict (n : Z).

Inductive answer : Type := Done | Flag (b : bool) | Address (p : Z) | Byte (b : option Z).

Definition exec {S} `{PageAllocator S} (c : call) : M (mmu S) answer :=
  match c with
  | GetPage flags => p ← get_page flags; mret (Address p)
  | FreePage k => free_page k;; mret Done
  | Poke k b => on_memory (wr8 k b);; mret Done
  | Create => pd ← pagedir_create; mret (Address pd)
  | Destroy pd => pagedir_destroy pd;; mret Done
  | SetPage pd u k w => b ← pagedir_set_page pd u k w; mret (Flag b)
  | Lookup pd u => k ← pagedir_get_page pd u; mret (Address k)
  | IsPresent pd u w => b ← is_user_page_present pd u w; mret (Flag b)
  | Clear pd u => pagedir_clear_page pd u;; mret Done
  | IsDirty pd u => b ← pagedir_is_dirty pd u; mret (Flag b)
  | SetDirty pd u b => pagedir_set_dirty pd u b;; mret Done
  | IsAccessed pd u => b ← pagedir_is_accessed pd u; mret (Flag b)
  | SetAccessed pd u b => pagedir_set_accessed pd u b;; mret Done
  | Activate pd => pagedir_activate pd;; mret Done
  | UserRead va => b ← user_read va; mret (Byte b)
  | UserWrite va b => f ← user_write va b; mret (Flag f)
  | Evict n => evict n;; mret Done
  end.

(** ** Steps *)

(** A present entry that allows the access of a user. *)
Definition access (write : bool) (va : Z) (a : vm) : option (space * Z) :=
  sp ← spaces a !! active a;
  e ← mapping sp va;
  if user_ok write e then Some (sp, e) else None.

Definition has_flag (flag : Z) (sp : space) (va : Z) : bool :=
  match entry sp (pg_no va) with Some e => bool_decide (Z.land e flag ≠ 0) | None => false end.

Definition put_flag (flag : Z) (b : bool) (va : Z) (sp : space) : space :=
  match entry sp (pg_no va) with
  | Some e => with_entry (pg_no va) (if b then Z.lor e flag else Z.land e (not32 flag)) sp
  | None => sp
  end.

(** A page that is neither loose nor mapped. *)
Definition unused (k : Z) (a : vm) : Prop :=
  k ∉ loose a ∧ ∀ pd sp n e, spaces a !! pd = Some sp → entries sp !! n = Some e → present e → frame e ≠ k.

Inductive spec (a : vm) : call → answer → vm → Prop :=
  | spec_no_page flags : spec a (GetPage flags) (Address NULL) a
  | spec_page flags k b :
      k ≠ NULL → unused k a → (∀ x, ¬ (k ≤ x < k + PGSIZE) → b !! x = bytes a !! x) →
      (Z.land flags PAL_ZERO ≠ 0 → ∀ x, k ≤ x < k + PGSIZE → b !! x = Some 0) →
      spec a (GetPage flags) (Address k) (set_bytes b (set_loose ({[k]} ∪ loose a) a))
  | spec_free k : spec a (FreePage k) Done (set_loose (loose a ∖ {[k]}) a)
  | spec_poke x b : spec a (Poke x b) Done (set_bytes (<[x := b]> (bytes a)) a)
  | spec_create_fails : spec a Create (Address NULL) a
  | spec_create pd : pd ≠ NULL → spaces a !! pd = None → pd ≠ active a → spec a Create (Address pd) (set_space pd (Space ∅ ∅) a)
  | spec_destroy pd : spec a (Destroy pd) Done (Vm (delete pd (spaces a)) (loose a) (bytes a) (active a))
  | spec_set pd sp u k w :
      spaces a !! pd = Some sp →
      spec a (SetPage pd u k w) (Flag true)
        (set_loose (loose a ∖ {[k]}) (set_space pd (with_entry (pg_no u) (new_entry k w) sp) a))
  | spec_set_fails pd u k w : spec a (SetPage pd u k w) (Flag false) a
  | spec_lookup pd sp u :
      spaces a !! pd = Some sp →
      spec a (Lookup pd u) (Address (match mapping sp u with Some e => frame e + pg_ofs u | None => NULL end)) a
  | spec_present pd sp u w :
      spaces a !! pd = Some sp →
      spec a (IsPresent pd u w)
        (Flag (match mapping sp u with Some e => negb w || bool_decide (Z.land e PTE_W ≠ 0) | None => false end)) a
  | spec_clear pd sp u e :
      spaces a !! pd = Some sp → mapping sp u = Some e →
      spec a (Clear pd u) Done
        (set_loose ({[frame e]} ∪ loose a) (set_space pd (with_entry (pg_no u) (Z.land e (not32 PTE_P)) sp) a))
  | spec_clear_nothing pd sp u : spaces a !! pd = Some sp → mapping sp u = None → spec a (Clear pd u) Done a
  | spec_is_dirty pd sp u : spaces a !! pd = Some sp → spec a (IsDirty pd u) (Flag (has_flag PTE_D sp u)) a
  | spec_set_dirty pd sp u b :
      spaces a !! pd = Some sp → spec a (SetDirty pd u b) Done (set_space pd (put_flag PTE_D b u sp) a)
  | spec_is_accessed pd sp u : spaces a !! pd = Some sp → spec a (IsAccessed pd u) (Flag (has_flag PTE_A sp u)) a
  | spec_set_accessed pd sp u b :
      spaces a !! pd = Some sp → spec a (SetAccessed pd u b) Done (set_space pd (put_flag PTE_A b u sp) a)
  | spec_activate pd d : (pd ≠ NULL → d = pd) → (pd = NULL → spaces a !! d = None) →
      spec a (Activate pd) Done (Vm (spaces a) (loose a) (bytes a) d)
  | spec_read va sp e b :
      access false va a = Some (sp, e) → bytes a !! (frame e + pg_ofs va) = Some b →
      spec a (UserRead va) (Byte (Some b)) (set_space (active a) (with_entry (pg_no va) (used false e) sp) a)
  | spec_read_fault va : access false va a = None → spec a (UserRead va) (Byte None) a
  | spec_write va b sp e :
      access true va a = Some (sp, e) →
      spec a (UserWrite va b) (Flag true)
        (set_bytes (<[frame e + pg_ofs va := b]> (bytes a)) (set_space (active a) (with_entry (pg_no va) (used true e) sp) a))
  | spec_write_fault va b : access true va a = None → spec a (UserWrite va b) (Flag false) a
  | spec_evict n : spec a (Evict n) Done a.

(** What a client may call: directories that exist, pages of its own, user
    addresses, and no second mapping of a page. *)
Definition user_page (u : Z) : Prop := 0 ≤ u < PHYS_BASE ∧ u mod PGSIZE = 0.

Definition legal (a : vm) (c : call) : Prop :=
  match c with
  | GetPage flags => Z.land flags PAL_ASSERT = 0
  | FreePage k => k ∈ loose a
  | Poke x _ => ∃ k, k ∈ loose a ∧ k ≤ x < k + PGSIZE
  | Create | Evict _ => True
  | Destroy pd => is_Some (spaces a !! pd) ∧ pd ≠ active a
  | SetPage pd u k _ =>
      user_page u ∧ k ∈ loose a ∧ ∃ sp, spaces a !! pd = Some sp ∧ mapping sp u = None
  | Lookup pd u | IsPresent pd u _ | IsDirty pd u | SetDirty pd u _ | IsAccessed pd u | SetAccessed pd u _ =>
      0 ≤ u < PHYS_BASE ∧ is_Some (spaces a !! pd)
  | Clear pd u => user_page u ∧ is_Some (spaces a !! pd)
  | Activate pd => pd = NULL ∨ is_Some (spaces a !! pd)
  | UserRead va | UserWrite va _ => 0 ≤ va < PHYS_BASE
  end.
