(* ===== verification/PageDirInv.v ===== *)
(** * Page directories in memory

    The relation between the abstract address spaces of PageDirSpec and the
    page directories and page tables in memory, and the functions of
    userprog/pagedir.c and the translations of the processor as steps that keep
    it. *)

From S2P Require Import Prelude Vaddr CString Bitmap Palloc PageDir PageDirSpec.

(** ** Words in pages *)

Lemma word_ext m m' a : (∀ x, a ≤ x ∧ x < a + 4 → m' !! x = m !! x) → word m' a = word m a.
Proof. intros H. unfold word. by rewrite !H by lia. Qed.

Lemma word_bytes m a v : in_u 32 v → bytes_at m a (le_bytes 4 v) → word m a = Some v.
Proof.
  intros Hv H. rewrite <-(le_value_bytes 4 v Hv). pose proof (le_bytes_length 4 v) as L.
  destruct (le_bytes 4 v) as [|b0 [|b1 [|b2 [|b3 [|]]]]]; try done. unfold word.
  assert (m !! a = Some b0) as -> by (rewrite <-(Z.add_0_r a); exact (H 0%nat b0 eq_refl)).
  rewrite (H 1%nat b1 eq_refl : m !! (a + 1) = _), (H 2%nat b2 eq_refl : m !! (a + 2) = _).
  by rewrite (H 3%nat b3 eq_refl : m !! (a + 3) = _).
Qed.

Lemma word_zero m a : (∀ x, a ≤ x ∧ x < a + 4 → m !! x = Some 0) → word m a = Some 0.
Proof. intros H. unfold word. by rewrite !H by lia. Qed.

Lemma word_mapped m p j : mapped m p PGSIZE → 0 ≤ j < 1024 → is_Some (word m (p + 4 * j)).
Proof.
  intros H Hj. rewrite PGSIZE_eq in H. unfold word.
  destruct (H (p + 4 * j)) as [? ->]; [lia|]. destruct (H (p + 4 * j + 1)) as [? ->]; [lia|].
  destruct (H (p + 4 * j + 2)) as [? ->]; [lia|]. destruct (H (p + 4 * j + 3)) as [? ->]; [lia|]. done.
Qed.

(** Pages do not overlap. *)
Lemma pages_apart p q x : p mod PGSIZE = 0 → q mod PGSIZE = 0 → p ≠ q → p ≤ x < p + PGSIZE → ¬ (q ≤ x < q + PGSIZE).
Proof. rewrite PGSIZE_eq. intros Hp Hq Hne Hx Hy. dlia. Qed.

Lemma word_store m p j q l v :
  p mod PGSIZE = 0 → q mod PGSIZE = 0 → 0 ≤ j < 1024 → 0 ≤ l < 1024 → in_u 32 v →
  word (store (p + 4 * j) (le_bytes 4 v) m) (q + 4 * l) = if decide (q = p ∧ l = j) then Some v else word m (q + 4 * l).
Proof.
  intros Hp Hq Hj Hl Hv. case_decide as Hd.
  - destruct Hd as [-> ->]. apply word_bytes; [done|]. apply bytes_at_stored.
  - apply word_ext. intros x Hx. rewrite store_lookup, le_bytes_length, decide_False; [done|].
    change (Z.of_nat 4) with 4. intros Hx'. apply Hd. assert (q = p) as ->; [|lia].
    destruct (decide (q = p)) as [|Hne]; [done|]. destruct (pages_apart q p x Hq Hp Hne); rewrite PGSIZE_eq; lia.
Qed.

(** A write in a page changes no other page. *)
Lemma store_other m p j bs q x :
  p mod PGSIZE = 0 → q mod PGSIZE = 0 → q ≠ p → 0 ≤ j → j + Z.of_nat (length bs) ≤ PGSIZE → q ≤ x < q + PGSIZE →
  store (p + j) bs m !! x = m !! x.
Proof.
  intros Hp Hq Hne Hj Hb Hx. rewrite store_lookup, decide_False; [done|]. intros Hx'.
  destruct (pages_apart q p x Hq Hp Hne Hx). lia.
Qed.

(** ** Flags of entries *)

(** Addresses are below one gigabyte, and what is present is for users. *)
Definition entry_ok (e : Z) : Prop := in_u 32 e ∧ Z.land e PTE_ADDR < 2 ^ 30 ∧ (present e → Z.land e PTE_U ≠ 0).

Lemma land_nonneg x y : 0 ≤ y → 0 ≤ Z.land x y.
Proof. intros. apply Z.land_nonneg. by right. Qed.

Lemma in_u_lor x y : in_u 32 x → in_u 32 y → in_u 32 (Z.lor x y).
Proof.
  rewrite <-!(in_u_bits 32) by lia. intros Hx Hy j Hj. by rewrite Z.lor_spec, Hx, Hy.
Qed.
Lemma in_u_land x y : in_u 32 x → in_u 32 (Z.land x y).
Proof. rewrite <-!(in_u_bits 32) by lia. intros Hx j Hj. by rewrite Z.land_spec, Hx. Qed.

Lemma addr_eq x : in_u 32 x → Z.land x PTE_ADDR = x - x mod PGSIZE.
Proof. intros Hx. by apply (mask_low x 12). Qed.

Lemma land_keep e f g : Z.land f g = g → Z.land (Z.land e f) g = Z.land e g.
Proof. intros Hf. by rewrite <-Z.land_assoc, Hf. Qed.
Lemma lor_keep e f g : Z.land f g = 0 → Z.land (Z.lor e f) g = Z.land e g.
Proof. intros Hf. by rewrite Z.land_lor_distr_l, Hf, Z.lor_0_r. Qed.
Lemma lor_has e f g : Z.land f g = g → g ≠ 0 → Z.land (Z.lor e f) g ≠ 0.
Proof. intros Hf Hg. rewrite Z.land_lor_distr_l, Hf. intros E. apply Z.lor_eq_0_iff in E as [_ E]. done. Qed.

Lemma entry_ok_lor e f : in_u 32 f → Z.land f (Z.lor PTE_ADDR (Z.lor PTE_P PTE_U)) = 0 → entry_ok e → entry_ok (Z.lor e f).
Proof.
  rewrite !Z.land_lor_distr_r, !Z.lor_eq_0_iff. intros Hf (Ha & Hp & Hu) (H1 & H2 & H3). unfold entry_ok, present in *.
  rewrite !lor_keep by done. split_and!; [by apply in_u_lor|done..].
Qed.
Lemma entry_ok_land e f : Z.land f PTE_ADDR = PTE_ADDR → Z.land f PTE_U = PTE_U → entry_ok e → (present (Z.land e f) → present e) → entry_ok (Z.land e f).
Proof.
  intros Ha Hu (H1 & H2 & H3) Hp. unfold entry_ok. rewrite !land_keep by done. split_and!; [by apply in_u_land|done|auto].
Qed.
Lemma entry_ok_0 : entry_ok 0.
Proof. done. Qed.

Lemma pte_get_page_ok e : entry_ok e → pte_get_page e = Ok (frame e).
Proof. intros (_ & H & _). unfold pte_get_page. apply ptov_ok; [by apply land_nonneg|done]. Qed.

(** A page of the kernel's half. *)
Definition kpage_ok (k : Z) : Prop := PHYS_BASE ≤ k ∧ k + PGSIZE ≤ 2 ^ 32 ∧ k mod PGSIZE = 0.

Lemma kpage_paddr k : kpage_ok k → in_u 32 (k - PHYS_BASE) ∧ Z.land (k - PHYS_BASE) PTE_ADDR = k - PHYS_BASE ∧ k - PHYS_BASE < 2 ^ 30.
Proof.
  intros (H1 & H2 & H3). rewrite PGSIZE_eq in *. assert (in_u 32 (k - PHYS_BASE)) by (unfold in_u, PHYS_BASE in *; lia).
  split; [done|]. split; [|unfold PHYS_BASE in *; lia]. rewrite addr_eq, PGSIZE_eq by done. unfold PHYS_BASE in *. dlia.
Qed.

Lemma new_pte_ok k w : kpage_ok k → entry_ok (new_entry k w) ∧ present (new_entry k w) ∧ frame (new_entry k w) = k.
Proof.
  intros Hk. destruct (kpage_paddr k Hk) as (Hu & Ha & Hlt). unfold new_entry, entry_ok, present, frame.
  assert (Z.land (Z.lor (Z.lor (Z.lor (k - PHYS_BASE) PTE_P) (if w then PTE_W else 0)) PTE_U) PTE_ADDR = k - PHYS_BASE) as ->.
  { rewrite lor_keep by done. rewrite lor_keep by by destruct w. by rewrite lor_keep. }
  split_and!; [|done| | |lia].
  - apply in_u_lor; [|done]. apply in_u_lor; [by apply in_u_lor|by destruct w].
  - intros _. by apply lor_has.
  - rewrite lor_keep by done. rewrite lor_keep by by destruct w. by apply lor_has.
Qed.

Lemma pte_create_user_ok k w : kpage_ok k → pte_create_user k w = Ok (new_entry k w).
Proof.
  intros (H1 & H2 & H3). unfold pte_create_user, pte_create_kernel, check. rewrite pg_ofs_eq, bool_decide_eq_true_2 by done. cbn.
  rewrite vtop_ok by (rewrite PGSIZE_eq in *; lia). done.
Qed.

(** The word of a directory for a table at [pt], or for no table. *)
Definition pde_is (pt : option Z) (w : Z) : Prop :=
  match pt with
  | Some pt => in_u 32 w ∧ Z.land w PTE_ADDR = pt - PHYS_BASE ∧ present w ∧ Z.land w PTE_U ≠ 0 ∧ Z.land w PTE_W ≠ 0
  | None => w = 0
  end.

Lemma pde_create_ok pt : kpage_ok pt → ∃ w, pde_create pt = Ok w ∧ pde_is (Some pt) w.
Proof.
  intros Hk. destruct (kpage_paddr pt Hk) as (Hu & Ha & Hlt). destruct Hk as (H1 & H2 & H3).
  unfold pde_create, check. rewrite pg_ofs_eq, bool_decide_eq_true_2 by done. cbn.
  rewrite vtop_ok by (rewrite PGSIZE_eq in *; lia). eexists. split; [done|]. unfold present. split_and!.
  - apply in_u_lor; [|done]. apply in_u_lor; [|done]. by apply in_u_lor.
  - by rewrite !lor_keep.
  - rewrite lor_keep by done. by apply lor_has.
  - rewrite !lor_keep by done. by apply lor_has.
  - by apply lor_has.
Qed.

Lemma pde_is_nonzero pt w : pde_is (Some pt) w → w ≠ 0.
Proof. intros (_ & _ & Hp & _) ->. done. Qed.

Lemma pde_get_pt_ok pt w : kpage_ok pt → pde_is (Some pt) w → pde_get_pt w = Ok pt.
Proof.
  intros Hk (_ & Ha & Hp & _). unfold pde_get_pt, check. rewrite bool_decide_eq_true_2 by done. cbn.
  rewrite Ha, ptov_ok by (unfold kpage_ok in Hk; rewrite PGSIZE_eq in Hk; unfold PHYS_BASE in *; lia). f_equal. lia.
Qed.

(** ** Ownership of pages

    Who uses each page: a directory, the table [i] of directory [pd], the frame
    of page [n] in [pd], or the client. *)
Inductive owner : Type := Dir | Table (pd i : Z) | Frame (pd n : Z) | Loose.

#[global] Instance owner_eq_dec : EqDecision owner.
Proof. solve_decision. Defined.

(** Pages with contents of the client. *)
Definition data (o : owner) : Prop := match o with Loose | Frame _ _ => True | _ => False end.

Implicit Types (O : gmap Z owner) (G : gmap (Z * Z) Z) (a : vm) (m : mem) (P : gset Z).

(** [G] has the tables of the directories. *)
Record owns O G a : Prop := {
  ow_dir k : O !! k = Some Dir ↔ is_Some (spaces a !! k);
  ow_table pd i k : O !! k = Some (Table pd i) ↔ G !! (pd, i) = Some k;
  ow_tables pd i : is_Some (G !! (pd, i)) ↔ ∃ sp, spaces a !! pd = Some sp ∧ i ∈ tables sp;
  ow_range pd i : is_Some (G !! (pd, i)) → 0 ≤ i < 768;
  ow_frame pd n k : O !! k = Some (Frame pd n) ↔
    ∃ sp e, spaces a !! pd = Some sp ∧ entries sp !! n = Some e ∧ present e ∧ frame e = k;
  ow_entry pd sp n e : spaces a !! pd = Some sp → entries sp !! n = Some e → entry_ok e ∧ n / 1024 ∈ tables sp;
  ow_loose k : O !! k = Some Loose ↔ k ∈ loose a
}.

Record in_mem O G a m : Prop := {
  im_pde pd i : is_Some (spaces a !! pd) → 0 ≤ i < 768 → ∃ w, word m (pd + 4 * i) = Some w ∧ pde_is (G !! (pd, i)) w;
  im_pte pd sp i pt j : spaces a !! pd = Some sp → G !! (pd, i) = Some pt → 0 ≤ j < 1024 →
    word m (pt + 4 * j) = Some (default 0 (entries sp !! (1024 * i + j)));
  im_bytes k o x : O !! k = Some o → data o → k ≤ x < k + PGSIZE → m !! x = bytes a !! x
}.

Lemma spaces_alt pd n e sp a k : spaces (set_space pd (with_entry n e sp) a) !! k = if decide (k = pd) then Some (with_entry n e sp) else spaces a !! k.
Proof. cbn. case_decide as Hd; [subst; by rewrite lookup_insert_eq|by rewrite lookup_insert_ne]. Qed.

Lemma table_elem sp n e i : n / 1024 ∈ tables sp → i ∈ tables (with_entry n e sp) ↔ i ∈ tables sp.
Proof. cbn. set_solver. Qed.

(** Directories and their tables after a change of an entry. *)
Lemma tables_kept G a pd sp n e k i :
  spaces a !! pd = Some sp → n / 1024 ∈ tables sp →
  (∃ sp', spaces (set_space pd (with_entry n e sp) a) !! k = Some sp' ∧ i ∈ tables sp') ↔ ∃ sp', spaces a !! k = Some sp' ∧ i ∈ tables sp'.
Proof.
  intros Hsp Ht. rewrite spaces_alt. case_decide as Hd; [subst k|done]. rewrite Hsp. split.
  - intros (? & [= <-] & Hi). exists sp. split; [done|]. by rewrite table_elem in Hi.
  - intros (? & [= <-] & Hi). eexists. split; [done|]. by rewrite table_elem.
Qed.

(** What changes with the entry: [O'] gives the new owners. *)
Lemma owns_entry O O' G a pd sp n e l :
  owns O G a → spaces a !! pd = Some sp → n / 1024 ∈ tables sp → entry_ok e →
  (∀ k, O' !! k = Some Dir ↔ O !! k = Some Dir) →
  (∀ k d i, O' !! k = Some (Table d i) ↔ O !! k = Some (Table d i)) →
  (∀ k d x, (d, x) ≠ (pd, n) → O' !! k = Some (Frame d x) ↔ O !! k = Some (Frame d x)) →
  (∀ k, O' !! k = Some (Frame pd n) ↔ present e ∧ frame e = k) →
  (∀ k, O' !! k = Some Loose ↔ k ∈ l) →
  owns O' G (set_loose l (set_space pd (with_entry n e sp) a)).
Proof.
  intros Ho Hsp Ht He Hdir Htab Hfr Hn Hl. split.
  - intros k. rewrite Hdir, (ow_dir _ _ _ Ho). change (spaces (set_loose _ ?b)) with (spaces b). rewrite spaces_alt.
    case_decide as Hd; [subst k|done]. rewrite Hsp. split; intros _; eauto.
  - intros d i k. rewrite Htab. apply (ow_table _ _ _ Ho).
  - intros d i. rewrite (ow_tables _ _ _ Ho). symmetry. by apply tables_kept.
  - apply (ow_range _ _ _ Ho).
  - intros d x k. change (spaces (set_loose _ ?b)) with (spaces b). setoid_rewrite spaces_alt. destruct (decide ((d, x) = (pd, n))) as [[= -> ->]|Hne].
    + rewrite Hn, decide_True by done. split.
      * intros [H1 H2]. exists (with_entry n e sp), e. cbn. by rewrite lookup_insert_eq.
      * intros (? & e' & [= <-] & Ee & H1 & H2). cbn in Ee. rewrite lookup_insert_eq in Ee. by injection Ee as <-.
    + rewrite (Hfr k d x Hne), (ow_frame _ _ _ Ho). case_decide as Hd; [subst d|done]. rewrite Hsp.
      assert (x ≠ n) by congruence. split; intros (? & e' & [= <-] & Ee & H1 & H2).
      * exists (with_entry n e sp), e'. cbn. by rewrite lookup_insert_ne.
      * exists sp, e'. cbn in Ee. by rewrite lookup_insert_ne in Ee.
  - intros d sp' x e'. change (spaces (set_loose _ ?b)) with (spaces b). rewrite spaces_alt. case_decide as Hd; [subst d|apply (ow_entry _ _ _ Ho)].
    intros [= <-]. rewrite table_elem by done. cbn. intros [[<- <-]|[_ Ee]]%lookup_insert_Some; [done|]. by apply (ow_entry _ _ _ Ho pd sp).
  - apply Hl.
Qed.

(** New flags in an entry. *)
Lemma owns_flags O G a pd sp n e e' :
  owns O G a → spaces a !! pd = Some sp → entry sp n = Some e → entry_ok e' → frame e' = frame e → (present e' ↔ present e) →
  owns O G (set_space pd (with_entry n e' sp) a).
Proof.
  intros Ho Hsp He Hok Hf Hp. unfold entry in He. case_decide as Ht; [|done]. injection He as He.
  apply (owns_entry O O G a pd sp n e' (loose a)); [done..| |apply (ow_loose _ _ _ Ho)].
  intros k. rewrite (ow_frame _ _ _ Ho), Hsp, Hf, Hp. split.
  - intros (? & x & [= <-] & Ex & H1 & H2). rewrite Ex in He. cbn in He. by subst x.
  - intros [H1 H2]. exists sp, e. destruct (entries sp !! n) as [x|]; cbn in He; subst; done.
Qed.

(** A loose page becomes the frame of an entry. *)
Lemma owns_set O G a pd sp n e k e' :
  owns O G a → spaces a !! pd = Some sp → entry sp n = Some e → ¬ present e → k ∈ loose a →
  entry_ok e' → present e' → frame e' = k →
  owns (<[k := Frame pd n]> O) G (set_loose (loose a ∖ {[k]}) (set_space pd (with_entry n e' sp) a)).
Proof.
  intros Ho Hsp He Hnp Hk Hok Hp Hf. unfold entry in He. case_decide as Ht; [|done]. injection He as He.
  apply (ow_loose _ _ _ Ho) in Hk.
  assert (∀ x o, o ≠ Loose → (∀ d y, o = Frame d y → (d, y) ≠ (pd, n)) → <[k := Frame pd n]> O !! x = Some o ↔ O !! x = Some o) as Hother.
  { intros x o Hl Hof. destruct (decide (x = k)) as [->|]; [|by rewrite lookup_insert_ne]. rewrite lookup_insert_eq, Hk. split; [|congruence].
    intros [= <-]. by destruct (Hof pd n eq_refl). }
  apply (owns_entry O); [done..| | | | |].
  - intros x. by apply Hother.
  - intros x d i. by apply Hother.
  - intros x d y Hne. apply Hother; [done|]. by intros ? ? [= <- <-].
  - intros x. destruct (decide (x = k)) as [->|]; [by rewrite lookup_insert_eq|]. rewrite lookup_insert_ne by done.
    rewrite (ow_frame _ _ _ Ho), Hsp. split; [|intros [_ ?]; congruence]. intros (? & y & [= <-] & Ey & H1 & H2).
    rewrite Ey in He. cbn in He. by subst y.
  - intros x. rewrite elem_of_difference, elem_of_singleton, <-(ow_loose _ _ _ Ho).
    destruct (decide (x = k)) as [->|]; [rewrite lookup_insert_eq; naive_solver|rewrite lookup_insert_ne by done; naive_solver].
Qed.

(** The frame of an entry goes back to the client. *)
Lemma owns_clear O G a pd sp n e e' :
  owns O G a → spaces a !! pd = Some sp → entry sp n = Some e → present e → entry_ok e' → ¬ present e' →
  owns (<[frame e := Loose]> O) G (set_loose ({[frame e]} ∪ loose a) (set_space pd (with_entry n e' sp) a)).
Proof.
  intros Ho Hsp He Hp Hok Hnp. unfold entry in He. case_decide as Ht; [|done]. injection He as He.
  assert (O !! frame e = Some (Frame pd n)) as Hk.
  { apply (ow_frame _ _ _ Ho). exists sp, e. destruct (entries sp !! n) as [x|]; cbn in He; subst; done. }
  assert (∀ x o, o ≠ Loose → o ≠ Frame pd n → <[frame e := Loose]> O !! x = Some o ↔ O !! x = Some o) as Hother.
  { intros x o Hl Hof. destruct (decide (x = frame e)) as [->|]; [|by rewrite lookup_insert_ne]. rewrite lookup_insert_eq, Hk. naive_solver. }
  apply (owns_entry O); [done..| | | | |].
  - intros x. by apply Hother.
  - intros x d i. by apply Hother.
  - intros x d y Hne. apply Hother; congruence.
  - intros x. split; [|by intros [? _]]. destruct (decide (x = frame e)) as [->|Hx]; [by rewrite lookup_insert_eq|]. rewrite lookup_insert_ne by done.
    rewrite (ow_frame _ _ _ Ho), Hsp. intros (? & y & [= <-] & Ey & H1 & H2). rewrite Ey in He. cbn in He. by subst y.
  - intros x. rewrite elem_of_union, elem_of_singleton, <-(ow_loose _ _ _ Ho).
    destruct (decide (x = frame e)) as [->|]; [rewrite lookup_insert_eq; naive_solver|rewrite lookup_insert_ne by done; naive_solver].
Qed.

(** A page that nobody owns. *)
Lemma fresh_owner O k o o' x : O !! k = None → o' ≠ o → <[k := o]> O !! x = Some o' ↔ O !! x = Some o'.
Proof. intros Hk Hne. destruct (decide (x = k)) as [->|]; [rewrite lookup_insert_eq, Hk; naive_solver|by rewrite lookup_insert_ne]. Qed.

Lemma fresh_owned O k o x : O !! k = None → <[k := o]> O !! x = Some o ↔ x = k ∨ O !! x = Some o.
Proof. intros Hk. destruct (decide (x = k)) as [->|]; [rewrite lookup_insert_eq; naive_solver|rewrite lookup_insert_ne by done; naive_solver]. Qed.

Definition add_table (i : Z) (sp : space) : space := Space (entries sp) ({[i]} ∪ tables sp).

Lemma owns_add_table O G a pd sp i k :
  owns O G a → spaces a !! pd = Some sp → i ∉ tables sp → 0 ≤ i < 768 → O !! k = None →
  owns (<[k := Table pd i]> O) (<[(pd, i) := k]> G) (set_space pd (add_table i sp) a).
Proof.
  intros Ho Hsp Hi Hr Hk. assert (G !! (pd, i) = None) as Hg.
  { apply eq_None_not_Some. rewrite (ow_tables _ _ _ Ho). intros (? & ? & ?). congruence. }
  split.
  - intros x. rewrite fresh_owner, (ow_dir _ _ _ Ho) by done. cbn. rewrite lookup_insert_is_Some'. split; [by right|].
    intros [->|?]; [by eexists|done].
  - intros d j x. destruct (decide ((d, j) = (pd, i))) as [[= -> ->]|Hne].
    + rewrite fresh_owned, (ow_table _ _ _ Ho), Hg, lookup_insert_eq by done. naive_solver.
    + rewrite fresh_owner, (ow_table _ _ _ Ho), lookup_insert_ne by congruence. done.
  - intros d j. rewrite lookup_insert_is_Some', (ow_tables _ _ _ Ho). cbn. split.
    + intros [[= <- <-]|(sp' & Es & Hj)]; [exists (add_table i sp); rewrite lookup_insert_eq; set_solver|].
      destruct (decide (d = pd)) as [->|]; [|exists sp'; by rewrite lookup_insert_ne].
      exists (add_table i sp). rewrite lookup_insert_eq. assert (sp' = sp) as -> by congruence. set_solver.
    + intros (sp' & [[<- <-]|[Hd Es]]%lookup_insert_Some & Hj); [|right; eauto]. cbn in Hj.
      destruct (decide (j = i)) as [->|]; [by left|right]. exists sp. set_solver.
  - intros d j. rewrite lookup_insert_is_Some'. intros [[= <- <-]|Hs]; [done|]. by apply (ow_range _ _ _ Ho d).
  - intros d n x. rewrite fresh_owner, (ow_frame _ _ _ Ho) by done. cbn. destruct (decide (d = pd)) as [->|].
    + rewrite lookup_insert_eq. rewrite Hsp. split; intros (? & e & [= <-] & Ee); [exists (add_table i sp)|exists sp]; eauto.
    + by rewrite lookup_insert_ne.
  - intros d sp' n e. cbn. intros [[<- <-]|[Hd Es]]%lookup_insert_Some; [|by apply (ow_entry _ _ _ Ho d)]. cbn. intros Ee.
    destruct (ow_entry _ _ _ Ho pd sp n e Hsp Ee). split; [done|set_solver].
  - intros x. rewrite fresh_owner by done. apply (ow_loose _ _ _ Ho).
Qed.

Lemma owns_create O G a k :
  owns O G a → O !! k = None → owns (<[k := Dir]> O) G (set_space k (Space ∅ ∅) a).
Proof.
  intros Ho Hk. assert (spaces a !! k = None) as Hsk.
  { apply eq_None_not_Some. rewrite <-(ow_dir _ _ _ Ho). congruence. }
  split; cbn.
  - intros x. rewrite fresh_owned, (ow_dir _ _ _ Ho), lookup_insert_is_Some' by done. naive_solver.
  - intros d i x. rewrite fresh_owner by done. apply (ow_table _ _ _ Ho).
  - intros d i. rewrite (ow_tables _ _ _ Ho). destruct (decide (d = k)) as [->|]; [|by rewrite lookup_insert_ne].
    rewrite lookup_insert_eq, Hsk. split; intros (? & ? & ?); simplify_eq; set_solver.
  - apply (ow_range _ _ _ Ho).
  - intros d n x. rewrite fresh_owner, (ow_frame _ _ _ Ho) by done. destruct (decide (d = k)) as [->|]; [|by rewrite lookup_insert_ne].
    rewrite lookup_insert_eq, Hsk. split; intros (? & ? & ? & ? & ?); simplify_eq/=.
  - intros d sp n e [[<- <-]|[_ Es]]%lookup_insert_Some; [done|]. by apply (ow_entry _ _ _ Ho d).
  - intros x. rewrite fresh_owner by done. apply (ow_loose _ _ _ Ho).
Qed.

Lemma owns_get O G a k : owns O G a → O !! k = None → owns (<[k := Loose]> O) G (set_loose ({[k]} ∪ loose a) a).
Proof.
  intros Ho Hk. split; cbn; try (intros; rewrite fresh_owner by done); try apply Ho.
  intros x. rewrite fresh_owned, (ow_loose _ _ _ Ho) by done. set_solver.
Qed.

Lemma owns_free O G a k : owns O G a → k ∈ loose a → owns (delete k O) G (set_loose (loose a ∖ {[k]}) a).
Proof.
  intros Ho Hk. apply (ow_loose _ _ _ Ho) in Hk.
  assert (∀ x o, delete k O !! x = Some o ↔ x ≠ k ∧ O !! x = Some o) as Hd by (intros; rewrite lookup_delete_Some; naive_solver).
  split; cbn; try (intros; rewrite Hd); try apply Ho.
  - rewrite <-(ow_dir _ _ _ Ho). naive_solver.
  - rewrite <-(ow_table _ _ _ Ho). naive_solver.
  - rewrite <-(ow_frame _ _ _ Ho). naive_solver.
  - rewrite (ow_loose _ _ _ Ho). set_solver.
Qed.

(** Contents of the client change. *)
Lemma owns_bytes O G a b : owns O G a → owns O G (set_bytes b a).
Proof. intros Ho. by destruct Ho. Qed.
Lemma owns_active O G a d : owns O G a → owns O G (Vm (spaces a) (loose a) (bytes a) d).
Proof. intros Ho. by destruct Ho. Qed.

(** A directory with its tables and frames. *)
Definition part_of (pd : Z) (k : Z) (o : owner) : Prop :=
  match o with Dir => k = pd | Table d _ | Frame d _ => d = pd | Loose => False end.
#[global] Instance part_of_dec pd k o : Decision (part_of pd k o).
Proof. destruct o; cbn; apply _. Defined.

Definition without O (pd : Z) : gmap Z owner := filter (λ ko, ¬ part_of pd ko.1 ko.2) O.
Definition tables_without G (pd : Z) : gmap (Z * Z) Z := filter (λ ki, ki.1.1 ≠ pd) G.

Lemma owns_destroy O G a pd :
  owns O G a → owns (without O pd) (tables_without G pd) (Vm (delete pd (spaces a)) (loose a) (bytes a) (active a)).
Proof.
  intros Ho. assert (∀ x o, without O pd !! x = Some o ↔ O !! x = Some o ∧ ¬ part_of pd x o) as Hw by (intros; apply map_lookup_filter_Some).
  assert (∀ d i x, tables_without G pd !! (d, i) = Some x ↔ G !! (d, i) = Some x ∧ d ≠ pd) as Hg by (intros; apply map_lookup_filter_Some).
  assert (∀ d i, is_Some (tables_without G pd !! (d, i)) ↔ is_Some (G !! (d, i)) ∧ d ≠ pd) as Hs.
  { intros d i. split; [intros [x [? ?]%Hg]|intros [[x E] Hne]; exists x; by apply Hg]. split; [by exists x|done]. }
  split; cbn.
  - intros x. rewrite Hw, (ow_dir _ _ _ Ho). cbn. rewrite lookup_delete_is_Some. naive_solver.
  - intros d i x. rewrite Hw, Hg, (ow_table _ _ _ Ho). done.
  - intros d i. rewrite Hs, (ow_tables _ _ _ Ho). setoid_rewrite lookup_delete_Some. naive_solver.
  - intros d i [Hi _]%Hs. by apply (ow_range _ _ _ Ho d).
  - intros d n x. rewrite Hw, (ow_frame _ _ _ Ho). cbn. setoid_rewrite lookup_delete_Some. naive_solver.
  - intros d sp n e [_ Es]%lookup_delete_Some. by apply (ow_entry _ _ _ Ho d).
  - intros x. rewrite Hw, (ow_loose _ _ _ Ho). cbn. naive_solver.
Qed.

(** ** Memory *)

Definition aligned O : Prop := ∀ k, is_Some (O !! k) → k mod PGSIZE = 0.

(** The bytes of the owned pages are all that matters. *)
Lemma in_mem_same O G a m m' :
  owns O G a → in_mem O G a m → (∀ k x, is_Some (O !! k) → k ≤ x < k + PGSIZE → m' !! x = m !! x) → in_mem O G a m'.
Proof.
  intros Ho Hm Hs. assert (∀ k i, is_Some (O !! k) → 0 ≤ i < 1024 → word m' (k + 4 * i) = word m (k + 4 * i)) as Hw.
  { intros k i Hk Hi. apply word_ext. intros x Hx. apply (Hs k); [done|]. rewrite PGSIZE_eq. lia. }
  split.
  - intros pd i Hpd Hi. rewrite Hw; [by apply Hm| |lia]. apply (ow_dir _ _ _ Ho) in Hpd. by eexists.
  - intros pd sp i pt j Hsp Hpt Hj. rewrite Hw; [by apply (im_pte _ _ _ _ Hm pd)| |done]. apply (ow_table _ _ _ Ho) in Hpt. by eexists.
  - intros k o x Hk Hd Hx. rewrite (Hs k) by (done || by eexists). by apply (im_bytes _ _ _ _ Hm k o).
Qed.

(** An entry is written. *)
Lemma in_mem_entry O G a m pd sp i j pt e :
  owns O G a → aligned O → in_mem O G a m → spaces a !! pd = Some sp → G !! (pd, i) = Some pt → 0 ≤ j < 1024 → in_u 32 e →
  in_mem O G (set_space pd (with_entry (1024 * i + j) e sp) a) (store (pt + 4 * j) (le_bytes 4 e) m).
Proof.
  intros Ho Hal Hm Hsp Hpt Hj He. assert (O !! pt = Some (Table pd i)) as Hot by by apply (ow_table _ _ _ Ho).
  assert (pt mod PGSIZE = 0) as Hpa by (apply Hal; by eexists). split.
  - intros d k Hd Hk. rewrite spaces_alt in Hd. assert (is_Some (spaces a !! d)) as Hd' by (case_decide; [subst; by eexists|done]).
    assert (O !! d = Some Dir) as Hod by by apply (ow_dir _ _ _ Ho).
    rewrite word_store, decide_False; [by apply Hm|intros [-> _]; congruence|done|apply Hal; by eexists|lia..|done].
  - intros d sp' i' pt' j' Hsp' Hpt' Hj'. rewrite spaces_alt in Hsp'.
    assert (O !! pt' = Some (Table d i')) as Hot' by by apply (ow_table _ _ _ Ho).
    rewrite word_store by (done || apply Hal; by eexists). destruct (decide (pt' = pt ∧ j' = j)) as [[-> ->]|Hd].
    + assert (d = pd ∧ i' = i) as [-> ->] by (split; congruence). rewrite decide_True in Hsp' by done. injection Hsp' as <-. cbn.
      by rewrite lookup_insert_eq.
    + case_decide; [subst d; injection Hsp' as <-|by apply (im_pte _ _ _ _ Hm d)]. cbn.
      rewrite lookup_insert_ne; [by apply (im_pte _ _ _ _ Hm pd)|]. intros E. apply Hd. assert (i' = i) as -> by lia. split; [congruence|lia].
  - intros k o x Hk Hd Hx. assert (k ≠ pt) by (intros ->; rewrite Hot in Hk; injection Hk as <-; done).
    rewrite (store_other _ pt (4 * j) _ k); [by apply (im_bytes _ _ _ _ Hm k o)|done|apply Hal; by eexists|done|lia| |done].
    rewrite le_bytes_length, PGSIZE_eq. lia.
Qed.

(** A word of a directory is written. *)
Lemma in_mem_pde O G a m pd i w :
  owns O G a → aligned O → in_mem O G a m → is_Some (spaces a !! pd) → 0 ≤ i < 768 → in_u 32 w → pde_is (G !! (pd, i)) w →
  in_mem O G a (store (pd + 4 * i) (le_bytes 4 w) m).
Proof.
  intros Ho Hal Hm Hpd Hi Hu Hw. assert (O !! pd = Some Dir) as Hod by by apply (ow_dir _ _ _ Ho).
  assert (pd mod PGSIZE = 0) as Hpa by (apply Hal; by eexists). split.
  - intros d k Hd Hk. assert (O !! d = Some Dir) as Hod' by by apply (ow_dir _ _ _ Ho).
    rewrite word_store by (done || lia || apply Hal; by eexists). case_decide as E; [destruct E as [-> ->]; by exists w|by apply Hm].
  - intros d sp k pt j Hsp Hpt Hj. assert (O !! pt = Some (Table d k)) as Hot by by apply (ow_table _ _ _ Ho).
    rewrite word_store, decide_False; [by apply (im_pte _ _ _ _ Hm d)|intros [-> _]; congruence|done|apply Hal; by eexists|lia..|done].
  - intros k o x Hk Hd Hx. assert (k ≠ pd) by (intros ->; rewrite Hod in Hk; injection Hk as <-; done).
    rewrite (store_other _ pd (4 * i) _ k); [by apply (im_bytes _ _ _ _ Hm k o)|done|apply Hal; by eexists|done|lia| |done].
    rewrite le_bytes_length, PGSIZE_eq. lia.
Qed.

(** A new page of zeros becomes a table. *)
Lemma in_mem_add_table O G a m pd sp i k w :
  owns O G a → aligned O → in_mem O G a m → spaces a !! pd = Some sp → i ∉ tables sp → 0 ≤ i < 768 → O !! k = None → k mod PGSIZE = 0 →
  (∀ j, 0 ≤ j < 1024 → word m (k + 4 * j) = Some 0) → in_u 32 w → pde_is (Some k) w →
  in_mem (<[k := Table pd i]> O) (<[(pd, i) := k]> G) (set_space pd (add_table i sp) a) (store (pd + 4 * i) (le_bytes 4 w) m).
Proof.
  intros Ho Hal Hm Hsp Hi Hr Hk Hka Hz Hu Hw. assert (O !! pd = Some Dir) as Hod by (apply (ow_dir _ _ _ Ho); by eexists).
  assert (pd mod PGSIZE = 0) as Hpa by (apply Hal; by eexists).
  assert (k ≠ pd) as Hkpd by congruence. split.
  - intros d j Hd Hj. cbn in Hd. assert (is_Some (spaces a !! d)) as Hd'.
    { apply lookup_insert_is_Some' in Hd as [<-|?]; [by eexists|done]. }
    assert (O !! d = Some Dir) as Hod' by by apply (ow_dir _ _ _ Ho).
    rewrite word_store by (done || lia || apply Hal; by eexists). case_decide as E.
    + destruct E as [-> ->]. exists w. by rewrite lookup_insert_eq.
    + rewrite lookup_insert_ne by naive_solver. by apply Hm.
  - intros d sp' i' pt j Hsp' Hpt Hj. cbn in Hsp'. apply lookup_insert_Some in Hpt as [[[= <- <-] <-]|[Hne Hpt]].
    + rewrite lookup_insert_eq in Hsp'. injection Hsp' as <-. rewrite word_store, decide_False by (done || lia || naive_solver). cbn.
      rewrite Hz by done. destruct (entries sp !! (1024 * i + j)) as [e|] eqn:Ee; [|done].
      destruct (ow_entry _ _ _ Ho pd sp _ e Hsp Ee) as [_ Ht]. replace ((1024 * i + j) / 1024) with i in Ht by dlia. done.
    + assert (O !! pt = Some (Table d i')) as Hot by by apply (ow_table _ _ _ Ho).
      assert (∃ sp0, spaces a !! d = Some sp0 ∧ entries sp0 = entries sp') as (sp0 & Hs0 & He0).
      { apply lookup_insert_Some in Hsp' as [[<- <-]|[_ ?]]; [by exists sp|by exists sp']. }
      rewrite word_store, decide_False; [|intros [-> _]; congruence|done|apply Hal; by eexists|lia..|done].
      rewrite <-He0. by apply (im_pte _ _ _ _ Hm d).
  - intros x o y Hx Hd Hy. apply lookup_insert_Some in Hx as [[<- <-]|[Hne Hx]]; [done|].
    assert (x ≠ pd) by (intros ->; rewrite Hod in Hx; injection Hx as <-; done).
    rewrite (store_other _ pd (4 * i) _ x); [by apply (im_bytes _ _ _ _ Hm x o)|done|apply Hal; by eexists|done|lia| |done].
    rewrite le_bytes_length, PGSIZE_eq. lia.
Qed.

(** The pages of the client stay the same. *)
Lemma in_mem_data O O' G a l m :
  in_mem O G a m → (∀ k o, O' !! k = Some o → data o → ∃ o', O !! k = Some o' ∧ data o') → in_mem O' G (set_loose l a) m.
Proof.
  intros Hm Hd. split; [apply Hm|apply Hm|]. intros k o x Hk Ho Hx. destruct (Hd k o Hk Ho) as (o' & Hk' & Ho'). by apply (im_bytes _ _ _ _ Hm k o').
Qed.

Lemma in_mem_active O G a m d : in_mem O G a m → in_mem O G (Vm (spaces a) (loose a) (bytes a) d) m.
Proof. intros Hm. by destruct Hm. Qed.

(** ** The relation *)

(** A cached entry: the entry in memory has the same address and permissions,
    and at least the accessed and dirty flags of the cached one. *)
Definition cached (e e' : Z) : Prop :=
  present e ∧ Z.land e PTE_A ≠ 0 ∧ ∃ f, Z.land f (Z.lor PTE_A PTE_D) = f ∧ e' = Z.lor e f.

Definition tlb_ok (t : gmap Z Z) a : Prop :=
  ∀ n e, t !! n = Some e → ∃ sp e', spaces a !! active a = Some sp ∧ entries sp !! n = Some e' ∧ cached e e'.

(** What does not change: the number of pages of memory, the initial page
    directory, the pages that the allocator manages, those of them that are in
    use by the kernel for good, and data of the kernel, which is in them or
    outside of the pools. *)
Record kenv := KEnv { ram_pages : Z; init_dir : Z; universe : gset Z; pinned : gset Z; kernel : mem }.

Record kern {S} `{PagePool S} (v : kenv) P (p : S) : Prop := {
  kn_pinned : pinned v ⊆ P;
  kn_mem x b : kernel v !! x = Some b → memory p !! x = Some b;
  kn_pool : pool_range p = universe v;
  kn_apart x k : is_Some (kernel v !! x) → k ∈ universe v → k ∉ pinned v → ¬ (k ≤ x < k + PGSIZE);
  kn_ram k : k ∈ universe v → k + PGSIZE ≤ PHYS_BASE + ram_pages v * PGSIZE
}.

Section relation.
  Context {S : Type} {PA : PageAllocator S} {PL : PageAllocatorLaws S} {PP : PagePool S}.
  Context (ke : kenv).
  Implicit Types s : mmu S.

(** [P] are the pages that other parts of the kernel have; the initial page
    directory is one of them. *)
Record vrel P O G a s : Prop := {
  vr_wf : pa_wf (pool_of s);
  vr_held : held (pool_of s) = P ∪ dom O;
  vr_disj : P ## dom O;
  vr_owns : owns O G a;
  vr_mem : in_mem O G a (memory (pool_of s));
  vr_init : init_page_dir s ∈ P;
  vr_init_mem i : 0 ≤ i < 768 → word (memory (pool_of s)) (init_page_dir s + 4 * i) = Some 0;
  vr_cr3 : cr3 s + PHYS_BASE = active a;
  vr_active : active a = init_page_dir s ∨ is_Some (spaces a !! active a);
  vr_tlb : tlb_ok (tlb s) a;
  vr_ram : init_ram_pages s = ram_pages ke ∧ init_page_dir s = init_dir ke;
  vr_kern : kern ke P (pool_of s)
}.

Definition represents P a s : Prop := ∃ O G, vrel P O G a s.

(** The state after a write. *)
Definition wrote (x v : Z) s : mmu S := set_pool (set_memory (store x (le_bytes 4 v) (memory (pool_of s))) (pool_of s)) s.

Lemma rd32_ok s x v : word (memory (pool_of s)) x = Some v → rd32 x s = Ok (v, s).
Proof. intros E. unfold rd32. by rewrite E. Qed.
Lemma wr32_ok s x v : is_Some (word (memory (pool_of s)) x) → wr32 x v s = Ok (tt, wrote x v s).
Proof. intros [w E]. unfold wr32. by rewrite E. Qed.

Lemma held_page s k : pa_wf (pool_of s) → k ∈ held (pool_of s) → kpage_ok k ∧ mapped (memory (pool_of s)) k PGSIZE ∧ k ≠ NULL.
Proof.
  intros Hwf Hk. destruct (pa_held_page _ _ Hwf Hk) as (H1 & H2 & H3 & H4). split_and!; [done..|].
  unfold NULL, PHYS_BASE in *. lia.
Qed.

(** ** A page from the allocator *)

Lemma pages_one k : pages k 1 = {[k]}.
Proof. apply set_eq. intros x. rewrite elem_of_pages, elem_of_singleton. split; [intros (i & Hi & ->); replace i with 0%nat by lia; lia|intros ->; exists 0%nat; lia]. Qed.

Lemma take_page s flags :
  pa_wf (pool_of s) →
  (get_page flags s = Err Panicked ∧ Z.land flags PAL_ASSERT ≠ 0) ∨
  ∃ k p, get_page flags s = Ok (k, set_pool p s) ∧ pa_wf p ∧
    ((k = NULL ∧ Z.land flags PAL_ASSERT = 0 ∧ held p = held (pool_of s) ∧ memory p = memory (pool_of s)) ∨
     (k ≠ NULL ∧ kpage_ok k ∧ k ∉ held (pool_of s) ∧ held p = {[k]} ∪ held (pool_of s) ∧
      (∀ x, ¬ (k ≤ x < k + PGSIZE) → memory p !! x = memory (pool_of s) !! x) ∧
      (Z.land flags PAL_ZERO ≠ 0 → ∀ x, k ≤ x < k + PGSIZE → memory p !! x = Some 0))).
Proof.
  intros Hwf. unfold get_page, on_pool. pose proof (pa_get_ok (pool_of s) flags 1 Hwf ltac:(lia) ltac:(lia)) as Hg.
  change (Z.of_nat 1) with 1 in Hg. inversion Hg as [p W1 W2 W3 Hf E|Hf E|k p W1 W2 W3 W4 W5 W6 W7 E].
  - right. exists NULL, p. rewrite (zoom_ok _ _ _ _ _ _ (eq_sym E)). split_and!; [done..|]. by left.
  - left. split; [|done]. unfold zoom. by rewrite <-E.
  - right. exists k, p. rewrite (zoom_ok _ _ _ _ _ _ (eq_sym E)). split_and!; [done..|]. right.
    change (Z.to_nat (PGSIZE * Z.of_nat 1)) with (Z.to_nat PGSIZE) in W7. rewrite pages_one in W5, W6.
    assert (kpage_ok k) as Hkp by (split_and!; [done|lia|done]).
    split_and!; [unfold NULL, PHYS_BASE in *; lia|done|intros Hk; apply (W5 k); [by apply elem_of_singleton|done]|by rewrite W6, (union_comm_L _ {[k]})|..].
    + intros x Hx. rewrite W7. destruct (decide (Z.land flags PAL_ZERO ≠ 0)); [|done].
      rewrite store_lookup, length_replicate, Z2Nat.id, decide_False by (rewrite ?PGSIZE_eq in *; lia). done.
    + intros Hz x Hx. rewrite W7, decide_True, store_lookup, length_replicate, decide_True by (done || rewrite ?PGSIZE_eq in *; lia).
      apply lookup_replicate_2. rewrite PGSIZE_eq in *. lia.
Qed.

(** Memory changes in pages that are not the kernel's. *)
Lemma kern_change P (p p' : S) :
  kern ke P p → pool_range p' = pool_range p → (∀ x, (∀ k, k ∈ universe ke → k ∉ pinned ke → ¬ (k ≤ x < k + PGSIZE)) → memory p' !! x = memory p !! x) → kern ke P p'.
Proof.
  intros [H1 H2 H3 H4 H5] Hp Hm. split; try done; [|by rewrite Hp]. intros x b Hx. rewrite Hm; [by apply H2|]. intros k Hk Hn. apply H4; [by eexists|done..].
Qed.

Lemma kern_pages P P' (p : S) : kern ke P p → pinned ke ⊆ P' → kern ke P' p.
Proof. intros [H1 H2 H3 H4 H5] Hp. by split. Qed.

Lemma owned_page P O G a s k : vrel P O G a s → is_Some (O !! k) → kpage_ok k ∧ mapped (memory (pool_of s)) k PGSIZE ∧ k ≠ NULL.
Proof. intros Hv Hk. apply held_page; [apply Hv|]. rewrite (vr_held _ _ _ _ _ Hv). apply elem_of_union_r. by apply elem_of_dom. Qed.

Lemma vrel_aligned P O G a s : vrel P O G a s → aligned O.
Proof. intros Hv k Hk. by destruct (owned_page _ _ _ _ _ k Hv Hk) as ((_ & _ & ?) & _ & _). Qed.

Lemma init_page P O G a s : vrel P O G a s → kpage_ok (init_page_dir s) ∧ mapped (memory (pool_of s)) (init_page_dir s) PGSIZE ∧ init_page_dir s ≠ NULL.
Proof. intros Hv. apply held_page; [apply Hv|]. rewrite (vr_held _ _ _ _ _ Hv). apply elem_of_union_l, Hv. Qed.

Lemma init_not_owned P O G a s k : vrel P O G a s → is_Some (O !! k) → k ≠ init_page_dir s.
Proof. intros Hv Hk ->. apply (vr_disj _ _ _ _ _ Hv (init_page_dir s)); [apply Hv|by apply elem_of_dom]. Qed.

Lemma owned_universe P O G a s k : vrel P O G a s → is_Some (O !! k) → k ∈ universe ke ∧ k ∉ pinned ke.
Proof.
  intros Hv Hk. apply elem_of_dom in Hk. split.
  - rewrite <-(kn_pool _ _ _ (vr_kern _ _ _ _ _ Hv)). apply (pool_range_held _ (vr_wf _ _ _ _ _ Hv)). rewrite (vr_held _ _ _ _ _ Hv). by apply elem_of_union_r.
  - intros Hp. apply (vr_disj _ _ _ _ _ Hv k); [|done]. by apply (kn_pinned _ _ _ (vr_kern _ _ _ _ _ Hv)).
Qed.

(** Memory that changes only in owned pages. *)
Definition changes O (m m' : mem) : Prop := ∀ x, (∀ k, is_Some (O !! k) → ¬ (k ≤ x < k + PGSIZE)) → m' !! x = m !! x.

Lemma changes_store O m k j bs : is_Some (O !! k) → 0 ≤ j → j + Z.of_nat (length bs) ≤ PGSIZE → changes O m (store (k + j) bs m).
Proof. intros Hk Hj Hl x Hx. rewrite store_lookup, decide_False; [done|]. intros Hx'. apply (Hx k Hk). lia. Qed.

Lemma changes_word O m k j w : is_Some (O !! k) → 0 ≤ j < 1024 → changes O m (store (k + 4 * j) (le_bytes 4 w) m).
Proof. intros Hk Hj. apply changes_store; [done|lia|]. rewrite le_bytes_length, PGSIZE_eq. lia. Qed.

Lemma changes_init O m m' d i :
  changes O m m' → aligned O → d mod PGSIZE = 0 → O !! d = None → 0 ≤ i < 1024 → word m' (d + 4 * i) = word m (d + 4 * i).
Proof.
  intros Hc Hal Hd Hn Hi. apply word_ext. intros x Hx. apply Hc. intros k Hk. apply (pages_apart d k); [done|by apply Hal|intros ->; rewrite Hn in Hk; by destruct Hk|rewrite PGSIZE_eq; lia].
Qed.

Lemma pd_page P O G a s pd : vrel P O G a s → is_Some (spaces a !! pd) → kpage_ok pd ∧ mapped (memory (pool_of s)) pd PGSIZE ∧ pd ≠ NULL.
Proof. intros Hv Hpd. apply (owned_page P O G a s pd Hv). apply (ow_dir _ _ _ (vr_owns _ _ _ _ _ Hv)) in Hpd. by eexists. Qed.

Lemma pt_page P O G a s pd i pt : vrel P O G a s → G !! (pd, i) = Some pt → kpage_ok pt ∧ mapped (memory (pool_of s)) pt PGSIZE ∧ pt ≠ NULL.
Proof. intros Hv Hpt. apply (owned_page P O G a s pt Hv). apply (ow_table _ _ _ (vr_owns _ _ _ _ _ Hv)) in Hpt. by eexists. Qed.

(** A change of the memory. *)
Lemma vrel_mem P O G a s O' G' a' m :
  vrel P O G a s → dom m = dom (memory (pool_of s)) → dom O' = dom O → owns O' G' a' → in_mem O' G' a' m →
  changes O (memory (pool_of s)) m →
  active a' = active a → (is_Some (spaces a !! active a) → is_Some (spaces a' !! active a)) → tlb_ok (tlb s) a' →
  vrel P O' G' a' (set_pool (set_memory m (pool_of s)) s).
Proof.
  intros Hv Hdm HdO Ho Hm Hc Hac Hsp Ht. pose proof (vrel_aligned _ _ _ _ _ Hv) as Hal. destruct (init_page _ _ _ _ _ Hv) as ((_ & _ & Hia) & _ & _).
  assert (O !! init_page_dir s = None) as Hin by (apply eq_None_not_Some; intros Hs; by apply (init_not_owned _ _ _ _ _ _ Hv Hs)).
  assert (∀ k, is_Some (O !! k) → k ∈ universe ke ∧ k ∉ pinned ke) as Hun by (intros k; by apply (owned_universe P O G a s)).
  destruct Hv as [V1 V2 V3 V4 V5 V6 V7 V8 V9 V10 V11 V12]. destruct (pa_set_memory _ m V1 Hdm) as (W1 & W2 & W3). split; cbn.
  - done.
  - by rewrite W2, HdO.
  - by rewrite HdO.
  - done.
  - by rewrite W3.
  - done.
  - intros i Hi. rewrite W3, (changes_init O (memory (pool_of s)) m) by (done || lia). by apply V7.
  - by rewrite Hac.
  - rewrite Hac. destruct V9; [by left|right; by apply Hsp].
  - done.
  - done.
  - apply (kern_change P (pool_of s)); [done|apply pool_range_set|]. intros x Hx. rewrite W3. apply Hc. intros k [Hk1 Hk2]%Hun. by apply Hx.
Qed.

(** The entry for a user address. *)
Lemma pg_no_split va : pg_no va = 1024 * pd_no va + pt_no va.
Proof. rewrite pg_no_eq, pd_no_eq, pt_no_eq, PGSIZE_eq. change (2 ^ 22) with (4096 * 1024). rewrite <-Z.div_div by lia. dlia. Qed.

Lemma user_indices va : 0 ≤ va < PHYS_BASE → 0 ≤ pd_no va < 768 ∧ 0 ≤ pt_no va < 1024 ∧ pg_no va / 1024 = pd_no va.
Proof.
  intros Hva. rewrite pg_no_eq, pd_no_eq, pt_no_eq, PGSIZE_eq. change (2 ^ 22) with (4096 * 1024). unfold PHYS_BASE in Hva.
  rewrite Z.div_div by lia. dlia.
Qed.

(** The entry in memory. *)
Lemma entry_word P O G a s pd sp va e :
  vrel P O G a s → spaces a !! pd = Some sp → 0 ≤ va < PHYS_BASE → entry sp (pg_no va) = Some e →
  ∃ pt, G !! (pd, pd_no va) = Some pt ∧ word (memory (pool_of s)) (pt + 4 * pt_no va) = Some e ∧ entry_ok e ∧ pt + 4 * pt_no va ≠ NULL.
Proof.
  intros Hv Hsp Hva He. destruct (user_indices va Hva) as (H1 & H2 & H3). unfold entry in He. rewrite H3 in He.
  case_decide as Ht; [|done]. injection He as He. pose proof (vr_owns _ _ _ _ _ Hv) as Ho.
  assert (is_Some (G !! (pd, pd_no va))) as [pt Hpt] by (apply (ow_tables _ _ _ Ho); eauto).
  exists pt. split; [done|]. split; [rewrite (im_pte _ _ _ _ (vr_mem _ _ _ _ _ Hv) pd sp (pd_no va)), <-pg_no_split by done; by f_equal|].
  split; [|destruct (pt_page _ _ _ _ _ _ _ _ Hv Hpt) as ((? & _) & _); unfold NULL, PHYS_BASE in *; lia].
  destruct (entries sp !! pg_no va) as [x|] eqn:Ex; cbn in He; subst e; [by apply (ow_entry _ _ _ Ho pd sp (pg_no va))|apply entry_ok_0].
Qed.

Lemma lookup_pde P O G a s pd va :
  vrel P O G a s → is_Some (spaces a !! pd) → 0 ≤ va < PHYS_BASE →
  ∃ w, rd32 (pd + 4 * pd_no va) s = Ok (w, s) ∧ pde_is (G !! (pd, pd_no va)) w.
Proof.
  intros Hv Hpd Hva. destruct (user_indices va Hva) as (H1 & H2 & H3).
  destruct (im_pde _ _ _ _ (vr_mem _ _ _ _ _ Hv) pd (pd_no va) Hpd H1) as (w & Ew & Hw). exists w. split; [by apply rd32_ok|done].
Qed.

Lemma lookup_none P O G a s pd sp va :
  vrel P O G a s → spaces a !! pd = Some sp → 0 ≤ va < PHYS_BASE → entry sp (pg_no va) = None → lookup_page pd va false s = Ok (NULL, s).
Proof.
  intros Hv Hsp Hva He. assert (is_Some (spaces a !! pd)) as Hpd by by eexists.
  destruct (lookup_pde _ _ _ _ _ _ _ Hv Hpd Hva) as (w & Ew & Hw). destruct (user_indices va Hva) as (H1 & H2 & H3).
  assert (G !! (pd, pd_no va) = None) as Hg.
  { apply eq_None_not_Some. rewrite (ow_tables _ _ _ (vr_owns _ _ _ _ _ Hv)). unfold entry in He. rewrite H3 in He.
    case_decide; [done|]. intros (? & ? & ?). congruence. }
  rewrite Hg in Hw. cbn in Hw. subst w. unfold lookup_page. destruct (pd_page _ _ _ _ _ _ Hv Hpd) as (_ & _ & Hn).
  rewrite bool_decide_eq_true_2 by done. cbn [negb orb]. rewrite (bind_ok _ _ _ _ _ eq_refl), (bind_ok _ _ _ _ _ eq_refl).
  by rewrite (bind_ok _ _ _ _ _ Ew).
Qed.

Lemma lookup_some P O G a s pd sp va e b :
  vrel P O G a s → spaces a !! pd = Some sp → 0 ≤ va < PHYS_BASE → entry sp (pg_no va) = Some e →
  ∃ pt, G !! (pd, pd_no va) = Some pt ∧ word (memory (pool_of s)) (pt + 4 * pt_no va) = Some e ∧ entry_ok e ∧ pt + 4 * pt_no va ≠ NULL ∧
    lookup_page pd va b s = Ok (pt + 4 * pt_no va, s).
Proof.
  intros Hv Hsp Hva He. assert (is_Some (spaces a !! pd)) as Hpd by by eexists.
  destruct (entry_word _ _ _ _ _ _ _ _ _ Hv Hsp Hva He) as (pt & Hpt & Hw & Hok & Hn). exists pt. split_and!; [done..|].
  destruct (lookup_pde _ _ _ _ _ _ _ Hv Hpd Hva) as (w & Ew & Hpde). rewrite Hpt in Hpde.
  unfold lookup_page. destruct (pd_page _ _ _ _ _ _ Hv Hpd) as (_ & _ & Hnn). destruct (pt_page _ _ _ _ _ _ _ _ Hv Hpt) as (Hkp & _).
  rewrite bool_decide_eq_true_2 by done. unfold is_user_vaddr. rewrite bool_decide_eq_true_2 by lia. rewrite orb_true_r.
  rewrite (bind_ok _ _ _ _ _ eq_refl), (bind_ok _ _ _ _ _ eq_refl). rewrite (bind_ok _ _ _ _ _ Ew).
  rewrite decide_False by by eapply pde_is_nonzero. rewrite (bind_ok _ _ _ _ _ eq_refl), (bind_ok _ _ _ _ _ Ew).
  unfold lift. cbv [mbind M_bind]. by rewrite (pde_get_pt_ok pt w).
Qed.

(** ** Queries *)

Lemma mapping_entry sp va e : mapping sp va = Some e ↔ entry sp (pg_no va) = Some e ∧ present e.
Proof.
  unfold mapping. destruct (entry sp (pg_no va)) as [x|] eqn:Ex; cbn; [|split; [done|by intros [? _]]].
  case_decide; naive_solver.
Qed.
Lemma mapping_none sp va e : mapping sp va = None → entry sp (pg_no va) = Some e → ¬ present e.
Proof. intros Hm He Hp. assert (mapping sp va = Some e) by by apply mapping_entry. congruence. Qed.

Lemma user_vaddr va : va < PHYS_BASE → is_user_vaddr va = true.
Proof. intros. by apply bool_decide_eq_true_2. Qed.

Lemma frame_ofs e va : entry_ok e → u32 (frame e + pg_ofs va) = frame e + pg_ofs va.
Proof.
  intros (Hu & Hlt & _). apply wrapu_small. unfold frame. pose proof (Z.mod_pos_bound va PGSIZE). rewrite pg_ofs_eq. rewrite addr_eq in * by done.
  unfold in_u, PHYS_BASE in *. rewrite PGSIZE_eq in *. dlia.
Qed.

Lemma pagedir_get_page_ok P O G a s pd sp va :
  vrel P O G a s → spaces a !! pd = Some sp → 0 ≤ va < PHYS_BASE →
  pagedir_get_page pd va s = Ok (match mapping sp va with Some e => frame e + pg_ofs va | None => NULL end, s).
Proof.
  intros Hv Hsp Hva. unfold pagedir_get_page. rewrite user_vaddr by lia. rewrite (bind_ok _ _ _ _ _ eq_refl).
  unfold mapping. destruct (entry sp (pg_no va)) as [e|] eqn:Ee; cbn.
  - destruct (lookup_some _ _ _ _ _ _ _ _ _ false Hv Hsp Hva Ee) as (pt & Hpt & Hw & Hok & Hn & El).
    rewrite (bind_ok _ _ _ _ _ El), decide_False by done. rewrite (bind_ok _ _ _ _ _ (rd32_ok _ _ _ Hw)).
    destruct (decide (present e)) as [Hp|Hp]; [rewrite decide_True by exact Hp|by rewrite decide_False by exact Hp]. unfold lift. rewrite pte_get_page_ok by done. cbv [mbind M_bind mret M_ret].
    by rewrite frame_ofs.
  - rewrite (bind_ok _ _ _ _ _ (lookup_none _ _ _ _ _ _ _ _ Hv Hsp Hva Ee)). done.
Qed.

Lemma is_user_page_present_ok P O G a s pd sp va w :
  vrel P O G a s → spaces a !! pd = Some sp → 0 ≤ va < PHYS_BASE →
  is_user_page_present pd va w s =
    Ok (match mapping sp va with Some e => negb w || bool_decide (Z.land e PTE_W ≠ 0) | None => false end, s).
Proof.
  intros Hv Hsp Hva. unfold is_user_page_present. destruct (pd_page _ _ _ _ _ pd Hv) as (_ & _ & Hn); [by eexists|].
  rewrite bool_decide_eq_true_2 by done. rewrite user_vaddr by lia. rewrite !(bind_ok _ _ _ _ _ eq_refl).
  unfold mapping. destruct (entry sp (pg_no va)) as [e|] eqn:Ee; cbn.
  - destruct (lookup_some _ _ _ _ _ _ _ _ _ false Hv Hsp Hva Ee) as (pt & Hpt & Hw & Hok & Hnn & El).
    rewrite (bind_ok _ _ _ _ _ El), decide_False by done. rewrite (bind_ok _ _ _ _ _ (rd32_ok _ _ _ Hw)).
    destruct (decide (present e)) as [Hp|Hp]; [rewrite decide_True by exact Hp|by rewrite decide_False by exact Hp]. by destruct w.
  - rewrite (bind_ok _ _ _ _ _ (lookup_none _ _ _ _ _ _ _ _ Hv Hsp Hva Ee)). done.
Qed.

Lemma test_flag_ok P O G a s pd sp va f :
  vrel P O G a s → spaces a !! pd = Some sp → 0 ≤ va < PHYS_BASE → test_flag f pd va s = Ok (has_flag f sp va, s).
Proof.
  intros Hv Hsp Hva. unfold test_flag, has_flag. destruct (entry sp (pg_no va)) as [e|] eqn:Ee.
  - destruct (lookup_some _ _ _ _ _ _ _ _ _ false Hv Hsp Hva Ee) as (pt & Hpt & Hw & Hok & Hnn & El).
    rewrite (bind_ok _ _ _ _ _ El), decide_False by done. by rewrite (bind_ok _ _ _ _ _ (rd32_ok _ _ _ Hw)).
  - by rewrite (bind_ok _ _ _ _ _ (lookup_none _ _ _ _ _ _ _ _ Hv Hsp Hva Ee)).
Qed.

(** ** Writing entries *)

Lemma tlb_ok_entry t a pd sp n e' :
  tlb_ok t a → spaces a !! pd = Some sp →
  (pd = active a → ∀ e, entries sp !! n = Some e → present e → ∃ f, Z.land f (Z.lor PTE_A PTE_D) = f ∧ e' = Z.lor e f) →
  tlb_ok t (set_space pd (with_entry n e' sp) a).
Proof.
  intros Ht Hsp He k x Hk. destruct (Ht k x Hk) as (sp1 & e1 & Hs1 & He1 & Hp1 & Ha1 & f1 & Hf1 & ->).
  rewrite spaces_alt. change (active (set_space _ _ _)) with (active a). case_decide as Hd; [|exists sp1, (Z.lor x f1); split_and!; [done..|]; split_and!; [done..|]; by exists f1].
  assert (sp1 = sp) as -> by congruence. exists (with_entry n e' sp). destruct (decide (k = n)) as [->|].
  - exists e'. cbn. rewrite lookup_insert_eq. split_and!; [done..|]. split_and!; [done..|].
    destruct (He (eq_sym Hd) _ He1) as (f & Hf & ->).
    { unfold present in *. intros E. rewrite Z.land_lor_distr_l in E. by apply Z.lor_eq_0_iff in E as [? _]. }
    exists (Z.lor f1 f). split; [by rewrite Z.land_lor_distr_l, Hf1, Hf|by rewrite Z.lor_assoc].
  - exists (Z.lor x f1). cbn. rewrite lookup_insert_ne by done. split_and!; [done..|]. split_and!; [done..|]. by exists f1.
Qed.

Lemma page_word_mapped m k j : mapped m k PGSIZE → 0 ≤ j < 1024 → mapped m (k + 4 * j) 4.
Proof. intros Hm Hj x Hx. apply Hm. rewrite PGSIZE_eq. lia. Qed.

(** The memory part of writing an entry, for new owners [O']. *)
Lemma vrel_entry P O O' G a s pd sp va pt e l :
  vrel P O G a s → spaces a !! pd = Some sp → 0 ≤ va < PHYS_BASE → G !! (pd, pd_no va) = Some pt → in_u 32 e →
  dom O' = dom O → (∀ k o, O' !! k = Some o → data o → ∃ o', O !! k = Some o' ∧ data o') →
  owns O' G (set_loose l (set_space pd (with_entry (pg_no va) e sp) a)) →
  tlb_ok (tlb s) (set_space pd (with_entry (pg_no va) e sp) a) →
  vrel P O' G (set_loose l (set_space pd (with_entry (pg_no va) e sp) a)) (wrote (pt + 4 * pt_no va) e s).
Proof.
  intros Hv Hsp Hva Hpt Hu Hdom Hdata Ho Ht. destruct (user_indices va Hva) as (H1 & H2 & H3).
  destruct (pt_page _ _ _ _ _ _ _ _ Hv Hpt) as ((_ & _ & Hpa) & Hmap & _).
  apply (vrel_mem P O G a s); [done| |done|done| | |done| |done].
  - apply store_dom. rewrite le_bytes_length. by apply page_word_mapped.
  - apply (in_mem_data O); [|done]. rewrite pg_no_split. apply in_mem_entry; try done; [apply Hv|by eapply vrel_aligned|apply Hv].
  - apply changes_word; [|done]. apply (ow_table _ _ _ (vr_owns _ _ _ _ _ Hv)) in Hpt. by eexists.
  - intros Hs. cbn. rewrite lookup_insert_is_Some'. by right.
Qed.

(** ** Activation *)

Definition flush s : mmu S := Mmu (pool_of s) (init_page_dir s) (init_ram_pages s) (cr3 s) ∅.

Lemma vrel_flush P O G a s : vrel P O G a s → vrel P O G a (flush s).
Proof. intros []. by split. Qed.

Lemma active_page P O G a s : vrel P O G a s → kpage_ok (active a).
Proof.
  intros Hv. destruct (vr_active _ _ _ _ _ Hv) as [->|Ha]; [apply (init_page _ _ _ _ _ Hv)|apply (pd_page _ _ _ _ _ _ Hv Ha)].
Qed.

Lemma pagedir_activate_ok s pd :
  (pd = NULL → kpage_ok (init_page_dir s)) → (pd ≠ NULL → kpage_ok pd) → let d := if decide (pd = NULL) then init_page_dir s else pd in
  pagedir_activate pd s = Ok (tt, Mmu (pool_of s) (init_page_dir s) (init_ram_pages s) (d - PHYS_BASE) ∅).
Proof.
  intros Hi Hp d. unfold pagedir_activate. rewrite (bind_ok _ _ _ _ _ eq_refl). fold d.
  assert (kpage_ok d) as (H1 & H2 & _) by (unfold d; case_decide; auto). unfold lift. cbv [mbind M_bind].
  rewrite vtop_ok by (rewrite PGSIZE_eq in *; lia). done.
Qed.

Lemma vrel_activate P O G a s pd :
  vrel P O G a s → pd = NULL ∨ is_Some (spaces a !! pd) → let d := if decide (pd = NULL) then init_page_dir s else pd in
  ∃ s', pagedir_activate pd s = Ok (tt, s') ∧ vrel P O G (Vm (spaces a) (loose a) (bytes a) d) s'.
Proof.
  intros Hv Hpd d. eexists. split.
  - apply pagedir_activate_ok; [intros; apply (init_page _ _ _ _ _ Hv)|]. intros Hn. destruct Hpd; [done|]. by apply (pd_page _ _ _ _ _ _ Hv).
  - fold d. destruct Hv. split; cbn; try done; [by apply owns_active|by apply in_mem_active|lia|]. unfold d. case_decide; [by left|right]. by destruct Hpd.
Qed.

(** The directory is active: then the cache is emptied. *)
Lemma invalidate_ok P O G a s s1 pd :
  vrel P O G a s → is_Some (spaces a !! pd) → cr3 s1 = cr3 s →
  invalidate_pagedir pd s1 = Ok (tt, if decide (active a = pd) then flush s1 else s1).
Proof.
  intros Hv Hpd Hc. unfold invalidate_pagedir, active_pd. pose proof (vr_cr3 _ _ _ _ _ Hv) as Hcr. destruct (active_page _ _ _ _ _ Hv) as (H1 & H2 & _).
  assert (ptov (cr3 s1) = Ok (active a)) as Ea.
  { rewrite Hc, ptov_ok by (rewrite PGSIZE_eq in *; unfold PHYS_BASE in *; lia). f_equal. lia. }
  rewrite bind_assoc, (bind_ok _ _ _ _ _ eq_refl). unfold lift. cbv [mbind M_bind]. rewrite Ea. case_decide as Hd; [|done]. subst pd.
  destruct (pd_page _ _ _ _ _ _ Hv Hpd) as (Hk & _ & Hn). rewrite pagedir_activate_ok by done. rewrite decide_False by done.
  unfold flush. do 3 f_equal. rewrite Hc. lia.
Qed.

(** An entry is written and the cache invalidated. *)
Lemma update_entry P O O' G a s pd sp va pt e l :
  vrel P O G a s → spaces a !! pd = Some sp → 0 ≤ va < PHYS_BASE → G !! (pd, pd_no va) = Some pt → in_u 32 e →
  dom O' = dom O → (∀ k o, O' !! k = Some o → data o → ∃ o', O !! k = Some o' ∧ data o') →
  owns O' G (set_loose l (set_space pd (with_entry (pg_no va) e sp) a)) →
  ∃ s', (wr32 (pt + 4 * pt_no va) e;; invalidate_pagedir pd) s = Ok (tt, s') ∧
    vrel P O' G (set_loose l (set_space pd (with_entry (pg_no va) e sp) a)) s'.
Proof.
  intros Hv Hsp Hva Hpt Hu Hdom Hdata Ho. destruct (user_indices va Hva) as (H1 & H2 & H3).
  destruct (pt_page _ _ _ _ _ _ _ _ Hv Hpt) as (_ & Hmap & _).
  rewrite (bind_ok _ _ _ _ _ (wr32_ok _ _ e (word_mapped _ _ _ Hmap H2))).
  rewrite (invalidate_ok P O G a s) by (done || by eexists). eexists. split; [done|]. case_decide as Hd.
  - apply (vrel_entry P O O' G a (flush s) pd sp va pt e l); try done. by apply vrel_flush.
  - apply (vrel_entry P O O' G a s pd sp va pt e l); try done. apply tlb_ok_entry; [apply Hv|done|congruence].
Qed.

(** ** The operations on entries *)

Lemma entry_tables sp n e : entry sp n = Some e → n / 1024 ∈ tables sp.
Proof. unfold entry. by case_decide. Qed.

Lemma entry_entries sp n e x : entry sp n = Some e → entries sp !! n = Some x → e = x.
Proof. unfold entry. case_decide; [|done]. intros [= <-] ->. done. Qed.

Lemma data_same O k o : O !! k = Some o → data o → ∃ o', O !! k = Some o' ∧ data o'.
Proof. eauto. Qed.

(** A flag that says nothing about the address or the presence. *)
Definition plain (f : Z) : Prop := Z.land f (Z.lor PTE_A PTE_D) = f ∧ in_u 32 f.

Lemma plain_part f g : plain f → Z.land (Z.lor PTE_A PTE_D) g = 0 → Z.land f g = 0.
Proof. intros [Hf _] Hg. by rewrite <-Hf, <-Z.land_assoc, Hg, Z.land_0_r. Qed.

Lemma plain_clear f g : plain f → Z.land (Z.lor PTE_A PTE_D) g = 0 → Z.land g 0xffffffff = g → Z.land (not32 f) g = g.
Proof.
  intros Hf Hg Hu. pose proof (plain_part f g Hf Hg) as Hfg. apply Z.bits_inj'. intros i Hi.
  apply (f_equal (λ x, Z.testbit x i)) in Hfg, Hu. rewrite Z.land_spec in *. rewrite Z.bits_0 in Hfg. unfold not32. rewrite wrapu_bits by lia.
  case_decide as Hd; [rewrite Z.lnot_spec by done; destruct (Z.testbit f i), (Z.testbit g i); done|].
  change 0xffffffff with (Z.ones 32) in Hu. rewrite (Z.ones_spec_high 32 i), andb_false_r in Hu by lia. by rewrite <-Hu.
Qed.

Lemma plain_lor f e : plain f → entry_ok e → entry_ok (Z.lor e f) ∧ frame (Z.lor e f) = frame e ∧ (present (Z.lor e f) ↔ present e).
Proof.
  intros Hf He. unfold frame, present. rewrite !lor_keep by by apply plain_part. split_and!; [|done..].
  apply entry_ok_lor; [apply Hf| |done]. by apply plain_part.
Qed.

Lemma plain_land f e : plain f → entry_ok e →
  entry_ok (Z.land e (not32 f)) ∧ frame (Z.land e (not32 f)) = frame e ∧ (present (Z.land e (not32 f)) ↔ present e).
Proof.
  intros Hf He. unfold frame, present. rewrite !land_keep by by apply plain_clear. split_and!; [|done..].
  apply entry_ok_land; [by apply plain_clear..|done|]. unfold present. by rewrite land_keep by by apply plain_clear.
Qed.

Lemma set_flag_ok P O G a s pd sp va f b :
  vrel P O G a s → spaces a !! pd = Some sp → 0 ≤ va < PHYS_BASE → plain f →
  ∃ s', set_flag f pd va b s = Ok (tt, s') ∧ vrel P O G (set_space pd (put_flag f b va sp) a) s'.
Proof.
  intros Hv Hsp Hva Hf. unfold set_flag, put_flag. pose proof (vr_owns _ _ _ _ _ Hv) as Ho. destruct (entry sp (pg_no va)) as [e|] eqn:Ee.
  - destruct (lookup_some _ _ _ _ _ _ _ _ _ false Hv Hsp Hva Ee) as (pt & Hpt & Hw & Hok & Hn & El).
    rewrite (bind_ok _ _ _ _ _ El), decide_False by done. rewrite (bind_ok _ _ _ _ _ (rd32_ok _ _ _ Hw)). destruct b.
    + rewrite (wr32_ok _ _ (Z.lor e f)) by by eexists. eexists. split; [done|]. destruct (plain_lor f e Hf Hok) as (H1 & H2 & H3).
      apply (vrel_entry P O O G a s pd sp va pt _ (loose a)); try done; [apply H1|by eauto|by apply (owns_flags O G a pd sp _ e)|].
      apply tlb_ok_entry; [apply Hv|done|]. intros _ x Ex Hx. exists f. split; [apply Hf|]. by rewrite (entry_entries _ _ _ _ Ee Ex).
    + destruct (plain_land f e Hf Hok) as (H1 & H2 & H3).
      apply (update_entry P O O G a s pd sp va pt _ (loose a)); try done; [apply H1|by eauto|by apply (owns_flags O G a pd sp _ e)].
  - rewrite (bind_ok _ _ _ _ _ (lookup_none _ _ _ _ _ _ _ _ Hv Hsp Hva Ee)). exists s. split; [done|].
    assert (set_space pd sp a = a) as -> by (unfold set_space; rewrite insert_id by done; by destruct a). done.
Qed.

Lemma pg_ofs_page u : u mod PGSIZE = 0 → bool_decide (pg_ofs u = 0) = true.
Proof. intros. apply bool_decide_eq_true_2. by rewrite pg_ofs_eq. Qed.

Lemma clear_present e : entry_ok e → entry_ok (Z.land e (not32 PTE_P)) ∧ ¬ present (Z.land e (not32 PTE_P)).
Proof.
  intros He. assert (¬ present (Z.land e (not32 PTE_P))) as Hn; [|split; [by apply entry_ok_land|done]].
  unfold present. rewrite <-Z.land_assoc. change (Z.land (not32 PTE_P) PTE_P) with 0. rewrite Z.land_0_r. lia.
Qed.

Lemma frame_owned O G a pd sp n e : owns O G a → spaces a !! pd = Some sp → entry sp n = Some e → present e → O !! frame e = Some (Frame pd n).
Proof.
  intros Ho Hsp He Hp. apply (ow_frame _ _ _ Ho). exists sp, e. unfold entry in He. case_decide; [|done]. injection He as He.
  destruct (entries sp !! n) as [x|]; cbn in He; subst; done.
Qed.

Lemma pagedir_clear_page_ok P O G a s pd sp u :
  vrel P O G a s → spaces a !! pd = Some sp → user_page u →
  ∃ s' a' O', pagedir_clear_page pd u s = Ok (tt, s') ∧ vrel P O' G a' s' ∧ spec a (Clear pd u) Done a'.
Proof.
  intros Hv Hsp [Hu Hal]. unfold pagedir_clear_page. rewrite pg_ofs_page, user_vaddr by (done || lia). rewrite !(bind_ok _ _ _ _ _ eq_refl).
  pose proof (vr_owns _ _ _ _ _ Hv) as Ho. destruct (entry sp (pg_no u)) as [e|] eqn:Ee.
  - destruct (lookup_some _ _ _ _ _ _ _ _ _ false Hv Hsp Hu Ee) as (pt & Hpt & Hw & Hok & Hn & El).
    rewrite (bind_ok _ _ _ _ _ El), decide_False by done. rewrite (bind_ok _ _ _ _ _ (rd32_ok _ _ _ Hw)).
    destruct (decide (present e)) as [Hp|Hp]; [rewrite decide_True by exact Hp|rewrite decide_False by exact Hp].
    + destruct (clear_present e Hok) as [Hok' Hnp]. pose proof (frame_owned O G a pd sp _ e Ho Hsp Ee Hp) as Hfo.
      destruct (update_entry P O (<[frame e := Loose]> O) G a s pd sp u pt (Z.land e (not32 PTE_P)) ({[frame e]} ∪ loose a)) as (s' & E & Hv'); try done.
      * apply Hok'.
      * apply dom_insert_lookup_L. by eexists.
      * intros k o [[<- <-]|[_ Hk]]%lookup_insert_Some Hd; [by exists (Frame pd (pg_no u))|by eauto].
      * by apply owns_clear.
      * exists s'. eexists _, _. split; [done|]. split; [done|]. apply spec_clear; [done|]. by apply mapping_entry.
    + exists s, a, O. split_and!; [done..|]. apply (spec_clear_nothing a pd sp); [done|]. destruct (mapping sp u) as [x|] eqn:Ex; [|done].
      apply mapping_entry in Ex as [Ex Hx]. rewrite Ee in Ex. by injection Ex as <-.
  - rewrite (bind_ok _ _ _ _ _ (lookup_none _ _ _ _ _ _ _ _ Hv Hsp Hu Ee)). exists s, a, O. split_and!; [done..|].
    apply (spec_clear_nothing a pd sp); [done|]. unfold mapping. by rewrite Ee.
Qed.

(** ** Pages that change hands *)

Lemma get_page_range s flags k p :
  pa_wf (pool_of s) → get_page flags s = Ok (k, set_pool p s) → pool_range p = pool_range (pool_of s).
Proof.
  intros Hw E. apply (pool_range_get _ flags 1 k); [done|lia|]. unfold get_page, on_pool, zoom in E. change (Z.of_nat 1) with 1.
  destruct (pa_get flags 1 (pool_of s)) as [[x q]|]; [|done]. injection E as -> E. by rewrite E.
Qed.

(** A page from the allocator, of which the kernel has the use. *)
Lemma get_page_ok P O G a s flags :
  vrel P O G a s → Z.land flags PAL_ASSERT = 0 →
  ∃ k s', get_page flags s = Ok (k, s') ∧ init_page_dir s' = init_page_dir s ∧
    ((k = NULL ∧ vrel P O G a s') ∨
     (k ≠ NULL ∧ k ∉ P ∧ O !! k = None ∧ vrel ({[k]} ∪ P) O G a s' ∧ kpage_ok k ∧
      (∀ x, ¬ (k ≤ x < k + PGSIZE) → memory (pool_of s') !! x = memory (pool_of s) !! x) ∧
      (Z.land flags PAL_ZERO ≠ 0 → ∀ x, k ≤ x < k + PGSIZE → memory (pool_of s') !! x = Some 0))).
Proof.
  intros Hv Hf. destruct (take_page s flags (vr_wf _ _ _ _ _ Hv)) as [[_ ?]|(k & p & E & W1 & [(-> & _ & W2 & W3)|(Hn & Hkp & Hk & W6 & Hout & Hz)])]; [done|..].
  - exists NULL, (set_pool p s). split_and!; [done..|]. left. split; [done|]. pose proof (get_page_range _ _ _ _ (vr_wf _ _ _ _ _ Hv) E) as Hpr.
    destruct Hv as [V1 V2 V3 V4 V5 V6 V7 V8 V9 V10 V11 V12]. split; cbn; rewrite ?W2, ?W3; try done. apply (kern_change P (pool_of s)); [done..|]. intros x _. by rewrite W3.
  - rewrite (vr_held _ _ _ _ _ Hv) in W6, Hk. apply not_elem_of_union in Hk as [HkP HkO].
    exists k, (set_pool p s). split_and!; [done..|]. right. split_and!; [done|done|by apply not_elem_of_dom| |apply Hkp..|done|done].
    + pose proof (vrel_aligned _ _ _ _ _ Hv) as Hal. pose proof (init_page _ _ _ _ _ Hv) as ((_ & _ & Hia) & _ & _).
      pose proof (get_page_range _ _ _ _ (vr_wf _ _ _ _ _ Hv) E) as Hpr.
      assert (k ≠ init_page_dir s) as Hki by (intros ->; by apply HkP, (vr_init _ _ _ _ _ Hv)).
      assert (∀ q x, q mod PGSIZE = 0 → q ≠ k → q ≤ x < q + PGSIZE → memory p !! x = memory (pool_of s) !! x) as Hpg.
      { intros q x Hq Hne Hx. apply Hout. apply (pages_apart q k); try done. apply Hkp. }
      destruct Hv as [V1 V2 V3 V4 V5 V6 V7 V8 V9 V10 V11 V12].
      split; cbn; try done.
      * rewrite W6. by rewrite (assoc_L (∪)).
      * clear -V3 HkO. set_solver.
      * apply (in_mem_same O G a (memory (pool_of s))); [done..|]. intros q x Hq. apply Hpg; [by apply Hal|]. apply elem_of_dom in Hq. by intros ->.
      * by apply elem_of_union_r.
      * intros i Hi. rewrite <-(V7 i Hi). apply word_ext. intros x Hx. apply (Hpg (init_page_dir s)); [done|by apply not_eq_sym|rewrite PGSIZE_eq; lia].
      * apply (kern_pages P); [|by apply union_subseteq_r'; apply V12]. apply (kern_change P (pool_of s)); [done..|]. intros x Hx. apply Hout.
        apply Hx; [|intros Hp; by apply HkP, (kn_pinned _ _ _ V12)]. rewrite <-(kn_pool _ _ _ V12), <-Hpr. apply (pool_range_held _ W1). rewrite W6. clear. set_solver.
Qed.

(** A page of the kernel goes to a directory or the client, and memory changes. *)
Lemma vrel_own P O G a s k o G' a' m :
  vrel ({[k]} ∪ P) O G a s → k ∉ P → k ≠ init_page_dir s → dom m = dom (memory (pool_of s)) →
  owns (<[k := o]> O) G' a' → in_mem (<[k := o]> O) G' a' m →
  changes (<[k := o]> O) (memory (pool_of s)) m → pinned ke ⊆ P →
  active a' = active a → (is_Some (spaces a !! active a) → is_Some (spaces a' !! active a)) → tlb_ok (tlb s) a' →
  vrel P (<[k := o]> O) G' a' (set_pool (set_memory m (pool_of s)) s).
Proof.
  intros Hv Hk Hki Hdm Ho Hm Hc Hpin Hac Hsp Ht. pose proof (vrel_aligned _ _ _ _ _ Hv) as Hal. destruct (init_page _ _ _ _ _ Hv) as ((_ & _ & Hia) & _ & _).
  assert (O !! init_page_dir s = None) as Hin by (apply eq_None_not_Some; intros Hs; by apply (init_not_owned _ _ _ _ _ _ Hv Hs)).
  assert (k ∈ held (pool_of s)) as Hkh by (rewrite (vr_held _ _ _ _ _ Hv); clear; set_solver).
  destruct (held_page s k (vr_wf _ _ _ _ _ Hv) Hkh) as ((_ & _ & Hka) & _ & _).
  assert (∀ q, is_Some (<[k := o]> O !! q) → q ∈ universe ke ∧ q ∉ pinned ke) as Hun.
  { intros q [<-|[Hne Hq]]%lookup_insert_is_Some; [|by apply (owned_universe ({[k]} ∪ P) O G a s)]. split; [|intros Hp; by apply Hk, Hpin].
    rewrite <-(kn_pool _ _ _ (vr_kern _ _ _ _ _ Hv)). by apply (pool_range_held _ (vr_wf _ _ _ _ _ Hv)). }
  destruct Hv as [V1 V2 V3 V4 V5 V6 V7 V8 V9 V10 V11 V12].
  destruct (pa_set_memory _ m V1 Hdm) as (W1 & W2 & W3). split; cbn.
  - done.
  - rewrite W2, V2, dom_insert_L. clear. set_solver.
  - rewrite dom_insert_L. clear -V3 Hk. set_solver.
  - done.
  - by rewrite W3.
  - clear -V6 Hki. set_solver.
  - intros i Hi. rewrite W3, (changes_init (<[k := o]> O) (memory (pool_of s)) m); [by apply V7|done| |done|by rewrite lookup_insert_ne|lia].
    intros q [<-|[_ Hq]]%lookup_insert_is_Some; [done|by apply Hal].
  - by rewrite Hac.
  - rewrite Hac. destruct V9; [by left|right; by apply Hsp].
  - done.
  - done.
  - apply (kern_pages ({[k]} ∪ P)); [|done]. apply (kern_change _ (pool_of s)); [done|apply pool_range_set|]. intros x Hx. rewrite W3. apply Hc. intros q [Hq1 Hq2]%Hun. by apply Hx.
Qed.

(** Pages go back to the kernel. *)
Lemma vrel_disown P O G a s O' G' a' :
  vrel P O G a s → dom O' ⊆ dom O → owns O' G' a' → in_mem O' G' a' (memory (pool_of s)) →
  active a' = active a → (is_Some (spaces a !! active a) → is_Some (spaces a' !! active a)) → tlb_ok (tlb s) a' →
  vrel (P ∪ (dom O ∖ dom O')) O' G' a' s.
Proof.
  intros Hv Hd Ho Hm Hac Hsp Ht. destruct Hv as [V1 V2 V3 V4 V5 V6 V7 V8 V9 V10 V11 V12]. split; try done.
  - rewrite V2. apply set_eq. intros x. rewrite !elem_of_union, elem_of_difference. destruct (decide (x ∈ dom O')) as [Hx|Hx]; clear -Hd Hx; set_solver.
  - clear -Hd V3. set_solver.
  - by apply elem_of_union_l.
  - by rewrite Hac.
  - rewrite Hac. destruct V9; [by left|right; by apply Hsp].
  - apply (kern_pages P); [done|]. apply union_subseteq_l', V12.
Qed.

(** The kernel frees a page. *)
Lemma free_page_ok P O G a s k :
  vrel P O G a s → k ∈ P → k ≠ init_page_dir s → k ∉ pinned ke →
  ∃ s', free_page k s = Ok (tt, s') ∧ vrel (P ∖ {[k]}) O G a s' ∧ init_page_dir s' = init_page_dir s ∧
    ∀ q x, q mod PGSIZE = 0 → q ≠ k → q ≤ x < q + PGSIZE → memory (pool_of s') !! x = memory (pool_of s) !! x.
Proof.
  intros Hv Hk Hki Hkpin. unfold free_page, on_pool. pose proof (vr_held _ _ _ _ _ Hv) as Hh.
  destruct (pa_free_ok (pool_of s) k 1 (vr_wf _ _ _ _ _ Hv) ltac:(lia)) as (p & E & W1 & W2 & W3); [rewrite pages_one, Hh; clear -Hk; set_solver|].
  change (Z.of_nat 1) with 1 in *. destruct (held_page s k (vr_wf _ _ _ _ _ Hv)) as ((_ & _ & Hka) & _ & _); [rewrite Hh; by apply elem_of_union_l|].
  assert (∀ q x, q mod PGSIZE = 0 → q ≠ k → q ≤ x < q + PGSIZE → memory p !! x = memory (pool_of s) !! x) as Hpg.
  { intros q x Hq Hne Hx. rewrite W3, store_lookup, decide_False; [done|]. rewrite length_replicate, Z2Nat.id, Z.mul_1_r by (rewrite PGSIZE_eq; lia).
    intros Hx'. apply (pages_apart q k x Hq Hka Hne Hx). lia. }
  assert (∀ x, ¬ (k ≤ x < k + PGSIZE) → memory p !! x = memory (pool_of s) !! x) as Hout.
  { intros x Hx. rewrite W3, store_lookup, decide_False; [done|]. rewrite length_replicate, Z2Nat.id by (rewrite PGSIZE_eq; lia). lia. }
  assert (pool_range p = pool_range (pool_of s)) as Hpr.
  { apply (pool_range_free (pool_of s) k 1); [apply Hv|lia|rewrite pages_one, Hh; clear -Hk; set_solver|done]. }
  clear W3. exists (set_pool p s). rewrite (zoom_ok _ _ _ _ _ _ E). split_and!; [done| |done|done].
  pose proof (vrel_aligned _ _ _ _ _ Hv) as Hal. pose proof (init_page _ _ _ _ _ Hv) as ((_ & _ & Hia) & _ & _).
  destruct Hv as [V1 V2 V3 V4 V5 V6 V7 V8 V9 V10 V11 V12]. split; cbn; try done.
  - rewrite W2, V2, pages_one. clear -V3 Hk. set_solver.
  - clear -V3. set_solver.
  - apply (in_mem_same O G a (memory (pool_of s))); [done..|]. intros q x Hq. apply Hpg; [by apply Hal|]. apply elem_of_dom in Hq. clear -V3 Hk Hq. set_solver.
  - clear -V6 Hki. set_solver.
  - intros i Hi. rewrite <-(V7 i Hi). apply word_ext. intros x Hx. apply (Hpg (init_page_dir s)); [done|by apply not_eq_sym|rewrite PGSIZE_eq; lia].
  - apply (kern_pages P); [|pose proof (kn_pinned _ _ _ V12); clear -H Hkpin; set_solver]. apply (kern_change P (pool_of s)); [done..|].
    intros x Hx. apply Hout. apply Hx; [|done]. rewrite <-(kn_pool _ _ _ V12). apply (pool_range_held _ V1). rewrite Hh. by apply elem_of_union_l.
Qed.

(** The same without a change of memory. *)
Lemma vrel_give P O G a s k o G' a' :
  vrel ({[k]} ∪ P) O G a s → k ∉ P → k ≠ init_page_dir s →
  owns (<[k := o]> O) G' a' → in_mem (<[k := o]> O) G' a' (memory (pool_of s)) → pinned ke ⊆ P →
  active a' = active a → (is_Some (spaces a !! active a) → is_Some (spaces a' !! active a)) → tlb_ok (tlb s) a' →
  vrel P (<[k := o]> O) G' a' s.
Proof.
  intros Hv Hk Hki Ho Hm Hpin Hac Hsp Ht. destruct Hv as [V1 V2 V3 V4 V5 V6 V7 V8 V9 V10 V11 V12]. split; try done.
  - rewrite V2, dom_insert_L. clear. set_solver.
  - rewrite dom_insert_L. clear -V3 Hk. set_solver.
  - clear -V6 Hki. set_solver.
  - by rewrite Hac.
  - rewrite Hac. destruct V9; [by left|right; by apply Hsp].
  - by apply (kern_pages ({[k]} ∪ P)).
Qed.

(** ** The client's pages *)

(** The contents [b] with page [k] from the memory [m]. *)
Definition page_from (k : Z) (m b : mem) : mem :=
  filter (λ xv, k ≤ xv.1 ∧ xv.1 < k + PGSIZE) m ∪ filter (λ xv, ¬ (k ≤ xv.1 ∧ xv.1 < k + PGSIZE)) b.

Lemma page_from_in k m b x : k ≤ x < k + PGSIZE → page_from k m b !! x = m !! x.
Proof.
  intros Hx. unfold page_from. destruct (m !! x) as [v|] eqn:E.
  - apply lookup_union_Some_l. by apply map_lookup_filter_Some.
  - apply lookup_union_None. split; [apply map_lookup_filter_None; by left|]. apply map_lookup_filter_None. right. intros v _. cbn. tauto.
Qed.
Lemma page_from_out k m b x : ¬ (k ≤ x < k + PGSIZE) → page_from k m b !! x = b !! x.
Proof.
  intros Hx. unfold page_from. rewrite lookup_union_r by (apply map_lookup_filter_None; right; intros v _; cbn; tauto).
  destruct (b !! x) as [v|] eqn:E; [by apply map_lookup_filter_Some|apply map_lookup_filter_None; by left].
Qed.

Lemma in_mem_get O G a m k :
  in_mem O G a m → aligned O → O !! k = None → k mod PGSIZE = 0 →
  in_mem (<[k := Loose]> O) G (set_bytes (page_from k m (bytes a)) (set_loose ({[k]} ∪ loose a) a)) m.
Proof.
  intros Hm Hal Hk Hka. split; [apply Hm|apply Hm|]. cbn. intros q o x Hq Hd Hx.
  apply lookup_insert_Some in Hq as [[<- <-]|[Hne Hq]]; [by rewrite page_from_in|].
  rewrite page_from_out; [by apply (im_bytes _ _ _ _ Hm q o)|]. apply (pages_apart q k); [apply Hal; by eexists|done..].
Qed.

Lemma unused_free O G a k : owns O G a → O !! k = None → unused k a.
Proof.
  intros Ho Hk. split; [rewrite <-(ow_loose _ _ _ Ho); congruence|]. intros pd sp n e Hsp He Hp Hf.
  assert (O !! k = Some (Frame pd n)) by (apply (ow_frame _ _ _ Ho); by exists sp, e). congruence.
Qed.

Lemma vm_get P a s flags :
  represents P a s → Z.land flags PAL_ASSERT = 0 →
  ∃ k s' a', get_page flags s = Ok (k, s') ∧ represents P a' s' ∧ spec a (GetPage flags) (Address k) a'.
Proof.
  intros (O & G & Hv) Hf. destruct (get_page_ok _ _ _ _ _ _ Hv Hf) as (k & s' & E & Ei & [[-> Hv']|(Hn & HkP & HkO & Hv' & Hkp & Hout & Hz)]).
  - exists NULL, s', a. split; [done|]. split; [by exists O, G|constructor].
  - pose proof (vrel_aligned _ _ _ _ _ Hv) as Hal. assert (k ≠ init_page_dir s') as Hki.
    { rewrite Ei. intros ->. by apply HkP, (vr_init _ _ _ _ _ Hv). }
    exists k, s', (set_bytes (page_from k (memory (pool_of s')) (bytes a)) (set_loose ({[k]} ∪ loose a) a)). split; [done|]. split.
    + exists (<[k := Loose]> O), G. apply (vrel_give P O G a); try done; [|by apply in_mem_get; [apply Hv'|..|apply Hkp]|apply Hv|apply Hv'].
      by apply owns_bytes, owns_get; [apply Hv|].
    + apply spec_page; [done|apply (unused_free O G); [apply Hv|done]| |].
      * intros x Hx. by apply page_from_out.
      * intros Hfz x Hx. rewrite page_from_in by done. by apply Hz.
Qed.

Lemma vm_free P a s k :
  represents P a s → k ∈ loose a → ∃ s' a', free_page k s = Ok (tt, s') ∧ represents P a' s' ∧ spec a (FreePage k) Done a'.
Proof.
  intros (O & G & Hv) Hk. pose proof (vr_owns _ _ _ _ _ Hv) as Ho. assert (O !! k = Some Loose) as Hok by by apply (ow_loose _ _ _ Ho).
  assert (vrel (P ∪ (dom O ∖ dom (delete k O))) (delete k O) G (set_loose (loose a ∖ {[k]}) a) s) as Hv1.
  { apply (vrel_disown P O G a); try done; [rewrite dom_delete_L; clear; set_solver|by apply owns_free| |apply Hv].
    apply (in_mem_data O); [apply Hv|]. intros q o [_ Hq]%lookup_delete_Some. by eauto. }
  assert (k ∈ dom O) as Hkd by (apply elem_of_dom; by eexists). assert (k ∉ P) as HkP by (intros ?; by apply (vr_disj _ _ _ _ _ Hv k)).
  replace (P ∪ (dom O ∖ dom (delete k O))) with ({[k]} ∪ P) in Hv1.
  2:{ rewrite dom_delete_L. apply set_eq. intros x. destruct (decide (x = k)) as [->|Hx]; [clear -Hkd; set_solver|clear -Hx; set_solver]. }
  destruct (free_page_ok _ _ _ _ _ k Hv1) as (s' & E & Hv2 & _); [clear; set_solver|apply (init_not_owned P O G a s k Hv); by eexists|by apply (owned_universe P O G a s k Hv)|].
  exists s', (set_loose (loose a ∖ {[k]}) a). split; [done|]. split; [|constructor]. exists (delete k O), G.
  by replace (({[k]} ∪ P) ∖ {[k]}) with P in Hv2 by (clear -HkP; set_solver).
Qed.

(** A page that holds data changes. *)
Lemma vrel_page P O G a s k o m :
  vrel P O G a s → O !! k = Some o → data o → dom m = dom (memory (pool_of s)) →
  (∀ x, ¬ (k ≤ x < k + PGSIZE) → m !! x = memory (pool_of s) !! x) →
  vrel P O G (set_bytes (page_from k m (bytes a)) a) (set_pool (set_memory m (pool_of s)) s).
Proof.
  intros Hv Hk Hd Hdm Hout. assert (is_Some (O !! k)) as Hko by by eexists. destruct (owned_page _ _ _ _ _ k Hv Hko) as ((_ & _ & Hka) & _ & _).
  pose proof (vrel_aligned _ _ _ _ _ Hv) as Hal.
  assert (∀ q o' x, O !! q = Some o' → q ≠ k → q ≤ x < q + PGSIZE → m !! x = memory (pool_of s) !! x) as Hm.
  { intros q o' x Hq Hne Hx. apply Hout. apply (pages_apart q k); [apply Hal; by eexists|done..]. }
  assert (∀ q o', O !! q = Some o' → ¬ data o' → q ≠ k) as Hne by (intros q o' Hq Hnd ->; rewrite Hk in Hq; by injection Hq as <-).
  destruct Hv as [V1 V2 V3 V4 V5 V6 V7 V8 V9 V10 V11 V12] eqn:EV. clear EV. apply (vrel_mem P O G a s); try done.
  - by apply owns_bytes.
  - split.
    + intros pd i Hpd Hi. assert (O !! pd = Some Dir) as Hod by by apply (ow_dir _ _ _ V4). destruct (im_pde _ _ _ _ V5 pd i Hpd Hi) as (w & Ew & Hw).
      exists w. split; [|done]. rewrite <-Ew. apply word_ext. intros x Hx. apply (Hm pd Dir); [done|by apply (Hne _ _ Hod); intros []|rewrite PGSIZE_eq; lia].
    + intros pd sp i pt j Hsp Hpt Hj. assert (O !! pt = Some (Table pd i)) as Hot by by apply (ow_table _ _ _ V4).
      rewrite <-(im_pte _ _ _ _ V5 pd sp i pt j) by done. apply word_ext. intros x Hx.
      apply (Hm pt (Table pd i)); [done|by apply (Hne _ _ Hot); intros []|rewrite PGSIZE_eq; lia].
    + intros q o' y Hq Hd' Hy. cbn. destruct (decide (q = k)) as [->|]; [by rewrite page_from_in|].
      rewrite page_from_out by (apply (pages_apart q k); [apply Hal; by eexists|done..]). rewrite (Hm q o') by done. by apply (im_bytes _ _ _ _ V5 q o').
  - intros x Hx. apply Hout. by apply Hx.
Qed.

(** A byte of a page of the client is written. *)
Lemma write_byte P O G a s k o x b :
  vrel P O G a s → O !! k = Some o → data o → k ≤ x < k + PGSIZE →
  ∃ s', on_memory (wr8 x b) s = Ok (tt, s') ∧ vrel P O G (set_bytes (<[x := b]> (bytes a)) a) s'.
Proof.
  intros Hv Hk Hd Hx. destruct (owned_page _ _ _ _ _ k Hv ltac:(by eexists)) as (_ & Hmap & _). pose proof (Hmap x Hx) as Hxm.
  exists (set_pool (set_memory (<[x := b]> (memory (pool_of s))) (pool_of s)) s). split.
  { unfold on_memory, on_pool. apply zoom_ok. apply zoom_ok. by apply wr8_ok. }
  assert (<[x := b]> (bytes a) = page_from k (<[x := b]> (memory (pool_of s))) (bytes a)) as ->.
  { apply map_eq. intros y. destruct (decide (k ≤ y < k + PGSIZE)) as [Hy|Hy].
    - rewrite page_from_in by done. destruct (decide (y = x)) as [->|]; [by rewrite !lookup_insert_eq|]. rewrite !lookup_insert_ne by done.
      symmetry. by apply (im_bytes _ _ _ _ (vr_mem _ _ _ _ _ Hv) k o).
    - rewrite page_from_out by done. rewrite lookup_insert_ne; [done|]. by intros ->. }
  apply (vrel_page P O G a s k o); [done..|by apply dom_insert_lookup_L|]. intros y Hy. rewrite lookup_insert_ne; [done|]. by intros ->.
Qed.

(** ** Creating a directory *)

Lemma in_mem_create O G a m k bs :
  owns O G a → in_mem O G a m → aligned O → O !! k = None → k mod PGSIZE = 0 → Z.of_nat (length bs) = PGSIZE →
  (∀ i, 0 ≤ i < 768 → word (store k bs m) (k + 4 * i) = Some 0) →
  in_mem (<[k := Dir]> O) G (set_space k (Space ∅ ∅) a) (store k bs m).
Proof.
  intros Ho Hm Hal Hk Hka Hlen Hz.
  assert (∀ q x, is_Some (O !! q) → q ≤ x < q + PGSIZE → store k bs m !! x = m !! x) as Hs.
  { intros q x Hq Hx. rewrite <-(Z.add_0_r k). apply (store_other m k 0 bs q); [done|by apply Hal|intros ->; by rewrite Hk in Hq; destruct Hq|lia..]. }
  pose proof (in_mem_same O G a m _ Ho Hm Hs) as Hm'. split; cbn.
  - intros pd i Hpd Hi. apply lookup_insert_is_Some in Hpd as [<-|[Hne Hpd]]; [|by apply Hm'].
    exists 0. split; [by apply Hz|]. assert (G !! (k, i) = None) as ->; [|done]. apply eq_None_not_Some.
    rewrite (ow_tables _ _ _ Ho). intros (sp & Hsp & _). assert (O !! k = Some Dir) by (apply (ow_dir _ _ _ Ho); by eexists). congruence.
  - intros pd sp i pt j [[<- <-]|[Hne Hsp]]%lookup_insert_Some Hpt Hj; [|by apply (im_pte _ _ _ _ Hm' pd)].
    assert (∃ sp, spaces a !! k = Some sp ∧ i ∈ tables sp) as (sp & Hsp & _) by (apply (ow_tables _ _ _ Ho); by eexists).
    assert (O !! k = Some Dir) by (apply (ow_dir _ _ _ Ho); by eexists). congruence.
  - intros q o x [[<- <-]|[Hne Hq]]%lookup_insert_Some Hd Hx; [done|]. by apply (im_bytes _ _ _ _ Hm' q o).
Qed.

(** The bytes of a page. *)
Lemma page_bytes m k : mapped m k PGSIZE → ∃ bs, bytes_at m k bs ∧ Z.of_nat (length bs) = PGSIZE ∧ ∀ j, 0 ≤ j → j < PGSIZE → bs !! Z.to_nat j = m !! (k + j).
Proof.
  intros Hm. exists (bytes_of m k PGSIZE). destruct (bytes_of_at m k PGSIZE) as [H1 H2]; [rewrite PGSIZE_eq; lia|done|].
  split; [done|]. split; [done|]. intros j H3 H4. by apply bytes_of_lookup.
Qed.

(** Words of a copy of a page. *)
Lemma word_copy m k q bs i :
  Z.of_nat (length bs) = PGSIZE → (∀ j, 0 ≤ j → j < PGSIZE → bs !! Z.to_nat j = m !! (q + j)) → 0 ≤ i < 1024 →
  word (store k bs m) (k + 4 * i) = word m (q + 4 * i).
Proof.
  intros Hlen Hb Hi. assert (∀ j, 0 ≤ j < 4 → store k bs m !! (k + 4 * i + j) = m !! (q + 4 * i + j)) as Hj.
  { intros j Hj. rewrite store_lookup, Hlen, decide_True by (rewrite PGSIZE_eq; lia).
    rewrite Hb by (rewrite ?PGSIZE_eq; lia). f_equal. lia. }
  unfold word. rewrite <-(Z.add_0_r (k + 4 * i)), <-(Z.add_0_r (q + 4 * i)), Hj by lia. rewrite !Z.add_0_r. by rewrite !Hj by lia.
Qed.

Lemma tlb_ok_create t a k : tlb_ok t a → spaces a !! k = None → tlb_ok t (set_space k (Space ∅ ∅) a).
Proof.
  intros Ht Hk n e Hn. destruct (Ht n e Hn) as (sp & e' & Hsp & He). exists sp, e'. split; [|done]. cbn. by rewrite lookup_insert_ne by congruence.
Qed.

Lemma vm_create P a s :
  represents P a s → ∃ pd s' a', pagedir_create s = Ok (pd, s') ∧ represents P a' s' ∧ spec a Create (Address pd) a'.
Proof.
  intros (O & G & Hv). unfold pagedir_create. destruct (get_page_ok _ _ _ _ _ 0 Hv eq_refl) as (k & s' & E & Ei & Hcase).
  rewrite (bind_ok _ _ _ _ _ E), (bind_ok _ _ _ _ _ eq_refl). destruct Hcase as [[-> Hv']|(Hn & HkP & HkO & Hv' & Hkp & Hout & _)].
  - exists NULL, s', a. split; [done|]. split; [by exists O, G|constructor].
  - rewrite decide_True by done. pose proof (vrel_aligned _ _ _ _ _ Hv) as Hal. destruct (init_page _ _ _ _ _ Hv') as (Hikp & Himap & Hin).
    assert (k ≠ init_page_dir s') as Hki by (rewrite Ei; intros ->; by apply HkP, (vr_init _ _ _ _ _ Hv)).
    set (m := memory (pool_of s')) in *. destruct (page_bytes m (init_page_dir s') Himap) as (bs & Hbs & Hlen & Hbl).
    destruct (held_page s' k (vr_wf _ _ _ _ _ Hv')) as (_ & Hkmap & _).
    { rewrite (vr_held _ _ _ _ _ Hv'). clear. set_solver. }
    assert (k + PGSIZE ≤ init_page_dir s' ∨ init_page_dir s' + PGSIZE ≤ k) as Hdis.
    { destruct Hkp as (_ & _ & Ha), Hikp as (_ & _ & Hb). rewrite PGSIZE_eq in *. clear -Ha Hb Hki. dlia. }
    assert (on_memory (memcpy k (init_page_dir s') PGSIZE) s' = Ok (k, set_pool (set_memory (store k bs m) (pool_of s')) s')) as Ec.
    { unfold on_memory, on_pool. apply zoom_ok, zoom_ok. rewrite <-Hlen. apply memcpy_ok; by rewrite ?Hlen. }
    exists k, (set_pool (set_memory (store k bs m) (pool_of s')) s'), (set_space k (Space ∅ ∅) a). split.
    { rewrite bind_assoc, (bind_ok _ _ _ _ _ Ec). done. }
    assert (∀ i, 0 ≤ i < 768 → word (store k bs m) (k + 4 * i) = Some 0) as Hz.
    { intros i Hi. rewrite <-(vr_init_mem _ _ _ _ _ Hv' i Hi). apply word_copy; [done..|lia]. }
    assert (spaces a !! k = None) as Hsk.
    { apply eq_None_not_Some. rewrite <-(ow_dir _ _ _ (vr_owns _ _ _ _ _ Hv)). congruence. }
    assert (k ≠ active a) as Hka.
    { intros ->. destruct (vr_active _ _ _ _ _ Hv) as [Ha|[? Ha]]; [rewrite Ha, <-Ei in Hki; done|congruence]. }
    split; [|by apply spec_create]. exists (<[k := Dir]> O), G. apply (vrel_own P O G a); try done.
    + apply store_dom. by rewrite Hlen.
    + by apply owns_create; [apply Hv|].
    + apply in_mem_create; [apply Hv'|apply Hv'|done|done|apply Hkp|done|done].
    + rewrite <-(Z.add_0_r k) at 2. apply changes_store; [by rewrite lookup_insert_eq|lia|lia].
    + apply Hv.
    + intros Hs. cbn. rewrite lookup_insert_is_Some'. by right.
    + apply tlb_ok_create; [apply Hv'|done].
Qed.

(** ** Adding a mapping *)

Lemma tlb_ok_table t a pd sp i : tlb_ok t a → spaces a !! pd = Some sp → tlb_ok t (set_space pd (add_table i sp) a).
Proof.
  intros Ht Hsp n e Hn. destruct (Ht n e Hn) as (sp' & e' & Hsp' & He). cbn. destruct (decide (active a = pd)) as [E|].
  - assert (sp' = sp) as -> by congruence. exists (add_table i sp), e'. rewrite E, lookup_insert_eq. done.
  - exists sp', e'. by rewrite lookup_insert_ne.
Qed.

(** A table is missing: a page is needed for it. *)
Lemma lookup_create P O G a s pd sp va :
  vrel P O G a s → spaces a !! pd = Some sp → 0 ≤ va < PHYS_BASE → entry sp (pg_no va) = None →
  (∃ s', lookup_page pd va true s = Ok (NULL, s') ∧ vrel P O G a s') ∨
  ∃ pt s', lookup_page pd va true s = Ok (pt + 4 * pt_no va, s') ∧ O !! pt = None ∧
    vrel P (<[pt := Table pd (pd_no va)]> O) (<[(pd, pd_no va) := pt]> G) (set_space pd (add_table (pd_no va) sp) a) s'.
Proof.
  intros Hv Hsp Hva He. assert (is_Some (spaces a !! pd)) as Hpd by by eexists.
  destruct (lookup_pde _ _ _ _ _ _ _ Hv Hpd Hva) as (w & Ew & Hw). destruct (user_indices va Hva) as (H1 & H2 & H3).
  assert (pd_no va ∉ tables sp) as Hnt by (unfold entry in He; rewrite H3 in He; by case_decide).
  assert (G !! (pd, pd_no va) = None) as Hg.
  { apply eq_None_not_Some. rewrite (ow_tables _ _ _ (vr_owns _ _ _ _ _ Hv)). intros (? & ? & ?). congruence. }
  rewrite Hg in Hw. cbn in Hw. subst w. unfold lookup_page. destruct (pd_page _ _ _ _ _ _ Hv Hpd) as (_ & _ & Hn).
  rewrite bool_decide_eq_true_2 by done. rewrite user_vaddr by lia. cbn [negb orb]. rewrite !(bind_ok _ _ _ _ _ eq_refl).
  rewrite (bind_ok _ _ _ _ _ Ew), decide_True by done.
  destruct (get_page_ok _ _ _ _ _ PAL_ZERO Hv eq_refl) as (k & s' & E & Ei & [[-> Hv']|(Hkn & HkP & HkO & Hv' & Hkp & Hout & Hz)]).
  { left. exists s'. split; [|done]. rewrite bind_assoc, (bind_ok _ _ _ _ _ E). done. }
  right. destruct (pde_create_ok k Hkp) as (w & Ec & Hw). destruct (pd_page _ _ _ _ _ _ Hv' Hpd) as ((_ & _ & Hpa) & Hmap & _).
  assert (k ≠ init_page_dir s') as Hki by (rewrite Ei; intros ->; by apply HkP, (vr_init _ _ _ _ _ Hv)).
  assert (word (memory (pool_of s')) (pd + 4 * pd_no va) = Some 0) as Hw0.
  { destruct (im_pde _ _ _ _ (vr_mem _ _ _ _ _ Hv') pd (pd_no va) Hpd H1) as (w' & Ew' & Hw'). rewrite Hg in Hw'. cbn in Hw'. by subst. }
  assert (in_u 32 w) as Hwu by apply Hw.
  assert (vrel P (<[k := Table pd (pd_no va)]> O) (<[(pd, pd_no va) := k]> G) (set_space pd (add_table (pd_no va) sp) a) (wrote (pd + 4 * pd_no va) w s')) as Hv2.
  { apply (vrel_own P O G a); try done.
    - apply store_dom. rewrite le_bytes_length. apply page_word_mapped; [done|lia].
    - apply owns_add_table; [apply Hv|done..].
    - apply in_mem_add_table; [apply Hv|by eapply vrel_aligned|apply Hv'|done|done|done|done|apply Hkp| |done|done].
      intros j Hj. apply word_zero. intros x Hx. apply Hz; [done|]. rewrite PGSIZE_eq. lia.
    - apply changes_word; [|lia]. apply (ow_dir _ _ _ (vr_owns _ _ _ _ _ Hv)) in Hpd. rewrite lookup_insert_is_Some'. right. by eexists.
    - apply Hv.
    - intros Hs. cbn. rewrite lookup_insert_is_Some'. by right.
    - apply tlb_ok_table; [apply Hv'|done]. }
  exists k, (wrote (pd + 4 * pd_no va) w s'). split; [|done]. rewrite bind_assoc, (bind_ok _ _ _ _ _ E), decide_False by done.
  assert (lift (pde_create k) s' = Ok (w, s')) as El by (unfold lift; by rewrite Ec). rewrite bind_assoc, (bind_ok _ _ _ _ _ El).
  rewrite bind_assoc, (bind_ok _ _ _ _ _ (wr32_ok s' _ w ltac:(by eexists))), (bind_ok _ _ _ _ _ eq_refl).
  assert (word (memory (pool_of (wrote (pd + 4 * pd_no va) w s'))) (pd + 4 * pd_no va) = Some w) as Hr.
  { destruct (pa_set_memory (pool_of s') (store (pd + 4 * pd_no va) (le_bytes 4 w) (memory (pool_of s')))) as (_ & _ & W3); [apply Hv'| |].
    { apply store_dom. rewrite le_bytes_length. apply page_word_mapped; [done|lia]. }
    unfold wrote. cbn [pool_of set_pool]. rewrite W3. rewrite word_store by (done || lia). by rewrite decide_True. }
  rewrite (bind_ok _ _ _ _ _ (rd32_ok _ _ _ Hr)). unfold lift. cbv [mbind M_bind]. by rewrite (pde_get_pt_ok k w).
Qed.

Lemma with_entry_table n e i sp : n / 1024 = i → with_entry n e (add_table i sp) = with_entry n e sp.
Proof. intros <-. unfold with_entry, add_table. cbn. f_equal. set_solver. Qed.

Lemma set_space_twice pd sp sp' a : set_space pd sp (set_space pd sp' a) = set_space pd sp a.
Proof. unfold set_space. cbn. by rewrite insert_insert_eq. Qed.

(** The entry exists and is not present. *)
Lemma install P O G a s pd sp u k w e :
  vrel P O G a s → spaces a !! pd = Some sp → 0 ≤ u < PHYS_BASE → entry sp (pg_no u) = Some e → ¬ present e → k ∈ loose a →
  ∃ pt s', G !! (pd, pd_no u) = Some pt ∧ word (memory (pool_of s)) (pt + 4 * pt_no u) = Some e ∧ pt + 4 * pt_no u ≠ NULL ∧
    lift (pte_create_user k w) s = Ok (new_entry k w, s) ∧ wr32 (pt + 4 * pt_no u) (new_entry k w) s = Ok (tt, s') ∧
    represents P (set_loose (loose a ∖ {[k]}) (set_space pd (with_entry (pg_no u) (new_entry k w) sp) a)) s'.
Proof.
  intros Hv Hsp Hu Ee Hnp Hk. pose proof (vr_owns _ _ _ _ _ Hv) as Ho. assert (O !! k = Some Loose) as Hok by by apply (ow_loose _ _ _ Ho).
  destruct (owned_page _ _ _ _ _ k Hv ltac:(by eexists)) as (Hkp & _ & _). destruct (new_pte_ok k w Hkp) as (Hne & Hnep & Hnf).
  destruct (entry_word _ _ _ _ _ _ _ _ _ Hv Hsp Hu Ee) as (pt & Hpt & Hw & Heok & Hn).
  exists pt, (wrote (pt + 4 * pt_no u) (new_entry k w) s). split_and!; [done..| | |].
  - unfold lift. by rewrite pte_create_user_ok.
  - apply wr32_ok. by eexists.
  - exists (<[k := Frame pd (pg_no u)]> O), G. apply (vrel_entry P O _ G a s pd sp u pt); try done.
    + apply Hne.
    + apply dom_insert_lookup_L. by eexists.
    + intros q o [[<- <-]|[_ Hq]]%lookup_insert_Some Hd; [by exists Loose|by eauto].
    + by apply (owns_set O G a pd sp _ e).
    + apply tlb_ok_entry; [apply Hv|done|]. intros _ x Ex Hx. destruct Hnp. by rewrite (entry_entries _ _ _ _ Ee Ex).
Qed.

Lemma vm_set P a s pd sp u k w :
  represents P a s → spaces a !! pd = Some sp → user_page u → k ∈ loose a → mapping sp u = None →
  ∃ b s' a', pagedir_set_page pd u k w s = Ok (b, s') ∧ represents P a' s' ∧ spec a (SetPage pd u k w) (Flag b) a'.
Proof.
  intros (O & G & Hv) Hsp [Hu Hal] Hk Hm. pose proof (vr_owns _ _ _ _ _ Hv) as Ho. assert (O !! k = Some Loose) as Hok by by apply (ow_loose _ _ _ Ho).
  destruct (owned_page _ _ _ _ _ k Hv ltac:(by eexists)) as ((K1 & K2 & K3) & _ & _). unfold pagedir_set_page.
  rewrite !pg_ofs_page, user_vaddr by (done || lia). rewrite !(bind_ok _ _ _ _ _ eq_refl).
  assert (lift (vtop k) s = Ok (k - PHYS_BASE, s)) as Ev by (unfold lift; by rewrite vtop_ok by (rewrite PGSIZE_eq in *; lia)).
  assert (Z.shiftr (k - PHYS_BASE) PTSHIFT < init_ram_pages s) as Hpn.
  { destruct (owned_universe _ _ _ _ _ k Hv ltac:(by eexists)) as [Hku _]. pose proof (kn_ram _ _ _ (vr_kern _ _ _ _ _ Hv) k Hku) as Hram.
    rewrite (proj1 (vr_ram _ _ _ _ _ Hv)), Z.shiftr_div_pow2 by done. change (2 ^ PTSHIFT) with 4096. rewrite PGSIZE_eq in Hram. apply Z.div_lt_upper_bound; lia. }
  rewrite (bind_ok _ _ _ _ _ Ev), bool_decide_eq_true_2 by done.
  rewrite !(bind_ok _ _ _ _ _ eq_refl). assert (O !! pd = Some Dir) as Hod by (apply (ow_dir _ _ _ Ho); by eexists).
  rewrite bool_decide_eq_true_2 by (apply (init_not_owned P O G a s pd Hv); by eexists). rewrite (bind_ok _ _ _ _ _ eq_refl).
  destruct (entry sp (pg_no u)) as [e|] eqn:Ee.
  - pose proof (mapping_none sp u e Hm Ee) as Hnp. destruct (lookup_some _ _ _ _ _ _ _ _ _ true Hv Hsp Hu Ee) as (pt & Hpt & Hw & Hok' & Hn & El).
    destruct (install P O G a s pd sp u k w e Hv Hsp Hu Ee Hnp Hk) as (pt' & s' & Hpt' & _ & _ & Ec & Ew & Hr). assert (pt' = pt) as -> by congruence.
    exists true, s'. eexists. split; [|split; [exact Hr|by apply spec_set]]. rewrite (bind_ok _ _ _ _ _ El), decide_True by done.
    rewrite (bind_ok _ _ _ _ _ (rd32_ok _ _ _ Hw)). rewrite bool_decide_eq_true_2 by (unfold present in Hnp; lia).
    by rewrite (bind_ok _ _ _ _ _ eq_refl), (bind_ok _ _ _ _ _ Ec), (bind_ok _ _ _ _ _ Ew).
  - destruct (lookup_create _ _ _ _ _ _ _ _ Hv Hsp Hu Ee) as [(s' & El & Hv')|(pt & s1 & El & _ & Hv1)].
    { exists false, s', a. split; [|split; [by exists O, G|constructor]]. by rewrite (bind_ok _ _ _ _ _ El). }
    destruct (user_indices u Hu) as (_ & _ & H3). set (a1 := set_space pd (add_table (pd_no u) sp) a) in *.
    assert (entry (add_table (pd_no u) sp) (pg_no u) = Some 0) as Ee1.
    { unfold entry. rewrite H3, decide_True by (cbn; clear; set_solver). cbn. destruct (entries sp !! pg_no u) as [x|] eqn:Ex; [|done].
      destruct (ow_entry _ _ _ Ho pd sp _ x Hsp Ex) as [_ Ht]. unfold entry in Ee. by rewrite decide_True in Ee by done. }
    assert (spaces a1 !! pd = Some (add_table (pd_no u) sp)) as Hsp1 by (cbn; by rewrite lookup_insert_eq).
    destruct (install _ _ _ a1 s1 pd _ u k w 0 Hv1 Hsp1 Hu Ee1) as (pt' & s' & Hpt' & Hw & Hn & Ec & Ew & Hr); [by intros H; apply H|done|].
    rewrite lookup_insert_eq in Hpt'. injection Hpt' as <-. unfold a1 in Hr. rewrite set_space_twice, with_entry_table in Hr by done. change (loose (set_space _ _ a)) with (loose a) in Hr.
    exists true, s'. eexists. split; [|split; [exact Hr|by apply spec_set]]. rewrite (bind_ok _ _ _ _ _ El), decide_True by done.
    by rewrite (bind_ok _ _ _ _ _ (rd32_ok _ _ _ Hw)), (bind_ok _ _ _ _ _ eq_refl), (bind_ok _ _ _ _ _ Ec), (bind_ok _ _ _ _ _ Ew).
Qed.

(** ** Destroying a directory *)

(** The pages of a directory that are left when the entries below [n] and the
    tables below [t] are gone. *)
Definition left_over (n t : Z) (o : owner) : Prop := match o with Frame _ x => n ≤ x | Table _ i => t ≤ i | _ => True end.
#[local] Instance left_over_dec n t o : Decision (left_over n t o).
Proof. destruct o; cbn; apply _. Defined.

Definition remains O (pd n t : Z) : gset Z := dom (filter (λ ko, part_of pd ko.1 ko.2 ∧ left_over n t ko.2) O).

Lemma elem_of_remains O pd n t x : x ∈ remains O pd n t ↔ ∃ o, O !! x = Some o ∧ part_of pd x o ∧ left_over n t o.
Proof.
  unfold remains. rewrite elem_of_dom. split.
  - intros [o [H1 H2]%map_lookup_filter_Some]. eauto.
  - intros (o & H1 & H2). exists o. by apply map_lookup_filter_Some.
Qed.

Lemma frame_range O G a q d y : owns O G a → O !! q = Some (Frame d y) → 0 ≤ y < 1024 * 768.
Proof.
  intros Ho (sp & e & Hs & He & _)%(ow_frame _ _ _ Ho). destruct (ow_entry _ _ _ Ho _ _ _ _ Hs He) as [_ Ht].
  assert (0 ≤ y / 1024 < 768) as Hy by (apply (ow_range _ _ _ Ho d), (ow_tables _ _ _ Ho); eauto). clear -Hy. dlia.
Qed.
Lemma table_range O G a q d i : owns O G a → O !! q = Some (Table d i) → 0 ≤ i < 768.
Proof. intros Ho Hq. apply (ow_range _ _ _ Ho d). exists q. by apply (ow_table _ _ _ Ho). Qed.

Section destroy.
  Context P O G a s pd sp (Hv : vrel P O G a s) (Hsp : spaces a !! pd = Some sp) (Hna : pd ≠ active a).

Abbreviation O' := (without O pd).
Abbreviation G' := (tables_without G pd).
Abbreviation a' := (Vm (delete pd (spaces a)) (loose a) (bytes a) (active a)).

(** How far the destruction is. *)
Definition destroying (n t : Z) (x : mmu S) : Prop :=
  vrel (P ∪ remains O pd n t) O' G' a' x ∧ init_page_dir x = init_page_dir s ∧
  ∀ q y, q ∈ remains O pd n t → q ≤ y < q + PGSIZE → memory (pool_of x) !! y = memory (pool_of s) !! y.

Lemma remains_owned n t k : k ∈ remains O pd n t → is_Some (O !! k) ∧ k ∉ P.
Proof.
  intros (o & Hk & _)%elem_of_remains. split; [by eexists|]. intros HP. apply (vr_disj _ _ _ _ _ Hv k HP). apply elem_of_dom. by eexists.
Qed.

Lemma destroy_start : destroying 0 0 s.
Proof.
  pose proof (vr_owns _ _ _ _ _ Hv) as Ho. split; [|done].
  assert (∀ k o, O' !! k = Some o ↔ O !! k = Some o ∧ ¬ part_of pd k o) as Hw by (intros; apply map_lookup_filter_Some).
  assert (remains O pd 0 0 = dom O ∖ dom O') as ->.
  { apply set_eq. intros x. rewrite elem_of_remains, elem_of_difference, !elem_of_dom. split.
    - intros (o & Hx & Hp & _). split; [by eexists|]. intros [o' [Hx' Hn]%Hw]. congruence.
    - intros [[o Hx] Hn]. exists o. assert (part_of pd x o) as Hp by (apply dec_stable; intros Hp; apply Hn; exists o; by apply Hw).
      split_and!; [done..|]. destruct o as [|d i|d y|]; [done| | |done]; cbn.
      + by apply (table_range O G a x d i Ho Hx).
      + by apply (frame_range O G a x d y Ho Hx). }
  apply (vrel_disown P O G a); try done.
  - intros x. rewrite !elem_of_dom. intros [o [Hx _]%Hw]. by eexists.
  - by apply owns_destroy.
  - pose proof (vr_mem _ _ _ _ _ Hv) as Hm. split; cbn.
    + intros d i Hd%lookup_delete_is_Some Hi. destruct Hd as [Hne Hd]. destruct (im_pde _ _ _ _ Hm d i Hd Hi) as (w & Ew & Hpw). exists w. split; [done|].
      assert (G' !! (d, i) = G !! (d, i)) as ->; [|done]. destruct (G !! (d, i)) as [pt|] eqn:Eg.
      * apply map_lookup_filter_Some. done.
      * apply map_lookup_filter_None. by left.
    + intros d sp' i pt j [_ Hd]%lookup_delete_Some [Hpt _]%map_lookup_filter_Some Hj. by apply (im_pte _ _ _ _ Hm d).
    + intros k o x [Hk _]%Hw Hd Hx. by apply (im_bytes _ _ _ _ Hm k o).
  - cbn. intros Hs. by apply lookup_delete_is_Some.
  - intros n e Hn. destruct (vr_tlb _ _ _ _ _ Hv n e Hn) as (sp' & e' & Hs & He). exists sp', e'. split; [|done]. cbn. by rewrite lookup_delete_ne.
Qed.

(** A page that is left is freed. *)
Lemma destroy_free n t n' t' x k :
  destroying n t x → k ∈ remains O pd n t → (∀ q, q ∈ remains O pd n' t' ↔ q ∈ remains O pd n t ∧ q ≠ k) →
  ∃ x', free_page k x = Ok (tt, x') ∧ destroying n' t' x'.
Proof.
  intros (Hx & Hi & Hm) Hk Hr. destruct (remains_owned n t k Hk) as [Hko HkP].
  destruct (free_page_ok _ _ _ _ _ k Hx) as (x' & E & Hx' & Hi' & Hm'); [by apply elem_of_union_r|rewrite Hi; by apply (init_not_owned P O G a s k Hv)|by apply (owned_universe P O G a s k Hv)|].
  exists x'. split; [done|]. split_and!.
  - replace ((P ∪ remains O pd n t) ∖ {[k]}) with (P ∪ remains O pd n' t') in Hx'; [done|]. apply set_eq. intros q.
    rewrite elem_of_difference, !elem_of_union, elem_of_singleton, Hr. split; [|tauto]. intros [HP|?]; [|tauto]. split; [by left|]. by intros ->.
  - congruence.
  - intros q y [Hq Hne]%Hr Hy. destruct (remains_owned n t q Hq) as [Hqo _]. rewrite (Hm' q); [by apply (Hm q)|by apply (vrel_aligned P O G a s)|done..].
Qed.

Lemma destroying_words n t x q j :
  destroying n t x → q ∈ remains O pd n t → 0 ≤ j < 1024 → word (memory (pool_of x)) (q + 4 * j) = word (memory (pool_of s)) (q + 4 * j).
Proof. intros (_ & _ & Hm) Hq Hj. apply word_ext. intros y Hy. apply (Hm q); [done|]. rewrite PGSIZE_eq. lia. Qed.

(** The entries of a table, from [j] on. *)
Lemma destroy_entries_ok k x i pt j :
  G !! (pd, i) = Some pt → Z.of_nat k + j = 1024 → 0 ≤ j → destroying (1024 * i + j) i x →
  ∃ x', destroy_entries k (pt + 4 * j) x = Ok (tt, x') ∧ destroying (1024 * (i + 1)) i x'.
Proof.
  intros Hpt. pose proof (vr_owns _ _ _ _ _ Hv) as Ho. revert x j. induction k as [|k IH]; intros x j Hk Hj Hx.
  { exists x. split; [done|]. by replace (1024 * (i + 1)) with (1024 * i + j) by lia. }
  cbn [destroy_entries]. assert (O !! pt = Some (Table pd i)) as Hot by by apply (ow_table _ _ _ Ho).
  assert (pt ∈ remains O pd (1024 * i + j) i) as Hpr by (apply elem_of_remains; exists (Table pd i); by cbn).
  pose proof (destroying_words _ _ _ _ j Hx Hpr ltac:(lia)) as Ew. rewrite (im_pte _ _ _ _ (vr_mem _ _ _ _ _ Hv) pd sp i pt j) in Ew by (done || lia).
  rewrite (bind_ok _ _ _ _ _ (rd32_ok _ _ _ Ew)). set (e := default 0 (entries sp !! (1024 * i + j))) in *.
  assert (∃ x1, ((if decide (Z.land e PTE_P ≠ 0) then page ← lift (pte_get_page e); free_page page else mret tt) : M (mmu S) unit) x = Ok (tt, x1) ∧
    destroying (1024 * i + (j + 1)) i x1) as (x1 & E1 & Hx1).
  { destruct (decide (present e)) as [Hp|Hp]; [rewrite decide_True by exact Hp|rewrite decide_False by exact Hp].
    - assert (entries sp !! (1024 * i + j) = Some e) as He by (unfold e in *; destruct (entries sp !! (1024 * i + j)) as [y|]; [done|by destruct Hp]).
      destruct (ow_entry _ _ _ Ho pd sp _ e Hsp He) as [Hok _]. assert (lift (pte_get_page e) x = Ok (frame e, x)) as El by (unfold lift; by rewrite pte_get_page_ok).
      rewrite (bind_ok _ _ _ _ _ El). assert (∀ q, O !! q = Some (Frame pd (1024 * i + j)) ↔ q = frame e) as Hfr.
      { intros q. rewrite (ow_frame _ _ _ Ho), Hsp. split; [|intros ->; by exists sp, e]. intros (? & ? & [= <-] & He' & _ & Hf). congruence. }
      apply (destroy_free (1024 * i + j) i); [done|apply elem_of_remains; exists (Frame pd (1024 * i + j)); split; [by apply Hfr|cbn; lia]|].
      intros q. rewrite !elem_of_remains. split.
      + intros (o & Hq & Hpo & Hlo). split; [exists o; split_and!; [done..|]; destruct o; cbn in *; lia|]. intros ->.
        rewrite (proj2 (Hfr _) eq_refl) in Hq. injection Hq as <-. cbn in Hlo. lia.
      + intros [(o & Hq & Hpo & Hlo) Hne]. exists o. split_and!; [done..|]. destruct o as [|d y|d y|]; cbn in *; try done. subst d.
        assert (y ≠ 1024 * i + j) by (intros ->; by apply Hne, Hfr). lia.
    - exists x. split; [done|]. assert (remains O pd (1024 * i + (j + 1)) i = remains O pd (1024 * i + j) i) as Er; [|unfold destroying; by rewrite Er].
      apply set_eq. intros q. rewrite !elem_of_remains. split; intros (o & Hq & Hpo & Hlo); exists o; split_and!; try done; destruct o as [|d y|d y|]; cbn in *; try done; [lia|].
      subst d. assert (y ≠ 1024 * i + j); [|lia]. intros ->. apply (ow_frame _ _ _ Ho) in Hq as (? & y & Hs & Hy & Hpy & _).
      assert (x0 = sp) as -> by congruence. apply Hp. unfold e. by rewrite Hy. }
  rewrite (bind_ok _ _ _ _ _ E1). destruct (IH x1 (j + 1)) as (x' & E' & Hx'); [lia|lia|done|]. exists x'. split; [|done].
  by replace (pt + 4 * j + 4) with (pt + 4 * (j + 1)) by lia.
Qed.

Lemma destroy_tables_ok k x i :
  Z.of_nat k + i = 768 → 0 ≤ i → destroying (1024 * i) i x →
  ∃ x', destroy_tables k (pd + 4 * i) x = Ok (tt, x') ∧ destroying (1024 * 768) 768 x'.
Proof.
  pose proof (vr_owns _ _ _ _ _ Hv) as Ho. revert x i. induction k as [|k IH]; intros x i Hk Hi Hx.
  { exists x. split; [done|]. by replace 768 with i by lia. }
  cbn [destroy_tables]. assert (O !! pd = Some Dir) as Hod by (apply (ow_dir _ _ _ Ho); by eexists).
  assert (pd ∈ remains O pd (1024 * i) i) as Hpr by (apply elem_of_remains; by exists Dir).
  destruct (im_pde _ _ _ _ (vr_mem _ _ _ _ _ Hv) pd i) as (w & Ew & Hw); [by eexists|lia|].
  rewrite <-(destroying_words _ _ _ _ i Hx Hpr ltac:(lia)) in Ew. rewrite (bind_ok _ _ _ _ _ (rd32_ok _ _ _ Ew)).
  assert (∃ x1, ((if decide (Z.land w PTE_P ≠ 0) then pt ← lift (pde_get_pt w); destroy_entries (Z.to_nat (PGSIZE / 4)) pt;; free_page pt else mret tt) : M (mmu S) unit) x = Ok (tt, x1) ∧
    destroying (1024 * (i + 1)) (i + 1) x1) as (x1 & E1 & Hx1).
  { destruct (G !! (pd, i)) as [pt|] eqn:Eg.
    - assert (Z.land w PTE_P ≠ 0) as Hp by apply Hw. rewrite decide_True by done. destruct (pt_page _ _ _ _ _ _ _ _ Hv Eg) as (Hkp & _ & _).
      assert (lift (pde_get_pt w) x = Ok (pt, x)) as El by (unfold lift; by rewrite (pde_get_pt_ok pt)). rewrite (bind_ok _ _ _ _ _ El).
      destruct (destroy_entries_ok 1024 x i pt 0) as (x1 & E1 & Hx1); [done|lia|lia|by replace (1024 * i + 0) with (1024 * i) by lia|].
      replace (pt + 4 * 0) with pt in E1 by lia. change (Z.to_nat (PGSIZE / 4)) with 1024%nat. rewrite (bind_ok _ _ _ _ _ E1). clear E1.
      assert (O !! pt = Some (Table pd i)) as Hot by by apply (ow_table _ _ _ Ho).
      apply (destroy_free (1024 * (i + 1)) i); [done|apply elem_of_remains; exists (Table pd i); split; [done|cbn; lia]|].
      intros q. rewrite !elem_of_remains. split.
      + intros (o & Hq & Hpo & Hlo). split; [exists o; split_and!; [done..|]; destruct o; cbn in *; lia|]. intros ->. rewrite Hot in Hq.
        injection Hq as <-. cbn in Hlo. lia.
      + intros [(o & Hq & Hpo & Hlo) Hne]. exists o. split_and!; [done..|]. destruct o as [|d y|d y|]; cbn in *; try done. subst d.
        assert (y ≠ i); [|lia]. intros ->. apply (ow_table _ _ _ Ho) in Hq. congruence.
    - cbn in Hw. subst w. exists x. split; [done|].
      assert (remains O pd (1024 * (i + 1)) (i + 1) = remains O pd (1024 * i) i) as Er; [|unfold destroying; by rewrite Er].
      apply set_eq. intros q. rewrite !elem_of_remains. split; intros (o & Hq & Hpo & Hlo); exists o; split_and!; try done; destruct o as [|d y|d y|]; cbn in *; try done; [lia|lia|..]; subst d.
      + assert (y ≠ i); [|lia]. intros ->. apply (ow_table _ _ _ Ho) in Hq. congruence.
      + assert (y / 1024 ≠ i); [|dlia]. intros <-. apply (ow_frame _ _ _ Ho) in Hq as (sp' & e & Hs & He & _).
        destruct (ow_entry _ _ _ Ho _ _ _ _ Hs He) as [_ Ht]. assert (is_Some (G !! (pd, y / 1024))) as [? ?] by (apply (ow_tables _ _ _ Ho); eauto). congruence. }
  rewrite (bind_ok _ _ _ _ _ E1). destruct (IH x1 (i + 1)) as (x' & E' & Hx'); [lia|lia|done|]. exists x'. split; [|done].
  by replace (pd + 4 * i + 4) with (pd + 4 * (i + 1)) by lia.
Qed.

Lemma pagedir_destroy_ok : ∃ s', pagedir_destroy pd s = Ok (tt, s') ∧ vrel P O' G' a' s'.
Proof.
  pose proof (vr_owns _ _ _ _ _ Hv) as Ho. assert (O !! pd = Some Dir) as Hod by (apply (ow_dir _ _ _ Ho); by eexists).
  assert (∀ q, q ∈ remains O pd (1024 * 768) 768 ↔ q = pd) as Hr.
  { intros q. rewrite elem_of_remains. split; [|intros ->; by exists Dir]. intros (o & Hq & Hpo & Hlo). destruct o as [|d i|d y|]; cbn in *; [done| | |done]; exfalso.
    - pose proof (table_range O G a q d i Ho Hq). lia.
    - pose proof (frame_range O G a q d y Ho Hq). lia. }
  destruct (pd_page _ _ _ _ _ pd Hv) as (_ & _ & Hn); [by eexists|]. unfold pagedir_destroy. rewrite decide_False by done.
  rewrite (bind_ok _ _ _ _ _ eq_refl). rewrite bool_decide_eq_true_2 by (apply (init_not_owned P O G a s pd Hv); by eexists).
  rewrite (bind_ok _ _ _ _ _ eq_refl). destruct (destroy_tables_ok 768 s 0) as (x & E & Hx); [lia|lia|apply destroy_start|].
  replace (pd + 4 * 0) with pd in E by lia. change (Z.to_nat (pd_no PHYS_BASE)) with 768%nat. rewrite (bind_ok _ _ _ _ _ E).
  destruct Hx as (Hx & Hi & _). destruct (free_page_ok _ _ _ _ _ pd Hx) as (x' & E' & Hx' & _); [apply elem_of_union_r; by apply Hr|rewrite Hi; apply (init_not_owned P O G a s pd Hv); by eexists|apply (owned_universe P O G a s pd Hv); by eexists|].
  exists x'. split; [done|]. replace ((P ∪ remains O pd (1024 * 768) 768) ∖ {[pd]}) with P in Hx'; [done|]. apply set_eq. intros q.
  rewrite elem_of_difference, elem_of_union, elem_of_singleton, Hr. split; [|tauto]. intros HP. split; [by left|]. intros ->.
  apply (vr_disj _ _ _ _ _ Hv pd HP). apply elem_of_dom. by eexists.
Qed.

End destroy.

Lemma vm_destroy P a s pd :
  represents P a s → is_Some (spaces a !! pd) → pd ≠ active a →
  ∃ s' a', pagedir_destroy pd s = Ok (tt, s') ∧ represents P a' s' ∧ spec a (Destroy pd) Done a'.
Proof.
  intros (O & G & Hv) [sp Hsp] Hna. destruct (pagedir_destroy_ok P O G a s pd sp Hv Hsp Hna) as (s' & E & Hv').
  exists s'. eexists. split; [done|]. split; [by eexists _, _|constructor].
Qed.

(** ** Accesses of user programs *)

Lemma flag_bit e k : 0 ≤ k → Z.land e (2 ^ k) ≠ 0 ↔ Z.testbit e k = true.
Proof.
  intros Hk. split.
  - intros H. destruct (Z.testbit e k) eqn:Eb; [done|]. destruct H. apply Z.bits_inj'. intros j Hj. rewrite Z.land_spec, Z.bits_0, Z.pow2_bits_eqb by done.
    destruct (Z.eqb_spec k j) as [<-|]; [by rewrite Eb|by rewrite andb_false_r].
  - intros Eb H. apply (f_equal (λ x, Z.testbit x k)) in H. rewrite Z.land_spec, Z.bits_0, Z.pow2_bits_true, Eb in H by done. done.
Qed.
Lemma flag_set e k : 0 ≤ k → Z.land e (2 ^ k) ≠ 0 → Z.lor e (2 ^ k) = e.
Proof.
  intros Hk H%flag_bit; [|done]. apply Z.bits_inj'. intros j Hj. rewrite Z.lor_spec, Z.pow2_bits_eqb by done.
  destruct (Z.eqb_spec k j) as [<-|]; [by rewrite H|by rewrite orb_false_r].
Qed.

Lemma used_lor w e : ∃ f, plain f ∧ used w e = Z.lor e f.
Proof. unfold used. destruct w; [by exists (Z.lor PTE_A PTE_D)|by exists PTE_A]. Qed.

Lemma used_idle w e : Z.land e PTE_A ≠ 0 → (w = true → Z.land e PTE_D ≠ 0) → used w e = e.
Proof.
  intros Ha Hd. unfold used. pose proof (flag_set e 5 ltac:(lia) Ha) as E5. change (2 ^ 5) with PTE_A in E5. destruct w; [|done].
  pose proof (flag_set e 6 ltac:(lia) (Hd eq_refl)) as E6. change (2 ^ 6) with PTE_D in E6. by rewrite Z.lor_assoc, E5.
Qed.

Lemma used_flags w e : entry_ok e → entry_ok (used w e) ∧ frame (used w e) = frame e ∧ (present (used w e) ↔ present e) ∧ Z.land (used w e) PTE_A ≠ 0.
Proof.
  intros He. destruct (used_lor w e) as (f & Hf & Eu). pose proof (plain_lor f e Hf He) as (H1 & H2 & H3). rewrite <-Eu in *. split_and!; try apply H3; try done.
  unfold used. destruct w; [|by apply lor_has]. rewrite Z.lor_assoc, lor_keep by done. by apply lor_has.
Qed.

Lemma user_ok_present w e : user_ok w e = true → present e.
Proof. unfold user_ok. intros [[H _]%andb_true_iff _]%andb_true_iff. by apply bool_decide_eq_true in H. Qed.

Lemma user_ok_lor w e f : plain f → user_ok w (Z.lor e f) = user_ok w e.
Proof. intros Hf. unfold user_ok. by rewrite !lor_keep by by apply plain_part. Qed.

Lemma user_ok_pde w pt d : pde_is (Some pt) d → user_ok w d = true.
Proof. intros (_ & _ & H1 & H2 & H3). unfold user_ok. unfold present in H1. rewrite !bool_decide_eq_true_2 by done. by destruct w. Qed.

Lemma pde_is_used pt d : pde_is (Some pt) d → pde_is (Some pt) (Z.lor d PTE_A).
Proof.
  intros (H1 & H2 & H3 & H4 & H5). unfold pde_is, present. rewrite !lor_keep by done. split_and!; try done. by apply in_u_lor.
Qed.

Lemma access_some w va a sp e :
  access w va a = Some (sp, e) ↔ spaces a !! active a = Some sp ∧ entry sp (pg_no va) = Some e ∧ user_ok w e = true.
Proof.
  unfold access. destruct (spaces a !! active a) as [sp'|] eqn:Es; cbn; [|naive_solver]. destruct (mapping sp' va) as [e'|] eqn:Em; cbn.
  - apply mapping_entry in Em as [Em Hp]. destruct (user_ok w e') eqn:Eu.
    + split; [by intros [= <- <-]|]. intros ([= <-] & E2 & _). congruence.
    + split; [done|]. intros ([= <-] & E2 & E3). congruence.
  - split; [done|]. intros (? & He & Hu). simplify_eq. destruct (mapping_none _ _ _ Em He). by apply user_ok_present in Hu.
Qed.

Lemma access_none w va a sp : access w va a = None → spaces a !! active a = Some sp → ∀ e, entry sp (pg_no va) = Some e → user_ok w e = false.
Proof.
  intros Hac Hsp e He. destruct (user_ok w e) eqn:Eu; [|done]. assert (access w va a = Some (sp, e)) by by apply access_some. congruence.
Qed.

(** The directory word on the walk is marked as used. *)
Lemma walk_pde P O G a s va pt :
  vrel P O G a s → is_Some (spaces a !! active a) → 0 ≤ va < PHYS_BASE → G !! (active a, pd_no va) = Some pt →
  ∃ d, word (memory (pool_of s)) (active a + 4 * pd_no va) = Some d ∧ (∀ w, user_ok w d = true) ∧ Z.land d PTE_ADDR + PHYS_BASE = pt ∧
    vrel P O G a (wrote (active a + 4 * pd_no va) (Z.lor d PTE_A) s).
Proof.
  intros Hv Hs Hva Hpt. destruct (user_indices va Hva) as (H1 & H2 & H3).
  destruct (im_pde _ _ _ _ (vr_mem _ _ _ _ _ Hv) _ (pd_no va) Hs H1) as (d & Ed & Hd). rewrite Hpt in Hd. exists d.
  destruct (pd_page _ _ _ _ _ _ Hv Hs) as ((_ & _ & Hpa) & Hmap & _). pose proof (pde_is_used pt d Hd) as Hd'. assert (in_u 32 (Z.lor d PTE_A)) as Hu by apply Hd'.
  split_and!; [done|intros; by apply (user_ok_pde _ pt)|destruct Hd as (_ & -> & _); lia|].
  apply (vrel_mem P O G a s); try done.
  - apply store_dom. rewrite le_bytes_length. apply page_word_mapped; [done|lia].
  - apply Hv.
  - apply in_mem_pde; [apply Hv|by eapply vrel_aligned|apply Hv|done|done|done|by rewrite Hpt].
  - apply changes_word; [|lia]. apply (ow_dir _ _ _ (vr_owns _ _ _ _ _ Hv)) in Hs. by eexists.
  - apply Hv.
Qed.

Definition cache (n e : Z) s : mmu S := Mmu (pool_of s) (init_page_dir s) (init_ram_pages s) (cr3 s) (<[n := e]> (tlb s)).

Lemma vrel_cache P O G a s sp n e :
  vrel P O G a s → spaces a !! active a = Some sp → entries sp !! n = Some e → present e → Z.land e PTE_A ≠ 0 → vrel P O G a (cache n e s).
Proof.
  intros [] Hsp He Hp Ha. split; try done. cbn. intros k x [[<- <-]|[_ Hk]]%lookup_insert_Some; [|by eauto].
  exists sp, e. split_and!; [done..|]. split_and!; [done..|]. exists 0. by rewrite Z.lor_0_r.
Qed.

Lemma pt_walk_ok P O G a s w va sp e :
  vrel P O G a s → 0 ≤ va < PHYS_BASE → access w va a = Some (sp, e) →
  ∃ s', walk w va s = Ok (Some (used w e), s') ∧ vrel P O G (set_space (active a) (with_entry (pg_no va) (used w e) sp) a) s'.
Proof.
  intros Hv Hva (Hsp & Ee & Hu)%access_some. destruct (entry_word _ _ _ _ _ _ _ _ _ Hv Hsp Hva Ee) as (pt & Hpt & _ & Hok & _).
  destruct (walk_pde _ _ _ _ _ _ _ Hv ltac:(by eexists) Hva Hpt) as (d & Ed & Hd & Ha & Hv1). unfold walk. rewrite (bind_ok _ _ _ _ _ eq_refl).
  rewrite (vr_cr3 _ _ _ _ _ Hv), (bind_ok _ _ _ _ _ (rd32_ok _ _ _ Ed)), Hd. rewrite (bind_ok _ _ _ _ _ (wr32_ok s _ _ ltac:(by eexists))).
  rewrite Ha. set (s1 := wrote _ _ s) in *. destruct (entry_word _ _ _ _ _ _ _ _ _ Hv1 Hsp Hva Ee) as (pt' & Hpt' & Hw & _ & _).
  assert (pt' = pt) as -> by congruence. rewrite (bind_ok _ _ _ _ _ (rd32_ok _ _ _ Hw)), Hu. rewrite (bind_ok _ _ _ _ _ (wr32_ok s1 _ _ ltac:(by eexists))).
  rewrite (bind_ok _ _ _ _ _ eq_refl). destruct (used_flags w e Hok) as (U1 & U2 & U3 & U4). destruct (used_lor w e) as (f & Hf & Eu).
  assert (vrel P O G (set_space (active a) (with_entry (pg_no va) (used w e) sp) a) (wrote (pt + 4 * pt_no va) (used w e) s1)) as Hv2.
  { apply (vrel_entry P O O G a s1 (active a) sp va pt _ (loose a)); try done; [apply U1|by eauto|by apply (owns_flags O G a _ sp _ e); [apply Hv|..]|].
    apply tlb_ok_entry; [apply Hv1|done|]. intros _ x Ex Hx. exists f. split; [apply Hf|]. by rewrite <-(entry_entries _ _ _ _ Ee Ex). }
  eexists. split; [done|]. apply (vrel_cache _ _ _ _ _ (with_entry (pg_no va) (used w e) sp)); [done|cbn; by rewrite lookup_insert_eq..|apply U3; by eapply user_ok_present|done].
Qed.

Lemma walk_fault P O G a s w va :
  vrel P O G a s → 0 ≤ va < PHYS_BASE → access w va a = None → ∃ s', walk w va s = Ok (None, s') ∧ vrel P O G a s'.
Proof.
  intros Hv Hva Hac. destruct (user_indices va Hva) as (H1 & H2 & H3). unfold walk. rewrite (bind_ok _ _ _ _ _ eq_refl). rewrite (vr_cr3 _ _ _ _ _ Hv).
  assert (user_ok w 0 = false) as Hu0 by done. destruct (spaces a !! active a) as [sp|] eqn:Hsp.
  - destruct (entry sp (pg_no va)) as [e|] eqn:Ee.
    + pose proof (access_none w va a sp Hac Hsp e Ee) as Hu. destruct (entry_word _ _ _ _ _ _ _ _ _ Hv Hsp Hva Ee) as (pt & Hpt & _ & Hok & _).
      destruct (walk_pde _ _ _ _ _ _ _ Hv ltac:(by eexists) Hva Hpt) as (d & Ed & Hd & Ha & Hv1).
      rewrite (bind_ok _ _ _ _ _ (rd32_ok _ _ _ Ed)), Hd. rewrite (bind_ok _ _ _ _ _ (wr32_ok s _ _ ltac:(by eexists))), Ha.
      set (s1 := wrote _ _ s) in *. destruct (entry_word _ _ _ _ _ _ _ _ _ Hv1 Hsp Hva Ee) as (pt' & Hpt' & Hw & _ & _). assert (pt' = pt) as -> by congruence.
      rewrite (bind_ok _ _ _ _ _ (rd32_ok _ _ _ Hw)), Hu. by exists s1.
    + destruct (im_pde _ _ _ _ (vr_mem _ _ _ _ _ Hv) (active a) (pd_no va) ltac:(by eexists) H1) as (d & Ed & Hd).
      assert (G !! (active a, pd_no va) = None) as Hg.
      { apply eq_None_not_Some. rewrite (ow_tables _ _ _ (vr_owns _ _ _ _ _ Hv)). unfold entry in Ee. rewrite H3 in Ee. case_decide; [done|].
        intros (? & ? & ?). congruence. }
      rewrite Hg in Hd. cbn in Hd. subst d. rewrite (bind_ok _ _ _ _ _ (rd32_ok _ _ _ Ed)), Hu0. by exists s.
  - destruct (vr_active _ _ _ _ _ Hv) as [Ea|Hs]; [|rewrite Hsp in Hs; by destruct Hs]. rewrite Ea.
    rewrite (bind_ok _ _ _ _ _ (rd32_ok _ _ _ (vr_init_mem _ _ _ _ _ Hv _ H1))), Hu0. by exists s.
Qed.

(** The entry that the cache gives stands for the one in memory. *)
Lemma cached_entry P O G a s n e :
  vrel P O G a s → tlb s !! n = Some e → ∃ sp e', spaces a !! active a = Some sp ∧ entries sp !! n = Some e' ∧ entry sp n = Some e' ∧
    (∀ w, user_ok w e' = user_ok w e) ∧ Z.land e' PTE_ADDR = Z.land e PTE_ADDR ∧ Z.land e' PTE_A ≠ 0 ∧ (Z.land e PTE_D ≠ 0 → Z.land e' PTE_D ≠ 0).
Proof.
  intros Hv Hn. destruct (vr_tlb _ _ _ _ _ Hv n e Hn) as (sp & e' & Hsp & He & Hp & Ha & f & Hf & ->).
  destruct (ow_entry _ _ _ (vr_owns _ _ _ _ _ Hv) _ _ _ _ Hsp He) as [Hok Ht]. exists sp, (Z.lor e f). split; [done|]. split; [done|].
  split; [unfold entry; by rewrite decide_True, He|]. assert (∀ g, Z.land (Z.lor PTE_A PTE_D) g = 0 → Z.land f g = 0) as Hfg.
  { intros g Hg. by rewrite <-Hf, <-Z.land_assoc, Hg, Z.land_0_r. }
  split; [intros w; unfold user_ok; by rewrite !lor_keep by by apply Hfg|]. split; [by apply lor_keep, Hfg|].
  split; [|intros Hd]; rewrite Z.land_lor_distr_l; intros E; by apply Z.lor_eq_0_iff in E as [? _].
Qed.

Lemma with_entry_same a sp n e :
  spaces a !! active a = Some sp → entries sp !! n = Some e → n / 1024 ∈ tables sp → set_space (active a) (with_entry n e sp) a = a.
Proof.
  intros Hsp He Ht. assert (with_entry n e sp = sp) as ->.
  { unfold with_entry. rewrite insert_id by done. replace ({[n / 1024]} ∪ tables sp) with (tables sp) by set_solver. by destruct sp. }
  unfold set_space. rewrite insert_id by done. by destruct a.
Qed.

Lemma translate_ok P O G a s w va sp e :
  vrel P O G a s → 0 ≤ va < PHYS_BASE → access w va a = Some (sp, e) →
  ∃ s', translate w va s = Ok (Some (Z.land e PTE_ADDR + pg_ofs va), s') ∧ vrel P O G (set_space (active a) (with_entry (pg_no va) (used w e) sp) a) s'.
Proof.
  intros Hv Hva Hac. unfold translate. rewrite (bind_ok _ _ _ _ _ eq_refl). destruct (pt_walk_ok _ _ _ _ _ _ _ _ _ Hv Hva Hac) as (s' & Ew & Hv').
  assert (Z.land (used w e) PTE_ADDR = Z.land e PTE_ADDR) as Hua.
  { destruct (used_lor w e) as (f & Hf & ->). apply lor_keep. by apply plain_part. }
  destruct (tlb s !! pg_no va) as [e0|] eqn:Et; [|rewrite (bind_ok _ _ _ _ _ Ew); cbn; rewrite Hua; by exists s'].
  destruct (cached_entry _ _ _ _ _ _ _ Hv Et) as (sp1 & e1 & Hsp1 & He1 & Ee1 & Hu1 & Ha1 & HA & HD). apply access_some in Hac as (Hsp & Ee & Hu).
  assert (sp1 = sp) as -> by congruence. assert (e1 = e) as -> by congruence. rewrite <-Hu1, Hu. destruct (negb w || bool_decide (Z.land e0 PTE_D ≠ 0)) eqn:Eb.
  - rewrite (bind_ok _ _ _ _ _ eq_refl). cbn. rewrite <-Ha1. exists s. split; [done|]. rewrite used_idle, with_entry_same; try done; [by eapply entry_tables|].
    intros ->. apply HD. cbn in Eb. by apply bool_decide_eq_true in Eb.
  - rewrite (bind_ok _ _ _ _ _ Ew). cbn. rewrite Hua. by exists s'.
Qed.

Lemma translate_fault P O G a s w va :
  vrel P O G a s → 0 ≤ va < PHYS_BASE → access w va a = None → ∃ s', translate w va s = Ok (None, s') ∧ vrel P O G a s'.
Proof.
  intros Hv Hva Hac. unfold translate. rewrite (bind_ok _ _ _ _ _ eq_refl). destruct (walk_fault _ _ _ _ _ _ _ Hv Hva Hac) as (s' & Ew & Hv').
  destruct (tlb s !! pg_no va) as [e0|] eqn:Et; [|rewrite (bind_ok _ _ _ _ _ Ew); by exists s'].
  destruct (cached_entry _ _ _ _ _ _ _ Hv Et) as (sp1 & e1 & Hsp1 & He1 & Ee1 & Hu1 & _). rewrite <-Hu1, (access_none w va a sp1 Hac Hsp1 e1 Ee1).
  by exists s.
Qed.

End relation.
