(* ===== verification/Paging.v ===== *)
(** * The kernel's page directory

    [paging_init] of threads/init.c: the first page directory, which maps all of
    physical memory at [PHYS_BASE] with the kernel's code write-protected. *)

From S2P Require Import Prelude Vaddr CString Bitmap Palloc PageDir PageDirSpec PageDirInv.

Section paging.
  Context {S : Type} {PA : PageAllocator S} {PL : PageAllocatorLaws S} {PP : PagePool S}.
  Implicit Types s : mmu S.

(** ** threads/init.c *)

(** The loop over the [n] pages from [page] on.  The bounds of the kernel's code
    are symbols of the linker. *)
Fixpoint paging_loop (start end_kernel_text : Z) (n : nat) (page pd pt : Z) : M (mmu S) unit :=
  match n with
  | O => mret tt
  | Datatypes.S n =>
      let paddr := u32 (page * PGSIZE) in
      vaddr ← lift (ptov paddr);
      let pde_idx := pd_no vaddr in
      let pte_idx := pt_no vaddr in
      let in_kernel_text := bool_decide (start ≤ vaddr ∧ vaddr < end_kernel_text) in
      e ← rd32 (pd + 4 * pde_idx);
      pt ← (if decide (e = 0) then
              pt ← get_page (Z.lor PAL_ASSERT PAL_ZERO);
              v ← lift (pde_create pt);
              wr32 (pd + 4 * pde_idx) v;;
              mret pt
            else mret pt);
      v ← lift (pte_create_kernel vaddr (negb in_kernel_text));
      wr32 (pt + 4 * pte_idx) v;;
      paging_loop start end_kernel_text n (page + 1) pd pt
  end.

Definition paging_init (start end_kernel_text : Z) : M (mmu S) unit :=
  pd ← get_page (Z.lor PAL_ASSERT PAL_ZERO);
  modify (λ s, Mmu (pool_of s) pd (init_ram_pages s) (cr3 s) (tlb s));;
  n ← gets init_ram_pages;
  paging_loop start end_kernel_text (Z.to_nat n) 0 pd NULL;;
  p ← lift (vtop pd);
  modify (λ s, Mmu (pool_of s) (init_page_dir s) (init_ram_pages s) p ∅).

(** ** The mapping *)

(** The entry that a walk over the directory at [pd] finds for an address. *)
Definition walk_entry (m : mem) (pd va : Z) : option Z :=
  d ← word m (pd + 4 * pd_no va);
  if decide (present d) then word m (Z.land d PTE_ADDR + PHYS_BASE + 4 * pt_no va) else None.

(** The entry of the kernel for page [q] of physical memory. *)
Definition kernel_entry (start end_kernel_text q : Z) : Z :=
  let vaddr := PHYS_BASE + q * PGSIZE in
  Z.lor (Z.lor (q * PGSIZE) PTE_P) (if bool_decide (start ≤ vaddr ∧ vaddr < end_kernel_text) then 0 else PTE_W).

Lemma kernel_entry_ok start fin q : 0 ≤ q < 2 ^ 18 →
  in_u 32 (kernel_entry start fin q) ∧ present (kernel_entry start fin q) ∧ frame (kernel_entry start fin q) = PHYS_BASE + q * PGSIZE ∧
  Z.land (kernel_entry start fin q) PTE_U = 0 ∧
  (Z.land (kernel_entry start fin q) PTE_W = 0 ↔ start ≤ PHYS_BASE + q * PGSIZE < fin).
Proof.
  intros Hq. rewrite PGSIZE_eq. assert (in_u 32 (q * 4096)) as Hu by (unfold in_u; lia).
  assert (∀ f, 0 ≤ f < 4096 → Z.land (q * 4096) f = 0) as Hlow.
  { intros f Hf. apply Z.bits_inj'. intros j Hj. rewrite Z.land_spec, Z.bits_0. change 4096 with (2 ^ 12). destruct (decide (j < 12)).
    - by rewrite Z.mul_pow2_bits_low by lia.
    - rewrite (proj2 (in_u_bits 12 f ltac:(lia)) ltac:(unfold in_u; lia) j) by lia. apply andb_false_r. }
  unfold kernel_entry. rewrite PGSIZE_eq. set (w := if bool_decide _ then 0 else PTE_W). assert (w = 0 ∨ w = PTE_W) as Hw by (unfold w; case_bool_decide; auto).
  split_and!.
  - apply in_u_lor; [by apply in_u_lor|]. destruct Hw as [-> | ->]; done.
  - unfold present. rewrite Z.land_lor_distr_l. intros E. apply Z.lor_eq_0_iff in E as [E _]. rewrite Z.land_lor_distr_l in E. by apply Z.lor_eq_0_iff in E as [_ E].
  - unfold frame. rewrite !lor_keep by (done || destruct Hw as [-> | ->]; done). rewrite addr_eq, PGSIZE_eq, Z.mod_mul by done. lia.
  - rewrite !lor_keep by (done || destruct Hw as [-> | ->]; done). by apply Hlow.
  - rewrite Z.land_lor_distr_l, lor_keep, Hlow, Z.lor_0_l by done. unfold w. case_bool_decide as Hb; split; done || tauto.
Qed.

Lemma pte_create_kernel_ok start fin q : 0 ≤ q < 2 ^ 18 →
  pte_create_kernel (PHYS_BASE + q * PGSIZE) (negb (bool_decide (start ≤ PHYS_BASE + q * PGSIZE ∧ PHYS_BASE + q * PGSIZE < fin))) = Ok (kernel_entry start fin q).
Proof.
  intros Hq. unfold pte_create_kernel, check. rewrite pg_ofs_page by by rewrite Z.mod_add. cbn.
  rewrite vtop_ok by (rewrite ?PGSIZE_eq; unfold PHYS_BASE; lia). cbn. unfold kernel_entry.
  replace (PHYS_BASE + q * PGSIZE - PHYS_BASE) with (q * PGSIZE) by lia. by case_bool_decide.
Qed.

(** Where the loop is: [ts] are the tables so far, for the pages below [page]. *)
Record mapped_to (start fin : Z) (H : gset Z) (s0 s : mmu S) (page pd : Z) (ts : list Z) : Prop := {
  mt_wf : pa_wf (pool_of s);
  mt_rest : ∃ p, s = set_pool p s0;
  mt_range : pool_range (pool_of s) = pool_range (pool_of s0);
  mt_held : held (pool_of s) = H ∪ {[pd]} ∪ list_to_set ts;
  mt_fresh : NoDup (pd :: ts) ∧ ∀ k, k ∈ pd :: ts → k ∉ H ∧ kpage_ok k;
  mt_pde i : 0 ≤ i < 1024 → ∃ w, word (memory (pool_of s)) (pd + 4 * i) = Some w ∧
    pde_is (if decide (768 ≤ i) then ts !! Z.to_nat (i - 768) else None) w;
  mt_pte q pt : 0 ≤ q < page → ts !! Z.to_nat (q / 1024) = Some pt →
    word (memory (pool_of s)) (pt + 4 * (q mod 1024)) = Some (kernel_entry start fin q)
}.

(** The indices of page [q] of physical memory. *)
Lemma kernel_indices q : 0 ≤ q < 2 ^ 18 →
  pd_no (PHYS_BASE + q * PGSIZE) = 768 + q / 1024 ∧ pt_no (PHYS_BASE + q * PGSIZE) = q mod 1024 ∧ 0 ≤ q / 1024 < 256 ∧ 0 ≤ q mod 1024 < 1024.
Proof. intros Hq. rewrite pd_no_eq, pt_no_eq, PGSIZE_eq. unfold PHYS_BASE. change (2 ^ 22) with 4194304. split_and!; dlia. Qed.

Lemma mt_page start fin H s0 s page pd ts k : mapped_to start fin H s0 s page pd ts → k ∈ pd :: ts → kpage_ok k ∧ mapped (memory (pool_of s)) k PGSIZE ∧ k ≠ NULL.
Proof.
  intros Hm Hk. apply held_page; [apply Hm|]. rewrite (mt_held _ _ _ _ _ _ _ _ Hm). apply elem_of_cons in Hk as [->|Hk]; [clear; set_solver|].
  apply elem_of_union_r. by apply elem_of_list_to_set.
Qed.

(** A word in a page of the directory is written. *)
Lemma mt_write start fin H s0 s page pd ts k j v :
  mapped_to start fin H s0 s page pd ts → k ∈ pd :: ts → 0 ≤ j < 1024 → in_u 32 v →
  wr32 (k + 4 * j) v s = Ok (tt, wrote (k + 4 * j) v s) ∧ pa_wf (pool_of (wrote (k + 4 * j) v s)) ∧
  held (pool_of (wrote (k + 4 * j) v s)) = held (pool_of s) ∧
  ∀ q i, q ∈ pd :: ts → 0 ≤ i < 1024 →
    word (memory (pool_of (wrote (k + 4 * j) v s))) (q + 4 * i) = if decide (q = k ∧ i = j) then Some v else word (memory (pool_of s)) (q + 4 * i).
Proof.
  intros Hm Hk Hj Hv. destruct (mt_page _ _ _ _ _ _ _ _ _ Hm Hk) as ((_ & _ & Hka) & Hmap & _).
  destruct (pa_set_memory (pool_of s) (store (k + 4 * j) (le_bytes 4 v) (memory (pool_of s)))) as (W1 & W2 & W3); [apply Hm| |].
  { apply store_dom. rewrite le_bytes_length. by apply page_word_mapped. }
  unfold wrote. cbn [pool_of set_pool]. rewrite W2, W3. split; [apply wr32_ok; by apply word_mapped|]. split; [done|]. split; [done|].
  intros q i Hq Hi. destruct (mt_page _ _ _ _ _ _ _ _ _ Hm Hq) as ((_ & _ & Hqa) & _). by apply word_store.
Qed.

(** The table for the next page. *)
Lemma paging_table start fin H s0 s page pd ts pt :
  mapped_to start fin H s0 s page pd ts → 0 ≤ page < 2 ^ 18 → Z.of_nat (length ts) = (page + 1023) / 1024 →
  (page mod 1024 ≠ 0 → ts !! Z.to_nat (page / 1024) = Some pt) →
  let m := e ← rd32 (pd + 4 * (768 + page / 1024));
           (if decide (e = 0) then
              pt ← get_page (Z.lor PAL_ASSERT PAL_ZERO); v ← lift (pde_create pt); wr32 (pd + 4 * (768 + page / 1024)) v;; mret pt
            else mret pt) in
  m s = Err Panicked ∨
  ∃ pt' s' ts', m s = Ok (pt', s') ∧ mapped_to start fin H s0 s' page pd ts' ∧ ts' !! Z.to_nat (page / 1024) = Some pt' ∧ Z.of_nat (length ts') = page / 1024 + 1.
Proof.
  intros Hm Hp Hc Hpt. cbv zeta. destruct (kernel_indices page Hp) as (_ & _ & K3 & K4).
  destruct (mt_pde _ _ _ _ _ _ _ _ Hm (768 + page / 1024) ltac:(lia)) as (w & Ew & Hw). rewrite (bind_ok _ _ _ _ _ (rd32_ok _ _ _ Ew)).
  rewrite decide_True in Hw by lia. replace (768 + page / 1024 - 768) with (page / 1024) in Hw by lia.
  destruct (decide (page mod 1024 = 0)) as [Hz|Hz].
  2:{ rewrite (Hpt Hz) in Hw. rewrite decide_False by by eapply pde_is_nonzero. right. exists pt, s, ts. split_and!; [done|done|by apply Hpt|]. rewrite Hc. clear -Hz Hp. dlia. }
  assert (length ts = Z.to_nat (page / 1024)) as Hlen by (clear -Hc Hz Hp; dlia).
  rewrite lookup_ge_None_2 in Hw by lia. cbn in Hw. subst w. rewrite decide_True by done.
  destruct (take_page s (Z.lor PAL_ASSERT PAL_ZERO) (mt_wf _ _ _ _ _ _ _ _ Hm)) as [[E _]|(k & p & E & Wf & [(_ & ? & _)|(Hn & Hkp & Hk & Hh & Hout & Hzero)])]; [|done|].
  { left. by rewrite (bind_err _ _ _ _ E). }
  right. destruct (pde_create_ok k Hkp) as (w & Ec & Hpw). rewrite (bind_ok _ _ _ _ _ E). set (s1 := set_pool p s).
  assert (lift (pde_create k) s1 = Ok (w, s1)) as El by (unfold lift; by rewrite Ec). rewrite (bind_ok _ _ _ _ _ El).
  destruct Hm as [M1 M2 M2' M3 [M4 M4'] M5 M6]. rewrite M3 in Hk. assert (k ∉ H ∧ k ≠ pd ∧ k ∉ ts) as (HkH & Hkpd & Hkts) by (clear -Hk; set_solver).
  assert (∀ q i, q ∈ pd :: ts → 0 ≤ i < 1024 → word (memory p) (q + 4 * i) = word (memory (pool_of s)) (q + 4 * i)) as Hold.
  { intros q i Hq Hi. apply word_ext. intros x Hx. apply Hout. destruct (M4' q Hq) as [_ (_ & _ & Hqa)].
    apply (pages_apart q k x Hqa); [apply Hkp|intros ->; by apply elem_of_cons in Hq as []|rewrite PGSIZE_eq; lia]. }
  assert (mapped_to start fin ({[k]} ∪ H) s0 s1 page pd ts) as Hm1.
  { split; cbn [pool_of set_pool s1]; try done.
    - destruct M2 as [p0 ->]. by exists p.
    - rewrite <-M2'. by apply (get_page_range s (Z.lor PAL_ASSERT PAL_ZERO) k).
    - rewrite Hh, M3. by rewrite !(assoc_L (∪)).
    - split; [done|]. intros q Hq. destruct (M4' q Hq) as [Hq1 Hq2]. split; [|done]. apply not_elem_of_union. split; [|done]. apply not_elem_of_singleton. intros ->. by apply elem_of_cons in Hq as [?|?].
    - intros i Hi. rewrite Hold by (done || by left). by apply M5.
    - intros q pt' Hq Hpt'. rewrite Hold; [by apply M6|right; by eapply list_elem_of_lookup_2|]. clear. dlia. }
  destruct (mt_write _ _ _ _ _ _ _ _ pd (768 + page / 1024) w Hm1) as (Ewr & Wf' & Wh & Ww); [by left|lia|apply Hpw|].
  rewrite (bind_ok _ _ _ _ _ Ewr). exists k. eexists _, (ts ++ [k]). split; [done|].
  assert ((ts ++ [k]) !! Z.to_nat (page / 1024) = Some k) as Hlast by (rewrite <-Hlen; by apply list_lookup_middle).
  split_and!; [|done|rewrite length_app; cbn; lia]. destruct Hm1 as [N1 N2 N2' N3 N4 N5 N6]. split; try done.
  - destruct N2 as [p0 ->]. by eexists.
  - rewrite <-N2'. apply pool_range_set.
  - rewrite Wh, N3, list_to_set_app_L. cbn. clear. set_solver.
  - split.
    + apply NoDup_cons in M4 as [H1 H2]. apply NoDup_cons. rewrite elem_of_app, list_elem_of_singleton. split; [by intros [?|<-]|].
      apply NoDup_app. split_and!; [done|intros x Hx ->%list_elem_of_singleton; done|apply NoDup_singleton].
    + intros q Hq. rewrite app_comm_cons, elem_of_app, list_elem_of_singleton in Hq. destruct Hq as [Hq| ->]; [by apply M4'|done].
  - intros i Hi. rewrite Ww by (done || by left). case_decide as Hd.
    + destruct Hd as [_ ->]. exists w. split; [done|]. rewrite decide_True by lia. replace (768 + page / 1024 - 768) with (page / 1024) by lia. by rewrite Hlast.
    + destruct (N5 i Hi) as (w' & Ew' & Hw'). exists w'. split; [done|]. case_decide; [|done].
      destruct (decide (Z.to_nat (i - 768) < length ts)%nat); [by rewrite lookup_app_l|].
      rewrite lookup_ge_None_2 in Hw' by lia. rewrite lookup_ge_None_2; [done|]. rewrite length_app. cbn. lia.
  - intros q pt' Hq Hpt'. assert (q / 1024 < page / 1024) by (clear -Hq Hz; dlia). rewrite lookup_app_l in Hpt' by (clear -Hlen Hq H0; dlia).
    assert (pt' ∈ ts) as Hin by by eapply list_elem_of_lookup_2. rewrite Ww; [|by right|clear; dlia]. rewrite decide_False; [by apply N6|].
    intros [-> _]. by apply NoDup_cons in M4 as [? _].
Qed.

(** The entry of a page is written. *)
Lemma paging_entry start fin H s0 s page pd ts pt :
  mapped_to start fin H s0 s page pd ts → 0 ≤ page < 2 ^ 18 → ts !! Z.to_nat (page / 1024) = Some pt →
  ∃ s', wr32 (pt + 4 * (page mod 1024)) (kernel_entry start fin page) s = Ok (tt, s') ∧ mapped_to start fin H s0 s' (page + 1) pd ts.
Proof.
  intros Hm Hp Hpt. destruct (kernel_indices page Hp) as (_ & _ & K3 & K4). assert (pt ∈ ts) as Hin by by eapply list_elem_of_lookup_2.
  destruct (mt_write _ _ _ _ _ _ _ _ pt (page mod 1024) (kernel_entry start fin page) Hm) as (E & Wf & Wh & Ww); [by right|lia|by apply kernel_entry_ok|].
  eexists. split; [done|]. destruct Hm as [M1 M2 M2' M3 [M4 M4'] M5 M6]. split; try done.
  - destruct M2 as [p0 ->]. by eexists.
  - rewrite <-M2'. apply pool_range_set.
  - by rewrite Wh.
  - intros i Hi. rewrite Ww by (done || by left). rewrite decide_False; [by apply M5|]. intros [-> _]. by apply NoDup_cons in M4 as [? _].
  - intros q pt' Hq Hpt'. rewrite Ww; [|right; by eapply list_elem_of_lookup_2|clear; dlia]. destruct (decide (q = page)) as [->|Hne].
    + rewrite Hpt in Hpt'. injection Hpt' as <-. by rewrite decide_True.
    + rewrite decide_False; [apply M6; [lia|done]|]. intros [-> Emod]. apply NoDup_cons in M4 as [_ M4].
      assert (Z.to_nat (q / 1024) = Z.to_nat (page / 1024)) as Eq by by eapply NoDup_lookup. apply Hne. clear -Eq Emod Hq Hp. dlia.
Qed.

Lemma paging_loop_ok start fin n H s0 s page pd ts pt :
  mapped_to start fin H s0 s page pd ts → 0 ≤ page → page + Z.of_nat n ≤ 2 ^ 18 → Z.of_nat (length ts) = (page + 1023) / 1024 →
  (page mod 1024 ≠ 0 → ts !! Z.to_nat (page / 1024) = Some pt) →
  paging_loop start fin n page pd pt s = Err Panicked ∨
  ∃ s' ts', paging_loop start fin n page pd pt s = Ok (tt, s') ∧ mapped_to start fin H s0 s' (page + Z.of_nat n) pd ts' ∧
    Z.of_nat (length ts') = (page + Z.of_nat n + 1023) / 1024.
Proof.
  revert s page ts pt. induction n as [|n IH]; intros s page ts pt Hm H0 Hn Hc Hpt.
  { right. exists s, ts. rewrite Z.add_0_r. done. }
  cbn [paging_loop]. assert (0 ≤ page < 2 ^ 18) as Hp by lia. destruct (kernel_indices page Hp) as (K1 & K2 & K3 & K4).
  assert (lift (ptov (u32 (page * PGSIZE))) s = Ok (PHYS_BASE + page * PGSIZE, s)) as Ev.
  { unfold lift. rewrite wrapu_small, ptov_ok by (unfold in_u, PHYS_BASE; rewrite PGSIZE_eq; lia). do 2 f_equal. lia. }
  rewrite (bind_ok _ _ _ _ _ Ev), K1, K2.
  destruct (paging_table _ _ _ _ _ _ _ _ pt Hm Hp Hc Hpt) as [E|(pt' & s1 & ts1 & E & Hm1 & Hpt1 & Hc1)]; cbv zeta in E; rewrite <-bind_assoc.
  { left. by rewrite (bind_err _ _ _ _ E). }
  rewrite (bind_ok _ _ _ _ _ E). assert (lift (pte_create_kernel (PHYS_BASE + page * PGSIZE) (negb (bool_decide (start ≤ PHYS_BASE + page * PGSIZE ∧ PHYS_BASE + page * PGSIZE < fin)))) s1 =
    Ok (kernel_entry start fin page, s1)) as El by (unfold lift; by rewrite pte_create_kernel_ok).
  rewrite (bind_ok _ _ _ _ _ El). destruct (paging_entry _ _ _ _ _ _ _ _ pt' Hm1 Hp Hpt1) as (s2 & E2 & Hm2). rewrite (bind_ok _ _ _ _ _ E2).
  replace (page + Z.of_nat (Datatypes.S n)) with (page + 1 + Z.of_nat n) by lia. apply (IH s2 (page + 1) ts1 pt'); try done; try lia.
  - rewrite Hc1. clear -H0. dlia.
  - intros Hz. replace ((page + 1) / 1024) with (page / 1024) by (clear -Hz H0; dlia). done.
Qed.

(** A walk over the directory finds the entry. *)
Lemma mt_walk start fin H s0 s page pd ts q :
  mapped_to start fin H s0 s page pd ts → Z.of_nat (length ts) = (page + 1023) / 1024 → page ≤ 2 ^ 18 → 0 ≤ q < page →
  walk_entry (memory (pool_of s)) pd (PHYS_BASE + q * PGSIZE) = Some (kernel_entry start fin q).
Proof.
  intros Hm Hc Hp Hq. destruct (kernel_indices q ltac:(lia)) as (K1 & K2 & K3 & K4). unfold walk_entry. rewrite K1, K2.
  destruct (mt_pde _ _ _ _ _ _ _ _ Hm (768 + q / 1024) ltac:(lia)) as (w & Ew & Hw). rewrite Ew. cbn.
  rewrite decide_True in Hw by lia. replace (768 + q / 1024 - 768) with (q / 1024) in Hw by lia.
  destruct (lookup_lt_is_Some_2 ts (Z.to_nat (q / 1024))) as [pt Hpt]; [clear -Hc Hq; dlia|]. rewrite Hpt in Hw. destruct Hw as (_ & Ha & Hpr & _).
  rewrite decide_True by done. rewrite Ha. replace (pt - PHYS_BASE + PHYS_BASE) with pt by lia. by apply (mt_pte _ _ _ _ _ _ _ _ Hm).
Qed.

End paging.
