(* ===== verification/PageDirTheorems.v ===== *)
(** * Theorems on page directories

    Every sequence of calls by a client that keeps to the rules runs without a
    failed assertion or a bad access and is a run of the abstract machine of
    PageDirSpec; user programs reach only the frames of their own directory. *)

From S2P Require Import Prelude Vaddr CString Bitmap Palloc PageDir PageDirSpec PageDirInv Paging.

Section calls.
  Context {S : Type} {PA : PageAllocator S} {PL : PageAllocatorLaws S} {PP : PagePool S}.
  Implicit Types (s : mmu S) (a : vm) (P : gset Z).

(** ** One call *)

Lemma vm_query ke P a s (r : answer) (m : M (mmu S) answer) c :
  represents ke P a s → (∀ O G, vrel ke P O G a s → m s = Ok (r, s)) → spec a c r a →
  ∃ r' s' a', m s = Ok (r', s') ∧ spec a c r' a' ∧ represents ke P a' s'.
Proof. intros (O & G & Hv) Hm Hs. exists r, s, a. split; [by apply (Hm O G)|]. split; [done|]. by exists O, G. Qed.

(** A call followed by the choice of its answer. *)
Lemma answered {A} (m : M (mmu S) A) (f : A → answer) s x s' : m s = Ok (x, s') → (y ← m; mret (f y)) s = Ok (f x, s').
Proof. intros E. by rewrite (bind_ok _ _ _ _ _ E). Qed.

Lemma vm_flag ke P a s pd u f b c :
  represents ke P a s → is_Some (spaces a !! pd) → 0 ≤ u < PHYS_BASE → plain f →
  (∀ sp, spaces a !! pd = Some sp → spec a c Done (set_space pd (put_flag f b u sp) a)) →
  ∃ r' s' a', (set_flag f pd u b;; mret Done) s = Ok (r', s') ∧ spec a c r' a' ∧ represents ke P a' s'.
Proof.
  intros (O & G & Hv) [sp Hsp] Hu Hf Hs. destruct (set_flag_ok _ _ _ _ _ _ _ _ _ _ b Hv Hsp Hu Hf) as (s' & E & Hv').
  exists Done, s'. eexists. split; [by rewrite (bind_ok _ _ _ _ _ E)|]. split; [by apply Hs|]. by exists O, G.
Qed.

Lemma frame_page ke P O G a s sp n e :
  vrel ke P O G a s → spaces a !! active a = Some sp → entry sp n = Some e → present e → O !! frame e = Some (Frame (active a) n).
Proof. intros Hv Hsp He Hp. apply (frame_owned O G a _ sp); try done. apply Hv. Qed.

Lemma ofs_range va : 0 ≤ pg_ofs va < PGSIZE.
Proof. rewrite pg_ofs_eq. apply Z.mod_pos_bound. rewrite PGSIZE_eq. lia. Qed.

(** Writing back the memory as it is. *)
Lemma vrel_unchanged ke P O G a s : vrel ke P O G a s → vrel ke P O G a (set_pool (set_memory (memory (pool_of s)) (pool_of s)) s).
Proof. intros Hv. apply (vrel_mem ke P O G a s); try done; apply Hv. Qed.

Lemma vm_read ke P a s va :
  represents ke P a s → 0 ≤ va < PHYS_BASE →
  ∃ r' s' a', exec (UserRead va) s = Ok (r', s') ∧ spec a (UserRead va) r' a' ∧ represents ke P a' s'.
Proof.
  intros (O & G & Hv) Hva. cbn [exec]. unfold user_read. destruct (access false va a) as [[sp e]|] eqn:Hac.
  - destruct (translate_ok _ _ _ _ _ _ _ _ _ _ Hv Hva Hac) as (s' & E & Hv'). pose proof Hac as (Hsp & He & Hu)%access_some.
    pose proof (frame_page _ _ _ _ _ _ _ _ _ Hv Hsp He (user_ok_present _ _ Hu)) as Hf. pose proof (ofs_range va) as Hofs.
    assert (frame e ≤ frame e + pg_ofs va < frame e + PGSIZE) as Hx by lia.
    destruct (owned_page _ _ _ _ _ _ (frame e) Hv' ltac:(by eexists)) as (_ & Hmap & _). destruct (Hmap (frame e + pg_ofs va) Hx) as [b Eb].
    assert (on_memory (rd8 (frame e + pg_ofs va)) s' = Ok (b, set_pool (set_memory (memory (pool_of s')) (pool_of s')) s')) as Er.
    { unfold on_memory, on_pool. apply zoom_ok, zoom_ok. by apply rd8_ok. }
    eexists (Byte (Some b)), _, _. split; [|split; [apply (spec_read a va sp e b); [done|]|exists O, G; by apply vrel_unchanged]].
    + rewrite bind_assoc, (bind_ok _ _ _ _ _ E). replace (Z.land e PTE_ADDR + pg_ofs va + PHYS_BASE) with (frame e + pg_ofs va) by (unfold frame; lia).
      by rewrite bind_assoc, (bind_ok _ _ _ _ _ Er).
    + change (bytes a) with (bytes (set_space (active a) (with_entry (pg_no va) (used false e) sp) a)).
      rewrite <-(im_bytes _ _ _ _ (vr_mem _ _ _ _ _ _ Hv') (frame e) _ (frame e + pg_ofs va) Hf); done.
  - destruct (translate_fault _ _ _ _ _ _ _ _ Hv Hva Hac) as (s' & E & Hv'). exists (Byte None), s', a. split; [|split; [by constructor|by exists O, G]].
    by rewrite bind_assoc, (bind_ok _ _ _ _ _ E).
Qed.

Lemma vm_write ke P a s va b :
  represents ke P a s → 0 ≤ va < PHYS_BASE →
  ∃ r' s' a', exec (UserWrite va b) s = Ok (r', s') ∧ spec a (UserWrite va b) r' a' ∧ represents ke P a' s'.
Proof.
  intros (O & G & Hv) Hva. cbn [exec]. unfold user_write. destruct (access true va a) as [[sp e]|] eqn:Hac.
  - destruct (translate_ok _ _ _ _ _ _ _ _ _ _ Hv Hva Hac) as (s1 & E & Hv1). pose proof Hac as (Hsp & He & Hu)%access_some.
    pose proof (frame_page _ _ _ _ _ _ _ _ _ Hv Hsp He (user_ok_present _ _ Hu)) as Hf. pose proof (ofs_range va) as Hofs.
    destruct (write_byte _ _ _ _ _ _ (frame e) _ (frame e + pg_ofs va) b Hv1 Hf I) as (s' & E' & Hv'); [lia|].
    exists (Flag true), s'. eexists. split; [|split; [by apply (spec_write a va b sp e)|by exists O, G]].
    rewrite bind_assoc, (bind_ok _ _ _ _ _ E). replace (Z.land e PTE_ADDR + pg_ofs va + PHYS_BASE) with (frame e + pg_ofs va) by (unfold frame; lia).
    by rewrite bind_assoc, (bind_ok _ _ _ _ _ E').
  - destruct (translate_fault _ _ _ _ _ _ _ _ Hv Hva Hac) as (s' & E & Hv'). exists (Flag false), s', a. split; [|split; [by constructor|by exists O, G]].
    by rewrite bind_assoc, (bind_ok _ _ _ _ _ E).
Qed.

Lemma vm_activate ke P a s pd :
  represents ke P a s → pd = NULL ∨ is_Some (spaces a !! pd) →
  ∃ r' s' a', exec (Activate pd) s = Ok (r', s') ∧ spec a (Activate pd) r' a' ∧ represents ke P a' s'.
Proof.
  intros (O & G & Hv) Hpd. destruct (vrel_activate _ _ _ _ _ _ _ Hv Hpd) as (s' & E & Hv'). exists Done, s'. eexists.
  split; [cbn [exec]; by rewrite (bind_ok _ _ _ _ _ E)|]. split; [|by exists O, G]. apply spec_activate; intros Hn; [by rewrite decide_False|].
  rewrite decide_True by done. apply eq_None_not_Some. intros Hs. pose proof (ow_dir _ _ _ (vr_owns _ _ _ _ _ _ Hv)) as Hd. apply Hd in Hs.
  by apply (init_not_owned _ _ _ _ _ _ (init_page_dir s) Hv); [eexists|].
Qed.

Lemma vm_call ke P a s c :
  represents ke P a s → legal a c → ∃ r s' a', exec c s = Ok (r, s') ∧ spec a c r a' ∧ represents ke P a' s'.
Proof.
  intros Hr Hl. destruct c; cbn [exec legal] in *.
  - destruct (vm_get _ _ _ _ _ Hr Hl) as (k & s' & a' & E & Hr' & Hs). exists (Address k), s', a'. by rewrite (bind_ok _ _ _ _ _ E).
  - destruct (vm_free _ _ _ _ _ Hr Hl) as (s' & a' & E & Hr' & Hs). exists Done, s', a'. by rewrite (bind_ok _ _ _ _ _ E).
  - destruct Hr as (O & G & Hv), Hl as (q & Hq & Hx). apply (ow_loose _ _ _ (vr_owns _ _ _ _ _ _ Hv)) in Hq.
    destruct (write_byte _ _ _ _ _ _ q _ k b Hv Hq I Hx) as (s' & E & Hv'). exists Done, s'. eexists. rewrite (bind_ok _ _ _ _ _ E).
    split; [done|]. split; [constructor|]. by exists O, G.
  - destruct (vm_create _ _ _ _ Hr) as (k & s' & a' & E & Hr' & Hs). exists (Address k), s', a'. by rewrite (bind_ok _ _ _ _ _ E).
  - destruct Hl as [H1 H2]. destruct (vm_destroy _ _ _ _ _ Hr H1 H2) as (s' & a' & E & Hr' & Hs). exists Done, s', a'. by rewrite (bind_ok _ _ _ _ _ E).
  - destruct Hl as (H1 & H2 & sp & H4 & H5). destruct (vm_set _ _ _ _ _ _ _ _ writable Hr H4 H1 H2 H5) as (b & s' & a' & E & Hr' & Hs).
    exists (Flag b), s', a'. by rewrite (bind_ok _ _ _ _ _ E).
  - destruct Hl as [Hu [sp Hsp]]. eapply vm_query; [done| |by apply (spec_lookup a pd sp)]. intros O G Hv.
    by rewrite (bind_ok _ _ _ _ _ (pagedir_get_page_ok _ _ _ _ _ _ _ _ _ Hv Hsp Hu)).
  - destruct Hl as [Hu [sp Hsp]]. eapply vm_query; [done| |by apply (spec_present a pd sp)]. intros O G Hv.
    by rewrite (bind_ok _ _ _ _ _ (is_user_page_present_ok _ _ _ _ _ _ _ _ _ _ Hv Hsp Hu)).
  - destruct Hr as (O & G & Hv), Hl as [Hu [sp Hsp]]. destruct (pagedir_clear_page_ok _ _ _ _ _ _ _ _ _ Hv Hsp Hu) as (s' & a' & O' & E & Hv' & Hs).
    exists Done, s', a'. rewrite (bind_ok _ _ _ _ _ E). split; [done|]. split; [done|]. by exists O', G.
  - destruct Hl as [Hu [sp Hsp]]. eapply vm_query; [done| |by apply (spec_is_dirty a pd sp)]. intros O G Hv.
    by rewrite (bind_ok _ _ _ _ _ (test_flag_ok _ _ _ _ _ _ _ _ _ PTE_D Hv Hsp Hu)).
  - destruct Hl as [Hu Hpd]. apply (vm_flag ke P a s pd vpage PTE_D b); try done. intros sp Hsp. by apply spec_set_dirty.
  - destruct Hl as [Hu [sp Hsp]]. eapply vm_query; [done| |by apply (spec_is_accessed a pd sp)]. intros O G Hv.
    by rewrite (bind_ok _ _ _ _ _ (test_flag_ok _ _ _ _ _ _ _ _ _ PTE_A Hv Hsp Hu)).
  - destruct Hl as [Hu Hpd]. apply (vm_flag ke P a s pd vpage PTE_A b); try done. intros sp Hsp. by apply spec_set_accessed.
  - by apply vm_activate.
  - by apply vm_read.
  - by apply vm_write.
  - destruct Hr as (O & G & Hv). exists Done. eexists _, a. split; [done|]. split; [constructor|]. exists O, G. destruct Hv. split; try done. cbn.
    intros k e [_ Hk]%lookup_delete_Some. by eauto.
Qed.

End calls.

(** ** Clients *)

(** The calls of a client with their answers. *)
Abbreviation history := (list (call * answer)).

Inductive spec_runs : vm → history → vm → Prop :=
  | spec_runs_nil a : spec_runs a [] a
  | spec_runs_cons a c r a1 t a' : spec a c r a1 → spec_runs a1 t a' → spec_runs a ((c, r) :: t) a'.

Lemma spec_runs_snoc a t a1 c r a' : spec_runs a t a1 → spec a1 c r a' → spec_runs a (t ++ [(c, r)]) a'.
Proof. intros Hr. induction Hr; intros Hs; cbn; econstructor; eauto. constructor. Qed.

(** A client chooses its calls by the answers so far. *)
Fixpoint drive {S} `{PageAllocator S} (client : history → call) (n : nat) (t : history) : M (mmu S) history :=
  match n with
  | O => mret t
  | Datatypes.S n => r ← exec (client t); drive client n (t ++ [(client t, r)])
  end.

(** It keeps to the rules, whatever the abstract machine answers. *)
Definition follows (client : history → call) (t : history) : Prop := ∀ i c r, t !! i = Some (c, r) → c = client (take i t).

Definition well_behaved (client : history → call) (a : vm) : Prop :=
  ∀ t a', spec_runs a t a' → follows client t → legal a' (client t).

Lemma follows_snoc client t r : follows client t → follows client (t ++ [(client t, r)]).
Proof.
  intros Hf i c r' Hi. apply lookup_app_Some in Hi as [Hi|[Hl Hi]].
  - rewrite take_app_le by (apply lookup_lt_Some in Hi; lia). by apply (Hf i c r').
  - destruct (i - length t)%nat as [|n] eqn:En; [|done]. injection Hi as <- <-. rewrite take_app_ge by lia. by rewrite En, app_nil_r.
Qed.

Section theorems.
  Context {S : Type} {PA : PageAllocator S} {PL : PageAllocatorLaws S} {PP : PagePool S}.
  Implicit Types (s : mmu S) (a : vm) (P : gset Z).

Lemma drive_ok ke client P a n t a1 s :
  well_behaved client a → spec_runs a t a1 → follows client t → represents ke P a1 s →
  ∃ t' s' a', drive client n t s = Ok (t', s') ∧ length t' = (length t + n)%nat ∧ spec_runs a t' a' ∧ represents ke P a' s'.
Proof.
  intros Hc. revert t a1 s. induction n as [|n IH]; intros t a1 s Ht Hfo Hr.
  { exists t, s, a1. split_and!; [done|lia|done|done]. }
  cbn [drive]. destruct (vm_call ke P a1 s (client t) Hr (Hc t a1 Ht Hfo)) as (r & s1 & a2 & E & Hs & Hr1).
  rewrite (bind_ok _ _ _ _ _ E). destruct (IH (t ++ [(client t, r)]) a2 s1 (spec_runs_snoc _ _ _ _ _ _ Ht Hs) (follows_snoc _ _ _ Hfo) Hr1) as (t' & s' & a' & E' & Hl & Ht' & Hr').
  exists t', s', a'. split_and!; [done| |done|done]. rewrite Hl, length_app. cbn. lia.
Qed.

(** Without directories and pages of the client only the pages of others are in use. *)
Lemma represents_empty ke P a s : represents ke P a s → spaces a = ∅ → loose a = ∅ → held (pool_of s) = P.
Proof.
  intros (O & G & Hv) Hs Hl. pose proof (vr_owns _ _ _ _ _ _ Hv) as Ho. rewrite (vr_held _ _ _ _ _ _ Hv).
  assert (O = ∅) as ->; [|rewrite dom_empty_L; apply (right_id_L ∅ (∪))]. apply map_empty. intros k. destruct (O !! k) as [o|] eqn:Ek; [|done]. exfalso.
  destruct o as [|d i|d n|].
  - apply (ow_dir _ _ _ Ho) in Ek as [? E]. by rewrite Hs in E.
  - apply (ow_table _ _ _ Ho) in Ek. assert (∃ sp, spaces a !! d = Some sp ∧ i ∈ tables sp) as (sp & E & _) by (apply (ow_tables _ _ _ Ho); by eexists). by rewrite Hs in E.
  - apply (ow_frame _ _ _ Ho) in Ek as (? & ? & E & _). by rewrite Hs in E.
  - apply (ow_loose _ _ _ Ho) in Ek. rewrite Hl in Ek. by apply not_elem_of_empty in Ek.
Qed.

(** C5. Refinement: a client that keeps to the rules makes any number of calls
    without a failed assertion or a bad access, and the calls with their
    answers are a run of the abstract machine, in which a page directory is a
    map from pages to entries and there is no cache of translations.  So the
    functions of pagedir.c invalidate the cache wherever they must, directories
    do not affect each other, and user programs read what was written to the
    frame that is mapped, with the accessed and dirty flags kept.  The pages in
    use are the pages [P] of other parts of the kernel, the directories with
    their tables, the frames and the pages of the client. *)
Theorem pagedir_refines ke client P a s n :
  represents ke P a s → well_behaved client a →
  ∃ t s' a', drive client n [] s = Ok (t, s') ∧ length t = n ∧ spec_runs a t a' ∧ represents ke P a' s'.
Proof. intros Hr Hc. apply (drive_ok ke client P a n [] a s Hc); [constructor|done|done]. Qed.

(** C19. Nothing leaks: when all directories are destroyed and the client has
    given back its pages, the pages in use are those that were in use before
    the first directory was created. *)
Theorem pagedir_no_leak ke client P d s n t s' :
  represents ke P (Vm ∅ ∅ ∅ d) s → well_behaved client (Vm ∅ ∅ ∅ d) → drive client n [] s = Ok (t, s') →
  (∀ a', spec_runs (Vm ∅ ∅ ∅ d) t a' → spaces a' = ∅ ∧ loose a' = ∅) → held (pool_of s') = held (pool_of s).
Proof.
  intros Hr Hc E Hend. destruct (drive_ok ke client P _ n [] _ s Hc (spec_runs_nil _) ltac:(done) Hr) as (t' & s2 & a' & E' & _ & Ht & Hr').
  rewrite E in E'. injection E' as <- <-. destruct (Hend a' Ht) as [He1 He2]. by rewrite (represents_empty _ _ _ _ Hr' He1 He2), (represents_empty _ _ _ _ Hr).
Qed.

(** C15. The software agrees with the processor: for the active directory,
    [is_user_page_present] says whether an access by a user program succeeds,
    and [pagedir_get_page] gives the kernel's address of the byte that the
    access reaches. *)
Theorem get_page_is_translation ke P a s w va :
  represents ke P a s → is_Some (spaces a !! active a) → 0 ≤ va < PHYS_BASE →
  ∃ k b s', pagedir_get_page (active a) va s = Ok (k, s) ∧ is_user_page_present (active a) va w s = Ok (b, s) ∧
    translate w va s = Ok (if b then Some (k - PHYS_BASE) else None, s').
Proof.
  intros (O & G & Hv) [sp Hsp] Hva. rewrite (pagedir_get_page_ok _ _ _ _ _ _ _ _ _ Hv Hsp Hva), (is_user_page_present_ok _ _ _ _ _ _ _ _ _ w Hv Hsp Hva).
  destruct (mapping sp va) as [e|] eqn:Em.
  - pose proof Em as [Ee Hp]%mapping_entry. destruct (entry_word _ _ _ _ _ _ _ _ _ _ Hv Hsp Hva Ee) as (_ & _ & _ & (_ & _ & Hu) & _).
    assert (user_ok w e = negb w || bool_decide (Z.land e PTE_W ≠ 0)) as Hok.
    { unfold user_ok. rewrite bool_decide_eq_true_2 by exact Hp. by rewrite bool_decide_eq_true_2 by auto. }
    rewrite <-Hok. destruct (user_ok w e) eqn:Eu.
    + assert (access w va a = Some (sp, e)) as Hac by by apply access_some. destruct (translate_ok _ _ _ _ _ _ _ _ _ _ Hv Hva Hac) as (s' & E & _).
      eexists _, true, s'. split_and!; [done..|]. rewrite E. do 3 f_equal. unfold frame. lia.
    + assert (access w va a = None) as Hac by (unfold access; rewrite Hsp; cbn; rewrite Em; cbn; by rewrite Eu).
      destruct (translate_fault _ _ _ _ _ _ _ _ Hv Hva Hac) as (s' & E & _). by eexists _, false, s'.
  - assert (access w va a = None) as Hac by (unfold access; rewrite Hsp; cbn; by rewrite Em).
    destruct (translate_fault _ _ _ _ _ _ _ _ Hv Hva Hac) as (s' & E & _). by eexists _, false, s'.
Qed.

(** What a page that is mapped holds. *)
Lemma mapped_bytes ke P a s pd sp u e x :
  represents ke P a s → spaces a !! pd = Some sp → mapping sp u = Some e → frame e ≤ x < frame e + PGSIZE → memory (pool_of s) !! x = bytes a !! x.
Proof.
  intros (O & G & Hv) Hsp [Ee Hp]%mapping_entry Hx. apply (im_bytes _ _ _ _ (vr_mem _ _ _ _ _ _ Hv) (frame e) (Frame pd (pg_no u))); [|done|done].
  by apply (frame_owned O G a pd sp _ e); [apply Hv|..].
Qed.

(** Two pages that are mapped have frames that do not overlap. *)
Lemma frames_apart ke P a s pd sp u e pd' sp' u' e' :
  represents ke P a s → spaces a !! pd = Some sp → mapping sp u = Some e → spaces a !! pd' = Some sp' → mapping sp' u' = Some e' →
  (pd, pg_no u) ≠ (pd', pg_no u') → ∀ x, frame e ≤ x < frame e + PGSIZE → ¬ (frame e' ≤ x < frame e' + PGSIZE).
Proof.
  intros (O & G & Hv) Hsp [Ee Hp]%mapping_entry Hsp' [Ee' Hp']%mapping_entry Hne x Hx. pose proof (vr_owns _ _ _ _ _ _ Hv) as Ho.
  pose proof (frame_owned O G a pd sp _ e Ho Hsp Ee Hp) as H1. pose proof (frame_owned O G a pd' sp' _ e' Ho Hsp' Ee' Hp') as H2.
  pose proof (vrel_aligned _ _ _ _ _ _ Hv) as Hal. apply (pages_apart (frame e) (frame e')); [apply Hal; by eexists|apply Hal; by eexists|congruence|done].
Qed.

(** A write to one page leaves the others alone. *)
Lemma write_elsewhere ke P a s va b r s' pd sp u e x :
  represents ke P a s → 0 ≤ va < PHYS_BASE → user_write va b s = Ok (r, s') →
  spaces a !! pd = Some sp → mapping sp u = Some e → (pd, pg_no u) ≠ (active a, pg_no va) →
  frame e ≤ x < frame e + PGSIZE → memory (pool_of s') !! x = memory (pool_of s) !! x.
Proof.
  intros Hr Hva E Hsp Hm Hne Hx. destruct (vm_write ke P a s va b Hr Hva) as (r' & s1 & a' & E' & Hs & Hr').
  cbn [exec] in E'. rewrite (bind_ok _ _ _ _ _ E) in E'. injection E' as <- <-. rewrite (mapped_bytes _ _ _ _ _ _ _ _ _ Hr Hsp Hm Hx).
  inversion Hs as [| | | | | | | | | | | | | | | | | | | |? ? sp0 e0 Hac|? ? Hac|]; subst; [|by apply (mapped_bytes ke P a' s' pd sp u e)].
  pose proof Hac as (Hsp0 & Ee0 & Hu0)%access_some. assert (mapping sp0 va = Some e0) as Hm0 by (apply mapping_entry; split; [done|by eapply user_ok_present]).
  pose proof (frames_apart _ _ _ _ _ _ _ _ _ _ _ _ Hr Hsp Hm Hsp0 Hm0 Hne x Hx) as Hap. pose proof (ofs_range va) as Hofs.
  set (a2 := set_bytes _ _) in *. assert (bytes a2 !! x = bytes a !! x) as <-.
  { unfold a2. cbn. apply lookup_insert_ne. lia. }
  assert (spaces a2 !! pd = Some (if decide (pd = active a) then with_entry (pg_no va) (used true e0) sp0 else sp)) as Hsp2.
  { change (spaces a2) with (spaces (set_space (active a) (with_entry (pg_no va) (used true e0) sp0) a)). rewrite spaces_alt. by case_decide. }
  apply (mapped_bytes ke P a2 s' pd _ u e x Hr' Hsp2); [|done]. case_decide as Hd; [|done]. subst pd. assert (sp0 = sp) as -> by congruence.
  apply mapping_entry. apply mapping_entry in Hm as [Ee Hp]. split; [|done]. unfold entry in *. destruct (decide (pg_no u / 1024 ∈ tables sp)) as [Ht|]; [|done].
  rewrite decide_True by by apply elem_of_union_r. cbn. by rewrite lookup_insert_ne by congruence.
Qed.

(** C6. Isolation: after any calls of the functions of pagedir.c, of the page
    allocator and of accesses by user programs, by a client that keeps to the
    rules (directories that exist, pages of its own, user addresses, no second
    mapping of a page), a write by a user program changes no byte of the kernel's
    data, and no byte that [pagedir_get_page] finds at another page: in any
    directory that has been created and not destroyed, the active one excepted,
    or in the active one outside the page that is written. *)
Theorem user_write_isolated ke client P a s n t s1 va b r s' :
  represents ke P a s → well_behaved client a → drive client n [] s = Ok (t, s1) →
  0 ≤ va < PHYS_BASE → user_write va b s1 = Ok (r, s') →
  ∃ a1, spec_runs a t a1 ∧
    (∀ x c, kernel ke !! x = Some c → memory (pool_of s') !! x = Some c) ∧
    ∀ pd u k, is_Some (spaces a1 !! pd) → 0 ≤ u < PHYS_BASE → (pd, pg_no u) ≠ (active a1, pg_no va) →
      pagedir_get_page pd u s1 = Ok (k, s1) → k ≠ NULL → memory (pool_of s') !! k = memory (pool_of s1) !! k.
Proof.
  intros Hr Hc E Hva Ew. destruct (drive_ok ke client P a n [] a s Hc (spec_runs_nil _) ltac:(done) Hr) as (t' & s2 & a1 & E' & _ & Ht & Hr1).
  rewrite E in E'. injection E' as <- <-. exists a1. split_and!; [done| |].
  - destruct (vm_write ke P a1 s1 va b Hr1 Hva) as (r' & s2 & a' & E' & _ & O & G & Hv).
    cbn [exec] in E'. rewrite (bind_ok _ _ _ _ _ Ew) in E'. injection E' as <- <-. apply (vr_kern _ _ _ _ _ _ Hv).
  - intros pd u k [sp Hsp] Hu Hne Eg Hk. pose proof Hr1 as (O & G & Hv). rewrite (pagedir_get_page_ok _ _ _ _ _ _ _ _ _ Hv Hsp Hu) in Eg.
    destruct (mapping sp u) as [e|] eqn:Em; [|congruence]. injection Eg as <-. pose proof (ofs_range u) as Hofs.
    eapply (write_elsewhere ke P a1 s1 va b r s' pd sp u e); try done. lia.
Qed.

Lemma owns_empty d : owns ∅ ∅ (Vm ∅ ∅ ∅ d).
Proof.
  split; cbn; try done; intros; rewrite ?lookup_empty.
  - split; [done|by intros [? ?]].
  - split; [by intros [? ?]|by intros (? & ? & _)].
  - by destruct H.
  - split; [done|by intros (? & ? & ? & _)].
Qed.
Lemma in_mem_empty d m : in_mem ∅ ∅ (Vm ∅ ∅ ∅ d) m.
Proof. split; cbn; try done. by intros pd i [? ?]. Qed.

(** The environment of a machine after its start: what is in use now stays in
    use, and [K] is data that is not in a free page. *)
Definition kernel_data (s : mmu S) (K : mem) : Prop :=
  ∀ x b, K !! x = Some b → memory (pool_of s) !! x = Some b ∧
    ∀ k, k ∈ pool_range (pool_of s) → k ∉ held (pool_of s) → ¬ (k ≤ x < k + PGSIZE).
Definition env_of (s : mmu S) (K : mem) : kenv := KEnv (init_ram_pages s) (init_page_dir s) (pool_range (pool_of s)) (held (pool_of s)) K.

Lemma paging_init_ok start fin s :
  pa_wf (pool_of s) → 0 ≤ init_ram_pages s ≤ 2 ^ 18 →
  (∀ k, k ∈ pool_range (pool_of s) → k + PGSIZE ≤ PHYS_BASE + init_ram_pages s * PGSIZE) →
  paging_init start fin s = Err Panicked ∨
  ∃ s', paging_init start fin s = Ok (tt, s') ∧
    (∀ q, 0 ≤ q < init_ram_pages s → ∃ e, walk_entry (memory (pool_of s')) (init_page_dir s') (PHYS_BASE + q * PGSIZE) = Some e ∧
       frame e = PHYS_BASE + q * PGSIZE ∧ Z.land e PTE_U = 0 ∧ (Z.land e PTE_W = 0 ↔ start ≤ PHYS_BASE + q * PGSIZE < fin)) ∧
    ∀ K, kernel_data s' K → represents (env_of s' K) (held (pool_of s')) (Vm ∅ ∅ ∅ (init_page_dir s')) s'.
Proof.
  intros Hwf Hn Hram. unfold paging_init. destruct (take_page s (Z.lor PAL_ASSERT PAL_ZERO) Hwf) as [[E _]|(pd & p & E & Wf & [(_ & ? & _)|(_ & Hkp & Hk & Hh & Hout & Hz)])]; [|done|].
  { left. by rewrite (bind_err _ _ _ _ E). }
  rewrite (bind_ok _ _ _ _ _ E), !(bind_ok _ _ _ _ _ eq_refl). cbn [init_ram_pages set_pool pool_of].
  set (s0 := Mmu p pd (init_ram_pages s) (cr3 s) (tlb s)).
  assert (mapped_to start fin (held (pool_of s)) s0 s0 0 pd []) as Hm0.
  { split; cbn; try done.
    - by exists p.
    - rewrite Hh. clear. set_solver.
    - split; [apply NoDup_singleton|]. by intros k ->%list_elem_of_singleton.
    - intros i Hi. exists 0. split; [|by case_decide]. apply word_zero. intros x Hx. apply Hz; [done|]. rewrite PGSIZE_eq. lia. }
  destruct (paging_loop_ok start fin (Z.to_nat (init_ram_pages s)) _ _ _ 0 pd [] NULL Hm0) as [E1|(s1 & ts & E1 & Hm1 & Hc)]; [lia|lia|done|done|..].
  { left. by rewrite (bind_err _ _ _ _ E1). }
  rewrite Z2Nat.id, Z.add_0_l in Hm1, Hc by lia. right. rewrite (bind_ok _ _ _ _ _ E1). clear E1.
  assert (lift (vtop pd) s1 = Ok (pd - PHYS_BASE, s1)) as El by (unfold lift; destruct Hkp as (? & ? & _); by rewrite vtop_ok by (rewrite PGSIZE_eq in *; lia)).
  rewrite (bind_ok _ _ _ _ _ El). eexists. split; [done|]. destruct (mt_rest _ _ _ _ _ _ _ _ Hm1) as [p1 ->]. cbn. split.
  - intros q Hq. exists (kernel_entry start fin q). destruct (kernel_entry_ok start fin q ltac:(lia)) as (_ & _ & H1 & H2 & H3).
    split_and!; [|done|done|apply H3..]. apply (mt_walk _ _ _ _ _ _ _ _ _ Hm1); [done|lia|done].
  - intros K HK. exists ∅, ∅. destruct Hm1 as [M1 M2 M2' M3 M4 M5 M6]. cbn in *. split; cbn; try done.
    + rewrite dom_empty_L. by rewrite (right_id_L ∅ (∪)).
    + apply owns_empty.
    + by apply in_mem_empty.
    + rewrite M3. clear. set_solver.
    + intros i Hi. destruct (M5 i ltac:(lia)) as (w & Ew & Hw). rewrite decide_False in Hw by lia. cbn in Hw. by subst w.
    + lia.
    + by left.
    + split; cbn; try done.
      * intros x b Hx. by apply HK.
      * intros x k [b Hx] Hk1 Hk2. by apply (HK x b).
      * intros q Hq. apply Hram. by rewrite <-(get_page_range _ _ _ _ Hwf E), <-M2'.
Qed.

(** C18. [paging_init] maps all of physical memory at [PHYS_BASE], the kernel's
    code read-only and nothing for user programs; with an empty user half, its
    directory is the start for the functions of pagedir.c.  It returns unless
    there are no pages left. *)
Theorem paging_init_maps start fin s :
  pa_wf (pool_of s) → 0 ≤ init_ram_pages s ≤ 2 ^ 18 →
  (∀ k, k ∈ pool_range (pool_of s) → k + PGSIZE ≤ PHYS_BASE + init_ram_pages s * PGSIZE) →
  paging_init start fin s = Err Panicked ∨
  ∃ s', paging_init start fin s = Ok (tt, s') ∧
    (∀ q, 0 ≤ q < init_ram_pages s → ∃ e, walk_entry (memory (pool_of s')) (init_page_dir s') (PHYS_BASE + q * PGSIZE) = Some e ∧
       frame e = PHYS_BASE + q * PGSIZE ∧ Z.land e PTE_U = 0 ∧ (Z.land e PTE_W = 0 ↔ start ≤ PHYS_BASE + q * PGSIZE < fin)) ∧
    ∀ K, kernel_data s' K → represents (env_of s' K) (held (pool_of s')) (Vm ∅ ∅ ∅ (init_page_dir s')) s'.
Proof. apply paging_init_ok. Qed.

End theorems.

(** ** An example

    A machine with 272 pages of memory after boot, and a client that maps a
    page into a new directory, which a user program then writes and reads. *)

(** Data of the kernel below the pools: the strings " ", " \t" and "a.out x". *)
Definition literals : list Z := [32; 0; 32; 9; 0; 97; 46; 111; 117; 116; 32; 120; 0].
Definition literals_at : Z := 0xc0010000.
Definition boot_memory : mem := store literals_at literals (zero_memory (PHYS_BASE + 2 ^ 20) 65536).

Lemma boot_machine : machine 272 1000 (replicate 300 0) (replicate 300 0) boot_memory.
Proof.
  split; [lia|lia|..].
  - split; [by apply Forall_replicate|done].
  - split; [by apply Forall_replicate|done].
  - apply store_mapped, zero_memory_mapped.
Qed.

Definition mmu_boot : result (mmu palloc) :=
  p ← palloc_init 272 1000 (replicate 300 0) (replicate 300 0) boot_memory;
  r ← paging_init 0xc0020000 0xc0024000 (Mmu p 0 272 0 ∅);
  Ok r.2.

Lemma result_inv {A} (r : result A) : match r with Ok _ => true | Err _ => false end = true → ∃ x, r = Ok x.
Proof. destruct r as [x|]; [by exists x|done]. Qed.
Lemma result_bind_inv {A B} (m : result A) (f : A → result B) b : (m ≫= f) = Ok b → ∃ x, m = Ok x ∧ f x = Ok b.
Proof. destruct m as [x|]; [by exists x|done]. Qed.

Lemma boot_returns : ∃ s, mmu_boot = Ok s.
Proof. apply result_inv. vm_compute. reflexivity. Qed.

Lemma boot_parts s : mmu_boot = Ok s →
  ∃ p, pa_wf p ∧ (∀ k, k ∈ pool_range p → k + PGSIZE ≤ PHYS_BASE + 272 * PGSIZE) ∧ paging_init 0xc0020000 0xc0024000 (Mmu p 0 272 0 ∅) = Ok (tt, s).
Proof.
  unfold mmu_boot. intros (p & Ep & H)%result_bind_inv. apply result_bind_inv in H as ([[] s'] & E & H). injection H as H. cbn in H. subst s'.
  exists p. destruct (palloc_init_ok _ _ _ _ _ boot_machine) as (p' & E' & Hp & _ & _ & Hend). rewrite Ep in E'. injection E' as E'. subst p'.
  split; [exact Hp|]. split; [|exact E]. intros k. by apply palloc_range_end.
Qed.

Lemma boot_represents s K : mmu_boot = Ok s → kernel_data s K → represents (env_of s K) (held (pool_of s)) (Vm ∅ ∅ ∅ (init_page_dir s)) s.
Proof.
  intros (p & Hp & Hu & E)%boot_parts HK. assert (0 ≤ init_ram_pages (Mmu p 0 272 0 ∅) ≤ 2 ^ 18) as Hn by (cbn; lia).
  destruct (paging_init_ok 0xc0020000 0xc0024000 (Mmu p 0 272 0 ∅) Hp Hn Hu) as [E2|(s' & E2 & _ & Hr)]; [congruence|].
  rewrite E in E2. injection E2 as E2. rewrite <-E2 in Hr. by apply Hr.
Qed.

Definition boot_kernel : mem := store literals_at literals ∅.

(** The strings are in memory and below the pools. *)
Definition strings_in (s : mmu palloc) : Prop :=
  map_Forall (λ x b, memory (pool_of s) !! x = Some b) boot_kernel ∧ set_Forall (λ k, literals_at + 13 ≤ k) (pool_range (pool_of s)).
#[export] Instance strings_in_dec s : Decision (strings_in s).
Proof. unfold strings_in. apply _. Defined.

Lemma boot_strings : (s ← mmu_boot; Ok (bool_decide (strings_in s))) = Ok true.
Proof. vm_compute. reflexivity. Qed.
Lemma ok_inj {A} (x y : A) : Ok x = Ok y → x = y.
Proof. by intros [= ->]. Qed.

Lemma boot_kernel_data s : mmu_boot = Ok s → kernel_data s boot_kernel.
Proof.
  intros Es. pose proof boot_strings as H. apply result_bind_inv in H as (s' & Es' & H). rewrite Es in Es'. injection Es' as Es'. rewrite <-Es' in H. clear Es Es'. apply ok_inj in H.
  apply bool_decide_eq_true in H as [H1 H2]. intros x b Hx. split; [exact (H1 x b Hx)|]. intros k Hk _. specialize (H2 k Hk). unfold boot_kernel in Hx.
  rewrite store_lookup in Hx. case_decide as Hd; [|by rewrite lookup_empty in Hx]. change (Z.of_nat (length literals)) with 13 in Hd. cbn beta in H2. clear -H2 Hd. lia.
Qed.

Lemma boot_empty s : mmu_boot = Ok s → represents (env_of s ∅) (held (pool_of s)) (Vm ∅ ∅ ∅ (init_page_dir s)) s.
Proof. intros Hs. by apply boot_represents. Qed.

Definition example_page : Z := 0x8048000.

Definition example_client (t : history) : call :=
  match snd <$> t with
  | [] => GetPage PAL_USER
  | [_] => Create
  | [Address k; Address pd] =>
      if decide (k ≠ NULL ∧ pd ≠ NULL) then SetPage pd example_page k true else Evict 0
  | [Address k; Address pd; Flag true] => Activate pd
  | [_; _; _; _] => UserWrite (example_page + 16) 42
  | [_; _; _; _; _] => UserRead (example_page + 16)
  | _ => Evict 0
  end.

(** The user program reads back what it wrote. *)
Lemma example_run : (t ← (s ← mmu_boot; drive example_client 6 [] s); Ok (snd <$> drop 4 t.1)) = Ok [Flag true; Byte (Some 42)].
Proof. vm_compute. reflexivity. Qed.

Lemma example_set_legal d k pd a1 a2 :
  spec (Vm ∅ ∅ ∅ d) (GetPage PAL_USER) (Address k) a1 → spec a1 Create (Address pd) a2 → k ≠ NULL → pd ≠ NULL →
  legal a2 (SetPage pd example_page k true).
Proof.
  intros H1 H2 Hk Hpd. inversion H1; subst; [done|]. inversion H2; subst; [done|]. cbn. split; [split; [split|]; done|]. split; [set_solver|].
  exists (Space ∅ ∅). by rewrite lookup_insert_eq.
Qed.

(** Directories stay until they are destroyed. *)
Lemma spaces_stay a c r a' pd : spec a c r a' → (∀ d, c ≠ Destroy d) → is_Some (spaces a !! pd) → is_Some (spaces a' !! pd).
Proof. intros H Hd Hs. destruct H; cbn; try done; try (apply lookup_insert_is_Some'; by right). by destruct (Hd pd0). Qed.

Lemma example_legal d : well_behaved example_client (Vm ∅ ∅ ∅ d).
Proof.
  intros t a' Ht Hf. destruct t as [|[c1 r1] t]; [done|]. assert (c1 = GetPage PAL_USER) as -> by exact (Hf 0%nat c1 r1 eq_refl).
  inversion Ht as [|? ? ? a1 ? ? H1 Ht1]; subst. destruct t as [|[c2 r2] t]; [by destruct r1|].
  assert (c2 = Create) as -> by (rewrite (Hf 1%nat c2 r2 eq_refl); by destruct r1). inversion Ht1 as [|? ? ? a2 ? ? H2 Ht2]; subst.
  destruct t as [|[c3 r3] t].
  { cbn. destruct r1 as [| |k|], r2 as [| |pd|]; try done. inversion Ht2; subst. case_decide as Hd; [|done]. destruct Hd as [D1 D2].
    exact (example_set_legal d k pd a1 a' H1 H2 D1 D2). }
  pose proof (Hf 2%nat c3 r3 eq_refl) as E3. cbn in E3. inversion Ht2 as [|? ? ? a3 ? ? H3 Ht3]; clear Ht2.
  destruct t as [|[c4 r4] t]; [|by destruct t as [|[c5 r5] [|]]; destruct r1, r2, r3 as [|[]| |]].
  cbn. destruct r1 as [| |k|], r2 as [| |pd|], r3 as [|[]| |]; try done. inversion H2; subst a2; [by left|right]. inversion Ht3; subst.
  apply (spaces_stay _ _ _ _ pd H3); [intros d0; by case_decide|]. cbn. by rewrite lookup_insert_eq.
Qed.

(** [pagedir_refines] for the example. *)
Lemma pagedir_refines_witness :
  ∃ s t s' a', mmu_boot = Ok s ∧ drive example_client 6 [] s = Ok (t, s') ∧ length t = 6%nat ∧
    spec_runs (Vm ∅ ∅ ∅ (init_page_dir s)) t a' ∧ represents (env_of s ∅) (held (pool_of s)) a' s'.
Proof.
  destruct boot_returns as [s Es].
  destruct (pagedir_refines (env_of s ∅) example_client (held (pool_of s)) (Vm ∅ ∅ ∅ (init_page_dir s)) s 6 (boot_empty s Es) (example_legal _))
    as (t & s' & a' & H). exists s, t, s', a'. exact (conj Es H).
Defined.

(** A client that creates a directory and destroys it. *)
Definition passing_client (t : history) : call :=
  match snd <$> t with
  | [] => Create
  | [Address pd] => if decide (pd ≠ NULL) then Destroy pd else Evict 0
  | _ => Evict 0
  end.

Lemma passing_legal d : well_behaved passing_client (Vm ∅ ∅ ∅ d).
Proof.
  intros t a' Ht Hf. destruct t as [|[c1 r1] t]; [done|]. assert (c1 = Create) as -> by exact (Hf 0%nat c1 r1 eq_refl).
  inversion Ht as [|? ? ? a1 ? ? H1 Ht1]; subst. destruct t as [|]; [|by destruct r1]. inversion Ht1; subst. cbn. destruct r1; try done. case_decide; [|done].
  inversion H1; subst; [done|]. cbn. rewrite lookup_insert_eq. split; [by eexists|done].
Qed.

Lemma passing_end d (s : mmu palloc) t s' a' :
  drive passing_client 2 [] s = Ok (t, s') → spec_runs (Vm ∅ ∅ ∅ d) t a' → spaces a' = ∅ ∧ loose a' = ∅.
Proof.
  cbn [drive]. intros (r1 & s1 & _ & (r2 & s2 & _ & E)%bind_inv)%bind_inv Ht. injection E as <- <-. cbn [app] in Ht.
  inversion Ht as [|? ? ? a1 ? ? H1 Ht1]; subst. inversion Ht1 as [|? ? ? a2 ? ? H2 Ht2]; subst. inversion Ht2; subst.
  change (passing_client []) with Create in *. inversion H1; subst; cbn in H2; [|rewrite decide_True in H2 by done]; inversion H2; subst; cbn; [done|].
  split; [|done]. by rewrite delete_insert_id.
Qed.

(** [pagedir_no_leak] for it. *)
Lemma pagedir_no_leak_witness : ∃ s t s', mmu_boot = Ok s ∧ drive passing_client 2 [] s = Ok (t, s') ∧ held (pool_of s') = held (pool_of s).
Proof.
  destruct boot_returns as [s Es].
  destruct (drive_ok (env_of s ∅) passing_client (held (pool_of s)) _ 2 [] _ s (passing_legal _) (spec_runs_nil _) ltac:(done) (boot_empty s Es))
    as (t & s' & a' & E & _). exists s, t, s'. split; [exact Es|]. split; [exact E|].
  exact (pagedir_no_leak (env_of s ∅) passing_client _ _ s 2 t s' (boot_empty s Es) (passing_legal _) E (λ a', passing_end _ s t s' a' E)).
Defined.

(** [paging_init_maps] for the machine of the example. *)
Lemma paging_init_maps_witness :
  ∃ (p : palloc) s', paging_init 0xc0020000 0xc0024000 (Mmu p 0 272 0 ∅) = Ok (tt, s') ∧
    ∃ e, walk_entry (memory (pool_of s')) (init_page_dir s') (PHYS_BASE + 33 * PGSIZE) = Some e ∧ Z.land e PTE_W = 0.
Proof.
  destruct boot_returns as [s Es]. destruct (boot_parts s Es) as (p & Hp & Hu & E).
  assert (0 ≤ init_ram_pages (Mmu p 0 272 0 ∅) ≤ 2 ^ 18) as Hn by (cbn; lia).
  destruct (paging_init_maps 0xc0020000 0xc0024000 (Mmu p 0 272 0 ∅) Hp Hn Hu) as [E2|(s' & E2 & Hq & _)]; [congruence|].
  exists p, s'. split; [exact E2|]. destruct (Hq 33) as (e & He & _ & _ & Hw); [cbn; lia|]. exists e. split; [exact He|]. apply Hw. split; vm_compute; congruence.
Defined.

(** ** Replaying calls *)

Fixpoint replay (t : list call) : M (mmu palloc) (list answer) :=
  match t with [] => mret [] | c :: t => r ← exec c; rs ← replay t; mret (r :: rs) end.

(** The calls keep to the rules and lead to [Q]. *)
Fixpoint plays (a : vm) (t : history) (Q : vm → Prop) : Prop :=
  match t with [] => Q a | (c, r) :: t => legal a c ∧ ∀ a', spec a c r a' → plays a' t Q end.

Lemma replay_ok ke P t Q a s rs s' :
  represents ke P a s → replay (fst <$> t) s = Ok (rs, s') → rs = snd <$> t → plays a t Q → ∃ a', Q a' ∧ represents ke P a' s'.
Proof.
  revert a s rs. induction t as [|[c r] t IH]; intros a s rs Hr E Ers Hp; cbn in E, Ers, Hp.
  { injection E as <- <-. by exists a. }
  destruct Hp as [Hl Hp]. destruct (vm_call ke P a s c Hr Hl) as (r1 & s1 & a1 & E1 & Hs & Hr1). rewrite (bind_ok _ _ _ _ _ E1) in E.
  apply bind_inv in E as (rs1 & s2 & E2 & E3). injection E3 as <- <-. injection Ers as -> Ers. by apply (IH a1 s1 rs1 Hr1 E2 Ers (Hp a1 Hs)).
Qed.

(** Two pages are mapped in a new directory, which is then active. *)
Definition page1 : Z := 0x8048000.
Definition page2 : Z := 0x8049000.
Definition frame1 : Z := 0xc0109000.
Definition frame2 : Z := 0xc010a000.
Definition example_dir : Z := 0xc0103000.

Definition two_pages : history :=
  [(GetPage PAL_USER, Address frame1); (GetPage PAL_USER, Address frame2); (Create, Address example_dir);
   (SetPage example_dir page1 frame1 true, Flag true); (SetPage example_dir page2 frame2 false, Flag true); (Activate example_dir, Done)].

Lemma two_pages_answers : (s ← mmu_boot; r ← replay (fst <$> two_pages) s; Ok r.1) = Ok (snd <$> two_pages).
Proof. vm_compute. reflexivity. Qed.

(** The address space with the two pages. *)
Definition two_pages_space (a : vm) : Prop :=
  active a = example_dir ∧ ∃ sp, spaces a !! example_dir = Some sp ∧ mapping sp page1 = Some (new_entry frame1 true) ∧ mapping sp page2 = Some (new_entry frame2 false).

Lemma two_pages_plays d : plays (Vm ∅ ∅ ∅ d) two_pages two_pages_space.
Proof.
  split; [done|]. intros a1 Q1. inversion Q1; subst; clear Q1. split; [done|]. intros a2 Q2. inversion Q2; subst; clear Q2.
  split; [done|]. intros a3 Q3. inversion Q3; subst; clear Q3. split.
  { split; [done|]. split; [cbn; set_solver|]. exists (Space ∅ ∅). cbn. by rewrite lookup_insert_eq. }
  intros a4 Q4. inversion Q4 as [| | | | | | |? sp4 ? ? ? Hsp4| | | | | | | | | | | | | | |]; subst; clear Q4. cbn in Hsp4. rewrite lookup_insert_eq in Hsp4. injection Hsp4 as <-. split.
  { split; [done|]. split; [cbn; set_solver|]. eexists. split; [cbn; by rewrite lookup_insert_eq|]. vm_compute. reflexivity. }
  intros a5 Q5. inversion Q5 as [| | | | | | |? sp5 ? ? ? Hsp5| | | | | | | | | | | | | | |]; subst; clear Q5. cbn in Hsp5. rewrite lookup_insert_eq in Hsp5. injection Hsp5 as <-. split.
  { right. cbn. rewrite lookup_insert_eq. by eexists. }
  intros a6 Q6. inversion Q6 as [| | | | | | | | | | | | | | | | |? d' Hd _| | | | |]; subst; clear Q6. split; [by apply Hd|].
  eexists. split; [cbn; by rewrite lookup_insert_eq|]. split; vm_compute; reflexivity.
Qed.

Lemma two_pages_ok : ∃ ke P a s, represents (S := palloc) ke P a s ∧ two_pages_space a.
Proof.
  destruct (result_bind_inv _ _ _ two_pages_answers) as (s & Es & E). apply result_bind_inv in E as ([rs s'] & E & Ers). injection Ers as Ers.
  destruct (replay_ok _ _ two_pages _ _ _ _ _ (boot_empty s Es) E Ers (two_pages_plays _)) as (a' & HQ & Hr).
  exists (env_of s ∅), (held (pool_of s)), a', s'. exact (conj Hr HQ).
Qed.

(** [get_page_is_translation] for a write to the page that is read-only. *)
Lemma get_page_is_translation_witness :
  ∃ (s : mmu palloc) s' k b, pagedir_get_page example_dir (page2 + 5) s = Ok (k, s) ∧ is_user_page_present example_dir (page2 + 5) true s = Ok (b, s) ∧
    translate true (page2 + 5) s = Ok (if b then Some (k - PHYS_BASE) else None, s').
Proof.
  destruct two_pages_ok as (ke & P & a & s & Hr & Ha & sp & Hsp & _).
  assert (is_Some (spaces a !! active a)) as Hs by (rewrite Ha; exists sp; exact Hsp). assert (0 ≤ page2 + 5 < PHYS_BASE) as Hva by (vm_compute; split; congruence).
  destruct (get_page_is_translation ke P a s true (page2 + 5) Hr Hs Hva) as (k & b & s' & H1 & H2 & H3). rewrite Ha in H1, H2.
  exists s, s', k, b. exact (conj H1 (conj H2 H3)).
Defined.

(** ** Scripts *)

#[export] Instance call_eq_dec : EqDecision call.
Proof. solve_decision. Defined.
#[export] Instance answer_eq_dec : EqDecision answer.
Proof. solve_decision. Defined.

(** A client that makes the calls of a script as long as the answers are those
    of the script. *)
Definition scripted (h t : history) : call :=
  if decide (t = take (length t) h) then match h !! length t with Some (c, _) => c | None => Evict 0 end else Evict 0.

Lemma plays_prefix a t h Q a' : plays a (t ++ h) Q → spec_runs a t a' → plays a' h Q.
Proof. intros Hp Ht. induction Ht as [|a c r a1 t a' Hs Ht IH]; [done|]. destruct Hp as [_ Hp]. auto. Qed.

Lemma scripted_legal a h Q : plays a h Q → well_behaved (scripted h) a.
Proof.
  intros Hp t a' Ht _. unfold scripted. case_decide as E; [|done]. destruct (h !! length t) as [[c r]|] eqn:Ec; [|done].
  rewrite <-(take_drop (length t) h), <-E in Hp. apply (plays_prefix a t _ _ a' Hp) in Ht. rewrite (drop_S _ _ _ Ec) in Ht. apply Ht.
Qed.

Lemma two_pages_driven :
  (s ← mmu_boot; r ← drive (scripted two_pages) 6 [] s; w ← user_write (page1 + 7) 42 r.2; k ← pagedir_get_page example_dir (page2 + 9) r.2;
   Ok (r.1, w.1, k.1)) = Ok (two_pages, true, frame2 + 9).
Proof. vm_compute. reflexivity. Qed.

(** [user_write_isolated] for a write to the first page and a byte of the second. *)
Lemma user_write_isolated_witness :
  ∃ (s1 s' : mmu palloc), user_write (page1 + 7) 42 s1 = Ok (true, s') ∧ pagedir_get_page example_dir (page2 + 9) s1 = Ok (frame2 + 9, s1) ∧
    memory (pool_of s') !! (frame2 + 9) = memory (pool_of s1) !! (frame2 + 9).
Proof.
  destruct (result_bind_inv _ _ _ two_pages_driven) as (s & Es & E). apply result_bind_inv in E as ([t s1] & E1 & E).
  apply result_bind_inv in E as ([w s'] & E2 & E). apply result_bind_inv in E as ([k s2] & E3 & E). injection E as -> -> ->. cbn [snd fst] in E2, E3.
  assert (0 ≤ page1 + 7 < PHYS_BASE) as Hva by (vm_compute; split; congruence). assert (0 ≤ page2 + 9 < PHYS_BASE) as Hu by (vm_compute; split; congruence).
  pose proof (two_pages_plays (init_page_dir s)) as Hp. pose proof (boot_empty s Es) as Hr.
  destruct (user_write_isolated _ _ _ _ s 6 _ _ _ _ _ _ Hr (scripted_legal _ _ _ Hp) E1 Hva E2) as (a1 & Ht & _ & H).
  assert (two_pages_space a1) as (Ha & sp & Hsp & _) by exact (plays_prefix _ two_pages [] _ a1 Hp Ht).
  destruct (drive_ok _ (scripted two_pages) _ _ 6 [] _ s (scripted_legal _ _ _ Hp) (spec_runs_nil _) ltac:(done) Hr) as (t' & s3 & a2 & E4 & _ & Ht2 & Hr2).
  rewrite E1 in E4. injection E4 as <- <-. pose proof Hr2 as (O & G & Hv).
  assert (two_pages_space a2) as (Ha2 & sp2 & Hsp2 & _) by exact (plays_prefix _ two_pages [] _ a2 Hp Ht2).
  rewrite (pagedir_get_page_ok _ _ _ _ _ _ _ _ _ Hv Hsp2 Hu) in E3. assert (s2 = s1) as -> by congruence.
  exists s1, s'. split; [exact E2|].
  assert (pagedir_get_page example_dir (page2 + 9) s1 = Ok (frame2 + 9, s1)) as Eg by (rewrite (pagedir_get_page_ok _ _ _ _ _ _ _ _ _ Hv Hsp2 Hu); exact E3).
  split; [exact Eg|]. apply (H example_dir (page2 + 9)); [exists sp; exact Hsp|exact Hu|rewrite Ha; vm_compute; congruence|exact Eg|vm_compute; congruence].
Defined.
