(* ===== verification/FileApi.v ===== *)
(** * Files as user programs and the loader see them

    What the functions of filesys/filesys.c and filesys/file.c promise to the
    process code: there are files under names ([vfs_named]), and open files
    ([vfs_view]) are sequences of bytes with a position.  The
    theorems on the loader, the descriptors and the system calls use only this
    interface; FileInstance shows that the file system has it. *)

From S2P Require Import Prelude.

Class Files (F : Type) := {
  vfs_create : list Z → Z → M F bool;
  vfs_remove : list Z → M F bool;
  vfs_open : list Z → M F Z;
  vfs_close : Z → M F unit;
  vfs_read : Z → Z → M F (list Z);
  vfs_write : Z → list Z → Z → M F Z;
  vfs_seek : Z → Z → M F unit;
  vfs_tell : Z → M F Z;
  vfs_length : Z → M F Z;
  vfs_deny_write : Z → M F unit;
  vfs_ok : F → Prop;
  vfs_view : F → Z → option (list Z * Z);
  vfs_named : F → list Z → list Z → Prop
}.

(** The open files stay as they are, except for [f]. *)
Definition others_kept {F} `{Files F} (f : Z) (s s' : F) : Prop := ∀ g, g ≠ f → vfs_view s' g = vfs_view s g.

Class FilesLaws (F : Type) `{Files F} := {
  vfs_view_ok (s : F) f bs ps : vfs_ok s → vfs_view s f = Some (bs, ps) → 0 < f < 2 ^ 32 ∧ 0 ≤ ps < 2 ^ 31 ∧ Z.of_nat (length bs) < 2 ^ 31;
  vfs_open_ok (s : F) name :
    vfs_ok s → 0 ∉ name → ∃ f s', vfs_open name s = Ok (f, s') ∧ vfs_ok s' ∧
      if decide (f = NULL) then ∀ g, vfs_view s' g = vfs_view s g
      else vfs_view s f = None ∧ others_kept f s s' ∧ ∃ bs, vfs_view s' f = Some (bs, 0) ∧ vfs_named s name bs;
  vfs_deny_ok (s : F) f :
    vfs_ok s → is_Some (vfs_view s f) → ∃ s', vfs_deny_write f s = Ok (tt, s') ∧ vfs_ok s' ∧ ∀ g, vfs_view s' g = vfs_view s g;
  vfs_read_ok (s : F) f bs ps sz :
    vfs_ok s → vfs_view s f = Some (bs, ps) →
    ∃ n s', vfs_read f sz s = Ok (slice bs ps n, s') ∧ vfs_ok s' ∧ 0 ≤ n ≤ 0 `max` sz ∧ 0 ≤ n ≤ 0 `max` (Z.of_nat (length bs) - ps) ∧
      others_kept f s s' ∧ vfs_view s' f = Some (bs, ps + n);
  vfs_seek_ok (s : F) f bs ps new :
    vfs_ok s → vfs_view s f = Some (bs, ps) → 0 ≤ new < 2 ^ 31 →
    ∃ s', vfs_seek f new s = Ok (tt, s') ∧ vfs_ok s' ∧ others_kept f s s' ∧ vfs_view s' f = Some (bs, new);
  vfs_seek_negative (s : F) f new : is_Some (vfs_view s f) → vfs_ok s → new < 0 → vfs_seek f new s = Err AssertFailed;
  vfs_length_ok (s : F) f bs ps : vfs_ok s → vfs_view s f = Some (bs, ps) → vfs_length f s = Ok (Z.of_nat (length bs), s);
  vfs_tell_ok (s : F) f bs ps : vfs_ok s → vfs_view s f = Some (bs, ps) → vfs_tell f s = Ok (ps, s);
  vfs_write_ok (s : F) f bs ps buffer sz :
    vfs_ok s → vfs_view s f = Some (bs, ps) → sz ≤ Z.of_nat (length buffer) →
    ∃ n s', vfs_write f buffer sz s = Ok (n, s') ∧ vfs_ok s' ∧ 0 ≤ n ≤ 0 `max` sz ∧
      vfs_view s' f = Some (splice bs ps (take (Z.to_nat n) buffer), ps + n) ∧
      ∀ g, g ≠ f → snd <$> vfs_view s' g = snd <$> vfs_view s g;
  vfs_create_ok (s : F) name len :
    vfs_ok s → 0 ∉ name → 0 ≤ len < 2 ^ 31 →
    ∃ ok s', vfs_create name len s = Ok (ok, s') ∧ vfs_ok s' ∧ ∀ g, vfs_view s' g = vfs_view s g;
  vfs_remove_ok (s : F) name :
    vfs_ok s → 0 ∉ name → ∃ ok s', vfs_remove name s = Ok (ok, s') ∧ vfs_ok s' ∧ ∀ g, vfs_view s' g = vfs_view s g;
  vfs_close_ok (s : F) f :
    vfs_ok s → is_Some (vfs_view s f) → ∃ s', vfs_close f s = Ok (tt, s') ∧ vfs_ok s' ∧ others_kept f s s' ∧ vfs_view s' f = None;
  vfs_close_null (s : F) : vfs_close NULL s = Ok (tt, s)
}.
