(* ===== verification/Process.v ===== *)
(** * Processes: the loader

    userprog/process.c from [load] on: the ELF loader, which reads the program
    headers of an executable, maps its segments and the stack into a new page
    directory and puts the arguments on the stack; and what a process consists
    of.  Messages on the console are left out. *)

From S2P Require Import Prelude Vaddr CString Bitmap Palloc PageDir FileApi.

Section process.
  Context {S : Type} {PA : PageAllocator S} {F : Type} {FI : Files F}.

(** The machine, the file system, the fields of [struct thread] of the running
    process, the registers of its interrupt frame, the field [esp0] of the task
    state segment, the keys that are pressed from now on and the text on the
    console. *)
Record proc := Proc {
  mach : mmu S; disk : F;
  current : Z; pagedir : Z; process_executable : Z; file_descriptor_page : Z;
  eip : Z; esp : Z; eax : Z; esp0 : Z; keys : nat → Z; console : list Z
}.

Definition set_mach (m : mmu S) (s : proc) : proc :=
  Proc m (disk s) (current s) (pagedir s) (process_executable s) (file_descriptor_page s) (eip s) (esp s) (eax s) (esp0 s) (keys s) (console s).
Definition set_disk (d : F) (s : proc) : proc :=
  Proc (mach s) d (current s) (pagedir s) (process_executable s) (file_descriptor_page s) (eip s) (esp s) (eax s) (esp0 s) (keys s) (console s).
Definition set_pagedir (v : Z) (s : proc) : proc :=
  Proc (mach s) (disk s) (current s) v (process_executable s) (file_descriptor_page s) (eip s) (esp s) (eax s) (esp0 s) (keys s) (console s).
Definition set_process_executable (v : Z) (s : proc) : proc :=
  Proc (mach s) (disk s) (current s) (pagedir s) v (file_descriptor_page s) (eip s) (esp s) (eax s) (esp0 s) (keys s) (console s).
Definition set_file_descriptor_page (v : Z) (s : proc) : proc :=
  Proc (mach s) (disk s) (current s) (pagedir s) (process_executable s) v (eip s) (esp s) (eax s) (esp0 s) (keys s) (console s).
Definition set_eip (v : Z) (s : proc) : proc :=
  Proc (mach s) (disk s) (current s) (pagedir s) (process_executable s) (file_descriptor_page s) v (esp s) (eax s) (esp0 s) (keys s) (console s).
Definition set_esp (v : Z) (s : proc) : proc :=
  Proc (mach s) (disk s) (current s) (pagedir s) (process_executable s) (file_descriptor_page s) (eip s) v (eax s) (esp0 s) (keys s) (console s).
Definition set_eax (v : Z) (s : proc) : proc :=
  Proc (mach s) (disk s) (current s) (pagedir s) (process_executable s) (file_descriptor_page s) (eip s) (esp s) v (esp0 s) (keys s) (console s).
Definition set_esp0 (v : Z) (s : proc) : proc :=
  Proc (mach s) (disk s) (current s) (pagedir s) (process_executable s) (file_descriptor_page s) (eip s) (esp s) (eax s) v (keys s) (console s).
Definition set_keys (v : nat → Z) (s : proc) : proc :=
  Proc (mach s) (disk s) (current s) (pagedir s) (process_executable s) (file_descriptor_page s) (eip s) (esp s) (eax s) (esp0 s) v (console s).
Definition set_console (v : list Z) (s : proc) : proc :=
  Proc (mach s) (disk s) (current s) (pagedir s) (process_executable s) (file_descriptor_page s) (eip s) (esp s) (eax s) (esp0 s) (keys s) v.

Definition on_mach {A} (m : M (mmu S) A) : M proc A := zoom mach set_mach m.
Definition on_mem {A} (m : M mem A) : M proc A := on_mach (on_memory m).
Definition on_files {A} (m : M F A) : M proc A := zoom disk set_disk m.

(** [bs] is stored at [a]; [n] bytes from [a] on. *)
Fixpoint write_bytes (a : Z) (bs : list Z) : M mem unit :=
  match bs with [] => mret tt | b :: bs => wr8 a b;; write_bytes (a + 1) bs end.
Fixpoint read_bytes (a : Z) (n : nat) : M mem (list Z) :=
  match n with O => mret [] | Datatypes.S n => b ← rd8 a; bs ← read_bytes (a + 1) n; mret (b :: bs) end.

(** [strlcpy] into a local array of [size] bytes. *)
Definition strlcpy_local (src size : Z) : M mem (list Z) :=
  n ← strlen src; read_bytes src (Z.to_nat (n `min` (size - 1))).

(** [file_read] into memory. *)
Definition read_file (file buffer size : Z) : M proc Z :=
  bs ← on_files (vfs_read file size); on_mem (write_bytes buffer bs);; mret (Z.of_nat (length bs)).

(** ** userprog/tss.c, userprog/process.c: the active address space *)

(** [tss] is not null: [tss_init] gets its page with [PAL_ASSERT] when the kernel
    boots, and nothing sets it again, so the assertion holds. *)
Definition tss_update : M proc unit := modify (λ s, set_esp0 (u32 (current s + PGSIZE)) s).

Definition process_activate : M proc unit :=
  pd ← gets pagedir; on_mach (pagedir_activate pd);; tss_update.

(** ** userprog/descriptor.c: the executable *)

Definition open_process_executable (file_name : list Z) : M proc Z :=
  program ← on_files (vfs_open file_name);
  (if decide (program ≠ NULL) then on_files (vfs_deny_write program) else mret tt);;
  mret program.

(** ** ELF headers *)

Definition Elf32_Word (bs : list Z) (ofs : Z) : Z := u32 (le_value (slice bs ofs 4)).
Definition Elf32_Half (bs : list Z) (ofs : Z) : Z := u16 (le_value (slice bs ofs 2)).

Record Elf32_Ehdr := Ehdr {
  e_ident : list Z; e_type : Z; e_machine : Z; e_version : Z; e_entry : Z; e_phoff : Z; e_shoff : Z; e_flags : Z;
  e_ehsize : Z; e_phentsize : Z; e_phnum : Z; e_shentsize : Z; e_shnum : Z; e_shstrndx : Z
}.
Definition ehdr_size : Z := 52.
Definition ehdr_of (bs : list Z) : Elf32_Ehdr :=
  Ehdr (slice bs 0 16) (Elf32_Half bs 16) (Elf32_Half bs 18) (Elf32_Word bs 20) (Elf32_Word bs 24) (Elf32_Word bs 28)
    (Elf32_Word bs 32) (Elf32_Word bs 36) (Elf32_Half bs 40) (Elf32_Half bs 42) (Elf32_Half bs 44) (Elf32_Half bs 46)
    (Elf32_Half bs 48) (Elf32_Half bs 50).

Record Elf32_Phdr := Phdr {
  p_type : Z; p_offset : Z; p_vaddr : Z; p_paddr : Z; p_filesz : Z; p_memsz : Z; p_flags : Z; p_align : Z
}.
Definition phdr_size : Z := 32.
Definition phdr_of (bs : list Z) : Elf32_Phdr :=
  Phdr (Elf32_Word bs 0) (Elf32_Word bs 4) (Elf32_Word bs 8) (Elf32_Word bs 12) (Elf32_Word bs 16) (Elf32_Word bs 20)
    (Elf32_Word bs 24) (Elf32_Word bs 28).

Definition PT_LOAD : Z := 1.
Definition PT_DYNAMIC : Z := 2.
Definition PT_INTERP : Z := 3.
Definition PT_SHLIB : Z := 5.
Definition PF_W : Z := 2.
Definition PROGRAM_NAME_MAX_LENGTH : Z := 64.

(** ** userprog/process.c: segments *)

Definition install_page (upage kpage : Z) (writable : bool) : M proc bool :=
  pd ← gets pagedir;
  k ← on_mach (pagedir_get_page pd upage);
  if decide (k = NULL) then on_mach (pagedir_set_page pd upage kpage writable) else mret false.

Definition setup_stack : M proc bool :=
  kpage ← on_mach (get_page (Z.lor PAL_USER PAL_ZERO));
  if decide (kpage ≠ NULL) then
    success ← install_page (PHYS_BASE - PGSIZE) kpage true;
    (if (success : bool) then modify (set_esp (PHYS_BASE - 20)) else on_mach (free_page kpage));;
    mret success
  else mret false.

(** The loop of [load_segment]: one page per round. *)
Fixpoint load_segment_loop (fuel : nat) (file upage read_bytes zero_bytes : Z) (writable : bool) : M proc bool :=
  match fuel with
  | O => fail OutOfFuel
  | Datatypes.S fuel =>
      if decide (read_bytes > 0 ∨ zero_bytes > 0) then
        let page_read_bytes := if decide (read_bytes < PGSIZE) then read_bytes else PGSIZE in
        let page_zero_bytes := PGSIZE - page_read_bytes in
        kpage ← on_mach (get_page PAL_USER);
        if decide (kpage = NULL) then mret false else
        n ← read_file file kpage page_read_bytes;
        if decide (n ≠ page_read_bytes) then on_mach (free_page kpage);; mret false else
        on_mem (memset (kpage + page_read_bytes) 0 page_zero_bytes);;
        ok ← install_page upage kpage writable;
        if (ok : bool) then
          load_segment_loop fuel file (u32 (upage + PGSIZE)) (u32 (read_bytes - page_read_bytes)) (u32 (zero_bytes - page_zero_bytes)) writable
        else on_mach (free_page kpage);; mret false
      else mret true
  end.

(** The number of pages, and one, is enough fuel. *)
Definition load_segment (file ofs upage read_bytes zero_bytes : Z) (writable : bool) : M proc bool :=
  assert (bool_decide (u32 (read_bytes + zero_bytes) mod PGSIZE = 0));;
  assert (bool_decide (pg_ofs upage = 0));;
  assert (bool_decide (Z.rem ofs PGSIZE = 0));;
  on_files (vfs_seek file ofs);;
  load_segment_loop (Datatypes.S (Z.to_nat ((read_bytes + zero_bytes) / PGSIZE))) file upage read_bytes zero_bytes writable.

Definition validate_segment (phdr : Elf32_Phdr) (file : Z) : M proc bool :=
  if decide (Z.land (p_offset phdr) PGMASK ≠ Z.land (p_vaddr phdr) PGMASK) then mret false else
  len ← on_files (vfs_length file);
  if decide (p_offset phdr > u32 len) then mret false else
  if decide (p_memsz phdr < p_filesz phdr) then mret false else
  if decide (p_memsz phdr = 0) then mret false else
  if negb (is_user_vaddr (p_vaddr phdr)) then mret false else
  if negb (is_user_vaddr (u32 (p_vaddr phdr + p_memsz phdr))) then mret false else
  if decide (u32 (p_vaddr phdr + p_memsz phdr) < p_vaddr phdr) then mret false else
  if decide (p_vaddr phdr < PGSIZE) then mret false else
  mret true.

(** The case of a loadable segment. *)
Definition load_phdr (phdr : Elf32_Phdr) (file : Z) : M proc bool :=
  valid ← validate_segment phdr file;
  if (valid : bool) then
    let writable := bool_decide (Z.land (p_flags phdr) PF_W ≠ 0) in
    let file_page := Z.land (p_offset phdr) (not32 PGMASK) in
    let mem_page := Z.land (p_vaddr phdr) (not32 PGMASK) in
    let page_offset := Z.land (p_vaddr phdr) PGMASK in
    let end_bytes := u32 (ROUND_UP (u32 (page_offset + p_memsz phdr)) PGSIZE) in
    let '(read_bytes, zero_bytes) :=
      if decide (p_filesz phdr > 0) then
        let read_bytes := u32 (page_offset + p_filesz phdr) in (read_bytes, u32 (end_bytes - read_bytes))
      else (0, end_bytes) in
    load_segment file (i32 file_page) mem_page read_bytes zero_bytes writable
  else mret false.

(** The loop over the [n] program headers that are left. *)
Fixpoint load_phdrs (n : nat) (file file_ofs : Z) : M proc bool :=
  match n with
  | O => mret true
  | Datatypes.S n =>
      if decide (file_ofs < 0) then mret false else
      len ← on_files (vfs_length file);
      if decide (file_ofs > len) then mret false else
      on_files (vfs_seek file file_ofs);;
      bs ← on_files (vfs_read file phdr_size);
      if decide (Z.of_nat (length bs) ≠ phdr_size) then mret false else
      let phdr := phdr_of bs in
      let file_ofs := i32 (file_ofs + phdr_size) in
      if decide (p_type phdr = PT_DYNAMIC ∨ p_type phdr = PT_INTERP ∨ p_type phdr = PT_SHLIB) then mret false else
      ok ← (if decide (p_type phdr = PT_LOAD) then load_phdr phdr file else mret true);
      if (ok : bool) then load_phdrs n file file_ofs else mret false
  end.

(** ** userprog/process.c: arguments *)

(** The addresses of the string literals [" "] and [" \t"]. *)
Context (space delimiters : Z).

(** The loop that stores the pointers to the tokens from [index] on. *)
Fixpoint push_tokens (fuel : nat) (stack_pointer save argc esp0 index : Z) : M proc unit :=
  match fuel with
  | O => fail OutOfFuel
  | Datatypes.S fuel =>
      '(token_pointer, save) ← on_mem (strtok_r NULL delimiters save);
      if decide (token_pointer ≠ NULL ∧ index <= argc) then
        p ← on_mach (ktou token_pointer esp0);
        on_mach (wr32 (stack_pointer + 4 * index) p);;
        push_tokens fuel stack_pointer save argc esp0 (index + 1)
      else mret tt
  end.

(** The loop that makes room for the arguments of main. *)
Fixpoint align_loop (fuel : nat) (alignment_offset : Z) : Z :=
  match fuel with
  | O => alignment_offset
  | Datatypes.S fuel => if decide (alignment_offset + 4 < 12) then align_loop fuel (alignment_offset + 16) else alignment_offset
  end.

Definition load_arguments (argument : Z) : M proc bool :=
  if decide (argument = NULL) then mret true else
  e ← gets esp;
  pd ← gets pagedir;
  stack_pointer ← on_mach (utok pd e);
  n ← on_mem (strnlen argument 1024);
  let argument_length := u32 (1 + n) in
  if decide (argument_length >= 1024) then mret false else
  let stack_pointer := u32 (stack_pointer - argument_length) in
  on_mem (strlcpy stack_pointer argument argument_length);;
  let user_argument := stack_pointer in
  let stack_pointer := u32 (stack_pointer - stack_pointer mod 4) in
  argc ← on_mem (strtok_c user_argument delimiters);
  let argc := i32 argc in
  let stack_pointer := u32 (stack_pointer - 4 * argc - 4) in
  '(token_pointer, save) ← on_mem (strtok_r user_argument delimiters 0);
  p ← on_mach (ktou token_pointer e);
  on_mach (wr32 stack_pointer p);;
  push_tokens (Datatypes.S (Datatypes.S (Z.to_nat argc))) stack_pointer save argc e 1;;
  on_mach (wr32 (stack_pointer + 4 * argc) NULL);;
  argv ← on_mach (ktou stack_pointer e);
  let alignment_offset := align_loop 2 (stack_pointer mod 16) in
  let stack_pointer := u32 (stack_pointer - (alignment_offset + 4)) in
  on_mach (wr32 (stack_pointer + 8) argv);;
  on_mach (wr32 (stack_pointer + 4) argc);;
  on_mach (wr32 stack_pointer NULL);;
  k ← on_mach (utok pd e);
  let difference := u32 (k - stack_pointer) in
  modify (set_esp (u32 (e - difference)));;
  mret true.

(** ** userprog/process.c: load *)

Definition bad_header (ehdr : Elf32_Ehdr) : bool :=
  bool_decide (take 7 (e_ident ehdr) ≠ [127; 69; 76; 70; 1; 1; 1] ∨ e_type ehdr ≠ 2 ∨ e_machine ehdr ≠ 3 ∨ e_version ehdr ≠ 1 ∨
    e_phentsize ehdr ≠ phdr_size ∨ e_phnum ehdr > 1024).

Definition load (file_name : Z) : M proc bool :=
  pd ← on_mach pagedir_create;
  modify (set_pagedir pd);;
  if decide (pd = NULL) then mret false else
  process_activate;;
  n ← on_mem (strcspn file_name space);
  let program_name_length := i32 n in
  if decide (program_name_length >= PROGRAM_NAME_MAX_LENGTH) then mret false else
  program_name ← on_mem (strlcpy_local file_name (program_name_length + 1));
  file ← open_process_executable program_name;
  if decide (file = NULL) then mret false else
  modify (set_process_executable file);;
  bs ← on_files (vfs_read file ehdr_size);
  let ehdr := ehdr_of bs in
  if decide (Z.of_nat (length bs) ≠ ehdr_size) then mret false else
  if bad_header ehdr then mret false else
  ok ← load_phdrs (Z.to_nat (e_phnum ehdr)) file (i32 (e_phoff ehdr));
  if negb ok then mret false else
  ok ← setup_stack;
  if negb ok then mret false else
  ok ← load_arguments file_name;
  if negb ok then mret false else
  modify (set_eip (e_entry ehdr));;
  mret true.

End process.
Arguments proc : clear implicits.
