(* ===== verification/ProcessSpec.v ===== *)
(** * What the loader promises

    The image of an executable, as a function of its bytes: the pages that are
    mapped, whether they are writable, and what they hold; and the stack that a
    program starts with. *)

From S2P Require Import Prelude Vaddr CString PageDir PageDirSpec Process.

(** ** Images *)

(** The pages by their numbers; each is writable or not and has its bytes. *)
Abbreviation layout := (gmap Z (bool * list Z)).

Definition image_byte (L : layout) (va : Z) : option Z :=
  '(_, bs) ← L !! (va / PGSIZE); bs !! Z.to_nat (va mod PGSIZE).
Definition image_writable (L : layout) (va : Z) : bool :=
  match L !! (va / PGSIZE) with Some (w, _) => w | None => false end.

(** A segment that can be loaded from a file of [len] bytes. *)
Definition segment_ok (ph : Elf32_Phdr) (len : Z) : Prop :=
  p_offset ph mod PGSIZE = p_vaddr ph mod PGSIZE ∧ p_offset ph ≤ len ∧ 0 < p_memsz ph ∧ p_filesz ph ≤ p_memsz ph ∧
  PGSIZE ≤ p_vaddr ph ∧ p_vaddr ph + p_memsz ph < PHYS_BASE ∧ (0 < p_filesz ph → p_offset ph + p_filesz ph ≤ len).
#[export] Instance segment_ok_dec ph len : Decision (segment_ok ph len).
Proof. unfold segment_ok. apply _. Defined.

(** What it holds at an address: the bytes of the file, from the start of the
    first page on, then zeros. *)
Definition segment_byte (bs : list Z) (ph : Elf32_Phdr) (va : Z) : Z :=
  if decide (0 < p_filesz ph ∧ va < p_vaddr ph + p_filesz ph) then default 0 (bs !! Z.to_nat (p_offset ph + (va - p_vaddr ph))) else 0.
Definition segment_page (bs : list Z) (ph : Elf32_Phdr) (n : Z) : bool * list Z :=
  (bool_decide (Z.land (p_flags ph) PF_W ≠ 0), (λ j, segment_byte bs ph (n * PGSIZE + j)) <$> seqZ 0 PGSIZE).
Definition first_page (ph : Elf32_Phdr) : Z := p_vaddr ph / PGSIZE.
Definition page_count (ph : Elf32_Phdr) : Z := (p_vaddr ph mod PGSIZE + p_memsz ph + PGSIZE - 1) / PGSIZE.

(** Pages are added; none may be there already. *)
Fixpoint add_pages (f : Z → bool * list Z) (ns : list Z) (L : layout) : option layout :=
  match ns with
  | [] => Some L
  | n :: ns => if decide (L !! n = None) then add_pages f ns (<[n := f n]> L) else None
  end.

(** The program headers from [ofs] on. *)
Fixpoint image_phdrs (k : nat) (bs : list Z) (ofs : Z) (L : layout) : option layout :=
  match k with
  | O => Some L
  | S k =>
      if decide (ofs + phdr_size ≤ Z.of_nat (length bs)) then
        let ph := phdr_of (slice bs ofs phdr_size) in
        if decide (p_type ph = PT_DYNAMIC ∨ p_type ph = PT_INTERP ∨ p_type ph = PT_SHLIB) then None
        else if decide (p_type ph = PT_LOAD) then
          if decide (segment_ok ph (Z.of_nat (length bs))) then
            L ← add_pages (segment_page bs ph) (seqZ (first_page ph) (page_count ph)) L;
            image_phdrs k bs (ofs + phdr_size) L
          else None
        else image_phdrs k bs (ofs + phdr_size) L
      else None
  end.

(** The segments of an executable and its entry point; [None] when the file is
    not one that the loader accepts. *)
Definition elf_image (bs : list Z) : option (layout * Z) :=
  let ehdr := ehdr_of bs in
  if decide (ehdr_size ≤ Z.of_nat (length bs)) then
    if bad_header ehdr then None
    else L ← image_phdrs (Z.to_nat (e_phnum ehdr)) bs (e_phoff ehdr) ∅; Some (L, e_entry ehdr)
  else None.

(** ** The stack *)

Definition stack_page : Z := PHYS_BASE / PGSIZE - 1.

(** A word and a string of the image at a user address. *)
Definition image_word (L : layout) (va : Z) : option Z :=
  b0 ← image_byte L va; b1 ← image_byte L (va + 1); b2 ← image_byte L (va + 2); b3 ← image_byte L (va + 3);
  Some (le_value [b0; b1; b2; b3]).
Definition image_string (L : layout) (va : Z) (str : list Z) : Prop :=
  ∀ i b, (str ++ [0]) !! i = Some b → image_byte L (va + Z.of_nat i) = Some b.

(** The words at the stack pointer: a null return address, [argc], [argv], which
    is an array of pointers to the arguments with a null pointer at its end. *)
Record start_stack (L : layout) (sp : Z) (args : list (list Z)) : Prop := {
  ss_align : sp mod 16 = 12;
  ss_page : sp / PGSIZE = stack_page;
  ss_return : image_word L sp = Some 0;
  ss_argc : image_word L (sp + 4) = Some (Z.of_nat (length args));
  ss_argv : ∃ argv, image_word L (sp + 8) = Some argv ∧ image_word L (argv + 4 * Z.of_nat (length args)) = Some 0 ∧
    ∀ i arg, args !! i = Some arg → ∃ p, image_word L (argv + 4 * Z.of_nat i) = Some p ∧ image_string L p arg
}.
