(* ===== verification/ProcessImage.v ===== *)
(** * Address spaces that hold an image

    How the calls of the loader on the page directory change what an address
    space holds. *)

From S2P Require Import Prelude Vaddr CString Bitmap Palloc PageDir PageDirSpec PageDirInv PageDirTheorems FileApi Process ProcessSpec.

(** An entry for a page that is writable ([w]) or not and has the bytes [bs]. *)
Record page_is (a : vm) (w : bool) (bs : list Z) (e : Z) : Prop := {
  pi_user : Z.land e PTE_U ≠ 0;
  pi_write : Z.land e PTE_W ≠ 0 ↔ w = true;
  pi_length : Z.of_nat (length bs) = PGSIZE;
  pi_bytes : bytes_at (bytes a) (frame e) bs
}.

(** The directory [pd] maps exactly the pages of [L]. *)
Definition holds (a : vm) (pd : Z) (L : layout) : Prop :=
  ∃ sp, spaces a !! pd = Some sp ∧ ∀ n, 0 ≤ n * PGSIZE < PHYS_BASE →
    match L !! n with
    | None => mapping sp (n * PGSIZE) = None
    | Some (w, bs) => ∃ e, mapping sp (n * PGSIZE) = Some e ∧ page_is a w bs e
    end.

(** The other directories stay, and hold what they held. *)
Definition kept (pd : Z) (a a' : vm) : Prop := ∀ d, d ≠ pd → spaces a' !! d = spaces a !! d ∧ ∀ L, holds a d L → holds a' d L.

Lemma kept_refl pd a : kept pd a a.
Proof. by intros d. Qed.
Lemma kept_trans pd a1 a2 a3 : kept pd a1 a2 → kept pd a2 a3 → kept pd a1 a3.
Proof. intros H1 H2 d Hd. destruct (H1 d Hd) as [S1 T1], (H2 d Hd) as [S2 T2]. split; [congruence|]. intros L Hh. by apply T2, T1. Qed.
Lemma kept_all pd a a' : spaces a' = spaces a → (∀ d L, holds a d L → holds a' d L) → kept pd a a'.
Proof. intros Hs Hh d _. split; [by rewrite Hs|]. intros L. apply Hh. Qed.

Lemma page_is_ext a a' w bs e :
  page_is a w bs e → (∀ x, frame e ≤ x < frame e + PGSIZE → bytes a' !! x = bytes a !! x) → page_is a' w bs e.
Proof.
  intros [H1 H2 H3 H4] Hx. split; try done. intros i b Hi. rewrite Hx; [by apply H4|]. apply lookup_lt_Some in Hi. lia.
Qed.

Lemma holds_ext a a' d L :
  holds a d L → spaces a' !! d = spaces a !! d →
  (∀ sp u e x, spaces a !! d = Some sp → mapping sp u = Some e → frame e ≤ x < frame e + PGSIZE → bytes a' !! x = bytes a !! x) →
  holds a' d L.
Proof.
  intros (sp & Hsp & Hh) Hs Hb. exists sp. split; [congruence|]. intros n Hn. specialize (Hh n Hn). destruct (L !! n) as [[w bs]|]; [|done].
  destruct Hh as (e & He & Hp). exists e. split; [done|]. apply (page_is_ext a); [done|]. intros x. by apply (Hb sp (n * PGSIZE)).
Qed.

Lemma page_number n : 0 ≤ n * PGSIZE < PHYS_BASE → pg_no (n * PGSIZE) = n ∧ pg_ofs (n * PGSIZE) = 0 ∧ user_page (n * PGSIZE).
Proof.
  intros Hn. assert ((n * PGSIZE) mod PGSIZE = 0) as Hm by by rewrite Z.mod_mul. split; [|split; [by rewrite pg_ofs_eq|done]].
  rewrite pg_no_eq. rewrite PGSIZE_eq. by rewrite Z.div_mul.
Qed.

Lemma mapping_with n e sp u :
  (∀ m x, entries sp !! m = Some x → m / 1024 ∈ tables sp) →
  mapping (with_entry n e sp) u = if decide (pg_no u = n) then (if decide (present e) then Some e else None) else mapping sp u.
Proof.
  intros Ht. unfold mapping, entry, with_entry. cbn [entries tables]. destruct (decide (pg_no u = n)) as [<-|Hne].
  - rewrite decide_True by (clear; set_solver). cbn. by rewrite lookup_insert_eq.
  - rewrite lookup_insert_ne by congruence. destruct (decide (pg_no u / 1024 ∈ tables sp)) as [Hin|Hin].
    + rewrite decide_True by (clear -Hin; set_solver). done.
    + destruct (decide (pg_no u / 1024 ∈ _ ∪ tables sp)); [|done]. cbn. destruct (entries sp !! pg_no u) as [x|] eqn:Ex; [by apply Ht in Ex|].
      by rewrite decide_False by (intros H; by apply H).
Qed.

Section image.
  Context {S : Type} {PA : PageAllocator S} {PL : PageAllocatorLaws S} {PP : PagePool S}.
  Context (ke : kenv).
  Implicit Types (s : mmu S) (a : vm) (P : gset Z).

(** Pages of the client. *)
Lemma rep_loose P a s k :
  represents ke P a s → k ∈ loose a →
  kpage_ok k ∧ mapped (memory (pool_of s)) k PGSIZE ∧ k ≠ NULL ∧ ∀ x, k ≤ x < k + PGSIZE → memory (pool_of s) !! x = bytes a !! x.
Proof.
  intros (O & G & Hv) Hk. assert (O !! k = Some Loose) as Ho by by apply (ow_loose _ _ _ (vr_owns _ _ _ _ _ _ Hv)).
  destruct (owned_page _ _ _ _ _ _ k Hv ltac:(by eexists)) as (H1 & H2 & H3). split_and!; try done.
  intros x Hx. by apply (im_bytes _ _ _ _ (vr_mem _ _ _ _ _ _ Hv) k Loose).
Qed.

Lemma rep_frame P a s d sp u e :
  represents ke P a s → spaces a !! d = Some sp → mapping sp u = Some e →
  kpage_ok (frame e) ∧ mapped (memory (pool_of s)) (frame e) PGSIZE ∧ frame e ∉ loose a ∧
  ∀ x, frame e ≤ x < frame e + PGSIZE → memory (pool_of s) !! x = bytes a !! x.
Proof.
  intros Hr Hsp Hm. assert (∀ x, frame e ≤ x < frame e + PGSIZE → memory (pool_of s) !! x = bytes a !! x) as Hb by (intros x; by apply (mapped_bytes _ _ _ _ _ _ _ _ x Hr Hsp Hm)). destruct Hr as (O & G & Hv). apply mapping_entry in Hm as [Ee Hp].
  pose proof (vr_owns _ _ _ _ _ _ Hv) as Ho. pose proof (frame_owned O G a d sp _ e Ho Hsp Ee Hp) as Hf.
  destruct (owned_page _ _ _ _ _ _ (frame e) Hv ltac:(by eexists)) as (H1 & H2 & H3). split_and!; try done.
  rewrite <-(ow_loose _ _ _ Ho). congruence.
Qed.

(** A change of page [k], which holds none of the image. *)
Lemma holds_page P a s d L k b :
  represents ke P a s → holds a d L → k mod PGSIZE = 0 →
  (∀ sp u e, spaces a !! d = Some sp → mapping sp u = Some e → frame e ≠ k) →
  (∀ x, ¬ (k ≤ x < k + PGSIZE) → b !! x = bytes a !! x) → holds (set_bytes b a) d L.
Proof.
  intros Hr Hh Hk Hf Hb. apply (holds_ext a); [done..|]. intros sp u e x Hsp Hm Hx. apply Hb.
  destruct (rep_frame _ _ _ _ _ _ _ Hr Hsp Hm) as ((_ & _ & Hfa) & _). apply (pages_apart (frame e) k); [done|done|by apply (Hf sp u)|done].
Qed.

Lemma holds_loose a l d L : holds a d L → holds (set_loose l a) d L.
Proof. intros Hh. by apply (holds_ext a). Qed.
Lemma kept_loose pd l a a' : kept pd a a' → kept pd (set_loose l a) a'.
Proof. intros Hk d Hd. destruct (Hk d Hd) as [H1 H2]. split; [done|]. intros L Hh. apply H2. by apply (holds_ext (set_loose l a)). Qed.
Lemma kept_loose' pd l a a' : kept pd a a' → kept pd a (set_loose l a').
Proof. intros Hk d Hd. destruct (Hk d Hd) as [H1 H2]. split; [done|]. intros L Hh. by apply holds_loose, H2. Qed.

(** A page from the allocator. *)
Lemma img_get P a s flags :
  represents ke P a s → Z.land flags PAL_ASSERT = 0 →
  ∃ k s', get_page flags s = Ok (k, s') ∧
    (k = NULL ∧ represents ke P a s' ∨
     ∃ a', k ≠ NULL ∧ k ∉ loose a ∧ represents ke P a' s' ∧ loose a' = {[k]} ∪ loose a ∧ active a' = active a ∧
       spaces a' = spaces a ∧ (∀ d L, holds a d L → holds a' d L) ∧ (Z.land flags PAL_ZERO ≠ 0 → ∀ x, k ≤ x < k + PGSIZE → bytes a' !! x = Some 0)).
Proof.
  intros Hr Hf. destruct (vm_get _ _ _ _ flags Hr Hf) as (k & s' & a' & E & Hr' & Hs). exists k, s'. split; [done|].
  inversion Hs as [|? ? b Hn Hun Hb Hz| | | | | | | | | | | | | | | | | | | | |]; subst; [by left|right].
  exists (set_bytes b (set_loose ({[k]} ∪ loose a) a)). destruct Hun as [Hl Hun]. split_and!; try done.
  intros d L Hh. destruct (rep_loose _ _ _ k Hr') as ((_ & _ & Hk) & _); [cbn; clear; set_solver|].
  change (holds (set_loose ({[k]} ∪ loose a) (set_bytes b a)) d L). apply holds_loose. apply (holds_page P a s d L k); try done.
  intros sp u e Hsp [He Hp]%mapping_entry. unfold entry in He. case_decide; [|done]. injection He as He.
  destruct (entries sp !! pg_no u) as [x|] eqn:Ex; cbn in He; subst; [by apply (Hun d sp (pg_no u))|by destruct Hp].
Qed.

(** The contents of a loose page change. *)
Lemma img_fill P a s k m :
  represents ke P a s → k ∈ loose a → dom m = dom (memory (pool_of s)) →
  (∀ x, ¬ (k ≤ x < k + PGSIZE) → m !! x = memory (pool_of s) !! x) →
  ∃ a', represents ke P a' (set_pool (set_memory m (pool_of s)) s) ∧ loose a' = loose a ∧ active a' = active a ∧ spaces a' = spaces a ∧ (∀ d L, holds a d L → holds a' d L) ∧
    ∀ x, k ≤ x < k + PGSIZE → bytes a' !! x = m !! x.
Proof.
  intros Hr Hk Hd Hout. destruct (rep_loose _ _ _ k Hr Hk) as ((_ & _ & Hka) & _). exists (set_bytes (page_from k m (bytes a)) a). split_and!; try done.
  - pose proof Hr as (O & G & Hv). exists O, G. apply (vrel_page _ _ _ _ _ _ k Loose); try done. by apply (ow_loose _ _ _ (vr_owns _ _ _ _ _ _ Hv)).
  - intros d L Hh. apply (holds_page P a s d L k); try done.
    + intros sp u e Hsp Hm Hfk. destruct (rep_frame _ _ _ _ _ _ _ Hr Hsp Hm) as (_ & _ & Hn & _). by rewrite Hfk in Hn.
    + intros x Hx. by apply page_from_out.
  - intros x Hx. by apply page_from_in.
Qed.

Lemma rep_tables P a s d sp : represents ke P a s → spaces a !! d = Some sp → ∀ m x, entries sp !! m = Some x → m / 1024 ∈ tables sp.
Proof. intros (O & G & Hv) Hsp m x Hx. by apply (ow_entry _ _ _ (vr_owns _ _ _ _ _ _ Hv) d sp m x Hsp Hx). Qed.

Lemma new_entry_writable k w : kpage_ok k → Z.land (new_entry k w) PTE_W ≠ 0 ↔ w = true.
Proof.
  intros Hk. destruct (kpage_paddr k Hk) as (_ & Ha & _). unfold new_entry. rewrite lor_keep by done. destruct w; split; try done.
  - intros _. by apply lor_has.
  - intros H. destruct H. rewrite Z.lor_0_r, lor_keep by done. rewrite <-Ha, <-Z.land_assoc. by rewrite Z.land_0_r.
Qed.

(** A loose page is mapped. *)
Lemma img_set P a s pd L n k w bs :
  represents ke P a s → holds a pd L → k ∈ loose a → Z.of_nat (length bs) = PGSIZE → bytes_at (bytes a) k bs →
  0 ≤ n * PGSIZE < PHYS_BASE → L !! n = None →
  ∃ b s', pagedir_set_page pd (n * PGSIZE) k w s = Ok (b, s') ∧
    if (b : bool) then ∃ a', represents ke P a' s' ∧ loose a' = loose a ∖ {[k]} ∧ active a' = active a ∧ holds a' pd (<[n := (w, bs)]> L) ∧ kept pd a a'
    else represents ke P a s'.
Proof.
  intros Hr (sp & Hsp & Hh) Hk Hlen Hbs Hn HL. destruct (page_number n Hn) as (Hpn & _ & Hup). pose proof (Hh n Hn) as Hmn. rewrite HL in Hmn.
  destruct (vm_set _ _ _ _ pd sp (n * PGSIZE) k w Hr Hsp Hup Hk Hmn) as (b & s' & a' & E & Hr' & Hs). exists b, s'. split; [done|].
  destruct (rep_loose _ _ _ k Hr Hk) as (Hkp & _). destruct (new_pte_ok k w Hkp) as (_ & Hpr & Hfr).
  inversion Hs as [| | | | | | |? sp' ? ? ? Hsp'| | | | | | | | | | | | | | |]; subst; [|done]. assert (sp' = sp) as -> by congruence.
  rewrite Hpn in Hr'. eexists. split; [exact Hr'|]. split_and!; try done.
  - exists (with_entry n (new_entry k w) sp). split; [cbn; by rewrite lookup_insert_eq|]. intros q Hq. destruct (page_number q Hq) as (Hqn & _).
    rewrite mapping_with, Hqn by exact (rep_tables _ _ _ _ _ Hr Hsp). destruct (decide (q = n)) as [->|Hne].
    + rewrite lookup_insert_eq, decide_True by done. exists (new_entry k w). split; [done|]. split; try done.
      * unfold new_entry. by apply lor_has.
      * by apply new_entry_writable.
      * by rewrite Hfr.
    + rewrite lookup_insert_ne by done. specialize (Hh q Hq). destruct (L !! q) as [[w' bs']|]; [|done].
      destruct Hh as (e & He & Hp). exists e. split; [done|]. by apply (page_is_ext a).
  - intros d Hd. split; [cbn; by rewrite lookup_insert_ne|]. intros L' Hh'. apply (holds_ext a); [done| |done]. cbn. by rewrite lookup_insert_ne.
Qed.

Lemma img_free P a s k :
  represents ke P a s → k ∈ loose a → ∃ s', free_page k s = Ok (tt, s') ∧ represents ke P (set_loose (loose a ∖ {[k]}) a) s'.
Proof. intros Hr Hk. destruct (vm_free _ _ _ _ k Hr Hk) as (s' & a' & E & Hr' & Hs). exists s'. split; [done|]. by inversion Hs; subst. Qed.

(** A lookup in the directory. *)
Lemma img_lookup P a s pd L va :
  represents ke P a s → holds a pd L → 0 ≤ va < PHYS_BASE →
  match L !! (va / PGSIZE) with
  | None => pagedir_get_page pd va s = Ok (NULL, s)
  | Some (w, bs) => ∃ sp e, spaces a !! pd = Some sp ∧ mapping sp va = Some e ∧ page_is a w bs e ∧ pagedir_get_page pd va s = Ok (frame e + va mod PGSIZE, s)
  end.
Proof.
  intros (O & G & Hv) (sp & Hsp & Hh) Hva. rewrite (pagedir_get_page_ok _ _ _ _ _ _ _ _ _ Hv Hsp Hva), pg_ofs_eq.
  assert (0 ≤ va / PGSIZE * PGSIZE < PHYS_BASE) as Hn by (rewrite PGSIZE_eq; dlia). specialize (Hh _ Hn).
  assert (mapping sp va = mapping sp (va / PGSIZE * PGSIZE)) as Em by (unfold mapping; rewrite (proj1 (page_number _ Hn)); by rewrite pg_no_eq).
  destruct (L !! (va / PGSIZE)) as [[w bs]|]; rewrite Em; [|by rewrite Hh]. destruct Hh as (e & He & Hp). exists sp, e. rewrite Em, He. done.
Qed.

(** The contents of a mapped page change. *)
Lemma img_frame P a s pd L va w bs :
  represents ke P a s → holds a pd L → 0 ≤ va < PHYS_BASE → L !! (va / PGSIZE) = Some (w, bs) →
  ∃ k, pagedir_get_page pd va s = Ok (k + va mod PGSIZE, s) ∧ kpage_ok k ∧ mapped (memory (pool_of s)) k PGSIZE ∧
    bytes_at (memory (pool_of s)) k bs ∧ Z.of_nat (length bs) = PGSIZE ∧
    (∀ x, is_Some (kernel ke !! x) → ¬ (k ≤ x < k + PGSIZE)) ∧
    ∀ m, dom m = dom (memory (pool_of s)) → (∀ x, ¬ (k ≤ x < k + PGSIZE) → m !! x = memory (pool_of s) !! x) →
      ∃ a', represents ke P a' (set_pool (set_memory m (pool_of s)) s) ∧ loose a' = loose a ∧ active a' = active a ∧
        holds a' pd (<[va / PGSIZE := (w, bytes_of m k PGSIZE)]> L) ∧ kept pd a a' ∧
        pagedir_get_page pd va (set_pool (set_memory m (pool_of s)) s) = Ok (k + va mod PGSIZE, set_pool (set_memory m (pool_of s)) s).
Proof.
  intros Hr Hh Hva HL. pose proof (img_lookup _ _ _ _ _ _ Hr Hh Hva) as Hl. rewrite HL in Hl. destruct Hl as (sp & e & Hsp & Hm & Hp & El).
  exists (frame e). destruct (rep_frame _ _ _ _ _ _ _ Hr Hsp Hm) as (Hkp & Hmap & Hnl & Hb). split; [done|]. split; [done|]. split; [done|].
  split. { intros i b Hi. rewrite Hb; [by apply Hp|]. pose proof (pi_length _ _ _ _ Hp). apply lookup_lt_Some in Hi. lia. }
  split; [apply Hp|]. pose proof Hr as (O & G & Hv). pose proof Hm as [Ee Hpr]%mapping_entry.
  pose proof (frame_owned O G a pd sp _ e (vr_owns _ _ _ _ _ _ Hv) Hsp Ee Hpr) as Hfo. split.
  { destruct (owned_universe _ _ _ _ _ _ (frame e) Hv ltac:(by eexists)) as [U1 U2]. intros x Hx. by apply (kn_apart _ _ _ (vr_kern _ _ _ _ _ _ Hv)). }
  intros m Hd Hout. exists (set_bytes (page_from (frame e) m (bytes a)) a).
  assert (vrel ke P O G (set_bytes (page_from (frame e) m (bytes a)) a) (set_pool (set_memory m (pool_of s)) s)) as Hv'
    by by apply (vrel_page _ _ _ _ _ _ (frame e) (Frame pd (pg_no va))).
  split_and!; try done.
  - by exists O, G.
  - destruct Hh as (sp' & Hsp' & Hh). assert (sp' = sp) as -> by congruence. exists sp. split; [done|]. intros n Hn. specialize (Hh n Hn).
    assert (mapped m (frame e) PGSIZE) as Hmm by (intros x Hx; apply elem_of_dom; rewrite Hd; by apply elem_of_dom, Hmap).
    destruct (decide (va / PGSIZE = n)) as [<-|Hne].
    + rewrite lookup_insert_eq. exists e. split. { rewrite <-Hm. unfold mapping. rewrite (proj1 (page_number _ Hn)). by rewrite pg_no_eq. }
      destruct (bytes_of_at m (frame e) PGSIZE) as [H1 H2]; [done|done|]. split; [apply Hp|apply Hp|done|].
      intros i b Hi. cbn. apply lookup_lt_Some in Hi as Hlt. rewrite page_from_in by lia. by apply H1.
    + rewrite lookup_insert_ne by done. destruct (L !! n) as [[w' bs']|]; [|done]. destruct Hh as (e' & He' & Hp'). exists e'. split; [done|].
      apply (page_is_ext a); [done|]. intros x Hx. cbn. apply page_from_out.
      apply (frames_apart _ _ _ _ _ _ _ _ _ _ _ _ Hr Hsp He' Hsp Hm); [|done]. rewrite (proj1 (page_number _ Hn)), pg_no_eq. congruence.
  - intros d Hd'. split; [done|]. intros L' Hh'. apply (holds_ext a); [done..|]. intros sp' u e' x Hsp' Hm' Hx. cbn. apply page_from_out.
    apply (frames_apart _ _ _ _ _ _ _ _ _ _ _ _ Hr Hsp' Hm' Hsp Hm); [|done]. congruence.
  - rewrite (pagedir_get_page_ok _ _ _ _ _ _ _ _ _ Hv' Hsp Hva), Hm. by rewrite pg_ofs_eq.
Qed.

(** Data of the kernel, and a loose page, do not overlap. *)
Lemma rep_kernel P a s x b : represents ke P a s → kernel ke !! x = Some b → memory (pool_of s) !! x = Some b.
Proof. intros (O & G & Hv). apply (vr_kern _ _ _ _ _ _ Hv). Qed.

Lemma rep_cstr P a s p str : represents ke P a s → cstr (kernel ke) p str → cstr (memory (pool_of s)) p str.
Proof. intros Hr (H1 & H2 & H3). split_and!; [done| |done]. intros i b Hi. by apply (rep_kernel P a), H2. Qed.

(** An interval of which no byte is in a page is before or after it. *)
Lemma interval_apart x n k : (∀ y, x ≤ y < x + n → ¬ (k ≤ y < k + PGSIZE)) → n ≤ 0 ∨ x + n ≤ k ∨ k + PGSIZE ≤ x.
Proof.
  intros Hy. rewrite PGSIZE_eq in *. destruct (decide (n ≤ 0)); [by left|right]. destruct (decide (x + n ≤ k)); [by left|right].
  destruct (decide (k + 4096 ≤ x)); [done|]. exfalso. apply (Hy (x `max` k)); lia.
Qed.

Lemma cstr_apart p str k : cstr (kernel ke) p str → (∀ x, is_Some (kernel ke !! x) → ¬ (k ≤ x < k + PGSIZE)) →
  p + Z.of_nat (length str) < k ∨ k + PGSIZE ≤ p.
Proof.
  intros (_ & Hb & _) Hk. destruct (interval_apart p (Z.of_nat (length (str ++ [0]))) k) as [H|H].
  - intros y Hy. apply Hk. destruct (lookup_lt_is_Some_2 (str ++ [0]) (Z.to_nat (y - p))) as [b E]; [lia|]. exists b.
    apply Hb in E. by replace (p + Z.of_nat (Z.to_nat (y - p))) with y in E by lia.
  - rewrite length_app in H. simpl in H. lia.
  - rewrite length_app in H. simpl in H. lia.
Qed.

End image.
