(* ===== verification/ProcessLoad.v ===== *)
(** * Loading segments

    [load_segment], [validate_segment] and the loop over the program headers of
    userprog/process.c give the image of the executable, or fail. *)

From S2P Require Import Prelude Vaddr CString Bitmap Palloc PageDir PageDirSpec PageDirInv PageDirTheorems FileApi Process ProcessSpec ProcessImage.

Lemma write_bytes_ok bs a m : mapped m a (Z.of_nat (length bs)) → write_bytes a bs m = Ok (tt, store a bs m).
Proof.
  revert a m. induction bs as [|b bs IH]; intros a m Hm; [done|]. cbn [write_bytes store length] in *.
  rewrite (bind_ok _ _ _ _ _ (wr8_ok m a b (Hm a ltac:(lia)))). apply IH. intros x Hx. rewrite lookup_insert_ne by lia. apply Hm. lia.
Qed.

Lemma read_bytes_ok bs a m : bytes_at m a bs → read_bytes a (length bs) m = Ok (bs, m).
Proof.
  revert a. induction bs as [|b bs IH]; intros a Hm; [done|]. apply bytes_at_cons in Hm as [Hb Hm]. cbn [read_bytes length].
  rewrite (bind_ok _ _ _ _ _ (rd8_ok _ _ _ Hb)). by rewrite (bind_ok _ _ _ _ _ (IH _ Hm)).
Qed.

(** ** Pages of a segment *)

(** Page [q] of a segment that starts at page [n] with [r] bytes of the file from [ps] on. *)
Definition content (bs : list Z) (ps n r q : Z) : list Z :=
  (λ j, let o := (q - n) * PGSIZE + j in if decide (o < r) then default 0 (bs !! Z.to_nat (ps + o)) else 0) <$> seqZ 0 PGSIZE.

Lemma content_length bs ps n r q : Z.of_nat (length (content bs ps n r q)) = PGSIZE.
Proof. unfold content. rewrite length_fmap, length_seqZ, Z2Nat.id; [done|]. rewrite PGSIZE_eq. lia. Qed.

Lemma content_lookup bs ps n r q i x :
  content bs ps n r q !! i = Some x →
  let o := (q - n) * PGSIZE + Z.of_nat i in Z.of_nat i < PGSIZE ∧ x = if decide (o < r) then default 0 (bs !! Z.to_nat (ps + o)) else 0.
Proof.
  unfold content. intros (j & -> & [-> Hj]%lookup_seqZ)%list_lookup_fmap_Some. cbv zeta. rewrite Z.add_0_l. split; [lia|done].
Qed.

(** The page in memory after the read and the [memset]. *)
Lemma content_bytes bs ps n r k m :
  0 ≤ ps → 0 ≤ r → let pr := if decide (r < PGSIZE) then r else PGSIZE in
  ps + pr ≤ Z.of_nat (length bs) →
  bytes_at (store (k + pr) (replicate (Z.to_nat (PGSIZE - pr)) (u8 0)) (store k (slice bs ps pr) m)) k (content bs ps n r n).
Proof.
  intros Hps Hr pr Hl i x Hx. apply content_lookup in Hx as [Hi ->]. rewrite Z.sub_diag, Z.mul_0_l, Z.add_0_l.
  assert (0 ≤ pr ≤ PGSIZE) as Hpr by (unfold pr; case_decide; rewrite PGSIZE_eq in *; lia).
  rewrite store_lookup, length_replicate. rewrite Z2Nat.id by lia. destruct (decide (Z.of_nat i < r)) as [Hir|Hir].
  - rewrite decide_False by (unfold pr; case_decide; lia). rewrite store_lookup, slice_lengthZ by lia.
    rewrite decide_True by (unfold pr; case_decide; lia). replace (k + Z.of_nat i - k) with (Z.of_nat i) by lia. rewrite Nat2Z.id.
    assert (i < Z.to_nat pr)%nat by (unfold pr; case_decide; lia). rewrite slice_lookup, decide_True by lia.
    destruct (lookup_lt_is_Some_2 bs (Z.to_nat (ps + Z.of_nat i))) as [y Ey]; [unfold pr in *; case_decide; lia|]. rewrite Ey. cbn.
    by replace (Z.to_nat ps + i)%nat with (Z.to_nat (ps + Z.of_nat i)) by lia.
  - assert (pr = r) as -> by (unfold pr; case_decide; [done|lia]). rewrite decide_True by lia. apply lookup_replicate. split; [done|lia].
Qed.

Lemma add_pages_ext f g ns L : (∀ q, q ∈ ns → f q = g q) → add_pages f ns L = add_pages g ns L.
Proof.
  revert L. induction ns as [|n ns IH]; intros L H; [done|]. cbn. case_decide; [|done]. rewrite (H n) by by left. apply IH. intros q Hq. apply H. by right.
Qed.

Lemma content_next bs ps n r q :
  0 ≤ r → n < q → let pr := if decide (r < PGSIZE) then r else PGSIZE in content bs (ps + pr) (n + 1) (r - pr) q = content bs ps n r q.
Proof.
  intros Hr Hq. cbv zeta. unfold content. apply list_fmap_ext. intros i j [-> Hj]%lookup_seqZ. rewrite PGSIZE_eq in *.
  destruct (decide (r < 4096)).
  - rewrite !decide_False by lia. done.
  - destruct (decide ((q - (n + 1)) * 4096 + (0 + Z.of_nat i) < r - 4096)).
    + rewrite decide_True by lia. do 3 f_equal. lia.
    + by rewrite decide_False by lia.
Qed.

Section load.
  Context {S : Type} {PA : PageAllocator S} {PL : PageAllocatorLaws S} {PP : PagePool S}.
  Context {F : Type} {FI : Files F} {FL : FilesLaws F}.
  Context (ke : kenv).
  Implicit Types (s : proc S F) (a : vm) (P : gset Z) (L : layout).

Definition with_mem (m : mem) s : proc S F := set_mach (set_pool (set_memory m (pool_of (mach s))) (mach s)) s.
Definition memory_of s : mem := memory (pool_of (mach s)).

Lemma on_mach_ok {A} (m : M (mmu S) A) s x t : m (mach s) = Ok (x, t) → on_mach m s = Ok (x, set_mach t s).
Proof. intros E. by apply zoom_ok. Qed.
Lemma on_files_ok {A} (m : M F A) s x d : m (disk s) = Ok (x, d) → on_files m s = Ok (x, set_disk d s).
Proof. intros E. by apply zoom_ok. Qed.
Lemma on_mem_run {A} (m : M mem A) s x t : m (memory_of s) = Ok (x, t) → on_mem m s = Ok (x, with_mem t s).
Proof. intros E. apply on_mach_ok. unfold on_memory, on_pool. by apply zoom_ok, zoom_ok. Qed.

(** The state while an image is loaded: [L] is in the directory of the process,
    and the executable is open at [ps]. *)
Record loading P a L (file : Z) (bs : list Z) (ps : Z) s : Prop := {
  ld_rep : represents ke P a (mach s);
  ld_disk : vfs_ok (disk s);
  ld_holds : holds a (pagedir s) L;
  ld_view : vfs_view (disk s) file = Some (bs, ps)
}.

(** What changes: the machine and the executable's position. *)
Record grown (file : Z) a s a' s' : Prop := {
  gr_loose : loose a' = loose a;
  gr_active : active a' = active a;
  gr_kept : kept (pagedir s) a a';
  gr_others : others_kept file (disk s) (disk s');
  gr_rest : ∃ m d, s' = set_disk d (set_mach m s)
}.

Lemma grown_refl file a s : grown file a s a s.
Proof. split; [done|done|apply kept_refl|by intros g|]. exists (mach s), (disk s). by destruct s. Qed.
Lemma grown_trans file a1 s1 a2 s2 a3 s3 : grown file a1 s1 a2 s2 → grown file a2 s2 a3 s3 → grown file a1 s1 a3 s3.
Proof.
  intros [G1 G2 G3 G4 (m & d & ->)] [H1 H2 H3 H4 (m' & d' & ->)]. split; [congruence|congruence|by eapply kept_trans| |by exists m', d'].
  intros g Hg. rewrite H4 by done. by apply G4.
Qed.

Lemma memory_with P a s m : represents ke P a (mach s) → dom m = dom (memory_of s) → memory_of (with_mem m s) = m.
Proof. intros (O & G & Hv) Hd. unfold memory_of, with_mem. cbn. apply pa_set_memory; [apply Hv|done]. Qed.

Lemma with_mem_twice s m m' : with_mem m (with_mem m' s) = with_mem m s.
Proof. unfold with_mem, set_pool, set_mach. cbn. by rewrite pa_set_twice. Qed.
Lemma with_mem_same s : with_mem (memory_of s) s = s.
Proof. unfold with_mem, memory_of, set_pool, set_mach. rewrite pa_set_same. by destruct s as [[] ? ? ? ? ? ? ? ? ? ? ?]. Qed.

Lemma fill_page P a L file bs ps s k m :
  loading P a L file bs ps s → k ∈ loose a → dom m = dom (memory_of s) → (∀ x, ¬ (k ≤ x < k + PGSIZE) → m !! x = memory_of s !! x) →
  ∃ a', loading P a' L file bs ps (with_mem m s) ∧ grown file a s a' (with_mem m s) ∧ memory_of (with_mem m s) = m ∧
    ∀ x, k ≤ x < k + PGSIZE → bytes a' !! x = m !! x.
Proof.
  intros [L1 L2 L3 L4] Hk Hd Hout. destruct (img_fill _ _ _ _ k m L1 Hk Hd Hout) as (a' & Hr & Hl & Ha & Hs & Hh & Hb). exists a'. split_and!; [| |by eapply memory_with|done].
  - split; try done. by apply Hh.
  - split; try done; [by apply kept_all|]. by exists (set_pool (set_memory m (pool_of (mach s))) (mach s)), (disk s).
Qed.

Lemma store_page (m : mem) k j bs : 0 ≤ j → j + Z.of_nat (length bs) ≤ PGSIZE → mapped m k PGSIZE →
  mapped m (k + j) (Z.of_nat (length bs)) ∧ dom (store (k + j) bs m) = dom m ∧ ∀ x, ¬ (k ≤ x < k + PGSIZE) → store (k + j) bs m !! x = m !! x.
Proof.
  intros Hj Hl Hm. assert (mapped m (k + j) (Z.of_nat (length bs))) as Hm' by (intros x Hx; apply Hm; lia). split_and!; [done|by apply store_dom|].
  intros x Hx. rewrite store_lookup, decide_False; [done|lia].
Qed.

(** [file_read] into a loose page. *)
Lemma read_page P a L file bs ps s k r :
  loading P a L file bs ps s → k ∈ loose a → 0 ≤ r ≤ PGSIZE →
  ∃ n s' a', read_file file k r s = Ok (n, s') ∧ 0 ≤ n ≤ r ∧ (0 < n → ps + n ≤ Z.of_nat (length bs)) ∧ loading P a' L file bs (ps + n) s' ∧ grown file a s a' s' ∧
    memory_of s' = store k (slice bs ps n) (memory_of s).
Proof.
  intros Hl Hk Hr. pose proof Hl as [L1 L2 L3 L4]. destruct (vfs_view_ok _ _ _ _ L2 L4) as (Hfn & Hps & Hlen). unfold read_file.
  destruct (vfs_read_ok _ _ _ _ r L2 L4) as (n & d & E & D1 & D2 & D3 & D4 & D5). rewrite (bind_ok _ _ _ _ _ (on_files_ok _ _ _ _ E)).
  destruct (rep_loose _ _ _ _ _ Hl.(ld_rep _ _ _ _ _ _ _) Hk) as (Hkp & Hmap & _). set (s1 := set_disk d s).
  assert (Z.of_nat (length (slice bs ps n)) = n) as Hn.
  { destruct (decide (n = 0)) as [->|]; [by rewrite slice_nil|]. apply slice_lengthZ; lia. }
  destruct (store_page (memory_of s1) k 0 (slice bs ps n)) as (Hm1 & Hm2 & Hm3); [lia|lia|done|]. rewrite Z.add_0_r in *.
  rewrite (bind_ok _ _ _ _ _ (on_mem_run _ s1 _ _ (write_bytes_ok _ _ _ Hm1))).
  assert (loading P a L file bs (ps + n) s1) as Hl1 by by split.
  destruct (fill_page _ _ _ _ _ _ _ k _ Hl1 Hk Hm2 Hm3) as (a' & F1 & F2 & F3 & _). eexists _, _, a'. rewrite Hn. split; [done|]. split; [lia|]. split; [lia|].
  split; [done|]. split; [|done]. apply (grown_trans _ _ _ a s1); [|done]. split; [done|done|apply kept_refl|done|by exists (mach s), d].
Qed.

(** [install_page] maps a loose page at page [n], unless there is one. *)
Lemma install_page_ok P a L file bs ps s k n w c :
  loading P a L file bs ps s → k ∈ loose a → Z.of_nat (length c) = PGSIZE → bytes_at (bytes a) k c → 0 ≤ n * PGSIZE < PHYS_BASE →
  ∃ b s', install_page (n * PGSIZE) k w s = Ok (b, s') ∧
    if (b : bool) then L !! n = None ∧ ∃ a', loading P a' (<[n := (w, c)]> L) file bs ps s' ∧ grown file (set_loose (loose a ∖ {[k]}) a) s a' s'
    else loading P a L file bs ps s' ∧ grown file a s a s'.
Proof.
  intros Hl Hk Hlen Hc Hn. pose proof Hl as [L1 L2 L3 L4]. unfold install_page. rewrite (bind_ok _ _ _ _ _ eq_refl).
  pose proof (img_lookup _ _ _ _ _ _ _ L1 L3 Hn) as Hlk. assert (n * PGSIZE / PGSIZE = n) as Edn by (rewrite PGSIZE_eq; by rewrite Z.div_mul). rewrite Edn in Hlk.
  assert (∀ t, grown file a s a (set_mach t s)) as Hg by (intros t; split; [done|done|apply kept_refl|by intros g|by exists t, (disk s)]).
  destruct (L !! n) as [[w' c']|] eqn:EL.
  - destruct Hlk as (sp & e & Hsp & Hm & Hp & El). rewrite (bind_ok _ _ _ _ _ (on_mach_ok _ _ _ _ El)).
    destruct (rep_frame _ _ _ _ _ _ _ _ L1 Hsp Hm) as ((H1 & _) & _). rewrite decide_False by (rewrite PGSIZE_eq; unfold NULL, PHYS_BASE in *; dlia).
    exists false, (set_mach (mach s) s). split; [done|]. split; [by split|done].
  - rewrite (bind_ok _ _ _ _ _ (on_mach_ok _ _ _ _ Hlk)), decide_True by done.
    destruct (img_set _ _ _ _ _ _ n k w c L1 L3 Hk Hlen Hc Hn EL) as (b & t & E & Hb). exists b, (set_mach t s).
    split; [by apply (on_mach_ok _ (set_mach (mach s) s))|]. destruct b.
    + split; [done|]. destruct Hb as (a' & B1 & B2 & B3 & B4 & B5). exists a'. split; [by split|]. split; [done|done|by apply kept_loose|by intros g|by exists t, (disk s)].
    + split; [by split|apply Hg].
Qed.

(** A loose page is given back. *)
Lemma give_back P a L file bs ps s k :
  loading P a L file bs ps s → k ∈ loose a →
  ∃ s', on_mach (free_page k) s = Ok (tt, s') ∧ loading P (set_loose (loose a ∖ {[k]}) a) L file bs ps s' ∧
    grown file (set_loose (loose a ∖ {[k]}) a) s (set_loose (loose a ∖ {[k]}) a) s'.
Proof.
  intros [L1 L2 L3 L4] Hk. destruct (img_free _ _ _ _ k L1 Hk) as (t & E & Hr). exists (set_mach t s). split; [by apply on_mach_ok|].
  split; [split; try done; by apply holds_loose|]. split; [done|done|apply kept_refl|by intros g|by exists t, (disk s)].
Qed.

(** A page that is new. *)
Lemma take_user_page P a L file bs ps s flags :
  loading P a L file bs ps s → Z.land flags PAL_ASSERT = 0 →
  ∃ k s', on_mach (get_page flags) s = Ok (k, s') ∧
    (k = NULL ∧ loading P a L file bs ps s' ∧ grown file a s a s' ∨
     ∃ a', k ≠ NULL ∧ k ∈ loose a' ∧ loading P a' L file bs ps s' ∧ grown file a s (set_loose (loose a' ∖ {[k]}) a') s' ∧
       (Z.land flags PAL_ZERO ≠ 0 → ∀ x, k ≤ x < k + PGSIZE → bytes a' !! x = Some 0)).
Proof.
  intros [L1 L2 L3 L4] Hf. destruct (img_get _ _ _ _ flags L1 Hf) as (k & t & E & [[-> Hr]|(a' & A1 & A2 & A3 & A4 & A5 & As & A6 & A7)]); exists k, (set_mach t s) || exists NULL, (set_mach t s);
    (split; [by apply on_mach_ok|]).
  - left. split; [done|]. split; [by split|]. split; [done|done|apply kept_refl|by intros g|by exists t, (disk s)].
  - right. exists a'. split; [done|]. split; [rewrite A4; clear; set_solver|]. split; [split; try done; by apply A6|]. split; [|done].
    split; [cbn; rewrite A4; clear -A2; set_solver|done| |by intros g|by exists t, (disk s)]. apply kept_loose'. by apply kept_all.
Qed.

(** One page: it is filled and mapped, or given back. *)
Lemma place_page P a L file bs ps s k n r w (cont : M (proc S F) bool) :
  loading P a L file bs ps s → k ∈ loose a → 0 ≤ ps → 0 ≤ r → 0 ≤ n * PGSIZE < PHYS_BASE →
  let pr := if decide (r < PGSIZE) then r else PGSIZE in
  let rest := (x ← read_file file k pr;
     if decide (x ≠ pr) then on_mach (free_page k);; mret false else
     on_mem (memset (k + pr) 0 (PGSIZE - pr));;
     ok ← install_page (n * PGSIZE) k w;
     if (ok : bool) then cont else on_mach (free_page k);; mret false) in
  ∃ s' a' ps', grown file (set_loose (loose a ∖ {[k]}) a) s a' s' ∧
    (rest s = Ok (false, s') ∧ loading P a' L file bs ps' s' ∨
     rest s = cont s' ∧ L !! n = None ∧ ps' = ps + pr ∧ (0 < pr → ps + pr ≤ Z.of_nat (length bs)) ∧
       loading P a' (<[n := (w, content bs ps n r n)]> L) file bs ps' s').
Proof.
  intros Hl Hk Hps Hr Hn pr rest. assert (0 ≤ pr ≤ PGSIZE) as Hpr by (unfold pr; case_decide; rewrite PGSIZE_eq in *; lia).
  destruct (read_page _ _ _ _ _ _ _ k pr Hl Hk Hpr) as (x & s1 & a1 & E1 & X1 & X2 & Hl1 & Hg1 & Hm1).
  assert (k ∈ loose a1) as Hk1 by by rewrite (gr_loose _ _ _ _ _ Hg1).
  assert (∀ a2 s2, loose a2 = loose a1 → grown file a1 s1 a2 s2 → grown file (set_loose (loose a ∖ {[k]}) a) s (set_loose (loose a2 ∖ {[k]}) a2) s2) as Hg.
  { intros a2 s2 Hl2 Hg2. destruct (grown_trans _ _ _ _ _ _ _ Hg1 Hg2) as [T1 T2 T3 T4 T5]. split; try done; [cbn; by rewrite T1|].
    apply kept_loose. by apply kept_loose'. }
  unfold rest. rewrite (bind_ok _ _ _ _ _ E1). destruct (decide (x = pr)) as [->|Hx].
  2:{ rewrite decide_True by done. destruct (give_back _ _ _ _ _ _ _ k Hl1 Hk1) as (s2 & E2 & Hl2 & Hg2). rewrite (bind_ok _ _ _ _ _ E2).
      exists s2. eexists _, (ps + x). split; [|left; by split]. eapply grown_trans; [apply (Hg a1 s1 eq_refl), grown_refl|done]. }
  rewrite decide_False by tauto. destruct (rep_loose _ _ _ _ _ (ld_rep _ _ _ _ _ _ _ Hl1) Hk1) as (Hkp & Hmap & Hkn & _).
  destruct (store_page (memory_of s1) k pr (replicate (Z.to_nat (PGSIZE - pr)) (u8 0))) as (M1 & M2 & M3); [lia|rewrite length_replicate; lia|done|].
  rewrite length_replicate in M1. assert (0 < k) as Hk0 by (destruct Hkp as (? & _); unfold PHYS_BASE in *; lia).
  pose proof (memset_ok 0 (Z.to_nat (PGSIZE - pr)) (k + pr) (memory_of s1) M1 ltac:(lia)) as Em. rewrite Z2Nat.id in Em by lia.
  rewrite (bind_ok _ _ _ _ _ (on_mem_run _ _ _ _ Em)). destruct (fill_page _ _ _ _ _ _ _ k _ Hl1 Hk1 M2 M3) as (a2 & Hl2 & Hg2 & _ & Hb2).
  set (s2 := with_mem _ s1) in *. assert (k ∈ loose a2) as Hk2 by by rewrite (gr_loose _ _ _ _ _ Hg2).
  assert (bytes_at (bytes a2) k (content bs ps n r n)) as Hc.
  { intros i b Hi. rewrite Hb2; [|apply content_lookup in Hi; lia]. destruct (decide (ps + pr ≤ Z.of_nat (length bs))).
    - rewrite Hm1. by apply (content_bytes bs ps n r k (memory_of s)).
    - assert (pr = 0) as Hp0 by lia. assert (r = 0) as -> by (unfold pr in Hp0; case_decide; [done|rewrite PGSIZE_eq in *; lia]).
      apply content_lookup in Hi as [Hi ->]. rewrite Hp0 in *. rewrite decide_False by lia.
      rewrite store_lookup, length_replicate, decide_True by lia. apply lookup_replicate. split; [done|lia]. }
  destruct (install_page_ok _ _ _ _ _ _ _ k n w _ Hl2 Hk2 (content_length bs ps n r n) Hc Hn) as (b & s3 & E3 & Hb). rewrite (bind_ok _ _ _ _ _ E3). destruct b.
  - destruct Hb as (HL & a3 & Hl3 & Hg3). exists s3, a3, (ps + pr). split; [|right; by split_and!].
    eapply grown_trans; [apply (Hg a2 s2 (gr_loose _ _ _ _ _ Hg2)), Hg2|done].
  - destruct Hb as [Hl3 Hg3]. destruct (give_back _ _ _ _ _ _ _ k Hl3 Hk2) as (s4 & E4 & Hl4 & Hg4). rewrite (bind_ok _ _ _ _ _ E4).
    exists s4. eexists _, (ps + pr). split; [|left; by split]. eapply grown_trans; [|done]. apply (Hg a2 s3 (gr_loose _ _ _ _ _ Hg2)). by eapply grown_trans.
Qed.

Lemma load_segment_loop_ok P file bs w fuel a L ps s n r z c :
  loading P a L file bs ps s → 0 ≤ ps → 0 ≤ r → 0 ≤ z → r + z = c * PGSIZE → c < Z.of_nat fuel → 0 ≤ n → (n + c) * PGSIZE ≤ PHYS_BASE →
  ∃ b s' a' L' ps', load_segment_loop fuel file (n * PGSIZE) r z w s = Ok (b, s') ∧ loading P a' L' file bs ps' s' ∧ grown file a s a' s' ∧
    (b = true → add_pages (λ q, (w, content bs ps n r q)) (seqZ n c) L = Some L' ∧ (0 < r → ps + r ≤ Z.of_nat (length bs))).
Proof.
  revert a L ps s n r z c. induction fuel as [|fuel IH]; intros a L ps s n r z c Hl Hps Hr Hz Hc Hf Hn Hnc.
  { rewrite PGSIZE_eq in *. lia. }
  cbn [load_segment_loop]. destruct (decide (r > 0 ∨ z > 0)) as [Hpos|Hpos].
  2:{ assert (c = 0) as -> by (rewrite PGSIZE_eq in *; lia). exists true, s, a, L, ps. split; [done|]. split; [done|]. split; [apply grown_refl|]. intros _. split; [done|lia]. }
  assert (1 ≤ c) as Hc1 by (rewrite PGSIZE_eq in *; lia). assert (0 ≤ n * PGSIZE < PHYS_BASE) as Hnp by (rewrite PGSIZE_eq in *; lia).
  set (pr := if decide (r < PGSIZE) then r else PGSIZE). assert (0 ≤ pr ≤ PGSIZE ∧ pr ≤ r ∧ PGSIZE - pr ≤ z) as (Hpr & Hpr' & Hpz).
  { unfold pr. case_decide; rewrite PGSIZE_eq in *; lia. }
  destruct (take_user_page _ _ _ _ _ _ _ PAL_USER Hl eq_refl) as (k & s1 & E1 & [(-> & Hl1 & Hg1)|(a1 & Hkn & Hk & Hl1 & Hg1 & _)]).
  { rewrite (bind_ok _ _ _ _ _ E1), decide_True by done. exists false, s1, a, L, ps. done. }
  rewrite (bind_ok _ _ _ _ _ E1), decide_False by done.
  destruct (place_page _ _ _ _ _ _ _ k n r w (load_segment_loop fuel file (u32 (n * PGSIZE + PGSIZE)) (u32 (r - pr)) (u32 (z - (PGSIZE - pr))) w) Hl1 Hk Hps Hr Hnp)
    as (s2 & a2 & ps2 & Hg2 & Hcase). fold pr in Hcase. pose proof (grown_trans _ _ _ _ _ _ _ Hg1 Hg2) as Hg12.
  destruct Hcase as [[E2 Hl2]|(E2 & HL & -> & Hx & Hl2)].
  { exists false, s2, a2, L, ps2. done. }
  destruct (IH a2 _ (ps + pr) s2 (n + 1) (r - pr) (z - (PGSIZE - pr)) (c - 1) Hl2) as (b & s' & a' & L' & ps' & E & Hl' & Hg' & Hb); [lia|lia|lia|lia|lia|lia|lia|].
  exists b, s', a', L', ps'. split.
  { etransitivity; [exact E2|]. rewrite !wrapu_small by (unfold in_u, PHYS_BASE in *; rewrite PGSIZE_eq in *; lia).
    by replace (n * PGSIZE + PGSIZE) with ((n + 1) * PGSIZE) by lia. }
  split; [done|]. split; [by eapply grown_trans|]. intros Hbt. destruct (Hb Hbt) as [Hadd Hlen]. split; [|lia].
  rewrite (seqZ_cons n c) by lia. replace (Z.pred c) with (c - 1) by lia. change (Z.succ n) with (n + 1). cbn [add_pages]. rewrite decide_True by done.
  rewrite <-Hadd. apply add_pages_ext. intros q Hq%elem_of_seqZ. f_equal. symmetry. apply content_next; lia.
Qed.

(** ** Headers *)

Definition phdr_ok (ph : Elf32_Phdr) : Prop :=
  in_u 32 (p_offset ph) ∧ in_u 32 (p_vaddr ph) ∧ in_u 32 (p_filesz ph) ∧ in_u 32 (p_memsz ph).

Lemma phdr_of_ok bs : phdr_ok (phdr_of bs).
Proof. unfold phdr_ok, phdr_of, Elf32_Word. cbn. split_and!; by apply wrapu_range. Qed.

Lemma set_disk_same s : set_disk (disk s) s = s.
Proof. by destruct s. Qed.

Lemma page_mask x : Z.land x PGMASK = x mod PGSIZE.
Proof. apply pg_ofs_eq. Qed.
Lemma page_base x : in_u 32 x → Z.land x (not32 PGMASK) = x - x mod PGSIZE.
Proof. intros Hx. rewrite <-pg_round_down_eq by done. done. Qed.

(** [validate_segment] accepts the segments that can be loaded, as far as the
    header shows. *)
Lemma validate_segment_ok P a L file bs ps s ph :
  loading P a L file bs ps s → phdr_ok ph →
  ∃ b, validate_segment ph file s = Ok (b, s) ∧
    (b = true → p_offset ph mod PGSIZE = p_vaddr ph mod PGSIZE ∧ p_offset ph ≤ Z.of_nat (length bs) ∧ 0 < p_memsz ph ∧ p_filesz ph ≤ p_memsz ph ∧
      PGSIZE ≤ p_vaddr ph ∧ p_vaddr ph + p_memsz ph < PHYS_BASE).
Proof.
  intros [L1 L2 L3 L4] (H1 & H2 & H3 & H4). destruct (vfs_view_ok _ _ _ _ L2 L4) as (_ & _ & Hlen). unfold validate_segment. rewrite !page_mask.
  case_decide as D1; [by exists false|]. rewrite (bind_ok _ _ _ _ _ (on_files_ok _ _ _ _ (vfs_length_ok _ _ _ _ L2 L4))), set_disk_same.
  rewrite (wrapu_small 32 (Z.of_nat (length bs))) by (unfold in_u; lia).
  case_decide as D2; [by exists false|]. case_decide as D3; [by exists false|]. case_decide as D4; [by exists false|].
  unfold is_user_vaddr. case_bool_decide as D5; cbn [negb]; [|by exists false]. case_bool_decide as D6; cbn [negb]; [|by exists false].
  case_decide as D7; [by exists false|]. case_decide as D8; [by exists false|]. exists true. split; [done|]. intros _.
  unfold in_u in *. assert (p_vaddr ph + p_memsz ph < PHYS_BASE) as Hend.
  { unfold wrapu in *. change (2 ^ 32) with 4294967296 in *. unfold PHYS_BASE in *. dlia. }
  split_and!; try done; lia.
Qed.

(** The numbers of [load]'s case for a segment. *)
Lemma segment_numbers ph :
  phdr_ok ph → PGSIZE ≤ p_vaddr ph → p_vaddr ph + p_memsz ph < PHYS_BASE → 0 < p_memsz ph → p_filesz ph ≤ p_memsz ph →
  let po := p_vaddr ph mod PGSIZE in
  let r := if decide (p_filesz ph > 0) then po + p_filesz ph else 0 in
  0 ≤ po < PGSIZE ∧ 0 ≤ r ≤ page_count ph * PGSIZE ∧ u32 (po + p_filesz ph) = po + p_filesz ph ∧
  u32 (ROUND_UP (u32 (po + p_memsz ph)) PGSIZE) = page_count ph * PGSIZE ∧
  0 ≤ first_page ph ∧ p_vaddr ph - po = first_page ph * PGSIZE ∧ (first_page ph + page_count ph) * PGSIZE ≤ PHYS_BASE ∧ 0 ≤ page_count ph.
Proof.
  intros (H1 & H2 & H3 & H4) Hlo Hhi Hm Hf. cbv zeta. unfold first_page, page_count, ROUND_UP, in_u, PHYS_BASE in *. rewrite PGSIZE_eq in *.
  set (po := p_vaddr ph mod 4096). assert (0 ≤ po < 4096 ∧ p_vaddr ph = p_vaddr ph / 4096 * 4096 + po) as [Hpo Ev] by (unfold po; dlia).
  set (q := p_vaddr ph / 4096) in *. rewrite (wrapu_small 32 (po + p_memsz ph)) by (unfold in_u; lia).
  rewrite (wrapu_small 32 (po + p_memsz ph + 4096 - 1)) by (unfold in_u; lia). set (c := (po + p_memsz ph + 4096 - 1) / 4096).
  assert (c * 4096 ≤ po + p_memsz ph + 4095 < c * 4096 + 4096) as Hc by (unfold c; dlia).
  rewrite !(wrapu_small 32 (c * 4096)) by (unfold in_u; lia). rewrite (wrapu_small 32 (po + p_filesz ph)) by (unfold in_u; lia).
  split_and!; try done; try lia; case_decide; lia.
Qed.

(** The pages of the loop are those of the segment. *)
Lemma segment_content bs ph q :
  0 ≤ p_filesz ph → p_offset ph mod PGSIZE = p_vaddr ph mod PGSIZE → q ∈ seqZ (first_page ph) (page_count ph) →
  let po := p_vaddr ph mod PGSIZE in
  (bool_decide (Z.land (p_flags ph) PF_W ≠ 0),
    content bs (p_offset ph - po) (first_page ph) (if decide (p_filesz ph > 0) then po + p_filesz ph else 0) q) = segment_page bs ph q.
Proof.
  intros Hf Ho Hq%elem_of_seqZ. cbv zeta. unfold segment_page, content. f_equal. apply list_fmap_ext. intros i j [-> Hj]%lookup_seqZ. unfold segment_byte, first_page in *.
  rewrite PGSIZE_eq in *. assert (p_vaddr ph = p_vaddr ph / 4096 * 4096 + p_vaddr ph mod 4096) as Ev by dlia.
  set (n := p_vaddr ph / 4096) in *. set (po := p_vaddr ph mod 4096) in *. destruct (decide (p_filesz ph > 0)).
  - destruct (decide ((q - n) * 4096 + (0 + Z.of_nat i) < po + p_filesz ph)).
    + rewrite decide_True by lia. do 3 f_equal. lia.
    + by rewrite decide_False by lia.
  - rewrite !decide_False by lia. done.
Qed.

Lemma load_phdr_ok P a L file bs ps s ph :
  loading P a L file bs ps s → phdr_ok ph →
  ∃ b s' a' L' ps', load_phdr ph file s = Ok (b, s') ∧ loading P a' L' file bs ps' s' ∧ grown file a s a' s' ∧
    (b = true → segment_ok ph (Z.of_nat (length bs)) ∧ add_pages (segment_page bs ph) (seqZ (first_page ph) (page_count ph)) L = Some L').
Proof.
  intros Hl Hph. destruct (validate_segment_ok _ _ _ _ _ _ _ ph Hl Hph) as (b & E & Hb). unfold load_phdr. rewrite (bind_ok _ _ _ _ _ E).
  destruct b; [|exists false, s, a, L, ps; split_and!; [done|done|apply grown_refl|done]]. destruct (Hb eq_refl) as (V1 & V2 & V3 & V4 & V5 & V6). clear Hb E.
  destruct (segment_numbers ph Hph V5 V6 V3 V4) as (N1 & N2 & N3 & N4 & N5 & N6 & N7 & N8). destruct Hph as (H1 & H2 & H3 & H4).
  rewrite !page_mask, !page_base, N4, N3 by done. rewrite V1, N6. set (po := p_vaddr ph mod PGSIZE) in *. set (n := first_page ph) in *. set (c := page_count ph) in *.
  set (r := if decide (p_filesz ph > 0) then po + p_filesz ph else 0) in *.
  assert ((if decide (p_filesz ph > 0) then (po + p_filesz ph, u32 (c * PGSIZE - (po + p_filesz ph))) else (0, c * PGSIZE)) = (r, c * PGSIZE - r)) as ->.
  { unfold r in *. case_decide; [|by rewrite Z.sub_0_r]. rewrite wrapu_small; [done|]. unfold in_u, PHYS_BASE in *. lia. }
  set (w := bool_decide (Z.land (p_flags ph) PF_W ≠ 0)). pose proof Hl as [L1 L2 L3 L4]. destruct (vfs_view_ok _ _ _ _ L2 L4) as (_ & _ & Hlen). unfold in_u in *.
  rewrite wraps_small by (unfold in_s; rewrite ?PGSIZE_eq in *; lia). unfold load_segment.
  rewrite (wrapu_small 32 (r + (c * PGSIZE - r))) by (unfold in_u, PHYS_BASE in *; rewrite PGSIZE_eq in *; lia).
  replace (r + (c * PGSIZE - r)) with (c * PGSIZE) by lia. rewrite (bool_decide_eq_true_2 ((c * PGSIZE) mod PGSIZE = 0)) by by rewrite Z.mod_mul.
  rewrite pg_ofs_page by by rewrite Z.mod_mul. assert (0 ≤ p_offset ph - po ∧ (p_offset ph - po) mod PGSIZE = 0) as [Hfp Hfm].
  { rewrite <-V1, PGSIZE_eq. dlia. }
  rewrite (bool_decide_eq_true_2 (Z.rem _ PGSIZE = 0)) by (by rewrite Z.rem_mod_nonneg by (done || rewrite PGSIZE_eq; lia)). rewrite !(bind_ok _ _ _ _ _ eq_refl).
  destruct (vfs_seek_ok _ _ _ _ (p_offset ph - po) L2 L4) as (d & Ed & D1 & D2 & D3); [lia|]. rewrite (bind_ok _ _ _ _ _ (on_files_ok _ _ _ _ Ed)).
  assert (loading P a L file bs (p_offset ph - po) (set_disk d s)) as Hl1 by by split. rewrite Z.div_mul by done.
  destruct (load_segment_loop_ok P file bs w (Datatypes.S (Z.to_nat c)) a L _ _ n r (c * PGSIZE - r) c Hl1)
    as (b & s' & a' & L' & ps' & E & Hl' & Hg & Hb); [lia|lia|lia|lia|lia|done|done|].
  exists b, s', a', L', ps'. split; [done|]. split; [done|]. split.
  { eapply grown_trans; [|done]. split; [done|done|apply kept_refl|done|by exists (mach s), d]. }
  intros Hbt. destruct (Hb Hbt) as [Hadd Hlen']. split.
  - unfold segment_ok. split_and!; try done. intros Hfs. unfold r in Hlen'. rewrite decide_True in Hlen' by lia. lia.
  - rewrite <-Hadd. symmetry. apply add_pages_ext. intros q Hq. apply (segment_content bs ph q); [lia|done..].
Qed.

Lemma load_phdrs_ok P file bs n a L ps s o :
  loading P a L file bs ps s → in_s 32 o →
  ∃ b s' a' L' ps', load_phdrs n file o s = Ok (b, s') ∧ loading P a' L' file bs ps' s' ∧ grown file a s a' s' ∧
    (b = true → (0 ≤ o ∨ n = 0%nat) ∧ image_phdrs n bs o L = Some L').
Proof.
  revert a L ps s o. induction n as [|n IH]; intros a L ps s o Hl Ho; cbn [load_phdrs image_phdrs].
  { exists true, s, a, L, ps. split_and!; [done|done|apply grown_refl|]. intros _. split; [by right|done]. }
  destruct (decide (o < 0)) as [Hneg|Hneg].
  { exists false, s, a, L, ps. split_and!; [done|done|apply grown_refl|done]. }
  pose proof Hl as [L1 L2 L3 L4]. destruct (vfs_view_ok _ _ _ _ L2 L4) as (_ & _ & Hlen).
  rewrite (bind_ok _ _ _ _ _ (on_files_ok _ _ _ _ (vfs_length_ok _ _ _ _ L2 L4))), set_disk_same. destruct (decide (o > Z.of_nat (length bs))).
  { exists false, s, a, L, ps. split_and!; [done|done|apply grown_refl|done]. }
  destruct (vfs_seek_ok _ _ _ _ o L2 L4) as (d & Ed & D1 & D2 & D3); [lia|]. rewrite (bind_ok _ _ _ _ _ (on_files_ok _ _ _ _ Ed)).
  destruct (vfs_read_ok _ _ _ _ phdr_size D1 D3) as (k & d2 & E2 & G1 & G2 & G3 & G4 & G5). rewrite (bind_ok _ _ _ _ _ (on_files_ok _ (set_disk d s) _ _ E2)).
  set (s2 := set_disk d2 (set_disk d s)). assert (grown file a s a s2) as Hg2.
  { split; [done|done|apply kept_refl| |by exists (mach s), d2]. intros g Hg. cbn. rewrite G4 by done. by apply D2. }
  assert (loading P a L file bs (o + k) s2) as Hl2 by by split.
  destruct (decide (Z.of_nat (length (slice bs o k)) ≠ phdr_size)) as [Hk|Hk].
  { exists false, s2, a, L, (o + k). split_and!; try done. }
  assert (k = phdr_size ∧ o + phdr_size ≤ Z.of_nat (length bs)) as [-> Hfit].
  { apply dec_stable in Hk. unfold slice in Hk. rewrite length_take, length_drop in Hk. unfold phdr_size in *. lia. }
  rewrite (decide_True (P := o + phdr_size ≤ _)) by done. set (ph := phdr_of (slice bs o phdr_size)).
  rewrite wraps_small by (unfold in_s, phdr_size in *; lia). destruct (decide (p_type ph = PT_DYNAMIC ∨ p_type ph = PT_INTERP ∨ p_type ph = PT_SHLIB)).
  { exists false, s2, a, L, (o + phdr_size). split_and!; try done. }
  assert (∃ b s3 a3 L3' ps3, (if decide (p_type ph = PT_LOAD) then load_phdr ph file else mret true) s2 = Ok (b, s3) ∧ loading P a3 L3' file bs ps3 s3 ∧ grown file a s2 a3 s3 ∧
    (b = true → (if decide (p_type ph = PT_LOAD) then
        if decide (segment_ok ph (Z.of_nat (length bs))) then L ← add_pages (segment_page bs ph) (seqZ (first_page ph) (page_count ph)) L; image_phdrs n bs (o + phdr_size) L else None
      else image_phdrs n bs (o + phdr_size) L) = image_phdrs n bs (o + phdr_size) L3')) as (b & s3 & a3 & L3' & ps3 & E3 & Hl3 & Hg3 & Hb).
  { destruct (decide (p_type ph = PT_LOAD)); [|exists true, s2, a, L, (o + phdr_size); split_and!; [done|done|apply grown_refl|done]].
    destruct (load_phdr_ok _ _ _ _ _ _ _ ph Hl2 (phdr_of_ok _)) as (b & s3 & a3 & L3' & ps3 & E3 & Hl3 & Hg3 & Hb). exists b, s3, a3, L3', ps3.
    split_and!; try done. intros Hbt. destruct (Hb Hbt) as [Hs Ha]. by rewrite decide_True, Ha by done. }
  rewrite (bind_ok _ _ _ _ _ E3). pose proof (grown_trans _ _ _ _ _ _ _ Hg2 Hg3) as Hg23. destruct b.
  - destruct (IH a3 L3' ps3 s3 (o + phdr_size) Hl3) as (b & s' & a' & L' & ps' & E' & Hl' & Hg' & Hb'); [unfold in_s, phdr_size in *; lia|].
    exists b, s', a', L', ps'. split; [done|]. split; [done|]. split; [by eapply grown_trans|]. intros Hbt. split; [left; lia|]. rewrite (Hb eq_refl). by apply Hb'.
  - exists false, s3, a3, L3', ps3. done.
Qed.

(** ** The stack page *)

Lemma loading_esp P a L file bs ps s v : loading P a L file bs ps s → loading P a L file bs ps (set_esp v s).
Proof. intros []. by split. Qed.

Lemma setup_stack_ok P a L file bs ps s :
  loading P a L file bs ps s →
  ∃ b s2 a', setup_stack s = Ok (b, if (b : bool) then set_esp (PHYS_BASE - 20) s2 else s2) ∧ grown file a s a' s2 ∧
    if b then L !! stack_page = None ∧ loading P a' (<[stack_page := (true, replicate (Z.to_nat PGSIZE) 0)]> L) file bs ps s2 else loading P a' L file bs ps s2.
Proof.
  intros Hl. unfold setup_stack. destruct (take_user_page _ _ _ _ _ _ _ (Z.lor PAL_USER PAL_ZERO) Hl eq_refl) as (k & s1 & E1 & [(-> & Hl1 & Hg1)|(a1 & Hkn & Hk & Hl1 & Hg1 & Hz)]).
  { rewrite (bind_ok _ _ _ _ _ E1). exists false, s1, a. done. }
  rewrite (bind_ok _ _ _ _ _ E1), decide_True by done. assert (bytes_at (bytes a1) k (replicate (Z.to_nat PGSIZE) 0)) as Hc.
  { intros i b [-> Hi]%lookup_replicate. apply Hz; [done|]. lia. }
  destruct (install_page_ok _ _ _ _ _ _ _ k stack_page true (replicate (Z.to_nat PGSIZE) 0) Hl1 Hk) as (b & s3 & E3 & Hb);
    [by rewrite length_replicate, Z2Nat.id by done|exact Hc|vm_compute; split; congruence|].
  change (stack_page * PGSIZE) with (PHYS_BASE - PGSIZE) in E3. rewrite (bind_ok _ _ _ _ _ E3). destruct b.
  - destruct Hb as (HL & a' & Hl' & Hg'). exists true, s3, a'. split; [done|]. split; [by eapply grown_trans|]. done.
  - destruct Hb as [Hl' Hg']. destruct (give_back _ _ _ _ _ _ _ k Hl' Hk) as (s4 & E4 & Hl4 & Hg4). rewrite (bind_ok _ _ _ _ _ E4).
    exists false, s4. eexists. split; [done|]. split; [|done]. eapply grown_trans; [done|]. eapply grown_trans; [|done].
    destruct Hg' as [T1 T2 T3 T4 T5]. split; [done|done|apply kept_loose; by apply kept_loose'|done|done].
Qed.

End load.
