(* ===== verification/ProcessArgs.v ===== *)
(** * The arguments on the stack

    [load_arguments] of userprog/process.c: the string of the command is copied
    to the top of the stack page, cut into tokens there, and below it go the
    pointers to the tokens and the arguments of [main]. *)

From S2P Require Import Prelude Vaddr CString Bitmap Palloc PageDir PageDirSpec PageDirInv PageDirTheorems FileApi Process ProcessSpec ProcessImage ProcessLoad.

(** ** Tokens *)

(** There is a delimiter between two tokens. *)
Lemma words_half D w s : (2 * length (words D w s) ≤ length s + (if decide (w = []) then 1 else 2))%nat.
Proof.
  revert w. induction s as [|c s IH]; intros w; cbn [words length]; [case_decide; simpl; lia|].
  destruct (decide (c ∈ D)).
  - specialize (IH []). rewrite decide_True in IH by done. case_decide; simpl; lia.
  - specialize (IH (w ++ [c])). rewrite decide_False in IH by (by destruct w). case_decide; lia.
Qed.

Section tokens.
  Context (d : Z) (D : list Z).

Lemma no_token m p r sarg save :
  cstr m d D → cstr m p r → words D [] r = [] → (if decide (sarg = NULL) then save else sarg) = p → ∃ q, strtok_r sarg d save m = Ok ((NULL, q), m).
Proof.
  intros HD Hp Hw Hs. destruct (parts_ex D r) as (ds & t & r' & Hpt). pose proof (parts_words _ _ _ _ _ Hpt) as Hpw.
  rewrite (strtok_r_ok d D m p r ds t r') by done. destruct t as [|c t]; [by eexists|congruence].
Qed.

(** The next token is cut off. *)
Lemma next_token m p r w ws sarg save :
  cstr m d D → cstr m p r → words D [] r = w :: ws → d + Z.of_nat (length D) < p ∨ p + Z.of_nat (length r) ≤ d →
  (if decide (sarg = NULL) then save else sarg) = p →
  ∃ q q' r' m', strtok_r sarg d save m = Ok ((q, q'), m') ∧ cstr m' d D ∧ cstr m' q w ∧ cstr m' q' r' ∧ words D [] r' = ws ∧
    p ≤ q ∧ (q + Z.of_nat (length w) < q' ∨ r' = [] ∧ q + Z.of_nat (length w) = q') ∧ q' + Z.of_nat (length r') ≤ p + Z.of_nat (length r) ∧
    dom m' = dom m ∧ ∀ x, x < p ∨ p + Z.of_nat (length r) ≤ x → m' !! x = m !! x.
Proof.
  intros HD Hp Hw Ho Hs. destruct (parts_ex D r) as (ds & t & r' & Hpt). pose proof (parts_words _ _ _ _ _ Hpt) as Hpw.
  rewrite (strtok_r_ok d D m p r ds t r') by done. destruct t as [|c t]; [congruence|]. assert (w = c :: t ∧ ws = words D [] (tail r')) as [-> ->] by (split; congruence).
  pose proof Hpt as (Er & _). assert (length r = length ds + length (c :: t) + length r')%nat as Hl by (rewrite Er, !length_app; lia). destruct r' as [|c' r'].
  - eexists _, _, [], m. split; [done|]. rewrite Er, app_nil_r in Hp. split; [done|]. pose proof (cstr_suffix _ _ _ _ Hp) as H1. split; [done|].
    split; [rewrite <-(app_nil_r (c :: t)) in H1; by apply cstr_suffix in H1|]. split; [done|]. split; [lia|]. split; [by right|]. split; [simpl in *; lia|done].
  - destruct (strtok_cut D m p r ds (c :: t) c' r' Hp Hpt) as [H1 H2]. set (e := p + Z.of_nat (length ds) + Z.of_nat (length (c :: t))) in *.
    assert (p ≤ e ∧ e < p + Z.of_nat (length r)) as He by (cbn [length] in *; unfold e; cbn [length]; lia).
    eexists _, _, r', _. split; [done|]. split; [by apply (cstr_delims d D m p (Z.of_nat (length r)))|]. split; [done|]. split; [done|]. split; [done|]. split; [lia|].
    split; [left; unfold e; lia|]. split; [cbn [length] in *; unfold e; cbn [length]; lia|]. split.
    + apply dom_insert_lookup_L. destruct Hp as (_ & Hb & _). destruct (lookup_lt_is_Some_2 (r ++ [0]) (Z.to_nat (e - p))) as [b Eb]; [rewrite length_app; simpl; lia|].
      apply Hb in Eb. replace (p + Z.of_nat (Z.to_nat (e - p))) with e in Eb by lia. by eexists.
    + intros x Hx. rewrite lookup_insert_ne by lia. done.
Qed.
End tokens.

Section args.
  Context {S : Type} {PA : PageAllocator S} {PL : PageAllocatorLaws S} {PP : PagePool S}.
  Context {F : Type} {FI : Files F} {FL : FilesLaws F}.
  Context (ke : kenv) (d : Z).
  Notation D := [32; 9].

(** A state [s] in which page [k] of memory is the stack page; [with_mem m s]
    is the same state with the memory [m]. *)
Section page.
  Context (P : gset Z) (a : vm) (s : proc S F) (k : Z).
  Hypothesis Hrep : represents ke P a (mach s).
  Hypothesis Hk : kpage_ok k.
  Hypothesis Hmap : mapped (memory_of s) k PGSIZE.
  Hypothesis Hd : d + Z.of_nat (length D) < k ∨ k + PGSIZE ≤ d.
  Implicit Types m : mem.
  Notation same m := (dom m = dom (memory_of s)).

(** The user address of the byte [x] of the page. *)
Definition top : Z := PHYS_BASE - PGSIZE.
Definition uaddr (x : Z) : Z := top + (x - k).

Lemma wm_mapped m x n : same m → k ≤ x → x + n ≤ k + PGSIZE → mapped m x n.
Proof. intros Hm Hx Hn y Hy. apply elem_of_dom. rewrite Hm. apply elem_of_dom, Hmap. lia. Qed.

Lemma wm_mem {A} (f : M mem A) m x m' : same m → f m = Ok (x, m') → on_mem f (with_mem m s) = Ok (x, with_mem m' s).
Proof.
  intros Hm E. rewrite <-(with_mem_twice s m' m). apply on_mem_run. by rewrite (memory_with ke P a s m).
Qed.

Lemma wm_wr32 m x v : same m → k ≤ x → x + 4 ≤ k + PGSIZE →
  on_mach (wr32 x v) (with_mem m s) = Ok (tt, with_mem (store x (le_bytes 4 v) m) s) ∧ same (store x (le_bytes 4 v) m).
Proof.
  intros Hm Hx Hx'. split; [|rewrite store_dom; [done|]; rewrite le_bytes_length; by apply wm_mapped].
  pose proof (memory_with ke P a s m Hrep Hm) as Em. pose proof (wm_mapped m x 4 Hm Hx Hx') as Hmp.
  assert (is_Some (word (memory_of (with_mem m s)) x)) as Hw.
  { rewrite Em. unfold word. destruct (Hmp x) as [? ->]; [lia|]. destruct (Hmp (x + 1)) as [? ->]; [lia|].
    destruct (Hmp (x + 2)) as [? ->]; [lia|]. destruct (Hmp (x + 3)) as [? ->]; [lia|]. by eexists. }
  rewrite (on_mach_ok _ _ _ _ (wr32_ok _ x v Hw)).
  change (Ok (tt, with_mem (store x (le_bytes 4 v) (memory_of (with_mem m s))) (with_mem m s)) = Ok (tt, with_mem (store x (le_bytes 4 v) m) s)).
  by rewrite Em, with_mem_twice.
Qed.

Lemma wm_ktou m x : k ≤ x < k + PGSIZE → on_mach (ktou x (PHYS_BASE - 20)) (with_mem m s) = Ok (uaddr x, with_mem m s).
Proof.
  intros Hx. unfold ktou. destruct Hk as (K1 & K2 & K3). rewrite PGSIZE_eq in *. unfold on_mach, zoom, is_kernel_vaddr. cbn [with_mem set_mach mach].
  rewrite bool_decide_eq_true_2 by lia. cbn. unfold mret, M_ret, uaddr, top. do 2 f_equal.
  rewrite pg_ofs_eq, PGSIZE_eq. change (pg_round_down (PHYS_BASE - 20)) with (PHYS_BASE - 4096). rewrite wrapu_small; [dlia|]. unfold in_u, PHYS_BASE. dlia.
Qed.

Lemma uaddr_range x : k ≤ x < k + PGSIZE → in_u 32 (uaddr x).
Proof. unfold uaddr, top, in_u, PHYS_BASE. rewrite PGSIZE_eq. lia. Qed.

Lemma word_stored m x v : in_u 32 v → word (store x (le_bytes 4 v) m) x = Some v.
Proof. intros Hv. apply word_bytes; [done|apply bytes_at_stored]. Qed.
Lemma stored_out m x v y : y < x ∨ x + 4 ≤ y → store x (le_bytes 4 v) m !! y = m !! y.
Proof. intros Hy. rewrite store_lookup, le_bytes_length, decide_False; [done|lia]. Qed.

(** [p] is a string of the page. *)
Definition page_string m (p : Z) (w : list Z) : Prop := cstr m p w ∧ k ≤ p ∧ p + Z.of_nat (length w) < k + PGSIZE.

Lemma page_string_ext m m' p w lo :
  page_string m p w → lo ≤ p → (∀ x, lo ≤ x → m' !! x = m !! x) → page_string m' p w.
Proof. intros (H1 & H2 & H3) Hlo Hx. split; [|done]. eapply cstr_ext; [exact H1|]. intros x Hy. apply Hx. lia. Qed.

(** The loop over the tokens after the first one. *)
Lemma push_tokens_ok sp argc fuel ws m q r index :
  (length ws < fuel)%nat → same m → cstr m d D → page_string m q r → words D [] r = ws →
  k ≤ sp → sp + 4 * argc + 4 ≤ q → 0 ≤ index → index + Z.of_nat (length ws) = argc →
  ∃ ps m', push_tokens d fuel sp q argc (PHYS_BASE - 20) index (with_mem m s) = Ok (tt, with_mem m' s) ∧ same m' ∧
    Forall2 (page_string m') ps ws ∧ Forall (λ p, q ≤ p) ps ∧ (∀ j p, ps !! j = Some p → word m' (sp + 4 * (index + Z.of_nat j)) = Some (uaddr p)) ∧
    ∀ x, x < sp + 4 * index ∨ sp + 4 * argc ≤ x < q ∨ q + Z.of_nat (length r) ≤ x → m' !! x = m !! x.
Proof.
  revert ws m q r index. induction fuel as [|fuel IH]; intros ws m q r index Hf Hm HD (Hq & Hq1 & Hq2) Hw Hsp Hgap Hi Hargc; [lia|]. cbn [push_tokens].
  destruct ws as [|w ws].
  - destruct (no_token d D m q r NULL q HD Hq Hw eq_refl) as (q' & E). rewrite (bind_ok _ _ _ _ _ (wm_mem _ _ _ _ Hm E)).
    rewrite decide_False by tauto. exists [], m. split; [done|]. split; [done|]. split; [constructor|]. split; [constructor|]. done.
  - destruct (next_token d D m q r w ws NULL q HD Hq Hw ltac:(lia) eq_refl) as (p & q' & r' & m1 & E & HD1 & Hp & Hq' & Hw' & Hqp & Hpq & Hend & Hdom & Hout).
    assert (same m1) as Hm1 by congruence. rewrite (bind_ok _ _ _ _ _ (wm_mem _ _ _ _ Hm E)). cbn [length] in *.
    assert (p + Z.of_nat (length w) ≤ q + Z.of_nat (length r)) as Hpe by (destruct Hpq as [?|[-> ?]]; simpl in *; lia).
    rewrite decide_True by (destruct Hp as (? & _); unfold NULL; lia). rewrite (bind_ok _ _ _ _ _ (wm_ktou m1 p ltac:(lia))).
    destruct (wm_wr32 m1 (sp + 4 * index) (uaddr p) Hm1) as [Ew Hm2]; [lia|lia|]. rewrite (bind_ok _ _ _ _ _ Ew). set (m2 := store _ _ m1) in *.
    assert (∀ x, q ≤ x → m2 !! x = m1 !! x) as Hm2x by (intros x Hx; apply stored_out; lia).
    assert (cstr m2 d D) as HD2.
    { eapply cstr_ext; [exact HD1|]. intros x Hx. apply stored_out. cbn [length] in *. lia. }
    destruct (IH ws m2 q' r' (index + 1)) as (ps & m3 & E3 & Hm3 & Hps & Hge & Hwd & Hx); try done; try lia.
    { apply (page_string_ext m1 _ _ _ q'); [split; [done|lia]|lia|]. intros x Hx. apply Hm2x. destruct Hpq as [?|[_ ?]]; lia. }
    exists (p :: ps), m3. split; [done|]. split; [done|]. split.
    { constructor; [|done]. split; [|lia]. eapply cstr_ext; [exact Hp|]. intros x Hy. rewrite Hx; [apply Hm2x; lia|].
      destruct Hpq as [?|[-> ?]]; [|simpl]; lia. }
    split. { constructor; [done|]. eapply Forall_impl; [done|]. cbn beta. intros y Hy. lia. }
    split.
    + intros [|j] p' Hj; cbn in Hj.
      * injection Hj as <-. rewrite Z.add_0_r. rewrite <-(word_stored m1 (sp + 4 * index) (uaddr p)) by (apply uaddr_range; lia). apply word_ext.
        intros x Hy. apply Hx. lia.
      * replace (index + Z.of_nat (Datatypes.S j)) with (index + 1 + Z.of_nat j) by lia. by apply Hwd.
    + intros x Hy. rewrite Hx; [|destruct Hpq as [?|[_ ?]]; lia]. unfold m2. rewrite stored_out by lia. apply Hout. lia.
Qed.

(** What is on the stack at [sp], as the kernel sees it. *)
Definition stack_is m (sp : Z) (ws : list (list Z)) : Prop :=
  sp mod 16 = 12 ∧ k ≤ sp ∧ sp + 12 ≤ k + PGSIZE ∧ word m sp = Some 0 ∧ word m (sp + 4) = Some (Z.of_nat (length ws)) ∧
  ∃ av, k ≤ av ∧ av + 4 * Z.of_nat (length ws) + 4 ≤ k + PGSIZE ∧ word m (sp + 8) = Some (uaddr av) ∧ word m (av + 4 * Z.of_nat (length ws)) = Some 0 ∧
    ∀ i w, ws !! i = Some w → ∃ p, word m (av + 4 * Z.of_nat i) = Some (uaddr p) ∧ page_string m p w.

Lemma align_loop_ok x : 0 ≤ x < 16 → x mod 4 = 0 → let y := align_loop 2 x in 8 ≤ y ≤ 20 ∧ (y - x) mod 16 = 0.
Proof.
  intros Hx H4. cbv zeta. cbn [align_loop]. assert (x = 0 ∨ x = 4 ∨ x = 8 ∨ x = 12) as [-> | [-> | [-> | ->]]] by dlia; cbn; split; done || lia.
Qed.

(** After the tokens: the null pointer at the end of the array and the arguments of [main]. *)
Lemma push_main m av ws ps (cont : Z → M (proc S F) bool) :
  let argc := Z.of_nat (length ws) in
  same m → k + 24 ≤ av → av + 4 * argc + 4 ≤ k + PGSIZE → av mod 4 = 0 → argc < 2 ^ 31 →
  Forall2 (page_string m) ps ws → Forall (λ p, av + 4 * argc + 4 ≤ p) ps →
  (∀ j p, ps !! j = Some p → word m (av + 4 * Z.of_nat j) = Some (uaddr p)) →
  ∃ m' sp, same m' ∧ stack_is m' sp ws ∧ (∀ x, ¬ (k ≤ x < k + PGSIZE) → m' !! x = m !! x) ∧
    (on_mach (wr32 (av + 4 * argc) NULL);;
     argv ← on_mach (ktou av (PHYS_BASE - 20));
     let alignment_offset := align_loop 2 (av mod 16) in
     let stack_pointer := u32 (av - (alignment_offset + 4)) in
     on_mach (wr32 (stack_pointer + 8) argv);;
     on_mach (wr32 (stack_pointer + 4) argc);;
     on_mach (wr32 stack_pointer NULL);;
     cont stack_pointer) (with_mem m s) = cont sp (with_mem m' s).
Proof.
  intros argc Hm Hav Hend Hal Hargc Hps Hge Hwd. destruct Hk as (K1 & K2 & K3).
  destruct (wm_wr32 m (av + 4 * argc) NULL Hm) as [E1 Hm1]; [lia|lia|]. rewrite (bind_ok _ _ _ _ _ E1). set (m1 := store _ _ m) in *.
  rewrite (bind_ok _ _ _ _ _ (wm_ktou m1 av ltac:(lia))).
  assert (0 ≤ av mod 16 < 16 ∧ (av mod 16) mod 4 = 0) as [A1 A2] by (clear -Hal; dlia). destruct (align_loop_ok (av mod 16) A1 A2) as [Y1 Y2].
  cbv beta zeta. set (y := align_loop 2 (av mod 16)) in *. rewrite wrapu_small by (unfold in_u, PHYS_BASE in *; lia). set (sp := av - (y + 4)) in *.
  destruct (wm_wr32 m1 (sp + 8) (uaddr av) Hm1) as [E2 Hm2]; [lia|lia|]. rewrite (bind_ok _ _ _ _ _ E2). set (m2 := store _ _ m1) in *.
  destruct (wm_wr32 m2 (sp + 4) argc Hm2) as [E3 Hm3]; [lia|lia|]. rewrite (bind_ok _ _ _ _ _ E3). set (m3 := store _ _ m2) in *.
  destruct (wm_wr32 m3 sp NULL Hm3) as [E4 Hm4]; [lia|lia|]. rewrite (bind_ok _ _ _ _ _ E4). set (m4 := store _ _ m3) in *.
  exists m4, sp. split; [done|]. assert (∀ x, sp + 12 ≤ x → m4 !! x = m1 !! x) as Hx.
  { intros x Hx. unfold m4, m3, m2. rewrite !stored_out by lia. done. }
  split; [|split; [|done]].
  2:{ intros x Hy. unfold m4, m3, m2, m1. rewrite !stored_out by lia. done. }
  split; [clear -Y2; unfold sp; dlia|]. split; [lia|]. split; [lia|]. split; [by apply word_stored|]. split.
  { rewrite <-(word_stored m2 (sp + 4) (Z.of_nat (length ws))) by (unfold in_u; fold argc; lia). apply word_ext. intros x Hy. apply stored_out. lia. }
  exists av. split; [lia|]. split; [lia|]. split.
  { rewrite <-(word_stored m1 (sp + 8) (uaddr av)) by (apply uaddr_range; lia). apply word_ext. intros x Hy. unfold m4, m3. rewrite !stored_out by lia. done. }
  split. { change (Some 0) with (Some NULL). rewrite <-(word_stored m (av + 4 * argc) NULL) by done. apply word_ext. intros x Hy. apply Hx. lia. }
  intros i w Hi. destruct (Forall2_lookup_r _ _ _ _ _ Hps Hi) as (p & Hp & Hpw). exists p. apply lookup_lt_Some in Hi. split.
  - rewrite <-(Hwd i p Hp). apply word_ext. intros x Hy. rewrite Hx by lia. apply stored_out. lia.
  - rewrite Forall_lookup in Hge. specialize (Hge i p Hp). apply (page_string_ext m _ _ _ (av + 4 * argc + 4)); [done|done|].
    intros x Hy. rewrite Hx by lia. apply stored_out. lia.
Qed.

(** All tokens of the string at [ua]; the pointers are stored from [av] on. *)
Lemma push_all m ua str av (cont : M (proc S F) bool) :
  let ws := words D [] str in let argc := Z.of_nat (length ws) in
  same m → cstr m d D → page_string m ua str → ws ≠ [] → k ≤ av → av + 4 * argc + 4 ≤ ua →
  ∃ ps m', same m' ∧ Forall2 (page_string m') ps ws ∧ Forall (λ p, av + 4 * argc + 4 ≤ p) ps ∧
    (∀ j p, ps !! j = Some p → word m' (av + 4 * Z.of_nat j) = Some (uaddr p)) ∧ (∀ x, ¬ (k ≤ x < k + PGSIZE) → m' !! x = m !! x) ∧
    ('(token_pointer, save) ← on_mem (strtok_r ua d 0);
     p ← on_mach (ktou token_pointer (PHYS_BASE - 20));
     on_mach (wr32 av p);;
     push_tokens d (Datatypes.S (Datatypes.S (Z.to_nat argc))) av save argc (PHYS_BASE - 20) 1;;
     cont) (with_mem m s) = cont (with_mem m' s).
Proof.
  intros ws argc Hm HD (Hs & Hs1 & Hs2) Hne Hav Hgap. destruct Hk as (K1 & _). destruct ws as [|w ws'] eqn:Ews; [done|]. cbn [length] in argc.
  destruct (next_token d D m ua str w ws' ua 0 HD Hs Ews) as (p & q & r & m1 & E1 & HD1 & Hp & Hq & Hw & Hup & Hpq & Hend & Hdom & Hx1); [lia| |].
  { rewrite decide_False; [done|]. unfold NULL, PHYS_BASE in *. lia. }
  assert (same m1) as Hm1 by congruence. rewrite (bind_ok _ _ _ _ _ (wm_mem _ _ _ _ Hm E1)).
  assert (p + Z.of_nat (length w) ≤ ua + Z.of_nat (length str)) as Hpe by (destruct Hpq as [?|[-> ?]]; simpl in *; lia).
  rewrite (bind_ok _ _ _ _ _ (wm_ktou m1 p ltac:(lia))). destruct (wm_wr32 m1 av (uaddr p) Hm1) as [E2 Hm2]; [lia|lia|]. rewrite (bind_ok _ _ _ _ _ E2).
  set (m2 := store _ _ m1) in *. assert (∀ x, ua ≤ x → m2 !! x = m1 !! x) as Hx2 by (intros x Hx; apply stored_out; lia).
  assert (cstr m2 d D) as HD2. { eapply cstr_ext; [exact HD1|]. intros x Hx. apply stored_out. cbn [length] in *. lia. }
  destruct (push_tokens_ok av argc (Datatypes.S (Datatypes.S (Z.to_nat argc))) ws' m2 q r 1) as (ps & m3 & E3 & Hm3 & Hps & Hge & Hwd & Hx3); try done; try lia.
  { apply (page_string_ext m1 _ _ _ q); [split; [done|lia]|lia|]. intros x Hx. apply Hx2. lia. }
  rewrite (bind_ok _ _ _ _ _ E3). exists (p :: ps), m3. split; [done|]. split.
  { constructor; [|done]. split; [|lia]. eapply cstr_ext; [exact Hp|]. intros x Hy. rewrite Hx3; [apply Hx2; lia|]. destruct Hpq as [?|[-> ?]]; [|simpl]; lia. }
  split. { constructor; [cbn [length]; lia|]. eapply Forall_impl; [done|]. cbn beta. intros y Hy. cbn [length]. lia. }
  split.
  { intros [|j] p' Hj; cbn in Hj.
    - injection Hj as <-. rewrite Z.add_0_r. rewrite <-(word_stored m1 av (uaddr p)) by (apply uaddr_range; lia). apply word_ext. intros x Hy. apply Hx3. lia.
    - replace (Z.of_nat (Datatypes.S j)) with (1 + Z.of_nat j) by lia. by apply Hwd. }
  split; [|done]. intros x Hy. rewrite Hx3 by lia. unfold m2. rewrite stored_out by lia. apply Hx1. lia.
Qed.

Lemma on_mach_same {A} (f : M (mmu S) A) m x : f (mach (with_mem m s)) = Ok (x, mach (with_mem m s)) → on_mach f (with_mem m s) = Ok (x, with_mem m s).
Proof. intros E. by rewrite (on_mach_ok _ _ _ _ E). Qed.

Definition outside m : Prop := ∀ x, ¬ (k ≤ x < k + PGSIZE) → m !! x = memory_of s !! x.

(** The string is copied to [ua]. *)
Lemma copy_argument argument str :
  let n := Z.of_nat (length str) in let ua := k + 4076 - (1 + n) in
  cstr (memory_of s) d D → cstr (memory_of s) argument str → argument + n < k ∨ k + PGSIZE ≤ argument → n < 1023 →
  ∃ m, on_mem (strlcpy ua argument (1 + n)) s = Ok (n, with_mem m s) ∧ same m ∧ outside m ∧ cstr m d D ∧ page_string m ua str.
Proof.
  intros n ua HD Hstr Hout Hlen. destruct Hk as (K1 & K2 & K3). unfold PHYS_BASE in K1.
  assert (mapped (memory_of s) ua (1 + n)) as Hua by (apply wm_mapped; rewrite ?PGSIZE_eq; unfold ua; lia || done).
  pose proof (strlcpy_ok (memory_of s) ua argument str (1 + n) Hstr ltac:(unfold ua; lia) ltac:(lia) Hua ltac:(rewrite PGSIZE_eq in *; unfold ua; lia)) as E.
  rewrite take_ge in E by lia. assert (Z.of_nat (length (str ++ [0])) = 1 + n) as Hl by (rewrite length_app; simpl; lia).
  pose proof (wm_mem _ _ _ _ eq_refl E) as E'. rewrite with_mem_same in E'. eexists. split; [done|]. set (m := store _ _ _) in *.
  assert (∀ x, x < ua ∨ ua + (1 + n) ≤ x → m !! x = memory_of s !! x) as Hx by (intros x Hx; unfold m; rewrite store_lookup, decide_False; [done|lia]).
  split; [apply store_dom; by rewrite Hl|]. split; [intros x Hy; apply Hx; rewrite PGSIZE_eq in *; unfold ua; lia|]. split.
  - eapply cstr_ext; [exact HD|]. intros x Hy. apply Hx. rewrite PGSIZE_eq in *. cbn [length] in *. unfold ua. lia.
  - split; [split_and!; [unfold ua; lia|apply bytes_at_stored|by eapply cstr_chars]|rewrite PGSIZE_eq; unfold ua; lia].
Qed.

Lemma load_arguments_run argument str :
  esp s = PHYS_BASE - 20 → pagedir s ≠ NULL →
  (∀ m, same m → outside m → pagedir_get_page (pagedir s) (PHYS_BASE - 20) (mach (with_mem m s)) = Ok (k + 4076, mach (with_mem m s))) →
  cstr (memory_of s) d D → cstr (memory_of s) argument str → argument + Z.of_nat (length str) < k ∨ k + PGSIZE ≤ argument → words D [] str ≠ [] →
  if decide (Z.of_nat (length str) < 1023) then
    ∃ m sp, load_arguments d argument s = Ok (true, set_esp (uaddr sp) (with_mem m s)) ∧ same m ∧ outside m ∧ stack_is m sp (words D [] str)
  else load_arguments d argument s = Ok (false, s).
Proof.
  intros He Hpd Hlook HD Hstr Hout Hne. unfold load_arguments. pose proof Hstr as (Harg & _). rewrite (decide_False (P := argument = NULL)) by (unfold NULL; lia).
  rewrite !(bind_ok _ _ _ _ _ eq_refl), He.
  assert (∀ m, same m → outside m → on_mach (utok (pagedir s) (PHYS_BASE - 20)) (with_mem m s) = Ok (k + 4076, with_mem m s)) as Hutok.
  { intros m Hm Ho. apply on_mach_same. unfold utok. rewrite bool_decide_eq_true_2 by done. rewrite user_vaddr by done. rewrite !(bind_ok _ _ _ _ _ eq_refl). by apply Hlook. }
  pose proof (Hutok (memory_of s) eq_refl ltac:(by intros x)) as E0. rewrite with_mem_same in E0. rewrite (bind_ok _ _ _ _ _ E0).
  pose proof (wm_mem _ _ _ _ eq_refl (strnlen_ok _ _ _ 1024 Hstr ltac:(lia))) as E1. rewrite with_mem_same in E1. rewrite (bind_ok _ _ _ _ _ E1).
  destruct (decide (Z.of_nat (length str) < 1023)) as [Hlen|Hlen].
  2:{ rewrite wrapu_small by (unfold in_u; lia). by rewrite decide_True by lia. }
  destruct (copy_argument argument str HD Hstr Hout Hlen) as (m1 & E2 & Hm1 & Ho1 & HD1 & Hs1). set (n := Z.of_nat (length str)) in *.
  rewrite Z.min_l by lia. rewrite (wrapu_small 32 (1 + n)) by (unfold in_u; lia). rewrite (decide_False (P := 1 + n >= 1024)) by lia.
  pose proof Hk as (K1 & K2 & K3). rewrite PGSIZE_eq in K2, K3. unfold PHYS_BASE in K1. rewrite (wrapu_small 32 (k + 4076 - (1 + n))) by (unfold in_u; lia).
  set (ua := k + 4076 - (1 + n)) in *. rewrite (bind_ok _ _ _ _ _ E2). pose proof Hs1 as (Hc1 & _).
  rewrite (bind_ok _ _ _ _ _ (wm_mem _ _ _ _ Hm1 (strtok_c_ok d D m1 ua str HD1 Hc1 ltac:(lia)))).
  pose proof (words_half D [] str) as Hhalf. rewrite decide_True in Hhalf by done. set (ws := words D [] str) in *. set (argc := Z.of_nat (length ws)) in *.
  rewrite wraps_small by (done || unfold in_s; lia). rewrite (wrapu_small 32 (ua - ua mod 4)) by (unfold in_u, ua; dlia).
  set (lo := ua - ua mod 4). assert (ua - 3 ≤ lo ≤ ua ∧ lo mod 4 = 0) as [Hlo Hlo4] by (unfold lo; dlia).
  rewrite (wrapu_small 32 (lo - 4 * argc - 4)) by (unfold in_u, ua in *; lia). set (av := lo - 4 * argc - 4).
  assert (k + 24 ≤ av ∧ av mod 4 = 0) as [Hav Hav4] by (split; [unfold ua, av in *; lia|clear -Hlo4; unfold av; dlia]).
  set (finish := λ stack_pointer : Z, (
    x ← on_mach (utok (pagedir s) (PHYS_BASE - 20));
    let difference := u32 (x - stack_pointer) in
    modify (set_esp (u32 (PHYS_BASE - 20 - difference)));;
    mret true) : M (proc S F) bool).
  destruct (push_all m1 ua str av (on_mach (wr32 (av + 4 * argc) NULL);;
     argv ← on_mach (ktou av (PHYS_BASE - 20));
     let alignment_offset := align_loop 2 (av mod 16) in
     let stack_pointer := u32 (av - (alignment_offset + 4)) in
     on_mach (wr32 (stack_pointer + 8) argv);;
     on_mach (wr32 (stack_pointer + 4) argc);;
     on_mach (wr32 stack_pointer NULL);;
     finish stack_pointer) Hm1 HD1 Hs1 Hne) as (ps & m2 & Hm2 & Hps & Hge & Hwd & Hx2 & E3); [lia|fold ws argc; unfold av; lia|].
  destruct (push_main m2 av ws ps finish Hm2 Hav) as (m3 & sp & Hm3 & Hst & Hx3 & E4); [fold argc; rewrite PGSIZE_eq; unfold ua, av in *; lia|done|fold argc; lia|done|done|done|].
  pose proof Hst as (_ & Hsp1 & Hsp2 & _). rewrite PGSIZE_eq in Hsp2. assert (outside m3) as Ho3 by (intros x Hx; rewrite Hx3, Hx2 by done; by apply Ho1).
  exists m3, sp. split; [|done]. etransitivity; [exact E3|]. etransitivity; [exact E4|]. unfold finish. rewrite (bind_ok _ _ _ _ _ (Hutok m3 Hm3 Ho3)).
  rewrite !(bind_ok _ _ _ _ _ eq_refl). unfold mret, M_ret. do 2 f_equal. f_equal. unfold uaddr, top. rewrite PGSIZE_eq.
  unfold wrapu at 1 2. rewrite Zminus_mod_idemp_r. rewrite Z.mod_small by (unfold PHYS_BASE; lia). lia.
Qed.

(** Without a token there is no pointer to convert. *)
Lemma load_arguments_blank argument str :
  esp s = PHYS_BASE - 20 → pagedir s ≠ NULL →
  (∀ m, same m → outside m → pagedir_get_page (pagedir s) (PHYS_BASE - 20) (mach (with_mem m s)) = Ok (k + 4076, mach (with_mem m s))) →
  cstr (memory_of s) d D → cstr (memory_of s) argument str → argument + Z.of_nat (length str) < k ∨ k + PGSIZE ≤ argument → words D [] str = [] →
  Z.of_nat (length str) < 1023 → load_arguments d argument s = Err AssertFailed.
Proof.
  intros He Hpd Hlook HD Hstr Hout Hne Hlen. unfold load_arguments. pose proof Hstr as (Harg & _). rewrite (decide_False (P := argument = NULL)) by (unfold NULL; lia).
  rewrite !(bind_ok _ _ _ _ _ eq_refl), He.
  assert (on_mach (utok (pagedir s) (PHYS_BASE - 20)) s = Ok (k + 4076, s)) as E0.
  { assert (on_mach (utok (pagedir s) (PHYS_BASE - 20)) (with_mem (memory_of s) s) = Ok (k + 4076, with_mem (memory_of s) s)) as E; [|by rewrite with_mem_same in E].
    apply on_mach_same. unfold utok. rewrite bool_decide_eq_true_2 by done. rewrite user_vaddr by done. rewrite !(bind_ok _ _ _ _ _ eq_refl). by apply Hlook. }
  rewrite (bind_ok _ _ _ _ _ E0). pose proof (wm_mem _ _ _ _ eq_refl (strnlen_ok _ _ _ 1024 Hstr ltac:(lia))) as E1. rewrite with_mem_same in E1. rewrite (bind_ok _ _ _ _ _ E1).
  destruct (copy_argument argument str HD Hstr Hout Hlen) as (m1 & E2 & Hm1 & Ho1 & HD1 & Hs1). set (n := Z.of_nat (length str)) in *.
  rewrite Z.min_l by lia. rewrite (wrapu_small 32 (1 + n)) by (unfold in_u; lia). rewrite (decide_False (P := 1 + n >= 1024)) by lia.
  pose proof Hk as (K1 & K2 & K3). rewrite PGSIZE_eq in K2, K3. unfold PHYS_BASE in K1. rewrite (wrapu_small 32 (k + 4076 - (1 + n))) by (unfold in_u; lia).
  set (ua := k + 4076 - (1 + n)) in *. rewrite (bind_ok _ _ _ _ _ E2). pose proof Hs1 as (Hc1 & Hu1 & _).
  rewrite (bind_ok _ _ _ _ _ (wm_mem _ _ _ _ Hm1 (strtok_c_ok d D m1 ua str HD1 Hc1 ltac:(lia)))).
  destruct (no_token d D m1 ua str ua 0 HD1 Hc1 Hne) as (q & E3); [rewrite decide_False; [done|unfold NULL; lia]|].
  rewrite (bind_ok _ _ _ _ _ (wm_mem _ _ _ _ Hm1 E3)). apply bind_err. done.
Qed.

End page.

(** The stack as the program sees it. *)
Section view.
  Context (L : layout) (m : mem) (k : Z) (w : bool).
  Hypothesis Hmap : mapped m k PGSIZE.
Let L' : layout := <[stack_page := (w, bytes_of m k PGSIZE)]> L.

Lemma stack_byte x : k ≤ x < k + PGSIZE → image_byte L' (uaddr k x) = m !! x.
Proof.
  intros Hx. unfold image_byte. assert (uaddr k x / PGSIZE = stack_page ∧ uaddr k x mod PGSIZE = x - k) as [-> ->].
  { unfold uaddr, top. change stack_page with 0xbffff. unfold PHYS_BASE. rewrite PGSIZE_eq in *. split; dlia. }
  unfold L'. rewrite lookup_insert_eq. cbn. rewrite bytes_of_lookup by (done || lia). f_equal. lia.
Qed.

Lemma stack_word x : k ≤ x → x + 4 ≤ k + PGSIZE → image_word L' (uaddr k x) = word m x.
Proof.
  intros H1 H2. unfold image_word, word. replace (uaddr k x + 1) with (uaddr k (x + 1)) by (unfold uaddr; lia).
  replace (uaddr k x + 2) with (uaddr k (x + 2)) by (unfold uaddr; lia). replace (uaddr k x + 3) with (uaddr k (x + 3)) by (unfold uaddr; lia).
  rewrite !stack_byte by lia. by destruct (m !! x), (m !! (x + 1)), (m !! (x + 2)), (m !! (x + 3)).
Qed.

Lemma stack_string p str : page_string k m p str → image_string L' (uaddr k p) str.
Proof.
  intros ((_ & Hb & _) & H1 & H2) i b Hi. replace (uaddr k p + Z.of_nat i) with (uaddr k (p + Z.of_nat i)) by (unfold uaddr; lia).
  apply lookup_lt_Some in Hi as Hlt. rewrite length_app in Hlt. simpl in Hlt. rewrite stack_byte by lia. by apply Hb.
Qed.

Lemma stack_start sp ws : k mod PGSIZE = 0 → stack_is k m sp ws → start_stack L' (uaddr k sp) ws.
Proof.
  intros Hk (S1 & S2 & S3 & S4 & S5 & av & A1 & A2 & A3 & A4 & A5). assert (∀ x n, uaddr k x + n = uaddr k (x + n)) as Hu by (intros; unfold uaddr; lia). split.
  - unfold uaddr, top. rewrite PGSIZE_eq in *. unfold PHYS_BASE. dlia.
  - unfold uaddr, top. change stack_page with 0xbffff. unfold PHYS_BASE. rewrite PGSIZE_eq in *. dlia.
  - by rewrite stack_word by lia.
  - rewrite Hu. by rewrite stack_word by lia.
  - exists (uaddr k av). rewrite !Hu, !stack_word by lia. split; [done|]. split; [done|]. intros i w' Hi. apply lookup_lt_Some in Hi as Hlt.
    destruct (A5 i w' Hi) as (p & Hp & Hs). exists (uaddr k p). rewrite Hu, stack_word by lia. split; [done|]. by apply stack_string.
Qed.
End view.

Lemma load_arguments_ok P a L file bs ps s st argument str :
  loading ke P a L file bs ps s → L !! stack_page = Some (true, st) → esp s = PHYS_BASE - 20 →
  cstr (kernel ke) d D → cstr (kernel ke) argument str → words D [] str ≠ [] →
  if decide (Z.of_nat (length str) < 1023) then
    ∃ sp s2 a' st', let L' := <[stack_page := (true, st')]> L in
      load_arguments d argument s = Ok (true, set_esp sp s2) ∧ grown file a s a' s2 ∧ loading ke P a' L' file bs ps s2 ∧ start_stack L' sp (words D [] str)
  else load_arguments d argument s = Ok (false, s).
Proof.
  intros [L1 L2 L3 L4] HL He HD Hstr Hne. assert (0 ≤ PHYS_BASE - 20 < PHYS_BASE) as Hva by done. change stack_page with ((PHYS_BASE - 20) / PGSIZE) in HL.
  destruct (img_frame _ _ _ _ _ _ _ _ _ L1 L3 Hva HL) as (k & El & Hk & Hmap & _ & _ & Hap & Hch). change ((PHYS_BASE - 20) mod PGSIZE) with 4076 in *.
  assert (pagedir s ≠ NULL) as Hpd. { destruct L3 as (sp & Hsp & _), L1 as (O & G & Hv). apply (pd_page _ _ _ _ _ _ _ Hv). by eexists. }
  assert (∀ m, dom m = dom (memory_of s) → outside s k m →
    pagedir_get_page (pagedir s) (PHYS_BASE - 20) (mach (with_mem m s)) = Ok (k + 4076, mach (with_mem m s))) as Hlook.
  { intros m Hm Ho. destruct (Hch m Hm Ho) as (a' & _ & _ & _ & _ & _ & E). exact E. }
  pose proof (load_arguments_run P a s k L1 Hk Hmap (cstr_apart _ _ _ _ HD Hap) argument str He Hpd Hlook (rep_cstr _ _ _ _ _ _ L1 HD) (rep_cstr _ _ _ _ _ _ L1 Hstr)
    (cstr_apart _ _ _ _ Hstr Hap) Hne) as Hrun.
  case_decide as Hlen; [|done]. destruct Hrun as (m & sp & E & Hm & Ho & Hst). destruct (Hch m Hm Ho) as (a' & A1 & A2 & A3 & A4 & A5 & _).
  exists (uaddr k sp), (with_mem m s), a', (bytes_of m k PGSIZE). cbv zeta. split; [done|]. split.
  { split; [done|done|done|by intros g|by eexists _, (disk s)]. }
  split; [by split|]. apply stack_start; [|apply Hk|done]. intros x Hx. apply elem_of_dom. rewrite Hm. by apply elem_of_dom, Hmap.
Qed.

(** A command line of blanks and tabs only stops the kernel: [load_arguments]
    asks for the user address of the null pointer. *)
Lemma load_arguments_asserts P a L file bs ps s st argument str :
  loading ke P a L file bs ps s → L !! stack_page = Some (true, st) → esp s = PHYS_BASE - 20 →
  cstr (kernel ke) d D → cstr (kernel ke) argument str → words D [] str = [] → Z.of_nat (length str) < 1023 →
  load_arguments d argument s = Err AssertFailed.
Proof.
  intros [L1 L2 L3 L4] HL He HD Hstr Hne Hlen. assert (0 ≤ PHYS_BASE - 20 < PHYS_BASE) as Hva by done. change stack_page with ((PHYS_BASE - 20) / PGSIZE) in HL.
  destruct (img_frame _ _ _ _ _ _ _ _ _ L1 L3 Hva HL) as (k & El & Hk & Hmap & _ & _ & Hap & Hch). change ((PHYS_BASE - 20) mod PGSIZE) with 4076 in *.
  assert (pagedir s ≠ NULL) as Hpd. { destruct L3 as (sp & Hsp & _), L1 as (O & G & Hv). apply (pd_page _ _ _ _ _ _ _ Hv). by eexists. }
  apply (load_arguments_blank P a s k L1 Hk Hmap (cstr_apart _ _ _ _ HD Hap) argument str); try done;
    [|exact (rep_cstr _ _ _ _ _ _ L1 HD)|exact (rep_cstr _ _ _ _ _ _ L1 Hstr)|exact (cstr_apart _ _ _ _ Hstr Hap)].
  intros m Hm Ho. destruct (Hch m Hm Ho) as (a' & _ & _ & _ & _ & _ & E). exact E.
Qed.

End args.
