(* ===== verification/ProcessTheorems.v ===== *)
(** * Theorems on the loader

    [load] returns for every file, keeps the machine consistent, and when it
    succeeds, the program finds its segments and its arguments in memory, as it
    sees memory through the processor. *)

From S2P Require Import Prelude Vaddr CString Bitmap Palloc PageDir PageDirSpec PageDirInv PageDirTheorems FileApi Process ProcessSpec ProcessImage ProcessLoad ProcessArgs.

(** The bytes before the first [c]. *)
Fixpoint before (c : Z) (str : list Z) : list Z :=
  match str with [] => [] | b :: str => if decide (b = c) then [] else b :: before c str end.

Lemma before_parts c str : ∃ r, str = before c str ++ r ∧ c ∉ before c str ∧ match r with [] => True | b :: _ => b ∈ [c] end.
Proof.
  induction str as [|b str (r & E & Hn & Hr)]; [exists []; split; [done|]; split; [apply not_elem_of_nil|done]|]. cbn. destruct (decide (b = c)) as [->|Hb].
  - exists (c :: str). split; [done|]. split; [apply not_elem_of_nil|by left].
  - exists r. split; [cbn; by rewrite <-E|]. split; [|done]. rewrite elem_of_cons. naive_solver.
Qed.

Section theorems.
  Context {S : Type} {PA : PageAllocator S} {PL : PageAllocatorLaws S} {PP : PagePool S}.
  Context {F : Type} {FI : Files F} {FL : FilesLaws F}.
  Implicit Types (ke : kenv) (a : vm) (P : gset Z) (L : layout).

(** ** What a program sees *)

Lemma holds_access ke P a (s : mmu S) L w va :
  represents ke P a s → holds a (active a) L → 0 ≤ va < PHYS_BASE →
  match L !! (va / PGSIZE) with
  | None => access w va a = None
  | Some (wr, bs) => ∃ sp e, mapping sp va = Some e ∧ page_is a wr bs e ∧ spaces a !! active a = Some sp ∧
      access w va a = if w && negb wr then None else Some (sp, e)
  end.
Proof.
  intros Hr Hh Hva. pose proof (img_lookup _ _ _ _ _ _ _ Hr Hh Hva) as Hl. destruct (L !! (va / PGSIZE)) as [[wr bs]|].
  - destruct Hl as (sp & e & Hsp & Hm & Hp & _). exists sp, e. split_and!; try done. unfold access. rewrite Hsp. cbn. rewrite Hm. cbn.
    apply mapping_entry in Hm as [_ Hpr]. destruct Hp as [P1 P2 _ _]. unfold user_ok. unfold present in Hpr. rewrite !(bool_decide_eq_true_2 _) by done. cbn.
    destruct w, wr; cbn; try done.
    + rewrite bool_decide_eq_true_2 by by apply P2. done.
    + rewrite bool_decide_eq_false_2; [done|]. intros H. by apply P2 in H.
  - destruct Hr as (O & G & Hv), Hh as (sp & Hsp & _). rewrite (pagedir_get_page_ok _ _ _ _ _ _ _ _ _ Hv Hsp Hva) in Hl. unfold access. rewrite Hsp. cbn.
    destruct (mapping sp va) as [e|] eqn:Em; [|done]. injection Hl as Hl. apply mapping_entry in Em as [Ee Hp].
    pose proof (frame_owned O G a _ sp _ e (vr_owns _ _ _ _ _ _ Hv) Hsp Ee Hp) as Hf. destruct (owned_page _ _ _ _ _ _ _ Hv ltac:(by eexists)) as ((H1 & _) & _).
    pose proof (ofs_range va). unfold NULL, PHYS_BASE in *. lia.
Qed.

Lemma img_user_read ke P a (s : mmu S) L va :
  represents ke P a s → holds a (active a) L → 0 ≤ va < PHYS_BASE → ∃ t, user_read va s = Ok (image_byte L va, t).
Proof.
  intros Hr Hh Hva. pose proof (holds_access _ _ _ _ _ false va Hr Hh Hva) as Ha. destruct (vm_read _ _ _ _ va Hr Hva) as (r & s' & a' & E & Hs & _).
  cbn [exec] in E. apply bind_inv in E as (b & t & E & E'). injection E' as <- <-. exists t. rewrite E. do 2 f_equal. unfold image_byte.
  inversion Hs as [| | | | | | | | | | | | | | | | | |? sp e x Hac Hb|? Hac| | |]; subst.
  - destruct (L !! (va / PGSIZE)) as [[w bs]|]; [|congruence]. destruct Ha as (sp' & e' & _ & Hp & _ & Ha). cbn in Ha. rewrite Hac in Ha. injection Ha as <- <-. cbn.
    assert (0 ≤ va mod PGSIZE < PGSIZE) as Hofs by (rewrite PGSIZE_eq; dlia). destruct (lookup_lt_is_Some_2 bs (Z.to_nat (va mod PGSIZE))) as [y Hy].
    { pose proof (pi_length _ _ _ _ Hp). lia. }
    rewrite Hy. apply (pi_bytes _ _ _ _ Hp) in Hy. rewrite pg_ofs_eq in Hb. rewrite Z2Nat.id in Hy by lia. congruence.
  - destruct (L !! (va / PGSIZE)) as [[w bs]|]; [|done]. destruct Ha as (sp' & e' & _ & _ & _ & Ha). cbn in Ha. congruence.
Qed.

Lemma img_user_write ke P a (s : mmu S) L va c :
  represents ke P a s → holds a (active a) L → 0 ≤ va < PHYS_BASE → ∃ t, user_write va c s = Ok (image_writable L va, t).
Proof.
  intros Hr Hh Hva. pose proof (holds_access _ _ _ _ _ true va Hr Hh Hva) as Ha. destruct (vm_write _ _ _ _ va c Hr Hva) as (r & s' & a' & E & Hs & _).
  cbn [exec] in E. apply bind_inv in E as (b & t & E & E'). injection E' as <- <-. exists t. rewrite E. do 2 f_equal. unfold image_writable.
  inversion Hs as [| | | | | | | | | | | | | | | | | | | |? ? sp e Hac|? ? Hac|]; subst.
  - destruct (L !! (va / PGSIZE)) as [[[] bs]|]; [done| |congruence]. destruct Ha as (sp' & e' & _ & _ & _ & Ha). cbn in Ha. congruence.
  - destruct (L !! (va / PGSIZE)) as [[[] bs]|]; [|done..]. destruct Ha as (sp' & e' & _ & _ & _ & Ha). cbn in Ha. congruence.
Qed.

(** ** load *)

Section load.
  Context (ke : kenv) (space delimiters : Z).
  Notation D := [32; 9].
  Implicit Types s : proc S F.

Lemma read_only P a s {A} (f : M mem A) x : represents ke P a (mach s) → f (memory_of s) = Ok (x, memory_of s) → on_mem f s = Ok (x, s).
Proof. intros Hr E. pose proof (on_mem_run f s x _ E) as E'. by rewrite with_mem_same in E'. Qed.

(** A new directory, which becomes the active one. *)
Lemma new_directory P a s :
  represents ke P a (mach s) →
  ∃ pd t, on_mach pagedir_create s = Ok (pd, set_mach t s) ∧
    (pd = NULL ∧ represents ke P a t ∨
     pd ≠ NULL ∧ spaces a !! pd = None ∧ ∃ t', process_activate (set_pagedir pd (set_mach t s)) = Ok (tt, set_esp0 (u32 (current s + PGSIZE)) (set_mach t' (set_pagedir pd s))) ∧
       ∃ a', represents ke P a' t' ∧ loose a' = loose a ∧ active a' = pd ∧ holds a' pd ∅ ∧ kept pd a a').
Proof.
  intros Hr. destruct (vm_create _ _ _ _ Hr) as (pd & t & a1 & E & Hr1 & Hs). exists pd, t. split; [by apply on_mach_ok|].
  inversion Hs as [| | | | |? Hn Hnone Hna| | | | | | | | | | | | | | | | |]; subst; [by left|right]. split; [done|]. split; [done|].
  destruct (vm_activate _ _ _ _ pd Hr1) as (r & t' & a2 & E2 & Hs2 & Hr2). { right. cbn. rewrite lookup_insert_eq. by eexists. }
  cbn [exec] in E2. apply bind_inv in E2 as ([] & t2 & E2 & E2'). injection E2' as <- <-. exists t2. split.
  { unfold process_activate. rewrite (bind_ok _ _ _ _ _ eq_refl). by rewrite (bind_ok _ _ _ _ _ (on_mach_ok _ (set_pagedir pd (set_mach t s)) _ _ E2)). }
  inversion Hs2 as [| | | | | | | | | | | | | | | | |? d Hd _| | | | |]; subst. exists (Vm (<[pd := Space ∅ ∅]> (spaces a)) (loose a) (bytes a) d). split; [done|]. split; [done|].
  split; [by apply Hd|]. split.
  - exists (Space ∅ ∅). split; [cbn; by rewrite lookup_insert_eq|]. intros n _. by rewrite lookup_empty.
  - intros q Hq. split; [cbn; by rewrite lookup_insert_ne|]. intros L Hh. apply (holds_ext a); [done| |done]. cbn. by rewrite lookup_insert_ne.
Qed.

(** [open_process_executable]. *)
Lemma open_executable s name :
  vfs_ok (disk s) → 0 ∉ name →
  ∃ f d, open_process_executable name s = Ok (f, set_disk d s) ∧ vfs_ok d ∧ others_kept f (disk s) d ∧
    (f = NULL ∧ (∀ g, vfs_view d g = vfs_view (disk s) g) ∨ f ≠ NULL ∧ ∃ bs, vfs_view d f = Some (bs, 0) ∧ vfs_named (disk s) name bs).
Proof.
  intros Hok Hz. unfold open_process_executable. destruct (vfs_open_ok _ _ Hok Hz) as (f & d & E & Hd & Hf). rewrite (bind_ok _ _ _ _ _ (on_files_ok _ _ _ _ E)).
  destruct (decide (f = NULL)) as [->|Hn].
  - rewrite decide_False by tauto. exists NULL, d. split; [done|]. split; [done|]. split; [by intros g _|]. by left.
  - rewrite decide_True by done. destruct Hf as (_ & Ho & bs & Hv & Hnm). destruct (vfs_deny_ok _ f Hd ltac:(by eexists)) as (d' & E' & Hd' & Hv').
    rewrite (bind_ok _ _ _ _ _ (on_files_ok _ (set_disk d s) _ _ E')). exists f, d'. split; [done|]. split; [done|]. split; [intros g Hg; rewrite Hv'; by apply Ho|]. right. split; [done|]. exists bs. by rewrite Hv'.
Qed.

(** The first header is read from the start of the file. *)
Lemma ehdr_prefix bs : ehdr_size ≤ Z.of_nat (length bs) → ehdr_of (slice bs 0 ehdr_size) = ehdr_of bs.
Proof.
  intros Hl. unfold ehdr_of, Elf32_Half, Elf32_Word, ehdr_size in *. rewrite !slice_slice by lia. done.
Qed.
(** From the program headers on. *)
Lemma load_body P a file bs ps s n o str file_name entry :
  loading ke P a ∅ file bs ps s → in_s 32 o →
  cstr (kernel ke) delimiters D → cstr (kernel ke) file_name str → words D [] str ≠ [] →
  let rest := (ok ← load_phdrs n file o;
    if negb ok then mret false else
    ok ← setup_stack;
    if negb ok then mret false else
    ok ← load_arguments delimiters file_name;
    if negb ok then mret false else
    modify (set_eip entry);; mret true) in
  ∃ b s2 a' L' ps' sp, grown file a s a' s2 ∧ loading ke P a' L' file bs ps' s2 ∧
    if (b : bool) then rest s = Ok (true, set_eip entry (set_esp sp s2)) ∧ start_stack L' sp (words D [] str) ∧ (0 ≤ o ∨ n = 0%nat) ∧
      ∃ L st, image_phdrs n bs o ∅ = Some L ∧ L !! stack_page = None ∧ L' = <[stack_page := (true, st)]> L
    else ∃ e, rest s = Ok (false, set_esp e s2).
Proof.
  intros Hl Ho HD Hf Hne rest. assert (∀ s0 : proc S F, set_esp (esp s0) s0 = s0) as He by by intros [].
  destruct (load_phdrs_ok ke P file bs n a ∅ ps s o Hl Ho) as (b1 & s1 & a1 & L1 & ps1 & E1 & Hl1 & Hg1 & Hb1). unfold rest. rewrite (bind_ok _ _ _ _ _ E1).
  destruct b1; cbn [negb]; [|exists false, s1, a1, L1, ps1, 0; split; [done|]; split; [done|]; exists (esp s1); by rewrite He].
  destruct (Hb1 eq_refl) as [Ho1 Hi]. destruct (setup_stack_ok _ _ _ _ _ _ _ _ Hl1) as (b2 & s2 & a2 & E2 & Hg2 & Hb2). rewrite (bind_ok _ _ _ _ _ E2).
  pose proof (grown_trans _ _ _ _ _ _ _ Hg1 Hg2) as Hg12. destruct b2; cbn [negb].
  2:{ exists false, s2, a2, L1, ps1, 0. split; [done|]. split; [done|]. exists (esp s2). by rewrite He. }
  destruct Hb2 as [HL Hl2]. pose proof (load_arguments_ok ke delimiters P a2 _ file bs ps1 (set_esp (PHYS_BASE - 20) s2) _ file_name str
    (loading_esp _ _ _ _ _ _ _ _ _ Hl2) (lookup_insert_eq _ _ _) eq_refl HD Hf Hne) as Ha. case_decide as Hlen.
  - destruct Ha as (sp & s3 & a3 & st & E3 & [G1 G2 G3 G4 (m3 & d3 & ->)] & Hl3 & Hst). rewrite (bind_ok _ _ _ _ _ E3). cbn [negb]. rewrite insert_insert_eq in Hl3, Hst.
    exists true, (set_disk d3 (set_mach m3 s2)), a3, (<[stack_page := (true, st)]> L1), ps1, sp. split.
    { eapply grown_trans; [exact Hg12|]. split; [done|done|done|done|by exists m3, d3]. }
    split; [by destruct Hl3|]. split; [done|]. split; [done|]. split; [done|]. exists L1, st. done.
  - rewrite (bind_ok _ _ _ _ _ Ha). exists false, s2, a2. eexists _, ps1, 0. split; [done|]. split; [exact Hl2|]. by exists (PHYS_BASE - 20).
Qed.

(** What [load] leaves behind. *)
Record loaded P a s b s' (file_name : Z) (str : list Z) a' : Prop := {
  lo_rep : represents ke P a' (mach s');
  lo_disk : vfs_ok (disk s');
  lo_loose : loose a' = loose a;
  lo_kept : kept (pagedir s') a a';
  lo_others g : g ≠ process_executable s' → vfs_view (disk s') g = vfs_view (disk s) g;
  lo_success : b = true → ∃ bs ps L entry st, let L' := <[stack_page := (true, st)]> L in
    vfs_named (disk s) (before 32 str) bs ∧ vfs_view (disk s') (process_executable s') = Some (bs, ps) ∧ elf_image bs = Some (L, entry) ∧
    L !! stack_page = None ∧ eip s' = entry ∧ start_stack L' (esp s') (words D [] str) ∧ active a' = pagedir s' ∧ holds a' (pagedir s') L'
}.

Lemma name_ok P a s file_name str :
  represents ke P a (mach s) → cstr (kernel ke) space [32] → cstr (kernel ke) file_name str →
  let n := Z.of_nat (length (before 32 str)) in
  on_mem (strcspn file_name space) s = Ok (n, s) ∧ on_mem (strlcpy_local file_name (n + 1)) s = Ok (before 32 str, s) ∧ 0 ∉ before 32 str.
Proof.
  intros Hr Hsp Hf n. destruct (before_parts 32 str) as (r & Er & Hn & Hh). pose proof (rep_cstr _ _ _ _ _ _ Hr Hf) as Hf'. pose proof Hf' as Hf2. rewrite Er in Hf'.
  split_and!.
  - apply (read_only P a); [done|]. apply (strcspn_ok _ _ _ _ r [32]); [by apply (rep_cstr ke P a)|done| |done].
    apply Forall_forall. intros c Hc Hin%list_elem_of_singleton. by subst.
  - apply (read_only P a); [done|]. unfold strlcpy_local. rewrite (bind_ok _ _ _ _ _ (strlen_ok _ _ _ Hf2)).
    replace (Z.to_nat (Z.of_nat (length str) `min` (n + 1 - 1))) with (length (before 32 str)).
    + apply read_bytes_ok. destruct Hf' as (_ & Hb & _). rewrite <-app_assoc in Hb. by apply bytes_at_app in Hb as [? _].
    + rewrite Er at 2. rewrite length_app. unfold n. lia.
  - intros Hz. apply cstr_chars in Hf2. rewrite Er, Forall_app, !Forall_forall in Hf2. destruct Hf2 as [Hc _]. apply Hc in Hz. lia.
Qed.

Lemma load_ok P a s file_name str :
  represents ke P a (mach s) → vfs_ok (disk s) → cstr (kernel ke) space [32] → cstr (kernel ke) delimiters D → cstr (kernel ke) file_name str →
  Z.of_nat (length str) < 2 ^ 31 → words D [] str ≠ [] →
  ∃ b s' a', load space delimiters file_name s = Ok (b, s') ∧ loaded P a s b s' file_name str a'.
Proof.
  intros Hr Hok Hsp HD Hf Hlen Hne. unfold load. destruct (new_directory P a s Hr) as (pd & t & E1 & Hcase). rewrite (bind_ok _ _ _ _ _ E1), (bind_ok _ _ _ _ _ eq_refl).
  destruct Hcase as [[-> Hr1]|(Hn & Hnone & t1 & E2 & a1 & Hr1 & Hlo1 & Ha1 & Hh1 & Hk1)].
  { rewrite decide_True by done. exists false. eexists _, a. split; [done|]. split; done. }
  rewrite decide_False by done. rewrite (bind_ok _ _ _ _ _ E2). set (s1 := set_esp0 _ _) in *.
  destruct (name_ok P a1 s1 file_name str Hr1 Hsp Hf) as (E3 & E4 & Hz). rewrite (bind_ok _ _ _ _ _ E3). destruct (before_parts 32 str) as (r & Er & _).
  assert (length (before 32 str) ≤ length str)%nat as Hbl by (rewrite Er at 2; rewrite length_app; lia). rewrite wraps_small by (done || unfold in_s; lia).
  set (n := Z.of_nat (length (before 32 str))) in *. destruct (decide (n >= PROGRAM_NAME_MAX_LENGTH)).
  { exists false, s1, a1. split; [done|]. split; done. }
  rewrite (bind_ok _ _ _ _ _ E4). destruct (open_executable s1 (before 32 str) Hok Hz) as (f & d & E5 & Hd & Hod & Hf5). rewrite (bind_ok _ _ _ _ _ E5).
  destruct Hf5 as [[-> Hv5]|(Hfn & bs & Hv5 & Hnm)].
  { rewrite decide_True by done. exists false, (set_disk d s1), a1. split; [done|]. split; done. }
  rewrite decide_False by done. rewrite (bind_ok _ _ _ _ _ eq_refl). set (s2 := set_process_executable f (set_disk d s1)).
  destruct (vfs_read_ok _ _ _ _ ehdr_size Hd Hv5) as (x & d2 & E6 & Hd2 & X1 & X2 & Hod2 & Hv6). rewrite (bind_ok _ _ _ _ _ (on_files_ok _ s2 _ _ E6)).
  set (s3 := set_disk d2 s2). assert (loading ke P a1 ∅ f bs (0 + x) s3) as Hl3 by (split; [exact Hr1|done|exact Hh1|done]).
  assert (∀ g, g ≠ f → vfs_view d2 g = vfs_view (disk s) g) as Hoth by (intros g Hg; rewrite Hod2 by done; by apply Hod).
  destruct (decide (Z.of_nat (length (slice bs 0 x)) ≠ ehdr_size)) as [Hx|Hx].
  { exists false, s3, a1. split; [done|]. split; done. }
  assert (x = ehdr_size ∧ ehdr_size ≤ Z.of_nat (length bs)) as [-> Hfit].
  { apply dec_stable in Hx. unfold slice in Hx. rewrite length_take, length_drop in Hx. unfold ehdr_size in *. lia. }
  rewrite ehdr_prefix by done. destruct (bad_header (ehdr_of bs)) eqn:Ebad.
  { exists false, s3, a1. split; [done|]. split; done. }
  destruct (load_body P a1 f bs _ s3 (Z.to_nat (e_phnum (ehdr_of bs))) (i32 (e_phoff (ehdr_of bs))) str file_name (e_entry (ehdr_of bs)) Hl3) as (b & s4 & a4 & L4 & ps4 & sp & [G1 G2 G3 G4 (m4 & d4 & ->)] & [M1 M2 M3 M4] & Hb);
    [by apply wraps_range|done|done|done|]. destruct b.
  - destruct Hb as (E & Hst & Ho & L & st & Himg & HL & ->). exists true. eexists _, a4. split; [exact E|]. split.
    + exact M1.
    + exact M2.
    + congruence.
    + by eapply kept_trans.
    + intros g Hg. etransitivity; [by apply G4|]. by apply Hoth.
    + intros _. exists bs, ps4, L, (e_entry (ehdr_of bs)), st. split_and!; try done; [|exact (eq_trans G2 Ha1)].
      unfold elf_image. rewrite decide_True, Ebad by done. assert (image_phdrs (Z.to_nat (e_phnum (ehdr_of bs))) bs (e_phoff (ehdr_of bs)) ∅ = Some L) as ->; [|done].
      destruct Ho as [Ho|Ho]; [|rewrite Ho in *; done]. assert (in_u 32 (e_phoff (ehdr_of bs))) as Hu by by apply wrapu_range.
      rewrite <-Himg. f_equal. revert Ho. unfold wraps, in_u in *. change (2 ^ (32 - 1)) with 2147483648. change (2 ^ 32) with 4294967296 in *. dlia.
  - destruct Hb as (e & E). exists false. eexists _, a4. split; [exact E|]. split; try done.
    + congruence.
    + by eapply kept_trans.
    + intros g Hg. etransitivity; [by apply G4|]. by apply Hoth.
Qed.

End load.

(** C9. The loader: for every content of the file system and every command line
    with at least one word, [load] returns, without a failed assertion or an
    access out of bounds.  It keeps the page allocator, the other address spaces
    and the other open files consistent.  When it succeeds, the file named by
    the text before the first blank is an executable, and at every user address
    the program reads the bytes of the image of the executable and may write
    where the image is writable; the stack holds the words of the command line
    as the arguments of [main], and execution starts at the entry point. *)
Theorem load_correct ke space delimiters P a (s : proc S F) file_name str :
  represents ke P a (mach s) → vfs_ok (disk s) →
  cstr (kernel ke) space [32] → cstr (kernel ke) delimiters [32; 9] → cstr (kernel ke) file_name str →
  Z.of_nat (length str) < 2 ^ 31 → words [32; 9] [] str ≠ [] →
  ∃ b s' a', load space delimiters file_name s = Ok (b, s') ∧ represents ke P a' (mach s') ∧ vfs_ok (disk s') ∧ loose a' = loose a ∧
    (∀ d L, d ≠ pagedir s' → holds a d L → holds a' d L) ∧
    (∀ g, g ≠ process_executable s' → vfs_view (disk s') g = vfs_view (disk s) g) ∧
    (b = true → ∃ bs L entry stack, let L' := <[stack_page := (true, stack)]> L in
      vfs_named (disk s) (before 32 str) bs ∧ elf_image bs = Some (L, entry) ∧ L !! stack_page = None ∧
      eip s' = entry ∧ start_stack L' (esp s') (words [32; 9] [] str) ∧
      ∀ va, 0 ≤ va < PHYS_BASE →
        (∃ t, user_read va (mach s') = Ok (image_byte L' va, t)) ∧ ∀ c, ∃ t, user_write va c (mach s') = Ok (image_writable L' va, t)).
Proof.
  intros Hr Hok Hsp HD Hf Hlen Hne. destruct (load_ok ke space delimiters P a s file_name str Hr Hok Hsp HD Hf Hlen Hne) as (b & s' & a' & E & [H1 H2 H3 H4 H5 H6]).
  exists b, s', a'. split_and!; try done; [intros d L Hd; by apply H4|]. intros Hb. destruct (H6 Hb) as (bs & ps & L & entry & st & S1 & _ & S2 & S3 & S4 & S5 & S6 & S7).
  exists bs, L, entry, st. cbv zeta. split_and!; try done. rewrite <-S6 in S7. intros va Hva. split; [by eapply img_user_read|]. intros c. by eapply img_user_write.
Qed.

End theorems.
