(* ===== verification/Descriptor.v ===== *)
(** * File descriptors

    userprog/descriptor.c.  The page of descriptors of a process is an array of
    [struct descriptor] in memory: the byte [in_use] at offset 0, the word [fd]
    at 4, the pointer [file_ptr] at 8.  The buffers and names that user programs
    pass are at user addresses, which the kernel reads and writes through the
    page tables of the process: a page that is not there, or a write to a page
    that is read-only (CR0_WP is set in start.S), is a page fault in the kernel,
    which ends in a panic.  A name, and a buffer that is written to a file, are
    read as a whole before the file system is called.  A section under
    [filesys_lock] is one step. *)

From S2P Require Import Prelude Vaddr CString Bitmap Palloc PageDir FileApi Process.

(** ** Loops with a bound in binary *)

(** [f] is run until it returns a result, at most [p] times. *)
Fixpoint iter_until {St A B} (p : positive) (f : A → M St (A + B)) (a : A) : M St (A + B) :=
  match p with
  | xH => f a
  | xO p => r ← iter_until p f a; match r with inl a => iter_until p f a | inr b => mret (inr b) end
  | xI p => r ← f a; match r with
            | inl a => r ← iter_until p f a; match r with inl a => iter_until p f a | inr b => mret (inr b) end
            | inr b => mret (inr b)
            end
  end.

Definition loop_until {St A B} (p : positive) (f : A → M St (A + B)) (a : A) : M St B :=
  r ← iter_until p f a; match r with inl _ => fail OutOfFuel | inr b => mret b end.

Section descriptor.
  Context {S : Type} {PA : PageAllocator S} {F : Type} {FI : Files F}.
  Implicit Types s : proc S F.

(** ** Memory of the user program *)

Definition get_user (va : Z) : M (proc S F) Z :=
  r ← on_mach (user_read va); match r with Some b => mret b | None => fail Panicked end.
Definition put_user (va b : Z) : M (proc S F) unit :=
  ok ← on_mach (user_write va b); if (ok : bool) then mret tt else fail Panicked.

Fixpoint read_user (va : Z) (n : nat) : M (proc S F) (list Z) :=
  match n with O => mret [] | Datatypes.S n => b ← get_user va; bs ← read_user (va + 1) n; mret (b :: bs) end.
Fixpoint write_user (va : Z) (bs : list Z) : M (proc S F) unit :=
  match bs with [] => mret tt | b :: bs => put_user va b;; write_user (va + 1) bs end.

(** The string at a user address; user memory has less than [PHYS_BASE] bytes. *)
Definition user_string (va : Z) : M (proc S F) (list Z) :=
  loop_until (Z.to_pos (PHYS_BASE + 1))
    (λ '(va, acc), b ← get_user va; mret (if decide (b = 0) then inr (rev acc) else inl (va + 1, b :: acc))) (va, []).

(** ** devices/input.c, lib/kernel/console.c *)

(** The next key that is pressed. *)
Definition input_getc : M (proc S F) Z :=
  k ← gets keys; modify (set_keys (λ i, k (Datatypes.S i)));; mret (u8 (k 0%nat)).

Definition putbuf (buffer n : Z) : M (proc S F) unit :=
  bs ← read_user buffer (Z.to_nat n); modify (λ s, set_console (console s ++ bs) s).

(** ** The page of descriptors *)

Definition sizeof_descriptor : Z := 12.
Definition capacity : Z := PGSIZE / sizeof_descriptor.

Definition setup_file_descriptors : M (proc S F) bool :=
  page ← on_mach (get_page PAL_ZERO);
  if decide (page = NULL) then mret false else modify (set_file_descriptor_page page);; mret true.

(** The loop, with [n] rounds left. *)
Fixpoint get_new_loop (n : nat) (descriptor_list index : Z) : M (proc S F) Z :=
  match n with
  | O => mret NULL
  | Datatypes.S n =>
      let d := descriptor_list + sizeof_descriptor * index in
      in_use ← on_mem (rd8 d);
      if decide (in_use = 0) then
        on_mem (wr8 d 1);;
        on_mach (wr32 (d + 4) (2 + index));;
        mret d
      else get_new_loop n descriptor_list (index + 1)
  end.

Definition get_new_file_descriptor : M (proc S F) Z :=
  page ← gets file_descriptor_page; get_new_loop (Z.to_nat (capacity + 1)) page 0.

Fixpoint get_loop (n : nat) (descriptor_list index : Z) : M (proc S F) Z :=
  match n with
  | O => mret NULL
  | Datatypes.S n =>
      let d := descriptor_list + sizeof_descriptor * index in
      in_use ← on_mem (rd8 d);
      if decide (in_use ≠ 0) then
        fd ← on_mach (rd32 (d + 4));
        if decide (i32 fd = 2 + index) then mret d else get_loop n descriptor_list (index + 1)
      else get_loop n descriptor_list (index + 1)
  end.

Definition get_file_descriptor (fd : Z) : M (proc S F) Z :=
  if decide (fd <= 1) then mret NULL else
  page ← gets file_descriptor_page; get_loop (Z.to_nat (capacity + 1)) page 0.

Definition close_process_executable : M (proc S F) unit :=
  f ← gets process_executable; on_files (vfs_close f).

Fixpoint close_all_loop (n : nat) (descriptor_list index : Z) : M (proc S F) unit :=
  match n with
  | O => mret tt
  | Datatypes.S n =>
      let d := descriptor_list + sizeof_descriptor * index in
      in_use ← on_mem (rd8 d);
      (if decide (in_use ≠ 0) then
         on_mem (wr8 d 0);;
         f ← on_mach (rd32 (d + 8));
         on_files (vfs_close f)
       else mret tt);;
      close_all_loop n descriptor_list (index + 1)
  end.

Definition close_all_file_descriptors : M (proc S F) unit :=
  page ← gets file_descriptor_page;
  close_all_loop (Z.to_nat (capacity + 1)) page 0;;
  on_mem (memset page 0 PGSIZE);;
  mret tt.

(** ** Files *)

Definition fd_create (file initial_size : Z) : M (proc S F) bool :=
  name ← user_string file; on_files (vfs_create name (i32 initial_size)).

Definition fd_remove (file : Z) : M (proc S F) bool :=
  name ← user_string file; on_files (vfs_remove name).

Definition fd_open (file : Z) : M (proc S F) Z :=
  d ← get_new_file_descriptor;
  if decide (d ≠ NULL) then
    name ← user_string file;
    f ← on_files (vfs_open name);
    on_mach (wr32 (d + 8) f);;
    f ← on_mach (rd32 (d + 8));
    if decide (f = NULL) then on_mem (memset d 0 sizeof_descriptor);; mret (-1)
    else fd ← on_mach (rd32 (d + 4)); mret (i32 fd)
  else mret (-1).

Definition fd_close (fd : Z) : M (proc S F) unit :=
  d ← get_file_descriptor fd;
  if decide (d ≠ NULL) then
    f ← on_mach (rd32 (d + 8));
    on_files (vfs_close f);;
    on_mem (memset d 0 sizeof_descriptor);;
    mret tt
  else mret tt.

(** The keys that are read, with room for [n]; the index where the loop ends. *)
Fixpoint read_keys (n : nat) (buffer index : Z) : M (proc S F) Z :=
  match n with
  | O => mret index
  | Datatypes.S n =>
      k ← input_getc;
      put_user (buffer + index) k;;
      if decide (k = 10) then mret index else read_keys n buffer (index + 1)
  end.

Definition fd_read (fd buffer size : Z) : M (proc S F) Z :=
  if decide (buffer = NULL ∨ fd < 0 ∨ fd = 1) then mret (-1)
  else if decide (fd = 0) then
    index ← read_keys (Z.to_nat size) buffer 0; mret (i32 (index + 1))
  else
    d ← get_file_descriptor fd;
    if decide (d ≠ NULL) then
      f ← on_mach (rd32 (d + 8));
      bs ← on_files (vfs_read f (i32 size));
      write_user buffer bs;;
      mret (Z.of_nat (length bs))
    else mret (-1).

Definition fd_write (fd buffer size : Z) : M (proc S F) Z :=
  if decide (buffer = NULL ∨ fd <= 0) then mret 0
  else if decide (fd = 1) then putbuf buffer size;; mret (i32 size)
  else
    d ← get_file_descriptor fd;
    if decide (d ≠ NULL) then
      f ← on_mach (rd32 (d + 8));
      bs ← read_user buffer (Z.to_nat (i32 size));
      on_files (vfs_write f bs (i32 size))
    else mret 0.

Definition fd_seek (fd position : Z) : M (proc S F) unit :=
  d ← get_file_descriptor fd;
  if decide (d ≠ NULL) then f ← on_mach (rd32 (d + 8)); on_files (vfs_seek f (i32 position)) else mret tt.

Definition fd_tell (fd : Z) : M (proc S F) Z :=
  d ← get_file_descriptor fd;
  if decide (d ≠ NULL) then f ← on_mach (rd32 (d + 8)); p ← on_files (vfs_tell f); mret (u32 p) else mret 0.

Definition fd_filesize (fd : Z) : M (proc S F) Z :=
  d ← get_file_descriptor fd;
  if decide (d ≠ NULL) then f ← on_mach (rd32 (d + 8)); on_files (vfs_length f) else mret 0.

(** ** userprog/process.c: the end of a process *)

(** The part of [process_exit] that gives back files and memory. *)
Definition release_resources : M (proc S F) unit :=
  close_all_file_descriptors;;
  page ← gets file_descriptor_page;
  on_mach (free_page page);;
  close_process_executable;;
  modify (set_process_executable NULL);;
  pd ← gets pagedir;
  if decide (pd ≠ NULL) then
    modify (set_pagedir NULL);;
    on_mach (pagedir_activate NULL);;
    on_mach (pagedir_destroy pd)
  else mret tt.

End descriptor.
