(* ===== verification/Syscall.v ===== *)
(** * System calls

    userprog/syscall.c: the checks of pointers from user programs and the
    handler.  A call of [thread_exit] does not return: a check that calls it
    yields [false] here, and the handler then ends with [Exited].  The calls of
    process.c and of devices/shutdown.c are outcomes of the handler. *)

From S2P Require Import Prelude Vaddr CString Bitmap Palloc PageDir FileApi Process Descriptor.

Inductive syscall_nr : Type :=
  | SYS_PRACTICE | SYS_HALT | SYS_EXIT | SYS_EXEC | SYS_WAIT | SYS_CREATE | SYS_REMOVE | SYS_OPEN | SYS_FILESIZE
  | SYS_READ | SYS_WRITE | SYS_SEEK | SYS_TELL | SYS_CLOSE.

Definition syscall_numbers : list syscall_nr :=
  [SYS_PRACTICE; SYS_HALT; SYS_EXIT; SYS_EXEC; SYS_WAIT; SYS_CREATE; SYS_REMOVE; SYS_OPEN; SYS_FILESIZE;
   SYS_READ; SYS_WRITE; SYS_SEEK; SYS_TELL; SYS_CLOSE].

(** How the handler ends: it returns to the program; the process exits; the
    machine is turned off; [process_execute] or [process_wait] is called. *)
Inductive outcome : Type :=
  | Returned
  | Exited (status : Z)
  | Halted
  | Executes (file : Z)
  | Waits (pid : Z).

Section syscall.
  Context {S : Type} {PA : PageAllocator S} {F : Type} {FI : Files F}.

(** The loop over the pages, with [n] of them left. *)
Fixpoint check_pages (n : nat) (current_user_page : Z) (check_writable : bool) : M (proc S F) bool :=
  match n with
  | O => mret true
  | Datatypes.S n =>
      pd ← gets pagedir;
      ok ← on_mach (is_user_page_present pd current_user_page check_writable);
      if (ok : bool) then check_pages n (current_user_page + PGSIZE) check_writable else mret false
  end.

Definition check_valid_pointer (pointer size : Z) (check_writable : bool) : M (proc S F) bool :=
  if decide (pointer = NULL) then mret false else
  if negb (is_user_vaddr pointer) then mret false else
  if decide (size > u32 (PHYS_BASE - pointer)) then mret false else
  let current_user_page := pg_round_down pointer in
  let end_user_page := pg_round_down (u32 (pointer + size - 1)) in
  check_pages (Z.to_nat ((end_user_page - current_user_page) / PGSIZE + 1)) current_user_page check_writable.

(** A word of user memory. *)
Definition user_word (va : Z) : M (proc S F) Z := bs ← read_user va 4; mret (u32 (le_value bs)).

(** One round of the loop over the string. *)
Definition check_char (st : Z * Z) : M (proc S F) ((Z * Z) + bool) :=
  let '(string, last_page) := st in
  let current_page := pg_round_down string in
  ok ← (if decide (last_page ≠ current_page) then check_valid_pointer string 1 false else mret true);
  if negb ok then mret (inr false) else
  c ← get_user string;
  if decide (c = 0) then mret (inr true) else mret (inl (u32 (string + 1), current_page)).

Definition check_valid_string (pointer : Z) : M (proc S F) bool :=
  if decide (pointer = NULL) then mret false else
  ok ← check_valid_pointer pointer 4 false;
  if negb ok then mret false else
  string ← user_word pointer;
  loop_until (Z.to_pos (PHYS_BASE + 1)) check_char (string, 1).

Definition practice (i : Z) : Z := i32 (i + 1).

(** The rest of the handler after a check. *)
Definition checked (check : M (proc S F) bool) (rest : M (proc S F) outcome) : M (proc S F) outcome :=
  ok ← check; if (ok : bool) then rest else mret (Exited (-1)).

(** The result of a call goes to the register [eax]. *)
Definition return_value (r : Z) : M (proc S F) outcome := modify (set_eax (u32 r));; mret Returned.

Definition syscall_handler : M (proc S F) outcome :=
  args ← gets esp;
  let arg i := u32 (args + 4 * i) in
  checked (check_valid_pointer args 4 false) (
  number ← user_word args;
  match syscall_numbers !! Z.to_nat number with
  | Some SYS_PRACTICE =>
      checked (check_valid_pointer (arg 1) 4 false) (
      i ← user_word (arg 1); return_value (practice (i32 i)))
  | Some SYS_HALT => mret Halted
  | Some SYS_EXIT =>
      checked (check_valid_pointer (arg 1) 4 false) (
      status ← user_word (arg 1); mret (Exited (i32 status)))
  | Some SYS_EXEC =>
      checked (check_valid_string (arg 1)) (
      file ← user_word (arg 1); mret (Executes file))
  | Some SYS_WAIT =>
      checked (check_valid_pointer (arg 1) 4 false) (
      pid ← user_word (arg 1); mret (Waits (i32 pid)))
  | Some SYS_CREATE =>
      checked (check_valid_string (arg 1)) (
      checked (check_valid_pointer (arg 2) 4 false) (
      file ← user_word (arg 1); initial_size ← user_word (arg 2);
      r ← fd_create file initial_size; return_value (Z.b2z r)))
  | Some SYS_REMOVE =>
      checked (check_valid_string (arg 1)) (
      file ← user_word (arg 1); r ← fd_remove file; return_value (Z.b2z r))
  | Some SYS_OPEN =>
      checked (check_valid_string (arg 1)) (
      file ← user_word (arg 1); r ← fd_open file; return_value r)
  | Some SYS_FILESIZE =>
      checked (check_valid_pointer (arg 1) 4 false) (
      fd ← user_word (arg 1); r ← fd_filesize (i32 fd); return_value r)
  | Some SYS_READ =>
      checked (check_valid_pointer (arg 1) 4 false) (
      checked (check_valid_pointer (arg 2) 4 false) (
      checked (check_valid_pointer (arg 3) 4 false) (
      buffer ← user_word (arg 2); size ← user_word (arg 3);
      checked (check_valid_pointer buffer size true) (
      fd ← user_word (arg 1); buffer ← user_word (arg 2); size ← user_word (arg 3);
      r ← fd_read (i32 fd) buffer size; return_value r))))
  | Some SYS_WRITE =>
      checked (check_valid_pointer (arg 1) 4 false) (
      checked (check_valid_pointer (arg 2) 4 false) (
      checked (check_valid_pointer (arg 3) 4 false) (
      buffer ← user_word (arg 2); size ← user_word (arg 3);
      checked (check_valid_pointer buffer size false) (
      fd ← user_word (arg 1); buffer ← user_word (arg 2); size ← user_word (arg 3);
      r ← fd_write (i32 fd) buffer size; return_value r))))
  | Some SYS_SEEK =>
      checked (check_valid_pointer (arg 1) 4 false) (
      checked (check_valid_pointer (arg 2) 4 false) (
      fd ← user_word (arg 1); position ← user_word (arg 2);
      fd_seek (i32 fd) position;; mret Returned))
  | Some SYS_TELL =>
      checked (check_valid_pointer (arg 1) 4 false) (
      fd ← user_word (arg 1); r ← fd_tell (i32 fd); return_value r)
  | Some SYS_CLOSE =>
      checked (check_valid_pointer (arg 1) 4 false) (
      fd ← user_word (arg 1); fd_close (i32 fd);; mret Returned)
  | None => mret (Exited (-1))
  end).

End syscall.
