(* ===== verification/UserMemory.v ===== *)
(** * The kernel in user memory

    What reading and writing user addresses from the kernel does to the address
    space of the process and to the pages of the kernel. *)

From S2P Require Import Prelude Vaddr CString Bitmap Palloc PageDir PageDirSpec PageDirInv PageDirTheorems FileApi Process ProcessSpec ProcessImage ProcessLoad ProcessTheorems Descriptor.

(** ** Layouts *)

(** The program may read, or write, at an address. *)
Definition page_allows (L : layout) (w : bool) (va : Z) : Prop :=
  match L !! (va / PGSIZE) with Some (wr, _) => w = true → wr = true | None => False end.
#[export] Instance page_allows_dec L w va : Decision (page_allows L w va).
Proof. unfold page_allows. destruct (L !! (va / PGSIZE)) as [[wr bs]|]; apply _. Defined.

Definition range_allows (L : layout) (w : bool) (va n : Z) : Prop := ∀ x, va ≤ x < va + n → page_allows L w x.

(** A byte of user memory changes. *)
Definition image_put (L : layout) (va b : Z) : layout :=
  match L !! (va / PGSIZE) with
  | Some (wr, bs) => <[va / PGSIZE := (wr, <[Z.to_nat (va mod PGSIZE) := b]> bs)]> L
  | None => L
  end.
Fixpoint image_puts (L : layout) (va : Z) (bs : list Z) : layout :=
  match bs with [] => L | b :: bs => image_puts (image_put L va b) (va + 1) bs end.

Lemma image_put_allows L va b w x : page_allows (image_put L va b) w x ↔ page_allows L w x.
Proof.
  unfold page_allows, image_put. destruct (L !! (va / PGSIZE)) as [[wr bs]|] eqn:E; [|done]. destruct (decide (va / PGSIZE = x / PGSIZE)) as [Ex|Ex].
  - rewrite <-Ex, lookup_insert_eq, E. done.
  - by rewrite lookup_insert_ne.
Qed.
Lemma image_puts_allows L va bs w x : page_allows (image_puts L va bs) w x ↔ page_allows L w x.
Proof. revert L va. induction bs as [|b bs IH]; intros L va; [done|]. cbn [image_puts]. by rewrite IH, image_put_allows. Qed.

Lemma read_allowed L w va : page_allows L w va → page_allows L false va.
Proof. unfold page_allows. by destruct (L !! (va / PGSIZE)) as [[]|]. Qed.

Lemma range_read L w va n : range_allows L w va n → range_allows L false va n.
Proof. intros H x Hx. by eapply read_allowed, H. Qed.
Lemma range_sub L w va n va' n' : range_allows L w va n → va ≤ va' → va' + n' ≤ va + n → range_allows L w va' n'.
Proof. intros H H1 H2 x Hx. apply H. lia. Qed.

(** Every page of a layout is full. *)
Definition full_pages (L : layout) : Prop := ∀ n w bs, 0 ≤ n * PGSIZE < PHYS_BASE → L !! n = Some (w, bs) → Z.of_nat (length bs) = PGSIZE.

Lemma page_of va : 0 ≤ va < PHYS_BASE → 0 ≤ va / PGSIZE * PGSIZE < PHYS_BASE ∧ 0 ≤ va mod PGSIZE < PGSIZE.
Proof. rewrite PGSIZE_eq. intros H. dlia. Qed.

Lemma allowed_byte L va : full_pages L → 0 ≤ va < PHYS_BASE → page_allows L false va ↔ is_Some (image_byte L va).
Proof.
  intros Hf Hva. unfold page_allows, image_byte. destruct (page_of va Hva) as [Hn Ho]. destruct (L !! (va / PGSIZE)) as [[w bs]|] eqn:E; cbn.
  - split; [intros _|done]. apply lookup_lt_is_Some_2. pose proof (Hf _ _ _ Hn E). lia.
  - split; [done|]. by intros [].
Qed.

Lemma allowed_write L va : page_allows L true va ↔ image_writable L va = true.
Proof. unfold page_allows, image_writable. destruct (L !! (va / PGSIZE)) as [[w bs]|]; [|done]. split; [by intros ->|by intros -> _]. Qed.

(** A string of user memory. *)
Record user_str (L : layout) (va : Z) (str : list Z) : Prop := {
  st_range : 0 < va ∧ va + Z.of_nat (length str) < PHYS_BASE;
  st_bytes : image_string L va str;
  st_chars : 0 ∉ str
}.

(** ** Loops *)

Section loops.
  Context {St A B : Type} (f : A → M St (A + B)) (I : A → St → Prop) (Q : B → St → Prop) (mu : A → Z).
  Hypothesis Hstep : ∀ a s, I a s → 0 ≤ mu a ∧ ∃ r s', f a s = Ok (r, s') ∧
    match r with inl a' => I a' s' ∧ mu a' < mu a | inr b => Q b s' end.

Lemma iter_until_ok p a s :
  I a s → ∃ r s', iter_until p f a s = Ok (r, s') ∧ match r with inl a' => I a' s' ∧ mu a' ≤ mu a - Zpos p | inr b => Q b s' end.
Proof.
  revert a s. assert (∀ a s, I a s → ∃ r s', f a s = Ok (r, s') ∧ match r with inl a' => I a' s' ∧ mu a' ≤ mu a - 1 | inr b => Q b s' end) as H1.
  { intros a s Ha. destruct (Hstep a s Ha) as (_ & r & s' & E & Hr). exists r, s'. split; [done|]. destruct r; [|done]. destruct Hr. split; [done|lia]. }
  assert (∀ p, (∀ a s, I a s → ∃ r s', iter_until p f a s = Ok (r, s') ∧ match r with inl a' => I a' s' ∧ mu a' ≤ mu a - Zpos p | inr b => Q b s' end) →
    ∀ a s, I a s → ∃ r s', iter_until p~0 f a s = Ok (r, s') ∧ match r with inl a' => I a' s' ∧ mu a' ≤ mu a - Zpos p~0 | inr b => Q b s' end) as H2.
  { intros q IH a s Ha. cbn [iter_until]. destruct (IH a s Ha) as ([a1|b] & s1 & E1 & Hr1); rewrite (bind_ok _ _ _ _ _ E1); [|by exists (inr b), s1].
    destruct Hr1 as [Ha1 Hm1]. destruct (IH a1 s1 Ha1) as (r & s2 & E2 & Hr2). exists r, s2. split; [done|]. destruct r; [|done]. destruct Hr2. split; [done|lia]. }
  induction p as [p IH|p IH|]; [|by apply H2|by apply H1].
  intros a s Ha. change (iter_until p~1 f a s) with ((r ← f a; match r with inl a => iter_until p~0 f a | inr b => mret (inr b) end) s).
  destruct (H1 a s Ha) as ([a1|b] & s1 & E1 & Hr1); rewrite (bind_ok _ _ _ _ _ E1); [|by exists (inr b), s1].
  destruct Hr1 as [Ha1 Hm1]. destruct (H2 p IH a1 s1 Ha1) as (r & s2 & E2 & Hr2). exists r, s2. split; [done|]. destruct r; [|done]. destruct Hr2. split; [done|lia].
Qed.

Lemma loop_until_ok p a s : I a s → mu a < Zpos p → ∃ b s', loop_until p f a s = Ok (b, s') ∧ Q b s'.
Proof.
  intros Ha Hp. unfold loop_until. destruct (iter_until_ok p a s Ha) as ([a'|b] & s' & E & Hr); rewrite (bind_ok _ _ _ _ _ E); [|by exists b, s'].
  destruct Hr as [Ha' Hm]. destruct (Hstep a' s' Ha') as [? _]. lia.
Qed.
End loops.

(** ** Address spaces *)

Section user.
  Context {S : Type} {PA : PageAllocator S} {PL : PageAllocatorLaws S} {PP : PagePool S}.
  Context {F : Type} {FI : Files F} {FL : FilesLaws F}.
  Context (ke : kenv) (P : gset Z).
  Implicit Types (s : proc S F) (a : vm) (L : layout).

Lemma holds_full a pd L : holds a pd L → full_pages L.
Proof.
  intros (sp & _ & Hh) n w bs Hn E. specialize (Hh n Hn). rewrite E in Hh. destruct Hh as (e & _ & Hp). by apply (pi_length _ _ _ _ Hp).
Qed.

(** The process has the address space [L], which is active. *)
Record uspace a L s : Prop := {
  us_rep : represents ke P a (mach s);
  us_holds : holds a (pagedir s) L;
  us_active : active a = pagedir s
}.

(** What stays when the memory of the process changes: its pages in the kernel,
    and the other address spaces. *)
Record ukept (pd : Z) a a' : Prop := {
  uk_loose : loose a' = loose a;
  uk_kept : kept pd a a';
  uk_bytes k x : k ∈ loose a → k ≤ x < k + PGSIZE → bytes a' !! x = bytes a !! x
}.

Lemma ukept_refl pd a : ukept pd a a.
Proof. split; [done|apply kept_refl|done]. Qed.
Lemma ukept_trans pd a1 a2 a3 : ukept pd a1 a2 → ukept pd a2 a3 → ukept pd a1 a3.
Proof.
  intros [H1 H2 H3] [K1 K2 K3]. split; [congruence|by eapply kept_trans|]. intros k x Hk Hx. rewrite <-(H3 k) by done. apply (K3 k); [by rewrite H1|done].
Qed.

(** An access marks the entry as used. *)
Lemma page_is_used a wr bs e w : page_is a wr bs e → page_is a wr bs (used w e).
Proof.
  intros [H1 H2 H3 H4]. destruct (used_lor w e) as (f & Hf & ->). assert (∀ g, Z.land (Z.lor PTE_A PTE_D) g = 0 → Z.land (Z.lor e f) g = Z.land e g) as Hk
    by (intros g Hg; apply lor_keep; destruct Hf as [<- _]; by rewrite <-Z.land_assoc, Hg, Z.land_0_r).
  split; [by rewrite Hk|by rewrite Hk|done|]. unfold frame. by rewrite Hk.
Qed.

Lemma present_used w e : present e → present (used w e).
Proof. unfold present, used. intros H. rewrite lor_keep; [done|]. by destruct w. Qed.

Lemma holds_used a L va w sp e :
  (∀ m x, entries sp !! m = Some x → m / 1024 ∈ tables sp) → holds a (active a) L → spaces a !! active a = Some sp → mapping sp va = Some e →
  let a' := set_space (active a) (with_entry (pg_no va) (used w e) sp) a in holds a' (active a) L ∧ ukept (active a) a a'.
Proof.
  intros Ht (sp' & Hsp' & Hh) Hsp Hm a'. assert (sp' = sp) as -> by congruence. split.
  - exists (with_entry (pg_no va) (used w e) sp). split; [cbn; by rewrite lookup_insert_eq|]. intros n Hn. specialize (Hh n Hn).
    rewrite mapping_with by exact Ht. destruct (page_number n Hn) as (Epn & _). rewrite Epn. destruct (decide (n = pg_no va)) as [->|Hne].
    + rewrite decide_True by (apply mapping_entry in Hm as [_ ?]; by apply present_used). assert (mapping sp (pg_no va * PGSIZE) = Some e) as Em by (rewrite <-Hm; unfold mapping; by rewrite Epn).
      rewrite Em in Hh. destruct (L !! pg_no va) as [[wr bs]|]; [|done]. destruct Hh as (e' & [= <-] & Hp). exists (used w e). split; [done|]. apply (page_is_ext a); [by apply page_is_used|done].
    + destruct (L !! n) as [[wr bs]|]; [|done]. destruct Hh as (e' & He' & Hp). exists e'. split; [done|]. by apply (page_is_ext a).
  - split; [done| |done]. intros d Hd. split; [cbn; by rewrite lookup_insert_ne|]. intros L' Hh'. apply (holds_ext a); [done| |done]. cbn. by rewrite lookup_insert_ne.
Qed.

Lemma get_user_ok a L s va :
  uspace a L s → 0 ≤ va < PHYS_BASE → page_allows L false va →
  ∃ b t a', get_user va s = Ok (b, set_mach t s) ∧ image_byte L va = Some b ∧ uspace a' L (set_mach t s) ∧ ukept (pagedir s) a a'.
Proof.
  intros [H1 H2 H3] Hva Hp. apply (allowed_byte L va (holds_full _ _ _ H2) Hva) in Hp as [b Hb]. rewrite <-H3 in H2.
  destruct (vm_read _ _ _ _ va H1 Hva) as (r & t & a' & E & Hs & Hr'). cbn [exec] in E. apply bind_inv in E as (o & t' & E & E'). injection E' as <- <-.
  destruct (img_user_read _ _ _ _ _ _ H1 H2 Hva) as (t2 & Et2). rewrite E in Et2. injection Et2 as -> ->. rewrite Hb in *.
  exists b, t2, a'. split; [|split; [done|]]. { unfold get_user. by rewrite (bind_ok _ _ _ _ _ (on_mach_ok _ _ _ _ E)). }
  inversion Hs as [| | | | | | | | | | | | | | | | | |? sp e x Hac Hx| | | |]; subst. apply access_some in Hac as (Hsp & He & Hu).
  assert (mapping sp va = Some e) as Hm by (apply mapping_entry; split; [done|by eapply user_ok_present]).
  destruct (holds_used a L va false sp e (rep_tables _ _ _ _ _ _ H1 Hsp) H2 Hsp Hm) as [Hh Hk]. rewrite H3 in Hh, Hk. split; [|by rewrite H3].
  rewrite H3 in *. split; [exact Hr'|exact Hh|done].
Qed.

(** A byte of a frame changes. *)
Lemma holds_put (m : mmu S) a L va b sp e :
  represents ke P a m → holds a (active a) L → spaces a !! active a = Some sp → 0 ≤ va < PHYS_BASE → mapping sp va = Some e →
  let a' := set_bytes (<[frame e + pg_ofs va := b]> (bytes a)) a in holds a' (active a) (image_put L va b) ∧ ukept (active a) a a'.
Proof.
  intros Hr (sp' & Hsp' & Hh) Hsp Hva Hm. rewrite pg_ofs_eq. intros a'. assert (sp' = sp) as -> by congruence. destruct (page_of va Hva) as [Hn Ho].
  assert (∀ x, ¬ (frame e ≤ x < frame e + PGSIZE) → bytes a' !! x = bytes a !! x) as Hout by (intros x Hx; cbn; rewrite lookup_insert_ne; [done|lia]).
  assert (mapping sp (va / PGSIZE * PGSIZE) = Some e) as Em by (rewrite <-Hm; unfold mapping; rewrite (proj1 (page_number _ Hn)); by rewrite pg_no_eq).
  destruct (rep_frame _ _ _ _ _ _ _ _ Hr Hsp Hm) as ((_ & _ & Hfa) & _ & Hnl & _). split; [|split; [done| |]].
  - exists sp. split; [done|]. intros n Hn'. specialize (Hh n Hn') as Hhn. unfold image_put. destruct (decide (n = va / PGSIZE)) as [->|Hne].
    + rewrite Em in Hhn. destruct (L !! (va / PGSIZE)) as [[wr bs]|]; [|done]. destruct Hhn as (e' & [= <-] & [P1 P2 P3 P4]). rewrite lookup_insert_eq. exists e. split; [done|].
      split; [done|done|by rewrite length_insert|]. intros i x Hi. cbn. destruct (decide (i = Z.to_nat (va mod PGSIZE))) as [->|Hi'].
      * rewrite list_lookup_insert_eq in Hi by lia. injection Hi as <-. rewrite Z2Nat.id by lia. apply lookup_insert_eq.
      * rewrite list_lookup_insert_ne in Hi by done. rewrite lookup_insert_ne by lia. by apply P4.
    + assert (match L !! n with None => mapping sp (n * PGSIZE) = None | Some (w, bs) => ∃ e', mapping sp (n * PGSIZE) = Some e' ∧ page_is a' w bs e' end) as Hn''.
      { destruct (L !! n) as [[wr bs]|]; [|done]. destruct Hhn as (e' & He' & Hp). exists e'. split; [done|]. apply (page_is_ext a); [done|]. intros x Hx. apply Hout.
        apply (frames_apart _ _ _ _ _ _ _ _ _ _ _ _ Hr Hsp He' Hsp Hm); [|done]. rewrite (proj1 (page_number _ Hn')), pg_no_eq. congruence. }
      destruct (L !! (va / PGSIZE)) as [[wr bs]|]; [|done]. by rewrite lookup_insert_ne.
  - intros d Hd. split; [done|]. intros L' Hh'. apply (holds_ext a); [done..|]. intros sp' u e' x Hsp'' Hm' Hx. apply Hout.
    apply (frames_apart _ _ _ _ _ _ _ _ _ _ _ _ Hr Hsp'' Hm' Hsp Hm); [|done]. congruence.
  - intros k x Hk Hx. apply Hout. destruct (rep_loose _ _ _ _ _ Hr Hk) as ((_ & _ & Hka) & _). apply (pages_apart k (frame e)); [done|done|by intros ->|done].
Qed.

Lemma put_user_ok a L s va b :
  uspace a L s → 0 ≤ va < PHYS_BASE → page_allows L true va →
  ∃ t a', put_user va b s = Ok (tt, set_mach t s) ∧ uspace a' (image_put L va b) (set_mach t s) ∧ ukept (pagedir s) a a'.
Proof.
  intros [H1 H2 H3] Hva Hp%allowed_write. rewrite <-H3 in H2.
  destruct (vm_write _ _ _ _ va b H1 Hva) as (r & t & a' & E & Hs & Hr'). cbn [exec] in E. apply bind_inv in E as (o & t' & E & E'). injection E' as <- <-.
  destruct (img_user_write _ _ _ _ _ _ b H1 H2 Hva) as (t2 & Et2). rewrite E in Et2. injection Et2 as -> ->. rewrite Hp in *.
  exists t2, a'. split. { unfold put_user. by rewrite (bind_ok _ _ _ _ _ (on_mach_ok _ _ _ _ E)). }
  inversion Hs as [| | | | | | | | | | | | | | | | | | | |? ? sp e Hac| |]; subst. apply access_some in Hac as (Hsp & He & Hu).
  assert (mapping sp va = Some e) as Hm by (apply mapping_entry; split; [done|by eapply user_ok_present]).
  destruct (holds_put (mach s) a L va b sp e H1 H2 Hsp Hva Hm) as [Hh1 Hk1].
  destruct (holds_used _ _ va true sp e (rep_tables _ _ _ _ _ _ H1 Hsp) Hh1 Hsp Hm) as [Hh Hk]. cbn [active set_bytes] in Hh, Hk. rewrite H3 in Hh, Hk, Hk1.
  rewrite H3 in *. split; [|exact (ukept_trans _ _ _ _ Hk1 Hk)]. split; [exact Hr'|exact Hh|done].
Qed.

(** ** Blocks of user memory *)

Lemma read_user_ok n a L s va :
  uspace a L s → 0 ≤ va → va + Z.of_nat n ≤ PHYS_BASE → range_allows L false va (Z.of_nat n) →
  ∃ bs t a', read_user va n s = Ok (bs, set_mach t s) ∧ uspace a' L (set_mach t s) ∧ ukept (pagedir s) a a' ∧
    length bs = n ∧ ∀ i b, bs !! i = Some b → image_byte L (va + Z.of_nat i) = Some b.
Proof.
  revert a s va. induction n as [|n IH]; intros a s va Hs Hva Hn Hr.
  { exists [], (mach s), a. split; [by destruct s|]. split; [by destruct s|]. split; [apply ukept_refl|done]. }
  destruct (get_user_ok a L s va Hs) as (b & t & a1 & E1 & Hb & Hs1 & Hk1); [lia|apply Hr; lia|].
  destruct (IH a1 (set_mach t s) (va + 1) Hs1) as (bs & t2 & a2 & E2 & Hs2 & Hk2 & Hl & Hbs); [lia|lia|apply (range_sub _ _ _ _ _ _ Hr); lia|].
  exists (b :: bs), t2, a2. cbn [read_user]. rewrite (bind_ok _ _ _ _ _ E1), (bind_ok _ _ _ _ _ E2). split; [done|]. split; [done|]. split; [by eapply ukept_trans|].
  split; [cbn; by rewrite Hl|]. intros [|i] c Hc; cbn in Hc; [injection Hc as <-; by rewrite Z.add_0_r|]. apply Hbs in Hc. by replace (va + Z.of_nat (Datatypes.S i)) with (va + 1 + Z.of_nat i) by lia.
Qed.

Lemma write_user_ok bs a L s va :
  uspace a L s → 0 ≤ va → va + Z.of_nat (length bs) ≤ PHYS_BASE → range_allows L true va (Z.of_nat (length bs)) →
  ∃ t a', write_user va bs s = Ok (tt, set_mach t s) ∧ uspace a' (image_puts L va bs) (set_mach t s) ∧ ukept (pagedir s) a a'.
Proof.
  revert a L s va. induction bs as [|b bs IH]; intros a L s va Hs Hva Hn Hr.
  { exists (mach s), a. split; [by destruct s|]. split; [by destruct s|apply ukept_refl]. }
  cbn [length] in *. destruct (put_user_ok a L s va b Hs) as (t & a1 & E1 & Hs1 & Hk1); [lia|apply Hr; lia|].
  destruct (IH a1 (image_put L va b) (set_mach t s) (va + 1) Hs1) as (t2 & a2 & E2 & Hs2 & Hk2); [lia|lia|intros x Hx; apply image_put_allows, Hr; lia|].
  exists t2, a2. cbn [write_user image_puts]. rewrite (bind_ok _ _ _ _ _ E1). split; [exact E2|]. split; [done|]. by eapply ukept_trans.
Qed.

(** A string that is there can be read. *)
Lemma user_string_ok a L s va str :
  uspace a L s → user_str L va str →
  ∃ t a', user_string va s = Ok (str, set_mach t s) ∧ uspace a' L (set_mach t s) ∧ ukept (pagedir s) a a'.
Proof.
  intros Hs [Hva Hb Hz]. set (I := λ (x : Z * list Z) s1, ∃ i t a1, x = (va + Z.of_nat i, rev (take i str)) ∧ (i ≤ length str)%nat ∧ s1 = set_mach t s ∧ uspace a1 L s1 ∧ ukept (pagedir s) a a1).
  set (Q := λ r s1, r = str ∧ ∃ t a1, s1 = set_mach t s ∧ uspace a1 L s1 ∧ ukept (pagedir s) a a1).
  destruct (loop_until_ok (λ '(va, acc), b ← get_user va; mret (if decide (b = 0) then inr (rev acc) else inl (va + 1, b :: acc))) I Q (λ x, PHYS_BASE - x.1)
    ) with (p := Z.to_pos (PHYS_BASE + 1)) (a := (va, @nil Z)) (s := s) as (r & s' & E & -> & t & a1 & -> & H1 & H2).
  - intros x s1 (i & t & a1 & -> & Hi & -> & H1 & H2). cbn [fst]. split; [lia|]. set (c := (str ++ [0]) !! i). assert (is_Some c) as [b Hc] by (apply lookup_lt_is_Some_2; rewrite length_app; cbn; lia).
    pose proof (Hb i b Hc) as Hib. destruct (get_user_ok a1 L (set_mach t s) (va + Z.of_nat i) H1) as (b' & t' & a2 & E & Hb' & H3 & H4); [lia|apply (allowed_byte L); [by eapply holds_full, H1|lia|by eexists]|].
    assert (b' = b) as -> by congruence. rewrite (bind_ok _ _ _ _ _ E). assert (ukept (pagedir s) a a2) as H5 by by eapply ukept_trans.
    destruct (decide (b = 0)) as [->|Hb0].
    + eexists _, _. split; [done|]. split; [|by exists t', a2]. rewrite rev_involutive. assert (i = length str) as ->; [|by rewrite take_ge].
      unfold c in Hc. destruct (decide (i < length str)%nat); [|lia]. rewrite lookup_app_l in Hc by done. destruct Hz. by eapply list_elem_of_lookup_2.
    + eexists _, _. split; [done|]. cbn [fst]. split; [|lia]. assert (i < length str)%nat as Hil. { destruct (decide (i < length str)%nat); [done|]. assert (i = length str) as -> by lia.
        unfold c in Hc. rewrite lookup_app_r, Nat.sub_diag in Hc by lia. by injection Hc as <-. }
      exists (Datatypes.S i), t', a2. unfold c in Hc. rewrite lookup_app_l in Hc by done. rewrite (take_S_r _ _ _ Hc), rev_app_distr. cbn [rev app]. split; [f_equal; lia|]. done.
  - exists 0%nat, (mach s), a. rewrite Z.add_0_r. split; [done|]. split; [lia|]. split; [by destruct s|]. split; [done|apply ukept_refl].
  - cbn [fst]. unfold PHYS_BASE in *. lia.
  - exists t, a1. done.
Qed.

End user.
