(* ===== verification/SyscallCheck.v ===== *)
(** * The checks of pointers

    [check_valid_pointer] and [check_valid_string] of userprog/syscall.c accept
    exactly the memory that the process may use. *)

From S2P Require Import Prelude Vaddr CString Bitmap Palloc PageDir PageDirSpec PageDirInv PageDirTheorems FileApi Process ProcessSpec ProcessImage ProcessLoad ProcessTheorems Descriptor Syscall UserMemory.

Section check.
  Context {S : Type} {PA : PageAllocator S} {PL : PageAllocatorLaws S} {PP : PagePool S}.
  Context {F : Type} {FI : Files F} {FL : FilesLaws F}.
  Context (ke : kenv) (P : gset Z).
  Implicit Types (s : proc S F) (a : vm) (L : layout).

Lemma set_mach_same s : set_mach (mach s) s = s.
Proof. by destruct s. Qed.

Lemma present_ok a L s va w :
  uspace ke P a L s → 0 ≤ va < PHYS_BASE →
  on_mach (is_user_page_present (pagedir s) va w) s = Ok (bool_decide (page_allows L w va), s).
Proof.
  intros [(O & G & Hv) (sp & Hsp & Hh) H3] Hva. pose proof (is_user_page_present_ok _ _ _ _ _ _ _ _ _ w Hv Hsp Hva) as E.
  rewrite (on_mach_ok _ _ _ _ E), set_mach_same. do 2 f_equal. destruct (page_of va Hva) as [Hn _]. specialize (Hh _ Hn).
  assert (mapping sp va = mapping sp (va / PGSIZE * PGSIZE)) as Em by (unfold mapping; rewrite (proj1 (page_number _ Hn)); by rewrite pg_no_eq).
  rewrite Em. apply eq_true_iff_eq. rewrite bool_decide_eq_true. unfold page_allows. destruct (L !! (va / PGSIZE)) as [[wr bs]|]; [|by rewrite Hh].
  destruct Hh as (e & -> & [_ P2 _ _]). destruct w; cbn [negb orb]; [|done]. rewrite bool_decide_eq_true, P2. split; [by intros ->|]. intros H. by apply H.
Qed.

Lemma check_pages_ok n a L s cur w :
  uspace ke P a L s → 0 ≤ cur → cur + Z.of_nat n * PGSIZE ≤ PHYS_BASE →
  ∃ b, check_pages n cur w s = Ok (b, s) ∧ (b = true ↔ ∀ i, (i < n)%nat → page_allows L w (cur + Z.of_nat i * PGSIZE)).
Proof.
  revert cur. induction n as [|n IH]; intros cur Hs Hc Hn; [exists true; split; [done|]; split; [intros _ i Hi; lia|done]|].
  cbn [check_pages]. rewrite (bind_ok _ _ _ _ _ eq_refl). rewrite (bind_ok _ _ _ _ _ (present_ok _ _ _ cur w Hs ltac:(rewrite PGSIZE_eq in *; lia))).
  case_bool_decide as Hp.
  - destruct (IH (cur + PGSIZE) Hs) as (b & E & Hb); [rewrite PGSIZE_eq in *; lia..|]. exists b. split; [done|]. rewrite Hb. split.
    + intros H [|i] Hi; [by rewrite Z.mul_0_l, Z.add_0_r|]. replace (cur + Z.of_nat (Datatypes.S i) * PGSIZE) with (cur + PGSIZE + Z.of_nat i * PGSIZE) by lia. apply H. lia.
    + intros H i Hi. replace (cur + PGSIZE + Z.of_nat i * PGSIZE) with (cur + Z.of_nat (Datatypes.S i) * PGSIZE) by lia. apply H. lia.
  - exists false. split; [done|]. split; [done|]. intros H. destruct Hp. specialize (H 0%nat ltac:(lia)). by rewrite Z.mul_0_l, Z.add_0_r in H.
Qed.

Lemma allows_page L w x y : x / PGSIZE = y / PGSIZE → page_allows L w x → page_allows L w y.
Proof. unfold page_allows. by intros ->. Qed.

(** The pages of a range. *)
Lemma pages_of_range L w p n :
  0 < p → 0 ≤ n → p + n ≤ PHYS_BASE →
  let cur := p - p mod PGSIZE in let last := p + n - 1 - (p + n - 1) mod PGSIZE in
  let k := (last - cur) / PGSIZE + 1 in
  0 ≤ k ∧ 0 ≤ cur ∧ cur + k * PGSIZE ≤ PHYS_BASE ∧ ((∀ i, (i < Z.to_nat k)%nat → page_allows L w (cur + Z.of_nat i * PGSIZE)) → range_allows L w p n) ∧
  (0 < n → range_allows L w p n → ∀ i, (i < Z.to_nat k)%nat → page_allows L w (cur + Z.of_nat i * PGSIZE)).
Proof.
  intros Hp Hn He. rewrite PGSIZE_eq. intros cur last k. unfold PHYS_BASE in *. assert (last - cur = ((p + n - 1) / 4096 - p / 4096) * 4096) as Elc by (unfold last, cur; dlia).
  assert (k = (p + n - 1) / 4096 - p / 4096 + 1) as Ek by (unfold k; rewrite Elc; by rewrite Z.div_mul). assert (cur = p / 4096 * 4096) as Ec by (unfold cur; dlia).
  clearbody k cur. subst k cur. clear last Elc. split; [dlia|]. split; [dlia|]. split; [dlia|]. split.
  - intros H x Hx. apply (allows_page _ _ (p / 4096 * 4096 + Z.of_nat (Z.to_nat (x / 4096 - p / 4096)) * 4096)); [|apply H; dlia]. rewrite PGSIZE_eq. rewrite Z2Nat.id by dlia. dlia.
  - intros Hn0 H i Hi. destruct (decide (i = 0%nat)) as [->|Hi0].
    + apply (allows_page _ _ p); [rewrite PGSIZE_eq; dlia|apply H; lia].
    + apply (allows_page _ _ (p / 4096 * 4096 + Z.of_nat i * 4096)); [done|]. apply H. dlia.
Qed.

(** Which pointers are accepted. *)
Lemma check_valid_pointer_ok a L s p n w :
  uspace ke P a L s → in_u 32 p → in_u 32 n →
  ∃ b, check_valid_pointer p n w s = Ok (b, s) ∧
    (b = true → 0 < p < PHYS_BASE ∧ p + n ≤ PHYS_BASE ∧ range_allows L w p n) ∧ (0 < n → 0 < p → p + n ≤ PHYS_BASE → range_allows L w p n → b = true).
Proof.
  intros Hs Hp Hn. unfold check_valid_pointer, in_u in *. change (2 ^ 32) with 4294967296 in *. case_decide as D1; [exists false; split; [done|]; split; [done|]; unfold NULL in *; lia|].
  unfold is_user_vaddr. case_bool_decide as D2; cbn [negb]; [|exists false; split; [done|]; split; [done|]; lia].
  rewrite (wrapu_small 32 (PHYS_BASE - p)) by (unfold in_u, PHYS_BASE in *; lia). case_decide as D3; [exists false; split; [done|]; split; [done|]; lia|].
  unfold NULL in *. rewrite (wrapu_small 32 (p + n - 1)) by (unfold in_u, PHYS_BASE in *; lia). rewrite !pg_round_down_eq by (unfold in_u, PHYS_BASE in *; lia).
  destruct (pages_of_range L w p n) as (H1 & H2 & H3 & H4 & H5); [lia..|]. cbv zeta in *. set (k := _ / PGSIZE + 1) in *. set (cur := p - p mod PGSIZE) in *.
  destruct (check_pages_ok (Z.to_nat k) a L s cur w Hs H2) as (b & E & Hb); [by rewrite Z2Nat.id|]. exists b. split; [done|]. split.
  - intros Hbt. split; [lia|]. split; [lia|]. by apply H4, Hb.
  - intros Hn0 _ _ Hr. apply Hb. by apply H5.
Qed.

(** ** Words and strings *)

Lemma user_word_ok a L s va :
  uspace ke P a L s → 0 ≤ va → va + 4 ≤ PHYS_BASE → range_allows L false va 4 →
  ∃ w t a', user_word va s = Ok (u32 w, set_mach t s) ∧ image_word L va = Some w ∧ uspace ke P a' L (set_mach t s) ∧ ukept (pagedir s) a a'.
Proof.
  intros Hs Hva He Hr. destruct (read_user_ok ke P 4 a L s va Hs Hva He Hr) as (bs & t & a' & E & H1 & H2 & Hl & Hb).
  destruct bs as [|b0 [|b1 [|b2 [|b3 [|]]]]]; try done. exists (le_value [b0; b1; b2; b3]), t, a'. unfold user_word. rewrite (bind_ok _ _ _ _ _ E). split; [done|].
  split; [|done]. unfold image_word. pose proof (Hb 0%nat b0 eq_refl) as B0. rewrite Z.add_0_r in B0. rewrite B0. cbn.
  rewrite (Hb 1%nat b1 eq_refl : image_byte L (va + 1) = _). cbn. rewrite (Hb 2%nat b2 eq_refl : image_byte L (va + 2) = _). cbn. by rewrite (Hb 3%nat b3 eq_refl : image_byte L (va + 3) = _).
Qed.

(** The state of the loop at an address: the characters from [p] on are not null. *)
Record scanning (p : Z) L (x : Z * Z) : Prop := {
  sc_range : in_u 32 x.1;
  sc_from : p ≤ x.1;
  sc_last : x.1 = p ∧ x.2 = 1 ∨ 0 < p ∧ p < x.1 ∧ x.1 ≤ PHYS_BASE ∧ x.2 = pg_round_down (x.1 - 1) ∧ page_allows L false (x.1 - 1);
  sc_chars y : p ≤ y < x.1 → ∃ b, image_byte L y = Some b ∧ b ≠ 0
}.

(** The page of the next character has been checked, or is checked now. *)
Lemma scan_page a L s p x :
  uspace ke P a L s → scanning p L x → let cur := pg_round_down x.1 in
  ∃ b, (if decide (x.2 ≠ cur) then check_valid_pointer x.1 1 false else mret true) s = Ok (b, s) ∧ (b = true → 0 < x.1 < PHYS_BASE ∧ page_allows L false x.1).
Proof.
  intros Hs [H1 H2 H3 H4]. cbv zeta. case_decide as D.
  - destruct (check_valid_pointer_ok a L s x.1 1 false Hs H1) as (b & E & Hb & _); [unfold in_u; lia|]. exists b. split; [done|]. intros Hbt. destruct (Hb Hbt) as (B1 & B2 & B3). split; [done|]. apply B3. lia.
  - exists true. split; [done|]. intros _. rewrite pg_round_down_eq in D by done. destruct H3 as [[_ H3]|(H3 & H5 & H6 & H7 & H8)].
    + exfalso. rewrite H3, PGSIZE_eq in D. unfold in_u in *. dlia.
    + rewrite pg_round_down_eq in H7 by (unfold in_u, PHYS_BASE in *; lia). rewrite H7 in D. rewrite PGSIZE_eq in D. assert (x.1 < PHYS_BASE) as Hx by (unfold PHYS_BASE in *; dlia).
      split; [lia|]. apply (allows_page _ _ (x.1 - 1)); [rewrite PGSIZE_eq; dlia|done].
Qed.

(** The characters that have been passed are a string. *)
Lemma scanned L p n :
  0 < p → p ≤ n < PHYS_BASE → (∀ y, p ≤ y < n → ∃ b, image_byte L y = Some b ∧ b ≠ 0) → image_byte L n = Some 0 → ∃ str, user_str L p str.
Proof.
  intros Hp Hn Hc Hz. set (str := (λ y, default 0 (image_byte L y)) <$> seqZ p (n - p)). assert (Z.of_nat (length str) = n - p) as Hl by (unfold str; rewrite length_fmap, length_seqZ; lia).
  exists str. split; [lia| |].
  - intros i b Hi. destruct (decide (i < length str)%nat) as [Hil|Hil].
    + rewrite lookup_app_l in Hi by done. unfold str in Hi. apply list_lookup_fmap_Some in Hi as (y & -> & [-> Hy]%lookup_seqZ). by destruct (Hc (p + Z.of_nat i)) as (b & -> & _); [lia|].
    + assert (i = length str) as -> by (apply lookup_lt_Some in Hi; rewrite length_app in Hi; cbn in Hi; lia). rewrite lookup_app_r, Nat.sub_diag in Hi by lia. injection Hi as <-. by replace (p + Z.of_nat (length str)) with n by lia.
  - unfold str. intros (y & Hy & Hin%elem_of_seqZ)%list_elem_of_fmap. destruct (Hc y) as (b & Eb & Hb); [lia|]. rewrite Eb in Hy. by cbn in Hy; subst.
Qed.

Lemma check_string_loop a L s p :
  uspace ke P a L s → in_u 32 p →
  ∃ b t a', loop_until (Z.to_pos (PHYS_BASE + 1)) check_char (p, 1) s = Ok (b, set_mach t s) ∧ uspace ke P a' L (set_mach t s) ∧ ukept (pagedir s) a a' ∧
    (b = true → ∃ str, user_str L p str).
Proof.
  intros Hs Hp. set (near := λ s1, ∃ t a1, s1 = set_mach t s ∧ uspace ke P a1 L s1 ∧ ukept (pagedir s) a a1).
  destruct (loop_until_ok check_char (λ x s1, scanning p L x ∧ near s1) (λ b s1, near s1 ∧ (b = true → ∃ str, user_str L p str)) (λ x, 0 `max` (PHYS_BASE - x.1)))
    with (p := Z.to_pos (PHYS_BASE + 1)) (a := (p, 1)) (s := s) as (b & s' & E & (t & a1 & -> & H1 & H2) & Hb).
  - intros x s1 [Hx (t & a1 & -> & H1 & H2)]. split; [lia|]. destruct x as [x last]. unfold check_char. cbn [fst].
    destruct (scan_page a1 L (set_mach t s) p (x, last) H1 Hx) as (b & E & Hb). cbn [fst snd] in E, Hb. rewrite (bind_ok _ _ _ _ _ E). destruct b; cbn [negb].
    2:{ eexists _, _. split; [done|]. split; [by exists t, a1|done]. }
    destruct (Hb eq_refl) as [Hx1 Hx2]. destruct (get_user_ok ke P a1 L (set_mach t s) x H1) as (c & t' & a2 & E2 & Hc & H3 & H4); [lia|done|]. rewrite (bind_ok _ _ _ _ _ E2).
    assert (near (set_mach t' s)) as Hnear by (exists t', a2; split; [done|]; split; [done|by eapply ukept_trans]). destruct Hx as [X1 X2 X3 X4]. cbn [fst snd] in *.
    destruct (decide (c = 0)) as [->|Hc0]; eexists _, _; (split; [done|]).
    + split; [done|]. intros _. apply (scanned L p x); [|lia|done|done]. destruct X3 as [[-> _]|X3]; lia.
    + assert (0 < p) as Hp0 by (destruct X3 as [[<- _]|(? & _)]; lia). rewrite wrapu_small by (unfold in_u, PHYS_BASE in *; lia). split; [|cbn [fst]; lia]. split; [|done]. split; cbn [fst snd].
      * unfold in_u, PHYS_BASE in *. lia.
      * lia.
      * right. replace (x + 1 - 1) with x by lia. split; [done|]. split; [lia|]. split; [lia|done].
      * intros y Hy. destruct (decide (y = x)) as [->|]; [by exists c|]. apply X4. lia.
  - split; [|exists (mach s), a; rewrite set_mach_same; split; [done|]; split; [done|apply ukept_refl]]. split; cbn [fst snd]; [done|lia|by left|lia].
  - cbn [fst]. unfold in_u, PHYS_BASE in *. lia.
  - exists b, t, a1. done.
Qed.

(** Which strings are accepted. *)
Lemma check_valid_string_ok a L s p :
  uspace ke P a L s → in_u 32 p →
  ∃ b t a', check_valid_string p s = Ok (b, set_mach t s) ∧ uspace ke P a' L (set_mach t s) ∧ ukept (pagedir s) a a' ∧
    (b = true → 0 < p ∧ p + 4 ≤ PHYS_BASE ∧ range_allows L false p 4 ∧ ∀ w, image_word L p = Some w → ∃ str, user_str L (u32 w) str).
Proof.
  intros Hs Hp. unfold check_valid_string. assert (uspace ke P a L (set_mach (mach s) s) ∧ ukept (pagedir s) a a) as [Hs0 Hk0] by (rewrite set_mach_same; split; [done|apply ukept_refl]).
  case_decide as D; [exists false, (mach s), a; by rewrite set_mach_same in *|].
  destruct (check_valid_pointer_ok a L s p 4 false Hs Hp) as (b & E & Hb & _); [unfold in_u; lia|]. rewrite (bind_ok _ _ _ _ _ E). destruct b; cbn [negb]; [|exists false, (mach s), a; by rewrite set_mach_same in *].
  destruct (Hb eq_refl) as (B1 & B2 & B3). destruct (user_word_ok a L s p Hs) as (w & t & a1 & E1 & Hw & Hs1 & Hk1); [lia|lia|done|]. rewrite (bind_ok _ _ _ _ _ E1).
  destruct (check_string_loop a1 L (set_mach t s) (u32 w) Hs1) as (b & t2 & a2 & E2 & Hs2 & Hk2 & Hb2); [by apply wrapu_range|]. exists b, t2, a2. split; [done|]. split; [done|]. split; [by eapply ukept_trans|].
  intros Hbt. split; [lia|]. split; [lia|]. split; [done|]. intros w' Hw'. assert (w' = w) as -> by congruence. by apply Hb2.
Qed.

End check.
