(* ===== verification/DescriptorInv.v ===== *)
(** * The table of descriptors

    The page of descriptors as a table of open files, and what the functions of
    userprog/descriptor.c do to it. *)

From S2P Require Import Prelude Vaddr CString Bitmap Palloc PageDir PageDirSpec PageDirInv PageDirTheorems FileApi Process ProcessSpec ProcessImage ProcessLoad ProcessTheorems Descriptor UserMemory.

(** ** The page *)

(** A descriptor is free, taken for a file that is being opened, or in use. *)
Inductive slot : Type := Free | Taken | Used (f : Z).
#[export] Instance slot_eq_dec : EqDecision slot.
Proof. solve_decision. Defined.

(** The descriptor at [d] with index [i]. *)
Definition slot_at (m : mem) (d : Z) (i : nat) (o : slot) : Prop :=
  match o with
  | Free => m !! d = Some 0
  | Taken => m !! d = Some 1 ∧ word m (d + 4) = Some (2 + Z.of_nat i)
  | Used f => m !! d = Some 1 ∧ word m (d + 4) = Some (2 + Z.of_nat i) ∧ word m (d + 8) = Some f
  end.

Definition slot_addr (k : Z) (i : nat) : Z := k + sizeof_descriptor * Z.of_nat i.

(** The loops read one byte after the last descriptor, which is never set. *)
Record table (m : mem) (k : Z) (T : list slot) : Prop := {
  tb_length : length T = 341%nat;
  tb_slots i o : T !! i = Some o → slot_at m (slot_addr k i) i o;
  tb_end : m !! (slot_addr k 341) = Some 0
}.

Lemma capacity_eq : capacity = 341.
Proof. reflexivity. Qed.

Lemma slot_ext m m' d i o : (∀ x, d ≤ x ∧ x < d + sizeof_descriptor → m' !! x = m !! x) → slot_at m d i o → slot_at m' d i o.
Proof.
  unfold sizeof_descriptor. intros H. assert (m' !! d = m !! d ∧ word m' (d + 4) = word m (d + 4) ∧ word m' (d + 8) = word m (d + 8)) as (E1 & E2 & E3)
    by (split_and!; [apply H; lia|apply word_ext; intros; apply H; lia..]).
  unfold slot_at. by rewrite E1, E2, E3.
Qed.

Lemma table_page m k T i : table m k T → (i < 341)%nat → k ≤ slot_addr k i ∧ slot_addr k i + sizeof_descriptor ≤ slot_addr k 341 ∧ slot_addr k 341 = k + 4092.
Proof. unfold slot_addr, sizeof_descriptor. intros _ Hi. lia. Qed.

Lemma table_ext m m' k T : (∀ x, k ≤ x < k + PGSIZE → m' !! x = m !! x) → table m k T → table m' k T.
Proof.
  intros H [H1 H2 H3]. rewrite PGSIZE_eq in H. split; [done| |].
  - intros i o Ho. apply (slot_ext m); [|by apply H2]. apply lookup_lt_Some in Ho. intros x Hx. apply H. unfold slot_addr, sizeof_descriptor in *. lia.
  - rewrite H; [done|]. unfold slot_addr, sizeof_descriptor. lia.
Qed.

(** One descriptor changes. *)
Lemma table_put m m' k T j o :
  table m k T → (j < 341)%nat → (∀ x, ¬ (slot_addr k j ≤ x < slot_addr k j + sizeof_descriptor) → m' !! x = m !! x) → slot_at m' (slot_addr k j) j o →
  table m' k (<[j := o]> T).
Proof.
  intros [H1 H2 H3] Hj Hout Hs. split; [by rewrite length_insert| |].
  - intros i o' [(<- & <- & _)|[Hne Ho]]%list_lookup_insert_Some; [done|]. apply (slot_ext m); [|by apply H2]. intros x Hx. apply Hout. unfold slot_addr, sizeof_descriptor in *. lia.
  - rewrite Hout; [done|]. unfold slot_addr, sizeof_descriptor. lia.
Qed.

(** A page of zeros has no descriptor in use. *)
Lemma table_zero m k : (∀ x, k ≤ x < k + PGSIZE → m !! x = Some 0) → table m k (replicate 341 Free).
Proof.
  rewrite PGSIZE_eq. intros H. split; [apply length_replicate| |].
  - intros i o [-> Hi]%lookup_replicate. cbn. apply H. unfold slot_addr, sizeof_descriptor. lia.
  - apply H. unfold slot_addr, sizeof_descriptor. lia.
Qed.

Section inv.
  Context {S : Type} {PA : PageAllocator S} {PL : PageAllocatorLaws S} {PP : PagePool S}.
  Context {F : Type} {FI : Files F} {FL : FilesLaws F}.
  Context (ke : kenv) (P : gset Z).
  Implicit Types (s : proc S F) (a : vm) (L : layout) (T : list slot).

(** ** Processes *)

(** A process with the address space [L] and the open files [T]. *)
Record running a L T s : Prop := {
  rn_space : uspace ke P a L s;
  rn_disk : vfs_ok (disk s);
  rn_page : file_descriptor_page s ∈ loose a;
  rn_table : table (bytes a) (file_descriptor_page s) T;
  rn_open i f : T !! i = Some (Used f) → is_Some (vfs_view (disk s) f) ∧ f ≠ process_executable s;
  rn_inj i j f : T !! i = Some (Used f) → T !! j = Some (Used f) → i = j;
  rn_exec : process_executable s = NULL ∨ is_Some (vfs_view (disk s) (process_executable s))
}.

(** What a step of the process leaves alone: the pages of other processes, the
    other address spaces, and the files outside [X], which stay open at their
    positions. *)
Record serves (X : Z → Prop) a s a' s' : Prop := {
  sv_loose : loose a' = loose a;
  sv_kept : kept (pagedir s) a a';
  sv_bytes k x : k ∈ loose a → k ≠ file_descriptor_page s → k ≤ x < k + PGSIZE → bytes a' !! x = bytes a !! x;
  sv_pagedir : pagedir s' = pagedir s;
  sv_page : file_descriptor_page s' = file_descriptor_page s;
  sv_exec : process_executable s' = process_executable s;
  sv_files g : ¬ X g → snd <$> vfs_view (disk s') g = snd <$> vfs_view (disk s) g
}.
Definition no_file (g : Z) : Prop := False.

Lemma serves_refl X a s : serves X a s a s.
Proof. by split. Qed.

Lemma serves_trans (X X1 X2 : Z → Prop) a1 s1 a2 s2 a3 s3 :
  serves X1 a1 s1 a2 s2 → serves X2 a2 s2 a3 s3 → (∀ g, X1 g → X g) → (∀ g, X2 g → X g) → serves X a1 s1 a3 s3.
Proof.
  intros [A1 A2 A3 A4 A5 A6 A7] [B1 B2 B3 B4 B5 B6 B7] H1 H2. split; try congruence.
  - eapply kept_trans; [done|]. by rewrite A4 in B2.
  - intros k x Hk Hn Hx. rewrite (B3 k) by (congruence || by rewrite A1). by apply (A3 k).
  - intros g Hg. rewrite B7 by naive_solver. apply A7. naive_solver.
Qed.
Lemma serves_weaken (X X' : Z → Prop) a s a' s' : serves X a s a' s' → (∀ g, X g → X' g) → serves X' a s a' s'.
Proof. intros [] H. split; try done. naive_solver. Qed.

(** User memory changes. *)
Lemma running_user a L L' T s a' t :
  running a L T s → uspace ke P a' L' (set_mach t s) → ukept (pagedir s) a a' →
  running a' L' T (set_mach t s) ∧ serves no_file a s a' (set_mach t s).
Proof.
  intros [R1 R2 R3 R4 R5 R6 R7] Hs [K1 K2 K3]. split; [split|split]; try done.
  - cbn. by rewrite K1.
  - apply (table_ext (bytes a)); [|done]. intros x Hx. by apply (K3 (file_descriptor_page s)).
  - intros k x Hk _. by apply K3.
Qed.

(** A register changes. *)
Lemma running_eax a L T s v : running a L T s → running a L T (set_eax v s) ∧ serves no_file a s a (set_eax v s).
Proof. intros [[U1 U2 U3] R2 R3 R4 R5 R6 R7]. split; [split; try done; by split|by split]. Qed.

(** The file system changes, but for [f] only contents do. *)
Lemma running_disk a L T s d j o :
  running a L T s → vfs_ok d → T !! j = Some o →
  (∀ f, o = Used f → is_Some (vfs_view d f)) → (∀ g, ¬ o = Used g → snd <$> vfs_view d g = snd <$> vfs_view (disk s) g) →
  running a L T (set_disk d s) ∧ serves (λ g, o = Used g) a s a (set_disk d s).
Proof.
  intros [[U1 U2 U3] R2 R3 R4 R5 R6 R7] Hd Ho Hf Hg. assert (∀ g, is_Some (vfs_view (disk s) g) → is_Some (vfs_view d g)) as Hs.
  { intros g Hv. destruct (decide (o = Used g)) as [->|Hne]; [by apply Hf|]. specialize (Hg g Hne). destruct (vfs_view d g); [by eexists|]. destruct Hv as [? Hv]. by rewrite Hv in Hg. }
  split; split; try done.
  - intros i f Hi. destruct (R5 i f Hi). split; [by apply Hs|done].
  - destruct R7; [by left|right; by apply Hs].
Qed.

(** ** Steps on the page *)

Lemma running_memory a L T s :
  running a L T s → let k := file_descriptor_page s in
  kpage_ok k ∧ mapped (memory_of s) k PGSIZE ∧ table (memory_of s) k T.
Proof.
  intros [[U1 U2 U3] R2 R3 R4 R5 R6 R7]. destruct (rep_loose _ _ _ _ _ U1 R3) as (H1 & H2 & _ & H3). split; [done|]. split; [done|].
  by apply (table_ext (bytes a)).
Qed.

(** One descriptor is written. *)
Lemma running_put a L T s j o m' :
  running a L T s → (j < 341)%nat → let d := slot_addr (file_descriptor_page s) j in
  dom m' = dom (memory_of s) → (∀ x, ¬ (d ≤ x < d + sizeof_descriptor) → m' !! x = memory_of s !! x) → slot_at m' d j o →
  (∀ f, o = Used f → is_Some (vfs_view (disk s) f) ∧ f ≠ process_executable s ∧ ∀ i, T !! i = Some (Used f) → i = j) →
  ∃ a', running a' L (<[j := o]> T) (with_mem m' s) ∧ memory_of (with_mem m' s) = m' ∧ serves no_file a s a' (with_mem m' s).
Proof.
  intros Hr Hj d Hd Hout Hs Ho. pose proof (running_memory _ _ _ _ Hr) as (Hk & Hm & Ht). destruct Hr as [[U1 U2 U3] R2 R3 R4 R5 R6 R7]. set (k := file_descriptor_page s) in *.
  assert (∀ x, ¬ (k ≤ x < k + PGSIZE) → m' !! x = memory_of s !! x) as Hout' by (intros x Hx; apply Hout; unfold d, slot_addr, sizeof_descriptor; rewrite PGSIZE_eq in Hx; lia).
  destruct (img_fill _ _ _ _ k m' U1 R3 Hd Hout') as (a' & Hr' & Hl & Ha & Hsp & Hh & Hb). pose proof (memory_with _ _ _ s m' U1 Hd) as Em.
  assert (kept (pagedir s) a a') as Hkp by by apply kept_all. exists a'. split; [|split; [done|]]; split; try done.
  - split; [done|by apply Hh|by rewrite Ha].
  - change (file_descriptor_page (with_mem m' s)) with k. by rewrite Hl.
  - change (file_descriptor_page (with_mem m' s)) with k. apply (table_ext m'); [exact Hb|]. by apply (table_put (memory_of s)).
  - intros i f [(<- & -> & _)|[_ Hi]]%list_lookup_insert_Some; [destruct (Ho f eq_refl) as (? & ? & _); done|by apply (R5 i)].
  - intros i1 i2 f [(<- & -> & _)|[N1 H1]]%list_lookup_insert_Some [(<- & E2 & _)|[N2 H2]]%list_lookup_insert_Some; subst; try done.
    + destruct (Ho f eq_refl) as (_ & _ & H). symmetry. by apply H.
    + destruct (Ho f eq_refl) as (_ & _ & H). by apply H.
    + by apply (R6 i1 i2 f).
  - intros k' x Hk' Hne Hx. change (file_descriptor_page s) with k in Hne. destruct (rep_loose _ _ _ _ k' Hr') as (_ & _ & _ & E1); [by rewrite Hl|]. destruct (rep_loose _ _ _ _ k' U1 Hk') as ((_ & _ & Hka) & _ & _ & E2).
    rewrite <-E1, <-E2 by done. change (memory_of (with_mem m' s) !! x = memory_of s !! x). rewrite Em. apply Hout'. apply (pages_apart k' k); [done|apply Hk|done|done].
Qed.

Lemma rd_word s x v : word (memory_of s) x = Some v → on_mach (rd32 x) s = Ok (v, s).
Proof. intros E. rewrite (on_mach_ok _ _ _ _ (rd32_ok _ _ _ E)). by destruct s. Qed.

Lemma rd_byte s x v : memory_of s !! x = Some v → on_mem (rd8 x) s = Ok (v, s).
Proof. intros E. rewrite (on_mem_run _ _ _ _ (rd8_ok _ _ _ E)). by rewrite with_mem_same. Qed.

Lemma wr_word s x v : mapped (memory_of s) x 4 → on_mach (wr32 x v) s = Ok (tt, with_mem (store x (le_bytes 4 v) (memory_of s)) s).
Proof.
  intros Hm. assert (is_Some (word (memory_of s) x)) as Hw.
  { unfold word. destruct (Hm x) as [? ->]; [lia|]. destruct (Hm (x + 1)) as [? ->]; [lia|]. destruct (Hm (x + 2)) as [? ->]; [lia|]. destruct (Hm (x + 3)) as [? ->]; [lia|]. by eexists. }
  by rewrite (on_mach_ok _ _ _ _ (wr32_ok _ x v Hw)).
Qed.

Lemma wr_byte s x v : is_Some (memory_of s !! x) → on_mem (wr8 x v) s = Ok (tt, with_mem (<[x := v]> (memory_of s)) s).
Proof. intros Hm. by rewrite (on_mem_run _ _ _ _ (wr8_ok _ _ v Hm)). Qed.

(** The loop over the descriptors that finds one in use: the number that the
    program asks for does not matter. *)
Lemma get_loop_ok n i k T s :
  table (memory_of s) k T → Forall (λ o, o ≠ Taken) T → (n + i = 342)%nat →
  get_loop n k (Z.of_nat i) s =
    Ok (match list_find (λ o, o ≠ Free) (drop i T) with Some (j, _) => slot_addr k (i + j) | None => NULL end, s).
Proof.
  revert i. induction n as [|n IH]; intros i Ht Hnt Hn.
  { cbn. rewrite drop_ge; [done|]. rewrite (tb_length _ _ _ Ht). lia. }
  cbn [get_loop]. change (k + sizeof_descriptor * Z.of_nat i) with (slot_addr k i). replace (Z.of_nat i + 1) with (Z.of_nat (Datatypes.S i)) by lia.
  destruct (decide (i = 341)%nat) as [->|Hi].
  { rewrite (bind_ok _ _ _ _ _ (rd_byte _ _ _ (tb_end _ _ _ Ht))), decide_False by tauto. rewrite IH by (done || lia). rewrite !drop_ge by (rewrite (tb_length _ _ _ Ht); lia). done. }
  destruct (lookup_lt_is_Some_2 T i) as [o Ho]; [rewrite (tb_length _ _ _ Ht); lia|]. rewrite (drop_S _ _ _ Ho). pose proof (tb_slots _ _ _ Ht i o Ho) as Hs. cbn [list_find].
  destruct o as [| |f]; cbn [slot_at] in Hs.
  - rewrite (bind_ok _ _ _ _ _ (rd_byte _ _ _ Hs)), decide_False by tauto. rewrite IH by (done || lia). rewrite decide_False by tauto.
    destruct (list_find (λ o, o ≠ Free) (drop (Datatypes.S i) T)) as [[j x]|]; cbn; [|done]. do 2 f_equal. f_equal. lia.
  - rewrite Forall_lookup in Hnt. by apply Hnt in Ho.
  - destruct Hs as (Hs1 & Hs2 & _). rewrite (bind_ok _ _ _ _ _ (rd_byte _ _ _ Hs1)), decide_True by done. rewrite (bind_ok _ _ _ _ _ (rd_word _ _ _ Hs2)).
    rewrite wraps_small by (done || unfold in_s; lia). rewrite decide_True by done. rewrite decide_True by done. cbn. by rewrite Nat.add_0_r.
Qed.

Lemma get_file_descriptor_ok a L T s fd :
  running a L T s → Forall (λ o, o ≠ Taken) T →
  get_file_descriptor fd s =
    Ok (if decide (fd <= 1) then NULL else match list_find (λ o, o ≠ Free) T with Some (j, _) => slot_addr (file_descriptor_page s) j | None => NULL end, s).
Proof.
  intros Hr Hnt. destruct (running_memory _ _ _ _ Hr) as (_ & _ & Ht). unfold get_file_descriptor. case_decide; [done|]. rewrite (bind_ok _ _ _ _ _ eq_refl).
  rewrite capacity_eq. by rewrite (get_loop_ok 342 0 _ T s).
Qed.

End inv.
