(* ===== verification/DescriptorCalls.v ===== *)
(** * The functions on descriptors

    What the functions of userprog/descriptor.c do to a process, its files and
    its memory. *)

From S2P Require Import Prelude Vaddr CString Bitmap Palloc PageDir PageDirSpec PageDirInv PageDirTheorems FileApi Process ProcessSpec ProcessImage ProcessLoad ProcessTheorems Descriptor UserMemory DescriptorInv.

(** The files that a step changes are among those of the process. *)
Ltac own_files := intros ? ?; first [done | assumption | left; simplify_eq; by eapply list_elem_of_lookup_2 | right; simplify_eq; by eapply list_elem_of_lookup_2].
Tactic Notation "serve" uconstr(H1) := apply (serves_weaken _ _ _ _ _ _ H1); own_files.
Tactic Notation "serve" uconstr(H1) "then" uconstr(H2) := apply (serves_trans _ _ _ _ _ _ _ _ _ H1 H2); own_files.

Section calls.
  Context {S : Type} {PA : PageAllocator S} {PL : PageAllocatorLaws S} {PP : PagePool S}.
  Context {F : Type} {FI : Files F} {FL : FilesLaws F}.
  Context (ke : kenv) (P : gset Z).
  Implicit Types (s : proc S F) (a : vm) (L : layout) (T : list slot).
  Notation running := (running ke P).

(** Between calls no file is being opened. *)
Definition settled T : Prop := Forall (λ o, o ≠ Taken) T.

(** The files of a process before and after a call. *)
Definition either T T' (g : Z) : Prop := Used g ∈ T ∨ Used g ∈ T'.

(** A table of descriptors after a call: the files that are new were not open. *)
Definition follows s T T' : Prop := settled T' ∧ ∀ g, Used g ∈ T' → Used g ∈ T ∨ vfs_view (disk s) g = None.
Lemma follows_same s T : settled T → follows s T T.
Proof. intros Hst. split; [done|]. by left. Qed.

(** A program that ends well in the state of a process. *)
Definition ends {A} (m : M (proc S F) A) a L T s (Q : A → layout → list slot → proc S F → Prop) : Prop :=
  ∃ r s' a' L' T', m s = Ok (r, s') ∧ running a' L' T' s' ∧ follows s T T' ∧ serves (either T T') a s a' s' ∧ Q r L' T' s'.

#[local] Hint Extern 0 (follows _ _ _) => apply follows_same; assumption : core.

Lemma ends_ret {A} (r : A) a L T s (Q : A → layout → list slot → proc S F → Prop) :
  running a L T s → settled T → Q r L T s → ends (mret r) a L T s Q.
Proof. intros Hr Ht HQ. exists r, s, a, L, T. split; [done|]. split; [done|]. split; [done|]. split; [apply serves_refl|done]. Qed.

(** The first descriptor in use, which the functions take for any number. *)
Lemma get_file_cases a L T s fd :
  running a L T s → settled T →
  get_file_descriptor fd s = Ok (NULL, s) ∧ (fd <= 1 ∨ list_find (λ o, o ≠ Free) T = None) ∨
  ∃ j f, 1 < fd ∧ list_find (λ o, o ≠ Free) T = Some (j, Used f) ∧ T !! j = Some (Used f) ∧ (j < 341)%nat ∧
    get_file_descriptor fd s = Ok (slot_addr (file_descriptor_page s) j, s) ∧
    slot_addr (file_descriptor_page s) j ≠ NULL ∧ on_mach (rd32 (slot_addr (file_descriptor_page s) j + 8)) s = Ok (f, s) ∧ is_Some (vfs_view (disk s) f).
Proof.
  intros Hr Hst. rewrite (get_file_descriptor_ok ke P a L T s fd Hr Hst). destruct (decide (fd <= 1)) as [Hfd|Hfd]; [left; split; [done|by left]|].
  destruct (list_find (λ o, o ≠ Free) T) as [[j o]|] eqn:E; [|left; split; [done|by right]]. right. pose proof E as (Ho & Hne & _)%list_find_Some.
  pose proof (running_memory _ _ _ _ _ _ Hr) as (Hk & _ & Ht). assert (j < 341)%nat as Hj by (apply lookup_lt_Some in Ho; by rewrite (tb_length _ _ _ Ht) in Ho).
  destruct o as [| |f]; [done| |]. { unfold settled in Hst. rewrite Forall_lookup in Hst. by apply Hst in Ho. }
  exists j, f. split; [lia|]. split; [done|]. split; [done|]. split; [done|]. split; [done|]. destruct (tb_slots _ _ _ Ht j _ Ho) as (_ & _ & H3). split; [|split; [by apply rd_word|by apply (rn_open _ _ _ _ _ _ Hr j)]].
  destruct Hk as (Hk & _). unfold slot_addr, sizeof_descriptor, NULL, PHYS_BASE in *. lia.
Qed.

(** ** Positions and lengths *)

Lemma fd_tell_ends a L T s fd : running a L T s → settled T → ends (fd_tell fd) a L T s (λ _ L' T' s', L' = L ∧ T' = T ∧ s' = s).
Proof.
  intros Hr Hst. unfold fd_tell. destruct (get_file_cases a L T s fd Hr Hst) as [[E _]|(j & f & _ & _ & Hj & _ & E & Hn & Ef & [[bs ps] Hv])].
  - unfold ends. rewrite (bind_ok _ _ _ _ _ E), decide_False by tauto. by apply (ends_ret _ a L T s).
  - unfold ends. rewrite (bind_ok _ _ _ _ _ E), decide_True by done. rewrite (bind_ok _ _ _ _ _ Ef).
    rewrite (bind_ok _ _ _ _ _ (on_files_ok _ _ _ _ (vfs_tell_ok _ _ _ _ (rn_disk _ _ _ _ _ _ Hr) Hv))), set_disk_same. by apply (ends_ret _ a L T s).
Qed.

Lemma fd_filesize_ends a L T s fd : running a L T s → settled T → ends (fd_filesize fd) a L T s (λ _ L' T' s', L' = L ∧ T' = T ∧ s' = s).
Proof.
  intros Hr Hst. unfold fd_filesize. destruct (get_file_cases a L T s fd Hr Hst) as [[E _]|(j & f & _ & _ & Hj & _ & E & Hn & Ef & [[bs ps] Hv])].
  - unfold ends. rewrite (bind_ok _ _ _ _ _ E), decide_False by tauto. by apply (ends_ret _ a L T s).
  - unfold ends. rewrite (bind_ok _ _ _ _ _ E), decide_True by done. rewrite (bind_ok _ _ _ _ _ Ef).
    rewrite (on_files_ok _ _ _ _ (vfs_length_ok _ _ _ _ (rn_disk _ _ _ _ _ _ Hr) Hv)), set_disk_same. by apply (ends_ret _ a L T s).
Qed.

Lemma fd_seek_ends a L T s fd position :
  running a L T s → settled T → 0 ≤ position < 2 ^ 31 → ends (fd_seek fd position) a L T s (λ _ L' T' s', L' = L ∧ T' = T).
Proof.
  intros Hr Hst Hp. unfold fd_seek. destruct (get_file_cases a L T s fd Hr Hst) as [[E _]|(j & f & _ & _ & Hj & _ & E & Hn & Ef & [[bs ps] Hv])].
  - unfold ends. rewrite (bind_ok _ _ _ _ _ E), decide_False by tauto. by apply (ends_ret _ a L T s).
  - unfold ends. rewrite (bind_ok _ _ _ _ _ E), decide_True by done. rewrite (bind_ok _ _ _ _ _ Ef).
    rewrite wraps_small by (done || unfold in_s; lia). destruct (vfs_seek_ok _ _ _ _ position (rn_disk _ _ _ _ _ _ Hr) Hv Hp) as (d & Ed & Hd & Ho & Hv').
    destruct (running_disk ke P a L T s d j (Used f) Hr Hd Hj) as [Hr' Hs']; [intros ? [= <-]; by eexists|intros g Hg; rewrite Ho; [done|congruence]|].
    exists tt, (set_disk d s), a, L, T. split; [by apply on_files_ok|]. split; [done|]. split; [done|]. split; [serve Hs'|done].
Qed.

(** ** Reading *)

Lemma running_keys a L T s k : running a L T s → running a L T (set_keys k s) ∧ serves no_file a s a (set_keys k s).
Proof. intros [[U1 U2 U3] R2 R3 R4 R5 R6 R7]. split; [split; try done; by split|by split]. Qed.
Lemma running_console a L T s c : running a L T s → running a L T (set_console c s) ∧ serves no_file a s a (set_console c s).
Proof. intros [[U1 U2 U3] R2 R3 R4 R5 R6 R7]. split; [split; try done; by split|by split]. Qed.

(** The keys that are read: up to a newline, at most [n]. *)
Fixpoint typed (n : nat) (k : nat → Z) : list Z :=
  match n with
  | O => []
  | Datatypes.S n => let c := u8 (k 0%nat) in if decide (c = 10) then [c] else c :: typed n (λ i, k (Datatypes.S i))
  end.

Lemma read_keys_ends n a L T s buffer index :
  running a L T s → settled T → 0 ≤ buffer + index → 0 ≤ index → buffer + index + Z.of_nat n ≤ PHYS_BASE → range_allows L true (buffer + index) (Z.of_nat n) →
  ends (read_keys n buffer index) a L T s (λ r L' T' _, index ≤ r ≤ index + Z.of_nat n ∧ T' = T ∧ L' = image_puts L (buffer + index) (typed n (keys s))).
Proof.
  revert a L s index. induction n as [|n IH]; intros a L s index Hr Hst H0 Hi0 Hn Ha; [apply (ends_ret _ a L T s); [done|done|split; [lia|done]]|].
  cbn [read_keys typed]. set (c := u8 (keys s 0%nat)). unfold ends. assert (input_getc s = Ok (c, set_keys (λ i, keys s (Datatypes.S i)) s)) as E1 by done. rewrite (bind_ok _ _ _ _ _ E1).
  destruct (running_keys a L T s (λ i, keys s (Datatypes.S i)) Hr) as [Hr1 Hs1]. set (s1 := set_keys _ s) in *.
  destruct (put_user_ok ke P a L s1 (buffer + index) c) as (t & a2 & E2 & Hu2 & Hk2); [apply Hr1|lia|apply Ha; lia|]. rewrite (bind_ok _ _ _ _ _ E2).
  destruct (running_user ke P a L _ T s1 a2 t Hr1 Hu2 Hk2) as [Hr2 Hs2]. assert (serves no_file a s a2 (set_mach t s1)) as Hs by serve Hs1 then Hs2.
  destruct (decide (c = 10)) as [->|Hc].
  - exists index, (set_mach t s1), a2, (image_put L (buffer + index) 10), T. split; [done|]. split; [done|]. split; [done|]. split; [serve Hs|]. split; [lia|done].
  - destruct (IH a2 (image_put L (buffer + index) c) (set_mach t s1) (index + 1) Hr2 Hst) as (r & s' & a' & L' & T' & E & H1 & H2 & H3 & H4 & -> & HL); [lia|lia|lia|intros x Hx; apply image_put_allows, Ha; lia|].
    exists r, s', a', L', T. split; [done|]. split; [done|]. split; [done|]. split; [serve Hs then H3|]. split; [lia|]. split; [done|].
    rewrite HL. cbn [image_puts]. by replace (buffer + (index + 1)) with (buffer + index + 1) by lia.
Qed.

Lemma fd_read_ends a L T s fd buffer size :
  running a L T s → settled T → in_u 32 size → 0 < buffer → buffer + size ≤ PHYS_BASE → range_allows L true buffer size →
  ends (fd_read fd buffer size) a L T s (λ r L' T' s', T' = T ∧
    ∀ j f bs ps, 1 < fd → list_find (λ o, o ≠ Free) T = Some (j, Used f) → vfs_view (disk s) f = Some (bs, ps) →
      0 ≤ r ≤ size ∧ L' = image_puts L buffer (slice bs ps r) ∧ vfs_view (disk s') f = Some (bs, ps + r) ∧ others_kept f (disk s) (disk s')).
Proof.
  intros Hr Hst Hsz Hb He Ha. unfold fd_read. destruct (decide (buffer = NULL ∨ fd < 0 ∨ fd = 1)) as [D|D].
  { apply (ends_ret _ a L T s); [done|done|]. split; [done|]. unfold NULL in *. lia. }
  destruct (decide (fd = 0)) as [->|Hfd].
  { destruct (read_keys_ends (Z.to_nat size) a L T s buffer 0 Hr Hst) as (r & s' & a' & L' & T' & E & H1 & H2 & H3 & H4 & -> & HL); [lia|lia|unfold in_u in *; lia|rewrite Z.add_0_r, Z2Nat.id by (unfold in_u in *; lia); done|].
    unfold ends. rewrite (bind_ok _ _ _ _ _ E). eexists _, s', a', L', T. split; [done|]. split; [done|]. split; [done|]. split; [done|]. split; [done|]. lia. }
  unfold ends. destruct (get_file_cases a L T s fd Hr Hst) as [[E Hno]|(j & f & _ & Hfind & Hj & _ & E & Hn & Ef & [[bs ps] Hv])].
  { rewrite (bind_ok _ _ _ _ _ E), decide_False by tauto. apply (ends_ret _ a L T s); [done|done|]. split; [done|]. intros j f bs ps Hfd1 Hf. destruct Hno; [lia|congruence]. }
  rewrite (bind_ok _ _ _ _ _ E), decide_True by done. rewrite (bind_ok _ _ _ _ _ Ef).
  destruct (vfs_view_ok _ _ _ _ (rn_disk _ _ _ _ _ _ Hr) Hv) as (_ & Hps & Hbl).
  destruct (vfs_read_ok _ _ _ _ (i32 size) (rn_disk _ _ _ _ _ _ Hr) Hv) as (n & d & Ed & Hd & Hn1 & Hn2 & Ho & Hv'). rewrite (bind_ok _ _ _ _ _ (on_files_ok _ _ _ _ Ed)).
  destruct (running_disk ke P a L T s d j (Used f) Hr Hd Hj) as [Hr1 Hs1]; [intros ? [= <-]; by eexists|intros g Hg; rewrite Ho; [done|congruence]|].
  assert (n ≤ size) as Hns by (unfold in_u, wraps in *; change (2 ^ 32) with 4294967296 in *; change (2 ^ (32 - 1)) with 2147483648 in *; dlia).
  assert (Z.of_nat (length (slice bs ps n)) = n) as Hl by (destruct (decide (n = 0)) as [->|]; [by rewrite slice_nil|apply slice_lengthZ; lia]).
  destruct (write_user_ok ke P (slice bs ps n) a L (set_disk d s) buffer) as (t & a2 & E2 & Hu2 & Hk2); [apply Hr1|lia|lia|rewrite Hl; apply (range_sub _ _ _ _ _ _ Ha); lia|].
  rewrite (bind_ok _ _ _ _ _ E2). destruct (running_user ke P a L _ T (set_disk d s) a2 t Hr1 Hu2 Hk2) as [Hr2 Hs2].
  eexists _, _, a2, _, T. split; [done|]. split; [exact Hr2|]. split; [done|]. split; [serve Hs1 then Hs2|]. split; [done|].
  intros j' f' bs' ps' _ Hf' Hv2. assert (f' = f) as -> by congruence. assert (bs' = bs ∧ ps' = ps) as [-> ->] by (split; congruence). rewrite Hl. split; [lia|]. done.
Qed.

(** ** Writing *)

Lemma fd_write_ends a L T s fd buffer size :
  running a L T s → settled T → in_u 32 size → 0 < buffer → buffer + size ≤ PHYS_BASE → range_allows L false buffer size →
  ends (fd_write fd buffer size) a L T s (λ r L' T' s', L' = L ∧ T' = T ∧
    ∀ j f bs ps, 1 < fd → list_find (λ o, o ≠ Free) T = Some (j, Used f) → vfs_view (disk s) f = Some (bs, ps) →
      0 ≤ r ≤ size ∧ ∃ new, Z.of_nat (length new) = r ∧ (∀ i b, new !! i = Some b → image_byte L (buffer + Z.of_nat i) = Some b) ∧
        vfs_view (disk s') f = Some (splice bs ps new, ps + r)).
Proof.
  intros Hr Hst Hsz Hb He Ha. unfold fd_write. unfold in_u in Hsz. destruct (decide (buffer = NULL ∨ fd <= 0)) as [D|D].
  { apply (ends_ret _ a L T s); [done|done|]. split; [done|]. split; [done|]. unfold NULL in *. lia. }
  destruct (decide (fd = 1)) as [->|Hfd].
  { destruct (read_user_ok ke P (Z.to_nat size) a L s buffer) as (bs & t & a2 & E2 & Hu2 & Hk2 & _); [apply Hr|lia|lia|rewrite Z2Nat.id by lia; done|].
    destruct (running_user ke P a L _ T s a2 t Hr Hu2 Hk2) as [Hr2 Hs2]. destruct (running_console a2 L T _ (console s ++ bs) Hr2) as [Hr3 Hs3].
    eexists _, _, a2, L, T. split; [unfold putbuf; rewrite bind_assoc; by rewrite (bind_ok _ _ _ _ _ E2)|]. split; [exact Hr3|]. split; [done|]. split; [serve Hs2 then Hs3|]. split; [done|]. split; [done|]. lia. }
  unfold ends. destruct (get_file_cases a L T s fd Hr Hst) as [[E Hno]|(j & f & _ & Hfind & Hj & _ & E & Hn & Ef & [[bs ps] Hv])].
  { rewrite (bind_ok _ _ _ _ _ E), decide_False by tauto. apply (ends_ret _ a L T s); [done|done|]. split; [done|]. split; [done|]. intros j f bs ps Hfd1 Hf. destruct Hno; [lia|congruence]. }
  rewrite (bind_ok _ _ _ _ _ E), decide_True by done. rewrite (bind_ok _ _ _ _ _ Ef).
  assert (0 `max` i32 size ≤ size) as Hns by (unfold wraps in *; change (2 ^ 32) with 4294967296 in *; change (2 ^ (32 - 1)) with 2147483648 in *; dlia).
  destruct (read_user_ok ke P (Z.to_nat (i32 size)) a L s buffer) as (buf & t & a2 & E2 & Hu2 & Hk2 & Hbl & Hbuf); [apply Hr|lia|lia|apply (range_sub _ _ _ _ _ _ Ha); lia|].
  rewrite (bind_ok _ _ _ _ _ E2). destruct (running_user ke P a L _ T s a2 t Hr Hu2 Hk2) as [Hr2 Hs2].
  destruct (vfs_write_ok (disk s) f bs ps buf (i32 size) (rn_disk _ _ _ _ _ _ Hr) Hv) as (n & d & Ed & Hd & Hn1 & Hv' & Ho); [lia|].
  destruct (running_disk ke P a2 L T (set_mach t s) d j (Used f) Hr2 Hd Hj) as [Hr3 Hs3]; [intros ? [= <-]; by eexists|intros g Hg; apply Ho; congruence|].
  exists n, (set_disk d (set_mach t s)), a2, L, T. split; [by apply (on_files_ok _ (set_mach t s))|]. split; [done|]. split; [done|]. split; [serve Hs2 then Hs3|]. split; [done|]. split; [done|].
  intros j' f' bs' ps' _ Hf' Hv2. assert (f' = f) as -> by congruence. assert (bs' = bs ∧ ps' = ps) as [-> ->] by (split; congruence). split; [lia|].
  exists (take (Z.to_nat n) buf). split; [rewrite length_take; lia|]. split; [|done]. intros i b Hi. apply Hbuf. by apply lookup_take_Some in Hi as [? _].
Qed.

(** ** Names *)

Lemma running_views a L T s d :
  running a L T s → vfs_ok d → (∀ g, (∃ i, T !! i = Some (Used g)) ∨ g = process_executable s → is_Some (vfs_view (disk s) g) → is_Some (vfs_view d g)) →
  running a L T (set_disk d s).
Proof.
  intros [[U1 U2 U3] R2 R3 R4 R5 R6 R7] Hd Hg. split; try done.
  - intros i f Hi. destruct (R5 i f Hi) as [Hv Hne]. split; [|done]. apply Hg; [left; by eexists|done].
  - destruct R7 as [|Hv]; [by left|right]. apply Hg; [by right|done].
Qed.

Lemma running_disk_same a L T s d :
  running a L T s → vfs_ok d → (∀ g, vfs_view d g = vfs_view (disk s) g) → running a L T (set_disk d s) ∧ serves no_file a s a (set_disk d s).
Proof. intros Hr Hd Hg. split; [apply running_views; try done; intros g _; by rewrite Hg|]. split; try done. intros g _. cbn. by rewrite Hg. Qed.

Lemma fd_create_ends a L T s file str size :
  running a L T s → settled T → user_str L file str → 0 ≤ size < 2 ^ 31 → ends (fd_create file size) a L T s (λ _ L' T' _, L' = L ∧ T' = T).
Proof.
  intros Hr Hst Hf Hsz. unfold fd_create, ends. destruct (user_string_ok ke P a L s file str (rn_space _ _ _ _ _ _ Hr) Hf) as (t & a2 & E2 & Hu2 & Hk2). rewrite (bind_ok _ _ _ _ _ E2).
  destruct (running_user ke P a L _ T s a2 t Hr Hu2 Hk2) as [Hr2 Hs2]. rewrite wraps_small by (done || unfold in_s; lia).
  destruct (vfs_create_ok (disk s) str size (rn_disk _ _ _ _ _ _ Hr) (st_chars _ _ _ Hf) Hsz) as (ok & d & Ed & Hd & Hv). destruct (running_disk_same a2 L T (set_mach t s) d Hr2 Hd Hv) as [Hr3 Hs3].
  exists ok, (set_disk d (set_mach t s)), a2, L, T. split; [by apply (on_files_ok _ (set_mach t s))|]. split; [done|]. split; [done|]. split; [serve Hs2 then Hs3|done].
Qed.

Lemma fd_remove_ends a L T s file str :
  running a L T s → settled T → user_str L file str → ends (fd_remove file) a L T s (λ _ L' T' _, L' = L ∧ T' = T).
Proof.
  intros Hr Hst Hf. unfold fd_remove, ends. destruct (user_string_ok ke P a L s file str (rn_space _ _ _ _ _ _ Hr) Hf) as (t & a2 & E2 & Hu2 & Hk2). rewrite (bind_ok _ _ _ _ _ E2).
  destruct (running_user ke P a L _ T s a2 t Hr Hu2 Hk2) as [Hr2 Hs2].
  destruct (vfs_remove_ok (disk s) str (rn_disk _ _ _ _ _ _ Hr) (st_chars _ _ _ Hf)) as (ok & d & Ed & Hd & Hv). destruct (running_disk_same a2 L T (set_mach t s) d Hr2 Hd Hv) as [Hr3 Hs3].
  exists ok, (set_disk d (set_mach t s)), a2, L, T. split; [by apply (on_files_ok _ (set_mach t s))|]. split; [done|]. split; [done|]. split; [serve Hs2 then Hs3|done].
Qed.

(** ** Closing and opening *)

Lemma slot_mapped a L T s j x n :
  running a L T s → (j < 341)%nat → let d := slot_addr (file_descriptor_page s) j in d ≤ x → x + n ≤ d + sizeof_descriptor → mapped (memory_of s) x n.
Proof.
  intros Hr Hj d H1 H2 y Hy. destruct (running_memory _ _ _ _ _ _ Hr) as (_ & Hm & _). apply Hm. unfold d, slot_addr, sizeof_descriptor in *. rewrite PGSIZE_eq. lia.
Qed.

Lemma store_slot m d x bs : mapped m x (Z.of_nat (length bs)) → d ≤ x → x + Z.of_nat (length bs) ≤ d + sizeof_descriptor →
  dom (store x bs m) = dom m ∧ ∀ y, ¬ (d ≤ y < d + sizeof_descriptor) → store x bs m !! y = m !! y.
Proof. intros Hm H1 H2. split; [by apply store_dom|]. intros y Hy. rewrite store_lookup, decide_False; [done|lia]. Qed.

(** [memset] of a descriptor. *)
Lemma clear_slot a L T s j :
  running a L T s → (j < 341)%nat → let d := slot_addr (file_descriptor_page s) j in
  ∃ m' a', memset d 0 sizeof_descriptor (memory_of s) = Ok (d, m') ∧ running a' L (<[j := Free]> T) (with_mem m' s) ∧ serves no_file a s a' (with_mem m' s).
Proof.
  intros Hr Hj d. pose proof (running_memory _ _ _ _ _ _ Hr) as (Hk & _). assert (0 < d) as Hd by (destruct Hk as (Hk & _); unfold d, slot_addr, sizeof_descriptor, PHYS_BASE in *; lia).
  pose proof (slot_mapped a L T s j d 12 Hr Hj ltac:(lia) ltac:(unfold sizeof_descriptor; lia)) as Hm. pose proof (memset_ok 0 12 d (memory_of s) Hm Hd) as E. set (m' := store _ _ _) in E.
  destruct (store_slot (memory_of s) d d (replicate 12 (u8 0))) as [Hdom Hout]; [rewrite length_replicate; done|lia|rewrite length_replicate; unfold sizeof_descriptor; lia|].
  destruct (running_put ke P a L T s j Free m' Hr Hj Hdom Hout) as (a' & Hr' & _ & Hs'); [|done|].
  { change (m' !! d = Some 0). unfold m'. rewrite store_lookup, length_replicate, decide_True by lia. by rewrite Z.sub_diag. }
  by exists m', a'.
Qed.

Lemma fd_close_ends a L T s fd :
  running a L T s → settled T →
  ends (fd_close fd) a L T s (λ _ L' T' s', L' = L ∧ ∀ j f, 1 < fd → list_find (λ o, o ≠ Free) T = Some (j, Used f) → T' = <[j := Free]> T ∧ vfs_view (disk s') f = None).
Proof.
  intros Hr Hst. unfold fd_close, ends. destruct (get_file_cases a L T s fd Hr Hst) as [[E Hno]|(j & f & _ & Hfind & Hj & Hj' & E & Hn & Ef & Hv)].
  { rewrite (bind_ok _ _ _ _ _ E), decide_False by tauto. apply (ends_ret _ a L T s); [done|done|]. split; [done|]. intros j f Hfd1 Hf. destruct Hno; [lia|congruence]. }
  rewrite (bind_ok _ _ _ _ _ E), decide_True by done. rewrite (bind_ok _ _ _ _ _ Ef).
  destruct (vfs_close_ok _ _ (rn_disk _ _ _ _ _ _ Hr) Hv) as (d & Ed & Hd & Ho & Hv'). rewrite (bind_ok _ _ _ _ _ (on_files_ok _ _ _ _ Ed)).
  destruct (clear_slot a L T s j Hr Hj') as (m' & a' & E2 & Hr2 & [S1 S2 S3 S4 S5 S6 S7]).
  assert (on_mem (memset (slot_addr (file_descriptor_page s) j) 0 sizeof_descriptor) (set_disk d s) = Ok (slot_addr (file_descriptor_page s) j, set_disk d (with_mem m' s))) as E3.
  { exact (on_mem_run _ (set_disk d s) _ _ E2). }
  rewrite (bind_ok _ _ _ _ _ E3). exists tt, (set_disk d (with_mem m' s)), a', L, (<[j := Free]> T). split; [done|]. split; [|split; [|split]].
  - apply running_views; [done|done|]. intros g Hg Hgv. cbn in Hgv |- *. rewrite Ho; [done|]. intros ->. destruct Hg as [[i Hi]|Hg].
    + apply list_lookup_insert_Some in Hi as [(_ & ? & _)|[Hne Hi]]; [done|]. by apply Hne, (rn_inj _ _ _ _ _ _ Hr j i f).
    + by apply (rn_open _ _ _ _ _ _ Hr j f).
  - split; [apply Forall_insert; done|]. intros g [i [(_ & ? & _)|[_ Hi]]%list_lookup_insert_Some]%list_elem_of_lookup_1; [done|]. left. by eapply list_elem_of_lookup_2.
  - split; try done. intros g Hg. cbn. rewrite Ho; [done|]. intros ->. apply Hg. left. by eapply list_elem_of_lookup_2.
  - split; [done|]. intros j2 f2 _ Hf2. assert (j2 = j ∧ f2 = f) as [-> ->] by (split; congruence). done.
Qed.

(** The loop that looks for a free descriptor. *)
Lemma get_new_loop_ok n i k T s :
  table (memory_of s) k T → (n + i = 342)%nat → settled T → ∀ j o, list_find (λ o, o = Free) (drop i T) = Some (j, o) →
  ∀ d, d = slot_addr k (i + j) → get_new_loop n k (Z.of_nat i) s = (on_mem (wr8 d 1);; on_mach (wr32 (d + 4) (2 + Z.of_nat (i + j)));; mret d) s.
Proof.
  revert i. induction n as [|n IH]; intros i Ht Hn Hst j o Hf d ->.
  { rewrite drop_ge in Hf by (rewrite (tb_length _ _ _ Ht); lia). done. }
  destruct (lookup_lt_is_Some T i) as [_ Hlt]. destruct (decide (i < 341)%nat) as [Hi|Hi]; [|rewrite drop_ge in Hf by (rewrite (tb_length _ _ _ Ht); lia); done].
  destruct Hlt as [x Hx]; [rewrite (tb_length _ _ _ Ht); lia|]. rewrite (drop_S _ _ _ Hx) in Hf. cbn [get_new_loop]. change (k + sizeof_descriptor * Z.of_nat i) with (slot_addr k i).
  pose proof (tb_slots _ _ _ Ht i x Hx) as Hs. cbn [list_find] in Hf. destruct (decide (x = Free)) as [->|Hne].
  - injection Hf as <- <-. rewrite (bind_ok _ _ _ _ _ (rd_byte _ _ _ Hs)), decide_True by done. by rewrite Nat.add_0_r.
  - destruct (list_find (λ o, o = Free) (drop (Datatypes.S i) T)) as [[j' o']|] eqn:E; [|done]. cbn in Hf. injection Hf as <- <-.
    assert (memory_of s !! slot_addr k i = Some 1) as H1 by (destruct x; [done|by destruct Hs|by destruct Hs]).
    rewrite (bind_ok _ _ _ _ _ (rd_byte _ _ _ H1)), decide_False by done. replace (Z.of_nat i + 1) with (Z.of_nat (Datatypes.S i)) by lia.
    rewrite (IH (Datatypes.S i) Ht ltac:(lia) Hst j' o' E _ eq_refl). by replace (Datatypes.S i + j')%nat with (i + Datatypes.S j')%nat by lia.
Qed.

(** A descriptor is taken. *)
Lemma take_slot a L T s j :
  running a L T s → settled T → list_find (λ o, o = Free) T = Some (j, Free) →
  let d := slot_addr (file_descriptor_page s) j in
  ∃ m' a', get_new_file_descriptor s = Ok (d, with_mem m' s) ∧ d ≠ NULL ∧ (j < 341)%nat ∧ T !! j = Some Free ∧
    running a' L (<[j := Taken]> T) (with_mem m' s) ∧ serves no_file a s a' (with_mem m' s).
Proof.
  intros Hr Hst Hf d. pose proof (running_memory _ _ _ _ _ _ Hr) as (Hk & Hmap & Ht). pose proof Hf as (HTj & _)%list_find_Some.
  assert (j < 341)%nat as Hj by (apply lookup_lt_Some in HTj; by rewrite (tb_length _ _ _ Ht) in HTj).
  assert (d ≠ NULL) as Hd by (destruct Hk as (Hk & _); unfold d, slot_addr, sizeof_descriptor, NULL, PHYS_BASE in *; lia).
  set (m1 := store d [1] (memory_of s)). set (m2 := store (d + 4) (le_bytes 4 (2 + Z.of_nat j)) m1).
  assert (mapped (memory_of s) d 1 ∧ mapped (memory_of s) (d + 4) 4) as [M1 M4] by (split; apply (slot_mapped a L T s j _ _ Hr Hj); unfold sizeof_descriptor; change (slot_addr (file_descriptor_page s) j) with d; lia).
  destruct (store_slot (memory_of s) d d [1]) as [D1 O1]; [done|lia|unfold sizeof_descriptor; cbn; lia|]. fold m1 in D1, O1.
  assert (mapped m1 (d + 4) 4) as M4' by (intros y Hy; apply elem_of_dom; rewrite D1; apply elem_of_dom, M4, Hy).
  destruct (store_slot m1 d (d + 4) (le_bytes 4 (2 + Z.of_nat j))) as [D2 O2]; [by rewrite le_bytes_length|lia|rewrite le_bytes_length; unfold sizeof_descriptor; lia|]. fold m2 in D2, O2.
  destruct (running_put ke P a L T s j Taken m2 Hr Hj) as (a' & Hr' & _ & Hs'); [congruence|intros x Hx; rewrite O2 by done; by apply O1| |done|].
  - split.
    + change (m2 !! d = Some 1). unfold m2. rewrite store_lookup, le_bytes_length, decide_False by lia. unfold m1. rewrite store_lookup. cbn [length]. rewrite decide_True by lia. by rewrite Z.sub_diag.
    + apply word_bytes; [unfold in_u; lia|]. apply bytes_at_stored.
  - exists m2, a'. split; [|done]. unfold get_new_file_descriptor. rewrite (bind_ok _ _ _ _ _ eq_refl), capacity_eq.
    etransitivity; [by apply (get_new_loop_ok 342 0 (file_descriptor_page s) T s Ht eq_refl Hst j Free Hf d)|]. rewrite (bind_ok _ _ _ tt (with_mem m1 s)) by (by apply wr_byte, M1; lia).
    pose proof (memory_with ke P a s m1 (us_rep _ _ _ _ _ (rn_space _ _ _ _ _ _ Hr)) D1) as Em. rewrite (bind_ok _ _ _ _ _ (wr_word (with_mem m1 s) (d + 4) _ ltac:(by rewrite Em))). by rewrite Em, with_mem_twice.
Qed.

(** The pointer to the file is stored. *)
Lemma point_slot a L T s j f o :
  running a L T s → (j < 341)%nat → T !! j = Some Taken → in_u 32 f →
  o = Taken ∨ o = Used f ∧ is_Some (vfs_view (disk s) f) ∧ f ≠ process_executable s ∧ Used f ∉ T →
  let d := slot_addr (file_descriptor_page s) j in
  ∃ m' a', on_mach (wr32 (d + 8) f) s = Ok (tt, with_mem m' s) ∧ running a' L (<[j := o]> T) (with_mem m' s) ∧ serves no_file a s a' (with_mem m' s) ∧
    word (memory_of (with_mem m' s)) (d + 8) = Some f ∧ word (memory_of (with_mem m' s)) (d + 4) = Some (2 + Z.of_nat j).
Proof.
  intros Hr Hj HT Hf Ho d. pose proof (running_memory _ _ _ _ _ _ Hr) as (_ & _ & Ht). destruct (tb_slots _ _ _ Ht j _ HT) as [S1 S2]. change (slot_addr (file_descriptor_page s) j) with d in S1, S2.
  set (m' := store (d + 8) (le_bytes 4 f) (memory_of s)). assert (mapped (memory_of s) (d + 8) 4) as M8 by (apply (slot_mapped a L T s j _ _ Hr Hj); unfold sizeof_descriptor; change (slot_addr (file_descriptor_page s) j) with d; lia).
  destruct (store_slot (memory_of s) d (d + 8) (le_bytes 4 f)) as [D1 O1]; [by rewrite le_bytes_length|lia|rewrite le_bytes_length; unfold sizeof_descriptor; lia|]. fold m' in D1, O1.
  assert (m' !! d = Some 1 ∧ word m' (d + 4) = Some (2 + Z.of_nat j) ∧ word m' (d + 8) = Some f) as (W1 & W2 & W3).
  { split_and!; [|rewrite <-S2; apply word_ext; intros x Hx|by apply word_bytes, bytes_at_stored]; unfold m'; rewrite store_lookup, le_bytes_length, decide_False by lia; done. }
  destruct (running_put ke P a L T s j o m' Hr Hj D1 O1) as (a' & Hr' & Em & Hs').
  - destruct Ho as [->|[-> _]]; done.
  - intros g ->. destruct Ho as [?|([= ->] & H1 & H2 & H3)]; [done|]. split; [done|]. split; [done|]. intros i Hi. destruct H3. by eapply list_elem_of_lookup_2.
  - exists m', a'. split; [by apply wr_word|]. rewrite Em. done.
Qed.

Lemma fd_open_ends a L T s file str :
  running a L T s → settled T → user_str L file str → Free ∈ T →
  ends (fd_open file) a L T s (λ r L' T' s', L' = L ∧ (r = -1 ∧ T' = T ∨
    ∃ j f bs, list_find (λ o, o = Free) T = Some (j, Free) ∧ r = 2 + Z.of_nat j ∧ T' = <[j := Used f]> T ∧ vfs_named (disk s) str bs ∧ vfs_view (disk s') f = Some (bs, 0))).
Proof.
  intros Hr Hst Hfile Hfree. destruct (list_find (λ o, o = Free) T) as [[j x]|] eqn:Hf; [|apply list_find_None in Hf; rewrite Forall_forall in Hf; by apply Hf in Hfree].
  assert (x = Free) as -> by by apply list_find_Some in Hf as (_ & ? & _). destruct (take_slot a L T s j Hr Hst Hf) as (m1 & a1 & E1 & Hdn & Hj & HT & Hr1 & Hs1). set (d := slot_addr _ j) in *.
  set (T1 := <[j := Taken]> T) in *. set (s1 := with_mem m1 s) in *. assert (T1 !! j = Some Taken) as HT1 by (apply list_lookup_insert_eq; by apply lookup_lt_Some in HT).
  assert (∀ o, <[j := o]> T1 = <[j := o]> T) as Hins by (intros o; unfold T1; by rewrite list_insert_insert_eq). unfold fd_open, ends. rewrite (bind_ok _ _ _ _ _ E1), decide_True by done.
  destruct (user_string_ok ke P a1 L s1 file str (rn_space _ _ _ _ _ _ Hr1) Hfile) as (t & a2 & E2 & Hu2 & Hk2). rewrite (bind_ok _ _ _ _ _ E2).
  destruct (running_user ke P a1 L _ T1 s1 a2 t Hr1 Hu2 Hk2) as [Hr2 Hs2]. set (s2 := set_mach t s1) in *. assert (serves no_file a s a2 s2) as Hs12 by serve Hs1 then Hs2.
  destruct (vfs_open_ok (disk s2) str (rn_disk _ _ _ _ _ _ Hr2) (st_chars _ _ _ Hfile)) as (f & dk & Ed & Hdk & Hx). rewrite (bind_ok _ _ _ _ _ (on_files_ok _ _ _ _ Ed)). destruct (decide (f = NULL)) as [->|Hfn].
  - destruct (running_disk_same a2 L T1 s2 dk Hr2 Hdk Hx) as [Hr3 Hs3]. destruct (point_slot a2 L T1 (set_disk dk s2) j NULL Taken Hr3 Hj HT1) as (m4 & a4 & E4 & Hr4 & Hs4 & W1 & W2); [done|by left|].
    rewrite (bind_ok _ _ _ _ _ E4), (bind_ok _ _ _ _ _ (rd_word _ _ _ W1)), decide_True by done. rewrite Hins in Hr4.
    destruct (clear_slot a4 L T1 _ j Hr4 Hj) as (m5 & a5 & E5 & Hr5 & Hs5). rewrite (bind_ok _ _ _ _ _ (on_mem_run _ _ _ _ E5)). assert (<[j := Free]> T1 = T) as ET by (rewrite Hins; by apply list_insert_id). rewrite ET in *.
    eexists _, _, a5, L, T. split; [done|]. split; [exact Hr5|]. split; [done|]. split; [|split; [done|by left]].
    assert (serves no_file a s a2 (set_disk dk s2)) as Hs13 by serve Hs12 then Hs3. assert (serves no_file a2 (set_disk dk s2) a5 (with_mem m5 (with_mem m4 (set_disk dk s2)))) as Hs45 by serve Hs4 then Hs5. serve Hs13 then Hs45.
  - destruct Hx as (Hnone & Ho & bs & Hv & Hnm). destruct (vfs_view_ok _ _ _ _ Hdk Hv) as (Hfp & _). assert (running a2 L T1 (set_disk dk s2)) as Hr3.
    { apply running_views; [done|done|]. intros g _ [y Hg]. rewrite Ho; [by eexists|]. intros ->. congruence. }
    assert (Used f ∉ T1) as Hnt. { intros [i Hi]%list_elem_of_lookup_1. destruct (rn_open _ _ _ _ _ _ Hr2 i f Hi) as [[? ?] _]. congruence. }
    assert (f ≠ process_executable s) as Hne. { intros Ef. change (disk s2) with (disk s) in Hnone. destruct (rn_exec _ _ _ _ _ _ Hr2) as [He|[? He]]; cbn in He; congruence. }
    destruct (point_slot a2 L T1 (set_disk dk s2) j f (Used f) Hr3 Hj HT1) as (m4 & a4 & E4 & Hr4 & Hs4 & W1 & W2); [unfold in_u; lia|right; split; [done|]; split; [by eexists|done]|].
    rewrite (bind_ok _ _ _ _ _ E4), (bind_ok _ _ _ _ _ (rd_word _ _ _ W1)), decide_False by done. rewrite (bind_ok _ _ _ _ _ (rd_word _ _ _ W2)). rewrite wraps_small by (done || unfold in_s; lia).
    rewrite Hins in Hr4. eexists _, _, a4, L, _. split; [done|]. split; [exact Hr4|].
    split; [split; [apply Forall_insert; done|]; intros g [i [(_ & [= ->] & _)|[_ Hi]]%list_lookup_insert_Some]%list_elem_of_lookup_1; [by right|left; by eapply list_elem_of_lookup_2]|]. split; [|split; [done|right; by exists j, f, bs]].
    assert (serves (λ g, g = f) a2 s2 a2 (set_disk dk s2)) as Hs3 by (split; try done; intros g Hg; cbn; by rewrite Ho).
    assert (serves (λ g, g = f) a s a2 (set_disk dk s2)) as Hs13 by serve Hs12 then Hs3. apply (serves_trans _ _ _ _ _ _ _ _ _ Hs13 Hs4); [|done].
    intros g ->. right. eapply list_elem_of_lookup_2, list_lookup_insert_eq. by apply lookup_lt_Some in HT.
Qed.

End calls.
