(* ===== verification/SyscallTheorems.v ===== *)
(** * Theorems on system calls

    Whatever a user program does before a system call, the handler keeps the
    kernel, the other processes and the descriptors of the process intact, up
    to the exceptions that the theorems name. *)

From S2P Require Import Prelude Vaddr CString Bitmap Palloc PageDir PageDirSpec PageDirInv PageDirTheorems FileApi Process ProcessSpec ProcessImage ProcessLoad ProcessTheorems Descriptor Syscall UserMemory SyscallCheck DescriptorInv DescriptorCalls.

Section theorems.
  Context {S : Type} {PA : PageAllocator S} {PL : PageAllocatorLaws S} {PP : PagePool S}.
  Context {F : Type} {FI : Files F} {FL : FilesLaws F}.
  Context (ke : kenv) (P : gset Z).
  Implicit Types (s : proc S F) (a : vm) (L : layout) (T : list slot).
  Notation running := (running ke P).
  Notation ends := (ends ke P).
  Implicit Types Q : outcome → layout → list slot → proc S F → Prop.

(** ** Steps of the handler *)

#[local] Hint Extern 0 (follows _ _ _) => apply follows_same; assumption : core.

Lemma ends_bind {A B} (m : M (proc S F) A) (k : A → M (proc S F) B) x a L T s a' s' (Q : B → layout → list slot → proc S F → Prop) :
  m s = Ok (x, s') → serves no_file a s a' s' → ends (k x) a' L T s' Q → ends (m ≫= k) a L T s Q.
Proof.
  intros E Hs (r & s2 & a2 & L2 & T2 & E2 & H1 & H2 & H3 & H4). exists r, s2, a2, L2, T2. rewrite (bind_ok _ _ _ _ _ E). split; [done|]. split; [done|]. split; [|split; [|done]].
  - destruct H2 as [H2 H2']. split; [done|]. intros g [Hg|Hg]%H2'; [by left|right]. pose proof (sv_files _ _ _ _ _ Hs g) as Ef. unfold no_file in Ef. specialize (Ef id). rewrite Hg in Ef. by destruct (vfs_view (disk s) g).
  - serve Hs then H3.
Qed.

(** After a call that has the last effect, only the register is set. *)
Lemma ends_return (m : M (proc S F) Z) a L T s (Q : Z → layout → list slot → proc S F → Prop) :
  ends m a L T s Q → ends (r ← m; return_value r) a L T s (λ o _ _ _, o = Returned).
Proof.
  intros (r & s2 & a2 & L2 & T2 & E2 & H1 & H2 & H3 & _). destruct (running_eax ke P a2 L2 T2 s2 (u32 r) H1) as [Hr Hs]. exists Returned, (set_eax (u32 r) s2), a2, L2, T2. rewrite (bind_ok _ _ _ _ _ E2).
  split; [done|]. split; [done|]. split; [done|]. split; [|done]. serve H3 then Hs.
Qed.
Lemma ends_return_bool (m : M (proc S F) bool) a L T s (Q : bool → layout → list slot → proc S F → Prop) :
  ends m a L T s Q → ends (r ← m; return_value (Z.b2z r)) a L T s (λ o _ _ _, o = Returned).
Proof.
  intros (r & s2 & a2 & L2 & T2 & E2 & H1 & H2 & H3 & _). destruct (running_eax ke P a2 L2 T2 s2 (u32 (Z.b2z r)) H1) as [Hr Hs]. exists Returned, (set_eax (u32 (Z.b2z r)) s2), a2, L2, T2. rewrite (bind_ok _ _ _ _ _ E2).
  split; [done|]. split; [done|]. split; [done|]. split; [|done]. serve H3 then Hs.
Qed.
Lemma ends_unit (m : M (proc S F) unit) a L T s (Q : unit → layout → list slot → proc S F → Prop) :
  ends m a L T s Q → ends (m;; mret Returned) a L T s (λ o _ _ _, o = Returned).
Proof.
  intros ([] & s2 & a2 & L2 & T2 & E2 & H1 & H2 & H3 & _). exists Returned, s2, a2, L2, T2. rewrite (bind_ok _ _ _ _ _ E2). done.
Qed.

(** How the handler ends with the arguments at [args]: it returns, ends the
    process or turns the machine off; or it calls [process_execute] with a string
    of the program, or [process_wait], when that is the call the program makes. *)
Definition completed L (args : Z) (o : outcome) : Prop :=
  match o with
  | Returned | Exited _ | Halted => True
  | Executes file => args + 4 ≤ PHYS_BASE ∧ u32 <$> image_word L args = Some 3 ∧ ∃ str, user_str L file str
  | Waits _ => args + 4 ≤ PHYS_BASE ∧ u32 <$> image_word L args = Some 4
  end.

Lemma ends_completed (m : M (proc S F) outcome) a L T s L0 args :
  ends m a L T s (λ o _ _ _, o = Returned) → ends m a L T s (λ o _ _ _, completed L0 args o).
Proof. intros (r & s2 & a2 & L2 & T2 & E2 & H1 & H2 & H3 & ->). by exists Returned, s2, a2, L2, T2. Qed.

(** The memory that a word at [p] needs. *)
Definition word_ok L (p : Z) : Prop := 0 < p ∧ p + 4 ≤ PHYS_BASE ∧ range_allows L false p 4.

Lemma ends_word {B} (k : Z → M (proc S F) B) a L T s p (Q : B → layout → list slot → proc S F → Prop) :
  running a L T s → word_ok L p → (∀ w a' s', image_word L p = Some w → running a' L T s' → ends (k (u32 w)) a' L T s' Q) → ends (user_word p ≫= k) a L T s Q.
Proof.
  intros Hr (H1 & H2 & H3) Hk. destruct (user_word_ok ke P a L s p (rn_space _ _ _ _ _ _ Hr)) as (w & t & a' & E & Hw & Hu & Hkp); [lia|lia|done|].
  destruct (running_user ke P a L L T s a' t Hr Hu Hkp) as [Hr' Hs']. by apply (ends_bind _ _ (u32 w) _ _ _ _ a' (set_mach t s)); [| |apply Hk].
Qed.

Lemma ends_pointer a L T s p n w rest L0 args :
  running a L T s → settled T → in_u 32 p → in_u 32 n →
  (0 < p → p + n ≤ PHYS_BASE → range_allows L w p n → ends rest a L T s (λ o _ _ _, completed L0 args o)) →
  ends (checked (check_valid_pointer p n w) rest) a L T s (λ o _ _ _, completed L0 args o).
Proof.
  intros Hr Hst Hp Hn Hrest. destruct (check_valid_pointer_ok ke P a L s p n w (rn_space _ _ _ _ _ _ Hr) Hp Hn) as (b & E & Hb & _). apply (ends_bind _ _ b _ _ _ _ a s); [done|apply serves_refl|].
  destruct b; [destruct (Hb eq_refl) as (? & ? & ?); apply Hrest; [lia|done..]|by apply (ends_ret _ _ _ a L T s)].
Qed.

Lemma ends_string a L T s p rest L0 args :
  running a L T s → settled T → in_u 32 p →
  (∀ a' s', running a' L T s' → word_ok L p → (∀ w, image_word L p = Some w → ∃ str, user_str L (u32 w) str) → ends rest a' L T s' (λ o _ _ _, completed L0 args o)) →
  ends (checked (check_valid_string p) rest) a L T s (λ o _ _ _, completed L0 args o).
Proof.
  intros Hr Hst Hp Hrest. destruct (check_valid_string_ok ke P a L s p (rn_space _ _ _ _ _ _ Hr) Hp) as (b & t & a' & E & Hu & Hk & Hb). destruct (running_user ke P a L L T s a' t Hr Hu Hk) as [Hr' Hs'].
  apply (ends_bind _ _ b _ _ _ _ a' (set_mach t s)); [done|done|]. destruct b; [destruct (Hb eq_refl) as (? & ? & ? & ?); by apply Hrest|by apply (ends_ret _ _ _ a' L T (set_mach t s))].
Qed.

(** ** The handler *)

(** The calls with a number that the file system does not take: create and seek
    with a size or position of [2^31] or more. *)
Definition in_range L (args : Z) : Prop :=
  ∀ n w, args + 4 ≤ PHYS_BASE → u32 (args + 8) + 4 ≤ PHYS_BASE →
    image_word L args = Some n → u32 n = 5 ∨ u32 n = 11 → image_word L (u32 (args + 8)) = Some w → u32 w < 2 ^ 31.

(** The number of a call, from its place in the enumeration. *)
Lemma syscall_number n v :
  syscall_numbers !! Z.to_nat (u32 n) = Some v →
  u32 n = match v with
          | SYS_PRACTICE => 0 | SYS_HALT => 1 | SYS_EXIT => 2 | SYS_EXEC => 3 | SYS_WAIT => 4 | SYS_CREATE => 5 | SYS_REMOVE => 6
          | SYS_OPEN => 7 | SYS_FILESIZE => 8 | SYS_READ => 9 | SYS_WRITE => 10 | SYS_SEEK => 11 | SYS_TELL => 12 | SYS_CLOSE => 13
          end.
Proof.
  intros Hv. assert (0 ≤ u32 n) as H0 by by apply (wrapu_range 32 n). pose proof (lookup_lt_Some _ _ _ Hv) as Hlt. cbn in Hlt.
  rewrite <-(Z2Nat.id (u32 n)) by done. destruct (Z.to_nat (u32 n)) as [|[|[|[|[|[|[|[|[|[|[|[|[|[|k]]]]]]]]]]]]]]; cbn in Hv; injection Hv as <- || lia; done.
Qed.

Lemma handler_ends a L T s :
  running a L T s → settled T → in_u 32 (esp s) → Free ∈ T → in_range L (esp s) →
  ends syscall_handler a L T s (λ o _ _ _, completed L (esp s) o).
Proof.
  intros Hr Hst Hesp Hfree Hrange. unfold syscall_handler. apply (ends_bind _ _ (esp s) _ _ _ _ a s); [done|apply serves_refl|]. set (args := esp s) in *.
  assert (∀ i, in_u 32 (u32 (args + 4 * i))) as Harg by (intros i; by apply wrapu_range). assert (in_u 32 4) as H4 by (unfold in_u; lia).
  apply ends_pointer; [done..|]. intros A1 A2 A3. apply ends_word; [done|done|]. clear Hr. intros n a1 s1 Hn Hr.
  assert (∀ v, syscall_numbers !! Z.to_nat (u32 n) = v → v = Some SYS_CREATE ∨ v = Some SYS_SEEK → u32 n = 5 ∨ u32 n = 11) as Hnum.
  { intros v Hv [-> | ->]; apply syscall_number in Hv; [by left|by right]. }
  destruct (syscall_numbers !! Z.to_nat (u32 n)) as [[]|] eqn:Ecall.
  - apply ends_pointer; [done..|]. intros B1 B2 B3. apply ends_word; [done|done|]. intros i a2 s2 _ Hr2. destruct (running_eax ke P a2 L T s2 (u32 (practice (i32 (u32 i)))) Hr2) as [Hr3 Hs3].
    exists Returned, (set_eax (u32 (practice (i32 (u32 i)))) s2), a2, L, T. split; [done|]. split; [done|]. split; [done|]. split; [serve Hs3|done].
  - by apply (ends_ret _ _ _ a1 L T s1).
  - apply ends_pointer; [done..|]. intros B1 B2 B3. apply ends_word; [done|done|]. intros i a2 s2 _ Hr2. by apply (ends_ret _ _ _ a2 L T s2).
  - apply ends_string; [done..|]. intros a2 s2 Hr2 B Hstr. apply ends_word; [done|done|]. intros i a3 s3 Hi Hr3. apply (ends_ret _ _ _ a3 L T s3); [done|done|].
    cbn. fold args. rewrite Hn. split; [done|]. split; [cbn; by rewrite (syscall_number _ _ Ecall)|by apply Hstr].
  - apply ends_pointer; [done..|]. intros B1 B2 B3. apply ends_word; [done|done|]. intros i a2 s2 _ Hr2. apply (ends_ret _ _ _ a2 L T s2); [done|done|]. cbn. fold args. rewrite Hn. split; [done|]. cbn. by rewrite (syscall_number _ _ Ecall).
  - apply ends_string; [done..|]. intros a2 s2 Hr2 B Hstr. apply ends_pointer; [done..|]. intros C1 C2 C3. apply ends_word; [done|done|]. intros file a3 s3 Hw Hr3. destruct (Hstr file Hw) as [str Hs].
    apply ends_word; [done|done|]. intros size a4 s4 Hw2 Hr4. eapply ends_completed, ends_return_bool, fd_create_ends; [done|done|done|]. assert (0 ≤ u32 size) by by apply (wrapu_range 32). pose proof (Hrange n size A2 C2 Hn (Hnum _ eq_refl ltac:(by left)) Hw2). lia.
  - apply ends_string; [done..|]. intros a2 s2 Hr2 B Hstr. apply ends_word; [done|done|]. intros file a3 s3 Hw Hr3. destruct (Hstr file Hw) as [str Hs]. by eapply ends_completed, ends_return_bool, fd_remove_ends.
  - apply ends_string; [done..|]. intros a2 s2 Hr2 B Hstr. apply ends_word; [done|done|]. intros file a3 s3 Hw Hr3. destruct (Hstr file Hw) as [str Hs]. by eapply ends_completed, ends_return, fd_open_ends.
  - apply ends_pointer; [done..|]. intros B1 B2 B3. apply ends_word; [done|done|]. intros i a2 s2 _ Hr2. by eapply ends_completed, ends_return, fd_filesize_ends.
  - do 3 (apply ends_pointer; [done..|]; intros ? ? ?). apply ends_word; [done|done|]. intros buffer a2 s2 Hb Hr2. apply ends_word; [done|done|]. intros size a3 s3 Hsz Hr3.
    apply ends_pointer; [done|done|by apply wrapu_range..|]. intros B1 B2 B3. apply ends_word; [done|done|]. intros fd a4 s4 _ Hr4. apply ends_word; [done|done|]. intros buffer' a5 s5 Hb' Hr5. apply ends_word; [done|done|]. intros size' a6 s6 Hsz' Hr6.
    assert (buffer' = buffer) as -> by congruence. assert (size' = size) as -> by congruence. eapply ends_completed, ends_return, fd_read_ends; [done|done|by apply wrapu_range|done..].
  - do 3 (apply ends_pointer; [done..|]; intros ? ? ?). apply ends_word; [done|done|]. intros buffer a2 s2 Hb Hr2. apply ends_word; [done|done|]. intros size a3 s3 Hsz Hr3.
    apply ends_pointer; [done|done|by apply wrapu_range..|]. intros B1 B2 B3. apply ends_word; [done|done|]. intros fd a4 s4 _ Hr4. apply ends_word; [done|done|]. intros buffer' a5 s5 Hb' Hr5. apply ends_word; [done|done|]. intros size' a6 s6 Hsz' Hr6.
    assert (buffer' = buffer) as -> by congruence. assert (size' = size) as -> by congruence. eapply ends_completed, ends_return, fd_write_ends; [done|done|by apply wrapu_range|done..].
  - apply ends_pointer; [done..|]. intros ? ? ?. apply ends_pointer; [done..|]. intros B1 B2 B3. apply ends_word; [done|done|]. intros fd a2 s2 _ Hr2. apply ends_word; [done|done|]. intros position a3 s3 Hw2 Hr3. eapply ends_completed, ends_unit, fd_seek_ends; [done|done|].
    assert (0 ≤ u32 position) by by apply (wrapu_range 32). pose proof (Hrange n position A2 B2 Hn (Hnum _ eq_refl ltac:(by right)) Hw2). lia.
  - apply ends_pointer; [done..|]. intros B1 B2 B3. apply ends_word; [done|done|]. intros i a2 s2 _ Hr2. by eapply ends_completed, ends_return, fd_tell_ends.
  - apply ends_pointer; [done..|]. intros B1 B2 B3. apply ends_word; [done|done|]. intros i a2 s2 _ Hr2. by eapply ends_completed, ends_unit, fd_close_ends.
  - by apply (ends_ret _ _ _ a1 L T s1).
Qed.

(** ** What a program can do to the kernel *)

Lemma word_read L p w : image_word L p = Some w → range_allows L false p 4.
Proof.
  unfold image_word. intros H x Hx. assert (is_Some (image_byte L x)) as [b Hb].
  { destruct (image_byte L p) eqn:E0; [|done]. cbn in H. destruct (image_byte L (p + 1)) eqn:E1; [|done]. cbn in H. destruct (image_byte L (p + 2)) eqn:E2; [|done]. cbn in H.
    destruct (image_byte L (p + 3)) eqn:E3; [|done]. assert (x = p ∨ x = p + 1 ∨ x = p + 2 ∨ x = p + 3) as [->|[->|[->| ->]]] by lia; by eexists. }
  unfold image_byte in Hb. unfold page_allows. by destruct (L !! (x / PGSIZE)) as [[]|].
Qed.

(** A check that passes, and a word that is read. *)
Lemma check_word a L T s p w :
  running a L T s → 0 < p → p + 4 ≤ PHYS_BASE → image_word L p = Some w →
  check_valid_pointer p 4 false s = Ok (true, s) ∧ ∃ a' s', running a' L T s' ∧ user_word p s = Ok (u32 w, s').
Proof.
  intros Hr Hp He Hw. pose proof (word_read L p w Hw) as Ha. split.
  - destruct (check_valid_pointer_ok ke P a L s p 4 false (rn_space _ _ _ _ _ _ Hr)) as (b & E & _ & Hb); [unfold in_u, PHYS_BASE in *; lia|unfold in_u; lia|]. rewrite E. by rewrite Hb.
  - destruct (user_word_ok ke P a L s p (rn_space _ _ _ _ _ _ Hr)) as (w' & t & a' & E & Hw' & Hu & Hk); [lia|lia|done|]. assert (w' = w) as -> by congruence.
    destruct (running_user ke P a L L T s a' t Hr Hu Hk) as [Hr' _]. by exists a', (set_mach t s).
Qed.

Lemma seek_asserts a L T s fd position :
  running a L T s → settled T → (∃ f, Used f ∈ T) → in_u 32 fd → 1 < fd < 2 ^ 31 → 2 ^ 31 ≤ position < 2 ^ 32 →
  fd_seek (i32 fd) position s = Err AssertFailed.
Proof.
  intros Hr Hst [g Hg] Hfu Hfd Hp. unfold fd_seek. rewrite (wraps_small 32 fd) by (done || unfold in_s; lia). destruct (get_file_cases ke P a L T s fd Hr Hst) as [[_ [?|Hno]]|(j & f & _ & _ & Hj & _ & E & Hn & Ef & Hv)]; [lia| |].
  { apply list_find_None in Hno. rewrite Forall_forall in Hno. by destruct (Hno _ Hg). }
  rewrite (bind_ok _ _ _ _ _ E), decide_True by done. rewrite (bind_ok _ _ _ _ _ Ef). unfold on_files, zoom. rewrite vfs_seek_negative; [done|done|apply Hr|].
  unfold wraps. change (2 ^ (32 - 1)) with 2147483648. change (2 ^ 32) with 4294967296 in *. change (2 ^ 31) with 2147483648 in *. dlia.
Qed.

End theorems.

Section claims.
  Context {S : Type} {PA : PageAllocator S} {PL : PageAllocatorLaws S} {PP : PagePool S}.
  Context {F : Type} {FI : Files F} {FL : FilesLaws F}.
  Implicit Types (ke : kenv) (P : gset Z) (s : proc S F) (a : vm) (L : layout) (T : list slot).

(** An access by the program itself would succeed. *)
Definition accessible (w : bool) (va : Z) (m : mmu S) : Prop :=
  if w then ∃ t, user_write va 0 m = Ok (true, t) else ∃ c t, user_read va m = Ok (Some c, t).

Lemma accessible_allowed ke P a L s w x :
  uspace ke P a L s → 0 ≤ x < PHYS_BASE → accessible w x (mach s) ↔ page_allows L w x.
Proof.
  intros [H1 H2 H3] Hx. pose proof (holds_full _ _ _ H2) as Hf. rewrite <-H3 in H2. unfold accessible. destruct w.
  - destruct (img_user_write _ _ _ _ _ _ 0 H1 H2 Hx) as [t E]. rewrite allowed_write, E. split; [by intros [t' [= ? _]]|]. intros ->. by exists t.
  - destruct (img_user_read _ _ _ _ _ _ H1 H2 Hx) as [t E]. rewrite (allowed_byte L x Hf Hx), E. split; [intros (c & t' & [= -> _]); by eexists|]. intros [c ->]. by exists c, t.
Qed.

(** C16. [check_valid_pointer] decides exactly whether the program itself may
    access the memory: it accepts a block of at least one byte if and only if the
    block does not start at NULL, ends in user memory, and the processor would let
    the program read, or write, every byte of it. *)
Theorem check_valid_pointer_exact ke P a L s p n w :
  represents ke P a (mach s) → holds a (pagedir s) L → active a = pagedir s → in_u 32 p → 0 < n < 2 ^ 32 →
  ∃ b, check_valid_pointer p n w s = Ok (b, s) ∧
    (b = true ↔ p ≠ NULL ∧ p + n ≤ PHYS_BASE ∧ ∀ x, p ≤ x < p + n → accessible w x (mach s)).
Proof.
  intros H1 H2 H3 Hp Hn. assert (uspace ke P a L s) as Hu by by split. destruct (check_valid_pointer_ok ke P a L s p n w Hu Hp) as (b & E & Hb1 & Hb2); [unfold in_u; lia|].
  exists b. split; [done|]. unfold in_u, NULL in *. split.
  - intros (B1 & B2 & B3)%Hb1. split; [lia|]. split; [done|]. intros x Hx. apply (accessible_allowed ke P a L s w x Hu); [lia|]. by apply B3.
  - intros (B1 & B2 & B3). apply Hb2; [lia|lia|done|]. intros x Hx. apply (accessible_allowed ke P a L s w x Hu); [lia|]. by apply B3.
Qed.

(** C8. A system call, whatever the registers of the program and the memory they
    point to, if a descriptor of the process is free and the number of a call of
    create or seek is below [2^31]: the handler ends without a panic or a failed
    assertion.  It returns to the program, ends the process or turns the machine
    off; or, for exec and wait only, it has checked the arguments and calls
    [process_execute] with a string that the program may read, or
    [process_wait], which are outside this statement.  Up to there the page
    directories, the page allocator and the file system stay consistent, the
    descriptors of the process stay a table of open files, and other processes
    keep their memory, their descriptors and their open files. *)
Theorem syscall_safe ke P a L T s :
  running ke P a L T s → settled T → in_u 32 (esp s) → Free ∈ T → in_range L (esp s) →
  ∃ o s' a' L' T', syscall_handler s = Ok (o, s') ∧ completed L (esp s) o ∧
    running ke P a' L' T' s' ∧ follows s T T' ∧ serves (either T T') a s a' s'.
Proof.
  intros Hr Hst Hesp Hfree Hrange. destruct (handler_ends ke P a L T s Hr Hst Hesp Hfree Hrange) as (o & s' & a' & L' & T' & H1 & H2 & H3 & H4 & H5). by exists o, s', a', L', T'.
Qed.

(** C38. A program with a file open can stop the kernel: seek to a position of
    [2^31] or more fails an assertion in the file system. *)
Theorem seek_stops_kernel ke P a L T s fd position :
  running ke P a L T s → settled T → (∃ f, Used f ∈ T) → 0 < esp s → esp s + 12 ≤ PHYS_BASE →
  image_word L (esp s) = Some 11 → image_word L (esp s + 4) = Some fd → image_word L (esp s + 8) = Some position →
  1 < fd < 2 ^ 31 → 2 ^ 31 ≤ position < 2 ^ 32 → syscall_handler s = Err AssertFailed.
Proof.
  intros Hr Hst Hused H0 He Hn Hfd Hp Hfd' Hp'. unfold syscall_handler. rewrite (bind_ok _ _ _ (esp s) s) by done. set (args := esp s) in *. cbv zeta.
  rewrite !(wrapu_small 32) by (unfold in_u, PHYS_BASE in *; lia). change (4 * 1) with 4. change (4 * 2) with 8.
  unfold checked at 1. destruct (check_word ke P a L T s args 11 Hr) as (E1 & a1 & s1 & Hr1 & E2); [lia|lia|done|]. rewrite (bind_ok _ _ _ _ _ E1), (bind_ok _ _ _ _ _ E2).
  change (syscall_numbers !! Z.to_nat (u32 11)) with (Some SYS_SEEK). cbv iota. unfold checked.
  destruct (check_word ke P a1 L T s1 (args + 4) fd Hr1) as (E3 & a2 & s2 & Hr2 & E5); [lia|lia|done|]. rewrite (bind_ok _ _ _ _ _ E3).
  destruct (check_word ke P a1 L T s1 (args + 8) position Hr1) as (E4 & _); [lia|lia|done|]. rewrite (bind_ok _ _ _ _ _ E4), (bind_ok _ _ _ _ _ E5).
  destruct (check_word ke P a2 L T s2 (args + 8) position Hr2) as (_ & a3 & s3 & Hr3 & E6); [lia|lia|done|]. rewrite (bind_ok _ _ _ _ _ E6).
  apply bind_err. rewrite !wrapu_small by (unfold in_u; lia). apply (seek_asserts ke P a3 L T s3); try done. unfold in_u. lia.
Qed.

(** C37. Reading from a descriptor reads the file of the first descriptor in use:
    with files open under two numbers, a read from the second number stores the
    bytes of the first file and moves the position of the first file; the second
    file is not read. *)
Theorem read_reads_first_file ke P a L T s i j f g bs ps buffer size :
  running ke P a L T s → settled T → list_find (λ o, o ≠ Free) T = Some (j, Used f) → T !! i = Some (Used g) → i ≠ j →
  vfs_view (disk s) f = Some (bs, ps) → in_u 32 size → 0 < buffer → buffer + size ≤ PHYS_BASE → range_allows L true buffer size →
  ∃ r s' a', fd_read (2 + Z.of_nat i) buffer size s = Ok (r, s') ∧ running ke P a' (image_puts L buffer (slice bs ps r)) T s' ∧
    vfs_view (disk s') f = Some (bs, ps + r) ∧ vfs_view (disk s') g = vfs_view (disk s) g.
Proof.
  intros Hr Hst Hf Hi Hij Hv Hsz Hb He Ha. destruct (fd_read_ends ke P a L T s (2 + Z.of_nat i) buffer size Hr Hst Hsz Hb He Ha) as (r & s' & a' & L' & T' & E & H1 & H2 & H3 & -> & HQ).
  destruct (HQ j f bs ps) as (Q1 & -> & Q2 & Q3); [lia|done|done|]. exists r, s', a'. split; [done|]. split; [done|]. split; [done|]. apply Q3. intros ->. apply Hij.
  apply (rn_inj _ _ _ _ _ _ Hr i j f); [done|]. by apply list_find_Some in Hf as (? & _).
Qed.


End claims.
