(* ===== verification/ProcessExit.v ===== *)
(** * The end of a process

    The part of [process_exit] (userprog/process.c) that closes the files of a
    process and gives back its memory. *)

From S2P Require Import Prelude Vaddr CString Bitmap Palloc PageDir PageDirSpec PageDirInv PageDirTheorems FileApi Process ProcessSpec ProcessImage ProcessLoad ProcessTheorems Descriptor UserMemory DescriptorInv DescriptorCalls.

Section exit.
  Context {S : Type} {PA : PageAllocator S} {PL : PageAllocatorLaws S} {PP : PagePool S}.
  Context {F : Type} {FI : Files F} {FL : FilesLaws F}.
  Context (ke : kenv) (P : gset Z).
  Implicit Types (s : proc S F) (a : vm) (L : layout) (T : list slot).
  Notation running := (running ke P).

(** The files of [T] are closed and the others are not touched. *)
Definition closes T s s' : Prop :=
  (∀ f, Used f ∈ T → vfs_view (disk s') f = None) ∧ ∀ g, Used g ∉ T → vfs_view (disk s') g = vfs_view (disk s) g.

(** One descriptor of the loop. *)
Lemma close_slot a L T s j f :
  running a L T s → T !! j = Some (Used f) → let d := slot_addr (file_descriptor_page s) j in
  ∃ s' a', (on_mem (wr8 d 0);; f ← on_mach (rd32 (d + 8)); on_files (vfs_close f)) s = Ok (tt, s') ∧ running a' L (<[j := Free]> T) s' ∧
    serves (either T T) a s a' s' ∧ vfs_view (disk s') f = None ∧ others_kept f (disk s) (disk s').
Proof.
  intros Hr HT d. pose proof (running_memory _ _ _ _ _ _ Hr) as (_ & _ & Ht). assert (j < 341)%nat as Hj by (apply lookup_lt_Some in HT; by rewrite (tb_length _ _ _ Ht) in HT).
  destruct (tb_slots _ _ _ Ht j _ HT) as (S1 & S2 & S3). change (slot_addr (file_descriptor_page s) j) with d in S1, S2, S3.
  set (m' := store d [0] (memory_of s)). assert (mapped (memory_of s) d 1) as M1 by (apply (slot_mapped ke P a L T s j _ _ Hr Hj); unfold sizeof_descriptor; change (slot_addr (file_descriptor_page s) j) with d; lia).
  destruct (store_slot (memory_of s) d d [0]) as [D1 O1]; [done|lia|unfold sizeof_descriptor; cbn; lia|]. fold m' in D1, O1.
  destruct (running_put ke P a L T s j Free m' Hr Hj D1 O1) as (a' & Hr' & Em & Hs'); [|done|].
  { change (m' !! d = Some 0). unfold m'. rewrite store_lookup. cbn [length]. rewrite decide_True by lia. by rewrite Z.sub_diag. }
  assert (word m' (d + 8) = Some f) as W by (rewrite <-S3; apply word_ext; intros x Hx; unfold m'; rewrite store_lookup; cbn [length]; by rewrite decide_False by lia).
  destruct (rn_open _ _ _ _ _ _ Hr j f HT) as [Hv Hne]. destruct (vfs_close_ok _ _ (rn_disk _ _ _ _ _ _ Hr) Hv) as (dk & Ed & Hd & Ho & Hv').
  exists (set_disk dk (with_mem m' s)), a'. split.
  { rewrite (bind_ok _ _ _ tt (with_mem m' s)) by (by apply wr_byte, M1; lia). rewrite (bind_ok _ _ _ _ _ (rd_word _ _ f ltac:(by rewrite Em))). by apply (on_files_ok _ (with_mem m' s)). }
  split; [|split; [|done]].
  - apply running_views; [done|done|]. intros g Hg Hgv. cbn in Hgv |- *. rewrite Ho; [done|]. intros ->. destruct Hg as [[i Hi]|Hg]; [|done].
    apply list_lookup_insert_Some in Hi as [(_ & ? & _)|[Hn Hi]]; [done|]. by apply Hn, (rn_inj _ _ _ _ _ _ Hr j i f).
  - destruct Hs' as [V1 V2 V3 V4 V5 V6 V7]. split; try done. intros g Hg. cbn. rewrite Ho; [done|]. intros ->. apply Hg. left. by eapply list_elem_of_lookup_2.
Qed.

Lemma used_insert T j f g : T !! j = Some (Used f) → Used g ∈ T → g ≠ f → Used g ∈ <[j := Free]> T.
Proof.
  intros Hj [i Hi]%list_elem_of_lookup_1 Hne. apply (list_elem_of_lookup_2 _ i). rewrite list_lookup_insert_ne; [done|]. intros ->. congruence.
Qed.
Lemma insert_used T j g : Used g ∈ <[j := Free]> T → Used g ∈ T.
Proof. intros [i Hi]%list_elem_of_lookup_1. apply list_lookup_insert_Some in Hi as [(_ & ? & _)|[_ Hi]]; [done|]. by eapply list_elem_of_lookup_2. Qed.

Lemma close_all_loop_ok n i a L T s :
  running a L T s → settled T → (n + i = 342)%nat → (∀ j o, (j < i)%nat → T !! j = Some o → o = Free) →
  ∃ s' a' T', close_all_loop n (file_descriptor_page s) (Z.of_nat i) s = Ok (tt, s') ∧ running a' L T' s' ∧ (∀ f, Used f ∉ T') ∧ serves (either T T) a s a' s' ∧ closes T s s'.
Proof.
  revert i a T s. induction n as [|n IH]; intros i a T s Hr Hst Hn Hlow; pose proof (running_memory _ _ _ _ _ _ Hr) as (_ & _ & Ht).
  { assert (∀ f, Used f ∉ T) as Hno. { intros f [j Hj]%list_elem_of_lookup_1. assert (j < i)%nat as Hji by (apply lookup_lt_Some in Hj; rewrite (tb_length _ _ _ Ht) in Hj; lia). by specialize (Hlow j _ Hji Hj). }
    exists s, a, T. split; [done|]. split; [done|]. split; [done|]. split; [apply serves_refl|]. split; [|done]. intros f Hf. by destruct (Hno f). }
  cbn [close_all_loop]. set (k := file_descriptor_page s). change (k + sizeof_descriptor * Z.of_nat i) with (slot_addr k i). replace (Z.of_nat i + 1) with (Z.of_nat (Datatypes.S i)) by lia.
  assert ((memory_of s !! slot_addr k i = Some 0 ∧ ∀ o, T !! i = Some o → o = Free) ∨ ∃ f, T !! i = Some (Used f) ∧ memory_of s !! slot_addr k i = Some 1) as [[E0 Hfree]|(f & HT & E1)].
  { destruct (T !! i) as [o|] eqn:HT.
    - pose proof (tb_slots _ _ _ Ht i o HT) as Hs. unfold settled in Hst. rewrite Forall_lookup in Hst. destruct o as [| |f]; [left; split; [done|by intros o [= <-]]|by apply Hst in HT|]. right. exists f. split; [done|apply Hs].
    - left. split; [|done]. apply lookup_ge_None in HT. rewrite (tb_length _ _ _ Ht) in HT. assert (i = 341%nat) as -> by lia. apply Ht. }
  - rewrite (bind_ok _ _ _ _ _ (rd_byte _ _ _ E0)), decide_False by tauto. rewrite ret_bind. apply IH; [done|done|lia|]. intros j o Hj Ho. destruct (decide (j = i)) as [->|]; [by apply Hfree|]. apply (Hlow j); [lia|done].
  - rewrite (bind_ok _ _ _ _ _ (rd_byte _ _ _ E1)), decide_True by done. destruct (close_slot a L T s i f Hr HT) as (s1 & a1 & Ec & Hr1 & Hs1 & Hv1 & Ho1). rewrite (bind_ok _ _ _ _ _ Ec).
    destruct (IH (Datatypes.S i) a1 (<[i := Free]> T) s1 Hr1) as (s' & a' & T' & E & Hr' & Hno & Hs' & [C1 C2]).
    + unfold settled. by apply Forall_insert.
    + lia.
    + intros j o Hj Ho. apply list_lookup_insert_Some in Ho as [(_ & <- & _)|[Hne Ho]]; [done|]. apply (Hlow j); [lia|done].
    + exists s', a', T'. rewrite (sv_page _ _ _ _ _ Hs1) in E. split; [done|]. split; [done|]. split; [done|]. split; [|split].
      * apply (serves_trans _ _ _ _ _ _ _ _ _ Hs1 Hs'); [done|]. intros g [Hg|Hg]; left; by eapply insert_used.
      * intros g Hg. destruct (decide (g = f)) as [->|Hgf]; [|by apply C1, (used_insert T i f g)]. rewrite C2; [done|]. intros [j Hj]%list_elem_of_lookup_1.
        apply list_lookup_insert_Some in Hj as [(_ & ? & _)|[Hne Hj]]; [done|]. by apply Hne, (rn_inj _ _ _ _ _ _ Hr i j f).
      * intros g Hg. rewrite C2 by (by intros Hg'%insert_used). apply Ho1. intros ->. apply Hg. by eapply list_elem_of_lookup_2.
Qed.

(** The page of descriptors is cleared and given back. *)
Lemma free_descriptors a L T s :
  running a L T s →
  ∃ m' t a', on_mem (memset (file_descriptor_page s) 0 PGSIZE) s = Ok (file_descriptor_page s, with_mem m' s) ∧
    on_mach (free_page (file_descriptor_page s)) (with_mem m' s) = Ok (tt, set_mach t s) ∧
    represents ke P a' t ∧ loose a' = loose a ∖ {[file_descriptor_page s]} ∧ spaces a' = spaces a ∧ ∀ d L', holds a d L' → holds a' d L'.
Proof.
  intros Hr. pose proof (running_memory _ _ _ _ _ _ Hr) as (Hk & Hm & _). destruct Hr as [[U1 U2 U3] R2 R3 R4 R5 R6 R7]. set (k := file_descriptor_page s) in *.
  assert (0 < k) as Hk0 by (destruct Hk as (Hk & _); unfold PHYS_BASE in *; lia). rewrite PGSIZE_eq in Hm. pose proof (memset_ok 0 4096 k (memory_of s) Hm Hk0) as E.
  destruct (store_page (memory_of s) k 0 (replicate 4096 (u8 0))) as (_ & M2 & M3); [lia|rewrite length_replicate, PGSIZE_eq; lia|by rewrite PGSIZE_eq|]. rewrite Z.add_0_r in M2, M3. set (m' := store _ _ _) in *.
  destruct (img_fill _ _ _ _ k m' U1 R3 M2 M3) as (a1 & Hr1 & Hl1 & _ & Hsp1 & Hh1 & _). destruct (img_free ke P a1 (mach (with_mem m' s)) k Hr1) as (t & Ef & Hr2); [by rewrite Hl1|].
  exists m', t, (set_loose (loose a1 ∖ {[k]}) a1). split; [rewrite PGSIZE_eq; by apply on_mem_run|]. split; [by rewrite (on_mach_ok _ (with_mem m' s) _ _ Ef)|].
  split; [done|]. split; [cbn; by rewrite Hl1|]. split; [done|]. intros d L' Hh. by apply holds_loose, Hh1.
Qed.

(** The directory of the process is destroyed. *)
Lemma free_directory a (m : mmu S) pd L :
  represents ke P a m → holds a pd L →
  pd ≠ NULL ∧ ∃ t a', (pagedir_activate NULL;; pagedir_destroy pd) m = Ok (tt, t) ∧ represents ke P a' t ∧ loose a' = loose a ∧ spaces a' = delete pd (spaces a) ∧ bytes a' = bytes a.
Proof.
  intros Hr (sp & Hsp & _). split. { destruct Hr as (O & G & Hv). by destruct (pd_page _ _ _ _ _ _ pd Hv ltac:(by eexists)) as (_ & _ & ?). }
  destruct (vm_activate _ _ _ _ NULL Hr) as (r & t & a1 & E & Hs & Hr1); [by left|]. cbn [exec] in E. apply bind_inv in E as ([] & t1 & E & E'). injection E' as <- <-. rewrite (bind_ok _ _ _ _ _ E).
  inversion Hs as [| | | | | | | | | | | | | | | | |? d _ Hd| | | | |]; subst. destruct (vm_destroy ke P _ t1 pd Hr1) as (t2 & a2 & E2 & Hr2 & Hs2); [by eexists|cbn; intros ->; specialize (Hd eq_refl); congruence|].
  inversion Hs2; subst. by exists t2, (Vm (delete pd (spaces a)) (loose a) (bytes a) d).
Qed.

Lemma closed_null (d : F) f : vfs_ok d → f = NULL → vfs_view d f = None.
Proof. intros Hd ->. destruct (vfs_view d NULL) as [[bs ps]|] eqn:E; [|done]. apply (vfs_view_ok _ _ _ _ Hd) in E. unfold NULL in E. lia. Qed.

Lemma release_resources_ok a L T s :
  running a L T s → settled T →
  ∃ s' a', release_resources s = Ok (tt, s') ∧ represents ke P a' (mach s') ∧ vfs_ok (disk s') ∧
    loose a' = loose a ∖ {[file_descriptor_page s]} ∧ spaces a' !! pagedir s = None ∧ (∀ d L', d ≠ pagedir s → holds a d L' → holds a' d L') ∧
    ∀ f, vfs_view (disk s') f = if decide (Used f ∈ T ∨ f = process_executable s) then None else vfs_view (disk s) f.
Proof.
  intros Hr Hst. unfold release_resources, close_all_file_descriptors. rewrite bind_assoc, (bind_ok _ _ _ (file_descriptor_page s) s) by done. rewrite capacity_eq.
  destruct (close_all_loop_ok 342 0 a L T s Hr Hst eq_refl) as (s1 & a1 & T1 & E1 & Hr1 & Hno & [V1 V2 V3 V4 V5 V6 V7] & [C1 C2]); [lia|]. change (342%nat) with (Z.to_nat (341 + 1)) in E1.
  destruct (free_descriptors a1 L T1 s1 Hr1) as (m' & t & a2 & E2 & E3 & Hr2 & Hl2 & Hsp2 & Hh2). rewrite V5 in E2, E3, Hl2. set (k := file_descriptor_page s) in *.
  rewrite bind_assoc, (bind_ok _ _ _ _ _ E1), bind_assoc, (bind_ok _ _ _ _ _ E2), ret_bind. rewrite (bind_ok _ _ _ k (with_mem m' s1)) by (by rewrite <-V5). rewrite (bind_ok _ _ _ _ _ E3).
  set (s2 := set_mach t s1). destruct Hr1 as [[U1 U2 U3] R2 R3 R4 R5 R6 R7].
  assert (∃ dk, close_process_executable s2 = Ok (tt, set_disk dk s2) ∧ vfs_ok dk ∧ others_kept (process_executable s) (disk s1) dk ∧ vfs_view dk (process_executable s) = None) as (dk & E4 & Hdk & Ho & Hv).
  { unfold close_process_executable. rewrite (bind_ok _ _ _ (process_executable s) s2) by (by rewrite <-V6). rewrite V6 in R7. destruct R7 as [R7|R7].
    - exists (disk s2). rewrite R7. split; [by apply on_files_ok, vfs_close_null|]. split; [done|]. split; [by intros g|by apply closed_null].
    - destruct (vfs_close_ok _ _ R2 R7) as (dk & Ed & Hd & Ho & Hv). exists dk. split; [by apply on_files_ok|done]. }
  rewrite (bind_ok _ _ _ _ _ E4), (bind_ok _ _ _ tt (set_process_executable NULL (set_disk dk s2))) by done.
  destruct (free_directory a2 t (pagedir s) L Hr2) as (Hpn & t3 & a3 & E5 & Hr3 & Hl3 & Hsp3 & Hb3); [apply Hh2; by rewrite <-V4|].
  rewrite (bind_ok _ _ _ (pagedir s) (set_process_executable NULL (set_disk dk s2))) by (by rewrite <-V4). rewrite decide_True by done.
  apply bind_inv in E5 as ([] & t2 & E5 & E6). set (s3 := set_pagedir NULL (set_process_executable NULL (set_disk dk s2))). rewrite (bind_ok _ _ _ tt s3) by done.
  rewrite (bind_ok _ _ _ _ _ (on_mach_ok _ s3 _ _ E5)). exists (set_mach t3 (set_mach t2 s3)), a3. split; [by apply on_mach_ok|]. split; [done|]. split; [done|]. split; [by rewrite Hl3, Hl2, V1|].
  split; [rewrite Hsp3; apply lookup_delete_eq|]. split.
  - intros d L' Hd Hh. apply (holds_ext a2); [|by rewrite Hsp3, lookup_delete_ne|by intros; rewrite Hb3]. apply Hh2. by apply V2.
  - intros f. change (vfs_view dk f = if decide (Used f ∈ T ∨ f = process_executable s) then None else vfs_view (disk s) f). destruct (decide (f = process_executable s)) as [->|Hf].
    + rewrite decide_True by (by right). done.
    + rewrite Ho by done. destruct (decide (Used f ∈ T)) as [HT|HT]; [rewrite decide_True by (by left); by apply C1|]. rewrite decide_False by tauto. by apply C2.
Qed.

End exit.
