(* ===== verification/ProcessStart.v ===== *)
(** * The start of a process

    A new process gets a page for its descriptors and loads its program
    ([start_process] in userprog/process.c); then it is in a state in which its
    system calls are safe. *)

From S2P Require Import Prelude Vaddr CString Bitmap Palloc PageDir PageDirSpec PageDirInv PageDirTheorems FileApi Process ProcessSpec ProcessImage ProcessLoad ProcessArgs ProcessTheorems Descriptor UserMemory DescriptorInv DescriptorCalls.

(** The environment in which page [k] has the contents [m] for good. *)
Definition with_page (k : Z) (m : mem) (ke : kenv) : kenv :=
  KEnv (ram_pages ke) (init_dir ke) (universe ke) ({[k]} ∪ pinned ke) (page_from k m (kernel ke)).

Section start.
  Context {S : Type} {PA : PageAllocator S} {PL : PageAllocatorLaws S} {PP : PagePool S}.
  Context {F : Type} {FI : Files F} {FL : FilesLaws F}.
  Implicit Types (ke : kenv) (P : gset Z) (a : vm) (L : layout).

(** Part of [start_process]; the page of subprocesses is left out. *)
Definition start_program (space delimiters file_name : Z) : M (proc S F) bool :=
  ok ← setup_file_descriptors;
  if (ok : bool) then load space delimiters file_name else mret false.

(** ** A page that the kernel does not touch *)

Lemma pin ke P a (m : mmu S) k :
  represents ke P a m → k ∈ loose a →
  represents (with_page k (memory (pool_of m)) ke) ({[k]} ∪ P) (set_loose (loose a ∖ {[k]}) a) m ∧
  k ∉ P ∧ k ≠ init_dir ke ∧ pinned ke ⊆ P ∧ k mod PGSIZE = 0 ∧ ∀ x, is_Some (kernel ke !! x) → ¬ (k ≤ x < k + PGSIZE).
Proof.
  intros (O & G & Hv) Hk. pose proof (vr_owns _ _ _ _ _ _ Hv) as Ho. assert (O !! k = Some Loose) as Hok by by apply (ow_loose _ _ _ Ho). pose proof (vr_kern _ _ _ _ _ _ Hv) as [K1 K2 K3 K4 K5].
  assert (vrel ke (P ∪ (dom O ∖ dom (delete k O))) (delete k O) G (set_loose (loose a ∖ {[k]}) a) m) as Hv1.
  { apply (vrel_disown ke P O G a); try done; [rewrite dom_delete_L; clear; set_solver|by apply owns_free| |apply Hv].
    apply (in_mem_data O); [apply Hv|]. intros q o [_ Hq]%lookup_delete_Some. by eauto. }
  assert (k ∈ dom O) as Hkd by (apply elem_of_dom; by eexists). assert (k ∉ P) as HkP by (intros ?; by apply (vr_disj _ _ _ _ _ _ Hv k)).
  replace (P ∪ (dom O ∖ dom (delete k O))) with ({[k]} ∪ P) in Hv1.
  2:{ rewrite dom_delete_L. apply set_eq. intros x. destruct (decide (x = k)) as [->|Hx]; [clear -Hkd; set_solver|clear -Hx; set_solver]. }
  destruct (owned_universe _ _ _ _ _ _ k Hv ltac:(by eexists)) as [U1 U2]. destruct (owned_page _ _ _ _ _ _ k Hv ltac:(by eexists)) as ((_ & _ & Hka) & _ & _).
  split; [|split; [done|split; [|split; [done|split; [done|intros x Hx; by apply K4]]]]].
  2:{ rewrite <-(proj2 (vr_ram _ _ _ _ _ _ Hv)). by apply (init_not_owned ke P O G a); [|eexists]. }
  exists (delete k O), G. destruct Hv1 as [V1 V2 V3 V4 V5 V6 V7 V8 V9 V10 V11 V12]. split; try done. split; cbn; try done.
  - clear -K1. set_solver.
  - intros x b. destruct (decide (k ≤ x < k + PGSIZE)) as [Hx|Hx]; [by rewrite page_from_in|]. rewrite page_from_out by done. apply K2.
  - intros x q Hx Hq Hn. destruct (decide (k ≤ x < k + PGSIZE)) as [Hxk|Hxk].
    + apply (pages_apart k q); [done| |clear -Hn; set_solver|done]. rewrite <-K3 in Hq. by apply (pool_range_aligned (pool_of m)).
    + rewrite page_from_out in Hx by done. apply K4; [done|done|]. clear -Hn. set_solver.
Qed.

Lemma unpin ke P a (m : mmu S) k c :
  represents (with_page k c ke) ({[k]} ∪ P) a m → k ∉ P → k ≠ init_dir ke → pinned ke ⊆ P → k mod PGSIZE = 0 →
  (∀ x, is_Some (kernel ke !! x) → ¬ (k ≤ x < k + PGSIZE)) →
  let a' := set_bytes (page_from k (memory (pool_of m)) (bytes a)) (set_loose ({[k]} ∪ loose a) a) in
  represents ke P a' m ∧ k ∉ loose a ∧ (∀ d L, holds a d L → holds a' d L) ∧
  ∀ x b, k ≤ x < k + PGSIZE → c !! x = Some b → memory (pool_of m) !! x = Some b.
Proof.
  intros (O & G & Hv) HkP Hki Hpin Hka Hap a'. destruct (vr_kern _ _ _ _ _ _ Hv) as [K1 K2 K3 K4 K5]. cbn in K1, K2, K3, K4, K5.
  assert (k ∉ dom O) as HkO by (pose proof (vr_disj _ _ _ _ _ _ Hv) as Hd; clear -Hd; set_solver). apply not_elem_of_dom in HkO.
  assert (vrel ke ({[k]} ∪ P) O G a m) as Hv1.
  { destruct Hv as [V1 V2 V3 V4 V5 V6 V7 V8 V9 V10 V11 V12]. split; try done. split; try done.
    - clear -Hpin. set_solver.
    - intros x b Hx. apply K2. rewrite page_from_out; [done|]. apply Hap. by eexists.
    - intros x q Hx Hq Hn. destruct (decide (q = k)) as [->|Hqk]; [by apply Hap|]. apply K4; [|done|clear -Hn Hqk; set_solver]. rewrite page_from_out; [done|]. by apply Hap. }
  assert (represents ke P a' m) as Hr.
  { exists (<[k := Loose]> O), G. apply (vrel_give ke P O G a); try done.
    - by rewrite (proj2 (vr_ram _ _ _ _ _ _ Hv)).
    - by apply owns_bytes, owns_get; [apply Hv|].
    - apply in_mem_get; [apply Hv|by eapply vrel_aligned|done|done].
    - apply Hv. }
  split; [done|]. split; [rewrite <-(ow_loose _ _ _ (vr_owns _ _ _ _ _ _ Hv)); congruence|]. split.
  - intros d L Hh. apply (holds_ext a); [done|done|]. intros sp u e x Hsp Hm Hx. cbn. apply page_from_out.
    destruct (rep_frame ke P a' m d sp u e Hr Hsp Hm) as ((_ & _ & Hfa) & _ & Hfl & _). apply (pages_apart (frame e) k); [done|done| |done]. intros Hfk. apply Hfl. rewrite Hfk. cbn. clear. set_solver.
  - intros x b Hx Hc. apply K2. by rewrite page_from_in.
Qed.

(** ** What loading keeps *)

(** The computation leaves the page of descriptors of the process as it is. *)
Definition same_page {A} (m : M (proc S F) A) : Prop :=
  ∀ s x s', m s = Ok (x, s') → file_descriptor_page s' = file_descriptor_page s.

Lemma same_ret {A} (x : A) : same_page (mret x).
Proof. intros s y s' E. by injection E as <- <-. Qed.
Lemma same_fail {A} e : same_page (fail e : M (proc S F) A).
Proof. done. Qed.
Lemma same_bind {A B} (m : M (proc S F) A) (f : A → M (proc S F) B) : same_page m → (∀ x, same_page (f x)) → same_page (x ← m; f x).
Proof. intros Hm Hf s x s' (y & t & E1 & E2)%bind_inv. rewrite (Hf _ _ _ _ E2). by eapply Hm. Qed.
Lemma same_mach {A} (m : M (mmu S) A) : same_page (on_mach m).
Proof. intros s x s' E. unfold on_mach, zoom in E. destruct (m (mach s)) as [[? ?]|]; [by injection E as <- <-|done]. Qed.
Lemma same_mem {A} (m : M mem A) : same_page (on_mem m).
Proof. apply same_mach. Qed.
Lemma same_files {A} (m : M F A) : same_page (on_files m).
Proof. intros s x s' E. unfold on_files, zoom in E. destruct (m (disk s)) as [[? ?]|]; [by injection E as <- <-|done]. Qed.
Lemma same_gets {A} (f : proc S F → A) : same_page (gets f).
Proof. intros s x s' E. by injection E as <- <-. Qed.
Lemma same_modify f : (∀ s, file_descriptor_page (f s) = file_descriptor_page s) → same_page (modify f).
Proof. intros Hf s x s' E. by injection E as <- <-. Qed.
Lemma same_assert b : same_page (assert b).
Proof. intros s x s' E. destruct b; [by injection E as <- <-|done]. Qed.

Ltac same_step :=
  first [ apply same_ret | apply same_fail | apply same_mach | apply same_mem | apply same_files | apply same_gets | apply same_assert
        | by apply same_modify | apply same_bind; [|intros ?] | case_match | done ].

Lemma same_phdr phdr file : same_page (load_phdr phdr file).
Proof.
  assert (∀ fuel u r z w, same_page (load_segment_loop fuel file u r z w)) as Hs.
  { induction fuel; intros; cbn [load_segment_loop]; unfold read_file, install_page; repeat same_step. }
  unfold load_phdr, validate_segment, load_segment. repeat same_step.
Qed.
Lemma same_phdrs n file ofs : same_page (load_phdrs n file ofs).
Proof. revert ofs. induction n; intros; cbn [load_phdrs]; repeat first [apply same_phdr|apply IHn|same_step]. Qed.
Lemma same_arguments delimiters argument : same_page (load_arguments delimiters argument).
Proof.
  assert (∀ fuel p save c e i, same_page (push_tokens delimiters fuel p save c e i)) as Hs.
  { induction fuel; intros; cbn [push_tokens]; repeat first [apply IHfuel|same_step]. }
  unfold load_arguments. repeat first [apply Hs|same_step].
Qed.
Lemma same_load space delimiters file_name : same_page (load space delimiters file_name).
Proof.
  unfold load, process_activate, tss_update, open_process_executable, setup_stack, install_page.
  repeat first [apply same_phdrs|apply same_arguments|same_step].
Qed.

(** ** The new process *)

Theorem start_ok ke P a (s : proc S F) space delimiters file_name str :
  represents ke P a (mach s) → vfs_ok (disk s) →
  cstr (kernel ke) space [32] → cstr (kernel ke) delimiters [32; 9] → cstr (kernel ke) file_name str →
  Z.of_nat (length str) < 2 ^ 31 → words [32; 9] [] str ≠ [] →
  ∃ b s', start_program space delimiters file_name s = Ok (b, s') ∧
    (b = true → ∃ a' L bs entry st, let L' := <[stack_page := (true, st)]> L in
      running ke P a' L' (replicate 341 Free) s' ∧ vfs_named (disk s) (before 32 str) bs ∧ elf_image bs = Some (L, entry) ∧ eip s' = entry ∧
      start_stack L' (esp s') (words [32; 9] [] str) ∧ file_descriptor_page s' ∉ loose a ∧ loose a' = {[file_descriptor_page s']} ∪ loose a ∧
      (∀ d L2, d ≠ pagedir s' → holds a d L2 → holds a' d L2) ∧ ∀ g, g ≠ process_executable s' → vfs_view (disk s') g = vfs_view (disk s) g).
Proof.
  intros Hr Hok Hsp HD Hf Hlen Hne. unfold start_program, setup_file_descriptors. rewrite bind_assoc. destruct (img_get _ _ _ _ PAL_ZERO Hr eq_refl) as (k & t & E & Hcase).
  rewrite (bind_ok _ _ _ _ _ (on_mach_ok _ _ _ _ E)). destruct Hcase as [[-> Hr1]|(a1 & Hkn & Hkl & Hr1 & Hl1 & Ha1 & Hs1 & Hh1 & Hz1)].
  { rewrite decide_True by done. exists false, (set_mach t s). done. }
  rewrite decide_False by done. rewrite bind_assoc, (bind_ok _ _ _ tt (set_file_descriptor_page k (set_mach t s))) by done. rewrite ret_bind. set (s1 := set_file_descriptor_page k (set_mach t s)).
  assert (k ∈ loose a1) as Hk1 by (rewrite Hl1; clear; set_solver). destruct (rep_loose _ _ _ _ k Hr1 Hk1) as (_ & _ & _ & Hmem). destruct (pin ke P a1 t k Hr1 Hk1) as (Hr2 & HkP & Hki & Hpin & Hka & Hap). set (ke' := with_page k _ ke) in *.
  assert (∀ p st, cstr (kernel ke) p st → cstr (kernel ke') p st) as Hc.
  { intros p st (H1 & H2 & H3). split; [done|]. split; [|done]. intros i b Hi. cbn. rewrite page_from_out; [by apply H2|]. apply Hap. exists b. by apply H2. }
  destruct (load_ok ke' space delimiters _ _ s1 file_name str Hr2 Hok (Hc _ _ Hsp) (Hc _ _ HD) (Hc _ _ Hf) Hlen Hne) as (b & s' & a2 & E2 & [L1 L2 L3 L4 L5 L6]).
  exists b, s'. split; [done|]. intros Hb. destruct (L6 Hb) as (bs & ps & L & entry & st & S1 & Sv & S2 & S3 & S4 & S5 & S6 & S7).
  pose proof (same_load _ _ _ _ _ _ E2) as Hpg. cbn in Hpg. destruct (unpin ke P a2 (mach s') k _ L1 HkP Hki Hpin Hka Hap) as (Hr3 & Hk3 & Hh3 & Hc3). set (a3 := set_bytes _ _) in *.
  exists a3, L, bs, entry, st. cbv zeta. split_and!; try done.
  - split; try done; [split; [done|by apply Hh3|done]|cbn; rewrite Hpg; clear; set_solver| | | |right; by eexists].
    + rewrite Hpg. apply table_zero. intros x Hx. cbn. rewrite page_from_in by done. apply Hc3; [done|]. rewrite Hmem by done. by apply Hz1.
    + intros i f Hi%lookup_replicate. by destruct Hi.
    + intros i j f Hi%lookup_replicate. by destruct Hi.
  - by rewrite Hpg.
  - cbn. rewrite Hpg, L3. cbn. rewrite Hl1. apply set_eq. intros x. clear -Hkl. destruct (decide (x = k)) as [->|]; set_solver.
  - intros d L2' Hd Hh. apply Hh3, L4; [done|]. by apply holds_loose, Hh1.
Qed.

End start.
