(* ===== verification/ProcessLife.v ===== *)
(** * The life of a process

    From its start to its exit a process loads and stores bytes and makes system
    calls in any order; what it gets it gives back. *)

From S2P Require Import Prelude Vaddr CString Bitmap Palloc PageDir PageDirSpec PageDirInv PageDirTheorems FileApi Process ProcessSpec ProcessImage ProcessLoad ProcessArgs ProcessTheorems Descriptor Syscall UserMemory SyscallCheck DescriptorInv DescriptorCalls SyscallTheorems ProcessExit ProcessStart.

Section life.
  Context {S : Type} {PA : PageAllocator S} {PL : PageAllocatorLaws S} {PP : PagePool S}.
  Context {F : Type} {FI : Files F} {FL : FilesLaws F}.
  Implicit Types (ke : kenv) (P : gset Z) (s : proc S F) (a : vm) (L : layout) (T : list slot).

(** ** Steps *)

(** A word that the program reads. *)
Definition peek (va : Z) s : option Z := match user_read va (mach s) with Ok (r, _) => r | Err _ => None end.
Definition peek_word (va : Z) s : option Z :=
  b0 ← peek va s; b1 ← peek (va + 1) s; b2 ← peek (va + 2) s; b3 ← peek (va + 3) s; Some (le_value [b0; b1; b2; b3]).

(** A descriptor is free. *)
Definition room s : Prop := ∃ i, (i < 341)%nat ∧ memory_of s !! slot_addr (file_descriptor_page s) i = Some 0.

(** A call of create or seek has a number below [2^31]. *)
Definition accepted s : Prop :=
  ∀ n w, esp s + 4 ≤ PHYS_BASE → u32 (esp s + 8) + 4 ≤ PHYS_BASE →
    peek_word (esp s) s = Some n → u32 n = 5 ∨ u32 n = 11 → peek_word (u32 (esp s + 8)) s = Some w → u32 w < 2 ^ 31.

(** What a program does: it loads and stores bytes, and it calls the kernel with
    any stack pointer, the calls that return to it without [process_execute] and
    [process_wait]. *)
Inductive ustep s : proc S F → Prop :=
  | step_load va b s' : 0 ≤ va < PHYS_BASE → get_user va s = Ok (b, s') → ustep s s'
  | step_store va b s' : 0 ≤ va < PHYS_BASE → put_user va b s = Ok (tt, s') → ustep s s'
  | step_call e s' : in_u 32 e → room s → accepted (set_esp e s) → syscall_handler (set_esp e s) = Ok (Returned, s') → ustep s s'.

Lemma peek_image ke P a L s va : uspace ke P a L s → 0 ≤ va < PHYS_BASE → peek va s = image_byte L va.
Proof. intros [H1 H2 H3] Hva. rewrite <-H3 in H2. destruct (img_user_read _ _ _ _ _ _ H1 H2 Hva) as [t E]. unfold peek. by rewrite E. Qed.
Lemma peek_word_image ke P a L s va : uspace ke P a L s → 0 ≤ va → va + 4 ≤ PHYS_BASE → peek_word va s = image_word L va.
Proof. intros Hu H0 H1. unfold peek_word, image_word. by rewrite !(peek_image ke P a L) by (done || lia). Qed.

Lemma accepted_range ke P a L s : uspace ke P a L s → in_u 32 (esp s) → accepted s → in_range L (esp s).
Proof.
  intros Hu He Hac n w H1 H2. assert (0 ≤ u32 (esp s + 8)) as H0 by by apply (wrapu_range 32). unfold in_u in He.
  rewrite <-!(peek_word_image ke P a L s) by (done || lia). by apply Hac.
Qed.

Lemma room_free ke P a L T s : running ke P a L T s → settled T → room s → Free ∈ T.
Proof.
  intros Hr Hst (i & Hi & E). destruct (running_memory _ _ _ _ _ _ Hr) as (_ & _ & Ht). destruct (lookup_lt_is_Some_2 T i) as [o Ho]; [by rewrite (tb_length _ _ _ Ht)|].
  pose proof (tb_slots _ _ _ Ht i o Ho) as Hs. destruct o; [by eapply list_elem_of_lookup_2|destruct Hs; congruence..].
Qed.

Lemma running_esp ke P a L T s v : running ke P a L T s → running ke P a L T (set_esp v s).
Proof. intros [[U1 U2 U3] R2 R3 R4 R5 R6 R7]. by split. Qed.

(** ** What holds as long as a process runs *)

(** The process in state [s] has come from state [s0]. *)
Record grown ke P a0 s0 a L T s : Prop := {
  gr_running : running ke P a L T s;
  gr_settled : settled T;
  gr_loose : loose a = loose a0;
  gr_kept : kept (pagedir s0) a0 a;
  gr_pagedir : pagedir s = pagedir s0;
  gr_page : file_descriptor_page s = file_descriptor_page s0;
  gr_exec : process_executable s = process_executable s0;
  gr_others g : is_Some (vfs_view (disk s0) g) → Used g ∉ T ∧ snd <$> vfs_view (disk s) g = snd <$> vfs_view (disk s0) g
}.

Lemma grown_serves ke P a0 s0 a L T s a' L' T' s' :
  grown ke P a0 s0 a L T s → running ke P a' L' T' s' → follows s T T' → serves (either T T') a s a' s' → grown ke P a0 s0 a' L' T' s'.
Proof.
  intros [G1 G2 G3 G4 G5 G6 G7 G8] Hr [Hst Hnew] [V1 V2 V3 V4 V5 V6 V7]. split; try congruence; [eapply kept_trans; [done|]; by rewrite G5 in V2|].
  intros g Hg. destruct (G8 g Hg) as [Hn Hv]. assert (Used g ∉ T') as Hn'.
  { intros [?|Hnone]%Hnew; [done|]. rewrite Hnone in Hv. destruct Hg as [? Hg]. by rewrite Hg in Hv. }
  split; [done|]. rewrite V7; [done|]. by intros [?|?].
Qed.

Lemma call_ends ke P a L T s e :
  running ke P a L T s → settled T → in_u 32 e → room s → accepted (set_esp e s) →
  ∃ o s' a' L' T', syscall_handler (set_esp e s) = Ok (o, s') ∧ running ke P a' L' T' s' ∧ follows s T T' ∧ serves (either T T') a s a' s' ∧
    completed L e o.
Proof.
  intros Hr Hst He Hroom Hac. pose proof (running_esp _ _ _ _ _ _ e Hr) as Hr1. destruct (handler_ends ke P a L T (set_esp e s) Hr1 Hst He) as (o & s' & a' & L' & T' & H1 & H2 & H3 & H4 & H5).
  - by eapply room_free.
  - by apply (accepted_range ke P a); [apply Hr1|..].
  - exists o, s', a', L', T'. split; [done|]. split; [done|]. split; [done|]. split; [destruct H4; by split|done].
Qed.

Lemma grown_step ke P a0 s0 a L T s s' : grown ke P a0 s0 a L T s → ustep s s' → ∃ a' L' T', grown ke P a0 s0 a' L' T' s'.
Proof.
  intros Hg Hs. pose proof (gr_running _ _ _ _ _ _ _ _ Hg) as Hr. pose proof (gr_settled _ _ _ _ _ _ _ _ Hg) as Hst. pose proof (rn_space _ _ _ _ _ _ Hr) as Hu. destruct Hs as [va b s' Hva E|va b s' Hva E|e s' He Hroom Hac E].
  - assert (page_allows L false va) as Hp. { apply (accessible_allowed ke P a L s false va Hu Hva). apply bind_inv in E as (r & t & E & E2). unfold on_mach, zoom in E. destruct (user_read va (mach s)) as [[r' t']|] eqn:Er; [|done]. injection E as -> <-. destruct r as [c|]; [|done]. by exists c, t'. }
    destruct (get_user_ok ke P a L s va Hu Hva Hp) as (b' & t & a' & E' & _ & Hu' & Hk). rewrite E in E'. injection E' as -> ->. destruct (running_user ke P a L L T s a' t Hr Hu' Hk) as [Hr' Hs'].
    exists a', L, T. apply (grown_serves _ _ _ _ _ _ _ _ _ _ _ _ Hg Hr'); [by apply follows_same|]. by apply (serves_weaken _ _ _ _ _ _ Hs').
  - assert (page_allows L true va) as Hp. { apply bind_inv in E as (r & t & E & E2). unfold on_mach, zoom in E. destruct Hu as [H1 H2 H3]. rewrite <-H3 in H2. destruct (img_user_write _ _ _ _ _ _ b H1 H2 Hva) as [t' Et]. rewrite Et in E. injection E as <- <-. apply allowed_write. by destruct (image_writable L va). }
    destruct (put_user_ok ke P a L s va b Hu Hva Hp) as (t & a' & E' & Hu' & Hk). rewrite E in E'. injection E' as ->. destruct (running_user ke P a L _ T s a' t Hr Hu' Hk) as [Hr' Hs'].
    exists a', (image_put L va b), T. apply (grown_serves _ _ _ _ _ _ _ _ _ _ _ _ Hg Hr'); [by apply follows_same|]. by apply (serves_weaken _ _ _ _ _ _ Hs').
  - destruct (call_ends ke P a L T s e Hr Hst He Hroom Hac) as (o' & s2 & a' & L' & T' & E' & Hr' & Hf & Hs' & _). rewrite E in E'. injection E' as <- ->.
    exists a', L', T'. by apply (grown_serves _ _ _ _ _ _ _ _ _ _ _ _ Hg Hr').
Qed.

Lemma grown_steps ke P a0 s0 a L T s s' : grown ke P a0 s0 a L T s → rtc ustep s s' → ∃ a' L' T', grown ke P a0 s0 a' L' T' s'.
Proof.
  intros Hg Hs. revert a L T Hg. induction Hs as [s|s s1 s2 Hs _ IH]; intros a L T Hg; [by exists a, L, T|].
  destruct (grown_step _ _ _ _ _ _ _ _ _ Hg Hs) as (a1 & L1 & T1 & Hg1). by apply (IH a1 L1 T1).
Qed.

(** ** The theorem *)


End life.
