(* ===== verification/BlockDevice.v ===== *)
(** * The interface of a block device

    What a device that stores sectors of 512 bytes offers (devices/block.h), as
    a class of operations and a class of laws.  The disk driver under the block
    layer is used through it, and so is a block device by the file system.  A
    disk in memory, with which programs of the development run, is an instance. *)

From S2P Require Import Prelude.

Definition BLOCK_SECTOR_SIZE : Z := 512.

(** ** Devices that store sectors *)

Class BlockDevice (B : Type) := {
  dev_size : B → Z;
  dev_read : Z → M B (list Z);
  dev_write : Z → list Z → M B unit
}.

(** The bytes of all the sectors in order are the [image] of the device; a
    sector read is that part of the image, and a write replaces it. *)
Class BlockDeviceLaws (B : Type) `{BlockDevice B} := {
  dev_wf : B → Prop;
  image : B → list Z;
  dev_image_length b : dev_wf b → Z.of_nat (length (image b)) = BLOCK_SECTOR_SIZE * dev_size b;
  dev_size_range b : dev_wf b → 0 ≤ dev_size b < 2 ^ 32;
  dev_read_ok b i :
    dev_wf b → 0 ≤ i → i < dev_size b →
    ∃ b', dev_read i b = Ok (slice (image b) (BLOCK_SECTOR_SIZE * i) BLOCK_SECTOR_SIZE, b') ∧
      dev_wf b' ∧ dev_size b' = dev_size b ∧ image b' = image b;
  dev_write_ok b i data :
    dev_wf b → 0 ≤ i → i < dev_size b → Z.of_nat (length data) = BLOCK_SECTOR_SIZE →
    ∃ b', dev_write i data b = Ok (tt, b') ∧
      dev_wf b' ∧ dev_size b' = dev_size b ∧ image b' = splice (image b) (BLOCK_SECTOR_SIZE * i) data
}.

(** ** A disk in memory *)

Definition ram_disk : Type := list Z.
Definition ram_disk_size (b : ram_disk) : Z := Z.of_nat (length b) / BLOCK_SECTOR_SIZE.

#[global] Instance ram_disk_device : BlockDevice ram_disk := {
  dev_size := ram_disk_size;
  dev_read := λ i b, Ok (slice b (BLOCK_SECTOR_SIZE * i) BLOCK_SECTOR_SIZE, b);
  dev_write := λ i data b, Ok (tt, splice b (BLOCK_SECTOR_SIZE * i) data)
}.

Definition ram_disk_wf (b : ram_disk) : Prop :=
  Z.of_nat (length b) = BLOCK_SECTOR_SIZE * ram_disk_size b ∧ ram_disk_size b < 2 ^ 32.

#[global] Program Instance ram_disk_laws : BlockDeviceLaws ram_disk := {
  dev_wf := ram_disk_wf;
  image := λ b, b
}.
Next Obligation. by intros b [? _]. Qed.
Next Obligation. intros b [? ?]. split; [|done]. unfold dev_size, ram_disk_device, ram_disk_size, BLOCK_SECTOR_SIZE. apply Z.div_pos; lia. Qed.
Next Obligation. intros b i Hb _ _. by exists b. Qed.
Next Obligation.
  intros b i data Hb Hi Hi' Hd. eexists. split; [done|]. unfold ram_disk_wf, dev_size, ram_disk_device, ram_disk_size in *.
  by rewrite !splice_length.
Qed.

(** A disk of [n] sectors of zeros. *)
Definition blank_disk (n : Z) : ram_disk := replicate (Z.to_nat (BLOCK_SECTOR_SIZE * n)) 0.

Lemma blank_disk_wf n : 0 ≤ n < 2 ^ 32 → dev_wf (blank_disk n).
Proof.
  intros Hn. assert (ram_disk_size (blank_disk n) = n) as E.
  { unfold ram_disk_size, blank_disk, BLOCK_SECTOR_SIZE. rewrite length_replicate, Z2Nat.id by lia.
    rewrite (Z.mul_comm 512). apply Z.div_mul. lia. }
  split; rewrite E; [|lia]. unfold blank_disk, BLOCK_SECTOR_SIZE. rewrite length_replicate. lia.
Qed.
