(* ===== verification/Block.v ===== *)
(** * Block devices and partitions

    devices/block.c and devices/partition.c.  A [struct block] is known by its
    address; its [aux] is the state of a disk driver, or a [struct partition].
    The disk driver is a parameter: a type of states with a read and a write
    operation and the laws of BlockDevice.v (devices/ide.c drives the hardware).
    The same interface is what a block device offers to the file system, and a
    registered disk or partition implements it.  Console messages are left out.
    The answers of [malloc] are a list in the state: an answer that is null, or
    the address of a block in use, is a failure, and so is the end of the list. *)

From S2P Require Import Prelude CString CStdlib Stdio BlockDevice.

(** ** Block devices *)

Inductive block_type :=
| BLOCK_KERNEL | BLOCK_FILESYS | BLOCK_SCRATCH | BLOCK_SWAP | BLOCK_RAW | BLOCK_FOREIGN.

#[global] Instance block_type_eq_dec : EqDecision block_type.
Proof. solve_decision. Defined.

Definition BLOCK_ROLE_CNT : Z := 4.

(** The value of the enumeration constant. *)
Definition type_value (t : block_type) : Z :=
  match t with
  | BLOCK_KERNEL => 0 | BLOCK_FILESYS => 1 | BLOCK_SCRATCH => 2 | BLOCK_SWAP => 3
  | BLOCK_RAW => 4 | BLOCK_FOREIGN => 5
  end.

(** [aux], with the operations it is used with. *)
Inductive driver (D : Type) :=
| disk (d : D)
| partition (p_block p_start : Z).
Arguments disk {D} d.
Arguments partition {D} p_block p_start.

Record block (D : Type) := Block {
  name : list Z;
  type : block_type;
  size : Z;
  aux : driver D;
  read_cnt : Z;
  write_cnt : Z
}.
Arguments Block {D}.
Arguments name {D}. Arguments type {D}. Arguments size {D}. Arguments aux {D}.
Arguments read_cnt {D}. Arguments write_cnt {D}.

Record registry (D : Type) := Registry {
  blocks_at : gmap Z (block D);
  all_blocks : list Z;
  block_by_role : list Z;
  answers : list Z
}.
Arguments Registry {D}.
Arguments blocks_at {D}. Arguments all_blocks {D}. Arguments block_by_role {D}. Arguments answers {D}.

Section block.
  Context {D : Type} `{BlockDevice D}.
  Implicit Types s : registry D.

Definition set_blocks (f : gmap Z (block D) → gmap Z (block D)) s : registry D :=
  Registry (f (blocks_at s)) (all_blocks s) (block_by_role s) (answers s).

(** Access to the block at an address. *)
Definition rd_block (p : Z) : M (registry D) (block D) := λ s,
  match blocks_at s !! p with Some b => Ok (b, s) | None => Err BadAccess end.
Definition wr_block (p : Z) (b : block D) : M (registry D) unit := modify (set_blocks (<[p := b]>)).

Definition with_aux (a : driver D) (b : block D) : block D :=
  Block (name b) (type b) (size b) a (read_cnt b) (write_cnt b).

Definition malloc : M (registry D) Z := λ s,
  match answers s with
  | [] => Ok (NULL, s)
  | a :: l =>
      Ok (if decide (is_Some (blocks_at s !! a)) then NULL else a,
          Registry (blocks_at s) (all_blocks s) (block_by_role s) l)
  end.

Definition block_get_role (role : block_type) : M (registry D) Z :=
  assert (bool_decide (type_value role < BLOCK_ROLE_CNT));;
  gets (λ s, nth (Z.to_nat (type_value role)) (block_by_role s) NULL).

Definition block_set_role (role : block_type) (p : Z) : M (registry D) unit :=
  assert (bool_decide (type_value role < BLOCK_ROLE_CNT));;
  modify (λ s, Registry (blocks_at s) (all_blocks s)
                 (<[Z.to_nat (type_value role) := p]> (block_by_role s)) (answers s)).

(** The first block of the list from [l], null at the end of the list. *)
Definition list_elem_to_block (l : list Z) : Z := default NULL (head l).

Definition block_first : M (registry D) Z := gets (λ s, list_elem_to_block (all_blocks s)).

(** What follows [p] in the list. *)
Fixpoint list_after (p : Z) (l : list Z) : list Z :=
  match l with [] => [] | q :: l => if decide (q = p) then l else list_after p l end.

Definition block_next (p : Z) : M (registry D) Z :=
  rd_block p;; gets (λ s, list_elem_to_block (list_after p (all_blocks s))).

Fixpoint get_by_name_loop (l : list Z) (n : list Z) : M (registry D) Z :=
  match l with
  | [] => mret NULL
  | p :: l => b ← rd_block p; if decide (n = name b) then mret p else get_by_name_loop l n
  end.

Definition block_get_by_name (n : list Z) : M (registry D) Z := l ← gets all_blocks; get_by_name_loop l n.

Definition check_sector (p sector : Z) : M (registry D) unit :=
  b ← rd_block p; if decide (sector >= size b) then fail Panicked else mret tt.

Definition block_size (p : Z) : M (registry D) Z := b ← rd_block p; mret (size b).
Definition block_name (p : Z) : M (registry D) (list Z) := b ← rd_block p; mret (name b).
Definition block_type_of (p : Z) : M (registry D) block_type := b ← rd_block p; mret (type b).

(** The driver's own operation on the disk of the block at [p]. *)
Definition on_disk {A} (p : Z) (m : M D A) : M (registry D) A :=
  b ← rd_block p;
  match aux b with
  | disk d => '(a, d) ← lift (m d); wr_block p (with_aux (disk d) b);; mret a
  | partition _ _ => fail BadAccess
  end.

(** [fuel] bounds the nesting of partitions: [partition_read] and
    [partition_write] are the operations of a block whose [aux] is a
    partition. *)
Fixpoint block_read (fuel : nat) (p sector : Z) : M (registry D) (list Z) :=
  match fuel with
  | O => fail OutOfFuel
  | S fuel =>
      check_sector p sector;;
      b ← rd_block p;
      data ← match aux b with
             | disk _ => on_disk p (dev_read sector)
             | partition q start => block_read fuel q (u32 (start + sector))
             end;
      b ← rd_block p;
      wr_block p (Block (name b) (type b) (size b) (aux b) (u64 (read_cnt b + 1)) (write_cnt b));;
      mret data
  end.

Fixpoint block_write (fuel : nat) (p sector : Z) (buffer : list Z) : M (registry D) unit :=
  match fuel with
  | O => fail OutOfFuel
  | S fuel =>
      check_sector p sector;;
      b ← rd_block p;
      assert (bool_decide (type b ≠ BLOCK_FOREIGN));;
      match aux b with
      | disk _ => on_disk p (dev_write sector buffer)
      | partition q start => block_write fuel q (u32 (start + sector)) buffer
      end;;
      b ← rd_block p;
      wr_block p (Block (name b) (type b) (size b) (aux b) (read_cnt b) (u64 (write_cnt b + 1)))
  end.

(** The nesting is less than the number of blocks. *)
Definition depth : M (registry D) nat := gets (λ s, length (all_blocks s)).

Definition block_register (n : list Z) (t : block_type) (sz : Z) (a : driver D) : M (registry D) Z :=
  p ← malloc;
  if decide (p = NULL) then fail Panicked else
  modify (λ s, Registry (<[p := Block (take 15 n) t sz a 0 0]> (blocks_at s)) (all_blocks s ++ [p])
                 (block_by_role s) (answers s));;
  mret p.

End block.

(** ** Partition tables *)

Section partitions.
  Context {D : Type} `{BlockDevice D}.

(** [struct partition_table_entry]: the fields that are read. *)
Record partition_table_entry := Entry { e_type : Z; e_offset : Z; e_size : Z }.

Definition entry_at (sector : list Z) (i : Z) : partition_table_entry :=
  let e := slice sector (446 + 16 * i) 16 in
  Entry (le_value (slice e 4 1)) (le_value (slice e 8 4)) (le_value (slice e 12 4)).
Definition partitions (sector : list Z) : list partition_table_entry := entry_at sector <$> [0; 1; 2; 3].
Definition signature (sector : list Z) : Z := le_value (slice sector 510 2).

Definition partition_block_type (part_type : Z) : block_type :=
  if decide (part_type = 0x20) then BLOCK_KERNEL
  else if decide (part_type = 0x21) then BLOCK_FILESYS
  else if decide (part_type = 0x22) then BLOCK_SCRATCH
  else if decide (part_type = 0x23) then BLOCK_SWAP
  else BLOCK_FOREIGN.

(** ["%s%d"] in a buffer of 16 characters. *)
Definition partition_name (n : list Z) (part_nr : Z) : result (list Z) :=
  d ← format_integer (u64 (if decide (part_nr < 0) then - part_nr else part_nr)) true (bool_decide (part_nr < 0))
        base_d (Conversion 0 0 (-1) INT);
  Ok (take 15 (n ++ d)).

Definition found_partition (p part_type start sz part_nr : Z) : M (registry D) unit :=
  n ← block_size p;
  if decide (start >= n) then mret tt
  else if decide (u32 (start + sz) < start ∨ u32 (start + sz) > n) then mret tt
  else
    part ← malloc;
    if decide (part = NULL) then fail Panicked else
    bn ← block_name p;
    nm ← lift (partition_name bn part_nr);
    block_register nm (partition_block_type part_type) sz (partition p start);;
    mret tt.

Definition is_extended (t : Z) : Prop := t = 0x05 ∨ t = 0x0f ∨ t = 0x85 ∨ t = 0xc5.
#[global] Instance is_extended_dec t : Decision (is_extended t).
Proof. unfold is_extended. apply _. Defined.

(** The loop over the entries; [f] is its body, with [*part_nr]. *)
Fixpoint each_entry (es : list partition_table_entry) (f : partition_table_entry → Z → M (registry D) Z)
    (part_nr : Z) : M (registry D) Z :=
  match es with [] => mret part_nr | e :: es => part_nr ← f e part_nr; each_entry es f part_nr end.

(** The result is [*part_nr].  [fuel] bounds the nesting of the calls. *)
Fixpoint read_partition_table (fuel : nat) (p sector primary_extended_sector part_nr : Z) : M (registry D) Z :=
  match fuel with
  | O => fail OutOfFuel
  | S fuel =>
      n ← block_size p;
      if decide (sector >= n) then mret part_nr else
      pt ← malloc;
      if decide (pt = NULL) then fail Panicked else
      d ← depth;
      pt ← block_read d p 0;
      if decide (signature pt ≠ 0xaa55) then mret part_nr else
      each_entry (partitions pt) (λ e part_nr,
        if decide (e_size e = 0 ∨ e_type e = 0) then mret part_nr
        else if decide (is_extended (e_type e)) then
          if decide (sector = 0) then read_partition_table fuel p (e_offset e) (e_offset e) part_nr
          else read_partition_table fuel p (u32 (e_offset e + primary_extended_sector))
                 primary_extended_sector part_nr
        else
          let part_nr := i32 (part_nr + 1) in
          found_partition p (e_type e) (u32 (e_offset e + sector)) (e_size e) part_nr;;
          mret part_nr) part_nr
  end.

Definition partition_scan (fuel : nat) (p : Z) : M (registry D) Z := read_partition_table fuel p 0 0 0.

End partitions.

(** ** Registered blocks implement the interface *)

Section laws.
  Context {D : Type} `{BlockDeviceLaws D}.
  Implicit Types s : registry D.

(** What does not change when sectors are read and written, and the bytes of
    the disks. *)
Definition shape (b : block D) : list Z * block_type * Z * option (Z * Z) :=
  (name b, type b, size b, match aux b with disk _ => None | partition q st => Some (q, st) end).
Definition shapes s := shape <$> blocks_at s.
Definition disk_image (b : block D) : option (list Z) :=
  match aux b with disk d => Some (image d) | partition _ _ => None end.
Definition images s : gmap Z (list Z) := omap disk_image (blocks_at s).

Definition disk_ok (b : block D) : Prop :=
  match aux b with disk d => dev_wf d ∧ size b ≤ dev_size d | partition _ _ => True end.

(** A partition lies inside a block that was registered before it. *)
Definition part_ok s (i : nat) (b : block D) : Prop :=
  match aux b with
  | disk _ => True
  | partition q st => 0 ≤ st ∧ ∃ j c, (j < i)%nat ∧ all_blocks s !! j = Some q ∧ blocks_at s !! q = Some c ∧ st + size b ≤ size c
  end.

Record registry_wf s : Prop := {
  rw_nodup : NoDup (all_blocks s);
  rw_listed p : p ∈ all_blocks s ↔ is_Some (blocks_at s !! p);
  rw_nonnull : blocks_at s !! NULL = None;
  rw_size p b : blocks_at s !! p = Some b → 0 ≤ size b < 2 ^ 32;
  rw_disk p b : blocks_at s !! p = Some b → disk_ok b;
  rw_part i p b : all_blocks s !! i = Some p → blocks_at s !! p = Some b → part_ok s i b
}.

Definition same s s' : Prop :=
  all_blocks s' = all_blocks s ∧ block_by_role s' = block_by_role s ∧ shapes s' = shapes s ∧ answers s' = answers s.

Lemma registry_same_trans s1 s2 s3 : same s1 s2 → same s2 s3 → same s1 s3.
Proof. unfold same. naive_solver congruence. Qed.

(** The disk under a block, and the sector of it where the block starts. *)
Fixpoint region (fuel : nat) (sh : gmap Z (list Z * block_type * Z * option (Z * Z))) (p : Z) : option (Z * Z) :=
  match fuel with
  | O => None
  | S fuel =>
      match sh !! p with
      | Some (_, None) => Some (p, 0)
      | Some (_, Some (q, st)) => match region fuel sh q with Some (r, base) => Some (r, base + st) | None => None end
      | None => None
      end
  end.

(** No block down to the disk belongs to another system. *)
Fixpoint writable (fuel : nat) (sh : gmap Z (list Z * block_type * Z * option (Z * Z))) (p : Z) : Prop :=
  match fuel with
  | O => True
  | S fuel =>
      match sh !! p with
      | Some (_, t, _, a) => t ≠ BLOCK_FOREIGN ∧ match a with Some (q, _) => writable fuel sh q | None => True end
      | None => True
      end
  end.

Lemma shapes_lookup s p b : blocks_at s !! p = Some b → shapes s !! p = Some (shape b).
Proof. intros E. unfold shapes. by rewrite lookup_fmap, E. Qed.

Lemma shape_lookup_inv s p b b' : shapes s !! p = Some (shape b') → blocks_at s !! p = Some b → shape b = shape b'.
Proof. intros E1 E2. rewrite (shapes_lookup _ _ _ E2) in E1. congruence. Qed.

(** Storing a block that only differs in its counters or its disk. *)
Lemma wr_block_same s p b b' :
  registry_wf s → blocks_at s !! p = Some b → shape b' = shape b → disk_ok b' →
  let s' := set_blocks (<[p := b']>) s in
  wr_block p b' s = Ok (tt, s') ∧ registry_wf s' ∧ same s s' ∧ images s' = partial_alter (λ _, disk_image b') p (images s).
Proof.
  intros Hwf Ep Es Hd s'. split; [done|].
  assert (∀ q c, blocks_at s' !! q = Some c → ∃ c0, blocks_at s !! q = Some c0 ∧ shape c = shape c0) as Hold.
  { intros q c. unfold s'. simpl. destruct (decide (q = p)) as [->|].
    - rewrite lookup_insert_eq. intros [= <-]. eauto.
    - rewrite lookup_insert_ne by done. eauto. }
  assert (∀ q c, blocks_at s !! q = Some c → ∃ c1, blocks_at s' !! q = Some c1 ∧ shape c1 = shape c) as Hnew.
  { intros q c Eq. unfold s'. simpl. destruct (decide (q = p)) as [->|].
    - rewrite lookup_insert_eq. exists b'. split; [done|]. congruence.
    - rewrite lookup_insert_ne by done. eauto. }
  split; [|split].
  - split; simpl.
    + apply Hwf.
    + intros q. rewrite (rw_listed s Hwf). destruct (decide (q = p)) as [->|]; [rewrite lookup_insert_eq, Ep; split; eauto|].
      by rewrite lookup_insert_ne.
    + rewrite lookup_insert_ne; [apply Hwf|]. intros ->. pose proof (rw_nonnull s Hwf). congruence.
    + intros q c Eq. destruct (Hold q c Eq) as (c0 & E0 & Ec). pose proof (rw_size s Hwf _ _ E0).
      unfold shape in Ec. assert (size c = size c0) as -> by congruence. done.
    + intros q c. destruct (decide (q = p)) as [->|]; [rewrite lookup_insert_eq; by intros [= <-]|].
      rewrite lookup_insert_ne by done. apply Hwf.
    + intros i q c Ei Eq. destruct (Hold q c Eq) as (c0 & E0 & Ec). pose proof (rw_part s Hwf i q c0 Ei E0) as Hp.
      unfold part_ok, shape in *. assert (size c = size c0) as Esz by congruence.
      destruct (aux c), (aux c0); try (done || congruence). assert (p_block = p_block0 ∧ p_start = p_start0) as [-> ->] by (split; congruence).
      destruct Hp as (? & j & d & Hj & Ej & Ed & Hs). split; [done|]. destruct (Hnew _ _ Ed) as (d1 & Ed1 & Esh).
      exists j, d1. split_and!; [done..|]. assert (size d1 = size d) as -> by (unfold shape in Esh; congruence). lia.
  - split_and!; [done..| |done]. unfold shapes, s'. simpl. rewrite fmap_insert. apply insert_id.
    rewrite lookup_fmap, Ep. simpl. congruence.
  - unfold images, s'. simpl. apply map_eq. intros q. rewrite lookup_omap.
    destruct (decide (q = p)) as [->|]; [by rewrite lookup_insert_eq, lookup_partial_alter_eq|].
    by rewrite lookup_insert_ne, lookup_partial_alter_ne, lookup_omap.
Qed.

(** The disk keeps its image when only counters change. *)
Lemma count_ok s p b rc wc :
  registry_wf s → blocks_at s !! p = Some b →
  let s' := set_blocks (<[p := Block (name b) (type b) (size b) (aux b) rc wc]>) s in
  registry_wf s' ∧ same s s' ∧ images s' = images s.
Proof.
  intros Hwf Ep s'. destruct (wr_block_same s p b (Block (name b) (type b) (size b) (aux b) rc wc) Hwf Ep)
    as (_ & Hwf' & Hs & Hi); [done|apply (rw_disk s Hwf _ _ Ep)|].
  split_and!; [done..|]. unfold s'. rewrite Hi. apply map_eq. intros q. destruct (decide (q = p)) as [->|].
  - rewrite lookup_partial_alter_eq. unfold images. by rewrite lookup_omap, Ep.
  - by rewrite lookup_partial_alter_ne.
Qed.

Lemma check_sector_ok s p b sector :
  blocks_at s !! p = Some b → sector < size b → check_sector p sector s = Ok (tt, s).
Proof.
  intros Ep Hs. unfold check_sector, rd_block. cbv [mbind M_bind]. by rewrite Ep, decide_False by lia.
Qed.

Lemma rd_block_ok s p b : blocks_at s !! p = Some b → rd_block p s = Ok (b, s).
Proof. unfold rd_block. by intros ->. Qed.

Lemma on_disk_ok {A} s p b d (m : M D A) a d' :
  registry_wf s → blocks_at s !! p = Some b → aux b = disk d → m d = Ok (a, d') → dev_wf d' → dev_size d' = dev_size d →
  let s' := set_blocks (<[p := with_aux (disk d') b]>) s in
  on_disk p m s = Ok (a, s') ∧ registry_wf s' ∧ same s s' ∧ images s' = <[p := image d']> (images s).
Proof.
  intros Hwf Ep Ed Em Hd Hsz s'. destruct (wr_block_same s p b (with_aux (disk d') b) Hwf Ep)
    as (E & Hwf' & Hs & Hi).
  - unfold shape. simpl. by rewrite Ed.
  - pose proof (rw_disk s Hwf _ _ Ep) as Hk. unfold disk_ok in *. simpl. rewrite Ed in Hk. split; [done|]. lia.
  - split_and!; [|done..]. unfold on_disk. rewrite (bind_ok _ _ _ _ _ (rd_block_ok _ _ _ Ep)), Ed.
    unfold lift. cbv [mbind M_bind]. by rewrite Em.
Qed.

Lemma images_lookup s p b d : blocks_at s !! p = Some b → aux b = disk d → images s !! p = Some (image d).
Proof. intros Ep Ed. unfold images, disk_image. rewrite lookup_omap, Ep. simpl. by rewrite Ed. Qed.

Lemma same_lookup s s' p b : same s s' → blocks_at s !! p = Some b → ∃ b', blocks_at s' !! p = Some b' ∧ shape b' = shape b.
Proof.
  intros (_ & _ & E & _) Ep. apply (f_equal (lookup p)) in E. rewrite (shapes_lookup _ _ _ Ep) in E.
  unfold shapes in E. rewrite lookup_fmap in E. destruct (blocks_at s' !! p) as [b'|]; [|done].
  exists b'. split; [done|]. simpl in E. congruence.
Qed.

(** A partition and the block it lies in. *)
Lemma part_parent s p b q st :
  registry_wf s → blocks_at s !! p = Some b → aux b = partition q st →
  ∃ c, blocks_at s !! q = Some c ∧ 0 ≤ st ∧ st + size b ≤ size c.
Proof.
  intros Hwf Ep Ea. assert (p ∈ all_blocks s) as [i Hi]%list_elem_of_lookup by (apply (rw_listed s Hwf); eauto).
  pose proof (rw_part s Hwf _ _ _ Hi Ep) as Hp. unfold part_ok in Hp. rewrite Ea in Hp.
  destruct Hp as (? & j & c & _ & _ & Ec & Hs). eauto.
Qed.

Lemma region_inv fuel s p b r base :
  blocks_at s !! p = Some b → region (S fuel) (shapes s) p = Some (r, base) →
  match aux b with
  | disk d => r = p ∧ base = 0
  | partition q st => ∃ base', region fuel (shapes s) q = Some (r, base') ∧ base = base' + st
  end.
Proof.
  intros Ep. cbn [region]. rewrite (shapes_lookup _ _ _ Ep). unfold shape.
  destruct (aux b) as [d|q st]; [by intros [= -> ->]|].
  destruct (region fuel (shapes s) q) as [[r' base']|]; intros [= -> <-]. eauto.
Qed.

Lemma block_read_ok fuel s p b r base img sector :
  registry_wf s → blocks_at s !! p = Some b → region fuel (shapes s) p = Some (r, base) → images s !! r = Some img →
  0 ≤ sector → sector < size b →
  ∃ s', block_read fuel p sector s = Ok (slice img (512 * (base + sector)) 512, s') ∧
    registry_wf s' ∧ same s s' ∧ images s' = images s.
Proof.
  revert s p b base sector. induction fuel as [|fuel IH]; intros s p b base sector Hwf Ep Er Ei Hlo Hs; [done|].
  apply (region_inv _ _ _ b) in Er; [|done]. cbn [block_read].
  rewrite (bind_ok _ _ _ _ _ (check_sector_ok _ _ _ _ Ep Hs)), (bind_ok _ _ _ _ _ (rd_block_ok _ _ _ Ep)).
  assert (∃ s1, match aux b with
                | disk _ => on_disk p (dev_read sector)
                | partition q start => block_read fuel q (u32 (start + sector))
                end s = Ok (slice img (512 * (base + sector)) 512, s1) ∧
            registry_wf s1 ∧ same s s1 ∧ images s1 = images s) as (s1 & E1 & Hwf1 & Hs1 & Hi1).
  { destruct (aux b) as [d|q st] eqn:Ea.
    - destruct Er as [-> ->]. pose proof (images_lookup _ _ _ _ Ep Ea) as Ei'. rewrite Ei' in Ei. injection Ei as <-.
      pose proof (rw_disk s Hwf _ _ Ep) as Hk. unfold disk_ok in Hk. rewrite Ea in Hk. destruct Hk as [Hk Hsz].
      destruct (dev_read_ok d sector Hk) as (d' & Ed & Hd' & Hsz' & Hi'); [lia..|].
      destruct (on_disk_ok s p b d (dev_read sector) _ _ Hwf Ep Ea Ed Hd' Hsz') as (E & Hwf' & Hs' & Him).
      eexists. split; [exact E|]. split_and!; [done..|]. rewrite Him, Hi'. by apply insert_id.
    - destruct Er as (base' & Er & ->). destruct (part_parent s p b q st Hwf Ep Ea) as (c & Ec & Hst & Hsz).
      pose proof (rw_size s Hwf _ _ Ec). rewrite wrapu_small by (unfold in_u; lia).
      destruct (IH s q c base' (st + sector) Hwf Ec Er Ei) as (s1 & E & H'); [lia..|].
      exists s1. rewrite E. split; [|done]. by rewrite Z.add_assoc. }
  rewrite (bind_ok _ _ _ _ _ E1). destruct (same_lookup _ _ _ _ Hs1 Ep) as (b1 & Ep1 & _).
  rewrite (bind_ok _ _ _ _ _ (rd_block_ok _ _ _ Ep1)).
  destruct (count_ok s1 p b1 (u64 (read_cnt b1 + 1)) (write_cnt b1) Hwf1 Ep1) as (Hwf' & Hs' & Hi').
  eexists. split; [done|]. split_and!; [done|by eapply registry_same_trans|congruence].
Qed.

Lemma block_write_ok fuel s p b r base img sector data :
  registry_wf s → blocks_at s !! p = Some b → region fuel (shapes s) p = Some (r, base) → images s !! r = Some img →
  writable fuel (shapes s) p → 0 ≤ sector → sector < size b → Z.of_nat (length data) = 512 →
  ∃ s', block_write fuel p sector data s = Ok (tt, s') ∧
    registry_wf s' ∧ same s s' ∧ images s' = <[r := splice img (512 * (base + sector)) data]> (images s).
Proof.
  revert s p b base sector. induction fuel as [|fuel IH]; intros s p b base sector Hwf Ep Er Ei Hw Hlo Hs Hd; [done|].
  apply (region_inv _ _ _ b) in Er; [|done]. cbn [block_write writable] in *. rewrite (shapes_lookup _ _ _ Ep) in Hw.
  destruct Hw as [Ht Hw].
  rewrite (bind_ok _ _ _ _ _ (check_sector_ok _ _ _ _ Ep Hs)), (bind_ok _ _ _ _ _ (rd_block_ok _ _ _ Ep)).
  rewrite bool_decide_eq_true_2 by done. rewrite (bind_ok _ _ _ tt s) by done.
  assert (∃ s1, match aux b with
                | disk _ => on_disk p (dev_write sector data)
                | partition q start => block_write fuel q (u32 (start + sector)) data
                end s = Ok (tt, s1) ∧
            registry_wf s1 ∧ same s s1 ∧ images s1 = <[r := splice img (512 * (base + sector)) data]> (images s))
    as (s1 & E1 & Hwf1 & Hs1 & Hi1).
  { destruct (aux b) as [d|q st] eqn:Ea.
    - destruct Er as [-> ->]. pose proof (images_lookup _ _ _ _ Ep Ea) as Ei'. rewrite Ei' in Ei. injection Ei as <-.
      pose proof (rw_disk s Hwf _ _ Ep) as Hk. unfold disk_ok in Hk. rewrite Ea in Hk. destruct Hk as [Hk Hsz].
      destruct (dev_write_ok d sector data Hk) as (d' & Ed & Hd' & Hsz' & Hi'); [lia|lia|exact Hd|].
      destruct (on_disk_ok s p b d (dev_write sector data) _ _ Hwf Ep Ea Ed Hd' Hsz') as (E & Hwf' & Hs' & Him).
      eexists. split; [exact E|]. split_and!; [done..|]. by rewrite Him, Hi'.
    - destruct Er as (base' & Er & ->). destruct (part_parent s p b q st Hwf Ep Ea) as (c & Ec & Hst & Hsz).
      pose proof (rw_size s Hwf _ _ Ec). rewrite wrapu_small by (unfold in_u; lia).
      destruct (IH s q c base' (st + sector) Hwf Ec Er Ei Hw) as (s1 & E & H'); [lia..|].
      exists s1. rewrite E. split; [done|]. by rewrite Z.add_assoc in H'. }
  rewrite (bind_ok _ _ _ _ _ E1). destruct (same_lookup _ _ _ _ Hs1 Ep) as (b1 & Ep1 & _).
  rewrite (bind_ok _ _ _ _ _ (rd_block_ok _ _ _ Ep1)).
  destruct (count_ok s1 p b1 (read_cnt b1) (u64 (write_cnt b1 + 1)) Hwf1 Ep1) as (Hwf' & Hs' & Hi').
  eexists. split; [done|]. split_and!; [done|by eapply registry_same_trans|congruence].
Qed.

Lemma region_total fuel s i p b :
  registry_wf s → all_blocks s !! i = Some p → (i < fuel)%nat → blocks_at s !! p = Some b →
  ∃ r base img, region fuel (shapes s) p = Some (r, base) ∧ images s !! r = Some img ∧
    0 ≤ base ∧ 512 * (base + size b) ≤ Z.of_nat (length img).
Proof.
  intros Hwf. revert i p b. induction fuel as [|fuel IH]; intros i p b Ei Hi Ep; [lia|].
  cbn [region]. rewrite (shapes_lookup _ _ _ Ep). unfold shape. destruct (aux b) as [d|q st] eqn:Ea.
  - exists p, 0, (image d). split_and!; [done|by eapply images_lookup|done|].
    pose proof (rw_disk s Hwf _ _ Ep) as Hk. unfold disk_ok in Hk. rewrite Ea in Hk. destruct Hk as [Hk Hsz].
    pose proof (dev_image_length d Hk) as Hl. unfold BLOCK_SECTOR_SIZE in Hl. lia.
  - pose proof (rw_part s Hwf _ _ _ Ei Ep) as Hp. unfold part_ok in Hp. rewrite Ea in Hp.
    destruct Hp as (Hst & j & c & Hj & Ej & Ec & Hs).
    destruct (IH j q c Ej ltac:(lia) Ec) as (r & base & img & -> & Him & Hb & Hl).
    exists r, (base + st), img. split_and!; [done..|lia|lia].
Qed.

(** Where a registered block lies. *)
Definition place s (p : Z) : option (Z * Z) := region (length (all_blocks s)) (shapes s) p.

Lemma place_ok s p b :
  registry_wf s → blocks_at s !! p = Some b →
  ∃ r base img, place s p = Some (r, base) ∧ images s !! r = Some img ∧
    0 ≤ base ∧ 512 * (base + size b) ≤ Z.of_nat (length img).
Proof.
  intros Hwf Ep. assert (p ∈ all_blocks s) as [i Hi]%list_elem_of_lookup by (apply (rw_listed s Hwf); eauto).
  apply (region_total _ s i); [done..| |done]. by eapply lookup_lt_Some.
Qed.

Lemma same_place s s' p : same s s' → place s' p = place s p.
Proof. intros (E1 & _ & E2 & _). unfold place. by rewrite E1, E2. Qed.

(** The bytes of a registered block. *)
Definition block_image s (p : Z) : list Z :=
  match blocks_at s !! p, place s p with
  | Some b, Some (r, base) => slice (default [] (images s !! r)) (512 * base) (512 * size b)
  | _, _ => []
  end.

Definition registered s (p : Z) : Prop := is_Some (blocks_at s !! p) ∧ writable (length (all_blocks s)) (shapes s) p.

(** The places of two blocks have no sector in common. *)
Definition apart s (p q : Z) : Prop :=
  match blocks_at s !! p, place s p, blocks_at s !! q, place s q with
  | Some b, Some (r, base), Some c, Some (r', base') => r ≠ r' ∨ base + size b ≤ base' ∨ base' + size c ≤ base
  | _, _, _, _ => True
  end.

Lemma block_image_same s s' p : same s s' → images s' = images s → block_image s' p = block_image s p.
Proof.
  intros Hs Hi. unfold block_image. rewrite (same_place _ _ _ Hs), Hi. destruct (blocks_at s !! p) as [b|] eqn:Ep.
  - destruct (same_lookup _ _ _ _ Hs Ep) as (b' & -> & Eb). unfold shape in Eb. by assert (size b' = size b) as -> by congruence.
  - destruct Hs as (_ & _ & E & _). apply (f_equal (lookup p)) in E. unfold shapes in E. rewrite !lookup_fmap, Ep in E.
    by destruct (blocks_at s' !! p).
Qed.

Lemma registered_same s s' p : same s s' → registered s p → registered s' p.
Proof.
  intros Hs [[b Ep] Hw]. destruct (same_lookup _ _ _ _ Hs Ep) as (b' & Ep' & _). destruct Hs as (E1 & _ & E2 & _).
  split; [eauto|]. by rewrite E1, E2.
Qed.

Lemma block_image_eq s p b r base img :
  blocks_at s !! p = Some b → place s p = Some (r, base) → images s !! r = Some img →
  block_image s p = slice img (512 * base) (512 * size b).
Proof. unfold block_image. by intros -> -> ->. Qed.

Lemma same_size s s' p b : same s s' → blocks_at s !! p = Some b → ∃ b', blocks_at s' !! p = Some b' ∧ size b' = size b.
Proof. intros Hs Ep. destruct (same_lookup _ _ _ _ Hs Ep) as (b' & E & Eb). exists b'. split; [done|]. unfold shape in Eb. congruence. Qed.

(** Writing a sector of a block changes that sector of its image, and nothing
    of a block that lies elsewhere. *)
Lemma block_write_image s p b sector data :
  registry_wf s → blocks_at s !! p = Some b → writable (length (all_blocks s)) (shapes s) p →
  0 ≤ sector → sector < size b → Z.of_nat (length data) = 512 →
  ∃ s', block_write (length (all_blocks s)) p sector data s = Ok (tt, s') ∧ registry_wf s' ∧ same s s' ∧
    block_image s' p = splice (block_image s p) (512 * sector) data ∧
    ∀ q, apart s p q → block_image s' q = block_image s q.
Proof.
  intros Hwf Ep Hw Hlo Hs Hd. destruct (place_ok s p b Hwf Ep) as (r & base & img & Er & Ei & Hb & Hl).
  destruct (block_write_ok _ s p b r base img sector data Hwf Ep Er Ei Hw Hlo Hs Hd) as (s' & E & Hwf' & Hsame & Hi).
  exists s'. split_and!; [done..| |].
  - destruct (same_size _ _ _ _ Hsame Ep) as (b' & Ep' & Esz). rewrite (block_image_eq s' p b' r base (splice img (512 * (base + sector)) data)).
    2: done. 2: by rewrite (same_place _ _ _ Hsame). 2: by rewrite Hi, lookup_insert_eq.
    rewrite (block_image_eq s p b r base img), Esz by done. rewrite slice_splice_in by lia. f_equal. lia.
  - intros q Ha. unfold apart in Ha. rewrite Ep, Er in Ha. unfold block_image at 1 2. rewrite (same_place _ _ _ Hsame), Hi.
    destruct (blocks_at s !! q) as [c|] eqn:Eq.
    + destruct (same_size _ _ _ _ Hsame Eq) as (c' & -> & ->). destruct (place_ok s q c Hwf Eq) as (r' & base' & img' & Er' & Ei' & Hb' & Hl').
      rewrite Er' in Ha |- *. pose proof (rw_size s Hwf _ _ Eq). destruct (decide (r = r')) as [<-|]; [|by rewrite lookup_insert_ne].
      rewrite lookup_insert_eq, Ei. simpl. apply slice_splice_out; lia.
    + destruct Hsame as (_ & _ & Esh & _). apply (f_equal (lookup q)) in Esh. unfold shapes in Esh. rewrite !lookup_fmap, Eq in Esh.
      by destruct (blocks_at s' !! q).
Qed.

Lemma block_read_image s p b sector :
  registry_wf s → blocks_at s !! p = Some b → 0 ≤ sector → sector < size b →
  ∃ s', block_read (length (all_blocks s)) p sector s = Ok (slice (block_image s p) (512 * sector) 512, s') ∧
    registry_wf s' ∧ same s s' ∧ images s' = images s.
Proof.
  intros Hwf Ep Hlo Hs. destruct (place_ok s p b Hwf Ep) as (r & base & img & Er & Ei & Hb & Hl).
  destruct (block_read_ok _ s p b r base img sector Hwf Ep Er Ei Hlo Hs) as (s' & E & H').
  exists s'. split; [|done]. rewrite E, (block_image_eq s p b r base img), slice_slice by (done || lia). do 3 f_equal. lia.
Qed.

(** *** The instance: a registered block as a device *)

Definition block_device (p : Z) : BlockDevice (registry D) := {|
  dev_size s := match blocks_at s !! p with Some b => size b | None => 0 end;
  dev_read i := n ← depth; block_read n p i;
  dev_write i data := n ← depth; block_write n p i data
|}.

#[refine] Definition block_device_laws (p : Z) : @BlockDeviceLaws (registry D) (block_device p) := {|
  dev_wf s := registry_wf s ∧ registered s p;
  image s := block_image s p
|}.
Proof.
  - intros s (Hwf & [[b Ep] _]). destruct (place_ok s p b Hwf Ep) as (r & base & img & Er & Ei & Hb & Hl).
    pose proof (rw_size s Hwf _ _ Ep). rewrite (block_image_eq s p b r base img) by done. simpl. rewrite Ep.
    rewrite slice_lengthZ by lia. done.
  - intros s (Hwf & [[b Ep] _]). simpl. rewrite Ep. exact (rw_size s Hwf p b Ep).
  - intros s i (Hwf & Hr) Hlo Hi. destruct Hr as [[b Ep] Hw]. simpl in *. rewrite Ep in Hi |- *.
    destruct (block_read_image s p b i Hwf Ep Hlo Hi) as (s' & E & Hwf' & Hs & Him). exists s'.
    split; [exact E|]. destruct (same_size _ _ _ _ Hs Ep) as (b' & Ep' & Esz). rewrite Ep'.
    split; [|split; [done|by apply block_image_same]]. split; [done|]. apply (registered_same _ _ _ Hs). split; eauto.
  - intros s i data (Hwf & Hr) Hlo Hi Hd. destruct Hr as [[b Ep] Hw]. simpl in *. rewrite Ep in Hi |- *.
    destruct (block_write_image s p b i data Hwf Ep Hw Hlo Hi Hd) as (s' & E & Hwf' & Hs & Him & _). exists s'.
    split; [exact E|]. destruct (same_size _ _ _ _ Hs Ep) as (b' & Ep' & Esz). rewrite Ep'.
    split; [|done]. split; [done|]. apply (registered_same _ _ _ Hs). split; eauto.
Defined.

(** ** Registering blocks and scanning a partition table *)

(** The blocks [xs] are registered after those of [s], and nothing else changes. *)
Definition registers (xs : list (list Z * block_type * Z * option (Z * Z))) s s' : Prop :=
  registry_wf s' ∧ (∃ l, all_blocks s' = all_blocks s ++ l ∧ Forall2 (λ q x, shapes s' !! q = Some x) l xs) ∧
  shapes s ⊆ shapes s' ∧ images s ⊆ images s'.

Lemma registers_refl s : registry_wf s → registers [] s s.
Proof. intros. split_and!; [done| |done|done]. exists []. by rewrite app_nil_r. Qed.

Lemma registers_trans xs xs' s1 s2 s3 : registers xs s1 s2 → registers xs' s2 s3 → registers (xs ++ xs') s1 s3.
Proof.
  intros (_ & (l & El & Hl) & Hs & Hi) (Hwf & (l' & El' & Hl') & Hs' & Hi'). split_and!; [done| |by etrans..].
  exists (l ++ l'). split; [by rewrite El', El, app_assoc|]. apply Forall2_app; [|done].
  eapply Forall2_impl; [done|]. intros q x Ex. exact (lookup_weaken _ _ _ _ Ex Hs').
Qed.

Lemma same_registers s s' : registry_wf s' → same s s' → images s' = images s → registers [] s s'.
Proof. intros Hwf (E1 & _ & E2 & _) Hi. split_and!; [done|exists []; by rewrite app_nil_r|by rewrite E2|by rewrite Hi]. Qed.

Lemma region_extends fuel fuel' sh sh' p x :
  (fuel ≤ fuel')%nat → sh ⊆ sh' → region fuel sh p = Some x → region fuel' sh' p = Some x.
Proof.
  intros Hf Hsh. revert fuel' p x Hf. induction fuel as [|fuel IH]; intros fuel' p x Hf; [done|].
  destruct fuel' as [|fuel']; [lia|]. cbn [region]. destruct (sh !! p) as [[y [[q st]|]]|] eqn:E; [| |done];
    rewrite (lookup_weaken _ _ _ _ E Hsh); [|done].
  destruct (region fuel sh q) as [[r base]|] eqn:Er; [|done]. by rewrite (IH fuel' q (r, base)) by (done || lia).
Qed.

Lemma registers_image xs s s' p b :
  registry_wf s → registers xs s s' → blocks_at s !! p = Some b →
  ∃ b', blocks_at s' !! p = Some b' ∧ shape b' = shape b ∧ block_image s' p = block_image s p.
Proof.
  intros Hwf (Hwf' & (l & El & _) & Hs & Hi) Ep. pose proof (lookup_weaken _ _ _ _ (shapes_lookup _ _ _ Ep) Hs) as Es.
  unfold shapes in Es. rewrite lookup_fmap in Es. destruct (blocks_at s' !! p) as [b'|] eqn:Ep'; [|done].
  simpl in Es. assert (shape b' = shape b) as Eb by congruence. exists b'. split_and!; [done..|].
  destruct (place_ok s p b Hwf Ep) as (r & base & img & Er & Ei & _).
  rewrite (block_image_eq s p b r base img) by done. rewrite (block_image_eq s' p b' r base img); [|done| |].
  - unfold shape in Eb. by assert (size b' = size b) as -> by congruence.
  - unfold place in *. eapply region_extends; [|done..]. rewrite El, length_app. lia.
  - by eapply lookup_weaken.
Qed.

(** The next [n] calls of [malloc] succeed: their answers are distinct, not null
    and not in use. *)
Definition ample (n : nat) s : Prop :=
  ∃ l r, answers s = l ++ r ∧ length l = n ∧ NoDup l ∧ ∀ a, a ∈ l → a ≠ NULL ∧ blocks_at s !! a = None.

Lemma ample_le n m s : (m ≤ n)%nat → ample n s → ample m s.
Proof.
  intros Hm (l & r & E & Hl & Hnd & Ha). exists (take m l), (drop m l ++ r). split_and!.
  - by rewrite app_assoc, take_drop.
  - rewrite length_take. lia.
  - rewrite <-(take_drop m l) in Hnd. by apply NoDup_app in Hnd as [? _].
  - intros a Hin. apply Ha. rewrite <-(take_drop m l). apply elem_of_app. by left.
Qed.

Lemma ample_same n s s' : answers s' = answers s → (∀ a, blocks_at s !! a = None → blocks_at s' !! a = None) → ample n s → ample n s'.
Proof. intros Ea Hb (l & r & E & Hl & Hnd & Ha). exists l, r. split_and!; [congruence|done..|]. intros a Hin. destruct (Ha a Hin). auto. Qed.

Lemma same_none s s' a : same s s' → blocks_at s !! a = None → blocks_at s' !! a = None.
Proof.
  intros (_ & _ & E & _) Ea. apply (f_equal (lookup a)) in E. unfold shapes in E. rewrite !lookup_fmap, Ea in E.
  by destruct (blocks_at s' !! a).
Qed.

(** Returning [V] with the blocks [xs] registered by at most [n] calls of
    [malloc]; or stopping because one of them fails. *)
Definition may_register {A} (n : nat) (V : A → Prop) xs s (r : result (A * registry D)) : Prop :=
  match r with
  | Ok (a, s') => V a ∧ registers xs s s' ∧ ∀ m, ample (n + m) s → ample m s'
  | Err e => e = Panicked ∧ ¬ ample n s
  end.

Lemma may_register_bind {A C} n n' (V : A → Prop) (W : C → Prop) xs xs' (m : M (registry D) A) (k : A → M (registry D) C) s :
  may_register n V xs s (m s) →
  (∀ a s', V a → m s = Ok (a, s') → registers xs s s' → may_register n' W xs' s' (k a s')) →
  may_register (n + n') W (xs ++ xs') s ((m ≫= k) s).
Proof.
  unfold may_register, mbind, M_bind. destruct (m s) as [[a s']|e].
  - intros (HV & Hr & Ha) Hk. specialize (Hk a s' HV eq_refl Hr). destruct (k a s') as [[c s'']|e].
    + destruct Hk as (HW & Hr' & Ha'). split_and!; [done|by eapply registers_trans|]. intros i Hi. apply Ha', Ha. by rewrite Nat.add_assoc.
    + destruct Hk as [-> Hn]. split; [done|]. intros Hi. apply Hn, Ha. done.
  - intros [-> Hn] _. split; [done|]. intros Hi. apply Hn. eapply ample_le, Hi. lia.
Qed.

Lemma may_register_ret {A} (a : A) (V : A → Prop) s : registry_wf s → V a → may_register 0 V [] s ((mret a : M (registry D) A) s).
Proof. intros Hwf HV. split_and!; [done|by apply registers_refl|done]. Qed.

Lemma may_register_weaken {A} n n' (V : A → Prop) xs s r : (n ≤ n')%nat → may_register n V xs s r → may_register n' V xs s r.
Proof.
  intros Hn. unfold may_register. destruct r as [[a s']|e].
  - intros (? & ? & Ha). split_and!; [done..|]. intros m Hm. apply Ha. eapply ample_le, Hm. lia.
  - intros [? Hm]. split; [done|]. intros ?%(ample_le _ n); [done|lia].
Qed.

(** A call of [malloc] that stops the kernel when it fails. *)
Lemma may_register_malloc {C} n (W : C → Prop) xs (k : Z → M (registry D) C) s :
  registry_wf s →
  (∀ p s1, p ≠ NULL → blocks_at s !! p = None → blocks_at s1 = blocks_at s → all_blocks s1 = all_blocks s → registry_wf s1 →
     may_register n W xs s1 (k p s1) ∨
     (∃ c s2, k p s1 = Ok (c, s2) ∧ W c ∧ registers xs s1 s2 ∧ n = 0%nat ∧ answers s2 = answers s1 ∧
        ∀ a, a ≠ p → blocks_at s1 !! a = None → blocks_at s2 !! a = None)) →
  may_register (S n) W xs s ((malloc ≫= λ p, if decide (p = NULL) then fail Panicked else k p) s).
Proof.
  intros Hwf Hk. unfold mbind, M_bind, malloc. destruct (answers s) as [|a l] eqn:Ea.
  { cbn. split; [done|]. intros (l & r & E & Hl & _). rewrite Ea in E. destruct l; [done|]. by destruct r. }
  set (s1 := Registry _ _ _ l). assert (registry_wf s1) as Hwf1 by (destruct Hwf; by split).
  assert (registers [] s s1) as Hr1 by (split_and!; [done|exists []; by rewrite app_nil_r|done|done]).
  assert (∀ m, ample (S m) s → a ≠ NULL ∧ blocks_at s !! a = None ∧ ample m s1 ∧
    ∃ l1 r, l = l1 ++ r ∧ length l1 = m ∧ NoDup l1 ∧ a ∉ l1 ∧ ∀ x, x ∈ l1 → x ≠ NULL ∧ blocks_at s !! x = None) as Ham.
  { intros m (l1 & r & E & Hl & Hnd & Hx). rewrite Ea in E. destruct l1 as [|a1 l1]; [done|]. cbn in E. injection E as -> ->.
    apply NoDup_cons in Hnd as [Hn Hnd]. destruct (Hx a1 ltac:(by left)). split_and!; [done..| |].
    - exists l1, r. split_and!; [done|by injection Hl|done|]. intros x Hin. apply Hx. by right.
    - exists l1, r. split_and!; [done|by injection Hl|done|done|]. intros x Hin. apply Hx. by right. }
  destruct (decide (is_Some (blocks_at s !! a))) as [Hin|Hin].
  { cbn. split; [done|]. intros (_ & E & _)%Ham. rewrite E in Hin. by destruct Hin. }
  destruct (decide (a = NULL)) as [->|Hnull]; [split; [done|]; by intros (? & _)%Ham|].
  destruct (Hk a s1 Hnull) as [Hm|(c & s2 & E & HW & Hr & -> & Eans & Hb)]; try done; [by apply eq_None_not_Some|..].
  - unfold may_register in *. destruct (k a s1) as [[c s2]|e].
    + destruct Hm as (HW & Hr & Ha). split_and!; [done|exact (registers_trans [] _ _ _ _ Hr1 Hr)|].
      intros m Hm. apply Ha. by apply Ham.
    + destruct Hm as [-> Hn]. split; [done|]. intros Hm. apply Hn. by apply Ham.
  - rewrite E. split_and!; [done|exact (registers_trans [] _ _ _ _ Hr1 Hr)|].
    intros m (_ & _ & _ & l1 & r & -> & Hl & Hnd & Hna & Hx)%Ham. exists l1, r. split_and!; [done..|].
    intros x Hi. destruct (Hx x Hi). split; [done|]. apply Hb; [by intros ->|done].
Qed.

Lemma block_register_registers s n t sz q st c :
  registry_wf s → blocks_at s !! q = Some c → 0 ≤ st → 0 ≤ sz → st + sz ≤ size c →
  may_register 1 (λ _, True) [(take 15 n, t, sz, Some (q, st))] s (block_register n t sz (partition q st) s).
Proof.
  intros Hwf Eq Hst Hsz Hc. apply may_register_malloc; [done|]. intros p s1 Hp Ep Eb El Hwf1. right.
  rewrite <-Eb in Eq, Ep. clear Eb El Hwf. cbv [modify mbind M_bind]. cbn.
  assert (p ∉ all_blocks s1) as Hn by (rewrite (rw_listed s1 Hwf1), Ep; by intros []).
  set (b := Block _ _ _ _ _ _). pose proof (rw_size s1 Hwf1 _ _ Eq). eexists p, _.
  split; [done|]. split; [done|]. split; [|split_and!; [done..|]; intros a Hap Hnone; cbn; by rewrite lookup_insert_ne].
  split_and!; cbn.
  - split; cbn.
    + apply NoDup_app. split_and!; [apply Hwf1| |apply NoDup_singleton]. intros x Hx ->%list_elem_of_singleton. done.
    + intros x. rewrite elem_of_app, list_elem_of_singleton, (rw_listed s1 Hwf1). destruct (decide (x = p)) as [->|].
      * rewrite lookup_insert_eq. split; [eauto|]. by right.
      * rewrite lookup_insert_ne by done. naive_solver.
    + rewrite lookup_insert_ne by done. apply Hwf1.
    + intros x y. destruct (decide (x = p)) as [->|]; [rewrite lookup_insert_eq; intros [= <-]; cbn; lia|].
      rewrite lookup_insert_ne by done. apply Hwf1.
    + intros x y. destruct (decide (x = p)) as [->|]; [rewrite lookup_insert_eq; by intros [= <-]|].
      rewrite lookup_insert_ne by done. apply Hwf1.
    + intros i x y Ei Ex. assert (∀ j z, all_blocks s1 !! j = Some z → (all_blocks s1 ++ [p]) !! j = Some z) as Hold.
      { intros j z Ej. by apply lookup_app_l_Some. }
      assert (∀ z d, blocks_at s1 !! z = Some d → <[p := b]> (blocks_at s1) !! z = Some d) as Hin.
      { intros z d Ez. rewrite lookup_insert_ne; [done|]. intros ->. congruence. }
      destruct (decide (x = p)) as [->|Hx].
      * rewrite lookup_insert_eq in Ex. injection Ex as <-.
        assert (q ∈ all_blocks s1) as [j Hj]%list_elem_of_lookup by (apply (rw_listed s1 Hwf1); eauto).
        apply lookup_app_Some in Ei as [Ei|[Hi _]]; [by apply list_elem_of_lookup_2 in Ei|].
        apply lookup_lt_Some in Hj as Hlt. split; [done|]. exists j, c. split_and!; [lia|by apply Hold|by apply Hin|done].
      * rewrite lookup_insert_ne in Ex by done. apply lookup_app_Some in Ei as [Ei|[Hi E1]].
        -- pose proof (rw_part s1 Hwf1 _ _ _ Ei Ex) as Hp1. unfold part_ok in *. destruct (aux y); [done|].
           destruct Hp1 as (? & j & d & Hj & Ej & Ed & Hs). split; [done|]. exists j, d. cbn. split_and!; [done|by apply Hold|by apply Hin|done].
        -- apply list_lookup_singleton_Some in E1 as [_ ->]. done.
  - exists [p]. split; [done|]. apply Forall2_cons. split; [|done]. unfold shapes. cbn. by rewrite lookup_fmap, lookup_insert_eq.
  - unfold shapes. cbn. rewrite fmap_insert. apply insert_subseteq. by rewrite lookup_fmap, Ep.
  - unfold images. cbn. rewrite omap_insert_None by done. rewrite delete_id by (by rewrite lookup_omap, Ep). done.
Qed.

Lemma partition_name_total n nr : ∃ l, partition_name n nr = Ok l ∧ take 15 l = l.
Proof.
  unfold partition_name. destruct (format_integer_layout (u64 (if decide (nr < 0) then - nr else nr)) true (bool_decide (nr < 0))
    base_d (Conversion 0 0 (-1) INT)) as (ds & k & E & _); [set_solver|apply wrapu_range; lia|apply wrapu_range; lia|done..|].
  rewrite E. cbn [mbind result_bind]. eexists. split; [done|]. by rewrite take_take.
Qed.

Definition part_name (n : list Z) (nr : Z) : list Z := match partition_name n nr with Ok l => l | Err _ => [] end.

(** A partition is registered if it lies on the device. *)
Lemma found_partition_registers s p b t start sz nr :
  registry_wf s → blocks_at s !! p = Some b → 0 ≤ start < 2 ^ 32 → 0 < sz < 2 ^ 32 →
  may_register 2 (λ _, True)
    (if decide (start + sz ≤ size b) then [(part_name (name b) nr, partition_block_type t, sz, Some (p, start))] else [])
    s (found_partition p t start sz nr s).
Proof.
  intros Hwf Ep Hst Hsz. pose proof (rw_size s Hwf _ _ Ep) as Hb. unfold found_partition, block_size.
  rewrite bind_assoc, (bind_ok _ _ _ _ _ (rd_block_ok _ _ _ Ep)), ret_bind.
  assert (start + sz < 2 ^ 32 ∧ u32 (start + sz) = start + sz ∨ 2 ^ 32 ≤ start + sz ∧ u32 (start + sz) = start + sz - 2 ^ 32) as Eu.
  { destruct (decide (start + sz < 2 ^ 32)); [left; split; [done|]; by apply wrapu_small; unfold in_u; lia|right; split; [lia|]].
    unfold wrapu. rewrite (Z.mod_eq (start + sz)) by lia.
    assert ((start + sz) / 2 ^ 32 = 1) as -> by (symmetry; apply (Z.div_unique _ _ _ (start + sz - 2 ^ 32)); lia). lia. }
  assert (∀ xs, xs = [] → may_register 2 (λ _ : unit, True) xs s (Ok (tt, s))) as Hskip.
  { intros xs ->. apply (may_register_weaken 0); [lia|]. by apply (may_register_ret tt). }
  destruct (decide (start >= size b)); [apply Hskip; by rewrite decide_False by lia|].
  destruct (decide (_ ∨ _)) as [Hr|Hr]; [apply Hskip; by rewrite decide_False by lia|].
  rewrite decide_True by lia.
  apply may_register_malloc; [done|]. intros a s1 _ _ Eb _ Hwf1. left. rewrite <-Eb in Ep.
  unfold block_name. rewrite bind_assoc, (bind_ok _ _ _ _ _ (rd_block_ok _ _ _ Ep)), ret_bind.
  destruct (partition_name_total (name b) nr) as (nm & En & Et). unfold part_name. rewrite En.
  rewrite (bind_ok (lift _) _ s1 nm s1) by done. rewrite <-Et at 1.
  apply (may_register_bind 1 0 (λ _, True) (λ _, True) [_] []).
  - apply (block_register_registers _ _ _ _ _ _ b); try (done || lia).
  - intros ? s2 _ _ (Hwf2 & _). by apply may_register_ret.
Qed.

(** The first sector of a registered block. *)
Definition boot_sector s (p sz : Z) (boot : list Z) : Prop :=
  registry_wf s ∧ ∃ b, blocks_at s !! p = Some b ∧ size b = sz ∧ slice (block_image s p) 0 512 = boot.

Lemma boot_registers xs s s' p sz boot : boot_sector s p sz boot → registers xs s s' → boot_sector s' p sz boot.
Proof.
  intros (Hwf & b & Ep & Esz & Eb) He. destruct (registers_image xs s s' p b Hwf He Ep) as (b' & Ep' & Esh & Ei).
  split; [apply He|]. exists b'. split_and!; [done| |by rewrite Ei]. unfold shape in Esh. congruence.
Qed.

Definition nested (e : partition_table_entry) : Prop :=
  e_size e ≠ 0 ∧ e_type e ≠ 0 ∧ is_extended (e_type e).
#[global] Instance nested_dec e : Decision (nested e).
Proof. unfold nested. apply _. Defined.

Lemma le_value_nonneg l : Forall (in_u 8) l → 0 ≤ le_value l.
Proof. intros Hl. apply le_value_range in Hl. unfold in_u in Hl. lia. Qed.

Lemma le_value_word boot i j : Forall (in_u 8) boot → 0 ≤ le_value (slice (slice boot i 16) j 4) < 2 ^ 32.
Proof.
  intros Hb. set (l := slice (slice _ _ _) j 4). assert (Forall (in_u 8) l) as Hl by by apply slice_forall, slice_forall.
  split; [by apply le_value_nonneg|]. apply le_value_range in Hl. unfold in_u in Hl.
  assert (Z.of_nat (length l) ≤ 4) by (unfold l, slice; rewrite length_take; lia).
  pose proof (Z.pow_le_mono_r 2 (8 * Z.of_nat (length l)) 32). lia.
Qed.

Lemma entry_range boot e : Forall (in_u 8) boot → e ∈ partitions boot → 0 ≤ e_offset e < 2 ^ 32 ∧ 0 ≤ e_size e < 2 ^ 32.
Proof. intros Hb. unfold partitions. rewrite list_elem_of_fmap. intros (i & -> & _). split; by apply le_value_word. Qed.

(** *** Extended partitions *)

(** A loop over the entries fails when its body fails at a nested table and
    otherwise may only register blocks. *)
Lemma each_entry_nested k es f p sz boot s nr e :
  e ∈ es → nested e → boot_sector s p sz boot →
  (∀ e nr s, e ∈ es → nested e → boot_sector s p sz boot → ∃ x, f e nr s = Err x ∧ (ample k s → x = OutOfFuel)) →
  (∀ e nr s, e ∈ es → ¬ nested e → boot_sector s p sz boot → ∃ xs, may_register 2 (λ _, True) xs s (f e nr s)) →
  ∃ x, each_entry es f nr s = Err x ∧ (ample (2 * length es + k) s → x = OutOfFuel).
Proof.
  revert s nr. induction es as [|e0 es IH]; intros s nr Hin Hn Hb Hf Hg; [by apply elem_of_nil in Hin|].
  cbn [each_entry]. destruct (decide (nested e0)) as [Hn0|Hn0].
  - destruct (Hf e0 nr s) as (x & E & Hx); [by left|done..|]. exists x. split; [by apply bind_err|].
    intros Ha. apply Hx. eapply ample_le, Ha. lia.
  - destruct (Hg e0 nr s ltac:(by left) Hn0 Hb) as [xs He]. destruct (f e0 nr s) as [[nr' s']|x] eqn:E.
    + destruct He as (_ & Hr & Ha). rewrite (bind_ok _ _ _ _ _ E). destruct (IH s' nr') as (x & Ex & Hx).
      * apply elem_of_cons in Hin as [->|]; done.
      * done.
      * by eapply boot_registers.
      * intros. apply Hf; [by right|done..].
      * intros. apply Hg; [by right|done..].
      * exists x. split; [done|]. intros Hm. apply Hx, Ha. eapply ample_le, Hm. cbn. lia.
    + destruct He as [_ Hna]. exists x. split; [by apply bind_err|]. intros Hm. destruct Hna. eapply ample_le, Hm. cbn. lia.
Qed.

(** The extended partitions of the table lie on the device, also when their
    offsets are taken relative to each other. *)
Definition offsets_ok (boot : list Z) (sz : Z) : Prop :=
  ∀ e e', e ∈ partitions boot → nested e → e' ∈ partitions boot → nested e' →
    0 ≤ e_offset e < sz ∧ u32 (e_offset e + e_offset e') < sz.

(** The body of the loop over the entries, as [read_partition_table] runs it. *)
Definition entry_body (fuel : nat) (p sector prim : Z) (e : partition_table_entry) (part_nr : Z) : M (registry D) Z :=
  if decide (e_size e = 0 ∨ e_type e = 0) then mret part_nr
  else if decide (is_extended (e_type e)) then
    if decide (sector = 0) then read_partition_table fuel p (e_offset e) (e_offset e) part_nr
    else read_partition_table fuel p (u32 (e_offset e + prim)) prim part_nr
  else
    let part_nr := i32 (part_nr + 1) in
    found_partition p (e_type e) (u32 (e_offset e + sector)) (e_size e) part_nr;;
    mret part_nr.

(** Up to the loop: one call of [malloc], and the first sector is read. *)
Lemma read_table_head fuel s p sz boot sector prim nr :
  boot_sector s p sz boot → 0 ≤ sector < sz →
  read_partition_table (S fuel) p sector prim nr s = Err Panicked ∧ ¬ ample 1 s ∨
  ∃ s2, registers [] s s2 ∧ (∀ m, ample (S m) s → ample m s2) ∧
    read_partition_table (S fuel) p sector prim nr s =
      (if decide (signature boot ≠ 0xaa55) then mret nr else each_entry (partitions boot) (entry_body fuel p sector prim) nr) s2.
Proof.
  intros Hb Hsec. pose proof Hb as (Hwf & b & Ep & Esz & Ebt). cbn [read_partition_table]. unfold block_size.
  rewrite bind_assoc, (bind_ok _ _ _ _ _ (rd_block_ok _ _ _ Ep)), ret_bind. rewrite decide_False by lia.
  assert (may_register 1 (λ _, True) [] s ((malloc ≫= λ p, if decide (p = NULL) then fail Panicked else mret p) s)) as Hm.
  { apply may_register_malloc; [done|]. intros a s1 _ _ _ _ Hwf1. left. by apply may_register_ret. }
  unfold mbind, M_bind in Hm |- *. fold (@mbind (M (registry D)) _). destruct (malloc s) as [[a s1]|x]; [|left; destruct Hm as [-> ?]; done].
  destruct (decide (a = NULL)); [left; by destruct Hm|]. destruct Hm as (_ & Hr1 & Ha1). right.
  pose proof (boot_registers _ _ _ _ _ _ Hb Hr1) as (Hwf1 & b1 & Ep1 & Esz1 & Ebt1). cbn.
  destruct (block_read_image s1 p b1 0 Hwf1 Ep1) as (s2 & E2 & Hwf2 & Hs2 & Hi2); [lia..|].
  exists s2. split; [exact (registers_trans [] [] _ _ _ Hr1 (same_registers _ _ Hwf2 Hs2 Hi2))|]. split.
  - intros m Hm%Ha1. apply (ample_same _ s1); [apply Hs2|intros x; by apply same_none|done].
  - rewrite E2. change (512 * 0) with 0. by rewrite Ebt1.
Qed.

Lemma read_nested_fails fuel s p sz boot e sector prim nr :
  boot_sector s p sz boot → Forall (in_u 8) boot → signature boot = 0xaa55 →
  e ∈ partitions boot → nested e → offsets_ok boot sz →
  0 ≤ sector < sz → (sector ≠ 0 → ∃ e', e' ∈ partitions boot ∧ nested e' ∧ prim = e_offset e') →
  ∃ x, read_partition_table fuel p sector prim nr s = Err x ∧ (ample (9 * fuel) s → x = OutOfFuel).
Proof.
  revert s sector prim nr. induction fuel as [|fuel IH]; intros s sector prim nr Hb Hby Hsig Hin Hn Hoff Hsec Hprim; [by eexists|].
  destruct (read_table_head fuel s p sz boot sector prim nr Hb Hsec) as [[E Hna]|(s2 & Hr2 & Ha2 & E)].
  { exists Panicked. split; [done|]. intros Ha. destruct Hna. eapply ample_le, Ha. lia. }
  rewrite E, decide_False by tauto. pose proof (boot_registers _ _ _ _ _ _ Hb Hr2) as Hb2.
  destruct (each_entry_nested (9 * fuel) (partitions boot) (entry_body fuel p sector prim) p sz boot s2 nr e) as (x & Ex & Hx);
    [done..| | |exists x; split; [done|]; intros Ha; apply Hx, Ha2; eapply ample_le, Ha; cbn; lia].
  - intros e' nr' s' Hin' Hn' Hb'. pose proof Hn' as (Hn1 & Hn2 & Hn3). unfold entry_body.
    rewrite decide_False by tauto. rewrite decide_True by done. destruct (decide (sector = 0)) as [Hz|Hz].
    + apply IH; try done; [by apply (Hoff e' e')|]. intros _. by exists e'.
    + destruct (Hprim Hz) as (e0 & Hin0 & Hn0 & ->). apply IH; try done; [|by exists e0].
      destruct (Hoff e' e0) as [_ ?]; try done. pose proof (wrapu_range 32 (e_offset e' + e_offset e0) ltac:(lia)) as Hr. unfold in_u in Hr. lia.
  - intros e' nr' s' Hin' Hn' (Hwf' & b' & Ep' & _). unfold entry_body.
    destruct (decide (_ ∨ _)); [exists []; apply (may_register_weaken 0); [lia|by apply may_register_ret]|].
    rewrite decide_False by (unfold nested in Hn'; tauto). eexists. eapply (may_register_bind 2 0 (λ _, True) (λ _, True) _ []).
    + apply (found_partition_registers _ _ b'); [done..| |].
      * pose proof (wrapu_range 32 (e_offset e' + sector) ltac:(lia)) as Hr. exact Hr.
      * pose proof (entry_range boot e' Hby Hin'). lia.
    + intros ? s3 _ _ (Hwf3 & _). by apply may_register_ret.
Qed.

(** C40. A partition table with an entry for an extended partition is never read
    to the end, if the extended partitions of the table lie on the device, also
    with their offsets relative to one another: what is read as the table of the
    extended partition is sector 0 again, at every depth of recursion.  For any
    bound on the depth, the bound is reached as long as [malloc] succeeds. *)
Theorem extended_partition_diverges s p sz boot e fuel :
  boot_sector s p sz boot → Forall (in_u 8) boot → signature boot = 0xaa55 →
  e ∈ partitions boot → nested e → offsets_ok boot sz →
  ∃ x, partition_scan fuel p s = Err x ∧ (ample (9 * fuel) s → x = OutOfFuel).
Proof.
  intros Hb Hby Hsig Hin Hn Hoff. apply (read_nested_fails _ _ _ sz boot e); try done.
  destruct (Hoff e e Hin Hn Hin Hn). lia.
Qed.

(** *** Tables without extended partitions *)

(** A partition shows a range of the block it is in. *)
Lemma part_image s q b p st c :
  registry_wf s → blocks_at s !! q = Some b → aux b = partition p st → blocks_at s !! p = Some c →
  block_image s q = slice (block_image s p) (512 * st) (512 * size b).
Proof.
  intros Hwf Eq Ea Ep. destruct (part_parent s q b p st Hwf Eq Ea) as (c' & Ec & Hst & Hsz).
  assert (c' = c) as -> by congruence. destruct (place_ok s q b Hwf Eq) as (r & base & img & Er & Ei & _ & _).
  rewrite (block_image_eq s q b r base img) by done. unfold place in Er.
  assert (q ∈ all_blocks s) as [i Hi]%list_elem_of_lookup by (apply (rw_listed s Hwf); eauto). apply lookup_lt_Some in Hi.
  destruct (length (all_blocks s)) as [|n] eqn:El; [lia|].
  apply (region_inv _ _ _ b) in Er; [|done]. rewrite Ea in Er. destruct Er as (base' & Er & ->).
  destruct (place_ok s p c Hwf Ep) as (r' & base0 & img' & Er' & Ei' & Hb' & _). unfold place in Er'.
  assert (place s p = Some (r, base')) as Epl by (unfold place; rewrite El; eapply region_extends; [|done..]; lia).
  unfold place in Epl. rewrite Epl in Er'. injection Er' as <- <-.
  rewrite (block_image_eq s p c r base' img) by done. pose proof (rw_size s Hwf _ _ Eq).
  rewrite slice_slice by lia. f_equal. lia.
Qed.

(** The entries of a table that lie on a device of [sz] sectors, with their
    numbers: entries that are not in use have none. *)
Fixpoint numbered (sz : Z) (es : list partition_table_entry) (nr : Z) : list (Z * partition_table_entry) :=
  match es with
  | [] => []
  | e :: es =>
      if decide (e_size e = 0 ∨ e_type e = 0) then numbered sz es nr
      else (if decide (e_offset e + e_size e ≤ sz) then [(i32 (nr + 1), e)] else []) ++ numbered sz es (i32 (nr + 1))
  end.

Definition part_shape (p : Z) (n : list Z) (x : Z * partition_table_entry) : list Z * block_type * Z * option (Z * Z) :=
  (part_name n x.1, partition_block_type (e_type x.2), e_size x.2, Some (p, e_offset x.2)).

Lemma entries_register fuel p b es prim nr s :
  registry_wf s → (∃ b', blocks_at s !! p = Some b' ∧ shape b' = shape b) →
  (∀ e, e ∈ es → ¬ nested e ∧ 0 ≤ e_offset e < 2 ^ 32 ∧ 0 ≤ e_size e < 2 ^ 32) →
  may_register (2 * length es) (λ _, True) (part_shape p (name b) <$> numbered (size b) es nr) s
    (each_entry es (entry_body fuel p 0 prim) nr s).
Proof.
  revert nr s. induction es as [|e es IH]; intros nr s Hwf (b' & Ep & Esh) He; [by apply may_register_ret|].
  destruct (He e ltac:(by left)) as (Hn & Ho & Hs). cbn [each_entry numbered length].
  assert (∀ s', registry_wf s' → (∃ b2, blocks_at s' !! p = Some b2 ∧ shape b2 = shape b) → ∀ nr',
    may_register (2 * length es) (λ _, True) (part_shape p (name b) <$> numbered (size b) es nr') s'
      (each_entry es (entry_body fuel p 0 prim) nr' s')) as IH'.
  { intros. apply IH; try done. intros. apply He. by right. }
  assert (name b' = name b ∧ size b' = size b) as [En Esz] by (unfold shape in Esh; by split; congruence).
  set (K := each_entry es _) in *. unfold entry_body. destruct (decide (_ ∨ _)) as [Hu|Hu].
  { rewrite ret_bind. eapply may_register_weaken; [|apply IH'; [done|eauto]]. lia. }
  rewrite (decide_False (P := is_extended (e_type e))) by (unfold nested in Hn; tauto). rewrite fmap_app, Z.add_0_r, wrapu_small by (unfold in_u; lia).
  rewrite bind_assoc. replace (2 * S (length es))%nat with (2 + 2 * length es)%nat by lia.
  apply (may_register_bind 2 _ (λ _, True) (λ _, True)).
  - rewrite <-En, <-Esz. pose proof (found_partition_registers s p b' (e_type e) (e_offset e) (e_size e) (i32 (nr + 1)) Hwf Ep Ho) as Hf.
    destruct (decide (e_offset e + e_size e ≤ size b')); apply Hf; lia.
  - intros ? s1 _ _ Hr1. rewrite ret_bind. apply IH'; [apply Hr1|].
    destruct (registers_image _ s s1 p b' Hwf Hr1 Ep) as (b2 & Ep2 & Esh2 & _). exists b2. split; [done|congruence].
Qed.

Lemma partition_scan_registers s p b boot fuel :
  registry_wf s → blocks_at s !! p = Some b → slice (block_image s p) 0 512 = boot → Forall (in_u 8) boot →
  (∀ e, e ∈ partitions boot → ¬ nested e) →
  may_register 9 (λ _, True)
    (part_shape p (name b) <$> (if decide (signature boot = 0xaa55) then numbered (size b) (partitions boot) 0 else []))
    s (partition_scan (S fuel) p s).
Proof.
  intros Hwf Ep Ebt Hby Hn. assert (boot_sector s p (size b) boot) as Hb by (split; [done|]; by exists b).
  pose proof (rw_size s Hwf _ _ Ep) as Hsz. unfold partition_scan. destruct (decide (size b = 0)) as [Hz|Hz].
  { cbn [read_partition_table]. unfold block_size. rewrite bind_assoc, (bind_ok _ _ _ _ _ (rd_block_ok _ _ _ Ep)), ret_bind.
    rewrite (decide_True (P := 0 >= size b)) by lia. assert (boot = []) as ->.
    { destruct (place_ok s p b Hwf Ep) as (r & base & img & Er & Ei & _). rewrite <-Ebt, (block_image_eq s p b r base img), Hz by done.
      unfold slice. by rewrite take_0, drop_nil. }
    rewrite decide_False by done. apply (may_register_weaken 0); [lia|by apply may_register_ret]. }
  destruct (read_table_head fuel s p (size b) boot 0 0 0 Hb ltac:(lia)) as [[E Hna]|(s2 & Hr2 & Ha2 & E)]; rewrite E.
  { split; [done|]. intros Ha. destruct Hna. eapply ample_le, Ha. lia. }
  assert (may_register 8 (λ _, True)
    (part_shape p (name b) <$> (if decide (signature boot = 0xaa55) then numbered (size b) (partitions boot) 0 else [])) s2
    ((if decide (signature boot ≠ 0xaa55) then mret 0 else each_entry (partitions boot) (entry_body fuel p 0 0) 0) s2)) as Hm.
  { destruct (decide (signature boot ≠ 0xaa55)) as [Hsig|Hsig].
    - rewrite decide_False by done. apply (may_register_weaken 0); [lia|]. apply may_register_ret; [apply Hr2|done].
    - rewrite decide_True by (destruct (decide (signature boot = 0xaa55)); tauto). apply entries_register; [apply Hr2| |].
      + destruct (registers_image _ s s2 p b Hwf Hr2 Ep) as (b2 & Ep2 & Esh2 & _). eauto.
      + intros e He. split; [by apply Hn|]. by eapply entry_range. }
  unfold may_register in *. match goal with |- match ?r with _ => _ end => destruct r as [[v s3]|x] end.
  - destruct Hm as (_ & Hr3 & Ha3). split_and!; [done|exact (registers_trans [] _ _ _ _ Hr2 Hr3)|]. intros m Hm. by apply Ha3, Ha2.
  - destruct Hm as [-> Hm]. split; [done|]. intros Ha. by apply Hm, Ha2.
Qed.

(** C24. Scanning a partition table without extended partitions: unless one of
    at most nine calls of [malloc] fails, which stops the kernel, the scan ends;
    it registers, in the order of the table, exactly the entries in use that lie
    on the device, none if the table has no signature; and each new block has
    the name of the device with the number of the entry, the type and the size
    of the entry, and shows the sectors of the device that the entry gives. *)
Theorem partition_scan_finds s p b boot fuel :
  registry_wf s → blocks_at s !! p = Some b → slice (block_image s p) 0 512 = boot → Forall (in_u 8) boot →
  (∀ e, e ∈ partitions boot → ¬ nested e) →
  match partition_scan (S fuel) p s with
  | Ok (_, s') =>
      registry_wf s' ∧ block_image s' p = block_image s p ∧
      ∃ l, all_blocks s' = all_blocks s ++ l ∧
        Forall2 (λ q '(nr, e), ∃ c, blocks_at s' !! q = Some c ∧ partition_name (name b) nr = Ok (name c) ∧
            type c = partition_block_type (e_type e) ∧ size c = e_size e ∧
            block_image s' q = slice (block_image s p) (512 * e_offset e) (512 * e_size e))
          l (if decide (signature boot = 0xaa55) then numbered (size b) (partitions boot) 0 else [])
  | Err x => x = Panicked ∧ ¬ ample 9 s
  end.
Proof.
  intros Hwf Ep Ebt Hby Hn. pose proof (partition_scan_registers s p b boot fuel Hwf Ep Ebt Hby Hn) as Hx.
  destruct (partition_scan (S fuel) p s) as [[nr s']|x]; [|done]. destruct Hx as (_ & Hr & _).
  destruct (registers_image _ s s' p b Hwf Hr Ep) as (b' & Ep' & _ & Ei). destruct Hr as (Hwf' & (l & El & Hl) & _).
  split_and!; [done..|]. exists l. split; [done|]. apply Forall2_fmap_r in Hl. eapply Forall2_impl; [exact Hl|].
  intros q [nr' e] Eq. unfold shapes in Eq. rewrite lookup_fmap in Eq. destruct (blocks_at s' !! q) as [c|] eqn:Ec; [|done].
  cbn in Eq. unfold shape, part_shape in Eq. cbn in Eq. injection Eq as En Et Es Ea.
  destruct (aux c) as [|p' st] eqn:Eaux; [done|]. injection Ea as -> ->. exists c. split_and!; try done.
  - destruct (partition_name_total (name b) nr') as (nm & Enm & _). rewrite En. unfold part_name. by rewrite Enm.
  - by rewrite (part_image s' q c p (e_offset e) b'), Ei, Es.
Qed.

(** C23. Writing a sector of a disk or partition makes that sector read back
    the data, replaces that sector of the device's bytes and nothing else of
    them, and changes no byte of a device that lies elsewhere. *)
Theorem block_write_isolated s p b sector data :
  registry_wf s → blocks_at s !! p = Some b → writable (length (all_blocks s)) (shapes s) p →
  0 ≤ sector → sector < size b → Z.of_nat (length data) = 512 →
  ∃ s', block_write (length (all_blocks s)) p sector data s = Ok (tt, s') ∧ registry_wf s' ∧
    block_image s' p = splice (block_image s p) (512 * sector) data ∧
    (∃ s'', block_read (length (all_blocks s')) p sector s' = Ok (data, s'')) ∧
    ∀ q, apart s p q → block_image s' q = block_image s q.
Proof.
  intros Hwf Ep Hw Hlo Hs Hd. destruct (block_write_image s p b sector data Hwf Ep Hw Hlo Hs Hd) as (s' & E & Hwf' & Hsame & Hi & Ho).
  exists s'. split_and!; [done..| |done]. destruct (same_size _ _ _ _ Hsame Ep) as (b' & Ep' & Esz).
  destruct (block_read_image s' p b' sector Hwf' Ep' Hlo) as (s'' & E' & _); [lia|]. exists s''. rewrite E', Hi. do 2 f_equal.
  rewrite <-Hd. apply slice_splice_eq; [lia|]. destruct (place_ok s p b Hwf Ep) as (r & base & img & Er & Ei & Hb & Hl).
  rewrite (block_image_eq s p b r base img), slice_lengthZ by (done || lia). lia.
Qed.

End laws.

(** ** Examples: a disk of 8 sectors *)

Lemma one_disk_wf (p : Z) n t (img : ram_disk) rc wc ans :
  p ≠ NULL → ram_disk_wf img →
  registry_wf (Registry {[p := Block n t (ram_disk_size img) (disk img) rc wc]} [p] [0; 0; 0; 0] ans).
Proof.
  intros Hp Hi. split; cbn.
  - apply NoDup_singleton.
  - intros q. rewrite list_elem_of_singleton. destruct (decide (q = p)) as [->|].
    + rewrite lookup_singleton_eq. split; [eauto|done].
    + rewrite lookup_singleton_ne by done. split; [done|]. by intros [].
  - by rewrite lookup_singleton_ne.
  - intros q b [<- <-]%lookup_singleton_Some. cbn. exact (dev_size_range img Hi).
  - intros q b [<- <-]%lookup_singleton_Some. split; [done|]. cbn. lia.
  - intros i q b _ [<- <-]%lookup_singleton_Some. done.
Qed.

Definition table_entry (t off sz : Z) : list Z := [0; 0; 0; 0; t; 0; 0; 0] ++ le_bytes 4 off ++ le_bytes 4 sz.
Definition table (es : list Z) : list Z := replicate 446 0 ++ es ++ replicate (64 - length es) 0 ++ [0x55; 0xaa].

(** A file system in sectors 1 to 4 and swap space in sectors 5 to 7; the other
    table has an extended partition in sector 2. *)
Definition example_table : list Z := table (table_entry 0x21 1 4 ++ table_entry 0x23 5 3).
Definition extended_table : list Z := table (table_entry 0x05 2 4).
Definition example_registry (boot : list Z) : registry ram_disk :=
  let img := boot ++ replicate (7 * 512) 7 in
  Registry {[0x100 := Block [104; 100; 97] BLOCK_RAW (ram_disk_size img) (disk img) 0 0]} [0x100] [0; 0; 0; 0]
    ((λ i, 16 * i) <$> seqZ 0x20 40).

Lemma example_boot boot :
  length boot = 512%nat → boot_sector (example_registry boot) 0x100 8 boot.
Proof.
  intros Hl. set (img := boot ++ replicate (7 * 512) 7).
  assert (Z.of_nat (length img) = 4096) as Hi by (unfold img; rewrite length_app, length_replicate; lia).
  assert (ram_disk_size img = 8) as Hs by (unfold ram_disk_size; by rewrite Hi).
  split.
  - apply one_disk_wf; [done|]. split; fold img; rewrite Hs; [by rewrite Hi|lia].
  - exists (Block [104; 100; 97] BLOCK_RAW (ram_disk_size img) (disk img) 0 0). split; [done|]. split; [exact Hs|].
    rewrite (block_image_eq _ _ (Block [104; 100; 97] BLOCK_RAW (ram_disk_size img) (disk img) 0 0) 0x100 0 img) by done.
    cbn [size]. rewrite Hs, slice_slice by lia. change (512 * 0 + 0) with 0. unfold slice, img.
    change (Z.to_nat 0) with 0%nat. rewrite drop_0, take_app_le by lia. apply take_ge. lia.
Qed.

Lemma example_ample boot n : (n ≤ 40)%nat → ample n (example_registry boot).
Proof.
  intros Hn. apply (ample_le 40); [done|]. exists ((λ i, 16 * i) <$> seqZ 0x20 40), []. split_and!.
  - by rewrite app_nil_r.
  - reflexivity.
  - apply (bool_decide_unpack _). vm_compute. exact I.
  - intros a Ha. apply list_elem_of_fmap in Ha as (i & -> & Hi%elem_of_seqZ). split; [unfold NULL; lia|].
    apply lookup_singleton_ne. lia.
Qed.

(** Four levels of the recursion, each with its calls of [malloc]. *)
Lemma extended_partition_diverges_witness : partition_scan 4 0x100 (example_registry extended_table) = Err OutOfFuel.
Proof.
  destruct (extended_partition_diverges (example_registry extended_table) 0x100 8 extended_table (Entry 5 2 4) 4) as (x & E & Hx).
  - by apply example_boot.
  - apply (bool_decide_unpack _). vm_compute. exact I.
  - reflexivity.
  - apply list_elem_of_fmap. exists 0. split; [vm_compute; reflexivity|left].
  - split; [done|]. split; [done|by left].
  - intros e e' He Hn He' Hn'.
    assert (∀ x, x ∈ partitions extended_table → nested x → e_offset x = 2) as Hx.
    { intros x Hx Hnx. unfold partitions in Hx. apply list_elem_of_fmap in Hx as (i & -> & Hi).
      repeat (apply elem_of_cons in Hi as [->|Hi]; [first [reflexivity|destruct Hnx as [Hnx _]; destruct Hnx; reflexivity]|]).
      by apply elem_of_nil in Hi. }
    rewrite (Hx e He Hn), (Hx e' He' Hn'). done.
  - rewrite E. f_equal. apply Hx. apply example_ample. lia.
Defined.

Lemma example_table_plain e : e ∈ partitions example_table → ¬ nested e.
Proof.
  assert (Forall (λ e, ¬ nested e) (partitions example_table)) as Hf by (apply (bool_decide_unpack _); vm_compute; exact I).
  rewrite Forall_forall in Hf. apply Hf.
Qed.

Lemma example_scan_hyps :
  registry_wf (example_registry example_table) ∧ slice (block_image (example_registry example_table) 0x100) 0 512 = example_table ∧
  Forall (in_u 8) example_table.
Proof.
  destruct (example_boot example_table eq_refl) as (Hwf & b & _ & _ & E). split_and!; [exact Hwf|exact E|].
  apply (bool_decide_unpack _). vm_compute. exact I.
Qed.

(** The two partitions of the example are found, as hda1 and hda2. *)
Lemma partition_scan_finds_witness :
  ∃ s' c1 c2, (∃ nr, partition_scan 2 0x100 (example_registry example_table) = Ok (nr, s')) ∧
    blocks_at s' !! 0x220 = Some c1 ∧ type c1 = BLOCK_FILESYS ∧ size c1 = 4 ∧
    blocks_at s' !! 0x240 = Some c2 ∧ type c2 = BLOCK_SWAP ∧
    block_image s' 0x240 = slice (block_image (example_registry example_table) 0x100) (512 * 5) (512 * 3).
Proof.
  destruct example_scan_hyps as (H1 & H2 & H3).
  destruct (blocks_at (example_registry example_table) !! 0x100) as [b|] eqn:Eb; [|vm_compute in Eb; discriminate].
  pose proof (partition_scan_finds (example_registry example_table) 0x100 b example_table 1 H1 Eb H2 H3 example_table_plain) as Hx.
  assert (match partition_scan 2 0x100 (example_registry example_table) with Ok (_, s') => all_blocks s' | Err _ => [] end = [0x100; 0x220; 0x240]) as Hl
    by (vm_compute; reflexivity).
  assert (size b = 8) as Hb by (vm_compute in Eb; injection Eb as <-; reflexivity).
  destruct (partition_scan 2 0x100 (example_registry example_table)) as [[nr s']|x] eqn:E; [|discriminate Hl].
  destruct Hx as (_ & _ & l & El & Hf). rewrite Hl in El. injection El as <-.
  assert ((if decide (signature example_table = 0xaa55) then numbered (size b) (partitions example_table) 0 else []) =
    [(1, Entry 0x21 1 4); (2, Entry 0x23 5 3)]) as En by (rewrite Hb; vm_compute; reflexivity).
  rewrite En in Hf. apply Forall2_cons in Hf as ((c1 & A1 & _ & A2 & A3 & _) & Hf). apply Forall2_cons in Hf as ((c2 & B1 & _ & B2 & _ & B3) & _).
  exists s', c1, c2. split_and!; [exists nr; reflexivity|exact A1|exact A2|exact A3|exact B1|exact B2|exact B3].
Defined.

(** The registry after the scan of the example: two partitions. *)
Definition example_scanned : registry ram_disk :=
  match partition_scan 2 0x100 (example_registry example_table) with Ok (_, s) => s | Err _ => example_registry [] end.

Lemma example_scanned_wf : registry_wf example_scanned.
Proof.
  destruct example_scan_hyps as (H1 & H2 & H3).
  destruct (blocks_at (example_registry example_table) !! 0x100) as [b|] eqn:Eb; [|vm_compute in Eb; discriminate].
  pose proof (partition_scan_registers (example_registry example_table) 0x100 b example_table 1 H1 Eb H2 H3 example_table_plain) as Hx.
  unfold example_scanned. destruct (partition_scan 2 0x100 (example_registry example_table)) as [[nr s']|x] eqn:E; [|vm_compute in E; discriminate].
  apply Hx.
Qed.

Lemma block_write_isolated_witness :
  all_blocks example_scanned = [0x100; 0x220; 0x240] ∧
  ∃ s', block_write 3 0x220 3 (replicate 512 9) example_scanned = Ok (tt, s') ∧
    block_image s' 0x240 = block_image example_scanned 0x240.
Proof.
  split; [vm_compute; reflexivity|].
  destruct (blocks_at example_scanned !! 0x220) as [b|] eqn:Eb; [|vm_compute in Eb; discriminate].
  destruct (block_write_isolated example_scanned 0x220 b 3 (replicate 512 9) example_scanned_wf Eb) as (s' & E & _ & _ & _ & Ho).
  - vm_compute. repeat split; discriminate.
  - lia.
  - enough (size b = 4) by lia. assert (size <$> blocks_at example_scanned !! 0x220 = Some 4) as E by (vm_compute; reflexivity).
    rewrite Eb in E. injection E as E. exact E.
  - reflexivity.
  - exists s'. split; [exact E|]. apply Ho. vm_compute. right. left. discriminate.
Defined.
