(* ===== verification/BlockNames.v ===== *)
(** * Names of block devices and partitions

    The tables of names in devices/block.c and devices/partition.c, and the text
    about a partition that is printed when it is found. *)

From stdpp Require Import strings.
From S2P Require Import Prelude CString CStdlib Stdio BlockDevice Block.

Open Scope string_scope.

Definition block_type_name (t : block_type) : string :=
  match t with
  | BLOCK_KERNEL => "kernel"
  | BLOCK_FILESYS => "filesys"
  | BLOCK_SCRATCH => "scratch"
  | BLOCK_SWAP => "swap"
  | BLOCK_RAW => "raw"
  | BLOCK_FOREIGN => "foreign"
  end.

(** The elements of the array that have been given a value, with their
    indices. *)
Definition type_names : list (Z * string) := [
  (0x00, "Empty");
  (0x01, "FAT12");
  (0x02, "XENIX root");
  (0x03, "XENIX usr");
  (0x04, "FAT16 <32M");
  (0x05, "Extended");
  (0x06, "FAT16");
  (0x07, "HPFS/NTFS");
  (0x08, "AIX");
  (0x09, "AIX bootable");
  (0x0a, "OS/2 Boot Manager");
  (0x0b, "W95 FAT32");
  (0x0c, "W95 FAT32 (LBA)");
  (0x0e, "W95 FAT16 (LBA)");
  (0x0f, "W95 Ext'd (LBA)");
  (0x10, "OPUS");
  (0x11, "Hidden FAT12");
  (0x12, "Compaq diagnostics");
  (0x14, "Hidden FAT16 <32M");
  (0x16, "Hidden FAT16");
  (0x17, "Hidden HPFS/NTFS");
  (0x18, "AST SmartSleep");
  (0x1b, "Hidden W95 FAT32");
  (0x1c, "Hidden W95 FAT32 (LBA)");
  (0x1e, "Hidden W95 FAT16 (LBA)");
  (0x20, "Pintos OS kernel");
  (0x21, "Pintos file system");
  (0x22, "Pintos scratch");
  (0x23, "Pintos swap");
  (0x24, "NEC DOS");
  (0x39, "Plan 9");
  (0x3c, "PartitionMagic recovery");
  (0x40, "Venix 80286");
  (0x41, "PPC PReP Boot");
  (0x42, "SFS");
  (0x4d, "QNX4.x");
  (0x4e, "QNX4.x 2nd part");
  (0x4f, "QNX4.x 3rd part");
  (0x50, "OnTrack DM");
  (0x51, "OnTrack DM6 Aux1");
  (0x52, "CP/M");
  (0x53, "OnTrack DM6 Aux3");
  (0x54, "OnTrackDM6");
  (0x55, "EZ-Drive");
  (0x56, "Golden Bow");
  (0x5c, "Priam Edisk");
  (0x61, "SpeedStor");
  (0x63, "GNU HURD or SysV");
  (0x64, "Novell Netware 286");
  (0x65, "Novell Netware 386");
  (0x70, "DiskSecure Multi-Boot");
  (0x75, "PC/IX");
  (0x80, "Old Minix");
  (0x81, "Minix / old Linux");
  (0x82, "Linux swap / Solaris");
  (0x83, "Linux");
  (0x84, "OS/2 hidden C: drive");
  (0x85, "Linux extended");
  (0x86, "NTFS volume set");
  (0x87, "NTFS volume set");
  (0x88, "Linux plaintext");
  (0x8e, "Linux LVM");
  (0x93, "Amoeba");
  (0x94, "Amoeba BBT");
  (0x9f, "BSD/OS");
  (0xa0, "IBM Thinkpad hibernation");
  (0xa5, "FreeBSD");
  (0xa6, "OpenBSD");
  (0xa7, "NeXTSTEP");
  (0xa8, "Darwin UFS");
  (0xa9, "NetBSD");
  (0xab, "Darwin boot");
  (0xb7, "BSDI fs");
  (0xb8, "BSDI swap");
  (0xbb, "Boot Wizard hidden");
  (0xbe, "Solaris boot");
  (0xbf, "Solaris");
  (0xc1, "DRDOS/sec (FAT-12)");
  (0xc4, "DRDOS/sec (FAT-16 < 32M)");
  (0xc6, "DRDOS/sec (FAT-16)");
  (0xc7, "Syrinx");
  (0xda, "Non-FS data");
  (0xdb, "CP/M / CTOS / ...");
  (0xde, "Dell Utility");
  (0xdf, "BootIt");
  (0xe1, "DOS access");
  (0xe3, "DOS R/O");
  (0xe4, "SpeedStor");
  (0xeb, "BeOS fs");
  (0xee, "EFI GPT");
  (0xef, "EFI (FAT-12/16/32)");
  (0xf0, "Linux/PA-RISC boot");
  (0xf1, "SpeedStor");
  (0xf4, "SpeedStor");
  (0xf2, "DOS secondary");
  (0xfd, "Linux raid autodetect");
  (0xfe, "LANstep");
  (0xff, "BBT")
].

Definition partition_type_name (t : Z) : string :=
  match list_find (λ e, e.1 = t) type_names with Some (_, (_, n)) => n | None => "Unknown" end.

(** The characters of a string. *)
Definition chars (s : string) : list Z := (λ a, Z.of_nat (Ascii.nat_of_ascii a)) <$> String.list_ascii_of_string s.

(** ["%s (%02x)"]: the name and the two digits of the type. *)
Definition partition_info (t : Z) : list Z :=
  let digit d := if decide (d < 10) then 48 + d else 87 + d in
  chars (partition_type_name t) ++ [32; 40; digit (t / 16); digit (t mod 16); 41].

(** No index is given twice. *)
Lemma type_names_indices : NoDup type_names.*1.
Proof. apply (bool_decide_unpack _). vm_compute. exact I. Qed.

(** The buffer for the text has 128 characters, and the text always fits. *)
Lemma partition_info_fits t : (length (partition_info t) < 128)%nat.
Proof.
  unfold partition_info. rewrite length_app. cbn [length]. enough (length (chars (partition_type_name t)) ≤ 120)%nat by lia.
  assert (Forall (λ e : Z * string, length (chars e.2) ≤ 120)%nat type_names) as Hall by (apply (bool_decide_unpack _); vm_compute; exact I).
  unfold partition_type_name. destruct (list_find _ _) as [[i [k n]]|] eqn:E; [|vm_compute; lia].
  apply list_find_Some in E as (E & _ & _). rewrite Forall_lookup in Hall. by apply (Hall i (k, n)).
Qed.
