(* ===== verification/Inode.v ===== *)
(** * Inodes

    The state of the file system, and the part of filesys/inode.c that does not
    use the free map: the inodes on disk, the table of open inodes, reading and
    writing.  Creation and the last close of an inode are in FreeMap.v.

    A [struct inode], [struct file] or [struct dir] is known by its address; an
    access through an address that holds no such object is a fault.  Buffers of
    callers are lists of bytes: a read returns the bytes that it stored in the
    buffer, in order.  The answers of [malloc] and [calloc] are a list in the
    state.  An answer that is null, or the address of an object in use, counts as
    a failure; so does the end of the list, and an answer when there are [2^28]
    objects already, more than 32-bit memory has room for, as a block has at least
    16 bytes (threads/malloc.c). *)

From S2P Require Import Prelude Bitmap BlockDevice.

(** ** State *)

Definition INODE_MAGIC : Z := 0x494e4f44.

(** [struct inode_disk]. *)
Record inode_disk := InodeDisk { start : Z; disk_length : Z; magic : Z; unused : list Z }.

Definition encode_inode (d : inode_disk) : list Z :=
  le_bytes 4 (start d) ++ le_bytes 4 (u32 (disk_length d)) ++ le_bytes 4 (magic d) ++ unused d.
Definition decode_inode (bs : list Z) : inode_disk :=
  InodeDisk (le_value (slice bs 0 4)) (i32 (le_value (slice bs 4 4))) (le_value (slice bs 8 4)) (drop 12 bs).

Record inode := Inode {
  sector : Z;
  open_cnt : Z;
  removed : bool;
  deny_write_cnt : Z;
  data : inode_disk
}.

Record file := File { file_inode : Z; pos : Z; deny_write : bool }.
Record dir := Dir { dir_inode : Z; dir_pos : Z }.

(** [stack] is what a [struct dir_entry] on the stack holds before it is
    set. *)
Record fs (B : Type) := Fs {
  device : B;
  inodes : gmap Z inode;
  open_inodes : list Z;
  free_map : bitmap;
  free_map_file : Z;
  files : gmap Z file;
  dirs : gmap Z dir;
  stack : list Z;
  answers : list Z
}.
Arguments Fs {B}.
Arguments device {B}. Arguments inodes {B}. Arguments open_inodes {B}. Arguments free_map {B}.
Arguments free_map_file {B}. Arguments files {B}. Arguments dirs {B}. Arguments stack {B}. Arguments answers {B}.

Section setters.
  Context {B : Type}.
  Implicit Types s : fs B.

Definition set_device (d : B) s : fs B :=
  Fs d (inodes s) (open_inodes s) (free_map s) (free_map_file s) (files s) (dirs s) (stack s) (answers s).
Definition set_inodes (f : gmap Z inode → gmap Z inode) s : fs B :=
  Fs (device s) (f (inodes s)) (open_inodes s) (free_map s) (free_map_file s) (files s) (dirs s) (stack s) (answers s).
Definition set_open_inodes (f : list Z → list Z) s : fs B :=
  Fs (device s) (inodes s) (f (open_inodes s)) (free_map s) (free_map_file s) (files s) (dirs s) (stack s) (answers s).
Definition set_free_map (b : bitmap) s : fs B :=
  Fs (device s) (inodes s) (open_inodes s) b (free_map_file s) (files s) (dirs s) (stack s) (answers s).
Definition set_free_map_file (p : Z) s : fs B :=
  Fs (device s) (inodes s) (open_inodes s) (free_map s) p (files s) (dirs s) (stack s) (answers s).
Definition set_files (f : gmap Z file → gmap Z file) s : fs B :=
  Fs (device s) (inodes s) (open_inodes s) (free_map s) (free_map_file s) (f (files s)) (dirs s) (stack s) (answers s).
Definition set_dirs (f : gmap Z dir → gmap Z dir) s : fs B :=
  Fs (device s) (inodes s) (open_inodes s) (free_map s) (free_map_file s) (files s) (f (dirs s)) (stack s) (answers s).
Definition set_answers (l : list Z) s : fs B :=
  Fs (device s) (inodes s) (open_inodes s) (free_map s) (free_map_file s) (files s) (dirs s) (stack s) l.

End setters.

(** The type of a modification of a struct inode. *)
Definition with_open_cnt (n : Z) (i : inode) : inode := Inode (sector i) n (removed i) (deny_write_cnt i) (data i).
Definition with_removed (r : bool) (i : inode) : inode := Inode (sector i) (open_cnt i) r (deny_write_cnt i) (data i).
Definition with_deny (n : Z) (i : inode) : inode := Inode (sector i) (open_cnt i) (removed i) n (data i).

(** [n] bytes of a buffer from offset [ofs]. *)
Definition copy_range (l : list Z) (ofs n : Z) : result (list Z) :=
  if decide (0 ≤ ofs ∧ ofs + n ≤ Z.of_nat (length l)) then Ok (slice l ofs n) else Err BadAccess.

Section inode.
  Context {B : Type} `{BlockDevice B}.
  Implicit Types s : fs B.

Definition on_device {A} (m : M B A) : M (fs B) A := zoom device set_device m.
Definition on_free_map {A} (m : M bitmap A) : M (fs B) A := zoom free_map set_free_map m.

(** Pointers that are not null have 32 bits. *)
Definition pointer (a : Z) : Prop := 0 < a < 2 ^ 32.

Lemma pointer_nonnull a : pointer a → a ≠ NULL.
Proof. unfold pointer, NULL. lia. Qed.

Definition in_use s (a : Z) : Prop :=
  is_Some (inodes s !! a) ∨ is_Some (files s !! a) ∨ is_Some (dirs s !! a).
Definition objects s : Z := Z.of_nat (size (inodes s) + size (files s) + size (dirs s)).

Definition malloc : M (fs B) Z := λ s,
  match answers s with
  | [] => Ok (NULL, s)
  | a :: l => Ok (if decide (in_use s a ∨ objects s >= 2 ^ 28 ∨ ¬ pointer a) then NULL else a, set_answers l s)
  end.

Definition rd_inode (p : Z) : M (fs B) inode := λ s,
  match inodes s !! p with Some i => Ok (i, s) | None => Err BadAccess end.
Definition wr_inode (p : Z) (i : inode) : M (fs B) unit := modify (set_inodes (<[p := i]>)).
Definition rd_file (p : Z) : M (fs B) file := λ s,
  match files s !! p with Some f => Ok (f, s) | None => Err BadAccess end.
Definition rd_dir (p : Z) : M (fs B) dir := λ s,
  match dirs s !! p with Some d => Ok (d, s) | None => Err BadAccess end.

(** ** inode.c *)

Definition bytes_to_sectors (sz : Z) : Z := u32 (Z.quot (i32 (sz + (BLOCK_SECTOR_SIZE - 1))) BLOCK_SECTOR_SIZE).

Definition byte_to_sector (i : inode) (ps : Z) : Z :=
  if decide (ps < disk_length (data i)) then u32 (start (data i) + Z.quot ps BLOCK_SECTOR_SIZE) else u32 (-1).

Definition inode_init : M (fs B) unit := modify (set_open_inodes (λ _, [])).

Definition inode_reopen (p : Z) : M (fs B) Z :=
  if decide (p ≠ NULL) then i ← rd_inode p; wr_inode p (with_open_cnt (i32 (open_cnt i + 1)) i);; mret p
  else mret p.

(** The open inode of a sector. *)
Fixpoint find_open (l : list Z) (sec : Z) : M (fs B) (option Z) :=
  match l with
  | [] => mret None
  | p :: l => i ← rd_inode p; if decide (sector i = sec) then mret (Some p) else find_open l sec
  end.

Definition inode_open (sec : Z) : M (fs B) Z :=
  l ← gets open_inodes;
  found ← find_open l sec;
  match found with
  | Some p => inode_reopen p
  | None =>
      p ← malloc;
      if decide (p = NULL) then mret NULL else
      modify (set_open_inodes (cons p));;
      bs ← on_device (dev_read sec);
      wr_inode p (Inode sec 1 false 0 (decode_inode bs));;
      mret p
  end.

Definition inode_get_inumber (p : Z) : M (fs B) Z := i ← rd_inode p; mret (sector i).

Definition inode_remove (p : Z) : M (fs B) unit :=
  assert (bool_decide (p ≠ NULL));; i ← rd_inode p; wr_inode p (with_removed true i).

Definition inode_length (p : Z) : M (fs B) Z := i ← rd_inode p; mret (disk_length (data i)).

(** The numbers computed for the chunk at [offset]: offset in the sector, bytes
    left in the sector, size of the chunk. *)
Definition chunk_of (i : inode) (sz offset : Z) : Z * Z * Z :=
  let sector_ofs := Z.rem offset BLOCK_SECTOR_SIZE in
  let inode_left := i32 (disk_length (data i) - offset) in
  let sector_left := BLOCK_SECTOR_SIZE - sector_ofs in
  let min_left := if decide (inode_left < sector_left) then inode_left else sector_left in
  (sector_ofs, sector_left, if decide (sz < min_left) then sz else min_left).

(** Makes sure that there is a bounce buffer. *)
Definition get_bounce (bounce : bool) : M (fs B) bool :=
  if bounce then mret true else a ← malloc; mret (bool_decide (a ≠ NULL)).

(** The bytes read from the loop's current position on. *)
Fixpoint inode_read_loop (fuel : nat) (p sz offset : Z) (bounce : bool) : M (fs B) (list Z) :=
  match fuel with
  | O => fail OutOfFuel
  | S fuel =>
      if decide (sz > 0) then
        i ← rd_inode p;
        let sector_idx := byte_to_sector i offset in
        let '(sector_ofs, sector_left, chunk_size) := chunk_of i sz offset in
        if decide (chunk_size <= 0) then mret []
        else if decide (sector_ofs = 0 ∧ chunk_size = BLOCK_SECTOR_SIZE) then
          bs ← on_device (dev_read sector_idx);
          rest ← inode_read_loop fuel p (sz - chunk_size) (offset + chunk_size) bounce;
          mret (bs ++ rest)
        else
          got ← get_bounce bounce;
          if (got : bool) then
            bs ← on_device (dev_read sector_idx);
            bs ← lift (copy_range bs sector_ofs chunk_size);
            rest ← inode_read_loop fuel p (sz - chunk_size) (offset + chunk_size) true;
            mret (bs ++ rest)
          else mret []
      else mret []
  end.

(** Every chunk has at least one byte. *)
Definition inode_read_at (p sz offset : Z) : M (fs B) (list Z) :=
  inode_read_loop (S (Z.to_nat sz)) p sz offset false.

Fixpoint inode_write_loop (fuel : nat) (p : Z) (buffer : list Z) (sz offset bytes_written : Z) (bounce : bool) : M (fs B) Z :=
  match fuel with
  | O => fail OutOfFuel
  | S fuel =>
      if decide (sz > 0) then
        i ← rd_inode p;
        let sector_idx := byte_to_sector i offset in
        let '(sector_ofs, sector_left, chunk_size) := chunk_of i sz offset in
        if decide (chunk_size <= 0) then mret bytes_written
        else if decide (sector_ofs = 0 ∧ chunk_size = BLOCK_SECTOR_SIZE) then
          bs ← lift (copy_range buffer bytes_written chunk_size);
          on_device (dev_write sector_idx bs);;
          inode_write_loop fuel p buffer (sz - chunk_size) (offset + chunk_size) (bytes_written + chunk_size) bounce
        else
          got ← get_bounce bounce;
          if (got : bool) then
            block ← (if decide (sector_ofs > 0 ∨ chunk_size < sector_left) then on_device (dev_read sector_idx)
                     else mret (replicate (Z.to_nat BLOCK_SECTOR_SIZE) 0));
            bs ← lift (copy_range buffer bytes_written chunk_size);
            lift (copy_range block sector_ofs chunk_size);;
            on_device (dev_write sector_idx (splice block sector_ofs bs));;
            inode_write_loop fuel p buffer (sz - chunk_size) (offset + chunk_size) (bytes_written + chunk_size) true
          else mret bytes_written
      else mret bytes_written
  end.

Definition inode_write_at (p : Z) (buffer : list Z) (sz offset : Z) : M (fs B) Z :=
  i ← rd_inode p;
  if decide (deny_write_cnt i ≠ 0) then mret 0
  else inode_write_loop (S (Z.to_nat sz)) p buffer sz offset 0 false.

Definition inode_deny_write (p : Z) : M (fs B) unit :=
  i ← rd_inode p;
  let n := i32 (deny_write_cnt i + 1) in
  wr_inode p (with_deny n i);;
  assert (bool_decide (n ≤ open_cnt i)).

Definition inode_allow_write (p : Z) : M (fs B) unit :=
  i ← rd_inode p;
  assert (bool_decide (deny_write_cnt i > 0));;
  assert (bool_decide (deny_write_cnt i ≤ open_cnt i));;
  wr_inode p (with_deny (i32 (deny_write_cnt i - 1)) i).

(** ** Reading and writing an open file (filesys/file.c) *)

Definition file_read_at (f sz file_ofs : Z) : M (fs B) (list Z) :=
  fl ← rd_file f; inode_read_at (file_inode fl) sz file_ofs.

Definition file_write_at (f : Z) (buffer : list Z) (sz file_ofs : Z) : M (fs B) Z :=
  fl ← rd_file f; inode_write_at (file_inode fl) buffer sz file_ofs.

End inode.

(** ** The encoding of an inode *)

Definition disk_ok (d : inode_disk) : Prop :=
  in_u 32 (start d) ∧ in_s 32 (disk_length d) ∧ in_u 32 (magic d) ∧ length (unused d) = 500%nat.

Lemma encode_inode_length d : disk_ok d → Z.of_nat (length (encode_inode d)) = BLOCK_SECTOR_SIZE.
Proof. intros (_ & _ & _ & Hu). unfold encode_inode. by rewrite !length_app, !le_bytes_length, Hu. Qed.

Lemma decode_encode d : disk_ok d → decode_inode (encode_inode d) = d.
Proof.
  intros (Hs & Hl & Hm & Hu). unfold decode_inode, encode_inode.
  pose proof (le_bytes_length 4 (start d)) as E1. pose proof (le_bytes_length 4 (u32 (disk_length d))) as E2.
  pose proof (le_bytes_length 4 (magic d)) as E3.
  assert (∀ n (l1 l2 : list Z) a, length l1 = n → slice (l1 ++ l2) (Z.of_nat n) a = slice l2 0 a) as Hskip.
  { intros n l1 l2 a En. unfold slice. rewrite Nat2Z.id, <-En, drop_app_length. by rewrite drop_0. }
  assert (∀ (l1 l2 : list Z), length l1 = 4%nat → slice (l1 ++ l2) 0 4 = l1) as Hhead.
  { intros l1 l2 En. unfold slice. change (Z.to_nat 0) with 0%nat. rewrite drop_0. by apply take_app_length'. }
  rewrite Hhead by done. rewrite (Hskip 4%nat) by done. rewrite Hhead by done.
  rewrite (app_assoc _ _ (_ ++ _)), (Hskip 8%nat) by (rewrite length_app; lia). rewrite Hhead by done.
  rewrite !app_assoc, (drop_app_length' _ _ 12) by (rewrite !length_app; lia).
  rewrite !le_value_bytes by (done || (apply wrapu_range; lia)).
  assert (i32 (u32 (disk_length d)) = disk_length d) as ->.
  { rewrite <-(wraps_small 32 (disk_length d)) at 2 by (done || lia). apply wraps_cong. unfold wrapu. by rewrite Z.mod_mod by lia. }
  by destruct d.
Qed.

(** ** Reading and writing *)

Section access.
  Context {B : Type} `{BlockDeviceLaws B}.
  Implicit Types s : fs B.

(** The device and the answers of [malloc] have changed, and the device holds
    [img]. *)
Definition updated s (img : list Z) s' : Prop :=
  ∃ d l, s' = set_device d (set_answers l s) ∧ l `suffix_of` answers s ∧
    dev_wf d ∧ dev_size d = dev_size (device s) ∧ image d = img.

Lemma updated_refl s : dev_wf (device s) → updated s (image (device s)) s.
Proof. intros Hd. exists (device s), (answers s). split; [by destruct s|done]. Qed.

Lemma updated_trans s1 s2 s3 img1 img2 : updated s1 img1 s2 → updated s2 img2 s3 → updated s1 img2 s3.
Proof.
  intros (d1 & l1 & -> & Hl1 & Hd1 & Hs1 & Hi1) (d2 & l2 & -> & Hl2 & Hd2 & Hs2 & Hi2). exists d2, l2.
  cbn in *. split_and!; [done|by etrans|done|congruence|done].
Qed.

Lemma updated_wf s img s' : updated s img s' → dev_wf (device s') ∧ image (device s') = img.
Proof. by intros (d & l & -> & _ & Hd & _ & Hi). Qed.

Lemma on_device_ok {A} (m : M B A) s a d :
  m (device s) = Ok (a, d) → on_device m s = Ok (a, set_device d s).
Proof. apply zoom_ok. Qed.

Lemma dev_read_updated s i :
  dev_wf (device s) → 0 ≤ i → i < dev_size (device s) →
  ∃ s', on_device (dev_read i) s = Ok (slice (image (device s)) (512 * i) 512, s') ∧
    updated s (image (device s)) s' ∧ answers s' = answers s.
Proof.
  intros Hd Hlo Hi. destruct (dev_read_ok _ i Hd Hlo Hi) as (d & E & Hd' & Hs & Him). exists (set_device d s).
  split; [by apply on_device_ok|]. split; [|done]. exists d, (answers s). split_and!; done.
Qed.

Lemma dev_write_updated s i bs :
  dev_wf (device s) → 0 ≤ i → i < dev_size (device s) → Z.of_nat (length bs) = 512 →
  ∃ s', on_device (dev_write i bs) s = Ok (tt, s') ∧ updated s (splice (image (device s)) (512 * i) bs) s' ∧
    answers s' = answers s.
Proof.
  intros Hd Hlo Hi Hb. destruct (dev_write_ok _ i bs Hd Hlo Hi Hb) as (d & E & Hd' & Hs & Him). exists (set_device d s).
  split; [by apply on_device_ok|]. split; [|done]. exists d, (answers s). split_and!; done.
Qed.

(** The next call of [malloc] fails. *)
Definition starved s : Prop := match malloc s with Ok (a, _) => a = NULL | Err _ => True end.

Lemma malloc_updated s :
  dev_wf (device s) → ∃ a s', malloc s = Ok (a, s') ∧ updated s (image (device s)) s' ∧ (a = NULL ↔ starved s).
Proof.
  intros Hd. unfold starved, malloc. destruct (answers s) as [|a l] eqn:E.
  - exists NULL, s. split_and!; [done|by apply updated_refl|done].
  - eexists _, _. split_and!; [done| |done]. exists (device s), l. split_and!; [done| |done..].
    rewrite E. by apply suffix_cons_r.
Qed.

Lemma get_bounce_ok bounce s :
  dev_wf (device s) → ∃ got s', get_bounce bounce s = Ok (got, s') ∧ updated s (image (device s)) s' ∧
    (got = true ∨ bounce = false ∧ starved s).
Proof.
  intros Hd. destruct bounce; [exists true, s; split_and!; [done|by apply updated_refl|by left]|].
  destruct (malloc_updated s Hd) as (a & s' & E & Hu & Ha). exists (bool_decide (a ≠ NULL)), s'. unfold get_bounce.
  rewrite (bind_ok _ _ _ _ _ E). split_and!; [done..|]. case_bool_decide; [by left|]. right. tauto.
Qed.

(** The data of an inode lie on the device. *)
Definition data_ok (dsize : Z) (d : inode_disk) : Prop :=
  0 ≤ start d ∧ 0 ≤ disk_length d < 2 ^ 31 ∧ start d + (disk_length d + 511) / 512 ≤ dsize.

Lemma chunk_ok i sz offset :
  0 ≤ disk_length (data i) < 2 ^ 31 → 0 ≤ offset < 2 ^ 31 →
  chunk_of i sz offset = (offset mod 512, 512 - offset mod 512,
    sz `min` ((disk_length (data i) - offset) `min` (512 - offset mod 512))).
Proof.
  intros Hl Ho. unfold chunk_of, BLOCK_SECTOR_SIZE. rewrite Z.rem_mod_nonneg by lia.
  rewrite wraps_small by (unfold in_s; lia). do 2 f_equal. repeat case_decide; lia.
Qed.

Lemma sector_ok dsize i offset :
  dsize < 2 ^ 32 → data_ok dsize (data i) → 0 ≤ offset → offset < disk_length (data i) →
  byte_to_sector i offset = start (data i) + offset / 512 ∧ 0 ≤ start (data i) + offset / 512 < dsize.
Proof.
  intros Hd (H1 & H2 & H3) Ho Hlt. unfold byte_to_sector, BLOCK_SECTOR_SIZE. rewrite decide_True by lia.
  rewrite Z.quot_div_nonneg by lia.
  assert (0 ≤ start (data i) + offset / 512 < dsize) by dlia. rewrite wrapu_small by (unfold in_u; lia). done.
Qed.

(** The bytes that a transfer of [sz] bytes at [offset] is about. *)
Definition available (i : inode) (sz offset : Z) : Z := 0 `max` (sz `min` (disk_length (data i) - offset)).

Lemma copy_range_ok l ofs n : 0 ≤ ofs → ofs + n ≤ Z.of_nat (length l) → copy_range l ofs n = Ok (slice l ofs n).
Proof. intros. unfold copy_range. by rewrite decide_True by lia. Qed.

Lemma rd_inode_ok s p i : inodes s !! p = Some i → rd_inode p s = Ok (i, s).
Proof. unfold rd_inode. by intros ->. Qed.

Lemma updated_inodes s img s' p i : updated s img s' → inodes s !! p = Some i → inodes s' !! p = Some i.
Proof. by intros (d & l & -> & _). Qed.

Lemma updated_size s img s' : updated s img s' → dev_size (device s') = dev_size (device s).
Proof. by intros (d & l & -> & _ & _ & Hs & _). Qed.

Lemma starved_same s img s' : updated s img s' → answers s' = answers s → starved s' → starved s.
Proof.
  intros (d & l & -> & _) El. cbn in El. subst l. unfold starved, malloc, in_use, objects. cbn. by destruct (answers s).
Qed.

Lemma available_step i sz offset c :
  c = sz `min` ((disk_length (data i) - offset) `min` (512 - offset mod 512)) → 0 < c →
  c + available i (sz - c) (offset + c) = available i sz offset.
Proof. unfold available. pose proof (Z.mod_pos_bound offset 512). lia. Qed.

(** One chunk lies in one sector. *)
Lemma chunk_slice s i offset n :
  0 ≤ start (data i) → 0 ≤ offset → offset mod 512 + n ≤ 512 →
  slice (slice (image (device s)) (512 * (start (data i) + offset / 512)) 512) (offset mod 512) n =
  slice (image (device s)) (512 * start (data i) + offset) n.
Proof.
  intros Hs Ho Hn. pose proof (Z.mod_pos_bound offset 512 ltac:(lia)). pose proof (Z.div_pos offset 512 ltac:(lia) ltac:(lia)).
  rewrite slice_slice by lia. f_equal. pose proof (Z.div_mod offset 512). lia.
Qed.

Lemma inode_read_loop_ok fuel s p i sz offset bounce :
  dev_wf (device s) → inodes s !! p = Some i → data_ok (dev_size (device s)) (data i) →
  0 ≤ offset < 2 ^ 31 → 0 `max` sz < Z.of_nat fuel →
  ∃ n s', inode_read_loop fuel p sz offset bounce s =
      Ok (slice (image (device s)) (512 * start (data i) + offset) n, s') ∧
    updated s (image (device s)) s' ∧ 0 ≤ n ≤ available i sz offset ∧
    (n = available i sz offset ∨ bounce = false ∧ starved s ∧ (sz < 512 → n = 0)).
Proof.
  revert s sz offset bounce. induction fuel as [|fuel IH]; intros s sz offset bounce Hd Ei Hok Ho Hf; [lia|].
  cbn [inode_read_loop]. assert (∀ n, n <= 0 → slice (image (device s)) (512 * start (data i) + offset) n = []) as Hnil by apply slice_nil.
  case_decide as Hsz; [|exists 0, s; rewrite Hnil by lia; unfold available; split_and!; [done|by apply updated_refl|lia..]].
  rewrite (bind_ok _ _ _ _ _ (rd_inode_ok _ _ _ Ei)). pose proof Hok as (Hst & Hlen & _). rewrite chunk_ok by done.
  set (c := sz `min` _). pose proof (Z.mod_pos_bound offset 512 ltac:(lia)) as Hmod.
  case_decide as Hc; [exists 0, s; rewrite Hnil by lia; unfold available; split_and!; [done|by apply updated_refl|lia..]|].
  pose proof (dev_size_range _ Hd) as Hds. destruct (sector_ok _ i offset (proj2 Hds) Hok) as [-> Hidx]; [lia..|].
  assert (∀ s1 b, updated s (image (device s)) s1 → (b = bounce ∧ answers s1 = answers s ∧ 512 ≤ sz ∨ b = true) →
    ∃ n s', inode_read_loop fuel p (sz - c) (offset + c) b s1 =
      Ok (slice (image (device s)) (512 * start (data i) + (offset + c)) n, s') ∧
      updated s (image (device s)) s' ∧ 0 ≤ n ≤ available i (sz - c) (offset + c) ∧
      (n = available i (sz - c) (offset + c) ∨ bounce = false ∧ starved s ∧ 512 ≤ sz)) as Hrest.
  { intros s1 b Hu Hb. destruct (updated_wf _ _ _ Hu) as [Hd1 Hi1]. pose proof (updated_size _ _ _ Hu) as Hs1.
    destruct (IH s1 (sz - c) (offset + c) b) as (n & s' & E & Hu' & Hn & Hx); [done|by eapply updated_inodes|by rewrite Hs1|lia..|].
    exists n, s'. rewrite E, Hi1 in *. split_and!; [done|by eapply updated_trans|lia..|].
    destruct Hx as [?|(-> & Hx & _)]; [by left|]. destruct Hb as [(<- & Ha & ?)|?]; [|done]. right. split_and!; [done|by eapply starved_same|done]. }
  assert (∀ n, 0 ≤ n → slice (image (device s)) (512 * start (data i) + offset) c ++
      slice (image (device s)) (512 * start (data i) + (offset + c)) n =
      slice (image (device s)) (512 * start (data i) + offset) (c + n)) as Hcat.
  { intros n Hn. rewrite <-slice_app by lia. do 2 f_equal. lia. }
  pose proof (available_step i sz offset c eq_refl ltac:(lia)) as Hav.
  pose proof (chunk_slice s i offset c Hst ltac:(lia) ltac:(lia)) as Hch.
  case_decide as Hfull.
  - destruct (dev_read_updated s (start (data i) + offset / 512) Hd) as (s1 & E1 & Hu1 & Ha1); [lia..|].
    rewrite (bind_ok _ _ _ _ _ E1). destruct (Hrest s1 bounce Hu1) as (n & s' & E & Hu & Hn & Hx).
    { left. unfold BLOCK_SECTOR_SIZE in Hfull. split_and!; [done..|lia]. }
    rewrite (bind_ok _ _ _ _ _ E). exists (c + n), s'. rewrite <-Hcat, <-Hch by lia. destruct Hfull as [-> ->].
    change (slice ?l 0 BLOCK_SECTOR_SIZE) with (slice l 0 512). rewrite slice_slice, Z.add_0_r by lia.
    split_and!; [done|done|lia|lia|destruct Hx as [?|(? & ? & ?)]; [left; lia|right; split_and!; [done..|lia]]].
  - destruct (get_bounce_ok bounce s Hd) as (got & s1 & E1 & Hu1 & Hg). rewrite (bind_ok _ _ _ _ _ E1).
    destruct (updated_wf _ _ _ Hu1) as [Hd1 Hi1]. pose proof (updated_size _ _ _ Hu1) as Hs1. destruct got.
    + destruct (dev_read_updated s1 (start (data i) + offset / 512) Hd1) as (s2 & E2 & Hu2 & _); [lia..|]. rewrite Hi1 in Hu2, E2.
      rewrite (bind_ok _ _ _ _ _ E2). pose proof (dev_image_length _ Hd) as Hlen'. unfold BLOCK_SECTOR_SIZE in Hlen'.
      rewrite copy_range_ok by (rewrite ?slice_lengthZ; lia). rewrite Hch. rewrite (bind_ok _ _ _ _ s2 eq_refl).
      destruct (Hrest s2 true) as (n & s' & E & Hu & Hn & Hx); [by eapply updated_trans|by right|].
      rewrite (bind_ok _ _ _ _ _ E). exists (c + n), s'. rewrite <-Hcat by lia. split_and!; [done|done|lia|lia|destruct Hx as [?|(? & ? & ?)]; [left; lia|right; split_and!; [done..|lia]]].
    + exists 0, s1. rewrite Hnil by lia. split_and!; [done|done|lia|unfold available; lia|]. right. naive_solver.
Qed.

Lemma inode_read_at_ok s p i sz offset :
  dev_wf (device s) → inodes s !! p = Some i → data_ok (dev_size (device s)) (data i) → 0 ≤ offset < 2 ^ 31 →
  ∃ n s', inode_read_at p sz offset s = Ok (slice (image (device s)) (512 * start (data i) + offset) n, s') ∧
    updated s (image (device s)) s' ∧ 0 ≤ n ≤ available i sz offset ∧ (n = available i sz offset ∨ starved s ∧ (sz < 512 → n = 0)).
Proof.
  intros Hd Ei Hok Ho. destruct (inode_read_loop_ok (S (Z.to_nat sz)) s p i sz offset false Hd Ei Hok Ho) as (n & s' & E & Hu & Hn & Hx); [lia|].
  exists n, s'. unfold inode_read_at. split_and!; [done..|lia|lia|]. naive_solver.
Qed.

(** Storing a chunk through a copy of its sector. *)
Lemma chunk_splice (img bs : list Z) st offset (block : list Z) :
  0 ≤ st → 0 ≤ offset → offset mod 512 + Z.of_nat (length bs) ≤ 512 →
  512 * (st + offset / 512) + 512 ≤ Z.of_nat (length img) →
  (block = slice img (512 * (st + offset / 512)) 512 ∨ offset mod 512 = 0 ∧ length bs = 512%nat ∧ length block = 512%nat) →
  splice img (512 * (st + offset / 512)) (splice block (offset mod 512) bs) = splice img (512 * st + offset) bs.
Proof.
  intros Hs Ho Hn Hl Hb. pose proof (Z.mod_pos_bound offset 512 ltac:(lia)). pose proof (Z.div_pos offset 512 ltac:(lia) ltac:(lia)).
  pose proof (Z.div_mod offset 512). destruct Hb as [->|(Hz & Hb & Hbl)].
  - rewrite splice_slice by lia. f_equal. lia.
  - rewrite Hz, splice_full by lia. f_equal. lia.
Qed.

Lemma slice_add {A} (l : list A) a n m :
  0 ≤ a → 0 ≤ n → 0 ≤ m → slice l a (n + m) = slice l a n ++ slice l (a + n) m.
Proof. intros. by rewrite slice_app. Qed.

(** The block that a chunk of [c] bytes at [ofs] is copied to. *)
Lemma fetch_block_ok s idx ofs c :
  dev_wf (device s) → 0 ≤ idx < dev_size (device s) → 0 ≤ ofs → ofs + c ≤ 512 →
  ∃ block s', (if decide (ofs > 0 ∨ c < 512 - ofs) then on_device (dev_read idx)
      else mret (replicate (Z.to_nat BLOCK_SECTOR_SIZE) 0)) s = Ok (block, s') ∧
    updated s (image (device s)) s' ∧ length block = 512%nat ∧
    (block = slice (image (device s)) (512 * idx) 512 ∨ ofs = 0 ∧ c = 512).
Proof.
  intros Hd Hidx Hofs Hc. pose proof (dev_image_length _ Hd) as Himg. unfold BLOCK_SECTOR_SIZE in Himg. case_decide.
  - destruct (dev_read_updated s idx Hd) as (s2 & E2 & Hu2 & _); [lia..|].
    eexists _, s2. split; [exact E2|]. split_and!; [done|rewrite slice_length; lia|by left].
  - eexists _, s. split; [done|]. split_and!; [by apply updated_refl|by rewrite length_replicate|right; lia].
Qed.

Lemma inode_write_loop_ok fuel s p i buffer sz offset bw bounce :
  dev_wf (device s) → inodes s !! p = Some i → data_ok (dev_size (device s)) (data i) →
  0 ≤ offset < 2 ^ 31 → 0 `max` sz < Z.of_nat fuel → 0 ≤ bw → bw + sz ≤ Z.of_nat (length buffer) →
  ∃ n s', inode_write_loop fuel p buffer sz offset bw bounce s = Ok (bw + n, s') ∧
    updated s (splice (image (device s)) (512 * start (data i) + offset) (slice buffer bw n)) s' ∧
    0 ≤ n ≤ available i sz offset ∧ (n = available i sz offset ∨ bounce = false ∧ starved s ∧ (sz < 512 → n = 0)).
Proof.
  revert s sz offset bw bounce. induction fuel as [|fuel IH]; intros s sz offset bw bounce Hd Ei Hok Ho Hf Hbw Hbuf; [lia|].
  cbn [inode_write_loop].
  assert (∀ s1, updated s (image (device s)) s1 → (0 = available i sz offset ∨ bounce = false ∧ starved s) →
    ∃ n s', Ok (bw, s1) = Ok (bw + n, s') ∧ updated s (splice (image (device s)) (512 * start (data i) + offset) (slice buffer bw n)) s' ∧
    0 ≤ n ≤ available i sz offset ∧ (n = available i sz offset ∨ bounce = false ∧ starved s ∧ (sz < 512 → n = 0))) as Hstop.
  { intros s1 Hu1 Ha. exists 0, s1. rewrite Z.add_0_r, slice_nil, splice_nil by lia. split_and!; [done..|unfold available; lia|naive_solver]. }
  case_decide as Hsz; [|apply Hstop; [by apply updated_refl|left; unfold available; lia]].
  rewrite (bind_ok _ _ _ _ _ (rd_inode_ok _ _ _ Ei)). pose proof Hok as (Hst & Hlen & Hend). rewrite chunk_ok by done.
  set (c := sz `min` _). pose proof (Z.mod_pos_bound offset 512 ltac:(lia)) as Hmod.
  case_decide as Hc; [apply Hstop; [by apply updated_refl|left; unfold available; lia]|].
  pose proof (dev_size_range _ Hd) as Hds. destruct (sector_ok _ i offset (proj2 Hds) Hok) as [-> Hidx]; [lia..|].
  pose proof (dev_image_length _ Hd) as Himg. unfold BLOCK_SECTOR_SIZE in Himg.
  assert (512 * start (data i) + disk_length (data i) ≤ Z.of_nat (length (image (device s)))) as Hfit.
  { rewrite Himg. clear - Hend. dlia. }
  pose proof (available_step i sz offset c eq_refl ltac:(lia)) as Hav.
  assert (Z.of_nat (length (slice buffer bw c)) = c) as Hchunk by (rewrite slice_lengthZ; lia).
  set (img1 := splice (image (device s)) (512 * start (data i) + offset) (slice buffer bw c)).
  assert (∀ s1 b, updated s img1 s1 → (b = bounce ∧ answers s1 = answers s ∧ 512 ≤ sz ∨ b = true) →
    ∃ n s', inode_write_loop fuel p buffer (sz - c) (offset + c) (bw + c) b s1 = Ok (bw + n, s') ∧
      updated s (splice (image (device s)) (512 * start (data i) + offset) (slice buffer bw n)) s' ∧
      0 ≤ n ≤ available i sz offset ∧ (n = available i sz offset ∨ bounce = false ∧ starved s ∧ (sz < 512 → n = 0))) as Hrest.
  { intros s1 b Hu Hb. destruct (updated_wf _ _ _ Hu) as [Hd1 Hi1]. pose proof (updated_size _ _ _ Hu) as Hs1.
    destruct (IH s1 (sz - c) (offset + c) (bw + c) b) as (n & s' & E & Hu' & Hn & Hx); [done|by eapply updated_inodes|by rewrite Hs1|lia..|].
    exists (c + n), s'. rewrite Hi1 in Hu'. split_and!; [rewrite E; do 2 f_equal; lia| |lia..|].
    - rewrite slice_add, <-splice_app by (rewrite ?Hchunk, ?slice_lengthZ; unfold available in Hn; lia). rewrite Hchunk.
      rewrite <-Z.add_assoc. by eapply updated_trans.
    - destruct Hx as [?|(-> & Hx & _)]; [left; lia|]. destruct Hb as [(<- & Ha & ?)|?]; [|done]. right. split_and!; [done|by eapply starved_same|lia]. }
  rewrite copy_range_ok by lia. case_decide as Hfull.
  - rewrite (bind_ok _ _ _ _ s eq_refl). destruct Hfull as [Hz Hc512]. unfold BLOCK_SECTOR_SIZE in Hc512.
    destruct (dev_write_updated s (start (data i) + offset / 512) (slice buffer bw c) Hd) as (s1 & E1 & Hu1 & Ha1); [lia..|].
    rewrite (bind_ok _ _ _ _ _ E1). apply Hrest; [|left; split_and!; [done..|lia]].
    enough (img1 = splice (image (device s)) (512 * (start (data i) + offset / 512)) (slice buffer bw c)) as -> by done.
    unfold img1. f_equal. pose proof (Z.div_mod offset 512). lia.
  - destruct (get_bounce_ok bounce s Hd) as (got & s1 & E1 & Hu1 & Hg). rewrite (bind_ok _ _ _ _ _ E1).
    destruct (updated_wf _ _ _ Hu1) as [Hd1 Hi1]. pose proof (updated_size _ _ _ Hu1) as Hs1.
    destruct got; [|apply Hstop; [done|right; naive_solver]].
    destruct (fetch_block_ok s1 (start (data i) + offset / 512) (offset mod 512) c Hd1) as (block & s2 & E2 & Hu2 & Hbl & Hblk); [lia..|].
    rewrite Hi1 in Hu2, Hblk. apply (updated_trans _ _ _ _ _ Hu1) in Hu2.
    rewrite (bind_ok _ _ _ _ _ E2), (bind_ok _ _ _ _ s2 eq_refl). rewrite copy_range_ok by lia. rewrite (bind_ok _ _ _ _ s2 eq_refl).
    destruct (updated_wf _ _ _ Hu2) as [Hd2 Hi2]. pose proof (updated_size _ _ _ Hu2) as Hs2.
    destruct (dev_write_updated s2 (start (data i) + offset / 512) (splice block (offset mod 512) (slice buffer bw c)) Hd2)
      as (s3 & E3 & Hu3 & _); [lia|lia|by rewrite splice_length, Hbl|].
    rewrite (bind_ok _ _ _ _ _ E3). apply Hrest; [|by right]. rewrite Hi2 in Hu3.
    rewrite chunk_splice in Hu3 by (done || lia || (destruct Hblk as [|[? ->]]; [by left|right; lia])). by eapply updated_trans.
Qed.

Lemma inode_write_at_ok s p i buffer sz offset :
  dev_wf (device s) → inodes s !! p = Some i → data_ok (dev_size (device s)) (data i) → 0 ≤ offset < 2 ^ 31 →
  sz ≤ Z.of_nat (length buffer) →
  ∃ n s', inode_write_at p buffer sz offset s = Ok (n, s') ∧
    updated s (splice (image (device s)) (512 * start (data i) + offset) (take (Z.to_nat n) buffer)) s' ∧
    0 ≤ n ≤ available i sz offset ∧
    (if decide (deny_write_cnt i = 0) then n = available i sz offset ∨ starved s ∧ (sz < 512 → n = 0) else n = 0).
Proof.
  intros Hd Ei Hok Ho Hb. unfold inode_write_at. rewrite (bind_ok _ _ _ _ _ (rd_inode_ok _ _ _ Ei)).
  destruct (decide (deny_write_cnt i = 0)).
  - rewrite decide_False by tauto.
    destruct (inode_write_loop_ok (S (Z.to_nat sz)) s p i buffer sz offset 0 false Hd Ei Hok Ho) as (n & s' & E & Hu & Hn & Hx); [lia..|].
    exists n, s'. unfold slice in Hu. rewrite drop_0 in Hu. split_and!; [done..|lia|lia|naive_solver].
  - rewrite decide_True by done. exists 0, s. change (take (Z.to_nat 0) buffer) with (@nil Z). rewrite splice_nil.
    split_and!; [done|by apply updated_refl|lia|unfold available; lia|done].
Qed.

End access.
