(* ===== verification/FreeMap.v ===== *)
(** * Free map, creation of inodes, open files

    filesys/free-map.c, the part of filesys/inode.c that allocates and frees
    sectors, and filesys/file.c.  The three call each other: the free map is
    stored in a file, so allocating a sector writes a file, and closing an inode
    may free sectors. *)

From S2P Require Import Prelude Bitmap BlockDevice Inode.

Definition FREE_MAP_SECTOR : Z := 0.
Definition ROOT_DIR_SECTOR : Z := 1.

Section free_map.
  Context {B : Type} `{BlockDevice B}.

(** ** free-map.c *)

(** [bitmap_write (free_map, free_map_file)]. *)
Definition write_free_map : M (fs B) bool :=
  b ← gets free_map; f ← gets free_map_file; bitmap_write (file_write_at f) b.

(** [None] is failure; otherwise the first sector. *)
Definition free_map_allocate (cnt : Z) : M (fs B) (option Z) :=
  sec ← on_free_map (bitmap_scan_and_flip 0 cnt false);
  f ← gets free_map_file;
  failed ← (if decide (sec ≠ BITMAP_ERROR ∧ f ≠ NULL) then ok ← write_free_map; mret (negb ok) else mret false);
  sec ← (if (failed : bool) then on_free_map (bitmap_set_multiple sec cnt false);; mret BITMAP_ERROR else mret sec);
  mret (if decide (sec ≠ BITMAP_ERROR) then Some sec else None).

Definition free_map_release (sec cnt : Z) : M (fs B) unit :=
  all ← on_free_map (bitmap_all sec cnt);
  assert all;;
  on_free_map (bitmap_set_multiple sec cnt false);;
  write_free_map;;
  mret tt.

(** ** inode.c *)

(** The loop that writes zeros, [n] sectors from [st + i]. *)
Fixpoint write_zeros (n : nat) (st i : Z) : M (fs B) unit :=
  match n with
  | O => mret tt
  | S n => on_device (dev_write (u32 (st + i)) (replicate (Z.to_nat BLOCK_SECTOR_SIZE) 0));; write_zeros n st (i + 1)
  end.

Definition inode_create (sec len : Z) : M (fs B) bool :=
  assert (bool_decide (len >= 0));;
  p ← malloc;
  if decide (p ≠ NULL) then
    let sectors := bytes_to_sectors len in
    a ← free_map_allocate sectors;
    match a with
    | Some st =>
        on_device (dev_write sec (encode_inode (InodeDisk st len INODE_MAGIC (replicate 500 0))));;
        (if decide (sectors > 0) then write_zeros (Z.to_nat sectors) st 0 else mret tt);;
        mret true
    | None => mret false
    end
  else mret false.

Definition inode_close (p : Z) : M (fs B) unit :=
  if decide (p = NULL) then mret tt else
  i ← rd_inode p;
  let n := i32 (open_cnt i - 1) in
  wr_inode p (with_open_cnt n i);;
  if decide (n = 0) then
    modify (set_open_inodes (filter (λ q, q ≠ p)));;
    (if removed i then
       free_map_release (sector i) 1;;
       free_map_release (start (data i)) (bytes_to_sectors (disk_length (data i)))
     else mret tt);;
    modify (set_inodes (delete p))
  else mret tt.

(** ** file.c *)

Definition file_open (ip : Z) : M (fs B) Z :=
  p ← malloc;
  if decide (ip ≠ NULL ∧ p ≠ NULL) then modify (set_files (<[p := File ip 0 false]>));; mret p
  else inode_close ip;; mret NULL.

Definition file_get_inode (f : Z) : M (fs B) Z := fl ← rd_file f; mret (file_inode fl).

Definition file_reopen (f : Z) : M (fs B) Z := fl ← rd_file f; ip ← inode_reopen (file_inode fl); file_open ip.

Definition file_allow_write (f : Z) : M (fs B) unit :=
  assert (bool_decide (f ≠ NULL));;
  fl ← rd_file f;
  if deny_write fl then
    modify (set_files (<[f := File (file_inode fl) (pos fl) false]>));; inode_allow_write (file_inode fl)
  else mret tt.

Definition file_deny_write (f : Z) : M (fs B) unit :=
  assert (bool_decide (f ≠ NULL));;
  fl ← rd_file f;
  if negb (deny_write fl) then
    modify (set_files (<[f := File (file_inode fl) (pos fl) true]>));; inode_deny_write (file_inode fl)
  else mret tt.

Definition file_close (f : Z) : M (fs B) unit :=
  if decide (f ≠ NULL) then
    file_allow_write f;;
    fl ← rd_file f;
    inode_close (file_inode fl);;
    modify (set_files (delete f))
  else mret tt.

(** Moves the position of an open file. *)
Definition set_pos (f ps : Z) : M (fs B) unit :=
  fl ← rd_file f; modify (set_files (<[f := File (file_inode fl) ps (deny_write fl)]>)).

Definition file_read (f sz : Z) : M (fs B) (list Z) :=
  fl ← rd_file f;
  bs ← inode_read_at (file_inode fl) sz (pos fl);
  set_pos f (i32 (pos fl + Z.of_nat (length bs)));;
  mret bs.

Definition file_write (f : Z) (buffer : list Z) (sz : Z) : M (fs B) Z :=
  fl ← rd_file f;
  n ← inode_write_at (file_inode fl) buffer sz (pos fl);
  set_pos f (i32 (pos fl + n));;
  mret n.

Definition file_length (f : Z) : M (fs B) Z :=
  assert (bool_decide (f ≠ NULL));; fl ← rd_file f; inode_length (file_inode fl).

Definition file_seek (f new_pos : Z) : M (fs B) unit :=
  assert (bool_decide (f ≠ NULL));; assert (bool_decide (new_pos >= 0));; set_pos f new_pos.

Definition file_tell (f : Z) : M (fs B) Z :=
  assert (bool_decide (f ≠ NULL));; fl ← rd_file f; mret (pos fl).

(** ** free-map.c: the free map file *)

(** [junk] is what the block for the elements of the bitmap holds. *)
Definition free_map_init (junk : list Z) : M (fs B) unit :=
  n ← gets (λ s, dev_size (device s));
  a ← malloc;
  b ← (if decide (a ≠ NULL) then malloc else mret NULL);
  m ← lift (bitmap_create (bool_decide (a ≠ NULL)) (if decide (b ≠ NULL) then Some junk else None) n);
  match m with
  | None => fail Panicked
  | Some m =>
      modify (set_free_map m);;
      on_free_map (bitmap_mark FREE_MAP_SECTOR);;
      on_free_map (bitmap_mark ROOT_DIR_SECTOR)
  end.

Definition free_map_open : M (fs B) unit :=
  ip ← inode_open FREE_MAP_SECTOR;
  f ← file_open ip;
  modify (set_free_map_file f);;
  if decide (f = NULL) then fail Panicked else
  b ← gets free_map;
  '(ok, b) ← bitmap_read (file_read_at f) b;
  modify (set_free_map b);;
  if (ok : bool) then mret tt else fail Panicked.

Definition free_map_close : M (fs B) unit := f ← gets free_map_file; file_close f.

Definition free_map_create : M (fs B) unit :=
  n ← on_free_map bitmap_file_size;
  ok ← inode_create FREE_MAP_SECTOR (i32 n);
  if negb ok then fail Panicked else
  ip ← inode_open FREE_MAP_SECTOR;
  f ← file_open ip;
  modify (set_free_map_file f);;
  if decide (f = NULL) then fail Panicked else
  ok ← write_free_map;
  if (ok : bool) then mret tt else fail Panicked.

End free_map.
