(* ===== verification/Directory.v ===== *)
(** * Directories

    filesys/directory.c.  A [struct dir_entry] is its 20 bytes: the sector of
    the inode, the name in 15 bytes, and the byte that tells whether the entry is
    in use.  A name that a caller passes is the list of its characters, without
    the terminator. *)

From S2P Require Import Prelude Bitmap BlockDevice Inode FreeMap.

Definition NAME_MAX : Z := 14.
Definition ENTRY_SIZE : Z := 20.

Definition entry_sector (e : list Z) : Z := le_value (slice e 0 4).
Definition entry_in_use (e : list Z) : bool := bool_decide (nth 19 e 0 ≠ 0).

(** [strcmp] with the string at the start of [l] finds no difference; past the
    end of [l] is past the entry. *)
Fixpoint same_string (name l : list Z) : result bool :=
  match l with
  | [] => Err BadAccess
  | c :: l =>
      match name with
      | [] => Ok (bool_decide (c = 0))
      | d :: name => if decide (d = c) then same_string name l else Ok false
      end
  end.

(** The characters before the terminator. *)
Fixpoint string_of (l : list Z) : result (list Z) :=
  match l with
  | [] => Err BadAccess
  | c :: l => if decide (c = 0) then Ok [] else r ← string_of l; Ok (c :: r)
  end.

(** The field [name] of an entry, and the bytes that follow it. *)
Definition entry_name (e : list Z) : list Z := drop 4 e.

Definition set_entry_sector (sec : Z) (e : list Z) : list Z := splice e 0 (le_bytes 4 sec).
Definition set_entry_in_use (b : bool) (e : list Z) : list Z := splice e 19 [if b then 1 else 0].
(** [strlcpy (e.name, name, sizeof e.name)]. *)
Definition set_entry_name (name e : list Z) : list Z := splice e 4 (take (Z.to_nat NAME_MAX) name ++ [0]).

Section directory.
  Context {B : Type} `{BlockDevice B}.

Definition dir_create (sec entry_cnt : Z) : M (fs B) bool := inode_create sec (i32 (u32 (entry_cnt * ENTRY_SIZE))).

Definition dir_open (ip : Z) : M (fs B) Z :=
  p ← malloc;
  if decide (ip ≠ NULL ∧ p ≠ NULL) then modify (set_dirs (<[p := Dir ip 0]>));; mret p
  else inode_close ip;; mret NULL.

Definition dir_open_root : M (fs B) Z := ip ← inode_open ROOT_DIR_SECTOR; dir_open ip.

Definition dir_reopen (d : Z) : M (fs B) Z := dr ← rd_dir d; ip ← inode_reopen (dir_inode dr); dir_open ip.

Definition dir_close (d : Z) : M (fs B) unit :=
  if decide (d ≠ NULL) then
    dr ← rd_dir d; inode_close (dir_inode dr);; modify (set_dirs (delete d))
  else mret tt.

Definition dir_get_inode (d : Z) : M (fs B) Z := dr ← rd_dir d; mret (dir_inode dr).

(** The entry and its offset. *)
Fixpoint lookup_loop (fuel : nat) (ip : Z) (name : list Z) (ofs : Z) : M (fs B) (option (list Z * Z)) :=
  match fuel with
  | O => fail OutOfFuel
  | S fuel =>
      e ← inode_read_at ip ENTRY_SIZE (i32 ofs);
      if decide (Z.of_nat (length e) = ENTRY_SIZE) then
        same ← (if entry_in_use e then lift (same_string name (entry_name e)) else mret false);
        if (same : bool) then mret (Some (e, ofs)) else lookup_loop fuel ip name (u32 (ofs + ENTRY_SIZE))
      else mret None
  end.

(** Enough for every entry of the directory. *)
Definition entries_bound (ip : Z) : M (fs B) nat := n ← inode_length ip; mret (S (S (Z.to_nat (n / ENTRY_SIZE)))).

Definition dir_entry_lookup (d : Z) (name : list Z) : M (fs B) (option (list Z * Z)) :=
  assert (bool_decide (d ≠ NULL));;
  dr ← rd_dir d;
  n ← entries_bound (dir_inode dr);
  lookup_loop n (dir_inode dr) name 0.

(** The result is [*inode]; the function returns whether it is not null. *)
Definition dir_lookup (d : Z) (name : list Z) : M (fs B) Z :=
  assert (bool_decide (d ≠ NULL));;
  found ← dir_entry_lookup d name;
  match found with Some (e, _) => inode_open (entry_sector e) | None => mret NULL end.

(** The search for a free slot: the contents of [e] after it, and its offset.
    A short read replaces the first bytes of [e] only. *)
Fixpoint free_slot_loop (fuel : nat) (ip : Z) (e : list Z) (ofs : Z) : M (fs B) (list Z * Z) :=
  match fuel with
  | O => fail OutOfFuel
  | S fuel =>
      bs ← inode_read_at ip ENTRY_SIZE ofs;
      let e := bs ++ drop (length bs) e in
      if decide (Z.of_nat (length bs) = ENTRY_SIZE) then
        if entry_in_use e then free_slot_loop fuel ip e (i32 (ofs + ENTRY_SIZE)) else mret (e, ofs)
      else mret (e, ofs)
  end.

Definition dir_add (d : Z) (name : list Z) (inode_sector : Z) : M (fs B) bool :=
  assert (bool_decide (d ≠ NULL));;
  if decide (name = [] ∨ Z.of_nat (length name) > NAME_MAX) then mret false else
  found ← dir_entry_lookup d name;
  match found with
  | Some _ => mret false
  | None =>
      dr ← rd_dir d;
      n ← entries_bound (dir_inode dr);
      e ← gets stack;
      '(e, ofs) ← free_slot_loop n (dir_inode dr) e 0;
      let e := set_entry_sector inode_sector (set_entry_name name (set_entry_in_use true e)) in
      k ← inode_write_at (dir_inode dr) e ENTRY_SIZE ofs;
      mret (bool_decide (k = ENTRY_SIZE))
  end.

Definition dir_remove (d : Z) (name : list Z) : M (fs B) bool :=
  assert (bool_decide (d ≠ NULL));;
  found ← dir_entry_lookup d name;
  match found with
  | None => inode_close NULL;; mret false
  | Some (e, ofs) =>
      ip ← inode_open (entry_sector e);
      if decide (ip = NULL) then inode_close ip;; mret false else
      dr ← rd_dir d;
      k ← inode_write_at (dir_inode dr) (set_entry_in_use false e) ENTRY_SIZE (i32 ofs);
      if decide (k ≠ ENTRY_SIZE) then inode_close ip;; mret false else
      inode_remove ip;;
      inode_close ip;;
      mret true
  end.

(** The name that is stored in [NAME], [None] when there are no more
    entries. *)
Fixpoint readdir_loop (fuel : nat) (d : Z) : M (fs B) (option (list Z)) :=
  match fuel with
  | O => fail OutOfFuel
  | S fuel =>
      dr ← rd_dir d;
      e ← inode_read_at (dir_inode dr) ENTRY_SIZE (dir_pos dr);
      if decide (Z.of_nat (length e) = ENTRY_SIZE) then
        modify (set_dirs (<[d := Dir (dir_inode dr) (i32 (dir_pos dr + ENTRY_SIZE))]>));;
        if entry_in_use e then
          name ← lift (string_of (entry_name e)); mret (Some (take (Z.to_nat NAME_MAX) name))
        else readdir_loop fuel d
      else mret None
  end.

(** The position of the directory moves on. *)
Definition dir_readdir (d : Z) : M (fs B) (option (list Z)) :=
  dr ← rd_dir d; n ← entries_bound (dir_inode dr); readdir_loop n d.

End directory.
