(* ===== verification/Filesys.v ===== *)
(** * The file system

    filesys/filesys.c: initialisation, and creating, opening and removing
    files in the root directory. *)

From S2P Require Import Prelude Bitmap BlockDevice Inode FreeMap Directory.

Section filesys.
  Context {B : Type} `{BlockDevice B}.

Definition do_format : M (fs B) unit :=
  free_map_create;;
  ok ← dir_create ROOT_DIR_SECTOR 16;
  if negb ok then fail Panicked else free_map_close.

(** The device is the one with the role [BLOCK_FILESYS]; [None] when there is
    no such device. *)
Definition filesys_init (fs_device : option B) (junk : list Z) (format : bool) : M (fs B) unit :=
  match fs_device with
  | None => fail Panicked
  | Some d =>
      modify (set_device d);;
      inode_init;;
      free_map_init junk;;
      (if format then do_format else mret tt);;
      free_map_open
  end.

Definition filesys_done : M (fs B) unit := free_map_close.

Definition filesys_create (name : list Z) (initial_size : Z) : M (fs B) bool :=
  d ← dir_open_root;
  '(success, inode_sector) ←
    (if decide (d ≠ NULL) then
       a ← free_map_allocate 1;
       match a with
       | Some sec =>
           ok ← inode_create sec initial_size;
           if (ok : bool) then ok ← dir_add d name sec; mret (ok, sec) else mret (false, sec)
       | None => mret (false, 0)
       end
     else mret (false, 0));
  (if decide (success = false ∧ inode_sector ≠ 0) then free_map_release inode_sector 1 else mret tt);;
  dir_close d;;
  mret success.

Definition filesys_open (name : list Z) : M (fs B) Z :=
  d ← dir_open_root;
  ip ← (if decide (d ≠ NULL) then dir_lookup d name else mret NULL);
  dir_close d;;
  file_open ip.

Definition filesys_remove (name : list Z) : M (fs B) bool :=
  d ← dir_open_root;
  success ← (if decide (d ≠ NULL) then dir_remove d name else mret false);
  dir_close d;;
  mret success.

End filesys.
