(* ===== verification/FsInv.v ===== *)
(** * What the disk holds

    The inodes and the data on the device and the free map, with the files they
    describe: a map from the sector of an inode to the first sector and the length
    of its data.  Files do not overlap, and their sectors are marked in the free
    map.  This file has the invariant and what allocating and releasing sectors
    (filesys/free-map.c) and writing inside a file do to it. *)

From S2P Require Import Prelude Bitmap BlockDevice Inode FreeMap.

(** Sectors for [n] bytes. *)
Definition nsec (n : Z) : Z := (n + 511) / 512.

Lemma bytes_to_sectors_small n : 0 ≤ n ≤ 2 ^ 31 - 512 → bytes_to_sectors n = nsec n.
Proof.
  intros Hn. unfold bytes_to_sectors, nsec, BLOCK_SECTOR_SIZE. rewrite wraps_small by (unfold in_s; lia).
  rewrite Z.quot_div_nonneg by lia. apply wrapu_small. unfold in_u. replace (n + (512 - 1)) with (n + 511) by lia. dlia.
Qed.

Lemma bytes_to_sectors_large n : 2 ^ 31 - 512 < n < 2 ^ 31 → 2 ^ 31 ≤ bytes_to_sectors n.
Proof.
  intros Hn. unfold bytes_to_sectors, BLOCK_SECTOR_SIZE.
  assert (i32 (n + (512 - 1)) = n + 511 - 2 ^ 32) as ->.
  { rewrite <-(wraps_small 32 (n + 511 - 2 ^ 32)) by (unfold in_s; lia). apply wraps_cong.
    replace (n + 511 - 2 ^ 32) with (n + (512 - 1) + (-1) * 2 ^ 32) by lia. by rewrite Z.mod_add by lia. }
  assert (Z.quot (n + 511 - 2 ^ 32) 512 = - ((2 ^ 32 - n - 511) / 512)) as ->.
  { replace (n + 511 - 2 ^ 32) with (- (2 ^ 32 - n - 511)) by lia. rewrite Z.quot_opp_l, Z.quot_div_nonneg by lia. done. }
  assert (0 < (2 ^ 32 - n - 511) / 512 ≤ 2 ^ 30) by dlia. unfold wrapu.
  rewrite <-(Z.mod_add _ 1) by lia. rewrite Z.mod_small by lia. lia.
Qed.

Lemma nsec_range n : 0 ≤ n → 0 ≤ nsec n ∧ n ≤ 512 * nsec n.
Proof. unfold nsec. dlia. Qed.

(** The first sector of the data of a file, and its length. *)
Definition extent : Type := Z * Z.

(** The sectors of a file. *)
Definition owns (k : Z) (e : extent) (x : Z) : Prop := x = k ∨ e.1 ≤ x < e.1 + nsec e.2.

Definition inode_of (e : extent) : inode_disk := InodeDisk e.1 e.2 INODE_MAGIC (replicate 500 0).

Definition marked (m : bitmap) (x : Z) : Prop := bools m !! Z.to_nat x = Some true.

Record extent_ok (n k : Z) (e : extent) : Prop := {
  ext_inode : 0 ≤ k < n;
  ext_start : 0 ≤ e.1;
  ext_length : 0 ≤ e.2 ≤ 2 ^ 31 - 512;
  ext_end : e.1 + nsec e.2 ≤ n;
  ext_self : ¬ (e.1 ≤ k < e.1 + nsec e.2)
}.

Section disk.
  Context {B : Type} `{BlockDeviceLaws B}.
  Implicit Types (s : fs B) (d : B) (m : bitmap) (F : gmap Z extent).

Record disk_inv F d m : Prop := {
  di_dev : dev_wf d;
  di_size : dev_size d < 2 ^ 31;
  di_map : bitmap_wf m;
  di_cnt : bit_cnt m = dev_size d;
  di_ext k e : F !! k = Some e → extent_ok (dev_size d) k e;
  di_apart k1 e1 k2 e2 x : F !! k1 = Some e1 → F !! k2 = Some e2 → owns k1 e1 x → owns k2 e2 x → k1 = k2;
  di_marked k e x : F !! k = Some e → owns k e x → marked m x;
  di_inode k e : F !! k = Some e → slice (image d) (512 * k) 512 = encode_inode (inode_of e)
}.

(** The bytes of a file. *)
Definition file_bytes d (e : extent) : list Z := slice (image d) (512 * e.1) e.2.

Lemma disk_inv_image F d m d' :
  disk_inv F d m → dev_wf d' → dev_size d' = dev_size d →
  (∀ k e, F !! k = Some e → slice (image d') (512 * k) 512 = slice (image d) (512 * k) 512) → disk_inv F d' m.
Proof.
  intros [] Hd Hs Hi. split; rewrite ?Hs; try done. intros k e Ek. rewrite (Hi k e) by done. by apply di_inode0.
Qed.

Lemma disk_inv_map F d m m' :
  disk_inv F d m → bitmap_wf m' → bit_cnt m' = bit_cnt m →
  (∀ k e x, F !! k = Some e → owns k e x → marked m x → marked m' x) → disk_inv F d m'.
Proof. intros [] Hm Hc Hk. split; try done; [congruence|]. intros. by eapply Hk; eauto. Qed.

Lemma disk_inv_delete F d m k : disk_inv F d m → disk_inv (delete k F) d m.
Proof.
  intros []. split; try done.
  - intros j e [_ E]%lookup_delete_Some. by apply di_ext0.
  - intros k1 e1 k2 e2 x [_ E1]%lookup_delete_Some [_ E2]%lookup_delete_Some. by eapply di_apart0.
  - intros j e x [_ E]%lookup_delete_Some. by apply di_marked0.
  - intros j e [_ E]%lookup_delete_Some. by apply di_inode0.
Qed.

Lemma image_lengthZ F d m : disk_inv F d m → Z.of_nat (length (image d)) = 512 * dev_size d.
Proof. intros []. by apply dev_image_length. Qed.

Lemma extent_bytes F d m k e :
  disk_inv F d m → F !! k = Some e → 0 ≤ 512 * e.1 ∧ 512 * e.1 + e.2 ≤ 512 * (e.1 + nsec e.2) ∧
    512 * (e.1 + nsec e.2) ≤ Z.of_nat (length (image d)) ∧ 512 * k + 512 ≤ Z.of_nat (length (image d)).
Proof.
  intros Hi Ek. destruct (di_ext _ _ _ Hi _ _ Ek). rewrite (image_lengthZ _ _ _ Hi). pose proof (nsec_range e.2). lia.
Qed.

(** Ranges of bytes in sets of sectors that have none in common. *)
Lemma splice_apart (img bs : list Z) a st ns b n st' ns' :
  0 ≤ st → 0 ≤ st' → 512 * st ≤ a → a + Z.of_nat (length bs) ≤ 512 * (st + ns) → 512 * st' ≤ b → b + n ≤ 512 * (st' + ns') →
  a + Z.of_nat (length bs) ≤ Z.of_nat (length img) →
  (∀ x, st ≤ x < st + ns → st' ≤ x < st' + ns' → False) → slice (splice img a bs) b n = slice img b n.
Proof.
  intros Hst Hst' Ha Ha' Hb Hb' Hl Hx. destruct bs as [|c bs]; [by rewrite splice_nil|]. cbn [length] in *.
  destruct (decide (n ≤ 0)); [by rewrite !slice_nil|]. apply slice_splice_out; cbn [length]; [lia..|].
  destruct (decide (st ≤ st')); [pose proof (Hx st')|pose proof (Hx st)]; lia.
Qed.

(** Writing inside a file. *)
Lemma write_keeps_inodes F d m k e k' e' off bs :
  disk_inv F d m → F !! k = Some e → 0 ≤ off → off + Z.of_nat (length bs) ≤ e.2 → F !! k' = Some e' →
  slice (splice (image d) (512 * e.1 + off) bs) (512 * k') 512 = slice (image d) (512 * k') 512.
Proof.
  intros Hi Ek Ho Hb Ek'. pose proof (extent_bytes _ _ _ _ _ Hi Ek). destruct (di_ext _ _ _ Hi _ _ Ek), (di_ext _ _ _ Hi _ _ Ek').
  apply (splice_apart _ _ _ e.1 (nsec e.2) _ _ k' 1); [lia..|]. intros x Hx Hx'. assert (x = k') as -> by lia.
  assert (k = k') as -> by (apply (di_apart _ _ _ Hi k e k' e' k'); [done|done|by right|by left]). lia.
Qed.

Lemma write_keeps_data F d m k e k' e' off bs :
  disk_inv F d m → F !! k = Some e → 0 ≤ off → off + Z.of_nat (length bs) ≤ e.2 → F !! k' = Some e' → k' ≠ k →
  slice (splice (image d) (512 * e.1 + off) bs) (512 * e'.1) e'.2 = slice (image d) (512 * e'.1) e'.2.
Proof.
  intros Hi Ek Ho Hb Ek' Hne. pose proof (extent_bytes _ _ _ _ _ Hi Ek). pose proof (extent_bytes _ _ _ _ _ Hi Ek').
  destruct (di_ext _ _ _ Hi _ _ Ek), (di_ext _ _ _ Hi _ _ Ek').
  apply (splice_apart _ _ _ e.1 (nsec e.2) _ _ e'.1 (nsec e'.2)); [lia..|]. intros x Hx Hx'. destruct Hne.
  by apply (di_apart _ _ _ Hi k' e' k e x); [done|done|right..].
Qed.

Lemma write_changes_data F d m k e off bs :
  disk_inv F d m → F !! k = Some e → 0 ≤ off → off + Z.of_nat (length bs) ≤ e.2 →
  slice (splice (image d) (512 * e.1 + off) bs) (512 * e.1) e.2 = splice (file_bytes d e) off bs.
Proof.
  intros Hi Ek Ho Hb. pose proof (extent_bytes _ _ _ _ _ Hi Ek). unfold file_bytes. rewrite slice_splice_in by lia. f_equal. lia.
Qed.

(** ** Allocation *)

(** The device, the free map and the answers of [malloc] have changed. *)
Definition touched s (img : list Z) m s' : Prop :=
  ∃ d l, s' = set_free_map m (set_device d (set_answers l s)) ∧ l `suffix_of` answers s ∧
    dev_wf d ∧ dev_size d = dev_size (device s) ∧ image d = img.

Lemma updated_touched s img s' : updated s img s' → touched s img (free_map s) s'.
Proof. intros (d & l & -> & ?). by exists d, l. Qed.

Lemma touched_trans s1 s2 s3 img m img' m' : touched s1 img m s2 → touched s2 img' m' s3 → touched s1 img' m' s3.
Proof.
  intros (d1 & l1 & -> & Hl1 & Hd1 & Hs1 & Hi1) (d2 & l2 & -> & Hl2 & Hd2 & Hs2 & Hi2). exists d2, l2.
  cbn in *. split_and!; [done|by etrans|done|congruence|done].
Qed.

Lemma touched_map s m : dev_wf (device s) → touched s (image (device s)) m (set_free_map m s).
Proof. intros. exists (device s), (answers s). split; [by destruct s|done]. Qed.

Lemma touched_wf s img m s' :
  touched s img m s' → dev_wf (device s') ∧ dev_size (device s') = dev_size (device s) ∧ image (device s') = img ∧ free_map s' = m.
Proof. by intros (d & l & -> & _ & ? & ? & ?). Qed.

(** The data of the files of [F] other than [k0] are the same. *)
Definition data_kept F (k0 : Z) d d' : Prop := ∀ k e, F !! k = Some e → k ≠ k0 → file_bytes d' e = file_bytes d e.

Lemma data_kept_trans F k0 d1 d2 d3 : data_kept F k0 d1 d2 → data_kept F k0 d2 d3 → data_kept F k0 d1 d3.
Proof. intros H1 H2 k e Ek Hk. rewrite (H2 k e), (H1 k e); done. Qed.

(** Writing inside file [k]. *)
Lemma disk_inv_write F s k e off bs s' m :
  disk_inv F (device s) (free_map s) → F !! k = Some e → 0 ≤ off → off + Z.of_nat (length bs) ≤ e.2 →
  touched s (splice (image (device s)) (512 * e.1 + off) bs) m s' → m = free_map s →
  disk_inv F (device s') (free_map s') ∧ data_kept F k (device s) (device s') ∧
  file_bytes (device s') e = splice (file_bytes (device s) e) off bs.
Proof.
  intros Hi Ek Ho Hb Ht ->. destruct (touched_wf _ _ _ _ Ht) as (Hd & Hs & Him & Hm). rewrite Hm. split_and!.
  - apply (disk_inv_image _ (device s)); [done..|]. rewrite Him. intros k' e' Ek'. by eapply write_keeps_inodes.
  - intros k' e' Ek' Hne. unfold file_bytes. rewrite Him. by eapply write_keeps_data.
  - unfold file_bytes at 1. rewrite Him. by eapply write_changes_data.
Qed.

(** The file that holds the free map is open. *)
Definition map_file (e0 : extent) s : Prop :=
  free_map_file s ≠ NULL ∧
  ∃ fl i, files s !! free_map_file s = Some fl ∧ inodes s !! file_inode fl = Some i ∧ data i = inode_of e0.

(** The free map can be stored. *)
Definition map_writable (e0 : extent) s : Prop :=
  byte_cnt (bit_cnt (free_map s)) ≤ e0.2 ∧
  ∀ fl i, files s !! free_map_file s = Some fl → inodes s !! file_inode fl = Some i → deny_write_cnt i = 0.

Lemma extent_data_ok F d m k e : disk_inv F d m → F !! k = Some e → data_ok (dev_size d) (inode_of e).
Proof. intros Hi Ek. destruct (di_ext _ _ _ Hi _ _ Ek). unfold data_ok. cbn. fold (nsec e.2). lia. Qed.

Lemma rd_file_ok s f fl : files s !! f = Some fl → rd_file f s = Ok (fl, s).
Proof. unfold rd_file. by intros ->. Qed.

Lemma take_lengthZ {A} n (l : list A) : 0 ≤ n → Z.of_nat (length (take (Z.to_nat n) l)) ≤ n.
Proof. intros. rewrite length_take. lia. Qed.

Lemma write_free_map_ok F s e0 :
  disk_inv F (device s) (free_map s) → F !! 0 = Some e0 → map_file e0 s →
  ∃ ok s' bs, write_free_map s = Ok (ok, s') ∧
    touched s (splice (image (device s)) (512 * e0.1) bs) (free_map s) s' ∧ Z.of_nat (length bs) ≤ e0.2 ∧
    (ok = true ∧ bs = elem_bytes (bits (free_map s)) ∨ ¬ map_writable e0 s ∨ starved s).
Proof.
  intros Hi Ek (Hn & fl & i & Ef & Ei & Ed). pose proof (ext_length _ _ _ (di_ext _ _ _ Hi _ _ Ek)). unfold write_free_map, bitmap_write, file_write_at.
  rewrite (bind_ok _ _ _ _ s eq_refl), (bind_ok _ _ _ _ s eq_refl).
  destruct (bitmap_bytes _ (di_map _ _ _ Hi)) as (Hl & Hlt & ->).
  pose proof (extent_data_ok _ _ _ _ _ Hi Ek) as Hok. rewrite <-Ed in Hok.
  destruct (inode_write_at_ok s (file_inode fl) i (elem_bytes (bits (free_map s))) (byte_cnt (bit_cnt (free_map s))) 0
    (di_dev _ _ _ Hi) Ei Hok) as (n & s' & E & Hu & Hn' & Hx); [lia..|].
  rewrite bind_assoc, (bind_ok _ _ _ _ _ (rd_file_ok _ _ _ Ef)), (bind_ok _ _ _ _ _ E).
  eexists _, s', _. split; [done|]. unfold available in *. rewrite Ed in Hu, Hn', Hx. cbn in Hu, Hn', Hx.
  rewrite Z.add_0_r in Hu. split_and!; [by apply updated_touched|pose proof (take_lengthZ n (elem_bytes (bits (free_map s)))); lia|].
  case_decide as Hdeny; [|right; left; intros [_ Hw]; apply Hdeny; by eapply Hw].
  destruct Hx as [->|[? _]]; [|by right; right]. destruct (decide (byte_cnt (bit_cnt (free_map s)) ≤ e0.2)) as [Hb|Hb].
  - left. split; [apply bool_decide_eq_true_2; lia|]. apply take_ge. lia.
  - right. left. by intros [? _].
Qed.

Lemma on_free_map_ok {A} (f : M bitmap A) s a m : f (free_map s) = Ok (a, m) → on_free_map f s = Ok (a, set_free_map m s).
Proof. apply zoom_ok. Qed.

Lemma starved_map s m : starved (set_free_map m s) ↔ starved s.
Proof. unfold starved, malloc, in_use, objects. cbn. by destruct (answers s). Qed.

Lemma set_range_marked i n l x : set_range i n true l !! x = Some true ↔ l !! x = Some true ∨ (i ≤ x < i + n)%nat ∧ is_Some (l !! x).
Proof.
  rewrite set_range_lookup. destruct (l !! x) as [b|]; [|by split; [|intros [|[_ []]]]].
  case_decide; cbn; naive_solver.
Qed.

Lemma set_range_undo i n l : (∀ x, (i ≤ x < i + n)%nat → l !! x = Some false) → set_range i n false (set_range i n true l) = l.
Proof.
  intros Hf. apply list_eq. intros x. rewrite !set_range_lookup. case_decide as Hx; [by rewrite Hf|]. by destruct (l !! x).
Qed.

Lemma group_free n l i x : is_group n false l i → (i ≤ x < i + n)%nat → l !! x = Some false.
Proof.
  intros [Hl Hn] Hx. destruct (lookup_lt_is_Some_2 l x) as [b E]; [lia|]. destruct b; [|done]. destruct Hn.
  apply elem_of_range. eauto.
Qed.

Lemma bools_lengthZ F d m : disk_inv F d m → Z.of_nat (length (bools m)) = dev_size d.
Proof. intros Hi. rewrite bools_length, (di_cnt _ _ _ Hi). pose proof (dev_size_range _ (di_dev _ _ _ Hi)). lia. Qed.

(** The result of a search for [cnt] free sectors. *)
Definition allocated (cnt : Z) m (r : option Z) m' : Prop :=
  match r with
  | Some st => ∃ i, st = Z.of_nat i ∧ is_group (Z.to_nat cnt) false (bools m) i ∧ bools m' = set_range i (Z.to_nat cnt) true (bools m)
  | None => bools m' = bools m
  end.

(** The free map is not stored, or in a file that is open. *)
Definition map_ready F (e0 : extent) s : Prop := free_map_file s = NULL ∨ F !! 0 = Some e0 ∧ map_file e0 s.

Lemma disk_inv_grow F d m m' :
  disk_inv F d m → bitmap_wf m' → length (bools m') = length (bools m) →
  (∀ x, bools m !! x = Some true → bools m' !! x = Some true) → disk_inv F d m'.
Proof.
  intros Hi Hm Hl Hx. apply (disk_inv_map _ _ m); [done..| |]; [|intros ? ? ? _ _; apply Hx].
  apply bools_cnt; [apply Hi|done|done].
Qed.

(** The file of the free map holds the bits of the free map. *)
Definition synced (e0 : extent) d m : Prop :=
  ∃ b, bitmap_wf b ∧ bit_cnt b = bit_cnt m ∧ bools b = bools m ∧
    slice (image d) (512 * e0.1) (byte_cnt (bit_cnt m)) = elem_bytes (bits b).

Lemma synced_bools e0 d d' m m' : image d' = image d → bit_cnt m' = bit_cnt m → bools m' = bools m → synced e0 d m → synced e0 d' m'.
Proof. intros Hi Hc Hb (b & ? & ? & ? & E). exists b. by rewrite Hi, Hc, Hb. Qed.

(** The free map has just been stored. *)
Lemma synced_written F s m s' k e0 :
  disk_inv F (device s) m → F !! k = Some e0 → byte_cnt (bit_cnt m) ≤ e0.2 →
  touched s (splice (image (device s)) (512 * e0.1) (elem_bytes (bits m))) m s' → synced e0 (device s') m.
Proof.
  intros Hi Ek Hb Ht. destruct (touched_wf _ _ _ _ Ht) as (_ & _ & Him & _). exists m. split_and!; [apply Hi|done..|].
  destruct (bitmap_bytes _ (di_map _ _ _ Hi)) as (Hl & _ & _). rewrite Him, <-Hl. pose proof (extent_bytes _ _ _ _ _ Hi Ek).
  apply slice_splice_eq; lia.
Qed.

(** What an operation that stores the free map does to its file. *)
Definition keeps_synced (e0 : extent) s s' : Prop :=
  ¬ map_writable e0 s ∨ starved s ∨ free_map_file s = NULL ∨
  (synced e0 (device s) (free_map s) → synced e0 (device s') (free_map s')).

Lemma free_map_allocate_ok F e0 s cnt :
  disk_inv F (device s) (free_map s) → map_ready F e0 s → 0 ≤ cnt →
  ∃ r s' img m', free_map_allocate cnt s = Ok (r, s') ∧ touched s img m' s' ∧
    disk_inv F (device s') (free_map s') ∧ data_kept F 0 (device s) (device s') ∧ allocated cnt (free_map s) r m' ∧
    (r = None → first_group 0 (Z.to_nat cnt) false (bools (free_map s)) = None ∨ ¬ map_writable e0 s ∨ starved s) ∧
    keeps_synced e0 s s'.
Proof.
  intros Hi Hr Hc. unfold free_map_allocate. destruct (scan_and_flip_run 0 (Z.to_nat cnt) false (free_map s)) as (m1 & E1 & Hm1 & Hb1);
    [apply Hi|lia|]. rewrite Z2Nat.id in E1 by done. change (Z.of_nat 0) with 0 in E1.
  rewrite (bind_ok _ _ _ _ _ (on_free_map_ok _ _ _ _ E1)). rewrite (bind_ok _ _ _ (free_map_file s) (set_free_map m1 s)) by done.
  destruct (first_group 0 (Z.to_nat cnt) false (bools (free_map s))) as [i|] eqn:Eg.
  2: { unfold index. rewrite decide_False by tauto. rewrite ret_bind, ret_bind, decide_False by tauto.
    assert (disk_inv F (device s) m1) as Hi1 by (apply (disk_inv_grow _ _ (free_map s)); [done..|by rewrite Hb1|by rewrite Hb1]).
    eexists None, _, _, m1. split; [done|]. split_and!; [apply touched_map, Hi|done|done|done|by left|].
    do 3 right. apply synced_bools; [done| |done]. cbn. apply bools_cnt; [apply Hi|done|by rewrite Hb1]. }
  pose proof (group_index _ _ _ _ _ (di_map _ _ _ Hi) Eg) as Hidx. apply first_group_Some in Eg as [[_ Hg] _].
  set (s1 := set_free_map m1 s). cbn [negb] in Hb1.
  assert (disk_inv F (device s1) (free_map s1)) as Hi1.
  { apply (disk_inv_grow _ _ (free_map s)); cbn; [done..|by rewrite Hb1, set_range_length|]. intros x Hx. rewrite Hb1. apply set_range_marked. by left. }
  assert (bit_cnt m1 = bit_cnt (free_map s)) as Hm1c by (apply bools_cnt; [apply Hi|done|by rewrite Hb1, set_range_length]).
  assert (map_writable e0 s → map_writable e0 s1) as Hw1 by (intros [Hw1 Hw2]; split; [cbn; by rewrite Hm1c|done]).
  assert (touched s (image (device s)) m1 s1) as Ht1 by apply touched_map, Hi.
  assert (allocated cnt (free_map s) (Some (index (Some i))) m1) as Ha by by exists i.
  destruct (decide (free_map_file s = NULL)) as [Hnull|Hnn].
  { rewrite decide_False by tauto. rewrite ret_bind, ret_bind, decide_True by done.
    eexists _, s1, _, m1. split; [done|]. split_and!; [done|done|done|done|done|]. by do 2 right; left. }
  destruct Hr as [?|[Ek Hf]]; [done|]. rewrite decide_True by done.
  destruct (write_free_map_ok F s1 e0 Hi1 Ek Hf) as (ok & s2 & bs & E2 & Ht2 & Hbs & Hx).
  rewrite bind_assoc, (bind_ok _ _ _ _ _ E2), ret_bind.
  assert (touched s1 (splice (image (device s1)) (512 * e0.1 + 0) bs) (free_map s1) s2) as Ht2' by by rewrite Z.add_0_r.
  destruct (disk_inv_write F s1 0 e0 0 bs s2 _ Hi1 Ek ltac:(lia) Hbs Ht2' eq_refl) as (Hi2 & Hk2 & _).
  destruct ok; cbn [negb].
  - rewrite ret_bind, decide_True by done. eexists _, s2, _, m1. split; [done|]. split_and!; [exact (touched_trans _ _ _ _ _ _ _ Ht1 Ht2)|exact Hi2|exact Hk2|exact Ha|done|].
    destruct Hx as [[_ ->]|[Hx|Hx]]; [|by left; intros Hw; apply Hx, Hw1|right; left; by apply starved_map in Hx].
    destruct (decide (byte_cnt (bit_cnt m1) ≤ e0.2)) as [Hle|Hle]; [|left; intros [Hw _]; by rewrite Hm1c in Hle].
    do 3 right. intros _. destruct (touched_wf _ _ _ _ Ht2) as (_ & _ & _ & ->). by apply (synced_written F s1 (free_map s1) s2 0).
  - destruct (touched_wf _ _ _ _ Ht2) as (_ & _ & _ & Em2). change (free_map s1) with m1 in Em2. rewrite Em2 in Hi2.
    pose proof (set_multiple_run i (Z.to_nat cnt) false m1 Hm1) as Hs. pose proof (bools_lengthZ _ _ _ Hi) as Hl.
    pose proof (proj1 Hg) as Hle. pose proof (di_size _ _ _ Hi). rewrite Hb1, set_range_length, decide_True in Hs by done.
    destruct Hs as (m2 & E3 & Hm2 & Hb2); [lia|]. rewrite Z2Nat.id in E3 by done. rewrite set_range_undo in Hb2 by (intros; by eapply group_free).
    rewrite bind_assoc. rewrite <-Em2 in E3. rewrite (bind_ok _ _ _ _ _ (on_free_map_ok _ _ _ _ E3)), ret_bind, decide_False by tauto.
    eexists None, _, _, m2. split; [done|]. split_and!.
    + apply (touched_trans _ _ _ _ _ _ _ Ht1), (touched_trans _ _ _ _ _ _ _ Ht2), touched_map. by destruct Hi2.
    + cbn. apply (disk_inv_map _ _ m1); [done..| |].
      * by rewrite (bools_cnt (free_map s) m1), (bools_cnt (free_map s) m2) by (done || apply Hi || by rewrite ?Hb1, ?Hb2, ?set_range_length).
      * intros k e x Ek' Ho _. unfold marked. rewrite Hb2. by eapply (di_marked _ _ _ Hi).
    + exact Hk2.
    + exact Hb2.
    + intros _. right. destruct Hx as [[? _]|Hx]; [done|]. destruct Hx as [Hx|Hx]; [left|right; by apply starved_map in Hx].
      intros Hw. by apply Hx, Hw1.
    + destruct Hx as [[? _]|[Hx|Hx]]; [done|by left; intros Hw; apply Hx, Hw1|right; left; by apply starved_map in Hx].
Qed.

Lemma free_map_release_ok F e0 s sec cnt :
  disk_inv F (device s) (free_map s) → F !! 0 = Some e0 → map_file e0 s → 0 ≤ sec → 0 ≤ cnt → sec + cnt ≤ dev_size (device s) →
  (∀ x, sec ≤ x < sec + cnt → marked (free_map s) x) →
  (∀ k e x, F !! k = Some e → owns k e x → ¬ (sec ≤ x < sec + cnt)) →
  ∃ s' img m', free_map_release sec cnt s = Ok (tt, s') ∧ touched s img m' s' ∧
    disk_inv F (device s') (free_map s') ∧ data_kept F 0 (device s) (device s') ∧
    bools m' = set_range (Z.to_nat sec) (Z.to_nat cnt) false (bools (free_map s)) ∧ keeps_synced e0 s s'.
Proof.
  intros Hi Ek Hf Hsec Hcnt Hend Hmk Hown. unfold free_map_release, bitmap_all.
  pose proof (bools_lengthZ _ _ _ Hi) as Hl. pose proof (di_size _ _ _ Hi) as Hsz.
  pose proof (contains_run (Z.to_nat sec) (Z.to_nat cnt) false (free_map s) (di_map _ _ _ Hi)) as Ec.
  rewrite decide_True, !Z2Nat.id in Ec by lia. specialize (Ec ltac:(lia)). rewrite bool_decide_eq_false_2 in Ec.
  2: { rewrite elem_of_range. intros (j & Hj & E). specialize (Hmk (Z.of_nat j) ltac:(lia)). unfold marked in Hmk. rewrite Nat2Z.id in Hmk. congruence. }
  rewrite (bind_ok (on_free_map _) _ s true s).
  2: { etrans; [apply (on_free_map_ok _ _ true (free_map s)); by rewrite (bind_ok _ _ _ _ _ Ec)|by destruct s]. }
  rewrite (bind_ok _ _ _ tt s) by done.
  pose proof (set_multiple_run (Z.to_nat sec) (Z.to_nat cnt) false (free_map s) (di_map _ _ _ Hi)) as Hs.
  rewrite decide_True, !Z2Nat.id in Hs by lia. destruct Hs as (m1 & E1 & Hm1 & Hb1); [lia|].
  rewrite (bind_ok _ _ _ _ _ (on_free_map_ok _ _ _ _ E1)). set (s1 := set_free_map m1 s).
  assert (bit_cnt m1 = bit_cnt (free_map s)) as Hm1c by (apply bools_cnt; [apply Hi|done|by rewrite Hb1, set_range_length]).
  assert (disk_inv F (device s1) (free_map s1)) as Hi1.
  { apply (disk_inv_map _ _ (free_map s)); cbn; [done..|]. intros k e x Ek' Ho Hx. unfold marked in *. cbn. rewrite Hb1, set_range_lookup, Hx.
    cbn. rewrite decide_False; [done|]. intros Hr. apply (Hown k e x Ek' Ho). pose proof (di_ext _ _ _ Hi _ _ Ek') as [].
    assert (0 ≤ x) by (destruct Ho; lia). lia. }
  assert (map_writable e0 s → map_writable e0 s1) as Hw1 by (intros [Hw1 Hw2]; split; [cbn; by rewrite Hm1c|done]).
  destruct (write_free_map_ok F s1 e0 Hi1 Ek Hf) as (ok & s2 & bs & E2 & Ht2 & Hbs & Hx). rewrite (bind_ok _ _ _ _ _ E2).
  assert (touched s1 (splice (image (device s1)) (512 * e0.1 + 0) bs) (free_map s1) s2) as Ht2' by by rewrite Z.add_0_r.
  destruct (disk_inv_write F s1 0 e0 0 bs s2 _ Hi1 Ek ltac:(lia) Hbs Ht2' eq_refl) as (Hi2 & Hk2 & _).
  eexists s2, _, m1. split; [done|]. split_and!; [|exact Hi2|exact Hk2|exact Hb1|].
  - exact (touched_trans _ _ _ _ _ _ _ (touched_map s m1 (di_dev _ _ _ Hi)) Ht2).
  - destruct Hx as [[_ ->]|[Hx|Hx]]; [|by left; intros Hw; apply Hx, Hw1|right; left; by apply starved_map in Hx].
    destruct (decide (byte_cnt (bit_cnt m1) ≤ e0.2)) as [Hle|Hle]; [|left; intros [Hw _]; by rewrite Hm1c in Hle].
    do 3 right. intros _. destruct (touched_wf _ _ _ _ Ht2) as (_ & _ & _ & ->). by apply (synced_written F s1 (free_map s1) s2 0).
Qed.

(** ** Memory *)

(** All the answers of [malloc] to come are good. *)
Definition ample s : Prop :=
  NoDup (answers s) ∧ (∀ a, a ∈ answers s → pointer a ∧ ¬ in_use s a) ∧ objects s + Z.of_nat (length (answers s)) < 2 ^ 28.

(** Memory has not run out from [s] to [s']. *)
Definition fine s s' : Prop := ample s ∧ answers s' ≠ [].

Lemma ample_not_starved s : ample s → answers s ≠ [] → ¬ starved s.
Proof.
  intros (_ & Ha & Ho) Hne. unfold starved, malloc. destruct (answers s) as [|a l] eqn:E; [done|].
  destruct (Ha a) as [Hn Hu]; [by left|]. cbn in Ho. unfold pointer, NULL in *. rewrite decide_False; [lia|]. intros [|[|]]; [done|lia|done].
Qed.

Lemma ample_suffix s s' :
  ample s → answers s' `suffix_of` answers s → inodes s' = inodes s → files s' = files s → dirs s' = dirs s → ample s'.
Proof.
  intros (Hn & Ha & Ho) [l El] Ei Ef Ed. rewrite El in Hn, Ha, Ho. unfold ample, in_use, objects in *. rewrite Ei, Ef, Ed.
  apply NoDup_app in Hn as (_ & _ & Hn). rewrite length_app in Ho. split_and!; [done| |lia]. intros a Hin. apply Ha. apply elem_of_app. by right.
Qed.

Lemma touched_same s img m s' :
  touched s img m s' → answers s' `suffix_of` answers s ∧ inodes s' = inodes s ∧ files s' = files s ∧ dirs s' = dirs s ∧
    open_inodes s' = open_inodes s ∧ free_map_file s' = free_map_file s ∧ stack s' = stack s.
Proof. by intros (d & l & -> & Hl & _). Qed.

Lemma ample_touched s img m s' : touched s img m s' → ample s → ample s'.
Proof. intros (Ha & Ei & Ef & Ed & _)%touched_same. intros Hs. by apply (ample_suffix s). Qed.

Lemma suffix_nonempty {A} (l l' : list A) : l `suffix_of` l' → l ≠ [] → l' ≠ [].
Proof. intros [k ->] Hl Hn. by apply app_eq_nil in Hn as [_ ?]. Qed.

Lemma fine_not_starved s img m s1 s' : fine s s' → touched s img m s1 → answers s' `suffix_of` answers s1 → ¬ starved s1.
Proof.
  intros [Ha Hn] Ht Hs. apply ample_not_starved; [by eapply ample_touched|by eapply suffix_nonempty].
Qed.

Lemma map_writable_touched e0 s img m s' : touched s img m s' → bit_cnt m = bit_cnt (free_map s) → map_writable e0 s ↔ map_writable e0 s'.
Proof. intros (d & l & -> & _) E. unfold map_writable. cbn. by rewrite E. Qed.

(** ** Creation of an inode *)

Lemma write_zeros_ok n st i s :
  dev_wf (device s) → 0 ≤ st → 0 ≤ i → st + i + Z.of_nat n ≤ dev_size (device s) →
  ∃ s', write_zeros n st i s = Ok (tt, s') ∧
    updated s (splice (image (device s)) (512 * (st + i)) (replicate (Z.to_nat (512 * Z.of_nat n)) 0)) s' ∧ answers s' = answers s.
Proof.
  revert s i. induction n as [|n IH]; intros s i Hd Hst Hi Hend.
  { exists s. split_and!; [done| |done]. change (replicate (Z.to_nat (512 * Z.of_nat 0)) 0) with (@nil Z). rewrite splice_nil. by apply updated_refl. }
  cbn [write_zeros]. pose proof (dev_size_range _ Hd). rewrite wrapu_small by (unfold in_u; lia).
  destruct (dev_write_updated s (st + i) (replicate (Z.to_nat BLOCK_SECTOR_SIZE) 0) Hd) as (s1 & E1 & Hu1 & Ha1); [lia|lia|by rewrite length_replicate|].
  rewrite (bind_ok _ _ _ _ _ E1). destruct (updated_wf _ _ _ Hu1) as [Hd1 Hi1]. pose proof (updated_size _ _ _ Hu1) as Hs1.
  destruct (IH s1 (i + 1) Hd1) as (s2 & E2 & Hu2 & Ha2); [lia..|]. exists s2. split_and!; [done| |congruence].
  replace (Z.to_nat (512 * Z.of_nat (S n))) with (512 + Z.to_nat (512 * Z.of_nat n))%nat by lia. rewrite replicate_add.
  pose proof (dev_image_length _ Hd) as Hl. unfold BLOCK_SECTOR_SIZE in Hl.
  rewrite <-splice_app by (rewrite ?length_replicate; lia). rewrite Hi1 in Hu2. rewrite length_replicate.
  replace (512 * (st + i) + Z.of_nat 512) with (512 * (st + (i + 1))) by lia. by eapply updated_trans.
Qed.

(** A sector that is marked but part of no file. *)
Definition reserved F s (sec : Z) : Prop :=
  0 ≤ sec < dev_size (device s) ∧ marked (free_map s) sec ∧ ∀ k e, F !! k = Some e → ¬ owns k e sec.

(** Writing outside of all files. *)
Lemma disk_inv_outside F s m st ns bs s' :
  disk_inv F (device s) (free_map s) → 0 ≤ st → st + ns ≤ dev_size (device s) → Z.of_nat (length bs) = 512 * ns →
  (∀ k e x, F !! k = Some e → owns k e x → ¬ (st ≤ x < st + ns)) →
  touched s (splice (image (device s)) (512 * st) bs) m s' → m = free_map s →
  disk_inv F (device s') (free_map s') ∧ ∀ k e, F !! k = Some e → file_bytes (device s') e = file_bytes (device s) e.
Proof.
  intros Hi Hst Hend Hbs Ho Ht ->. destruct (touched_wf _ _ _ _ Ht) as (Hd & Hs & Him & Hm). rewrite Hm.
  pose proof (image_lengthZ _ _ _ Hi) as Hl. split.
  - apply (disk_inv_image _ (device s)); [done..|]. rewrite Him. intros k e Ek. destruct (di_ext _ _ _ Hi _ _ Ek).
    apply (splice_apart _ _ _ st ns _ _ k 1); [lia..|]. intros x Hx Hx'. apply (Ho k e x); [done|left; lia|done].
  - intros k e Ek. unfold file_bytes. rewrite Him. pose proof (extent_bytes _ _ _ _ _ Hi Ek). destruct (di_ext _ _ _ Hi _ _ Ek).
    apply (splice_apart _ _ _ st ns _ _ e.1 (nsec e.2)); [lia..|]. intros x Hx Hx'. by apply (Ho k e x); [done|right|].
Qed.

Lemma disk_inv_insert F d m sec e :
  disk_inv F d m → extent_ok (dev_size d) sec e → (∀ x, owns sec e x → marked m x) →
  (∀ k e' x, F !! k = Some e' → owns k e' x → ¬ owns sec e x) →
  slice (image d) (512 * sec) 512 = encode_inode (inode_of e) → disk_inv (<[sec := e]> F) d m.
Proof.
  intros [] He Hm Ho Hi. split; try done.
  - intros k e' [[<- <-]|[_ E]]%lookup_insert_Some; [done|by apply di_ext0].
  - intros k1 e1 k2 e2 x [[<- <-]|[_ E1]]%lookup_insert_Some [[<- <-]|[_ E2]]%lookup_insert_Some H1 H2; [done| | |by eapply di_apart0].
    + by destruct (Ho _ _ _ E2 H2).
    + by destruct (Ho _ _ _ E1 H1).
  - intros k e' x [[<- <-]|[_ E]]%lookup_insert_Some; [apply Hm|by apply di_marked0].
  - intros k e' [[<- <-]|[_ E]]%lookup_insert_Some; [done|by apply di_inode0].
Qed.

Lemma synced_data e0 d d' m :
  file_bytes d' e0 = file_bytes d e0 → 0 ≤ e0.1 → byte_cnt (bit_cnt m) ≤ e0.2 → synced e0 d m → synced e0 d' m.
Proof.
  intros Hf He Hb (b & Hwf & Hc & Hbo & E). exists b. split_and!; [done..|]. rewrite <-E. unfold file_bytes in Hf.
  rewrite <-(Z.add_0_r (512 * e0.1)), <-(slice_slice _ _ e0.2), Hf, slice_slice by lia. done.
Qed.

(** A freshly allocated range: marked now, and in no file. *)
Lemma allocated_fresh F d m m' cnt st :
  disk_inv F d m → 0 ≤ cnt → allocated cnt m (Some st) m' →
  0 ≤ st ∧ st + cnt ≤ dev_size d ∧ (∀ x, st ≤ x < st + cnt → marked m' x ∧ ¬ marked m x) ∧
  (∀ x, marked m x → marked m' x) ∧ (∀ k e x, F !! k = Some e → owns k e x → ¬ (st ≤ x < st + cnt)).
Proof.
  intros Hi Hc (i & -> & Hg & Hb). pose proof (bools_lengthZ _ _ _ Hi) as Hl. pose proof (proj1 Hg).
  assert (∀ x, Z.of_nat i ≤ x < Z.of_nat i + cnt → bools m !! Z.to_nat x = Some false) as Hf.
  { intros x Hx. eapply group_free; [done|lia]. }
  split_and!; [lia|lia| | |].
  - intros x Hx. specialize (Hf x Hx). unfold marked. rewrite Hb. split; [|congruence]. apply set_range_marked. right. split; [lia|eauto].
  - intros x Hx. unfold marked in *. rewrite Hb. apply set_range_marked. by left.
  - intros k e x Ek Ho Hx. pose proof (di_marked _ _ _ Hi _ _ _ Ek Ho) as Hm. unfold marked in Hm. rewrite Hf in Hm by done. done.
Qed.

Lemma inode_of_ok n k e : extent_ok n k e → n < 2 ^ 32 → Inode.disk_ok (inode_of e).
Proof.
  intros [] Hn. pose proof (nsec_range e.2). unfold Inode.disk_ok, in_u, in_s, inode_of, INODE_MAGIC. cbn [start disk_length magic unused].
  rewrite length_replicate. lia.
Qed.

(** Storing a new inode and clearing its data. *)
Lemma new_file_ok F s sec st len :
  disk_inv F (device s) (free_map s) → 0 ≤ len ≤ 2 ^ 31 - 512 →
  let e := (st, len) in
  extent_ok (dev_size (device s)) sec e → (∀ x, owns sec e x → marked (free_map s) x) →
  (∀ k e' x, F !! k = Some e' → owns k e' x → ¬ owns sec e x) →
  ∃ s', (on_device (dev_write sec (encode_inode (inode_of e)));;
      (if decide (nsec len > 0) then write_zeros (Z.to_nat (nsec len)) st 0 else mret tt)) s = Ok (tt, s') ∧
    (∃ img, touched s img (free_map s) s') ∧ answers s' = answers s ∧
    disk_inv (<[sec := e]> F) (device s') (free_map s') ∧ file_bytes (device s') e = replicate (Z.to_nat len) 0 ∧
    ∀ k e', F !! k = Some e' → file_bytes (device s') e' = file_bytes (device s) e'.
Proof.
  intros Hi Hlen e He Hm Ho. pose proof (di_dev _ _ _ Hi) as Hd. pose proof (di_size _ _ _ Hi) as Hsz. pose proof (nsec_range len (proj1 Hlen)) as Hns.
  pose proof (inode_of_ok _ _ _ He ltac:(lia)) as Hdk. pose proof He as [Hsec Hst _ Hend Hself]. cbn in Hst, Hend, Hself.
  pose proof (encode_inode_length _ Hdk) as Henc. unfold BLOCK_SECTOR_SIZE in Henc.
  destruct (dev_write_updated s sec (encode_inode (inode_of e)) Hd) as (s1 & E1 & Hu1 & Ha1); [lia..|done|].
  rewrite (bind_ok _ _ _ _ _ E1). apply updated_touched in Hu1 as Ht1. destruct (touched_wf _ _ _ _ Ht1) as (Hd1 & Hs1 & Hi1 & Hm1).
  destruct (disk_inv_outside F s (free_map s) sec 1 (encode_inode (inode_of e)) s1 Hi) as [Hinv1 Hk1]; [lia..| |done|done|].
  { intros k e' x Ek Hown Hx. apply (Ho k e' x Ek Hown). left. lia. }
  assert (∃ s2, (if decide (nsec len > 0) then write_zeros (Z.to_nat (nsec len)) st 0 else mret tt) s1 = Ok (tt, s2) ∧
    updated s1 (splice (image (device s1)) (512 * st) (replicate (Z.to_nat (512 * nsec len)) 0)) s2 ∧ answers s2 = answers s1)
    as (s2 & E2 & Hu2 & Ha2).
  { destruct (decide (nsec len > 0)).
    - destruct (write_zeros_ok (Z.to_nat (nsec len)) st 0 s1 Hd1) as (s2 & E2 & Hu2 & Ha2); [lia..|].
      rewrite Z.add_0_r, Z2Nat.id in Hu2 by lia. eauto.
    - exists s1. replace (nsec len) with 0 by lia. change (replicate (Z.to_nat (512 * 0)) 0) with (@nil Z). rewrite splice_nil.
      split_and!; [done|by apply updated_refl|done]. }
  rewrite E2. exists s2. split; [done|]. apply updated_touched in Hu2 as Ht2. destruct (touched_wf _ _ _ _ Ht2) as (Hd2 & Hs2 & Hi2 & Hm2).
  destruct (disk_inv_outside F s1 (free_map s1) st (nsec len) (replicate (Z.to_nat (512 * nsec len)) 0) s2 Hinv1) as [Hinv2 Hk2];
    [lia|lia|rewrite length_replicate; lia| |done|done|].
  { intros k e' x Ek Hown Hx. apply (Ho k e' x Ek Hown). by right. }
  pose proof (image_lengthZ _ _ _ Hinv1) as Hl1. pose proof (image_lengthZ _ _ _ Hi) as Hl. split_and!.
  - eexists. rewrite Hm1 in Ht2. exact (touched_trans _ _ _ _ _ _ _ Ht1 Ht2).
  - congruence.
  - apply disk_inv_insert; [done|by rewrite Hs2, Hs1|by rewrite Hm2, Hm1|done|]. rewrite Hi2.
    rewrite (splice_apart _ _ _ st (nsec len) _ _ sec 1) by (rewrite ?length_replicate; lia).
    rewrite Hi1, <-Henc. apply slice_splice_eq; lia.
  - unfold file_bytes. cbn. rewrite Hi2. rewrite <-(Z.add_0_r (512 * st)) at 2.
    rewrite <-(slice_slice _ _ (512 * nsec len)) by lia. rewrite <-(Z2Nat.id (512 * nsec len)) at 2 by lia.
    rewrite <-(length_replicate (Z.to_nat (512 * nsec len)) 0) at 2. rewrite slice_splice_eq by (rewrite ?length_replicate; lia).
    unfold slice. rewrite drop_0, take_replicate. f_equal. lia.
  - intros k e' Ek. by rewrite (Hk2 k e' Ek), (Hk1 k e' Ek).
Qed.

(** The outcome of creating an inode in sector [sec]. *)
Definition created F (sec len : Z) (r : option extent) s s' : Prop :=
  match r with
  | Some e => e.2 = len ∧ F !! sec = None ∧ disk_inv (<[sec := e]> F) (device s') (free_map s') ∧
      file_bytes (device s') e = replicate (Z.to_nat len) 0 ∧ allocated (nsec len) (free_map s) (Some e.1) (free_map s')
  | None => disk_inv F (device s') (free_map s') ∧ bools (free_map s') = bools (free_map s)
  end.

Lemma malloc_touched s :
  dev_wf (device s) → ∃ a s', malloc s = Ok (a, s') ∧ touched s (image (device s)) (free_map s) s' ∧ (a = NULL ↔ starved s).
Proof. intros Hd. destruct (malloc_updated s Hd) as (a & s' & E & Hu & Ha). exists a, s'. split_and!; [done|by apply updated_touched|done]. Qed.

Lemma disk_inv_touched F s s' :
  disk_inv F (device s) (free_map s) → touched s (image (device s)) (free_map s) s' →
  disk_inv F (device s') (free_map s') ∧ ∀ e, file_bytes (device s') e = file_bytes (device s) e.
Proof.
  intros Hi Ht. destruct (touched_wf _ _ _ _ Ht) as (Hd & Hs & Him & Hm). rewrite Hm. split.
  - apply (disk_inv_image _ (device s)); [done..|]. by rewrite Him.
  - intros e. unfold file_bytes. by rewrite Him.
Qed.

Lemma map_file_touched e0 s img m s' : touched s img m s' → map_file e0 s → map_file e0 s'.
Proof. by intros (d & l & -> & _). Qed.

Lemma map_ready_touched F e0 s img m s' : touched s img m s' → map_ready F e0 s → map_ready F e0 s'.
Proof. by intros (d & l & -> & _). Qed.

Lemma keeps_synced_after e0 s s1 s2 :
  touched s (image (device s)) (free_map s) s1 → keeps_synced e0 s1 s2 → map_writable e0 s → ¬ starved s1 → free_map_file s ≠ NULL →
  synced e0 (device s) (free_map s) → synced e0 (device s2) (free_map s2).
Proof.
  intros Ht Hk Hw Hst Hn Hsy. destruct (touched_wf _ _ _ _ Ht) as (_ & _ & Hi & Hm). rewrite (map_writable_touched _ _ _ _ _ Ht eq_refl) in Hw.
  destruct (touched_same _ _ _ _ Ht) as (_ & _ & _ & _ & _ & Ef & _). destruct Hk as [?|[?|[Hbad|Hs]]]; [done|done|congruence|].
  apply Hs. rewrite Hm. by apply (synced_bools _ (device s) _ (free_map s)).
Qed.

Lemma inode_create_ok F e0 s sec len :
  disk_inv F (device s) (free_map s) → map_ready F e0 s → reserved F s sec → 0 ≤ len < 2 ^ 31 →
  ∃ r s' img m', inode_create sec len s = Ok (bool_decide (is_Some r), s') ∧ touched s img m' s' ∧
    created F sec len r s s' ∧ data_kept F 0 (device s) (device s') ∧
    (∀ x, marked (free_map s) x → marked m' x) ∧
    (fine s s' → map_writable e0 s →
      (r = None → first_group 0 (Z.to_nat (bytes_to_sectors len)) false (bools (free_map s)) = None) ∧
      (F !! 0 = Some e0 → free_map_file s ≠ NULL →
        synced e0 (device s) (free_map s) → synced e0 (device s') (free_map s'))).
Proof.
  intros Hi Hr (Hsec & Hmk & Hfree) Hlen. unfold inode_create. rewrite bool_decide_eq_true_2 by lia. rewrite (bind_ok _ _ _ tt s) by done.
  destruct (malloc_touched s (di_dev _ _ _ Hi)) as (a & s1 & E1 & Ht1 & Ha). rewrite (bind_ok _ _ _ _ _ E1).
  destruct (disk_inv_touched _ _ _ Hi Ht1) as [Hi1 Hk1]. destruct (touched_wf _ _ _ _ Ht1) as (Hd1 & Hs1 & Him1 & Hm1).
  destruct (decide (a ≠ NULL)) as [Hnn|Hnull].
  2: { exists None, s1, (image (device s)), (free_map s). split_and!; [done|done|split; [done|by rewrite Hm1]|intros ? ? _ _; apply Hk1|done|].
    intros [Hf Hf'] Hw. exfalso. destruct (touched_same _ _ _ _ Ht1) as (Hsuf & _). destruct (ample_not_starved s); [done|by eapply suffix_nonempty|apply Ha, dec_stable, Hnull]. }
  set (n := bytes_to_sectors len). assert (in_u 32 n) as Hn by (apply wrapu_range; lia). unfold in_u in Hn.
  destruct (free_map_allocate_ok F e0 s1 n Hi1) as (r & s2 & img2 & m2 & E2 & Ht2 & Hi2 & Hk2 & Hal & Hnone & Hsync); [by eapply map_ready_touched|lia|].
  rewrite (bind_ok _ _ _ _ _ E2). destruct (touched_wf _ _ _ _ Ht2) as (Hd2 & Hs2 & Him2 & Hm2). rewrite Hm1 in *.
  pose proof (touched_trans _ _ _ _ _ _ _ Ht1 Ht2) as Ht12.
  assert (data_kept F 0 (device s) (device s2)) as Hk12 by (intros k e Ek Hne; by rewrite (Hk2 k e), Hk1).
  assert (∀ s', fine s s' → answers s' `suffix_of` answers s2 → ¬ starved s1) as Hns.
  { intros s' Hf Hsuf. eapply fine_not_starved; [done..|]. etrans; [done|]. by apply (touched_same _ _ _ _ Ht2). }
  assert (map_writable e0 s ↔ map_writable e0 s1) as Hw1 by by eapply map_writable_touched.
  destruct r as [st|].
  2: { exists None, s2, img2, m2. split_and!; [done|done|split; [done|by rewrite Hm2]|done|intros x; unfold marked; by rewrite Hal|].
    intros Hf Hw. pose proof (Hns s2 Hf ltac:(done)). split; [intros _; apply Hw1 in Hw; naive_solver|].
    intros _ ?. by apply (keeps_synced_after e0 s s1). }
  destruct (allocated_fresh F (device s1) (free_map s) m2 n st Hi1) as (Hst & Hend & Hnew & Hold & Hun); [lia|done|].
  pose proof (di_size _ _ _ Hi) as Hsz. assert (len ≤ 2 ^ 31 - 512) as Hlen'.
  { destruct (decide (len ≤ 2 ^ 31 - 512)); [done|]. pose proof (bytes_to_sectors_large len ltac:(lia)). lia. }
  assert (n = nsec len) as Hnn' by (apply bytes_to_sectors_small; lia). rewrite Hnn' in *.
  destruct (new_file_ok F s2 sec st len Hi2) as (s3 & E3 & (img3 & Ht3) & Ha3 & Hi3 & Hz3 & Hk3); [lia| | | |].
  - split; cbn; [lia..|]. intros Hx. by destruct (Hnew sec Hx) as [_ []].
  - intros x [->|Hx]; rewrite Hm2; [by apply Hold|by apply Hnew].
  - intros k e' x Ek Hown [->|Hx]; [by eapply Hfree|by eapply Hun].
  - change (InodeDisk st len INODE_MAGIC (replicate 500 0)) with (inode_of (st, len)). rewrite <-bind_assoc, (bind_ok _ _ _ _ _ E3).
    rewrite Hm2 in Ht3. exists (Some (st, len)), s3, img3, m2. split_and!.
    + done.
    + exact (touched_trans _ _ _ _ _ _ _ Ht12 Ht3).
    + split_and!; [done| |done|done|by rewrite (proj2 (proj2 (proj2 (touched_wf _ _ _ _ Ht3))))]. destruct (F !! sec) as [e'|] eqn:Ef; [|done]. by destruct (Hfree sec e' Ef); left.
    + intros k e Ek Hne. by rewrite (Hk3 k e Ek), (Hk12 k e).
    + exact Hold.
    + intros Hf Hw. pose proof (Hns s3 Hf ltac:(by rewrite Ha3)). split; [done|]. intros Ek Hfm Hsy.
      destruct (touched_wf _ _ _ _ Ht3) as (_ & _ & _ & Hm3).
      pose proof (keeps_synced_after e0 s s1 s2 Ht1 Hsync Hw ltac:(done) Hfm Hsy) as Hsy2.
      rewrite Hm3. rewrite Hm2 in Hsy2. destruct (di_ext _ _ _ Hi _ _ Ek). apply (synced_data _ (device s2)); [by eapply Hk3|done| |done].
      rewrite <-Hm2, (di_cnt _ _ _ Hi2), Hs2, Hs1, <-(di_cnt _ _ _ Hi). apply Hw.
Qed.

End disk.
