(* ===== verification/FsTable.v ===== *)
(** * The table of open inodes

    The invariant of the open inodes and of the files and directories that refer
    to them: one open inode per sector, reference counts that are exact, and no
    reference to an inode that has been freed; and what opening and closing
    inodes, files and directories do to it. *)

From S2P Require Import Prelude Bitmap BlockDevice Inode FreeMap FsInv.

(** ** Counting references *)

(** The references to inodes from open files, from open directories, and from
    code that runs. *)
Definition refs (H : list Z) (G : gmap Z file) (D : gmap Z dir) : list Z :=
  (file_inode <$> (map_to_list G).*2) ++ (dir_inode <$> (map_to_list D).*2) ++ H.
Definition occ (p : Z) (l : list Z) : Z := Z.of_nat (length (filter (λ q, q = p) l)).
Definition denies (p : Z) (G : gmap Z file) : Z :=
  Z.of_nat (length (filter (λ f, file_inode f = p ∧ deny_write f = true) (map_to_list G).*2)).

Lemma occ_perm p l l' : l ≡ₚ l' → occ p l = occ p l'.
Proof. intros E. unfold occ. by rewrite E. Qed.

Lemma occ_cons p q l : occ p (q :: l) = (if decide (q = p) then 1 else 0) + occ p l.
Proof. unfold occ. rewrite filter_cons. case_decide; cbn [length]; lia. Qed.

Lemma occ_bound p l : 0 ≤ occ p l ≤ Z.of_nat (length l).
Proof. unfold occ. pose proof (length_filter (λ q, q = p) l). lia. Qed.

Lemma occ_pos p l : 0 < occ p l ↔ p ∈ l.
Proof.
  unfold occ. split.
  - intros Hp. destruct (filter (λ q, q = p) l) as [|q k] eqn:E; [cbn in Hp; lia|].
    assert (q ∈ filter (λ q, q = p) l) as [-> ?]%list_elem_of_filter by (rewrite E; by left). done.
  - intros Hp. assert (p ∈ filter (λ q, q = p) l) as Hf by by apply list_elem_of_filter.
    destruct (filter (λ q, q = p) l); [by apply elem_of_nil in Hf|]. cbn [length]. lia.
Qed.

Lemma refs_held p H G D : refs (p :: H) G D ≡ₚ p :: refs H G D.
Proof. unfold refs. by rewrite !Permutation_middle. Qed.

Lemma refs_file f fl H G D : G !! f = None → refs H (<[f := fl]> G) D ≡ₚ file_inode fl :: refs H G D.
Proof. intros E. unfold refs. by rewrite map_to_list_insert. Qed.

Lemma refs_dir d dr H G D : D !! d = None → refs H G (<[d := dr]> D) ≡ₚ dir_inode dr :: refs H G D.
Proof. intros E. unfold refs. rewrite map_to_list_insert by done. symmetry. apply Permutation_middle. Qed.

Lemma denies_insert p f fl G :
  G !! f = None → denies p (<[f := fl]> G) = (if decide (file_inode fl = p ∧ deny_write fl = true) then 1 else 0) + denies p G.
Proof.
  intros E. unfold denies. rewrite map_to_list_insert, fmap_cons, filter_cons by done. cbn [snd]. case_decide; cbn [length]; lia.
Qed.

Lemma denies_nonneg p G : 0 ≤ denies p G.
Proof. unfold denies. lia. Qed.

Lemma refs_length H G D : length (refs H G D) = (size G + size D + length H)%nat.
Proof. unfold refs. rewrite !length_app, !length_fmap. rewrite !length_map_to_list. lia. Qed.

(** A file that is in the map, taken out of it. *)
Lemma refs_delete_file f fl H G D : G !! f = Some fl → refs H G D ≡ₚ refs (file_inode fl :: H) (delete f G) D.
Proof.
  intros E. rewrite refs_held, <-refs_file by apply lookup_delete_eq. by rewrite insert_delete_id.
Qed.
Lemma refs_delete_dir d dr H G D : D !! d = Some dr → refs H G D ≡ₚ refs (dir_inode dr :: H) G (delete d D).
Proof.
  intros E. rewrite refs_held, <-refs_dir by apply lookup_delete_eq. by rewrite insert_delete_id.
Qed.

Lemma denies_delete p f fl G :
  G !! f = Some fl → denies p G = (if decide (file_inode fl = p ∧ deny_write fl = true) then 1 else 0) + denies p (delete f G).
Proof. intros E. rewrite <-(denies_insert p f fl) by apply lookup_delete_eq. by rewrite insert_delete_id. Qed.

Lemma denies_le p H G D : denies p G ≤ occ p (refs H G D).
Proof.
  unfold denies, occ, refs. rewrite !filter_app, !length_app.
  enough (length (filter (λ f, file_inode f = p ∧ deny_write f = true) (map_to_list G).*2) ≤
    length (filter (λ q, q = p) (file_inode <$> (map_to_list G).*2)))%nat by lia.
  induction (map_to_list G).*2 as [|fl l IH]; [done|]. rewrite fmap_cons, !filter_cons. repeat case_decide; cbn [length]; lia.
Qed.

(** ** The invariant *)

Section table.
  Context {B : Type} {BD : BlockDevice B} {BL : BlockDeviceLaws B}.
  Implicit Types (s : fs B) (F : gmap Z extent) (H : list Z) (G : gmap Z file) (D : gmap Z dir).

(** [H] are the references held by code that runs, [G] and [D] the files and
    directories whose references count. *)
Record table_inv F H G D s : Prop := {
  ti_nodup : NoDup (open_inodes s);
  ti_listed p : p ∈ open_inodes s ↔ is_Some (inodes s !! p);
  ti_unique p q i j : inodes s !! p = Some i → inodes s !! q = Some j → sector i = sector j → p = q;
  ti_nonnull p i : inodes s !! p = Some i → p ≠ NULL;
  ti_data p i : inodes s !! p = Some i → ∃ e, F !! sector i = Some e ∧ data i = inode_of e;
  ti_count p i : inodes s !! p = Some i → open_cnt i = occ p (refs H G D) ∧ 0 < open_cnt i;
  ti_deny p i : inodes s !! p = Some i → deny_write_cnt i = denies p G;
  ti_refs p : p ∈ refs H G D → is_Some (inodes s !! p);
  ti_files f fl : G !! f = Some fl → pointer f ∧ 0 ≤ pos fl < 2 ^ 31;
  ti_dirs d dr : D !! d = Some dr → d ≠ NULL ∧ 0 ≤ dir_pos dr < 2 ^ 31;
  ti_sub : G ⊆ files s ∧ D ⊆ dirs s;
  ti_objects : objects s ≤ 2 ^ 28;
  ti_held : (length H ≤ 16)%nat
}.

Lemma table_touched F H G D s img m s' : touched s img m s' → table_inv F H G D s → table_inv F H G D s'.
Proof. intros (d & l & -> & _) []. by split. Qed.

(** Reference counts are small. *)
Lemma refs_bound F H G D s p : table_inv F H G D s → occ p (refs H G D) ≤ 2 ^ 28 + 16.
Proof.
  intros Hi. pose proof (occ_bound p (refs H G D)) as Ho. rewrite refs_length in Ho.
  destruct (ti_sub _ _ _ _ _ Hi) as [HG%map_subseteq_size HD%map_subseteq_size].
  pose proof (ti_objects _ _ _ _ _ Hi) as Hob. unfold objects in Hob. pose proof (ti_held _ _ _ _ _ Hi). lia.
Qed.

(** The same inode with another count. *)
Lemma table_recount F H H' G D s p i n :
  table_inv F H G D s → inodes s !! p = Some i → (length H' ≤ 16)%nat →
  (∀ q, q ≠ p → occ q (refs H' G D) = occ q (refs H G D)) → n = occ p (refs H' G D) → 0 < n →
  table_inv F H' G D (set_inodes (<[p := with_open_cnt n i]>) s).
Proof.
  intros Hi Ei Hh Hq Hn Hpos.
  assert (∀ q j, <[p := with_open_cnt n i]> (inodes s) !! q = Some j → ∃ j0, inodes s !! q = Some j0 ∧ sector j = sector j0 ∧ data j = data j0 ∧ deny_write_cnt j = deny_write_cnt j0) as Hold.
  { intros q j [[<- <-]|[_ E]]%lookup_insert_Some; [exists i|exists j]; done. }
  destruct Hi. split; cbn; try done.
  - intros q. rewrite ti_listed0. destruct (decide (q = p)) as [->|]; [rewrite lookup_insert_eq, Ei; split; eauto|by rewrite lookup_insert_ne].
  - intros q r j k Ej Ek Es. destruct (Hold q j Ej) as (j0 & ? & ? & _), (Hold r k Ek) as (k0 & ? & ? & _). apply (ti_unique0 q r j0 k0); congruence.
  - intros q j Ej. destruct (Hold q j Ej) as (j0 & ? & _). by eapply ti_nonnull0.
  - intros q j Ej. destruct (Hold q j Ej) as (j0 & E0 & -> & -> & _). by apply (ti_data0 q).
  - intros q j [[<- <-]|[Hne E]]%lookup_insert_Some; [done|]. rewrite Hq by done. by apply ti_count0.
  - intros q j Ej. destruct (Hold q j Ej) as (j0 & E0 & _ & _ & ->). by apply ti_deny0.
  - intros q Hin. destruct (decide (q = p)) as [->|Hne]; [rewrite lookup_insert_eq; eauto|]. rewrite lookup_insert_ne by done.
    apply ti_refs0. apply occ_pos. rewrite <-Hq by done. by apply occ_pos.
  - unfold objects in *. cbn. by rewrite map_size_insert_Some.
Qed.

Lemma inode_reopen_ok F H G D s p i :
  table_inv F H G D s → inodes s !! p = Some i → (length H < 16)%nat →
  ∃ i', inode_reopen p s = Ok (p, set_inodes (<[p := i']>) s) ∧ sector i' = sector i ∧ removed i' = removed i ∧
    table_inv F (p :: H) G D (set_inodes (<[p := i']>) s).
Proof.
  intros Hi Ei Hh. unfold inode_reopen. rewrite decide_True by (by eapply ti_nonnull). rewrite (bind_ok _ _ _ _ _ (rd_inode_ok _ _ _ Ei)).
  destruct (ti_count _ _ _ _ _ Hi _ _ Ei) as [Ec Hc]. pose proof (refs_bound _ _ _ _ _ p Hi).
  rewrite wraps_small by (unfold in_s; lia). eexists. split; [done|]. split_and!; [done..|]. apply (table_recount F H); [done..|cbn; lia| | |lia].
  - intros q Hq. rewrite (occ_perm _ _ _ (refs_held p H G D)), occ_cons, decide_False by done. done.
  - rewrite (occ_perm _ _ _ (refs_held p H G D)), occ_cons, decide_True by done. lia.
Qed.

Lemma find_open_ok s l sec :
  (∀ p, p ∈ l → is_Some (inodes s !! p)) →
  ∃ r, find_open l sec s = Ok (r, s) ∧
    match r with
    | Some p => p ∈ l ∧ ∃ i, inodes s !! p = Some i ∧ sector i = sec
    | None => ∀ p i, p ∈ l → inodes s !! p = Some i → sector i ≠ sec
    end.
Proof.
  induction l as [|p l IH]; intros Hl; [exists None; split; [done|]; by intros ? ? ?%elem_of_nil|]. cbn [find_open].
  destruct (Hl p) as [i Ei]; [by left|]. rewrite (bind_ok _ _ _ _ _ (rd_inode_ok _ _ _ Ei)). case_decide as Hs.
  - exists (Some p). split; [done|]. split; [by left|]. eauto.
  - destruct IH as (r & E & Hr); [intros; apply Hl; by right|]. exists r. split; [done|]. destruct r as [q|].
    + destruct Hr as [? Hr]. split; [by right|done].
    + intros q j [->|Hq]%elem_of_cons Ej; [congruence|]. by eapply Hr.
Qed.

Lemma in_use_not s a : ¬ in_use s a → inodes s !! a = None ∧ files s !! a = None ∧ dirs s !! a = None.
Proof. unfold in_use. rewrite !eq_None_not_Some. tauto. Qed.

(** An answer of [malloc] that is not null. *)
Lemma malloc_fresh s a s' :
  malloc s = Ok (a, s') → a ≠ NULL →
  inodes s !! a = None ∧ files s !! a = None ∧ dirs s !! a = None ∧ objects s < 2 ^ 28 ∧ pointer a ∧ ∃ l, answers s = a :: l ∧ s' = set_answers l s.
Proof.
  unfold malloc. destruct (answers s) as [|a' l]; [by intros [= <- <-]|]. case_decide as Hd; intros [= <- <-]; [done|].
  intros _. destruct (in_use_not s a') as (? & ? & ?); [tauto|]. split_and!; [done..|lia|by apply dec_stable; tauto|eauto].
Qed.

Record fs_inv F H G D s : Prop := {
  fi_disk : disk_inv F (device s) (free_map s);
  fi_table : table_inv F H G D s
}.

(** What opening and closing leave alone: the bytes of the disk and the free
    map, unless sectors are released. *)
Record frame s s' : Prop := {
  fr_suffix : answers s' `suffix_of` answers s;
  fr_ample : ample s → ample s';
  fr_file : free_map_file s' = free_map_file s;
  fr_stack : stack s' = stack s;
  fr_size : dev_size (device s') = dev_size (device s)
}.

Lemma fr_refl s : frame s s.
Proof. by split. Qed.

Lemma fr_trans s1 s2 s3 : frame s1 s2 → frame s2 s3 → frame s1 s3.
Proof. intros [] []. split; [by etrans|tauto|congruence|congruence|congruence]. Qed.

Lemma touched_frame s img m s' : touched s img m s' → frame s s'.
Proof.
  intros Ht. destruct (touched_same _ _ _ _ Ht) as (? & ? & ? & ? & ? & ? & ?). split; [done| |done|done|by eapply touched_wf]. by eapply ample_touched.
Qed.

(** The open inode of sector [k] has been removed. *)
Definition is_removed s (k : Z) : Prop := ∃ p i, inodes s !! p = Some i ∧ sector i = k ∧ removed i = true.

(** The inodes open in the first state are open in the second, for the same
    sectors. *)
Definition sectors_kept s s' : Prop := ∀ p i, inodes s !! p = Some i → ∃ i', inodes s' !! p = Some i' ∧ sector i' = sector i.

Lemma sectors_set_inode s p i i' :
  inodes s !! p = Some i → sector i' = sector i →
  sectors_kept s (set_inodes (<[p := i']>) s) ∧ sectors_kept (set_inodes (<[p := i']>) s) s.
Proof.
  intros Ei Es. split; intros q j; cbn.
  - intros Ej. destruct (decide (q = p)) as [->|]; [|rewrite lookup_insert_ne by done; eauto].
    rewrite lookup_insert_eq. assert (j = i) as -> by congruence. eauto.
  - intros [[<- <-]|[_ Ej]]%lookup_insert_Some; eauto.
Qed.

Lemma fs_inv_touched F H G D s s' :
  fs_inv F H G D s → touched s (image (device s)) (free_map s) s' → fs_inv F H G D s'.
Proof. intros [] Ht. split; [by eapply disk_inv_touched|by eapply table_touched]. Qed.

(** A new object at an address that [malloc] has just given. *)
Lemma ample_new s a l s' :
  ample s → answers s = a :: l → answers s' = l → objects s' = objects s + 1 →
  (∀ x, in_use s' x → in_use s x ∨ x = a) → ample s'.
Proof.
  intros (Hn & Ha & Ho) E E' Ho' Hu. rewrite E in Hn, Ha, Ho. apply NoDup_cons in Hn as [Hni Hn]. unfold ample. rewrite E', Ho'.
  cbn [length] in Ho. split_and!; [done| |lia]. intros x Hx. split; [apply Ha; by right|]. intros [Hin| ->]%Hu; [|done].
  destruct (Ha x) as [_ []]; [by right|done].
Qed.

(** Changing an open inode. *)
Lemma frame_set_inode s p i i' : inodes s !! p = Some i → frame s (set_inodes (<[p := i']>) s).
Proof.
  intros Ei. split; try done. intros (? & Ha & ?). split_and!; [done| |unfold objects; cbn; by rewrite map_size_insert_Some].
  intros a Hin. destruct (Ha a Hin) as [? Hu]. split; [done|]. unfold in_use. cbn. intros [Hx|Hx]; [|apply Hu; by right].
  apply Hu. left. destruct (decide (a = p)) as [->|]; [eauto|]. by rewrite lookup_insert_ne in Hx.
Qed.

Lemma removed_set_inode s p i i' :
  inodes s !! p = Some i → sector i' = sector i → removed i' = removed i →
  ∀ k, is_removed (set_inodes (<[p := i']>) s) k ↔ is_removed s k.
Proof.
  intros Ei Es Hrm k. unfold is_removed. cbn. split; intros (q & j & Ej & Hj).
  - apply lookup_insert_Some in Ej as [[<- <-]|[? Ej]]; [exists p, i; split; [done|]; by rewrite <-Es, <-Hrm|eauto].
  - destruct (decide (q = p)) as [->|]; [|exists q, j; by rewrite lookup_insert_ne].
    exists p, i'. rewrite lookup_insert_eq. split; [done|]. assert (j = i) as -> by congruence. by rewrite Es, Hrm.
Qed.

Lemma table_new_inode F H G D s p e sec l :
  table_inv F H G D s → inodes s !! p = None → p ≠ NULL → objects s < 2 ^ 28 → (length H < 16)%nat → F !! sec = Some e →
  (∀ q i, inodes s !! q = Some i → sector i ≠ sec) →
  table_inv F (p :: H) G D (set_inodes (<[p := Inode sec 1 false 0 (inode_of e)]>) (set_open_inodes (cons p) (set_answers l s))).
Proof.
  intros Hi Ep Hp Ho Hh Ee Hnew. assert (p ∉ refs H G D) as Hr.
  { intros Hin%(ti_refs _ _ _ _ _ Hi). rewrite Ep in Hin. by destruct Hin. }
  assert (occ p (refs H G D) = 0) as H0 by (pose proof (occ_bound p (refs H G D)); rewrite <-occ_pos in Hr; lia).
  pose proof (denies_le p H G D). pose proof (denies_nonneg p G). destruct Hi. split; cbn; try done.
  - apply NoDup_cons. split; [|done]. intros Hin%ti_listed0. rewrite Ep in Hin. by destruct Hin.
  - intros q. rewrite elem_of_cons, ti_listed0. destruct (decide (q = p)) as [->|].
    + rewrite lookup_insert_eq. split; [eauto|by left].
    + rewrite lookup_insert_ne by done. naive_solver.
  - intros q r i j [[<- <-]|[? Ei]]%lookup_insert_Some [[<- <-]|[? Ej]]%lookup_insert_Some Es; cbn in *; [done| | |by eapply ti_unique0].
    + by destruct (Hnew _ _ Ej).
    + by destruct (Hnew _ _ Ei).
  - intros q i [[<- _]|[? Ei]]%lookup_insert_Some; [done|by eapply ti_nonnull0].
  - intros q i [[<- <-]|[? Ei]]%lookup_insert_Some; [by exists e|by apply (ti_data0 q)].
  - intros q i [[<- <-]|[? Ei]]%lookup_insert_Some; rewrite (occ_perm _ _ _ (refs_held p H G D)), occ_cons; cbn.
    + rewrite decide_True by done. lia.
    + rewrite decide_False by done. by apply ti_count0.
  - intros q i [[<- <-]|[? Ei]]%lookup_insert_Some; cbn; [lia|by apply ti_deny0].
  - intros q Hq. rewrite refs_held in Hq. destruct (decide (q = p)) as [->|]; [rewrite lookup_insert_eq; eauto|].
    rewrite lookup_insert_ne by done. apply ti_refs0. by apply elem_of_cons in Hq as [|].
  - unfold objects in *. cbn. rewrite map_size_insert_None by done. lia.
Qed.

Lemma inode_open_ok F H G D s sec e :
  fs_inv F H G D s → F !! sec = Some e → (length H < 16)%nat →
  ∃ p s', inode_open sec s = Ok (p, s') ∧ frame s s' ∧ image (device s') = image (device s) ∧ free_map s' = free_map s ∧
    files s' = files s ∧ dirs s' = dirs s ∧ (∀ k, is_removed s' k ↔ is_removed s k) ∧ sectors_kept s s' ∧
    if decide (p = NULL) then fs_inv F H G D s' ∧ ¬ fine s s'
    else fs_inv F (p :: H) G D s' ∧ ∃ i, inodes s' !! p = Some i ∧ sector i = sec.
Proof.
  intros [Hd Ht] Ee Hh. unfold inode_open. rewrite (bind_ok _ _ _ _ s eq_refl).
  destruct (find_open_ok s (open_inodes s) sec) as (r & E & Hr); [intros p; by apply (ti_listed _ _ _ _ _ Ht)|].
  rewrite (bind_ok _ _ _ _ _ E). destruct r as [p|].
  - destruct Hr as (_ & i & Ei & Es). destruct (inode_reopen_ok F H G D s p i Ht Ei Hh) as (i' & E' & Es' & Hrm & Ht').
    rewrite E'. exists p, (set_inodes (<[p := i']>) s). split_and!; try done.
    + by eapply frame_set_inode.
    + by eapply removed_set_inode.
    + by eapply sectors_set_inode.
    + rewrite decide_False by exact (ti_nonnull _ _ _ _ _ Ht _ _ Ei). split; [by split|]. exists i'. cbn. rewrite lookup_insert_eq. split; [done|congruence].
  - destruct (malloc_touched s (di_dev _ _ _ Hd)) as (p & s1 & E1 & Ht1 & Ha). rewrite (bind_ok _ _ _ _ _ E1).
    destruct (touched_wf _ _ _ _ Ht1) as (Hd1 & Hs1 & Hi1 & Hm1). destruct (decide (p = NULL)) as [Hp|Hp].
    + exists NULL, s1. destruct (touched_same _ _ _ _ Ht1) as (Hsuf & Ein & Efl & Edr & _).
      split_and!; [done|by eapply touched_frame|done..| | |].
      { intros k. unfold is_removed. by rewrite Ein. }
      { intros q j Ej. rewrite Ein. eauto. }
      rewrite decide_True by done. split; [by eapply fs_inv_touched|]. intros [Hf Hn]. apply Ha in Hp.
      by apply (ample_not_starved s); [|eapply suffix_nonempty|].
    + destruct (malloc_fresh _ _ _ E1 Hp) as (Ep & Efl & Edr & Hob & Hpp & l & El & ->). rewrite (bind_ok _ _ _ tt (set_open_inodes (cons p) (set_answers l s))) by done.
      destruct (di_ext _ _ _ Hd _ _ Ee) as [Hsec _ _ _ _].
      destruct (dev_read_ok (device s) sec (di_dev _ _ _ Hd)) as (d' & Er & Hd' & Hs' & Hi'); [lia..|].
      rewrite (bind_ok _ _ _ _ _ (on_device_ok _ (set_open_inodes (cons p) (set_answers l s)) _ _ Er)).
      change (BLOCK_SECTOR_SIZE * sec) with (512 * sec). change BLOCK_SECTOR_SIZE with 512. rewrite (di_inode _ _ _ Hd _ _ Ee).
      rewrite decode_encode by (eapply inode_of_ok; [by apply (di_ext _ _ _ Hd)|pose proof (di_size _ _ _ Hd); lia]).
      eexists p, _. split; [done|].
      pose proof (table_new_inode F H G D s p e sec l Ht Ep Hp Hob Hh Ee) as Ht'.
      split_and!; cbn; try done.
      * split; cbn; try done; [rewrite El; by apply suffix_cons_r|]. intros Hamp. apply (ample_new s p l); [done..| |].
        -- unfold objects. cbn. rewrite map_size_insert_None by done. lia.
        -- intros x. unfold in_use. cbn. destruct (decide (x = p)) as [->|]; [by right|]. rewrite lookup_insert_ne by done. by left.
      * intros k. unfold is_removed. cbn. split; intros (q & j & Ej & Hj).
        -- apply lookup_insert_Some in Ej as [[<- <-]|[? Ej]]; [by destruct Hj|eauto].
        -- exists q, j. rewrite lookup_insert_ne; [done|congruence].
      * intros q j Ej. cbn. rewrite lookup_insert_ne by congruence. eauto.
      * rewrite decide_False by done. split.
        -- split; cbn; [apply (disk_inv_image _ (device s)); [done..|]; by rewrite Hi'|].
           eapply table_touched; [|apply Ht'; intros q j Ej; apply (Hr q); [by apply (ti_listed _ _ _ _ _ Ht); eauto|done]].
           by exists d', l.
        -- eexists. rewrite lookup_insert_eq. done.
Qed.

(** ** Closing an inode *)

Lemma set_range_cleared i n l x : set_range i n false l !! x = Some true ↔ l !! x = Some true ∧ ¬ (i ≤ x < i + n)%nat.
Proof.
  rewrite set_range_lookup. destruct (l !! x) as [b|]; [|by split; [|intros []]]. case_decide; cbn; naive_solver.
Qed.

(** Releasing the sectors of a file. *)
Lemma release_file_ok F e0 s k e :
  disk_inv F (device s) (free_map s) → F !! k = Some e → k ≠ 0 → F !! 0 = Some e0 → map_file e0 s →
  ∃ s' img m', (free_map_release k 1;; free_map_release e.1 (bytes_to_sectors e.2)) s = Ok (tt, s') ∧ touched s img m' s' ∧
    disk_inv (delete k F) (device s') (free_map s') ∧ data_kept (delete k F) 0 (device s) (device s') ∧
    (∀ x, 0 ≤ x → marked m' x ↔ marked (free_map s) x ∧ ¬ owns k e x) ∧
    (fine s s' → map_writable e0 s → synced e0 (device s) (free_map s) → synced e0 (device s') (free_map s')).
Proof.
  intros Hi Ek Hk0 Ek0 Hf. pose proof (di_ext _ _ _ Hi _ _ Ek) as [Hk Hst Hlen Hend Hself]. pose proof (nsec_range e.2).
  rewrite bytes_to_sectors_small by lia. pose proof (disk_inv_delete _ _ _ k Hi) as Hi'.
  assert (delete k F !! 0 = Some e0) as Ek0' by (by rewrite lookup_delete_ne).
  assert (∀ k' e' x, delete k F !! k' = Some e' → owns k' e' x → ¬ owns k e x) as Hun.
  { intros k' e' x [Hne E]%lookup_delete_Some Ho Ho'. by destruct Hne; apply (di_apart _ _ _ Hi k e k' e' x). }
  destruct (free_map_release_ok (delete k F) e0 s k 1 Hi' Ek0' Hf) as (s1 & img1 & m1 & E1 & Ht1 & Hi1 & Hk1 & Hb1 & Hs1); [lia..| | |].
  { intros x Hx. apply (di_marked _ _ _ Hi k e); [done|left; lia]. }
  { intros k' e' x Ek' Ho Hx. apply (Hun k' e' x Ek' Ho). left. lia. }
  destruct (touched_wf _ _ _ _ Ht1) as (Hd1 & Hsz1 & _ & Hm1). rewrite (bind_ok _ _ _ _ _ E1).
  assert (∀ x, 0 ≤ x → marked m1 x ↔ marked (free_map s) x ∧ x ≠ k) as Hmk1.
  { intros x Hx. unfold marked. rewrite Hb1, set_range_cleared. split; intros [? Hn]; (split; [done|]); intros Hn'; apply Hn; lia. }
  destruct (free_map_release_ok (delete k F) e0 s1 e.1 (nsec e.2) Hi1 Ek0') as (s2 & img2 & m2 & E2 & Ht2 & Hi2 & Hk2 & Hb2 & Hs2);
    [by eapply map_file_touched|lia|lia|lia| | |].
  { intros x Hx. rewrite Hm1. apply Hmk1; [lia|]. split; [apply (di_marked _ _ _ Hi k e); [done|by right]|]. intros ->. lia. }
  { intros k' e' x Ek' Ho Hx. apply (Hun k' e' x Ek' Ho). by right. }
  exists s2, img2, m2. split_and!; [done|by eapply touched_trans|done|by eapply data_kept_trans| |].
  - intros x Hx. unfold marked at 1. rewrite Hb2, set_range_cleared, Hm1. fold (marked m1 x). rewrite Hmk1 by done. unfold owns.
    assert ((Z.to_nat e.1 ≤ Z.to_nat x < Z.to_nat e.1 + Z.to_nat (nsec e.2))%nat ↔ e.1 ≤ x < e.1 + nsec e.2) as -> by lia. tauto.
  - intros Hfine Hw Hsy. destruct (touched_same _ _ _ _ Ht2) as (Hsuf2 & _). destruct (touched_same _ _ _ _ Ht1) as (Hsuf1 & _ & _ & _ & _ & Ef1 & _).
    assert (¬ starved s) as Hns by (destruct Hfine; apply ample_not_starved; [done|]; eapply suffix_nonempty; [|done]; by etrans).
    assert (¬ starved s1) as Hns1 by by eapply fine_not_starved.
    assert (bit_cnt m1 = bit_cnt (free_map s)) as Hc by (rewrite <-Hm1, (di_cnt _ _ _ Hi1), (di_cnt _ _ _ Hi); done).
    assert (map_writable e0 s1) as Hw1 by (by eapply (map_writable_touched e0 s)). destruct Hf as [Hnn _].
    destruct Hs2 as [?|[?|[?|Hs2]]]; [done|done|congruence|]. apply Hs2. destruct Hs1 as [?|[?|[?|Hs1]]]; [done|done|congruence|]. by apply Hs1.
Qed.

(** The last reference to an inode goes. *)
Lemma table_drop F F' H G D s p i s' :
  table_inv F (p :: H) G D s → inodes s !! p = Some i → occ p (refs H G D) = 0 →
  (∀ k, k ≠ sector i → F' !! k = F !! k) →
  inodes s' = delete p (inodes s) → open_inodes s' = filter (λ q, q ≠ p) (open_inodes s) → files s' = files s → dirs s' = dirs s →
  table_inv F' H G D s'.
Proof.
  intros Hi Ei Hocc HF E1 E2 E3 E4. pose proof (ti_held _ _ _ _ _ Hi) as Hh. cbn in Hh.
  assert (∀ q, q ≠ p → occ q (refs (p :: H) G D) = occ q (refs H G D)) as Hq.
  { intros q Hne. rewrite (occ_perm _ _ _ (refs_held p H G D)), occ_cons, decide_False by done. done. }
  assert (p ∉ refs H G D) as Hnr by (rewrite <-occ_pos; lia). destruct Hi. split; rewrite ?E1, ?E2; try done.
  - by apply NoDup_filter.
  - intros q. rewrite list_elem_of_filter, ti_listed0. destruct (decide (q = p)) as [->|].
    + rewrite lookup_delete_eq. split; [by intros []|by intros []].
    + rewrite lookup_delete_ne by done. tauto.
  - intros q r j k [_ Ej]%lookup_delete_Some [_ Ek]%lookup_delete_Some. by apply ti_unique0.
  - intros q j [_ Ej]%lookup_delete_Some. by eapply ti_nonnull0.
  - intros q j [Hne Ej]%lookup_delete_Some. rewrite HF; [by apply (ti_data0 q)|]. intros Es. by destruct Hne; eapply ti_unique0.
  - intros q j [Hne Ej]%lookup_delete_Some. rewrite <-Hq by done. by apply ti_count0.
  - intros q j [_ Ej]%lookup_delete_Some. by apply ti_deny0.
  - intros q Hin. rewrite lookup_delete_ne by (intros ->; done). apply ti_refs0. rewrite refs_held. by right.
  - by rewrite E3, E4.
  - unfold objects in *. rewrite E1, E3, E4, map_size_delete_Some by eauto. lia.
  - lia.
Qed.

(** The file of the free map is open. *)
Definition map_open F (e0 : extent) G s : Prop :=
  free_map_file s ≠ NULL ∧ F !! 0 = Some e0 ∧
  ∃ fl i, G !! free_map_file s = Some fl ∧ inodes s !! file_inode fl = Some i ∧ sector i = 0.

Lemma map_open_file F e0 H G D s : table_inv F H G D s → map_open F e0 G s → map_file e0 s.
Proof.
  intros Hi (Hn & Ek & fl & i & Ef & Ei & Es). split; [done|]. exists fl, i. split_and!; [|done|].
  - eapply lookup_weaken; [done|apply Hi].
  - destruct (ti_data _ _ _ _ _ Hi _ _ Ei) as (e & Ee & ->). rewrite Es in Ee. congruence.
Qed.

Lemma file_ref G D H f fl : G !! f = Some fl → file_inode fl ∈ refs H G D.
Proof. intros E. rewrite (refs_delete_file f fl) by done. rewrite refs_held. by left. Qed.
Lemma dir_ref G D H d dr : D !! d = Some dr → dir_inode dr ∈ refs H G D.
Proof. intros E. rewrite (refs_delete_dir d dr) by done. rewrite refs_held. by left. Qed.

(** A file whose last reference went is freed when it has been removed. *)
Definition freed (H : list Z) G D (p : Z) (r : bool) : Prop := occ p (refs H G D) = 0 ∧ r = true.
#[global] Instance freed_dec H G D p r : Decision (freed H G D p r).
Proof. unfold freed. apply _. Defined.

Definition after_close H G D (p k : Z) (r : bool) F : gmap Z extent := if decide (freed H G D p r) then delete k F else F.

Lemma frame_del_inode s p : frame s (set_inodes (delete p) s).
Proof.
  split; try done. intros (? & Ha & ?). split_and!; [done| |].
  - intros a Hin. destruct (Ha a Hin) as [? Hu]. split; [done|]. unfold in_use in *. cbn. intros [[x Hx]|Hx]; [|apply Hu; by right].
    apply lookup_delete_Some in Hx as [_ Hx]. apply Hu. left. eauto.
  - unfold objects in *. cbn. pose proof (map_subseteq_size _ _ (delete_subseteq (inodes s) p)). lia.
Qed.

(** The part of [inode_close] that frees sectors. *)
Lemma release_removed_ok F e0 s (P : Prop) `{!Decision P} k i e :
  disk_inv F (device s) (free_map s) → F !! k = Some e → data i = inode_of e → k ≠ 0 → F !! 0 = Some e0 → map_file e0 s →
  (removed i = true ↔ P) →
  ∃ s' img m', (if removed i then free_map_release k 1;; free_map_release (start (data i)) (bytes_to_sectors (disk_length (data i)))
      else mret tt) s = Ok (tt, s') ∧ touched s img m' s' ∧
    let F' := if decide P then delete k F else F in
    disk_inv F' (device s') (free_map s') ∧ data_kept F' 0 (device s) (device s') ∧
    (if decide P then ∀ x, 0 ≤ x → marked m' x ↔ marked (free_map s) x ∧ ¬ owns k e x
     else free_map s' = free_map s ∧ image (device s') = image (device s)) ∧
    (fine s s' → map_writable e0 s → synced e0 (device s) (free_map s) → synced e0 (device s') (free_map s')).
Proof.
  intros Hi Ek Ed Hk0 Ek0 Hf HP. cbv zeta. destruct (removed i).
  - rewrite Ed. cbn [start disk_length inode_of].
    destruct (release_file_ok F e0 s k e Hi Ek Hk0 Ek0 Hf) as (s3 & img & m & E & Ht3 & ? & ? & Hmk & ?). exists s3, img, m.
    rewrite !(decide_True (P := P)) by tauto. by split_and!.
  - assert (¬ P) by naive_solver. exists s, (image (device s)), (free_map s).
    rewrite !(decide_False (P := P)) by done. split_and!; try done.
    exists (device s), (answers s). split_and!; [by destruct s|done|apply Hi|done..].
Qed.

Lemma inode_close_ok F e0 H G D s p i :
  fs_inv F (p :: H) G D s → map_open F e0 G s → inodes s !! p = Some i →
  ∃ s', inode_close p s = Ok (tt, s') ∧ frame s s' ∧ files s' = files s ∧ dirs s' = dirs s ∧
    let F' := after_close H G D p (sector i) (removed i) F in
    fs_inv F' H G D s' ∧ map_open F' e0 G s' ∧ data_kept F' 0 (device s) (device s') ∧
    (∀ k e, F' !! k = Some e → is_removed s' k ↔ is_removed s k) ∧
    (if decide (freed H G D p (removed i)) then ∀ e x, F !! sector i = Some e → 0 ≤ x → marked (free_map s') x ↔ marked (free_map s) x ∧ ¬ owns (sector i) e x
     else free_map s' = free_map s ∧ image (device s') = image (device s)) ∧
    (fine s s' → map_writable e0 s → synced e0 (device s) (free_map s) → synced e0 (device s') (free_map s')) ∧
    sectors_kept s' s.
Proof.
  intros [Hd Ht] Hmo Ei. unfold inode_close. rewrite decide_False by exact (ti_nonnull _ _ _ _ _ Ht _ _ Ei).
  rewrite (bind_ok _ _ _ _ _ (rd_inode_ok _ _ _ Ei)). destruct (ti_count _ _ _ _ _ Ht _ _ Ei) as [Ec Hc].
  pose proof (refs_bound _ _ _ _ _ p Ht) as Hb. rewrite <-Ec in Hb.
  rewrite (occ_perm _ _ _ (refs_held p H G D)), occ_cons, decide_True in Ec by done.
  pose proof (occ_bound p (refs H G D)). rewrite wraps_small by (unfold in_s; lia). replace (open_cnt i - 1) with (occ p (refs H G D)) by lia.
  set (s1 := set_inodes (<[p := with_open_cnt (occ p (refs H G D)) i]>) s). rewrite (bind_ok _ _ _ tt s1) by done.
  pose proof Hmo as (Hnn & Ek0 & fl0 & i0 & Ef0 & Ei0 & Es0). unfold after_close. destruct (decide (occ p (refs H G D) = 0)) as [Hz|Hz].
  2: { destruct (decide (freed H G D p (removed i))) as [[? _]|_]; [done|]. exists s1. split; [done|]. split; [by eapply frame_set_inode|]. split_and!; try done.
    - split; [done|]. apply (table_recount F (p :: H)); [done..| | |done|lia].
      + pose proof (ti_held _ _ _ _ _ Ht) as Hh. cbn in Hh. lia.
      + intros q Hq. rewrite (occ_perm q _ _ (refs_held p H G D)), occ_cons, decide_False by done. done.
    - split_and!; [done..|]. unfold s1. cbn. destruct (decide (p = file_inode fl0)) as [->|].
      + exists fl0. eexists. rewrite lookup_insert_eq. split_and!; [done..|]. cbn. congruence.
      + exists fl0, i0. by rewrite lookup_insert_ne.
    - intros k e _. by eapply removed_set_inode.
    - by eapply sectors_set_inode. }
  assert (p ≠ file_inode fl0) as Hp0.
  { intros ->. pose proof (file_ref G D H _ _ Ef0) as Hin. apply occ_pos in Hin. lia. }
  set (s2 := set_open_inodes (filter (λ q, q ≠ p)) s1). rewrite (bind_ok _ _ _ tt s2) by done.
  assert (frame s s2) as Hfr by (destruct (frame_set_inode s p i (with_open_cnt (occ p (refs H G D)) i) Ei); by split).
  assert (sector i ≠ 0) as Hs0.
  { intros Hs. apply Hp0. apply (ti_unique _ _ _ _ _ Ht p _ i i0); congruence. }
  destruct (ti_data _ _ _ _ _ Ht _ _ Ei) as (e & Ee & Edat).
  assert (map_file e0 s2) as Hmf2.
  { split; [done|]. exists fl0, i0. split_and!; [by eapply lookup_weaken; [|apply Ht]|by cbn; rewrite lookup_insert_ne|].
    destruct (ti_data _ _ _ _ _ Ht _ _ Ei0) as (e' & Ee' & ->). congruence. }
  destruct (release_removed_ok F e0 s2 (freed H G D p (removed i)) (sector i) i e Hd Ee Edat Hs0 Ek0 Hmf2) as (s3 & img & m & E3 & Ht3 & Hd3 & Hk3 & Hm3 & Hsy3).
  { unfold freed. destruct (removed i); naive_solver. }
  rewrite (bind_ok _ _ _ _ _ E3). exists (set_inodes (delete p) s3). split; [done|].
  destruct (touched_same _ _ _ _ Ht3) as (Hsuf & Ein3 & Efl3 & Edr3 & Eop3 & Emf3 & Est3).
  assert (delete p (inodes s3) = delete p (inodes s)) as Edel by (rewrite Ein3; apply delete_insert_eq).
  split_and!; cbn; try done.
  - apply (fr_trans _ s2); [done|]. apply (fr_trans _ s3); [by eapply touched_frame|]. by apply frame_del_inode.
  - split; [done|]. apply (table_drop F _ H G D s p i); [done..| |done|by cbn; rewrite Eop3|done|done].
    intros k Hk. case_decide; [by rewrite lookup_delete_ne|done].
  - unfold map_open. cbn. rewrite Emf3, Edel. split; [done|]. split; [case_decide; [by rewrite lookup_delete_ne|done]|].
    exists fl0, i0. by rewrite lookup_delete_ne.
  - intros k e' Ek'. unfold is_removed. cbn. rewrite Edel. split; intros (q & j & Ej & Hj); [apply lookup_delete_Some in Ej as [_ Ej]; eauto|].
    exists q, j. split; [|done]. rewrite lookup_delete_ne; [done|]. intros <-. assert (j = i) as -> by congruence. destruct Hj as [<- Hr].
    rewrite decide_True in Ek' by done. by rewrite lookup_delete_eq in Ek'.
  - destruct (touched_wf _ _ _ _ Ht3) as (_ & _ & _ & Em). revert Hm3. case_decide; intros Hm3; [|done].
    rewrite Em. intros e' x Ee'. assert (e' = e) as -> by congruence. apply Hm3.
  - intros [Ha Hn] Hw. apply Hsy3; [split; [by apply Hfr|done]|]. destruct Hw as [Hw1 Hw2]. split; [done|]. cbn. intros fl j Ef Ej.
    assert (fl = fl0) as -> by (pose proof (lookup_weaken _ _ _ _ Ef0 (proj1 (ti_sub _ _ _ _ _ Ht))); congruence).
    rewrite lookup_insert_ne in Ej by done. by eapply Hw2.
  - intros q j. cbn. rewrite Edel. intros [_ Ej]%lookup_delete_Some. eauto.
Qed.

(** ** Files and directories *)

(** The same references, held elsewhere. *)
Lemma table_move F H H' G G' D D' s s' :
  table_inv F H G D s → refs H' G' D' ≡ₚ refs H G D → (∀ p, denies p G' = denies p G) →
  (∀ f fl, G' !! f = Some fl → pointer f ∧ 0 ≤ pos fl < 2 ^ 31) → (∀ d dr, D' !! d = Some dr → d ≠ NULL ∧ 0 ≤ dir_pos dr < 2 ^ 31) →
  G' ⊆ files s' ∧ D' ⊆ dirs s' → objects s' ≤ 2 ^ 28 → (length H' ≤ 16)%nat →
  inodes s' = inodes s → open_inodes s' = open_inodes s → table_inv F H' G' D' s'.
Proof.
  intros [] Hr Hdn HG HD Hsub Hob Hh Ei Eo. split; rewrite ?Ei, ?Eo; try done.
  - intros p i Ep. rewrite (occ_perm _ _ _ Hr). by apply ti_count0.
  - intros p i Ep. rewrite Hdn. by apply ti_deny0.
  - intros p Hp. rewrite Hr in Hp. by apply ti_refs0.
Qed.

Lemma denies_same_flag p f fl fl' G :
  G !! f = Some fl → file_inode fl' = file_inode fl → deny_write fl' = deny_write fl → denies p (<[f := fl']> G) = denies p G.
Proof.
  intros E E1 E2. rewrite (denies_delete p f fl G E), <-insert_delete_eq, denies_insert by apply lookup_delete_eq. by rewrite E1, E2.
Qed.

Lemma refs_set_file f fl fl' H G D : G !! f = Some fl → file_inode fl' = file_inode fl → refs H (<[f := fl']> G) D ≡ₚ refs H G D.
Proof.
  intros E E1. rewrite (refs_delete_file f fl H G D E), <-insert_delete_eq, refs_file by apply lookup_delete_eq. rewrite E1. symmetry. apply refs_held.
Qed.

Lemma refs_set_dir d dr dr' H G D : D !! d = Some dr → dir_inode dr' = dir_inode dr → refs H G (<[d := dr']> D) ≡ₚ refs H G D.
Proof.
  intros E E1. rewrite (refs_delete_dir d dr H G D E), <-insert_delete_eq, refs_dir by apply lookup_delete_eq. rewrite E1. symmetry. apply refs_held.
Qed.

Lemma frame_new s a l s' :
  answers s = a :: l → answers s' = l → objects s' = objects s + 1 → (∀ x, in_use s' x → in_use s x ∨ x = a) →
  free_map_file s' = free_map_file s → stack s' = stack s → dev_size (device s') = dev_size (device s) → frame s s'.
Proof.
  intros E E' Ho Hu Ef Es Hz. split; [rewrite E', E; by apply suffix_cons_r| |done|done|done]. intros Ha. by eapply ample_new.
Qed.

(** The files and directories are those of the state. *)
Definition whole F H s : Prop := fs_inv F H (files s) (dirs s) s.
Definition mounted F (e0 : extent) H s : Prop := whole F H s ∧ map_open F e0 (files s) s.

(** A malloc that fails. *)
Lemma starved_not_fine s img m s' : touched s img m s' → starved s → ¬ fine s s'.
Proof.
  intros Ht Hst [Ha Hn]. destruct (touched_same _ _ _ _ Ht) as (Hsuf & _). by apply (ample_not_starved s); [|eapply suffix_nonempty|].
Qed.

Lemma table_new_file F ip H G D s f l :
  table_inv F (ip :: H) G D s → files s !! f = None → pointer f → objects s < 2 ^ 28 →
  table_inv F H (<[f := File ip 0 false]> G) D (set_files (<[f := File ip 0 false]>) (set_answers l s)).
Proof.
  intros Hi Ef Hf Ho. assert (G !! f = None) as Eg by (eapply lookup_weaken_None; [done|apply Hi]).
  pose proof (ti_held _ _ _ _ _ Hi) as Hh. cbn in Hh. eapply table_move; [done|..]; cbn.
  - rewrite refs_file by done. symmetry. apply refs_held.
  - intros p. rewrite denies_insert by done. rewrite decide_False by (by intros [_ ?]). done.
  - intros g gl [[<- <-]|[_ E]]%lookup_insert_Some; [by split|by apply (ti_files _ _ _ _ _ Hi)].
  - apply (ti_dirs _ _ _ _ _ Hi).
  - split; [|apply Hi]. apply insert_mono, Hi.
  - unfold objects in *. cbn. rewrite map_size_insert_None by done. lia.
  - lia.
  - done.
  - done.
Qed.

Lemma table_new_dir F ip H G D s d l :
  table_inv F (ip :: H) G D s → dirs s !! d = None → d ≠ NULL → objects s < 2 ^ 28 →
  table_inv F H G (<[d := Dir ip 0]> D) (set_dirs (<[d := Dir ip 0]>) (set_answers l s)).
Proof.
  intros Hi Ed Hd Ho. assert (D !! d = None) as Eg by (eapply lookup_weaken_None; [done|apply Hi]).
  pose proof (ti_held _ _ _ _ _ Hi) as Hh. cbn in Hh. eapply table_move; [done|..]; cbn.
  - rewrite refs_dir by done. symmetry. apply refs_held.
  - done.
  - apply (ti_files _ _ _ _ _ Hi).
  - intros g gl [[<- <-]|[_ E]]%lookup_insert_Some; [by split|by apply (ti_dirs _ _ _ _ _ Hi)].
  - split; [apply Hi|]. apply insert_mono, Hi.
  - unfold objects in *. cbn. rewrite map_size_insert_None by done. lia.
  - lia.
  - done.
  - done.
Qed.

(** The effect of dropping a reference to [p]. *)
Definition dropped F e0 H G D p k0 r s s' : Prop :=
  let F' := after_close H G D p k0 r F in
  frame s s' ∧ fs_inv F' H G D s' ∧ map_open F' e0 G s' ∧ data_kept F' 0 (device s) (device s') ∧
  (∀ k e, F' !! k = Some e → is_removed s' k ↔ is_removed s k) ∧
  (if decide (freed H G D p r) then ∀ e x, F !! k0 = Some e → 0 ≤ x → marked (free_map s') x ↔ marked (free_map s) x ∧ ¬ owns k0 e x
   else free_map s' = free_map s ∧ image (device s') = image (device s)) ∧
  (fine s s' → map_writable e0 s → synced e0 (device s) (free_map s) → synced e0 (device s') (free_map s')) ∧
  sectors_kept s' s.

Lemma inode_close_dropped F e0 H G D s p i :
  fs_inv F (p :: H) G D s → map_open F e0 G s → inodes s !! p = Some i →
  ∃ s', inode_close p s = Ok (tt, s') ∧ files s' = files s ∧ dirs s' = dirs s ∧ dropped F e0 H G D p (sector i) (removed i) s s'.
Proof.
  intros Hi Hm Ei. destruct (inode_close_ok F e0 H G D s p i Hi Hm Ei) as (s' & E & Hfr & Hfl & Hdr & Hrest).
  exists s'. split; [done|]. split; [done|]. split; [done|]. split; [done|exact Hrest].
Qed.

End table.
