(* ===== verification/FsFile.v ===== *)
(** * Open files and directories

    What filesys/file.c and the functions of filesys/directory.c that open and
    close directories do to the invariant of FsInv.v and FsTable.v. *)

From S2P Require Import Prelude Bitmap BlockDevice Inode FreeMap Directory FsInv FsTable.

Section file.
  Context {B : Type} {BD : BlockDevice B} {BL : BlockDeviceLaws B}.
  Implicit Types (s : fs B) (F : gmap Z extent) (H : list Z) (G : gmap Z file) (D : gmap Z dir).

Lemma dropped_touched F e0 H G D p k0 r s s1 s' :
  touched s (image (device s)) (free_map s) s1 → dropped F e0 H G D p k0 r s1 s' → dropped F e0 H G D p k0 r s s'.
Proof.
  intros Ht (Hfr & Hi & Hm & Hk & Hr & Hx & Hs & Hsec). destruct (touched_wf _ _ _ _ Ht) as (_ & _ & Him & Emap).
  pose proof (touched_frame _ _ _ _ Ht) as Hfr1. pose proof (touched_same _ _ _ _ Ht) as (_ & Ein & _). unfold dropped. split_and!.
  - by eapply fr_trans.
  - done.
  - done.
  - intros k e Ek Hne. rewrite (Hk k e) by done. unfold file_bytes. by rewrite Him.
  - intros k e Ek. rewrite (Hr k e Ek). unfold is_removed. by rewrite Ein.
  - rewrite Emap, Him in Hx. done.
  - intros [Ha Hn] Hw Hsy. apply Hs; [split; [by apply Hfr1|done]|by apply (map_writable_touched e0 s _ _ s1 Ht eq_refl)|].
    by apply (synced_bools e0 (device s) _ (free_map s)); rewrite ?Emap.
  - intros q j Ej. rewrite <-Ein. by apply Hsec.
Qed.

(** *** Opening *)

Lemma file_open_ok F e0 H s ip i :
  whole F (ip :: H) s → map_open F e0 (files s) s → inodes s !! ip = Some i →
  ∃ f s', file_open ip s = Ok (f, s') ∧ dirs s' = dirs s ∧
    if decide (f = NULL) then ¬ fine s s' ∧ files s' = files s ∧ dropped F e0 H (files s) (dirs s) ip (sector i) (removed i) s s'
    else frame s s' ∧ mounted F e0 H s' ∧ files s !! f = None ∧ files s' = <[f := File ip 0 false]> (files s) ∧
      inodes s' = inodes s ∧ device s' = device s ∧ free_map s' = free_map s.
Proof.
  intros [Hd Ht] Hm Ei. unfold file_open. destruct (malloc_touched s (di_dev _ _ _ Hd)) as (f & s1 & E1 & Ht1 & Ha). rewrite (bind_ok _ _ _ _ _ E1).
  destruct (decide (f = NULL)) as [->|Hf].
  - rewrite decide_False by tauto. destruct (touched_same _ _ _ _ Ht1) as (Hsuf & Ein & Efl & Edr & _ & Emf & _).
    destruct (inode_close_dropped F e0 H (files s) (dirs s) s1 ip i) as (s2 & E2 & Ef & Ed & Hdrop).
    + by eapply fs_inv_touched.
    + by destruct Ht1 as (d & l & -> & _).
    + by rewrite Ein.
    + rewrite (bind_ok _ _ _ _ _ E2). exists NULL, s2. rewrite decide_True by done. split_and!; [done|congruence| |congruence|by eapply dropped_touched].
      intros [Hamp Hn]. apply (ample_not_starved s); [done| |by apply Ha]. eapply suffix_nonempty; [|done].
      etrans; [apply Hdrop|done].
  - rewrite decide_True by (split; [exact (ti_nonnull _ _ _ _ _ Ht _ _ Ei)|done]).
    destruct (malloc_fresh _ _ _ E1 Hf) as (E0 & Ef & Ed & Hob & Hpp & l & El & ->).
    exists f, (set_files (<[f := File ip 0 false]>) (set_answers l s)). split; [done|]. split; [done|]. rewrite decide_False by done. split_and!; try done.
    + apply (frame_new s f l); try done.
      * unfold objects. cbn. rewrite map_size_insert_None by done. lia.
      * intros x. unfold in_use. cbn. destruct (decide (x = f)) as [->|]; [by right|]. rewrite lookup_insert_ne by done. by left.
    + split; [split; [done|by apply table_new_file]|]. destruct Hm as (Hnn & Ek & fl & i0 & Efl & Ei0 & Es0). split_and!; [done..|]. exists fl, i0. split_and!; [|done..]. cbn.
      rewrite lookup_insert_ne; [done|]. intros ->. congruence.
Qed.

Lemma dir_open_ok F e0 H s ip i :
  whole F (ip :: H) s → map_open F e0 (files s) s → inodes s !! ip = Some i →
  ∃ d s', dir_open ip s = Ok (d, s') ∧ files s' = files s ∧
    if decide (d = NULL) then ¬ fine s s' ∧ dirs s' = dirs s ∧ dropped F e0 H (files s) (dirs s) ip (sector i) (removed i) s s'
    else frame s s' ∧ mounted F e0 H s' ∧ dirs s !! d = None ∧ dirs s' = <[d := Dir ip 0]> (dirs s) ∧
      inodes s' = inodes s ∧ device s' = device s ∧ free_map s' = free_map s.
Proof.
  intros [Hd Ht] Hm Ei. unfold dir_open. destruct (malloc_touched s (di_dev _ _ _ Hd)) as (d & s1 & E1 & Ht1 & Ha). rewrite (bind_ok _ _ _ _ _ E1).
  destruct (decide (d = NULL)) as [->|Hf].
  - rewrite decide_False by tauto. destruct (touched_same _ _ _ _ Ht1) as (Hsuf & Ein & Efl & Edr & _ & Emf & _).
    destruct (inode_close_dropped F e0 H (files s) (dirs s) s1 ip i) as (s2 & E2 & Ef & Ed & Hdrop).
    + by eapply fs_inv_touched.
    + by destruct Ht1 as (d & l & -> & _).
    + by rewrite Ein.
    + rewrite (bind_ok _ _ _ _ _ E2). exists NULL, s2. rewrite decide_True by done. split_and!; [done|congruence| |congruence|by eapply dropped_touched].
      intros [Hamp Hn]. apply (ample_not_starved s); [done| |by apply Ha]. eapply suffix_nonempty; [|done].
      etrans; [apply Hdrop|done].
  - rewrite decide_True by (split; [exact (ti_nonnull _ _ _ _ _ Ht _ _ Ei)|done]).
    destruct (malloc_fresh _ _ _ E1 Hf) as (E0 & Ef & Ed & Hob & Hpp & l & El & ->).
    exists d, (set_dirs (<[d := Dir ip 0]>) (set_answers l s)). split; [done|]. split; [done|]. rewrite decide_False by done. split_and!; try done.
    + apply (frame_new s d l); try done.
      * unfold objects. cbn. rewrite map_size_insert_None by done. lia.
      * intros x. unfold in_use. cbn. destruct (decide (x = d)) as [->|]; [by right|]. rewrite lookup_insert_ne by done. by left.
    + split; [split; [done|by apply table_new_dir]|done].
Qed.

Lemma open_null s :
  dev_wf (device s) →
  ∃ s', file_open NULL s = Ok (NULL, s') ∧ touched s (image (device s)) (free_map s) s'.
Proof.
  intros Hd. unfold file_open. destruct (malloc_touched s Hd) as (a & s1 & E1 & Ht1 & _). rewrite (bind_ok _ _ _ _ _ E1).
  rewrite decide_False by tauto. exists s1. done.
Qed.

(** *** Denying writes *)

Lemma table_deny F H G D s f fl ip i b :
  table_inv F H G D s → G !! f = Some fl → file_inode fl = ip → inodes s !! ip = Some i →
  let fl' := File ip (pos fl) b in
  table_inv F H (<[f := fl']> G) D
    (set_inodes (<[ip := with_deny (denies ip (<[f := fl']> G)) i]>) (set_files (<[f := fl']>) s)).
Proof.
  intros Hi Ef <- Ei fl'. assert (files s !! f = Some fl) as Ef' by (eapply lookup_weaken; [done|apply Hi]).
  assert (∀ p, p ≠ file_inode fl → denies p (<[f := fl']> G) = denies p G) as Hdn.
  { intros p Hp. rewrite (denies_delete p f fl G Ef), <-insert_delete_eq, denies_insert by apply lookup_delete_eq.
    rewrite !decide_False; [done|by intros [? _]..]. }
  assert (refs H (<[f := fl']> G) D ≡ₚ refs H G D) as Hr by by eapply refs_set_file.
  destruct Hi as [Hnd Hls Hun Hnn Hda Hco Hde Hre Hfi Hdi Hsu Hob Hhe]. split; cbn; try done.
  - intros q. rewrite Hls. destruct (decide (q = file_inode fl)) as [->|]; [rewrite lookup_insert_eq, Ei; split; eauto|by rewrite lookup_insert_ne].
  - intros q r j k [[<- <-]|[? Ej]]%lookup_insert_Some [[<- <-]|[? Ek]]%lookup_insert_Some Es; cbn in Es; by eapply Hun.
  - intros q j [[<- _]|[? Ej]]%lookup_insert_Some; by eapply Hnn.
  - intros q j [[<- <-]|[? Ej]]%lookup_insert_Some; [exact (Hda _ _ Ei)|by apply (Hda q)].
  - intros q j Ej. rewrite (occ_perm _ _ _ Hr). apply lookup_insert_Some in Ej as [[<- <-]|[? Ej]]; [exact (Hco _ _ Ei)|by apply Hco].
  - intros q j [[<- <-]|[? Ej]]%lookup_insert_Some; [done|]. rewrite Hdn by done. by apply Hde.
  - intros q Hq. rewrite Hr in Hq. destruct (decide (q = file_inode fl)) as [->|]; [rewrite lookup_insert_eq; eauto|]. rewrite lookup_insert_ne by done. by apply Hre.
  - intros g gl [[<- <-]|[? Eg]]%lookup_insert_Some; [by apply (Hfi f fl)|by apply Hfi].
  - split; [|apply Hsu]. apply insert_mono, Hsu.
  - unfold objects in *. cbn. by rewrite !map_size_insert_Some.
Qed.

(** Setting the flag of an open file and the count of its inode. *)
Definition deny_set s (f : Z) (fl : file) (i : inode) (b : bool) : fs B :=
  let fl' := File (file_inode fl) (pos fl) b in
  set_inodes (<[file_inode fl := with_deny (denies (file_inode fl) (<[f := fl']> (files s))) i]>) (set_files (<[f := fl']>) s).

Lemma frame_set_file s f fl fl' : files s !! f = Some fl → frame s (set_files (<[f := fl']>) s).
Proof.
  intros Ei. split; try done. intros (? & Ha & ?). split_and!; [done| |unfold objects; cbn; by rewrite map_size_insert_Some].
  intros a Hin. destruct (Ha a Hin) as [? Hu]. split; [done|]. unfold in_use. cbn. intros [Hx|[Hx|Hx]]; apply Hu; [by left| |by right; right].
  right; left. destruct (decide (a = f)) as [->|]; [eauto|]. by rewrite lookup_insert_ne in Hx.
Qed.

Lemma file_inode_open F H s f fl : whole F H s → files s !! f = Some fl → f ≠ NULL ∧ ∃ i, inodes s !! file_inode fl = Some i.
Proof.
  intros [_ Ht] Ef. split; [by eapply pointer_nonnull, (ti_files _ _ _ _ _ Ht)|]. apply (ti_refs _ _ _ _ _ Ht). by eapply file_ref.
Qed.

Lemma deny_set_ok F e0 H s f fl i b :
  mounted F e0 H s → files s !! f = Some fl → inodes s !! file_inode fl = Some i →
  let s' := deny_set s f fl i b in
  mounted F e0 H s' ∧ frame s s' ∧ (∀ k, is_removed s' k ↔ is_removed s k).
Proof.
  intros [[Hd Ht] (Hnn & Ek & fl0 & i0 & Ef0 & Ei0 & Es0)] Ef Ei s'. split_and!.
  - split; [split; [done|by apply table_deny]|]. split_and!; [done..|]. cbn.
    assert (∃ fl1, <[f := File (file_inode fl) (pos fl) b]> (files s) !! free_map_file s = Some fl1 ∧ file_inode fl1 = file_inode fl0) as (fl1 & Ef1 & E1).
    { destruct (decide (f = free_map_file s)) as [E|]; [|rewrite lookup_insert_ne by done; eauto]. assert (fl = fl0) as -> by congruence.
      rewrite E, lookup_insert_eq. eexists. done. }
    assert (∃ i1, <[file_inode fl := with_deny (denies (file_inode fl) (<[f := File (file_inode fl) (pos fl) b]> (files s))) i]> (inodes s) !! file_inode fl0 = Some i1 ∧ sector i1 = 0) as (i1 & Ei1 & Es1).
    { destruct (decide (file_inode fl = file_inode fl0)) as [E|]; [|rewrite lookup_insert_ne by done; eauto]. assert (i = i0) as -> by congruence.
      rewrite E, lookup_insert_eq. eexists. done. }
    exists fl1, i1. by rewrite E1.
  - apply (fr_trans _ (set_files (<[f := File (file_inode fl) (pos fl) b]>) s)); [by eapply frame_set_file|by eapply frame_set_inode].
  - intros k. by apply (removed_set_inode (set_files (<[f := File (file_inode fl) (pos fl) b]>) s) (file_inode fl) i).
Qed.

Lemma file_allow_write_ok F e0 H s f fl :
  mounted F e0 H s → files s !! f = Some fl →
  ∃ s', file_allow_write f s = Ok (tt, s') ∧ mounted F e0 H s' ∧ frame s s' ∧ (∀ k, is_removed s' k ↔ is_removed s k) ∧
    files s' = <[f := File (file_inode fl) (pos fl) false]> (files s) ∧ dirs s' = dirs s ∧ device s' = device s ∧ free_map s' = free_map s ∧
    (∀ i, inodes s !! file_inode fl = Some i → ∃ i', inodes s' !! file_inode fl = Some i' ∧ sector i' = sector i ∧ removed i' = removed i) ∧
    (map_writable e0 s → map_writable e0 s') ∧ sectors_kept s' s ∧ sectors_kept s s'.
Proof.
  intros Hm Ef. pose proof Hm as [Hw Hmo]. destruct (file_inode_open _ _ _ _ _ Hw Ef) as (Hnn & i & Ei). pose proof Hw as [Hd Ht]. unfold file_allow_write.
  rewrite bool_decide_eq_true_2 by done. rewrite (bind_ok _ _ _ tt s) by done. rewrite (bind_ok _ _ _ _ _ (rd_file_ok _ _ _ Ef)).
  destruct (deny_write fl) eqn:Edw.
  - set (fl' := File (file_inode fl) (pos fl) false). set (s1 := set_files (<[f := fl']>) s). rewrite (bind_ok _ _ _ tt s1) by done.
    pose proof (denies_delete (file_inode fl) f fl (files s) Ef) as Hdd. rewrite decide_True in Hdd by done.
    assert (denies (file_inode fl) (<[f := fl']> (files s)) = denies (file_inode fl) (delete f (files s))) as Hdn.
    { rewrite <-insert_delete_eq, denies_insert by apply lookup_delete_eq. rewrite decide_False by (by intros [_ ?]). done. }
    pose proof (ti_deny _ _ _ _ _ Ht _ _ Ei) as Hdi. pose proof (denies_nonneg (file_inode fl) (delete f (files s))).
    pose proof (denies_le (file_inode fl) H (files s) (dirs s)). destruct (ti_count _ _ _ _ _ Ht _ _ Ei) as [Hoc _].
    pose proof (refs_bound _ _ _ _ _ (file_inode fl) Ht).
    unfold inode_allow_write. rewrite (bind_ok _ _ _ i s1) by (apply rd_inode_ok; exact Ei).
    rewrite (bool_decide_eq_true_2 (deny_write_cnt i > 0)) by lia. rewrite (bind_ok _ _ _ tt s1) by done.
    rewrite bool_decide_eq_true_2 by lia. rewrite (bind_ok _ _ _ tt s1) by done. rewrite wraps_small by (unfold in_s; lia).
    replace (deny_write_cnt i - 1) with (denies (file_inode fl) (<[f := fl']> (files s))) by lia.
    destruct (deny_set_ok F e0 H s f fl i false Hm Ef Ei) as (Hm' & Hfr & Hrm). exists (deny_set s f fl i false).
    split_and!; try done.
    + intros j Ej. eexists. cbn. rewrite lookup_insert_eq. assert (j = i) as -> by congruence. done.
    + intros [Hw1 Hw2]. split; [done|]. cbn. intros gl j Eg Ej. apply lookup_insert_Some in Ej as [[E <-]|[Hne Ej]].
      * exfalso. apply lookup_insert_Some in Eg as [[Efm _]|[Hnf Eg]].
        -- rewrite Efm in Ef. pose proof (Hw2 fl i Ef Ei). lia.
        -- pose proof (Hw2 gl i Eg ltac:(congruence)). lia.
      * apply lookup_insert_Some in Eg as [[_ Egl]|[Hnf Eg]]; [by subst gl|by eapply Hw2].
    + by apply (sectors_set_inode (set_files (<[f := fl']>) s) (file_inode fl) i).
    + by apply (sectors_set_inode (set_files (<[f := fl']>) s) (file_inode fl) i).
  - exists s. rewrite insert_id by (rewrite Ef; f_equal; destruct fl; cbn in *; congruence). split_and!; try done; intros j; eauto.
Qed.

Lemma file_deny_write_ok F e0 H s f fl :
  mounted F e0 H s → files s !! f = Some fl →
  ∃ s', file_deny_write f s = Ok (tt, s') ∧ mounted F e0 H s' ∧ frame s s' ∧ (∀ k, is_removed s' k ↔ is_removed s k) ∧
    files s' = <[f := File (file_inode fl) (pos fl) true]> (files s) ∧ dirs s' = dirs s ∧ device s' = device s ∧ free_map s' = free_map s ∧
    (∀ p i, inodes s !! p = Some i → ∃ i', inodes s' !! p = Some i' ∧ sector i' = sector i ∧ removed i' = removed i) ∧
    (file_inode fl ≠ file_inode (default fl (files s !! free_map_file s)) → map_writable e0 s → map_writable e0 s').
Proof.
  intros Hm Ef. pose proof Hm as [Hw Hmo]. destruct (file_inode_open _ _ _ _ _ Hw Ef) as (Hnn & i & Ei). pose proof Hw as [Hd Ht]. unfold file_deny_write.
  rewrite bool_decide_eq_true_2 by done. rewrite (bind_ok _ _ _ tt s) by done. rewrite (bind_ok _ _ _ _ _ (rd_file_ok _ _ _ Ef)).
  destruct (deny_write fl) eqn:Edw; cbn [negb].
  { exists s. rewrite insert_id by (rewrite Ef; f_equal; destruct fl; cbn in *; congruence). split_and!; try done. intros p j Ej. eauto. }
  set (fl' := File (file_inode fl) (pos fl) true). set (s1 := set_files (<[f := fl']>) s). rewrite (bind_ok _ _ _ tt s1) by done.
  pose proof (denies_delete (file_inode fl) f fl (files s) Ef) as Hdd. rewrite Edw, decide_False in Hdd by (by intros [_ ?]).
  assert (denies (file_inode fl) (<[f := fl']> (files s)) = 1 + denies (file_inode fl) (delete f (files s))) as Hdn.
  { rewrite <-insert_delete_eq, denies_insert by apply lookup_delete_eq. by rewrite decide_True. }
  pose proof (ti_deny _ _ _ _ _ Ht _ _ Ei) as Hdi. pose proof (denies_nonneg (file_inode fl) (delete f (files s))).
  pose proof (denies_le (file_inode fl) H (<[f := fl']> (files s)) (dirs s)) as Hle.
  rewrite (occ_perm _ _ _ (refs_set_file f fl fl' H (files s) (dirs s) Ef eq_refl)) in Hle.
  destruct (ti_count _ _ _ _ _ Ht _ _ Ei) as [Hoc _]. pose proof (refs_bound _ _ _ _ _ (file_inode fl) Ht).
  unfold inode_deny_write. rewrite (bind_ok _ _ _ i s1) by (apply rd_inode_ok; exact Ei). rewrite wraps_small by (unfold in_s; lia).
  replace (deny_write_cnt i + 1) with (denies (file_inode fl) (<[f := fl']> (files s))) by lia.
  rewrite (bind_ok _ _ _ tt (deny_set s f fl i true)) by done. rewrite bool_decide_eq_true_2 by lia.
  destruct (deny_set_ok F e0 H s f fl i true Hm Ef Ei) as (Hm' & Hfr & Hrm). exists (deny_set s f fl i true). split_and!; try done.
  - intros p j Ej. cbn. destruct (decide (p = file_inode fl)) as [->|]; [|rewrite lookup_insert_ne by done; eauto].
    rewrite lookup_insert_eq. assert (j = i) as -> by congruence. by eexists.
  - intros Hne [Hw1 Hw2]. split; [done|]. cbn. intros gl j Eg Ej. destruct Hmo as (_ & _ & fl0 & i0 & Ef0 & _). rewrite Ef0 in Hne. cbn in Hne.
    assert (file_inode gl = file_inode fl0) as Egl.
    { apply lookup_insert_Some in Eg as [[E <-]|[_ Eg]]; [cbn; congruence|congruence]. }
    rewrite Egl, lookup_insert_ne in Ej by done. by eapply Hw2.
Qed.

(** *** Closing *)

Lemma frame_del_file s f : frame s (set_files (delete f) s).
Proof.
  split; try done. intros (? & Ha & ?). split_and!; [done| |].
  - intros a Hin. destruct (Ha a Hin) as [? Hu]. split; [done|]. unfold in_use in *. cbn. intros [Hx|[[x Hx]|Hx]]; apply Hu; [by left| |by right; right].
    apply lookup_delete_Some in Hx as [_ Hx]. right. left. eauto.
  - unfold objects in *. cbn. pose proof (map_subseteq_size _ _ (delete_subseteq (files s) f)). lia.
Qed.

Lemma frame_del_dir s d : frame s (set_dirs (delete d) s).
Proof.
  split; try done. intros (? & Ha & ?). split_and!; [done| |].
  - intros a Hin. destruct (Ha a Hin) as [? Hu]. split; [done|]. unfold in_use in *. cbn. intros [Hx|[Hx|[x Hx]]]; apply Hu; [by left|by right; left|].
    apply lookup_delete_Some in Hx as [_ Hx]. right. right. eauto.
  - unfold objects in *. cbn. pose proof (map_subseteq_size _ _ (delete_subseteq (dirs s) d)). lia.
Qed.


Lemma synced_same e0 s s1 : device s1 = device s → free_map s1 = free_map s → synced e0 (device s) (free_map s) → synced e0 (device s1) (free_map s1).
Proof. by intros -> ->. Qed.

Lemma file_close_ok F e0 H s f fl i :
  mounted F e0 H s → files s !! f = Some fl → f ≠ free_map_file s → inodes s !! file_inode fl = Some i → (length H < 16)%nat →
  ∃ s', file_close f s = Ok (tt, s') ∧ files s' = delete f (files s) ∧ dirs s' = dirs s ∧
    dropped F e0 H (delete f (files s)) (dirs s) (file_inode fl) (sector i) (removed i) s s'.
Proof.
  intros Hm Ef Hne Ei Hh. pose proof Hm as [Hw _]. destruct (file_inode_open _ _ _ _ _ Hw Ef) as (Hnn & _).
  destruct (file_allow_write_ok F e0 H s f fl Hm Ef) as (s1 & E1 & Hm1 & Hfr1 & Hrm1 & Ef1 & Ed1 & Edev & Emap & Hin & Hmw & Hsec1 & _).
  destruct (Hin i Ei) as (i1 & Ei1 & Es1 & Er1). unfold file_close. rewrite decide_True by done. rewrite (bind_ok _ _ _ _ _ E1).
  rewrite (bind_ok _ _ _ (File (file_inode fl) (pos fl) false) s1) by (apply rd_file_ok; by rewrite Ef1, lookup_insert_eq). cbn [file_inode].
  destruct Hm1 as [[Hd1 Ht1] (Hnn1 & Ek & fl0 & i0 & Ef0 & Ei0 & Es0)].
  assert (delete f (files s1) = delete f (files s)) as Edel by (rewrite Ef1; apply delete_insert_eq).
  assert (files s1 !! f = Some (File (file_inode fl) (pos fl) false)) as Eff by by rewrite Ef1, lookup_insert_eq.
  destruct (inode_close_dropped F e0 H (delete f (files s1)) (dirs s1) s1 (file_inode fl) i1) as (s2 & E2 & Ef2 & Ed2 & Hfr2 & Hi2 & Hmo2 & Hk2 & Hr2 & Hx2 & Hs2 & Hsec2).
  - split; [done|]. apply (table_move F H _ (files s1) _ (dirs s1) _ s1); [done|by rewrite (refs_delete_file f _ H (files s1) (dirs s1) Eff)| |..].
    + intros p. rewrite (denies_delete p f _ _ Eff). rewrite decide_False by (by intros [_ ?]). done.
    + intros g gl [_ Eg]%lookup_delete_Some. by apply (ti_files _ _ _ _ _ Ht1).
    + apply (ti_dirs _ _ _ _ _ Ht1).
    + split; [apply delete_subseteq|done].
    + apply (ti_objects _ _ _ _ _ Ht1).
    + cbn. lia.
    + done.
    + done.
  - split_and!; [done..|]. exists fl0, i0. split_and!; [|done..]. rewrite lookup_delete_ne; [done|]. by rewrite (fr_file _ _ Hfr1).
  - done.
  - rewrite (bind_ok _ _ _ _ _ E2). exists (set_files (delete f) s2). split; [done|]. split; [cbn; by rewrite Ef2, Edel|]. split; [cbn; congruence|].
    rewrite Es1, Er1, Edel, Ed1 in *. split_and!.
    + apply (fr_trans _ s1); [done|]. apply (fr_trans _ s2); [done|]. apply frame_del_file.
    + destruct Hi2 as [Hd2 Ht2]. split; [done|]. eapply table_move; [exact Ht2|done|done|apply (ti_files _ _ _ _ _ Ht2)|apply (ti_dirs _ _ _ _ _ Ht2)| | |apply (ti_held _ _ _ _ _ Ht2)|done|done].
      * cbn. rewrite Ef2, Edel. split; [done|]. by rewrite Ed2.
      * pose proof (ti_objects _ _ _ _ _ Ht2) as Hob. unfold objects in *. cbn. pose proof (map_subseteq_size _ _ (delete_subseteq (files s2) f)). lia.
    + done.
    + by rewrite <-Edev.
    + intros k e Ek'. rewrite <-Hrm1. by apply (Hr2 k e).
    + rewrite Edev, Emap in Hx2. exact Hx2.
    + intros [Ha Hn] Hmw' Hsy. apply Hs2; [split; [by apply Hfr1|done]|by apply Hmw|by apply (synced_same _ s)].
    + intros q j Ej. destruct (Hsec2 q j Ej) as (j1 & Ej1 & <-). by apply Hsec1.
Qed.

Lemma dir_close_ok F e0 H s d dr i :
  mounted F e0 H s → dirs s !! d = Some dr → inodes s !! dir_inode dr = Some i → (length H < 16)%nat →
  ∃ s', dir_close d s = Ok (tt, s') ∧ files s' = files s ∧ dirs s' = delete d (dirs s) ∧
    dropped F e0 H (files s) (delete d (dirs s)) (dir_inode dr) (sector i) (removed i) s s'.
Proof.
  intros [[Hd Ht] Hmo] Ed Ei Hh. unfold dir_close. rewrite decide_True by (by eapply (ti_dirs _ _ _ _ _ Ht)).
  rewrite (bind_ok _ _ _ dr s) by (unfold rd_dir; by rewrite Ed).
  destruct (inode_close_dropped F e0 H (files s) (delete d (dirs s)) s (dir_inode dr) i) as (s2 & E2 & Ef2 & Ed2 & Hfr2 & Hi2 & Hmo2 & Hrest).
  - split; [done|]. apply (table_move F H _ (files s) _ (dirs s) _ s); [done|by rewrite (refs_delete_dir d dr H (files s) (dirs s) Ed)|done|apply (ti_files _ _ _ _ _ Ht)| | | |cbn; lia|done|done].
    + intros g gl [_ Eg]%lookup_delete_Some. by apply (ti_dirs _ _ _ _ _ Ht).
    + split; [done|apply delete_subseteq].
    + apply (ti_objects _ _ _ _ _ Ht).
  - done.
  - done.
  - rewrite (bind_ok _ _ _ _ _ E2). exists (set_dirs (delete d) s2). split; [done|]. split; [done|]. split; [cbn; congruence|].
    split; [apply (fr_trans _ s2); [done|apply frame_del_dir]|]. split; [|done].
    destruct Hi2 as [Hd2 Ht2]. split; [done|]. eapply table_move; [exact Ht2|done|done|apply (ti_files _ _ _ _ _ Ht2)|apply (ti_dirs _ _ _ _ _ Ht2)| | |apply (ti_held _ _ _ _ _ Ht2)|done|done].
    + cbn. rewrite Ef2. split; [done|]. by rewrite Ed2.
    + pose proof (ti_objects _ _ _ _ _ Ht2) as Hob. unfold objects in *. cbn. pose proof (map_subseteq_size _ _ (delete_subseteq (dirs s2) d)). lia.
Qed.

(** *** Reading and writing *)

Lemma open_inode_extent F H G D s p i : table_inv F H G D s → inodes s !! p = Some i → ∃ e, F !! sector i = Some e ∧ data i = inode_of e.
Proof. intros Ht Ei. by eapply ti_data. Qed.

(** The transfer size at a position of a file. *)
Definition room (e : extent) (sz ps : Z) : Z := 0 `max` (sz `min` (e.2 - ps)).

Lemma inode_read_file F H G D s p i e sz ps :
  fs_inv F H G D s → inodes s !! p = Some i → F !! sector i = Some e → 0 ≤ ps < 2 ^ 31 →
  ∃ n s', inode_read_at p sz ps s = Ok (slice (file_bytes (device s) e) ps n, s') ∧ touched s (image (device s)) (free_map s) s' ∧
    0 ≤ n ≤ room e sz ps ∧ (n = room e sz ps ∨ starved s ∧ (sz < 512 → n = 0)).
Proof.
  intros [Hd Ht] Ei Ee Hps. destruct (ti_data _ _ _ _ _ Ht _ _ Ei) as (e' & Ee' & Edat). assert (e' = e) as -> by congruence.
  pose proof (extent_data_ok _ _ _ _ _ Hd Ee) as Hok. rewrite <-Edat in Hok.
  destruct (inode_read_at_ok s p i sz ps (di_dev _ _ _ Hd) Ei Hok Hps) as (n & s' & E & Hu & Hn & Hx). unfold available in Hn, Hx.
  rewrite Edat in E, Hn, Hx. cbn [start disk_length inode_of] in E, Hn, Hx. exists n, s'.
  split_and!; [|by apply updated_touched|unfold room; lia..|done]. rewrite E. do 2 f_equal. unfold file_bytes.
  destruct (decide (n = 0)) as [->|]; [by rewrite !slice_nil|]. destruct (di_ext _ _ _ Hd _ _ Ee). rewrite slice_slice by lia. done.
Qed.

Lemma inode_write_file F H G D s p i e buffer sz ps :
  fs_inv F H G D s → inodes s !! p = Some i → F !! sector i = Some e → 0 ≤ ps < 2 ^ 31 → sz ≤ Z.of_nat (length buffer) →
  ∃ n s' img, inode_write_at p buffer sz ps s = Ok (n, s') ∧ touched s img (free_map s) s' ∧ fs_inv F H G D s' ∧
    data_kept F (sector i) (device s) (device s') ∧
    file_bytes (device s') e = splice (file_bytes (device s) e) ps (take (Z.to_nat n) buffer) ∧ 0 ≤ n ≤ room e sz ps ∧
    (if decide (deny_write_cnt i = 0) then n = room e sz ps ∨ starved s ∧ (sz < 512 → n = 0) else n = 0).
Proof.
  intros [Hd Ht] Ei Ee Hps Hb. destruct (ti_data _ _ _ _ _ Ht _ _ Ei) as (e' & Ee' & Edat). assert (e' = e) as -> by congruence.
  pose proof (extent_data_ok _ _ _ _ _ Hd Ee) as Hok. rewrite <-Edat in Hok. destruct (di_ext _ _ _ Hd _ _ Ee) as [_ _ Hlen _ _].
  destruct (inode_write_at_ok s p i buffer sz ps (di_dev _ _ _ Hd) Ei Hok Hps Hb) as (n & s' & E & Hu & Hn & Hx). unfold available in Hn, Hx.
  rewrite Edat in Hu, Hn, Hx. cbn [start disk_length inode_of] in Hu, Hn, Hx. apply updated_touched in Hu as Htt.
  destruct (decide (n = 0)) as [->|Hn0].
  - change (take (Z.to_nat 0) buffer) with (@nil Z) in *. rewrite splice_nil in Htt. destruct (disk_inv_touched _ _ _ Hd Htt) as [Hd' Hf'].
    eexists 0, s', _. split; [done|]. split; [done|]. split; [split; [done|by eapply table_touched]|].
    change (take (Z.to_nat 0) buffer) with (@nil Z). rewrite splice_nil. split_and!; [intros k e1 _ _; apply Hf'|apply Hf'|lia|unfold room; lia|done].
  - destruct (disk_inv_write F s (sector i) e ps (take (Z.to_nat n) buffer) s' (free_map s) Hd Ee) as (Hd' & Hk & Hf'); [lia| |done|done|].
    { pose proof (take_lengthZ n buffer). lia. }
    eexists n, s', _. split; [done|]. split; [done|]. split; [split; [done|by eapply table_touched]|]. split_and!; [done..|lia|unfold room; lia|done].
Qed.

Lemma set_pos_ok F e0 H s f fl ps :
  mounted F e0 H s → files s !! f = Some fl → 0 ≤ ps < 2 ^ 31 →
  let s' := set_files (<[f := File (file_inode fl) ps (deny_write fl)]>) s in
  set_pos f ps s = Ok (tt, s') ∧ mounted F e0 H s' ∧ frame s s'.
Proof.
  intros [[Hd Ht] (Hnn & Ek & fl0 & i0 & Ef0 & Ei0 & Es0)] Ef Hps s'. split_and!.
  - unfold set_pos. by rewrite (bind_ok _ _ _ _ _ (rd_file_ok _ _ _ Ef)).
  - split.
    + split; [done|]. apply (table_move F H _ (files s) _ (dirs s) _ s); cbn; try done; [by eapply refs_set_file| | |apply Ht| |apply Ht].
      * intros p. by eapply denies_same_flag.
      * intros g gl [[<- <-]|[_ Eg]]%lookup_insert_Some; [by split; [eapply (ti_files _ _ _ _ _ Ht)|]|by apply (ti_files _ _ _ _ _ Ht)].
      * pose proof (ti_objects _ _ _ _ _ Ht) as Hob. unfold objects in *. cbn. by rewrite map_size_insert_Some.
    + split_and!; [done..|]. cbn. destruct (decide (f = free_map_file s)) as [E|].
      * rewrite E, lookup_insert_eq. assert (fl = fl0) as -> by congruence. eexists _, i0. done.
      * exists fl0, i0. by rewrite lookup_insert_ne.
  - by eapply frame_set_file.
Qed.

Lemma mounted_touched F e0 H s img s' :
  mounted F e0 H s → touched s img (free_map s) s' → fs_inv F H (files s) (dirs s) s' → mounted F e0 H s'.
Proof.
  intros [_ Hmo] Ht Hi. destruct Ht as (d & l & -> & _). by split.
Qed.

Lemma file_read_ok F e0 H s f fl i e sz :
  mounted F e0 H s → files s !! f = Some fl → inodes s !! file_inode fl = Some i → F !! sector i = Some e →
  ∃ n s', file_read f sz s = Ok (slice (file_bytes (device s) e) (pos fl) n, s') ∧ mounted F e0 H s' ∧ frame s s' ∧
    files s' = <[f := File (file_inode fl) (pos fl + n) (deny_write fl)]> (files s) ∧ dirs s' = dirs s ∧ inodes s' = inodes s ∧
    image (device s') = image (device s) ∧ free_map s' = free_map s ∧ 0 ≤ n ≤ room e sz (pos fl) ∧ (fine s s' → n = room e sz (pos fl)).
Proof.
  intros Hm Ef Ei Ee. pose proof Hm as [[Hd Ht] Hmo]. destruct (ti_files _ _ _ _ _ Ht _ _ Ef) as [Hnn%pointer_nonnull Hps].
  unfold file_read. rewrite (bind_ok _ _ _ _ _ (rd_file_ok _ _ _ Ef)).
  destruct (inode_read_file F H (files s) (dirs s) s (file_inode fl) i e sz (pos fl)) as (n & s1 & E1 & Ht1 & Hn & Hx); [by split|done..|].
  rewrite (bind_ok _ _ _ _ _ E1). destruct (touched_same _ _ _ _ Ht1) as (Hsuf & Ein & Efl & Edr & _).
  destruct (di_ext _ _ _ Hd _ _ Ee) as [_ _ Hlen _ _]. pose proof (extent_bytes _ _ _ _ _ Hd Ee) as (? & ? & ? & _).
  assert (Z.of_nat (length (slice (file_bytes (device s) e) (pos fl) n)) = n) as Hl.
  { destruct (decide (n = 0)) as [->|]; [by rewrite slice_nil|]. unfold room in Hn. apply slice_lengthZ; [lia..|]. unfold file_bytes. rewrite slice_lengthZ; lia. }
  rewrite Hl, wraps_small by (unfold in_s, room in *; lia).
  assert (mounted F e0 H s1) as Hm1 by (eapply mounted_touched; [done..|]; by eapply fs_inv_touched; [split|]).
  destruct (set_pos_ok F e0 H s1 f fl (pos fl + n) Hm1) as (E2 & Hm2 & Hfr2); [by rewrite Efl|unfold room in *; lia|].
  rewrite (bind_ok _ _ _ _ _ E2). destruct (touched_wf _ _ _ _ Ht1) as (_ & _ & Him & Emp). eexists n, _. split; [done|].
  split_and!; [done|by eapply fr_trans; [eapply touched_frame|]|cbn; by rewrite Efl|done..|lia|lia|].
  intros Hf. destruct Hx as [?|[Hst _]]; [done|]. exfalso. by apply (starved_not_fine _ _ _ _ Ht1 Hst).
Qed.

Lemma file_write_ok F e0 H s f fl i e buffer sz :
  mounted F e0 H s → files s !! f = Some fl → inodes s !! file_inode fl = Some i → F !! sector i = Some e → sz ≤ Z.of_nat (length buffer) →
  ∃ n s', file_write f buffer sz s = Ok (n, s') ∧ mounted F e0 H s' ∧ frame s s' ∧
    files s' = <[f := File (file_inode fl) (pos fl + n) (deny_write fl)]> (files s) ∧ dirs s' = dirs s ∧ inodes s' = inodes s ∧
    free_map s' = free_map s ∧ data_kept F (sector i) (device s) (device s') ∧
    file_bytes (device s') e = splice (file_bytes (device s) e) (pos fl) (take (Z.to_nat n) buffer) ∧
    0 ≤ n ≤ room e sz (pos fl) ∧
    (if decide (denies (file_inode fl) (files s) = 0) then fine s s' → n = room e sz (pos fl) else n = 0).
Proof.
  intros Hm Ef Ei Ee Hb. pose proof Hm as [[Hd Ht] Hmo]. destruct (ti_files _ _ _ _ _ Ht _ _ Ef) as [Hnn%pointer_nonnull Hps].
  unfold file_write. rewrite (bind_ok _ _ _ _ _ (rd_file_ok _ _ _ Ef)).
  destruct (inode_write_file F H (files s) (dirs s) s (file_inode fl) i e buffer sz (pos fl)) as (n & s1 & img & E1 & Ht1 & Hi1 & Hk1 & Hf1 & Hn & Hx); [by split|done..|].
  rewrite (bind_ok _ _ _ _ _ E1). destruct (touched_same _ _ _ _ Ht1) as (Hsuf & Ein & Efl & Edr & _).
  destruct (di_ext _ _ _ Hd _ _ Ee) as [_ _ Hlen _ _]. rewrite wraps_small by (unfold in_s, room in *; lia).
  assert (mounted F e0 H s1) as Hm1 by by eapply mounted_touched.
  destruct (set_pos_ok F e0 H s1 f fl (pos fl + n) Hm1) as (E2 & Hm2 & Hfr2); [by rewrite Efl|unfold room in *; lia|].
  rewrite (bind_ok _ _ _ _ _ E2). destruct (touched_wf _ _ _ _ Ht1) as (_ & _ & Him & Emp). eexists n, _. split; [done|].
  split_and!; [done|by eapply fr_trans; [eapply touched_frame|]|cbn; by rewrite Efl|done..|lia|lia|].
  rewrite (ti_deny _ _ _ _ _ Ht _ _ Ei) in Hx. case_decide; [|done]. intros Hf. destruct Hx as [?|[Hst _]]; [done|]. exfalso. by apply (starved_not_fine _ _ _ _ Ht1 Hst).
Qed.

End file.
