(* ===== verification/FsDir.v ===== *)
(** * The root directory

    The bytes of the root directory as a list of slots, and what looking up,
    adding and removing entries (filesys/directory.c) do to it. *)

From S2P Require Import Prelude Bitmap BlockDevice Inode FreeMap Directory FsInv FsTable FsFile.

(** ** Slots *)

Definition valid_name (nm : list Z) : Prop := nm ≠ [] ∧ Z.of_nat (length nm) ≤ NAME_MAX ∧ 0 ∉ nm.

(** A slot is free, or holds the name of a file and the sector of its inode. *)
Definition slot_is (bs : list Z) (o : option (list Z * Z)) : Prop :=
  match o with
  | None => entry_in_use bs = false
  | Some (nm, k) => entry_in_use bs = true ∧ entry_sector bs = k ∧ valid_name nm ∧ ∃ junk, entry_name bs = nm ++ 0 :: junk
  end.

Definition root_is (E : list (option (list Z * Z))) (bs : list Z) : Prop :=
  Z.of_nat (length bs) = 20 * Z.of_nat (length E) ∧
  ∀ j o, E !! j = Some o → slot_is (slice bs (20 * Z.of_nat j) 20) o.

Lemma same_string_ok name nm junk :
  0 ∉ name → 0 ∉ nm → same_string name (nm ++ 0 :: junk) = Ok (bool_decide (name = nm)).
Proof.
  revert nm. induction name as [|d name IH]; intros [|c nm] H1 H2; cbn.
  - done.
  - f_equal. apply bool_decide_ext. split; [|done]. intros ->. destruct H2. by left.
  - rewrite decide_False; [done|]. intros ->. apply H1. by left.
  - case_decide as Hdc.
    + subst. rewrite IH; [|intros Hin; apply H1; by right|intros Hin; apply H2; by right]. f_equal. apply bool_decide_ext. split; [by intros ->|by intros [= ->]].
    + by rewrite bool_decide_eq_false_2 by (by intros [= ? _]).
Qed.

(** The entry that [dir_add] writes. *)
Lemma new_entry_ok e nm k :
  Z.of_nat (length e) = 20 → valid_name nm → in_u 32 k →
  let e' := set_entry_sector k (set_entry_name nm (set_entry_in_use true e)) in
  Z.of_nat (length e') = 20 ∧ slot_is e' (Some (nm, k)).
Proof.
  intros He (Hne & Hlen & Hz) Hk e'. unfold NAME_MAX in Hlen.
  assert (length (set_entry_in_use true e) = length e ∧ length (set_entry_name nm (set_entry_in_use true e)) = length e ∧ length e' = length e) as (L1 & L2 & L3)
    by (unfold e', set_entry_sector, set_entry_name, set_entry_in_use; by rewrite !splice_length).
  pose proof (le_bytes_length 4 k) as L4. assert (take (Z.to_nat NAME_MAX) nm = nm) as Etk by (apply take_ge; unfold NAME_MAX; lia).
  split; [by rewrite L3|]. split_and!.
  - unfold entry_in_use. apply bool_decide_eq_true_2. rewrite nth_lookup. unfold e', set_entry_sector.
    rewrite splice_lookup by (rewrite ?L2, ?L4; lia). rewrite L4, decide_False by lia. unfold set_entry_name. rewrite Etk.
    rewrite splice_lookup by (rewrite ?L1, ?length_app; cbn [length]; lia). rewrite length_app. cbn [length]. rewrite decide_False by lia.
    unfold set_entry_in_use. rewrite splice_lookup by (cbn [length]; lia). rewrite decide_True by (cbn [length]; lia). done.
  - unfold entry_sector, e', set_entry_sector. replace 4 with (Z.of_nat (length (le_bytes 4 k))) at 2 by by rewrite L4.
    rewrite slice_splice_eq by (rewrite ?L2, ?L4; lia). by apply le_value_bytes.
  - by split_and!.
  - exists (drop (S (length nm)) (entry_name e')). unfold entry_name. rewrite <-(take_drop (S (length nm)) (drop 4 e')) at 1.
    rewrite (cons_middle 0 nm), app_assoc. f_equal. assert (take (S (length nm)) (drop 4 e') = slice e' 4 (Z.of_nat (length (nm ++ [0])))) as ->
      by (unfold slice; f_equal; rewrite length_app; cbn [length]; lia).
    unfold e', set_entry_sector. rewrite slice_splice_out by (rewrite ?L4, ?L2; lia). unfold set_entry_name. rewrite Etk.
    apply slice_splice_eq; [lia|]. rewrite L1, length_app. cbn [length]. lia.
Qed.

(** The entry that [dir_remove] writes. *)
Lemma erased_entry_ok e : Z.of_nat (length e) = 20 → Z.of_nat (length (set_entry_in_use false e)) = 20 ∧ slot_is (set_entry_in_use false e) None.
Proof.
  intros He. unfold set_entry_in_use. split; [by rewrite splice_length|]. unfold slot_is, entry_in_use. apply bool_decide_eq_false_2.
  rewrite nth_lookup, splice_lookup by (cbn [length]; lia). rewrite decide_True by (cbn [length]; lia). by intros [].
Qed.

(** Writing one slot. *)
Lemma root_is_write E bs j o d :
  root_is E bs → (j < length E)%nat → Z.of_nat (length d) = 20 → slot_is d o → root_is (<[j := o]> E) (splice bs (20 * Z.of_nat j) d).
Proof.
  intros [Hl Hs] Hj Hd Ho. split; [by rewrite splice_length, length_insert|]. intros j' o' Ej'.
  destruct (decide (j' = j)) as [->|Hne].
  - rewrite list_lookup_insert_eq in Ej' by done. injection Ej' as <-. rewrite <-Hd, slice_splice_eq by lia. done.
  - rewrite list_lookup_insert_ne in Ej' by done. rewrite slice_splice_out by lia. by apply Hs.
Qed.

Section dir.
  Context {B : Type} {BD : BlockDevice B} {BL : BlockDeviceLaws B}.
  Implicit Types (s : fs B) (F : gmap Z extent) (H : list Z) (G : gmap Z file) (D : gmap Z dir).

(** ** Reading entries *)

(** The inode [p] is that of a directory with the slots [E]. *)
Definition dir_at F E p s : Prop :=
  ∃ i e, inodes s !! p = Some i ∧ F !! sector i = Some e ∧ root_is E (file_bytes (device s) e).

Lemma dir_at_touched F H G D E p s s' :
  fs_inv F H G D s → touched s (image (device s)) (free_map s) s' → dir_at F E p s → dir_at F E p s'.
Proof.
  intros [Hd _] Ht (i & e & Ei & Ee & Hr). destruct (disk_inv_touched _ _ _ Hd Ht) as [_ Hf].
  destruct (touched_same _ _ _ _ Ht) as (_ & Ein & _). exists i, e. by rewrite Ein, Hf.
Qed.

(** One read of an entry: the entry, or nothing. *)
Lemma read_entry_ok F H G D E p s j :
  fs_inv F H G D s → dir_at F E p s → (j ≤ length E)%nat →
  ∃ bs s', inode_read_at p ENTRY_SIZE (20 * Z.of_nat j) s = Ok (bs, s') ∧ touched s (image (device s)) (free_map s) s' ∧
    (bs = [] ∧ ((j < length E)%nat → ¬ fine s s') ∨
     Z.of_nat (length bs) = 20 ∧ ∃ o, E !! j = Some o ∧ slot_is bs o).
Proof.
  intros Hi (i & e & Ei & Ee & Hl & Hs) Hj. pose proof Hi as [Hd _]. destruct (di_ext _ _ _ Hd _ _ Ee) as [_ _ Hlen _ _].
  pose proof (extent_bytes _ _ _ _ _ Hd Ee). assert (Z.of_nat (length (file_bytes (device s) e)) = e.2) as Hfl by (apply slice_lengthZ; lia).
  destruct (inode_read_file F H G D s p i e ENTRY_SIZE (20 * Z.of_nat j) Hi Ei Ee) as (n & s' & E1 & Ht & Hn & Hx); [lia|].
  exists (slice (file_bytes (device s) e) (20 * Z.of_nat j) n), s'. split; [done|]. split; [done|]. unfold room, ENTRY_SIZE in *.
  destruct (decide (j < length E)%nat) as [Hlt|].
  - destruct (lookup_lt_is_Some_2 E j Hlt) as [o Eo]. destruct Hx as [->|[Hst Hz]].
    + right. replace (0 `max` (20 `min` (e.2 - 20 * Z.of_nat j))) with 20 by lia. split; [apply slice_lengthZ; lia|]. exists o. by split; [|apply Hs].
    + left. rewrite (Hz ltac:(lia)). split; [by rewrite slice_nil|]. intros _. by eapply starved_not_fine.
  - left. split; [apply slice_nil; lia|lia].
Qed.

Lemma fine_later s s1 s' img m : fine s s' → touched s img m s1 → fine s1 s'.
Proof. intros [Ha Hn] Ht. split; [by eapply ample_touched|done]. Qed.

Lemma touched_answers s img m s' : touched s img m s' → answers s' `suffix_of` answers s.
Proof. by intros (d & l & -> & ? & _). Qed.

Lemma fine_earlier s s1 s' : fine s s' → answers s' `suffix_of` answers s1 → fine s s1.
Proof. intros [Ha Hn] Hs. split; [done|]. by eapply suffix_nonempty. Qed.

(** The same image and map, so touches compose. *)
Lemma touched_again s s1 s2 :
  touched s (image (device s)) (free_map s) s1 → touched s1 (image (device s1)) (free_map s1) s2 → touched s (image (device s)) (free_map s) s2.
Proof.
  intros H1 H2. destruct (touched_wf _ _ _ _ H1) as (_ & _ & Hi & Hm). rewrite Hi, Hm in H2. by eapply touched_trans.
Qed.

Lemma lookup_loop_ok F H G D E p fuel name j s :
  fs_inv F H G D s → dir_at F E p s → 0 ∉ name → (j ≤ length E)%nat → (length E - j < fuel)%nat →
  ∃ r s', lookup_loop fuel p name (20 * Z.of_nat j) s = Ok (r, s') ∧ touched s (image (device s)) (free_map s) s' ∧
    match r with
    | Some (bs, ofs) => ∃ j' k, ofs = 20 * Z.of_nat j' ∧ E !! j' = Some (Some (name, k)) ∧ Z.of_nat (length bs) = 20 ∧ slot_is bs (Some (name, k))
    | None => fine s s' → ∀ j' k, (j ≤ j')%nat → E !! j' ≠ Some (Some (name, k))
    end.
Proof.
  revert j s. induction fuel as [|fuel IH]; intros j s Hi Hdir Hz Hj Hf; [lia|]. cbn [lookup_loop].
  assert (20 * Z.of_nat (length E) < 2 ^ 31) as Hbig.
  { destruct Hdir as (i & e & Ei & Ee & Hl & _). pose proof Hi as [Hd _]. destruct (di_ext _ _ _ Hd _ _ Ee). pose proof (extent_bytes _ _ _ _ _ Hd Ee).
    unfold file_bytes in Hl. rewrite slice_lengthZ in Hl; lia. }
  rewrite wraps_small by (unfold in_s; lia).
  destruct (read_entry_ok F H G D E p s j Hi Hdir Hj) as (bs & s1 & E1 & Ht1 & Hx). rewrite (bind_ok _ _ _ _ _ E1).
  destruct Hx as [[-> Hfine]|(Hbs & o & Eo & Ho)].
  { rewrite decide_False by done. exists None, s1. split_and!; [done..|]. intros Hfn j' k Hle E'. apply lookup_lt_Some in E'. by apply Hfine; [lia|]. }
  rewrite decide_True by done. apply lookup_lt_Some in Eo as Hlt.
  assert (∃ b, (if entry_in_use bs then lift (same_string name (entry_name bs)) else mret false) s1 = Ok (b, s1) ∧ (b = true ↔ ∃ k, o = Some (name, k))) as (b & Eb & Hb).
  { destruct o as [[nm k]|]; cbn in Ho.
    - destruct Ho as (-> & _ & (_ & _ & Hz') & junk & ->). unfold lift. rewrite same_string_ok by done. eexists. split; [done|].
      rewrite bool_decide_eq_true. naive_solver.
    - rewrite Ho. exists false. split; [done|]. naive_solver. }
  rewrite (bind_ok _ _ _ _ _ Eb). destruct b.
  - destruct (proj1 Hb eq_refl) as [k ->]. eexists _, s1. split; [done|]. split; [done|]. by exists j, k.
  - rewrite wrapu_small by (unfold in_u, ENTRY_SIZE; lia). replace (20 * Z.of_nat j + ENTRY_SIZE) with (20 * Z.of_nat (S j)) by (unfold ENTRY_SIZE; lia).
    destruct (IH (S j) s1) as (r & s2 & E2 & Ht2 & Hr); [by eapply fs_inv_touched|by eapply dir_at_touched|done|lia|lia|].
    exists r, s2. split; [done|]. split; [by eapply touched_again|]. destruct r as [[bs' ofs]|]; [done|].
    intros Hfn j' k Hle E'. destruct (decide (j' = j)) as [->|].
    + assert (o = Some (name, k)) by congruence. assert (false = true) by (apply Hb; eauto). done.
    + apply (Hr (fine_later _ _ _ _ _ Hfn Ht1) j' k); [lia|done].
Qed.

Lemma entries_bound_ok F H G D E p s :
  fs_inv F H G D s → dir_at F E p s → entries_bound p s = Ok (S (S (length E)), s).
Proof.
  intros [Hd Ht] (i & e & Ei & Ee & Hl & _). unfold entries_bound, inode_length. rewrite bind_assoc, (bind_ok _ _ _ _ _ (rd_inode_ok _ _ _ Ei)), ret_bind.
  destruct (ti_data _ _ _ _ _ Ht _ _ Ei) as (e' & Ee' & ->). assert (e' = e) as -> by congruence. cbn.
  destruct (di_ext _ _ _ Hd _ _ Ee). pose proof (extent_bytes _ _ _ _ _ Hd Ee). unfold file_bytes in Hl. rewrite slice_lengthZ in Hl by lia.
  rewrite Hl. unfold ENTRY_SIZE. rewrite (Z.mul_comm 20), Z.div_mul by lia. by rewrite Nat2Z.id.
Qed.

Lemma rd_dir_ok s d dr : dirs s !! d = Some dr → rd_dir d s = Ok (dr, s).
Proof. unfold rd_dir. by intros ->. Qed.

Lemma dir_entry_lookup_ok F H E s d dr name :
  whole F H s → dirs s !! d = Some dr → dir_at F E (dir_inode dr) s → 0 ∉ name →
  ∃ r s', dir_entry_lookup d name s = Ok (r, s') ∧ touched s (image (device s)) (free_map s) s' ∧
    match r with
    | Some (bs, ofs) => ∃ j' k, ofs = 20 * Z.of_nat j' ∧ E !! j' = Some (Some (name, k)) ∧ Z.of_nat (length bs) = 20 ∧ slot_is bs (Some (name, k))
    | None => fine s s' → ∀ j' k, E !! j' ≠ Some (Some (name, k))
    end.
Proof.
  intros Hi Ed Hdir Hz. unfold dir_entry_lookup. pose proof Hi as [_ Ht].
  rewrite bool_decide_eq_true_2 by (by eapply (ti_dirs _ _ _ _ _ Ht)). rewrite (bind_ok _ _ _ tt s) by done.
  rewrite (bind_ok _ _ _ _ _ (rd_dir_ok _ _ _ Ed)), (bind_ok _ _ _ _ _ (entries_bound_ok _ _ _ _ _ _ _ Hi Hdir)).
  destruct (lookup_loop_ok F H (files s) (dirs s) E (dir_inode dr) (S (S (length E))) name 0 s Hi Hdir Hz) as (r & s' & E1 & Ht1 & Hr); [lia..|].
  exists r, s'. split; [done|]. split; [done|]. destruct r as [[]|]; [done|]. intros Hf j' k. apply Hr; [done|lia].
Qed.

(** ** Adding and removing entries *)

Lemma free_slot_loop_ok F H G D E p fuel e j s :
  fs_inv F H G D s → dir_at F E p s → Z.of_nat (length e) = 20 → (j ≤ length E)%nat → (length E - j < fuel)%nat →
  ∃ e' j' s', free_slot_loop fuel p e (20 * Z.of_nat j) s = Ok ((e', 20 * Z.of_nat j'), s') ∧ touched s (image (device s)) (free_map s) s' ∧
    Z.of_nat (length e') = 20 ∧ (j' ≤ length E)%nat ∧
    (fine s s' → (E !! j' = Some None ∨ j' = length E) ∧ ∀ x, (j ≤ x < j')%nat → E !! x ≠ Some None).
Proof.
  revert j s e. induction fuel as [|fuel IH]; intros j s e Hi Hdir He Hj Hf; [lia|]. cbn [free_slot_loop].
  destruct (read_entry_ok F H G D E p s j Hi Hdir Hj) as (bs & s1 & E1 & Ht1 & Hx). rewrite (bind_ok _ _ _ _ _ E1).
  destruct Hx as [[-> Hfine]|(Hbs & o & Eo & Ho)].
  { rewrite decide_False by done. cbn [app length drop]. exists e, j, s1. split_and!; [done..|lia|]. intros Hfn. split; [|intros; lia].
    right. destruct (decide (j < length E)%nat) as [Hlt|]; [|lia]. by destruct (Hfine Hlt). }
  rewrite decide_True by done. rewrite drop_ge, app_nil_r by lia. apply lookup_lt_Some in Eo as Hlt. destruct (entry_in_use bs) eqn:Eu.
  - assert (20 * Z.of_nat (length E) < 2 ^ 31) as Hbig.
    { destruct Hdir as (i & e1 & Ei & Ee & Hl & _). pose proof Hi as [Hd _]. destruct (di_ext _ _ _ Hd _ _ Ee). pose proof (extent_bytes _ _ _ _ _ Hd Ee).
      unfold file_bytes in Hl. rewrite slice_lengthZ in Hl; lia. }
    rewrite wraps_small by (unfold in_s, ENTRY_SIZE; lia). replace (20 * Z.of_nat j + ENTRY_SIZE) with (20 * Z.of_nat (S j)) by (unfold ENTRY_SIZE; lia).
    destruct (IH (S j) s1 bs) as (e' & j' & s2 & E2 & Ht2 & He' & Hj' & Hr); [by eapply fs_inv_touched|by eapply dir_at_touched|done|lia|lia|].
    exists e', j', s2. split; [done|]. split; [by eapply touched_again|]. split_and!; [done..|]. intros Hfn.
    destruct (Hr (fine_later _ _ _ _ _ Hfn Ht1)) as [H1 H2]. split; [done|]. intros x Hx. destruct (decide (x = j)) as [->|]; [|apply H2; lia].
    rewrite Eo. intros [= ->]. cbn in Ho. congruence.
  - exists bs, j, s1. split_and!; [done..|lia|]. intros _. split; [|intros; lia]. left. destruct o as [[]|]; [|done]. cbn in Ho. destruct Ho. congruence.
Qed.

(** Storing one slot of the directory. *)
Lemma write_slot_ok F H G D E p i s j o d :
  fs_inv F H G D s → dir_at F E p s → inodes s !! p = Some i → (j ≤ length E)%nat → Z.of_nat (length d) = 20 → slot_is d o →
  ∃ n s' img, inode_write_at p d ENTRY_SIZE (20 * Z.of_nat j) s = Ok (n, s') ∧ touched s img (free_map s) s' ∧ fs_inv F H G D s' ∧
    data_kept F (sector i) (device s) (device s') ∧
    (n = 20 ∧ (j < length E)%nat ∧ dir_at F (<[j := o]> E) p s' ∨
     n ≠ 20 ∧ dir_at F E p s' ∧ (fine s s' ∨ ¬ starved s → denies p G = 0 → j = length E)).
Proof.
  intros Hi (i' & e & Ei' & Ee & Hroot) Ei Hj Hd Ho. assert (i' = i) as -> by congruence. pose proof Hi as [Hdk Ht].
  destruct (di_ext _ _ _ Hdk _ _ Ee) as [_ _ Hlen _ _]. pose proof Hroot as [Hl _].
  pose proof (extent_bytes _ _ _ _ _ Hdk Ee). assert (Z.of_nat (length (file_bytes (device s) e)) = e.2) as Hfl by (apply slice_lengthZ; lia).
  destruct (inode_write_file F H G D s p i e d ENTRY_SIZE (20 * Z.of_nat j) Hi Ei Ee) as (n & s' & img & E1 & Htt & Hi' & Hk & Hf & Hn & Hx);
    [lia|unfold ENTRY_SIZE; lia|].
  destruct (touched_same _ _ _ _ Htt) as (_ & Ein & _). exists n, s', img. do 4 (split; [done|]). unfold room, ENTRY_SIZE in *.
  assert (∀ E', root_is E' (file_bytes (device s') e) → dir_at F E' p s') as Hdir by (intros E' HE; exists i, e; by rewrite Ein).
  destruct (decide (n = 20)) as [->|Hne].
  - left. split; [done|]. split; [lia|]. apply Hdir. rewrite Hf, take_ge by lia. apply root_is_write; [done|lia|done..].
  - right. split; [done|]. assert (n = 0) as ->.
    { case_decide; [|done]. destruct Hx as [->|[_ Hz]]; [|apply Hz; lia]. lia. }
    split; [apply Hdir; rewrite Hf; change (take (Z.to_nat 0) d) with (@nil Z); by rewrite splice_nil|].
    intros Hfn Hden. rewrite (ti_deny _ _ _ _ _ Ht _ _ Ei), decide_True in Hx by done. destruct Hx as [Hx|[Hst _]]; [lia|].
    exfalso. destruct Hfn as [Hfn|]; [|done]. by apply (starved_not_fine _ _ _ _ Htt Hst).
Qed.

Lemma dir_add_ok F H E s d dr i name k :
  whole F H s → dirs s !! d = Some dr → dir_at F E (dir_inode dr) s → inodes s !! dir_inode dr = Some i →
  0 ∉ name → in_u 32 k → Z.of_nat (length (stack s)) = 20 →
  ∃ ok s' img, dir_add d name k s = Ok (ok, s') ∧ touched s img (free_map s) s' ∧ whole F H s' ∧
    data_kept F (sector i) (device s) (device s') ∧
    if (ok : bool) then valid_name name ∧ ∃ j, (j < length E)%nat ∧ dir_at F (<[j := Some (name, k)]> E) (dir_inode dr) s' ∧
      (fine s s' → E !! j = Some None ∧ ∀ j' k', E !! j' ≠ Some (Some (name, k')))
    else dir_at F E (dir_inode dr) s' ∧
      (fine s s' → denies (dir_inode dr) (files s) = 0 → valid_name name →
        (∃ j' k', E !! j' = Some (Some (name, k'))) ∨ ∀ j', E !! j' ≠ Some None).
Proof.
  intros Hi Ed Hdir Ei Hz Hk Hst. unfold dir_add. pose proof Hi as [Hdk Ht].
  rewrite bool_decide_eq_true_2 by (by eapply (ti_dirs _ _ _ _ _ Ht)). rewrite (bind_ok _ _ _ tt s) by done.
  assert (touched s (image (device s)) (free_map s) s) as Hrefl by (apply updated_touched, updated_refl, Hdk).
  case_decide as Hbad.
  { exists false, s, (image (device s)). split_and!; try done. intros _ _ (Hv1 & Hv2 & _). exfalso. destruct Hbad; [done|lia]. }
  assert (valid_name name) as Hv by (split_and!; [tauto|lia|done]).
  destruct (dir_entry_lookup_ok F H E s d dr name Hi Ed Hdir Hz) as (r & s1 & E1 & Ht1 & Hr). rewrite (bind_ok _ _ _ _ _ E1).
  pose proof (fs_inv_touched _ _ _ _ _ _ Hi Ht1) as Hi1. destruct (disk_inv_touched _ _ _ Hdk Ht1) as [_ Hf1].
  destruct (touched_same _ _ _ _ Ht1) as (Hsuf1 & Ein1 & Efl1 & Edr1 & _ & _ & Est1). destruct r as [[bs ofs]|].
  { exists false, s1, (image (device s)). split; [done|]. split; [done|]. split; [unfold whole; by rewrite Efl1, Edr1|].
    split; [intros ? ? _ _; apply Hf1|]. split; [exact (dir_at_touched _ _ _ _ _ _ _ _ Hi Ht1 Hdir)|]. destruct Hr as (j' & k' & _ & E' & _). eauto. }
  rewrite (bind_ok _ _ _ dr s1) by (apply rd_dir_ok; by rewrite Edr1). pose proof (dir_at_touched _ _ _ _ _ _ _ _ Hi Ht1 Hdir) as Hdir1.
  rewrite (bind_ok _ _ _ _ _ (entries_bound_ok _ _ _ _ _ _ _ Hi1 Hdir1)). rewrite (bind_ok _ _ _ (stack s) s1) by (unfold gets; by rewrite Est1).
  destruct (free_slot_loop_ok F H (files s) (dirs s) E (dir_inode dr) (S (S (length E))) (stack s) 0 s1 Hi1 Hdir1 Hst) as (e & j & s2 & E2 & Ht2 & He & Hj & Hfree); [lia..|].
  rewrite (bind_ok _ _ _ _ _ E2). destruct (new_entry_ok e name k He Hv Hk) as [He' Hslot]. pose proof (fs_inv_touched _ _ _ _ _ _ Hi1 Ht2) as Hi2.
  pose proof (dir_at_touched _ _ _ _ _ _ _ _ Hi1 Ht2 Hdir1) as Hdir2. pose proof (touched_again _ _ _ Ht1 Ht2) as Ht12.
  destruct (touched_same _ _ _ _ Ht12) as (Hsuf2 & Ein2 & Efl2 & Edr2 & _). destruct (disk_inv_touched _ _ _ Hdk Ht12) as [_ Hf2].
  destruct (touched_wf _ _ _ _ Ht12) as (_ & _ & _ & Em2).
  destruct (write_slot_ok F H (files s) (dirs s) E (dir_inode dr) i s2 j (Some (name, k))
    (set_entry_sector k (set_entry_name name (set_entry_in_use true e))) Hi2 Hdir2) as (n & s3 & img & E3 & Ht3 & Hi3 & Hk3 & Hx);
    [by rewrite Ein2|done|done|done|]. rewrite (bind_ok _ _ _ _ _ E3).
  exists (bool_decide (n = ENTRY_SIZE)), s3, img. split; [done|]. rewrite Em2 in Ht3. split; [by eapply touched_trans|].
  destruct (touched_same _ _ _ _ Ht3) as (Hsuf3 & _ & Efl3 & Edr3 & _).
  split; [unfold whole; rewrite Efl3, Edr3, Efl2, Edr2; done|]. split; [intros k1 e1 Ek1 Hne; by rewrite (Hk3 k1 e1), Hf2|].
  assert (fine s s3 → fine s1 s2 ∧ fine s s1) as Hfn.
  { intros Hfn. split; [|by eapply fine_earlier; [|etrans; [done|by eapply touched_answers]]]. eapply fine_earlier; [|done]. by eapply fine_later. }
  destruct Hx as [(-> & Hlt & Hd3)|(Hne & Hd3 & Hx)].
  - rewrite bool_decide_eq_true_2 by done. split; [done|]. exists j. split_and!; [done..|]. intros [Hf12 Hf01]%Hfn.
    destruct (Hfree Hf12) as [[?|?] _]; [|lia]. split; [done|]. by apply Hr.
  - rewrite bool_decide_eq_false_2 by done. split; [done|]. intros Hf03 Hden _. right. destruct (Hfn Hf03) as [Hf12 Hf01].
    destruct (Hfree Hf12) as [_ Hno]. intros j' Ej'. apply (Hno j'); [|done]. apply lookup_lt_Some in Ej' as Hlt'.
    rewrite (Hx (or_introl (fine_later _ _ _ _ _ Hf03 Ht12)) Hden). lia.
Qed.

(** ** Low memory *)

(** Without a bounce buffer the first entry is not read. *)
Lemma read_entry_starved F H G D E p s l :
  fs_inv F H G D s → dir_at F E p s → E ≠ [] → answers s = NULL :: l → inode_read_at p ENTRY_SIZE 0 s = Ok ([], set_answers l s).
Proof.
  intros [Hd Ht] (i & e & Ei & Ee & Hl & _) HE Ea. destruct (di_ext _ _ _ Hd _ _ Ee) as [_ _ Hlen _ _].
  pose proof (extent_bytes _ _ _ _ _ Hd Ee). assert (Z.of_nat (length (file_bytes (device s) e)) = e.2) as Hfl by (apply slice_lengthZ; lia).
  destruct (ti_data _ _ _ _ _ Ht _ _ Ei) as (e' & Ee' & Edt). assert (e' = e) as -> by congruence.
  assert (0 < Z.of_nat (length E)) by (destruct E; [done|cbn; lia]).
  unfold inode_read_at. cbn [inode_read_loop]. rewrite decide_True by done. rewrite (bind_ok _ _ _ _ _ (rd_inode_ok _ _ _ Ei)).
  assert (disk_length (data i) = e.2) as Edl by by rewrite Edt.
  rewrite chunk_ok by lia. rewrite Edl. change (0 mod 512) with 0. unfold ENTRY_SIZE. rewrite decide_False by lia.
  rewrite decide_False by (unfold BLOCK_SECTOR_SIZE; lia). unfold get_bounce, malloc, mbind, M_bind. rewrite Ea. by rewrite decide_True by (right; right; unfold pointer, NULL; lia).
Qed.

Lemma dir_add_starved F H E s d dr name k l :
  whole F H s → dirs s !! d = Some dr → dir_at F E (dir_inode dr) s → denies (dir_inode dr) (files s) = 0 → E ≠ [] →
  valid_name name → in_u 32 k → Z.of_nat (length (stack s)) = 20 → answers s = NULL :: NULL :: l → ¬ starved (set_answers l s) →
  ∃ s', dir_add d name k s = Ok (true, s') ∧ whole F H s' ∧ dirs s' = dirs s ∧ inodes s' = inodes s ∧
    dir_at F (<[0%nat := Some (name, k)]> E) (dir_inode dr) s'.
Proof.
  intros Hi Ed Hdir Hden HE Hv Hk Hst Ea Hns. pose proof Hdir as (i & _ & Ei & _). pose proof Hi as [_ Ht]. pose proof Hv as (Hv1 & Hv2 & _).
  set (s1 := set_answers (NULL :: l) s). set (s2 := set_answers l s).
  assert (touched s (image (device s)) (free_map s) s1 ∧ touched s (image (device s)) (free_map s) s2) as [Ht1 Ht2].
  { split; apply updated_touched; [exists (device s), (NULL :: l)|exists (device s), l]; rewrite Ea; split_and!; try done; try apply Hi;
      [by apply suffix_cons_r|by do 2 apply suffix_cons_r]. }
  pose proof (fs_inv_touched _ _ _ _ _ _ Hi Ht1) as Hi1. pose proof (fs_inv_touched _ _ _ _ _ _ Hi Ht2) as Hi2.
  unfold dir_add, dir_entry_lookup. rewrite bool_decide_eq_true_2 by (by eapply (ti_dirs _ _ _ _ _ Ht)). rewrite !(bind_ok _ _ _ tt s) by done.
  rewrite decide_False by (unfold NAME_MAX in *; intros [?|?]; [done|lia]). rewrite !bind_assoc, (bind_ok _ _ _ tt s) by done.
  rewrite bind_assoc, (bind_ok _ _ _ _ _ (rd_dir_ok _ _ _ Ed)), bind_assoc, (bind_ok _ _ _ _ _ (entries_bound_ok _ _ _ _ _ _ _ Hi Hdir)).
  cbn [lookup_loop]. change (i32 0) with 0.
  rewrite bind_assoc, (bind_ok _ _ _ _ _ (read_entry_starved F H _ _ E _ s (NULL :: l) Hi Hdir HE Ea)), decide_False by done.
  rewrite ret_bind. fold s1. rewrite (bind_ok _ _ _ _ _ (rd_dir_ok s1 d dr Ed)), (bind_ok _ _ _ _ _ (entries_bound_ok F H _ _ E _ s1 Hi1 Hdir)).
  rewrite (bind_ok _ _ _ (stack s) s1) by done. cbn [free_slot_loop].
  rewrite !bind_assoc, (bind_ok _ _ _ _ _ (read_entry_starved F H _ _ E _ s1 l Hi1 Hdir HE eq_refl)), decide_False by done.
  rewrite ret_bind. cbn [app length drop]. destruct (new_entry_ok (stack s) name k Hst Hv Hk) as [He' Hslot].
  destruct (write_slot_ok F H (files s) (dirs s) E (dir_inode dr) i s2 0 (Some (name, k)) _ Hi2 Hdir Ei ltac:(lia) He' Hslot) as (n & s3 & img & E3 & Ht3 & Hi3 & _ & Hx).
  change (20 * Z.of_nat 0) with 0 in E3. change (set_answers l s1) with s2. rewrite (bind_ok _ _ _ _ _ E3). exists s3.
  destruct (touched_same _ _ _ _ Ht3) as (_ & Ein3 & Efl3 & Edr3 & _). destruct Hx as [(-> & _ & Hd3)|(_ & _ & Hx)].
  - split_and!; [done|unfold whole; by rewrite Efl3, Edr3|done..].
  - specialize (Hx (or_intror Hns) Hden). by destruct E.
Qed.

End dir.
