(* ===== verification/FsSys.v ===== *)
(** * The invariant of the file system

    The state between calls of filesys/filesys.c and during them: the files of
    the disk, the slots of the root directory, the inodes that code has open.  The
    lemmas say what the steps of the functions of filesys.c do to it. *)

From S2P Require Import Prelude Bitmap BlockDevice Inode FreeMap Directory Filesys FsInv FsTable FsFile FsDir.

Section fsys.
  Context {B : Type} {BD : BlockDevice B} {BL : BlockDeviceLaws B}.
  Implicit Types (s : fs B) (F : gmap Z extent) (E : list (option (list Z * Z))) (H : list Z).

Record fsys F E (e0 e1 : extent) H s : Prop := {
  fy_mounted : mounted F e0 H s;
  fy_root : F !! 1 = Some e1;
  fy_slots : root_is E (file_bytes (device s) e1);
  fy_entry j nm k : E !! j = Some (Some (nm, k)) → k ≠ 0 ∧ k ≠ 1 ∧ is_Some (F !! k) ∧ ¬ is_removed s k;
  fy_distinct j1 j2 nm1 nm2 k : E !! j1 = Some (Some (nm1, k)) → E !! j2 = Some (Some (nm2, k)) → j1 = j2;
  fy_users f fl i : files s !! f = Some fl → f ≠ free_map_file s → inodes s !! file_inode fl = Some i → sector i ≠ 0 ∧ sector i ≠ 1;
  fy_dirs d dr i : dirs s !! d = Some dr → inodes s !! dir_inode dr = Some i → sector i = 1;
  fy_reserved : ¬ is_removed s 0 ∧ ¬ is_removed s 1;
  fy_mapfile fl : files s !! free_map_file s = Some fl → deny_write fl = false;
  fy_mapsize : byte_cnt (bit_cnt (free_map s)) ≤ e0.2;
  fy_stack : Z.of_nat (length (stack s)) = 20
}.

(** The data of all files but the free map and, unless kept by other means, the
    root directory. *)
Definition user_data F s s' : Prop := ∀ k e, F !! k = Some e → k ≠ 0 → k ≠ 1 → file_bytes (device s') e = file_bytes (device s) e.

Lemma user_data_refl F s : user_data F s s.
Proof. done. Qed.

Lemma user_data_trans F s1 s2 s3 : user_data F s1 s2 → user_data F s2 s3 → user_data F s1 s3.
Proof. intros H1 H2 k e Ek H3 H4. by rewrite (H2 k e), (H1 k e). Qed.

(** The sector of the inode of an open file. *)
Definition file_sector s (fl : file) : option Z := sector <$> inodes s !! file_inode fl.

Lemma file_open_some F E e0 e1 H s f fl : fsys F E e0 e1 H s → files s !! f = Some fl → is_Some (inodes s !! file_inode fl).
Proof. intros Hy Ef. destruct (fy_mounted _ _ _ _ _ _ Hy) as [[_ Ht] _]. apply (ti_refs _ _ _ _ _ Ht). by eapply file_ref. Qed.

Lemma dir_open_some F E e0 e1 H s d dr : fsys F E e0 e1 H s → dirs s !! d = Some dr → ∃ i, inodes s !! dir_inode dr = Some i ∧ sector i = 1.
Proof.
  intros Hy Ed. destruct (fy_mounted _ _ _ _ _ _ Hy) as [[_ Ht] _]. destruct (ti_refs _ _ _ _ _ Ht (dir_inode dr)) as [i Ei]; [by eapply dir_ref|].
  exists i. split; [done|]. by eapply fy_dirs.
Qed.

(** No file other than its own refers to the free map. *)
Lemma fsys_writable F E e0 e1 H s : fsys F E e0 e1 H s → map_writable e0 s.
Proof.
  intros Hy. split; [by eapply fy_mapsize|]. intros fl i Ef Ei. destruct (fy_mounted _ _ _ _ _ _ Hy) as [[_ Ht] (_ & _ & fl0 & i0 & Ef0 & Ei0 & Es0)].
  assert (fl0 = fl) as -> by congruence. assert (i0 = i) as -> by congruence. rewrite (ti_deny _ _ _ _ _ Ht _ _ Ei). unfold denies.
  enough (filter (λ g, file_inode g = file_inode fl ∧ deny_write g = true) (map_to_list (files s)).*2 = []) as -> by done.
  apply filter_none. intros g Hg [Eg Hd]. apply list_elem_of_fmap in Hg as ([f g'] & -> & Hg). apply elem_of_map_to_list in Hg. cbn in Eg, Hd.
  destruct (decide (f = free_map_file s)) as [->|Hne].
  - rewrite (fy_mapfile _ _ _ _ _ _ Hy _ Hg) in Hd. done.
  - rewrite <-Eg in Ei. by destruct (fy_users _ _ _ _ _ _ Hy _ _ _ Hg Hne Ei).
Qed.

(** The root directory is not written by way of a file. *)
Lemma root_not_denied F E e0 e1 H s p i : fsys F E e0 e1 H s → inodes s !! p = Some i → sector i = 1 → denies p (files s) = 0.
Proof.
  intros Hy Ei Es. unfold denies. enough (filter (λ g, file_inode g = p ∧ deny_write g = true) (map_to_list (files s)).*2 = []) as -> by done.
  apply filter_none. intros g Hg [Eg _]. apply list_elem_of_fmap in Hg as ([f g'] & -> & Hg). apply elem_of_map_to_list in Hg. cbn in Eg. subst p.
  destruct (decide (f = free_map_file s)) as [->|Hne].
  - destruct (fy_mounted _ _ _ _ _ _ Hy) as [_ (_ & _ & fl0 & i0 & Ef0 & Ei0 & Es0)]. assert (fl0 = g') as -> by congruence. assert (i0 = i) as -> by congruence. lia.
  - by destruct (fy_users _ _ _ _ _ _ Hy _ _ _ Hg Hne Ei).
Qed.

(** Every other field is kept when the tables and the slots are. *)
Lemma fsys_keep F F' E e0 e1 H H' s s' :
  fsys F E e0 e1 H s → mounted F' e0 H' s' → frame s s' → F' !! 1 = Some e1 →
  file_bytes (device s') e1 = file_bytes (device s) e1 →
  (∀ k, is_Some (F !! k) → ¬ is_removed s k → is_Some (F' !! k) ∧ ¬ is_removed s' k) →
  (sectors_kept s s' ∨ sectors_kept s' s) →
  (∀ f fl', files s' !! f = Some fl' → (∃ fl, files s !! f = Some fl ∧ file_inode fl' = file_inode fl ∧ (f = free_map_file s → deny_write fl' = deny_write fl)) ∨
     f ≠ free_map_file s ∧ ∃ i, inodes s' !! file_inode fl' = Some i ∧ sector i ≠ 0 ∧ sector i ≠ 1) →
  (∀ d dr', dirs s' !! d = Some dr' → (∃ dr, dirs s !! d = Some dr ∧ dir_inode dr' = dir_inode dr) ∨ ∃ i, inodes s' !! dir_inode dr' = Some i ∧ sector i = 1) →
  fsys F' E e0 e1 H' s'.
Proof.
  intros Hy Hm [_ _ Hff Hstk Hsz] Hr Hb Hk Hsec Hfl Hdr.
  assert (bit_cnt (free_map s') = bit_cnt (free_map s)) as Hcnt.
  { destruct (fy_mounted _ _ _ _ _ _ Hy) as [[Hd _] _], Hm as [[Hd' _] _]. by rewrite (di_cnt _ _ _ Hd), (di_cnt _ _ _ Hd'). }
  assert (∀ p i i', inodes s !! p = Some i → inodes s' !! p = Some i' → sector i' = sector i) as Hsame.
  { intros p i i' Ei Ei'. destruct Hsec as [Hsec|Hsec].
    - destruct (Hsec p i Ei) as (i1 & Ei1 & <-). congruence.
    - destruct (Hsec p i' Ei') as (i1 & Ei1 & E1). congruence. }
  destruct Hy as [Hmt Hrt Hsl Hen Hdi Hus Hds Hre Hmf Hms Hst]. split; try done.
  - by rewrite Hb.
  - intros j nm k Ej. destruct (Hen j nm k Ej) as (? & ? & ? & ?). destruct (Hk k) as [? ?]; [done..|]. done.
  - intros f fl' i' Ef Hne Ei. rewrite Hff in Hne. destruct (Hfl f fl' Ef) as [(fl & Ef0 & Eip & _)|(_ & i1 & Ei1 & ? & ?)]; [|assert (i1 = i') as -> by congruence; done].
    rewrite Eip in Ei. destruct (ti_refs _ _ _ _ _ (fi_table _ _ _ _ _ (proj1 Hmt)) (file_inode fl)) as [i Ei0]; [by eapply file_ref|].
    rewrite (Hsame _ _ _ Ei0 Ei). by eapply Hus.
  - intros d dr' i' Ed Ei. destruct (Hdr d dr' Ed) as [(dr & Ed0 & Eip)|(i1 & Ei1 & ?)]; [|assert (i1 = i') as -> by congruence; done].
    rewrite Eip in Ei. destruct (ti_refs _ _ _ _ _ (fi_table _ _ _ _ _ (proj1 Hmt)) (dir_inode dr)) as [i Ei0]; [by eapply dir_ref|].
    rewrite (Hsame _ _ _ Ei0 Ei). by eapply Hds.
  - destruct Hmt as [_ (_ & Ek0 & _)]. split; apply Hk; try tauto; [by eexists|by eexists].
  - intros fl' Ef. rewrite Hff in Ef. destruct (Hfl _ _ Ef) as [(fl & Ef0 & _ & Hd)|(? & _)]; [|done]. rewrite Hd by done. by apply Hmf.
  - by rewrite Hcnt.
  - by rewrite Hstk.
Qed.

(** Everything but the table of inodes and the answers of [malloc] is the
    same. *)
Definition calm s s' : Prop :=
  image (device s') = image (device s) ∧ free_map s' = free_map s.

Lemma calm_synced e0 s s' : calm s s' → synced e0 (device s) (free_map s) → synced e0 (device s') (free_map s').
Proof. intros [Hi Hm] (b & ? & ? & ? & Es). exists b. rewrite Hm, Hi. done. Qed.

Lemma calm_bytes s s' e : calm s s' → file_bytes (device s') e = file_bytes (device s) e.
Proof. intros [Hi _]. unfold file_bytes. by rewrite Hi. Qed.

Lemma calm_trans s1 s2 s3 : calm s1 s2 → calm s2 s3 → calm s1 s3.
Proof. intros [] []. split; congruence. Qed.

Lemma touched_calm s s' : touched s (image (device s)) (free_map s) s' → calm s s'.
Proof. intros Ht. destruct (touched_wf _ _ _ _ Ht) as (_ & _ & ? & ?). done. Qed.

Lemma fsys_touched F E e0 e1 H s s' :
  fsys F E e0 e1 H s → touched s (image (device s)) (free_map s) s' → fsys F E e0 e1 H s'.
Proof.
  intros Hy Ht. pose proof (fy_mounted _ _ _ _ _ _ Hy) as Hm. pose proof Hm as [Hi _]. destruct (touched_same _ _ _ _ Ht) as (_ & Ein & Efl & Edr & _).
  apply (fsys_keep F F E e0 e1 H H s); [done|by eapply mounted_touched; [..|by eapply fs_inv_touched]|by eapply touched_frame|by eapply fy_root| | | | |].
  - by apply calm_bytes, touched_calm.
  - intros k Hk Hr. split; [done|]. unfold is_removed. by rewrite Ein.
  - left. intros p i Ei. rewrite Ein. eauto.
  - rewrite Efl. intros f fl Ef. left. eauto.
  - rewrite Edr. intros d dr Ed. left. eauto.
Qed.

Lemma fsys_inode_open F E e0 e1 H s sec e :
  fsys F E e0 e1 H s → F !! sec = Some e → (length H < 16)%nat →
  ∃ p s', inode_open sec s = Ok (p, s') ∧ frame s s' ∧ calm s s' ∧ files s' = files s ∧ dirs s' = dirs s ∧
    (∀ k, is_removed s' k ↔ is_removed s k) ∧ sectors_kept s s' ∧
    if decide (p = NULL) then fsys F E e0 e1 H s' ∧ ¬ fine s s'
    else fsys F E e0 e1 (p :: H) s' ∧ ∃ i, inodes s' !! p = Some i ∧ sector i = sec.
Proof.
  intros Hy Ee Hh. pose proof (fy_mounted _ _ _ _ _ _ Hy) as [Hi Hmo].
  destruct (inode_open_ok F H (files s) (dirs s) s sec e Hi Ee Hh) as (p & s' & E1 & Hfr & Him & Hmp & Efl & Edr & Hrm & Hsec & Hp).
  exists p, s'. do 7 (split; [done|]).
  assert (∀ H', fs_inv F H' (files s) (dirs s) s' → fsys F E e0 e1 H' s') as Hgen.
  { intros H' Hi'. apply (fsys_keep F F E e0 e1 H H' s); [done| |done|by eapply fy_root|unfold file_bytes; by rewrite Him| |by left| |].
    - split; [unfold whole; by rewrite Efl, Edr|]. destruct Hmo as (? & ? & fl0 & i0 & Ef0 & Ei0 & Es0). destruct (Hsec _ _ Ei0) as (i1 & Ei1 & Es1).
      split_and!; [by rewrite (fr_file _ _ Hfr)|done|]. exists fl0, i1. rewrite Efl, (fr_file _ _ Hfr). split_and!; [done..|congruence].
    - intros k Hk Hr. by rewrite Hrm.
    - rewrite Efl. intros f fl Ef. left. eauto.
    - rewrite Edr. intros d dr Ed. left. eauto. }
  revert Hp. case_decide; intros [Hp1 Hp2]; (split; [by apply Hgen|done]).
Qed.

(** Dropping a reference. *)
Lemma fsys_dropped F E e0 e1 H0 H p i s s' :
  fsys F E e0 e1 H0 s → inodes s !! p = Some i →
  dropped F e0 H (files s') (dirs s') p (sector i) (removed i) s s' →
  (∀ f fl', files s' !! f = Some fl' → ∃ fl, files s !! f = Some fl ∧ file_inode fl' = file_inode fl ∧ (f = free_map_file s → deny_write fl' = deny_write fl)) →
  (∀ d dr', dirs s' !! d = Some dr' → ∃ dr, dirs s !! d = Some dr ∧ dir_inode dr' = dir_inode dr) →
  let F' := after_close H (files s') (dirs s') p (sector i) (removed i) F in
  fsys F' E e0 e1 H s' ∧ user_data F' s s' ∧ (∀ k, is_Some (F !! k) → ¬ is_removed s k → F' !! k = F !! k ∧ ¬ is_removed s' k).
Proof.
  intros Hy Ei (Hfr & Hi & Hmo & Hk & Hr & Hx & Hs & Hsec) Hfl Hdr F'.
  assert (∀ k, ¬ is_removed s k → F' !! k = F !! k) as HF.
  { intros k Hnr. unfold F', after_close. case_decide as Hf; [|done]. rewrite lookup_delete_ne; [done|]. intros <-. destruct Hnr. destruct Hf. by exists p, i. }
  assert (∀ k, is_Some (F !! k) → ¬ is_removed s k → F' !! k = F !! k ∧ ¬ is_removed s' k) as HF'.
  { intros k [e Ek] Hnr. rewrite HF by done. split; [done|]. rewrite (Hr k e); [done|]. unfold F' in HF. by rewrite HF. }
  destruct (fy_reserved _ _ _ _ _ _ Hy) as [_ Hr1]. pose proof (fy_root _ _ _ _ _ _ Hy) as Hroot.
  assert (F' !! 1 = Some e1) as Hroot' by by rewrite HF.
  split_and!; [|intros k e Ek Hk0 _; by apply (Hk k)|done].
  apply (fsys_keep F F' E e0 e1 H0 H s); [done|by split|done|done|by apply (Hk 1)| |by right| |].
  - intros k Hsk Hnr. destruct (HF' k Hsk Hnr) as [-> ?]. done.
  - intros f fl' Ef. left. by apply Hfl.
  - intros d dr' Ed. left. by apply Hdr.
Qed.

(** What an open file is to its user: the file, the position, whether it denies
    writes. *)
Definition view s (f : Z) : option (Z * Z * bool) :=
  match files s !! f with
  | Some fl => match inodes s !! file_inode fl with Some i => Some (sector i, pos fl, deny_write fl) | None => None end
  | None => None
  end.

Definition rem_same F s s' : Prop := ∀ k e, F !! k = Some e → is_removed s' k ↔ is_removed s k.

Lemma rem_same_trans F s1 s2 s3 : rem_same F s1 s2 → rem_same F s2 s3 → rem_same F s1 s3.
Proof. intros H1 H2 k e Ek. by rewrite (H2 k e Ek), (H1 k e Ek). Qed.

Lemma view_same F E e0 e1 H F' E' H' s s' f :
  fsys F E e0 e1 H s → fsys F' E' e0 e1 H' s' → files s' !! f = files s !! f → (sectors_kept s s' ∨ sectors_kept s' s) → view s' f = view s f.
Proof.
  intros Hy Hy' Ef Hsec. unfold view. rewrite Ef. destruct (files s !! f) as [fl|] eqn:Efl; [|done].
  destruct (file_open_some _ _ _ _ _ _ _ _ Hy Efl) as [i Ei]. destruct (file_open_some _ _ _ _ _ _ _ _ Hy' Ef) as [i' Ei']. rewrite Ei, Ei'.
  enough (sector i' = sector i) as -> by done. destruct Hsec as [Hsec|Hsec].
  - destruct (Hsec _ _ Ei) as (j & Ej & <-). congruence.
  - destruct (Hsec _ _ Ei') as (j & Ej & Es). congruence.
Qed.

(** A step that changes neither files nor data. *)
Record quiet F E e0 e1 H s s' : Prop := {
  qt_fsys : fsys F E e0 e1 H s';
  qt_frame : frame s s';
  qt_calm : calm s s';
  qt_files : files s' = files s;
  qt_removed : rem_same F s s';
  qt_view f : view s' f = view s f
}.

Lemma quiet_trans F E e0 e1 H H' s1 s2 s3 : quiet F E e0 e1 H s1 s2 → quiet F E e0 e1 H' s2 s3 → quiet F E e0 e1 H' s1 s3.
Proof.
  intros [] []. split; [done|by eapply fr_trans|by eapply calm_trans|congruence|by eapply rem_same_trans|congruence].
Qed.

Lemma quiet_touched F E e0 e1 H s s' : fsys F E e0 e1 H s → touched s (image (device s)) (free_map s) s' → quiet F E e0 e1 H s s'.
Proof.
  intros Hy Ht. destruct (touched_same _ _ _ _ Ht) as (_ & Ein & Efl & _).
  split; [by eapply fsys_touched|by eapply touched_frame|by apply touched_calm|done| |].
  - intros k e _. unfold is_removed. by rewrite Ein.
  - intros f. unfold view. by rewrite Ein, Efl.
Qed.

Lemma quiet_inode_open F E e0 e1 H s sec e :
  fsys F E e0 e1 H s → F !! sec = Some e → (length H < 16)%nat →
  ∃ p s', inode_open sec s = Ok (p, s') ∧ dirs s' = dirs s ∧ sectors_kept s s' ∧
    if decide (p = NULL) then quiet F E e0 e1 H s s' ∧ ¬ fine s s'
    else quiet F E e0 e1 (p :: H) s s' ∧ ∃ i, inodes s' !! p = Some i ∧ sector i = sec.
Proof.
  intros Hy Ee Hh. destruct (fsys_inode_open F E e0 e1 H s sec e Hy Ee Hh) as (p & s' & E1 & Hfr & Hc & Efl & Edr & Hrm & Hsec & Hp).
  exists p, s'. do 3 (split; [done|]). revert Hp. case_decide; intros [Hy' Hp]; (split; [|done]).
  - split; try done; [by intros k ? _|]. intros f. eapply view_same; [done..| |by left]. by rewrite Efl.
  - split; try done; [by intros k ? _|]. intros f. eapply view_same; [done..| |by left]. by rewrite Efl.
Qed.

(** Dropping a reference to a file that stays. *)
Lemma quiet_kept F E e0 e1 H0 H p i s s' :
  fsys F E e0 e1 H0 s → inodes s !! p = Some i → ¬ freed H (files s') (dirs s') p (removed i) →
  dropped F e0 H (files s') (dirs s') p (sector i) (removed i) s s' → files s' = files s →
  (∀ d dr', dirs s' !! d = Some dr' → ∃ dr, dirs s !! d = Some dr ∧ dir_inode dr' = dir_inode dr) →
  quiet F E e0 e1 H s s'.
Proof.
  intros Hy Ei Hnf Hd Efl Hdr.
  destruct (fsys_dropped F E e0 e1 H0 H p i s s' Hy Ei Hd) as (Hy' & _ & _); [rewrite Efl; intros f fl Ef; eauto|done|].
  destruct Hd as (Hfr & Hi & Hmo & Hk & Hr & Hx & Hs & Hsec). unfold after_close in *. rewrite decide_False in Hy', Hr by done. rewrite decide_False in Hx by done.
  split; [done|done|by destruct Hx|done|exact Hr|]. intros f. eapply view_same; [done..| |by right]. by rewrite Efl.
Qed.

Lemma quiet_dropped F E e0 e1 H0 H p i s s' :
  fsys F E e0 e1 H0 s → inodes s !! p = Some i → removed i = false →
  dropped F e0 H (files s') (dirs s') p (sector i) (removed i) s s' → files s' = files s →
  (∀ d dr', dirs s' !! d = Some dr' → ∃ dr, dirs s !! d = Some dr ∧ dir_inode dr' = dir_inode dr) →
  quiet F E e0 e1 H s s'.
Proof. intros Hy Ei Hnr. apply (quiet_kept F E e0 e1 H0); [done..|]. rewrite Hnr. by intros [_ ?]. Qed.

Lemma not_removed F E e0 e1 H s p i : fsys F E e0 e1 H s → inodes s !! p = Some i → ¬ is_removed s (sector i) → removed i = false.
Proof. intros Hy Ei Hr. destruct (removed i) eqn:Er; [|done]. destruct Hr. by exists p, i. Qed.

Lemma dir_open_root_ok F E e0 e1 H s :
  fsys F E e0 e1 H s → (length H < 16)%nat →
  ∃ d s', dir_open_root s = Ok (d, s') ∧ quiet F E e0 e1 H s s' ∧
    if decide (d = NULL) then dirs s' = dirs s ∧ ¬ fine s s'
    else dirs s !! d = None ∧ ∃ ip, dirs s' = <[d := Dir ip 0]> (dirs s).
Proof.
  intros Hy Hh. unfold dir_open_root. destruct (quiet_inode_open F E e0 e1 H s ROOT_DIR_SECTOR e1 Hy) as (p & s1 & E1 & Edr1 & Hsec1 & Hp);
    [by eapply fy_root|done|]. rewrite (bind_ok _ _ _ _ _ E1). destruct (decide (p = NULL)) as [->|Hpn].
  - destruct Hp as [Hq Hnf]. unfold dir_open. destruct (malloc_touched s1 (di_dev _ _ _ (fi_disk _ _ _ _ _ (proj1 (fy_mounted _ _ _ _ _ _ (qt_fsys _ _ _ _ _ _ _ Hq)))))) as (a & s2 & E2 & Ht2 & _).
    rewrite (bind_ok _ _ _ _ _ E2), decide_False by tauto. exists NULL, s2. split; [done|].
    split; [eapply quiet_trans; [done|]; apply quiet_touched; [apply Hq|done]|]. rewrite decide_True by done.
    destruct (touched_same _ _ _ _ Ht2) as (Hsuf & _ & _ & Edr2 & _). split; [congruence|]. intros Hf. apply Hnf. by eapply fine_earlier.
  - destruct Hp as [Hq (i & Ei & Es)]. pose proof (qt_fsys _ _ _ _ _ _ _ Hq) as Hy1. destruct (fy_mounted _ _ _ _ _ _ Hy1) as [Hw1 Hmo1].
    destruct (dir_open_ok F e0 H s1 p i Hw1 Hmo1 Ei) as (d & s2 & E2 & Efl2 & Hd). exists d, s2. split; [done|].
    assert (removed i = false) as Hnr by (eapply not_removed; [done..|]; rewrite Es; apply (fy_reserved _ _ _ _ _ _ Hy1)).
    destruct (decide (d = NULL)) as [->|Hdn].
    + destruct Hd as (Hnf & Edr2 & Hd). rewrite <-Efl2, <-Edr2 in Hd. assert (quiet F E e0 e1 H s1 s2) as Hq2.
      { eapply quiet_dropped; [done..|]. rewrite Edr2. intros d dr Ed. eauto. }
      split; [by eapply quiet_trans|]. split; [congruence|]. intros [Ha Hn]. apply Hnf. split; [by apply (qt_frame _ _ _ _ _ _ _ Hq)|done].
    + destruct Hd as (Hfr2 & Hm2 & Ed & Edr2 & Ein2 & Edev2 & Emp2).
      assert (sectors_kept s1 s2) as Hsec2 by (intros q j Ej; rewrite Ein2; eauto).
      assert (fsys F E e0 e1 H s2) as Hy2.
      { apply (fsys_keep F F E e0 e1 (p :: H) H s1); [done..|by eapply fy_root|by rewrite Edev2| |by left| |].
        - intros k Hk Hr. unfold is_removed. by rewrite Ein2.
        - rewrite Efl2. intros f fl Ef. left. eauto.
        - rewrite Edr2. intros d' dr' [[<- <-]|[_ E']]%lookup_insert_Some; [right; exists i; cbn; by rewrite Ein2|left; eauto]. }
      split; [|rewrite Edr1 in *; split; [done|]; eauto]. eapply quiet_trans; [done|]. split; [done|done|split; congruence|done|intros k e _; unfold is_removed; by rewrite Ein2|].
      intros f. eapply view_same; [done..|by rewrite Efl2|by left].
Qed.

Lemma dir_close_quiet F E e0 e1 H s d dr :
  fsys F E e0 e1 H s → dirs s !! d = Some dr → (length H < 16)%nat →
  ∃ s', dir_close d s = Ok (tt, s') ∧ quiet F E e0 e1 H s s' ∧ dirs s' = delete d (dirs s) ∧ sectors_kept s' s.
Proof.
  intros Hy Ed Hh. destruct (dir_open_some _ _ _ _ _ _ _ _ Hy Ed) as (i & Ei & Es).
  destruct (dir_close_ok F e0 H s d dr i (fy_mounted _ _ _ _ _ _ Hy) Ed Ei Hh) as (s' & E1 & Efl & Edr & Hd).
  exists s'. split; [done|]. split; [|split; [done|apply Hd]]. rewrite <-Efl, <-Edr in Hd. eapply quiet_dropped; [done..| |done|done|].
  - eapply not_removed; [done..|]. rewrite Es. apply (fy_reserved _ _ _ _ _ _ Hy).
  - rewrite Edr. intros d' dr' [_ E']%lookup_delete_Some. eauto.
Qed.

Lemma dir_close_null s : dir_close NULL s = Ok (tt, s).
Proof. done. Qed.

(** ** Steps that change the disk *)

(** Files are added, slots of the root directory may change. *)
Lemma fsys_update F F' E E' e0 e1 H s img m s' :
  fsys F E e0 e1 H s → touched s img m s' → disk_inv F' (device s') (free_map s') → F ⊆ F' →
  root_is E' (file_bytes (device s') e1) →
  (∀ j nm k, E' !! j = Some (Some (nm, k)) → k ≠ 0 ∧ k ≠ 1 ∧ is_Some (F' !! k) ∧ ¬ is_removed s k) →
  (∀ j1 j2 nm1 nm2 k, E' !! j1 = Some (Some (nm1, k)) → E' !! j2 = Some (Some (nm2, k)) → j1 = j2) →
  fsys F' E' e0 e1 H s'.
Proof.
  intros Hy Ht Hd Hsub Hr He Hx. destruct (touched_same _ _ _ _ Ht) as (_ & Ein & Efl & Edr & _ & Emf & Est).
  pose proof (touched_frame _ _ _ _ Ht) as [_ _ _ _ Hsz]. destruct Hy as [[[Hd0 Ht0] (Hn & Ek & Hmo)] Hrt Hsl Hen Hdi Hus Hds Hre Hmf Hms Hst].
  assert (∀ k, is_removed s' k ↔ is_removed s k) as Hrm by (intros k; unfold is_removed; by rewrite Ein).
  split; try (rewrite ?Ein, ?Efl, ?Edr, ?Emf, ?Est, ?Hrm; done).
  - split; [split; [done|]|].
    + rewrite Efl, Edr. apply (table_touched _ _ _ _ _ _ _ _ Ht). destruct Ht0. split; try done. intros p i Ei.
      destruct (ti_data p i Ei) as (e & Ee & ?). exists e. split; [by eapply lookup_weaken|done].
    + unfold map_open. rewrite Ein, Efl, Emf. split_and!; [done|by eapply lookup_weaken|done].
  - by eapply lookup_weaken.
  - intros j nm k Ej. rewrite Hrm. by eapply He.
  - by rewrite (di_cnt _ _ _ Hd), Hsz, <-(di_cnt _ _ _ Hd0).
Qed.

Lemma fsys_grow F F' E e0 e1 H s img m s' :
  fsys F E e0 e1 H s → touched s img m s' → disk_inv F' (device s') (free_map s') → F ⊆ F' →
  file_bytes (device s') e1 = file_bytes (device s) e1 → fsys F' E e0 e1 H s'.
Proof.
  intros Hy Ht Hd Hsub Hb. eapply fsys_update; [done..| | |].
  - rewrite Hb. apply Hy.
  - intros j nm k Ej. destruct (fy_entry _ _ _ _ _ _ Hy j nm k Ej) as (? & ? & [e Ek] & ?). split_and!; [done..| |done]. exists e. by eapply lookup_weaken.
  - apply (fy_distinct _ _ _ _ _ _ Hy).
Qed.

Lemma touched_view s img m s' f : touched s img m s' → view s' f = view s f.
Proof. intros Ht. destruct (touched_same _ _ _ _ Ht) as (_ & Ein & Efl & _). unfold view. by rewrite Ein, Efl. Qed.

Lemma touched_removed F s img m s' : touched s img m s' → rem_same F s s'.
Proof. intros Ht k e _. destruct (touched_same _ _ _ _ Ht) as (_ & Ein & _). unfold is_removed. by rewrite Ein. Qed.

Lemma fsys_map_file F E e0 e1 H s : fsys F E e0 e1 H s → F !! 0 = Some e0 ∧ map_file e0 s.
Proof.
  intros Hy. destruct (fy_mounted _ _ _ _ _ _ Hy) as [[_ Ht] Hmo]. split; [apply Hmo|by eapply map_open_file].
Qed.

Lemma fsys_disk F E e0 e1 H s : fsys F E e0 e1 H s → disk_inv F (device s) (free_map s).
Proof. intros Hy. apply (proj1 (fy_mounted _ _ _ _ _ _ Hy)). Qed.

Lemma fsys_dir_at F E e0 e1 H s d dr : fsys F E e0 e1 H s → dirs s !! d = Some dr → dir_at F E (dir_inode dr) s.
Proof.
  intros Hy Ed. destruct (dir_open_some _ _ _ _ _ _ _ _ Hy Ed) as (i & Ei & Es). exists i, e1. rewrite Es. split_and!; [done|apply Hy|apply Hy].
Qed.

(** A new entry in the root directory, for a file that has none. *)
Lemma fsys_dir_add F E e0 e1 H s d dr name k :
  fsys F E e0 e1 H s → dirs s !! d = Some dr → 0 ∉ name → is_Some (F !! k) → k ≠ 0 → k ≠ 1 → ¬ is_removed s k →
  (∀ j nm, E !! j ≠ Some (Some (nm, k))) →
  ∃ ok s' img, dir_add d name k s = Ok (ok, s') ∧ touched s img (free_map s) s' ∧ data_kept F 1 (device s) (device s') ∧
    if (ok : bool) then valid_name name ∧ ∃ j, (j < length E)%nat ∧ fsys F (<[j := Some (name, k)]> E) e0 e1 H s' ∧
      (fine s s' → E !! j = Some None ∧ ∀ j' k', E !! j' ≠ Some (Some (name, k')))
    else fsys F E e0 e1 H s' ∧
      (fine s s' → valid_name name → (∃ j' k', E !! j' = Some (Some (name, k'))) ∨ ∀ j', E !! j' ≠ Some None).
Proof.
  intros Hy Ed Hz [ek Ek] Hk0 Hk1 Hnr Hnew. destruct (dir_open_some _ _ _ _ _ _ _ _ Hy Ed) as (i & Ei & Es).
  pose proof (fsys_disk _ _ _ _ _ _ Hy) as Hdk. destruct (di_ext _ _ _ Hdk _ _ Ek) as [Hkr _ _ _ _].
  destruct (dir_add_ok F H E s d dr i name k) as (ok & s' & img & E1 & Ht & Hw & Hkp & Hres);
    [apply Hy|done|by eapply fsys_dir_at|done|done| |apply Hy|]. { pose proof (di_size _ _ _ Hdk). unfold in_u. lia. }
  exists ok, s', img. rewrite Es in Hkp. split_and!; [done..|].
  assert (∀ E', dir_at F E' (dir_inode dr) s' → root_is E' (file_bytes (device s') e1)) as Hat.
  { destruct (touched_same _ _ _ _ Ht) as (_ & Ein & _). intros E' (i' & e' & Ei' & Ee' & Hr'). rewrite Ein in Ei'.
    assert (i' = i) as -> by congruence. rewrite Es, (fy_root _ _ _ _ _ _ Hy) in Ee'. by injection Ee' as <-. }
  destruct ok.
  - destruct Hres as (Hv & j & Hj & Hdir & Hf). split; [done|]. exists j. split_and!; [done| |done].
    eapply fsys_update; [done..|apply Hw|done|by apply Hat| |].
    + intros j' nm k' [(<- & [= <- <-] & _)|(_ & E')]%list_lookup_insert_Some; [eauto|]. by apply (fy_entry _ _ _ _ _ _ Hy j' nm).
    + intros j1 j2 nm1 nm2 k' E1' E2'. apply list_lookup_insert_Some in E1', E2'.
      destruct E1' as [(<- & K1 & _)|(_ & E1')], E2' as [(<- & K2 & _)|(_ & E2')]; simplify_eq; [done|by destruct (Hnew _ _ E2')|by destruct (Hnew _ _ E1')|].
      by eapply (fy_distinct _ _ _ _ _ _ Hy).
  - destruct Hres as [Hdir Hf]. split.
    + eapply fsys_update; [done..|apply Hw|done|by apply Hat|apply (fy_entry _ _ _ _ _ _ Hy)|apply (fy_distinct _ _ _ _ _ _ Hy)].
    + intros Hfn. apply Hf; [done|]. by eapply root_not_denied.
Qed.

(** ** Creating a file *)

(** A step that keeps the files, and the free map on disk up to date. *)
Definition stores (e0 : extent) s s' : Prop :=
  fine s s' → synced e0 (device s) (free_map s) → synced e0 (device s') (free_map s').

Lemma fine_frame s s1 s' : fine s s' → frame s s1 → fine s1 s'.
Proof. intros [Ha Hn] Hf. split; [by apply (fr_ample _ _ Hf)|done]. Qed.

Lemma stores_trans e0 s1 s2 s3 : frame s1 s2 → frame s2 s3 → stores e0 s1 s2 → stores e0 s2 s3 → stores e0 s1 s3.
Proof.
  intros Hf1 Hf2 H1 H2 Hfn Hs. apply H2; [by eapply fine_frame|]. apply H1; [|done]. eapply fine_earlier; [done|apply Hf2].
Qed.

Lemma stores_calm e0 s s' : calm s s' → stores e0 s s'.
Proof. intros Hc _ Hs. by eapply calm_synced. Qed.

Lemma stores_touched F E e0 e1 H s img m s' :
  fsys F E e0 e1 H s → touched s img m s' → keeps_synced e0 s s' → stores e0 s s'.
Proof.
  intros Hy Ht Hk Hf. pose proof (fsys_writable _ _ _ _ _ _ Hy) as Hw. destruct (fsys_map_file _ _ _ _ _ _ Hy) as [_ [Hn _]].
  destruct Hk as [Hk|[Hk|[Hk|Hk]]]; [done| |done|done]. by destruct (starved_not_fine _ _ _ _ Ht Hk).
Qed.

(** Writing a file other than the free map. *)
Lemma stores_data F E e0 e1 H s k img s' :
  fsys F E e0 e1 H s → touched s img (free_map s) s' → data_kept F k (device s) (device s') → k ≠ 0 → stores e0 s s'.
Proof.
  intros Hy Ht Hk Hne _ Hs. destruct (fsys_map_file _ _ _ _ _ _ Hy) as [E0 _]. destruct (touched_wf _ _ _ _ Ht) as (_ & _ & _ & ->).
  apply (synced_data _ (device s)); [by apply (Hk 0)| |apply Hy|done]. by destruct (di_ext _ _ _ (fsys_disk _ _ _ _ _ _ Hy) _ _ E0).
Qed.

Lemma fsys_allocate F E e0 e1 H s :
  fsys F E e0 e1 H s →
  ∃ r s' img m', free_map_allocate 1 s = Ok (r, s') ∧ touched s img m' s' ∧ fsys F E e0 e1 H s' ∧
    data_kept F 0 (device s) (device s') ∧ stores e0 s s' ∧
    match r with
    | Some k => reserved F s' k ∧ ∃ i, k = Z.of_nat i ∧ bools (free_map s) !! i = Some false ∧
        bools (free_map s') = set_range i 1 true (bools (free_map s))
    | None => bools (free_map s') = bools (free_map s) ∧ (fine s s' → first_group 0 1 false (bools (free_map s)) = None)
    end.
Proof.
  intros Hy. pose proof (fsys_disk _ _ _ _ _ _ Hy) as Hdk. pose proof (fsys_map_file _ _ _ _ _ _ Hy) as Hmf.
  destruct (free_map_allocate_ok F e0 s 1 Hdk (or_intror Hmf)) as (r & s' & img & m' & E1 & Ht & Hd' & Hk & Hal & Hfail & Hks); [lia|].
  exists r, s', img, m'. split_and!; [done..| |done|by eapply stores_touched|].
  - eapply fsys_grow; [done..|]. apply (Hk 1); [apply Hy|done].
  - pose proof (touched_wf _ _ _ _ Ht) as (_ & Hsz & _ & Em). rewrite Em. destruct r as [k|].
    + destruct (allocated_fresh F _ _ _ 1 _ Hdk ltac:(lia) Hal) as (H1 & H2 & H3 & H4 & H5). split.
      * split_and!; [lia|rewrite Hsz; lia|rewrite Em; apply H3; lia|]. intros k' e' Ek' Ho. apply (H5 k' e' k Ek' Ho). lia.
      * destruct Hal as (i & -> & Hg & Hb). exists i. split_and!; [done| |done]. apply (group_free _ _ i i Hg). lia.
    + split; [exact Hal|]. intros Hf. destruct Hfail as [?|[Hw|Hst]]; [done|done| |]; exfalso.
      * apply Hw. by eapply fsys_writable.
      * by eapply (starved_not_fine _ _ _ _ Ht).
Qed.

(** Giving back a sector that belongs to no file. *)
Lemma fsys_release F E e0 e1 H s k :
  fsys F E e0 e1 H s → reserved F s k →
  ∃ s' img m', free_map_release k 1 s = Ok (tt, s') ∧ touched s img m' s' ∧ fsys F E e0 e1 H s' ∧
    data_kept F 0 (device s) (device s') ∧ stores e0 s s' ∧
    bools (free_map s') = set_range (Z.to_nat k) 1 false (bools (free_map s)).
Proof.
  intros Hy (Hr & Hm & Ho). pose proof (fsys_disk _ _ _ _ _ _ Hy) as Hdk. destruct (fsys_map_file _ _ _ _ _ _ Hy) as [E0 Hmf].
  destruct (free_map_release_ok F e0 s k 1 Hdk E0 Hmf) as (s' & img & m' & E1 & Ht & Hd' & Hk & Hb & Hks); [lia..| | |].
  { intros x Hx. by assert (x = k) as -> by lia. } { intros k' e' x Ek' Hox Hx. assert (x = k) as -> by lia. by eapply Ho. }
  exists s', img, m'. split_and!; [done..| |done|by eapply stores_touched|].
  - eapply fsys_grow; [done..|]. apply (Hk 1); [apply Hy|done].
  - by destruct (touched_wf _ _ _ _ Ht) as (_ & _ & _ & ->).
Qed.

(** A new file in a sector that belongs to none. *)
Lemma fsys_inode_create F E e0 e1 H s k len :
  fsys F E e0 e1 H s → reserved F s k → 0 ≤ len < 2 ^ 31 →
  ∃ r s' img m', inode_create k len s = Ok (bool_decide (is_Some r), s') ∧ touched s img m' s' ∧
    data_kept F 0 (device s) (device s') ∧ stores e0 s s' ∧ fsys F E e0 e1 H s' ∧
    match r with
    | Some e => e.2 = len ∧ F !! k = None ∧ fsys (<[k := e]> F) E e0 e1 H s' ∧ file_bytes (device s') e = replicate (Z.to_nat len) 0 ∧
        allocated (nsec len) (free_map s) (Some e.1) (free_map s')
    | None => bools (free_map s') = bools (free_map s) ∧
        (fine s s' → first_group 0 (Z.to_nat (bytes_to_sectors len)) false (bools (free_map s)) = None)
    end.
Proof.
  intros Hy Hres Hlen. pose proof (fsys_disk _ _ _ _ _ _ Hy) as Hdk. pose proof (fsys_map_file _ _ _ _ _ _ Hy) as [E0 Hmf].
  destruct (inode_create_ok F e0 s k len Hdk) as (r & s' & img & m' & E1 & Ht & Hcr & Hk & Hmk & Hf); [by right|done|done|].
  pose proof (touched_wf _ _ _ _ Ht) as (_ & _ & _ & Em). pose proof (fsys_writable _ _ _ _ _ _ Hy) as Hw.
  assert (file_bytes (device s') e1 = file_bytes (device s) e1) as Hb by (apply (Hk 1); [apply Hy|done]).
  exists r, s', img, m'. split_and!; [done..|intros Hfn; apply Hf; [done..|apply Hmf]| |].
  - eapply fsys_grow; [done..| |done|done]. destruct r as [e|]; [|apply Hcr]. destruct Hcr as (_ & En & Hd & _). rewrite <-(delete_insert_id F k e) by done. by apply disk_inv_delete.
  - destruct r as [e|].
    + destruct Hcr as (El & En & Hd & Hz & Hal). split_and!; [done|done| |done|done]. eapply fsys_grow; [done..|by apply insert_subseteq|done].
    + destruct Hcr as [_ Hbl]. split; [done|]. intros Hfn. by apply Hf.
Qed.

Lemma user_data_kept F k s s' : data_kept F k (device s) (device s') → k = 0 ∨ k = 1 → user_data F s s'.
Proof. intros Hk Hor k' e Ek H0 H1. apply (Hk k'); [done|lia]. Qed.

Lemma fine_split s s1 s' : fine s s' → frame s s1 → frame s1 s' → fine s s1 ∧ fine s1 s'.
Proof. intros Hf H1 H2. split; [eapply fine_earlier; [done|apply H2]|by eapply fine_frame]. Qed.

Lemma not_file_removed F E e0 e1 H s k : fsys F E e0 e1 H s → F !! k = None → ¬ is_removed s k.
Proof.
  intros Hy En (p & i & Ei & Es & _). destruct (fy_mounted _ _ _ _ _ _ Hy) as [[_ Ht] _]. destruct (ti_data _ _ _ _ _ Ht _ _ Ei) as (e & Ee & _).
  congruence.
Qed.

(** There is no free sector for the inode, or none for the data once there is
    one for the inode. *)
Definition no_room (m : bitmap) (len : Z) : Prop :=
  first_group 0 1 false (bools m) = None ∨
  ∃ i, bools m !! i = Some false ∧ first_group 0 (Z.to_nat (bytes_to_sectors len)) false (set_range i 1 true (bools m)) = None.

(** The data of a file that was not entered in the directory. *)
Definition leaked F (len : Z) s (k : Z) s' : Prop :=
  ∃ i e, k = Z.of_nat i ∧ bools (free_map s) !! i = Some false ∧ e.2 = len ∧ F !! k = None ∧ disk_inv (<[k := e]> F) (device s') (free_map s') ∧
    ∃ j, e.1 = Z.of_nat j ∧ is_group (Z.to_nat (nsec len)) false (set_range i 1 true (bools (free_map s))) j ∧
      bools (free_map s') = set_range j (Z.to_nat (nsec len)) true (set_range i 1 true (bools (free_map s))).

(** The calls that [filesys_create] makes when the root directory is open. *)
Definition create_chain (d : Z) (name : list Z) (len : Z) : M (fs B) (bool * Z) :=
  a ← free_map_allocate 1;
  match a with
  | Some sec =>
      ok ← inode_create sec len;
      if (ok : bool) then ok ← dir_add d name sec; mret (ok, sec) else mret (false, sec)
  | None => mret (false, 0)
  end.

(** A new file with a new entry. *)
Definition new_file F E e0 e1 H (name : list Z) (len : Z) s s' : Prop :=
  ∃ k e j, F !! k = None ∧ k ≠ 0 ∧ k ≠ 1 ∧ e.2 = len ∧ valid_name name ∧ (j < length E)%nat ∧
    fsys (<[k := e]> F) (<[j := Some (name, k)]> E) e0 e1 H s' ∧ file_bytes (device s') e = replicate (Z.to_nat len) 0 ∧
    (fine s s' → E !! j = Some None ∧ ∀ j' k', E !! j' ≠ Some (Some (name, k'))).

(** Why a file could not be created. *)
Definition create_fails E (name : list Z) (len : Z) s : Prop :=
  ¬ valid_name name ∨ (∃ j k, E !! j = Some (Some (name, k))) ∨ (∀ j, E !! j ≠ Some None) ∨ no_room (free_map s) len.

Lemma reserved_not_file F E e0 e1 H s k : fsys F E e0 e1 H s → reserved F s k → k ≠ 0 ∧ k ≠ 1 ∧ F !! k = None.
Proof.
  intros Hy (_ & _ & Ho). destruct (fsys_map_file _ _ _ _ _ _ Hy) as [E0 _]. split_and!.
  - intros ->. apply (Ho _ _ E0). by left.
  - intros ->. apply (Ho 1 e1); [apply Hy|by left].
  - destruct (F !! k) eqn:Ek; [|done]. exfalso. apply (Ho _ _ Ek). by left.
Qed.

Lemma reserved_new F d m s k e : disk_inv (<[k := e]> F) d m → F !! k = None → d = device s → m = free_map s → reserved F s k.
Proof.
  intros Hd En -> ->. assert (<[k := e]> F !! k = Some e) as Ek by apply lookup_insert_eq. split; [|split].
  - by destruct (di_ext _ _ _ Hd _ _ Ek).
  - eapply (di_marked _ _ _ Hd); [done|by left].
  - intros k' e' Ek' Ho. assert (k' ≠ k) as Hne by congruence. destruct Hne. apply (di_apart _ _ _ Hd k' e' k e k); [by rewrite lookup_insert_ne by congruence|done..|by left].
Qed.

Lemma create_chain_ok F E e0 e1 H s d dr name len :
  fsys F E e0 e1 H s → dirs s !! d = Some dr → 0 ∉ name → 0 ≤ len < 2 ^ 31 →
  ∃ (ok : bool) k s' img m', create_chain d name len s = Ok ((ok, k), s') ∧ touched s img m' s' ∧ user_data F s s' ∧ stores e0 s s' ∧
    if ok then new_file F E e0 e1 H name len s s'
    else fsys F E e0 e1 H s' ∧ (k = 0 ∨ reserved F s' k) ∧ (fine s s' → create_fails E name len s) ∧
      (fine s s' → ¬ no_room (free_map s) len → leaked F len s k s').
Proof.
  intros Hy Ed Hz Hlen. unfold create_chain.
  destruct (fsys_allocate F E e0 e1 H s Hy) as (r & s1 & img1 & m1 & E1 & Ht1 & Hy1 & Hk1 & Hs1 & Hr). rewrite (bind_ok _ _ _ _ _ E1).
  pose proof (user_data_kept _ _ _ _ Hk1 ltac:(by left)) as Hu1. pose proof (touched_frame _ _ _ _ Ht1) as Hf1.
  destruct r as [k|].
  2: { destruct Hr as [_ Hr]. exists false, 0, s1, img1, m1. split_and!; [done..|by left| |].
    - intros Hf. do 3 right. left. by apply Hr.
    - intros Hf []. left. by apply Hr. }
  destruct Hr as (Hres & i & Hki & Hi & Hb1). destruct (reserved_not_file _ _ _ _ _ _ _ Hy1 Hres) as (Hk0 & Hkr & Hkn).
  destruct (fsys_inode_create F E e0 e1 H s1 k len Hy1 Hres Hlen) as (r & s2 & img2 & m2 & E2 & Ht2 & Hk2 & Hs2 & Hy2 & Hr). rewrite (bind_ok _ _ _ _ _ E2).
  pose proof (user_data_kept _ _ _ _ Hk2 ltac:(by left)) as Hu2. pose proof (touched_frame _ _ _ _ Ht2) as Hf2.
  pose proof (touched_trans _ _ _ _ _ _ _ Ht1 Ht2) as Ht12. pose proof (user_data_trans _ _ _ _ Hu1 Hu2) as Hu12.
  pose proof (stores_trans _ _ _ _ Hf1 Hf2 Hs1 Hs2) as Hs12. pose proof (touched_same _ _ _ _ Ht12) as (_ & Ein & _ & Edr & _).
  destruct r as [e|].
  2: { destruct Hr as [Hb2 Hr]. rewrite bool_decide_eq_false_2 by by intros []. exists false, k, s2, img2, m2.
    assert (fine s s2 → no_room (free_map s) len) as Hnr.
    { intros [_ Hf]%(fine_split _ s1); [|done..]. right. exists i. rewrite <-Hb1. eauto. }
    split_and!; [done..| | |tauto].
    - right. destruct Hres as (? & Hm & ?). split; [by rewrite (fr_size _ _ Hf2)|]. split; [|done]. unfold marked. by rewrite Hb2.
    - intros Hf. do 3 right. by apply Hnr. }
  destruct Hr as (El & _ & Hy2' & Hzero & Hal). rewrite bool_decide_eq_true_2 by by eexists.
  destruct (fsys_dir_add (<[k := e]> F) E e0 e1 H s2 d dr name k Hy2') as (ok & s3 & img3 & E3 & Ht3 & Hk3 & Hr);
    [by rewrite Edr|done|rewrite lookup_insert_eq; by eexists|done|done|by eapply (not_file_removed F)| |].
  { intros j nm Ej. destruct (fy_entry _ _ _ _ _ _ Hy _ _ _ Ej) as (_ & _ & [? ?] & _). congruence. }
  rewrite (bind_ok _ _ _ _ _ E3). pose proof (touched_frame _ _ _ _ Ht3) as Hf3.
  assert (stores e0 s2 s3) as Hs3 by (eapply (stores_data _ _ _ _ _ _ 1); done).
  assert (user_data F s2 s3) as Hu3. { intros k' e' Ek' _ ?. apply (Hk3 k'); [by rewrite lookup_insert_ne by congruence|done]. }
  exists ok, k, s3, img3, (free_map s2). split_and!; [done|by eapply touched_trans|by eapply user_data_trans|eapply stores_trans; [by eapply fr_trans|done..]|].
  destruct ok.
  - destruct Hr as (Hv & j & Hj & Hy3 & Hfj). exists k, e, j. split_and!; [done..| |].
    + rewrite <-Hzero. apply (Hk3 k); [by rewrite lookup_insert_eq|done].
    + intros [_ ?]%(fine_split _ s2); [|by eapply fr_trans|done]. by apply Hfj.
  - destruct Hr as [Hy3 Hfj]. pose proof (fsys_disk _ _ _ _ _ _ Hy3) as Hd3. split_and!.
    + eapply (fsys_update F F E E _ _ _ s2); [done..| |done|apply Hy3|apply Hy2|apply Hy2].
      rewrite <-(delete_insert_id F k e) by done. by apply disk_inv_delete.
    + right. by eapply reserved_new.
    + intros [_ Hf]%(fine_split _ s2); [|by eapply fr_trans|done]. destruct (decide (valid_name name)) as [Hv|]; [|by left].
      right. destruct (Hfj Hf Hv); [by left|by right; left].
    + intros _ _. exists i, e. split_and!; [done..|]. destruct Hal as (j & Hj & Hg & Hb). rewrite Hb1 in Hg, Hb. exists j. split_and!; [done..|].
      by destruct (touched_wf _ _ _ _ Ht3) as (_ & _ & _ & ->).
Qed.

Lemma filesys_create_eq name len :
  filesys_create name len =
  (d ← dir_open_root;
   '(success, sec) ← (if decide (d ≠ NULL) then create_chain d name len else mret (false, 0));
   (if decide (success = false ∧ sec ≠ 0) then free_map_release sec 1 else mret tt);;
   dir_close d;;
   mret success).
Proof. done. Qed.

(** The effect of a call on everything but the files it is about. *)
Record mild F e0 s s' : Prop := {
  md_frame : frame s s';
  md_stores : stores e0 s s';
  md_data : user_data F s s';
  md_removed : rem_same F s s'
}.
Definition effect F e0 s s' : Prop := mild F e0 s s' ∧ ∀ f, view s' f = view s f.

Lemma mild_trans F e0 s1 s2 s3 : mild F e0 s1 s2 → mild F e0 s2 s3 → mild F e0 s1 s3.
Proof.
  intros [] []. split; [by eapply fr_trans|by eapply stores_trans|by eapply user_data_trans|by eapply rem_same_trans].
Qed.

Lemma effect_refl F e0 s : effect F e0 s s.
Proof. split; [|done]. split; [apply fr_refl|by intros _|done|by intros k e]. Qed.

Lemma effect_trans F e0 s1 s2 s3 : effect F e0 s1 s2 → effect F e0 s2 s3 → effect F e0 s1 s3.
Proof. intros [] []. split; [by eapply mild_trans|congruence]. Qed.

Lemma quiet_effect F E e0 e1 H s s' : quiet F E e0 e1 H s s' → effect F e0 s s'.
Proof. intros [Hy Hf Hc Hfl Hr Hv]. split; [|done]. split; [done|by apply stores_calm|intros k e _ _ _; by apply calm_bytes|done]. Qed.

Lemma touched_effect F e0 s img m s' : touched s img m s' → stores e0 s s' → user_data F s s' → effect F e0 s s'.
Proof.
  intros Ht Hs Hu. split; [|intros f; by eapply touched_view]. split; [by eapply touched_frame|done|done|by eapply touched_removed].
Qed.

Lemma new_file_quiet F E e0 e1 H H' name len s0 s s1 s' :
  frame s0 s → frame s1 s' →
  (∀ F' E', fsys F' E' e0 e1 H s1 → fsys F' E' e0 e1 H' s' ∧ calm s1 s') →
  new_file F E e0 e1 H name len s s1 → new_file F E e0 e1 H' name len s0 s'.
Proof.
  intros Hf0 Hf Hq (k & e & j & Hn & H0 & H1 & El & Hv & Hj & Hy & Hz & Hfn). destruct (Hq _ _ Hy) as [Hy' Hc].
  exists k, e, j. split_and!; [done..| |].
  - by rewrite (calm_bytes _ _ _ Hc).
  - intros Hfi. apply Hfn. eapply fine_earlier; [|apply Hf]. by eapply fine_frame.
Qed.

(** The effect on the files of [F] alone, when files have been added. *)
Lemma effect_weaken F F' e0 s s' : F ⊆ F' → effect F' e0 s s' → effect F e0 s s'.
Proof.
  intros Hs [[Hf Hst Hd Hr] Hv]. split; [|done]. split; [done..| |].
  - intros k e Ek. apply (Hd k). by eapply lookup_weaken.
  - intros k e Ek. apply (Hr k e). by eapply lookup_weaken.
Qed.

(** Sectors that were free are in use, and those of no file. *)
Definition leak (len : Z) s s' : Prop :=
  ∃ j, is_group (Z.to_nat (nsec len)) false (bools (free_map s)) j ∧
    bools (free_map s') = set_range j (Z.to_nat (nsec len)) true (bools (free_map s)).

Lemma leak_bits i j n l :
  l !! i = Some false → is_group n false (set_range i 1 true l) j →
  is_group n false l j ∧ set_range i 1 false (set_range j n true (set_range i 1 true l)) = set_range j n true l.
Proof.
  intros Ei Hg. assert (∀ x, (j ≤ x < j + n)%nat → x ≠ i ∧ l !! x = Some false) as Hfree.
  { intros x Hx. pose proof (group_free _ _ _ _ Hg Hx) as Ex. rewrite set_range_lookup in Ex. revert Ex. case_decide as Hd; intros Ex.
    - destruct (l !! x); done.
    - split; [lia|]. by destruct (l !! x). }
  split.
  - destruct Hg as [Hlen Hg]. rewrite set_range_length in Hlen. split; [done|]. intros Hin. apply elem_of_range in Hin as (x & Hx & Ex).
    destruct (Hfree x Hx) as [_ Ef]. rewrite Ef in Ex. done.
  - apply list_eq. intros x. rewrite !set_range_lookup. destruct (decide (x = i)) as [->|].
    + rewrite !(decide_True (P := (i ≤ i < i + 1)%nat)) by lia. rewrite Ei. rewrite decide_False; [done|]. intros Hx. by destruct (Hfree i Hx).
    + rewrite !(decide_False (P := (i ≤ x < i + 1)%nat)) by lia. by destruct (l !! x).
Qed.

Lemma release_unused F E e0 e1 H len s0 s k :
  fsys F E e0 e1 H s → k = 0 ∨ reserved F s k →
  ∃ s' img m', (if decide (false = false ∧ k ≠ 0) then free_map_release k 1 else mret tt) s = Ok (tt, s') ∧ touched s img m' s' ∧
    fsys F E e0 e1 H s' ∧ effect F e0 s s' ∧ (leaked F len s0 k s → leak len s0 s').
Proof.
  intros Hy Hk. case_decide as Hdec.
  - destruct Hk as [->|Hk]; [tauto|]. destruct (fsys_release _ _ _ _ _ _ _ Hy Hk) as (s3 & img3 & m3 & E3 & Ht3 & Hy3 & Hkp & Hs3 & Hb3).
    exists s3, img3, m3. split_and!; [done..|eapply touched_effect; [done..|eapply user_data_kept; [done|by left]]|].
    intros (i & e & -> & Ei & _ & _ & _ & j & _ & Hg & Hb). destruct (leak_bits _ _ _ _ Ei Hg) as [Hg' Hl]. exists j. split; [done|].
    by rewrite Hb3, Nat2Z.id, Hb.
  - exists s, (image (device s)), (free_map s). split_and!; [done| |done|apply effect_refl|].
    + exists (device s), (answers s). split; [by destruct s|]. split; [done|]. split; [apply (fsys_disk _ _ _ _ _ _ Hy)|done].
    + intros (i & e & _ & _ & _ & En & _). assert (k = 0) as -> by (destruct (decide (k = 0)); tauto). destruct (fsys_map_file _ _ _ _ _ _ Hy). congruence.
Qed.

Lemma filesys_create_ok F E e0 e1 s name len :
  fsys F E e0 e1 [] s → 0 ∉ name → 0 ≤ len < 2 ^ 31 →
  ∃ (ok : bool) s', filesys_create name len s = Ok (ok, s') ∧ effect F e0 s s' ∧
    if ok then new_file F E e0 e1 [] name len s s'
    else fsys F E e0 e1 [] s' ∧ (fine s s' → create_fails E name len s) ∧ (fine s s' → ¬ no_room (free_map s) len → leak len s s').
Proof.
  intros Hy Hz Hlen. rewrite filesys_create_eq.
  destruct (dir_open_root_ok F E e0 e1 [] s Hy) as (d & s1 & E1 & Hq1 & Hd); [cbn; lia|]. rewrite (bind_ok _ _ _ _ _ E1).
  pose proof (quiet_effect _ _ _ _ _ _ _ Hq1) as He1. pose proof (qt_frame _ _ _ _ _ _ _ Hq1) as Hf1. destruct (decide (d = NULL)) as [->|Hdn].
  { rewrite decide_False by tauto. rewrite ret_bind, decide_False by tauto. rewrite ret_bind. exists false, s1.
    split; [done|]. split; [done|]. split; [apply Hq1|]. destruct Hd as [_ Hnf]. done. }
  destruct Hd as [Hdfree [ip Edr1]]. rewrite decide_True by done. assert (dirs s1 !! d = Some (Dir ip 0)) as Ed1 by (rewrite Edr1; apply lookup_insert_eq).
  destruct (create_chain_ok F E e0 e1 [] s1 d _ name len (qt_fsys _ _ _ _ _ _ _ Hq1) Ed1 Hz Hlen) as (ok & k & s2 & img2 & m2 & E2 & Ht2 & Hu2 & Hs2 & Hr).
  rewrite (bind_ok _ _ _ _ _ E2). pose proof (touched_effect F e0 _ _ _ _ Ht2 Hs2 Hu2) as He2. pose proof (touched_frame _ _ _ _ Ht2) as Hf2.
  assert (dirs s2 !! d = Some (Dir ip 0)) as Ed2 by (destruct (touched_same _ _ _ _ Ht2) as (_ & _ & _ & -> & _); done).
  destruct ok.
  - rewrite decide_False by naive_solver. rewrite ret_bind. pose proof Hr as (k' & e & j & En & _ & _ & _ & _ & _ & Hy2 & _).
    destruct (dir_close_quiet _ _ _ _ _ _ _ _ Hy2 Ed2) as (s3 & E3 & Hq3 & _); [cbn; lia|]. rewrite (bind_ok _ _ _ _ _ E3). exists true, s3. split; [done|].
    split. { eapply effect_trans; [done|]. eapply effect_trans; [done|]. eapply effect_weaken; [|by eapply quiet_effect]. by apply insert_subseteq. }
    eapply (new_file_quiet _ _ _ _ [] [] _ _ _ s1 s2 s3); [done|apply Hq3| |done]. intros F' E' Hy'.
    destruct (dir_close_quiet _ _ _ _ _ _ _ _ Hy' Ed2) as (s3' & E3' & Hq3' & _); [cbn; lia|]. rewrite E3 in E3'. injection E3' as <-. split; apply Hq3'.
  - destruct Hr as (Hy2 & Hk & Hcf & Hlk).
    destruct (release_unused F E e0 e1 [] len s1 s2 k Hy2 Hk) as (s3 & img3 & m3 & E3 & Ht3 & Hy3 & He3 & Hl3).
    rewrite (bind_ok _ _ _ _ _ E3). pose proof (touched_frame _ _ _ _ Ht3) as Hf3.
    destruct (dir_close_quiet F E e0 e1 [] s3 d (Dir ip 0) Hy3) as (s4 & E4 & Hq4 & _);
      [by destruct (touched_same _ _ _ _ Ht3) as (_ & _ & _ & -> & _)|cbn; lia|].
    rewrite (bind_ok _ _ _ _ _ E4). exists false, s4. split; [done|].
    split. { eapply effect_trans; [done|]. eapply effect_trans; [done|]. eapply effect_trans; [done|]. by eapply quiet_effect. }
    pose proof (proj2 (qt_calm _ _ _ _ _ _ _ Hq1)) as Em1. pose proof (proj2 (qt_calm _ _ _ _ _ _ _ Hq4)) as Em4.
    assert (fine s s4 → fine s1 s2) as Hfine.
    { intros Hf. eapply fine_earlier; [by eapply fine_frame|]. etrans; [apply Hq4|]. apply Hf3. }
    split_and!; [apply Hq4|intros Hf; pose proof (Hcf (Hfine Hf)) as Hc; unfold create_fails in *; by rewrite Em1 in Hc|].
    intros Hf Hnr. rewrite <-Em1 in Hnr. pose proof (Hl3 (Hlk (Hfine Hf) Hnr)) as Hl. unfold leak in *. by rewrite Em4, <-Em1.
Qed.

End fsys.
