(* ===== verification/FsCalls.v ===== *)
(** * The calls of the file system

    What opening, removing, closing, reading and writing files do to the files
    of the disk, the root directory and the open files. *)

From S2P Require Import Prelude Bitmap BlockDevice Inode FreeMap Directory Filesys FsInv FsTable FsFile FsDir FsSys.

Section calls.
  Context {B : Type} {BD : BlockDevice B} {BL : BlockDeviceLaws B}.
  Implicit Types (s : fs B) (F : gmap Z extent) (E : list (option (list Z * Z))) (H : list Z).

(** ** Opening *)

Lemma held_inode F E e0 e1 H s p : fsys F E e0 e1 H s → p ∈ H → is_Some (inodes s !! p).
Proof.
  intros Hy Hp. destruct (fy_mounted _ _ _ _ _ _ Hy) as [[_ Ht] _]. apply (ti_refs _ _ _ _ _ Ht). unfold refs. rewrite !elem_of_app. by right; right.
Qed.

(** An inode that is held becomes an open file.  The last condition on the inode
    holds for files in the directory and for files that are open. *)
Lemma file_open_quiet F E e0 e1 H s ip i :
  fsys F E e0 e1 (ip :: H) s → inodes s !! ip = Some i → sector i ≠ 0 → sector i ≠ 1 →
  ¬ freed H (files s) (dirs s) ip (removed i) →
  ∃ f s', file_open ip s = Ok (f, s') ∧ mild F e0 s s' ∧ fsys F E e0 e1 H s' ∧ dirs s' = dirs s ∧
    if decide (f = NULL) then (∀ g, view s' g = view s g) ∧ ¬ fine s s'
    else files s !! f = None ∧ ∀ g, view s' g = if decide (g = f) then Some (sector i, 0, false) else view s g.
Proof.
  intros Hy Ei H0 H1 Hnf. destruct (fy_mounted _ _ _ _ _ _ Hy) as [Hw Hmo].
  destruct (file_open_ok F e0 H s ip i Hw Hmo Ei) as (f & s' & E1 & Edr & Hr). exists f, s'. split; [done|].
  destruct (decide (f = NULL)) as [->|Hfn].
  - destruct Hr as (Hnfine & Efl & Hd). rewrite <-Efl, <-Edr in Hd, Hnf.
    assert (quiet F E e0 e1 H s s') as Hq by (eapply quiet_kept; [done..|]; rewrite Edr; eauto).
    split; [by eapply (quiet_effect _ _ _ _ _ _ _ Hq)|]. split; [apply Hq|]. split; [done|]. split; [apply Hq|done].
  - destruct Hr as (Hfr & Hm & Efree & Efl & Ein & Edev & Emap).
    assert (∀ k, is_removed s' k ↔ is_removed s k) as Hrm by (intros k; unfold is_removed; by rewrite Ein).
    split; [split; [done|intros _; by rewrite Edev, Emap|intros k e _ _ _; by rewrite Edev|by intros k e _]|].
    split; [|split; [done|split; [done|]]].
    + apply (fsys_keep F F E e0 e1 (ip :: H) H s); [done..|apply Hy|by rewrite Edev|intros k; by rewrite Hrm|left; intros q j Ej; rewrite Ein; eauto| |].
      * rewrite Efl. intros g gl [[<- <-]|[_ Eg]]%lookup_insert_Some; [right|left; eauto]. split; [|rewrite Ein; eauto].
        intros ->. destruct Hmo as (_ & _ & fl & _ & ? & _). congruence.
      * rewrite Edr. intros d dr Ed. left. eauto.
    + intros g. unfold view. rewrite Efl, Ein. case_decide as Hg; [subst; rewrite lookup_insert_eq; cbn; by rewrite Ei|by rewrite lookup_insert_ne].
Qed.

Lemma dir_lookup_ok F E e0 e1 H s d dr name :
  fsys F E e0 e1 H s → dirs s !! d = Some dr → 0 ∉ name → (length H < 16)%nat →
  ∃ p s', dir_lookup d name s = Ok (p, s') ∧ dirs s' = dirs s ∧
    if decide (p = NULL) then quiet F E e0 e1 H s s' ∧ (fine s s' → ∀ j k, E !! j ≠ Some (Some (name, k)))
    else quiet F E e0 e1 (p :: H) s s' ∧ ∃ i j, inodes s' !! p = Some i ∧ E !! j = Some (Some (name, sector i)).
Proof.
  intros Hy Ed Hz Hh. unfold dir_lookup. destruct (fy_mounted _ _ _ _ _ _ Hy) as [[_ Ht] _]. rewrite bool_decide_eq_true_2 by by eapply (ti_dirs _ _ _ _ _ Ht).
  rewrite (bind_ok _ _ _ tt s) by done.
  destruct (dir_entry_lookup_ok F H E s d dr name) as (r & s1 & E1 & Ht1 & Hr); [apply Hy|done|by eapply fsys_dir_at|done|]. rewrite (bind_ok _ _ _ _ _ E1).
  pose proof (quiet_touched _ _ _ _ _ _ _ Hy Ht1) as Hq1. destruct (touched_same _ _ _ _ Ht1) as (_ & _ & _ & Edr1 & _).
  destruct r as [[bs ofs]|]; [|exists NULL, s1; by rewrite decide_True by done].
  destruct Hr as (j & k & _ & Ej & _ & _ & -> & _ & _). destruct (fy_entry _ _ _ _ _ _ Hy _ _ _ Ej) as (Hk0 & Hk1 & [e Ek] & Hnr).
  destruct (quiet_inode_open F E e0 e1 H s1 k e (qt_fsys _ _ _ _ _ _ _ Hq1) Ek Hh) as (p & s2 & E2 & Edr2 & _ & Hp).
  exists p, s2. split; [done|]. split; [congruence|]. revert Hp. case_decide; intros [Hq2 Hp].
  - split; [by eapply quiet_trans|]. intros Hf. destruct Hp. eapply fine_frame; [done|apply Hq1].
  - destruct Hp as (i & Ei & <-). split; [by eapply quiet_trans|]. eauto.
Qed.

Lemma filesys_open_ok F E e0 e1 s name :
  fsys F E e0 e1 [] s → 0 ∉ name →
  ∃ f s', filesys_open name s = Ok (f, s') ∧ mild F e0 s s' ∧ fsys F E e0 e1 [] s' ∧
    if decide (f = NULL) then (∀ g, view s' g = view s g) ∧ (fine s s' → ∀ j k, E !! j ≠ Some (Some (name, k)))
    else files s !! f = None ∧ ∃ j k, E !! j = Some (Some (name, k)) ∧
      ∀ g, view s' g = if decide (g = f) then Some (k, 0, false) else view s g.
Proof.
  intros Hy Hz. unfold filesys_open. destruct (dir_open_root_ok F E e0 e1 [] s Hy) as (d & s1 & E1 & Hq1 & Hd); [cbn; lia|]. rewrite (bind_ok _ _ _ _ _ E1).
  pose proof (qt_fsys _ _ _ _ _ _ _ Hq1) as Hy1. destruct (decide (d = NULL)) as [->|Hdn].
  { rewrite decide_False by tauto. rewrite ret_bind, (bind_ok _ _ _ _ _ (dir_close_null s1)).
    destruct (open_null s1) as (s2 & E2 & Ht2); [apply (fsys_disk _ _ _ _ _ _ Hy1)|]. exists NULL, s2. split; [done|].
    pose proof (quiet_trans _ _ _ _ _ _ _ _ _ Hq1 (quiet_touched _ _ _ _ _ _ _ Hy1 Ht2)) as Hq2.
    split; [by eapply (quiet_effect _ _ _ _ _ _ _ Hq2)|]. split; [apply Hq2|]. split; [apply Hq2|].
    intros Hf. destruct Hd as [_ Hnf]. destruct Hnf. eapply fine_earlier; [done|]. by apply (touched_same _ _ _ _ Ht2). }
  destruct Hd as [Hdfree [ip Edr1]]. rewrite decide_True by done. assert (dirs s1 !! d = Some (Dir ip 0)) as Ed1 by (rewrite Edr1; apply lookup_insert_eq).
  destruct (dir_lookup_ok F E e0 e1 [] s1 d _ name Hy1 Ed1 Hz) as (p & s2 & E2 & Edr2 & Hp); [cbn; lia|]. rewrite (bind_ok _ _ _ _ _ E2).
  rewrite <-Edr2 in Ed1. destruct (decide (p = NULL)) as [->|Hpn].
  - destruct Hp as [Hq2 Hp]. destruct (dir_close_quiet _ _ _ _ _ _ _ _ (qt_fsys _ _ _ _ _ _ _ Hq2) Ed1) as (s3 & E3 & Hq3 & _); [cbn; lia|].
    rewrite (bind_ok _ _ _ _ _ E3). destruct (open_null s3) as (s4 & E4 & Ht4); [apply (fsys_disk _ _ _ _ _ _ (qt_fsys _ _ _ _ _ _ _ Hq3))|].
    exists NULL, s4. split; [done|]. pose proof (quiet_touched _ _ _ _ _ _ _ (qt_fsys _ _ _ _ _ _ _ Hq3) Ht4) as Hq4.
    pose proof (quiet_trans _ _ _ _ _ _ _ _ _ Hq3 Hq4) as Hq34. pose proof (quiet_trans _ _ _ _ _ _ _ _ _ (quiet_trans _ _ _ _ _ _ _ _ _ Hq1 Hq2) Hq34) as Hq.
    split; [by eapply (quiet_effect _ _ _ _ _ _ _ Hq)|]. split; [apply Hq|]. split; [apply Hq|].
    intros Hf. apply Hp. eapply fine_earlier; [|apply Hq34]. eapply fine_frame; [done|apply Hq1].
  - destruct Hp as [Hq2 (i & j & Ei & Ej)]. pose proof (qt_fsys _ _ _ _ _ _ _ Hq2) as Hy2.
    destruct (fy_entry _ _ _ _ _ _ Hy2 _ _ _ Ej) as (Hk0 & Hk1 & [e Ek] & Hnr).
    destruct (dir_close_quiet _ _ _ _ _ _ _ _ Hy2 Ed1) as (s3 & E3 & Hq3 & _ & Hsec3); [cbn; lia|]. rewrite (bind_ok _ _ _ _ _ E3).
    pose proof (qt_fsys _ _ _ _ _ _ _ Hq3) as Hy3. destruct (held_inode _ _ _ _ _ _ p Hy3) as [i3 Ei3]; [by left|].
    destruct (Hsec3 _ _ Ei3) as (i' & Ei' & Es3). assert (i' = i) as -> by congruence. destruct (fy_entry _ _ _ _ _ _ Hy3 _ _ _ Ej) as (_ & _ & _ & Hnr3).
    destruct (file_open_quiet F E e0 e1 [] s3 p i3 Hy3 Ei3) as (f & s4 & E4 & Hm4 & Hy4 & _ & Hr); [congruence..| |].
    { rewrite (not_removed _ _ _ _ _ _ _ _ Hy3 Ei3) by congruence. by intros [_ ?]. }
    exists f, s4. split; [done|]. pose proof (quiet_trans _ _ _ _ _ _ _ _ _ (quiet_trans _ _ _ _ _ _ _ _ _ Hq1 Hq2) Hq3) as Hq.
    split; [eapply mild_trans; [by eapply (quiet_effect _ _ _ _ _ _ _ Hq)|done]|]. split; [done|].
    destruct (decide (f = NULL)) as [->|Hfn]; destruct Hr as [Hr1 Hr2].
    + split; [intros g; by rewrite Hr1, (qt_view _ _ _ _ _ _ _ Hq)|]. intros Hf. destruct Hr2. eapply fine_frame; [done|apply Hq].
    + rewrite (qt_files _ _ _ _ _ _ _ Hq) in Hr1. split; [done|]. exists j, (sector i). split; [done|]. intros g.
      by rewrite Hr2, Es3, (qt_view _ _ _ _ _ _ _ Hq).
Qed.

(** ** Removing *)

(** Some file is open for the inode in sector [k]. *)
Definition opened s (k : Z) : Prop := map_Exists (λ _ fl, file_sector s fl = Some k) (files s).
#[global] Instance opened_dec s k : Decision (opened s k).
Proof. unfold opened. apply _. Defined.

Lemma opened_view s k : opened s k ↔ ∃ f ps b, view s f = Some (k, ps, b).
Proof.
  unfold opened, map_Exists, view, file_sector. split.
  - intros (f & fl & Ef & Es). exists f, (pos fl), (deny_write fl). rewrite Ef. destruct (inodes s !! file_inode fl); cbn in Es; [|done]. by injection Es as ->.
  - intros (f & ps & b & Ev). destruct (files s !! f) as [fl|] eqn:Ef; [|done]. exists f, fl. split; [done|].
    destruct (inodes s !! file_inode fl); [|done]. cbn. by injection Ev as -> _ _.
Qed.

(** The references to the inode of a user's file are those of open files. *)
Lemma refs_opened F E e0 e1 H s p i G :
  fsys F E e0 e1 H s → inodes s !! p = Some i → sector i ≠ 1 →
  occ p (refs [] G (dirs s)) = 0 ↔ ∀ f fl, G !! f = Some fl → file_inode fl ≠ p.
Proof.
  intros Hy Ei H1. split.
  - intros Ho f fl Ef Ep. assert (p ∈ refs [] G (dirs s)) as Hin%occ_pos by (rewrite <-Ep; by eapply file_ref). lia.
  - intros Hno. destruct (decide (p ∈ refs [] G (dirs s))) as [Hin|Hn]; [|pose proof (occ_bound p (refs [] G (dirs s))); rewrite <-occ_pos in Hn; lia].
    exfalso. unfold refs in Hin. rewrite !elem_of_app, !list_elem_of_fmap in Hin. destruct Hin as [(fl & -> & Hin)|[(dr & -> & Hin)|Hin]].
    + apply list_elem_of_fmap in Hin as ([f fl'] & -> & Hin). apply elem_of_map_to_list in Hin. by apply (Hno f fl').
    + apply list_elem_of_fmap in Hin as ([d dr'] & -> & Hin). apply elem_of_map_to_list in Hin. destruct H1. by eapply (fy_dirs _ _ _ _ _ _ Hy).
    + by apply elem_of_nil in Hin.
Qed.

(** Two pointers to the same sector are the same. *)
Lemma inode_unique F E e0 e1 H s p q i j :
  fsys F E e0 e1 H s → inodes s !! p = Some i → inodes s !! q = Some j → sector i = sector j → p = q.
Proof. intros Hy. destruct (fy_mounted _ _ _ _ _ _ Hy) as [[_ Ht] _]. apply (ti_unique _ _ _ _ _ Ht). Qed.

Lemma freed_opened F E e0 e1 H s p i :
  fsys F E e0 e1 H s → inodes s !! p = Some i → sector i ≠ 1 → freed [] (files s) (dirs s) p true ↔ ¬ opened s (sector i).
Proof.
  intros Hy Ei H1. unfold freed. rewrite (refs_opened _ _ _ _ _ _ _ _ _ Hy Ei H1). unfold opened, map_Exists, file_sector. split.
  - intros [Hno _] (f & fl & Ef & Es). apply (Hno f fl Ef). destruct (inodes s !! file_inode fl) as [i'|] eqn:Ei'; [|done]. cbn in Es.
    injection Es as Es. by eapply inode_unique.
  - intros Hno. split; [|done]. intros f fl Ef Ep. apply Hno. exists f, fl. rewrite Ep, Ei. done.
Qed.

Lemma table_set_removed F H G D s p i :
  table_inv F H G D s → inodes s !! p = Some i → table_inv F H G D (set_inodes (<[p := with_removed true i]>) s).
Proof.
  intros Hi Ei.
  assert (∀ q j, <[p := with_removed true i]> (inodes s) !! q = Some j → ∃ j0, inodes s !! q = Some j0 ∧ sector j = sector j0 ∧ data j = data j0 ∧
    deny_write_cnt j = deny_write_cnt j0 ∧ open_cnt j = open_cnt j0) as Hold.
  { intros q j [[<- <-]|[_ Eq]]%lookup_insert_Some; [exists i|exists j]; done. }
  destruct Hi. split; cbn; try done.
  - intros q. rewrite ti_listed. destruct (decide (q = p)) as [->|]; [rewrite lookup_insert_eq, Ei; split; eauto|by rewrite lookup_insert_ne].
  - intros q r j k Ej Ek Es. destruct (Hold q j Ej) as (j0 & ? & ? & _), (Hold r k Ek) as (k0 & ? & ? & _). apply (ti_unique q r j0 k0); congruence.
  - intros q j Ej. destruct (Hold q j Ej) as (j0 & ? & _). by eapply ti_nonnull.
  - intros q j Ej. destruct (Hold q j Ej) as (j0 & Ej0 & -> & -> & _). by apply (ti_data q).
  - intros q j Ej. destruct (Hold q j Ej) as (j0 & Ej0 & _ & _ & _ & ->). by apply ti_count.
  - intros q j Ej. destruct (Hold q j Ej) as (j0 & Ej0 & _ & _ & -> & _). by apply ti_deny.
  - intros q Hin. destruct (decide (q = p)) as [->|Hne]; [rewrite lookup_insert_eq; eauto|]. rewrite lookup_insert_ne by done. by apply ti_refs.
  - unfold objects in *. cbn. by rewrite map_size_insert_Some.
Qed.

Lemma fsys_set_removed F E e0 e1 H s p i :
  fsys F E e0 e1 H s → inodes s !! p = Some i → sector i ≠ 0 → sector i ≠ 1 → (∀ j nm, E !! j ≠ Some (Some (nm, sector i))) →
  let s' := set_inodes (<[p := with_removed true i]>) s in
  fsys F E e0 e1 H s' ∧ (∀ k, is_removed s' k ↔ is_removed s k ∨ k = sector i) ∧ (∀ f, view s' f = view s f).
Proof.
  intros Hy Ei H0 H1 Hno s'.
  assert (∀ q j, <[p := with_removed true i]> (inodes s) !! q = Some j → ∃ j0, inodes s !! q = Some j0 ∧ sector j = sector j0 ∧ (q ≠ p → j = j0)) as Hold.
  { intros q j [[<- <-]|[_ Eq]]%lookup_insert_Some; [exists i|exists j]; done. }
  assert (∀ q j, inodes s !! q = Some j → ∃ j', inodes s' !! q = Some j' ∧ sector j' = sector j ∧ (q ≠ p → j' = j)) as Hnew.
  { intros q j Eq. cbn. destruct (decide (q = p)) as [->|]; [|rewrite lookup_insert_ne by done; eauto]. rewrite lookup_insert_eq. assert (j = i) as -> by congruence. by exists (with_removed true i). }
  assert (∀ k, is_removed s' k ↔ is_removed s k ∨ k = sector i) as Hrm.
  { intros k. split.
    - intros (q & j & Eq & Es & Hr). destruct (Hold q j Eq) as (j0 & Ej0 & Es0 & Hj). destruct (decide (q = p)) as [->|Hne].
      + right. congruence.
      + left. rewrite Hj in * by done. by exists q, j0.
    - intros [(q & j & Eq & Es & Hr)| ->]; [|exists p, (with_removed true i); cbn; by rewrite lookup_insert_eq]. destruct (decide (q = p)) as [->|Hne].
      + assert (j = i) as -> by congruence. exists p, (with_removed true i). cbn. by rewrite lookup_insert_eq.
      + exists q, j. cbn. by rewrite lookup_insert_ne. }
  split_and!; [|done|].
  - destruct Hy as [[[Hd Ht] (Hn & Ek & fl0 & i0 & Ef0 & Ei0 & Es0)] Hrt Hsl Hen Hdi Hus Hds Hre Hmf Hms Hst]. split; try done.
    + split; [split; [done|by apply table_set_removed]|]. destruct (Hnew _ _ Ei0) as (i1 & Ei1 & Es1 & _). split_and!; [done..|]. exists fl0, i1. split_and!; [done..|congruence].
    + intros j nm k Ej. destruct (Hen j nm k Ej) as (? & ? & ? & ?). rewrite Hrm. split_and!; [done..|]. intros [?| ->]; [done|]. by apply (Hno j nm).
    + intros f fl j Ef Hne Ej. destruct (Hold _ _ Ej) as (j0 & Ej0 & -> & _). by eapply Hus.
    + intros d dr j Ed Ej. destruct (Hold _ _ Ej) as (j0 & Ej0 & -> & _). by eapply Hds.
    + rewrite !Hrm. destruct Hre. split; intros [?|?]; done.
  - intros f. unfold view. change (files s') with (files s). destruct (files s !! f) as [fl|] eqn:Ef; [|done].
    destruct (file_open_some _ _ _ _ _ _ _ _ Hy Ef) as [j Ej]. destruct (Hnew _ _ Ej) as (j' & Ej' & Es' & _). by rewrite Ej, Ej', Es'.
Qed.

Lemma erase_slot_ok F E e0 e1 H s d dr j nm k bs :
  fsys F E e0 e1 H s → dirs s !! d = Some dr → E !! j = Some (Some (nm, k)) → Z.of_nat (length bs) = 20 →
  ∃ n s' img, inode_write_at (dir_inode dr) (set_entry_in_use false bs) ENTRY_SIZE (20 * Z.of_nat j) s = Ok (n, s') ∧
    touched s img (free_map s) s' ∧ effect F e0 s s' ∧
    if decide (n = 20) then fsys F (<[j := None]> E) e0 e1 H s' else fsys F E e0 e1 H s' ∧ ¬ fine s s'.
Proof.
  intros Hy Ed Ej Hbs. destruct (dir_open_some _ _ _ _ _ _ _ _ Hy Ed) as (i & Ei & Es). destruct (erased_entry_ok bs Hbs) as [Hl Hsl].
  assert (j < length E)%nat as Hj by by eapply lookup_lt_Some.
  destruct (write_slot_ok F H (files s) (dirs s) E (dir_inode dr) i s j None _ (proj1 (fy_mounted _ _ _ _ _ _ Hy)) (fsys_dir_at _ _ _ _ _ _ _ _ Hy Ed) Ei ltac:(lia) Hl Hsl)
    as (n & s' & img & E1 & Ht & Hi & Hk & Hr).
  exists n, s', img. split; [done|]. split; [done|]. rewrite Es in Hk. split.
  { eapply touched_effect; [done|by eapply stores_data|]. eapply user_data_kept; [done|by right]. }
  assert (∀ E', dir_at F E' (dir_inode dr) s' → root_is E' (file_bytes (device s') e1)) as Hat.
  { destruct (touched_same _ _ _ _ Ht) as (_ & Ein & _). intros E' (i' & e' & Ei' & Ee' & Hr'). rewrite Ein in Ei'.
    assert (i' = i) as -> by congruence. rewrite Es, (fy_root _ _ _ _ _ _ Hy) in Ee'. by injection Ee' as <-. }
  destruct Hr as [(-> & _ & Hdir)|(Hn & Hdir & Hf)].
  - rewrite decide_True by done. eapply fsys_update; [done..|apply Hi|done|by apply Hat| |].
    + intros j' nm' k' [(_ & ? & _)|[_ Ej']]%list_lookup_insert_Some; [done|]. by eapply (fy_entry _ _ _ _ _ _ Hy).
    + intros j1 j2 nm1 nm2 k' [(_ & ? & _)|[_ E1']]%list_lookup_insert_Some [(_ & ? & _)|[_ E2']]%list_lookup_insert_Some; try done.
      by eapply (fy_distinct _ _ _ _ _ _ Hy).
  - rewrite decide_False by done. split.
    + eapply fsys_update; [done..|apply Hi|done|by apply Hat|apply Hy|apply Hy].
    + intros Hfn. assert (j = length E) by (apply Hf; [by left|by eapply root_not_denied]). lia.
Qed.

(** The file in sector [k] has lost its name. *)
Definition unlinked F E e0 e1 j k s s' : Prop :=
  let F' := if decide (opened s k) then F else delete k F in
  fsys F' (<[j := None]> E) e0 e1 [] s' ∧ frame s s' ∧ stores e0 s s' ∧ user_data F' s s' ∧
  (∀ k' e, F' !! k' = Some e → is_removed s' k' ↔ is_removed s k' ∨ k' = k) ∧ (∀ f, view s' f = view s f).

Lemma remove_close_ok F E e0 e1 s p i :
  fsys F E e0 e1 [p] s → inodes s !! p = Some i → sector i ≠ 0 → sector i ≠ 1 → (∀ j nm, E !! j ≠ Some (Some (nm, sector i))) →
  ∃ s', (inode_remove p;; inode_close p) s = Ok (tt, s') ∧ dirs s' = dirs s ∧ frame s s' ∧ stores e0 s s' ∧
    let F' := if decide (opened s (sector i)) then F else delete (sector i) F in
    fsys F' E e0 e1 [] s' ∧ user_data F' s s' ∧ (∀ k' e, F' !! k' = Some e → is_removed s' k' ↔ is_removed s k' ∨ k' = sector i) ∧
    (∀ f, view s' f = view s f).
Proof.
  intros Hy Ei H0 H1 Hno. destruct (fsys_set_removed F E e0 e1 [p] s p i Hy Ei H0 H1 Hno) as (Hy1 & Hrm1 & Hv1).
  set (s1 := set_inodes (<[p := with_removed true i]>) s) in *. assert (inodes s1 !! p = Some (with_removed true i)) as Ei1 by apply lookup_insert_eq.
  rewrite (bind_ok _ _ _ tt s1).
  2: { unfold inode_remove. rewrite bool_decide_eq_true_2; [by rewrite (bind_ok _ _ _ tt s), (bind_ok _ _ _ _ _ (rd_inode_ok _ _ _ Ei)) by done|].
    destruct (fy_mounted _ _ _ _ _ _ Hy) as [[_ Ht] _]. by eapply (ti_nonnull _ _ _ _ _ Ht). }
  destruct (fy_mounted _ _ _ _ _ _ Hy1) as [[Hd1 Ht1] Hmo1]. destruct (inode_close_dropped F e0 [] _ _ s1 p _ (Build_fs_inv _ _ _ _ _ Hd1 Ht1) Hmo1 Ei1) as (s2 & E2 & Efl2 & Edr2 & Hd).
  exists s2. split; [done|]. split; [done|]. assert (frame s s1) as Hf1 by by eapply frame_set_inode.
  rewrite <-Efl2, <-Edr2 in Hd. destruct (fsys_dropped F E e0 e1 [p] [] p _ s1 s2 Hy1 Ei1 Hd) as (Hy2 & Hu2 & _);
    [rewrite Efl2; intros f fl Ef; eauto|rewrite Edr2; intros d dr Ed; eauto|].
  assert (opened s1 (sector i) ↔ opened s (sector i)) as Hop by (rewrite !opened_view; by setoid_rewrite Hv1).
  assert (∀ X : gmap Z extent, after_close [] (files s2) (dirs s2) p (sector i) true X = if decide (opened s (sector i)) then X else delete (sector i) X) as HF.
  { intros X. unfold after_close. rewrite Efl2, Edr2. destruct (freed_opened _ _ _ _ _ _ _ _ Hy1 Ei1 H1) as [Ha Hb]. cbn in Ha, Hb. rewrite Hop in Ha, Hb.
    repeat case_decide; tauto. }
  cbn [sector removed with_removed] in *. rewrite HF in Hy2, Hu2. destruct Hd as (Hfr2 & _ & _ & _ & Hrm2 & _ & Hs2 & Hsec2). rewrite HF in Hrm2.
  split; [by eapply fr_trans|]. split.
  { intros Hf Hs. apply Hs2; [by eapply fine_frame|by eapply fsys_writable|done]. }
  split_and!; [done|done| |].
  - intros k' e Ek'. rewrite (Hrm2 k' e Ek'). apply Hrm1.
  - intros f. rewrite <-Hv1. eapply view_same; [done..|by rewrite Efl2|by right].
Qed.

Lemma slots_bound F E e0 e1 H s : fsys F E e0 e1 H s → 20 * Z.of_nat (length E) < 2 ^ 31.
Proof.
  intros Hy. pose proof (fsys_disk _ _ _ _ _ _ Hy) as Hd. pose proof (fy_root _ _ _ _ _ _ Hy) as Ee. destruct (fy_slots _ _ _ _ _ _ Hy) as [Hl _].
  destruct (di_ext _ _ _ Hd _ _ Ee). pose proof (extent_bytes _ _ _ _ _ Hd Ee). unfold file_bytes in Hl. rewrite slice_lengthZ in Hl; lia.
Qed.

Lemma inode_close_quiet F E e0 e1 H s p i :
  fsys F E e0 e1 (p :: H) s → inodes s !! p = Some i → removed i = false →
  ∃ s', inode_close p s = Ok (tt, s') ∧ dirs s' = dirs s ∧ quiet F E e0 e1 H s s'.
Proof.
  intros Hy Ei Hr. destruct (fy_mounted _ _ _ _ _ _ Hy) as [Hw Hmo]. destruct (inode_close_dropped F e0 H _ _ s p i Hw Hmo Ei) as (s' & E1 & Efl & Edr & Hd).
  exists s'. split; [done|]. split; [done|]. rewrite <-Efl, <-Edr in Hd. eapply quiet_dropped; [done..|]. rewrite Edr. eauto.
Qed.

Lemma dir_remove_ok F E e0 e1 s d dr name :
  fsys F E e0 e1 [] s → dirs s !! d = Some dr → 0 ∉ name →
  ∃ (ok : bool) s', dir_remove d name s = Ok (ok, s') ∧ dirs s' = dirs s ∧
    if ok then ∃ j k, E !! j = Some (Some (name, k)) ∧ unlinked F E e0 e1 j k s s'
    else effect F e0 s s' ∧ fsys F E e0 e1 [] s' ∧ (fine s s' → ∀ j k, E !! j ≠ Some (Some (name, k))).
Proof.
  intros Hy Ed Hz. unfold dir_remove. destruct (fy_mounted _ _ _ _ _ _ Hy) as [[_ Ht] _]. rewrite bool_decide_eq_true_2 by by eapply (ti_dirs _ _ _ _ _ Ht).
  rewrite (bind_ok _ _ _ tt s) by done.
  destruct (dir_entry_lookup_ok F [] E s d dr name) as (r & s1 & E1 & Ht1 & Hr); [apply Hy|done|by eapply fsys_dir_at|done|]. rewrite (bind_ok _ _ _ _ _ E1).
  pose proof (quiet_touched _ _ _ _ _ _ _ Hy Ht1) as Hq1. pose proof (quiet_effect _ _ _ _ _ _ _ Hq1) as He1.
  destruct (touched_same _ _ _ _ Ht1) as (_ & _ & _ & Edr1 & _).
  destruct r as [[bs ofs]|]; [|exists false, s1; split; [done|]; split; [done|]; split; [done|]; split; [apply Hq1|done]].
  destruct Hr as (j & k & -> & Ej & Hbs & _ & -> & _ & _). destruct (fy_entry _ _ _ _ _ _ Hy _ _ _ Ej) as (Hk0 & Hk1 & [e Ek] & Hnr).
  destruct (quiet_inode_open F E e0 e1 [] s1 k e (qt_fsys _ _ _ _ _ _ _ Hq1) Ek) as (p & s2 & E2 & Edr2 & _ & Hp); [cbn; lia|]. rewrite (bind_ok _ _ _ _ _ E2).
  destruct (decide (p = NULL)) as [->|Hpn].
  { destruct Hp as [Hq2 Hnf]. exists false, s2. split; [done|]. split; [congruence|]. pose proof (quiet_trans _ _ _ _ _ _ _ _ _ Hq1 Hq2) as Hq.
    split; [by eapply quiet_effect|]. split; [apply Hq|]. intros Hf. destruct Hnf. eapply fine_frame; [done|apply Hq1]. }
  destruct Hp as [Hq2 (i & Ei & Es)]. pose proof (quiet_trans _ _ _ _ _ _ _ _ _ Hq1 Hq2) as Hq. pose proof (qt_fsys _ _ _ _ _ _ _ Hq) as Hy2.
  assert (dirs s2 !! d = Some dr) as Ed2 by congruence. rewrite (bind_ok _ _ _ _ _ (rd_dir_ok _ _ _ Ed2)).
  destruct (erase_slot_ok F E e0 e1 [p] s2 d dr j name k bs Hy2 Ed2 Ej Hbs) as (n & s3 & img & E3 & Ht3 & He3 & Hr).
  rewrite wraps_small by (pose proof (slots_bound _ _ _ _ _ _ Hy); apply lookup_lt_Some in Ej; unfold in_s; lia). rewrite (bind_ok _ _ _ _ _ E3).
  destruct (touched_same _ _ _ _ Ht3) as (_ & Ein3 & _ & Edr3 & _). rewrite <-Ein3 in Ei.
  pose proof (effect_trans _ _ _ _ _ (quiet_effect _ _ _ _ _ _ _ Hq) He3) as He. destruct (decide (n = 20)) as [->|Hn].
  - rewrite decide_False by tauto. rewrite <-bind_assoc. subst k.
    destruct (remove_close_ok F (<[j := None]> E) e0 e1 s3 p i Hr Ei Hk0 Hk1) as (s4 & E4 & Edr4 & Hf4 & Hs4 & Hy4 & Hu4 & Hrm4 & Hv4).
    { intros j' nm [(_ & ? & _)|[Hne Ej']]%list_lookup_insert_Some; [done|]. apply Hne. symmetry. by eapply (fy_distinct _ _ _ _ _ _ Hy). }
    rewrite (bind_ok _ _ _ _ _ E4). exists true, s4. split; [done|]. split; [congruence|]. exists j, (sector i). split; [done|].
    destruct He as [[Hf3 Hs3 Hu3 Hrm3] Hv3]. unfold unlinked.
    assert (opened s3 (sector i) ↔ opened s (sector i)) as Hop by (rewrite !opened_view; by setoid_rewrite Hv3).
    rewrite (decide_ext _ _ _ _ Hop) in Hy4, Hu4, Hrm4. set (F' := if decide (opened s (sector i)) then F else delete (sector i) F) in *.
    assert (∀ k' e', F' !! k' = Some e' → F !! k' = Some e') as Hsub. { intros k' e'. unfold F'. case_decide; [done|]. by intros [_ ?]%lookup_delete_Some. }
    split_and!; [done|by eapply fr_trans|by eapply stores_trans| | |intros f; by rewrite Hv4].
    + intros k' e' Ek' ? ?. rewrite (Hu4 k' e'), (Hu3 k' e'); auto.
    + intros k' e' Ek'. rewrite (Hrm4 k' e' Ek'), (Hrm3 k' e'); [done|by apply Hsub].
  - rewrite decide_True by done. destruct Hr as [Hy3 Hnf].
    destruct (inode_close_quiet F E e0 e1 [] s3 p i Hy3 Ei) as (s4 & E4 & Edr4 & Hq4).
    { eapply not_removed; [done..|]. rewrite Es. by apply (fy_entry _ _ _ _ _ _ Hy3 j name). }
    rewrite (bind_ok _ _ _ _ _ E4). exists false, s4. split; [done|]. split; [congruence|].
    split; [eapply effect_trans; [done|by eapply quiet_effect]|]. split; [apply Hq4|]. intros Hf. destruct Hnf.
    eapply fine_earlier; [|apply Hq4]. eapply fine_frame; [done|apply Hq].
Qed.

Lemma unlinked_quiet F E e0 e1 j k s0 s s1 s' :
  quiet F E e0 e1 [] s0 s → unlinked F E e0 e1 j k s s1 →
  (∀ F' E', fsys F' E' e0 e1 [] s1 → quiet F' E' e0 e1 [] s1 s') → unlinked F E e0 e1 j k s0 s'.
Proof.
  intros Hq0 (Hy1 & Hf1 & Hs1 & Hu1 & Hrm1 & Hv1) Hq. specialize (Hq _ _ Hy1). destruct (quiet_effect _ _ _ _ _ _ _ Hq0) as [[Hf0 Hs0 Hu0 Hr0] Hv0].
  destruct (quiet_effect _ _ _ _ _ _ _ Hq) as [[Hf2 Hs2 Hu2 Hr2] Hv2].
  assert (opened s k ↔ opened s0 k) as Hop by (rewrite !opened_view; by setoid_rewrite Hv0).
  unfold unlinked. rewrite (decide_ext _ _ _ _ Hop) in *. set (F' := if decide (opened s0 k) then F else delete k F) in *.
  assert (∀ k' e', F' !! k' = Some e' → F !! k' = Some e') as Hsub. { intros k' e'. unfold F'. case_decide; [done|]. by intros [_ ?]%lookup_delete_Some. }
  split_and!; [apply Hq|eapply fr_trans; [done|by eapply fr_trans]| | | |intros f; by rewrite Hv2, Hv1].
  - eapply stores_trans; [|done|by eapply stores_trans|done]. by eapply fr_trans.
  - intros k' e' Ek' ? ?. rewrite (Hu2 k' e'), (Hu1 k' e'), (Hu0 k' e'); auto.
  - intros k' e' Ek'. rewrite (Hr2 k' e' Ek'), (Hrm1 k' e' Ek'), (Hr0 k' e'); [done|by apply Hsub].
Qed.

Lemma filesys_remove_ok F E e0 e1 s name :
  fsys F E e0 e1 [] s → 0 ∉ name →
  ∃ (ok : bool) s', filesys_remove name s = Ok (ok, s') ∧
    if ok then ∃ j k, E !! j = Some (Some (name, k)) ∧ unlinked F E e0 e1 j k s s'
    else effect F e0 s s' ∧ fsys F E e0 e1 [] s' ∧ (fine s s' → ∀ j k, E !! j ≠ Some (Some (name, k))).
Proof.
  intros Hy Hz. unfold filesys_remove. destruct (dir_open_root_ok F E e0 e1 [] s Hy) as (d & s1 & E1 & Hq1 & Hd); [cbn; lia|]. rewrite (bind_ok _ _ _ _ _ E1).
  pose proof (qt_fsys _ _ _ _ _ _ _ Hq1) as Hy1. destruct (decide (d = NULL)) as [->|Hdn].
  { rewrite decide_False by tauto. rewrite ret_bind, (bind_ok _ _ _ _ _ (dir_close_null s1)). exists false, s1. split; [done|].
    split; [by eapply quiet_effect|]. split; [done|]. intros Hf. by destruct Hd as [_ []]. }
  destruct Hd as [Hdfree [ip Edr1]]. rewrite decide_True by done. assert (dirs s1 !! d = Some (Dir ip 0)) as Ed1 by (rewrite Edr1; apply lookup_insert_eq).
  destruct (dir_remove_ok F E e0 e1 s1 d _ name Hy1 Ed1 Hz) as (ok & s2 & E2 & Edr2 & Hr). rewrite (bind_ok _ _ _ _ _ E2). rewrite <-Edr2 in Ed1.
  assert (∃ F2 E2, fsys F2 E2 e0 e1 [] s2) as (F2 & E2' & Hy2) by (destruct ok; [destruct Hr as (j & k & _ & Hy2 & _)|destruct Hr as (_ & Hy2 & _)]; eauto).
  destruct (dir_close_quiet _ _ _ _ _ _ _ _ Hy2 Ed1) as (s3 & E3 & Hq3 & _); [cbn; lia|]. rewrite (bind_ok _ _ _ _ _ E3). exists ok, s3. split; [done|].
  assert (∀ F' E', fsys F' E' e0 e1 [] s2 → quiet F' E' e0 e1 [] s2 s3) as Hq.
  { intros F' E' Hy'. destruct (dir_close_quiet _ _ _ _ _ _ _ _ Hy' Ed1) as (s3' & E3' & Hq3' & _); [cbn; lia|]. rewrite E3 in E3'. by injection E3' as <-. }
  destruct ok.
  - destruct Hr as (j & k & Ej & Hun). exists j, k. split; [done|]. by eapply unlinked_quiet.
  - destruct Hr as (He & Hy2' & Hno). pose proof (Hq _ _ Hy2') as Hq'. split; [|split; [apply Hq'|]].
    + eapply effect_trans; [by eapply quiet_effect|]. eapply effect_trans; [done|by eapply quiet_effect].
    + intros Hf. apply Hno. eapply fine_earlier; [|apply Hq']. eapply fine_frame; [done|apply Hq1].
Qed.

(** ** Open files *)

(** What a handle of a user shows. *)
Lemma view_inv F E e0 e1 H s f k ps b :
  fsys F E e0 e1 H s → view s f = Some (k, ps, b) →
  ∃ fl i e, files s !! f = Some fl ∧ inodes s !! file_inode fl = Some i ∧ sector i = k ∧ pos fl = ps ∧ deny_write fl = b ∧ F !! k = Some e ∧
    data i = inode_of e ∧ pointer f ∧ 0 ≤ ps < 2 ^ 31.
Proof.
  intros Hy. unfold view. destruct (files s !! f) as [fl|] eqn:Ef; [|done]. destruct (inodes s !! file_inode fl) as [i|] eqn:Ei; [|done]. intros [= <- <- <-].
  destruct (fy_mounted _ _ _ _ _ _ Hy) as [[_ Ht] _]. destruct (ti_data _ _ _ _ _ Ht _ _ Ei) as (e & Ee & Ed). destruct (ti_files _ _ _ _ _ Ht _ _ Ef).
  exists fl, i, e. done.
Qed.

Lemma view_user F E e0 e1 H s f k ps b :
  fsys F E e0 e1 H s → view s f = Some (k, ps, b) → f ≠ free_map_file s → k ≠ 0 ∧ k ≠ 1.
Proof.
  intros Hy Hv Hne. destruct (view_inv _ _ _ _ _ _ _ _ _ _ Hy Hv) as (fl & i & e & Ef & Ei & <- & _). by eapply (fy_users _ _ _ _ _ _ Hy).
Qed.

(** Some file open for the inode in sector [k] denies writes. *)
Lemma denies_view F E e0 e1 H s p i :
  fsys F E e0 e1 H s → inodes s !! p = Some i → denies p (files s) = 0 ↔ ∀ f ps, view s f ≠ Some (sector i, ps, true).
Proof.
  intros Hy Ei. unfold denies. split.
  - intros Hd f ps Hv. destruct (view_inv _ _ _ _ _ _ _ _ _ _ Hy Hv) as (fl & j & e & Ef & Ej & Es & _ & Hb & _).
    assert (file_inode fl = p) as Ep by (by eapply inode_unique).
    assert (fl ∈ filter (λ g, file_inode g = p ∧ deny_write g = true) (map_to_list (files s)).*2) as Hin.
    { apply list_elem_of_filter. split; [done|]. apply list_elem_of_fmap. exists (f, fl). split; [done|]. by apply elem_of_map_to_list. }
    destruct (filter _ _); [by apply elem_of_nil in Hin|]. cbn [length] in Hd. lia.
  - intros Hno. enough (filter (λ g, file_inode g = p ∧ deny_write g = true) (map_to_list (files s)).*2 = []) as -> by done.
    apply filter_none. intros g Hg [Eg Hd]. apply list_elem_of_fmap in Hg as ([f g'] & -> & Hg). apply elem_of_map_to_list in Hg. cbn in Eg, Hd.
    apply (Hno f (pos g')). unfold view. by rewrite Hg, Eg, Ei, Hd.
Qed.

(** The file in sector [k] goes when it has been removed and no other file is
    open for it. *)
Definition closes_last s (f k : Z) : Prop := is_removed s k ∧ ∀ g ps b, view s g = Some (k, ps, b) → g = f.

Lemma file_close_user F E e0 e1 s f k ps b :
  fsys F E e0 e1 [] s → view s f = Some (k, ps, b) → f ≠ free_map_file s →
  ∃ s' F', file_close f s = Ok (tt, s') ∧ fsys F' E e0 e1 [] s' ∧ frame s s' ∧ stores e0 s s' ∧ user_data F' s s' ∧ rem_same F' s s' ∧
    (∀ g, view s' g = if decide (g = f) then None else view s g) ∧
    (closes_last s f k ∧ F' = delete k F ∨ ¬ closes_last s f k ∧ F' = F).
Proof.
  intros Hy Hv Hne. destruct (view_user _ _ _ _ _ _ _ _ _ _ Hy Hv Hne) as [Hk0 Hk1].
  destruct (view_inv _ _ _ _ _ _ _ _ _ _ Hy Hv) as (fl & i & e & Ef & Ei & Es & Eps & Eb & Ee & Edat & Hnn%pointer_nonnull & Hps).
  destruct (file_close_ok F e0 [] s f fl i (fy_mounted _ _ _ _ _ _ Hy) Ef Hne Ei) as (s' & E1 & Efl & Edr & Hd); [cbn; lia|].
  rewrite <-Efl, <-Edr in Hd. destruct (fsys_dropped F E e0 e1 [] [] _ _ s s' Hy Ei Hd) as (Hy' & Hu & _).
  { rewrite Efl. intros g gl [_ Eg]%lookup_delete_Some. eauto. } { rewrite Edr. eauto. }
  destruct Hd as (Hfr & _ & _ & _ & Hrm & _ & Hs & Hsec). eexists s', _. split; [done|]. split; [exact Hy'|]. split; [done|].
  split; [intros Hf; apply Hs; [done|by eapply fsys_writable]|]. split; [done|]. split; [exact Hrm|]. split.
  - intros g. case_decide as Hg; [subst; unfold view; by rewrite Efl, lookup_delete_eq|]. eapply view_same; [done..| |by right]. by rewrite Efl, lookup_delete_ne.
  - enough (freed [] (files s') (dirs s') (file_inode fl) (removed i) ↔ closes_last s f k) as Hiff.
    { unfold after_close. rewrite Es. case_decide; [left|right]; tauto. }
    unfold freed, closes_last. rewrite Edr, (refs_opened _ _ _ _ _ _ _ _ _ Hy Ei), Efl by congruence. split.
    + intros [Hno Hr]. split; [by exists (file_inode fl), i|]. intros g ps' b' Hvg. destruct (view_inv _ _ _ _ _ _ _ _ _ _ Hy Hvg) as (gl & j & _ & Eg & Ej & Ejs & _).
      destruct (decide (g = f)) as [|Hgf]; [done|]. destruct (Hno g gl); [by rewrite lookup_delete_ne|]. eapply (inode_unique _ _ _ _ _ _ _ _ _ _ Hy); [done..|congruence].
    + intros [(q & j & Ej & Ejs & Hr) Hno]. assert (q = file_inode fl) as -> by (eapply (inode_unique _ _ _ _ _ _ _ _ _ _ Hy); [done..|congruence]).
      assert (j = i) as -> by congruence. split; [|done]. intros g gl [Hgf Eg]%lookup_delete_Some Ep. destruct Hgf. symmetry.
      apply (Hno g (pos gl) (deny_write gl)). unfold view. by rewrite Eg, Ep, Ei, Es.
Qed.

(** A step that changes one open file, and possibly the data of user files. *)
Lemma fsys_set_file F E e0 e1 s s' f fl fl' :
  fsys F E e0 e1 [] s → mounted F e0 [] s' → frame s s' → files s !! f = Some fl → f ≠ free_map_file s → file_inode fl' = file_inode fl →
  files s' = <[f := fl']> (files s) → dirs s' = dirs s → (∀ k, is_removed s' k ↔ is_removed s k) → sectors_kept s s' →
  file_bytes (device s') e1 = file_bytes (device s) e1 →
  fsys F E e0 e1 [] s' ∧ ∀ g, view s' g = if decide (g = f) then (λ '(k, _, _), (k, pos fl', deny_write fl')) <$> view s f else view s g.
Proof.
  intros Hy Hm Hfr Ef Hne Eip Efl Edr Hrm Hsec Hb.
  assert (fsys F E e0 e1 [] s') as Hy'.
  { apply (fsys_keep F F E e0 e1 [] [] s); [done..|apply Hy|done|intros k; by rewrite Hrm|by left| |].
    - rewrite Efl. intros g gl [[<- <-]|[_ Eg]]%lookup_insert_Some; left; [|eauto]. exists fl. done.
    - rewrite Edr. intros d dr Ed. left. eauto. }
  split; [done|]. intros g. case_decide as Hg.
  - subst g. unfold view. rewrite Efl, lookup_insert_eq, Ef, Eip. destruct (file_open_some _ _ _ _ _ _ _ _ Hy Ef) as [i Ei]. rewrite Ei.
    destruct (Hsec _ _ Ei) as (i' & -> & ->). done.
  - eapply view_same; [done..| |by left]. by rewrite Efl, lookup_insert_ne.
Qed.

Lemma sectors_same s s' : inodes s' = inodes s → sectors_kept s s'.
Proof. intros Ein p i Ei. rewrite Ein. eauto. Qed.

Lemma removed_same s s' : inodes s' = inodes s → ∀ k, is_removed s' k ↔ is_removed s k.
Proof. intros Ein k. unfold is_removed. by rewrite Ein. Qed.

Lemma file_read_user F E e0 e1 s f k ps b sz :
  fsys F E e0 e1 [] s → view s f = Some (k, ps, b) → f ≠ free_map_file s →
  ∃ e n s', F !! k = Some e ∧ file_read f sz s = Ok (slice (file_bytes (device s) e) ps n, s') ∧ fsys F E e0 e1 [] s' ∧ mild F e0 s s' ∧
    0 ≤ n ≤ room e sz ps ∧ (fine s s' → n = room e sz ps) ∧
    (∀ g, view s' g = if decide (g = f) then Some (k, ps + n, b) else view s g).
Proof.
  intros Hy Hv Hne. destruct (view_inv _ _ _ _ _ _ _ _ _ _ Hy Hv) as (fl & i & e & Ef & Ei & <- & <- & <- & Ee & _).
  destruct (file_read_ok F e0 [] s f fl i e sz (fy_mounted _ _ _ _ _ _ Hy) Ef Ei Ee) as (n & s' & E1 & Hm & Hfr & Efl & Edr & Ein & Him & Hmp & Hn & Hx).
  destruct (fsys_set_file F E e0 e1 s s' f fl (File (file_inode fl) (pos fl + n) (deny_write fl))) as [Hy' Hv']; try done.
  { by apply removed_same. } { by apply sectors_same. } { by apply calm_bytes. }
  exists e, n, s'. split_and!; try done; try lia.
  - split; [done|by apply stores_calm|intros ? ? _ _ _; by apply calm_bytes|intros ? ? _; by apply removed_same].
  - intros g. rewrite Hv', Hv. done.
Qed.

Lemma file_write_user F E e0 e1 s f k ps b buffer sz :
  fsys F E e0 e1 [] s → view s f = Some (k, ps, b) → f ≠ free_map_file s → sz ≤ Z.of_nat (length buffer) →
  ∃ e n s', F !! k = Some e ∧ file_write f buffer sz s = Ok (n, s') ∧ fsys F E e0 e1 [] s' ∧ frame s s' ∧ stores e0 s s' ∧
    data_kept F k (device s) (device s') ∧ file_bytes (device s') e = splice (file_bytes (device s) e) ps (take (Z.to_nat n) buffer) ∧
    rem_same F s s' ∧ 0 ≤ n ≤ room e sz ps ∧ ((∃ g ps', view s g = Some (k, ps', true)) → n = 0) ∧
    (fine s s' → (∀ g ps', view s g ≠ Some (k, ps', true)) → n = room e sz ps) ∧
    (∀ g, view s' g = if decide (g = f) then Some (k, ps + n, b) else view s g).
Proof.
  intros Hy Hv Hne Hb. destruct (view_user _ _ _ _ _ _ _ _ _ _ Hy Hv Hne) as [Hk0 Hk1].
  destruct (view_inv _ _ _ _ _ _ _ _ _ _ Hy Hv) as (fl & i & e & Ef & Ei & Es & <- & <- & Ee & _). rewrite <-Es in Ee.
  destruct (file_write_ok F e0 [] s f fl i e buffer sz (fy_mounted _ _ _ _ _ _ Hy) Ef Ei Ee Hb) as (n & s' & E1 & Hm & Hfr & Efl & Edr & Ein & Hmp & Hk & Hbs & Hn & Hx).
  destruct (fsys_set_file F E e0 e1 s s' f fl (File (file_inode fl) (pos fl + n) (deny_write fl))) as [Hy' Hv']; try done.
  { by apply removed_same. } { by apply sectors_same. } { apply (Hk 1); [apply Hy|congruence]. }
  pose proof (denies_view _ _ _ _ _ _ _ _ Hy Ei) as Hdn. rewrite Es in *. exists e, n, s'. split_and!; try done; try lia.
  - intros _ Hs. rewrite Hmp. destruct (fsys_map_file _ _ _ _ _ _ Hy) as [E0 _]. apply (synced_data _ (device s)); [by apply (Hk 0)| |apply Hy|done].
    by destruct (di_ext _ _ _ (fsys_disk _ _ _ _ _ _ Hy) _ _ E0).
  - intros ? ? _. by apply removed_same.
  - intros (g & ps' & Hg). rewrite decide_False in Hx; [done|]. rewrite Hdn. intros Hno. by apply (Hno g ps').
  - intros Hf Hno. rewrite decide_True in Hx; [by apply Hx|]. by rewrite Hdn.
  - intros g. rewrite Hv', Hv. done.
Qed.

Lemma file_seek_user F E e0 e1 s f k ps b new :
  fsys F E e0 e1 [] s → view s f = Some (k, ps, b) → f ≠ free_map_file s → 0 ≤ new < 2 ^ 31 →
  ∃ s', file_seek f new s = Ok (tt, s') ∧ fsys F E e0 e1 [] s' ∧ mild F e0 s s' ∧
    (∀ g, view s' g = if decide (g = f) then Some (k, new, b) else view s g).
Proof.
  intros Hy Hv Hne Hnew. destruct (view_inv _ _ _ _ _ _ _ _ _ _ Hy Hv) as (fl & i & e & Ef & Ei & Es & <- & <- & Ee & _ & Hnn%pointer_nonnull & _).
  unfold file_seek. rewrite !bool_decide_eq_true_2 by (done || lia). rewrite (bind_ok _ _ _ tt s), (bind_ok _ _ _ tt s) by done.
  destruct (set_pos_ok F e0 [] s f fl new (fy_mounted _ _ _ _ _ _ Hy) Ef Hnew) as (E1 & Hm & Hfr).
  eexists. split; [exact E1|]. destruct (fsys_set_file F E e0 e1 s _ f fl (File (file_inode fl) new (deny_write fl)) Hy Hm) as [Hy' Hv']; try done.
  { by apply sectors_same. }
  split; [done|]. split; [split; [done|by intros _|done|by intros ? ? _]|]. intros g. rewrite Hv', Hv. done.
Qed.

Lemma file_tell_user F E e0 e1 s f k ps b :
  fsys F E e0 e1 [] s → view s f = Some (k, ps, b) → file_tell f s = Ok (ps, s).
Proof.
  intros Hy Hv. destruct (view_inv _ _ _ _ _ _ _ _ _ _ Hy Hv) as (fl & i & e & Ef & Ei & Es & <- & <- & Ee & _ & Hnn%pointer_nonnull & _).
  unfold file_tell. rewrite bool_decide_eq_true_2 by done. rewrite (bind_ok _ _ _ tt s) by done. by rewrite (bind_ok _ _ _ _ _ (rd_file_ok _ _ _ Ef)).
Qed.

Lemma file_length_user F E e0 e1 s f k ps b :
  fsys F E e0 e1 [] s → view s f = Some (k, ps, b) → ∃ e, F !! k = Some e ∧ file_length f s = Ok (e.2, s).
Proof.
  intros Hy Hv. destruct (view_inv _ _ _ _ _ _ _ _ _ _ Hy Hv) as (fl & i & e & Ef & Ei & Es & <- & <- & Ee & Ed & Hnn%pointer_nonnull & _).
  exists e. split; [done|]. unfold file_length. rewrite bool_decide_eq_true_2 by done. rewrite (bind_ok _ _ _ tt s) by done.
  rewrite (bind_ok _ _ _ _ _ (rd_file_ok _ _ _ Ef)). unfold inode_length. rewrite (bind_ok _ _ _ _ _ (rd_inode_ok _ _ _ Ei)), Ed. done.
Qed.

Lemma file_deny_user F E e0 e1 s f k ps b :
  fsys F E e0 e1 [] s → view s f = Some (k, ps, b) → f ≠ free_map_file s →
  ∃ s', file_deny_write f s = Ok (tt, s') ∧ fsys F E e0 e1 [] s' ∧ mild F e0 s s' ∧
    (∀ g, view s' g = if decide (g = f) then Some (k, ps, true) else view s g).
Proof.
  intros Hy Hv Hne. destruct (view_inv _ _ _ _ _ _ _ _ _ _ Hy Hv) as (fl & i & e & Ef & Ei & Es & <- & <- & Ee & _ & Hnn%pointer_nonnull & _).
  destruct (file_deny_write_ok F e0 [] s f fl (fy_mounted _ _ _ _ _ _ Hy) Ef) as (s' & E1 & Hm & Hfr & Hrm & Efl & Edr & Edev & Emap & Hin & _).
  exists s'. split; [done|].
  destruct (fsys_set_file F E e0 e1 s s' f fl (File (file_inode fl) (pos fl) true) Hy Hm) as [Hy' Hv']; try done.
  { intros p j Ej. destruct (Hin p j Ej) as (j' & ? & ? & _). eauto. } { by rewrite Edev. }
  split; [done|]. split; [split; [done|intros _; by rewrite Edev, Emap|intros ? ? _ _ _; by rewrite Edev|by intros ? ? _]|].
  intros g. rewrite Hv', Hv. done.
Qed.

Lemma file_allow_user F E e0 e1 s f k ps b :
  fsys F E e0 e1 [] s → view s f = Some (k, ps, b) → f ≠ free_map_file s →
  ∃ s', file_allow_write f s = Ok (tt, s') ∧ fsys F E e0 e1 [] s' ∧ mild F e0 s s' ∧
    (∀ g, view s' g = if decide (g = f) then Some (k, ps, false) else view s g).
Proof.
  intros Hy Hv Hne. destruct (view_inv _ _ _ _ _ _ _ _ _ _ Hy Hv) as (fl & i & e & Ef & Ei & Es & <- & <- & Ee & _ & Hnn%pointer_nonnull & _).
  destruct (file_allow_write_ok F e0 [] s f fl (fy_mounted _ _ _ _ _ _ Hy) Ef) as (s' & E1 & Hm & Hfr & Hrm & Efl & Edr & Edev & Emap & _ & _ & _ & Hsec).
  exists s'. split; [done|].
  destruct (fsys_set_file F E e0 e1 s s' f fl (File (file_inode fl) (pos fl) false) Hy Hm) as [Hy' Hv']; try done.
  { by rewrite Edev. }
  split; [done|]. split; [split; [done|intros _; by rewrite Edev, Emap|intros ? ? _ _ _; by rewrite Edev|by intros ? ? _]|].
  intros g. rewrite Hv', Hv. done.
Qed.

Lemma quiet_reopen F E e0 e1 s p i :
  fsys F E e0 e1 [] s → inodes s !! p = Some i →
  ∃ s' i', inode_reopen p s = Ok (p, s') ∧ quiet F E e0 e1 [p] s s' ∧ inodes s' !! p = Some i' ∧ sector i' = sector i ∧ dirs s' = dirs s.
Proof.
  intros Hy Ei. pose proof (fy_mounted _ _ _ _ _ _ Hy) as [[Hd Ht] (Hn & Ek & fl0 & i0 & Ef0 & Ei0 & Es0)].
  destruct (inode_reopen_ok F [] _ _ s p i Ht Ei) as (i' & E1 & Es & Er & Ht'); [cbn; lia|]. set (s' := set_inodes (<[p := i']>) s) in *.
  exists s', i'. split; [done|]. destruct (sectors_set_inode s p i i' Ei Es) as [Hs1 Hs2]. assert (∀ k, is_removed s' k ↔ is_removed s k) as Hrm by exact (removed_set_inode s p i i' Ei Es Er).
  assert (fsys F E e0 e1 [p] s') as Hy'.
  { apply (fsys_keep F F E e0 e1 [] [p] s); [done| |by eapply frame_set_inode|apply Hy|done|intros k; by rewrite (Hrm k)|by left| |].
    - split; [by split|]. destruct (Hs1 _ _ Ei0) as (i1 & Ei1 & Ei1s). split_and!; [done..|]. exists fl0, i1. split_and!; [done..|congruence].
    - intros g gl Eg. left. eauto.
    - intros d dr Ed. left. eauto. }
  split; [|split; [apply lookup_insert_eq|done]]. split; [done|by eapply frame_set_inode|done|done|intros k e _; apply Hrm|].
  intros g. eapply view_same; [done..|by left].
Qed.

Lemma file_reopen_user F E e0 e1 s f k ps b :
  fsys F E e0 e1 [] s → view s f = Some (k, ps, b) → f ≠ free_map_file s →
  ∃ f' s', file_reopen f s = Ok (f', s') ∧ fsys F E e0 e1 [] s' ∧ mild F e0 s s' ∧
    if decide (f' = NULL) then (∀ g, view s' g = view s g) ∧ ¬ fine s s'
    else view s f' = None ∧ ∀ g, view s' g = if decide (g = f') then Some (k, 0, false) else view s g.
Proof.
  intros Hy Hv Hne. destruct (view_user _ _ _ _ _ _ _ _ _ _ Hy Hv Hne) as [Hk0 Hk1].
  destruct (view_inv _ _ _ _ _ _ _ _ _ _ Hy Hv) as (fl & i & e & Ef & Ei & Es & _). unfold file_reopen. rewrite (bind_ok _ _ _ _ _ (rd_file_ok _ _ _ Ef)).
  destruct (quiet_reopen F E e0 e1 s (file_inode fl) i Hy Ei) as (s1 & i1 & E1 & Hq & Ei1 & Es1 & Edr1). rewrite (bind_ok _ _ _ _ _ E1).
  destruct (file_open_quiet F E e0 e1 [] s1 (file_inode fl) i1 (qt_fsys _ _ _ _ _ _ _ Hq) Ei1) as (f' & s2 & E2 & Hm & Hy2 & _ & Hr); [congruence..| |].
  { intros [Ho _]. rewrite (qt_files _ _ _ _ _ _ _ Hq) in Ho. assert (file_inode fl ∈ refs [] (files s) (dirs s1)) as Hin%occ_pos by by eapply file_ref. lia. }
  exists f', s2. split; [done|]. split; [done|]. split; [eapply mild_trans; [by eapply (quiet_effect _ _ _ _ _ _ _ Hq)|done]|].
  destruct (decide (f' = NULL)); destruct Hr as [Hr1 Hr2].
  - split; [intros g; by rewrite Hr1, (qt_view _ _ _ _ _ _ _ Hq)|]. intros Hf. apply Hr2. eapply fine_frame; [done|apply Hq].
  - rewrite (qt_files _ _ _ _ _ _ _ Hq) in Hr1. split; [unfold view; by rewrite Hr1|]. intros g. by rewrite Hr2, (qt_view _ _ _ _ _ _ _ Hq), Es1, Es.
Qed.

End calls.
