(* ===== verification/FileInstance.v ===== *)
(** * The file system behind the interface of FileApi *)

From S2P Require Import Prelude Bitmap BlockDevice Inode FreeMap Directory Filesys FsInv FsTable FsFile FsDir FsSys FsCalls FileApi.

Section files.
  Context {B : Type} {BD : BlockDevice B} {BL : BlockDeviceLaws B}.
  Implicit Types (s : fs B) (F : gmap Z extent) (E : list (option (list Z * Z))).

(** An open file of a user: its bytes and position. *)
Definition fs_view s (f : Z) : option (list Z * Z) :=
  if decide (f = free_map_file s) then None else
  fl ← files s !! f; i ← inodes s !! file_inode fl;
  Some (file_bytes (device s) (start (data i), disk_length (data i)), pos fl).

Definition fs_named s (name bs : list Z) : Prop :=
  ∃ F E e0 e1 j k e, fsys F E e0 e1 [] s ∧ E !! j = Some (Some (name, k)) ∧ F !! k = Some e ∧ bs = file_bytes (device s) e.

#[export] Instance fs_files : Files (fs B) := {
  vfs_create := filesys_create;
  vfs_remove := filesys_remove;
  vfs_open := filesys_open;
  vfs_close := file_close;
  vfs_read := file_read;
  vfs_write := file_write;
  vfs_seek := file_seek;
  vfs_tell := file_tell;
  vfs_length := file_length;
  vfs_deny_write := file_deny_write;
  vfs_ok s := ∃ F E e0 e1, fsys F E e0 e1 [] s;
  vfs_view := fs_view;
  vfs_named := fs_named
}.

Lemma fs_view_some F E e0 e1 s f bs ps :
  fsys F E e0 e1 [] s → fs_view s f = Some (bs, ps) →
  ∃ k b e, view s f = Some (k, ps, b) ∧ f ≠ free_map_file s ∧ F !! k = Some e ∧ bs = file_bytes (device s) e ∧ k ≠ 0 ∧ k ≠ 1 ∧ pointer f ∧ 0 ≤ ps < 2 ^ 31.
Proof.
  intros Hy. unfold fs_view. case_decide as Hf; [done|]. destruct (files s !! f) as [fl|] eqn:Ef; [|done]. cbn. destruct (inodes s !! file_inode fl) as [i|] eqn:Ei; [|done].
  cbn. intros [= <- <-]. assert (view s f = Some (sector i, pos fl, deny_write fl)) as Hv by (unfold view; by rewrite Ef, Ei).
  destruct (view_inv _ _ _ _ _ _ _ _ _ _ Hy Hv) as (fl' & i' & e & Ef' & Ei' & _ & _ & _ & Ee & Ed & Hn & Hps). assert (fl' = fl) as -> by congruence. assert (i' = i) as -> by congruence.
  destruct (view_user _ _ _ _ _ _ _ _ _ _ Hy Hv Hf). exists (sector i), (deny_write fl), e. split_and!; try done; try lia. rewrite Ed. by destruct e.
Qed.

Lemma fs_view_of F E e0 e1 s f k ps b e :
  fsys F E e0 e1 [] s → view s f = Some (k, ps, b) → f ≠ free_map_file s → F !! k = Some e → fs_view s f = Some (file_bytes (device s) e, ps).
Proof.
  intros Hy Hv Hf Ee. destruct (view_inv _ _ _ _ _ _ _ _ _ _ Hy Hv) as (fl & i & e' & Ef & Ei & _ & <- & _ & Ee' & Ed & _). assert (e' = e) as -> by congruence.
  unfold fs_view. rewrite decide_False by done. rewrite Ef. cbn. rewrite Ei. cbn. rewrite Ed. by destruct e.
Qed.

Lemma fs_view_none s f : view s f = None → fs_view s f = None.
Proof.
  unfold view, fs_view. case_decide; [done|]. destruct (files s !! f) as [fl|]; [|done]. cbn. by destruct (inodes s !! file_inode fl).
Qed.

(** What a user sees of an open file does not change with [view] and the data. *)
Lemma fs_view_same F E F' E' e0 e1 s s' g :
  fsys F E e0 e1 [] s → fsys F' E' e0 e1 [] s' → frame s s' → view s' g = view s g →
  (∀ k e e', F !! k = Some e → F' !! k = Some e' → k ≠ 0 → k ≠ 1 → e' = e ∧ file_bytes (device s') e = file_bytes (device s) e) →
  fs_view s' g = fs_view s g.
Proof.
  intros Hy Hy' Hfr Hv Hd. destruct (decide (g = free_map_file s)) as [->|Hg].
  { unfold fs_view. rewrite (fr_file _ _ Hfr). by rewrite !decide_True. }
  destruct (view s g) as [[[k ps] b]|] eqn:Ev; [|by rewrite !fs_view_none by done].
  destruct (view_inv _ _ _ _ _ _ _ _ _ _ Hy Ev) as (_ & _ & e & _ & _ & _ & _ & _ & Ee & _). destruct (view_inv _ _ _ _ _ _ _ _ _ _ Hy' Hv) as (_ & _ & e' & _ & _ & _ & _ & _ & Ee' & _).
  destruct (view_user _ _ _ _ _ _ _ _ _ _ Hy Ev Hg). destruct (Hd k e e') as [-> Hb]; try done.
  rewrite (fs_view_of F E e0 e1 s g k ps b e), (fs_view_of F' E' e0 e1 s' g k ps b e) by (done || by rewrite (fr_file _ _ Hfr)). by rewrite Hb.
Qed.

Lemma vfs_bytes_length F E e0 e1 s k e : fsys F E e0 e1 [] s → F !! k = Some e → Z.of_nat (length (file_bytes (device s) e)) = e.2 ∧ 0 ≤ e.2 < 2 ^ 31.
Proof.
  intros Hy Ee. destruct (fy_mounted _ _ _ _ _ _ Hy) as [[Hd _] _]. destruct (di_ext _ _ _ Hd _ _ Ee) as []. pose proof (extent_bytes _ _ _ _ _ Hd Ee).
  split; [|lia]. unfold file_bytes. apply slice_lengthZ; lia.
Qed.

Lemma same_data F s s' : user_data F s s' →
  ∀ k e e', F !! k = Some e → F !! k = Some e' → k ≠ 0 → k ≠ 1 → e' = e ∧ file_bytes (device s') e = file_bytes (device s) e.
Proof. intros Hu k e e' E1 E2 H0 H1. split; [congruence|]. by apply (Hu k). Qed.

Lemma fs_open_ok s name :
  vfs_ok s → 0 ∉ name → ∃ f s', vfs_open name s = Ok (f, s') ∧ vfs_ok s' ∧
    if decide (f = NULL) then ∀ g, vfs_view s' g = vfs_view s g
    else vfs_view s f = None ∧ others_kept f s s' ∧ ∃ bs, vfs_view s' f = Some (bs, 0) ∧ vfs_named s name bs.
Proof.
  intros (F & E & e0 & e1 & Hy) Hz. destruct (filesys_open_ok F E e0 e1 s name Hy Hz) as (f & s' & E1 & [Hfr _ Hu _] & Hy' & Hr). exists f, s'. split; [done|]. split; [by exists F, E, e0, e1|].
  case_decide as Hf.
  - destruct Hr as [Hv _]. intros g. by apply (fs_view_same F E F E e0 e1); [..|apply same_data].
  - destruct Hr as (Hn & j & k & Ej & Hv). destruct (fy_entry _ _ _ _ _ _ Hy j name k Ej) as (K0 & K1 & [e Ee] & _).
    assert (f ≠ free_map_file s) as Hfm. { intros ->. destruct (fsys_map_file _ _ _ _ _ _ Hy) as (_ & _ & fl & i & Hfl & _). congruence. }
    split; [|split].
    + apply fs_view_none. unfold view. by rewrite Hn.
    + intros g Hg. apply (fs_view_same F E F E e0 e1); [done..| |by apply same_data]. by rewrite Hv, decide_False.
    + exists (file_bytes (device s') e). split; [|exists F, E, e0, e1, j, k, e; split_and!; try done; by apply (Hu k)].
      apply (fs_view_of F E e0 e1 s' f k 0 false); [done| |by rewrite (fr_file _ _ Hfr)|done]. by rewrite Hv, decide_True.
Qed.

Lemma fs_deny_ok s f :
  vfs_ok s → is_Some (vfs_view s f) → ∃ s', vfs_deny_write f s = Ok (tt, s') ∧ vfs_ok s' ∧ ∀ g, vfs_view s' g = vfs_view s g.
Proof.
  intros (F & E & e0 & e1 & Hy) [[bs ps] Hf]. destruct (fs_view_some _ _ _ _ _ _ _ _ Hy Hf) as (k & b & e & Hv & Hfm & Ee & -> & K0 & K1 & Hn & Hps).
  destruct (file_deny_user _ _ _ _ _ _ _ _ _ Hy Hv Hfm) as (s' & E1 & Hy' & [Hfr _ Hu _] & Hv'). exists s'. split; [done|]. split; [by exists F, E, e0, e1|].
  intros g. destruct (decide (g = f)) as [->|Hg].
  - change (fs_view s' f = fs_view s f). change (fs_view s f = Some (file_bytes (device s) e, ps)) in Hf. rewrite Hf.
    rewrite (fs_view_of F E e0 e1 s' f k ps true e); [|done|by rewrite Hv', decide_True|by rewrite (fr_file _ _ Hfr)|done]. by rewrite (Hu k).
  - apply (fs_view_same F E F E e0 e1); [done..| |by apply same_data]. by rewrite Hv', decide_False.
Qed.

Lemma fs_read_ok s f bs ps sz :
  vfs_ok s → vfs_view s f = Some (bs, ps) →
  ∃ n s', vfs_read f sz s = Ok (slice bs ps n, s') ∧ vfs_ok s' ∧ 0 ≤ n ≤ 0 `max` sz ∧ 0 ≤ n ≤ 0 `max` (Z.of_nat (length bs) - ps) ∧
    others_kept f s s' ∧ vfs_view s' f = Some (bs, ps + n).
Proof.
  intros (F & E & e0 & e1 & Hy) Hf. destruct (fs_view_some _ _ _ _ _ _ _ _ Hy Hf) as (k & b & e & Hv & Hfm & Ee & -> & K0 & K1 & Hn & Hps).
  destruct (file_read_user F E e0 e1 s f k ps b sz Hy Hv Hfm) as (e' & n & s' & Ee' & E1 & Hy' & [Hfr _ Hu _] & Hrm & _ & Hv'). assert (e' = e) as -> by congruence.
  destruct (vfs_bytes_length _ _ _ _ _ _ _ Hy Ee) as [Hl _]. unfold room in Hrm. exists n, s'. split; [done|]. split; [by exists F, E, e0, e1|]. split; [lia|]. split; [lia|]. split.
  - intros g Hg. apply (fs_view_same F E F E e0 e1); [done..| |by apply same_data]. by rewrite Hv', decide_False.
  - rewrite <-(Hu k e) by done. apply (fs_view_of F E e0 e1 s' f k _ b); [done|by rewrite Hv', decide_True|by rewrite (fr_file _ _ Hfr)|done].
Qed.

Lemma fs_seek_ok s f bs ps new :
  vfs_ok s → vfs_view s f = Some (bs, ps) → 0 ≤ new < 2 ^ 31 →
  ∃ s', vfs_seek f new s = Ok (tt, s') ∧ vfs_ok s' ∧ others_kept f s s' ∧ vfs_view s' f = Some (bs, new).
Proof.
  intros (F & E & e0 & e1 & Hy) Hf Hnew. destruct (fs_view_some _ _ _ _ _ _ _ _ Hy Hf) as (k & b & e & Hv & Hfm & Ee & -> & K0 & K1 & Hn & Hps).
  destruct (file_seek_user F E e0 e1 s f k ps b new Hy Hv Hfm Hnew) as (s' & E1 & Hy' & [Hfr _ Hu _] & Hv'). exists s'. split; [done|]. split; [by exists F, E, e0, e1|]. split.
  - intros g Hg. apply (fs_view_same F E F E e0 e1); [done..| |by apply same_data]. by rewrite Hv', decide_False.
  - rewrite <-(Hu k e) by done. apply (fs_view_of F E e0 e1 s' f k _ b); [done|by rewrite Hv', decide_True|by rewrite (fr_file _ _ Hfr)|done].
Qed.

Lemma fs_write_ok s f bs ps buffer sz :
  vfs_ok s → vfs_view s f = Some (bs, ps) → sz ≤ Z.of_nat (length buffer) →
  ∃ n s', vfs_write f buffer sz s = Ok (n, s') ∧ vfs_ok s' ∧ 0 ≤ n ≤ 0 `max` sz ∧
    vfs_view s' f = Some (splice bs ps (take (Z.to_nat n) buffer), ps + n) ∧ ∀ g, g ≠ f → snd <$> vfs_view s' g = snd <$> vfs_view s g.
Proof.
  intros (F & E & e0 & e1 & Hy) Hf Hsz. destruct (fs_view_some _ _ _ _ _ _ _ _ Hy Hf) as (k & b & e & Hv & Hfm & Ee & -> & K0 & K1 & Hn & Hps).
  destruct (file_write_user F E e0 e1 s f k ps b buffer sz Hy Hv Hfm Hsz) as (e' & n & s' & Ee' & E1 & Hy' & Hfr & _ & Hdk & Hb & _ & Hrm & _ & _ & Hv').
  assert (e' = e) as -> by congruence. unfold room in Hrm. exists n, s'. split; [done|]. split; [by exists F, E, e0, e1|]. split; [lia|]. split.
  - rewrite <-Hb. apply (fs_view_of F E e0 e1 s' f k _ b); [done|by rewrite Hv', decide_True|by rewrite (fr_file _ _ Hfr)|done].
  - intros g Hg. change (snd <$> fs_view s' g = snd <$> fs_view s g). specialize (Hv' g). rewrite decide_False in Hv' by done.
    destruct (decide (g = free_map_file s)) as [->|Hgm]; [unfold fs_view; rewrite (fr_file _ _ Hfr), !decide_True by done; done|].
    destruct (view s g) as [[[k' ps'] b']|] eqn:Ev; [|by rewrite !fs_view_none]. destruct (view_inv _ _ _ _ _ _ _ _ _ _ Hy Ev) as (_ & _ & e' & _ & _ & _ & _ & _ & Ee2 & _).
    rewrite (fs_view_of F E e0 e1 s g k' ps' b' e'), (fs_view_of F E e0 e1 s' g k' ps' b' e') by (done || by rewrite (fr_file _ _ Hfr)). done.
Qed.

Lemma fs_create_ok s name len :
  vfs_ok s → 0 ∉ name → 0 ≤ len < 2 ^ 31 → ∃ ok s', vfs_create name len s = Ok (ok, s') ∧ vfs_ok s' ∧ ∀ g, vfs_view s' g = vfs_view s g.
Proof.
  intros (F & E & e0 & e1 & Hy) Hz Hlen. destruct (filesys_create_ok F E e0 e1 s name len Hy Hz Hlen) as (ok & s' & E1 & [[Hfr _ Hu _] Hv] & Hr). exists ok, s'. split; [done|]. destruct ok.
  - destruct Hr as (k & e & j & Hk & _ & _ & _ & _ & _ & Hy' & _). split; [by eexists _, _, e0, e1|]. intros g. apply (fs_view_same F E (<[k := e]> F) (<[j := Some (name, k)]> E) e0 e1); [done..|].
    intros q x x' Ex Ex' Q0 Q1. rewrite lookup_insert_ne in Ex' by congruence. split; [congruence|by apply (Hu q)].
  - destruct Hr as (Hy' & _). split; [by exists F, E, e0, e1|]. intros g. by apply (fs_view_same F E F E e0 e1); [..|apply same_data].
Qed.

Lemma fs_remove_ok s name :
  vfs_ok s → 0 ∉ name → ∃ ok s', vfs_remove name s = Ok (ok, s') ∧ vfs_ok s' ∧ ∀ g, vfs_view s' g = vfs_view s g.
Proof.
  intros (F & E & e0 & e1 & Hy) Hz. destruct (filesys_remove_ok F E e0 e1 s name Hy Hz) as (ok & s' & E1 & Hr). exists ok, s'. split; [done|]. destruct ok.
  - destruct Hr as (j & k & Ej & Hun). destruct Hun as (Hy' & Hfr & _ & Hu & _ & Hv). split; [by eexists _, _, e0, e1|]. intros g.
    eapply (fs_view_same F E _ _ e0 e1); [done|exact Hy'|done|done|]. intros q x x' Ex Ex' Q0 Q1.
    assert (F !! q = Some x') as Ex2 by (case_decide; [done|by apply lookup_delete_Some in Ex' as [_ ?]]). assert (x' = x) as -> by congruence. split; [done|by apply (Hu q)].
  - destruct Hr as ([[Hfr _ Hu _] Hv] & Hy' & _). split; [by exists F, E, e0, e1|]. intros g. by apply (fs_view_same F E F E e0 e1); [..|apply same_data].
Qed.

Lemma fs_close_ok s f :
  vfs_ok s → is_Some (vfs_view s f) → ∃ s', vfs_close f s = Ok (tt, s') ∧ vfs_ok s' ∧ others_kept f s s' ∧ vfs_view s' f = None.
Proof.
  intros (F & E & e0 & e1 & Hy) [[bs ps] Hf]. destruct (fs_view_some _ _ _ _ _ _ _ _ Hy Hf) as (k & b & e & Hv & Hfm & Ee & -> & K0 & K1 & Hn & Hps).
  destruct (file_close_user _ _ _ _ _ _ _ _ _ Hy Hv Hfm) as (s' & F' & E1 & Hy' & Hfr & _ & Hu & _ & Hv' & HF). exists s'. split; [done|]. split; [by exists F', E, e0, e1|]. split.
  - intros g Hg. apply (fs_view_same F E F' E e0 e1); [done..|by rewrite Hv', decide_False|]. intros q x x' Ex Ex' Q0 Q1.
    assert (F !! q = Some x') as Ex2 by (destruct HF as [[_ ->]|[_ ->]]; [by apply lookup_delete_Some in Ex' as [_ ?]|done]).
    assert (x' = x) as -> by congruence. split; [done|by apply (Hu q)].
  - apply fs_view_none. by rewrite Hv', decide_True.
Qed.

#[export] Instance fs_files_laws : FilesLaws (fs B).
Proof.
  constructor.
  - intros s f bs ps (F & E & e0 & e1 & Hy) Hf. destruct (fs_view_some _ _ _ _ _ _ _ _ Hy Hf) as (k & b & e & Hv & Hfm & Ee & -> & K0 & K1 & Hn & Hps).
    destruct (vfs_bytes_length _ _ _ _ _ _ _ Hy Ee) as [-> ?]. unfold pointer in Hn; split_and!; try done; lia.
  - apply fs_open_ok.
  - apply fs_deny_ok.
  - apply fs_read_ok.
  - apply fs_seek_ok.
  - intros s f new [[bs ps] Hf] (F & E & e0 & e1 & Hy) Hnew. destruct (fs_view_some _ _ _ _ _ _ _ _ Hy Hf) as (_ & _ & _ & _ & _ & _ & _ & _ & _ & Hn%pointer_nonnull & _).
    change (file_seek f new s = Err AssertFailed). unfold file_seek. rewrite (bool_decide_eq_true_2 (f ≠ NULL)) by done. rewrite (bind_ok _ _ _ tt s) by done. by rewrite bool_decide_eq_false_2 by lia.
  - intros s f bs ps (F & E & e0 & e1 & Hy) Hf. destruct (fs_view_some _ _ _ _ _ _ _ _ Hy Hf) as (k & b & e & Hv & Hfm & Ee & -> & K0 & K1 & Hn & Hps).
    destruct (file_length_user _ _ _ _ _ _ _ _ _ Hy Hv) as (e' & Ee' & E1). pose proof (eq_trans (eq_sym Ee) Ee') as Eq. injection Eq as <-. change (vfs_length f s) with (file_length f s). rewrite E1. by destruct (vfs_bytes_length _ _ _ _ _ _ _ Hy Ee) as [-> _].
  - intros s f bs ps (F & E & e0 & e1 & Hy) Hf. destruct (fs_view_some _ _ _ _ _ _ _ _ Hy Hf) as (k & b & e & Hv & _). by apply (file_tell_user F E e0 e1 s f k ps b).
  - apply fs_write_ok.
  - apply fs_create_ok.
  - apply fs_remove_ok.
  - apply fs_close_ok.
  - done.
Qed.
End files.
