(* ===== verification/FsSpec.v ===== *)
(** * The file system as its users see it

    An abstract file system: names, contents of files and open files.  The
    calls of filesys/filesys.c and filesys/file.c as steps of it, and the
    relation between its states and those of the program. *)

From S2P Require Import Prelude Bitmap BlockDevice Inode FreeMap Directory Filesys FsInv FsTable FsFile FsDir FsSys FsCalls.

(** ** Calls *)

Inductive call : Type :=
  | Create (name : list Z) (initial_size : Z)
  | Open (name : list Z)
  | Remove (name : list Z)
  | Close (f : Z)
  | Reopen (f : Z)
  | Read (f size : Z)
  | Write (f : Z) (buffer : list Z) (size : Z)
  | Seek (f new_pos : Z)
  | Tell (f : Z)
  | Length (f : Z)
  | DenyWrite (f : Z)
  | AllowWrite (f : Z).

Inductive answer : Type :=
  | Done | Flag (b : bool) | Handle (f : Z) | Number (n : Z) | Bytes (l : list Z).

Definition exec {B} `{BlockDevice B} (c : call) : M (fs B) answer :=
  match c with
  | Create name n => b ← filesys_create name n; mret (Flag b)
  | Open name => f ← filesys_open name; mret (Handle f)
  | Remove name => b ← filesys_remove name; mret (Flag b)
  | Close f => file_close f;; mret Done
  | Reopen f => f' ← file_reopen f; mret (Handle f')
  | Read f n => l ← file_read f n; mret (Bytes l)
  | Write f buffer n => k ← file_write f buffer n; mret (Number k)
  | Seek f p => file_seek f p;; mret Done
  | Tell f => p ← file_tell f; mret (Number p)
  | Length f => n ← file_length f; mret (Number n)
  | DenyWrite f => file_deny_write f;; mret Done
  | AllowWrite f => file_allow_write f;; mret Done
  end.

(** ** The abstract file system *)

(** Files are known by a number; an open file is the number of its file, the
    position, and whether it denies writes. *)
Record afs := Afs { names : gmap (list Z) Z; contents : gmap Z (list Z); handles : gmap Z (Z * Z * bool) }.

Definition linked (k : Z) (m : gmap (list Z) Z) : Prop := map_Exists (λ _ k', k' = k) m.
Definition held (k : Z) (hs : gmap Z (Z * Z * bool)) : Prop := map_Exists (λ _ h, h.1.1 = k) hs.
Definition denied (k : Z) (hs : gmap Z (Z * Z * bool)) : Prop := map_Exists (λ _ h, h.1.1 = k ∧ h.2 = true) hs.

#[global] Instance linked_dec k m : Decision (linked k m).
Proof. unfold linked. apply _. Defined.
#[global] Instance held_dec k hs : Decision (held k hs).
Proof. unfold held. apply _. Defined.
#[global] Instance denied_dec k hs : Decision (denied k hs).
Proof. unfold denied. apply _. Defined.

(** A file that has no name and is not open does not exist. *)
Definition collect (k : Z) (a : afs) : afs :=
  if decide (linked k (names a) ∨ held k (handles a)) then a else Afs (names a) (delete k (contents a)) (handles a).

(** How many bytes a transfer of [n] bytes at [ps] moves. *)
Definition span (bs : list Z) (ps n : Z) : Z := 0 `max` (n `min` (Z.of_nat (length bs) - ps)).

Definition with_handle (f : Z) (h : Z * Z * bool) (a : afs) : afs := Afs (names a) (contents a) (<[f := h]> (handles a)).

(** The steps, for a directory with [slots] entries. *)
Inductive spec (slots : nat) (a : afs) : call → answer → afs → Prop :=
  | spec_create name n k :
      valid_name name → names a !! name = None → (size (names a) < slots)%nat → contents a !! k = None →
      spec slots a (Create name n) (Flag true)
        (Afs (<[name := k]> (names a)) (<[k := replicate (Z.to_nat n) 0]> (contents a)) (handles a))
  | spec_create_fails name n : spec slots a (Create name n) (Flag false) a
  | spec_open name k f :
      names a !! name = Some k → handles a !! f = None → f ≠ NULL → spec slots a (Open name) (Handle f) (with_handle f (k, 0, false) a)
  | spec_open_fails name : names a !! name = None → spec slots a (Open name) (Handle NULL) a
  | spec_remove name k :
      names a !! name = Some k →
      spec slots a (Remove name) (Flag true) (collect k (Afs (delete name (names a)) (contents a) (handles a)))
  | spec_remove_fails name : names a !! name = None → spec slots a (Remove name) (Flag false) a
  | spec_close f k ps b :
      handles a !! f = Some (k, ps, b) →
      spec slots a (Close f) Done (collect k (Afs (names a) (contents a) (delete f (handles a))))
  | spec_reopen f k ps b f' :
      handles a !! f = Some (k, ps, b) → handles a !! f' = None → f' ≠ NULL →
      spec slots a (Reopen f) (Handle f') (with_handle f' (k, 0, false) a)
  | spec_read f n k ps b bs :
      handles a !! f = Some (k, ps, b) → contents a !! k = Some bs →
      spec slots a (Read f n) (Bytes (slice bs ps (span bs ps n))) (with_handle f (k, ps + span bs ps n, b) a)
  | spec_write f buffer n k ps b bs :
      handles a !! f = Some (k, ps, b) → contents a !! k = Some bs → ¬ denied k (handles a) →
      let m := span bs ps n in
      spec slots a (Write f buffer n) (Number m)
        (Afs (names a) (<[k := splice bs ps (take (Z.to_nat m) buffer)]> (contents a)) (<[f := (k, ps + m, b)]> (handles a)))
  | spec_write_denied f buffer n k ps b :
      handles a !! f = Some (k, ps, b) → denied k (handles a) → spec slots a (Write f buffer n) (Number 0) a
  | spec_seek f p k ps b :
      handles a !! f = Some (k, ps, b) → spec slots a (Seek f p) Done (with_handle f (k, p, b) a)
  | spec_tell f k ps b : handles a !! f = Some (k, ps, b) → spec slots a (Tell f) (Number ps) a
  | spec_length f k ps b bs :
      handles a !! f = Some (k, ps, b) → contents a !! k = Some bs → spec slots a (Length f) (Number (Z.of_nat (length bs))) a
  | spec_deny f k ps b :
      handles a !! f = Some (k, ps, b) → spec slots a (DenyWrite f) Done (with_handle f (k, ps, true) a)
  | spec_allow f k ps b :
      handles a !! f = Some (k, ps, b) → spec slots a (AllowWrite f) Done (with_handle f (k, ps, false) a).

(** ** The relation *)

Section relation.
  Context {B : Type} {BD : BlockDevice B} {BL : BlockDeviceLaws B}.
  Implicit Types (s : fs B) (F : gmap Z extent) (E : list (option (list Z * Z))) (a : afs).

Record rel F E a s : Prop := {
  rl_names nm k : names a !! nm = Some k ↔ ∃ j, E !! j = Some (Some (nm, k));
  rl_unique j1 j2 nm k1 k2 : E !! j1 = Some (Some (nm, k1)) → E !! j2 = Some (Some (nm, k2)) → j1 = j2;
  rl_handles f : handles a !! f = if decide (f = free_map_file s) then None else view s f;
  rl_contents k bs : contents a !! k = Some bs ↔
    (linked k (names a) ∨ held k (handles a)) ∧ ∃ e, F !! k = Some e ∧ bs = file_bytes (device s) e;
  rl_removed k : held k (handles a) → is_removed s k ↔ ¬ linked k (names a)
}.

(** A use of a file by a client that has it open. *)
Definition handle_ok s (f : Z) : Prop := is_Some (view s f) ∧ f ≠ free_map_file s.

Definition allowed s (c : call) : Prop :=
  match c with
  | Create name n => 0 ∉ name ∧ 0 ≤ n < 2 ^ 31
  | Open name | Remove name => 0 ∉ name
  | Close f | Reopen f | Read f _ | Tell f | Length f | DenyWrite f | AllowWrite f => handle_ok s f
  | Write f buffer n => handle_ok s f ∧ n ≤ Z.of_nat (length buffer)
  | Seek f p => handle_ok s f ∧ 0 ≤ p < 2 ^ 31
  end.

Lemma held_insert k f h hs : hs !! f = None ∨ (∃ h', hs !! f = Some h' ∧ h'.1.1 = h.1.1) → held k (<[f := h]> hs) ↔ held k hs ∨ k = h.1.1.
Proof.
  intros Hf. unfold held, map_Exists. split.
  - intros (g & h' & [[<- <-]|[_ Eg]]%lookup_insert_Some & Eh); [by right|]. left. eauto.
  - intros [(g & h' & Eg & Eh)| ->]; [|exists f, h; by rewrite lookup_insert_eq]. destruct (decide (g = f)) as [->|Hne].
    + destruct Hf as [Hf|(h'' & Hf & Es)]; [congruence|]. exists f, h. rewrite lookup_insert_eq. split; [done|]. congruence.
    + exists g, h'. by rewrite lookup_insert_ne.
Qed.

Lemma held_lookup f k ps b hs : hs !! f = Some (k, ps, b) → held k hs.
Proof. intros Ef. by exists f, (k, ps, b). Qed.

Lemma linked_names F E a s k : rel F E a s → linked k (names a) ↔ ∃ j nm, E !! j = Some (Some (nm, k)).
Proof.
  intros Hr. unfold linked, map_Exists. split.
  - intros (nm & k' & En & ->). apply (rl_names _ _ _ _ Hr) in En as [j Ej]. eauto.
  - intros (j & nm & Ej). exists nm, k. split; [|done]. apply (rl_names _ _ _ _ Hr). eauto.
Qed.

Lemma rel_handle F E a s f k ps b : rel F E a s → view s f = Some (k, ps, b) → f ≠ free_map_file s → handles a !! f = Some (k, ps, b).
Proof. intros Hr Hv Hne. by rewrite (rl_handles _ _ _ _ Hr), decide_False. Qed.

Lemma handle_inv s f : handle_ok s f → f ≠ free_map_file s ∧ ∃ k ps b, view s f = Some (k, ps, b).
Proof. intros [[[[k ps] b] Hv] Hne]. eauto 10. Qed.

(** The file of an open file exists. *)
Lemma rel_content F E e0 e1 a s f k ps b e :
  fsys F E e0 e1 [] s → rel F E a s → handles a !! f = Some (k, ps, b) → F !! k = Some e → contents a !! k = Some (file_bytes (device s) e).
Proof. intros Hy Hr Hh Ee. apply (rl_contents _ _ _ _ Hr). split; [right; by eapply held_lookup|]. eauto. Qed.

Lemma file_bytes_length F E e0 e1 H s k e : fsys F E e0 e1 H s → F !! k = Some e → Z.of_nat (length (file_bytes (device s) e)) = e.2.
Proof.
  intros Hy Ee. pose proof (fsys_disk _ _ _ _ _ _ Hy) as Hd. destruct (di_ext _ _ _ Hd _ _ Ee). pose proof (extent_bytes _ _ _ _ _ Hd Ee).
  apply slice_lengthZ; lia.
Qed.

End relation.

(** ** Simulation *)

Section simulation.
  Context {B : Type} {BD : BlockDevice B} {BL : BlockDeviceLaws B}.
  Implicit Types (s : fs B) (F : gmap Z extent) (E : list (option (list Z * Z))) (a : afs).

Definition sim F E e0 e1 s (c : call) : Prop :=
  ∃ r s' F' E', exec c s = Ok (r, s') ∧ frame s s' ∧ stores e0 s s' ∧ fsys F' E' e0 e1 [] s' ∧ length E' = length E ∧
    ∀ a, rel F E a s → fine s s' → ∃ a', spec (length E) a c r a' ∧ rel F' E' a' s'.

Lemma user_file F E e0 e1 a s k :
  fsys F E e0 e1 [] s → rel F E a s → linked k (names a) ∨ held k (handles a) → k ≠ 0 ∧ k ≠ 1 ∧ is_Some (F !! k).
Proof.
  intros Hy Hr [Hl|(f & [[k' ps] b] & Hh & Ek)].
  - apply (linked_names _ _ _ _ _ Hr) in Hl as (j & nm & Ej). destruct (fy_entry _ _ _ _ _ _ Hy _ _ _ Ej) as (? & ? & ? & _). done.
  - cbn in Ek. subst k'. rewrite (rl_handles _ _ _ _ Hr) in Hh. revert Hh. case_decide as Hne; [done|]. intros Hv.
    destruct (view_user _ _ _ _ _ _ _ _ _ _ Hy Hv Hne). destruct (view_inv _ _ _ _ _ _ _ _ _ _ Hy Hv) as (? & ? & e & ? & ? & ? & ? & ? & ? & _). eauto.
Qed.

Lemma linked_not_removed F E e0 e1 a s k : fsys F E e0 e1 [] s → rel F E a s → linked k (names a) → ¬ is_removed s k.
Proof. intros Hy Hr Hl. apply (linked_names _ _ _ _ _ Hr) in Hl as (j & nm & Ej). by apply (fy_entry _ _ _ _ _ _ Hy _ _ _ Ej). Qed.

(** The files stay; the open files change, for files that exist. *)
Lemma rel_same_files F E e0 e1 a s s' hs :
  fsys F E e0 e1 [] s → rel F E a s → mild F e0 s s' →
  (∀ f, hs !! f = if decide (f = free_map_file s) then None else view s' f) →
  (∀ k, held k hs → held k (handles a) ∨ linked k (names a)) → (∀ k, held k (handles a) → held k hs) →
  rel F E (Afs (names a) (contents a) hs) s'.
Proof.
  intros Hy Hr [Hf _ Hu Hrm] Hhs Hnew Hold. assert (∀ k, linked k (names a) ∨ held k hs ↔ linked k (names a) ∨ held k (handles a)) as Hiff.
  { intros k. specialize (Hnew k). specialize (Hold k). tauto. }
  pose proof Hr as [Hrn Hru Hrh Hrc Hrr]. split; cbn; try done.
  - intros f. by rewrite (fr_file _ _ Hf).
  - intros k bs. rewrite Hrc, Hiff. split; intros (Hk & e & Ee & ->); (split; [done|]; exists e; split; [done|]);
      destruct (user_file _ _ _ _ _ _ _ Hy Hr Hk) as (? & ? & _); [symmetry|]; by apply (Hu k).
  - intros k Hk. assert (linked k (names a) ∨ held k (handles a)) as Hk' by (apply Hiff; by right).
    destruct (user_file _ _ _ _ _ _ _ Hy Hr Hk') as (_ & _ & e & Ee). rewrite (Hrm k e Ee). destruct (decide (held k (handles a))) as [Hh|Hh]; [by apply Hrr|].
    destruct Hk' as [Hl|]; [|done]. pose proof (linked_not_removed _ _ _ _ _ _ _ Hy Hr Hl). tauto.
Qed.

(** Moving the position or the flag of an open file. *)
Lemma rel_set_handle F E e0 e1 a s s' f k ps b ps' b' :
  fsys F E e0 e1 [] s → rel F E a s → mild F e0 s s' → view s f = Some (k, ps, b) → f ≠ free_map_file s →
  (∀ g, view s' g = if decide (g = f) then Some (k, ps', b') else view s g) → rel F E (with_handle f (k, ps', b') a) s'.
Proof.
  intros Hy Hr Hm Hv Hne Hv'. pose proof (rel_handle _ _ _ _ _ _ _ _ Hr Hv Hne) as Hh.
  assert (∀ k', held k' (<[f := (k, ps', b')]> (handles a)) ↔ held k' (handles a) ∨ k' = k) as Hheld by (intros; apply held_insert; right; eauto).
  apply (rel_same_files F E e0 e1 a s); [done..| | |].
  - intros g. rewrite Hv'. destruct (decide (g = f)) as [->|Hg].
    + by rewrite lookup_insert_eq, decide_False.
    + rewrite lookup_insert_ne by done. apply (rl_handles _ _ _ _ Hr).
  - intros k' [?| ->]%Hheld; left; [done|]. by eapply held_lookup.
  - intros k' Hk. apply Hheld. by left.
Qed.

(** A new open file. *)
Lemma rel_new_handle F E e0 e1 a s s' f k :
  fsys F E e0 e1 [] s → rel F E a s → mild F e0 s s' → linked k (names a) ∨ held k (handles a) → view s f = None → is_Some (view s (free_map_file s)) →
  (∀ g, view s' g = if decide (g = f) then Some (k, 0, false) else view s g) →
  handles a !! f = None ∧ rel F E (with_handle f (k, 0, false) a) s'.
Proof.
  intros Hy Hr Hm Hk Hv [x Hmap] Hv'. assert (handles a !! f = None) as Hh by (rewrite (rl_handles _ _ _ _ Hr); by case_decide). split; [done|].
  assert (∀ k', held k' (<[f := (k, 0, false)]> (handles a)) ↔ held k' (handles a) ∨ k' = k) as Hheld by (intros; apply held_insert; by left).
  apply (rel_same_files F E e0 e1 a s); [done..| | |].
  - intros g. rewrite Hv'. destruct (decide (g = f)) as [->|Hg].
    + rewrite lookup_insert_eq, decide_False; [done|]. intros ->. congruence.
    + rewrite lookup_insert_ne by done. apply (rl_handles _ _ _ _ Hr).
  - intros k' [?| ->]%Hheld; [by left|]. destruct Hk; [by right|by left].
  - intros k' Hk'. apply Hheld. by left.
Qed.

Lemma map_view F E e0 e1 H s : fsys F E e0 e1 H s → is_Some (view s (free_map_file s)).
Proof.
  intros Hy. destruct (fy_mounted _ _ _ _ _ _ Hy) as [_ (_ & _ & fl & i & Ef & Ei & _)]. unfold view. rewrite Ef, Ei. by eexists.
Qed.

Lemma rel_effect F E e0 e1 a s s' : fsys F E e0 e1 [] s → rel F E a s → effect F e0 s s' → rel F E a s'.
Proof.
  intros Hy Hr [Hm Hv]. replace a with (Afs (names a) (contents a) (handles a)) by by destruct a.
  apply (rel_same_files F E e0 e1 a s); [done..| |by left|done]. intros f. rewrite Hv. apply (rl_handles _ _ _ _ Hr).
Qed.

Lemma span_room F E e0 e1 H s k e sz ps : fsys F E e0 e1 H s → F !! k = Some e → room e sz ps = span (file_bytes (device s) e) ps sz.
Proof. intros Hy Ee. unfold room, span. by rewrite (file_bytes_length _ _ _ _ _ _ _ _ Hy Ee). Qed.

Lemma sim_read F E e0 e1 s f n : fsys F E e0 e1 [] s → allowed s (Read f n) → sim F E e0 e1 s (Read f n).
Proof.
  intros Hy (Hne & k & ps & b & Hv)%handle_inv.
  destruct (file_read_user F E e0 e1 s f k ps b n Hy Hv Hne) as (e & m & s' & Ee & E1 & Hy' & Hm & Hn & Hfn & Hv').
  exists (Bytes (slice (file_bytes (device s) e) ps m)), s', F, E. split; [cbn; by rewrite (bind_ok _ _ _ _ _ E1)|].
  split_and!; [apply Hm|apply Hm|done|done|]. intros a Hr Hf. specialize (Hfn Hf). rewrite (span_room _ _ _ _ _ _ _ _ _ _ Hy Ee) in Hfn. subst m.
  pose proof (rel_handle _ _ _ _ _ _ _ _ Hr Hv Hne) as Hh. eexists. split; [eapply spec_read; [done|by eapply rel_content]|]. by eapply (rel_set_handle F E e0 e1 a s).
Qed.

Lemma sim_seek F E e0 e1 s f p : fsys F E e0 e1 [] s → allowed s (Seek f p) → sim F E e0 e1 s (Seek f p).
Proof.
  intros Hy [(Hne & k & ps & b & Hv)%handle_inv Hp]. destruct (file_seek_user F E e0 e1 s f k ps b p Hy Hv Hne Hp) as (s' & E1 & Hy' & Hm & Hv').
  exists Done, s', F, E. split; [cbn; by rewrite (bind_ok _ _ _ _ _ E1)|]. split_and!; [apply Hm|apply Hm|done|done|]. intros a Hr Hf.
  pose proof (rel_handle _ _ _ _ _ _ _ _ Hr Hv Hne) as Hh. eexists. split; [by eapply spec_seek|]. by eapply (rel_set_handle F E e0 e1 a s).
Qed.

Lemma sim_deny F E e0 e1 s f : fsys F E e0 e1 [] s → allowed s (DenyWrite f) → sim F E e0 e1 s (DenyWrite f).
Proof.
  intros Hy (Hne & k & ps & b & Hv)%handle_inv. destruct (file_deny_user F E e0 e1 s f k ps b Hy Hv Hne) as (s' & E1 & Hy' & Hm & Hv').
  exists Done, s', F, E. split; [cbn; by rewrite (bind_ok _ _ _ _ _ E1)|]. split_and!; [apply Hm|apply Hm|done|done|]. intros a Hr Hf.
  pose proof (rel_handle _ _ _ _ _ _ _ _ Hr Hv Hne) as Hh. eexists. split; [by eapply spec_deny|]. by eapply (rel_set_handle F E e0 e1 a s).
Qed.

Lemma sim_allow F E e0 e1 s f : fsys F E e0 e1 [] s → allowed s (AllowWrite f) → sim F E e0 e1 s (AllowWrite f).
Proof.
  intros Hy (Hne & k & ps & b & Hv)%handle_inv. destruct (file_allow_user F E e0 e1 s f k ps b Hy Hv Hne) as (s' & E1 & Hy' & Hm & Hv').
  exists Done, s', F, E. split; [cbn; by rewrite (bind_ok _ _ _ _ _ E1)|]. split_and!; [apply Hm|apply Hm|done|done|]. intros a Hr Hf.
  pose proof (rel_handle _ _ _ _ _ _ _ _ Hr Hv Hne) as Hh. eexists. split; [by eapply spec_allow|]. by eapply (rel_set_handle F E e0 e1 a s).
Qed.

Lemma sim_tell F E e0 e1 s f : fsys F E e0 e1 [] s → allowed s (Tell f) → sim F E e0 e1 s (Tell f).
Proof.
  intros Hy (Hne & k & ps & b & Hv)%handle_inv. pose proof (file_tell_user F E e0 e1 s f k ps b Hy Hv) as E1.
  exists (Number ps), s, F, E. split; [cbn; by rewrite (bind_ok _ _ _ _ _ E1)|]. split_and!; [apply fr_refl|by intros _|done|done|]. intros a Hr Hf.
  exists a. split; [|done]. eapply spec_tell. by eapply rel_handle.
Qed.

Lemma sim_length F E e0 e1 s f : fsys F E e0 e1 [] s → allowed s (Length f) → sim F E e0 e1 s (Length f).
Proof.
  intros Hy (Hne & k & ps & b & Hv)%handle_inv. destruct (file_length_user F E e0 e1 s f k ps b Hy Hv) as (e & Ee & E1).
  exists (Number e.2), s, F, E. split; [cbn; by rewrite (bind_ok _ _ _ _ _ E1)|]. split_and!; [apply fr_refl|by intros _|done|done|]. intros a Hr Hf.
  exists a. split; [|done]. pose proof (rel_handle _ _ _ _ _ _ _ _ Hr Hv Hne) as Hh. rewrite <-(file_bytes_length _ _ _ _ _ _ _ _ Hy Ee).
  eapply spec_length; [done|]. by eapply rel_content.
Qed.

Lemma sim_reopen F E e0 e1 s f : fsys F E e0 e1 [] s → allowed s (Reopen f) → sim F E e0 e1 s (Reopen f).
Proof.
  intros Hy (Hne & k & ps & b & Hv)%handle_inv. destruct (file_reopen_user F E e0 e1 s f k ps b Hy Hv Hne) as (f' & s' & E1 & Hy' & Hm & Hx).
  exists (Handle f'), s', F, E. split; [cbn; by rewrite (bind_ok _ _ _ _ _ E1)|]. split_and!; [apply Hm|apply Hm|done|done|]. intros a Hr Hf.
  destruct (decide (f' = NULL)); [by destruct Hx|]. destruct Hx as [Hfree Hv']. pose proof (rel_handle _ _ _ _ _ _ _ _ Hr Hv Hne) as Hh.
  destruct (rel_new_handle F E e0 e1 a s s' f' k) as [Hn Hr']; try done; [right; by eapply held_lookup|by eapply map_view|].
  eexists. split; [by eapply spec_reopen|done].
Qed.

Lemma sim_open F E e0 e1 s name : fsys F E e0 e1 [] s → allowed s (Open name) → sim F E e0 e1 s (Open name).
Proof.
  intros Hy Hz. destruct (filesys_open_ok F E e0 e1 s name Hy Hz) as (f & s' & E1 & Hm & Hy' & Hx).
  exists (Handle f), s', F, E. split; [cbn; by rewrite (bind_ok _ _ _ _ _ E1)|]. split_and!; [apply Hm|apply Hm|done|done|]. intros a Hr Hf.
  destruct (decide (f = NULL)) as [->|Hfn].
  - destruct Hx as [Hv Hno]. exists a. split; [|by apply (rel_effect F E e0 e1 a s)]. apply spec_open_fails.
    destruct (names a !! name) as [k|] eqn:En; [|done]. apply (rl_names _ _ _ _ Hr) in En as [j Ej]. by destruct (Hno Hf j k).
  - destruct Hx as (Hfree & j & k & Ej & Hv). assert (names a !! name = Some k) as En by (apply (rl_names _ _ _ _ Hr); eauto).
    destruct (rel_new_handle F E e0 e1 a s s' f k) as [Hn Hr']; try done; [left; by exists name, k|unfold view; by rewrite Hfree|by eapply map_view|].
    eexists. split; [by eapply spec_open|done].
Qed.

Lemma denied_view F E a s k : rel F E a s → k ≠ 0 → (∀ g ps b, view s g = Some (k, ps, b) → g ≠ free_map_file s) →
  denied k (handles a) ↔ ∃ g ps, view s g = Some (k, ps, true).
Proof.
  intros Hr Hk Hmap. unfold denied, map_Exists. split.
  - intros (g & [[k' ps] b] & Eg & Ek & Eb). cbn in Ek, Eb. subst. rewrite (rl_handles _ _ _ _ Hr) in Eg. revert Eg. case_decide; [done|]. eauto.
  - intros (g & ps & Hg). exists g, (k, ps, true). split; [|done]. rewrite (rl_handles _ _ _ _ Hr), decide_False; [done|]. by eapply Hmap.
Qed.

(** No user's file is that of the free map. *)
Lemma map_view_zero F E e0 e1 H s k ps b : fsys F E e0 e1 H s → view s (free_map_file s) = Some (k, ps, b) → k = 0.
Proof.
  intros Hy. destruct (fy_mounted _ _ _ _ _ _ Hy) as [_ (_ & _ & fl & i & Ef & Ei & Es)]. unfold view. rewrite Ef, Ei. by intros [= <- _ _].
Qed.

Lemma sim_write F E e0 e1 s f buffer n : fsys F E e0 e1 [] s → allowed s (Write f buffer n) → sim F E e0 e1 s (Write f buffer n).
Proof.
  intros Hy [(Hne & k & ps & b & Hv)%handle_inv Hn]. destruct (view_user _ _ _ _ _ _ _ _ _ _ Hy Hv Hne) as [Hk0 Hk1].
  destruct (file_write_user F E e0 e1 s f k ps b buffer n Hy Hv Hne Hn) as (e & m & s' & Ee & E1 & Hy' & Hf & Hs & Hkp & Hbs & Hrm & Hm & Hden & Hroom & Hv').
  exists (Number m), s', F, E. split; [cbn; by rewrite (bind_ok _ _ _ _ _ E1)|]. split_and!; [done..|]. intros a Hr Hfn.
  pose proof (rel_handle _ _ _ _ _ _ _ _ Hr Hv Hne) as Hh. pose proof (rel_content _ _ _ _ _ _ _ _ _ _ _ Hy Hr Hh Ee) as Hc.
  assert (denied k (handles a) ↔ ∃ g ps', view s g = Some (k, ps', true)) as Hdn.
  { eapply denied_view; [done..|]. intros g ps' b' Hg ->. apply Hk0. exact (map_view_zero _ _ _ _ _ _ _ _ _ Hy Hg). }
  assert (user_data (delete k F) s s') as Hu. { intros k' e' [? Ek']%lookup_delete_Some _ _. by apply (Hkp k'). }
  assert (∀ k', held k' (<[f := (k, ps + m, b)]> (handles a)) ↔ held k' (handles a) ∨ k' = k) as Hheld by (intros; apply held_insert; right; eauto).
  assert (held k (handles a)) as Hhk by by eapply held_lookup.
  assert (rel F E (Afs (names a) (<[k := splice (file_bytes (device s) e) ps (take (Z.to_nat m) buffer)]> (contents a)) (<[f := (k, ps + m, b)]> (handles a))) s') as Hr'.
  { pose proof Hr as [Hrn Hru Hrh Hrc Hrr]. split; cbn; try done.
    - intros g. rewrite (fr_file _ _ Hf), Hv'. destruct (decide (g = f)) as [->|]; [by rewrite lookup_insert_eq, decide_False|]. by rewrite lookup_insert_ne.
    - intros k' bs. rewrite Hheld. destruct (decide (k' = k)) as [->|Hkk].
      + rewrite lookup_insert_eq, <-Hbs. split; [intros [= <-]|intros (_ & e' & Ee' & ->)]; [split; [tauto|]; eauto|]. by assert (e' = e) as -> by congruence.
      + rewrite lookup_insert_ne, Hrc by done. split; intros (Hor & e' & Ee' & ->); (split; [tauto|]); exists e'; rewrite (Hkp k' e') by done; done.
    - intros k' Hk'%Hheld. assert (held k' (handles a)) as Hk2 by (destruct Hk' as [| ->]; done).
      destruct (user_file _ _ _ _ _ _ _ Hy Hr (or_intror Hk2)) as (_ & _ & e' & Ee'). rewrite (Hrm k' e' Ee'). by apply Hrr. }
  destruct (decide (denied k (handles a))) as [Hd|Hd].
  - pose proof (Hden (proj1 Hdn Hd)) as ->. exists a. split; [by eapply spec_write_denied|].
    replace a with (Afs (names a) (<[k:=splice (file_bytes (device s) e) ps (take (Z.to_nat 0) buffer)]> (contents a)) (<[f:=(k, ps + 0, b)]> (handles a))); [done|].
    change (take (Z.to_nat 0) buffer) with (@nil Z). rewrite splice_nil, Z.add_0_r, !insert_id by done. by destruct a.
  - assert (m = span (file_bytes (device s) e) ps n) as -> by (rewrite <-(span_room _ _ _ _ _ _ _ _ _ _ Hy Ee); apply Hroom; [done|naive_solver]).
    eexists. split; [by eapply (spec_write _ _ _ _ _ _ _ _ (file_bytes (device s) e))|done].
Qed.

Lemma size_set_le (l : list (list Z)) : (size (list_to_set l : gset (list Z)) ≤ length l)%nat.
Proof.
  induction l as [|x l IH]; [done|]. cbn [list_to_set length]. rewrite size_union_alt, size_singleton.
  enough (size ((list_to_set l : gset (list Z)) ∖ {[x]}) ≤ size (list_to_set l : gset (list Z)))%nat by lia. apply subseteq_size. set_solver.
Qed.

Lemma omap_length_lt {A C} (g : A → option C) (l : list A) j x : l !! j = Some x → g x = None → (length (omap g l) < length l)%nat.
Proof.
  revert j. induction l as [|y l IH]; intros j; [done|]. assert (length (omap g l) ≤ length l)%nat as Hle by (clear; induction l as [|z l IH]; cbn; [lia|]; destruct (g z); cbn; lia).
  destruct j as [|j]; cbn.
  - intros [= ->] ->. lia.
  - intros Ej Hg. specialize (IH j Ej Hg). destruct (g y); cbn; lia.
Qed.

(** A directory with a free slot has room for another name. *)
Lemma names_size F E a s j : rel F E a s → E !! j = Some None → (size (names a) < length E)%nat.
Proof.
  intros Hr Ej. rewrite <-size_dom. set (l := omap (λ o : option (list Z * Z), fst <$> o) E).
  assert (dom (names a) ⊆ list_to_set l) as Hsub.
  { intros nm [k En]%elem_of_dom. apply (rl_names _ _ _ _ Hr) in En as [j' Ej']. apply elem_of_list_to_set. apply list_elem_of_omap.
    exists (Some (nm, k)). split; [by eapply list_elem_of_lookup_2|done]. }
  apply subseteq_size in Hsub. pose proof (size_set_le l). assert (length l < length E)%nat by by eapply omap_length_lt. lia.
Qed.

Lemma sim_create F E e0 e1 s name n : fsys F E e0 e1 [] s → allowed s (Create name n) → sim F E e0 e1 s (Create name n).
Proof.
  intros Hy [Hz Hn]. destruct (filesys_create_ok F E e0 e1 s name n Hy Hz Hn) as (ok & s' & E1 & [Hm Hv] & Hx). destruct ok.
  2: { destruct Hx as (Hy' & _). exists (Flag false), s', F, E. split; [cbn; by rewrite (bind_ok _ _ _ _ _ E1)|]. split_and!; [apply Hm|apply Hm|done|done|].
    intros a Hr Hf. exists a. split; [constructor|by apply (rel_effect F E e0 e1 a s)]. }
  destruct Hx as (k & e & j & Hkn & Hk0 & Hk1 & El & Hvn & Hj & Hy' & Hzero & Hfn).
  exists (Flag true), s', (<[k := e]> F), (<[j := Some (name, k)]> E). split; [cbn; by rewrite (bind_ok _ _ _ _ _ E1)|].
  split_and!; [apply Hm|apply Hm|done|by rewrite length_insert|]. intros a Hr Hf. destruct (Hfn Hf) as [Ej Hno].
  assert (names a !! name = None) as En. { destruct (names a !! name) as [k'|] eqn:En; [|done]. apply (rl_names _ _ _ _ Hr) in En as [j' Ej']. by destruct (Hno j' k'). }
  assert (¬ (linked k (names a) ∨ held k (handles a))) as Hnk. { intros Hk. destruct (user_file _ _ _ _ _ _ _ Hy Hr Hk) as (_ & _ & [? ?]). congruence. }
  assert (contents a !! k = None) as Ec. { destruct (contents a !! k) eqn:Ec; [|done]. apply (rl_contents _ _ _ _ Hr) in Ec as [? _]. done. }
  eexists. split; [eapply spec_create; [done|done|by eapply names_size|done]|].
  assert (∀ k', linked k' (<[name := k]> (names a)) ↔ linked k' (names a) ∨ k' = k) as Hlk.
  { intros k'. unfold linked, map_Exists. split.
    - intros (nm & k2 & [[<- <-]|[_ Eg]]%lookup_insert_Some & ->); [by right|left; eauto].
    - intros [(nm & k2 & Eg & ->)| ->]; [|exists name, k; by rewrite lookup_insert_eq]. exists nm, k'. rewrite lookup_insert_ne; [done|congruence]. }
  destruct Hm as [Hfr _ Hu Hrm]. pose proof Hr as [Hrn Hru Hrh Hrc Hrr]. split; cbn.
  - intros nm k'. rewrite lookup_insert_Some. setoid_rewrite list_lookup_insert_Some. split.
    + intros [[<- <-]|[Hne En']]; [by exists j; left|]. apply Hrn in En' as [j' Ej']. exists j'. right. split; [congruence|done].
    + intros (j' & [(<- & [= <- <-] & _)|[Hne Ej']]); [by left|]. right. split; [|apply Hrn; eauto]. intros <-. by apply (Hno j' k').
  - intros j1 j2 nm k1 k2 Ej1 Ej2. apply list_lookup_insert_Some in Ej1, Ej2.
    destruct Ej1 as [(<- & K1 & _)|(_ & Ej1)], Ej2 as [(<- & K2 & _)|(_ & Ej2)]; simplify_eq; [done|by destruct (Hno _ _ Ej2)|by destruct (Hno _ _ Ej1)|]. by eapply Hru.
  - intros f. rewrite (fr_file _ _ Hfr), Hv. apply Hrh.
  - intros k' bs. rewrite Hlk. destruct (decide (k' = k)) as [->|Hne].
    + rewrite !lookup_insert_eq, <-Hzero. split; [intros [= <-]|intros (_ & e' & [= <-] & ->)]; [|done]. split; [tauto|]. eauto.
    + rewrite !lookup_insert_ne, Hrc by done. split; intros (Hor & e' & Ee' & ->); (split; [tauto|]); exists e'; (split; [done|]);
        destruct (user_file _ _ _ _ _ _ k' Hy Hr ltac:(tauto)) as (? & ? & _); [symmetry|]; by apply (Hu k').
  - intros k' Hk'. destruct (user_file _ _ _ _ _ _ _ Hy Hr (or_intror Hk')) as (_ & _ & e' & Ee'). rewrite (Hrm k' e' Ee'), Hlk, (Hrr k' Hk').
    assert (k' ≠ k) by congruence. tauto.
Qed.

(** The file [k] lost a name or an open file. *)
Lemma rel_collect F F' E E' e0 e1 a s s' nms hs k :
  fsys F E e0 e1 [] s → rel F E a s → user_data F' s s' →
  (∀ nm k', nms !! nm = Some k' ↔ ∃ j, E' !! j = Some (Some (nm, k'))) →
  (∀ j1 j2 nm k1 k2, E' !! j1 = Some (Some (nm, k1)) → E' !! j2 = Some (Some (nm, k2)) → j1 = j2) →
  (∀ f, hs !! f = if decide (f = free_map_file s') then None else view s' f) →
  (∀ k', k' ≠ k → (linked k' nms ∨ held k' hs ↔ linked k' (names a) ∨ held k' (handles a)) ∧ F' !! k' = F !! k') →
  (linked k nms ∨ held k hs → (linked k (names a) ∨ held k (handles a)) ∧ F' !! k = F !! k) →
  (∀ k', held k' hs → is_removed s' k' ↔ ¬ linked k' nms) →
  rel F' E' (collect k (Afs nms (contents a) hs)) s'.
Proof.
  intros Hy Hr Hu Hn Hun Hh Hother Hk Hrm. pose proof Hr as [Hrn Hru Hrh Hrc Hrr].
  assert (∀ k' bs, linked k' nms ∨ held k' hs → contents a !! k' = Some bs ↔ ∃ e, F' !! k' = Some e ∧ bs = file_bytes (device s') e) as Hc.
  { intros k' bs Hor. assert ((linked k' (names a) ∨ held k' (handles a)) ∧ F' !! k' = F !! k') as [Hor' HF].
    { destruct (decide (k' = k)) as [->|Hne]; [by apply Hk|]. destruct (Hother k' Hne) as [Hiff ?]. by rewrite <-Hiff. }
    destruct (user_file _ _ _ _ _ _ _ Hy Hr Hor') as (? & ? & _). rewrite Hrc, HF. split.
    - intros (_ & e & Ee & ->). exists e. split; [done|]. symmetry. apply (Hu k'); congruence.
    - intros (e & Ee & ->). split; [done|]. exists e. split; [done|]. apply (Hu k'); congruence. }
  unfold collect. cbn. case_decide as Hdec; split; cbn; try done.
  - intros k' bs. destruct (decide (linked k' nms ∨ held k' hs)) as [Hor|Hno].
    + rewrite Hc by done. tauto.
    + split; [|tauto]. rewrite Hrc. intros [Hor _]. assert (k' ≠ k) as Hne by (intros ->; tauto). destruct Hno. by apply (Hother k' Hne).
  - intros k' bs. rewrite lookup_delete_Some. destruct (decide (k' = k)) as [->|Hne]; [tauto|].
    destruct (decide (linked k' nms ∨ held k' hs)) as [Hor|Hno].
    + rewrite Hc by done. naive_solver.
    + split; [|tauto]. rewrite Hrc. intros (_ & Hor & _). destruct Hno. by apply (Hother k' Hne).
Qed.

(** Users' files open for [k]. *)
Lemma held_opened F E e0 e1 a s k : fsys F E e0 e1 [] s → rel F E a s → k ≠ 0 → held k (handles a) ↔ opened s k.
Proof.
  intros Hy Hr Hk. rewrite opened_view. unfold held, map_Exists. split.
  - intros (g & [[k' ps] b] & Eg & Ek). cbn in Ek. subst. rewrite (rl_handles _ _ _ _ Hr) in Eg. revert Eg. case_decide; [done|]. eauto.
  - intros (g & ps & b & Hg). exists g, (k, ps, b). split; [|done]. rewrite (rl_handles _ _ _ _ Hr), decide_False; [done|]. intros ->. apply Hk.
    exact (map_view_zero _ _ _ _ _ _ _ _ _ Hy Hg).
Qed.

Lemma sim_remove F E e0 e1 s name : fsys F E e0 e1 [] s → allowed s (Remove name) → sim F E e0 e1 s (Remove name).
Proof.
  intros Hy Hz. destruct (filesys_remove_ok F E e0 e1 s name Hy Hz) as (ok & s' & E1 & Hx). destruct ok.
  2: { destruct Hx as (He & Hy' & Hno). exists (Flag false), s', F, E. split; [cbn; by rewrite (bind_ok _ _ _ _ _ E1)|]. split_and!; [apply He|apply He|done|done|].
    intros a Hr Hf. exists a. split; [apply spec_remove_fails|by apply (rel_effect F E e0 e1 a s)].
    destruct (names a !! name) as [k|] eqn:En; [|done]. apply (rl_names _ _ _ _ Hr) in En as [j Ej]. by destruct (Hno Hf j k). }
  destruct Hx as (j & k & Ej & Hy' & Hf & Hs & Hu & Hrm & Hv). destruct (fy_entry _ _ _ _ _ _ Hy _ _ _ Ej) as (Hk0 & Hk1 & [e Ek] & Hnr).
  eexists (Flag true), s', _, _. split; [cbn; by rewrite (bind_ok _ _ _ _ _ E1)|]. split_and!; [done|done|exact Hy'|by rewrite length_insert|].
  intros a Hr Hfn. assert (names a !! name = Some k) as En by (apply (rl_names _ _ _ _ Hr); eauto). eexists. split; [by apply spec_remove|].
  assert (∀ nm k', delete name (names a) !! nm = Some k' ↔ ∃ j', <[j := None]> E !! j' = Some (Some (nm, k'))) as Hnm.
  { intros nm k'. rewrite lookup_delete_Some, (rl_names _ _ _ _ Hr). setoid_rewrite list_lookup_insert_Some. split.
    - intros (Hne & j' & Ej'). exists j'. right. split; [congruence|done].
    - intros (j' & [(_ & ? & _)|[Hne Ej']]); [done|]. split; [|eauto]. intros <-. apply Hne. by eapply (rl_unique _ _ _ _ Hr). }
  assert (∀ k', linked k' (delete name (names a)) ↔ linked k' (names a) ∧ k' ≠ k) as Hlk.
  { intros k'. rewrite (linked_names _ _ _ _ _ Hr). unfold linked, map_Exists. split.
    - intros (nm & k2 & (j' & Ej')%Hnm & ->). apply list_lookup_insert_Some in Ej' as [(_ & ? & _)|[Hne Ej']]; [done|]. split; [eauto|]. intros ->.
      apply Hne. by eapply (fy_distinct _ _ _ _ _ _ Hy).
    - intros [(j' & nm & Ej') Hne]. exists nm, k'. split; [|done]. apply Hnm. exists j'. rewrite list_lookup_insert_ne; [done|congruence]. }
  pose proof (held_opened _ _ _ _ _ _ _ Hy Hr Hk0) as Hop. apply (rel_collect F _ E _ e0 e1 a s); [done..| | | | |].
  - intros j1 j2 nm k1 k2 [(_ & ? & _)|[_ H1]]%list_lookup_insert_Some [(_ & ? & _)|[_ H2]]%list_lookup_insert_Some; try done. by eapply (rl_unique _ _ _ _ Hr).
  - intros f. rewrite (fr_file _ _ Hf), Hv. apply (rl_handles _ _ _ _ Hr).
  - intros k' Hne. rewrite Hlk. split; [tauto|]. case_decide; [done|]. by rewrite lookup_delete_ne.
  - rewrite Hlk. intros [[_ ?]|Hh]; [done|]. split; [by right|]. by rewrite decide_True by by apply Hop.
  - intros k' Hh. rewrite Hlk. destruct (user_file _ _ _ _ _ _ _ Hy Hr (or_intror Hh)) as (_ & _ & e' & Ee').
    rewrite (Hrm k' e'), (rl_removed _ _ _ _ Hr k' Hh); [destruct (decide (k' = k)); destruct (decide (linked k' (names a))); tauto|].
    case_decide as Ho; [done|]. rewrite lookup_delete_ne; [done|]. intros <-. tauto.
Qed.

Lemma sim_close F E e0 e1 s f : fsys F E e0 e1 [] s → allowed s (Close f) → sim F E e0 e1 s (Close f).
Proof.
  intros Hy (Hne & k & ps & b & Hv)%handle_inv. destruct (view_user _ _ _ _ _ _ _ _ _ _ Hy Hv Hne) as [Hk0 Hk1].
  destruct (file_close_user F E e0 e1 s f k ps b Hy Hv Hne) as (s' & F' & E1 & Hy' & Hf & Hs & Hu & Hrm & Hv' & HF).
  exists Done, s', F', E. split; [cbn; by rewrite (bind_ok _ _ _ _ _ E1)|]. split_and!; [done..|]. intros a Hr Hfn.
  pose proof (rel_handle _ _ _ _ _ _ _ _ Hr Hv Hne) as Hh. eexists. split; [by eapply spec_close|].
  assert (∀ k', held k' (delete f (handles a)) → held k' (handles a)) as Hsub. { intros k' (g & h & [_ Eg]%lookup_delete_Some & ?). by exists g, h. }
  assert (∀ k', k' ≠ k → held k' (handles a) → held k' (delete f (handles a))) as Hsub'.
  { intros k' Hkk (g & h & Eg & Eh). exists g, h. rewrite lookup_delete_ne; [done|]. intros ->. rewrite Hh in Eg. by injection Eg as <-. }
  assert (closes_last s f k ↔ ¬ (linked k (names a) ∨ held k (delete f (handles a)))) as Hcl.
  { unfold closes_last. rewrite (rl_removed _ _ _ _ Hr k) by by eapply held_lookup. split.
    - intros [Hl Hno] [?|(g & [[k' ps'] b'] & [Hgf Eg]%lookup_delete_Some & Ek)]; [done|]. cbn in Ek. subst. rewrite (rl_handles _ _ _ _ Hr) in Eg.
      revert Eg. case_decide; [done|]. intros Eg. destruct Hgf. symmetry. by eapply Hno.
    - intros Hno. split; [tauto|]. intros g ps' b' Hg. destruct (decide (g = f)) as [|Hgf]; [done|]. destruct Hno. right.
      exists g, (k, ps', b'). split; [|done]. rewrite lookup_delete_ne, (rl_handles _ _ _ _ Hr), decide_False; [done| |done]. intros ->.
      apply Hk0. exact (map_view_zero _ _ _ _ _ _ _ _ _ Hy Hg). }
  assert (∀ k', k' ≠ k → F' !! k' = F !! k') as HF'. { intros k' Hkk. destruct HF as [[_ ->]|[_ ->]]; [by rewrite lookup_delete_ne|done]. }
  apply (rel_collect F F' E E e0 e1 a s); [done|done|done|apply Hr|apply Hr| | | |].
  - intros g. rewrite (fr_file _ _ Hf), Hv'. destruct (decide (g = f)) as [->|Hg]; [rewrite lookup_delete_eq; by case_decide|].
    rewrite lookup_delete_ne by done. apply (rl_handles _ _ _ _ Hr).
  - intros k' Hkk. split; [|by apply HF']. specialize (Hsub k'). specialize (Hsub' k' Hkk). tauto.
  - intros Hor. specialize (Hsub k). split; [tauto|]. destruct HF as [[Hc _]|[_ ->]]; [tauto|done].
  - intros k' Hk'. pose proof (Hsub k' Hk') as Hk2. destruct (user_file _ _ _ _ _ _ _ Hy Hr (or_intror Hk2)) as (_ & _ & e' & Ee').
    rewrite (Hrm k' e'); [by apply (rl_removed _ _ _ _ Hr)|]. destruct (decide (k' = k)) as [->|Hkk]; [|by rewrite HF'].
    destruct HF as [[Hc _]|[_ ->]]; [tauto|done].
Qed.

(** Every call succeeds, keeps the invariant, and is a step of the abstract
    file system. *)
Lemma sim_call F E e0 e1 s c : fsys F E e0 e1 [] s → allowed s c → sim F E e0 e1 s c.
Proof.
  destruct c; [apply sim_create|apply sim_open|apply sim_remove|apply sim_close|apply sim_reopen|apply sim_read|apply sim_write|apply sim_seek
    |apply sim_tell|apply sim_length|apply sim_deny|apply sim_allow].
Qed.

End simulation.
