(* ===== verification/FsMount.v ===== *)
(** * Formatting and mounting

    Initialisation of the file system (filesys_init): the free map is made or
    read, and the root directory made; and what a later mount finds. *)

From S2P Require Import Prelude Bitmap BlockDevice Inode FreeMap Directory Filesys FsInv FsTable FsFile FsDir FsSys FsCalls FsSpec.

Section mount.
  Context {B : Type} {BD : BlockDevice B} {BL : BlockDeviceLaws B}.
  Implicit Types (s : fs B) (F : gmap Z extent) (E : list (option (list Z * Z))).

(** ** Use of memory *)

(** A program that calls [malloc] at most [n] times. *)
Definition spends {A} (n : nat) (m : M (fs B) A) : Prop :=
  ∀ s r s', m s = Ok (r, s') → (length (answers s) ≤ length (answers s') + n)%nat.

Lemma spends_bind {A C} n k (m : M (fs B) A) (f : A → M (fs B) C) : spends n m → (∀ x, spends k (f x)) → spends (n + k) (m ≫= f).
Proof. intros Hm Hf s r s' (x & s1 & E1 & E2)%bind_inv. specialize (Hm _ _ _ E1). specialize (Hf _ _ _ _ E2). lia. Qed.

Lemma spends_le {A} n k (m : M (fs B) A) : spends n m → (n ≤ k)%nat → spends k m.
Proof. intros Hm Hle s r s' E. specialize (Hm _ _ _ E). lia. Qed.

(** Nothing before, or nothing after. *)
Lemma spends_then {A C} n (m : M (fs B) A) (f : A → M (fs B) C) : spends 0 m → (∀ x, spends n (f x)) → spends n (m ≫= f).
Proof. apply (spends_bind 0 n). Qed.

Lemma spends_keep {A} n (m : M (fs B) A) : (∀ s r s', m s = Ok (r, s') → answers s' = answers s) → spends n m.
Proof. intros Hm s r s' E. rewrite (Hm _ _ _ E). lia. Qed.

Lemma spends_ret {A} n (x : A) : spends n (mret x).
Proof. apply spends_keep. by intros s r s' [= <- <-]. Qed.
Lemma spends_fail {A} n e : spends n (fail e : M (fs B) A).
Proof. by intros s r s'. Qed.
Lemma spends_assert n b : spends n (assert b : M (fs B) unit).
Proof. apply spends_keep. intros s r s'. destruct b; [by intros [= <- <-]|done]. Qed.
Lemma spends_gets {A} n (f : fs B → A) : spends n (gets f).
Proof. apply spends_keep. by intros s r s' [= <- <-]. Qed.
Lemma spends_lift {A} n (x : result A) : spends n (lift x : M (fs B) A).
Proof. apply spends_keep. intros s r s'. unfold lift. destruct x; [by intros [= <- <-]|done]. Qed.
Lemma spends_rd_inode n p : spends n (rd_inode p : M (fs B) inode).
Proof. apply spends_keep. intros s r s'. unfold rd_inode. destruct (_ !! _); [by intros [= <- <-]|done]. Qed.
Lemma spends_wr_inode n p i : spends n (wr_inode p i : M (fs B) unit).
Proof. apply spends_keep. by intros s r s' [= <- <-]. Qed.
Lemma spends_rd_file n p : spends n (rd_file p : M (fs B) file).
Proof. apply spends_keep. intros s r s'. unfold rd_file. destruct (_ !! _); [by intros [= <- <-]|done]. Qed.
Lemma spends_modify n (f : fs B → fs B) : (∀ s, answers (f s) = answers s) → spends n (modify f).
Proof. intros Hf. apply spends_keep. intros s r s' [= <- <-]. apply Hf. Qed.
Lemma spends_device {A} n (m : M B A) : spends n (on_device m).
Proof. apply spends_keep. intros s r s'. unfold on_device, zoom. destruct (m _) as [[? ?]|]; [by intros [= <- <-]|done]. Qed.
Lemma spends_map {A} n (m : M bitmap A) : spends n (on_free_map m : M (fs B) A).
Proof. apply spends_keep. intros s r s'. unfold on_free_map, zoom. destruct (m _) as [[? ?]|]; [by intros [= <- <-]|done]. Qed.
Lemma spends_malloc : spends 1 malloc.
Proof. intros s r s'. unfold malloc. destruct (answers s) as [|a l] eqn:E; intros [= <- <-]; cbn; rewrite ?E; cbn; lia. Qed.

(** One step of a proof that a program spends [n]. *)
Local Ltac spend_step :=
  match goal with
  | |- spends _ (mret _) => apply spends_ret
  | |- spends _ (fail _) => apply spends_fail
  | |- spends _ (assert _) => apply spends_assert
  | |- spends _ (gets _) => apply spends_gets
  | |- spends _ (lift _) => apply spends_lift
  | |- spends _ (rd_inode _) => apply spends_rd_inode
  | |- spends _ (wr_inode _ _) => apply spends_wr_inode
  | |- spends _ (rd_file _) => apply spends_rd_file
  | |- spends _ (modify _) => by apply spends_modify
  | |- spends _ (on_device _) => apply spends_device
  | |- spends _ (on_free_map _) => apply spends_map
  | |- spends _ (match ?b with _ => _ end) => destruct b
  end.
Local Ltac spend := repeat (first [spend_step | apply spends_then; [solve [repeat spend_step]|intros ?] | done]).

Lemma spends_bounce (b : bool) : spends (if b then 0 else 1) (get_bounce b : M (fs B) bool).
Proof. destruct b; cbn; [spend|]. apply (spends_bind 1 0); [apply spends_malloc|intros; spend]. Qed.

Lemma spends_read_loop fuel p sz ofs (b : bool) : spends (if b then 0 else 1) (inode_read_loop fuel p sz ofs b : M (fs B) (list Z)).
Proof.
  revert sz ofs b. induction fuel as [|fuel IH]; intros sz ofs b; cbn [inode_read_loop]; [spend|]. spend.
  - replace (if b then 0%nat else 1%nat) with ((if b then 0 else 1) + 0)%nat by (destruct b; done). apply spends_bind; [apply IH|intros; spend].
  - replace (if b then 0%nat else 1%nat) with ((if b then 0 else 1) + 0)%nat by (destruct b; done). apply spends_bind; [apply spends_bounce|]. intros []; spend.
    apply (spends_bind 0 0); [apply (IH _ _ true)|intros; spend].
Qed.

Lemma spends_write_loop fuel p buffer sz ofs w (b : bool) : spends (if b then 0 else 1) (inode_write_loop fuel p buffer sz ofs w b : M (fs B) Z).
Proof.
  revert sz ofs w b. induction fuel as [|fuel IH]; intros sz ofs w b; cbn [inode_write_loop]; [spend|]. spend.
  replace (if b then 0%nat else 1%nat) with ((if b then 0 else 1) + 0)%nat by (destruct b; done). apply spends_bind; [apply spends_bounce|]. intros []; spend.
  all: apply (IH _ _ _ true).
Qed.

Lemma spends_read_at p sz ofs : spends 1 (inode_read_at p sz ofs : M (fs B) (list Z)).
Proof. apply (spends_read_loop _ _ _ _ false). Qed.

Lemma spends_write_free_map : spends 1 (write_free_map : M (fs B) bool).
Proof.
  unfold write_free_map, bitmap_write, file_write_at, inode_write_at. apply spends_then; [apply spends_gets|intros b]. apply spends_then; [apply spends_gets|intros f].
  apply (spends_bind 1 0); [|intros; spend]. apply spends_then; [spend|intros fl]. apply spends_then; [spend|intros i]. spend.
  apply (spends_write_loop _ _ _ _ _ _ false).
Qed.

Lemma spends_allocate cnt : spends 1 (free_map_allocate cnt : M (fs B) (option Z)).
Proof.
  unfold free_map_allocate. apply spends_then; [spend|intros sec]. apply spends_then; [spend|intros f]. apply (spends_bind 1 0).
  - case_decide; [apply (spends_bind 1 0); [apply spends_write_free_map|intros; spend]|spend].
  - intros failed. apply spends_then; [|intros; spend]. destruct failed; spend.
Qed.

Lemma spends_zeros n st i : spends 0 (write_zeros n st i : M (fs B) unit).
Proof. revert i. induction n as [|n IH]; intros i; cbn [write_zeros]; [spend|]. spend. Qed.

Lemma spends_create sec len : spends 2 (inode_create sec len : M (fs B) bool).
Proof.
  unfold inode_create. apply spends_then; [spend|intros _]. apply (spends_bind 1 1); [apply spends_malloc|intros p]. case_decide; [|spend].
  apply (spends_bind 1 0); [apply spends_allocate|]. intros [st|]; [|spend]. apply spends_then; [spend|intros _].
  apply spends_then; [case_decide; [apply spends_zeros|spend]|intros _; spend].
Qed.

(** A [malloc] that succeeds. *)
Lemma malloc_ample s a l : ample s → answers s = a :: l → malloc s = Ok (a, set_answers l s) ∧ pointer a ∧ ¬ in_use s a.
Proof.
  intros (_ & Ha & Ho) E. unfold malloc. rewrite E in *. destruct (Ha a ltac:(by left)) as [Hn Hu]. cbn [length] in Ho.
  rewrite decide_False; [done|]. intros [?|[?|?]]; [done|lia|done].
Qed.

Lemma ample_answers s a l : ample s → answers s = a :: l → ample (set_answers l s).
Proof. intros Ha E. apply (ample_suffix s); [done| |done..]. cbn. rewrite E. by exists [a]. Qed.

(** ** Making the free map *)

(** Sectors 0 and 1 are in use. *)
Definition fresh_bits (n : Z) : list bool := <[1%nat := true]> (<[0%nat := true]> (replicate (Z.to_nat n) false)).

Lemma fresh_marked (m : bitmap) n x : bools m = fresh_bits n → 0 ≤ x → marked m x ↔ x < n ∧ (x = 0 ∨ x = 1).
Proof.
  intros Hb Hx. unfold marked, fresh_bits in *. rewrite Hb. rewrite !list_lookup_insert_Some, !length_insert, length_replicate.
  rewrite lookup_replicate. split.
  - intros [(? & _ & ?)|(? & [(? & _ & ?)|(? & ? & ?)])]; [lia|lia|done].
  - intros [Hlt [->| ->]]; [right; split; [lia|]; left; lia|left; lia].
Qed.

Lemma free_map_init_ok s junk a1 a2 l :
  dev_wf (device s) → 2 ≤ dev_size (device s) → bitmap_wf (Bitmap (dev_size (device s)) junk) → ample s → answers s = a1 :: a2 :: l →
  ∃ m, free_map_init junk s = Ok (tt, set_free_map m (set_answers l s)) ∧ bitmap_wf m ∧ bools m = fresh_bits (dev_size (device s)).
Proof.
  intros Hd Hn Hwf Ha El. destruct (malloc_ample s a1 _ Ha El) as (M1 & Hn1%pointer_nonnull & _). set (s1 := set_answers (a2 :: l) s) in *.
  destruct (malloc_ample s1 a2 l) as (M2 & Hn2%pointer_nonnull & _); [by eapply ample_answers|done|].
  destruct (bitmap_create_ok junk (dev_size (device s)) Hwf) as (b0 & E0 & Hw0 & Hb0).
  unfold free_map_init. rewrite (bind_ok _ _ _ _ s) by done. rewrite (bind_ok _ _ _ _ _ M1). rewrite decide_True by done. rewrite (bind_ok _ _ _ _ _ M2).
  rewrite decide_True by done. rewrite bool_decide_eq_true_2 by done. rewrite (bind_ok _ _ _ (Some b0) (set_answers l s1)) by (unfold lift; by rewrite E0).
  rewrite (bind_ok _ _ _ tt (set_free_map b0 (set_answers l s1))) by done.
  assert (length (bools b0) = Z.to_nat (dev_size (device s))) as Hl by (rewrite Hb0; apply length_replicate).
  destruct (bitmap_mark_ok b0 Hw0 0) as (b1 & E1 & Hw1 & Hb1); [rewrite bools_length in Hl; lia|].
  destruct (bitmap_mark_ok b1 Hw1 1) as (b2 & E2 & Hw2 & Hb2); [assert (length (bools b1) = length (bools b0)) as Hl1 by (rewrite Hb1; apply length_insert); rewrite bools_length, Hl in Hl1; lia|].
  exists b2. split_and!; [|done|by rewrite Hb2, Hb1, Hb0]. rewrite (bind_ok _ _ _ tt (set_free_map b1 (set_answers l s1))) by (rewrite (on_free_map_ok _ _ tt b1); [done|exact E1]).
  rewrite (on_free_map_ok _ _ tt b2); [done|exact E2].
Qed.

(** ** The file of the free map *)

(** No inode, file or directory is open. *)
Record no_open s : Prop := {
  id_inodes : inodes s = ∅;
  id_open : open_inodes s = [];
  id_files : files s = ∅;
  id_dirs : dirs s = ∅
}.

Lemma no_open_touched s img m s' : touched s img m s' → no_open s → no_open s'.
Proof. intros Ht []. destruct (touched_same _ _ _ _ Ht) as (_ & ? & ? & ? & ? & _). split; congruence. Qed.

(** The state in which only the file of the free map is open. *)
Definition one_open (d : B) (p f : Z) (e0 : extent) (m : bitmap) (stk l : list Z) : fs B :=
  Fs d {[p := Inode 0 1 false 0 (inode_of e0)]} [p] m f {[f := File p 0 false]} ∅ stk l.

Lemma open_map_file F m s p f l e0 :
  disk_inv F (device s) m → F !! 0 = Some e0 → no_open s → ample s → answers s = p :: f :: l →
  ∃ d', let s' := one_open d' p f e0 (free_map s) (stack s) l in
    dev_wf d' ∧ dev_size d' = dev_size (device s) ∧ image d' = image (device s) ∧ p ≠ NULL ∧ pointer f ∧ ample s' ∧
    ∀ {A} (k : Z → M (fs B) A), (ip ← inode_open FREE_MAP_SECTOR; f ← file_open ip; modify (set_free_map_file f);; k f) s = k f s'.
Proof.
  intros Hd E0 [Hin Hop Hfl Hdr] Ha El. destruct (malloc_ample s p _ Ha El) as (M1 & Hpn%pointer_nonnull & Hpu). pose proof (ample_answers _ _ _ Ha El) as Ha1.
  pose proof (ext_inode _ _ _ (di_ext _ _ _ Hd _ _ E0)) as Hk. destruct (dev_read_ok (device s) 0 (di_dev _ _ _ Hd)) as (d' & Hrd & Hwf' & Hsz' & Him'); [lia..|].
  unfold BLOCK_SECTOR_SIZE in Hrd. rewrite (di_inode _ _ _ Hd _ _ E0) in Hrd. pose proof (di_size _ _ _ Hd) as Hsz.
  assert (decode_inode (encode_inode (inode_of e0)) = inode_of e0) as Hdec by (apply decode_encode; eapply inode_of_ok; [by eapply (di_ext _ _ _ Hd)|lia]).
  set (s1 := set_inodes (<[p := Inode 0 1 false 0 (inode_of e0)]>) (set_device d' (set_open_inodes (cons p) (set_answers (f :: l) s)))).
  assert (inode_open FREE_MAP_SECTOR s = Ok (p, s1)) as O1.
  { unfold inode_open. rewrite (bind_ok _ _ _ [] s) by (unfold gets; by rewrite Hop). cbn [find_open]. rewrite ret_bind. rewrite (bind_ok _ _ _ _ _ M1). rewrite decide_False by done.
    rewrite (bind_ok _ _ _ tt (set_open_inodes (cons p) (set_answers (f :: l) s))) by done.
    rewrite (bind_ok _ _ _ (encode_inode (inode_of e0)) (set_device d' (set_open_inodes (cons p) (set_answers (f :: l) s)))) by (by apply zoom_ok).
    by rewrite Hdec. }
  assert (in_use s1 f → False) as Hfu.
  { unfold in_use, s1. cbn. rewrite Hin, Hfl, Hdr. intros [[? [[-> _]|[_ ?]]%lookup_insert_Some]|[[? ?]|[? ?]]]; [|done..].
    destruct Ha as (Hnd & _). rewrite El in Hnd. apply NoDup_cons in Hnd as [Hnd _]. apply Hnd. by left. }
  assert (objects s1 = 1) as Hob by (unfold objects, s1; cbn; rewrite Hin, Hfl, Hdr; by rewrite map_size_insert_None).
  assert (pointer f) as Hfn by (destruct Ha as (_ & Ha & _); apply Ha; rewrite El; by right; left).
  assert (malloc s1 = Ok (f, set_answers l s1)) as M2.
  { unfold malloc. change (answers s1) with (f :: l). cbn iota. rewrite decide_False; [done|]. rewrite Hob. intros [?|[?|?]]; [done|lia|done]. }
  assert (set_free_map_file f (set_files (<[f := File p 0 false]>) (set_answers l s1)) = one_open d' p f e0 (free_map s) (stack s) l) as Hst.
  { unfold s1, one_open. clear -Hin Hop Hfl Hdr. destruct s. cbn in *. by subst. }
  exists d'. split_and!; [done..| |].
  - destruct Ha as (Hnd & Hall & Hobj). rewrite El in *. rewrite !NoDup_cons in Hnd. destruct Hnd as (Hn1 & Hn2 & Hn3). split_and!; [done| |].
    + cbn. intros a Hal. split; [apply Hall; by right; right|]. unfold in_use. cbn. intros [[? [? _]%lookup_singleton_Some]|[[? [? _]%lookup_singleton_Some]|[? ?]]]; subst; try done.
      apply Hn1. by right.
    + unfold objects in *. cbn [length] in Hobj. cbn. rewrite !map_size_singleton, map_size_empty. rewrite Hin, Hfl, Hdr, !map_size_empty in Hobj. lia.
  - intros A k. rewrite (bind_ok _ _ _ _ _ O1). unfold file_open. rewrite bind_assoc, (bind_ok _ _ _ _ _ M2). pose proof (pointer_nonnull f Hfn). rewrite decide_True by done.
    rewrite bind_assoc, (bind_ok _ _ _ tt (set_files (<[f := File p 0 false]>) (set_answers l s1))) by done. rewrite ret_bind.
    rewrite (bind_ok _ _ _ tt (set_free_map_file f (set_files (<[f := File p 0 false]>) (set_answers l s1)))) by done.
    by rewrite Hst.
Qed.

(** The invariant of that state. *)
Lemma one_open_inv F d p f e0 m stk l :
  disk_inv F d m → F !! 0 = Some e0 → p ≠ NULL → pointer f → mounted F e0 [] (one_open d p f e0 m stk l).
Proof.
  intros Hd E0 Hp Hf. split; [split; [done|]|]; [|split; [by apply pointer_nonnull|]; split; [done|]; exists (File p 0 false), (Inode 0 1 false 0 (inode_of e0)); cbn; by rewrite !lookup_singleton_eq].
  assert (refs [] ({[f := File p 0 false]} : gmap Z file) ∅ = [p]) as Hrefs by (unfold refs; by rewrite map_to_list_singleton, map_to_list_empty).
  split; cbn [open_inodes inodes files dirs one_open].
  - apply NoDup_singleton.
  - intros q. rewrite list_elem_of_singleton. split; [intros ->; by rewrite lookup_singleton_eq|]. by intros [? [-> _]%lookup_singleton_Some].
  - intros q r i j [-> _]%lookup_singleton_Some [-> _]%lookup_singleton_Some. done.
  - by intros q i [-> _]%lookup_singleton_Some.
  - intros q i [_ <-]%lookup_singleton_Some. by exists e0.
  - intros q i [<- <-]%lookup_singleton_Some. rewrite Hrefs. unfold occ. rewrite filter_cons_True by done. done.
  - intros q i [<- <-]%lookup_singleton_Some. unfold denies. rewrite map_to_list_singleton. cbn. rewrite decide_False; [done|]. by intros [_ ?].
  - intros q. rewrite Hrefs, list_elem_of_singleton. intros ->. by rewrite lookup_singleton_eq.
  - intros g gl [<- <-]%lookup_singleton_Some. cbn. split; [done|lia].
  - by intros g gl ?%lookup_empty_Some.
  - done.
  - unfold objects. cbn. rewrite !map_size_singleton, map_size_empty. lia.
  - cbn. lia.
Qed.

(** Closing it. *)
Lemma one_open_close F s p f e0 d m stk l img m' :
  disk_inv F d m → F !! 0 = Some e0 → p ≠ NULL → pointer f → touched (one_open d p f e0 m stk l) img m' s →
  ∃ s', free_map_close s = Ok (tt, s') ∧ no_open s' ∧ device s' = device s ∧ free_map s' = free_map s ∧ answers s' = answers s ∧ stack s' = stack s.
Proof.
  intros Hd E0 Hp Hf%pointer_nonnull Ht. destruct (touched_same _ _ _ _ Ht) as (_ & Ein & Efl & Edr & Eop & Emf & _). cbn in Ein, Efl, Edr, Eop, Emf.
  assert (rd_file f s = Ok (File p 0 false, s)) as Hrd by (apply rd_file_ok; rewrite Efl; apply lookup_singleton_eq).
  assert (rd_inode p s = Ok (Inode 0 1 false 0 (inode_of e0), s)) as Hri by (apply rd_inode_ok; rewrite Ein; apply lookup_singleton_eq).
  assert (file_allow_write f s = Ok (tt, s)) as Hal.
  { unfold file_allow_write. rewrite bool_decide_eq_true_2 by done. rewrite (bind_ok _ _ _ tt s) by done. by rewrite (bind_ok _ _ _ _ _ Hrd). }
  set (s1 := set_inodes (delete p) (set_open_inodes (filter (λ q, q ≠ p)) (set_inodes (<[p := Inode 0 0 false 0 (inode_of e0)]>) s))).
  assert (inode_close p s = Ok (tt, s1)) as Hic.
  { unfold inode_close. rewrite decide_False by done. rewrite (bind_ok _ _ _ _ _ Hri). cbn [open_cnt removed]. change (i32 (1 - 1)) with 0.
    rewrite decide_True by done. done. }
  exists (set_files (delete f) s1). split; [|split; [|done]].
  - unfold free_map_close. rewrite (bind_ok _ _ _ f s) by (unfold gets; by rewrite Emf). unfold file_close. rewrite decide_True by done.
    rewrite (bind_ok _ _ _ _ _ Hal), (bind_ok _ _ _ _ _ Hrd). cbn [file_inode]. by rewrite (bind_ok _ _ _ _ _ Hic).
  - split; cbn; [by rewrite Ein, insert_singleton_eq, delete_singleton_eq| |by rewrite Efl, delete_singleton_eq|done].
    rewrite Eop. rewrite filter_cons_False by tauto. done.
Qed.

(** ** Mounting *)

(** What a disk needs to be mounted: its files [F], the slots of its root
    directory, and its free map [m]. *)
Record mountable F E (e0 e1 : extent) (m : bitmap) (d : B) : Prop := {
  mn_disk : disk_inv F d m;
  mn_map : F !! 0 = Some e0;
  mn_mapsize : byte_cnt (bit_cnt m) ≤ e0.2;
  mn_synced : synced e0 d m;
  mn_root : F !! 1 = Some e1;
  mn_slots : root_is E (file_bytes d e1);
  mn_entry j nm k : E !! j = Some (Some (nm, k)) → k ≠ 0 ∧ k ≠ 1 ∧ is_Some (F !! k);
  mn_distinct j1 j2 nm1 nm2 k : E !! j1 = Some (Some (nm1, k)) → E !! j2 = Some (Some (nm2, k)) → j1 = j2
}.

Lemma mountable_fsys F E e0 e1 s : fsys F E e0 e1 [] s → synced e0 (device s) (free_map s) → mountable F E e0 e1 (free_map s) (device s).
Proof.
  intros Hy Hs. split; [by eapply fsys_disk|by eapply fsys_map_file|apply Hy|done|apply Hy|apply Hy| |apply (fy_distinct _ _ _ _ _ _ Hy)].
  intros j nm k Ej. destruct (fy_entry _ _ _ _ _ _ Hy _ _ _ Ej) as (? & ? & ? & _). done.
Qed.

Lemma mountable_image F E e0 e1 m m' d d' :
  mountable F E e0 e1 m d → dev_wf d' → dev_size d' = dev_size d → image d' = image d → bitmap_wf m' → bools m' = bools m →
  mountable F E e0 e1 m' d'.
Proof.
  intros [Hd Hm Hms Hs Hr Hsl He Hx] Hw Hsz Him Hw' Hb. assert (bit_cnt m' = bit_cnt m) as Hc by (apply bools_cnt; [apply Hd|done|by rewrite Hb]).
  split; try done.
  - apply (disk_inv_map _ _ m); [|done|done|unfold marked; by rewrite Hb]. apply (disk_inv_image _ d); [done..|]. by rewrite Him.
  - by rewrite Hc.
  - by apply (synced_bools _ d _ m).
  - unfold file_bytes. by rewrite Him.
Qed.

(** The state with only the free map open. *)
Lemma one_open_fsys F E e0 e1 m d p f stk l :
  mountable F E e0 e1 m d → p ≠ NULL → pointer f → Z.of_nat (length stk) = 20 → fsys F E e0 e1 [] (one_open d p f e0 m stk l).
Proof.
  intros [Hd Hm Hms Hs Hr Hsl He Hx] Hp Hf Hst. assert (∀ k, ¬ is_removed (one_open d p f e0 m stk l) k) as Hnr.
  { intros k (q & i & Ei & _ & Hri). cbn in Ei. apply lookup_singleton_Some in Ei as [_ <-]. done. }
  split; cbn [files dirs inodes free_map_file one_open]; try done.
  - by apply one_open_inv.
  - intros j nm k Ej. destruct (He j nm k Ej) as (? & ? & ?). split_and!; [done..|apply Hnr].
  - intros g gl i [-> _]%lookup_singleton_Some Hne. done.
  - by intros fl [_ <-]%lookup_singleton_Some.
Qed.

Lemma free_map_open_ok F E e0 e1 m s p f a l :
  mountable F E e0 e1 m (device s) → no_open s → ample s → answers s = p :: f :: a :: l → bitmap_wf (free_map s) → bit_cnt (free_map s) = bit_cnt m →
  Z.of_nat (length (stack s)) = 20 →
  ∃ s' d' m' l', free_map_open s = Ok (tt, s') ∧ s' = one_open d' p f e0 m' (stack s) l' ∧ (length l ≤ length l')%nat ∧
    fsys F E e0 e1 [] s' ∧ mountable F E e0 e1 m' d' ∧ image d' = image (device s) ∧ dev_size d' = dev_size (device s) ∧ bools m' = bools m ∧ ample s'.
Proof.
  intros Hmn Hid Ha El Hwm Hcm Hst. pose proof Hmn as [Hd Hm0 Hms (b & Hwb & Hcb & Hbb & Hsb) _ _ _ _].
  destruct (open_map_file F m s p f (a :: l) e0 Hd Hm0 Hid Ha El) as (d1 & Hw1 & Hsz1 & Him1 & Hpn & Hfn & Ha1 & Hrun). pose proof (pointer_nonnull f Hfn) as Hfnn. unfold free_map_open. rewrite Hrun.
  rewrite decide_False by done. set (s1 := one_open d1 p f e0 (free_map s) (stack s) (a :: l)) in *.
  rewrite (bind_ok _ _ _ (free_map s) s1) by done.
  pose proof (extent_data_ok _ _ _ _ _ Hd Hm0) as Hdok. rewrite <-Hsz1 in Hdok.
  destruct (inode_read_at_ok s1 p (Inode 0 1 false 0 (inode_of e0)) (byte_cnt (bit_cnt b)) 0 Hw1) as (n & s2 & E2 & Hu2 & Hn & Hx2); [apply lookup_singleton_eq|done|lia|].
  destruct (bitmap_bytes b Hwb) as (Hlen & _ & _). unfold available in Hn, Hx2. cbn [data inode_of disk_length start] in *.
  assert (n = byte_cnt (bit_cnt b)) as ->.
  { destruct Hx2 as [?|[Hst' _]]; [rewrite Hcb in *; lia|]. destruct (malloc_ample s1 a l Ha1 eq_refl) as (M & Hna%pointer_nonnull & _). unfold starved in Hst'. by rewrite M in Hst'. }
  change (device s1) with d1 in *. rewrite Him1, Z.add_0_r, Hcb, Hsb in E2.
  destruct (bitmap_read_ok (file_read_at f) b (free_map s) s1 s2 Hwb Hwm) as (b' & Er & Hwb' & Hbb'); [congruence|rewrite Hcb; unfold file_read_at|].
  { rewrite (bind_ok _ _ _ _ _ (rd_file_ok s1 f (File p 0 false) (lookup_singleton_eq _ _))). done. }
  assert (0 < bit_cnt b) as Hpos by (rewrite Hcb, (di_cnt _ _ _ Hd); pose proof (ext_inode _ _ _ (di_ext _ _ _ Hd _ _ Hm0)); lia).
  rewrite decide_True in Er by lia. rewrite (bind_ok _ _ _ _ _ Er). destruct Hu2 as (d2 & l2 & -> & Hl2 & Hw2 & Hsz2 & Him2). cbn in Hsz2, Him2.
  rewrite (bind_ok _ _ _ tt (one_open d2 p f e0 b' (stack s) l2)) by done.
  assert (mountable F E e0 e1 b' d2) as Hmn'. { apply (mountable_image _ _ _ _ m _ (device s)); [done|done|congruence|congruence|done|congruence]. }
  exists (one_open d2 p f e0 b' (stack s) l2), d2, b', l2. split_and!; try done; try congruence.
  - rewrite <-Hcb in E2. pose proof (spends_read_at _ _ _ _ _ _ E2) as Hsp. cbn [answers one_open set_device set_answers length s1] in Hsp. lia.
  - by apply one_open_fsys.
  - by apply (ample_suffix s1).
Qed.

(** ** Formatting *)

Lemma map_sectors (m : bitmap) :
  bitmap_wf m → 4 ≤ bit_cnt m → let c := nsec (byte_cnt (bit_cnt m)) in 1 ≤ c ∧ c + 3 ≤ bit_cnt m ∧ 0 ≤ byte_cnt (bit_cnt m) ≤ bit_cnt m / 8 + 4.
Proof.
  intros Hw Hn. pose proof (wf_cnt _ Hw) as Hwc. assert (byte_cnt (bit_cnt m) = 4 * ((bit_cnt m + 31) / 32)) as ->.
  { destruct (bitmap_bytes m Hw) as (Hl & _). rewrite elem_bytes_length in Hl. rewrite <-Hl, <-elem_cnt_eq by done.
    pose proof (wf_len _ Hw). lia. }
  unfold nsec. dlia.
Qed.

Lemma no_true_group (l : list bool) i n : (i + n ≤ length l)%nat → (∀ x, (i ≤ x < i + n)%nat → l !! x = Some false) → is_group n false l i.
Proof. intros Hl Hx. split; [done|]. intros (x & Hr & Ex)%elem_of_range. rewrite (Hx x Hr) in Ex. done. Qed.

Lemma fresh_lookup n x : (2 ≤ x < Z.to_nat n)%nat → fresh_bits n !! x = Some false.
Proof. intros Hx. unfold fresh_bits. rewrite !list_lookup_insert_ne by lia. apply lookup_replicate_2. lia. Qed.

Lemma fresh_length n : length (fresh_bits n) = Z.to_nat n.
Proof. unfold fresh_bits. by rewrite !length_insert, length_replicate. Qed.

(** Room for the free map, and then for the root directory. *)
Lemma fresh_room n c : 0 ≤ c → c + 2 ≤ n → first_group 0 (Z.to_nat c) false (fresh_bits n) ≠ None.
Proof.
  intros Hc Hn E. eapply (first_group_None _ _ _ _ 2 E); [lia|]. apply no_true_group; [rewrite fresh_length; lia|]. intros x Hx. apply fresh_lookup. lia.
Qed.

Lemma second_room n c j :
  1 ≤ c → c + 3 ≤ n → is_group (Z.to_nat c) false (fresh_bits n) j → first_group 0 1 false (set_range j (Z.to_nat c) true (fresh_bits n)) ≠ None.
Proof.
  intros Hc Hn Hg E. pose proof Hg as [Hjl _]. rewrite fresh_length in Hjl.
  assert (2 ≤ j)%nat as Hj2.
  { pose proof (group_free _ _ _ j Hg ltac:(lia)) as Hj. unfold fresh_bits in Hj. destruct j as [|[|j]]; [| |lia].
    - rewrite list_lookup_insert_ne, list_lookup_insert_eq in Hj by (rewrite ?length_replicate; lia). done.
    - rewrite list_lookup_insert_eq in Hj by (rewrite length_insert, length_replicate; lia). done. }
  set (x := if decide (j = 2%nat) then (2 + Z.to_nat c)%nat else 2%nat).
  assert ((2 ≤ x < Z.to_nat n)%nat ∧ ¬ (j ≤ x < j + Z.to_nat c)%nat) as [Hx Hout] by (unfold x; case_decide; lia).
  eapply (first_group_None _ _ _ _ x E); [lia|]. apply no_true_group; [rewrite set_range_length, fresh_length; lia|]. intros y Hy. assert (y = x) as -> by lia.
  rewrite set_range_lookup, decide_False by done. by rewrite fresh_lookup.
Qed.

Lemma disk_inv_empty (d : B) (m : bitmap) : dev_wf d → dev_size d < 2 ^ 31 → bitmap_wf m → bit_cnt m = dev_size d → disk_inv ∅ d m.
Proof. intros. by split; try done; intros *; rewrite ?lookup_empty. Qed.

(** The first part of formatting: the file of the free map. *)
Lemma free_map_create_ok s :
  no_open s → free_map_file s = NULL → dev_wf (device s) → 4 ≤ dev_size (device s) < 2 ^ 31 → bitmap_wf (free_map s) →
  bools (free_map s) = fresh_bits (dev_size (device s)) → ample s → (7 < length (answers s))%nat →
  ∃ s' d p f e0 m l img, free_map_create s = Ok (tt, s') ∧ let s0 := one_open d p f e0 m (stack s) l in
    touched s0 img m s' ∧ p ≠ NULL ∧ pointer f ∧ dev_size d = dev_size (device s) ∧ disk_inv {[0 := e0]} d m ∧
    disk_inv {[0 := e0]} (device s') m ∧ byte_cnt (bit_cnt m) ≤ e0.2 ∧ synced e0 (device s') m ∧ ample s' ∧
    (length (answers s) ≤ length (answers s') + 5)%nat ∧ (∀ x, marked (free_map s) x → marked m x ∧ ¬ owns 0 e0 x ∨ x = 0) ∧
    first_group 0 1 false (bools m) ≠ None.
Proof.
  intros Hid Hmf Hdw Hn Hmw Hb Ha Hans. assert (bit_cnt (free_map s) = dev_size (device s)) as Hcnt.
  { pose proof (bools_length (free_map s)) as Hl. rewrite Hb, fresh_length in Hl. pose proof (wf_cnt _ Hmw). lia. }
  destruct (map_sectors _ Hmw ltac:(lia)) as (Hc1 & Hc2 & Hc3). destruct (bitmap_bytes _ Hmw) as (_ & Hb31 & Hi32). set (len := byte_cnt (bit_cnt (free_map s))) in *.
  unfold free_map_create. rewrite (bind_ok _ _ _ len s) by (by destruct s). rewrite Hi32.
  destruct (inode_create_ok ∅ (0, len) s FREE_MAP_SECTOR len) as (r & s1 & img1 & m1 & E1 & Ht1 & Hcr & _ & Hmk1 & Hf1).
  { apply disk_inv_empty; done || lia. } { by left. }
  { unfold FREE_MAP_SECTOR. split; [lia|]. split; [|intros k e; by rewrite lookup_empty]. apply (fresh_marked _ _ _ Hb); lia. } { lia. }
  pose proof (spends_create _ _ _ _ _ E1) as Hsp1. rewrite (bind_ok _ _ _ _ _ E1).
  assert (fine s s1) as Hfine1 by (split; [done|]; intros E; rewrite E in Hsp1; cbn in Hsp1; lia).
  destruct (Hf1 Hfine1) as [Hr1 _]. { split; [done|]. intros fl i Ef. destruct Hid. by rewrite id_files0, lookup_empty in Ef. }
  assert (bytes_to_sectors len = nsec len) as Hbs by (apply bytes_to_sectors_small; dlia).
  destruct r as [e0|]; [|rewrite Hbs, Hb in Hr1; by destruct (fresh_room (dev_size (device s)) (nsec len)); [lia..|apply Hr1]].
  rewrite bool_decide_eq_true_2 by by eexists. cbn [negb]. destruct Hcr as (El & _ & Hd1 & _ & Hal). rewrite insert_empty in Hd1.
  destruct (touched_wf _ _ _ _ Ht1) as (_ & Hsz1 & _ & Em1). destruct (touched_same _ _ _ _ Ht1) as (_ & _ & _ & _ & _ & _ & Est1).
  destruct (answers s1) as [|p [|f [|a l]]] eqn:Ean1; cbn [length] in Hsp1; [lia..|].
  pose proof (ample_touched _ _ _ _ Ht1 Ha) as Ha1. assert (({[0 := e0]} : gmap Z extent) !! 0 = Some e0) as E0 by apply lookup_singleton_eq.
  destruct (open_map_file _ _ s1 p f (a :: l) e0 Hd1 E0 (no_open_touched _ _ _ _ Ht1 Hid) Ha1 Ean1) as (d2 & Hw2 & Hsz2 & Him2 & Hpn & Hfn & Ha2 & Hrun).
  pose proof (pointer_nonnull f Hfn). rewrite Hrun, decide_False by done. set (s2 := one_open d2 p f e0 (free_map s1) (stack s1) (a :: l)) in *.
  assert (disk_inv {[0 := e0]} d2 (free_map s1)) as Hd2 by (apply (disk_inv_image _ (device s1)); [done..|by rewrite Him2]).
  assert (bit_cnt (free_map s1) = bit_cnt (free_map s)) as Hcnt1 by (rewrite (di_cnt _ _ _ Hd1); congruence).
  destruct (one_open_inv _ d2 p f e0 _ (stack s1) (a :: l) Hd2 E0 Hpn Hfn) as [[_ Htab] Hmo]. fold s2 in Htab, Hmo.
  destruct (write_free_map_ok _ s2 e0 Hd2 E0 (map_open_file _ _ _ _ _ _ Htab Hmo)) as (ok & s3 & bs & E3 & Ht3 & Hbs3 & Hok). rewrite (bind_ok _ _ _ _ _ E3).
  pose proof (spends_write_free_map _ _ _ E3) as Hsp3. cbn [answers s2 one_open length] in Hsp3.
  destruct Hok as [[-> ->]|[Hbad|Hbad]].
  2: { exfalso. apply Hbad. split; [cbn; rewrite Hcnt1; fold len; lia|]. cbn. by intros fl i [_ <-]%lookup_singleton_Some [_ <-]%lookup_singleton_Some. }
  2: { exfalso. by apply (ample_not_starved s2). }
  exists s3, d2, p, f, e0, (free_map s1), (a :: l), (splice (image (device s2)) (512 * e0.1) (elem_bytes (bits (free_map s2)))). split; [done|].
  rewrite <-Est1. fold s2. destruct (disk_inv_write _ s2 0 e0 0 (elem_bytes (bits (free_map s2))) s3 (free_map s2) Hd2 E0 ltac:(lia) ltac:(lia)) as (Hd3 & _); [by rewrite Z.add_0_r|done|].
  destruct (touched_wf _ _ _ _ Ht3) as (_ & _ & _ & Em3). rewrite Em3 in Hd3.
  split_and!; try done; try congruence; try lia.
  - rewrite Hcnt1. fold len. lia.
  - eapply (synced_written _ s2 (free_map s1)); [done|done|rewrite Hcnt1; fold len; lia|done].
  - by eapply ample_touched.
  - intros x Hx. destruct (decide (x = 0)) as [|Hx0]; [by right|left]. destruct (allocated_fresh ∅ (device s) _ _ (nsec len) _ ltac:(apply disk_inv_empty; done || lia) ltac:(lia) Hal) as (_ & _ & Hnew & Hold & _).
    split; [by apply Hold|]. intros [?|Hin]; [done|]. rewrite El in Hin. by destruct (Hnew x Hin) as [_ []].
  - destruct Hal as (j & _ & Hg & ->). rewrite Hb in *. apply second_room; [lia..|done].
Qed.

Lemma empty_root : root_is (replicate 16 None) (replicate (Z.to_nat 320) 0).
Proof.
  split; [done|]. intros j o Ej. apply lookup_replicate in Ej as [-> Hj]. cbn. unfold entry_in_use. apply bool_decide_eq_false_2.
  intros Hne. apply Hne. rewrite nth_lookup, slice_lookup by lia. case_decide; [|done]. rewrite lookup_replicate_2 by lia. done.
Qed.

Lemma do_format_ok s :
  no_open s → free_map_file s = NULL → dev_wf (device s) → 4 ≤ dev_size (device s) < 2 ^ 31 → bitmap_wf (free_map s) →
  bools (free_map s) = fresh_bits (dev_size (device s)) → ample s → (8 < length (answers s))%nat →
  ∃ s' F e0 e1, do_format s = Ok (tt, s') ∧ no_open s' ∧ ample s' ∧ stack s' = stack s ∧ (length (answers s) ≤ length (answers s') + 7)%nat ∧
    mountable F (replicate 16 None) e0 e1 (free_map s') (device s').
Proof.
  intros Hid Hmf Hdw Hn Hmw Hb Ha Hans.
  destruct (free_map_create_ok s Hid Hmf Hdw Hn Hmw Hb Ha ltac:(lia)) as (s1 & d & p & f & e0 & m & l & img1 & E1 & Ht1 & Hpn & Hfn & Hsz & Hdi & Hd1 & Hms & Hsy & Ha1 & Hsp1 & Hmk & Hroom).
  set (s0 := one_open d p f e0 m (stack s) l) in *. unfold do_format. rewrite (bind_ok _ _ _ _ _ E1). unfold dir_create. change (i32 (u32 (16 * ENTRY_SIZE))) with 320.
  destruct (touched_wf _ _ _ _ Ht1) as (_ & Hsz1 & _ & Em1). cbn [device one_open s0] in Hsz1.
  assert (({[0 := e0]} : gmap Z extent) !! 0 = Some e0) as E0 by apply lookup_singleton_eq.
  destruct (one_open_inv _ d p f e0 _ (stack s) l Hdi E0 Hpn Hfn) as [[_ Htab] Hmo]. fold s0 in Htab, Hmo.
  assert (map_file e0 s1) as Hmfile by (eapply map_file_touched; [done|by eapply map_open_file]).
  destruct (inode_create_ok {[0 := e0]} e0 s1 ROOT_DIR_SECTOR 320) as (r & s2 & img2 & m2 & E2 & Ht2 & Hcr & Hk2 & Hmk2 & Hf2).
  { by rewrite Em1. } { by right. } 2: { lia. }
  { unfold ROOT_DIR_SECTOR. split; [lia|]. rewrite Em1. destruct (Hmk 1) as [[Hm1 Hno]|?]; [apply (fresh_marked _ _ _ Hb); lia| |done].
    split; [done|]. by intros k e [<- <-]%lookup_singleton_Some. }
  pose proof (spends_create _ _ _ _ _ E2) as Hsp2. rewrite (bind_ok _ _ _ _ _ E2).
  assert (fine s1 s2) as Hfine by (split; [done|]; intros E; rewrite E in Hsp2; cbn in Hsp2; lia).
  destruct (Hf2 Hfine) as [Hr2 Hsy2].
  { split; [by rewrite Em1|]. destruct (touched_same _ _ _ _ Ht1) as (_ & -> & -> & _ & _ & -> & _). cbn. by intros fl i [_ <-]%lookup_singleton_Some [_ <-]%lookup_singleton_Some. }
  destruct r as [e1|]; [|rewrite Em1 in Hr2; change (Z.to_nat (bytes_to_sectors 320)) with 1%nat in Hr2; by destruct Hroom; apply Hr2].
  rewrite bool_decide_eq_true_2 by by eexists. cbn [negb]. destruct Hcr as (El & _ & Hd2 & Hz2 & _).
  pose proof (touched_trans _ _ _ _ _ _ _ Ht1 Ht2) as Ht12. destruct (touched_wf _ _ _ _ Ht2) as (_ & Hsz2 & _ & Em2).
  destruct (one_open_close _ s2 p f e0 d m (stack s) l img2 m2 Hdi E0 Hpn Hfn Ht12) as (s3 & E3 & Hid3 & Edev3 & Emap3 & Ean3 & Est3).
  assert (bit_cnt (free_map s2) = bit_cnt m) as Hcnt2 by (rewrite (di_cnt _ _ _ Hd2), (di_cnt _ _ _ Hdi); congruence).
  exists s3, (<[1 := e1]> {[0 := e0]}), e0, e1. split; [done|]. split; [done|]. split.
  { destruct (ample_touched _ _ _ _ Ht2 Ha1) as (Hnd & Hall & Hob). destruct Hid3. split; rewrite Ean3; [done|]. split.
    - intros a Hin. split; [by apply Hall|]. unfold in_use. rewrite id_inodes0, id_files0, id_dirs0. intros [[? ?]|[[? ?]|[? ?]]]; done.
    - unfold objects in *. rewrite id_inodes0, id_files0, id_dirs0, !map_size_empty. lia. }
  split. { rewrite Est3. by destruct (touched_same _ _ _ _ Ht12) as (_ & _ & _ & _ & _ & _ & ->). }
  split; [rewrite Ean3; lia|]. rewrite Edev3, Emap3. split.
  - done.
  - by rewrite lookup_insert_ne by done.
  - by rewrite Hcnt2.
  - apply Hsy2; [done|apply Hmfile|by rewrite Em1].
  - apply lookup_insert_eq.
  - rewrite Hz2. apply empty_root.
  - by intros j nm k [? _]%lookup_replicate.
  - by intros j1 j2 nm1 nm2 k [? _]%lookup_replicate.
Qed.

(** ** Initialisation *)

(** The state in which a kernel starts. *)
Record booted s : Prop := {
  bt_inodes : inodes s = ∅;
  bt_files : files s = ∅;
  bt_dirs : dirs s = ∅;
  bt_map_file : free_map_file s = NULL;
  bt_stack : Z.of_nat (length (stack s)) = 20;
  bt_memory : ample s ∧ (20 < length (answers s))%nat
}.

(** What [filesys_init] leaves: only the file of the free map is open. *)
Definition mounts F E e0 e1 s' : Prop :=
  fsys F E e0 e1 [] s' ∧ synced e0 (device s') (free_map s') ∧ ample s' ∧ answers s' ≠ [] ∧
  (∀ f, f ≠ free_map_file s' → view s' f = None) ∧ (∀ k, ¬ is_removed s' k).

Lemma one_open_mounts F E e0 e1 m d p f stk l :
  mountable F E e0 e1 m d → fsys F E e0 e1 [] (one_open d p f e0 m stk l) → ample (one_open d p f e0 m stk l) → l ≠ [] →
  mounts F E e0 e1 (one_open d p f e0 m stk l).
Proof.
  intros Hmn Hy Ha Hl. split_and!; [done|apply Hmn|done|done| |].
  - intros g Hne. unfold view. cbn in *. by rewrite lookup_singleton_ne.
  - intros k (q & i & Ei & _ & Hr). cbn in Ei. apply lookup_singleton_Some in Ei as [_ <-]. done.
Qed.

(** The steps before the free map is opened. *)
Lemma init_prefix d junk s :
  booted s → dev_wf d → 2 ≤ dev_size d → bitmap_wf (Bitmap (dev_size d) junk) →
  ∃ s1, (modify (set_device d);; inode_init;; free_map_init junk) s = Ok (tt, s1) ∧ no_open s1 ∧ free_map_file s1 = NULL ∧ device s1 = d ∧
    stack s1 = stack s ∧ bitmap_wf (free_map s1) ∧ bools (free_map s1) = fresh_bits (dev_size d) ∧ ample s1 ∧ (18 < length (answers s1))%nat.
Proof.
  intros [Hin Hfl Hdr Hmf Hst [Ha Hlen]] Hd Hn Hw. destruct (answers s) as [|a1 [|a2 l]] eqn:Ean; cbn [length] in Hlen; [lia..|].
  set (s0 := set_open_inodes (λ _, []) (set_device d s)). assert (ample s0) as Ha0 by by apply (ample_suffix s).
  destruct (free_map_init_ok s0 junk a1 a2 l Hd Hn Hw Ha0 Ean) as (m & E & Hwm & Hbm).
  exists (set_free_map m (set_answers l s0)). rewrite (bind_ok _ _ _ tt (set_device d s)) by done. rewrite (bind_ok _ _ _ tt s0) by done.
  split_and!; try done; [|cbn; lia]. apply (ample_suffix s0); [done| |done..]. unfold s0. cbn. rewrite Ean. by exists [a1; a2].
Qed.

Lemma filesys_init_eq (d : B) junk format s :
  filesys_init (Some d) junk format s =
  ((modify (set_device d);; inode_init;; free_map_init junk);; (if format then do_format else mret tt);; free_map_open) s.
Proof. unfold filesys_init. by rewrite !bind_assoc. Qed.

Lemma open_mounts F E e0 e1 m s :
  mountable F E e0 e1 m (device s) → no_open s → ample s → (4 < length (answers s))%nat → bitmap_wf (free_map s) → bit_cnt (free_map s) = bit_cnt m →
  Z.of_nat (length (stack s)) = 20 →
  ∃ s', free_map_open s = Ok (tt, s') ∧ mounts F E e0 e1 s' ∧ image (device s') = image (device s) ∧ bools (free_map s') = bools m.
Proof.
  intros Hmn Hid Ha Hlen Hw Hc Hst. destruct (answers s) as [|p [|f [|a l]]] eqn:Ean; cbn [length] in Hlen; [lia..|].
  destruct (free_map_open_ok F E e0 e1 m s p f a l Hmn Hid Ha Ean Hw Hc Hst) as (s' & d' & m' & l' & E1 & -> & Hl & Hy & Hmn' & Him & _ & Hb & Ha').
  eexists. split; [done|]. split; [|done]. apply (one_open_mounts _ _ _ _ m'); [done..|]. intros ->. cbn in Hl. lia.
Qed.

Lemma filesys_format_ok d junk s :
  booted s → dev_wf d → 4 ≤ dev_size d < 2 ^ 31 → bitmap_wf (Bitmap (dev_size d) junk) →
  ∃ s' F e0 e1, filesys_init (Some d) junk true s = Ok (tt, s') ∧ mounts F (replicate 16 None) e0 e1 s'.
Proof.
  intros Hbt Hd Hn Hw. destruct (init_prefix d junk s Hbt Hd ltac:(lia) Hw) as (s1 & E1 & Hid1 & Hmf1 & <- & Est1 & Hwm1 & Hb1 & Ha1 & Hl1).
  destruct (do_format_ok s1 Hid1 Hmf1 Hd Hn Hwm1 Hb1 Ha1 ltac:(lia)) as (s2 & F & e0 & e1 & E2 & Hid2 & Ha2 & Est2 & Hl2 & Hmn).
  destruct (open_mounts F (replicate 16 None) e0 e1 (free_map s2) s2 Hmn Hid2 Ha2) as (s3 & E3 & Hm3 & _); [lia|apply Hmn|done|rewrite Est2, Est1; apply Hbt|].
  exists s3, F, e0, e1. split; [|done]. rewrite filesys_init_eq, (bind_ok _ _ _ _ _ E1), (bind_ok _ _ _ _ _ E2). done.
Qed.

Lemma filesys_mount_ok F E e0 e1 m d junk s :
  booted s → mountable F E e0 e1 m d → bitmap_wf (Bitmap (dev_size d) junk) →
  ∃ s', filesys_init (Some d) junk false s = Ok (tt, s') ∧ mounts F E e0 e1 s' ∧ image (device s') = image d ∧ bools (free_map s') = bools m.
Proof.
  intros Hbt Hmn Hw. pose proof (mn_disk _ _ _ _ _ _ Hmn) as Hd. pose proof (ext_inode _ _ _ (di_ext _ _ _ Hd _ _ (mn_root _ _ _ _ _ _ Hmn))) as Hn.
  destruct (init_prefix d junk s Hbt (di_dev _ _ _ Hd) ltac:(lia) Hw) as (s1 & E1 & Hid1 & Hmf1 & <- & Est1 & Hwm1 & Hb1 & Ha1 & Hl1).
  destruct (open_mounts F E e0 e1 m s1 Hmn Hid1 Ha1) as (s2 & E2 & Hm2 & Him & Hb); [lia|done| |rewrite Est1; apply Hbt|].
  { rewrite (di_cnt _ _ _ Hd). pose proof (bools_length (free_map s1)) as Hl. rewrite Hb1, fresh_length in Hl. pose proof (wf_cnt _ Hwm1). lia. }
  exists s2. split; [|done]. rewrite filesys_init_eq, (bind_ok _ _ _ _ _ E1), ret_bind. done.
Qed.

Lemma filesys_done_ok F E e0 e1 s : fsys F E e0 e1 [] s → ∃ s', filesys_done s = Ok (tt, s') ∧ device s' = device s.
Proof.
  intros Hy. pose proof (fy_mounted _ _ _ _ _ _ Hy) as [[_ Ht] (Hn & _ & fl & i & Ef & Ei & Es)].
  pose proof (fy_mapfile _ _ _ _ _ _ Hy _ Ef) as Hdw. assert (removed i = false) as Hnr by (eapply not_removed; [done..|rewrite Es; apply Hy]).
  unfold filesys_done, free_map_close. rewrite (bind_ok _ _ _ (free_map_file s) s) by done. unfold file_close. rewrite decide_True by done.
  rewrite (bind_ok _ _ _ tt s).
  2: { unfold file_allow_write. rewrite bool_decide_eq_true_2 by done. rewrite (bind_ok _ _ _ tt s) by done. by rewrite (bind_ok _ _ _ _ _ (rd_file_ok _ _ _ Ef)), Hdw. }
  rewrite (bind_ok _ _ _ _ _ (rd_file_ok _ _ _ Ef)).
  assert (∃ s1, inode_close (file_inode fl) s = Ok (tt, s1) ∧ device s1 = device s) as (s1 & E1 & Ed1).
  { unfold inode_close. rewrite decide_False by by eapply (ti_nonnull _ _ _ _ _ Ht). rewrite (bind_ok _ _ _ _ _ (rd_inode_ok _ _ _ Ei)), Hnr.
    case_decide; eexists; split; reflexivity. }
  rewrite (bind_ok _ _ _ _ _ E1). eexists. split; [done|]. done.
Qed.

End mount.
