(* ===== verification/FsTheorems.v ===== *)
(** * Theorems about the file system

    The calls of the file system never fail, whatever [malloc] answers; as long
    as memory does not run out they are the steps of the abstract file system
    of FsSpec; a formatted disk is an empty file system; a file system that is
    closed and mounted again is the same; and two ways in which files or space
    are lost. *)

From S2P Require Import Prelude Bitmap BlockDevice Inode FreeMap Directory Filesys FsInv FsTable FsFile FsDir FsSys FsCalls FsSpec FsMount.

Section theorems.
  Context {B : Type} {BD : BlockDevice B} {BL : BlockDeviceLaws B}.
  Implicit Types (s : fs B) (a : afs).

(** ** Sequences of calls *)

(** The state between calls. *)
Definition healthy s : Prop := ∃ F E e0 e1, fsys F E e0 e1 [] s.

(** The program represents an abstract file system with room for [n] names, and
    the free map on the disk is up to date. *)
Definition represents (n : nat) a s : Prop :=
  ∃ F E e0 e1, fsys F E e0 e1 [] s ∧ rel F E a s ∧ synced e0 (device s) (free_map s) ∧ length E = n.

(** Calls that clients make, each with its answer. *)
Inductive runs s : list (call * answer) → fs B → Prop :=
  | runs_nil : runs s [] s
  | runs_snoc t s' c r s'' : runs s t s' → allowed s' c → exec c s' = Ok (r, s'') → runs s (t ++ [(c, r)]) s''.

Inductive spec_runs (n : nat) a : list (call * answer) → afs → Prop :=
  | spec_nil : spec_runs n a [] a
  | spec_snoc t a' c r a'' : spec_runs n a t a' → spec n a' c r a'' → spec_runs n a (t ++ [(c, r)]) a''.

Lemma call_healthy s c : healthy s → allowed s c → ∃ r s', exec c s = Ok (r, s') ∧ healthy s' ∧ frame s s'.
Proof.
  intros (F & E & e0 & e1 & Hy) Hal. destruct (sim_call F E e0 e1 s c Hy Hal) as (r & s' & F' & E' & E1 & Hf & _ & Hy' & _).
  exists r, s'. split; [done|]. split; [by exists F', E', e0, e1|done].
Qed.

Lemma runs_healthy s t s' : runs s t s' → healthy s → healthy s' ∧ frame s s'.
Proof.
  intros Hr Hh. induction Hr as [|t s' c r s'' Hr IH Hal E]; [split; [done|apply fr_refl]|]. destruct IH as [Hh' Hf].
  destruct (call_healthy s' c Hh' Hal) as (r' & s2 & E' & Hh2 & Hf2). rewrite E in E'. injection E' as <- <-. split; [done|by eapply fr_trans].
Qed.

Lemma represents_healthy n a s : represents n a s → healthy s.
Proof. intros (F & E & e0 & e1 & Hy & _). by exists F, E, e0, e1. Qed.

Lemma call_refines n a s c r s' : represents n a s → allowed s c → exec c s = Ok (r, s') → fine s s' → ∃ a', spec n a c r a' ∧ represents n a' s'.
Proof.
  intros (F & E & e0 & e1 & Hy & Hr & Hs & <-) Hal E1 Hf. destruct (sim_call F E e0 e1 s c Hy Hal) as (r' & s2 & F' & E' & E2 & Hfr & Hst & Hy' & Hl & Hsim).
  rewrite E1 in E2. injection E2 as <- <-. destruct (Hsim a Hr Hf) as (a' & Hsp & Hr'). exists a'. split; [done|]. exists F', E', e0, e1.
  split_and!; [done..|by apply Hst|done].
Qed.

(** C4. Safety of the file system: in every state that clients reach from a
    mounted file system by calls with arguments in range and with handles that
    they have open, and whatever [malloc] answers (also when it fails), the next
    such call returns: no assertion fails and no memory out of bounds is
    accessed.  The invariant of the file system holds again: files do not
    share sectors, all their sectors are marked in the free map, and the
    reference counts of the open inodes are exact. *)
Theorem filesys_safe s t s' c : healthy s → runs s t s' → allowed s' c → ∃ r s'', exec c s' = Ok (r, s'') ∧ healthy s''.
Proof.
  intros Hh Hr Hal. destruct (runs_healthy s t s' Hr Hh) as [Hh' _]. destruct (call_healthy s' c Hh' Hal) as (r & s'' & E & Hh'' & _). eauto.
Qed.

(** C3. Refinement: as long as memory does not run out, every sequence of calls
    with its answers is one of the abstract file system, in which files are
    sequences of bytes under names and open files are positions in them, and
    the program represents the state in which it ends.  In particular data
    written is read back, files do not affect each other, a removed file stays
    usable until it is closed, and writes are denied exactly while some open
    file denies them. *)
Theorem filesys_refines n a s t s' : represents n a s → runs s t s' → fine s s' → ∃ a', spec_runs n a t a' ∧ represents n a' s'.
Proof.
  intros Hrep Hr. induction Hr as [|t s' c r s'' Hr IH Hal E]; intros Hf; [exists a; split; [constructor|done]|].
  destruct (runs_healthy s t s' Hr (represents_healthy _ _ _ Hrep)) as [Hh' Hfr].
  destruct (call_healthy s' c Hh' Hal) as (r' & s2 & E' & _ & Hf2). rewrite E in E'. injection E' as <- <-.
  destruct (fine_split s s' s'' Hf Hfr Hf2) as [Hf1 Hf3]. destruct (IH Hf1) as (a1 & Hsp & Hrep1).
  destruct (call_refines n a1 s' c r s'' Hrep1 Hal E Hf3) as (a' & Hsp' & Hrep'). exists a'. split; [by econstructor|done].
Qed.

(** ** Formatting and mounting *)

Lemma mounts_empty F e0 e1 n s : mounts F (replicate n None) e0 e1 s → represents n (Afs ∅ ∅ ∅) s.
Proof.
  intros (Hy & Hs & _ & _ & Hv & Hr). exists F, (replicate n None), e0, e1. split_and!; [done| |done|apply length_replicate].
  assert (∀ k, ¬ linked k ∅) as Hl by (intros k (nm & k' & E & _); by rewrite lookup_empty in E).
  assert (∀ k, ¬ held k ∅) as Hh by (intros k (f & h & E & _); by rewrite lookup_empty in E).
  split; cbn.
  - intros nm k. rewrite lookup_empty. split; [done|]. by intros (j & [? _]%lookup_replicate).
  - by intros j1 j2 nm k1 k2 [? _]%lookup_replicate.
  - intros f. rewrite lookup_empty. case_decide; [done|]. by rewrite Hv.
  - intros k bs. rewrite lookup_empty. split; [done|]. intros ([?|?] & _); [by destruct (Hl k)|by destruct (Hh k)].
  - intros k Hk. by destruct (Hh k).
Qed.

(** C21. Formatting: with a device of at least 4 sectors and memory for 21
    allocations, [filesys_init] with formatting succeeds, and leaves an empty file
    system with room for 16 names. *)
Theorem filesys_format_empty d junk s :
  booted s → dev_wf d → 4 ≤ dev_size d < 2 ^ 31 → bitmap_wf (Bitmap (dev_size d) junk) →
  ∃ s', filesys_init (Some d) junk true s = Ok (tt, s') ∧ represents 16 (Afs ∅ ∅ ∅) s' ∧ ample s' ∧ answers s' ≠ [].
Proof.
  intros Hb Hd Hn Hw. destruct (filesys_format_ok d junk s Hb Hd Hn Hw) as (s' & F & e0 & e1 & E & Hm). exists s'. split; [done|].
  split; [by eapply mounts_empty|]. by destruct Hm as (_ & _ & ? & ? & _).
Qed.

Lemma remount_rel F E e0 e1 a s s' :
  fsys F E e0 e1 [] s → rel F E a s → handles a = ∅ → mounts F E e0 e1 s' → image (device s') = image (device s) → rel F E a s'.
Proof.
  intros Hy Hr Hh (Hy' & _ & _ & _ & Hv & Hrm) Him. destruct Hr as [Hrn Hru Hrh Hrc Hrr]. split; try done.
  - intros f. rewrite Hh, lookup_empty. case_decide; [done|]. by rewrite Hv.
  - intros k bs. rewrite Hrc. unfold file_bytes. by rewrite Him.
  - rewrite Hh. intros k (f & h & Ef & _). by rewrite lookup_empty in Ef.
Qed.

(** C20. Round trip over a restart: when no file is open, closing the file system
    and mounting the device in a freshly booted kernel gives a file system with
    the same names and contents. *)
Theorem filesys_remount n a s :
  represents n a s → handles a = ∅ →
  ∃ s1, filesys_done s = Ok (tt, s1) ∧
    ∀ s2 junk, booted s2 → bitmap_wf (Bitmap (dev_size (device s1)) junk) →
      ∃ s3, filesys_init (Some (device s1)) junk false s2 = Ok (tt, s3) ∧ represents n a s3.
Proof.
  intros (F & E & e0 & e1 & Hy & Hr & Hs & Hl) Hh. destruct (filesys_done_ok F E e0 e1 s Hy) as (s1 & E1 & Ed). exists s1. split; [done|]. rewrite Ed.
  intros s2 junk Hb Hw. pose proof (mountable_fsys _ _ _ _ _ Hy Hs) as Hmn.
  destruct (filesys_mount_ok F E e0 e1 _ _ junk s2 Hb Hmn Hw) as (s3 & E3 & Hm3 & Him3 & _). exists s3. split; [done|].
  exists F, E, e0, e1. pose proof Hm3 as (Hy3 & Hs3 & _). split_and!; [done|exact (remount_rel F E e0 e1 a s s3 Hy Hr Hh Hm3 Him3)|done..].
Qed.

(** ** Creating files *)

(** Names fill the slots of a directory in which no slot is free. *)
Lemma names_full F E a s : rel F E a s → (∀ j, E !! j ≠ Some None) → (length E ≤ size (names a))%nat.
Proof.
  intros Hr Hfull. set (g := λ o : option (list Z * Z), default [] (fst <$> o)). rewrite <-size_dom.
  assert (NoDup (g <$> E)) as Hnd.
  { apply NoDup_alt. intros i j nm Ei Ej. rewrite list_lookup_fmap in Ei, Ej. destruct (E !! i) as [[[n1 k1]|]|] eqn:E1; [|by destruct (Hfull i)|done].
    destruct (E !! j) as [[[n2 k2]|]|] eqn:E2; [|by destruct (Hfull j)|done]. cbn in Ei, Ej. simplify_eq. by eapply (rl_unique _ _ _ _ Hr). }
  assert ((list_to_set (g <$> E) : gset (list Z)) ⊆ dom (names a)) as Hsub%subseteq_size.
  { intros nm Hin. apply elem_of_list_to_set, list_elem_of_lookup in Hin as [j Ej]. rewrite list_lookup_fmap in Ej.
    destruct (E !! j) as [[[n1 k1]|]|] eqn:E1; [|by destruct (Hfull j)|done]. cbn in Ej. simplify_eq. apply elem_of_dom. exists k1. apply (rl_names _ _ _ _ Hr). eauto. }
  rewrite size_list_to_set in Hsub by done. by rewrite length_fmap in Hsub.
Qed.

Lemma create_call n a s name len :
  represents n a s → 0 ∉ name → 0 ≤ len < 2 ^ 31 →
  ∃ (ok : bool) s', filesys_create name len s = Ok (ok, s') ∧
    (fine s s' → (∃ a', spec n a (Create name len) (Flag ok) a' ∧ represents n a' s') ∧
      (ok = false → ¬ valid_name name ∨ is_Some (names a !! name) ∨ (n ≤ size (names a))%nat ∨ no_room (free_map s) len) ∧
      (ok = false → ¬ no_room (free_map s) len → leak len s s' ∧ represents n a s')).
Proof.
  intros Hrep Hz Hlen. pose proof Hrep as (F & E & e0 & e1 & Hy & Hr & Hs & Hl). destruct (filesys_create_ok F E e0 e1 s name len Hy Hz Hlen) as (ok & s' & E1 & [Hm Hv] & Hx).
  exists ok, s'. split; [done|]. intros Hf. split.
  { apply (call_refines n a s); [done|done| |done]. cbn. by rewrite (bind_ok _ _ _ _ _ E1). }
  split; intros ->; destruct Hx as (Hy' & Hcf & Hlk).
  - destruct (Hcf Hf) as [?|[(j & k & Ej)|[Hfull|?]]]; [by left| | |by do 3 right].
    + right; left. exists k. apply (rl_names _ _ _ _ Hr). eauto.
    + right; right; left. rewrite <-Hl. by eapply names_full.
  - intros Hnr. split; [by apply Hlk|]. exists F, E, e0, e1. split_and!; [done|by apply (rel_effect F E e0 e1 a s)|by apply (md_stores _ _ _ _ Hm)|done].
Qed.

(** C22. [filesys_create] succeeds when the name is valid and new, the directory
    has a free slot, there are free sectors for the inode and for the data, and
    memory does not run out; the new file is full of zeros. *)
Theorem filesys_create_succeeds n a s name len :
  represents n a s → valid_name name → names a !! name = None → (size (names a) < n)%nat → 0 ≤ len < 2 ^ 31 → ¬ no_room (free_map s) len →
  ∃ ok s', filesys_create name len s = Ok (ok, s') ∧
    (fine s s' → ok = true ∧ ∃ k, contents a !! k = None ∧
      represents n (Afs (<[name := k]> (names a)) (<[k := replicate (Z.to_nat len) 0]> (contents a)) (handles a)) s').
Proof.
  intros Hrep Hv Hn Hsz Hlen Hroom. destruct (create_call n a s name len Hrep (proj2 (proj2 Hv)) Hlen) as (ok & s' & E1 & Hx). exists ok, s'. split; [done|].
  intros Hf. destruct (Hx Hf) as ((a' & Hsp & Hrep') & Hfail & _). destruct ok; [|destruct (Hfail eq_refl) as [?|[[? ?]|[?|?]]]; done || (exfalso; congruence || lia)].
  split; [done|]. inversion Hsp; subst. eauto.
Qed.

(** C36. A failed [filesys_create] loses space: when a file of the name exists and
    there is room for another one, the call returns false and leaves names and
    contents as they were, but the sectors it had allocated for the data stay
    marked in the free map, and belong to no file. *)
Theorem filesys_create_leaks n a s name len :
  represents n a s → 0 ∉ name → is_Some (names a !! name) → 0 ≤ len < 2 ^ 31 → ¬ no_room (free_map s) len →
  ∃ ok s', filesys_create name len s = Ok (ok, s') ∧
    (fine s s' → ok = false ∧ represents n a s' ∧
      ∃ j, is_group (Z.to_nat (nsec len)) false (bools (free_map s)) j ∧
        bools (free_map s') = set_range j (Z.to_nat (nsec len)) true (bools (free_map s))).
Proof.
  intros Hrep Hz [k Hk] Hlen Hroom. destruct (create_call n a s name len Hrep Hz Hlen) as (ok & s' & E1 & Hx). exists ok, s'. split; [done|].
  intros Hf. destruct (Hx Hf) as ((a' & Hsp & _) & _ & Hlk). destruct ok; [inversion Hsp; congruence|]. destruct (Hlk eq_refl Hroom) as [Hl Hrep']. done.
Qed.

(** [malloc] answers are no part of the invariants. *)
Lemma fsys_answers F E e0 e1 H s l : fsys F E e0 e1 H s → fsys F E e0 e1 H (set_answers l s).
Proof. intros [[[Hd Ht] Hm]]. split; try done. split; [|done]. split; [done|]. destruct Ht. by split. Qed.

Lemma answers_dirs s l : dirs (set_answers l s) = dirs s.
Proof. done. Qed.

(** C39. Low memory makes [dir_add] lose a file.  In any mounted file system
    with a handle of the root directory, when the next two calls of [malloc] fail and
    the third succeeds, [dir_add] with a valid name stores its entry in the first
    slot of the directory, whatever is in the slot, and returns true: the failed
    calls are those for the bounce buffers of the first reads of the two searches,
    and the short reads are taken for the end of the directory.  A name that was in
    the first slot only is not found afterwards, whatever memory there is then. *)
Theorem low_memory_overwrites_entry F E e0 e1 H s d dr name k l :
  fsys F E e0 e1 H s → dirs s !! d = Some dr → E ≠ [] → valid_name name → in_u 32 k →
  answers s = NULL :: NULL :: l → ¬ starved (set_answers l s) →
  ∃ s', dir_add d name k s = Ok (true, s') ∧ root_is (<[0%nat := Some (name, k)]> E) (file_bytes (device s') e1) ∧
    ∀ nm l', 0 ∉ nm → nm ≠ name → (∀ j k', E !! S j ≠ Some (Some (nm, k'))) →
      ∃ s'', dir_entry_lookup d nm (set_answers l' s') = Ok (None, s'').
Proof.
  intros Hy Ed HE Hv Hk Ea Hns. destruct (dir_open_some _ _ _ _ _ _ _ _ Hy Ed) as (i & Ei & Es).
  destruct (dir_add_starved F H E s d dr name k l) as (s' & E1 & Hw & Edr & Ein & Hd); try done;
    [apply Hy|by eapply fsys_dir_at|by eapply root_not_denied|by eapply fy_stack|].
  exists s'. split; [done|]. split.
  { destruct Hd as (i' & e' & Ei' & Ee' & Hr). assert (i' = i) as -> by congruence. rewrite Es, (fy_root _ _ _ _ _ _ Hy) in Ee'. by injection Ee' as <-. }
  intros nm l' Hz Hne Hno. assert (whole F H (set_answers l' s')) as Hw'.
  { destruct Hw as [Hdk Ht]. split; [done|]. destruct Ht. by split. }
  destruct (dir_entry_lookup_ok F H (<[0%nat := Some (name, k)]> E) (set_answers l' s') d dr nm Hw') as (r & s2 & E2 & _ & Hx); [by cbn; rewrite Edr|done|done|].
  exists s2. destruct r as [[bs ofs]|]; [|done]. exfalso. destruct Hx as (j & k' & _ & Ej & _).
  apply list_lookup_insert_Some in Ej as [(_ & ? & _)|[Hj Ej]]; [congruence|]. destruct j as [|j]; [done|]. by eapply Hno.
Qed.

End theorems.

(** ** A disk in memory *)

Definition boot_state (l : list Z) : fs ram_disk := Fs [] ∅ [] (Bitmap 0 []) NULL ∅ ∅ (replicate 20 0) l.
(** Answers of [malloc]: [n] pages from page [a] on. *)
Definition pages (a n : nat) : list Z := (λ i, 4096 * Z.of_nat i) <$> seq a n.

Lemma pages_booted n : (20 < n < 1000)%nat → booted (boot_state (pages 1 n)).
Proof.
  intros Hn. split; try done. cbn. split; [|unfold pages; rewrite length_fmap, length_seq; lia]. split_and!.
  - apply NoDup_fmap_2; [|apply NoDup_seq]. intros i j E. cbn beta in E. lia.
  - cbn. intros a (i & -> & Hi%elem_of_seq)%list_elem_of_fmap. split; [unfold pointer; lia|]. unfold in_use. cbn. intros [[? ?]|[[? ?]|[? ?]]]; done.
  - unfold objects. cbn [inodes files dirs answers boot_state]. unfold pages. rewrite !map_size_empty, length_fmap, length_seq. lia.
Qed.

(** The state after formatting a disk of 16 sectors, and after one file has been
    created. *)
Definition state_of {A} (r : result (A * fs ram_disk)) : fs ram_disk := match r with Ok (_, s) => s | Err _ => boot_state [] end.
Definition formatted : fs ram_disk := state_of (filesys_init (Some (blank_disk 16)) [0] true (boot_state (pages 1 100))).
Definition one_file : fs ram_disk := state_of (filesys_create [97] 600 formatted).

Lemma map_16_wf : bitmap_wf (Bitmap 16 [0]).
Proof. split; cbn; [lia|done|]. repeat constructor; lia. Qed.

Lemma formatted_empty : represents 16 (Afs ∅ ∅ ∅) formatted ∧ ample formatted.
Proof.
  destruct (filesys_format_ok (blank_disk 16) [0] (boot_state (pages 1 100))) as (s' & F & e0 & e1 & E & Hm).
  { apply pages_booted. lia. } { apply blank_disk_wf. lia. } { change (4 ≤ 16 < 2 ^ 31). lia. } { apply map_16_wf. }
  unfold formatted. rewrite E. split; [by eapply mounts_empty|]. by destruct Hm as (_ & _ & ? & _).
Qed.

Lemma formatted_bits : bools (free_map formatted) = replicate 4 true ++ replicate 12 false.
Proof. vm_compute. reflexivity. Qed.

Lemma formatted_room : ¬ no_room (free_map formatted) 600.
Proof.
  unfold no_room. rewrite formatted_bits. intros [H|(i & Hi & H)]; [by vm_compute in H|].
  do 16 (destruct i as [|i]; [cbn in Hi; first [discriminate Hi|by vm_compute in H]|]). by rewrite lookup_ge_None_2 in Hi by (cbn; lia).
Qed.

Lemma valid_97 : valid_name [97].
Proof. split_and!; [done|cbn; unfold NAME_MAX; lia|by rewrite list_elem_of_singleton]. Qed.

(** The first file. *)
Lemma first_create (s : fs ram_disk) :
  represents 16 (Afs ∅ ∅ ∅) s → ample s → ¬ no_room (free_map s) 600 →
  ∃ ok s', filesys_create [97] 600 s = Ok (ok, s') ∧
    (answers s' ≠ [] → ok = true ∧ fine s s' ∧ ample s' ∧ ∃ k, represents 16 (Afs (<[[97] := k]> ∅) (<[k := replicate 600 0]> ∅) ∅) s').
Proof.
  intros Hrep Ha Hroom. destruct (create_call 16 _ s [97] 600 Hrep) as (ok & s' & E & Hx); [apply valid_97|lia|].
  destruct (call_healthy s (Create [97] 600)) as (r & s2 & E2 & _ & Hfr); [by eapply represents_healthy|cbn; split; [apply valid_97|lia]|].
  cbn in E2. rewrite (bind_ok _ _ _ _ _ E) in E2. injection E2 as _ <-. exists ok, s'. split; [done|]. intros Han.
  assert (fine s s') as Hf by done. destruct (Hx Hf) as ((a' & Hsp & Hrep') & Hfail & _). assert (ok = true) as ->.
  { destruct ok; [done|]. destruct (Hfail eq_refl) as [Hv|[[? Hs]|[Hs|Hs]]]; [by destruct (Hv valid_97)|done|cbn in Hs; rewrite map_size_empty in Hs; lia|done]. }
  split; [done|]. split; [done|]. split; [by apply (fr_ample _ _ Hfr)|]. inversion Hsp; subst. eauto.
Qed.

Lemma one_file_eq : one_file = state_of (filesys_create [97] 600 formatted).
Proof. reflexivity. Qed.
Lemma one_file_answers : answers one_file ≠ [].
Proof. vm_compute. discriminate. Qed.

Lemma one_file_created :
  filesys_create [97] 600 formatted = Ok (true, one_file) ∧ fine formatted one_file ∧ ample one_file ∧
  ∃ k, represents 16 (Afs (<[[97] := k]> ∅) (<[k := replicate 600 0]> ∅) ∅) one_file.
Proof.
  pose proof one_file_answers as Han. rewrite one_file_eq in Han |- *. destruct formatted_empty as [Hrep Ha].
  destruct (first_create formatted Hrep Ha formatted_room) as (ok & s' & E & Hx). rewrite E in Han |- *. cbn [state_of] in Han |- *.
  destruct (Hx Han) as (-> & ? & ? & ?). split; [reflexivity|]. split; [assumption|]. split; assumption.
Qed.

Lemma one_file_room : ¬ no_room (free_map one_file) 600.
Proof.
  assert (bools (free_map one_file) = replicate 7 true ++ replicate 9 false) as Hb by (vm_compute; reflexivity). unfold no_room. rewrite Hb.
  intros [H|(i & Hi & H)]; [by vm_compute in H|].
  do 16 (destruct i as [|i]; [cbn in Hi; first [discriminate Hi|by vm_compute in H]|]). by rewrite lookup_ge_None_2 in Hi by (cbn; lia).
Qed.

Lemma formatted_healthy : healthy formatted.
Proof. apply (represents_healthy 16 (Afs ∅ ∅ ∅)), formatted_empty. Qed.

Lemma create_97_allowed (s : fs ram_disk) : allowed s (Create [97] 600).
Proof. split; [apply valid_97|lia]. Qed.

(** [filesys_safe] on the formatted disk. *)
Lemma filesys_safe_witness : ∃ r s', exec (Create [97] 600) formatted = Ok (r, s') ∧ healthy s'.
Proof. exact (filesys_safe formatted [] formatted (Create [97] 600) formatted_healthy (runs_nil _) (create_97_allowed _)). Defined.

Lemma exec_create {B} `{BlockDevice B} (s s' : fs B) name n b : filesys_create name n s = Ok (b, s') → exec (Create name n) s = Ok (Flag b, s').
Proof. intros E. cbn [exec]. by rewrite (bind_ok _ _ _ _ _ E). Qed.

Lemma one_file_run : runs formatted [(Create [97] 600, Flag true)] one_file.
Proof.
  apply (runs_snoc formatted [] formatted); [constructor|apply create_97_allowed|]. apply exec_create, one_file_created.
Qed.

Lemma one_file_fine : fine formatted one_file.
Proof. apply one_file_created. Qed.

(** [filesys_refines] for the creation of the first file. *)
Lemma filesys_refines_witness : ∃ a', spec_runs 16 (Afs ∅ ∅ ∅) [(Create [97] 600, Flag true)] a' ∧ represents 16 a' one_file.
Proof. exact (filesys_refines 16 (Afs ∅ ∅ ∅) formatted _ one_file (proj1 formatted_empty) one_file_run one_file_fine). Defined.

(** [filesys_format_empty] on a disk of 16 sectors. *)
Lemma filesys_format_empty_witness :
  ∃ s', filesys_init (Some (blank_disk 16)) [0] true (boot_state (pages 1 100)) = Ok (tt, s') ∧ represents 16 (Afs ∅ ∅ ∅) s' ∧ ample s' ∧ answers s' ≠ [].
Proof.
  apply (filesys_format_empty (blank_disk 16) [0] (boot_state (pages 1 100))).
  - apply pages_booted. lia.
  - apply blank_disk_wf. lia.
  - change (4 ≤ 16 < 2 ^ 31). lia.
  - apply map_16_wf.
Defined.

(** [filesys_remount] on the disk with one file. *)
Lemma filesys_remount_witness :
  ∃ k s1, filesys_done one_file = Ok (tt, s1) ∧
    ∀ s2 junk, booted s2 → bitmap_wf (Bitmap (dev_size (device s1)) junk) →
      ∃ s3, filesys_init (Some (device s1)) junk false s2 = Ok (tt, s3) ∧ represents 16 (Afs (<[[97] := k]> ∅) (<[k := replicate 600 0]> ∅) ∅) s3.
Proof. destruct one_file_created as (_ & _ & _ & k & Hrep). exists k. exact (filesys_remount 16 _ one_file Hrep eq_refl). Defined.

(** [filesys_create_succeeds] on the formatted disk. *)
Lemma filesys_create_succeeds_witness :
  ∃ ok s', filesys_create [97] 600 formatted = Ok (ok, s') ∧
    (fine formatted s' → ok = true ∧ ∃ k, (∅ : gmap Z (list Z)) !! k = None ∧
      represents 16 (Afs (<[[97] := k]> ∅) (<[k := replicate (Z.to_nat 600) 0]> ∅) ∅) s').
Proof.
  apply (filesys_create_succeeds 16 (Afs ∅ ∅ ∅) formatted [97] 600 (proj1 formatted_empty) valid_97 eq_refl); [cbn [names]; rewrite map_size_empty; lia|lia|apply formatted_room].
Defined.

(** [filesys_create_leaks] when the file exists: two sectors are lost. *)
Lemma filesys_create_leaks_witness :
  ∃ k ok s', filesys_create [97] 600 one_file = Ok (ok, s') ∧
    (fine one_file s' → ok = false ∧ represents 16 (Afs (<[[97] := k]> ∅) (<[k := replicate 600 0]> ∅) ∅) s' ∧
      ∃ j, is_group (Z.to_nat (nsec 600)) false (bools (free_map one_file)) j ∧
        bools (free_map s') = set_range j (Z.to_nat (nsec 600)) true (bools (free_map one_file))).
Proof.
  destruct one_file_created as (_ & _ & _ & k & Hrep). exists k.
  apply (filesys_create_leaks 16 _ one_file [97] 600 Hrep (proj2 (proj2 valid_97))); [cbn; by eexists|lia|apply one_file_room].
Defined.

(** ** Low memory *)

(** The disk with one file, with a handle of the root directory. *)
Definition value_of {S} (r : result (Z * S)) : Z := match r with Ok (d, _) => d | Err _ => NULL end.
Definition root_handle : Z := value_of (dir_open_root one_file).
Definition root_open : fs ram_disk := state_of (dir_open_root one_file).

Lemma root_open_ok :
  ∃ F E e0 e1 dr k, fsys F E e0 e1 [] root_open ∧ dirs root_open !! root_handle = Some dr ∧ E !! 0%nat = Some (Some ([97], k)) ∧
    ∀ j k', E !! S j ≠ Some (Some ([97], k')).
Proof.
  destruct one_file_created as (_ & _ & _ & k & F & E & e0 & e1 & Hy & Hr & _ & Hl).
  destruct (dir_open_root_ok F E e0 e1 [] one_file Hy) as (d & s' & E1 & Hq & Hd); [cbn; lia|].
  assert (root_handle = d) as Hh by (unfold root_handle; by rewrite E1). assert (root_open = s') as Hs by (unfold root_open; by rewrite E1).
  assert (bool_decide (root_handle ≠ NULL)) as Hn%bool_decide_unpack by (vm_compute; exact I). rewrite Hh in Hn. rewrite decide_False in Hd by done.
  destruct Hd as (_ & ip & Ed). assert (dirs root_open !! root_handle = Some (Dir ip 0)) as Edr by (rewrite Hs, Hh, Ed; apply lookup_insert_eq).
  assert (fsys F E e0 e1 [] root_open) as Hy' by (rewrite Hs; apply Hq).
  destruct (dir_entry_lookup_ok F [] E root_open root_handle (Dir ip 0) [97]) as (r & s2 & E2 & _ & Hx);
    [apply Hy'|done|by eapply fsys_dir_at|apply valid_97|].
  assert (match dir_entry_lookup root_handle [97] root_open with Ok (Some (_, ofs), _) => ofs | _ => -1 end = 0) as Ho by (vm_compute; reflexivity).
  rewrite E2 in Ho. destruct r as [[bs ofs]|]; [|done]. destruct Hx as (j & k' & -> & Ej & _). assert (j = 0%nat) as -> by lia.
  exists F, E, e0, e1, (Dir ip 0), k'. split_and!; [done..|]. intros j k2 Ej2. by assert (0%nat = S j) by (by eapply (rl_unique _ _ _ _ Hr)).
Qed.

(** The first file is lost when the entry of a second one is added. *)
Lemma low_memory_overwrites_entry_witness :
  ∃ s', dir_add root_handle [98] 9 (set_answers (NULL :: NULL :: pages 200 20) root_open) = Ok (true, s') ∧
    ∀ l', ∃ s'', dir_entry_lookup root_handle [97] (set_answers l' s') = Ok (None, s'').
Proof.
  destruct root_open_ok as (F & E & e0 & e1 & dr & k & Hy & Ed & E0 & Hno).
  destruct (low_memory_overwrites_entry F E e0 e1 [] (set_answers (NULL :: NULL :: pages 200 20) root_open) root_handle dr [98] 9 (pages 200 20))
    as (s' & E1 & _ & Hx).
  - apply fsys_answers. exact Hy.
  - rewrite answers_dirs. exact Ed.
  - intros ->. discriminate E0.
  - split_and!; [done|cbn; unfold NAME_MAX; lia|by rewrite list_elem_of_singleton].
  - unfold in_u. lia.
  - reflexivity.
  - vm_compute. discriminate.
  - exists s'. split; [exact E1|]. intros l'. apply (Hx [97] l'); [apply valid_97|discriminate|exact Hno].
Defined.
