(* ===== verification/ProcessExample.v ===== *)
(** * An executable that is loaded

    A disk with a small executable "a.out", which is loaded with the command
    line "a.out x": the theorems of ProcessTheorems apply, and evaluation gives the
    registers and the stack of the program. *)

From S2P Require Import Prelude Vaddr CString Bitmap Palloc BlockDevice Inode FreeMap Directory Filesys FsInv FsSys FsSpec FsTheorems.
From S2P Require Import PageDir PageDirSpec PageDirInv PageDirTheorems FileApi FileInstance Process ProcessSpec ProcessImage ProcessTheorems.

(** ** The executable *)

(** A loop at address 0x8048054, the name of the file, and the words that calls
    of seek, with position [2^31], and tell for descriptor 2 have on the stack. *)
Definition a_out : list Z :=
  [127; 69; 76; 70; 1; 1; 1] ++ replicate 9 0 ++
  le_bytes 2 2 ++ le_bytes 2 3 ++ le_bytes 4 1 ++ le_bytes 4 0x8048054 ++ le_bytes 4 52 ++ le_bytes 4 0 ++ le_bytes 4 0 ++
  le_bytes 2 52 ++ le_bytes 2 32 ++ le_bytes 2 1 ++ le_bytes 2 0 ++ le_bytes 2 0 ++ le_bytes 2 0 ++
  le_bytes 4 PT_LOAD ++ le_bytes 4 0 ++ le_bytes 4 0x8048000 ++ le_bytes 4 0x8048000 ++ le_bytes 4 116 ++ le_bytes 4 128 ++ le_bytes 4 5 ++ le_bytes 4 4096 ++
  [0x90; 0x90; 0xeb; 0xfe] ++ [97; 46; 111; 117; 116; 0; 0; 0] ++ le_bytes 4 11 ++ le_bytes 4 2 ++ le_bytes 4 0x80000000 ++ le_bytes 4 12 ++ le_bytes 4 2.

Definition a_out_name : list Z := [97; 46; 111; 117; 116].

Definition install : M (fs ram_disk) Z :=
  ok ← vfs_create a_out_name 116;
  f ← vfs_open a_out_name;
  if decide (f = NULL) then mret 0 else
  n ← vfs_write f a_out 116; vfs_close f;; mret n.

Lemma a_out_name_ok : 0 ∉ a_out_name.
Proof. apply (bool_decide_unpack _). vm_compute. exact I. Qed.

(** The file system stays consistent. *)
Lemma install_ok (s : fs ram_disk) : vfs_ok s → ∃ n s', install s = Ok (n, s') ∧ vfs_ok s'.
Proof.
  intros Hs. unfold install. destruct (vfs_create_ok s a_out_name 116 Hs a_out_name_ok ltac:(lia)) as (ok & s1 & E1 & H1 & _). rewrite (bind_ok _ _ _ _ _ E1).
  destruct (vfs_open_ok s1 a_out_name H1 a_out_name_ok) as (f & s2 & E2 & H2 & Hf). rewrite (bind_ok _ _ _ _ _ E2). destruct (decide (f = NULL)) as [|Hn].
  { exists 0, s2. split; [reflexivity|exact H2]. }
  destruct Hf as (_ & _ & bs & Hv & _). destruct (vfs_write_ok s2 f bs 0 a_out 116 H2 Hv) as (n & s3 & E3 & H3 & _ & Hv3 & _); [vm_compute; congruence|].
  rewrite (bind_ok _ _ _ _ _ E3). destruct (vfs_close_ok s3 f H3 ltac:(eexists; exact Hv3)) as (s4 & E4 & H4 & _). rewrite (bind_ok _ _ _ _ _ E4).
  exists n, s4. split; [reflexivity|exact H4].
Qed.

Definition disk_with_a_out : fs ram_disk := state_of (install formatted).
Lemma disk_with_a_out_ok : vfs_ok disk_with_a_out.
Proof. destruct (install_ok formatted formatted_healthy) as (n & s' & E & H). unfold disk_with_a_out. rewrite E. exact H. Qed.

(** ** Loading *)

Definition space_at : Z := literals_at.
Definition delimiters_at : Z := literals_at + 2.
Definition command_at : Z := literals_at + 5.
Definition command : list Z := a_out_name ++ [32; 120].

Definition process (m : mmu palloc) : proc palloc (fs ram_disk) := Proc m disk_with_a_out 0xc0100000 NULL NULL NULL 0 0 0 0 (λ _, 0) [].

Lemma literal_strings : cstr boot_kernel space_at [32] ∧ cstr boot_kernel delimiters_at [32; 9] ∧ cstr boot_kernel command_at command.
Proof. split_and!; apply (bool_decide_unpack _); vm_compute; exact I. Qed.

(** The words of memory that a program reads. *)
Fixpoint user_words (m : mmu palloc) (vas : list Z) : list (option (list Z)) :=
  match vas with
  | [] => []
  | va :: vas =>
      (match user_read va m, user_read (va + 1) m, user_read (va + 2) m, user_read (va + 3) m with
       | Ok (Some a, _), Ok (Some b, _), Ok (Some c, _), Ok (Some d, _) => Some [a; b; c; d]
       | _, _, _, _ => None
       end) :: user_words m vas
  end.

(** The program starts at its entry point; it finds its code, and the return
    address, [argc] and [argv] on the stack. *)
Lemma load_run :
  (s ← mmu_boot; r ← load space_at delimiters_at command_at (process s);
   Ok (r.1, eip r.2, esp r.2, user_words (mach r.2) [eip r.2; esp r.2; esp r.2 + 4; esp r.2 + 8])) =
  Ok (true, 0x8048054, 0xbfffffcc, [Some [0x90; 0x90; 0xeb; 0xfe]; Some [0; 0; 0; 0]; Some [2; 0; 0; 0]; Some [0xd8; 0xff; 0xff; 0xbf]]).
Proof. vm_compute. reflexivity. Qed.

Lemma load_returns_true s : mmu_boot = Ok s → ∃ s', load space_at delimiters_at command_at (process s) = Ok (true, s').
Proof.
  intros Es. pose proof load_run as H. apply result_bind_inv in H as (x & Ex & H). apply result_bind_inv in H as ([b s'] & E & H). apply ok_inj in H.
  rewrite Es in Ex. apply ok_inj in Ex. rewrite Ex. exists s'. rewrite E. apply (f_equal (λ v, v.1.1.1)) in H. change (b = true) in H. rewrite H. reflexivity.
Qed.

(** [load_correct] for this command line. *)
Lemma load_correct_witness :
  ∃ s s' bs L entry stack, let L' := <[stack_page := (true, stack)]> L in
    mmu_boot = Ok s ∧ load space_at delimiters_at command_at (process s) = Ok (true, s') ∧
    vfs_named (disk (process s)) (before 32 command) bs ∧ elf_image bs = Some (L, entry) ∧ start_stack L' (esp s') (words [32; 9] [] command) ∧
    ∃ t, user_read 0x8048054 (mach s') = Ok (image_byte L' 0x8048054, t).
Proof.
  destruct boot_returns as [s Es]. destruct (load_returns_true s Es) as [s1 E1]. destruct literal_strings as (H1 & H2 & H3).
  destruct (load_correct (env_of s boot_kernel) space_at delimiters_at (Palloc.held (pool_of s)) (Vm ∅ ∅ ∅ (init_page_dir s)) (process s) command_at command
    (boot_represents s boot_kernel Es (boot_kernel_data s Es)) disk_with_a_out_ok H1 H2 H3 ltac:(reflexivity) ltac:(discriminate)) as (b & s' & a' & E & _ & _ & _ & _ & _ & Hb).
  rewrite E1 in E. apply ok_inj in E. injection E as <- <-. destruct (Hb eq_refl) as (bs & L & entry & st & Hn & Hi & _ & He & Hst & Hu).
  exists s, s1, bs, L, entry, st. split; [exact Es|]. split; [exact E1|]. split; [exact Hn|]. split; [exact Hi|]. split; [exact Hst|].
  apply (Hu 0x8048054). split; vm_compute; congruence.
Defined.
