(* ===== verification/SyscallExample.v ===== *)
(** * A program that makes system calls

    The executable of ProcessExample is started and opens itself twice; the
    theorems on system calls apply to its states. *)

From S2P Require Import Prelude Vaddr CString Bitmap Palloc BlockDevice Inode FreeMap Directory Filesys FsInv FsSys FsSpec FsTheorems.
From S2P Require Import PageDir PageDirSpec PageDirInv PageDirTheorems FileApi FileInstance Process ProcessSpec ProcessImage ProcessTheorems Descriptor Syscall UserMemory DescriptorInv DescriptorCalls SyscallTheorems ProcessExit ProcessStart ProcessLife ProcessExample.

Definition name_at : Z := 0x8048058.
Definition seek_at : Z := 0x8048060.
Definition tell_at : Z := 0x804806c.

(** The name and the words of the program, and the results of its calls. *)
Lemma calls_run :
  (s ← mmu_boot; r1 ← start_program space_at delimiters_at command_at (process s);
   r2 ← fd_open name_at r1.2; r3 ← fd_open name_at r2.2;
   Ok (r1.1, r2.1, r3.1, (λ i, peek (name_at + Z.of_nat i) r1.2) <$> seq 0 6,
     (λ va, peek_word va r1.2) <$> [tell_at; seek_at; seek_at + 4; seek_at + 8])) =
  Ok (true, 2, 3, Some <$> (a_out_name ++ [0]), [Some 12; Some 11; Some 2; Some 0x80000000]).
Proof. vm_compute. reflexivity. Qed.

Record example (s0 : mmu palloc) (s1 s2 s3 : proc palloc (fs ram_disk)) : Prop := {
  ex_boot : mmu_boot = Ok s0;
  ex_start : start_program space_at delimiters_at command_at (process s0) = Ok (true, s1);
  ex_open : fd_open name_at s1 = Ok (2, s2);
  ex_open2 : fd_open name_at s2 = Ok (3, s3);
  ex_name i b : (a_out_name ++ [0]) !! i = Some b → peek (name_at + Z.of_nat i) s1 = Some b;
  ex_tell : peek_word tell_at s1 = Some 12;
  ex_seek : peek_word seek_at s1 = Some 11 ∧ peek_word (seek_at + 4) s1 = Some 2 ∧ peek_word (seek_at + 8) s1 = Some 0x80000000
}.

Lemma example_exists : ∃ s0 s1 s2 s3, example s0 s1 s2 s3.
Proof.
  pose proof calls_run as H. apply result_bind_inv in H as (s0 & E0 & H). apply result_bind_inv in H as ([b s1] & E1 & H). apply result_bind_inv in H as ([fd s2] & E2 & H).
  apply result_bind_inv in H as ([fd2 s3] & E3 & H). apply ok_inj in H. cbn [fst snd] in *. exists s0, s1, s2, s3.
  assert (b = true ∧ fd = 2 ∧ fd2 = 3) as (-> & -> & ->) by (split_and!; congruence). 
  pose proof (f_equal snd H) as Hl. change ([peek_word tell_at s1; peek_word seek_at s1; peek_word (seek_at + 4) s1; peek_word (seek_at + 8) s1] = [Some 12; Some 11; Some 2; Some 0x80000000]) in Hl.
  injection Hl as H1 H2 H3 H4. split; try assumption.
  - assert ((λ i, peek (name_at + Z.of_nat i) s1) <$> seq 0 6 = Some <$> (a_out_name ++ [0])) as En by congruence. intros i c Hc.
    assert ((Some <$> (a_out_name ++ [0])) !! i = Some (Some c)) as Hi by (rewrite list_lookup_fmap, Hc; reflexivity). rewrite <-En, list_lookup_fmap in Hi.
    destruct (seq 0 6 !! i) as [k|] eqn:Ek; [|discriminate Hi]. apply lookup_seq in Ek as [-> _]. injection Hi as Hi. exact Hi.
  - split_and!; assumption.
Qed.

(** The process after its start. *)
Record example_space (L : layout) : Prop := {
  es_name : user_str L name_at a_out_name;
  es_tell : image_word L tell_at = Some 12;
  es_seek : image_word L seek_at = Some 11 ∧ image_word L (seek_at + 4) = Some 2 ∧ image_word L (seek_at + 8) = Some 0x80000000;
  es_stack : range_allows L true (PHYS_BASE - 64) 64
}.

Definition ke0 (s0 : mmu palloc) : kenv := env_of s0 boot_kernel.
Definition P0 (s0 : mmu palloc) : gset Z := Palloc.held (pool_of s0).
Definition a0 (s0 : mmu palloc) : vm := Vm ∅ ∅ ∅ (init_page_dir s0).

Lemma example_started s0 s1 s2 s3 : example s0 s1 s2 s3 → ∃ a L, running (ke0 s0) (P0 s0) a L (replicate 341 Free) s1 ∧ example_space L.
Proof.
  intros [X1 X2 X3 X4 X5 X6 (X7 & X8 & X9)]. destruct literal_strings as (H1 & H2 & H3).
  destruct (start_ok (ke0 s0) (P0 s0) (a0 s0) (process s0) space_at delimiters_at command_at command (boot_represents s0 boot_kernel X1 (boot_kernel_data s0 X1)) disk_with_a_out_ok H1 H2 H3 ltac:(reflexivity) ltac:(discriminate)) as (b & s' & E & Hb).
  rewrite X2 in E. apply ok_inj in E. injection E as <- <-. destruct (Hb eq_refl) as (a & L & bs & entry & st & Hr & _). cbv zeta in Hr. set (L' := <[stack_page := (true, st)]> L) in *.
  exists a, L'. split; [exact Hr|]. pose proof (rn_space _ _ _ _ _ _ Hr) as Hu.
  assert (∀ va v, peek_word va s1 = Some v → 0 ≤ va → va + 4 ≤ PHYS_BASE → image_word L' va = Some v) as Hw.
  { intros va v Hv Hva1 Hva2. rewrite <-(peek_word_image _ _ _ _ _ va Hu Hva1 Hva2). exact Hv. }
  split.
  - split; [split; vm_compute; congruence| |exact a_out_name_ok]. intros i c Hc. rewrite <-(peek_image _ _ _ _ _ _ Hu); [exact (X5 i c Hc)|]. apply lookup_lt_Some in Hc. cbn in Hc. unfold name_at, PHYS_BASE. lia.
  - apply Hw; [exact X6|vm_compute; congruence..].
  - split_and!; (apply Hw; [assumption|vm_compute; congruence..]).
  - intros x Hx. unfold page_allows. assert (x / PGSIZE = stack_page) as ->; [|unfold L'; rewrite lookup_insert_eq; reflexivity].
    clear -Hx. unfold stack_page, PHYS_BASE in *. rewrite PGSIZE_eq. change (0xc0000000 / 4096 - 1) with 0xbffff. dlia.
Qed.

(** The file is open once, and twice. *)
Lemma example_opened s0 s1 s2 s3 :
  example s0 s1 s2 s3 → ∃ L f g, example_space L ∧ f ≠ g ∧ let T := <[0%nat := Used f]> (replicate 341 Free) in
    settled T ∧ settled (<[1%nat := Used g]> T) ∧
    (∃ a, running (ke0 s0) (P0 s0) a L T s2) ∧ ∃ a, running (ke0 s0) (P0 s0) a L (<[1%nat := Used g]> T) s3.
Proof.
  intros He. destruct (example_started _ _ _ _ He) as (a & L & Hr & Hs). destruct He as [_ _ X3 X4 _ _ _].
  assert (settled (replicate 341 Free)) as Hst by (apply Forall_replicate; discriminate). assert (Free ∈ replicate 341 Free) as Hfree by left.
  destruct (fd_open_ends _ _ a L _ s1 name_at a_out_name Hr Hst (es_name _ Hs) Hfree) as (r & s' & a1 & L1 & T1 & E & Hr1 & [Hst1 _] & _ & -> & Hcase).
  rewrite X3 in E. apply ok_inj in E. injection E as <- <-. destruct Hcase as [[? _]|(j & f & bs & Hj & Er & -> & _)]; [discriminate|]. assert (j = 0%nat) as -> by (clear -Er; lia).
  assert (Free ∈ <[0%nat := Used f]> (replicate 341 Free)) as Hf1 by (right; left).
  destruct (fd_open_ends _ _ a1 L _ s2 name_at a_out_name Hr1 Hst1 (es_name _ Hs) Hf1) as (r & s' & a2 & L2 & T2 & E & Hr2 & [Hst2 _] & _ & -> & Hcase).
  rewrite X4 in E. apply ok_inj in E. injection E as <- <-. destruct Hcase as [[? _]|(j2 & g & bs2 & Hj2 & Er2 & -> & _)]; [discriminate|]. assert (j2 = 1%nat) as -> by (clear -Er2; lia).
  exists L, f, g. split; [exact Hs|]. split; [|split; [exact Hst1|split; [exact Hst2|split; eexists; eassumption]]].
  intros ->. discriminate (rn_inj _ _ _ _ _ _ Hr2 0%nat 1%nat g eq_refl eq_refl).
Qed.

Lemma example_range L : example_space L → in_range L tell_at.
Proof. intros Hs n w _ _ Hn Hc. rewrite (es_tell _ Hs) in Hn. injection Hn as <-. destruct Hc; discriminate. Qed.

(** ** The theorems *)

(** [check_valid_pointer_exact] for the words of the call of tell. *)
Lemma check_valid_pointer_exact_witness :
  ∃ s : proc palloc (fs ram_disk), ∃ b, check_valid_pointer tell_at 8 false s = Ok (b, s) ∧
    (b = true ↔ tell_at ≠ NULL ∧ tell_at + 8 ≤ PHYS_BASE ∧ ∀ x, tell_at ≤ x < tell_at + 8 → accessible false x (mach s)).
Proof.
  destruct example_exists as (s0 & s1 & s2 & s3 & He). destruct (example_started _ _ _ _ He) as (a & L & Hr & _). destruct (rn_space _ _ _ _ _ _ Hr) as [U1 U2 U3].
  exists s1. apply (check_valid_pointer_exact (ke0 s0) (P0 s0) a L s1 tell_at 8 false U1 U2 U3); split; vm_compute; congruence.
Defined.

(** [syscall_safe] for the call of tell. *)
Lemma syscall_safe_witness :
  ∃ (s : proc palloc (fs ram_disk)) T o s' a' L' T', esp s = tell_at ∧ syscall_handler s = Ok (o, s') ∧ follows s T T' ∧ table (bytes a') (file_descriptor_page s') T' ∧ holds a' (pagedir s') L'.
Proof.
  destruct example_exists as (s0 & s1 & s2 & s3 & He). destruct (example_opened _ _ _ _ He) as (L & f & g & Hs & _ & Hst & _ & [a Hr] & _).
  destruct (syscall_safe (ke0 s0) (P0 s0) a L _ (set_esp tell_at s2) (running_esp _ _ _ _ _ _ tell_at Hr) Hst) as (o & s' & a' & L' & T' & E & _ & Hr' & Hf & _);
    [split; vm_compute; congruence|right; left|apply example_range; exact Hs|].
  exists (set_esp tell_at s2), (<[0%nat := Used f]> (replicate 341 Free)), o, s', a', L', T'. destruct Hr' as [[_ Hh _] _ _ Ht _ _ _]. split_and!; [reflexivity|assumption..].
Defined.

(** [seek_stops_kernel] for the call of seek. *)
Lemma seek_stops_kernel_witness : ∃ s : proc palloc (fs ram_disk), esp s = seek_at ∧ syscall_handler s = Err AssertFailed.
Proof.
  destruct example_exists as (s0 & s1 & s2 & s3 & He). destruct (example_opened _ _ _ _ He) as (L & f & g & [_ _ (W1 & W2 & W3) _] & _ & Hst & _ & [a Hr] & _).
  exists (set_esp seek_at s2). split; [reflexivity|].
  apply (seek_stops_kernel (ke0 s0) (P0 s0) a L _ (set_esp seek_at s2) 2 0x80000000 (running_esp _ _ _ _ _ _ seek_at Hr) Hst);
    [exists f; left|vm_compute; congruence|vm_compute; congruence|exact W1|exact W2|exact W3|split; vm_compute; congruence|split; vm_compute; congruence].
Defined.

(** [read_reads_first_file] for the two descriptors. *)
Lemma read_reads_first_file_witness :
  ∃ (s : proc palloc (fs ram_disk)) f g bs ps r s', f ≠ g ∧ vfs_view (disk s) f = Some (bs, ps) ∧ fd_read 3 (PHYS_BASE - 64) 16 s = Ok (r, s') ∧
    vfs_view (disk s') f = Some (bs, ps + r) ∧ vfs_view (disk s') g = vfs_view (disk s) g.
Proof.
  destruct example_exists as (s0 & s1 & s2 & s3 & He). destruct (example_opened _ _ _ _ He) as (L & f & g & Hs & Hfg & _ & Hst & _ & [a Hr]).
  destruct (rn_open _ _ _ _ _ _ Hr 0%nat f eq_refl) as [[[bs ps] Hv] _].
  destruct (read_reads_first_file (ke0 s0) (P0 s0) a L _ s3 1%nat 0%nat f g bs ps (PHYS_BASE - 64) 16 Hr Hst eq_refl eq_refl ltac:(discriminate) Hv) as (r & s' & a' & E & _ & V1 & V2);
    [split; vm_compute; congruence|vm_compute; congruence|vm_compute; congruence|apply (range_sub _ _ _ _ _ _ (es_stack _ Hs)); vm_compute; congruence|].
  exists s3, f, g, bs, ps, r, s'. split_and!; assumption.
Defined.


Lemma tell_run :
  (s ← mmu_boot; r1 ← start_program space_at delimiters_at command_at (process s); r2 ← syscall_handler (set_esp tell_at r1.2); Ok r2.1) = Ok Returned.
Proof. vm_compute. reflexivity. Qed.

Lemma tell_returns s0 s1 s2 s3 : example s0 s1 s2 s3 → ∃ s', syscall_handler (set_esp tell_at s1) = Ok (Returned, s').
Proof.
  intros [X1 X2 _ _ _ _ _]. pose proof tell_run as H. apply result_bind_inv in H as (s & E0 & H). apply result_bind_inv in H as ([b t] & E1 & H). apply result_bind_inv in H as ([o s'] & E2 & H).
  apply ok_inj in H. cbn [fst snd] in H, E2. rewrite X1 in E0. apply ok_inj in E0. subst s. rewrite X2 in E1. apply ok_inj in E1. injection E1 as <- <-. subst o. exists s'. exact E2.
Qed.

