(* ===== verification/Kernel.v ===== *)
(** * Kernel state and the operations that do not switch threads

    The data of threads/thread.c, threads/synch.c and the interrupt state of
    threads/interrupt.c, and those functions of the three files, and of
    devices/timer.c, that run to completion on one thread.  The functions
    that can lose the processor are in KProg.

    Kernel lists are sequences of thread addresses (KListRefine justifies
    it); a `struct thread' is identified by the address of its page; an
    access to a page, semaphore, lock or record that does not exist is
    [BadAccess].  The kernel is the one built without USERPROG. *)

From S2P Require Import Prelude KList Vaddr.

(** ** Data *)

Inductive thread_status := THREAD_RUNNING | THREAD_READY | THREAD_BLOCKED | THREAD_DYING.

#[export] Instance thread_status_eq_dec : EqDecision thread_status.
Proof. solve_decision. Defined.

Definition TID_ERROR : Z := -1.
Definition PRI_MIN : Z := 0.
Definition PRI_DEFAULT : Z := 31.
Definition PRI_MAX : Z := 63.
Definition THREAD_NAME_LENGTH : nat := 16.
Definition THREAD_MAGIC : Z := 0xcd6abf4b.
Definition TIME_SLICE : Z := 4.

(** The frame of [kernel_thread] that [thread_create] puts on a new stack. *)
Record kernel_thread_frame := KernelThreadFrame { kf_function : Z; kf_aux : Z }.

(** What [switch_threads] finds on the stack of a thread: nothing yet, the
    frames of a new thread, or the frame of the call that switched away.  The
    thread in [thread_create] is named for the sake of the proofs; no code
    reads it. *)
Inductive stack_frames :=
  | NoFrames (creator : Z)
  | EntryFrames (creator : Z) (kf : kernel_thread_frame)
  | Switched.

Record thread := Thread {
  tid : Z;
  status : thread_status;
  name : list Z;                       (* without the terminator *)
  stack : Z;
  original_priority : Z;
  priority : Z;
  lock_priority_list : list nat;       (* indices of records of the page *)
  awake_tick : Z;
  magic : Z;
  frames : stack_frames
}.

(** A semaphore is a variable of its own, a member of a lock, or a member of
    the `struct condition_waiter' on the stack of a thread in [cond_wait]. *)
Inductive sema_id := SemaAt (a : Z) | LockSema (lock : Z) | WaiterSema (t : Z).

#[export] Instance sema_id_eq_dec : EqDecision sema_id.
Proof. solve_decision. Defined.
#[export] Instance sema_id_countable : Countable sema_id.
Proof.
  refine (inj_countable'
    (λ s, match s with SemaAt a => inl a | LockSema a => inr (inl a) | WaiterSema a => inr (inr a) end)
    (λ s, match s with inl a => SemaAt a | inr (inl a) => LockSema a | inr (inr a) => WaiterSema a end) _).
  by intros [].
Defined.

Record semaphore := Semaphore { value : Z; waiters : list Z }.

Record lock_priority := LockPriority { in_use : bool; waiting : bool; lp_lock : Z; lp_priority : Z }.

Definition zero_lock_priority : lock_priority := LockPriority false false NULL 0.

(** PGSIZE / sizeof (struct lock_priority) = 4096 / 20. *)
Definition lock_priority_limit : nat := 204.

Record kernel := Kernel {
  threads : gmap Z thread;  (* struct thread by the address of its page *)
  ready_list : list Z;  (* threads in ready_list *)
  all_list : list Z;  (* threads in all_list *)
  sleep_list : list Z;  (* threads in sleep_list *)
  idle_thread : Z;
  initial_thread : Z;
  running : Z;  (* page of the stack pointer, running_thread () *)
  next_tid : Z;
  idle_ticks : Z;
  kernel_ticks : Z;
  thread_ticks : Z;
  semas : gmap sema_id semaphore;  (* semaphores by identity *)
  holders : gmap Z Z;  (* struct lock: its holder, by address *)
  conds : gmap Z (list Z);  (* struct condition: the waiting threads *)
  lock_priority_page : list lock_priority;  (* records of the page; empty before synch_init *)
  priority_donation_enabled : bool;
  intr_on : bool;  (* FLAG_IF *)
  in_external_intr : bool;
  yield_on_return : bool;
  ticks : Z;  (* timer.c *)
  free_pages : list Z;  (* free pages of the kernel pool *)
  sections : gset (Z * Z);  (* no code reads it: the critical sections, by lock and thread *)
  creating : gset Z  (* no code reads it: the threads in [thread_create] *)
}.

Definition set_threads (v : gmap Z thread) (k : kernel) : kernel :=
  Kernel v (ready_list k) (all_list k) (sleep_list k) (idle_thread k) (initial_thread k)
    (running k) (next_tid k) (idle_ticks k) (kernel_ticks k) (thread_ticks k) (semas k)
    (holders k) (conds k) (lock_priority_page k) (priority_donation_enabled k) (intr_on k)
    (in_external_intr k) (yield_on_return k) (ticks k) (free_pages k) (sections k) (creating k).
Definition set_ready_list (v : list Z) (k : kernel) : kernel :=
  Kernel (threads k) v (all_list k) (sleep_list k) (idle_thread k) (initial_thread k)
    (running k) (next_tid k) (idle_ticks k) (kernel_ticks k) (thread_ticks k) (semas k)
    (holders k) (conds k) (lock_priority_page k) (priority_donation_enabled k) (intr_on k)
    (in_external_intr k) (yield_on_return k) (ticks k) (free_pages k) (sections k) (creating k).
Definition set_all_list (v : list Z) (k : kernel) : kernel :=
  Kernel (threads k) (ready_list k) v (sleep_list k) (idle_thread k) (initial_thread k)
    (running k) (next_tid k) (idle_ticks k) (kernel_ticks k) (thread_ticks k) (semas k)
    (holders k) (conds k) (lock_priority_page k) (priority_donation_enabled k) (intr_on k)
    (in_external_intr k) (yield_on_return k) (ticks k) (free_pages k) (sections k) (creating k).
Definition set_sleep_list (v : list Z) (k : kernel) : kernel :=
  Kernel (threads k) (ready_list k) (all_list k) v (idle_thread k) (initial_thread k)
    (running k) (next_tid k) (idle_ticks k) (kernel_ticks k) (thread_ticks k) (semas k)
    (holders k) (conds k) (lock_priority_page k) (priority_donation_enabled k) (intr_on k)
    (in_external_intr k) (yield_on_return k) (ticks k) (free_pages k) (sections k) (creating k).
Definition set_idle_thread (v : Z) (k : kernel) : kernel :=
  Kernel (threads k) (ready_list k) (all_list k) (sleep_list k) v (initial_thread k) (running k)
    (next_tid k) (idle_ticks k) (kernel_ticks k) (thread_ticks k) (semas k) (holders k)
    (conds k) (lock_priority_page k) (priority_donation_enabled k) (intr_on k)
    (in_external_intr k) (yield_on_return k) (ticks k) (free_pages k) (sections k) (creating k).
Definition set_initial_thread (v : Z) (k : kernel) : kernel :=
  Kernel (threads k) (ready_list k) (all_list k) (sleep_list k) (idle_thread k) v (running k)
    (next_tid k) (idle_ticks k) (kernel_ticks k) (thread_ticks k) (semas k) (holders k)
    (conds k) (lock_priority_page k) (priority_donation_enabled k) (intr_on k)
    (in_external_intr k) (yield_on_return k) (ticks k) (free_pages k) (sections k) (creating k).
Definition set_running (v : Z) (k : kernel) : kernel :=
  Kernel (threads k) (ready_list k) (all_list k) (sleep_list k) (idle_thread k)
    (initial_thread k) v (next_tid k) (idle_ticks k) (kernel_ticks k) (thread_ticks k) (semas k)
    (holders k) (conds k) (lock_priority_page k) (priority_donation_enabled k) (intr_on k)
    (in_external_intr k) (yield_on_return k) (ticks k) (free_pages k) (sections k) (creating k).
Definition set_next_tid (v : Z) (k : kernel) : kernel :=
  Kernel (threads k) (ready_list k) (all_list k) (sleep_list k) (idle_thread k)
    (initial_thread k) (running k) v (idle_ticks k) (kernel_ticks k) (thread_ticks k) (semas k)
    (holders k) (conds k) (lock_priority_page k) (priority_donation_enabled k) (intr_on k)
    (in_external_intr k) (yield_on_return k) (ticks k) (free_pages k) (sections k) (creating k).
Definition set_idle_ticks (v : Z) (k : kernel) : kernel :=
  Kernel (threads k) (ready_list k) (all_list k) (sleep_list k) (idle_thread k)
    (initial_thread k) (running k) (next_tid k) v (kernel_ticks k) (thread_ticks k) (semas k)
    (holders k) (conds k) (lock_priority_page k) (priority_donation_enabled k) (intr_on k)
    (in_external_intr k) (yield_on_return k) (ticks k) (free_pages k) (sections k) (creating k).
Definition set_kernel_ticks (v : Z) (k : kernel) : kernel :=
  Kernel (threads k) (ready_list k) (all_list k) (sleep_list k) (idle_thread k)
    (initial_thread k) (running k) (next_tid k) (idle_ticks k) v (thread_ticks k) (semas k)
    (holders k) (conds k) (lock_priority_page k) (priority_donation_enabled k) (intr_on k)
    (in_external_intr k) (yield_on_return k) (ticks k) (free_pages k) (sections k) (creating k).
Definition set_thread_ticks (v : Z) (k : kernel) : kernel :=
  Kernel (threads k) (ready_list k) (all_list k) (sleep_list k) (idle_thread k)
    (initial_thread k) (running k) (next_tid k) (idle_ticks k) (kernel_ticks k) v (semas k)
    (holders k) (conds k) (lock_priority_page k) (priority_donation_enabled k) (intr_on k)
    (in_external_intr k) (yield_on_return k) (ticks k) (free_pages k) (sections k) (creating k).
Definition set_semas (v : gmap sema_id semaphore) (k : kernel) : kernel :=
  Kernel (threads k) (ready_list k) (all_list k) (sleep_list k) (idle_thread k)
    (initial_thread k) (running k) (next_tid k) (idle_ticks k) (kernel_ticks k) (thread_ticks k)
    v (holders k) (conds k) (lock_priority_page k) (priority_donation_enabled k) (intr_on k)
    (in_external_intr k) (yield_on_return k) (ticks k) (free_pages k) (sections k) (creating k).
Definition set_holders (v : gmap Z Z) (k : kernel) : kernel :=
  Kernel (threads k) (ready_list k) (all_list k) (sleep_list k) (idle_thread k)
    (initial_thread k) (running k) (next_tid k) (idle_ticks k) (kernel_ticks k) (thread_ticks k)
    (semas k) v (conds k) (lock_priority_page k) (priority_donation_enabled k) (intr_on k)
    (in_external_intr k) (yield_on_return k) (ticks k) (free_pages k) (sections k) (creating k).
Definition set_conds (v : gmap Z (list Z)) (k : kernel) : kernel :=
  Kernel (threads k) (ready_list k) (all_list k) (sleep_list k) (idle_thread k)
    (initial_thread k) (running k) (next_tid k) (idle_ticks k) (kernel_ticks k) (thread_ticks k)
    (semas k) (holders k) v (lock_priority_page k) (priority_donation_enabled k) (intr_on k)
    (in_external_intr k) (yield_on_return k) (ticks k) (free_pages k) (sections k) (creating k).
Definition set_lock_priority_page (v : list lock_priority) (k : kernel) : kernel :=
  Kernel (threads k) (ready_list k) (all_list k) (sleep_list k) (idle_thread k)
    (initial_thread k) (running k) (next_tid k) (idle_ticks k) (kernel_ticks k) (thread_ticks k)
    (semas k) (holders k) (conds k) v (priority_donation_enabled k) (intr_on k)
    (in_external_intr k) (yield_on_return k) (ticks k) (free_pages k) (sections k) (creating k).
Definition set_priority_donation_enabled (v : bool) (k : kernel) : kernel :=
  Kernel (threads k) (ready_list k) (all_list k) (sleep_list k) (idle_thread k)
    (initial_thread k) (running k) (next_tid k) (idle_ticks k) (kernel_ticks k) (thread_ticks k)
    (semas k) (holders k) (conds k) (lock_priority_page k) v (intr_on k) (in_external_intr k)
    (yield_on_return k) (ticks k) (free_pages k) (sections k) (creating k).
Definition set_intr_on (v : bool) (k : kernel) : kernel :=
  Kernel (threads k) (ready_list k) (all_list k) (sleep_list k) (idle_thread k)
    (initial_thread k) (running k) (next_tid k) (idle_ticks k) (kernel_ticks k) (thread_ticks k)
    (semas k) (holders k) (conds k) (lock_priority_page k) (priority_donation_enabled k) v
    (in_external_intr k) (yield_on_return k) (ticks k) (free_pages k) (sections k) (creating k).
Definition set_in_external_intr (v : bool) (k : kernel) : kernel :=
  Kernel (threads k) (ready_list k) (all_list k) (sleep_list k) (idle_thread k)
    (initial_thread k) (running k) (next_tid k) (idle_ticks k) (kernel_ticks k) (thread_ticks k)
    (semas k) (holders k) (conds k) (lock_priority_page k) (priority_donation_enabled k)
    (intr_on k) v (yield_on_return k) (ticks k) (free_pages k) (sections k) (creating k).
Definition set_yield_on_return (v : bool) (k : kernel) : kernel :=
  Kernel (threads k) (ready_list k) (all_list k) (sleep_list k) (idle_thread k)
    (initial_thread k) (running k) (next_tid k) (idle_ticks k) (kernel_ticks k) (thread_ticks k)
    (semas k) (holders k) (conds k) (lock_priority_page k) (priority_donation_enabled k)
    (intr_on k) (in_external_intr k) v (ticks k) (free_pages k) (sections k) (creating k).
Definition set_ticks (v : Z) (k : kernel) : kernel :=
  Kernel (threads k) (ready_list k) (all_list k) (sleep_list k) (idle_thread k)
    (initial_thread k) (running k) (next_tid k) (idle_ticks k) (kernel_ticks k) (thread_ticks k)
    (semas k) (holders k) (conds k) (lock_priority_page k) (priority_donation_enabled k)
    (intr_on k) (in_external_intr k) (yield_on_return k) v (free_pages k) (sections k)
    (creating k).
Definition set_free_pages (v : list Z) (k : kernel) : kernel :=
  Kernel (threads k) (ready_list k) (all_list k) (sleep_list k) (idle_thread k)
    (initial_thread k) (running k) (next_tid k) (idle_ticks k) (kernel_ticks k) (thread_ticks k)
    (semas k) (holders k) (conds k) (lock_priority_page k) (priority_donation_enabled k)
    (intr_on k) (in_external_intr k) (yield_on_return k) (ticks k) v (sections k) (creating k).
Definition set_sections (v : gset (Z * Z)) (k : kernel) : kernel :=
  Kernel (threads k) (ready_list k) (all_list k) (sleep_list k) (idle_thread k)
    (initial_thread k) (running k) (next_tid k) (idle_ticks k) (kernel_ticks k) (thread_ticks k)
    (semas k) (holders k) (conds k) (lock_priority_page k) (priority_donation_enabled k)
    (intr_on k) (in_external_intr k) (yield_on_return k) (ticks k) (free_pages k) v
    (creating k).
Definition set_creating (v : gset Z) (k : kernel) : kernel :=
  Kernel (threads k) (ready_list k) (all_list k) (sleep_list k) (idle_thread k)
    (initial_thread k) (running k) (next_tid k) (idle_ticks k) (kernel_ticks k) (thread_ticks k)
    (semas k) (holders k) (conds k) (lock_priority_page k) (priority_donation_enabled k)
    (intr_on k) (in_external_intr k) (yield_on_return k) (ticks k) (free_pages k) (sections k)
    v.

(** ** Members of structures *)

Definition rd_thread (t : Z) : M kernel thread := λ k,
  match threads k !! t with Some th => Ok (th, k) | None => Err BadAccess end.

Definition map_thread (t : Z) (f : thread → thread) (k : kernel) : kernel :=
  set_threads (alter f t (threads k)) k.

Definition wr_thread (t : Z) (f : thread → thread) : M kernel unit :=
  rd_thread t;; modify (map_thread t f).

Definition with_status (s : thread_status) (th : thread) : thread :=
  Thread (tid th) s (name th) (stack th) (original_priority th) (priority th)
    (lock_priority_list th) (awake_tick th) (magic th) (frames th).
Definition with_tid (v : Z) (th : thread) : thread :=
  Thread v (status th) (name th) (stack th) (original_priority th) (priority th)
    (lock_priority_list th) (awake_tick th) (magic th) (frames th).
Definition with_priority (v : Z) (th : thread) : thread :=
  Thread (tid th) (status th) (name th) (stack th) (original_priority th) v
    (lock_priority_list th) (awake_tick th) (magic th) (frames th).
Definition with_original_priority (v : Z) (th : thread) : thread :=
  Thread (tid th) (status th) (name th) (stack th) v (priority th)
    (lock_priority_list th) (awake_tick th) (magic th) (frames th).
Definition with_lock_priority_list (v : list nat) (th : thread) : thread :=
  Thread (tid th) (status th) (name th) (stack th) (original_priority th) (priority th)
    v (awake_tick th) (magic th) (frames th).
Definition with_awake_tick (v : Z) (th : thread) : thread :=
  Thread (tid th) (status th) (name th) (stack th) (original_priority th) (priority th)
    (lock_priority_list th) v (magic th) (frames th).
Definition with_frames (v : stack_frames) (th : thread) : thread :=
  Thread (tid th) (status th) (name th) (stack th) (original_priority th) (priority th)
    (lock_priority_list th) (awake_tick th) (magic th) v.
Definition with_stack (v : Z) (th : thread) : thread :=
  Thread (tid th) (status th) (name th) v (original_priority th) (priority th)
    (lock_priority_list th) (awake_tick th) (magic th) (frames th).

Definition rd_sema (s : sema_id) : M kernel semaphore := λ k,
  match semas k !! s with Some sm => Ok (sm, k) | None => Err BadAccess end.

Definition wr_sema (s : sema_id) (sm : semaphore) : M kernel unit :=
  modify (λ k, set_semas (<[s := sm]> (semas k)) k).

Definition rd_holder (l : Z) : M kernel Z := λ k,
  match holders k !! l with Some t => Ok (t, k) | None => Err BadAccess end.

Definition wr_holder (l t : Z) : M kernel unit :=
  modify (λ k, set_holders (<[l := t]> (holders k)) k).

Definition rd_cond (c : Z) : M kernel (list Z) := λ k,
  match conds k !! c with Some ws => Ok (ws, k) | None => Err BadAccess end.

Definition wr_cond (c : Z) (ws : list Z) : M kernel unit :=
  modify (λ k, set_conds (<[c := ws]> (conds k)) k).

Definition rd_lp (i : nat) : M kernel lock_priority := λ k,
  match lock_priority_page k !! i with Some r => Ok (r, k) | None => Err BadAccess end.

Definition wr_lp (i : nat) (r : lock_priority) : M kernel unit :=
  modify (λ k, set_lock_priority_page (<[i := r]> (lock_priority_page k)) k).

(** [list_remove] of an element of the sequence [xs]. *)
Definition list_del (x : Z) (xs : list Z) : list Z := filter (λ y, y ≠ x) xs.

(** [list_max] by an effective priority read from memory.  An element whose
    thread does not exist is a bad access. *)
Definition list_max_by (conv : kernel → Z → option Z) (xs : list Z) : M kernel Z := λ k,
  match xs with
  | [] => Err BadAccess
  | x :: xs' =>
      if forallb (λ t, bool_decide (is_Some (conv k t))) xs then
        Ok (max_from (default_list_less_func (λ t, default 0 (conv k t))) x xs', k)
      else Err BadAccess
  end.

Definition thread_priority_convert_func (k : kernel) (t : Z) : option Z :=
  priority <$> threads k !! t.

(** ** threads/interrupt.c: the interrupt level *)

Definition intr_context : M kernel bool := gets in_external_intr.

Definition intr_get_level : M kernel bool := gets intr_on.

Definition intr_enable : M kernel bool :=
  old_level ← intr_get_level; c ← intr_context; assert (negb c);;
  modify (set_intr_on true);; mret old_level.

Definition intr_disable : M kernel bool :=
  old_level ← intr_get_level; modify (set_intr_on false);; mret old_level.

Definition intr_set_level (level : bool) : M kernel bool :=
  if level then intr_enable else intr_disable.

Definition intr_yield_on_return : M kernel unit :=
  c ← intr_context; assert c;; modify (set_yield_on_return true).

(** ** threads/thread.c *)

Definition running_thread : M kernel Z := gets running.

Definition is_thread (t : Z) : M kernel bool :=
  if decide (t = NULL) then mret false
  else th ← rd_thread t; mret (bool_decide (magic th = THREAD_MAGIC)).

Definition thread_current : M kernel Z :=
  t ← running_thread;
  b ← is_thread t; assert b;;
  th ← rd_thread t; assert (bool_decide (status th = THREAD_RUNNING));;
  mret t.

Definition thread_name : M kernel (list Z) :=
  t ← thread_current; th ← rd_thread t; mret (name th).

Definition thread_tid : M kernel Z :=
  t ← thread_current; th ← rd_thread t; mret (tid th).

Definition thread_get_priority : M kernel Z :=
  t ← thread_current; th ← rd_thread t; mret (priority th).

Definition thread_unblock (t : Z) : M kernel unit :=
  b ← is_thread t; assert b;;
  old_level ← intr_disable;
  th ← rd_thread t; assert (bool_decide (status th = THREAD_BLOCKED));;
  rs ← gets ready_list; modify (set_ready_list (rs ++ [t]));;
  wr_thread t (with_status THREAD_READY);;
  intr_set_level old_level;; mret tt.

Definition next_thread_to_run : M kernel Z :=
  rs ← gets ready_list;
  match rs with
  | [] => gets idle_thread
  | _ =>
      next ← list_max_by thread_priority_convert_func rs;
      modify (set_ready_list (list_del next rs));; mret next
  end.

(** [palloc_get_page] and [palloc_free_page] on the kernel pool: a page that
    is free becomes allocated, and conversely. *)
Definition palloc_get_page : M kernel Z :=
  ps ← gets free_pages;
  match ps with
  | [] => mret NULL
  | p :: ps => modify (set_free_pages ps);; mret p
  end.

Definition palloc_free_page (p : Z) : M kernel unit :=
  modify (λ k, set_threads (delete p (threads k)) (set_free_pages (p :: free_pages k) k)).

(** The name is a string, or NULL. *)
Definition init_thread (t : Z) (nm : option (list Z)) (prio : Z) : M kernel unit :=
  assert (bool_decide (t ≠ NULL));;
  assert (bool_decide (PRI_MIN ≤ prio ∧ prio ≤ PRI_MAX));;
  assert (bool_decide (nm ≠ None));;
  modify (λ k, set_threads (<[t := Thread 0 THREAD_BLOCKED (take (THREAD_NAME_LENGTH - 1) (default [] nm))
    (t + PGSIZE) prio prio [] 0 THREAD_MAGIC (NoFrames (running k))]> (threads k)) k);;
  old_level ← intr_disable;
  al ← gets all_list; modify (set_all_list (al ++ [t]));;
  intr_set_level old_level;; mret tt.

Definition alloc_frame (t size : Z) : M kernel Z :=
  b ← is_thread t; assert b;;
  assert (bool_decide (size `mod` 4 = 0));;
  th ← rd_thread t; wr_thread t (with_stack (stack th - size));;
  mret (stack th - size).

(** The second half of a thread switch, run by the thread switched to. *)
Definition thread_schedule_tail (prev : Z) : M kernel unit :=
  cur ← running_thread;
  l ← intr_get_level; assert (negb l);;
  wr_thread cur (with_status THREAD_RUNNING);;
  modify (set_thread_ticks 0);;
  if decide (prev = NULL) then mret tt
  else
    th ← rd_thread prev; ini ← gets initial_thread;
    if decide (status th = THREAD_DYING ∧ prev ≠ ini) then
      assert (bool_decide (prev ≠ cur));; palloc_free_page prev
    else mret tt.

(** The first half of [schedule]: everything before [switch_threads]. *)
Definition schedule_pick : M kernel Z :=
  cur ← running_thread;
  next ← next_thread_to_run;
  l ← intr_get_level; assert (negb l);;
  th ← rd_thread cur; assert (bool_decide (status th ≠ THREAD_RUNNING));;
  b ← is_thread next; assert b;;
  mret next.

(** The loop of [thread_tick] over the sleeping threads. *)
Fixpoint wake_sleepers (current_tick : Z) (ts : list Z) : M kernel unit :=
  match ts with
  | [] => mret tt
  | t :: ts =>
      th ← rd_thread t;
      (if decide (current_tick >= awake_tick th) then
        wr_thread t (with_awake_tick 0);;
        sl ← gets sleep_list; modify (set_sleep_list (list_del t sl));;
        thread_unblock t
      else mret tt);;
      wake_sleepers current_tick ts
  end.

Definition timer_ticks : M kernel Z :=
  old_level ← intr_disable; t ← gets ticks; intr_set_level old_level;; mret t.

Definition timer_elapsed (before : Z) : M kernel Z := t ← timer_ticks; mret (i64 (t - before)).

Definition thread_tick : M kernel unit :=
  l ← intr_get_level; assert (negb l);;
  t ← thread_current; idle ← gets idle_thread;
  (if decide (t = idle) then modify (λ k, set_idle_ticks (i64 (idle_ticks k + 1)) k)
   else modify (λ k, set_kernel_ticks (i64 (kernel_ticks k + 1)) k));;
  current_tick ← timer_ticks;
  sl ← gets sleep_list; wake_sleepers current_tick sl;;
  modify (λ k, set_thread_ticks (u32 (thread_ticks k + 1)) k);;
  tt_ ← gets thread_ticks;
  if decide (tt_ >= TIME_SLICE) then intr_yield_on_return else mret tt.

Definition timer_interrupt : M kernel unit :=
  modify (λ k, set_ticks (i64 (ticks k + 1)) k);; thread_tick.

(** [thread_foreach]: [func] on every thread of [all_list], interrupts off. *)
Fixpoint foreach (func : Z → M kernel unit) (ts : list Z) : M kernel unit :=
  match ts with [] => mret tt | t :: ts => func t;; foreach func ts end.

Definition thread_foreach (func : Z → M kernel unit) : M kernel unit :=
  l ← intr_get_level; assert (negb l);;
  al ← gets all_list; foreach func al.

(** ** threads/synch.c *)

(** The page of records is empty when [palloc_get_page] had no page: the
    pointer is NULL then, which nothing checks. *)
Definition synch_init : M kernel unit :=
  p ← palloc_get_page;
  modify (set_lock_priority_page
    (if decide (p = NULL) then [] else replicate lock_priority_limit zero_lock_priority));;
  modify (set_priority_donation_enabled true).

(** The first record of the page that is not in use; [None] is NULL. *)
Definition get_new_lock_priority : M kernel (option nat) := λ k,
  if decide (lock_priority_page k = []) then Err BadAccess
  else
    match list_find (λ r, in_use r = false) (lock_priority_page k) with
    | Some (i, r) =>
        Ok (Some i, set_lock_priority_page
          (<[i := LockPriority true (waiting r) (lp_lock r) (lp_priority r)]> (lock_priority_page k)) k)
    | None => Ok (None, k)
    end.

Definition sema_nonnull (s : sema_id) : bool :=
  match s with SemaAt a => bool_decide (a ≠ NULL) | LockSema _ | WaiterSema _ => true end.

Definition sema_init (s : sema_id) (v : Z) : M kernel unit :=
  assert (sema_nonnull s);; wr_sema s (Semaphore v []).

Definition sema_try_down (s : sema_id) : M kernel bool :=
  assert (sema_nonnull s);;
  old_level ← intr_disable;
  sm ← rd_sema s;
  success ← (if decide (value sm > 0)
             then wr_sema s (Semaphore (value sm - 1) (waiters sm));; mret true
             else mret false);
  intr_set_level old_level;; mret success.

(** [None] is NULL. *)
Fixpoint find_lock_priority (priority_list : list nat) (lock : Z) : M kernel (option nat) :=
  match priority_list with
  | [] => mret None
  | i :: js =>
      r ← rd_lp i;
      if decide (lp_lock r = lock) then mret (Some i) else find_lock_priority js lock
  end.

(** A use of a pointer to a record of the page. *)
Definition deref (p : option nat) : M kernel nat :=
  match p with Some i => mret i | None => fail BadAccess end.

Definition donate_priority (lock prio : Z) : M kernel bool :=
  holder ← rd_holder lock;
  h ← rd_thread holder;
  holder_lock_priority ← find_lock_priority (lock_priority_list h) lock;
  let donated := bool_decide (prio > priority h) in
  (if donated then wr_thread holder (with_priority prio) else mret tt);;
  i ← deref holder_lock_priority;
  r ← rd_lp i;
  (if decide (prio > lp_priority r)
   then wr_lp i (LockPriority (in_use r) (waiting r) (lp_lock r) prio) else mret tt);;
  mret donated.

(** [donate_priority_recursively]; the recursion is bounded by [fuel]. *)
Fixpoint donate_loop (fuel : nat) (lock prio : Z) : M kernel unit :=
  match fuel with
  | O => fail OutOfFuel
  | S fuel =>
      assert (bool_decide (lock ≠ NULL));;
      holder ← rd_holder lock; assert (bool_decide (holder ≠ NULL));;
      assert (bool_decide (PRI_MIN ≤ prio ∧ prio ≤ PRI_MAX));;
      donated ← donate_priority lock prio;
      if (donated : bool) then
        holder ← rd_holder lock;
        h ← rd_thread holder;
        match lock_priority_list h with
        | [] => fail AssertFailed
        | top :: _ =>
            top_lock_priority ← rd_lp top;
            if waiting top_lock_priority then
              holder' ← rd_holder (lp_lock top_lock_priority);
              if decide (holder' ≠ NULL) then donate_loop fuel (lp_lock top_lock_priority) prio
              else mret tt
            else mret tt
        end
      else mret tt
  end.

Definition donate_priority_recursively (lock prio : Z) : M kernel unit :=
  n ← gets (λ k, S (size (threads k))); donate_loop n lock prio.

Definition lock_init (l : Z) : M kernel unit :=
  assert (bool_decide (l ≠ NULL));; wr_holder l NULL;; sema_init (LockSema l) 1.

Definition lock_held_by_current_thread (l : Z) : M kernel bool :=
  assert (bool_decide (l ≠ NULL));;
  h ← rd_holder l; t ← thread_current; mret (bool_decide (h = t)).

(** [lock_acquire] up to the call of [sema_down]: returns [new_lock_priority],
    which is used only when donation is enabled. *)
Definition lock_acquire_prepare (l : Z) : M kernel (option nat) :=
  assert (bool_decide (l ≠ NULL));;
  c ← intr_context; assert (negb c);;
  b ← lock_held_by_current_thread l; assert (negb b);;
  t ← thread_current;
  e ← gets priority_donation_enabled;
  if (e : bool) then
    p ← get_new_lock_priority; assert (bool_decide (p ≠ None));;
    i ← deref p;
    prio ← thread_get_priority;
    wr_lp i (LockPriority true true l prio);;
    wr_thread t (λ th, with_lock_priority_list (i :: lock_priority_list th) th);;
    h ← rd_holder l;
    (if decide (h ≠ NULL) then
       prio ← thread_get_priority; donate_priority_recursively l prio
     else mret tt);;
    mret (Some i)
  else mret None.

(** [lock_acquire] after [sema_down]. *)
Definition lock_acquire_finish (l t : Z) (p : option nat) : M kernel unit :=
  lv ← intr_get_level; assert (negb lv);;
  wr_holder l t;;
  e ← gets priority_donation_enabled;
  if (e : bool) then
    i ← deref p; r ← rd_lp i;
    wr_lp i (LockPriority (in_use r) false (lp_lock r) (lp_priority r))
  else mret tt.

(** [lock_release] before [sema_up]. *)
Definition lock_release_prepare (l : Z) : M kernel unit :=
  assert (bool_decide (l ≠ NULL));;
  b ← lock_held_by_current_thread l; assert b;;
  t ← thread_current;
  wr_holder l NULL;;
  e ← gets priority_donation_enabled;
  if (e : bool) then
    th ← rd_thread t;
    p ← find_lock_priority (lock_priority_list th) l;
    i ← deref p;
    wr_thread t (with_lock_priority_list (filter (λ j, j ≠ i) (lock_priority_list th)));;
    wr_lp i zero_lock_priority
  else mret tt.

(** The highest priority of the records of a list, [None] for its tail. *)
Fixpoint highest_lock_priority (js : list nat) (best : option Z) : M kernel (option Z) :=
  match js with
  | [] => mret best
  | i :: js =>
      r ← rd_lp i;
      highest_lock_priority js
        (match best with
         | Some b => if b <? lp_priority r then Some (lp_priority r) else Some b
         | None => Some (lp_priority r)
         end)
  end.

(** [lock_release] after [sema_up]: the new effective priority; returns
    whether the thread must yield. *)
Definition lock_release_finish (t : Z) : M kernel bool :=
  old_priority ← thread_get_priority;
  th ← rd_thread t;
  hi ← highest_lock_priority (lock_priority_list th) None;
  let new_priority :=
    match hi with
    | Some h => if decide (h >= original_priority th) then h else original_priority th
    | None => original_priority th
    end in
  wr_thread t (with_priority new_priority);;
  mret (bool_decide (old_priority > new_priority)).

(** [lock_try_acquire]: the three statements that access shared data. *)
Definition lock_try_acquire_check (l : Z) : M kernel unit :=
  assert (bool_decide (l ≠ NULL));;
  b ← lock_held_by_current_thread l; assert (negb b).

Definition lock_set_holder (l : Z) : M kernel unit := t ← thread_current; wr_holder l t.

Definition cond_init (c : Z) : M kernel unit :=
  assert (bool_decide (c ≠ NULL));; wr_cond c [].
