(* ===== verification/KProg.v ===== *)
(** * Kernel code as programs with switch points

    Code that can lose the processor is a [prog]: a tree of atomic actions on
    the kernel state, calls of [switch_threads] and loops.  All values are C
    integers and pointers.  The processor runs one program at a time; the
    programs of the other threads are kept where [switch_threads] left them.
    An interrupt can be taken between two actions when interrupts are on. *)

From S2P Require Import Prelude KList Kernel.

Inductive prog :=
  | Ret (v : Z)
  | Act (f : M kernel Z) (k : Z → prog)
  | Switch (next : Z) (k : Z → prog)      (* prev = switch_threads (cur, next) *)
  | Loop (body : prog) (k : prog).        (* while (body) ; *)

Fixpoint bind (p : prog) (g : Z → prog) : prog :=
  match p with
  | Ret v => g v
  | Act f k => Act f (λ v, bind (k v) g)
  | Switch n k => Switch n (λ v, bind (k v) g)
  | Loop b k => Loop b (bind k g)
  end.

Declare Scope prog_scope.
Delimit Scope prog_scope with prog.
Bind Scope prog_scope with prog.
Notation "x <~ p ; q" := (bind p (λ x, q))
  (at level 100, p at next level, q at level 200, right associativity) : prog_scope.
Notation "p ;~ q" := (bind p (λ _, q))
  (at level 100, q at level 200, right associativity) : prog_scope.
Open Scope prog_scope.

(** Atomic actions as programs, by the type of their result. *)
Definition Z_of_bool (b : bool) : Z := if b then 1 else 0.
Definition is_true_Z (v : Z) : bool := bool_decide (v ≠ 0).

Definition act (f : M kernel Z) : prog := Act f Ret.
Definition act_unit (f : M kernel unit) : prog := Act (f;; mret 0) Ret.
Definition act_bool (f : M kernel bool) : prog := Act (b ← f; mret (Z_of_bool b)) Ret.

(** Pointers to records of the lock_priority page as values: NULL or an
    index. *)
Definition Z_of_ptr (p : option nat) : Z := match p with Some i => Z.of_nat i | None => -1 end.
Definition ptr_of_Z (v : Z) : option nat := if decide (v < 0) then None else Some (Z.to_nat v).
Definition act_ptr (f : M kernel (option nat)) : prog := Act (p ← f; mret (Z_of_ptr p)) Ret.

(** ** threads/thread.c *)

Definition schedule : prog :=
  next <~ act schedule_pick;
  cur <~ act running_thread;
  prev <~ (if decide (cur ≠ next) then Switch next Ret else Ret NULL);
  act_unit (thread_schedule_tail prev).

Definition thread_block : prog :=
  act_unit (
    c ← intr_context; assert (negb c);;
    l ← intr_get_level; assert (negb l);;
    t ← thread_current; wr_thread t (with_status THREAD_BLOCKED));~
  schedule.

Definition thread_yield : prog :=
  cur <~ act thread_current;
  old_level <~ act_bool (c ← intr_context; assert (negb c);; intr_disable);
  act_unit (
    idle ← gets idle_thread;
    (if decide (cur ≠ idle) then
       rs ← gets ready_list; modify (set_ready_list (rs ++ [cur]))
     else mret tt);;
    wr_thread cur (with_status THREAD_READY));~
  schedule;~
  act_bool (intr_set_level (is_true_Z old_level)).

(** [NOT_REACHED]. *)
Definition not_reached : prog := act (fail Panicked).

Definition thread_exit (exit_status : Z) : prog :=
  act_unit (c ← intr_context; assert (negb c));~
  act_bool intr_disable;~
  act_unit (
    t ← thread_current;
    al ← gets all_list; modify (set_all_list (list_del t al));;
    wr_thread t (with_status THREAD_DYING));~
  schedule;~
  not_reached.

Definition thread_sleep : prog :=
  act_unit (t ← thread_current; sl ← gets sleep_list; modify (set_sleep_list (sl ++ [t])));~
  thread_block.

Definition thread_set_priority (new_priority : Z) : prog :=
  act_unit (t ← thread_current; wr_thread t (with_original_priority new_priority));~
  old_priority <~ act thread_get_priority;
  act_unit (
    t ← thread_current; th ← rd_thread t;
    if decide (old_priority ≤ new_priority ∨ lock_priority_list th = []) then
      wr_thread t (with_priority new_priority)
    else mret tt);~
  if decide (old_priority > new_priority) then thread_yield else Ret 0.

(** ** threads/synch.c *)

Definition sema_down (s : sema_id) : prog :=
  old_level <~ act_bool (
    assert (sema_nonnull s);; c ← intr_context; assert (negb c);; intr_disable);
  Loop (
    empty <~ act_bool (sm ← rd_sema s; mret (bool_decide (value sm = 0)));
    if is_true_Z empty then
      act_unit (
        sm ← rd_sema s; t ← thread_current;
        wr_sema s (Semaphore (value sm) (waiters sm ++ [t])));~
      thread_block;~
      Ret 1
    else Ret 0) (
  act_unit (sm ← rd_sema s; wr_sema s (Semaphore (u32 (value sm - 1)) (waiters sm)));~
  act_bool (intr_set_level (is_true_Z old_level))).

(** The body of [sema_up] between disabling and restoring interrupts, up to
    the call of [thread_yield]; returns whether to yield. *)
Definition sema_up_wake (s : sema_id) : M kernel bool :=
  sm ← rd_sema s;
  match waiters sm with
  | [] => wr_sema s (Semaphore (u32 (value sm + 1)) []);; mret false
  | ws =>
      wr_sema s (Semaphore (u32 (value sm + 1)) ws);;
      t ← list_max_by thread_priority_convert_func ws;
      wr_sema s (Semaphore (u32 (value sm + 1)) (list_del t ws));;
      thread_unblock t;;
      e ← gets priority_donation_enabled;
      if (e : bool) then
        th ← rd_thread t; prio ← thread_get_priority;
        mret (bool_decide (priority th > prio))
      else mret false
  end.

Definition sema_up (s : sema_id) : prog :=
  old_level <~ act_bool (assert (sema_nonnull s);; intr_disable);
  y <~ act_bool (sema_up_wake s);
  (if is_true_Z y then thread_yield else Ret 0);~
  act_bool (intr_set_level (is_true_Z old_level)).

Definition lock_acquire (l : Z) : prog :=
  old_level <~ act_bool intr_disable;
  new_lock_priority <~ act_ptr (lock_acquire_prepare l);
  t <~ act running_thread;
  sema_down (LockSema l);~
  act_unit (lock_acquire_finish l t (ptr_of_Z new_lock_priority));~
  act_bool (intr_set_level (is_true_Z old_level)).

Definition lock_try_acquire (l : Z) : prog :=
  act_unit (lock_try_acquire_check l);~
  success <~ act_bool (sema_try_down (LockSema l));
  (if is_true_Z success then act_unit (lock_set_holder l) else Ret 0);~
  Ret success.

Definition lock_release (l : Z) : prog :=
  old_level <~ act_bool intr_disable;
  act_unit (lock_release_prepare l);~
  t <~ act running_thread;
  sema_up (LockSema l);~
  e <~ act_bool (gets priority_donation_enabled);
  (if is_true_Z e then
     y <~ act_bool (lock_release_finish t);
     if is_true_Z y then thread_yield else Ret 0
   else Ret 0);~
  act_bool (intr_set_level (is_true_Z old_level)).

(** [cond_wait] up to the call of [lock_release]. *)
Definition cond_wait_prepare (c l : Z) : M kernel unit :=
  assert (bool_decide (c ≠ NULL));; assert (bool_decide (l ≠ NULL));;
  ctx ← intr_context; assert (negb ctx);;
  b ← lock_held_by_current_thread l; assert b;;
  t ← thread_current;
  sema_init (WaiterSema t) 0;;
  ws ← rd_cond c; wr_cond c (ws ++ [t]).

(** The waiter goes out of scope when [cond_wait] returns. *)
Definition waiter_end (t : Z) : M kernel unit :=
  modify (λ k, set_semas (delete (WaiterSema t) (semas k)) k).

Definition cond_wait (c l : Z) : prog :=
  old_level <~ act_bool intr_disable;
  act_unit (cond_wait_prepare c l);~
  t <~ act running_thread;
  lock_release l;~
  sema_down (WaiterSema t);~
  lock_acquire l;~
  act_unit (waiter_end t);~
  act_bool (intr_set_level (is_true_Z old_level)).

(** [cond_signal] up to the call of [sema_up]: the waiter to wake, NULL when
    there is none. *)
Definition cond_signal_pick (c l : Z) : M kernel Z :=
  assert (bool_decide (c ≠ NULL));; assert (bool_decide (l ≠ NULL));;
  ctx ← intr_context; assert (negb ctx);;
  b ← lock_held_by_current_thread l; assert b;;
  ws ← rd_cond c;
  match ws with
  | [] => mret NULL
  | _ =>
      w ← list_max_by thread_priority_convert_func ws;
      wr_cond c (list_del w ws);; mret w
  end.

Definition cond_signal (c l : Z) : prog :=
  old_level <~ act_bool intr_disable;
  w <~ act (cond_signal_pick c l);
  (if decide (w ≠ NULL) then sema_up (WaiterSema w) else Ret 0);~
  act_bool (intr_set_level (is_true_Z old_level)).

Definition cond_broadcast (c l : Z) : prog :=
  act_unit (assert (bool_decide (c ≠ NULL));; assert (bool_decide (l ≠ NULL)));~
  Loop (
    more <~ act_bool (ws ← rd_cond c; mret (bool_decide (ws ≠ [])));
    if is_true_Z more then cond_signal c l;~ Ret 1 else Ret 0) (
  Ret 0).

(** ** Creating threads *)

(** The address of [tid_lock], any lock of its own. *)
Definition tid_lock : Z := 8.

Definition allocate_tid : prog :=
  lock_acquire tid_lock;~
  tid <~ act (t ← gets next_tid; modify (set_next_tid (i32 (t + 1)));; mret t);
  lock_release tid_lock;~
  Ret tid.

(** The frames of [kernel_thread], [switch_entry] and [switch_threads]. *)
Definition thread_create_frames (t function aux : Z) : M kernel unit :=
  alloc_frame t 12;;
  cur ← running_thread;
  wr_thread t (with_frames (EntryFrames cur (KernelThreadFrame function aux)));;
  alloc_frame t 4;; alloc_frame t 28;; mret tt.

(** The page is private to the caller until [init_thread] puts the new thread
    on [all_list], so the two calls are one action. *)
Definition thread_create (nm : option (list Z)) (prio function aux : Z) : prog :=
  t <~ act (
    assert (bool_decide (function ≠ NULL));;
    t ← palloc_get_page;
    if decide (t = NULL) then mret NULL else init_thread t nm prio;; mret t);
  if decide (t = NULL) then Ret TID_ERROR
  else
    tid <~ allocate_tid;
    act_unit (wr_thread t (with_tid tid));~
    act_unit (thread_create_frames t function aux);~
    act_unit (thread_unblock t);~
    cur_priority <~ act thread_get_priority;
    (if decide (prio > cur_priority) then thread_yield else Ret 0);~
    Ret tid.

Definition thread_init : prog :=
  act_unit (
    l ← intr_get_level; assert (negb l);;
    lock_init tid_lock;;
    modify (set_ready_list []);; modify (set_all_list []);; modify (set_sleep_list []);;
    t ← running_thread;
    modify (set_initial_thread t);;
    init_thread t (Some [109; 97; 105; 110]) PRI_DEFAULT;;
    wr_thread t (with_status THREAD_RUNNING));~
  tid <~ allocate_tid;
  act_unit (t ← gets initial_thread; wr_thread t (with_tid tid)).

(** The thread function [idle], its address, and [idle_started]. *)
Definition idle_function : Z := 4.
Definition idle_started : sema_id := SemaAt 12.

Definition idle_body : prog :=
  act_bool intr_disable;~
  thread_block;~
  act_unit (modify (set_intr_on true));~       (* sti; hlt *)
  Ret 1.

Definition idle : prog :=
  act_unit (t ← thread_current; modify (set_idle_thread t));~
  sema_up idle_started;~
  Loop idle_body (Ret 0).

Definition thread_start : prog :=
  act_unit (sema_init idle_started 0);~
  thread_create (Some [105; 100; 108; 101]) PRI_MIN idle_function 12;~
  act_bool intr_enable;~
  sema_down idle_started.

(** ** devices/timer.c *)

Definition timer_sleep (n : Z) : prog :=
  if decide (n ≤ 0) then Ret 0
  else
    prev_level <~ act_bool intr_disable;
    act_unit (
      t ← thread_current; now ← timer_ticks; wr_thread t (with_awake_tick (i64 (now + n))));~
    thread_sleep;~
    act_bool (intr_set_level (is_true_Z prev_level)).

Definition TIMER_FREQ : Z := 100.

(** ** threads/interrupt.c: an external interrupt *)

(** [intr_handler] for the vector of the timer, entered by an interrupt gate,
    and the return from the interrupt. *)
Definition timer_intr : prog :=
  act_unit (
    modify (set_intr_on false);;
    l ← intr_get_level; assert (negb l);;
    c ← intr_context; assert (negb c);;
    modify (set_in_external_intr true);; modify (set_yield_on_return false));~
  act_unit timer_interrupt;~
  yield <~ act_bool (
    l ← intr_get_level; assert (negb l);;
    c ← intr_context; assert c;;
    modify (set_in_external_intr false);;
    gets yield_on_return);
  (if is_true_Z yield then thread_yield else Ret 0);~
  act_unit (modify (set_intr_on true)).

(** ** The processor *)

Section machine.
  (** The thread functions of the rest of the kernel, by address. *)
  Context (code : Z → Z → prog).

(** What a thread runs when it is first switched to: [switch_entry] calls
    [thread_schedule_tail] and returns into [kernel_thread]. *)
Definition kernel_thread (function aux : Z) : prog :=
  act_unit (assert (bool_decide (function ≠ NULL)));~
  act_bool intr_enable;~
  (if decide (function = idle_function) then idle else code function aux);~
  thread_exit 0.

Definition switch_entry (f : kernel_thread_frame) (prev : Z) : prog :=
  act_unit (thread_schedule_tail prev);~
  kernel_thread (kf_function f) (kf_aux f).

Record machine := Machine {
  mk : kernel;
  current : prog;                       (* what the running thread does next *)
  saved : gmap Z (Z → prog)             (* where switch_threads left a thread *)
}.

Inductive outcome := Next (m : machine) | Halted (e : error) | Finished.

(** One step of the running thread. *)
Definition step (m : machine) : outcome :=
  match current m with
  | Ret _ => Finished
  | Act f k =>
      match f (mk m) with
      | Ok (v, k') => Next (Machine k' (k v) (saved m))
      | Err e => Halted e
      end
  | Loop b k => Next (Machine (mk m) (v <~ b; if is_true_Z v then Loop b k else k) (saved m))
  | Switch n k =>
      let cur := running (mk m) in
      let saved' := <[cur := k]> (saved m) in
      let k' := map_thread cur (with_frames Switched) (mk m) in
      match threads k' !! n with
      | None => Halted BadAccess
      | Some th =>
          match frames th with
          | NoFrames _ => Halted BadAccess
          | EntryFrames _ f =>
              Next (Machine (set_running n (map_thread n (with_frames Switched) k'))
                     (switch_entry f cur) saved')
          | Switched =>
              match saved' !! n with
              | Some kn => Next (Machine (set_running n k') (kn cur) saved')
              | None => Halted BadAccess
              end
          end
      end
  end.

(** The timer interrupts the running thread. *)
Definition interrupt (m : machine) : machine :=
  Machine (mk m) (timer_intr;~ current m) (saved m).

Inductive mstep : machine → outcome → Prop :=
  | mstep_thread m : mstep m (step m)
  | mstep_intr m : intr_on (mk m) = true → mstep m (Next (interrupt m)).

Inductive reach : machine → outcome → Prop :=
  | reach_refl m : reach m (Next m)
  | reach_step m m' o : reach m (Next m') → mstep m' o → reach m o.

(** [n] steps without interrupts. *)
Fixpoint run (n : nat) (m : machine) : outcome :=
  match n with
  | O => Next m
  | S n => match step m with Next m' => run n m' | o => o end
  end.
End machine.
