(* ===== verification/KLogic.v ===== *)
(** * Reasoning about kernel programs

    The invariant [inv] that holds whenever interrupts are on and whenever
    the processor is switched; the relation [rely] between two such states
    that a suspended thread can count on; weakest preconditions [wp] of
    programs against the two; and their soundness: a machine all of whose
    programs have a weakest precondition never makes a bad access, and
    satisfies the invariant whenever interrupts are on. *)

From S2P Require Import Prelude KList Kernel KProg.

(** ** Views of the state *)

Abbreviation tmap := (gmap Z thread) (only parsing).
Abbreviation smap := (gmap sema_id semaphore) (only parsing).
Abbreviation cmap := (gmap Z (list Z)) (only parsing).

Definition st (ths : tmap) (t : Z) : option thread_status := status <$> ths !! t.
Definition lpl (ths : tmap) (t : Z) : list nat := default [] (lock_priority_list <$> ths !! t).
Definition live (ths : tmap) (t : Z) : Prop := ∃ s, st ths t = Some s ∧ s ≠ THREAD_DYING.
Definition started (ths : tmap) (t : Z) : Prop :=
  ∃ th, ths !! t = Some th ∧ status th ≠ THREAD_DYING ∧ frames th = Switched.
Definition started_or_dying (ths : tmap) (t : Z) : Prop :=
  ∃ th, ths !! t = Some th ∧ frames th = Switched.
Definition waits (ss : smap) (t : Z) (s : sema_id) : Prop :=
  ∃ sm, ss !! s = Some sm ∧ t ∈ waiters sm.
Definition in_cond (cs : cmap) (t c : Z) : Prop := ∃ ws, cs !! c = Some ws ∧ t ∈ ws.

(** Thread [u], being built by thread [t] in [thread_create]. *)
Definition nascent (ths : tmap) (t u : Z) (fr : stack_frames) : Prop :=
  ∃ th, ths !! u = Some th ∧ status th = THREAD_BLOCKED ∧ frames th = fr ∧
    match fr with NoFrames c | EntryFrames c _ => c = t | Switched => False end.

(** The thread that is creating a thread. *)
Definition creator (fr : stack_frames) : option Z :=
  match fr with NoFrames c | EntryFrames c _ => Some c | Switched => None end.

(** A priority in range. *)
Definition pri_ok (p : Z) : Prop := PRI_MIN ≤ p ∧ p ≤ PRI_MAX.

(** Record [i] of the page is that of a lock [l], being waited for or held. *)
Definition lp_is (page : list lock_priority) (i : nat) (w : bool) (l : Z) : Prop :=
  ∃ p, page !! i = Some (LockPriority true w l p) ∧ pri_ok p.

(** No record of the page is free. *)
Definition records_full (k : kernel) : Prop :=
  lock_priority_page k ≠ [] ∧ Forall (λ r, in_use r = true) (lock_priority_page k).

(** ** The invariant *)

(** A thread runs; or the running thread has given up the processor; or
    [schedule] has picked the next thread, which is on no list, and the switch
    is not complete. *)
Inductive mode := Runs | Leaves | Picked (n : Z).

(** The run queue and the running thread. *)
Record sched_inv (pk : mode) (ths : tmap) (run : Z) (rl sl al : list Z) (idle : Z)
    (pages : list Z) : Prop := {
  si_running : match pk with
    | Runs => st ths run = Some THREAD_RUNNING ∧ ∀ t, st ths t = Some THREAD_RUNNING → t = run
    | Leaves => ∀ t, st ths t ≠ Some THREAD_RUNNING
    | Picked n => (∀ t, st ths t ≠ Some THREAD_RUNNING) ∧
                (st ths n = Some THREAD_READY ∨ n = idle ∧ st ths n = Some THREAD_BLOCKED)
    end;
  si_ready_nodup : NoDup rl;
  si_ready t : t ∈ rl ↔ st ths t = Some THREAD_READY ∧ t ≠ idle ∧ pk ≠ Picked t;
  si_sleep_nodup : NoDup sl;
  si_sleep t : t ∈ sl →
    st ths t = Some THREAD_BLOCKED ∧ started ths t ∧ t ≠ idle ∧ pk ≠ Picked t;
  si_all_nodup : NoDup al;
  si_all t : t ∈ al ↔ live ths t;
  si_idle : live ths idle ∧ lpl ths idle = [];
  si_threads t th : ths !! t = Some th →
    t ≠ NULL ∧ magic th = THREAD_MAGIC ∧ pri_ok (priority th) ∧ pri_ok (original_priority th);
  si_new t th : ths !! t = Some th → frames th ≠ Switched →
    lock_priority_list th = [] ∧ t ≠ idle ∧
    match frames th with
    | EntryFrames _ f =>
        (status th = THREAD_BLOCKED ∨ status th = THREAD_READY) ∧ kf_function f ≠ idle_function ∧
        kf_function f ≠ NULL
    | _ => status th = THREAD_BLOCKED
    end;
  si_dying t : st ths t = Some THREAD_DYING → lpl ths t = [];
  si_pages_nodup : NoDup pages;
  si_pages t : t ∈ pages → t ≠ NULL ∧ ths !! t = None
}.

(** Semaphores: a thread waits for at most one, and only while blocked. *)
Record sema_inv (pk : mode) (ths : tmap) (ss : smap) (sl : list Z) (idle : Z) : Prop := {
  se_value s sm : ss !! s = Some sm → 0 ≤ value sm < 2 ^ 32;
  se_nodup s sm : ss !! s = Some sm → NoDup (waiters sm);
  se_waits t s : waits ss t s →
    st ths t = Some THREAD_BLOCKED ∧ started ths t ∧ t ≠ idle ∧ t ∉ sl ∧ pk ≠ Picked t;
  se_unique t s s' : waits ss t s → waits ss t s' → s = s';
  se_waiter t u : waits ss u (WaiterSema t) → u = t
}.

(** Locks: a lock that is held is down, and its semaphore counts to one. *)
Record lock_inv (hs : gmap Z Z) (ss : smap) : Prop := {
  lo_sema l : is_Some (hs !! l) ↔ is_Some (ss !! LockSema l);
  lo_null : hs !! NULL = None;
  lo_value l sm : ss !! LockSema l = Some sm → value sm ≤ 1;
  lo_held l t sm : hs !! l = Some t → t ≠ NULL → ss !! LockSema l = Some sm → value sm = 0
}.

(** The lock_priority records of a thread: one for each lock it holds, and
    at the front one for the lock it is waiting for, if any. *)
Record lp_inv (ths : tmap) (hs : gmap Z Z) (page : list lock_priority) : Prop := {
  lp_nodup t : NoDup (lpl ths t);
  lp_record t i : i ∈ lpl ths t → ∃ w l, lp_is page i w l ∧ is_Some (hs !! l);
  lp_disjoint t u i : i ∈ lpl ths t → i ∈ lpl ths u → t = u;
  lp_distinct t i j w v l :
    i ∈ lpl ths t → j ∈ lpl ths t → lp_is page i w l → lp_is page j v l → i = j;
  lp_waiting t i l : i ∈ lpl ths t → lp_is page i true l → head (lpl ths t) = Some i;
  lp_holds t l : t ≠ NULL → (hs !! l = Some t ↔ ∃ i, i ∈ lpl ths t ∧ lp_is page i false l);
  lp_page : page ≠ []
}.

(** Condition variables: a thread waits on at most one, its semaphore exists
    and has not been raised. *)
Record cond_inv (ths : tmap) (cs : cmap) (ss : smap) : Prop := {
  co_nodup c ws : cs !! c = Some ws → NoDup ws;
  co_unique t c c' : in_cond cs t c → in_cond cs t c' → c = c';
  co_waits t c : in_cond cs t c →
    started ths t ∧ ∃ sm, ss !! WaiterSema t = Some sm ∧ value sm = 0
}.

(** What threads do: a critical section is that of the holder of the lock, and
    a blocked thread sleeps, waits, or is being created. *)
Record client_inv (ths : tmap) (hs : gmap Z Z) (ss : smap) (sl : list Z) (idle : Z) (secs : gset (Z * Z))
    (crs : gset Z) : Prop := {
  cl_holds l t : (l, t) ∈ secs → hs !! l = Some t ∧ t ≠ NULL;
  cl_creating t : t ∈ crs → started ths t;
  cl_blocked t th : ths !! t = Some th → status th = THREAD_BLOCKED →
    t = idle ∨ t ∈ sl ∨ (∃ s, waits ss t s) ∨ ∃ c, creator (frames th) = Some c ∧ c ∈ crs
}.

Record inv (pk : mode) (k : kernel) : Prop := {
  inv_sched : sched_inv pk (threads k) (running k) (ready_list k) (sleep_list k) (all_list k)
    (idle_thread k) (free_pages k);
  inv_sema : sema_inv pk (threads k) (semas k) (sleep_list k) (idle_thread k);
  inv_lock : lock_inv (holders k) (semas k);
  inv_lp : lp_inv (threads k) (holders k) (lock_priority_page k);
  inv_cond : cond_inv (threads k) (conds k) (semas k);
  inv_donation : priority_donation_enabled k = true;
  inv_ctx : in_external_intr k = false;
  inv_client : client_inv (threads k) (holders k) (semas k) (sleep_list k) (idle_thread k) (sections k)
    (creating k)
}.

(** ** What a thread relies on while others run *)

(** Things that exist keep existing, and the boot-time variables are fixed. *)
Record grows (k k' : kernel) : Prop := {
  gr_sema a : is_Some (semas k !! SemaAt a) → is_Some (semas k' !! SemaAt a);
  gr_lock l : is_Some (holders k !! l) → is_Some (holders k' !! l);
  gr_cond c : is_Some (conds k !! c) → is_Some (conds k' !! c);
  gr_idle : idle_thread k' = idle_thread k;
  gr_initial : initial_thread k' = initial_thread k
}.

(** The locks a live thread holds and waits for stay the same, nobody makes
    it wait on a condition variable, touches a thread it builds, or changes its
    critical sections. *)
Record keeps (t : Z) (k k' : kernel) : Prop := {
  ke_live : live (threads k') t;
  ke_started : started (threads k) t → started (threads k') t;
  ke_lpl : lpl (threads k') t = lpl (threads k) t;
  ke_records i w l : i ∈ lpl (threads k) t →
    lp_is (lock_priority_page k) i w l → lp_is (lock_priority_page k') i w l;
  ke_holds l : holders k' !! l = Some t ↔ holders k !! l = Some t;
  ke_cond c : in_cond (conds k') t c → in_cond (conds k) t c;
  ke_waiter : is_Some (semas k' !! WaiterSema t) ↔ is_Some (semas k !! WaiterSema t);
  ke_nascent u fr : nascent (threads k') t u fr ↔ nascent (threads k) t u fr;
  ke_sections l : (l, t) ∈ sections k' ↔ (l, t) ∈ sections k;
  ke_creating : t ∈ creating k' ↔ t ∈ creating k
}.

Record rely (t : Z) (k k' : kernel) : Prop := {
  re_grows : grows k k';
  re_keeps : live (threads k) t → keeps t k k';
  re_old : started (threads k') t → started (threads k) t
}.

(** What the running thread guarantees to the others. *)
Definition guar (k k' : kernel) : Prop := ∀ t, t ≠ running k' → rely t k k'.

(** ** Weakest preconditions *)

(** With interrupts on, other threads may run: the invariant must hold, the
    changes since [k0] must be allowed, and [P] must survive them. *)
Definition stable (P : kernel → kernel → Prop) (k0 k : kernel) : Prop :=
  inv Runs k ∧ guar k0 k ∧
  ∀ k', inv Runs k' → intr_on k' = true → running k' = running k →
    rely (running k) k k' → P k' k'.

Definition settle (P : kernel → kernel → Prop) (k0 k : kernel) : Prop :=
  if intr_on k then stable P k0 k else P k0 k.

(** [k0] is the last state other threads have seen, [k] the current one. *)
Fixpoint wp (p : prog) (Q : Z → kernel → kernel → Prop) (k0 k : kernel) : Prop :=
  match p with
  | Ret v => Q v k0 k
  | Act f c =>
      match f k with
      | Ok (v, k') => running k' = running k ∧ settle (wp (c v) Q) k0 k'
      | Err e => e = AssertFailed ∧ records_full k
      end
  | Switch n c =>
      intr_on k = false ∧ inv (Picked n) k ∧ n ≠ running k ∧ guar k0 k ∧
      started_or_dying (threads k) (running k) ∧
      (live (threads k) (running k) → ∀ prev k', inv (Picked (running k)) k' → running k' = running k →
        intr_on k' = false → is_Some (threads k' !! prev) → rely (running k) k k' →
        wp (c prev) Q k' k')
  | Loop b c =>
      ∃ I : kernel → kernel → Prop, I k0 k ∧
        ∀ k1 k2, I k1 k2 →
          wp b (λ v k1' k2', if is_true_Z v then I k1' k2' else wp c Q k1' k2') k1 k2
  end.

Lemma settle_mono (P P' : kernel → kernel → Prop) k0 k :
  (∀ a b, P a b → P' a b) → settle P k0 k → settle P' k0 k.
Proof. unfold settle, stable. intros HP. destruct (intr_on k); naive_solver. Qed.

Lemma wp_mono p (Q Q' : Z → kernel → kernel → Prop) k0 k :
  (∀ v a b, Q v a b → Q' v a b) → wp p Q k0 k → wp p Q' k0 k.
Proof.
  revert Q Q' k0 k. induction p as [v|f c IH|n c IH|b IHb c IHc]; intros Q Q' k0 k HQ; simpl.
  - apply HQ.
  - destruct (f k) as [[v k']|e]; [|done]. intros [Hr Hs]. split; [done|].
    eapply settle_mono, Hs. intros a b'. by apply IH.
  - intros (?&?&?&?&?&H). split_and!; try done. intros Hl prev k' ?????. eapply IH; [done|eauto].
  - intros (I & HI & Hb). exists I. split; [done|]. intros k1 k2 H12.
    eapply IHb; [|by apply Hb]. intros v a b'. simpl. destruct (is_true_Z v); [done|by apply IHc].
Qed.

Lemma wp_bind p g Q k0 k :
  wp p (λ v, wp (g v) Q) k0 k → wp (bind p g) Q k0 k.
Proof.
  revert k0 k. induction p as [v|f c IH|n c IH|b IHb c IHc]; intros k0 k; simpl.
  - done.
  - destruct (f k) as [[v k']|e]; [|done]. intros [Hr Hs]. split; [done|].
    eapply settle_mono, Hs. intros a b'. apply IH.
  - intros (?&?&?&?&?&H). split_and!; try done. intros Hl prev k' ?????. apply IH. eauto.
  - intros (I & HI & Hb). exists I. split; [done|]. intros k1 k2 H12.
    eapply wp_mono; [|by apply Hb]. intros v a b'. simpl. destruct (is_true_Z v); [done|apply IHc].
Qed.

(** A loop is unrolled once. *)
Lemma wp_loop b c Q k0 k :
  wp (Loop b c) Q k0 k →
  wp b (λ v k1 k2, if is_true_Z v then wp (Loop b c) Q k1 k2 else wp c Q k1 k2) k0 k.
Proof.
  intros (I & HI & Hb). eapply wp_mono; [|by apply Hb]. intros v k1 k2. simpl.
  destruct (is_true_Z v); [|done]. intros H12. exists I. done.
Qed.

#[global] Arguments wp : simpl never.
#[global] Arguments bind : simpl never.

Lemma wp_act f c Q k0 k :
  wp (Act f c) Q k0 k =
  match f k with
  | Ok (v, k') => running k' = running k ∧ settle (wp (c v) Q) k0 k'
  | Err e => e = AssertFailed ∧ records_full k
  end.
Proof. done. Qed.

Lemma wp_switch n c Q k0 k :
  wp (Switch n c) Q k0 k =
  (intr_on k = false ∧ inv (Picked n) k ∧ n ≠ running k ∧ guar k0 k ∧
   started_or_dying (threads k) (running k) ∧
   (live (threads k) (running k) → ∀ prev k', inv (Picked (running k)) k' →
     running k' = running k → intr_on k' = false → is_Some (threads k' !! prev) →
     rely (running k) k k' → wp (c prev) Q k' k')).
Proof. done. Qed.

(** ** Rely is a preorder *)

Lemma grows_refl k : grows k k.
Proof. by split. Qed.
Lemma grows_trans k1 k2 k3 : grows k1 k2 → grows k2 k3 → grows k1 k3.
Proof. intros [] []. split; auto; congruence. Qed.

Lemma keeps_refl t k : live (threads k) t → keeps t k k.
Proof. by split. Qed.
Lemma keeps_trans t k1 k2 k3 : keeps t k1 k2 → keeps t k2 k3 → keeps t k1 k3.
Proof.
  intros [L1 S1 P1 R1 H1 C1 W1 N1 X1 Y1] [L2 S2 P2 R2 H2 C2 W2 N2 X2 Y2]. split; auto; try congruence.
  - intros i w l Hi Hl. apply R2; [by rewrite P1|auto].
  - intros l. by rewrite H2, H1.
  - by rewrite W2, W1.
  - intros u fr. by rewrite N2, N1.
  - intros l. by rewrite X2, X1.
  - by rewrite Y2, Y1.
Qed.

Lemma rely_refl t k : rely t k k.
Proof. split; [apply grows_refl|apply keeps_refl|done]. Qed.
Lemma rely_trans t k1 k2 k3 : rely t k1 k2 → rely t k2 k3 → rely t k1 k3.
Proof.
  intros [G1 K1 O1] [G2 K2 O2]. split; [by eapply grows_trans| |auto].
  intros Hl. eapply keeps_trans; [by apply K1|]. apply K2. by apply K1.
Qed.

#[export] Instance rely_preorder t : PreOrder (rely t).
Proof. split; [intros k; apply rely_refl|intros ???; apply rely_trans]. Qed.

Lemma guar_refl k : guar k k.
Proof. intros t _. apply rely_refl. Qed.
Lemma guar_trans k1 k2 k3 : running k3 = running k2 → guar k1 k2 → guar k2 k3 → guar k1 k3.
Proof. intros Hr G1 G2 t Ht. eapply rely_trans; [apply G1; congruence|by apply G2]. Qed.

(** ** Updates of one thread *)

Lemma st_alter ths n f t :
  (∀ th, status (f th) = status th) → st (alter f n ths) t = st ths t.
Proof.
  intros Hf. unfold st. destruct (decide (t = n)) as [->|].
  - rewrite lookup_alter_eq. destruct (ths !! n); simpl; by rewrite ?Hf.
  - by rewrite lookup_alter_ne by done.
Qed.

Lemma lpl_alter ths n f t :
  (∀ th, lock_priority_list (f th) = lock_priority_list th) → lpl (alter f n ths) t = lpl ths t.
Proof.
  intros Hf. unfold lpl. destruct (decide (t = n)) as [->|].
  - rewrite lookup_alter_eq. destruct (ths !! n); simpl; by rewrite ?Hf.
  - by rewrite lookup_alter_ne by done.
Qed.

Lemma lookup_alter_inv (ths : tmap) n f t th :
  alter f n ths !! t = Some th →
  (t = n ∧ ∃ th0, ths !! n = Some th0 ∧ th = f th0) ∨ (t ≠ n ∧ ths !! t = Some th).
Proof.
  destruct (decide (t = n)) as [->|].
  - rewrite lookup_alter_eq. destruct (ths !! n); naive_solver.
  - rewrite lookup_alter_ne by done. naive_solver.
Qed.

Lemma live_alter ths n f t :
  (∀ th, status (f th) = status th) → live (alter f n ths) t ↔ live ths t.
Proof. intros Hf. unfold live. by setoid_rewrite st_alter. Qed.

Lemma started_alter_ne ths n f t : t ≠ n → started (alter f n ths) t ↔ started ths t.
Proof. intros. unfold started. by rewrite lookup_alter_ne. Qed.

Lemma started_alter ths n f t :
  (∀ th, status (f th) = status th) → (∀ th, frames th = Switched → frames (f th) = Switched) →
  started ths t → started (alter f n ths) t.
Proof.
  intros Hs Hk (th & Ht & Hd & Hn). unfold started. destruct (decide (t = n)) as [->|].
  - rewrite lookup_alter_eq, Ht. simpl. exists (f th). rewrite Hs. auto.
  - rewrite lookup_alter_ne by done. eauto.
Qed.

(** An update that leaves status and lock records alone, and starts the
    thread at most. *)
Record quiet (f : thread → thread) : Prop := {
  qu_status th : status (f th) = status th;
  qu_lpl th : lock_priority_list (f th) = lock_priority_list th;
  qu_magic th : magic (f th) = magic th;
  qu_priority th : pri_ok (priority th) → pri_ok (original_priority th) →
    pri_ok (priority (f th)) ∧ pri_ok (original_priority (f th));
  qu_frames th : frames (f th) = frames th ∨ frames (f th) = Switched
}.

Lemma inv_alter pk k n f :
  quiet f → (∀ th, threads k !! n = Some th → status th = THREAD_BLOCKED → frames (f th) = frames th) →
  inv pk k → inv pk (map_thread n f k).
Proof.
  intros [Qs Ql Qm Qp Qk] Hfr [Hs He Hl Hr Hc Hd Hx Hcl].
  assert (∀ t, st (alter f n (threads k)) t = st (threads k) t) as Est by (intros; by apply st_alter).
  assert (∀ t, lpl (alter f n (threads k)) t = lpl (threads k) t) as Elp by (intros; by apply lpl_alter).
  assert (∀ t, live (alter f n (threads k)) t ↔ live (threads k) t) as Eli by (intros; by apply live_alter).
  assert (∀ t, started (threads k) t → started (alter f n (threads k)) t) as Ess.
  { intros t. apply started_alter; auto. intros th E. destruct (Qk th); congruence. }
  split; try done; simpl.
  - destruct Hs. split; try done; setoid_rewrite Est || setoid_rewrite Eli || idtac; try done.
    + destruct pk; by setoid_rewrite Est.
    + intros t Ht. destruct (si_sleep0 t Ht) as (?&?&?&?). rewrite ?Est. auto.
    + by rewrite Elp.
    + intros t th [(-> & th0 & E & ->)|(? & E)]%lookup_alter_inv; [|by eapply si_threads0].
      rewrite Qm. destruct (si_threads0 _ _ E) as (? & ? & ? & ?). split_and!; try done; by apply Qp.
    + intros t th [(-> & th0 & E & ->)|(? & E)]%lookup_alter_inv Hk; [|by eapply si_new0].
      rewrite Qs, Ql. destruct (Qk th0) as [Ek|Ek]; [|by rewrite Ek in Hk].
      rewrite Ek in Hk |- *. by eapply si_new0.
    + intros t. rewrite ?Est, Elp. apply si_dying0.
    + intros t Ht. destruct (si_pages0 t Ht) as [? Hn]. split; [done|].
      by apply lookup_alter_None.
  - destruct He. split; try done. intros t s Hw. destruct (se_waits0 t s Hw) as (?&?&?&?&?).
    rewrite ?Est. auto.
  - destruct Hr. split; try done; setoid_rewrite Elp; done.
  - destruct Hc. split; try done. intros t c Ht. destruct (co_waits0 t c Ht) as [? ?].
    auto.
  - destruct Hcl as [C1 C2 C3]. split; [done|auto|].
    intros t th [(-> & th0 & E & ->)|(? & E)]%lookup_alter_inv; [|by apply C3].
    rewrite Qs. intros Hb. rewrite (Hfr th0 E Hb). by apply C3.
Qed.

(** An update of a thread that neither starts nor ends its creation. *)
Definition same_nascent (f : thread → thread) (th : thread) : Prop :=
  (status th = THREAD_BLOCKED → frames th ≠ Switched → status (f th) = THREAD_BLOCKED ∧ frames (f th) = frames th) ∧
  (status (f th) = THREAD_BLOCKED → frames (f th) ≠ Switched → status th = THREAD_BLOCKED ∧ frames (f th) = frames th).

Lemma nascent_alter ths n f t u fr :
  (u = n → ∀ th, ths !! n = Some th → same_nascent f th) →
  nascent (alter f n ths) t u fr ↔ nascent ths t u fr.
Proof.
  intros Hf. unfold nascent. destruct (decide (u = n)) as [->|]; [|by rewrite lookup_alter_ne].
  rewrite lookup_alter_eq. destruct (ths !! n) as [th|] eqn:E; [|done]. destruct (Hf eq_refl th eq_refl) as [H1 H2].
  split; intros (x & [= <-] & Hs & Hfr & Hc).
  - exists th. destruct H2 as [? ?]; [done|by rewrite Hfr; destruct fr|]. split_and!; try done. congruence.
  - exists (f th). destruct H1 as [? ?]; [done|by rewrite Hfr; destruct fr|]. split_and!; try done. congruence.
Qed.

Lemma rely_alter_ne t n f k :
  t ≠ n → (∀ th, threads k !! n = Some th → same_nascent f th) →
  rely t k (map_thread n f k).
Proof.
  intros Hn Hf. assert (alter f n (threads k) !! t = threads k !! t) as E by by apply lookup_alter_ne.
  split; [by split| |].
  - intros Hl. unfold live, started, lpl, st in *. split; simpl; unfold live, started, lpl, st;
      rewrite ?E; try done. intros u fr. apply nascent_alter. auto.
  - simpl. unfold started. by rewrite E.
Qed.

Lemma map_thread_same k n f th : threads k !! n = Some th → f th = th → map_thread n f k = k.
Proof.
  intros E Hf. unfold map_thread. rewrite (alter_id (M := gmap Z)); [by destruct k|].
  intros x Hx. congruence.
Qed.

(** ** Soundness *)

Section soundness.
  (** The thread functions, and a state whose locks, semaphores and condition
      variables they may use. *)
  Context (code : Z → Z → prog) (base : kernel).

(** No program may run to its end. *)
Definition never (v : Z) (k0 k : kernel) : Prop := False.

(** A thread that starts: it has no lock, and waits for nothing. *)
Definition fresh_thread (t : Z) (k : kernel) : Prop :=
  started (threads k) t ∧ lpl (threads k) t = [] ∧ (∀ c, ¬ in_cond (conds k) t c) ∧
  t ≠ idle_thread k ∧ t ∉ creating k.

(** Where a thread was left, it can go on in any state it may be resumed in. *)
Definition resumable (sv : gmap Z (Z → prog)) (ks : kernel) (t : Z) : Prop :=
  started (threads ks) t → ∃ kt, sv !! t = Some kt ∧
    ∀ prev k', inv (Picked t) k' → running k' = t → intr_on k' = false →
      is_Some (threads k' !! prev) → rely t ks k' → wp (kt prev) never k' k'.

Definition WF (m : machine) : Prop :=
  ∃ ks, grows base ks ∧ (∀ t, t ≠ running (mk m) → resumable (saved m) ks t) ∧
    settle (wp (current m) never) ks (mk m).

(** The obligations of the kernel itself: threads start and the timer
    interrupts at any moment. *)
Definition starts_ok : Prop :=
  ∀ f prev k, kf_function f ≠ idle_function → kf_function f ≠ NULL → grows base k →
    inv (Picked (running k)) k → intr_on k = false → is_Some (threads k !! prev) →
    fresh_thread (running k) k → wp (switch_entry code f prev) never k k.

Definition timer_ok : Prop :=
  ∀ Q k, inv Runs k → intr_on k = true →
    (∀ k', inv Runs k' → intr_on k' = true → running k' = running k →
       rely (running k) k k' → Q 0 k' k') →
    wp timer_intr Q k k.

Lemma guar_grows k0 k : guar k0 k → grows k0 k.
Proof. intros Hg. apply (Hg (running k + 1)). lia. Qed.

Lemma resumable_mono sv ks k t : rely t ks k → resumable sv ks t → resumable sv k t.
Proof.
  intros Hr Hs Hst. destruct Hs as (kt & Hk & Hw); [by apply Hr|]. exists kt. split; [done|].
  intros prev k' ?????. apply Hw; try done. by etrans.
Qed.

(** At a point where interrupts are on, the others have seen the state. *)
Lemma WF_settled m :
  WF m → ∃ ks, grows base ks ∧ (∀ t, t ≠ running (mk m) → resumable (saved m) ks t) ∧
    wp (current m) never ks (mk m).
Proof.
  intros (ks & Hb & Hr & Hs). unfold settle, stable in Hs. destruct (intr_on (mk m)) eqn:E; [|by exists ks].
  destruct Hs as (Hi & Hg & Hs). exists (mk m). split_and!.
  - eapply grows_trans; [done|]. by apply guar_grows.
  - intros t Ht. eapply resumable_mono, Hr; auto.
  - apply Hs; try done.
Qed.

Lemma inv_set_running n t k : inv (Picked n) k → inv (Picked n) (set_running t k).
Proof. intros []. split; try done. destruct inv_sched0. by split. Qed.

Lemma rely_set_running t n k k' : rely t k k' → rely t k (set_running n k').
Proof.
  intros [G K O]. split; [by destruct G|intros Hl|done]. destruct (K Hl). by split.
Qed.


(** A good outcome of a step of [m]: the machine goes on well, or stops for want
    of a record. *)
Definition good (m : machine) (o : outcome) : Prop :=
  match o with
  | Next m' => WF m'
  | Halted e => e = AssertFailed ∧ records_full (mk m)
  | Finished => False
  end.

Lemma resumable_switch sv ks k t c kc :
  t ≠ running k → rely t ks k → t ≠ c → resumable sv ks t → resumable (<[c := kc]> sv) k t.
Proof.
  intros Ht Hr Hc Hs Hst. destruct (resumable_mono _ _ _ _ Hr Hs Hst) as (kt & Hk & Hw).
  exists kt. rewrite lookup_insert_ne by done. auto.
Qed.

(** The thread switched from can be resumed where it is. *)
Lemma resumable_left sv k k1 c :
  live (threads k) (running k) → rely (running k) k k1 →
  (∀ prev k', inv (Picked (running k)) k' → running k' = running k → intr_on k' = false →
     is_Some (threads k' !! prev) → rely (running k) k k' → wp (c prev) never k' k') →
  resumable (<[running k := c]> sv) k1 (running k).
Proof.
  intros Hl Hr Hw _. exists c. rewrite lookup_insert_eq. split; [done|].
  intros prev k' ?????. apply Hw; try done. by etrans.
Qed.

Lemma started_live ths t : started ths t → live ths t.
Proof. intros (th & E & Hd & _). exists (status th). unfold st. by rewrite E. Qed.

Lemma WF_switch m n c k1 p :
  grows base k1 →
  (∀ t, t ≠ running (mk m) → t ≠ n → ∃ ks, rely t ks k1 ∧ resumable (saved m) ks t) →
  rely (running (mk m)) (mk m) k1 → running k1 = n → intr_on k1 = false →
  (live (threads (mk m)) (running (mk m)) → ∀ prev k', inv (Picked (running (mk m))) k' →
     running k' = running (mk m) → intr_on k' = false → is_Some (threads k' !! prev) →
     rely (running (mk m)) (mk m) k' → wp (c prev) never k' k') →
  wp p never k1 k1 →
  WF (Machine k1 p (<[running (mk m) := c]> (saved m))).
Proof.
  intros Hb Hs Hr Hn Hi Hc Hp. exists k1. simpl. split_and!; [done| |unfold settle; by rewrite Hi].
  intros t Ht. destruct (decide (t = running (mk m))) as [->|Hne].
  - intros Hst. eapply resumable_left; try done.
    + apply started_live. by apply Hr.
    + apply Hc, started_live. by apply Hr.
  - simpl in Ht. destruct (Hs t Hne) as (ks & Hrk & Hres); [congruence|]. intros Hst.
    destruct (resumable_mono _ _ _ _ Hrk Hres Hst) as (kt & Hk & Hw).
    exists kt. by rewrite lookup_insert_ne by done.
Qed.

Context (Hstarts : starts_ok) (Htimer : timer_ok).

Lemma quiet_switched : quiet (with_frames Switched).
Proof. split; simpl; auto. Qed.

Lemma step_switch_good m n c :
  WF m → current m = Switch n c → good m (step code m).
Proof.
  intros (ks & Hb & Hr & Hw)%WF_settled E. unfold step. rewrite E in *. rewrite wp_switch in Hw.
  destruct Hw as (Hi & Hinv & Hne & Hg & Hc & Hk).
  assert (grows base (mk m)) as Hbm by (eapply grows_trans; [done|by apply guar_grows]).
  assert (∃ s, st (threads (mk m)) n = Some s ∧ s ≠ THREAD_DYING) as (s & Hst & Hs).
  { destruct (si_running _ _ _ _ _ _ _ _ (inv_sched _ _ Hinv)) as [_ [?|[_ ?]]]; eauto. }
  unfold st in Hst. destruct (threads (mk m) !! n) as [th|] eqn:Eth; [|done]. simpl in Hst. simplify_eq.
  destruct Hc as (cur & Ecur & Hsw). rewrite (map_thread_same _ _ _ cur) by (done || by destruct cur; simplify_eq/=).
  rewrite Eth. pose proof (si_new _ _ _ _ _ _ _ _ (inv_sched _ _ Hinv) n th Eth) as Hnew.
  assert (frames th ≠ Switched → status th = THREAD_READY) as Hrd.
  { intros (_ & Hid & _)%Hnew. destruct (si_running _ _ _ _ _ _ _ _ (inv_sched _ _ Hinv)) as [_ [Hst|[? _]]]; [|done].
    unfold st in Hst. rewrite Eth in Hst. by injection Hst. }
  destruct (frames th) as [cr|cr f|] eqn:Ekf; simpl.
  - destruct Hnew as (_ & _ & Hbl); [done|]. by rewrite Hrd in Hbl by done.
  - set (k1 := set_running n (map_thread n (with_frames Switched) (mk m))).
    assert (inv (Picked n) k1) as Hinv1.
    { apply inv_set_running, inv_alter; [apply quiet_switched| |done]. intros x Ex Hx. rewrite Eth in Ex.
      injection Ex as <-. by rewrite Hrd in Hx. }
    destruct Hnew as (Hlp & Hnid & _ & Hfn & Hfn0); [done|].
    assert (∀ t, t ≠ n → rely t (mk m) (map_thread n (with_frames Switched) (mk m))) as Hra.
    { intros t Ht. apply rely_alter_ne; [done|]. intros x Ex. rewrite Eth in Ex. injection Ex as <-.
      split; [|done]. intros Hx _. by rewrite Hrd in Hx. }
    assert (grows base k1) as Hb1.
    { eapply grows_trans; [done|]. by destruct (re_grows _ _ _ (Hra (n + 1) ltac:(lia))). }
    apply (WF_switch m n c k1); try done.
    + intros t Ht Hn. exists ks. split; [|by apply Hr]. apply rely_set_running.
      etrans; [by apply Hg|]. by apply Hra.
    + by apply rely_set_running, Hra.
    + apply Hstarts; simpl; [done..| |].
      { rewrite lookup_alter_ne by done. by eexists. }
      split_and!.
      * unfold started. simpl. rewrite lookup_alter_eq, Eth. by exists (with_frames Switched th).
      * change (lpl (alter (with_frames Switched) n (threads (mk m))) n = []).
        rewrite lpl_alter by done. unfold lpl. by rewrite Eth.
      * intros c' Hc'. destruct (co_waits _ _ _ (inv_cond _ _ Hinv) n c' Hc') as [(th' & ? & _ & ?) _].
        congruence.
      * done.
      * intros Hcr. destruct (cl_creating _ _ _ _ _ _ _ (inv_client _ _ Hinv) n Hcr) as (th' & ? & _ & ?). congruence.
  - rewrite lookup_insert_ne by done.
    destruct (Hr n Hne) as (kn & Hkn & Hwn).
    { apply (Hg n Hne). exists th. done. }
    rewrite Hkn. apply (WF_switch m n c); try done.
    + by destruct Hbm.
    + intros t Ht Hn. exists ks. split; [|by apply Hr]. apply rely_set_running. by apply Hg.
    + apply Hwn; try done; [by apply inv_set_running|]. apply rely_set_running. by apply Hg.
Qed.

Lemma step_good m : WF m → good m (step code m).
Proof.
  intros Hwf. destruct (current m) as [v|f c|n c|b c] eqn:E; [| |by eapply step_switch_good|].
  - apply WF_settled in Hwf as (ks & _ & _ & Hw). rewrite E in Hw. destruct Hw.
  - apply WF_settled in Hwf as (ks & Hb & Hr & Hw). unfold step. rewrite E in *. rewrite wp_act in Hw.
    destruct (f (mk m)) as [[v k']|e]; [|exact Hw]. destruct Hw as [Hrun Hs]. exists ks. simpl.
    rewrite Hrun. auto.
  - destruct Hwf as (ks & Hb & Hr & Hw). unfold step. rewrite E in *. exists ks. simpl. split_and!; [done..|].
    eapply settle_mono, Hw. intros a b' Hl. apply wp_bind. apply wp_loop in Hl.
    eapply wp_mono, Hl. intros v a' b''. simpl. by destruct (is_true_Z v).
Qed.

Lemma interrupt_good m : WF m → intr_on (mk m) = true → WF (interrupt m).
Proof.
  intros (ks & Hb & Hr & Hw) Hi. unfold settle in Hw. rewrite Hi in Hw.
  destruct Hw as (Hinv & Hg & Hw). exists (mk m). simpl. split_and!.
  - eapply grows_trans; [done|]. by apply guar_grows.
  - intros t Ht. eapply resumable_mono, Hr; auto.
  - unfold settle. rewrite Hi. split_and!; [done|apply guar_refl|].
    intros k' ????. apply (wp_bind timer_intr (λ _, current m)), Htimer; try done.
    intros k'' Hk1 Hk2 Hk3 Hk4. apply Hw; try done; [congruence|].
    etrans; [done|]. congruence.
Qed.

Lemma mstep_good m o : WF m → mstep code m o → good m o.
Proof. intros Hm Hs. destruct Hs; [by apply step_good|by apply interrupt_good]. Qed.

(** Every reachable machine is good. *)
Lemma reach_good m o : WF m → reach code m o → ∀ m', o = Next m' → WF m'.
Proof.
  intros Hm Hr. induction Hr as [m|m m1 o Hr IH Hs]; intros m' E; [by injection E as <-|]. subst o.
  exact (mstep_good _ _ (IH Hm _ eq_refl) Hs).
Qed.

Lemma WF_inv m : WF m → intr_on (mk m) = true → inv Runs (mk m).
Proof. intros (ks & _ & _ & Hw) Hi. unfold settle in Hw. rewrite Hi in Hw. apply Hw. Qed.
End soundness.
