(* ===== verification/KSpec.v ===== *)
(** * Specifications of threads/thread.c and threads/synch.c

    Each function keeps the invariant of KLogic, guarantees to every other
    thread what that thread relies on, and restores the interrupt level. *)

From S2P Require Import Prelude KList Kernel KProg KLogic.

(** ** Running actions *)

(** Evaluate a monadic action on a state, as far as it is known. *)
Ltac mrun :=
  repeat first
    [ progress cbv [mbind M_bind mret M_ret gets get put modify assert fail]
    | progress cbn [negb andb orb] ].

(** The state is determined by its members. *)
Lemma set_intr_on_same k b : intr_on k = b → set_intr_on b k = k.
Proof. intros <-. by destruct k. Qed.

Section actions.
  Implicit Types k : kernel.

Lemma rd_thread_ok k t th : threads k !! t = Some th → rd_thread t k = Ok (th, k).
Proof. unfold rd_thread. by intros ->. Qed.

Lemma wr_thread_ok k t th f :
  threads k !! t = Some th → wr_thread t f k = Ok (tt, map_thread t f k).
Proof. intros H. unfold wr_thread. erewrite bind_ok by by apply rd_thread_ok. done. Qed.

Lemma is_thread_ok k t th :
  threads k !! t = Some th → t ≠ NULL → magic th = THREAD_MAGIC → is_thread t k = Ok (true, k).
Proof.
  intros H Hn Hm. unfold is_thread. rewrite decide_False by done.
  erewrite bind_ok by by apply rd_thread_ok. by rewrite Hm.
Qed.

Lemma thread_current_ok k th :
  threads k !! running k = Some th → running k ≠ NULL → magic th = THREAD_MAGIC →
  status th = THREAD_RUNNING → thread_current k = Ok (running k, k).
Proof.
  intros H Hn Hm Hs. unfold thread_current, running_thread. mrun.
  rewrite (is_thread_ok k _ th) by done. cbn iota. rewrite (rd_thread_ok _ _ _ H).
  by rewrite bool_decide_eq_true_2.
Qed.

Lemma intr_enable_ok k :
  in_external_intr k = false → intr_enable k = Ok (intr_on k, set_intr_on true k).
Proof. intros H. unfold intr_enable, intr_get_level, intr_context. mrun. by rewrite H. Qed.

Lemma intr_disable_ok k : intr_disable k = Ok (intr_on k, set_intr_on false k).
Proof. done. Qed.

Lemma intr_set_level_ok k b :
  (b = true → in_external_intr k = false) →
  intr_set_level b k = Ok (intr_on k, set_intr_on b k).
Proof. intros H. destruct b; simpl; [apply intr_enable_ok; auto|apply intr_disable_ok]. Qed.

(** The state after [thread_unblock]. *)
Definition unblocked (t : Z) (k : kernel) : kernel :=
  map_thread t (with_status THREAD_READY) (set_ready_list (ready_list k ++ [t]) k).

Lemma thread_unblock_ok k t th :
  threads k !! t = Some th → t ≠ NULL → magic th = THREAD_MAGIC → status th = THREAD_BLOCKED →
  (intr_on k = true → in_external_intr k = false) →
  thread_unblock t k = Ok (tt, unblocked t k).
Proof.
  intros H Hn Hm Hs Hc. unfold thread_unblock.
  erewrite bind_ok by by eapply is_thread_ok. mrun. rewrite intr_disable_ok. cbn iota.
  rewrite (rd_thread_ok _ _ th) by done. rewrite bool_decide_eq_true_2 by done. cbn iota.
  rewrite (wr_thread_ok _ _ th) by done. cbn iota.
  rewrite intr_set_level_ok by done. unfold unblocked. by destruct k.
Qed.
End actions.

(** ** Rely under updates *)

Section rely.
  Implicit Types k : kernel.

Lemma rely_alter t n f k :
  (∀ th, lock_priority_list (f th) = lock_priority_list th) → (∀ th, frames (f th) = frames th) →
  (∀ th, status th ≠ THREAD_DYING → status (f th) ≠ THREAD_DYING) → live (threads k) n →
  (∀ th, threads k !! n = Some th → frames th ≠ Switched →
     status (f th) = THREAD_BLOCKED ↔ status th = THREAD_BLOCKED) →
  rely t k (map_thread n f k).
Proof.
  intros Hl Hk Hd Hn Hb. assert (∀ th, threads k !! n = Some th → same_nascent f th) as Hsn.
  { intros th E. split; rewrite ?Hk; intros Hs Hf; (split; [|done]); by apply Hb. }
  destruct (decide (t = n)) as [->|]; [|apply rely_alter_ne; auto].
  destruct Hn as (s & E & Hs). unfold st in E.
  destruct (threads k !! n) as [th|] eqn:Eth; simplify_eq/=.
  assert (alter f n (threads k) !! n = Some (f th)) as E' by by rewrite lookup_alter_eq, Eth.
  split; [by split| |].
  - intros _. split; simpl; try done.
    + exists (status (f th)). unfold st. rewrite E'. auto.
    + intros (th' & ? & ? & ?). exists (f th). rewrite E', Hk. split_and!; auto; congruence.
    + by rewrite lpl_alter.
    + intros u fr. apply nascent_alter. intros _ x Ex. rewrite Eth in Ex. by apply Hsn.
  - simpl. intros (th' & ? & ? & ?). exists th. rewrite E' in *. simplify_eq. by rewrite <-Hk.
Qed.

Lemma rely_semas t k ss :
  (∀ a, is_Some (semas k !! SemaAt a) → is_Some (ss !! SemaAt a)) →
  (is_Some (ss !! WaiterSema t) ↔ is_Some (semas k !! WaiterSema t)) →
  rely t k (set_semas ss k).
Proof. intros H1 H2. split; [by split|intros; by split|done]. Qed.

Lemma is_Some_insert_same {A} (m : gmap sema_id A) s s' x :
  is_Some (m !! s) → is_Some (<[s := x]> m !! s') ↔ is_Some (m !! s').
Proof.
  intros H. destruct (decide (s' = s)) as [->|].
  - by rewrite lookup_insert_eq.
  - by rewrite lookup_insert_ne.
Qed.

Lemma rely_sema_insert t k s sm :
  is_Some (semas k !! s) → rely t k (set_semas (<[s := sm]> (semas k)) k).
Proof. intros H. apply rely_semas; intros; by apply is_Some_insert_same. Qed.

(** Updates of members that [rely] does not mention. *)
Lemma rely_frame t k0 k k' :
  threads k' = threads k → semas k' = semas k → holders k' = holders k → conds k' = conds k →
  lock_priority_page k' = lock_priority_page k → idle_thread k' = idle_thread k →
  initial_thread k' = initial_thread k → sections k' = sections k → creating k' = creating k →
  rely t k0 k → rely t k0 k'.
Proof.
  intros E1 E2 E3 E4 E5 E6 E7 E8 E9 [[] K O]. split.
  - split; rewrite ?E2, ?E3, ?E4, ?E6, ?E7; auto.
  - intros Hl. destruct (K Hl). split; rewrite ?E1, ?E2, ?E3, ?E4, ?E5, ?E8, ?E9; done.
  - by rewrite E1.
Qed.
End rely.

(** ** Transitions of the run queue *)

Lemma lookup_alter_case (ths : tmap) n f t :
  alter f n ths !! t = if decide (t = n) then f <$> ths !! n else ths !! t.
Proof. case_decide as E; [subst; apply lookup_alter_eq|by apply lookup_alter_ne]. Qed.

Lemma st_with_status ths c s t :
  is_Some (ths !! c) → st (alter (with_status s) c ths) t = if decide (t = c) then Some s else st ths t.
Proof.
  intros [th E]. unfold st. rewrite lookup_alter_case. case_decide; [by rewrite E|done].
Qed.

Lemma live_with_status ths c s t :
  is_Some (ths !! c) →
  live (alter (with_status s) c ths) t ↔ if decide (t = c) then s ≠ THREAD_DYING else live ths t.
Proof.
  intros H. unfold live. setoid_rewrite (st_with_status ths c s t H). case_decide; naive_solver.
Qed.

Lemma started_with_status ths c s t :
  s ≠ THREAD_DYING → started ths t → started (alter (with_status s) c ths) t.
Proof.
  intros Hs (th & E & Hd & Hk). unfold started. rewrite lookup_alter_case. case_decide as Et.
  - subst. rewrite E. by exists (with_status s th).
  - eauto.
Qed.

Lemma st_exists ths t s : st ths t = Some s → is_Some (ths !! t).
Proof. unfold st. destruct (ths !! t); naive_solver. Qed.

Lemma st_status ths t th s : ths !! t = Some th → st ths t = Some s → status th = s.
Proof. unfold st. intros ->. by intros [=]. Qed.

(** Thread [c] gets status [s]; other threads wait as before. *)
Lemma client_with_status ths hs ss ss' sl sl' idle secs crs c s :
  client_inv ths hs ss sl idle secs crs → s ≠ THREAD_DYING ∨ c ∉ crs →
  (∀ t, t ≠ c → t ∈ sl → t ∈ sl') → (∀ t i, t ≠ c → waits ss t i → ∃ j, waits ss' t j) →
  (s = THREAD_BLOCKED → c = idle ∨ c ∈ sl' ∨ ∃ i, waits ss' c i) →
  client_inv (alter (with_status s) c ths) hs ss' sl' idle secs crs.
Proof.
  intros [C1 C2 C3] Hs Hsl Hss Hb. split; [done| |].
  - intros t Ht. destruct (decide (t = c)) as [->|]; [|rewrite started_alter_ne by done; auto].
    apply started_with_status; [naive_solver|auto].
  - intros t th. rewrite lookup_alter_case. case_decide as E.
    + subst. destruct (ths !! c) as [x|]; [|done]. intros [= <-] Hst. simpl in *. naive_solver.
    + intros Et Hst. destruct (C3 t th Et Hst) as [?|[?|[[i ?]|?]]]; eauto 6.
Qed.

Lemma client_semas ths hs ss ss' sl idle secs crs :
  client_inv ths hs ss sl idle secs crs → (∀ t i, waits ss t i → ∃ j, waits ss' t j) →
  client_inv ths hs ss' sl idle secs crs.
Proof.
  intros [C1 C2 C3] Hss. split; [done..|]. intros t th Et Hst.
  destruct (C3 t th Et Hst) as [?|[?|[[i ?]|?]]]; eauto 6.
Qed.

(** The running thread [c] leaves the processor with status [s]. *)
Lemma sched_leave ths c rl sl al idle pg s rl' sl' al' :
  sched_inv Runs ths c rl sl al idle pg → s ≠ THREAD_RUNNING →
  (s = THREAD_DYING → lpl ths c = [] ∧ c ≠ idle) →
  (∃ th, ths !! c = Some th ∧ frames th = Switched) →
  NoDup rl' → (∀ t, t ∈ rl' ↔ t ∈ rl ∨ t = c ∧ s = THREAD_READY ∧ c ≠ idle) →
  NoDup sl' → (∀ t, t ∈ sl' → t ∈ sl ∨ t = c ∧ s = THREAD_BLOCKED ∧ c ≠ idle) →
  NoDup al' → (∀ t, t ∈ al' ↔ t ∈ al ∧ (t = c → s ≠ THREAD_DYING)) →
  sched_inv Leaves (alter (with_status s) c ths) c rl' sl' al' idle pg.
Proof.
  intros [[Hr Hu] ? Hrd ? Hsl ? Hal Hid Hth Hnew Hdy ? Hpg] Hs Hdie (thc & Ec & Ek) ? Hrl ? Hsl' ? Hal'.
  assert (is_Some (ths !! c)) as Hc by eauto.
  assert (∀ t, st (alter (with_status s) c ths) t = if decide (t = c) then Some s else st ths t)
    as Est by (intros; by apply st_with_status).
  assert (∀ t, lpl (alter (with_status s) c ths) t = lpl ths t) as Elp by (intros; by apply lpl_alter).
  split; try done.
  - intros t. rewrite Est. case_decide; [congruence|]. intros E%Hu. done.
  - intros t. rewrite Hrl, Est, Hrd. case_decide; subst; naive_solver.
  - intros t Ht. rewrite Est. destruct (Hsl' t Ht) as [Hin|(-> & -> & ?)].
    + destruct (Hsl t Hin) as (E & ? & ? & _). rewrite started_alter_ne by congruence.
      by rewrite decide_False by congruence.
    + rewrite decide_True by done. split_and!; try done. apply started_with_status; [done|].
      exists thc. by rewrite (st_status _ _ _ _ Ec Hr).
  - intros t. rewrite Hal', Hal, live_with_status by done. case_decide as Et; [subst|naive_solver].
    split; [naive_solver|]. intros ?. split; [|done]. exists THREAD_RUNNING. done.
  - rewrite Elp, live_with_status by done. split; [|apply Hid]. case_decide as Et; [|apply Hid].
    intros E. by apply Hdie in E as [_ ?].
  - intros t th. rewrite lookup_alter_case. case_decide; [|apply Hth]. subst. rewrite Ec. simpl.
    intros. simplify_eq. by apply (Hth _ _ Ec).
  - intros t th. rewrite lookup_alter_case. case_decide; [|apply Hnew]. subst. rewrite Ec. simpl.
    intros. by simplify_eq.
  - intros t. rewrite Est, Elp. case_decide; [|apply Hdy]. intros. simplify_eq. by apply Hdie.
  - intros t Ht. destruct (Hpg t Ht) as [? E]. split; [done|]. by apply lookup_alter_None.
Qed.

(** Semaphores while the running thread [c] leaves. *)
Lemma sema_leave ths c ss sl sl' idle s :
  sema_inv Runs ths ss sl idle → st ths c = Some THREAD_RUNNING →
  (∀ t, t ∈ sl' → t ∈ sl ∨ t = c) →
  sema_inv Leaves (alter (with_status s) c ths) ss sl' idle.
Proof.
  intros [Hv Hn Hw Hu Hwt] Hc Hsl. split; try done.
  intros t s' Ht. destruct (Hw t s' Ht) as (E & ? & ? & ? & _).
  assert (t ≠ c) by (intros ->; congruence).
  rewrite st_with_status by by eapply st_exists. rewrite started_alter_ne by done.
  rewrite decide_False by done. split_and!; try done. intros [?|?]%Hsl; done.
Qed.

Lemma waits_insert ss s sm t s' :
  waits (<[s := sm]> ss) t s' ↔ if decide (s' = s) then t ∈ waiters sm else waits ss t s'.
Proof.
  unfold waits. case_decide as E.
  - subst. rewrite lookup_insert_eq. naive_solver.
  - by rewrite lookup_insert_ne by done.
Qed.

Lemma sema_wait ths c ss sl idle s sm :
  sema_inv Runs ths ss sl idle → st ths c = Some THREAD_RUNNING → started ths c →
  c ≠ idle → c ∉ sl → ss !! s = Some sm → (∀ t, s = WaiterSema t → t = c) →
  sema_inv Leaves (alter (with_status THREAD_BLOCKED) c ths)
    (<[s := Semaphore (value sm) (waiters sm ++ [c])]> ss) sl idle.
Proof.
  intros [Hv Hn Hw Hu Hwt] Hc Hst Hid Hsl Es Hs.
  assert (∀ s', ¬ waits ss c s') as Hnc by (intros s' (E & _)%Hw; congruence).
  assert (∀ t s', waits (<[s := Semaphore (value sm) (waiters sm ++ [c])]> ss) t s' →
    waits ss t s' ∨ t = c ∧ s' = s) as Hcase.
  { intros t s'. rewrite waits_insert. case_decide as E; [|auto]. subst. simpl.
    rewrite elem_of_app, list_elem_of_singleton. intros [?|?]; [left; by exists sm|auto]. }
  split.
  - intros s' sm'. destruct (decide (s' = s)) as [->|]; [|rewrite lookup_insert_ne by done; apply Hv].
    rewrite lookup_insert_eq. intros. simplify_eq/=. by eapply Hv.
  - intros s' sm'. destruct (decide (s' = s)) as [->|]; [|rewrite lookup_insert_ne by done; apply Hn].
    rewrite lookup_insert_eq. intros. simplify_eq/=. apply NoDup_app. split_and!.
    + by eapply Hn.
    + intros x Hx ->%list_elem_of_singleton. apply (Hnc s). by exists sm.
    + apply NoDup_singleton.
  - intros t s' [Ht|[-> ->]]%Hcase; rewrite st_with_status by (by eapply st_exists).
    + destruct (Hw t s' Ht) as (E & ? & ? & ? & _). rewrite started_alter_ne by congruence.
      by rewrite decide_False by congruence.
    + rewrite decide_True by done. split_and!; try done. by apply started_with_status.
  - intros t s1 s2 [H1|[-> ->]]%Hcase [H2|[? ->]]%Hcase; subst; try done.
    + by eapply Hu.
    + by destruct (Hnc s1).
    + by destruct (Hnc s2).
  - intros t u [H1|[-> E]]%Hcase; [by eapply Hwt|]. symmetry. by apply Hs.
Qed.

(** ** Picking the next thread *)

Lemma list_max_by_ok conv k x xs :
  (∀ t, t ∈ x :: xs → is_Some (conv k t)) →
  list_max_by conv (x :: xs) k =
    Ok (max_from (default_list_less_func (λ t, default 0 (conv k t))) x xs, k).
Proof.
  intros H. unfold list_max_by. replace (forallb _ _) with true; [done|]. symmetry.
  apply Is_true_true_1, forallb_True, Forall_forall. intros t Ht. apply bool_decide_pack. auto.
Qed.

Lemma max_from_elem less `{!StrictWeak less} x xs : max_from less x xs ∈ x :: xs.
Proof.
  destruct (max_from_first less x xs) as (us & vs & E & _). rewrite E.
  apply elem_of_app. right. by left.
Qed.

Lemma elem_of_list_del t x xs : t ∈ list_del x xs ↔ t ∈ xs ∧ t ≠ x.
Proof. unfold list_del. rewrite list_elem_of_filter. tauto. Qed.

Lemma NoDup_list_del x xs : NoDup xs → NoDup (list_del x xs).
Proof. apply NoDup_filter. Qed.

(** The thread [next_thread_to_run] returns, and the queue it leaves. *)
Definition next_of (k : kernel) : Z :=
  match ready_list k with
  | [] => idle_thread k
  | x :: xs => max_from (default_list_less_func
      (λ t, default 0 (thread_priority_convert_func k t))) x xs
  end.

Lemma next_thread_to_run_ok k :
  (∀ t, t ∈ ready_list k → is_Some (threads k !! t)) →
  next_thread_to_run k = Ok (next_of k, set_ready_list (list_del (next_of k) (ready_list k)) k) ∨
  ready_list k = [] ∧ next_thread_to_run k = Ok (next_of k, k).
Proof.
  intros H. unfold next_thread_to_run, next_of. destruct (ready_list k) as [|x xs] eqn:E.
  - right. mrun. by rewrite E.
  - left. mrun. rewrite E. rewrite list_max_by_ok; [done|].
    intros t Ht. unfold thread_priority_convert_func. destruct (H t Ht) as [th ->]. done.
Qed.

Lemma next_of_elem k : ready_list k ≠ [] → next_of k ∈ ready_list k.
Proof. unfold next_of. destruct (ready_list k); [done|]. intros _. apply max_from_elem, _. Qed.

Lemma sched_pick ths c rl sl al idle pg n :
  sched_inv Leaves ths c rl sl al idle pg → n ∈ rl ∨ rl = [] ∧ n = idle →
  sched_inv (Picked n) ths c (list_del n rl) sl al idle pg.
Proof.
  intros [Hr ? Hrd ? Hsl ? Hal Hid Hth Hnew Hdy ? Hpg] Hn. split; try done.
  - split; [done|]. destruct Hn as [Hn|[-> ->]]; [left; by apply Hrd|].
    destruct Hid as [(s & E & Hs) _]. destruct s; auto; [by apply Hr in E|done].
  - by apply NoDup_list_del.
  - intros t. rewrite elem_of_list_del, Hrd. naive_solver.
  - intros t Ht. destruct (Hsl t Ht) as (E & ? & Hi & _). split_and!; try done.
    intros Ep. simplify_eq. destruct Hn as [(E' & _)%Hrd|[_ ->]]; congruence.
Qed.

Lemma sema_pick ths c rl sl al idle pg ss n :
  sched_inv Leaves ths c rl sl al idle pg → n ∈ rl ∨ rl = [] ∧ n = idle →
  sema_inv Leaves ths ss sl idle → sema_inv (Picked n) ths ss sl idle.
Proof.
  intros Hs Hn [Hv Hnd Hw Hu Hwt]. split; try done. intros t s Ht.
  destruct (Hw t s Ht) as (E & ? & ? & ? & _). split_and!; try done. intros Ep. simplify_eq.
  destruct Hn as [Hn|[_ ->]]; [|done]. apply (si_ready _ _ _ _ _ _ _ _ Hs) in Hn as [? _]. congruence.
Qed.

Lemma inv_thread pk k t th :
  inv pk k → threads k !! t = Some th → t ≠ NULL ∧ magic th = THREAD_MAGIC.
Proof. intros Hi E. by destruct (si_threads _ _ _ _ _ _ _ _ (inv_sched _ _ Hi) t th E) as (? & ? & _). Qed.
Lemma inv_priorities pk k t th :
  inv pk k → threads k !! t = Some th → pri_ok (priority th) ∧ pri_ok (original_priority th).
Proof. intros Hi E. by destruct (si_threads _ _ _ _ _ _ _ _ (inv_sched _ _ Hi) t th E) as (_ & _ & ?). Qed.

Definition picked (k : kernel) : kernel :=
  set_ready_list (list_del (next_of k) (ready_list k)) k.

Lemma schedule_pick_ok k :
  inv Leaves k → intr_on k = false → is_Some (threads k !! running k) →
  schedule_pick k = Ok (next_of k, picked k) ∧ inv (Picked (next_of k)) (picked k).
Proof.
  intros Hi Hoff [thc Ec]. pose proof (inv_sched _ _ Hi) as Hs.
  assert (∀ t, t ∈ ready_list k → is_Some (threads k !! t)) as Hex.
  { intros t [E _]%(si_ready _ _ _ _ _ _ _ _ Hs). by eapply st_exists. }
  assert (next_of k ∈ ready_list k ∨ ready_list k = [] ∧ next_of k = idle_thread k) as Hn.
  { destruct (decide (ready_list k = [])) as [E|E]; [right|left; by apply next_of_elem].
    unfold next_of. by rewrite E. }
  assert (∃ th, threads k !! next_of k = Some th) as [thn En].
  { destruct Hn as [Hn|[_ ->]]; [by apply Hex|].
    destruct (si_idle _ _ _ _ _ _ _ _ Hs) as [(s & E & _) _]. by eapply st_exists. }
  destruct (inv_thread _ _ _ _ Hi En) as [Hnn Hm]. split.
  - assert (next_thread_to_run k = Ok (next_of k, picked k)) as E.
    { destruct (next_thread_to_run_ok k Hex) as [E|[E1 E2]]; [done|]. rewrite E2. unfold picked.
      rewrite E1. do 2 f_equal. destruct k; simpl in *; by subst. }
    unfold schedule_pick, running_thread, intr_get_level. mrun. rewrite E. cbn [intr_on picked].
    simpl. rewrite Hoff. simpl. rewrite (rd_thread_ok (picked k) _ thc) by done.
    rewrite bool_decide_eq_true_2.
    + rewrite (is_thread_ok (picked k) _ thn) by done. done.
    + intros E'. apply (si_running _ _ _ _ _ _ _ _ Hs (running k)). unfold st. by rewrite Ec, <-E'.
  - destruct Hi. split; try done; simpl.
    + by apply sched_pick.
    + by eapply sema_pick.
Qed.

(** Completing the switch. *)
Lemma sched_run ths c c' rl sl al idle pg :
  sched_inv (Picked c) ths c' rl sl al idle pg → (∃ th, ths !! c = Some th ∧ frames th = Switched) →
  sched_inv Runs (alter (with_status THREAD_RUNNING) c ths) c rl sl al idle pg.
Proof.
  intros [[Hr Hp] ? Hrd ? Hsl ? Hal Hid Hth Hnew Hdy ? Hpg] (thc & Ec & Ek).
  assert (is_Some (ths !! c)) as Hc by eauto.
  assert (∀ t, st (alter (with_status THREAD_RUNNING) c ths) t =
    if decide (t = c) then Some THREAD_RUNNING else st ths t) as Est by (intros; by apply st_with_status).
  assert (∀ t, lpl (alter (with_status THREAD_RUNNING) c ths) t = lpl ths t) as Elp
    by (intros; by apply lpl_alter).
  assert (∀ t, live (alter (with_status THREAD_RUNNING) c ths) t ↔ live ths t) as Eli.
  { intros t. rewrite live_with_status by done. case_decide as Et; [subst|done].
    split; [intros _|done]. destruct Hp as [E|[_ E]]; by eexists. }
  split; try done.
  - rewrite Est, decide_True by done. split; [done|]. intros t. rewrite Est. case_decide; [done|].
    intros E. by apply Hr in E.
  - intros t. rewrite Hrd, Est. case_decide; subst; naive_solver.
  - intros t Ht. destruct (Hsl t Ht) as (? & ? & ? & ?). rewrite Est, decide_False by congruence.
    by rewrite started_alter_ne by congruence.
  - intros t. by rewrite Hal, Eli.
  - by rewrite Eli, Elp.
  - intros t th. rewrite lookup_alter_case. case_decide; [|apply Hth]. subst. rewrite Ec. simpl.
    intros. simplify_eq. by apply (Hth _ _ Ec).
  - intros t th. rewrite lookup_alter_case. case_decide; [|apply Hnew]. subst. rewrite Ec. simpl.
    intros. by simplify_eq.
  - intros t. rewrite Est, Elp. case_decide; [done|apply Hdy].
  - intros t Ht. destruct (Hpg t Ht) as [? E]. split; [done|]. by apply lookup_alter_None.
Qed.

Lemma inv_run k :
  inv (Picked (running k)) k → (∃ th, threads k !! running k = Some th ∧ frames th = Switched) →
  inv Runs (map_thread (running k) (with_status THREAD_RUNNING) k).
Proof.
  intros [Hs [Hv Hn Hw Hu Hwt] Hl Hp Hc Hd Hx Hcl] (th & E & Ek). split; try done; simpl.
  - eapply sched_run; eauto.
  - split; try done. intros t s Ht. destruct (Hw t s Ht) as (? & ? & ? & ? & ?).
    rewrite st_with_status by eauto. rewrite decide_False, started_alter_ne by congruence. done.
  - destruct Hp as [Hp1 Hp2 Hp3 Hp4 Hp5 Hp6]. split; try done; setoid_rewrite lpl_alter; done.
  - destruct Hc as [Hc1 Hc2 Hc3]. split; try done. intros t c Ht. destruct (Hc3 t c Ht) as [? ?].
    split; [|done]. by apply started_with_status.
  - eapply client_with_status; [done|by left|done|eauto|done].
Qed.

(** Freeing the page of a dying thread. *)
Definition freed (p : Z) (k : kernel) : kernel :=
  set_threads (delete p (threads k)) (set_free_pages (p :: free_pages k) k).

Lemma st_delete ths p t s :
  st (delete p ths) t = Some s ↔ t ≠ p ∧ st ths t = Some s.
Proof.
  unfold st. destruct (decide (t = p)) as [->|].
  - rewrite lookup_delete_eq. naive_solver.
  - rewrite lookup_delete_ne by done. naive_solver.
Qed.

Lemma lpl_delete ths p t : lpl ths p = [] → lpl (delete p ths) t = lpl ths t.
Proof.
  intros H. unfold lpl in *. destruct (decide (t = p)) as [->|].
  - by rewrite lookup_delete_eq.
  - by rewrite lookup_delete_ne by done.
Qed.

Lemma started_delete ths p t : t ≠ p → started (delete p ths) t ↔ started ths t.
Proof. intros. unfold started. by rewrite lookup_delete_ne. Qed.

Lemma inv_freed k p :
  inv Runs k → st (threads k) p = Some THREAD_DYING → inv Runs (freed p k).
Proof.
  intros [Hs He Hl Hp Hc Hd Hx [C1 C2 C3]] Ep.
  pose proof (si_dying _ _ _ _ _ _ _ _ Hs p Ep) as Elp.
  assert (∀ t, t ≠ p → st (delete p (threads k)) t = st (threads k) t) as Est.
  { intros t Ht. unfold st. by rewrite lookup_delete_ne by done. }
  assert (∀ t, live (delete p (threads k)) t ↔ live (threads k) t) as Eli.
  { intros t. unfold live. setoid_rewrite st_delete. split; [naive_solver|].
    intros (s & E & ?). exists s. split_and!; try done. intros ->. congruence. }
  split; try done; simpl.
  - destruct Hs as [[Hr Hu] ? Hrd ? Hsl ? Hal Hid Hth Hnew Hdy ? Hpg]. split; try done.
    + split; [rewrite Est; [done|congruence]|]. intros t [_ E]%st_delete. auto.
    + intros t. rewrite Hrd, st_delete. split; [|naive_solver].
      intros (E & ? & ?). split_and!; try done. congruence.
    + intros t Ht. destruct (Hsl t Ht) as (E & ? & ?). rewrite Est, started_delete; [done|congruence..].
    + intros t. by rewrite Hal, Eli.
    + rewrite Eli, lpl_delete by done. done.
    + intros t th [_ E]%lookup_delete_Some. by apply Hth.
    + intros t th [_ E]%lookup_delete_Some. by apply Hnew.
    + intros t [_ E]%st_delete. rewrite lpl_delete by done. by apply Hdy.
    + apply NoDup_cons. split; [|done]. intros [_ E]%Hpg. unfold st in Ep. by rewrite E in Ep.
    + intros t [->|Ht]%elem_of_cons.
      * rewrite lookup_delete_eq. split; [|done]. apply st_exists in Ep as [th E]. by eapply Hth.
      * destruct (Hpg t Ht). split; [done|]. by apply lookup_delete_None; right.
  - destruct He as [Hv Hn Hw Hu Hwt]. split; try done. intros t s Ht.
    destruct (Hw t s Ht) as (E & ? & ?). rewrite Est, started_delete; [done|congruence..].
  - destruct Hp as [Hp1 Hp2 Hp3 Hp4 Hp5 Hp6]. split; try done; setoid_rewrite lpl_delete; done.
  - destruct Hc as [Hc1 Hc2 Hc3]. split; try done. intros t c Ht. destruct (Hc3 t c Ht) as [(th & E & Hd' & ?) ?].
    split; [|done]. exists th. rewrite lookup_delete_ne; [done|]. intros ->.
    unfold st in Ep. rewrite E in Ep. simpl in Ep. congruence.
  - split; [done| |].
    + intros t Ht. apply started_delete; [|auto]. intros ->. destruct (C2 p Ht) as (th & E & ? & _).
      unfold st in Ep. rewrite E in Ep. simpl in Ep. congruence.
    + intros t th [_ E]%lookup_delete_Some. by apply C3.
Qed.

Lemma rely_freed t k p :
  st (threads k) p = Some THREAD_DYING → rely t k (freed p k).
Proof.
  intros Ep. split; [by split| |].
  - intros (s & E & Hs). assert (t ≠ p) as Hne by congruence.
    assert (delete p (threads k) !! t = threads k !! t) as E' by by rewrite lookup_delete_ne.
    unfold live, started, lpl, st in *. split; simpl; unfold live, started, lpl, st; rewrite ?E'; try done.
    + eauto.
    + intros u fr. split.
      * intros (th & [_ Eu]%lookup_delete_Some & Hb & ?). by exists th.
      * intros (th & Eu & Hb & ?). exists th. rewrite lookup_delete_ne; [done|]. intros <-.
        rewrite Eu in Ep. simpl in Ep. congruence.
  - simpl. intros (th & [_ E]%lookup_delete_Some & ?). by exists th.
Qed.

Lemma thread_schedule_tail_ok k prev :
  inv (Picked (running k)) k → intr_on k = false → started (threads k) (running k) →
  prev = NULL ∨ is_Some (threads k !! prev) →
  ∃ k', thread_schedule_tail prev k = Ok (tt, k') ∧ inv Runs k' ∧ running k' = running k ∧
    intr_on k' = false ∧ ∀ t, rely t k k'.
Proof.
  intros Hi Hoff Hst Hprev. pose proof Hst as (th & E & Hd & Ek).
  set (k1 := set_thread_ticks 0 (map_thread (running k) (with_status THREAD_RUNNING) k)).
  assert (inv Runs k1) as Hi1.
  { destruct (inv_run k Hi) as [H1 H2 H3 H4 H5 H6 H7 H8]; [by exists th|]. by split. }
  assert (∀ t, rely t k k1) as Hr1.
  { intros t. eapply (rely_frame _ _ (map_thread _ _ k)); try done.
    apply rely_alter; try done; [by apply started_live|congruence]. }
  assert (thread_schedule_tail prev k =
    (if decide (prev = NULL) then mret tt
     else th ← rd_thread prev; ini ← gets initial_thread;
       if decide (status th = THREAD_DYING ∧ prev ≠ ini) then
         assert (bool_decide (prev ≠ running k));; palloc_free_page prev
       else mret tt) k1) as ->.
  { unfold thread_schedule_tail, running_thread, intr_get_level. mrun. rewrite Hoff. simpl.
    by rewrite (wr_thread_ok _ _ th). }
  case_decide as En; [by exists k1|]. destruct Hprev as [?|[thp Ep]]; [done|].
  assert (is_Some (threads k1 !! prev)) as [thp1 Ep1].
  { simpl. rewrite lookup_alter_case. case_decide; [by rewrite E|eauto]. }
  erewrite bind_ok by by apply rd_thread_ok. mrun. case_decide as Ed; [|by exists k1].
  destruct Ed as [Ed _]. assert (st (threads k1) prev = Some THREAD_DYING) as Esd.
  { unfold st. by rewrite Ep1, <-Ed. }
  assert (prev ≠ running k) as Hne.
  { intros ->. destruct (si_running _ _ _ _ _ _ _ _ (inv_sched _ _ Hi1)) as [Er _].
    change (running k1) with (running k) in Er. congruence. }
  rewrite bool_decide_eq_true_2 by done. exists (freed prev k1). split_and!; try done.
  - by apply inv_freed.
  - intros t. etrans; [apply Hr1|]. by apply rely_freed.
Qed.

(** ** Rules *)

Lemma wp_ret v Q k0 k : Q v k0 k → wp (Ret v) Q k0 k.
Proof. done. Qed.

(** With interrupts off an action is seen by nobody. *)
Lemma wp_act_off f c Q k0 k v k' :
  f k = Ok (v, k') → running k' = running k → intr_on k' = false →
  wp (c v) Q k0 k' → wp (Act f c) Q k0 k.
Proof. intros E Hr Hi Hw. rewrite wp_act, E. split; [done|]. unfold settle. by rewrite Hi. Qed.

Lemma wp_act_err f c Q k0 k : f k = Err AssertFailed → records_full k → wp (Act f c) Q k0 k.
Proof. intros E Hf. by rewrite wp_act, E. Qed.

(** The running thread [c] is at a point where the invariant holds, at
    interrupt level [lvl]. *)
Record at_ (c : Z) (lvl : bool) (k0 k : kernel) : Prop := {
  at_inv : inv Runs k;
  at_guar : guar k0 k;
  at_running : running k = c;
  at_level : intr_on k = lvl
}.

Lemma wp_act_at c lvl f cont Q k0 k v k' :
  f k = Ok (v, k') → running k = c → at_ c lvl k0 k' →
  (∀ k0' k'', at_ c lvl k0' k'' → rely c k' k'' → wp (cont v) Q k0' k'') →
  wp (Act f cont) Q k0 k.
Proof.
  intros E Hr [Hi Hg Hc Hl] Hw. rewrite wp_act, E. split; [congruence|].
  unfold settle, stable. destruct (intr_on k') eqn:El.
  - split_and!; try done. intros k'' ??? Hrel. apply Hw; [|by rewrite <-Hc].
    split; try done; congruence.
  - apply Hw; [split; try done; congruence|reflexivity].
Qed.

Lemma guar_step k0 k k' :
  running k' = running k → guar k0 k → (∀ t, t ≠ running k → rely t k k') → guar k0 k'.
Proof. intros Hr Hg Hs t Ht. rewrite Hr in Ht. etrans; [by apply Hg|by apply Hs]. Qed.

(** What holds when the running thread, having left, is back. *)
Definition back (c : Z) (k : kernel) (Q : kernel → kernel → Prop) : Prop :=
  ∀ k0' k', at_ c false k0' k' → rely c k k' → Q k0' k'.

Lemma schedule_spec Q k0 k :
  inv Leaves k → intr_on k = false → (∃ th, threads k !! running k = Some th ∧ frames th = Switched) →
  guar k0 k → (live (threads k) (running k) → back (running k) k (Q 0)) →
  wp schedule Q k0 k.
Proof.
  intros Hi Hoff (th & E & Ek) Hg HQ. unfold schedule, act, act_unit.
  destruct (schedule_pick_ok k Hi Hoff) as [Ep Hip]; [by eauto|].
  set (n := next_of k) in *. set (k1 := picked k) in *.
  assert (∀ t, rely t k k1) as Hr1 by (intros t; by apply (rely_frame t k k)).
  apply wp_bind. eapply wp_act_off; [exact Ep|done..|]. apply wp_ret.
  apply wp_bind. eapply wp_act_off; [done|done|done|]. apply wp_ret.
  change (running k1) with (running k). apply wp_bind.
  assert (∀ k0' k' prev, inv (Picked (running k)) k' → running k' = running k →
    intr_on k' = false → prev = NULL ∨ is_Some (threads k' !! prev) → started (threads k') (running k) →
    guar k0' k' → rely (running k) k k' → live (threads k) (running k) →
    wp (act_unit (thread_schedule_tail prev)) Q k0' k') as Htail.
  { intros k0' k' prev Hi' Hr' Hoff' Hp Hst Hg' Hrel Hl. rewrite <-Hr' in Hi', Hst.
    destruct (thread_schedule_tail_ok k' prev Hi' Hoff' Hst Hp) as (k2 & E2 & Hi2 & Hr2 & Hoff2 & Hrel2).
    unfold act_unit. eapply wp_act_off; [by erewrite bind_ok by exact E2|done|done|]. apply wp_ret.
    refine (HQ Hl k0' k2 _ _).
    - split; try done; [|congruence]. apply (guar_step _ k'); auto.
    - etrans; [done|]. apply Hrel2. }
  case_decide as Hcn.
  - rewrite wp_switch. split_and!; try done.
    + apply (guar_step _ k); auto.
    + by exists th.
    + intros Hl prev k' Hi' Hr' Hoff' Hprev Hrel. apply wp_ret.
      change (running k1) with (running k) in *. change (threads k1) with (threads k) in Hl.
      apply Htail; auto using guar_refl.
      * apply (re_keeps _ _ _ Hrel Hl). exists th. split_and!; try done.
        destruct Hl as (s & Es & ?). unfold st in Es. rewrite E in Es. by simplify_eq/=.
      * etrans; [apply Hr1|done].
  - apply wp_ret. assert (running k = n) as Hn by (apply dec_stable; congruence).
    rewrite <-Hn in Hip.
    assert (live (threads k) (running k)) as Hl.
    { destruct (si_running _ _ _ _ _ _ _ _ (inv_sched _ _ Hip)) as [_ [Es|[_ Es]]]; by eexists. }
    apply Htail; auto.
    + exists th. split_and!; try done. destruct Hl as (s & Es & ?). unfold st in Es.
      rewrite E in Es. by simplify_eq/=.
    + apply (guar_step _ k); auto.
Qed.
