(* ===== verification/KSync.v ===== *)
(** * Specifications, continued: giving up the processor, semaphores, locks

    The functions of thread.c and synch.c that can block or yield, against
    the invariant of KLogic. *)

From S2P Require Import Prelude KList Kernel KProg KLogic KSpec.

Lemma st_lookup ths t th : ths !! t = Some th → st ths t = Some (status th).
Proof. unfold st. by intros ->. Qed.

(** ** Giving up the processor *)

(** The running thread, as [thread_current] wants it. *)
Lemma inv_current k :
  inv Runs k → ∃ th, threads k !! running k = Some th ∧ running k ≠ NULL ∧
    magic th = THREAD_MAGIC ∧ status th = THREAD_RUNNING ∧ frames th = Switched.
Proof.
  intros Hi. pose proof (inv_sched _ _ Hi) as Hs.
  destruct (si_running _ _ _ _ _ _ _ _ Hs) as [E _]. unfold st in E.
  destruct (threads k !! running k) as [th|] eqn:Eth; [|done]. simpl in E. simplify_eq.
  destruct (inv_thread _ _ _ _ Hi Eth). exists th. split_and!; try done.
  destruct (frames th) eqn:Ek; [..|done].
  all: destruct (si_new _ _ _ _ _ _ _ _ Hs _ _ Eth) as (_ & _ & Hn); [by rewrite Ek|].
  all: rewrite Ek in Hn; naive_solver congruence.
Qed.

Lemma current_run k : inv Runs k → thread_current k = Ok (running k, k).
Proof. intros (th & ? & ? & ? & ? & _)%inv_current. by eapply thread_current_ok. Qed.

Lemma running_live k : inv Runs k → live (threads k) (running k).
Proof.
  intros Hi. destruct (si_running _ _ _ _ _ _ _ _ (inv_sched _ _ Hi)) as [E _]. by eexists.
Qed.

Lemma running_not_waiting k s : inv Runs k → ¬ waits (semas k) (running k) s.
Proof.
  intros Hi Hw. destruct (se_waits _ _ _ _ _ (inv_sema _ _ Hi) _ _ Hw) as [E _].
  destruct (si_running _ _ _ _ _ _ _ _ (inv_sched _ _ Hi)) as [E' _]. congruence.
Qed.

Lemma running_not_sleeping k : inv Runs k → running k ∉ sleep_list k.
Proof.
  intros Hi Hs. destruct (si_sleep _ _ _ _ _ _ _ _ (inv_sched _ _ Hi) _ Hs) as [E _].
  destruct (si_running _ _ _ _ _ _ _ _ (inv_sched _ _ Hi)) as [E' _]. congruence.
Qed.

Lemma running_not_ready k : inv Runs k → running k ∉ ready_list k.
Proof.
  intros Hi Hs. apply (si_ready _ _ _ _ _ _ _ _ (inv_sched _ _ Hi)) in Hs as [E _].
  destruct (si_running _ _ _ _ _ _ _ _ (inv_sched _ _ Hi)) as [E' _]. congruence.
Qed.

Lemma lp_with_status ths c s hs page :
  lp_inv ths hs page → lp_inv (alter (with_status s) c ths) hs page.
Proof.
  intros [H1 H2 H3 H4 H5 H6 H7].
  assert (∀ t, lpl (alter (with_status s) c ths) t = lpl ths t) as E by (intros; by apply lpl_alter).
  split; intros *; rewrite ?E; eauto.
Qed.

Lemma cond_with_status ths c s cs ss :
  s ≠ THREAD_DYING → cond_inv ths cs ss → cond_inv (alter (with_status s) c ths) cs ss.
Proof.
  intros Hs [H1 H2 H3]. split; try done. intros t d Ht. destruct (H3 t d Ht) as [? ?].
  split; [|done]. by apply started_with_status.
Qed.

Definition blocked (k : kernel) : kernel :=
  map_thread (running k) (with_status THREAD_BLOCKED) k.

Lemma thread_block_spec Q k0 k th :
  threads k !! running k = Some th → running k ≠ NULL → magic th = THREAD_MAGIC →
  status th = THREAD_RUNNING → frames th = Switched → intr_on k = false → in_external_intr k = false →
  inv Leaves (blocked k) → guar k0 k → back (running k) k (Q 0) →
  wp thread_block Q k0 k.
Proof.
  intros E Hn Hm Hs Hk Hoff Hx Hi Hg HQ. unfold thread_block, act_unit.
  assert (live (threads k) (running k)) as Hl.
  { exists THREAD_RUNNING. by rewrite (st_lookup _ _ _ E), Hs. }
  assert (∀ t, rely t k (blocked k)) as Hr
    by (intros t; apply rely_alter; try done; naive_solver).
  apply wp_bind. eapply wp_act_off with (v := 0) (k' := blocked k); [|done|done|].
  { unfold intr_context, intr_get_level. mrun. rewrite Hx. simpl. rewrite Hoff. simpl.
    rewrite (thread_current_ok k th) by done. by rewrite (wr_thread_ok k _ th). }
  apply wp_ret, schedule_spec; try done.
  - simpl. rewrite lookup_alter_eq, E. eauto.
  - apply (guar_step _ k); auto.
  - intros _ k0' k' Ha Hrel. apply HQ; [done|]. etrans; [apply Hr|done].
Qed.

Lemma sched_block ths c rl sl al idle pg sl' :
  sched_inv Runs ths c rl sl al idle pg → (∃ th, ths !! c = Some th ∧ frames th = Switched) →
  NoDup sl' → (∀ t, t ∈ sl' → t ∈ sl ∨ t = c ∧ c ≠ idle) →
  sched_inv Leaves (alter (with_status THREAD_BLOCKED) c ths) c rl sl' al idle pg.
Proof.
  intros Hs Hc Hn Hsl. eapply sched_leave; try done; try by apply Hs.
  - naive_solver.
  - intros t Ht. destruct (Hsl t Ht); naive_solver.
  - naive_solver.
Qed.

Lemma waits_kept (ss : smap) s sm v ws t i :
  ss !! s = Some sm → (t ∈ waiters sm → t ∈ ws) → waits ss t i → waits (<[s := Semaphore v ws]> ss) t i.
Proof.
  intros Es Hw (sm' & E & Ht). unfold waits. destruct (decide (i = s)) as [->|].
  - rewrite lookup_insert_eq. simplify_eq. eauto.
  - rewrite lookup_insert_ne by done. eauto.
Qed.

(** The two ways [sema_down] and [thread_sleep] block. *)
Lemma inv_wait k s sm :
  inv Runs k → running k ≠ idle_thread k → semas k !! s = Some sm →
  (∀ t, s = WaiterSema t → t = running k) →
  inv Leaves (blocked (set_semas
    (<[s := Semaphore (value sm) (waiters sm ++ [running k])]> (semas k)) k)).
Proof.
  intros Hi Hid Es Hs. pose proof (inv_current _ Hi) as (th & E & _ & _ & Est & Ek).
  assert (st (threads k) (running k) = Some THREAD_RUNNING) as Er by (by rewrite (st_lookup _ _ _ E), Est).
  pose proof (running_not_sleeping _ Hi) as Hsl. pose proof Hi as [Hsc Hse Hlo Hlp Hco Hd Hx Hcl].
  split; try done; simpl.
  - eapply sched_block; [done|by exists th|by eapply si_sleep_nodup|auto].
  - apply sema_wait; try done. exists th. by rewrite Est.
  - destruct Hlo as [L1 L2 L3 L4]. split; try done.
    + intros l. rewrite L1. symmetry. by apply is_Some_insert_same.
    + intros l sm'. destruct (decide (LockSema l = s)) as [<-|]; [|by rewrite lookup_insert_ne; eauto].
      rewrite lookup_insert_eq. intros. simplify_eq/=. by eapply L3.
    + intros l t sm' ??. destruct (decide (LockSema l = s)) as [<-|]; [|by rewrite lookup_insert_ne; eauto].
      rewrite lookup_insert_eq. intros. simplify_eq/=. by eapply L4.
  - by apply lp_with_status.
  - apply cond_with_status; [done|]. destruct Hco as [C1 C2 C3]. split; try done.
    intros t c Ht. destruct (C3 t c Ht) as (? & sm' & ? & ?). split; [done|].
    destruct (decide (WaiterSema t = s)) as [<-|].
    + rewrite lookup_insert_eq. simplify_eq. by eexists.
    + rewrite lookup_insert_ne by done. by eexists.
  - eapply client_with_status; [done|by left|done| |].
    + intros t i _ Hw. exists i. eapply waits_kept; [done| |done]. set_solver.
    + intros _. right. right. exists s. unfold waits. rewrite lookup_insert_eq. eexists. split; [done|].
      set_solver.
Qed.

Lemma inv_set_intr pk b k : inv pk k → inv pk (set_intr_on b k).
Proof. intros []. by split. Qed.

Lemma rely_set_intr t b k0 k : rely t k0 k → rely t k0 (set_intr_on b k).
Proof. by apply rely_frame. Qed.

Lemma guar_set_intr b k0 k : guar k0 k → guar k0 (set_intr_on b k).
Proof. intros Hg t Ht. apply rely_set_intr. by apply Hg. Qed.

Lemma at_set_intr c lvl b k0 k : at_ c lvl k0 k → at_ c b k0 (set_intr_on b k).
Proof. intros []. split; try done; [by apply inv_set_intr|by apply guar_set_intr]. Qed.

Lemma is_true_Z_of_bool b : is_true_Z (Z_of_bool b) = b.
Proof. by destruct b. Qed.

(** [intr_set_level (old_level)] at the end of a function. *)
Lemma restore_spec c lvl Q k0 k :
  at_ c false k0 k →
  (∀ v k0' k', at_ c lvl k0' k' → rely c k k' → Q v k0' k') →
  wp (act_bool (intr_set_level lvl)) Q k0 k.
Proof.
  intros Ha HQ. pose proof Ha as [Hi Hg Hr Hl].
  eapply wp_act_at with (v := 0) (k' := set_intr_on lvl k); [|done|by eapply at_set_intr|].
  { mrun. rewrite intr_set_level_ok by (intros _; by apply (inv_ctx _ _ Hi)). by rewrite Hl. }
  intros k0' k'' Ha' Hrel. apply wp_ret, HQ; [done|]. etrans; [|done]. by apply rely_set_intr.
Qed.

(** [old_level = intr_disable ()] at the beginning of one. *)
Lemma disable_spec c lvl cont Q k0 k :
  at_ c lvl k0 k →
  wp (cont (Z_of_bool lvl)) Q k0 (set_intr_on false k) →
  wp (Act (b ← intr_disable; mret (Z_of_bool b)) cont) Q k0 k.
Proof.
  intros Ha Hw. pose proof Ha as [Hi Hg Hr Hl].
  eapply wp_act_off with (v := Z_of_bool lvl) (k' := set_intr_on false k); try done.
  mrun. rewrite intr_disable_ok. by rewrite Hl.
Qed.

Definition yielded (k : kernel) : kernel :=
  map_thread (running k) (with_status THREAD_READY)
    (if decide (running k ≠ idle_thread k) then set_ready_list (ready_list k ++ [running k]) k else k).

Lemma yielded_members k :
  running (yielded k) = running k ∧ intr_on (yielded k) = intr_on k ∧
  threads (yielded k) = alter (with_status THREAD_READY) (running k) (threads k) ∧
  (∀ t, inv Runs k → rely t k (yielded k)).
Proof.
  assert (∀ t, inv Runs k → rely t k (map_thread (running k) (with_status THREAD_READY) k)) as Hr.
  { intros t Hi. destruct (inv_current _ Hi) as (th & E & _ & _ & _ & Hs).
    apply rely_alter; try done; [by apply running_live|naive_solver]. }
  unfold yielded. case_decide; split_and!; try done. intros t Hi.
  eapply (rely_frame _ _ (map_thread (running k) (with_status THREAD_READY) k)); try done. auto.
Qed.

Lemma NoDup_snoc {A} (x : A) xs : NoDup xs → x ∉ xs → NoDup (xs ++ [x]).
Proof.
  intros Hn Hx. apply NoDup_app. split_and!; [done| |apply NoDup_singleton].
  by intros y Hy ->%list_elem_of_singleton.
Qed.

Lemma inv_yielded k : inv Runs k → inv Leaves (yielded k).
Proof.
  intros Hi. pose proof (inv_current _ Hi) as (th & E & _ & _ & Est & Ek).
  assert (st (threads k) (running k) = Some THREAD_RUNNING) as Er by (by rewrite (st_lookup _ _ _ E), Est).
  pose proof (running_not_ready _ Hi) as Hrd. pose proof Hi as [Hsc Hse Hlo Hlp Hco Hd Hx Hcl].
  assert (∀ rl', NoDup rl' → (∀ t, t ∈ rl' ↔ t ∈ ready_list k ∨ t = running k ∧ running k ≠ idle_thread k) →
    sched_inv Leaves (alter (with_status THREAD_READY) (running k) (threads k)) (running k) rl'
      (sleep_list k) (all_list k) (idle_thread k) (free_pages k)) as Hsch.
  { intros rl' Hn Hrl. eapply sched_leave; try done; [by exists th| |by eapply si_sleep_nodup|auto
      |by eapply si_all_nodup|naive_solver].
    intros t. rewrite Hrl. naive_solver. }
  assert (sema_inv Leaves (alter (with_status THREAD_READY) (running k) (threads k)) (semas k)
    (sleep_list k) (idle_thread k)) as Hsem by (eapply sema_leave; eauto).
  unfold yielded. case_decide as Hid; split; simpl; auto using lp_with_status;
    try (by apply cond_with_status); try (eapply client_with_status; eauto; by left); apply Hsch.
  - apply NoDup_snoc; [by eapply si_ready_nodup|done].
  - intros t. rewrite elem_of_app, list_elem_of_singleton. naive_solver.
  - by eapply si_ready_nodup.
  - naive_solver.
Qed.

Lemma thread_yield_spec c lvl Q k0 k :
  at_ c lvl k0 k → (∀ v k0' k', at_ c lvl k0' k' → rely c k k' → Q v k0' k') →
  wp thread_yield Q k0 k.
Proof.
  intros Ha HQ. unfold thread_yield, act.
  apply wp_bind.
  eapply wp_act_at; [apply current_run, (at_inv _ _ _ _ Ha)|by eapply at_running|exact Ha|].
  intros k0a ka Ha1 Hr1. apply wp_ret. rewrite (at_running _ _ _ _ Ha). clear Ha.
  apply wp_bind. unfold act_bool at 1.
  pose proof Ha1 as [Hi Hg Hr Hl].
  eapply wp_act_off with (v := Z_of_bool lvl) (k' := set_intr_on false ka); [|done|done|].
  { unfold intr_context. mrun. rewrite (inv_ctx _ _ Hi). simpl. by rewrite Hl. }
  apply wp_ret. set (kb := set_intr_on false ka).
  assert (inv Runs kb) as Hib by by apply inv_set_intr.
  pose proof (inv_current _ Hib) as (th & E & _ & _ & _ & Ek).
  destruct (yielded_members kb) as (Y1 & Y2 & Y3 & Y4). specialize (λ t, Y4 t Hib).
  apply wp_bind. eapply wp_act_off with (v := 0) (k' := yielded kb); [|done|by rewrite Y2|].
  { mrun. unfold yielded. change (running kb) with (running ka). rewrite Hr.
    change (idle_thread kb) with (idle_thread ka). rewrite <-Hr.
    case_decide; simpl; by rewrite (wr_thread_ok _ _ th). }
  apply wp_ret, wp_bind, schedule_spec; try done.
  - by apply inv_yielded.
  - rewrite Y3, Y1, lookup_alter_eq, E. by exists (with_status THREAD_READY th).
  - apply (guar_step _ kb); auto. by apply guar_set_intr.
  - rewrite Y1. change (running kb) with (running ka). rewrite Hr.
    intros _ k0' k' Ha' Hrel. rewrite is_true_Z_of_bool. eapply restore_spec; [done|].
    intros v k0'' k'' Ha'' Hrel'. apply HQ; [done|]. etrans; [done|].
    etrans; [|done]. etrans; [|done]. etrans; [|apply Y4]. by apply rely_set_intr.
Qed.

(** ** Semaphores *)

(** The semaphore outlives the wait of thread [c]. *)
Definition own_sema (c : Z) (s : sema_id) : Prop := ∀ t, s = WaiterSema t → t = c.

Lemma sema_kept c s k k' :
  inv Runs k → inv Runs k' → running k = c → rely c k k' → own_sema c s →
  is_Some (semas k !! s) → is_Some (semas k' !! s).
Proof.
  intros Hi Hi' Hr [Hg Hk _] Ho Hs. specialize (Hk ltac:(subst; by apply running_live)).
  destruct s as [a|l|t].
  - by apply Hg.
  - apply (lo_sema _ _ (inv_lock _ _ Hi')), Hg. by apply (lo_sema _ _ (inv_lock _ _ Hi)).
  - rewrite (Ho t) in * by done. by apply Hk.
Qed.

Definition downed (s : sema_id) (sm : semaphore) (k : kernel) : kernel :=
  set_semas (<[s := Semaphore (value sm - 1) (waiters sm)]> (semas k)) k.

Lemma lookup_insert_case {A} (m : gmap sema_id A) s s' x :
  <[s := x]> m !! s' = if decide (s' = s) then Some x else m !! s'.
Proof. case_decide; subst; [apply lookup_insert_eq|by apply lookup_insert_ne]. Qed.

(** A change of the values of semaphores only. *)
Lemma sema_inv_values pk ths ss sl idle s sm v :
  sema_inv pk ths ss sl idle → ss !! s = Some sm → 0 ≤ v < 2 ^ 32 →
  sema_inv pk ths (<[s := Semaphore v (waiters sm)]> ss) sl idle.
Proof.
  intros [Hv Hn Hw Hu Hwt] Es Hb.
  assert (∀ t s', waits (<[s := Semaphore v (waiters sm)]> ss) t s' ↔ waits ss t s') as Ew.
  { intros t s'. rewrite waits_insert. case_decide; [subst|done]. unfold waits. simpl. naive_solver. }
  split.
  - intros s' sm'. rewrite lookup_insert_case. case_decide; [|apply Hv]. intros. by simplify_eq/=.
  - intros s' sm'. rewrite lookup_insert_case. case_decide; [|apply Hn]. intros. simplify_eq/=. by eapply Hn.
  - intros t s' ?%Ew. by eapply Hw.
  - intros t s1 s2 ?%Ew ?%Ew. by eapply Hu.
  - intros t u ?%Ew. by eapply Hwt.
Qed.

Lemma inv_downed pk k s sm :
  inv pk k → semas k !! s = Some sm → 0 < value sm → inv pk (downed s sm k).
Proof.
  intros [Hsc Hse Hlo Hlp Hco Hd Hx Hcl] Es Hp. pose proof (se_value _ _ _ _ _ Hse s sm Es) as Hb.
  split; try done; simpl.
  - apply sema_inv_values; [done|done|lia].
  - destruct Hlo as [L1 L2 L3 L4]. split; try done.
    + intros l. rewrite L1. symmetry. apply is_Some_insert_same. by eexists.
    + intros l sm'. rewrite lookup_insert_case. case_decide; [subst|apply L3].
      intros. simplify_eq/=. specialize (L3 l sm Es). lia.
    + intros l t sm' Hh Ht. rewrite lookup_insert_case. case_decide; [subst|by eapply L4].
      intros. simplify_eq/=. specialize (L4 l t sm Hh Ht Es). lia.
  - destruct Hco as [C1 C2 C3]. split; try done.
    intros t c Ht. destruct (C3 t c Ht) as (? & sm' & E & ?). split; [done|].
    rewrite lookup_insert_case. case_decide; [subst; simplify_eq; lia|eauto].
  - eapply client_semas; [done|]. intros t i Hw. exists i. by eapply waits_kept.
Qed.

Lemma rely_downed t k s sm : semas k !! s = Some sm → rely t k (downed s sm k).
Proof. intros E. apply rely_sema_insert. by eexists. Qed.

Lemma at_downed c lvl k0 k s sm :
  at_ c lvl k0 k → semas k !! s = Some sm → 0 < value sm → at_ c lvl k0 (downed s sm k).
Proof.
  intros [Hi Hg Hr Hl] Es Hp. split; try done; [by apply inv_downed|].
  apply (guar_step _ k); auto using rely_downed.
Qed.

(** [thread_block] in the loop of [sema_down]. *)
Lemma sema_block_spec c Q k0 k s sm :
  at_ c false k0 k → c ≠ idle_thread k → own_sema c s → semas k !! s = Some sm →
  back c k (Q 1) →
  wp (act_unit (sm ← rd_sema s; t ← thread_current;
        wr_sema s (Semaphore (value sm) (waiters sm ++ [t])));~ thread_block;~ Ret 1) Q k0 k.
Proof.
  intros [Hi Hg Hr Hl] Hid Ho Es HQ. subst c.
  set (k1 := set_semas (<[s := Semaphore (value sm) (waiters sm ++ [running k])]> (semas k)) k).
  assert (∀ t, rely t k k1) as Hr1 by (intros t; apply rely_sema_insert; by eexists).
  apply wp_bind. unfold act_unit. eapply wp_act_off with (v := 0) (k' := k1); [|done|done|].
  { unfold rd_sema. mrun. rewrite Es. by rewrite current_run. }
  apply wp_ret. pose proof (inv_current _ Hi) as (th & E & ? & ? & ? & ?).
  apply wp_bind. eapply thread_block_spec; try done.
  - by apply inv_ctx in Hi.
  - by apply inv_wait.
  - apply (guar_step _ k); auto.
  - intros k0' k' Ha Hrel. apply HQ; [done|]. etrans; [apply Hr1|done].
Qed.

Lemma sema_down_core c lvl s Q k0 k :
  at_ c lvl k0 k → c ≠ idle_thread k → own_sema c s → sema_nonnull s = true → is_Some (semas k !! s) →
  (∀ k0' k' sm, at_ c false k0' k' → rely c k k' → semas k' !! s = Some sm → 0 < value sm →
     wp (act_bool (intr_set_level lvl)) Q k0' (downed s sm k')) →
  wp (sema_down s) Q k0 k.
Proof.
  intros Ha Hid Ho En Hs HQ. pose proof Ha as [Hi Hg Hr Hl]. unfold sema_down.
  apply wp_bind. unfold act_bool at 1.
  eapply wp_act_off with (v := Z_of_bool lvl) (k' := set_intr_on false k); [|done|done|].
  { unfold intr_context. mrun. rewrite En. simpl. rewrite (inv_ctx _ _ Hi). simpl. by rewrite Hl. }
  apply wp_ret. rewrite is_true_Z_of_bool.
  exists (λ k0' k', at_ c false k0' k' ∧ rely c k k'). split.
  { split; [by eapply at_set_intr|]. by apply rely_set_intr. }
  intros k1 k2 [Ha2 Hr2]. pose proof Ha2 as [Hi2 Hg2 Hrun2 Hl2].
  destruct (sema_kept c s k k2) as [sm Es]; try done.
  assert (c ≠ idle_thread k2) as Hid2 by (rewrite (gr_idle _ _ (re_grows _ _ _ Hr2)); done).
  apply wp_bind. unfold act_bool at 1.
  eapply wp_act_off with (v := Z_of_bool (bool_decide (value sm = 0))) (k' := k2); [|done|done|].
  { unfold rd_sema. mrun. by rewrite Es. }
  apply wp_ret. rewrite is_true_Z_of_bool. case_bool_decide as Ev.
  - eapply sema_block_spec; try done. intros k0' k' Ha' Hrel. simpl. split; [done|]. by etrans.
  - apply wp_ret. simpl. pose proof (se_value _ _ _ _ _ (inv_sema _ _ Hi2) s sm Es) as Hb.
    apply wp_bind. unfold act_unit. eapply wp_act_off with (v := 0) (k' := downed s sm k2); [|done|done|].
    { unfold rd_sema. mrun. rewrite Es. unfold downed. simpl. by rewrite wrapu_small by (unfold in_u; lia). }
    apply wp_ret. apply HQ; try done. lia.
Qed.

Lemma sema_down_spec c lvl s Q k0 k :
  at_ c lvl k0 k → c ≠ idle_thread k → own_sema c s → sema_nonnull s = true → is_Some (semas k !! s) →
  (∀ v k0' k', at_ c lvl k0' k' → rely c k k' → Q v k0' k') →
  wp (sema_down s) Q k0 k.
Proof.
  intros Ha Hid Ho En Hs HQ. eapply sema_down_core; try done.
  intros k0' k' sm Ha' Hr' Es Hp. eapply restore_spec; [by apply at_downed|].
  intros v k0'' k'' Ha'' Hr''. apply HQ; [done|]. etrans; [done|]. etrans; [|done]. by apply rely_downed.
Qed.

Lemma started_not_new ths t th x : started ths t → ths !! t = Some th → frames th ≠ NoFrames x.
Proof. intros (th' & E & _ & Hf) E'. congruence. Qed.

(** A blocked thread is put on the run queue. *)
Lemma sched_unblock ths c rl sl sl' al idle pg t :
  sched_inv Runs ths c rl sl al idle pg → st ths t = Some THREAD_BLOCKED → t ≠ idle →
  (∀ th x, ths !! t = Some th → frames th ≠ NoFrames x) → NoDup sl' → (∀ u, u ∈ sl' → u ∈ sl ∧ u ≠ t) →
  sched_inv Runs (alter (with_status THREAD_READY) t ths) c (rl ++ [t]) sl' al idle pg.
Proof.
  intros [[Hr Hu] Hn1 Hrd ? Hsl ? Hal Hid Hth Hnew Hdy ? Hpg] Et Hti Hnf ? Hsl'.
  pose proof (st_exists _ _ _ Et) as Hex. assert (t ≠ c) by congruence.
  assert (∀ u, st (alter (with_status THREAD_READY) t ths) u =
    if decide (u = t) then Some THREAD_READY else st ths u) as Est by (intros; by apply st_with_status).
  assert (∀ u, lpl (alter (with_status THREAD_READY) t ths) u = lpl ths u) as Elp by (intros; by apply lpl_alter).
  assert (∀ u, live (alter (with_status THREAD_READY) t ths) u ↔ live ths u) as Eli.
  { intros u. rewrite live_with_status by done. case_decide; [subst|done].
    split; [intros _; by eexists|done]. }
  split; try done.
  - rewrite Est, decide_False by done. split; [done|]. intros u. rewrite Est. case_decide; [done|apply Hu].
  - apply NoDup_snoc; [done|]. rewrite Hrd. intros [E _]. congruence.
  - intros u. rewrite elem_of_app, list_elem_of_singleton, Hrd, Est. case_decide; subst; naive_solver.
  - intros u Hu'. destruct (Hsl' u Hu') as [Hin ?]. rewrite Est, decide_False, started_alter_ne by done.
    by apply Hsl.
  - intros u. by rewrite Hal, Eli.
  - by rewrite Eli, Elp.
  - intros u th. rewrite lookup_alter_case. case_decide; [subst|apply Hth].
    destruct (ths !! t) as [tht|] eqn:E; [|done]. simpl. intros. simplify_eq. by apply (Hth _ _ E).
  - intros u th. rewrite lookup_alter_case. case_decide; [subst|apply Hnew].
    destruct (ths !! t) as [tht|] eqn:E; [|done]. simpl. intros Eq Hk. simplify_eq.
    destruct (Hnew _ _ E Hk) as (?&?&Hf). split_and!; try done. simpl.
    destruct (frames tht) eqn:Ef; [by destruct (Hnf tht creator)|naive_solver|done].
  - intros u. rewrite Est, Elp. case_decide; [done|apply Hdy].
  - intros u Hu'. destruct (Hpg u Hu') as [? E]. split; [done|]. by apply lookup_alter_None.
Qed.

(** Raising a semaphore: its value becomes [v], and [t] is taken off it. *)
Lemma sema_inv_wake pk ths ss sl idle s sm v t :
  sema_inv pk ths ss sl idle → ss !! s = Some sm → 0 ≤ v < 2 ^ 32 → t ∈ waiters sm →
  sema_inv pk (alter (with_status THREAD_READY) t ths)
    (<[s := Semaphore v (list_del t (waiters sm))]> ss) sl idle.
Proof.
  intros [Hv Hn Hw Hu Hwt] Es Hb Ht.
  assert (waits ss t s) as Hts by by exists sm.
  assert (∀ u s', waits (<[s := Semaphore v (list_del t (waiters sm))]> ss) u s' →
    waits ss u s' ∧ u ≠ t) as Ew.
  { intros u s'. rewrite waits_insert. case_decide as E.
    - subst. simpl. rewrite elem_of_list_del. intros [? ?]. split; [by exists sm|done].
    - intros Hw'. split; [done|]. intros ->. by rewrite (Hu _ _ _ Hw' Hts) in E. }
  split.
  - intros s' sm'. rewrite lookup_insert_case. case_decide; [|apply Hv]. intros. by simplify_eq/=.
  - intros s' sm'. rewrite lookup_insert_case. case_decide; [|apply Hn]. intros. simplify_eq/=.
    eapply NoDup_list_del, Hn, Es.
  - intros u s' [Hu' ?]%Ew. destruct (Hw u s' Hu') as (?&?&?&?&?). destruct (Hw t s Hts) as (Et & _).
    rewrite st_with_status by by eapply st_exists. by rewrite decide_False, started_alter_ne.
  - intros u s1 s2 [? _]%Ew [? _]%Ew. by eapply Hu.
  - intros u w [? _]%Ew. by eapply Hwt.
Qed.

(** When a semaphore may be raised: a lock only after its holder has been
    cleared, a waiter's only after it has left the condition variable. *)
Definition up_ok (s : sema_id) (sm : semaphore) (k : kernel) : Prop :=
  match s with
  | SemaAt _ => True
  | LockSema l => holders k !! l = Some NULL ∧ value sm = 0
  | WaiterSema t => ∀ c, ¬ in_cond (conds k) t c
  end.

Lemma lock_inv_up k s sm ws :
  lock_inv (holders k) (semas k) → semas k !! s = Some sm → up_ok s sm k →
  lock_inv (holders k) (<[s := Semaphore (u32 (value sm + 1)) ws]> (semas k)).
Proof.
  intros [L1 L2 L3 L4] Es Hu. split; try done.
  - intros l. rewrite L1. symmetry. apply is_Some_insert_same. by eexists.
  - intros l sm'. rewrite lookup_insert_case. case_decide; [subst|apply L3].
    intros. simplify_eq/=. destruct Hu as [_ ->]. done.
  - intros l t sm' Hh Ht. rewrite lookup_insert_case. case_decide; [subst|by eapply L4].
    destruct Hu as [Hn _]. congruence.
Qed.

Lemma cond_inv_up ths k s sm ws :
  cond_inv ths (conds k) (semas k) → semas k !! s = Some sm → up_ok s sm k →
  cond_inv ths (conds k) (<[s := Semaphore (u32 (value sm + 1)) ws]> (semas k)).
Proof.
  intros [C1 C2 C3] Es Hu. split; try done. intros t c Ht.
  destruct (C3 t c Ht) as (? & sm' & E & ?). split; [done|]. rewrite lookup_insert_case.
  case_decide; [subst|eauto]. by destruct (Hu c).
Qed.

Lemma u32_range x : 0 ≤ u32 x < 2 ^ 32.
Proof. by apply (wrapu_range 32). Qed.

Definition woken (s : sema_id) (sm : semaphore) (t : Z) (k : kernel) : kernel :=
  unblocked t (set_semas (<[s := Semaphore (u32 (value sm + 1)) (list_del t (waiters sm))]> (semas k)) k).

Lemma inv_woken k s sm t :
  inv Runs k → semas k !! s = Some sm → up_ok s sm k → t ∈ waiters sm → inv Runs (woken s sm t k).
Proof.
  intros [Hsc Hse Hlo Hlp Hco Hd Hx Hcl] Es Hu Ht.
  destruct (se_waits _ _ _ _ _ Hse t s) as (Est & Hst & Hid & Hsl & _); [by exists sm|].
  split; try done; simpl.
  - eapply sched_unblock; try done; [|by eapply si_sleep_nodup|intros u Hu'; split; [done|congruence]].
    intros th x Eth. by apply (started_not_new _ _ _ _ Hst).
  - apply sema_inv_wake; auto using u32_range.
  - by apply lock_inv_up.
  - by apply lp_with_status.
  - apply cond_with_status; [done|]. by apply cond_inv_up.
  - eapply client_with_status; [done|by left|done| |done]. intros u i Hne Hw. exists i.
    eapply waits_kept; [done| |done]. by rewrite elem_of_list_del.
Qed.

Lemma rely_woken u k s sm t :
  semas k !! s = Some sm → started (threads k) t → rely u k (woken s sm t k).
Proof.
  intros Es Hl. etrans; [apply (rely_sema_insert _ _ s); by eexists|].
  eapply (rely_frame _ _ (map_thread t (with_status THREAD_READY) (set_semas _ k))); try done.
  apply rely_alter; try done; [by apply started_live|].
  intros th E Hf. destruct Hl as (x & Ex & _ & ?). simpl in E. congruence.
Qed.

Lemma inv_upped k s sm :
  inv Runs k → semas k !! s = Some sm → up_ok s sm k → waiters sm = [] →
  inv Runs (set_semas (<[s := Semaphore (u32 (value sm + 1)) []]> (semas k)) k).
Proof.
  intros [Hsc Hse Hlo Hlp Hco Hd Hx Hcl] Es Hu Hw. split; try done; simpl.
  - rewrite <-Hw. apply sema_inv_values; auto using u32_range.
  - by apply lock_inv_up.
  - by apply cond_inv_up.
  - eapply client_semas; [done|]. intros t i Ht. exists i. eapply waits_kept; [done| |done]. by rewrite Hw.
Qed.
