(* ===== verification/KSync2.v ===== *)
(** * Specifications, continued: raising semaphores, locks, donation

    [sema_up], [lock_acquire] with priority donation, and [lock_release]. *)

From S2P Require Import Prelude KList Kernel KProg KLogic KSpec KSync.

Lemma get_priority_run k :
  inv Runs k → ∃ th, threads k !! running k = Some th ∧ thread_get_priority k = Ok (priority th, k).
Proof.
  intros Hi. pose proof (inv_current _ Hi) as (th & E & _). exists th. split; [done|].
  unfold thread_get_priority. erewrite bind_ok by by apply current_run.
  by erewrite bind_ok by by apply rd_thread_ok.
Qed.

Lemma sema_up_wake_ok c k0 k s sm :
  at_ c false k0 k → semas k !! s = Some sm → up_ok s sm k →
  ∃ b k', sema_up_wake s k = Ok (b, k') ∧ at_ c false k0 k' ∧ (∀ t, rely t k k') ∧
    holders k' = holders k ∧ conds k' = conds k.
Proof.
  intros [Hi Hg Hr Hl] Es Hu. unfold sema_up_wake, rd_sema. mrun. rewrite Es.
  destruct (waiters sm) as [|x xs] eqn:Ew.
  { eexists _, _. split; [done|].
    assert (∀ t, rely t k (set_semas (<[s := Semaphore (u32 (value sm + 1)) []]> (semas k)) k)) as Hrel.
    { intros t. apply rely_sema_insert. by eexists. }
    split_and!; try done. split; try done; [by apply inv_upped|]. by apply (guar_step _ k); auto. }
  pose proof (inv_sema _ _ Hi) as Hse.
  assert (∀ t, t ∈ x :: xs → st (threads k) t = Some THREAD_BLOCKED) as Hbl.
  { intros t Ht. rewrite <-Ew in Ht. destruct (se_waits _ _ _ _ _ Hse t s) as (E & _); [by exists sm|done]. }
  unfold wr_sema at 1. mrun.
  rewrite list_max_by_ok.
  2: { intros t Ht. apply Hbl in Ht. apply st_exists in Ht as [th E].
       unfold thread_priority_convert_func. simpl. by rewrite E. }
  set (t := max_from _ x xs).
  assert (t ∈ x :: xs) as Ht by apply max_from_elem, _. pose proof (Hbl t Ht) as Hst.
  pose proof (st_exists _ _ _ Hst) as [tht Et]. pose proof (inv_thread _ _ _ _ Hi Et) as [Hnn Hm].
  unfold wr_sema. mrun. cbn [semas set_semas].
  match goal with |- context [thread_unblock t ?k'] => set (k1 := k') end.
  assert (k1 = set_semas (<[s := Semaphore (u32 (value sm + 1)) (list_del t (waiters sm))]> (semas k)) k)
    as Ek1 by (subst k1; rewrite Ew; simpl; by rewrite insert_insert_eq).
  rewrite (thread_unblock_ok k1 t tht); rewrite ?Ek1; try done.
  2: { rewrite (st_lookup _ _ _ Et) in Hst. congruence. }
  2: { intros _. by apply inv_ctx in Hi. }
  cbn iota. fold (woken s sm t k). 
  assert (inv Runs (woken s sm t k)) as Hi' by (apply inv_woken; [done..|by rewrite Ew]).
  assert (∀ u, rely u k (woken s sm t k)) as Hrel.
  { intros u. apply rely_woken; [done|]. apply (se_waits _ _ _ _ _ Hse t s). exists sm. by rewrite Ew. }
  assert (at_ c false k0 (woken s sm t k)) as Ha.
  { split; try done. by apply (guar_step _ k); auto. }
  change (priority_donation_enabled (woken s sm t k)) with (priority_donation_enabled k).
  rewrite (inv_donation _ _ Hi).
  assert (is_Some (threads (woken s sm t k) !! t)) as [tht' Et'].
  { simpl. rewrite lookup_alter_eq, Et. by eexists. }
  rewrite (rd_thread_ok _ _ _ Et'). destruct (get_priority_run _ Hi') as (thc & Ec & ->).
  eexists _, _. done.
Qed.

Lemma sema_up_spec c lvl s sm Q k0 k :
  at_ c lvl k0 k → sema_nonnull s = true → semas k !! s = Some sm → up_ok s sm k →
  (∀ v k0' k', at_ c lvl k0' k' → rely c k k' → Q v k0' k') →
  wp (sema_up s) Q k0 k.
Proof.
  intros Ha En Es Hu HQ. pose proof Ha as [Hi Hg Hr Hl]. unfold sema_up.
  apply wp_bind. unfold act_bool at 1.
  eapply wp_act_off with (v := Z_of_bool lvl) (k' := set_intr_on false k); [|done|done|].
  { mrun. rewrite En. by rewrite intr_disable_ok, Hl. }
  apply wp_ret. rewrite is_true_Z_of_bool.
  destruct (sema_up_wake_ok c k0 (set_intr_on false k) s sm) as (b & k1 & E & Ha1 & Hr1 & _);
    [by eapply at_set_intr|done|done|].
  apply wp_bind. unfold act_bool at 1. eapply wp_act_off with (v := Z_of_bool b) (k' := k1).
  { mrun. by rewrite E. }
  { rewrite (at_running _ _ _ _ Ha1). done. }
  { by eapply at_level. }
  apply wp_ret. rewrite is_true_Z_of_bool.
  assert (rely c k k1) as Hrel by (etrans; [|apply Hr1]; by apply rely_set_intr).
  assert (∀ k0' k', at_ c false k0' k' → rely c k k' →
    wp (act_bool (intr_set_level lvl)) Q k0' k') as Hend.
  { intros k0' k' Ha' Hr'. eapply restore_spec; [done|]. intros. apply HQ; [done|]. by etrans. }
  apply wp_bind. destruct b; [|by apply wp_ret, Hend].
  eapply thread_yield_spec; [done|]. intros v k0' k' Ha' Hr'. apply Hend; [done|]. by etrans.
Qed.

(** ** Priority donation *)

(** Only effective priorities have changed; they have not decreased, and are in
    range if they were. *)
Definition thr_le (a b : option thread) : Prop :=
  match a, b with
  | None, None => True
  | Some x, Some y =>
      priority x ≤ priority y ∧ y = with_priority (priority y) x ∧ (pri_ok (priority x) → pri_ok (priority y))
  | _, _ => False
  end.

Definition lp_le (a b : option lock_priority) : Prop :=
  match a, b with
  | None, None => True
  | Some r, Some r' =>
      lp_priority r ≤ lp_priority r' ∧
      r' = LockPriority (in_use r) (waiting r) (lp_lock r) (lp_priority r') ∧ (pri_ok (lp_priority r) ↔ pri_ok (lp_priority r'))
  | _, _ => False
  end.

Record raises (k k' : kernel) : Prop := {
  ra_threads t : thr_le (threads k !! t) (threads k' !! t);
  ra_page i : lp_le (lock_priority_page k !! i) (lock_priority_page k' !! i);
  ra_frame : k' = set_threads (threads k') (set_lock_priority_page (lock_priority_page k') k)
}.

Lemma raises_refl k : raises k k.
Proof.
  split.
  - intros t. unfold thr_le. destruct (threads k !! t) as [[]|]; [|done]. split; [lia|done].
  - intros i. unfold lp_le. destruct (_ !! i) as [[]|]; [|done]. split; [lia|done].
  - by destruct k.
Qed.

Lemma raises_trans k1 k2 k3 : raises k1 k2 → raises k2 k3 → raises k1 k3.
Proof.
  intros [T1 P1 F1] [T2 P2 F2]. split.
  - intros t. specialize (T1 t). specialize (T2 t). unfold thr_le in *.
    destruct (threads k1 !! t) as [a|], (threads k2 !! t) as [b|], (threads k3 !! t) as [d|]; try done.
    destruct T1 as (? & E1 & ?), T2 as (? & E2 & ?). split; [lia|]. split; [|auto]. destruct a, b, d. unfold with_priority in *.
    simpl in *. congruence.
  - intros i. specialize (P1 i). specialize (P2 i). unfold lp_le in *.
    destruct (lock_priority_page k1 !! i) as [a|], (lock_priority_page k2 !! i) as [b|],
      (lock_priority_page k3 !! i) as [d|]; try done.
    destruct P1 as (? & E1 & ?), P2 as (? & E2 & ?). split; [lia|]. split; [|by etrans]. destruct a, b, d. simpl in *. congruence.
  - rewrite F2. rewrite F1. done.
Qed.

#[export] Instance raises_preorder : PreOrder raises.
Proof. split; [intros k; apply raises_refl|intros ???; apply raises_trans]. Qed.

Section raises.
  Context (k k' : kernel) (Hra : raises k k').

Lemma raises_lookup t th' :
  threads k' !! t = Some th' →
  ∃ th, threads k !! t = Some th ∧ priority th ≤ priority th' ∧ th' = with_priority (priority th') th ∧
    (pri_ok (priority th) → pri_ok (priority th')).
Proof.
  intros E. pose proof (ra_threads _ _ Hra t) as T. rewrite E in T. unfold thr_le in T.
  destruct (threads k !! t) as [th|]; [|done]. eauto.
Qed.

Lemma raises_lookup_None t : threads k !! t = None ↔ threads k' !! t = None.
Proof.
  pose proof (ra_threads _ _ Hra t) as T. unfold thr_le in T.
  destruct (threads k !! t), (threads k' !! t); naive_solver.
Qed.

Lemma raises_st t : st (threads k') t = st (threads k) t.
Proof.
  pose proof (ra_threads _ _ Hra t) as T. unfold thr_le, st in *.
  destruct (threads k !! t), (threads k' !! t); try done. destruct T as (_ & ET & _). by rewrite ET.
Qed.

Lemma raises_lpl t : lpl (threads k') t = lpl (threads k) t.
Proof.
  pose proof (ra_threads _ _ Hra t) as T. unfold thr_le, lpl in *.
  destruct (threads k !! t), (threads k' !! t); try done. destruct T as (_ & ET & _). by rewrite ET.
Qed.

Lemma raises_live t : live (threads k') t ↔ live (threads k) t.
Proof. unfold live. by setoid_rewrite raises_st. Qed.

Lemma raises_started t : started (threads k') t ↔ started (threads k) t.
Proof.
  pose proof (ra_threads _ _ Hra t) as T. unfold thr_le, started in *.
  destruct (threads k !! t) as [a|], (threads k' !! t) as [b|]; try done.
  destruct T as (_ & Eb & _). split; intros (th & [= <-] & Hs & Hk).
  - exists a. rewrite Eb in Hs, Hk. done.
  - exists b. rewrite Eb. done.
Qed.

Lemma raises_lp_is i w l : lp_is (lock_priority_page k') i w l ↔ lp_is (lock_priority_page k) i w l.
Proof.
  pose proof (ra_page _ _ Hra i) as P. unfold lp_le, lp_is in *.
  destruct (lock_priority_page k !! i) as [[]|], (lock_priority_page k' !! i) as [[]|]; naive_solver.
Qed.

Lemma raises_nascent t u fr : nascent (threads k') t u fr ↔ nascent (threads k) t u fr.
Proof.
  split; intros (th & E & Hb & Hf & Hc).
  - apply raises_lookup in E as (th0 & E & _ & E' & _). rewrite E' in *. by exists th0.
  - pose proof (ra_threads _ _ Hra u) as T.
    rewrite E in T. unfold thr_le in T. unfold nascent. destruct (threads k' !! u) as [th'|]; [|done].
    destruct T as (_ & -> & _). eexists. by split.
Qed.

Lemma inv_raises pk : inv pk k → inv pk k'.
Proof.
  intros [Hs He Hl Hp Hc Hd Hx Hcl]. pose proof (ra_frame _ _ Hra) as F.
  split; try (rewrite F; simpl; done).
  - rewrite F. simpl. destruct Hs as [S1 S2 S3 S4 S5 S6 S7 S8 S9 S10 S11 S12 S13]. split; try done.
    + destruct pk; setoid_rewrite raises_st; done.
    + intros t. by rewrite raises_st.
    + intros t. rewrite raises_st, raises_started. apply S5.
    + intros t. by rewrite raises_live.
    + by rewrite raises_live, raises_lpl.
    + intros t th' (th & E & ? & E' & Hp')%raises_lookup.
      destruct (S9 t th E) as (?&?&?&?). split_and!; [done|by rewrite E'|auto|by rewrite E'].
    + intros t th' (th & E & ? & E' & _)%raises_lookup. rewrite E'. simpl. by apply S10.
    + intros t. rewrite raises_st, raises_lpl. apply S11.
    + intros t Ht. destruct (S13 t Ht). split; [done|]. by apply raises_lookup_None.
  - rewrite F. simpl. destruct He as [E1 E2 E3 E4 E5]. split; try done. intros t s.
    rewrite raises_st, raises_started. apply E3.
  - rewrite F. simpl. destruct Hp as [P1 P2 P3 P4 P5 P6 P7].
    split; intros *; rewrite ?raises_lpl, ?raises_lp_is; eauto.
    + intros Hi. destruct (P2 t i Hi) as (w & l & ? & ?). exists w, l. by rewrite raises_lp_is.
    + intros Ht. setoid_rewrite raises_lp_is. by apply P6.
    + intros E. apply P7. pose proof (ra_page _ _ Hra 0%nat) as Hle. rewrite E in Hle.
      by destruct (lock_priority_page k).
  - rewrite F. simpl. destruct Hc as [C1 C2 C3]. split; try done. intros t c. rewrite raises_started. apply C3.
  - rewrite F. simpl. destruct Hcl as [C1 C2 C3]. split; [done| |].
    + intros t. rewrite raises_started. apply C2.
    + intros t th' (th & E & _ & E' & _)%raises_lookup. rewrite E'. simpl. apply (C3 t th E).
Qed.

Lemma rely_raises t : rely t k k'.
Proof.
  pose proof (ra_frame _ _ Hra) as F. split.
  - rewrite F. by split.
  - intros Hl. split; try (rewrite F; simpl; done).
    + by apply raises_live.
    + by rewrite raises_started.
    + apply raises_lpl.
    + intros i w l _. by rewrite raises_lp_is.
    + intros u fr. apply raises_nascent.
  - by rewrite raises_started.
Qed.
End raises.

Lemma lpl_lookup ths t th : ths !! t = Some th → lpl ths t = lock_priority_list th.
Proof. unfold lpl. by intros ->. Qed.

Lemma lpl_elem ths t i : i ∈ lpl ths t → ∃ th, ths !! t = Some th ∧ i ∈ lock_priority_list th.
Proof.
  unfold lpl. destruct (ths !! t) as [th|]; simpl; [eauto|]. by intros ?%not_elem_of_nil.
Qed.

Lemma find_lock_priority_ok k js l :
  (∀ j, j ∈ js → is_Some (lock_priority_page k !! j)) →
  ∃ r, find_lock_priority js l k = Ok (r, k) ∧
    match r with
    | Some i => i ∈ js ∧ ∃ r, lock_priority_page k !! i = Some r ∧ lp_lock r = l
    | None => ∀ j r, j ∈ js → lock_priority_page k !! j = Some r → lp_lock r ≠ l
    end.
Proof.
  induction js as [|j js IH]; intros Hex; simpl.
  { eexists. split; [done|]. by intros j r ?%not_elem_of_nil. }
  destruct (Hex j) as [r Er]; [by left|]. unfold rd_lp. mrun. rewrite Er. case_decide as El.
  { eexists. split; [done|]. simpl. split; [by left|eauto]. }
  destruct IH as (res & -> & Hres); [intros; apply Hex; by right|]. eexists. split; [done|].
  destruct res as [i|].
  - destruct Hres as [? ?]. split; [by right|done].
  - intros j' r' [->|Hj]%elem_of_cons Ej; [congruence|]. by eapply Hres.
Qed.

(** The record of a lock that a thread holds. *)
Lemma held_record pk k l h :
  inv pk k → holders k !! l = Some h → h ≠ NULL →
  ∃ th i p, threads k !! h = Some th ∧
    find_lock_priority (lock_priority_list th) l k = Ok (Some i, k) ∧
    i ∈ lpl (threads k) h ∧ lock_priority_page k !! i = Some (LockPriority true false l p) ∧ pri_ok p.
Proof.
  intros Hi Hh Hn. pose proof (inv_lp _ _ Hi) as [P1 P2 P3 P4 P5 P6].
  apply P6 in Hh as (i & Hin & Hlp); [|done].
  destruct (lpl_elem _ _ _ Hin) as (th & Eth & _). pose proof (lpl_lookup _ _ _ Eth) as El.
  destruct (find_lock_priority_ok k (lock_priority_list th) l) as (res & Ef & Hres).
  { intros j Hj. rewrite <-El in Hj. destruct (P2 h j Hj) as (w & l' & (p & E & _) & _). by eexists. }
  rewrite <-El in Hres. destruct res as [i'|].
  - destruct Hres as (Hi' & r & Er & Hl). destruct (P2 h i' Hi') as (w & l' & (p & E & Hp) & _).
    rewrite E in Er. simplify_eq/=.
    assert (i = i') as <- by (eapply P4; [exact Hin|exact Hi'|exact Hlp|by exists p]).
    destruct Hlp as (p' & E' & ?). exists th, i, p'. done.
  - destruct Hlp as (p & E & _). by destruct (Hres i _ Hin E).
Qed.

Definition low (p : Z) (ths : tmap) : nat := size (filter (λ x, priority x.2 < p) ths).

Lemma low_alter p ths h th :
  ths !! h = Some th → priority th < p → (low p (alter (with_priority p) h ths) < low p ths)%nat.
Proof.
  intros E Hp. unfold low. apply map_subset_size. split.
  - intros t. destruct (filter _ (alter _ _ _) !! t) as [x|] eqn:Ex; [|by destruct (filter _ ths !! t)].
    apply map_lookup_filter_Some in Ex as [Ex Hx]. simpl in Hx.
    apply lookup_alter_inv in Ex as [(-> & th0 & E0 & ->)|(? & E')]; [simpl in Hx; lia|].
    replace (filter _ ths !! t) with (Some x); [done|]. symmetry. by apply map_lookup_filter_Some.
  - intros Hs. specialize (Hs h).
    replace (filter _ ths !! h) with (Some th) in Hs by (symmetry; by apply map_lookup_filter_Some).
    destruct (filter _ (alter _ _ _) !! h) as [x|] eqn:Ex; [|done].
    apply map_lookup_filter_Some in Ex as [Ex Hx]. simpl in Hx.
    rewrite lookup_alter_eq, E in Ex. injection Ex as <-. simpl in Hx. lia.
Qed.

Lemma raises_priority k h p th :
  threads k !! h = Some th → priority th ≤ p → pri_ok p → raises k (map_thread h (with_priority p) k).
Proof.
  intros E Hp Hok. split; [| |done].
  - intros t. simpl. rewrite lookup_alter_case. case_decide as Et.
    + subst. rewrite E. simpl. done.
    + apply (ra_threads _ _ (raises_refl k)).
  - apply (ra_page _ _ (raises_refl k)).
Qed.

Lemma raises_lp k i r p :
  lock_priority_page k !! i = Some r → lp_priority r ≤ p → pri_ok (lp_priority r) → pri_ok p →
  raises k (set_lock_priority_page
    (<[i := LockPriority (in_use r) (waiting r) (lp_lock r) p]> (lock_priority_page k)) k).
Proof.
  intros E Hp Hr Hok. split; [apply (ra_threads _ _ (raises_refl k))| |done].
  intros j. simpl. destruct (decide (j = i)) as [->|].
  - rewrite list_lookup_insert_eq by by eapply lookup_lt_Some. by rewrite E.
  - rewrite list_lookup_insert_ne by done. apply (ra_page _ _ (raises_refl k)).
Qed.

(** [donate_priority] raises the holder to at least [p]. *)
Lemma donate_priority_ok pk k l h p :
  inv pk k → holders k !! l = Some h → h ≠ NULL → pri_ok p →
  ∃ th k', threads k !! h = Some th ∧
    donate_priority l p k = Ok (bool_decide (p > priority th), k') ∧ raises k k' ∧
    threads k' = (if bool_decide (p > priority th)
                  then alter (with_priority p) h (threads k) else threads k) ∧
    (∃ i r, i ∈ lpl (threads k) h ∧ lock_priority_page k' !! i = Some r ∧ lp_lock r = l ∧
       p ≤ lp_priority r).
Proof.
  intros Hi Hh Hn Hp. destruct (held_record _ _ _ _ Hi Hh Hn) as (th & i & q & Eth & Ef & Hin & Ei & Hq).
  set (k1 := if bool_decide (p > priority th) then map_thread h (with_priority p) k else k).
  assert (raises k k1) as Hr1.
  { unfold k1. case_bool_decide; [|apply raises_refl]. eapply raises_priority; [done|lia|done]. }
  assert (lock_priority_page k1 = lock_priority_page k) as Epg by (unfold k1; by case_bool_decide).
  exists th, (if decide (p > q) then
    set_lock_priority_page (<[i := LockPriority true false l p]> (lock_priority_page k1)) k1 else k1).
  split; [done|]. split.
  { unfold donate_priority, rd_holder. mrun. rewrite Hh, (rd_thread_ok _ _ _ Eth), Ef.
    assert ((if bool_decide (p > priority th) then wr_thread h (with_priority p) else mret tt) k = Ok (tt, k1))
      as E1 by (unfold k1; case_bool_decide; [by eapply wr_thread_ok|done]).
    unfold mret, M_ret in E1. rewrite E1. unfold deref, rd_lp. mrun. rewrite Epg, Ei. simpl.
    destruct (decide (p > q)); [unfold wr_lp; mrun; by rewrite Epg|done]. }
  split_and!.
  - etrans; [exact Hr1|]. case_decide; [|apply raises_refl].
    apply (raises_lp k1 i (LockPriority true false l q)); [by rewrite Epg|simpl; lia|done|done].
  - unfold k1. by case_decide; case_bool_decide.
  - exists i, (LockPriority true false l (if decide (p > q) then p else q)). split; [done|].
    case_decide; simpl; rewrite ?Epg; split_and!; try done; try lia.
    rewrite list_lookup_insert_eq; [done|]. by eapply lookup_lt_Some.
Qed.

(** What [donate_priority_recursively] does after donating to the holder [h],
    which was [th] before. *)
Definition donate_cont (fuel : nat) (p h : Z) (th : thread) (k k1 : kernel) : result (unit * kernel) :=
  if bool_decide (p > priority th) then
    match head (lpl (threads k) h) with
    | None => Err AssertFailed
    | Some i =>
        match lock_priority_page k1 !! i with
        | Some r =>
            if waiting r then
              match holders k !! lp_lock r with
              | Some h' => if decide (h' ≠ NULL) then donate_loop fuel (lp_lock r) p k1 else Ok (tt, k1)
              | None => Err BadAccess
              end
            else Ok (tt, k1)
        | None => Err BadAccess
        end
    end
  else Ok (tt, k1).

(** One level of [donate_priority_recursively]. *)
Lemma donate_loop_step fuel pk k l h p :
  inv pk k → holders k !! l = Some h → h ≠ NULL → PRI_MIN ≤ p ∧ p ≤ PRI_MAX →
  ∃ th k1, threads k !! h = Some th ∧ raises k k1 ∧
    threads k1 = (if bool_decide (p > priority th)
                  then alter (with_priority p) h (threads k) else threads k) ∧
    donate_loop (S fuel) l p k = donate_cont fuel p h th k k1.
Proof.
  intros Hi Hh Hn Hp.
  destruct (donate_priority_ok _ _ _ _ p Hi Hh Hn Hp) as (th & k1 & Eth & Ed & Hra & Et & _).
  exists th, k1. split_and!; try done.
  assert (l ≠ NULL) as Hl.
  { intros ->. by rewrite (lo_null _ _ (inv_lock _ _ Hi)) in Hh. }
  assert (holders k1 = holders k) as Eh by (rewrite (ra_frame _ _ Hra); done).
  cbn [donate_loop]. unfold rd_holder. mrun. rewrite bool_decide_eq_true_2 by done.
  cbn iota. rewrite Hh. rewrite !bool_decide_eq_true_2 by done. cbn iota. rewrite Ed.
  unfold donate_cont.
  case_bool_decide as Eb; [|done]. rewrite Eh, Hh. rewrite (lpl_lookup _ _ _ Eth).
  assert (threads k1 !! h = Some (with_priority p th)) as Eth1 by (by rewrite Et, lookup_alter_eq, Eth).
  rewrite (rd_thread_ok _ _ _ Eth1). cbn [lock_priority_list with_priority].
  destruct (lock_priority_list th) as [|i js]; simpl; [done|]. unfold rd_lp.
  destruct (lock_priority_page k1 !! i) as [r|]; [|done]. destruct (waiting r); [|done].
  rewrite Eh. destruct (holders k !! lp_lock r) as [h'|]; [|done]. by case_decide.
Qed.

Lemma raises_holders k k' : raises k k' → holders k' = holders k ∧ semas k' = semas k.
Proof. intros Hra. rewrite (ra_frame _ _ Hra). done. Qed.

Lemma head_lpl pk k t i :
  inv pk k → head (lpl (threads k) t) = Some i →
  ∃ w l p, lock_priority_page k !! i = Some (LockPriority true w l p) ∧ is_Some (holders k !! l).
Proof.
  intros Hi Hh. destruct (lp_record _ _ _ (inv_lp _ _ Hi) t i) as (w & l & (p & E & _) & Hl);
    [by apply head_Some_elem_of|]. eauto 10.
Qed.

(** It never follows a bad pointer, and the bound on the depth is enough. *)
Lemma donate_loop_total fuel pk k l h p :
  inv pk k → holders k !! l = Some h → h ≠ NULL → PRI_MIN ≤ p ∧ p ≤ PRI_MAX →
  (low p (threads k) < fuel)%nat →
  ∃ k', donate_loop fuel l p k = Ok (tt, k') ∧ raises k k'.
Proof.
  revert k l h. induction fuel as [|fuel IH]; intros k l h Hi Hh Hn Hp Hf; [lia|].
  destruct (donate_loop_step fuel pk k l h p Hi Hh Hn Hp) as (th & k1 & Eth & Hra & Et & ->).
  destruct (raises_holders _ _ Hra) as [Eh _]. unfold donate_cont.
  case_bool_decide as Eb; [|by exists k1].
  destruct (head (lpl (threads k) h)) as [i|] eqn:Ehd.
  2: { apply (lp_holds _ _ _ (inv_lp _ _ Hi)) in Hh as (i & Hin & _); [|done].
       apply head_None in Ehd. rewrite Ehd in Hin. by apply not_elem_of_nil in Hin. }
  rewrite <-(raises_lpl _ _ Hra) in Ehd.
  destruct (head_lpl pk k1 h i) as (w & l' & q & Er & Hl'); [by eapply inv_raises|done|].
  rewrite Er. simpl. destruct w; [|by exists k1]. rewrite Eh in Hl'. destruct Hl' as [h' Eh'].
  rewrite Eh'. case_decide as Hn'; [|by exists k1].
  destruct (IH k1 l' h') as (k' & E & Hra'); try done.
  - by eapply inv_raises.
  - by rewrite Eh.
  - rewrite Et. pose proof (low_alter p (threads k) h th Eth). lia.
  - exists k'. split; [done|]. by etrans.
Qed.

(** The threads that a donation of [p] at lock [l] passes: the holder, and as
    long as the priority has to be raised, the holder of the lock for which
    that thread waits. *)
Inductive donees (p : Z) (k : kernel) : Z → list Z → Prop :=
  | donees_one l h : holders k !! l = Some h → h ≠ NULL → donees p k l [h]
  | donees_cons l h th i l' hs :
      holders k !! l = Some h → h ≠ NULL → h ∉ hs →
      threads k !! h = Some th → priority th < p →
      head (lpl (threads k) h) = Some i → lp_is (lock_priority_page k) i true l' →
      donees p k l' hs → donees p k l (h :: hs).

Lemma donees_head p k l hs : donees p k l hs → ∃ h hs', hs = h :: hs' ∧ holders k !! l = Some h ∧ h ≠ NULL.
Proof. intros []; eauto. Qed.

Lemma donees_raises p k k1 h l hs :
  raises k k1 → (∀ t, t ≠ h → threads k1 !! t = threads k !! t) → h ∉ hs →
  donees p k l hs → donees p k1 l hs.
Proof.
  intros Hra Hsame Hh Hd. destruct (raises_holders _ _ Hra) as [Eh _].
  induction Hd as [l h' ? ?|l h' th i l' hs E1 E2 E3 E4 E5 E6 E7 Hd IH].
  - apply donees_one; [by rewrite Eh|done].
  - apply not_elem_of_cons in Hh as [Hne Hh].
    eapply donees_cons; try done.
    + by rewrite Eh.
    + by rewrite Hsame.
    + by rewrite (raises_lpl _ _ Hra).
    + by apply (raises_lp_is _ _ Hra).
    + by apply IH.
Qed.

Lemma donees_cons_inv p k l h hs :
  donees p k l (h :: hs) → hs = [] ∨ ∃ th i l', h ∉ hs ∧ threads k !! h = Some th ∧ priority th < p ∧
    head (lpl (threads k) h) = Some i ∧ lp_is (lock_priority_page k) i true l' ∧ donees p k l' hs.
Proof. intros Hd. inversion Hd; subst; eauto 12. Qed.

Lemma raises_at_least k k' h th p :
  raises k k' → threads k !! h = Some th → p ≤ priority th →
  ∃ th', threads k' !! h = Some th' ∧ p ≤ priority th'.
Proof.
  intros Hra E Hp. pose proof (ra_threads _ _ Hra h) as T. rewrite E in T. unfold thr_le in T.
  destruct (threads k' !! h) as [th'|]; [|done]. exists th'. split; [done|lia].
Qed.

Lemma donate_loop_range fuel pk k l h p k' :
  inv pk k → holders k !! l = Some h → h ≠ NULL → donate_loop (S fuel) l p k = Ok (tt, k') →
  PRI_MIN ≤ p ∧ p ≤ PRI_MAX.
Proof.
  intros Hi Hh Hn. cbn [donate_loop]. unfold rd_holder. mrun.
  case_bool_decide; [|done]. cbn iota. rewrite Hh, (bool_decide_eq_true_2 (h ≠ NULL)) by done.
  cbn iota. case_bool_decide; [auto|done].
Qed.

Lemma raised_at_least k k1 h th p :
  threads k !! h = Some th →
  threads k1 = (if bool_decide (p > priority th)
                then alter (with_priority p) h (threads k) else threads k) →
  ∃ th1, threads k1 !! h = Some th1 ∧ p ≤ priority th1.
Proof.
  intros Eth ->. case_bool_decide.
  - exists (with_priority p th). rewrite lookup_alter_eq, Eth. simpl. split; [done|lia].
  - exists th. split; [done|lia].
Qed.

(** The rest of the donation only raises priorities. *)
Lemma donate_rest fuel pk k k1 h th p k' :
  inv pk k → pri_ok p → threads k !! h = Some th → raises k k1 →
  threads k1 = (if bool_decide (p > priority th)
                then alter (with_priority p) h (threads k) else threads k) →
  (low p (threads k) < S fuel)%nat →
  donate_cont fuel p h th k k1 = Ok (tt, k') →
  raises k1 k'.
Proof.
  unfold donate_cont. intros Hi Hp Eth Hra Et Hf Er. destruct (raises_holders _ _ Hra) as [Eh _].
  case_bool_decide as Eb; [|by simplify_eq].
  destruct (head (lpl (threads k) h)) as [i|]; [|done].
  destruct (lock_priority_page k1 !! i) as [r|]; [|done].
  destruct (waiting r); [|by simplify_eq].
  destruct (holders k !! lp_lock r) as [h'|] eqn:Eh'; [|done].
  case_decide; [|by simplify_eq].
  destruct (donate_loop_total fuel pk k1 (lp_lock r) h' p) as (k2 & E & ?); try congruence; [|done|].
  - by eapply inv_raises.
  - rewrite Et. pose proof (low_alter p (threads k) h th Eth). lia.
Qed.

Lemma donate_loop_reaches fuel pk k l p hs k' :
  inv pk k → donees p k l hs → (low p (threads k) < fuel)%nat →
  donate_loop fuel l p k = Ok (tt, k') →
  ∀ h, h ∈ hs → ∃ th, threads k' !! h = Some th ∧ p ≤ priority th.
Proof.
  revert k l hs. induction fuel as [|fuel IH]; intros k l hs Hi Hd Hf Er; [done|].
  destruct (donees_head _ _ _ _ Hd) as (h & hs' & -> & Hh & Hn).
  pose proof (donate_loop_range _ _ _ _ _ _ _ Hi Hh Hn Er) as Hp.
  destruct (donate_loop_step fuel pk k l h p Hi Hh Hn Hp) as (th & k1 & Eth & Hra & Et & Es).
  rewrite Es in Er. clear Es. pose proof (donate_rest _ _ _ _ _ _ _ _ Hi Hp Eth Hra Et Hf Er) as Hr1.
  destruct (raised_at_least _ _ _ _ _ Eth Et) as (th1 & E1 & Hp1).
  destruct (donees_cons_inv _ _ _ _ _ Hd) as [->|Hc].
  { intros h' ->%list_elem_of_singleton. by eapply raises_at_least. }
  destruct Hc as (th' & i & l' & Hnin & Eth' & Hlt & Hhd & Hlp & Hd'). simplify_eq.
  unfold donate_cont in Er. rewrite bool_decide_eq_true_2 in Er, Et by lia. rewrite Hhd in Er.
  apply (raises_lp_is _ _ Hra) in Hlp as (q & Eq & _). rewrite Eq in Er. simpl in Er.
  destruct (donees_head _ _ _ _ Hd') as (h2 & hs2 & -> & Hh2 & Hn2). rewrite Hh2 in Er.
  rewrite decide_True in Er by done.
  intros h' [->|Hin]%elem_of_cons; [by eapply raises_at_least|].
  eapply (IH k1 l' (h2 :: hs2)); try done.
  - by eapply inv_raises.
  - eapply (donees_raises _ k _ h); try done. intros t Ht. rewrite Et. by apply lookup_alter_ne.
  - rewrite Et. pose proof (low_alter p (threads k) h _ Eth). lia.
Qed.

Lemma low_size p ths : (low p ths ≤ size ths)%nat.
Proof. apply map_subseteq_size, map_filter_subseteq. Qed.

Lemma donate_recursively_ok pk k l h p :
  inv pk k → holders k !! l = Some h → h ≠ NULL → pri_ok p →
  ∃ k', donate_priority_recursively l p k = Ok (tt, k') ∧ raises k k'.
Proof.
  intros Hi Hh Hn Hp. apply (donate_loop_total _ pk k l h); try done. pose proof (low_size p (threads k)). lia.
Qed.
