(* ===== verification/KLock.v ===== *)
(** * Specifications, continued: locks and condition variables *)

From S2P Require Import Prelude KList Kernel KProg KLogic KSpec KSync KSync2.

(** ** The lock records of the running thread *)

(** The thread is not between the two halves of [lock_acquire]. *)
Definition not_waiting (c : Z) (k : kernel) : Prop :=
  ∀ i l, i ∈ lpl (threads k) c → ¬ lp_is (lock_priority_page k) i true l.

Lemma not_waiting_rely c k k' :
  live (threads k) c → (∀ t i, i ∈ lpl (threads k) t → ∃ w l, lp_is (lock_priority_page k) i w l) →
  rely c k k' → not_waiting c k → not_waiting c k'.
Proof.
  intros Hl Hrec [_ Hk _] Hn i l Hi Hlp. destruct (Hk Hl) as [_ _ Elp Hr _ _ _ _ _ _].
  rewrite Elp in Hi. destruct (Hrec c i Hi) as (w & l' & Hw). pose proof (Hr i w l' Hi Hw) as Hw'.
  destruct Hlp as (p & E & _), Hw' as (p' & E' & _). rewrite E in E'. simplify_eq. by eapply Hn.
Qed.

Lemma inv_records pk k :
  inv pk k → ∀ t i, i ∈ lpl (threads k) t → ∃ w l, lp_is (lock_priority_page k) i w l.
Proof.
  intros Hi t i Hin. destruct (lp_record _ _ _ (inv_lp _ _ Hi) t i Hin) as (w & l & ? & _). eauto.
Qed.

Section set_lpl.
  Context (ths : tmap) (c : Z) (th : thread) (js : list nat) (Ec : ths !! c = Some th).
Let ths' := alter (with_lock_priority_list js) c ths.

Lemma lpl_set t : lpl ths' t = if decide (t = c) then js else lpl ths t.
Proof. unfold lpl, ths'. rewrite lookup_alter_case. case_decide; [by rewrite Ec|done]. Qed.

Lemma st_set t : st ths' t = st ths t.
Proof. by apply st_alter. Qed.

Lemma live_set t : live ths' t ↔ live ths t.
Proof. by apply live_alter. Qed.

Lemma started_set t : started ths' t ↔ started ths t.
Proof.
  unfold started, ths'. rewrite lookup_alter_case. case_decide as E; [subst|done]. rewrite Ec. simpl.
  split; intros (x & ? & ? & ?); simplify_eq/=.
  - by exists th.
  - by exists (with_lock_priority_list js x).
Qed.

Lemma nascent_set t u fr : nascent ths' t u fr ↔ nascent ths t u fr.
Proof. apply nascent_alter. done. Qed.

Lemma sched_set_lpl pk run rl sl al idle pg :
  sched_inv pk ths run rl sl al idle pg → status th = THREAD_RUNNING → frames th = Switched → c ≠ idle →
  sched_inv pk ths' run rl sl al idle pg.
Proof.
  intros [S1 S2 S3 S4 S5 S6 S7 S8 S9 S10 S11 S12 S13] Hs Hk Hid.
  assert (∀ t, st ths' t = st ths t) as Est by apply st_set.
  assert (∀ t, live ths' t ↔ live ths t) as Eli by apply live_set.
  split; try done.
  - destruct pk; setoid_rewrite Est; done.
  - intros t. by rewrite Est.
  - intros t. rewrite Est, started_set. apply S5.
  - intros t. by rewrite Eli.
  - by rewrite Eli, lpl_set, decide_False by done.
  - intros t th' [(-> & th0 & E & ->)|(? & E)]%lookup_alter_inv; [|by apply S9]. by apply (S9 _ _ E).
  - intros t th' [(-> & th0 & E & ->)|(? & E)]%lookup_alter_inv; [|by apply S10].
    simplify_eq. simpl. congruence.
  - intros t. rewrite Est, lpl_set. case_decide; [subst|apply S11]. rewrite (st_lookup _ _ _ Ec). congruence.
  - intros t Ht. destruct (S13 t Ht). split; [done|]. by apply lookup_alter_None.
Qed.

Lemma sema_set_lpl pk ss sl idle : sema_inv pk ths ss sl idle → sema_inv pk ths' ss sl idle.
Proof. intros [E1 E2 E3 E4 E5]. split; try done. intros t s. rewrite st_set, started_set. apply E3. Qed.

Lemma cond_set_lpl cs ss : cond_inv ths cs ss → cond_inv ths' cs ss.
Proof. intros [C1 C2 C3]. split; try done. intros t d. rewrite started_set. apply C3. Qed.

Lemma client_set_lpl hs ss sl idle secs crs :
  client_inv ths hs ss sl idle secs crs → client_inv ths' hs ss sl idle secs crs.
Proof.
  intros [C1 C2 C3]. split; [done| |].
  - intros t. rewrite started_set. apply C2.
  - intros t th' [(-> & th0 & E & ->)|(? & E)]%lookup_alter_inv; [|by apply C3]. apply (C3 _ _ E).
Qed.
End set_lpl.

(** Updates of one record of the page. *)
Lemma lp_is_insert page i r j w l :
  is_Some (page !! i) →
  lp_is (<[i := r]> page) j w l ↔
  if decide (j = i) then in_use r = true ∧ waiting r = w ∧ lp_lock r = l ∧ pri_ok (lp_priority r)
  else lp_is page j w l.
Proof.
  intros [r0 Ei]. unfold lp_is. case_decide as E.
  - subst. rewrite list_lookup_insert_eq by by eapply lookup_lt_Some. destruct r. simpl. naive_solver.
  - by rewrite list_lookup_insert_ne by done.
Qed.

(** ** Starting to wait for a lock *)

Definition pushed (i : nat) (l p : Z) (js : list nat) (k : kernel) : kernel :=
  map_thread (running k) (with_lock_priority_list (i :: js))
    (set_lock_priority_page (<[i := LockPriority true true l p]> (lock_priority_page k)) k).

Section pushed.
  Context (k : kernel) (i : nat) (l p : Z) (r : lock_priority).
Let c := running k.
Let js := lpl (threads k) c.
  Context (Hi : inv Runs k) (Hid : c ≠ idle_thread k) (Hnw : not_waiting c k).
  Context (Hr : lock_priority_page k !! i = Some r) (Hfree : in_use r = false).
  Context (Hl : is_Some (holders k !! l)) (Hnh : holders k !! l ≠ Some c) (Hp : pri_ok p).

Lemma free_record t : i ∉ lpl (threads k) t.
Proof.
  intros Hin. destruct (lp_record _ _ _ (inv_lp _ _ Hi) t i Hin) as (w & l' & (q & E & _) & _).
  rewrite Hr in E. by simplify_eq.
Qed.

Lemma lp_pushed :
  lp_inv (threads (pushed i l p js k)) (holders k) (lock_priority_page (pushed i l p js k)).
Proof.
  destruct (inv_current _ Hi) as (th & Ec & _). fold c in Ec.
  pose proof (inv_lp _ _ Hi) as [P1 P2 P3 P4 P5 P6 P7].
  assert (∀ t, lpl (threads (pushed i l p js k)) t = if decide (t = c) then i :: js else lpl (threads k) t)
    as El by (intros t; by apply (lpl_set _ _ th)).
  assert (∀ w l', lp_is (lock_priority_page (pushed i l p js k)) i w l' ↔ true = w ∧ l = l') as Ep1.
  { intros. simpl. rewrite lp_is_insert, decide_True by eauto. naive_solver. }
  assert (∀ j w l', j ≠ i → lp_is (lock_priority_page (pushed i l p js k)) j w l' ↔
    lp_is (lock_priority_page k) j w l') as Ep2.
  { intros. simpl. by rewrite lp_is_insert, decide_False by eauto. }
  pose proof free_record as Hfr.
  assert (∀ t j, j ∈ lpl (threads k) t → j ≠ i) as Hne by (intros t j Hj ->; by eapply Hfr).
  assert (∀ j v, j ∈ js → ¬ lp_is (lock_priority_page k) j v l) as Hnl.
  { intros j v Hj Hv. destruct v; [by eapply Hnw|]. apply Hnh. apply P6; [|eauto].
    by destruct (inv_thread _ _ _ _ Hi Ec). }
  split.
  - intros t. rewrite El. case_decide; [|done]. apply NoDup_cons. split; [apply Hfr|apply P1].
  - intros t j. rewrite El. case_decide as Et; [rewrite elem_of_cons; intros [->|Hj]|intros Hj].
    + exists true, l. by rewrite Ep1.
    + destruct (P2 c j Hj) as (w & l' & ? & ?). exists w, l'. by rewrite Ep2 by eauto.
    + destruct (P2 t j Hj) as (w & l' & ? & ?). exists w, l'. by rewrite Ep2 by eauto.
  - intros t u j. rewrite !El. case_decide; case_decide; subst; try done; rewrite ?elem_of_cons.
    + intros [->|Hj] Hj'; [by destruct (Hfr u)|]. by eapply P3.
    + intros Hj [->|Hj']; [by destruct (Hfr t)|]. by eapply P3.
    + intros. by eapply P3.
  - intros t j1 j2 w v l'. rewrite El. case_decide as Et.
    + rewrite !elem_of_cons. intros [->|H1] [->|H2].
      * done.
      * rewrite Ep1, Ep2 by eauto. intros [_ <-] Hv. by destruct (Hnl j2 v).
      * rewrite Ep1, Ep2 by eauto. intros Hv [_ <-]. by destruct (Hnl j1 w).
      * rewrite !Ep2 by eauto. by eapply P4.
    + intros H1 H2. rewrite !Ep2 by eauto. by eapply P4.
  - intros t j l'. rewrite El. case_decide as Et.
    + rewrite elem_of_cons. intros [->|Hj]; [done|]. rewrite Ep2 by eauto.
      intros Hw. by destruct (Hnw j l').
    + intros Hj. rewrite Ep2 by eauto. by apply P5.
  - intros t l' Ht. rewrite (P6 t l' Ht). rewrite El. case_decide as Et.
    + subst t. split; intros (j & Hj & Hw).
      * exists j. rewrite Ep2 by eauto. split; [by right|done].
      * apply elem_of_cons in Hj as [->|Hj]; [by apply Ep1 in Hw as [? _]|].
        exists j. by rewrite Ep2 in Hw by eauto.
    + split; intros (j & Hj & Hw); exists j; (split; [done|]); by eapply Ep2; eauto.
  - by apply insert_not_nil.
Qed.

Lemma inv_pushed : inv Runs (pushed i l p js k).
Proof.
  destruct (inv_current _ Hi) as (th & Ec & _ & _ & Hs & Hk). pose proof Hi as [Isc Ise Ilo Ilp Ico Id Ix Icl].
  split; try done.
  - by eapply (sched_set_lpl _ _ th).
  - by eapply (sema_set_lpl _ _).
  - apply lp_pushed.
  - by eapply (cond_set_lpl _ _ th).
  - by eapply (client_set_lpl _ _ th).
Qed.

Lemma rely_pushed t : t ≠ c → rely t k (pushed i l p js k).
Proof.
  intros Ht. etrans; [|by apply rely_alter_ne]. split; [by split| |done].
  intros Hlv. split; try done. simpl. intros j w l' Hj Hlp. rewrite lp_is_insert by eauto.
  rewrite decide_False; [done|]. intros ->. by apply (free_record t).
Qed.
End pushed.

(** Only the list of records and the records of the thread itself differ. *)
Record acquiring (c : Z) (i : nat) (l : Z) (k k' : kernel) : Prop := {
  aq_lpl : lpl (threads k') c = i :: lpl (threads k) c;
  aq_record : lp_is (lock_priority_page k') i true l;
  aq_holders : holders k' = holders k;
  aq_semas : semas k' = semas k;
  aq_conds : conds k' = conds k;
  aq_others t : t ≠ c → rely t k k';
  aq_idle : idle_thread k' = idle_thread k;
  aq_not_held : holders k !! l ≠ Some c;
  aq_nascent u fr : nascent (threads k') c u fr ↔ nascent (threads k) c u fr;
  aq_ghosts : sections k' = sections k ∧ creating k' = creating k;
  aq_old j w l' : j ∈ lpl (threads k) c → lp_is (lock_priority_page k) j w l' →
    lp_is (lock_priority_page k') j w l'
}.

Lemma acquiring_raises c i l k k1 k2 :
  acquiring c i l k k1 → raises k1 k2 → acquiring c i l k k2.
Proof.
  intros [A1 A2 A3 A4 A5 A6 A7 A8 A9 A11 A10] Hra. pose proof (ra_frame _ _ Hra) as F.
  split; try done; try (rewrite F; simpl; done).
  - by rewrite (raises_lpl _ _ Hra).
  - by apply (raises_lp_is _ _ Hra).
  - intros t Ht. etrans; [by apply A6|]. by apply rely_raises.
  - intros u fr. by rewrite (raises_nascent _ _ Hra).
  - intros j w l' Hj Hw. apply (raises_lp_is _ _ Hra). auto.
Qed.

Lemma lock_held_run k l h :
  inv Runs k → holders k !! l = Some h → l ≠ NULL →
  lock_held_by_current_thread l k = Ok (bool_decide (h = running k), k).
Proof.
  intros Hi Hh Hl. unfold lock_held_by_current_thread, rd_holder. mrun.
  rewrite bool_decide_eq_true_2 by done. rewrite Hh. by rewrite current_run.
Qed.

Lemma lock_nonnull pk k l : inv pk k → is_Some (holders k !! l) → l ≠ NULL.
Proof. intros Hi [h Hh] ->. by rewrite (lo_null _ _ (inv_lock _ _ Hi)) in Hh. Qed.

Lemma get_priority_ok k th :
  threads k !! running k = Some th → running k ≠ NULL → magic th = THREAD_MAGIC →
  status th = THREAD_RUNNING → thread_get_priority k = Ok (priority th, k).
Proof.
  intros E Hn Hm Hs. unfold thread_get_priority. erewrite bind_ok by by eapply thread_current_ok.
  by erewrite bind_ok by by apply rd_thread_ok.
Qed.

Lemma acquiring_pushed k i l p r :
  inv Runs k → running k ≠ idle_thread k → not_waiting (running k) k →
  lock_priority_page k !! i = Some r → in_use r = false →
  is_Some (holders k !! l) → holders k !! l ≠ Some (running k) → pri_ok p →
  acquiring (running k) i l k (pushed i l p (lpl (threads k) (running k)) k).
Proof.
  intros Hi Hid Hnw Er Hfr Hl Hnh Hp. destruct (inv_current _ Hi) as (th & Ec & _).
  split; try done.
  - simpl. rewrite (lpl_set _ _ th) by done. by rewrite decide_True.
  - simpl. rewrite lp_is_insert, decide_True by eauto. done.
  - intros t Ht. by eapply rely_pushed.
  - intros u fr. by apply nascent_set.
  - intros j w l' Hj Hw. simpl. rewrite lp_is_insert by eauto. rewrite decide_False; [done|].
    intros ->. by eapply free_record.
Qed.

Lemma lock_acquire_prepare_ok c k0 k l :
  at_ c false k0 k → c ≠ idle_thread k → not_waiting c k → is_Some (holders k !! l) →
  holders k !! l ≠ Some c →
  lock_acquire_prepare l k = Err AssertFailed ∧ records_full k ∨
  ∃ i k', lock_acquire_prepare l k = Ok (Some i, k') ∧ at_ c false k0 k' ∧ acquiring c i l k k'.
Proof.
  intros [Hi Hg Hr Hlv] Hid Hnw Hl Hnh. subst c. pose proof (lock_nonnull _ _ _ Hi Hl) as Hnn.
  pose proof Hl as [h Hh]. unfold lock_acquire_prepare, intr_context.
  mrun. rewrite bool_decide_eq_true_2 by done. cbn iota. rewrite (inv_ctx _ _ Hi). cbn [negb]. cbn iota.
  rewrite (lock_held_run k l h) by done. rewrite bool_decide_eq_false_2 by congruence. cbn [negb]. cbn iota.
  rewrite current_run by done. rewrite (inv_donation _ _ Hi).
  unfold get_new_lock_priority. rewrite decide_False by exact (lp_page _ _ _ (inv_lp _ _ Hi)).
  destruct (list_find _ (lock_priority_page k)) as [[i r]|] eqn:Ef; [|left; split; [done|]].
  2: { split; [exact (lp_page _ _ _ (inv_lp _ _ Hi))|]. apply Forall_forall. intros r Hr. apply list_find_None in Ef. rewrite Forall_forall in Ef.
       specialize (Ef r Hr). by destruct (in_use r). }
  apply list_find_Some in Ef as (Ei & Hfr & _). rewrite bool_decide_eq_true_2 by done. cbn iota.
  destruct (inv_current _ Hi) as (th & Ec & Hcn & Hm & Hst & _).
  unfold deref. mrun. rewrite (get_priority_ok _ th) by done. unfold wr_lp. mrun.
  rewrite (wr_thread_ok _ _ th) by done. cbn iota.
  match goal with |- context [rd_holder l ?k'] => set (k1 := k') end.
  assert (k1 = pushed i l (priority th) (lpl (threads k) (running k)) k) as Ek1.
  { unfold k1, pushed, map_thread. simpl. rewrite list_insert_insert_eq, (lpl_lookup _ _ _ Ec).
    f_equal. apply alter_ext. intros x Hx. by simplify_eq. }
  clearbody k1. subst k1.
  pose proof (inv_pushed k i l (priority th) r Hi Hid Hnw Ei Hfr Hl) as Hi1.
  pose proof (acquiring_pushed k i l (priority th) r Hi Hid Hnw Ei Hfr Hl) as Haq.
  assert (pri_ok (priority th)) as Hpri by by eapply inv_priorities.
  specialize (Hi1 Hnh Hpri). specialize (Haq Hnh Hpri).
  set (k1 := pushed i l (priority th) (lpl (threads k) (running k)) k) in *.
  assert (∀ k2, raises k1 k2 → at_ (running k) false k0 k2 ∧ acquiring (running k) i l k k2) as Hfin.
  { intros k2 Hra. pose proof (acquiring_raises _ _ _ _ _ _ Haq Hra) as Haq2.
    split; [|done]. pose proof (ra_frame _ _ Hra) as F.
    assert (running k2 = running k) as Hr2 by (by rewrite F).
    split; [by eapply inv_raises| |done|rewrite F; exact Hlv].
    apply (guar_step _ k); try done. apply Haq2. }
  unfold rd_holder. rewrite (aq_holders _ _ _ _ _ Haq), Hh. case_decide as Hhn.
  - destruct (get_priority_run _ Hi1) as (thc & Ethc & ->).
    destruct (donate_recursively_ok Runs k1 l h (priority thc)) as (k2 & -> & Hra); try done.
    { by eapply inv_priorities. }
    right. exists i, k2. split; [done|]. auto.
  - right. exists i, k1. split; [done|]. apply Hfin. reflexivity.
Qed.

(** ** Getting the lock *)

Definition got (c l : Z) (i : nat) (p : Z) (k : kernel) : kernel :=
  set_lock_priority_page (<[i := LockPriority true false l p]> (lock_priority_page k))
    (set_holders (<[l := c]> (holders k)) k).

Section got.
  Context (k : kernel) (l : Z) (i : nat) (p : Z) (sm : semaphore).
Let c := running k.
  Context (Hi : inv Runs k) (Hnull : holders k !! l = Some NULL).
  Context (Hsm : semas k !! LockSema l = Some sm) (Hv : value sm = 0).
  Context (Hhd : head (lpl (threads k) c) = Some i).
  Context (Hrec : lock_priority_page k !! i = Some (LockPriority true true l p)) (Hp : pri_ok p).

Lemma got_record j w l' :
  lp_is (lock_priority_page (got c l i p k)) j w l' ↔
  if decide (j = i) then w = false ∧ l' = l else lp_is (lock_priority_page k) j w l'.
Proof. simpl. rewrite lp_is_insert by eauto. case_decide; naive_solver. Qed.

Lemma lp_got : lp_inv (threads k) (holders (got c l i p k)) (lock_priority_page (got c l i p k)).
Proof.
  pose proof (inv_lp _ _ Hi) as [P1 P2 P3 P4 P5 P6 P7].
  assert (i ∈ lpl (threads k) c) as Hic by by apply head_Some_elem_of.
  assert (lp_is (lock_priority_page k) i true l) as Hit by by exists p.
  assert (∀ j w l', lp_is (lock_priority_page (got c l i p k)) j w l' →
    ∃ w', lp_is (lock_priority_page k) j w' l') as Hold.
  { intros j w l'. rewrite got_record. case_decide; [|eauto]. intros [-> ->]. subst. eauto. }
  pose proof (running_live _ Hi) as Hlive. fold c in Hlive.
  split; try done.
  - intros t j Hj. destruct (P2 t j Hj) as (w & l' & Hw & Hh).
    assert (∀ l0, is_Some (holders k !! l0) → is_Some (holders (got c l i p k) !! l0)) as Hs.
    { intros l0 ?. simpl. destruct (decide (l0 = l)) as [->|]; [by rewrite lookup_insert_eq|].
      by rewrite lookup_insert_ne. }
    destruct (decide (j = i)) as [->|].
    + exists false, l. rewrite got_record, decide_True by done. split; [done|]. apply Hs. by eexists.
    + exists w, l'. rewrite got_record, decide_False by done. auto.
  - intros t j1 j2 w v l' H1 H2 [w' ?]%Hold [v' ?]%Hold. by eapply P4.
  - intros t j l' Hj. rewrite got_record. case_decide as E; [naive_solver|]. by apply P5.
  - intros t l' Ht. setoid_rewrite got_record. simpl. destruct (decide (l' = l)) as [->|Hl].
    + rewrite lookup_insert_eq. split.
      * intros [= <-]. exists i. rewrite decide_True by done. done.
      * intros (j & Hj & Hw). f_equal. destruct (decide (j = i)) as [->|]; [by eapply P3|].
        assert (holders k !! l = Some t) as E by (apply P6; eauto). congruence.
    + rewrite lookup_insert_ne by done. rewrite (P6 t l' Ht). split; intros (j & Hj & Hw); exists j.
      * split; [done|]. rewrite decide_False; [done|]. intros ->.
        destruct Hw as (q & E & _). rewrite Hrec in E. by simplify_eq.
      * destruct (decide (j = i)); naive_solver.
  - by apply insert_not_nil.
Qed.

Lemma inv_got : inv Runs (got c l i p k).
Proof.
  pose proof Hi as [Isc Ise [L1 L2 L3 L4] Ilp Ico Id Ix [C1 C2 C3]]. split; try done.
  - simpl. split; try done.
    + intros l'. rewrite <-L1. destruct (decide (l' = l)) as [->|]; [|by rewrite lookup_insert_ne].
      rewrite lookup_insert_eq, Hnull. split; intros _; by eexists.
    + rewrite lookup_insert_ne; [done|]. intros ->. by rewrite L2 in Hnull.
    + intros l' t sm'. destruct (decide (l' = l)) as [->|]; [|rewrite lookup_insert_ne by done; apply L4].
      rewrite lookup_insert_eq. intros _ _ E. by simplify_eq.
  - apply lp_got.
  - split; try done. simpl. intros l' t Ht. destruct (C1 l' t Ht) as [E Hn].
    rewrite lookup_insert_ne; [done|]. intros ->. congruence.
Qed.

Lemma rely_got t : t ≠ c → rely t k (got c l i p k).
Proof.
  intros Ht. split.
  - split; try done. simpl. intros l' Hl'. destruct (decide (l' = l)) as [->|].
    + by rewrite lookup_insert_eq.
    + by rewrite lookup_insert_ne.
  - intros Hl. assert (t ≠ NULL) as Hn.
    { destruct Hl as (s & E & _). apply st_exists in E as [th E]. by destruct (inv_thread _ _ _ _ Hi E). }
    split; try done.
    + intros j w l' Hj Hw. rewrite got_record, decide_False; [done|]. intros ->. apply Ht.
      eapply (lp_disjoint _ _ _ (inv_lp _ _ Hi)); [done|]. by apply head_Some_elem_of.
    + intros l'. simpl. destruct (decide (l' = l)) as [->|]; [|by rewrite lookup_insert_ne].
      rewrite lookup_insert_eq. split; intros [=]; congruence.
  - done.
Qed.
End got.


(** What [lock_acquire] has changed when it returns: thread [c] holds [l]. *)
Record acquired (c l : Z) (k k' : kernel) : Prop := {
  ad_grows : grows k k';
  ad_not_waiting : not_waiting c k';
  ad_holds l' : holders k' !! l' = Some c ↔ l' = l ∨ holders k !! l' = Some c;
  ad_new : holders k !! l ≠ Some c;
  ad_cond d : in_cond (conds k') c d → in_cond (conds k) c d;
  ad_waiter : is_Some (semas k' !! WaiterSema c) ↔ is_Some (semas k !! WaiterSema c);
  ad_nascent u fr : nascent (threads k') c u fr ↔ nascent (threads k) c u fr;
  ad_sections l' : (l', c) ∈ sections k' ↔ (l', c) ∈ sections k;
  ad_creating : c ∈ creating k' ↔ c ∈ creating k
}.

Lemma acquired_rely c l k k1 k2 :
  acquired c l k k1 → inv Runs k1 → running k1 = c → rely c k1 k2 → acquired c l k k2.
Proof.
  intros [A1 A2 A3 A4 A5 A6 A7 A8 A9] Hi Hr Hrel.
  assert (live (threads k1) c) as Hl by (subst; by apply running_live).
  pose proof Hrel as [Hg Hk _]. destruct (Hk Hl) as [K1 K2 K3 K4 K5 K6 K7 K8 K9 K10]. split.
  - by eapply grows_trans.
  - apply (not_waiting_rely c k1 k2); try done. by eapply inv_records.
  - intros l'. by rewrite K5, A3.
  - done.
  - auto.
  - by rewrite K7, A6.
  - intros u fr. by rewrite K8, A7.
  - intros l'. by rewrite K9, A8.
  - by rewrite K10, A9.
Qed.

Lemma lock_acquire_finish_ok c k l i p :
  intr_on k = false → priority_donation_enabled k = true →
  lock_priority_page k !! i = Some (LockPriority true true l p) →
  lock_acquire_finish l c (Some i) k = Ok (tt, got c l i p k).
Proof.
  intros Hoff He Hrec. unfold lock_acquire_finish, intr_get_level, wr_holder, deref, rd_lp, wr_lp.
  mrun. rewrite Hoff. simpl. rewrite He. simpl. by rewrite Hrec.
Qed.

(** From the start of [lock_acquire] in [k] to its end: [k2] is the state
    before waiting, [k'] the one after. *)
Lemma acquired_got c l i p k k2 k' sm :
  acquiring c i l k k2 → keeps c k2 k' → not_waiting c k →
  (∀ t i, i ∈ lpl (threads k) t → ∃ w l, lp_is (lock_priority_page k) i w l) →
  NoDup (lpl (threads k') c) → is_Some (lock_priority_page k' !! i) → pri_ok p →
  grows k (got c l i p (downed (LockSema l) sm k')) →
  acquired c l k (got c l i p (downed (LockSema l) sm k')).
Proof.
  intros [Q1 Q2 Q3 Q4 Q5 Q6 Q7 Q8 Q10 [Q11 Q12] Q9] [K1 K2 K3 K4 K5 K6 K7 K8 K9 K10] Hnw Hrec Hnd Hex Hp Hg.
  rewrite K3, Q1 in Hnd. apply NoDup_cons in Hnd as [Hni _]. split; try done.
  - intros j l' Hj Hw. simpl in Hj, Hw. rewrite K3, Q1 in Hj.
    rewrite lp_is_insert in Hw by done. case_decide as E; [naive_solver|].
    apply elem_of_cons in Hj as [?|Hj]; [done|]. destruct (Hrec c j Hj) as (w & l0 & H0).
    assert (lp_is (lock_priority_page k') j w l0) as (q & E1 & _).
    { apply K4; [rewrite Q1; by right|]. by apply Q9. }
    destruct Hw as (q' & E2 & _). rewrite E1 in E2. simplify_eq. by eapply Hnw.
  - intros l'. simpl. destruct (decide (l' = l)) as [->|].
    + rewrite lookup_insert_eq. naive_solver.
    + rewrite lookup_insert_ne, K5, Q3 by done. naive_solver.
  - intros d Hd. rewrite <-Q5. by apply K6.
  - simpl. rewrite lookup_insert_ne by done. by rewrite K7, Q4.
  - intros u fr. simpl. by rewrite K8, Q10.
  - intros l'. simpl. by rewrite K9, Q11.
  - simpl. by rewrite K10, Q12.
Qed.

(** The second half: the semaphore has been lowered in [k']. *)
Lemma lock_finish_spec c lvl l i Q k0 k k2 k' sm k0' :
  at_ c false k0 k2 → acquiring c i l k k2 → grows k k2 → not_waiting c k → inv Runs k →
  at_ c false k0' k' → rely c k2 k' → semas k' !! LockSema l = Some sm → 0 < value sm →
  (∀ v k0' k', at_ c lvl k0' k' → acquired c l k k' → Q v k0' k') →
  wp (act_unit (lock_acquire_finish l c (Some i));~ act_bool (intr_set_level lvl)) Q k0'
    (downed (LockSema l) sm k').
Proof.
  intros Ha2 Haq Hgr Hnw Hi Ha' Hrel Es Hp HQ.
  set (kd := downed (LockSema l) sm k').
  assert (at_ c false k0' kd) as Had by by apply at_downed.
  pose proof Had as [Hid Hgd Hrd Hld]. pose proof Ha' as [Hi' Hg' Hr' Hl'].
  assert (live (threads k2) c) as Hlv.
  { destruct Ha2 as [H2 _ H2r _]. rewrite <-H2r. by apply running_live. }
  destruct (re_keeps _ _ _ Hrel Hlv) as [K1 K2 K3 K4 K5 K6 K7 K8 K9 K10].
  assert (i ∈ lpl (threads k2) c) as Hin by (rewrite (aq_lpl _ _ _ _ _ Haq); by left).
  destruct (K4 i true l Hin (aq_record _ _ _ _ _ Haq)) as (p & Hrec & Hpri).
  assert (holders k' !! l = Some NULL) as Hnull.
  { destruct (proj2 (lo_sema _ _ (inv_lock _ _ Hi') l)) as [h Hh]; [by eexists|].
    destruct (decide (h = NULL)) as [->|Hn]; [done|].
    pose proof (lo_held _ _ (inv_lock _ _ Hi') l h sm Hh Hn Es). lia. }
  assert (value sm = 1) as Hv1 by (pose proof (lo_value _ _ (inv_lock _ _ Hi') l sm Es); lia).
  apply wp_bind. unfold act_unit. eapply wp_act_off with (v := 0) (k' := got c l i p kd); [|done|done|].
  { erewrite bind_ok; [done|]. apply lock_acquire_finish_ok; try done. by apply inv_donation in Hid. }
  apply wp_ret.
  assert (head (lpl (threads k') c) = Some i) as Hhd by by rewrite K3, (aq_lpl _ _ _ _ _ Haq).
  assert (∀ t, t ≠ c → rely t kd (got c l i p kd)) as Hrg.
  { intros t Ht. rewrite <-Hrd in Hhd, Ht |- *. eapply rely_got; try done. apply lookup_insert_eq. }
  assert (at_ c false k0' (got c l i p kd)) as Hag.
  { split; try done.
    - rewrite <-Hrd in Hhd |- *. eapply (inv_got kd l i p); try done; [apply lookup_insert_eq|simpl; lia].
    - apply (guar_step _ kd); try done. by rewrite Hrd. }
  eapply restore_spec; [exact Hag|]. intros v k0'' k'' Ha'' Hrel''. apply HQ; [done|].
  apply (acquired_rely c l k (got c l i p kd)); [|exact (at_inv _ _ _ _ Hag)|exact (at_running _ _ _ _ Hag)|done].
  apply (acquired_got c l i p k k2 k' sm); try done.
  - by intros t j Hj; eapply inv_records.
  - apply (lp_nodup _ _ _ (inv_lp _ _ Hi')).
  - eapply grows_trans; [|exact (re_grows _ _ _ (Hrg (c + 1) ltac:(lia)))].
    eapply grows_trans; [done|]. eapply grows_trans; [exact (re_grows _ _ _ Hrel)|].
    exact (re_grows _ _ _ (rely_downed c k' _ _ Es)).
Qed.

Lemma lock_acquire_spec c lvl l Q k0 k :
  at_ c lvl k0 k → c ≠ idle_thread k → not_waiting c k → is_Some (holders k !! l) →
  holders k !! l ≠ Some c →
  (∀ v k0' k', at_ c lvl k0' k' → acquired c l k k' → Q v k0' k') →
  wp (lock_acquire l) Q k0 k.
Proof.
  intros Ha Hid Hnw Hl Hnh HQ. unfold lock_acquire. apply wp_bind, (disable_spec c lvl); [done|].
  apply wp_ret. rewrite is_true_Z_of_bool. set (k1 := set_intr_on false k).
  assert (at_ c false k0 k1) as Ha1 by by eapply at_set_intr.
  apply wp_bind. unfold act_ptr.
  destruct (lock_acquire_prepare_ok c k0 k1 l Ha1) as [[E Hfull]|(i & k2 & E & Ha2 & Haq)]; try done.
  { apply wp_act_err; [by erewrite bind_err by exact E|done]. }
  pose proof Ha2 as [Hi2 Hg2 Hr2 Hl2].
  eapply wp_act_off with (v := Z.of_nat i) (k' := k2); [by erewrite bind_ok by exact E| |done|].
  { rewrite Hr2. symmetry. by apply at_running in Ha1. }
  apply wp_ret. replace (ptr_of_Z (Z.of_nat i)) with (Some i)
    by (unfold ptr_of_Z; rewrite decide_False by lia; by rewrite Nat2Z.id).
  apply wp_bind. unfold act. eapply wp_act_off; [done|done|done|]. apply wp_ret. rewrite Hr2.
  apply wp_bind. eapply sema_down_core; [done| |by intros t [=]|done| |].
  - by rewrite (aq_idle _ _ _ _ _ Haq).
  - apply (lo_sema _ _ (inv_lock _ _ Hi2)). by rewrite (aq_holders _ _ _ _ _ Haq).
  - intros k0' k' sm Ha' Hrel Es Hp.
    eapply wp_act_off with (v := 0) (k' := downed (LockSema l) sm k'); [|done|exact (at_level _ _ _ _ Ha')|].
    { erewrite bind_ok by by apply intr_set_level_ok. simpl. rewrite (at_level _ _ _ _ Ha').
      rewrite set_intr_on_same; [done|]. exact (at_level _ _ _ _ Ha'). }
    apply wp_ret. eapply (lock_finish_spec c lvl l i Q k0 k1 k2); try done.
    + exact (re_grows _ _ _ (aq_others _ _ _ _ _ Haq (c + 1) ltac:(lia))).
    + by apply at_inv in Ha1.
    + intros v k0'' k'' Ha'' [A1 A2 A3 A4 A5 A6 A7 A8 A9]. apply HQ; [done|]. split; try done. by destruct A1.
Qed.

(** ** Releasing a lock *)

Definition removed (l : Z) (i : nat) (js : list nat) (k : kernel) : kernel :=
  set_lock_priority_page (<[i := zero_lock_priority]> (lock_priority_page k))
    (map_thread (running k) (with_lock_priority_list js)
      (set_holders (<[l := NULL]> (holders k)) k)).

Section removed.
  Context (k : kernel) (l : Z) (i : nat) (p : Z).
Let c := running k.
Let js := filter (λ j, j ≠ i) (lpl (threads k) c).
  Context (Hi : inv Runs k) (Hh : holders k !! l = Some c) (Hin : i ∈ lpl (threads k) c).
  Context (Hr : lock_priority_page k !! i = Some (LockPriority true false l p)) (Hp : pri_ok p).
  Context (Hout : (l, c) ∉ sections k).

Lemma removed_record j w l' :
  lp_is (<[i := zero_lock_priority]> (lock_priority_page k)) j w l' ↔
  j ≠ i ∧ lp_is (lock_priority_page k) j w l'.
Proof. rewrite lp_is_insert by eauto. case_decide; simpl; naive_solver. Qed.

Lemma removed_lpl t :
  lpl (threads (removed l i js k)) t = if decide (t = c) then js else lpl (threads k) t.
Proof. destruct (inv_current _ Hi) as (th & Ec & _). by apply (lpl_set _ _ th). Qed.

Lemma removed_elem t j :
  j ∈ lpl (threads (removed l i js k)) t ↔ j ≠ i ∧ j ∈ lpl (threads k) t.
Proof.
  rewrite removed_lpl. case_decide as E; [subst t; unfold js; by rewrite list_elem_of_filter|].
  split; [|naive_solver]. intros Hj. split; [|done]. intros ->. apply E.
  by eapply (lp_disjoint _ _ _ (inv_lp _ _ Hi)).
Qed.

Lemma lp_removed :
  lp_inv (threads (removed l i js k)) (<[l := NULL]> (holders k))
    (lock_priority_page (removed l i js k)).
Proof.
  pose proof (inv_lp _ _ Hi) as [P1 P2 P3 P4 P5 P6 P7].
  assert (lp_is (lock_priority_page k) i false l) as Hil by by eexists.
  split.
  - intros t. rewrite removed_lpl. case_decide; [|done]. apply NoDup_filter, P1.
  - intros t j [Hj Hj']%removed_elem. destruct (P2 t j Hj') as (w & l' & Hw & Hl').
    exists w, l'. split; [by apply removed_record|]. destruct (decide (l' = l)) as [->|].
    + by rewrite lookup_insert_eq.
    + by rewrite lookup_insert_ne.
  - intros t u j [_ H1]%removed_elem [_ H2]%removed_elem. by eapply P3.
  - intros t j j' w v l' [_ H1]%removed_elem [_ H2]%removed_elem [_ ?]%removed_record [_ ?]%removed_record.
    by eapply P4.
  - intros t j l' [Hj Hj']%removed_elem [_ Hw]%removed_record. pose proof (P5 t j l' Hj' Hw) as Hd.
    rewrite removed_lpl. case_decide as E; [|done]. subst t. unfold js.
    destruct (lpl (threads k) c) as [|j0 js0]; simplify_eq/=. rewrite filter_cons_True by done. done.
  - intros t l' Ht. setoid_rewrite removed_elem. setoid_rewrite removed_record.
    destruct (decide (l' = l)) as [->|Hl].
    + rewrite lookup_insert_eq. split; [naive_solver|]. intros (j & [Hj Hj'] & _ & Hw).
      destruct Hj. assert (holders k !! l = Some t) as E by (apply P6; eauto).
      rewrite Hh in E. injection E as <-. by eapply P4.
    + rewrite lookup_insert_ne, P6 by done. split; intros (j & Hj & Hw); exists j; [|naive_solver].
      assert (j ≠ i); [|done]. intros ->. destruct Hw as (q & E & _). rewrite Hr in E. by simplify_eq.
  - by apply insert_not_nil.
Qed.

Lemma holder_not_idle : c ≠ idle_thread k.
Proof.
  intros E. destruct (si_idle _ _ _ _ _ _ _ _ (inv_sched _ _ Hi)) as [_ El].
  rewrite <-E in El. rewrite El in Hin. by apply not_elem_of_nil in Hin.
Qed.

Lemma inv_removed : inv Runs (removed l i js k).
Proof.
  destruct (inv_current _ Hi) as (th & Ec & Hcn & Hm & Hst & Hkf).
  pose proof Hi as [Isc Ise [L1 L2 L3 L4] Ilp Ico Id Ix Icl]. split; try done.
  - eapply (sched_set_lpl _ _ th); try done. apply holder_not_idle.
  - by apply (sema_set_lpl _ _ th).
  - simpl. split; try done.
    + intros l'. rewrite <-L1. destruct (decide (l' = l)) as [->|]; [|by rewrite lookup_insert_ne].
      rewrite lookup_insert_eq, Hh. split; intros _; by eexists.
    + rewrite lookup_insert_ne; [done|]. intros ->. by rewrite L2 in Hh.
    + intros l' t sm'. destruct (decide (l' = l)) as [->|]; [|rewrite lookup_insert_ne by done; apply L4].
      rewrite lookup_insert_eq. intros [= <-]. done.
  - apply lp_removed.
  - by eapply (cond_set_lpl _ _ th).
  - eapply (client_set_lpl _ _ th); [done|]. destruct Icl as [C1 C2 C3]. split; try done.
    intros l' t Ht. destruct (C1 l' t Ht) as [E Hn]. simpl. rewrite lookup_insert_ne; [done|].
    intros ->. rewrite Hh in E. by simplify_eq.
Qed.

Lemma grows_removed : grows k (removed l i js k).
Proof.
  split; try done. simpl. intros l' Hl'. destruct (decide (l' = l)) as [->|].
  - by rewrite lookup_insert_eq.
  - by rewrite lookup_insert_ne.
Qed.

Lemma rely_removed t : t ≠ c → rely t k (removed l i js k).
Proof.
  intros Ht. destruct (inv_current _ Hi) as (th & Ec & _).
  split; [apply grows_removed| |].
  - intros Hl. assert (t ≠ NULL) as Hn.
    { destruct Hl as (s & E & _). apply st_exists in E as [x E]. by destruct (inv_thread _ _ _ _ Hi E). }
    split; try done.
    + by apply live_set.
    + by apply (started_set _ _ th).
    + rewrite removed_lpl. by rewrite decide_False.
    + intros j w l' Hj Hw. apply removed_record. split; [|done]. intros ->. apply Ht.
      by eapply (lp_disjoint _ _ _ (inv_lp _ _ Hi)).
    + intros l'. simpl. destruct (decide (l' = l)) as [->|]; [|by rewrite lookup_insert_ne].
      rewrite lookup_insert_eq. split; intros [=]; congruence.
    + intros u fr. by apply nascent_set.
  - by apply (started_set _ _ th).
Qed.
End removed.

(** The effect of [lock_release] by [c], other threads included. *)
Record released (c l : Z) (k k' : kernel) : Prop := {
  rl_grows : grows k k';
  rl_not_waiting : not_waiting c k → not_waiting c k';
  rl_holds l' : holders k' !! l' = Some c ↔ l' ≠ l ∧ holders k !! l' = Some c;
  rl_cond d : in_cond (conds k') c d → in_cond (conds k) c d;
  rl_waiter : is_Some (semas k' !! WaiterSema c) ↔ is_Some (semas k !! WaiterSema c);
  rl_nascent u fr : nascent (threads k') c u fr ↔ nascent (threads k) c u fr;
  rl_sections l' : (l', c) ∈ sections k' ↔ (l', c) ∈ sections k;
  rl_creating : c ∈ creating k' ↔ c ∈ creating k
}.

Lemma released_rely c l k k1 k2 :
  released c l k k1 → inv Runs k1 → running k1 = c → rely c k1 k2 → released c l k k2.
Proof.
  intros [A1 A2 A3 A4 A5 A6 A7 A8] Hi Hr Hrel.
  assert (live (threads k1) c) as Hl by (subst; by apply running_live).
  pose proof Hrel as [Hg Hk _]. destruct (Hk Hl) as [K1 K2 K3 K4 K5 K6 K7 K8 K9 K10]. split.
  - by eapply grows_trans.
  - intros Hn. apply (not_waiting_rely c k1 k2); try done; [by eapply inv_records|auto].
  - intros l'. by rewrite K5, A3.
  - auto.
  - by rewrite K7, A5.
  - intros u fr. by rewrite K8, A6.
  - intros l'. by rewrite K9, A7.
  - by rewrite K10, A8.
Qed.

Lemma released_removed k l i p :
  inv Runs k → holders k !! l = Some (running k) → i ∈ lpl (threads k) (running k) →
  lock_priority_page k !! i = Some (LockPriority true false l p) →
  released (running k) l k
    (removed l i (filter (λ j, j ≠ i) (lpl (threads k) (running k))) k).
Proof.
  intros Hi Hh Hin Hr. destruct (inv_current _ Hi) as (th & Ec & Hcn & _). split; try done.
  - by apply grows_removed.
  - intros Hn j l' [_ Hj]%removed_elem [_ Hw]%(removed_record k l i p Hr); try done. by eapply Hn.
  - intros l'. simpl. destruct (decide (l' = l)) as [->|].
    + rewrite lookup_insert_eq. split; [intros [=]; congruence|naive_solver].
    + rewrite lookup_insert_ne by done. naive_solver.
  - intros u fr. by apply nascent_set.
Qed.
