(* ===== verification/KCond.v ===== *)
(** * Specifications, continued: [lock_release] and condition variables *)

From S2P Require Import Prelude KList Kernel KProg KLogic KSpec KSync KSync2 KLock.

(** ** [lock_release] *)

Lemma find_lock_priority_frame k k' js l r :
  lock_priority_page k' = lock_priority_page k →
  find_lock_priority js l k = Ok (r, k) → find_lock_priority js l k' = Ok (r, k').
Proof.
  intros Hp. induction js as [|j js IH]; simpl; [mrun; congruence|].
  unfold rd_lp. mrun. rewrite Hp. destruct (lock_priority_page k !! j) as [rj|]; [|done].
  case_decide; [congruence|done].
Qed.

Lemma lock_release_prepare_ok c k0 k l :
  at_ c false k0 k → holders k !! l = Some c → (l, c) ∉ sections k →
  ∃ k' sm, lock_release_prepare l k = Ok (tt, k') ∧ at_ c false k0 k' ∧ released c l k k' ∧
    semas k' !! LockSema l = Some sm ∧ up_ok (LockSema l) sm k'.
Proof.
  intros [Hi Hg Hr Hlv] Hh Hout. subst c. assert (is_Some (holders k !! l)) as Hl by by eexists.
  pose proof (lock_nonnull _ _ _ Hi Hl) as Hnn. unfold lock_release_prepare.
  mrun. rewrite bool_decide_eq_true_2 by done. cbn iota.
  rewrite (lock_held_run k l (running k)) by done. rewrite bool_decide_eq_true_2 by done. cbn iota.
  rewrite current_run by done. unfold wr_holder. mrun. simpl. rewrite (inv_donation _ _ Hi).
  destruct (inv_current _ Hi) as (th & Ec & Hcn & _). rewrite (rd_thread_ok _ _ th) by done.
  destruct (held_record Runs k l (running k) Hi Hh Hcn) as (th' & i & p & E' & Ef & Hin & Ei & Hp).
  rewrite Ec in E'. injection E' as <-.
  rewrite (find_lock_priority_frame k (set_holders (<[l:=NULL]> (holders k)) k) _ _ _ eq_refl Ef). cbn iota. unfold deref. mrun.
  rewrite (wr_thread_ok _ _ th) by done. unfold wr_lp. mrun. cbn iota.
  rewrite <-(lpl_lookup _ _ _ Ec).
  exists (removed l i (filter (λ j, j ≠ i) (lpl (threads k) (running k))) k).
  destruct (lo_sema _ _ (inv_lock _ _ Hi) l) as [Hsm _]. destruct (Hsm Hl) as [sm Es].
  exists sm. split_and!; try done.
  - split; [by apply (inv_removed k l i p)| |done|done].
    apply (guar_step _ k); [done|done|]. by apply (rely_removed k l i p).
  - by apply (released_removed k l i p).
  - apply lookup_insert_eq.
  - by eapply (lo_held _ _ (inv_lock _ _ Hi)).
Qed.

(** The highest of [b] and the priorities of the records [js]. *)
Definition top_priority (page : list lock_priority) (js : list nat) (b : Z) : Z :=
  foldr (λ j m, match page !! j with Some r => lp_priority r `max` m | None => m end) b js.

Lemma highest_lock_priority_ok k js best :
  (∀ j, j ∈ js → is_Some (lock_priority_page k !! j)) →
  ∃ r, highest_lock_priority js best k = Ok (r, k) ∧
    ∀ b, default b r `max` b = top_priority (lock_priority_page k) js (default b best `max` b).
Proof.
  revert best. induction js as [|j js IH]; intros best Hex; simpl.
  { by eexists. }
  destruct (Hex j) as [r Er]; [by left|]. unfold rd_lp. mrun. rewrite Er.
  edestruct (IH (match best with
         | Some b => if b <? lp_priority r then Some (lp_priority r) else Some b
         | None => Some (lp_priority r) end)) as (res & -> & Hb); [intros; apply Hex; by right|].
  eexists. split; [done|]. intros b. rewrite Hb.
  assert (∀ js x y, top_priority (lock_priority_page k) js (x `max` y) =
    x `max` top_priority (lock_priority_page k) js y) as Hm.
  { clear. induction js as [|i js IH]; intros x y; simpl; [done|].
    rewrite IH. destruct (lock_priority_page k !! i); [lia|done]. }
  rewrite <-Hm. f_equal. destruct best as [b'|]; simpl; [destruct (Z.ltb_spec b' (lp_priority r))|]; simpl; lia.
Qed.

Lemma top_priority_ok page js b :
  (∀ j, j ∈ js → ∃ w l, lp_is page j w l) → pri_ok b → pri_ok (top_priority page js b).
Proof.
  intros Hjs Hb. induction js as [|j js IH]; simpl; [done|].
  destruct (Hjs j) as (w & l & q & -> & Hq); [by left|]. simpl.
  destruct IH; [intros; apply Hjs; by right|]. destruct Hq. unfold pri_ok. lia.
Qed.

(** The new effective priority is the highest of the thread's own and those
    of the locks it still holds. *)
Lemma lock_release_finish_ok k th :
  inv Runs k → threads k !! running k = Some th →
  let p := top_priority (lock_priority_page k) (lock_priority_list th) (original_priority th) in
  lock_release_finish (running k) k =
    Ok (bool_decide (priority th > p), map_thread (running k) (with_priority p) k) ∧
  original_priority th ≤ p ∧ pri_ok p.
Proof.
  intros Hi Ec p. assert (pri_ok p) as Hpok.
  { apply top_priority_ok; [|by eapply inv_priorities]. rewrite <-(lpl_lookup _ _ _ Ec).
    by apply inv_records with Runs. } destruct (get_priority_run _ Hi) as (th' & E' & Hp). rewrite Ec in E'. injection E' as <-.
  unfold lock_release_finish. mrun. rewrite Hp, (rd_thread_ok _ _ th) by done.
  destruct (highest_lock_priority_ok k (lock_priority_list th) None) as (r & -> & Hr).
  { intros j. rewrite <-(lpl_lookup _ _ _ Ec). intros Hj.
    destruct (inv_records _ _ Hi _ _ Hj) as (w & l & q & E & _). by eexists. }
  specialize (Hr (original_priority th)). simpl in Hr. rewrite Z.max_id in Hr.
  rewrite (wr_thread_ok _ _ th) by done. fold p in Hr.
  assert (match r with Some h => if decide (h >= original_priority th) then h else original_priority th
    | None => original_priority th end = p) as ->.
  { rewrite <-Hr. destruct r; simpl; [case_decide|]; lia. }
  split_and!; [done| |done]. rewrite <-Hr. lia.
Qed.

Lemma at_priority c lvl k0 k p :
  at_ c lvl k0 k → pri_ok p →
  at_ c lvl k0 (map_thread c (with_priority p) k) ∧ ∀ t, rely t k (map_thread c (with_priority p) k).
Proof.
  intros [Hi Hg Hr Hl] Hp. assert (∀ t, rely t k (map_thread c (with_priority p) k)) as Hrel.
  { intros t. apply rely_alter; try done. rewrite <-Hr. by apply running_live. }
  split; [|done]. split; try done.
  - apply inv_alter; [split; auto|done|done].
  - by apply (guar_step _ k).
Qed.

(** The end of [lock_release]. *)
Lemma lock_release_end_spec c rest Q k0 k :
  at_ c false k0 k →
  (∀ k0' k', at_ c false k0' k' → rely c k k' → wp rest Q k0' k') →
  wp (e <~ act_bool (gets priority_donation_enabled);
      (if is_true_Z e then
         y <~ act_bool (lock_release_finish c);
         if is_true_Z y then thread_yield else Ret 0
       else Ret 0);~
      rest) Q k0 k.
Proof.
  intros Ha HQ. pose proof Ha as [Hi Hg Hr Hl]. apply wp_bind. unfold act_bool.
  eapply wp_act_off with (v := 1) (k' := k); [|done|done|].
  { mrun. by rewrite (inv_donation _ _ Hi). }
  apply wp_ret, wp_bind. cbn [is_true_Z]. destruct (inv_current _ Hi) as (th & Ec & _). rewrite Hr in Ec.
  destruct (lock_release_finish_ok k th) as (Ef & _ & Hpok); [done|by rewrite Hr|]. rewrite Hr in Ef.
  set (p := top_priority _ _ _) in *.
  destruct (at_priority c false k0 k p) as [Ha' Hrel]; try done.
  apply wp_bind. eapply wp_act_off; [by erewrite bind_ok by exact Ef|done|done|]. apply wp_ret.
  rewrite is_true_Z_of_bool. case_bool_decide.
  - eapply thread_yield_spec; [done|]. intros v k0' k' Ha2 Hr2. apply HQ; [done|].
    etrans; [apply Hrel|done].
  - apply wp_ret. by apply HQ.
Qed.

Lemma lock_release_spec c lvl l Q k0 k :
  at_ c lvl k0 k → holders k !! l = Some c → (l, c) ∉ sections k →
  (∀ v k0' k', at_ c lvl k0' k' → released c l k k' → Q v k0' k') →
  wp (lock_release l) Q k0 k.
Proof.
  intros Ha Hl Hout HQ. unfold lock_release. apply wp_bind, (disable_spec c lvl); [done|].
  apply wp_ret. rewrite is_true_Z_of_bool. set (k1 := set_intr_on false k).
  assert (at_ c false k0 k1) as Ha1 by by eapply at_set_intr.
  apply wp_bind. unfold act_unit.
  destruct (lock_release_prepare_ok c k0 k1 l Ha1) as (k2 & sm & E & Ha2 & Hrl & Es & Hu); try done.
  pose proof Ha2 as [Hi2 Hg2 Hr2 Hl2].
  eapply wp_act_off with (v := 0) (k' := k2); [by erewrite bind_ok by exact E| |done|].
  { rewrite Hr2. symmetry. by apply at_running in Ha1. }
  apply wp_ret, wp_bind. eapply wp_act_off; [done|done|done|]. apply wp_ret. rewrite Hr2.
  apply wp_bind. eapply sema_up_spec; try done. intros _ k0' k3 Ha3 Hr3.
  eapply lock_release_end_spec; [done|]. intros k0'' k4 Ha4 Hr4.
  eapply restore_spec; [done|]. intros v k0''' k5 Ha5 Hr5. apply HQ; [done|].
  assert (released c l k k2) as Hrl' by (destruct Hrl as [[] ? ? ? ? ? ? ?]; by split).
  apply (released_rely c l k k2); try done. etrans; [done|]. by etrans.
Qed.

(** ** Condition variables *)

(** The waiter of [c], on the list of [d], with a semaphore of its own. *)
Definition enrolled (c d : Z) (ws : list Z) (k : kernel) : kernel :=
  set_conds (<[d := ws ++ [c]]> (conds k))
    (set_semas (<[WaiterSema c := Semaphore 0 []]> (semas k)) k).

Lemma waits_fresh ss t s s' v :
  waits (<[s := Semaphore v []]> ss) t s' → waits ss t s'.
Proof.
  intros (sm & E & Hin). destruct (decide (s' = s)) as [->|].
  - rewrite lookup_insert_eq in E. injection E as <-. by apply not_elem_of_nil in Hin.
  - rewrite lookup_insert_ne in E by done. by exists sm.
Qed.

Lemma sema_inv_fresh pk ths ss sl idle s v :
  sema_inv pk ths ss sl idle → 0 ≤ v < 2 ^ 32 →
  sema_inv pk ths (<[s := Semaphore v []]> ss) sl idle.
Proof.
  intros [E1 E2 E3 E4 E5] Hv. split.
  - intros s' sm. destruct (decide (s' = s)) as [->|].
    + rewrite lookup_insert_eq. by intros [= <-].
    + rewrite lookup_insert_ne by done. apply E1.
  - intros s' sm. destruct (decide (s' = s)) as [->|].
    + rewrite lookup_insert_eq. intros [= <-]. apply NoDup_nil_2.
    + rewrite lookup_insert_ne by done. apply E2.
  - intros t s' ?%waits_fresh. by eapply E3.
  - intros t s1 s2 ?%waits_fresh ?%waits_fresh. by eapply E4.
  - intros t u ?%waits_fresh. by apply E5.
Qed.

(** Nobody but its thread waits for a waiter. *)
Lemma waiter_free k t : inv Runs k → ¬ waits (semas k) t (WaiterSema (running k)).
Proof.
  intros Hi Hw. pose proof (inv_sema _ _ Hi) as [_ _ E3 _ E5].
  rewrite (E5 _ _ Hw) in Hw. destruct (E3 _ _ Hw) as [Hb _].
  destruct (inv_current _ Hi) as (th & Ec & _ & _ & Hst & _). rewrite (st_lookup _ _ _ Ec) in Hb. congruence.
Qed.

Section enrolled.
  Context (k : kernel) (d : Z) (ws : list Z).
Let c := running k.
  Context (Hi : inv Runs k) (Hd : conds k !! d = Some ws) (Hn : ∀ d', ¬ in_cond (conds k) c d').

Lemma in_cond_enrolled t d' :
  in_cond (conds (enrolled c d ws k)) t d' ↔ in_cond (conds k) t d' ∨ t = c ∧ d' = d.
Proof.
  unfold in_cond. simpl. destruct (decide (d' = d)) as [->|].
  - rewrite lookup_insert_eq, Hd. split.
    + intros (ws' & [= <-] & [?|?]%elem_of_app); [left; by exists ws|]. right. split; [|done]. by apply list_elem_of_singleton.
    + intros [(ws' & [= <-] & ?)|[-> _]]; eexists; (split; [done|]); apply elem_of_app; [by left|].
      right. by apply list_elem_of_singleton.
  - rewrite lookup_insert_ne by done. naive_solver.
Qed.

Lemma inv_enrolled : inv Runs (enrolled c d ws k).
Proof.
  destruct (inv_current _ Hi) as (th & Ec & _ & _ & Hst & Hkf).
  pose proof Hi as [Isc Ise [L1 L2 L3 L4] Ilp [C1 C2 C3] Id Ix Icl]. split; try done; simpl.
  - by apply sema_inv_fresh.
  - split; try done; intros l; rewrite lookup_insert_ne by done; apply L1 || apply L3 || apply L4.
  - split.
    + intros d' ws'. destruct (decide (d' = d)) as [->|].
      * rewrite lookup_insert_eq. intros [= <-]. apply NoDup_snoc; [by eapply C1|].
        intros Hin. apply (Hn d). by exists ws.
      * rewrite lookup_insert_ne by done. apply C1.
    + intros t d1 d2 [H1|[-> ->]]%in_cond_enrolled [H2|[E ->]]%in_cond_enrolled.
      * by eapply C2.
      * subst t. by destruct (Hn d1).
      * by destruct (Hn d2).
      * done.
    + intros t d' [H1|[-> ->]]%in_cond_enrolled.
      * destruct (C3 t d' H1) as (? & sm & E & ?). split; [done|]. exists sm. split; [|done].
        rewrite lookup_insert_ne; [done|]. intros [= <-]. by destruct (Hn d').
      * split; [exists th; split_and!; try done; by rewrite Hst|]. exists (Semaphore 0 []).
        split; [apply lookup_insert_eq|done].
  - eapply client_semas; [done|]. intros t i (sm & E & Ht). exists i, sm. split; [|done].
    rewrite lookup_insert_ne; [done|]. intros <-. by destruct (waiter_free k t Hi); exists sm.
Qed.

Lemma grows_enrolled : grows k (enrolled c d ws k).
Proof.
  split; try done; simpl.
  - intros a. by rewrite lookup_insert_ne.
  - intros d' H. destruct (decide (d' = d)) as [->|]; [by rewrite lookup_insert_eq|].
    by rewrite lookup_insert_ne.
Qed.

Lemma rely_enrolled t : t ≠ c → rely t k (enrolled c d ws k).
Proof.
  intros Ht. split; [apply grows_enrolled| |done]. intros Hl. split; try done.
  - by intros d' [?|[-> _]]%in_cond_enrolled.
  - simpl. rewrite lookup_insert_ne; [done|]. naive_solver.
Qed.
End enrolled.

(** The waiter is off the list and its semaphore goes away. *)
Definition unrolled (c : Z) (k : kernel) : kernel :=
  set_semas (delete (WaiterSema c) (semas k)) k.

Lemma inv_unrolled k c :
  inv Runs k → running k = c → (∀ d, ¬ in_cond (conds k) c d) → inv Runs (unrolled c k).
Proof.
  intros Hi Hr Hn. pose proof Hi as [Isc [E1 E2 E3 E4 E5] [L1 L2 L3 L4] Ilp [C1 C2 C3] Id Ix Icl].
  assert (∀ t s, waits (delete (WaiterSema c) (semas k)) t s → waits (semas k) t s) as Hw.
  { intros t s (sm & [_ E]%lookup_delete_Some & Hin). by exists sm. }
  split; try done; simpl.
  - split; eauto; intros s sm [_ E]%lookup_delete_Some; eauto.
  - split; try done; intros l; rewrite lookup_delete_ne by done; apply L1 || apply L3 || apply L4.
  - split; try done. intros t d Hd. rewrite lookup_delete_ne; [by eapply C3|].
    intros [= <-]. by destruct (Hn d).
  - eapply client_semas; [done|]. intros t i (sm & E & Ht). exists i, sm. split; [|done].
    rewrite lookup_delete_ne; [done|]. intros <-. destruct (waiter_free k t Hi). rewrite Hr. by exists sm.
Qed.

Lemma rely_unrolled t k c : t ≠ c → rely t k (unrolled c k).
Proof.
  intros Ht. apply rely_semas.
  - intros a. by rewrite lookup_delete_ne.
  - rewrite lookup_delete_ne; [done|]. naive_solver.
Qed.

(** The running thread is in none of the functions of synch.c. *)
Definition idle_in_synch (c : Z) (k : kernel) : Prop :=
  not_waiting c k ∧ ∀ d, ¬ in_cond (conds k) c d.

Lemma cond_wait_prepare_ok c k0 k d l :
  at_ c false k0 k → holders k !! l = Some c → d ≠ NULL → is_Some (conds k !! d) →
  (∀ d, ¬ in_cond (conds k) c d) →
  ∃ ws, cond_wait_prepare d l k = Ok (tt, enrolled c d ws k) ∧ conds k !! d = Some ws ∧
    at_ c false k0 (enrolled c d ws k).
Proof.
  intros [Hi Hg Hr Hlv] Hh Hdn [ws Hd] Hn. subst c.
  pose proof (lock_nonnull _ _ _ Hi (mk_is_Some _ _ Hh)) as Hnn.
  unfold cond_wait_prepare, intr_context. mrun. rewrite !bool_decide_eq_true_2 by done. cbn iota.
  rewrite (inv_ctx _ _ Hi). cbn [negb]. cbn iota. rewrite (lock_held_run k l (running k)) by done.
  rewrite bool_decide_eq_true_2 by done. cbn iota. rewrite current_run by done.
  unfold sema_init, wr_sema, rd_cond, wr_cond. mrun. simpl. rewrite Hd. exists ws.
  split_and!; try done. split; try done; [by apply inv_enrolled|].
  apply (guar_step _ k); [done|done|]. by apply rely_enrolled.
Qed.

(** The effect of a function that leaves the thread with the locks it had,
    other threads included.  [cond_wait] is one: the lock is released and
    acquired again. *)
Record returned (c : Z) (k k' : kernel) : Prop := {
  rt_grows : grows k k';
  rt_idle : idle_in_synch c k';
  rt_holds l : holders k' !! l = Some c ↔ holders k !! l = Some c;
  rt_sections l : (l, c) ∈ sections k' ↔ (l, c) ∈ sections k;
  rt_creating : c ∈ creating k' ↔ c ∈ creating k
}.

Lemma idle_in_synch_rely c k k' :
  inv Runs k → running k = c → rely c k k' → idle_in_synch c k → idle_in_synch c k'.
Proof.
  intros Hi Hr Hrel [A2 A3]. assert (live (threads k) c) as Hl by (subst; by apply running_live).
  split; [apply (not_waiting_rely c k k'); try done; by eapply inv_records|].
  intros d Hd. by apply (A3 d), (ke_cond _ _ _ (re_keeps _ _ _ Hrel Hl)).
Qed.

Lemma returned_rely c k k1 k2 :
  returned c k k1 → inv Runs k1 → running k1 = c → rely c k1 k2 → returned c k k2.
Proof.
  intros [A1 A2 A4 A6 A7] Hi Hr Hrel.
  assert (live (threads k1) c) as Hl by (subst; by apply running_live).
  destruct (re_keeps _ _ _ Hrel Hl) as [_ _ _ _ _ _ _ K8 K9 K10]. split.
  - eapply grows_trans; [done|apply Hrel].
  - by apply (idle_in_synch_rely c k1 k2).
  - intros l'. by rewrite (ke_holds _ _ _ (re_keeps _ _ _ Hrel Hl)), A4.
  - intros l'. by rewrite K9, A6.
  - by rewrite K10, A7.
Qed.

(** A raised waiter is off the list of its condition variable. *)
Lemma raised_not_in_cond k c sm d :
  inv Runs k → semas k !! WaiterSema c = Some sm → 0 < value sm → ¬ in_cond (conds k) c d.
Proof.
  intros Hi Es Hp Hd. destruct (co_waits _ _ _ (inv_cond _ _ Hi) _ _ Hd) as (_ & sm' & E & Hv).
  rewrite Es in E. injection E as <-. lia.
Qed.

(** From the return of [sema_down]. *)
Lemma cond_wait_end_spec c lvl l Q k0 k :
  at_ c false k0 k → c ≠ idle_thread k → idle_in_synch c k → is_Some (holders k !! l) →
  holders k !! l ≠ Some c →
  (∀ v k0' ka k', at_ c lvl k0' k' → acquired c l k ka → returned c ka k' → Q v k0' k') →
  wp (lock_acquire l;~ act_unit (waiter_end c);~ act_bool (intr_set_level lvl)) Q k0 k.
Proof.
  intros Ha Hid [Hnw Hnc] Hl Hnh HQ. apply wp_bind. eapply lock_acquire_spec; try done.
  intros _ k0a ka Haa Hac. pose proof Hac as [_ A2 _ _ A5 _ _ _ _].
  assert (∀ d, ¬ in_cond (conds ka) c d) as Hnca by (intros d Hd; by apply (Hnc d), A5).
  apply wp_bind. unfold act_unit, waiter_end. pose proof Haa as [Hia Hga Hra Hla].
  eapply wp_act_off with (v := 0) (k' := unrolled c ka); [done|done|done|]. apply wp_ret.
  assert (at_ c false k0a (unrolled c ka)) as Hau.
  { split; try done; [by apply inv_unrolled|]. apply (guar_step _ ka); [done|done|].
    intros t Ht. apply rely_unrolled. congruence. }
  assert (returned c ka (unrolled c ka)) as Hcw.
  { split; try done. exact (re_grows _ _ _ (rely_unrolled (c + 1) ka c ltac:(lia))). }
  eapply restore_spec; [done|]. intros v k0' k' Ha' Hr'.
  apply (HQ _ _ ka); [done|done|]. apply (returned_rely c ka (unrolled c ka)); try done; by apply Hau.
Qed.

(** Waiting for the waiter's own semaphore. *)
Lemma waiter_down_spec c Q k0 k :
  at_ c false k0 k → c ≠ idle_thread k → not_waiting c k → is_Some (semas k !! WaiterSema c) →
  (∀ v k0' k', at_ c false k0' k' → returned c k k' → Q v k0' k') →
  wp (sema_down (WaiterSema c)) Q k0 k.
Proof.
  intros Ha Hid Hnw Hs HQ. eapply sema_down_core; [done|done|by intros t [= ->]|done|done|].
  intros k0' k' sm Ha' Hrel Es Hp. eapply restore_spec; [by apply at_downed|].
  intros v k0'' k'' Ha'' Hrel''. apply HQ; [done|].
  pose proof (at_downed _ _ _ _ _ _ Ha' Es Hp) as Had.
  apply (returned_rely c k (downed (WaiterSema c) sm k')); [|exact (at_inv _ _ _ _ Had)|exact (at_running _ _ _ _ Had)|done].
  assert (live (threads k) c) as Hl.
  { destruct Ha as [Hi _ <- _]. by apply running_live. }
  pose proof (re_keeps _ _ _ Hrel Hl) as [K1 K2 K3 K4 K5 K6 K7 K8 K9 K10].
  split; try done.
  - eapply grows_trans; [apply Hrel|]. exact (re_grows _ _ _ (rely_downed c k' _ _ Es)).
  - split; [|intros d; by apply (raised_not_in_cond k' c sm d (at_inv _ _ _ _ Ha'))].
    apply (not_waiting_rely c k k'); try done. exact (inv_records _ _ (at_inv _ _ _ _ Ha)).
Qed.

Lemma cond_wait_spec c lvl d l Q k0 k :
  at_ c lvl k0 k → c ≠ idle_thread k → idle_in_synch c k →
  holders k !! l = Some c → (l, c) ∉ sections k → d ≠ NULL → is_Some (conds k !! d) →
  (∀ v k0' k', at_ c lvl k0' k' → returned c k k' → Q v k0' k') →
  wp (cond_wait d l) Q k0 k.
Proof.
  intros Ha Hid [Hnw Hnc] Hh Hout Hdn Hd HQ. unfold cond_wait. apply wp_bind, (disable_spec c lvl); [done|].
  apply wp_ret. rewrite is_true_Z_of_bool. set (k1 := set_intr_on false k).
  assert (at_ c false k0 k1) as Ha1 by by eapply at_set_intr.
  apply wp_bind. unfold act_unit at 1.
  destruct (cond_wait_prepare_ok c k0 k1 d l Ha1) as (ws & E & Ed & Ha2); try done.
  set (k2 := enrolled c d ws k1) in *. pose proof Ha2 as [Hi2 Hg2 Hr2 Hl2].
  eapply wp_act_off with (v := 0) (k' := k2); [by erewrite bind_ok by exact E| |done|].
  { rewrite Hr2. symmetry. by apply at_running in Ha1. }
  apply wp_ret, wp_bind. eapply wp_act_off; [done|done|done|]. apply wp_ret. rewrite Hr2.
  apply wp_bind. eapply lock_release_spec; [done..|].
  intros _ k0a ka Haa [R1 R2 R3 R4 R5 R6 R7 R8]. assert (grows k ka) as Hga.
  { eapply grows_trans; [|exact R1]. unfold k2. rewrite <-(at_running _ _ _ _ Ha1).
    by destruct (grows_enrolled k1 d ws). }
  apply wp_bind, waiter_down_spec; [done|by rewrite (gr_idle _ _ Hga)|by apply R2| |].
  { apply R5. simpl. by rewrite lookup_insert_eq. }
  intros _ k0b kb Hab [B1 B2 B3 B5 B6]. assert (grows k kb) as Hgb by by eapply grows_trans.
  apply (cond_wait_end_spec c lvl); [done|by rewrite (gr_idle _ _ Hgb)|done|by apply Hgb; eexists|rewrite B3, R3; naive_solver|].
  intros v k0' ke k' Ha' [A1 A2 A3 A4 A5 A6 A7 A8 A9] [D1 D2 D3 D5 D6]. apply HQ; [done|]. split.
  - eapply grows_trans; [done|]. by eapply grows_trans.
  - done.
  - intros l'. rewrite D3, A3, B3, R3. simpl. destruct (decide (l' = l)) as [->|]; naive_solver.
  - intros l'. by rewrite D5, A8, B5, R7.
  - by rewrite D6, A9, B6, R8.
Qed.

Definition dequeued (d w : Z) (ws : list Z) (k : kernel) : kernel :=
  set_conds (<[d := list_del w ws]> (conds k)) k.

Section dequeued.
  Context (k : kernel) (d w : Z) (ws : list Z) (Hi : inv Runs k) (Hd : conds k !! d = Some ws).

Lemma in_cond_dequeued t d' :
  in_cond (conds (dequeued d w ws k)) t d' ↔ in_cond (conds k) t d' ∧ (d' = d → t ≠ w).
Proof.
  unfold in_cond. simpl. destruct (decide (d' = d)) as [->|].
  - rewrite lookup_insert_eq, Hd. setoid_rewrite elem_of_list_del || idtac. split.
    + intros (ws' & [= <-] & [? ?]%elem_of_list_del). split; [by exists ws|done].
    + intros ((ws' & [= <-] & ?) & Hw). eexists. split; [done|]. apply elem_of_list_del. auto.
  - rewrite lookup_insert_ne by done. naive_solver.
Qed.

Lemma inv_dequeued : inv Runs (dequeued d w ws k).
Proof.
  pose proof Hi as [Isc Ise Ilo Ilp [C1 C2 C3] Id Ix Icl]. split; try done. split.
  - intros d' ws'. simpl. destruct (decide (d' = d)) as [->|].
    + rewrite lookup_insert_eq. intros [= <-]. by eapply NoDup_list_del, C1.
    + rewrite lookup_insert_ne by done. apply C1.
  - intros t d1 d2 [H1 _]%in_cond_dequeued [H2 _]%in_cond_dequeued. by eapply C2.
  - intros t d' [H1 _]%in_cond_dequeued. by eapply C3.
Qed.

Lemma rely_dequeued t : rely t k (dequeued d w ws k).
Proof.
  split; [|intros Hl; split; try done|done].
  - split; try done. simpl. intros d' H. destruct (decide (d' = d)) as [->|].
    + by rewrite lookup_insert_eq.
    + by rewrite lookup_insert_ne.
  - by intros d' [? _]%in_cond_dequeued.
Qed.
End dequeued.

(** The waiter picked is on the list, and [sema_up] may raise it. *)
Lemma cond_signal_pick_ok c k0 k d l :
  at_ c false k0 k → holders k !! l = Some c → d ≠ NULL → is_Some (conds k !! d) →
  cond_signal_pick d l k = Ok (NULL, k) ∨
  ∃ w k' sm, cond_signal_pick d l k = Ok (w, k') ∧ w ≠ NULL ∧ at_ c false k0 k' ∧ rely c k k' ∧
    semas k' !! WaiterSema w = Some sm ∧ up_ok (WaiterSema w) sm k'.
Proof.
  intros [Hi Hg Hr Hlv] Hh Hdn [ws Hd]. subst c.
  pose proof (lock_nonnull _ _ _ Hi (mk_is_Some _ _ Hh)) as Hnn.
  unfold cond_signal_pick, intr_context. mrun. rewrite !bool_decide_eq_true_2 by done. cbn iota.
  rewrite (inv_ctx _ _ Hi). cbn [negb]. cbn iota. rewrite (lock_held_run k l (running k)) by done.
  rewrite bool_decide_eq_true_2 by done. cbn iota. unfold rd_cond. rewrite Hd.
  destruct ws as [|w0 ws0]; [by left|]. right. pose proof (inv_cond _ _ Hi) as [C1 C2 C3].
  assert (∀ t, t ∈ w0 :: ws0 → in_cond (conds k) t d) as Hin by (intros; by eexists).
  rewrite list_max_by_ok.
  2: { intros t Ht%Hin. destruct (C3 t d Ht) as ((th & E & _) & _).
       unfold thread_priority_convert_func. rewrite E. by eexists. }
  set (w := max_from _ w0 ws0). unfold wr_cond. mrun. cbn iota.
  assert (w ∈ w0 :: ws0) as Hw%Hin by (apply max_from_elem, _).
  destruct (C3 w d Hw) as ((th & E & _) & sm & Es & _).
  exists w, (dequeued d w (w0 :: ws0) k), sm. split_and!; try done.
  - by destruct (inv_thread _ _ _ _ Hi E).
  - split; try done; [by apply inv_dequeued|]. apply (guar_step _ k); [done|done|].
    intros t _. by apply rely_dequeued.
  - by apply rely_dequeued.
  - intros d' [Hd' Hne]%in_cond_dequeued; [|done]. by apply Hne; [eapply C2|].
Qed.

Lemma cond_signal_spec c lvl d l Q k0 k :
  at_ c lvl k0 k → holders k !! l = Some c → d ≠ NULL → is_Some (conds k !! d) →
  (∀ v k0' k', at_ c lvl k0' k' → rely c k k' → Q v k0' k') →
  wp (cond_signal d l) Q k0 k.
Proof.
  intros Ha Hl Hdn Hd HQ. unfold cond_signal. apply wp_bind, (disable_spec c lvl); [done|].
  apply wp_ret. rewrite is_true_Z_of_bool. set (k1 := set_intr_on false k).
  assert (at_ c false k0 k1) as Ha1 by by eapply at_set_intr.
  assert (rely c k k1) as Hr1 by (apply rely_set_intr; reflexivity).
  apply wp_bind. unfold act.
  destruct (cond_signal_pick_ok c k0 k1 d l Ha1) as [E|(w & k2 & sm & E & Hw & Ha2 & Hr2 & Es & Hu)];
    try done.
  - eapply wp_act_off; [exact E|done|done|]. apply wp_ret. rewrite decide_False by (intros H; by apply H).
    apply wp_bind, wp_ret. eapply restore_spec; [done|]. intros v k0' k' Ha' Hr'. apply HQ; [done|].
    by etrans.
  - eapply wp_act_off; [exact E| |by apply Ha2|].
    { rewrite (at_running _ _ _ _ Ha2). symmetry. exact (at_running _ _ _ _ Ha1). }
    apply wp_ret. rewrite decide_True by done. apply wp_bind. eapply sema_up_spec; try done.
    intros _ k0a ka Haa Hra. eapply restore_spec; [done|]. intros v k0' k' Ha' Hr'. apply HQ; [done|].
    etrans; [done|]. etrans; [done|]. by etrans.
Qed.

Lemma cond_broadcast_spec c lvl d l Q k0 k :
  at_ c lvl k0 k → holders k !! l = Some c → d ≠ NULL → is_Some (conds k !! d) →
  (∀ v k0' k', at_ c lvl k0' k' → rely c k k' → Q v k0' k') →
  wp (cond_broadcast d l) Q k0 k.
Proof.
  intros Ha Hl Hdn Hd HQ. pose proof (lock_nonnull _ _ _ (at_inv _ _ _ _ Ha) (mk_is_Some _ _ Hl)) as Hnn.
  unfold cond_broadcast. apply wp_bind. unfold act_unit. rewrite wp_act. mrun.
  rewrite !bool_decide_eq_true_2 by done. cbn iota. split; [done|].
  assert (at_ c lvl k0 k → settle (λ k0 k1, at_ c lvl k0 k1 ∧ rely c k k1) k0 k) as Hse.
  { intros [Hi Hg Hr Hlv]. unfold settle, stable. destruct (intr_on k) eqn:El; [|done].
    split_and!; try done. intros k' ????. rewrite <-Hr. split; [split|]; try done; congruence. }
  assert (live (threads k) c) as Hlive by (rewrite <-(at_running _ _ _ _ Ha); apply running_live, Ha).
  eapply settle_mono, Hse, Ha. intros a b Hab. apply wp_ret.
  exists (λ k0 k1, at_ c lvl k0 k1 ∧ rely c k k1). split; [done|]. clear a b Hab Hse Ha k0.
  intros k0 k1 [Ha Hr1]. apply wp_bind. unfold act_bool.
  assert (is_Some (conds k1 !! d)) as [ws Ews] by by apply (re_grows _ _ _ Hr1).
  eapply wp_act_at; [unfold rd_cond; mrun; by rewrite Ews|exact (at_running _ _ _ _ Ha)|done|].
  intros k0' k2 Ha2 Hr2. apply wp_ret. rewrite is_true_Z_of_bool. assert (rely c k k2) as Hrk by by etrans.
  case_bool_decide.
  - apply wp_bind. eapply cond_signal_spec; [done| |done|by apply (re_grows _ _ _ Hrk)|].
    { apply (ke_holds _ _ _ (re_keeps _ _ _ Hrk Hlive)). done. }
    intros _ k0'' k3 Ha3 Hr3. apply wp_ret. split; [done|by etrans].
  - apply wp_ret. apply wp_ret. by apply HQ.
Qed.
