(* ===== verification/KThread.v ===== *)
(** * Specifications, continued: threads, the timer and the idle thread *)

From S2P Require Import Prelude KList Kernel KProg KLogic KSpec KSync KSync2 KLock KCond.

(** ** Updates of the running thread *)

(** An update that no other part of the kernel depends on. *)
Record inert (f : thread → thread) : Prop := {
  in_status th : status (f th) = status th;
  in_lpl th : lock_priority_list (f th) = lock_priority_list th;
  in_magic th : magic (f th) = magic th;
  in_priority th : pri_ok (priority th) → pri_ok (original_priority th) →
    pri_ok (priority (f th)) ∧ pri_ok (original_priority (f th));
  in_frames th : frames (f th) = frames th
}.

Lemma rely_inert t n f k : inert f → live (threads k) n → rely t k (map_thread n f k).
Proof.
  intros [I1 I2 I3 I5 I4] Hl. apply rely_alter; try done.
  - intros th. by rewrite I1.
  - intros th _ _. by rewrite I1.
Qed.

Lemma inv_inert pk n f k : inert f → inv pk k → inv pk (map_thread n f k).
Proof. intros [I1 I2 I3 I5 I4]. apply inv_alter; [split; auto|auto]. Qed.

Lemma at_inert c lvl k0 k n f :
  at_ c lvl k0 k → inert f → live (threads k) n → at_ c lvl k0 (map_thread n f k).
Proof.
  intros [Hi Hg Hr Hl] Hf Hn. split; try done; [by apply inv_inert|].
  apply (guar_step _ k); try done. intros. by apply rely_inert.
Qed.

Lemma inert_original p : pri_ok p → inert (with_original_priority p).
Proof. by split. Qed.
Lemma inert_priority p : pri_ok p → inert (with_priority p).
Proof. by split. Qed.
Lemma inert_awake p : inert (with_awake_tick p).
Proof. by split. Qed.
Lemma inert_tid p : inert (with_tid p).
Proof. by split. Qed.
Lemma inert_stack p : inert (with_stack p).
Proof. by split. Qed.

(** [thread_current ()->... = ...] *)
Lemma current_inert_spec c lvl f g cont Q k0 k :
  at_ c lvl k0 k → inert f → g k = Ok (tt, map_thread c f k) →
  (∀ k0' k', at_ c lvl k0' k' → rely c k k' → wp (cont 0) Q k0' k') →
  wp (Act (g;; mret 0) cont) Q k0 k.
Proof.
  intros Ha Hf Hg HQ. assert (live (threads k) c) as Hl.
  { rewrite <-(at_running _ _ _ _ Ha). by apply running_live, (at_inv _ _ _ _ Ha). }
  eapply (wp_act_at c lvl); [by erewrite bind_ok by exact Hg|by apply at_running in Ha|by apply at_inert|].
  intros k0' k' Ha' Hr'. apply HQ; [done|]. etrans; [by apply rely_inert|done].
Qed.

(** ** [thread_set_priority] *)

Lemma wr_current_ok c lvl k0 k f :
  at_ c lvl k0 k → (t ← thread_current; wr_thread t f) k = Ok (tt, map_thread c f k).
Proof.
  intros [Hi Hg Hr Hl]. destruct (inv_current _ Hi) as (th & E & _).
  erewrite bind_ok by by apply current_run. rewrite Hr in *. by apply (wr_thread_ok _ _ th).
Qed.

Lemma thread_set_priority_spec c lvl p Q k0 k :
  at_ c lvl k0 k → pri_ok p → (∀ v k0' k', at_ c lvl k0' k' → rely c k k' → Q v k0' k') →
  wp (thread_set_priority p) Q k0 k.
Proof.
  intros Ha Hp HQ. unfold thread_set_priority. apply wp_bind. unfold act_unit.
  eapply (current_inert_spec c lvl); [done|by apply (inert_original p)|by eapply wr_current_ok|].
  intros k0a ka Haa Hra. apply wp_ret, wp_bind. destruct (get_priority_run ka) as (th & Et & Eg).
  { exact (at_inv _ _ _ _ Haa). }
  unfold act. eapply (wp_act_at c lvl); [exact Eg|exact (at_running _ _ _ _ Haa)|exact Haa|].
  intros k0b kb Hab Hrb. apply wp_ret, wp_bind.
  set (old := priority th). assert (rely c k kb) as Hrkb by by etrans.
  pose proof Hab as [Hib Hgb Hrn Hlb]. destruct (inv_current _ Hib) as (thb & Eb & _). rewrite Hrn in Eb.
  assert (∀ k0c kc, at_ c lvl k0c kc → rely c k kc →
    wp (if decide (old > p) then thread_yield else Ret 0) Q k0c kc) as Hend.
  { intros k0c kc Hac Hrc. case_decide; [|apply wp_ret; by apply HQ].
    eapply thread_yield_spec; [done|]. intros. apply HQ; [done|]. by etrans. }
  assert ((t ← thread_current; th ← rd_thread t;
    if decide (old ≤ p ∨ lock_priority_list th = []) then wr_thread t (with_priority p) else mret tt) kb =
    Ok (tt, if decide (old ≤ p ∨ lock_priority_list thb = []) then map_thread c (with_priority p) kb else kb))
    as Ew.
  { erewrite bind_ok by by apply current_run. rewrite Hrn. erewrite bind_ok by by apply rd_thread_ok. cbv beta.
    destruct (decide (old ≤ p ∨ _)); [|done]. by apply (wr_thread_ok _ _ thb). }
  destruct (decide (old ≤ p ∨ _)).
  - eapply (current_inert_spec c lvl); [done|by apply (inert_priority p)|done|].
    intros k0c kc Hac Hrc. apply wp_ret, Hend; [done|by etrans].
  - eapply (wp_act_at c lvl); [by erewrite bind_ok by exact Ew|done|done|].
    intros k0c kc Hac Hrc. apply wp_ret, Hend; [done|by etrans].
Qed.

(** ** [thread_exit] *)

Definition no_locks (c : Z) (k : kernel) : Prop := ∀ l, holders k !! l ≠ Some c.

Lemma no_locks_rely c k k' : live (threads k) c → rely c k k' → no_locks c k → no_locks c k'.
Proof. intros Hl Hr Hn l. by rewrite (ke_holds _ _ _ (re_keeps _ _ _ Hr Hl)). Qed.

Lemma no_locks_lpl k c :
  inv Runs k → c ≠ NULL → not_waiting c k → no_locks c k → lpl (threads k) c = [].
Proof.
  intros Hi Hc Hnw Hn. destruct (lpl (threads k) c) as [|i js] eqn:E; [done|].
  assert (i ∈ lpl (threads k) c) as Hin by (rewrite E; by left).
  destruct (lp_record _ _ _ (inv_lp _ _ Hi) c i Hin) as ([] & l & Hl & _).
  - by destruct (Hnw i l Hin).
  - destruct (Hn l). apply (lp_holds _ _ _ (inv_lp _ _ Hi)); eauto.
Qed.

(** A thread that runs with no lock and in no function of synch.c. *)
Record free_thread (c : Z) (k : kernel) : Prop := {
  ft_idle : c ≠ idle_thread k;
  ft_synch : idle_in_synch c k;
  ft_locks : no_locks c k;
  ft_creating : c ∉ creating k
}.

Lemma free_thread_rely c lvl k0 k k' :
  at_ c lvl k0 k → rely c k k' → free_thread c k → free_thread c k'.
Proof.
  intros [Hi _ Hr _] Hrel [F1 F2 F3 F4]. assert (live (threads k) c) as Hl by (subst; by apply running_live).
  split.
  - by rewrite (gr_idle _ _ (re_grows _ _ _ Hrel)).
  - by apply (idle_in_synch_rely c k).
  - by apply (no_locks_rely c k).
  - by rewrite (ke_creating _ _ _ (re_keeps _ _ _ Hrel Hl)).
Qed.

Definition exited (k : kernel) : kernel :=
  map_thread (running k) (with_status THREAD_DYING)
    (set_all_list (list_del (running k) (all_list k)) k).

Lemma inv_exited k : inv Runs k → free_thread (running k) k → inv Leaves (exited k).
Proof.
  intros Hi [F1 [F2 F3] F4 F5]. destruct (inv_current _ Hi) as (th & E & Hn & _ & Hs & Hf).
  pose proof (no_locks_lpl _ _ Hi Hn F2 F4) as Hlp.
  assert (st (threads k) (running k) = Some THREAD_RUNNING) as Er by (by rewrite (st_lookup _ _ _ E), Hs).
  pose proof Hi as [Hsc Hse Hlo Hlpi [C1 C2 C3] Hd Hx Hcl]. split; try done.
  - eapply sched_leave; try done.
    + by exists th.
    + by eapply si_ready_nodup.
    + naive_solver.
    + by eapply si_sleep_nodup.
    + auto.
    + by eapply NoDup_list_del, si_all_nodup.
    + intros t. simpl. rewrite elem_of_list_del. naive_solver.
  - eapply (sema_leave _ _ _ (sleep_list k)); [done|exact Er|auto].
  - by apply lp_with_status.
  - split; try done. intros t d Ht. simpl. rewrite started_alter_ne; [by eapply C3|].
    intros ->. by destruct (F3 d).
  - eapply client_with_status; [done|by right|done|eauto|done].
Qed.

Lemma rely_exited t k : inv Runs k → t ≠ running k → rely t k (exited k).
Proof.
  intros Hi Ht. destruct (inv_current _ Hi) as (th & E & _ & _ & Hs & _).
  eapply (rely_frame _ _ (map_thread (running k) (with_status THREAD_DYING) k)); try done.
  apply rely_alter_ne; [done|]. intros x Ex. split; [|done]. intros. congruence.
Qed.

Lemma thread_exit_spec c lvl v Q k0 k :
  at_ c lvl k0 k → free_thread c k → wp (thread_exit v) Q k0 k.
Proof.
  intros Ha Hf. unfold thread_exit. apply wp_bind. unfold act_unit at 1.
  eapply (wp_act_at c lvl) with (v := 0) (k' := k); [|exact (at_running _ _ _ _ Ha)|done|].
  { unfold intr_context. mrun. by rewrite (inv_ctx _ _ (at_inv _ _ _ _ Ha)). }
  intros k0a ka Haa Hra. apply (free_thread_rely c lvl k0 k ka Ha Hra) in Hf. clear Ha.
  apply wp_ret, wp_bind. unfold act_bool. apply (disable_spec c lvl); [done|]. apply wp_ret.
  apply (at_set_intr _ _ false) in Haa. set (kb := set_intr_on false ka) in *.
  assert (free_thread c kb) as Hfb by by destruct Hf. pose proof Haa as [Hi Hg Hr Hl].
  destruct (inv_current _ Hi) as (th & E & _ & _ & _ & Hfr).
  apply wp_bind. unfold act_unit. eapply wp_act_off with (v := 0) (k' := exited kb); [|done|done|].
  { unfold exited. erewrite bind_ok; [done|]. erewrite bind_ok by by apply current_run. mrun.
    by rewrite (wr_thread_ok _ _ th). }
  apply wp_ret, wp_bind, schedule_spec; try done.
  - apply inv_exited; [done|by rewrite Hr].
  - exists (with_status THREAD_DYING th). split; [|done]. simpl. rewrite lookup_alter_eq.
    change (fmap (with_status THREAD_DYING) (threads kb !! running kb) = Some (with_status THREAD_DYING th)).
    by rewrite E.
  - apply (guar_step _ kb); [done|done|]. intros. by apply rely_exited.
  - intros (s & Es & Hs). unfold exited in Es. simpl in Es. rewrite st_with_status in Es by by eexists.
    rewrite decide_True in Es by done. congruence.
Qed.

(** ** [timer_sleep] *)

Definition asleep (k : kernel) : kernel := set_sleep_list (sleep_list k ++ [running k]) k.

Lemma inv_asleep k :
  inv Runs k → running k ≠ idle_thread k → inv Leaves (blocked (asleep k)).
Proof.
  intros Hi Hid. destruct (inv_current _ Hi) as (th & E & _ & _ & Hs & Hf).
  assert (st (threads k) (running k) = Some THREAD_RUNNING) as Er by (by rewrite (st_lookup _ _ _ E), Hs).
  pose proof (running_not_sleeping _ Hi) as Hsl. pose proof Hi as [Hsc Hse Hlo Hlp Hco Hd Hx Hcl].
  split; try done.
  - apply (sched_block (threads k) (running k) (ready_list k) (sleep_list k)); [done|by exists th| |].
    + apply NoDup_snoc; [exact (si_sleep_nodup _ _ _ _ _ _ _ _ Hsc)|done].
    + intros t. simpl. rewrite elem_of_app, list_elem_of_singleton. naive_solver.
  - eapply (sema_leave _ _ _ (sleep_list k)); [done|exact Er|].
    intros t. simpl. rewrite elem_of_app, list_elem_of_singleton. naive_solver.
  - by apply lp_with_status.
  - by apply cond_with_status.
  - eapply client_with_status; [done|by left| |eauto|]; simpl; set_solver.
Qed.

Lemma thread_sleep_spec c Q k0 k :
  at_ c false k0 k → c ≠ idle_thread k →
  (∀ k0' k', at_ c false k0' k' → rely c k k' → Q 0 k0' k') →
  wp thread_sleep Q k0 k.
Proof.
  intros [Hi Hg Hr Hl] Hid HQ. subst c. destruct (inv_current _ Hi) as (th & E & Hn & Hm & Hs & Hf).
  unfold thread_sleep. apply wp_bind. unfold act_unit.
  eapply wp_act_off with (v := 0) (k' := asleep k); [|done|done|].
  { erewrite bind_ok; [done|]. erewrite bind_ok by by apply current_run. done. }
  assert (∀ t, rely t k (asleep k)) as Hrel by (intros; by apply (rely_frame _ _ k)).
  apply wp_ret, (thread_block_spec _ _ _ th); try done.
  - exact (inv_ctx _ _ Hi).
  - by apply inv_asleep.
  - apply (guar_step _ k); auto.
  - intros k0' k' Ha Hr'. apply HQ; [done|]. etrans; [apply Hrel|done].
Qed.

Lemma timer_ticks_ok k : (intr_on k = true → in_external_intr k = false) → timer_ticks k = Ok (ticks k, k).
Proof.
  intros Hx. unfold timer_ticks. mrun. rewrite intr_disable_ok. simpl.
  rewrite intr_set_level_ok by done. simpl. by destruct k.
Qed.

Lemma timer_sleep_spec c lvl n Q k0 k :
  at_ c lvl k0 k → c ≠ idle_thread k →
  (∀ v k0' k', at_ c lvl k0' k' → rely c k k' → Q v k0' k') →
  wp (timer_sleep n) Q k0 k.
Proof.
  intros Ha Hid HQ. unfold timer_sleep. case_decide; [apply wp_ret; by apply HQ|].
  apply wp_bind, (disable_spec c lvl); [done|]. apply wp_ret. rewrite is_true_Z_of_bool.
  apply (at_set_intr _ _ false) in Ha. assert (rely c k (set_intr_on false k)) as Hr1.
  { by apply rely_set_intr. }
  set (k1 := set_intr_on false k) in *. apply wp_bind. unfold act_unit.
  pose proof Ha as [Hi Hg Hr Hl]. destruct (inv_current _ Hi) as (th & E & _).
  eapply (current_inert_spec c false); [done|apply (inert_awake (i64 (ticks k1 + n)))| |].
  { erewrite bind_ok by by apply current_run. erewrite bind_ok by by apply timer_ticks_ok.
    rewrite Hr in *. by apply (wr_thread_ok _ _ th). }
  intros k0a ka Haa Hra. apply wp_ret, wp_bind, (thread_sleep_spec c); [done| |].
  { by rewrite (gr_idle _ _ (re_grows _ _ _ Hra)). }
  intros k0b kb Hab Hrb. eapply restore_spec; [done|]. intros v k0' k' Ha' Hr'. apply HQ; [done|].
  etrans; [done|]. etrans; [done|]. by etrans.
Qed.

(** ** The timer interrupt *)

(** In an interrupt handler. *)
Definition inv_intr (k : kernel) : Prop := inv Runs (set_in_external_intr false k).

(** One sleeping thread wakes up. *)
Definition roused (t : Z) (k : kernel) : kernel :=
  unblocked t (set_sleep_list (list_del t (sleep_list k)) (map_thread t (with_awake_tick 0) k)).

Lemma inv_roused k t : inv_intr k → t ∈ sleep_list k → inv_intr (roused t k).
Proof.
  unfold inv_intr. intros Hi Ht.
  destruct (si_sleep _ _ _ _ _ _ _ _ (inv_sched _ _ Hi) t Ht) as (Hb & Hst & Hid & _).
  apply (inv_inert _ t (with_awake_tick 0)) in Hi; [|apply inert_awake].
  destruct Hi as [Hsc Hse Hlo Hlp Hco Hd Hx Hcl]. simpl in *.
  split; try done; simpl.
  - eapply sched_unblock; [exact Hsc| | | | |].
    + by rewrite st_alter.
    + done.
    + intros th x E. eapply started_not_new; [|exact E]. by apply started_alter.
    + by eapply NoDup_list_del, si_sleep_nodup.
    + intros u. by rewrite elem_of_list_del.
  - destruct Hse as [E1 E2 E3 E4 E5]. split; try done. intros u s Hw.
    destruct (E3 u s Hw) as (Hu & Hsu & ? & Hn & ?). assert (u ≠ t) by congruence.
    rewrite st_with_status, decide_False by (done || by eapply st_exists; rewrite st_alter).
    rewrite started_alter_ne by done. split_and!; try done.
    rewrite elem_of_list_del. naive_solver.
  - by apply lp_with_status.
  - by apply cond_with_status.
  - eapply client_with_status; [done|by left| |eauto|done]. intros u ??. by apply elem_of_list_del.
Qed.

Lemma rely_roused u k t : inv_intr k → t ∈ sleep_list k → rely u k (roused t k).
Proof.
  intros Hi Ht. destruct (si_sleep _ _ _ _ _ _ _ _ (inv_sched _ _ Hi) t Ht) as (Hb & Hst & _).
  simpl in *. assert (live (threads k) t) as Hl by by apply started_live.
  etrans; [apply (rely_inert u t (with_awake_tick 0)); [apply inert_awake|done]|].
  eapply (rely_frame _ _ (map_thread t (with_status THREAD_READY) (map_thread t (with_awake_tick 0) k)));
    try done.
  apply rely_alter; try done; [by apply live_alter|]. intros th E Hsw. destruct Hsw.
  destruct Hst as (x & Ex & _ & Hx). simpl in E. rewrite lookup_alter_eq, Ex in E. by injection E as <-.
Qed.

(** The time has come for thread [t]. *)
Definition due (now : Z) (k : kernel) (t : Z) : bool :=
  match threads k !! t with Some th => bool_decide (awake_tick th ≤ now) | None => false end.

Lemma due_roused now k t u : u ≠ t → due now (roused t k) u = due now k u.
Proof. intros Hu. unfold due, roused. simpl. by rewrite !lookup_alter_ne by done. Qed.

(** What the loop over the sleeping threads does, as a function. *)
Definition rouse (now : Z) (ts : list Z) (k : kernel) : kernel :=
  foldl (λ k t, if due now k t then roused t k else k) k ts.

Lemma wake_sleepers_ok now ts k :
  inv_intr k → intr_on k = false → NoDup ts → (∀ t, t ∈ ts → t ∈ sleep_list k) →
  wake_sleepers now ts k = Ok (tt, rouse now ts k) ∧ inv_intr (rouse now ts k) ∧
  ∀ u, rely u k (rouse now ts k).
Proof.
  revert k. induction ts as [|t ts IH]; intros k Hi Hoff Hnd Hin; simpl.
  { by split_and!. }
  apply NoDup_cons in Hnd as [Hnt Hnd]. assert (t ∈ sleep_list k) as Ht by (apply Hin; by left).
  destruct (si_sleep _ _ _ _ _ _ _ _ (inv_sched _ _ Hi) t Ht) as (Hb & (th & E & _) & _). simpl in *.
  erewrite bind_ok by by apply rd_thread_ok.
  assert (t ≠ NULL ∧ magic th = THREAD_MAGIC) as [Hn Hm] by exact (inv_thread _ _ _ _ Hi E).
  assert (due now k t = bool_decide (awake_tick th ≤ now)) as -> by (unfold due; by rewrite E).
  destruct (decide (now >= awake_tick th)) as [Hd|Hd].
  - rewrite bool_decide_eq_true_2 by lia.
    erewrite (bind_ok _ _ k tt (roused t k)).
    2: { erewrite bind_ok by by apply (wr_thread_ok _ _ th). mrun.
         rewrite (thread_unblock_ok _ t (with_awake_tick 0 th)); try done; [|exact (st_status _ _ _ _ E Hb)|].
         - simpl. by rewrite lookup_alter_eq, E.
         - simpl. congruence. }
    destruct (IH (roused t k)) as (E1 & E2 & E3); [by apply inv_roused|done|done| |].
    { intros u Hu. simpl. apply elem_of_list_del. split; [apply Hin; by right|]. by intros ->. }
    split_and!; [done|done|]. intros u. etrans; [by apply rely_roused|apply E3].
  - rewrite bool_decide_eq_false_2 by lia. cbn. apply IH; try done. intros u Hu. apply Hin. by right.
Qed.

Lemma decide_iff_cons {A} (u t : Z) ts (P : Prop) `{!Decision P} (x y : A) :
  u ≠ t → (if decide (u ∈ ts ∧ P) then x else y) = (if decide (u ∈ t :: ts ∧ P) then x else y).
Proof.
  intros Hne. destruct (decide (u ∈ ts ∧ P)) as [[? ?]|Hn].
  - rewrite decide_True; [done|]. split; [by right|done].
  - rewrite decide_False; [done|]. by intros [[->|?]%elem_of_cons ?]; [|apply Hn].
Qed.

(** Of the threads of [ts], those that are due leave the sleeping list for
    the ready list, in order; the others are left alone. *)
Lemma rouse_lists now ts k :
  NoDup ts → (∀ t, t ∈ ts → t ∈ sleep_list k) →
  ready_list (rouse now ts k) = ready_list k ++ filter (λ t, due now k t = true) ts ∧
  sleep_list (rouse now ts k) = filter (λ t, ¬ (t ∈ ts ∧ due now k t = true)) (sleep_list k) ∧
  (∀ t, threads (rouse now ts k) !! t =
     if decide (t ∈ ts ∧ due now k t = true)
     then with_status THREAD_READY ∘ with_awake_tick 0 <$> threads k !! t else threads k !! t).
Proof.
  revert k. induction ts as [|t ts IH]; intros k Hnd Hin.
  { change (rouse now [] k) with k. split_and!.
    - rewrite filter_nil. by rewrite app_nil_r.
    - symmetry. apply filter_all. by intros u _ [?%not_elem_of_nil _].
    - intros u. rewrite decide_False; [done|]. by intros [?%not_elem_of_nil _]. }
  apply NoDup_cons in Hnd as [Hnt Hnd]. change (rouse now (t :: ts) k) with
    (rouse now ts (if due now k t then roused t k else k)).
  destruct (due now k t) eqn:Ed.
  - destruct (IH (roused t k)) as (I1 & I2 & I3); [done| |].
    { intros u Hu. simpl. apply elem_of_list_del. split; [apply Hin; by right|]. by intros ->. }
    assert (∀ u, u ∈ ts → due now (roused t k) u = due now k u) as Edu.
    { intros u Hu. apply due_roused. by intros ->. }
    split_and!.
    + rewrite I1, filter_cons_True by done. simpl. rewrite <-app_assoc. do 2 f_equal. simpl. f_equal.
      apply filter_ext_in. intros u Hu. by rewrite Edu.
    + rewrite I2. simpl. unfold list_del. rewrite list_filter_filter. apply list_filter_iff.
      intros u. rewrite elem_of_cons. destruct (decide (u = t)) as [->|Hne]; [tauto|].
      rewrite due_roused by done. tauto.
    + intros u. rewrite I3. destruct (decide (u = t)) as [->|Hne].
      * rewrite decide_False by (by intros [? _]). rewrite decide_True by (split; [by left|done]). simpl.
        by rewrite !lookup_alter_eq, <-option_fmap_compose.
      * rewrite due_roused by done. simpl. rewrite !lookup_alter_ne by done. by apply decide_iff_cons.
  - destruct (IH k) as (I1 & I2 & I3); [done|intros; apply Hin; by right|]. split_and!.
    + by rewrite I1, filter_cons_False by congruence.
    + rewrite I2. apply list_filter_iff. intros u. rewrite elem_of_cons.
      destruct (decide (u = t)) as [->|Hne]; [rewrite Ed; split; intros _ [_ ?]; done|]. tauto.
    + intros u. rewrite I3. destruct (decide (u = t)) as [->|Hne].
      * rewrite !decide_False; [done|by intros [_ ?]; congruence..].
      * by apply decide_iff_cons.
Qed.

Lemma rouse_frame now ts k :
  running (rouse now ts k) = running k ∧ intr_on (rouse now ts k) = intr_on k ∧
  in_external_intr (rouse now ts k) = in_external_intr k ∧ idle_thread (rouse now ts k) = idle_thread k ∧
  ticks (rouse now ts k) = ticks k.
Proof.
  revert k. induction ts as [|t ts IH]; intros k; [done|]. simpl.
  destruct (IH (if due now k t then roused t k else k)) as (-> & -> & -> & -> & ->).
  by destruct (due now k t).
Qed.

(** Members that the handler changes and the invariant does not mention. *)
Definition same_core (k k' : kernel) : Prop :=
  threads k' = threads k ∧ ready_list k' = ready_list k ∧ all_list k' = all_list k ∧
  sleep_list k' = sleep_list k ∧ idle_thread k' = idle_thread k ∧ initial_thread k' = initial_thread k ∧
  running k' = running k ∧ semas k' = semas k ∧ holders k' = holders k ∧ conds k' = conds k ∧
  lock_priority_page k' = lock_priority_page k ∧
  priority_donation_enabled k' = priority_donation_enabled k ∧ intr_on k' = intr_on k ∧
  in_external_intr k' = in_external_intr k ∧ free_pages k' = free_pages k ∧
  sections k' = sections k ∧ creating k' = creating k.

Lemma inv_intr_core k k' : same_core k k' → inv_intr k → inv_intr k'.
Proof.
  intros (E1&E2&E3&E4&E5&E6&E7&E8&E9&E10&E11&E12&E13&E14&E15&E16&E17) [H1 H2 H3 H4 H5 H6 H7 H8]. simpl in *.
  split; simpl; try done; congruence.
Qed.

Lemma rely_core t k k' : same_core k k' → rely t k k'.
Proof. intros (E1&E2&E3&E4&E5&E6&E7&E8&E9&E10&E11&E12&E13&E14&E15&E16&E17). by apply (rely_frame _ _ k). Qed.

(** [thread_tick] up to the loop. *)
Lemma thread_tick_ok k :
  inv_intr k → intr_on k = false → in_external_intr k = true →
  ∃ k1 k', thread_tick k = Ok (tt, k') ∧ same_core k k1 ∧
    same_core (rouse (ticks k) (sleep_list k) k1) k' ∧ ticks k' = ticks k.
Proof.
  intros Hi Hoff Hx. destruct (inv_current _ Hi) as (th & E & Hn & Hm & Hs & _). simpl in *.
  set (k1 := if decide (running k = idle_thread k) then set_idle_ticks (i64 (idle_ticks k + 1)) k
             else set_kernel_ticks (i64 (kernel_ticks k + 1)) k).
  assert (same_core k k1 ∧ ticks k1 = ticks k) as [Hc Htk] by (subst k1; by case_decide).
  assert (inv_intr k1) as Hi1 by by eapply inv_intr_core.
  pose proof Hc as (E1&E2&E3&E4&E5&E6&E7&E8&E9&E10&E11&E12&E13&E14&E15&E16&E17).
  unfold thread_tick, intr_get_level. erewrite bind_ok by done. erewrite bind_ok by (by rewrite Hoff).
  erewrite bind_ok by by apply (thread_current_ok k th). erewrite bind_ok by done.
  erewrite (bind_ok _ _ k tt k1) by (subst k1; by case_decide).
  erewrite bind_ok by (apply timer_ticks_ok; rewrite E13; congruence). erewrite bind_ok by done.
  destruct (wake_sleepers_ok (ticks k1) (sleep_list k1) k1) as (Ew & _ & _);
    [done|congruence|by apply (si_sleep_nodup _ _ _ _ _ _ _ _ (inv_sched _ _ Hi1))|done|].
  erewrite bind_ok by exact Ew. rewrite Htk, E4 in *.
  set (k2 := rouse _ _ k1) in *. erewrite bind_ok by done. erewrite bind_ok by done.
  destruct (rouse_frame (ticks k) (sleep_list k) k1) as (F1 & F2 & F3 & F4 & F5). fold k2 in F1, F2, F3, F4, F5.
  case_decide; eexists k1, _.
  - split; [|split; [exact Hc|split]].
    + unfold intr_yield_on_return, intr_context. mrun. simpl. by rewrite F3, E14, Hx.
    + done.
    + simpl. by rewrite F5.
  - split; [done|split; [exact Hc|split; [done|]]]. simpl. by rewrite F5.
Qed.

Lemma timer_interrupt_ok k :
  inv_intr k → intr_on k = false → in_external_intr k = true →
  ∃ k', timer_interrupt k = Ok (tt, k') ∧ inv_intr k' ∧ (∀ t, rely t k k') ∧
    running k' = running k ∧ intr_on k' = false ∧ in_external_intr k' = true.
Proof.
  intros Hi Hoff Hx. set (k0 := set_ticks (i64 (ticks k + 1)) k).
  assert (same_core k k0) as Hc0 by done. pose proof (inv_intr_core _ _ Hc0 Hi) as Hi0.
  destruct (thread_tick_ok k0 Hi0 Hoff Hx) as (k1 & k' & E & Hc1 & Hc2 & _).
  pose proof (inv_intr_core _ _ Hc1 Hi0) as Hi1. pose proof Hc1 as (_&_&_&E4&_&_&E7&_&_&_&_&_&E13&E14&_).
  destruct (wake_sleepers_ok (ticks k0) (sleep_list k0) k1) as (_ & Hi2 & Hr2);
    [done|by rewrite E13|by apply (si_sleep_nodup _ _ _ _ _ _ _ _ (inv_sched _ _ Hi))|by rewrite E4|].
  destruct (rouse_frame (ticks k0) (sleep_list k0) k1) as (F1 & F2 & F3 & _).
  pose proof (inv_intr_core _ _ Hc2 Hi2) as Hi'. pose proof Hc2 as (_&_&_&_&_&_&G7&_&_&_&_&_&G13&G14&_).
  exists k'. split; [unfold timer_interrupt; by erewrite bind_ok by done|]. split_and!; try done.
  - intros t. etrans; [by apply rely_core|]. etrans; [by apply (rely_core _ _ k1)|].
    etrans; [apply Hr2|]. by apply rely_core.
  - by rewrite G7, F1, E7.
  - by rewrite G13, F2, E13.
  - by rewrite G14, F3, E14.
Qed.

Lemma timer_intr_ok : timer_ok.
Proof.
  intros Q k Hi Hon HQ. unfold timer_intr. apply wp_bind. unfold act_unit at 1.
  set (k1 := set_yield_on_return false (set_in_external_intr true (set_intr_on false k))).
  eapply wp_act_off with (v := 0) (k' := k1); [|done|done|].
  { unfold intr_get_level, intr_context. mrun. simpl. by rewrite (inv_ctx _ _ Hi). }
  assert (inv_intr k1) as Hi1 by (destruct Hi; by split).
  assert (∀ t, rely t k k1) as Hr1 by (intros; by apply (rely_frame _ _ k)).
  apply wp_ret, wp_bind. unfold act_unit at 1.
  destruct (timer_interrupt_ok k1 Hi1 eq_refl eq_refl) as (k2 & E2 & Hi2 & Hr2 & Hn2 & Hl2 & Hx2).
  eapply wp_act_off; [by erewrite bind_ok by exact E2|done|done|].
  apply wp_ret, wp_bind. unfold act_bool. set (k3 := set_in_external_intr false k2).
  eapply wp_act_off with (v := Z_of_bool (yield_on_return k2)) (k' := k3); [|done|done|].
  { unfold intr_get_level, intr_context. mrun. rewrite Hl2. cbn. by rewrite Hx2. }
  assert (∀ t, rely t k k3) as Hr3.
  { intros t. eapply (rely_frame _ _ k2); try done. etrans; [apply Hr1|apply Hr2]. }
  assert (at_ (running k) false k k3) as Ha3.
  { split; [exact Hi2| |exact Hn2|exact Hl2]. intros t _. apply Hr3. }
  assert (∀ k0' k', at_ (running k) false k0' k' → rely (running k) k k' →
    wp (act_unit (modify (set_intr_on true))) Q k0' k') as Hend.
  { intros k0' k' Ha' Hr'. unfold act_unit. rewrite wp_act. cbn [mbind M_bind modify mret M_ret].
    split; [done|]. unfold settle, stable. cbn. pose proof (at_set_intr _ _ true _ _ Ha') as [B1 B2 B3 B4].
    split_and!; [done|done|]. intros k'' ? ? Hrn Hr''.
    cbn [running set_intr_on] in Hrn, Hr''. rewrite (at_running _ _ _ _ Ha') in Hrn, Hr''.
    apply wp_ret, HQ; try done. etrans; [by apply (rely_set_intr _ true)|exact Hr'']. }
  apply wp_ret, wp_bind. rewrite is_true_Z_of_bool. destruct (yield_on_return k2).
  - eapply thread_yield_spec; [exact Ha3|]. intros v k0' k' Ha' Hr'. apply Hend; [done|].
    etrans; [apply Hr3|done].
  - apply wp_ret. by apply Hend.
Qed.
