(* ===== verification/KCreate.v ===== *)
(** * Specifications, continued: [thread_create] *)

From S2P Require Import Prelude KList Vaddr Kernel KProg KLogic KSpec KSync KSync2 KLock KCond KThread.

(** ** A new thread *)

Definition new_thread (c t : Z) (nm : list Z) (prio : Z) : thread :=
  Thread 0 THREAD_BLOCKED (take (THREAD_NAME_LENGTH - 1) nm) (t + PGSIZE) prio prio [] 0
    THREAD_MAGIC (NoFrames c).

Definition born (t : Z) (nm : list Z) (prio : Z) (ps : list Z) (k : kernel) : kernel :=
  set_all_list (all_list k ++ [t])
    (set_threads (<[t := new_thread (running k) t nm prio]> (threads k)) (set_free_pages ps k)).

Section born.
  Context (k : kernel) (t : Z) (nm : list Z) (prio : Z) (ps : list Z).
  Context (Hi : inv Runs k) (Hp : free_pages k = t :: ps) (Hprio : pri_ok prio).
Let ths := <[t := new_thread (running k) t nm prio]> (threads k).

Lemma page_free : t ≠ NULL ∧ threads k !! t = None.
Proof. apply (si_pages _ _ _ _ _ _ _ _ (inv_sched _ _ Hi)). rewrite Hp. by left. Qed.

Lemma page_not_live u s : st (threads k) u = Some s → u ≠ t.
Proof. intros [th E]%st_exists ->. destruct page_free. congruence. Qed.

Lemma st_born u : st ths u = if decide (u = t) then Some THREAD_BLOCKED else st (threads k) u.
Proof.
  unfold st, ths. case_decide; [subst; by rewrite lookup_insert_eq|by rewrite lookup_insert_ne].
Qed.

Lemma lpl_born u : lpl ths u = lpl (threads k) u.
Proof.
  unfold lpl, ths. destruct (decide (u = t)) as [->|]; [|by rewrite lookup_insert_ne].
  rewrite lookup_insert_eq. simpl. by destruct page_free as [_ ->].
Qed.

Lemma started_born u : started ths u ↔ started (threads k) u.
Proof.
  unfold started, ths. destruct (decide (u = t)) as [->|]; [|by rewrite lookup_insert_ne].
  rewrite lookup_insert_eq. destruct page_free as [_ ->]. naive_solver.
Qed.

Lemma live_born u : live ths u ↔ u = t ∨ live (threads k) u.
Proof.
  unfold live. setoid_rewrite st_born. case_decide as E; [subst|naive_solver].
  split; [auto|]. intros _. by eexists.
Qed.

Lemma sched_born :
  sched_inv Runs ths (running k) (ready_list k) (sleep_list k) (all_list k ++ [t]) (idle_thread k) ps.
Proof.
  destruct page_free as [Hn Hf].
  pose proof (inv_sched _ _ Hi) as [[S1 S1'] S2 S3 S4 S5 S6 S7 S8 S9 S10 S11 S12 S13].
  assert (t ≠ idle_thread k) as Hid.
  { destruct S8 as [(s & E & _) _]. apply page_not_live in E. congruence. }
  rewrite Hp in S12, S13. apply NoDup_cons in S12 as [Hnp S12]. split; try done.
  - rewrite st_born, decide_False by by eapply page_not_live.
    split; [done|]. intros u. rewrite st_born. case_decide; [done|apply S1'].
  - intros u. rewrite S3, st_born. case_decide; [subst|done]. split; [|naive_solver].
    intros [E _]. by apply page_not_live in E.
  - intros u Hu. destruct (S5 u Hu) as (E & ? & ?). rewrite st_born, started_born.
    by rewrite decide_False by by eapply page_not_live.
  - apply NoDup_snoc; [done|]. intros (s & E & _)%S7. by apply page_not_live in E.
  - intros u. rewrite elem_of_app, list_elem_of_singleton, S7, live_born. tauto.
  - rewrite live_born, lpl_born. split; [right|]; apply S8.
  - intros u th [[<- <-]|[_ E]]%lookup_insert_Some; [done|by apply S9].
  - intros u th [[<- <-]|[_ E]]%lookup_insert_Some; [done|by apply S10].
  - intros u. rewrite st_born, lpl_born. case_decide; [done|apply S11].
  - intros u Hu. destruct (S13 u (list_elem_of_further _ _ _ Hu)). split; [done|].
    unfold ths. rewrite lookup_insert_ne; [done|]. by intros ->.
Qed.

Lemma inv_born : running k ∈ creating k → inv Runs (born t nm prio ps k).
Proof.
  intros Hcr.
  pose proof Hi as [Hsc [E1 E2 E3 E4 E5] Hlo [P1 P2 P3 P4 P5 P6] [C1 C2 C3] Hd Hx [D1 D2 D3]].
  split; try done; simpl; fold ths.
  - apply sched_born.
  - split; try done. intros u s Hw. destruct (E3 u s Hw) as (E & ? & ?). rewrite st_born, started_born.
    by rewrite decide_False by by eapply page_not_live.
  - split; try done; setoid_rewrite lpl_born; done.
  - split; try done. intros u d Hu. rewrite started_born. by apply (C3 u d).
  - split; [done| |].
    + intros u. rewrite started_born. apply D2.
    + intros u th [[<- <-]|[_ E]]%lookup_insert_Some; [|by apply D3]. intros _. do 3 right. by eexists.
Qed.

Lemma nascent_born v u fr :
  nascent ths v u fr ↔ nascent (threads k) v u fr ∨ (v = running k ∧ u = t ∧ fr = NoFrames v).
Proof.
  destruct page_free as [_ Hf]. unfold nascent, ths. destruct (decide (u = t)) as [->|].
  - rewrite lookup_insert_eq, Hf. split; [|naive_solver].
    intros (th & [= <-] & _ & <- & Hc). simpl in Hc. subst v. auto.
  - rewrite lookup_insert_ne by done. naive_solver.
Qed.

Lemma rely_born u : u ≠ running k → rely u k (born t nm prio ps k).
Proof.
  intros Hu. split; [by split|intros Hl; split; simpl; fold ths; try done|].
  - apply live_born. auto.
  - by rewrite started_born.
  - apply lpl_born.
  - intros v fr. rewrite nascent_born. naive_solver.
  - simpl. fold ths. by rewrite started_born.
Qed.
End born.

(** ** Building the frames *)

Lemma returned_refl c k : idle_in_synch c k → returned c k k.
Proof. intros H. by split. Qed.

Lemma returned_trans c k1 k2 k3 : returned c k1 k2 → returned c k2 k3 → returned c k1 k3.
Proof.
  intros [G1 I1 H1 S1 C1] [G2 I2 H2 S2 C2]. split; [by eapply grows_trans|done|..].
  - intros l. by rewrite H2, H1.
  - intros l. by rewrite S2, S1.
  - by rewrite C2, C1.
Qed.

Lemma rely_returned c lvl k0 k k' :
  at_ c lvl k0 k → idle_in_synch c k → rely c k k' → returned c k k'.
Proof.
  intros [Hi _ Hr _] Hs Hrel. by apply (returned_rely c k k k'); [apply returned_refl|..].
Qed.

(** Thread [c] builds thread [t]. *)
Record building (c : Z) (lvl : bool) (t : Z) (fr : stack_frames) (k0 k : kernel) : Prop := {
  bu_at : at_ c lvl k0 k;
  bu_new : nascent (threads k) c t fr;
  bu_only u fr' : nascent (threads k) c u fr' → u = t;
  bu_creating : c ∈ creating k
}.

Lemma building_live c lvl t fr k0 k : building c lvl t fr k0 k → live (threads k) t ∧ t ≠ c.
Proof.
  intros [[Hi Hg Hr Hl] (th & E & Hb & Hf & Hc) _ _]. split.
  - exists THREAD_BLOCKED. by rewrite (st_lookup _ _ _ E), Hb.
  - intros ->. destruct (inv_current _ Hi) as (x & Ex & _ & _ & Hs & _). congruence.
Qed.

Lemma building_inert c lvl t fr k0 k f :
  building c lvl t fr k0 k → inert f → building c lvl t fr k0 (map_thread t f k).
Proof.
  intros Hb Hf. pose proof (building_live _ _ _ _ _ _ Hb) as [Hl _]. destruct Hb as [Ha Hn Ho Hc].
  pose proof Hf as [F1 F2 F3 F5 F4].
  assert (∀ u fr', nascent (alter f t (threads k)) c u fr' ↔ nascent (threads k) c u fr') as En.
  { intros u fr'. apply nascent_alter. intros _ th _. split; by rewrite F1, F4. }
  split; [by apply at_inert|by apply En| |done]. intros u fr' Hu%En. by eapply Ho.
Qed.

(** Thread [t] is invisible to the others until it is unblocked. *)
Lemma rely_building u c lvl t fr k0 k f :
  building c lvl t fr k0 k → u ≠ c →
  (∀ th, lock_priority_list (f th) = lock_priority_list th) →
  (∀ th, status th ≠ THREAD_DYING → status (f th) ≠ THREAD_DYING) →
  (∀ th, threads k !! t = Some th → creator (frames (f th)) = Some c) →
  rely u k (map_thread t f k).
Proof.
  intros [Ha (th & E & Hs & Hf & Hc) _ _] Hu F1 F2 F3. specialize (F3 th E).
  assert (frames th ≠ Switched) as Hsw by (rewrite Hf; by destruct fr).
  assert (alter f t (threads k) !! t = Some (f th)) as E' by (by rewrite lookup_alter_eq, E).
  assert (∀ x, started (alter f t (threads k)) x ↔ started (threads k) x) as Hst.
  { intros x. destruct (decide (x = t)) as [->|]; [|by apply started_alter_ne].
    unfold started. rewrite E', E. split; intros (y & [= <-] & _ & Ey); [by rewrite Ey in F3|done]. }
  split; [by split|intros Hl; split; simpl; try done|].
  - destruct (decide (u = t)) as [->|].
    + exists (status (f th)). rewrite (st_lookup _ _ _ E'). split; [done|]. apply F2. by rewrite Hs.
    + unfold live, st in *. by rewrite lookup_alter_ne.
  - by rewrite Hst.
  - by rewrite lpl_alter.
  - intros v fr'. unfold nascent. destruct (decide (v = t)) as [->|]; [|by rewrite lookup_alter_ne].
    rewrite E', E. split; intros (x & [= <-] & _ & Hfx & Hcx).
    + rewrite Hfx in F3. destruct fr'; simplify_eq/=.
    + rewrite Hf in Hfx. subst fr'. destruct fr; congruence.
  - simpl. by rewrite Hst.
Qed.

Lemma returned_alter c lvl k0 k t f :
  at_ c lvl k0 k → idle_in_synch c k → t ≠ c → (∀ th, lock_priority_list (f th) = lock_priority_list th) →
  returned c k (map_thread t f k).
Proof.
  intros Ha [H1 H2] Ht Hf. split; [by split| |done..]. split; [|done].
  intros i l. simpl. rewrite lpl_alter by done. apply H1.
Qed.

Lemma building_framed c lvl t k0 k fn aux :
  building c lvl t (NoFrames c) k0 k → fn ≠ idle_function → fn ≠ NULL →
  building c lvl t (EntryFrames c (KernelThreadFrame fn aux)) k0
    (map_thread t (with_frames (EntryFrames c (KernelThreadFrame fn aux))) k).
Proof.
  intros Hb Hfn Hfn0. set (fr := EntryFrames c _). pose proof Hb as [[Hi Hg Hr Hl] (th & E & Hs & Hf & _) Ho Hcr].
  assert (∀ x, started (alter (with_frames fr) t (threads k)) x ↔ started (threads k) x) as Hst.
  { intros x. destruct (decide (x = t)) as [->|]; [|by apply started_alter_ne].
    unfold started. rewrite lookup_alter_eq, E. simpl. split; intros (y & [= <-] & _ & ?); simplify_eq/=; congruence. }
  split; [split; try done| | |done].
  - destruct Hi as [[S1 S2 S3 S4 S5 S6 S7 S8 S9 S10 S11 S12 S13] [E1 E2 E3 E4 E5] Hlo [P1 P2 P3 P4 P5 P6] [C1 C2 C3] Hd Hx [D1 D2 D3]].
    assert (∀ x, st (alter (with_frames fr) t (threads k)) x = st (threads k) x) as Est by (intros; by apply st_alter).
    assert (∀ x, lpl (alter (with_frames fr) t (threads k)) x = lpl (threads k) x) as Elp by (intros; by apply lpl_alter).
    assert (∀ x, live (alter (with_frames fr) t (threads k)) x ↔ live (threads k) x) as Eli by (intros; by apply live_alter).
    split; try done; simpl.
    + split; try done.
      * by setoid_rewrite Est.
      * intros x. by rewrite Est.
      * intros x. rewrite Est, Hst. apply S5.
      * intros x. by rewrite Eli.
      * by rewrite Eli, Elp.
      * intros x y [(-> & th0 & E0 & ->)|(? & E0)]%lookup_alter_inv; by apply (S9 _ _ E0).
      * intros x y [(-> & th0 & E0 & ->)|(? & E0)]%lookup_alter_inv; [|by apply S10].
        intros _. rewrite E in E0. injection E0 as <-. destruct (S10 t th E) as (? & ? & _); [by rewrite Hf|].
        simpl. split_and!; auto.
      * intros x. rewrite Est, Elp. apply S11.
      * intros x Hx'. destruct (S13 x Hx'). split; [done|]. by apply lookup_alter_None.
    + split; try done. intros x s. rewrite Est, Hst. apply E3.
    + split; try done; setoid_rewrite Elp; done.
    + split; try done. intros x d. rewrite Hst. apply C3.
    + split; [done|intros x; rewrite Hst; apply D2|].
      intros x y [(-> & th0 & E0 & ->)|(? & E0)]%lookup_alter_inv; [|by apply D3].
      intros _. do 3 right. by exists c.
  - apply (guar_step _ k); [done|done|]. intros u Hu. eapply rely_building; try done. congruence.
  - exists (with_frames fr th). simpl. by rewrite lookup_alter_eq, E.
  - intros u fr' (x & Ex & Hx). destruct (decide (u = t)) as [->|]; [done|]. simpl in Ex.
    rewrite lookup_alter_ne in Ex by done. apply (Ho u fr'). by exists x.
Qed.

(** ** [thread_create] *)

Lemma allocate_tid_spec c lvl Q k0 k :
  at_ c lvl k0 k → c ≠ idle_thread k → idle_in_synch c k → is_Some (holders k !! tid_lock) →
  holders k !! tid_lock ≠ Some c →
  (∀ v k0' k', at_ c lvl k0' k' → returned c k k' →
     (∀ u fr, nascent (threads k') c u fr ↔ nascent (threads k) c u fr) → Q v k0' k') →
  wp allocate_tid Q k0 k.
Proof.
  intros Ha Hid [Hnw Hnc] Hl Hnh HQ. unfold allocate_tid. apply wp_bind.
  assert ((tid_lock, c) ∉ sections k) as Hout.
  { intros Hs. by destruct (cl_holds _ _ _ _ _ _ _ (inv_client _ _ (at_inv _ _ _ _ Ha)) _ _ Hs). }
  eapply lock_acquire_spec; try done. intros _ k0a ka Haa [A1 A2 A3 A4 A5 A6 A7 A8 A9].
  apply wp_bind. unfold act. set (kn := set_next_tid (i32 (next_tid ka + 1)) ka).
  eapply (wp_act_at c lvl) with (v := next_tid ka) (k' := kn); [done|exact (at_running _ _ _ _ Haa)| |].
  { destruct Haa as [Hi Hg Hr Hlv]. split; try done; [by destruct Hi|].
    apply (guar_step _ ka); [done|done|]. intros. by apply (rely_frame _ _ ka). }
  assert (live (threads ka) c) as Hlv.
  { rewrite <-(at_running _ _ _ _ Haa). by apply running_live, (at_inv _ _ _ _ Haa). }
  intros k0b kb Hab Hrb. assert (rely c ka kb) as Hrab.
  { etrans; [|exact Hrb]. by apply (rely_frame _ _ ka). }
  pose proof (re_keeps _ _ _ Hrab Hlv) as [K1 K2 K3 K4 K5 K6 K7 K8 K9 K10].
  apply wp_ret, wp_bind. eapply lock_release_spec; [done|apply K5, A3; by left|by rewrite K9, A8|].
  intros _ k0' k' Ha' [R1 R2 R3 R4 R5 R6 R7 R8]. apply wp_ret, HQ; [done| |].
  2: { intros u fr. by rewrite R6, K8, A7. }
  split.
  - eapply grows_trans; [done|]. eapply grows_trans; [apply Hrab|done].
  - split; [|intros d Hd; by apply (Hnc d), A5, K6, R4]. apply R2.
    apply (not_waiting_rely c ka kb); try done. exact (inv_records _ _ (at_inv _ _ _ _ Haa)).
  - intros l. rewrite R3, K5, A3. destruct (decide (l = tid_lock)) as [->|]; tauto.
  - intros l. by rewrite R7, K9, A8.
  - by rewrite R8, K10, A9.
Qed.

Lemma alloc_frame_ok k t th s :
  threads k !! t = Some th → t ≠ NULL → magic th = THREAD_MAGIC → s `mod` 4 = 0 →
  alloc_frame t s k = Ok (stack th - s, map_thread t (with_stack (stack th - s)) k).
Proof.
  intros E Hn Hm Hs. unfold alloc_frame. erewrite bind_ok by by eapply is_thread_ok. mrun.
  rewrite bool_decide_eq_true_2 by done. rewrite (rd_thread_ok _ _ th) by done.
  by rewrite (wr_thread_ok _ _ th).
Qed.

Lemma building_alloc_frame c lvl t fr k0 k s :
  building c lvl t fr k0 k → s `mod` 4 = 0 →
  ∃ v z, alloc_frame t s k = Ok (v, map_thread t (with_stack z) k) ∧
    building c lvl t fr k0 (map_thread t (with_stack z) k).
Proof.
  intros Hb Hs. pose proof Hb as [[Hi _ _ _] (th & E & _) _ _].
  destruct (inv_thread _ _ _ _ Hi E) as [Hn Hm]. eexists _, _. split; [by apply alloc_frame_ok|].
  apply building_inert; [done|apply inert_stack].
Qed.

Lemma building_returned c lvl t fr k0 k k1 f :
  building c lvl t fr k0 k → returned c k1 k →
  (∀ th, lock_priority_list (f th) = lock_priority_list th) → returned c k1 (map_thread t f k).
Proof.
  intros Hb Hr Hf. pose proof (building_live _ _ _ _ _ _ Hb) as [_ Ht].
  eapply returned_trans; [exact Hr|]. eapply returned_alter; [apply Hb|apply Hr|done|done].
Qed.

Lemma thread_create_frames_ok c lvl t k0 k k1 fn aux :
  building c lvl t (NoFrames c) k0 k → fn ≠ idle_function → fn ≠ NULL → returned c k1 k →
  ∃ k', thread_create_frames t fn aux k = Ok (tt, k') ∧ returned c k1 k' ∧
    building c lvl t (EntryFrames c (KernelThreadFrame fn aux)) k0 k'.
Proof.
  intros Hb Hfn Hfn0 Hr. unfold thread_create_frames.
  destruct (building_alloc_frame _ _ _ _ _ _ 12 Hb eq_refl) as (v1 & z1 & E1 & Hb1).
  pose proof (building_returned _ _ _ _ _ _ _ (with_stack z1) Hb Hr (λ _, eq_refl)) as Hr1.
  erewrite bind_ok by exact E1. erewrite bind_ok by done. cbv beta. clear E1 Hb Hr.
  set (k2 := map_thread t (with_stack z1) k) in *. clearbody k2.
  pose proof Hb1 as [Ha (th & E & _) _ _]. rewrite (at_running _ _ _ _ Ha).
  erewrite bind_ok by by apply (wr_thread_ok _ _ th).
  pose proof (building_framed _ _ _ _ _ fn aux Hb1 Hfn Hfn0) as Hb2. set (fr := EntryFrames c _) in *.
  pose proof (building_returned _ _ _ _ _ _ _ (with_frames fr) Hb1 Hr1 (λ _, eq_refl)) as Hr2.
  destruct (building_alloc_frame _ _ _ _ _ _ 4 Hb2 eq_refl) as (v3 & z3 & E3 & Hb3).
  pose proof (building_returned _ _ _ _ _ _ _ (with_stack z3) Hb2 Hr2 (λ _, eq_refl)) as Hr3.
  erewrite bind_ok by exact E3.
  destruct (building_alloc_frame _ _ _ _ _ _ 28 Hb3 eq_refl) as (v4 & z4 & E4 & Hb4).
  pose proof (building_returned _ _ _ _ _ _ _ (with_stack z4) Hb3 Hr3 (λ _, eq_refl)) as Hr4.
  erewrite bind_ok by exact E4. eexists. by split.
Qed.

(** Thread [c] builds no thread. *)
Definition no_nascent (c : Z) (k : kernel) : Prop := ∀ u fr, ¬ nascent (threads k) c u fr.

Lemma no_nascent_rely c lvl k0 k k' : at_ c lvl k0 k → rely c k k' → no_nascent c k → no_nascent c k'.
Proof.
  intros [Hi _ <- _] Hrel Hn u fr. rewrite (ke_nascent _ _ _ (re_keeps _ _ _ Hrel (running_live _ Hi))).
  apply Hn.
Qed.

(** The new thread becomes ready. *)
Lemma building_unblocked c lvl t f k0 k :
  building c lvl t (EntryFrames c f) k0 k → at_ c lvl k0 (unblocked t k) ∧ no_nascent c (unblocked t k).
Proof.
  intros Hb. pose proof Hb as [[Hi Hg Hr Hl] (th & E & Hs & Hf & _) Ho Hcr]. split.
  2: { intros u fr (x & Ex & Hx & Hfx). simpl in Ex. destruct (decide (u = t)) as [->|Hne].
       - rewrite lookup_alter_eq, E in Ex. simplify_eq/=.
       - rewrite lookup_alter_ne in Ex by done. apply Hne, (Ho u fr). by exists x. }
  assert (st (threads k) t = Some THREAD_BLOCKED) as Hst by (by rewrite (st_lookup _ _ _ E), Hs).
  assert (∀ u, started (threads k) u → u ≠ t) as Hne.
  { intros u (x & Ex & _ & Hx) ->. rewrite E in Ex. injection Ex as <-. congruence. }
  split; try done.
  - destruct Hi as [Hsc [E1 E2 E3 E4 E5] Hlo Hlp Hco Hd Hx Hcl]. split; try done; simpl.
    + eapply sched_unblock; [exact Hsc|done| | |by eapply si_sleep_nodup|].
      * destruct (si_new _ _ _ _ _ _ _ _ Hsc t th E) as (_ & ? & _); [by rewrite Hf|done].
      * intros x y Ex. rewrite E in Ex. injection Ex as <-. by rewrite Hf.
      * intros u Hu. split; [done|]. apply Hne. by apply (si_sleep _ _ _ _ _ _ _ _ Hsc).
    + split; try done. intros u s Hw. destruct (E3 u s Hw) as (? & Hu & ?).
      apply Hne in Hu as Hut. rewrite st_with_status by by eexists.
      by rewrite decide_False, started_alter_ne by done.
    + by apply lp_with_status.
    + by apply cond_with_status.
    + eapply client_with_status; [done|by left|done|eauto|done].
  - apply (guar_step _ k); [done|done|]. intros u Hu.
    eapply (rely_frame _ _ (map_thread t (with_status THREAD_READY) k)); try done.
    eapply rely_building; try done; [congruence|]. intros x Ex. rewrite E in Ex. injection Ex as <-.
    simpl. by rewrite Hf.
Qed.

(** One action of thread [c], the start of whose function was state [k1]. *)
Lemma act_returned_spec c lvl f cont Q k0 k k1 v k' :
  f k = Ok (v, k') → running k = c → at_ c lvl k0 k' → returned c k1 k' →
  (∀ k0'' k'', at_ c lvl k0'' k'' → returned c k1 k'' → rely c k' k'' → wp (cont v) Q k0'' k'') →
  wp (Act f cont) Q k0 k.
Proof.
  intros E Hr Ha Hk HQ. eapply (wp_act_at c lvl); [done..|]. intros k0'' k'' Ha'' Hrel.
  apply HQ; [done| |done]. eapply returned_trans; [done|]. eapply rely_returned; [done|apply Hk|done].
Qed.

Lemma building_rely c lvl t fr k0 k k0' k' :
  building c lvl t fr k0 k → at_ c lvl k0' k' → rely c k k' → building c lvl t fr k0' k'.
Proof.
  intros [[Hi _ Hr _] Hn Ho Hc] Ha Hrel. assert (live (threads k) c) as Hl by (subst; by apply running_live).
  destruct (re_keeps _ _ _ Hrel Hl) as [_ _ _ _ _ _ _ K8 _ K10].
  split; [done|by apply K8| |by apply K10]. intros u fr' Hu%K8. by eapply Ho.
Qed.

(** The end of [thread_create]. *)
Lemma create_launch_spec c lvl t prio f tid Q k0 k k1 :
  building c lvl t (EntryFrames c f) k0 k → returned c k1 k →
  (∀ v k0' k', at_ c lvl k0' k' → returned c k1 k' → no_nascent c k' → Q v k0' k') →
  wp (act_unit (thread_unblock t);~
      cur_priority <~ act thread_get_priority;
      (if decide (prio > cur_priority) then thread_yield else Ret 0);~
      Ret tid) Q k0 k.
Proof.
  intros Hb Hr HQ. pose proof Hb as [[Hi _ Hrn _] (th & E & Hs & _) _ _].
  destruct (building_unblocked _ _ _ _ _ _ Hb) as [Hau Hnu].
  destruct (inv_thread _ _ _ _ Hi E) as [Hnn Hm]. apply wp_bind. unfold act_unit, act.
  eapply (act_returned_spec c lvl _ _ _ _ _ k1); [|exact Hrn|exact Hau| |].
  { erewrite bind_ok; [done|]. apply (thread_unblock_ok _ _ th); try done. intros _. by apply inv_ctx in Hi. }
  { destruct (building_returned _ _ _ _ _ _ k1 (with_status THREAD_READY) Hb Hr (λ _, eq_refl)) as [[] ? ? ? ?].
    by split. }
  intros k0f kf Haf Hr1f Hrf. pose proof (no_nascent_rely _ _ _ _ _ Hau Hrf Hnu) as Hnf.
  apply wp_ret, wp_bind. destruct (get_priority_run kf (at_inv _ _ _ _ Haf)) as (thf & _ & Eg).
  eapply (act_returned_spec c lvl _ _ _ _ _ k1); [exact Eg|exact (at_running _ _ _ _ Haf)|exact Haf|done|].
  intros k0g kg Hag Hr1g Hrg. pose proof (no_nascent_rely _ _ _ _ _ Haf Hrg Hnf) as Hng.
  apply wp_ret, wp_bind. case_decide; [|apply wp_ret, wp_ret; by apply HQ].
  eapply thread_yield_spec; [done|]. intros v k0' k' Ha' Hr'. apply wp_ret, HQ; [done| |].
  2: { exact (no_nascent_rely _ _ _ _ _ Hag Hr' Hng). }
  eapply returned_trans; [exact Hr1g|]. eapply rely_returned; [exact Hag|apply Hr1g|done].
Qed.

(** From the point where the new thread is on [all_list]. *)
Lemma create_rest_spec c lvl t prio fn aux Q k0 k k1 :
  building c lvl t (NoFrames c) k0 k → c ≠ idle_thread k → is_Some (holders k !! tid_lock) →
  holders k !! tid_lock ≠ Some c → fn ≠ idle_function → fn ≠ NULL → returned c k1 k →
  (∀ v k0' k', at_ c lvl k0' k' → returned c k1 k' → no_nascent c k' → Q v k0' k') →
  wp (tid <~ allocate_tid;
      act_unit (wr_thread t (with_tid tid));~
      act_unit (thread_create_frames t fn aux);~
      act_unit (thread_unblock t);~
      cur_priority <~ act thread_get_priority;
      (if decide (prio > cur_priority) then thread_yield else Ret 0);~
      Ret tid) Q k0 k.
Proof.
  intros [Ha Hn Ho Hc] Hid Htl Hnh Hfn Hfn0 Hr HQ. apply wp_bind. eapply allocate_tid_spec; try done; [apply Hr|].
  intros tid k0a ka Haa Hra Hna. assert (building c lvl t (NoFrames c) k0a ka) as Hba.
  { split; [done|by apply Hna| |by apply Hra]. intros u fr Hu%Hna. by eapply Ho. }
  assert (returned c k1 ka) as Hr1a by by eapply returned_trans.
  apply wp_bind. unfold act_unit. pose proof Hba as [_ (th & E & _) _ _].
  pose proof (building_inert _ _ _ _ _ _ (with_tid tid) Hba (inert_tid tid)) as Hbb.
  eapply (act_returned_spec c lvl _ _ _ _ _ k1);
    [by erewrite bind_ok by by apply (wr_thread_ok _ _ th)|exact (at_running _ _ _ _ Haa)|apply Hbb| |].
  { by eapply building_returned. }
  intros k0c kc Hac Hr1c Hrc. pose proof (building_rely _ _ _ _ _ _ _ _ Hbb Hac Hrc) as Hbc.
  apply wp_ret, wp_bind.
  destruct (thread_create_frames_ok _ _ _ _ _ k1 fn aux Hbc Hfn Hfn0 Hr1c) as (kd & Ed & Hrd & Hbd).
  eapply (act_returned_spec c lvl _ _ _ _ _ k1);
    [by erewrite bind_ok by exact Ed|exact (at_running _ _ _ _ Hac)|apply Hbd|done|].
  intros k0e ke Hae Hr1e Hre. pose proof (building_rely _ _ _ _ _ _ _ _ Hbd Hae Hre) as Hbe.
  apply wp_ret. by eapply (create_launch_spec c lvl).
Qed.

(** The page and the initialisation. *)
Lemma create_alloc_ok c lvl k0 k nm prio fn :
  at_ c lvl k0 k → fn ≠ NULL → pri_ok prio →
  let f := (assert (bool_decide (fn ≠ NULL));;
            t ← palloc_get_page;
            if decide (t = NULL) then mret NULL else init_thread t (Some nm) prio;; mret t) in
  f k = Ok (NULL, k) ∨
  ∃ t ps, f k = Ok (t, born t nm prio ps k) ∧ t ≠ NULL ∧ free_pages k = t :: ps.
Proof.
  intros [Hi Hg Hr Hl] Hfn [Hp1 Hp2] f. unfold f, palloc_get_page. mrun. rewrite bool_decide_eq_true_2 by done.
  destruct (free_pages k) as [|t ps] eqn:Ep; [by left|].
  destruct (page_free k t ps Hi Ep) as [Hn _]. rewrite decide_False by done.
  unfold init_thread. mrun. rewrite !bool_decide_eq_true_2 by done.
  cbn iota. rewrite intr_disable_ok. cbn iota. rewrite intr_set_level_ok by (intros _; exact (inv_ctx _ _ Hi)).
  right. exists t, ps. split; [|done]. unfold born. simpl. by destruct k.
Qed.

Lemma thread_create_spec c lvl nm prio fn aux Q k0 k :
  at_ c lvl k0 k → c ≠ idle_thread k → idle_in_synch c k → is_Some (holders k !! tid_lock) →
  holders k !! tid_lock ≠ Some c → c ∈ creating k → no_nascent c k →
  fn ≠ idle_function → fn ≠ NULL → pri_ok prio →
  (∀ v k0' k', at_ c lvl k0' k' → returned c k k' → no_nascent c k' → Q v k0' k') →
  wp (thread_create (Some nm) prio fn aux) Q k0 k.
Proof.
  intros Ha Hid Hsy Htl Hnh Hcr Hnn Hfn Hfn0 Hprio HQ. unfold thread_create. apply wp_bind. unfold act.
  pose proof Ha as [Hi Hg Hr Hl].
  destruct (create_alloc_ok c lvl k0 k nm prio fn Ha Hfn0 Hprio) as [E|(t & ps & E & Hn & Hp)].
  - eapply (act_returned_spec c lvl _ _ _ _ _ k); [exact E|done|done|by apply returned_refl|].
    intros k0' k' Ha' Hr' Hk'. apply wp_ret. rewrite decide_True by done. apply wp_ret. apply HQ; [done..|].
    exact (no_nascent_rely _ _ _ _ _ Ha Hk' Hnn).
  - assert (∀ u, u ≠ c → rely u k (born t nm prio ps k)) as Hrel by (intros; apply rely_born; congruence).
    assert (building c lvl t (NoFrames c) k0 (born t nm prio ps k)) as Hb.
    { split; [split; try done; [apply inv_born; congruence|apply (guar_step _ k); [done|done|]; by rewrite Hr]| | |done].
      - exists (new_thread (running k) t nm prio). simpl. rewrite lookup_insert_eq. by rewrite Hr.
      - intros u fr' [Hu|(_ & ? & _)]%(nascent_born k t nm prio ps Hi Hp); [by destruct (Hnn u fr')|done]. }
    assert (returned c k (born t nm prio ps k)) as Hrb.
    { split; [exact (re_grows _ _ _ (Hrel (c + 1) ltac:(lia)))| |done..]. destruct Hsy as [Hw Hc]. split; [|done].
      intros i l. simpl. rewrite (lpl_born k t nm prio ps) by done. apply Hw. }
    eapply (act_returned_spec c lvl _ _ _ _ _ k); [exact E|done|apply Hb|done|].
    intros k0' k' Ha' Hr' Hk'. apply wp_ret. rewrite decide_False by done.
    eapply (create_rest_spec c lvl _ _ _ _ _ _ _ k); try done.
    + by eapply building_rely.
    + rewrite (gr_idle _ _ (rt_grows _ _ _ Hr')). done.
    + by apply (rt_grows _ _ _ Hr').
    + by rewrite (rt_holds _ _ _ Hr').
Qed.
