(* ===== verification/KClient.v ===== *)
(** * The client side of the kernel

    The code that runs in a kernel thread, seen from the interface of thread.c,
    synch.c and timer.c: a program that calls its functions, computes on what
    they return, loops and exits.  [client_prog] is what such a program
    executes: the bodies of the functions, and the upkeep of the two members of
    the state that no code reads, [sections] (thread [t] is between its
    [lock_acquire (l)] and its [lock_release (l)]) and [creating] (thread [t] is
    in [thread_create]).  [rules] are the rules that the comments of these
    functions state for their callers. *)

From S2P Require Import Prelude KList Kernel KProg KLogic KSpec KSync KSync2 KLock KCond KThread KCreate.

(** ** Calls *)

Inductive call :=
  | LockAcquire (l : Z)
  | LockRelease (l : Z)
  | SemaDown (a : Z)
  | SemaTryDown (a : Z)
  | SemaUp (a : Z)
  | CondWait (d l : Z)
  | CondSignal (d l : Z)
  | CondBroadcast (d l : Z)
  | ThreadCreate (nm : option (list Z)) (prio function aux : Z)
  | ThreadYield
  | ThreadSetPriority (p : Z)
  | ThreadGetPriority
  | TimerSleep (n : Z).

Definition enter (l : Z) : M kernel unit :=
  t ← running_thread; modify (λ k, set_sections ({[(l, t)]} ∪ sections k) k).
Definition leave (l : Z) : M kernel unit :=
  t ← running_thread; modify (λ k, set_sections (sections k ∖ {[(l, t)]}) k).
Definition create_begin : M kernel unit :=
  t ← running_thread; modify (λ k, set_creating ({[t]} ∪ creating k) k).
Definition create_end : M kernel unit :=
  t ← running_thread; modify (λ k, set_creating (creating k ∖ {[t]}) k).

Definition call_prog (c : call) : prog :=
  match c with
  | LockAcquire l => lock_acquire l;~ act_unit (enter l)
  | LockRelease l => act_unit (leave l);~ lock_release l
  | SemaDown a => sema_down (SemaAt a)
  | SemaTryDown a => act_bool (sema_try_down (SemaAt a))
  | SemaUp a => sema_up (SemaAt a)
  | CondWait d l => act_unit (leave l);~ cond_wait d l;~ act_unit (enter l)
  | CondSignal d l => cond_signal d l
  | CondBroadcast d l => cond_broadcast d l
  | ThreadCreate nm prio function aux =>
      act_unit create_begin;~ tid <~ thread_create nm prio function aux;
      act_unit create_end;~ Ret tid
  | ThreadYield => thread_yield
  | ThreadSetPriority p => thread_set_priority p
  | ThreadGetPriority => act thread_get_priority
  | TimerSleep n => timer_sleep n
  end.

(** ** Programs *)

Inductive client :=
  | Return (v : Z)
  | Call (c : call) (k : Z → client)
  | While (body rest : client)             (* while (body) ; rest *)
  | Exit (v : Z).

Fixpoint client_prog (p : client) : prog :=
  match p with
  | Return v => Ret v
  | Call c k => v <~ call_prog c; client_prog (k v)
  | While b k => Loop (client_prog b) (client_prog k)
  | Exit v => thread_exit v
  end.

(** ** The rules *)

Section rules.
  (** The locks, semaphores and condition variables a program may use are those
      that have been initialised in [base]. *)
  Context (base : kernel).

(** What a thread that holds the locks [H] may call. *)
Definition allowed (H : gset Z) (c : call) : Prop :=
  match c with
  | LockAcquire l => is_Some (holders base !! l) ∧ l ≠ tid_lock ∧ l ∉ H
  | LockRelease l => l ∈ H
  | SemaDown a | SemaTryDown a | SemaUp a => is_Some (semas base !! SemaAt a) ∧ a ≠ NULL
  | CondWait d l | CondSignal d l | CondBroadcast d l =>
      is_Some (conds base !! d) ∧ d ≠ NULL ∧ l ∈ H
  | ThreadCreate nm prio function aux =>
      is_Some nm ∧ pri_ok prio ∧ function ≠ NULL ∧ function ≠ idle_function
  | ThreadSetPriority p => pri_ok p
  | ThreadYield | ThreadGetPriority | TimerSleep _ => True
  end.

Definition after (c : call) (H : gset Z) : gset Z :=
  match c with
  | LockAcquire l => {[l]} ∪ H
  | LockRelease l => H ∖ {[l]}
  | _ => H
  end.

(** Every call is allowed whatever the calls before it return, a loop body
    ends with the locks it began with, and no lock is held at the end or at an
    exit. *)
Fixpoint obeys (p : client) (H H' : gset Z) : Prop :=
  match p with
  | Return _ => H = H'
  | Call c k => allowed H c ∧ ∀ v, obeys (k v) (after c H) H'
  | While b k => obeys b H H ∧ obeys k H H'
  | Exit _ => H = ∅
  end.

Definition rules (p : client) : Prop := obeys p ∅ ∅.
End rules.

(** ** The members no code reads *)

Lemma rely_sections t k ss :
  (∀ l, (l, t) ∈ ss ↔ (l, t) ∈ sections k) → rely t k (set_sections ss k).
Proof. intros Hs. split; [by split|intros Hl; by split|done]. Qed.

Lemma rely_creating t k cs : (t ∈ cs ↔ t ∈ creating k) → rely t k (set_creating cs k).
Proof. intros Hs. split; [by split|intros Hl; by split|done]. Qed.

Lemma at_enter c lvl k0 k l :
  at_ c lvl k0 k → holders k !! l = Some c → at_ c lvl k0 (set_sections ({[(l, c)]} ∪ sections k) k).
Proof.
  intros [Hi Hg Hr Hl] Hh. destruct (inv_current _ Hi) as (_ & _ & Hn & _). split; try done.
  - destruct Hi as [? ? ? ? ? ? ? [C1 C2 C3]]. split; try done. split; try done. simpl.
    intros l' t. rewrite elem_of_union, elem_of_singleton. intros [[= -> ->]|?]; [|by apply C1].
    split; [done|congruence].
  - apply (guar_step _ k); [done|done|]. intros t Ht. apply rely_sections. set_solver.
Qed.

Lemma at_leave c lvl k0 k l :
  at_ c lvl k0 k → at_ c lvl k0 (set_sections (sections k ∖ {[(l, c)]}) k).
Proof.
  intros [Hi Hg Hr Hl]. split; try done.
  - destruct Hi as [? ? ? ? ? ? ? [C1 C2 C3]]. split; try done. split; try done. simpl.
    intros l' t. rewrite elem_of_difference. intros [? _]. by apply C1.
  - apply (guar_step _ k); [done|done|]. intros t Ht. apply rely_sections. set_solver.
Qed.

Lemma at_create_begin c lvl k0 k : at_ c lvl k0 k → at_ c lvl k0 (set_creating ({[c]} ∪ creating k) k).
Proof.
  intros [Hi Hg Hr Hl]. destruct (inv_current _ Hi) as (th & Ec & Hn & _ & Hst & Hf). split; try done.
  - destruct Hi as [? ? ? ? ? ? ? [C1 C2 C3]]. split; try done. split; try done; simpl.
    + intros t. rewrite elem_of_union, elem_of_singleton. intros [->|?]; [|by apply C2].
      exists th. rewrite <-Hr. split_and!; try done. by rewrite Hst.
    + intros t th' Et Hb. destruct (C3 t th' Et Hb) as [?|[?|[?|(c' & ? & ?)]]]; auto. set_solver.
  - apply (guar_step _ k); [done|done|]. intros t Ht. apply rely_creating. set_solver.
Qed.

Lemma at_create_end c lvl k0 k :
  at_ c lvl k0 k → no_nascent c k → at_ c lvl k0 (set_creating (creating k ∖ {[c]}) k).
Proof.
  intros [Hi Hg Hr Hl] Hnn. split; try done.
  - destruct Hi as [? ? ? ? ? ? ? [C1 C2 C3]]. split; try done. split; try done; simpl.
    + intros t. rewrite elem_of_difference. intros [? _]. by apply C2.
    + intros t th Et Hb. destruct (C3 t th Et Hb) as [?|[?|[?|(c' & Hcr & ?)]]]; auto. do 3 right.
      exists c'. split; [done|]. apply elem_of_difference. split; [done|]. intros ->%elem_of_singleton.
      apply (Hnn t (frames th)). exists th. split_and!; try done. destruct (frames th); by simplify_eq/=.
  - apply (guar_step _ k); [done|done|]. intros t Ht. apply rely_creating. set_solver.
Qed.

(** A blocked thread that has not started is being built by a thread in
    [thread_create]. *)
Lemma not_creating_no_nascent pk k c : inv pk k → c ∉ creating k → no_nascent c k.
Proof.
  intros Hi Hc u fr (th & E & Hb & Hf & Hcr).
  assert (frames th ≠ Switched) as Hsw by (rewrite Hf; by destruct fr).
  assert (¬ started (threads k) u) as Hns by (intros (x & Ex & _ & ?); congruence).
  destruct (cl_blocked _ _ _ _ _ _ _ (inv_client _ _ Hi) u th E Hb) as [->|[Hs|[[s Hs]|(c' & E' & Hc')]]].
  - by destruct (si_new _ _ _ _ _ _ _ _ (inv_sched _ _ Hi) _ _ E Hsw) as (_ & ? & _).
  - by destruct (si_sleep _ _ _ _ _ _ _ _ (inv_sched _ _ Hi) _ Hs) as (_ & ? & _).
  - by destruct (se_waits _ _ _ _ _ (inv_sema _ _ Hi) _ _ Hs) as (_ & ? & _).
  - rewrite Hf in E'. destruct fr; simplify_eq/=.
Qed.

(** ** Programs that obey the rules *)

Section obeys.
  Context (base : kernel) (Htid : is_Some (holders base !! tid_lock)).

(** Thread [c] is in none of the functions of synch.c, with the locks [H], in
    the sections of the locks [S], and in [thread_create] or not. *)
Record holding (c : Z) (H S : gset Z) (b : bool) (k : kernel) : Prop := {
  ho_grows : grows base k;
  ho_idle : c ≠ idle_thread k;
  ho_synch : idle_in_synch c k;
  ho_locks l : holders k !! l = Some c ↔ l ∈ H;
  ho_sections l : (l, c) ∈ sections k ↔ l ∈ S;
  ho_creating : c ∈ creating k ↔ b = true
}.

Lemma holding_returned c H S b k k' : holding c H S b k → returned c k k' → holding c H S b k'.
Proof.
  intros [H1 H2 H3 H4 H5 H6] [R1 R2 R3 R4 R5]. split; try done.
  - by eapply grows_trans.
  - by rewrite (gr_idle _ _ R1).
  - intros l. by rewrite R3.
  - intros l. by rewrite R4.
  - by rewrite R5.
Qed.

Lemma holding_rely c lvl k0 H S b k k' :
  at_ c lvl k0 k → holding c H S b k → rely c k k' → holding c H S b k'.
Proof.
  intros Ha Hh Hr. apply (holding_returned c H S b k); [done|]. eapply rely_returned; [done|apply Hh|done].
Qed.

Lemma holding_acquired c H S b l k k' :
  holding c H S b k → acquired c l k k' → holding c ({[l]} ∪ H) S b k'.
Proof.
  intros [H1 H2 [H3 H3'] H4 H5 H6] [R1 R2 R3 _ R4 _ _ R6 R7]. split.
  - by eapply grows_trans.
  - by rewrite (gr_idle _ _ R1).
  - split; [done|]. intros d Hd. by apply (H3' d), R4.
  - intros l'. rewrite R3, H4. set_solver.
  - intros l'. by rewrite R6.
  - by rewrite R7.
Qed.

Lemma holding_released c H S b l k k' :
  holding c H S b k → released c l k k' → holding c (H ∖ {[l]}) S b k'.
Proof.
  intros [H1 H2 [H3 H3'] H4 H5 H6] [R1 R2 R3 R4 _ _ R6 R7]. split.
  - by eapply grows_trans.
  - by rewrite (gr_idle _ _ R1).
  - split; [auto|]. intros d Hd. by apply (H3' d), R4.
  - intros l'. rewrite R3, H4. set_solver.
  - intros l'. by rewrite R6.
  - by rewrite R7.
Qed.

Lemma holding_free c S k : holding c ∅ S false k → free_thread c k.
Proof. intros [H1 H2 H3 H4 H5 H6]. split; try done; [intros l Hl%H4; set_solver|by rewrite H6]. Qed.

Lemma free_holding c k : inv Runs k → grows base k → free_thread c k → holding c ∅ ∅ false k.
Proof.
  intros Hi Hg [F1 F2 F3 F4]. split; try done.
  - intros l. split; [intros Hl; by destruct (F3 l)|set_solver].
  - intros l. split; [|set_solver]. intros Hs.
    destruct (cl_holds _ _ _ _ _ _ _ (inv_client _ _ Hi) _ _ Hs) as [Hl _]. by destruct (F3 l).
Qed.

(** One action on the members no code reads. *)
Lemma ghost_spec c g k1 Q k0 k H S b :
  (t ← running_thread; modify (g t)) k = Ok (tt, k1) → at_ c true k0 k → at_ c true k0 k1 →
  holding c H S b k1 → (∀ k0' k', at_ c true k0' k' → rely c k1 k' → holding c H S b k' → Q 0 k0' k') →
  wp (act_unit (t ← running_thread; modify (g t))) Q k0 k.
Proof.
  intros E Ha Ha1 Hh HQ. unfold act_unit.
  eapply (wp_act_at c true); [by erewrite bind_ok by exact E|exact (at_running _ _ _ _ Ha)|exact Ha1|].
  intros k0' k' Ha' Hr'. apply wp_ret, HQ; [done|done|]. exact (holding_rely _ _ _ _ _ _ _ _ Ha1 Hh Hr').
Qed.

Lemma enter_spec c l Q k0 k H S b :
  at_ c true k0 k → holding c H S b k → l ∈ H →
  (∀ k0' k', at_ c true k0' k' → holding c H ({[l]} ∪ S) b k' → Q 0 k0' k') →
  wp (act_unit (enter l)) Q k0 k.
Proof.
  intros Ha Hh Hl HQ. unfold enter. eapply (ghost_spec c _ (set_sections ({[(l, c)]} ∪ sections k) k) _ _ _ H ({[l]} ∪ S) b).
  - rewrite <-(at_running _ _ _ _ Ha). done.
  - done.
  - apply at_enter; [done|]. by apply (ho_locks _ _ _ _ _ Hh).
  - destruct Hh as [H1 H2 H3 H4 H5 H6]. split; try done; [by destruct H1|]. intros l'. simpl.
    rewrite elem_of_union, H5. set_solver.
  - auto.
Qed.

Lemma leave_spec c l Q k0 k H S b :
  at_ c true k0 k → holding c H S b k →
  (∀ k0' k', at_ c true k0' k' → holding c H (S ∖ {[l]}) b k' → Q 0 k0' k') →
  wp (act_unit (leave l)) Q k0 k.
Proof.
  intros Ha Hh HQ. unfold leave. eapply (ghost_spec c _ (set_sections (sections k ∖ {[(l, c)]}) k) _ _ _ H (S ∖ {[l]}) b).
  - rewrite <-(at_running _ _ _ _ Ha). done.
  - done.
  - by apply at_leave.
  - destruct Hh as [H1 H2 H3 H4 H5 H6]. split; try done; [by destruct H1|]. intros l'. simpl.
    rewrite elem_of_difference, H5. set_solver.
  - auto.
Qed.

Lemma create_end_spec c Q k0 k H S b :
  at_ c true k0 k → holding c H S b k → no_nascent c k →
  (∀ k0' k', at_ c true k0' k' → holding c H S false k' → Q 0 k0' k') →
  wp (act_unit create_end) Q k0 k.
Proof.
  intros Ha Hh Hnn HQ. unfold create_end. eapply (ghost_spec c _ (set_creating (creating k ∖ {[c]}) k) _ _ _ H S false).
  - rewrite <-(at_running _ _ _ _ Ha). done.
  - done.
  - by apply at_create_end.
  - destruct Hh as [H1 H2 H3 H4 H5 H6]. split; try done; [by destruct H1|]. simpl. set_solver.
  - auto.
Qed.

(** ** The calls *)

(** The specification of a call by thread [c]. *)
Definition call_ok (x : call) : Prop :=
  ∀ c H Q k0 k, allowed base H x → tid_lock ∉ H → at_ c true k0 k → holding c H H false k →
    (∀ v k0' k', at_ c true k0' k' → holding c (after x H) (after x H) false k' → Q v k0' k') →
    wp (call_prog x) Q k0 k.

Lemma lock_acquire_call l : call_ok (LockAcquire l).
Proof.
  intros c H Q k0 k (Hl & _ & Hn) _ Ha Hh HQ. apply wp_bind. eapply lock_acquire_spec; [done|..].
  - apply Hh.
  - apply Hh.
  - by apply (ho_grows _ _ _ _ _ Hh).
  - by rewrite (ho_locks _ _ _ _ _ Hh).
  - intros _ k0a ka Haa Hac. eapply enter_spec; [done|by eapply holding_acquired|set_solver|].
    intros k0' k' Ha' Hh'. by apply HQ.
Qed.

Lemma lock_release_call l : call_ok (LockRelease l).
Proof.
  intros c H Q k0 k Hl _ Ha Hh HQ. simpl in Hl. apply wp_bind. eapply leave_spec; [done|done|].
  intros k0a ka Haa Hha. eapply lock_release_spec; [done|..].
  - by apply (ho_locks _ _ _ _ _ Hha).
  - rewrite (ho_sections _ _ _ _ _ Hha). set_solver.
  - intros v k0' k' Ha' Hr'. apply HQ; [done|]. by eapply holding_released.
Qed.

Lemma sema_down_call a : call_ok (SemaDown a).
Proof.
  intros c H Q k0 k [Hs Hn] _ Ha Hh HQ. eapply sema_down_spec; [done|apply Hh|by intros t [=]| | |].
  - simpl. by apply bool_decide_eq_true_2.
  - by apply (ho_grows _ _ _ _ _ Hh).
  - intros v k0' k' Ha' Hr'. apply HQ; [done|]. exact (holding_rely _ _ _ _ _ _ _ _ Ha Hh Hr').
Qed.

Lemma sema_up_call a : call_ok (SemaUp a).
Proof.
  intros c H Q k0 k [Hs Hn] _ Ha Hh HQ. apply (ho_grows _ _ _ _ _ Hh) in Hs as [sm Es].
  eapply sema_up_spec; [done| |done|done|].
  - simpl. by apply bool_decide_eq_true_2.
  - intros v k0' k' Ha' Hr'. apply HQ; [done|]. exact (holding_rely _ _ _ _ _ _ _ _ Ha Hh Hr').
Qed.

Lemma sema_try_down_call a : call_ok (SemaTryDown a).
Proof.
  intros c H Q k0 k [Hs Hn] _ Ha Hh HQ. apply (ho_grows _ _ _ _ _ Hh) in Hs as [sm Es].
  pose proof Ha as [Hi Hg Hr Hl]. unfold call_prog, act_bool.
  set (k' := if decide (value sm > 0) then downed (SemaAt a) sm k else k).
  assert (at_ c true k0 k' ∧ rely c k k') as [Ha' Hr'].
  { subst k'. case_decide; [|by split]. split; [by apply at_downed; [| |lia]|by apply rely_downed]. }
  eapply (wp_act_at c true _ _ _ _ _ (Z_of_bool (bool_decide (value sm > 0))) k'); [|done|done|].
  { unfold sema_try_down, rd_sema, wr_sema. mrun. cbn [sema_nonnull]. rewrite bool_decide_eq_true_2 by done.
    cbn iota. rewrite intr_disable_ok. cbn iota. cbn [semas set_intr_on]. rewrite Es. subst k'. case_decide.
    - rewrite bool_decide_eq_true_2 by done. rewrite intr_set_level_ok by (intros _; apply (inv_ctx _ _ Hi)).
      unfold downed. by destruct k.
    - rewrite bool_decide_eq_false_2 by done. rewrite intr_set_level_ok by (intros _; apply (inv_ctx _ _ Hi)).
      by destruct k. }
  intros k0'' k'' Ha'' Hr''. apply wp_ret, HQ; [done|].
  refine (holding_rely _ _ _ _ _ _ _ _ Ha Hh _). by etrans.
Qed.

Lemma cond_wait_call d l : call_ok (CondWait d l).
Proof.
  intros c H Q k0 k (Hd & Hn & Hl) _ Ha Hh HQ. apply wp_bind. eapply leave_spec; [done|done|].
  intros k0a ka Haa Hha. apply wp_bind. eapply cond_wait_spec; [done|apply Hha|apply Hha|..].
  - by apply (ho_locks _ _ _ _ _ Hha).
  - rewrite (ho_sections _ _ _ _ _ Hha). set_solver.
  - done.
  - by apply (ho_grows _ _ _ _ _ Hha).
  - intros _ k0b kb Hab Hr. eapply enter_spec; [done|by eapply holding_returned|done|].
    intros k0' k' Ha' Hh'. apply HQ; [done|]. simpl.
    assert ({[l]} ∪ H ∖ {[l]} = H) as E by (apply set_eq; intros x; destruct (decide (x = l)); set_solver).
    by rewrite E in Hh'.
Qed.

Lemma cond_signal_call d l : call_ok (CondSignal d l).
Proof.
  intros c H Q k0 k (Hd & Hn & Hl) _ Ha Hh HQ. eapply cond_signal_spec; [done|..].
  - by apply (ho_locks _ _ _ _ _ Hh).
  - done.
  - by apply (ho_grows _ _ _ _ _ Hh).
  - intros v k0' k' Ha' Hr'. apply HQ; [done|]. exact (holding_rely _ _ _ _ _ _ _ _ Ha Hh Hr').
Qed.

Lemma cond_broadcast_call d l : call_ok (CondBroadcast d l).
Proof.
  intros c H Q k0 k (Hd & Hn & Hl) _ Ha Hh HQ. eapply cond_broadcast_spec; [done|..].
  - by apply (ho_locks _ _ _ _ _ Hh).
  - done.
  - by apply (ho_grows _ _ _ _ _ Hh).
  - intros v k0' k' Ha' Hr'. apply HQ; [done|]. exact (holding_rely _ _ _ _ _ _ _ _ Ha Hh Hr').
Qed.

Lemma thread_create_call nm prio fn aux : call_ok (ThreadCreate nm prio fn aux).
Proof.
  intros c H Q k0 k ([nm' ->] & Hp & Hf & Hfi) Ht Ha Hh HQ. apply wp_bind. unfold create_begin.
  assert (no_nascent c k) as Hnn.
  { eapply not_creating_no_nascent; [exact (at_inv _ _ _ _ Ha)|]. by intros ?%(ho_creating _ _ _ _ _ Hh). }
  eapply (ghost_spec c _ (set_creating ({[c]} ∪ creating k) k) _ _ _ H H true).
  - rewrite <-(at_running _ _ _ _ Ha). done.
  - done.
  - by apply at_create_begin.
  - destruct Hh as [H1 H2 H3 H4 H5 H6]. split; try done; [by destruct H1|]. simpl. set_solver.
  - intros k0a ka Haa Hra Hha. apply wp_bind. eapply thread_create_spec; [done|apply Hha|apply Hha|..]; try done.
    + by apply (ho_grows _ _ _ _ _ Hha).
    + by rewrite (ho_locks _ _ _ _ _ Hha).
    + by apply (ho_creating _ _ _ _ _ Hha).
    + exact (no_nascent_rely c true k0 _ _ (at_create_begin _ _ _ _ Ha) Hra Hnn).
    + intros v k0b kb Hab Hrb Hnb. apply wp_bind.
      eapply create_end_spec; [done|by eapply holding_returned|done|].
      intros k0' k' Ha' Hh'. apply wp_ret. by apply HQ.
Qed.

Lemma call_spec x : call_ok x.
Proof.
  destruct x; [apply lock_acquire_call|apply lock_release_call|apply sema_down_call|apply sema_try_down_call
    |apply sema_up_call|apply cond_wait_call|apply cond_signal_call|apply cond_broadcast_call
    |apply thread_create_call|..]; intros c H Q k0 k Hal _ Ha Hh HQ; simpl in *.
  - eapply thread_yield_spec; [done|]. intros v k0' k' Ha' Hr'. apply HQ; [done|].
    exact (holding_rely _ _ _ _ _ _ _ _ Ha Hh Hr').
  - eapply thread_set_priority_spec; [done|done|]. intros v k0' k' Ha' Hr'. apply HQ; [done|].
    exact (holding_rely _ _ _ _ _ _ _ _ Ha Hh Hr').
  - destruct (get_priority_run k (at_inv _ _ _ _ Ha)) as (th & _ & Eg). unfold act.
    eapply (wp_act_at c true); [exact Eg|exact (at_running _ _ _ _ Ha)|exact Ha|].
    intros k0' k' Ha' Hr'. apply wp_ret, HQ; [done|]. exact (holding_rely _ _ _ _ _ _ _ _ Ha Hh Hr').
  - eapply timer_sleep_spec; [done|apply Hh|]. intros v k0' k' Ha' Hr'. apply HQ; [done|].
    exact (holding_rely _ _ _ _ _ _ _ _ Ha Hh Hr').
Qed.

(** A program that obeys the rules runs to its end, or exits. *)
Lemma obeys_spec p c H H' Q k0 k :
  obeys base p H H' → tid_lock ∉ H → at_ c true k0 k → holding c H H false k →
  (∀ v k0' k', at_ c true k0' k' → holding c H' H' false k' → Q v k0' k') →
  wp (client_prog p) Q k0 k.
Proof.
  revert H H' Q k0 k. induction p as [v|x g IH|b IHb g IHg|v]; intros H H' Q k0 k Ho Ht Ha Hh HQ; simpl in *.
  - subst H'. apply wp_ret. by apply HQ.
  - destruct Ho as [Hal Hk]. apply wp_bind, (call_spec x c H); try done. intros v k0a ka Haa Hha.
    eapply IH; [apply Hk| |done|done|done]. destruct x; simpl in *; set_solver.
  - destruct Ho as [Hb Hg]. exists (λ k0 k, at_ c true k0 k ∧ holding c H H false k). split; [done|].
    intros k1 k2 [Ha2 Hh2]. eapply (IHb H H); [done..|]. intros v k0' k' Ha' Hh'.
    destruct (is_true_Z v); [done|]. by eapply IHg.
  - subst H. eapply thread_exit_spec; [done|]. by eapply holding_free.
Qed.
End obeys.
