(* ===== verification/KSystem.v ===== *)
(** * The whole system

    Threads whose functions obey the rules of the interface of thread.c, synch.c
    and timer.c, the idle thread and the timer interrupt run forever: no
    interleaving makes the kernel touch memory that is not there, fail an
    assertion or run off the end of a function, as long as there is a record
    left for a lock that is acquired. *)

From S2P Require Import Prelude KList Kernel KProg KLogic KSpec KSync KSync2 KLock KCond KThread KCreate KClient.

(** ** The idle thread *)

Lemma inv_blocked k : inv Runs k → running k = idle_thread k → inv Leaves (blocked k).
Proof.
  intros Hi Hid. destruct (inv_current _ Hi) as (th & E & _ & _ & Hs & Hf).
  assert (st (threads k) (running k) = Some THREAD_RUNNING) as Er by (by rewrite (st_lookup _ _ _ E), Hs).
  pose proof Hi as [Hsc Hse Hlo Hlp Hco Hd Hx Hcl]. split; try done.
  - apply (sched_block (threads k) (running k) (ready_list k) (sleep_list k));
      [done|by exists th|exact (si_sleep_nodup _ _ _ _ _ _ _ _ Hsc)|auto].
  - apply (sema_leave _ _ _ (sleep_list k)); [done|exact Er|auto].
  - by apply lp_with_status.
  - by apply cond_with_status.
  - eapply client_with_status; [done|by left|done|eauto|auto].
Qed.

(** [sti] *)
Lemma enable_spec c lvl Q k0 k :
  at_ c lvl k0 k → (∀ k0' k', at_ c true k0' k' → rely c k k' → Q 0 k0' k') →
  wp (act_unit (modify (set_intr_on true))) Q k0 k.
Proof.
  intros Ha HQ. unfold act_unit. eapply (wp_act_at c true); [done|exact (at_running _ _ _ _ Ha)| |].
  { by eapply at_set_intr. }
  intros k0' k' Ha' Hr'. apply wp_ret, HQ; [done|]. etrans; [|exact Hr']. by apply rely_set_intr.
Qed.

Lemma idle_body_spec c Q k0 k :
  at_ c true k0 k → c = idle_thread k →
  (∀ k0' k', at_ c true k0' k' → rely c k k' → Q 1 k0' k') → wp idle_body Q k0 k.
Proof.
  intros Ha Hid HQ. unfold idle_body. apply wp_bind, (disable_spec c true); [done|]. apply wp_ret, wp_bind.
  apply (at_set_intr _ _ false) in Ha. set (k1 := set_intr_on false k) in *.
  pose proof Ha as [Hi Hg Hr Hl]. destruct (inv_current _ Hi) as (th & E & Hn & Hm & Hs & Hf).
  apply (thread_block_spec _ _ _ th); try done.
  - exact (inv_ctx _ _ Hi).
  - apply inv_blocked; [done|]. by rewrite Hr.
  - rewrite Hr. intros k0' k' Ha' Hrel. apply wp_bind, (enable_spec c false); [done|].
    intros k0'' k'' Ha'' Hr''. apply wp_ret, HQ; [done|]. etrans; [|exact Hr'']. etrans; [|exact Hrel].
    by apply rely_set_intr.
Qed.

Lemma idle_loop_spec c rest Q k0 k :
  at_ c true k0 k → c = idle_thread k → wp (Loop idle_body rest) Q k0 k.
Proof.
  intros Ha Hid. exists (λ k0 k, at_ c true k0 k ∧ c = idle_thread k). split; [done|]. intros k1 k2 [H12 Hid2].
  apply (idle_body_spec c); [done|done|]. intros k0' k' Ha' Hr'. simpl. split; [done|].
  by rewrite (gr_idle _ _ (re_grows _ _ _ Hr')).
Qed.

(** Where [switch_threads] leaves the idle thread. *)
Definition idle_resume (prev : Z) : prog :=
  v <~ (act_unit (thread_schedule_tail prev);~ act_unit (modify (set_intr_on true));~ Ret 1);
  if is_true_Z v then Loop idle_body (thread_exit 0) else thread_exit 0.

Lemma tail_spec c prev Q k :
  inv (Picked c) k → running k = c → intr_on k = false → started (threads k) c →
  is_Some (threads k !! prev) → (∀ k', at_ c false k k' → rely c k k' → Q 0 k k') →
  wp (act_unit (thread_schedule_tail prev)) Q k k.
Proof.
  intros Hi Hr Hoff Hst Hp HQ. rewrite <-Hr in Hi, Hst.
  destruct (thread_schedule_tail_ok k prev Hi Hoff Hst (or_intror Hp)) as (k2 & E2 & Hi2 & Hr2 & Hoff2 & Hrel2).
  unfold act_unit. eapply wp_act_off; [by erewrite bind_ok by exact E2|done|done|]. apply wp_ret, HQ; [|done].
  split; [done| |congruence|done]. intros t _. apply Hrel2.
Qed.

Lemma idle_resume_spec c prev Q k :
  inv (Picked c) k → running k = c → c = idle_thread k → intr_on k = false → started (threads k) c →
  is_Some (threads k !! prev) → wp (idle_resume prev) Q k k.
Proof.
  intros Hi Hr Hid Hoff Hst Hp. unfold idle_resume. apply wp_bind, wp_bind, (tail_spec c); try done.
  intros k' Ha Hr'. apply wp_bind, (enable_spec c false); [done|]. intros k0'' k'' Ha'' Hr''.
  apply wp_ret. apply (idle_loop_spec c); [done|].
  by rewrite (gr_idle _ _ (re_grows _ _ _ Hr'')), (gr_idle _ _ (re_grows _ _ _ Hr')).
Qed.

(** ** Client code *)

Section system.
  Context (code : Z → Z → client) (main : client) (base : kernel).

Definition thread_functions (function aux : Z) : prog := client_prog (code function aux).

Definition clients_ok : Prop := is_Some (holders base !! tid_lock) ∧ ∀ function aux, rules base (code function aux).

Lemma fresh_free c k :
  inv Runs k → lpl (threads k) c = [] → (∀ d, ¬ in_cond (conds k) c d) → c ≠ idle_thread k → c ≠ NULL →
  c ∉ creating k → free_thread c k.
Proof.
  intros Hi Hl Hc Hid Hn Hcr. split; [done|split; [|done]| |done].
  - intros i l Hin. rewrite Hl in Hin. by apply not_elem_of_nil in Hin.
  - intros l Hh. apply (lp_holds _ _ _ (inv_lp _ _ Hi)) in Hh as (i & Hin & _); [|done].
    rewrite Hl in Hin. by apply not_elem_of_nil in Hin.
Qed.

(** A client, started with no lock, and the end of its thread. *)
Lemma client_spec p c Q k0 k :
  is_Some (holders base !! tid_lock) → rules base p → grows base k → at_ c true k0 k → free_thread c k →
  wp (client_prog p;~ thread_exit 0) Q k0 k.
Proof.
  intros Ht Hp Hg Ha Hf. apply wp_bind. eapply (obeys_spec base Ht p c ∅ ∅); [done|set_solver|done| |].
  - apply free_holding; try done. exact (at_inv _ _ _ _ Ha).
  - intros v k0' k' Ha' Hh'. eapply thread_exit_spec; [done|]. by eapply holding_free.
Qed.

Lemma clients_start : clients_ok → starts_ok thread_functions base.
Proof.
  intros [Htid Hcl] f prev k Hfn Hf0 Hb Hi Hoff Hp (Hst & Hlp & Hco & Hid & Hcr). unfold switch_entry.
  set (c := running k) in *. apply wp_bind, (tail_spec c); try done. intros k1 Ha1 Hr1.
  assert (live (threads k) c) as Hl by by apply started_live.
  destruct (re_keeps _ _ _ Hr1 Hl) as [K1 K2 K3 K4 K5 K6 K7 K8 K9 K10].
  assert (free_thread c k1) as Hf1.
  { pose proof Ha1 as [Hi1 _ Hrn _]. apply fresh_free; [done|congruence| | | |by rewrite K10].
    - intros d Hd. by apply (Hco d), K6.
    - by rewrite (gr_idle _ _ (re_grows _ _ _ Hr1)).
    - destruct (inv_current _ Hi1) as (_ & _ & ? & _). congruence. }
  unfold kernel_thread. apply wp_bind. unfold act_unit. rewrite wp_act. mrun.
  rewrite bool_decide_eq_true_2 by done.
  pose proof Ha1 as [Hi1 Hg1 Hrn Hl1]. split; [done|]. unfold settle. rewrite Hl1.
  apply wp_ret, wp_bind. unfold act_bool.
  eapply (wp_act_at c true) with (v := 0) (k' := set_intr_on true k1); [|done|by eapply at_set_intr|].
  { mrun. rewrite intr_enable_ok by exact (inv_ctx _ _ Hi1). by rewrite Hl1. }
  intros k0a ka Haa Hra. apply wp_ret. rewrite decide_False by done.
  assert (rely c k1 ka) as Hr1a by (etrans; [|exact Hra]; by apply rely_set_intr).
  apply (client_spec _ c); [done|apply Hcl| |exact Haa|].
  - eapply grows_trans; [done|]. eapply grows_trans; [apply Hr1|apply Hr1a].
  - exact (free_thread_rely _ _ _ _ _ Ha1 Hr1a Hf1).
Qed.

(** ** The booted machine *)

(** The state in which [main] runs its actions: one other thread, the idle
    thread, in its loop. *)
Record booted (sv : gmap Z (Z → prog)) : Prop := {
  bo_inv : inv Runs base;
  bo_intr : intr_on base = true;
  bo_main : free_thread (running base) base;
  bo_threads t : started (threads base) t → t = running base ∨ t = idle_thread base;
  bo_saved : sv !! idle_thread base = Some idle_resume
}.

Definition boot_machine (sv : gmap Z (Z → prog)) : machine :=
  Machine base (client_prog main;~ thread_exit 0) sv.

Lemma booted_WF sv : booted sv → clients_ok → rules base main → WF base (boot_machine sv).
Proof.
  intros [B1 B2 B3 B4 B5] [Htid _] Hm. exists base. split; [apply grows_refl|split].
  - intros t Ht Hst. simpl in Ht. destruct (B4 t Hst) as [? | ->]; [done|]. exists idle_resume.
    split; [done|]. intros prev k' Hi Hr Hoff Hp Hrel. apply (idle_resume_spec (idle_thread base)); try done.
    + by rewrite (gr_idle _ _ (re_grows _ _ _ Hrel)).
    + apply (re_keeps _ _ _ Hrel); [|done]. by apply started_live.
  - unfold settle. simpl. rewrite B2. split_and!; [done|apply guar_refl|].
    intros k' Hi Hon Hr Hrel. apply (client_spec _ (running base)); [done|done|apply Hrel| |].
    + by split; [|apply guar_refl|..].
    + assert (at_ (running base) true base base) as Ha by (by split; [|apply guar_refl|..]).
      exact (free_thread_rely _ _ _ _ _ Ha Hrel B3).
Qed.

Lemma system_WF sv m :
  booted sv → clients_ok → rules base main → reach thread_functions (boot_machine sv) (Next m) → WF base m.
Proof.
  intros Hb Hc Hm Hr. eapply reach_good; [by apply clients_start|apply timer_intr_ok| |exact Hr|done].
  by apply booted_WF.
Qed.

(** With interrupts on the invariant holds. *)
Lemma system_inv sv m :
  booted sv → clients_ok → rules base main → reach thread_functions (boot_machine sv) (Next m) →
  intr_on (mk m) = true → inv Runs (mk m).
Proof. intros Hb Hc Hm Hr. by eapply WF_inv, system_WF. Qed.

Lemma system_step sv m o :
  booted sv → clients_ok → rules base main → reach thread_functions (boot_machine sv) (Next m) →
  mstep thread_functions m o → good base m o.
Proof.
  intros Hb Hc Hm Hr. apply mstep_good; [by apply clients_start|apply timer_intr_ok|]. by eapply system_WF.
Qed.
End system.
