(* ===== verification/KBoot.v ===== *)
(** * Booting, and the properties of the kernel

    [main] up to [run_actions]: the initial thread and the idle thread.  The
    rest of the file states the properties of threads, synchronisation and the
    timer, with a small system as the witness. *)

From S2P Require Import Prelude KList Kernel KProg KLogic KSpec KSync KSync2 KLock KCond KThread KCreate KClient KSystem.

(** ** threads/init.c *)

(** Power on: a page of the loader is the stack, interrupts are off. *)
Definition power_on (page : Z) (pages : list Z) : kernel :=
  Kernel ∅ [] [] [] NULL NULL page 1 0 0 0 ∅ ∅ ∅ [] false false false false 0 pages ∅ ∅.

(** The locks, semaphores and condition variables with static storage that
    the initialisation of the other parts sets up. *)
Definition static_init (ls ss cs : list Z) : M kernel unit :=
  foreach lock_init ls;; foreach (λ a, sema_init (SemaAt a) 0) ss;; foreach cond_init cs.

Definition boot (ls ss cs : list Z) (rest : prog) : prog :=
  thread_init;~
  thread_start;~
  act_unit (static_init ls ss cs);~
  act_unit synch_init;~
  rest.

(** ** A state with nothing going on *)

Definition lock_sema_ok (hs : gmap Z Z) (s : sema_id) (sm : semaphore) : bool :=
  match s with LockSema l => (value sm <=? 1) && bool_decide (is_Some (hs !! l)) | _ => true end.

Definition at_rest (k : kernel) : Prop :=
  (map_Forall (λ t th, t ≠ NULL ∧ magic th = THREAD_MAGIC ∧ lock_priority_list th = [] ∧ t ∉ free_pages k ∧
     t ∈ all_list k ∧ status th = (if decide (t = running k) then THREAD_RUNNING else THREAD_BLOCKED) ∧
     (PRI_MIN ≤ priority th ∧ priority th ≤ PRI_MAX) ∧
     (PRI_MIN ≤ original_priority th ∧ original_priority th ≤ PRI_MAX) ∧
     (t = running k ∨ t = idle_thread k)) (threads k) ∧
   Forall (λ t, is_Some (threads k !! t)) (running k :: idle_thread k :: all_list k)) ∧
  (running k ≠ idle_thread k ∧ ready_list k = [] ∧ sleep_list k = [] ∧ NoDup (all_list k) ∧
   NoDup (free_pages k) ∧ NULL ∉ free_pages k) ∧
  map_Forall (λ s sm, waiters sm = [] ∧ (0 ≤ value sm ∧ value sm < 2 ^ 32) ∧
    lock_sema_ok (holders k) s sm = true) (semas k) ∧
  map_Forall (λ l h, h = NULL ∧ l ≠ NULL ∧ is_Some (semas k !! LockSema l)) (holders k) ∧
  map_Forall (λ c ws, ws = []) (conds k) ∧
  (priority_donation_enabled k = true ∧ in_external_intr k = false ∧ intr_on k = true ∧
   lock_priority_page k ≠ [] ∧ sections k = ∅ ∧ creating k = ∅).

(** Every thread has been switched to. *)
Definition all_started (k : kernel) : Prop := map_Forall (λ _ th, frames th = Switched) (threads k).

Definition is_switched (fr : stack_frames) : bool := match fr with Switched => true | _ => false end.

Lemma all_started_bool k :
  map_Forall (λ _ th, is_switched (frames th) = true) (threads k) → all_started k.
Proof. intros H t th E. specialize (H t th E). simpl in H. by destruct (frames th). Qed.

Section at_rest.
  Context (k : kernel) (Hr : at_rest k) (Hs : all_started k).

Lemma at_rest_thread t th :
  threads k !! t = Some th → t ≠ NULL ∧ magic th = THREAD_MAGIC ∧ lock_priority_list th = [] ∧
    t ∉ free_pages k ∧ t ∈ all_list k ∧
    status th = (if decide (t = running k) then THREAD_RUNNING else THREAD_BLOCKED) ∧ frames th = Switched ∧
    pri_ok (priority th) ∧ pri_ok (original_priority th) ∧ (t = running k ∨ t = idle_thread k).
Proof.
  intros E. destruct Hr as ((H & _) & _). destruct (H t th E) as (?&?&?&?&?&?&?&?&?).
  split_and!; try done. exact (Hs t th E).
Qed.

Lemma at_rest_lpl t : lpl (threads k) t = [].
Proof. unfold lpl. destruct (threads k !! t) as [th|] eqn:E; [|done]. by apply at_rest_thread in E as (_&_&?&_). Qed.

Lemma at_rest_waits t s : ¬ waits (semas k) t s.
Proof.
  intros (sm & E & Hin). destruct Hr as (_ & _ & H & _). destruct (H s sm E) as (Hw & _).
  rewrite Hw in Hin. by apply not_elem_of_nil in Hin.
Qed.

Lemma at_rest_cond t d : ¬ in_cond (conds k) t d.
Proof.
  intros (ws & E & Hin). destruct Hr as (_ & _ & _ & _ & H & _). rewrite (H d ws E) in Hin.
  by apply not_elem_of_nil in Hin.
Qed.

Lemma at_rest_st t s :
  st (threads k) t = Some s → s = (if decide (t = running k) then THREAD_RUNNING else THREAD_BLOCKED).
Proof.
  unfold st. destruct (threads k !! t) as [th|] eqn:E; [|done]. intros [= <-].
  by apply at_rest_thread in E as (_&_&_&_&_&?&_).
Qed.

Lemma sched_at_rest :
  sched_inv Runs (threads k) (running k) (ready_list k) (sleep_list k) (all_list k) (idle_thread k)
    (free_pages k).
Proof.
  destruct Hr as ((_ & Hex) & (Hri & Hrl & Hsl & Hnd & Hnp & Hnu) & _).
  rewrite !Forall_cons in Hex. destruct Hex as ([thr Er] & [thi Ei] & Hall).
  rewrite Forall_forall in Hall. rewrite Hrl, Hsl. split; try done.
  - split.
    + rewrite (st_lookup _ _ _ Er). apply at_rest_thread in Er as (_&_&_&_&_&E&_).
      by rewrite decide_True in E by done; rewrite E.
    + intros t E. apply at_rest_st in E. by case_decide.
  - apply NoDup_nil_2.
  - intros t. split; [intros []%not_elem_of_nil|]. intros [E _]. apply at_rest_st in E. by case_decide.
  - apply NoDup_nil_2.
  - intros t []%not_elem_of_nil.
  - intros t. split.
    + intros [th E]%Hall. exists (status th). rewrite (st_lookup _ _ _ E). split; [done|].
      apply at_rest_thread in E as (_&_&_&_&_&E&_). rewrite E. by case_decide.
    + intros (s & E & _). apply st_exists in E as [th E]. by apply at_rest_thread in E as (_&_&_&_&?&_).
  - rewrite at_rest_lpl. split; [|done]. exists (status thi). rewrite (st_lookup _ _ _ Ei). split; [done|].
    apply at_rest_thread in Ei as (_&_&_&_&_&E&_). rewrite E. by case_decide.
  - intros t th E. by apply at_rest_thread in E as (?&?&_&_&_&_&_&?&?&_).
  - intros t th E. by apply at_rest_thread in E as (_&_&_&_&_&_&?&_).
  - intros t _. apply at_rest_lpl.
  - intros t Ht. split; [by intros ->|]. destruct (threads k !! t) as [th|] eqn:E; [|done].
    by apply at_rest_thread in E as (_&_&_&?&_).
Qed.

Lemma inv_at_rest : inv Runs k.
Proof.
  pose proof Hr as (_ & _ & Hse & Hlo & Hco & Hd & Hx & _ & Hpg & Hsec & Hcr). split; try done.
  - apply sched_at_rest.
  - split.
    + intros s sm E. destruct (Hse s sm E) as (_ & ? & _). done.
    + intros s sm E. destruct (Hse s sm E) as (-> & _). apply NoDup_nil_2.
    + intros t s []%at_rest_waits.
    + intros t s s' []%at_rest_waits.
    + intros t u []%at_rest_waits.
  - split.
    + intros l. split.
      * intros [h E]. by apply Hlo in E as (_ & _ & ?).
      * intros [sm E]. apply Hse in E as (_ & _ & [_ H]%andb_prop). by apply bool_decide_eq_true_1 in H.
    + destruct (holders k !! NULL) as [h|] eqn:E; [|done]. by apply Hlo in E as (_ & ? & _).
    + intros l sm E. apply Hse in E as (_ & _ & [H _]%andb_prop). by apply Z.leb_le.
    + intros l t sm E. apply Hlo in E as (-> & _). done.
  - split; try done; try (intros t; rewrite at_rest_lpl).
    + apply NoDup_nil_2.
    + by intros i ?%not_elem_of_nil.
    + by intros u i ?%not_elem_of_nil.
    + by intros i j w v l ?%not_elem_of_nil.
    + by intros i l ?%not_elem_of_nil.
    + intros l Ht. split; [intros E; by apply Hlo in E as (-> & _)|]. by intros (i & ?%not_elem_of_nil & _).
  - split.
    + intros c ws E. rewrite (Hco c ws E). apply NoDup_nil_2.
    + intros t c c' []%at_rest_cond.
    + intros t c []%at_rest_cond.
  - rewrite Hsec, Hcr. split; [set_solver..|]. intros t th E Hb.
    apply at_rest_thread in E as (_&_&_&_&_&E&_&_&_&[->|?]); [|by left].
    rewrite decide_True in E by done. congruence.
Qed.

Lemma booted_at_rest sv : sv !! idle_thread k = Some idle_resume → booted k sv.
Proof.
  intros Hsv. pose proof Hr as (_ & (Hri & _) & _ & _ & _ & _ & _ & Hon & _ & _ & Hcr). split; try done.
  - apply inv_at_rest.
  - apply fresh_free; [apply inv_at_rest|apply at_rest_lpl|intros d; apply at_rest_cond|done| |].
    + by destruct (inv_current _ inv_at_rest) as (_ & _ & ? & _).
    + rewrite Hcr. set_solver.
  - intros t (th & E & _). by apply at_rest_thread in E as (_&_&_&_&_&_&_&_&_&?).
Qed.
End at_rest.

(** The system as [boot] leaves it when [main] begins its actions. *)
Record boots (base : kernel) (sv : gmap Z (Z → prog)) : Prop := {
  bs_rest : at_rest base;
  bs_started : all_started base;
  bs_saved : sv !! idle_thread base = Some idle_resume;
  bs_tid_lock : is_Some (holders base !! tid_lock)
}.

(** The functions of the threads and of [main] obey the rules. *)
Definition obey (base : kernel) (code : Z → Z → client) (main : client) : Prop :=
  (∀ function aux, rules base (code function aux)) ∧ rules base main.

Section boots.
  Context (code : Z → Z → client) (main : client) (base : kernel) (sv : gmap Z (Z → prog)).
  Context (Hb : boots base sv) (Ho : obey base code main).

Lemma boots_booted : booted base sv.
Proof. destruct Hb. by apply booted_at_rest. Qed.

Lemma boots_inv m :
  reach (thread_functions code) (boot_machine main base sv) (Next m) → intr_on (mk m) = true →
  inv Runs (mk m).
Proof.
  intros Hr. apply (system_inv code main base sv); [apply boots_booted|split; apply Hb || apply Ho|apply Ho|done].
Qed.

Lemma boots_step m o :
  reach (thread_functions code) (boot_machine main base sv) (Next m) → mstep (thread_functions code) m o →
  good base m o.
Proof.
  intros Hr. apply (system_step code main base sv); [apply boots_booted|split; apply Hb || apply Ho|apply Ho|done].
Qed.
End boots.
