(* ===== verification/KExample.v ===== *)
(** * A small system

    Boot, two worker threads, locks, a semaphore, a condition variable and
    sleeping: the inputs at which the properties of the kernel are evaluated. *)

From S2P Require Import Prelude KList Kernel KProg KLogic KSpec KSync KSync2 KLock KCond KThread KCreate KClient KSystem KBoot.

(** ** A small system *)

Definition main_page : Z := 0xc000e000.
Definition example_pages : list Z := [0xc0100000; 0xc0104000; 0xc0101000; 0xc0102000; 0xc0103000].
Definition sleeper_function : Z := 50.
Definition nested_function : Z := 51.

(** A thread that sleeps with a lock held. *)
Definition sleeper : client :=
  Call (LockAcquire 101) (λ _, Call (TimerSleep 5) (λ _, Call (LockRelease 101) (λ _, Return 0))).

(** A thread that takes two locks, and raises a semaphore at the end. *)
Definition nested : client :=
  Call (LockAcquire 100) (λ _, Call (LockAcquire 101) (λ _, Call (LockRelease 101) (λ _,
  Call (LockRelease 100) (λ _, Call (SemaUp 200) (λ _, Return 0))))).

(** The initial thread creates the two, waits for the second, waits a while for
    a condition and signals it. *)
Definition example_main : client :=
  Call (ThreadCreate (Some [115]) 33 sleeper_function 0) (λ _,
  Call (ThreadCreate (Some [110]) 32 nested_function 0) (λ tid,
  if decide (tid = TID_ERROR) then Exit 1
  else Call (SemaDown 200) (λ _, Call (LockAcquire 101) (λ _,
    While (Call ThreadGetPriority (λ p,
      if decide (p > 31) then Call (CondWait 300 101) (λ _, Return 1) else Return 0))
    (Call (CondSignal 300 101) (λ _, Call (LockRelease 101) (λ _, Return 0))))))).

Definition example_code (function aux : Z) : client :=
  if decide (function = sleeper_function) then sleeper
  else if decide (function = nested_function) then nested else Return 0.

Definition example_functions : Z → Z → prog := thread_functions example_code.

Definition example_start : machine :=
  Machine (power_on main_page example_pages)
    (boot [100; 101] [200] [300] (client_prog example_main;~ thread_exit 0)) ∅.

(** The machine after 75 steps. *)
Definition example_booted : machine :=
  match run example_functions 75 example_start with Next m => m | _ => example_start end.

Definition example_base : kernel := mk example_booted.

Lemma example_runs : run example_functions 75 example_start = Next example_booted.
Proof.
  assert (match run example_functions 75 example_start with Next _ => true | _ => false end = true) as H
    by (vm_compute; reflexivity).
  unfold example_booted. by destruct (run example_functions 75 example_start).
Qed.

Lemma example_current : current example_booted = (client_prog example_main;~ thread_exit 0).
Proof. reflexivity. Qed.

Lemma example_at_rest : at_rest example_base.
Proof. unfold at_rest. apply (bool_decide_unpack _). vm_compute. exact I. Qed.

Lemma example_all_started : all_started example_base.
Proof. apply all_started_bool, (bool_decide_unpack _). vm_compute. exact I. Qed.

Lemma example_idle_saved : saved example_booted !! idle_thread example_base = Some idle_resume.
Proof. reflexivity. Qed.

Lemma example_objects :
  is_Some (holders example_base !! 100) ∧ is_Some (holders example_base !! 101) ∧
  is_Some (holders example_base !! tid_lock) ∧ is_Some (semas example_base !! SemaAt 200) ∧
  is_Some (conds example_base !! 300).
Proof. apply (bool_decide_unpack _). vm_compute. exact I. Qed.

Lemma example_boots : boots example_base (saved example_booted).
Proof.
  split; [exact example_at_rest|exact example_all_started|exact example_idle_saved|apply example_objects].
Qed.

Ltac obeying :=
  repeat match goal with
  | |- _ ∧ _ => split
  | |- ∀ _, _ => intros ?
  | |- context [decide (?x = TID_ERROR)] => destruct (decide (x = TID_ERROR))
  | |- context [decide (?x > 31)] => destruct (decide (x > 31))
  | |- _ => progress simpl
  | |- _ => assumption
  | |- _ => by eexists
  | |- _ => apply (bool_decide_unpack _); vm_compute; exact I
  end.

Lemma example_obeys : obey example_base example_code example_main.
Proof.
  destruct example_objects as (O1 & O2 & O3 & O4 & O5). split; [intros fn aux; unfold example_code|].
  - destruct (decide (fn = sleeper_function)); [|destruct (decide (fn = nested_function))];
      unfold rules, sleeper, nested; obeying.
  - unfold rules, example_main. obeying.
Qed.
