(* ===== verification/KTheorems.v ===== *)
(** * The properties of threads, synchronisation and the timer *)

From Stdlib Require Import FunctionalExtensionality.
From S2P Require Import Prelude KList Kernel KProg KLogic KSpec KSync KSync2 KLock KCond KThread KCreate KClient KSystem KBoot KExample.

(** ** The example system in the middle of its run *)

(** One thread sleeps with lock 101 held, another holds lock 100 and waits
    for lock 101. *)
Definition example_machine : machine :=
  match run example_functions 116 (boot_machine example_main example_base (saved example_booted)) with
  | Next m => m | _ => example_start end.
Definition example_state : kernel := mk example_machine.

Lemma run_reach code n m o : run code n m = o → reach code m o.
Proof.
  assert (∀ n m m', reach code m (Next m') → reach code m (run code n m')) as H.
  { clear. induction n as [|n IH]; intros m m' Hr; [done|]. simpl.
    assert (reach code m (step code m')) as Hs by (eapply reach_step; [done|constructor]).
    destruct (step code m') as [m2|e|]; [by apply IH|done|done]. }
  intros <-. apply H. constructor.
Qed.

Lemma example_reach :
  reach (thread_functions example_code) (boot_machine example_main example_base (saved example_booted))
    (Next example_machine).
Proof.
  apply (run_reach _ 116).
  assert (match run example_functions 116 (boot_machine example_main example_base (saved example_booted)) with
    Next _ => true | _ => false end = true) as H by (vm_compute; reflexivity).
  unfold example_machine. change (thread_functions example_code) with example_functions.
  by destruct (run _ 116 _).
Qed.

Lemma example_state_inv : inv Runs example_state.
Proof.
  apply (boots_inv _ _ _ _ example_boots example_obeys _ example_reach). vm_compute. reflexivity.
Qed.

#[local] Opaque example_machine example_state example_base.

(** ** Safety *)

(** What may come of a step of [m]: the machine goes on, in a consistent state
    whenever interrupts are on; or an assertion fails, when every record of
    [lock_priority_page] is in use. *)
Definition safe_step (m : machine) (o : outcome) : Prop :=
  match o with
  | Next m' => intr_on (mk m') = true → inv Runs (mk m')
  | Halted e => e = AssertFailed ∧ records_full (mk m)
  | Finished => False
  end.

(** C1. After boot, let [main] and the threads it and they create run any
    programs made of calls of [lock_acquire], [lock_release], [sema_down],
    [sema_try_down], [sema_up], [cond_wait], [cond_signal], [cond_broadcast],
    [thread_create], [thread_yield], [thread_set_priority],
    [thread_get_priority], [timer_sleep] and [thread_exit], with branches and
    loops, that obey the rules of [rules] (existing objects, a lock released
    only by its holder and not acquired twice, the lock of a condition variable
    held, priorities in range, a name and a function for a new thread, no lock
    held at the end of a thread).  In whatever order the threads run and
    whenever the timer interrupts, no step uses a bad pointer, panics, fails an
    assertion or returns from the last frame of a stack; with one exception,
    the assertion of [lock_acquire] that a priority record was found, which can
    fail only when all records of the page are in use.  At every point where
    interrupts are on, the run queue, the statuses of the threads, the
    semaphores, the locks with their priority records and the condition
    variables are consistent ([inv]). *)
Theorem kernel_safe code main base sv m o :
  boots base sv → obey base code main →
  reach (thread_functions code) (boot_machine main base sv) (Next m) →
  mstep (thread_functions code) m o → safe_step m o.
Proof.
  intros Hb Ho Hr Hs. pose proof (boots_step _ _ _ _ Hb Ho _ _ Hr Hs) as H.
  destruct o as [m'|e|]; [|done..]. exact (WF_inv _ _ H).
Qed.

Lemma kernel_safe_witness :
  safe_step example_machine (Next (interrupt example_machine)) ∧
  status <$> threads example_state !! 0xc0102000 = Some THREAD_BLOCKED.
Proof.
  split; [|vm_compute; reflexivity].
  apply (kernel_safe _ _ _ _ _ _ example_boots example_obeys example_reach). constructor.
  vm_compute. reflexivity.
Defined.

(** C2. Mutual exclusion.  For the programs of C1, in every reachable state
    with interrupts on (so whenever the code between two calls runs), at most
    one thread is between its [lock_acquire (l)] and the following
    [lock_release (l)] or [cond_wait] with [l].  That thread is the holder of
    the lock, the value of the lock's semaphore is zero, and every thread in
    the semaphore's list is another one, blocked and not on the run queue. *)
Theorem lock_mutual_exclusion code main base sv m l t :
  boots base sv → obey base code main →
  reach (thread_functions code) (boot_machine main base sv) (Next m) → intr_on (mk m) = true →
  (l, t) ∈ sections (mk m) →
  (∀ u, (l, u) ∈ sections (mk m) → u = t) ∧ holders (mk m) !! l = Some t ∧
  ∃ sm, semas (mk m) !! LockSema l = Some sm ∧ value sm = 0 ∧
    ∀ u, u ∈ waiters sm → u ≠ running (mk m) ∧ st (threads (mk m)) u = Some THREAD_BLOCKED ∧
      u ∉ ready_list (mk m).
Proof.
  intros Hb Ho Hr Hon Hin. pose proof (boots_inv _ _ _ _ Hb Ho _ Hr Hon) as Hi.
  pose proof (cl_holds _ _ _ _ _ _ _ (inv_client _ _ Hi)) as Hcl. destruct (Hcl l t Hin) as [Hh Hn].
  split_and!; [intros u [Hu _]%Hcl; congruence|done|].
  destruct (lo_sema _ _ (inv_lock _ _ Hi) l) as [[sm Es] _]; [by eexists|]. exists sm.
  split_and!; [done|by eapply (lo_held _ _ (inv_lock _ _ Hi))|]. intros u Hu.
  destruct (se_waits _ _ _ _ _ (inv_sema _ _ Hi) u (LockSema l)) as (Eb & _); [by exists sm|].
  split_and!; [|done|].
  - intros ->. destruct (si_running _ _ _ _ _ _ _ _ (inv_sched _ _ Hi)) as [E _]. congruence.
  - intros [E _]%(si_ready _ _ _ _ _ _ _ _ (inv_sched _ _ Hi)). congruence.
Qed.

Lemma lock_mutual_exclusion_witness :
  holders example_state !! 101 = Some 0xc0101000 ∧
  ∃ sm, semas example_state !! LockSema 101 = Some sm ∧ value sm = 0 ∧ waiters sm = [0xc0102000].
Proof.
  destruct (lock_mutual_exclusion _ _ _ _ example_machine 101 0xc0101000
    example_boots example_obeys example_reach) as (_ & Hh & sm & E & Hv & _).
  - vm_compute. reflexivity.
  - apply (bool_decide_unpack _). vm_compute. exact I.
  - split; [exact Hh|]. exists sm. split_and!; [exact E|done|].
    assert (waiters <$> semas (mk example_machine) !! LockSema 101 = Some [0xc0102000]) as Hw
      by (vm_compute; reflexivity).
    rewrite E in Hw. by injection Hw.
Defined.

(** C10. Scheduling.  For the programs of C1, in every reachable state with
    interrupts on, exactly one thread runs; the ready list holds, once each, the
    threads that are ready, the idle thread excepted; [all_list] holds the
    threads that are not dying; and no thread is lost: one that is blocked is
    the idle thread, or sleeps, or is in the list of a semaphore, or is being
    built by a thread that is inside [thread_create], so that a created thread
    is runnable once [thread_create] has returned. *)
Theorem run_queue_exact code main base sv m :
  boots base sv → obey base code main →
  reach (thread_functions code) (boot_machine main base sv) (Next m) → intr_on (mk m) = true →
  (∀ t, st (threads (mk m)) t = Some THREAD_RUNNING ↔ t = running (mk m)) ∧
  NoDup (ready_list (mk m)) ∧
  (∀ t, t ∈ ready_list (mk m) ↔ st (threads (mk m)) t = Some THREAD_READY ∧ t ≠ idle_thread (mk m)) ∧
  (∀ t, t ∈ all_list (mk m) ↔ live (threads (mk m)) t) ∧
  (∀ t, st (threads (mk m)) t = Some THREAD_BLOCKED →
     t = idle_thread (mk m) ∨ t ∈ sleep_list (mk m) ∨ (∃ s, waits (semas (mk m)) t s) ∨
     ∃ c fr, c ∈ creating (mk m) ∧ nascent (threads (mk m)) c t fr).
Proof.
  intros Hb Ho Hr Hon. pose proof (boots_inv _ _ _ _ Hb Ho _ Hr Hon) as Hi.
  pose proof (inv_sched _ _ Hi) as [[S1 S1'] S2 S3 _ _ _ S7 _ _ _ _ _ _].
  split_and!; try done.
  - intros t. split; [apply S1'|by intros ->].
  - intros t. rewrite S3. naive_solver.
  - intros t Et. destruct (st_exists _ _ _ Et) as [th E].
    assert (status th = THREAD_BLOCKED) as Hs by (rewrite (st_lookup _ _ _ E) in Et; congruence).
    destruct (cl_blocked _ _ _ _ _ _ _ (inv_client _ _ Hi) t th E Hs) as [?|[?|[?|(c & Hc & Hin)]]]; auto.
    do 3 right. exists c, (frames th). split; [done|]. exists th. split_and!; try done.
    destruct (frames th); by simplify_eq/=.
Qed.

Lemma run_queue_exact_witness :
  ∃ s, waits (semas (mk example_machine)) 0xc0102000 s.
Proof.
  assert (st (threads (mk example_machine)) 0xc0102000 = Some THREAD_BLOCKED) as Hb by (vm_compute; reflexivity).
  destruct (run_queue_exact _ _ _ _ example_machine example_boots example_obeys example_reach)
    as (_ & _ & _ & _ & H); [vm_compute; reflexivity|].
  destruct (H _ Hb) as [E|[E|[E|(c & fr & E & _)]]].
  - assert (idle_thread (mk example_machine) = 0xc0100000) as Ei by (vm_compute; reflexivity).
    rewrite Ei in E. discriminate E.
  - assert (0xc0102000 ∉ sleep_list (mk example_machine)) as Hn
      by (apply (bool_decide_unpack _); vm_compute; exact I). exact (False_ind _ (Hn E)).
  - exact E.
  - assert (creating (mk example_machine) = ∅) as Ec by (apply (bool_decide_unpack _); vm_compute; exact I).
    rewrite Ec in E. exact (False_ind _ (not_elem_of_empty _ E)).
Defined.

(** ** Scheduling and priority donation *)

Lemma list_del_app us x vs : NoDup (us ++ x :: vs) → list_del x (us ++ x :: vs) = us ++ vs.
Proof.
  intros Hnd. apply NoDup_app in Hnd as (_ & Hd & [Hx _]%NoDup_cons). unfold list_del.
  rewrite filter_app, filter_cons_False by naive_solver. f_equal; apply filter_all; intros y Hy ->; [|done].
  eapply Hd; [done|by left].
Qed.

(** The effective priority of a thread. *)
Definition priority_of (k : kernel) (t : Z) : Z := default 0 (thread_priority_convert_func k t).

(** C12. [next_thread_to_run] takes off the ready list the earliest of the
    threads with the highest effective priority: those before it have a lower
    one, those after it none higher; the others stay in order. *)
Theorem next_thread_highest_priority k :
  inv Leaves k → ready_list k ≠ [] →
  ∃ us t vs, ready_list k = us ++ t :: vs ∧
    next_thread_to_run k = Ok (t, set_ready_list (us ++ vs) k) ∧
    Forall (λ u, priority_of k u < priority_of k t) us ∧
    Forall (λ u, priority_of k u ≤ priority_of k t) vs.
Proof.
  intros Hi Hne. pose proof (inv_sched _ _ Hi) as Hs.
  destruct (next_thread_to_run_ok k) as [E|[? _]]; [|..|done].
  { intros t [E _]%(si_ready _ _ _ _ _ _ _ _ Hs). by eapply st_exists. }
  pose proof (si_ready_nodup _ _ _ _ _ _ _ _ Hs) as Hnd.
  destruct (ready_list k) as [|x xs] eqn:El; [done|].
  pose proof (max_from_first (default_list_less_func (priority_of k)) x xs) as (us & vs & Eq & H1 & H2).
  assert (next_of k = max_from (default_list_less_func (priority_of k)) x xs) as En.
  { unfold next_of. by rewrite El. }
  rewrite <-En in *. exists us, (next_of k), vs. rewrite Eq in E, Hnd |- *. rewrite list_del_app in E by done.
  split_and!; try done.
  - eapply Forall_impl; [exact H1|]. intros u Hu. unfold default_list_less_func in Hu. lia.
  - eapply Forall_impl; [exact H2|]. intros u Hu. unfold default_list_less_func in Hu. lia.
Qed.

(** A state of the example at which a thread has just left the processor. *)
Definition example_yielded : kernel := yielded (set_intr_on false example_state).

Lemma example_yielded_inv : inv Leaves example_yielded.
Proof. apply inv_yielded. apply inv_set_intr, example_state_inv. Qed.

Lemma next_thread_highest_priority_witness :
  ready_list example_yielded ≠ [] ∧ ∃ t k', next_thread_to_run example_yielded = Ok (t, k').
Proof.
  assert (ready_list example_yielded = [main_page]) as E by (vm_compute; reflexivity).
  split; [by rewrite E|].
  destruct (next_thread_highest_priority example_yielded example_yielded_inv) as (us & t & vs & _ & H & _);
    [by rewrite E|]. by eexists _, _.
Defined.

(** C11. Nested donation.  With a priority in range, donating at a lock always
    terminates, changes nothing but effective priorities and the priorities of
    lock records, lowers none of them, and raises every thread of the chain
    holder, holder of the lock that holder waits for, and so on, to at least
    the donated priority. *)
Theorem donation_reaches_chain k l p hs :
  inv Runs k → donees p k l hs → PRI_MIN ≤ p ∧ p ≤ PRI_MAX →
  ∃ k', donate_priority_recursively l p k = Ok (tt, k') ∧ raises k k' ∧
    ∀ h, h ∈ hs → ∃ th, threads k' !! h = Some th ∧ p ≤ priority th.
Proof.
  intros Hi Hd Hp. destruct (donees_head _ _ _ _ Hd) as (h & hs' & -> & Hh & Hn).
  assert (low p (threads k) < S (size (threads k)))%nat as Hf by (pose proof (low_size p (threads k)); lia).
  destruct (donate_loop_total (S (size (threads k))) Runs k l h p) as (k' & E & Hra); try done.
  exists k'. split_and!; [done|done|]. by eapply donate_loop_reaches.
Qed.

Lemma example_donees : donees 40 example_state 100 [0xc0102000; 0xc0101000].
Proof.
  destruct (threads example_state !! 0xc0102000) as [th|] eqn:E;
    [|assert (is_Some (threads example_state !! 0xc0102000)) as [? ?]
        by (apply (bool_decide_unpack _); vm_compute; exact I); congruence].
  eapply (donees_cons _ _ _ 0xc0102000 th 2%nat 101).
  - vm_compute. reflexivity.
  - done.
  - by intros ?%list_elem_of_singleton.
  - exact E.
  - assert (priority <$> threads example_state !! 0xc0102000 = Some 32) as Hp by (vm_compute; reflexivity).
    rewrite E in Hp. injection Hp. lia.
  - vm_compute. reflexivity.
  - eexists. split; [vm_compute; reflexivity|split; vm_compute; discriminate].
  - apply donees_one; [vm_compute; reflexivity|done].
Qed.

Lemma donation_reaches_chain_witness :
  ∃ k' th, donate_priority_recursively 100 40 example_state = Ok (tt, k') ∧
    threads k' !! 0xc0101000 = Some th ∧ 40 ≤ priority th.
Proof.
  destruct (donation_reaches_chain example_state 100 40 _ example_state_inv example_donees) as (k' & E & _ & H).
  { compute; split; discriminate. }
  destruct (H 0xc0101000) as (th & E' & Hp); [right; left|]. exists k', th. exact (conj E (conj E' Hp)).
Defined.

(** C13. When a lock has been released, the thread's effective priority becomes
    the highest of its own priority and the priorities of the locks it still
    holds, and the thread yields exactly when that lowers it. *)
Theorem lock_release_new_priority k th :
  inv Runs k → threads k !! running k = Some th →
  let p := top_priority (lock_priority_page k) (lock_priority_list th) (original_priority th) in
  lock_release_finish (running k) k =
    Ok (bool_decide (priority th > p), map_thread (running k) (with_priority p) k) ∧
  original_priority th ≤ p ∧
  (∀ j r, j ∈ lock_priority_list th → lock_priority_page k !! j = Some r → lp_priority r ≤ p) ∧
  (p = original_priority th ∨
   ∃ j r, j ∈ lock_priority_list th ∧ lock_priority_page k !! j = Some r ∧ lp_priority r = p).
Proof.
  intros Hi E p. destruct (lock_release_finish_ok k th Hi E) as (Ef & Hp & _). split_and!; [done|done|..]; unfold p; clear.
  - induction (lock_priority_list th) as [|i js IH]; intros j r; [by intros ?%not_elem_of_nil|].
    intros [->|Hj]%elem_of_cons Hr; simpl.
    + rewrite Hr. lia.
    + specialize (IH j r Hj Hr). destruct (lock_priority_page k !! i); lia.
  - induction (lock_priority_list th) as [|i js IH]; simpl; [by left|].
    destruct (lock_priority_page k !! i) as [r|] eqn:Ei.
    + destruct (Z.max_spec (lp_priority r) (top_priority (lock_priority_page k) js (original_priority th)))
        as [[_ ->]|[_ ->]].
      * destruct IH as [?|(j & r' & ? & ? & ?)]; [by left|]. right. exists j, r'. by split; [right|].
      * right. exists i, r. by split; [left|].
    + destruct IH as [?|(j & r' & ? & ? & ?)]; [by left|]. right. exists j, r'. by split; [right|].
Qed.

Lemma lock_release_new_priority_witness :
  ∃ th, threads example_state !! running example_state = Some th ∧
    original_priority th ≤
    top_priority (lock_priority_page example_state) (lock_priority_list th) (original_priority th).
Proof.
  destruct (inv_current _ example_state_inv) as (th & E & _). exists th. split; [exact E|].
  by destruct (lock_release_new_priority example_state th example_state_inv E) as (_ & H & _).
Defined.

(** ** The timer *)

(** C14. A timer tick advances the clock and wakes, in the order in which they
    went to sleep, exactly the sleeping threads whose time has come: they move
    from the sleeping list to the end of the ready list, and no other thread
    changes. *)
Theorem timer_tick_wakes_due k :
  inv_intr k → intr_on k = false → in_external_intr k = true →
  let now := i64 (ticks k + 1) in
  ∃ k', timer_interrupt k = Ok (tt, k') ∧ ticks k' = now ∧
    ready_list k' = ready_list k ++ filter (λ t, due now k t = true) (sleep_list k) ∧
    sleep_list k' = filter (λ t, due now k t = false) (sleep_list k) ∧
    ∀ t, threads k' !! t =
      if decide (t ∈ sleep_list k ∧ due now k t = true)
      then with_status THREAD_READY ∘ with_awake_tick 0 <$> threads k !! t else threads k !! t.
Proof.
  intros Hi Hoff Hx now. set (k0 := set_ticks now k).
  assert (same_core k k0) as Hc0 by done. pose proof (inv_intr_core _ _ Hc0 Hi) as Hi0.
  destruct (thread_tick_ok k0 Hi0 Hoff Hx) as (k1 & k' & E & Hc1 & Hc2 & Htk).
  exists k'. split; [unfold timer_interrupt; by erewrite bind_ok by done|].
  pose proof Hc1 as (E1&E2&E3&E4&_). pose proof Hc2 as (G1&G2&G3&G4&_).
  change (ticks k0) with now in *. change (sleep_list k0) with (sleep_list k) in *.
  destruct (rouse_lists now (sleep_list k) k1) as (R1 & R2 & R3);
    [apply (si_sleep_nodup _ _ _ _ _ _ _ _ (inv_sched _ _ Hi))|by rewrite E4|].
  assert (∀ t, due now k1 t = due now k t) as Hd by (intros t; unfold due; by rewrite E1).
  split_and!.
  - done.
  - rewrite G2, R1, E2. f_equal. apply list_filter_iff. intros t. by rewrite Hd.
  - rewrite G4, R2, E4. apply filter_ext_in. intros t Ht. rewrite Hd. destruct (due now k t); naive_solver.
  - intros t. rewrite G1, R3, E1. change (threads k0) with (threads k). by rewrite Hd.
Qed.

(** The example inside the handler of the tick at which the sleeper is due. *)
Definition example_handler : kernel :=
  set_ticks 4 (set_in_external_intr true (set_intr_on false example_state)).

Lemma inv_handler k now :
  inv Runs k → inv_intr (set_ticks now (set_in_external_intr true (set_intr_on false k))).
Proof. intros [H1 H2 H3 H4 H5 H6 H7 H8]. by split. Qed.

Lemma example_handler_inv : inv_intr example_handler.
Proof. exact (inv_handler example_state 4 example_state_inv). Qed.

Lemma timer_tick_wakes_due_witness :
  ∃ k', timer_interrupt example_handler = Ok (tt, k') ∧ ready_list k' = [0xc0101000].
Proof.
  destruct (timer_tick_wakes_due example_handler example_handler_inv eq_refl eq_refl) as (k' & E & _ & R & _).
  exists k'. split; [exact E|]. rewrite R. vm_compute. reflexivity.
Defined.

(** ** Two defects *)

Lemma max_from_ge conv x xs t :
  t ∈ x :: xs → conv t ≤ conv (max_from (default_list_less_func conv) x xs).
Proof.
  intros Ht. destruct (max_from_first (default_list_less_func conv) x xs) as (us & vs & E & H1 & H2).
  rewrite E in Ht. rewrite Forall_forall in H1, H2.
  apply elem_of_app in Ht as [Ht|[->|Ht]%elem_of_cons]; [|lia|].
  - apply Z.lt_le_incl, Z.ltb_lt. exact (H1 t Ht).
  - apply Z.ltb_ge. exact (H2 t Ht).
Qed.

Lemma prog_bind_assoc p g h : bind (bind p g) h = bind p (λ v, bind (g v) h).
Proof.
  induction p as [v|f c IH|n c IH|b IHb c IHc]; [done|..].
  - change (Act f (λ v, bind (bind (c v) g) h) = Act f (λ v, bind (c v) (λ v, bind (g v) h))).
    f_equal. by extensionality v.
  - change (Switch n (λ v, bind (bind (c v) g) h) = Switch n (λ v, bind (c v) (λ v, bind (g v) h))).
    f_equal. by extensionality v.
  - change (Loop b (bind (bind c g) h) = Loop b (bind c (λ v, bind (g v) h))). by f_equal.
Qed.

Lemma bind_ret v g : bind (Ret v) g = g v.
Proof. done. Qed.

Section run.
  Context (code : Z → Z → prog) (n : nat) (k : kernel) (g : Z → prog) (sv : gmap Z (Z → prog)).

Lemma run_act f v k' :
  f k = Ok (v, k') → run code (S n) (Machine k (bind (act f) g) sv) = run code n (Machine k' (g v) sv).
Proof. intros E. change (bind (act f) g) with (Act f g). cbn [run]. unfold step. cbn. by rewrite E. Qed.

Lemma run_act_err f e : f k = Err e → run code (S n) (Machine k (bind (act f) g) sv) = Halted e.
Proof. intros E. change (bind (act f) g) with (Act f g). cbn [run]. unfold step. cbn. by rewrite E. Qed.

Lemma run_bool f b k' :
  f k = Ok (b, k') →
  run code (S n) (Machine k (bind (act_bool f) g) sv) = run code n (Machine k' (g (Z_of_bool b)) sv).
Proof. intros E. apply run_act. by erewrite bind_ok by exact E. Qed.

Lemma run_unit f k' :
  f k = Ok (tt, k') →
  run code (S n) (Machine k (bind (act_unit f) g) sv) = run code n (Machine k' (g 0) sv).
Proof. intros E. apply run_act. by erewrite bind_ok by exact E. Qed.

Lemma run_bool_err f e :
  f k = Err e → run code (S n) (Machine k (bind (act_bool f) g) sv) = Halted e.
Proof. intros E. apply run_act_err. by erewrite bind_err by exact E. Qed.

Lemma run_unit_err f e :
  f k = Err e → run code (S n) (Machine k (bind (act_unit f) g) sv) = Halted e.
Proof. intros E. apply run_act_err. by erewrite bind_err by exact E. Qed.
End run.

(** C27. [sema_up] is documented to be callable from an interrupt handler.
    With priority donation enabled and a waiting thread of higher priority than
    the interrupted one, it calls [thread_yield], whose assertion that no
    interrupt is being handled fails. *)
Theorem sema_up_in_handler_asserts code k s sm t rest sv :
  inv_intr k → intr_on k = false → in_external_intr k = true → sema_nonnull s = true →
  semas k !! s = Some sm → t ∈ waiters sm → priority_of k (running k) < priority_of k t →
  run code 4 (Machine k (sema_up s;~ rest) sv) = Halted AssertFailed.
Proof.
  intros Hi Hoff Hx Hs Es Ht Hp. destruct (inv_current _ Hi) as (c & Ec & Hcn & Hcm & Hcs & _). simpl in Ec, Hcn.
  pose proof (inv_sema _ _ Hi) as Hse. simpl in Hse.
  assert (∀ u, u ∈ waiters sm → st (threads k) u = Some THREAD_BLOCKED) as Hbl.
  { intros u Hu. destruct (se_waits _ _ _ _ _ Hse u s) as (E & _); [by exists sm|done]. }
  destruct (waiters sm) as [|x xs] eqn:Ew; [by apply not_elem_of_nil in Ht|].
  pose proof (max_from_ge (priority_of k) x xs t Ht) as Hge.
  set (w := max_from (default_list_less_func (priority_of k)) x xs) in *.
  assert (w ∈ x :: xs) as Hw by apply max_from_elem, _.
  pose proof (Hbl w Hw) as Hst. pose proof (st_exists _ _ _ Hst) as [tw Etw].
  pose proof (inv_thread _ _ _ _ Hi Etw) as [Hnn Hm].
  assert (w ≠ running k) as Hwc by (intros Eq; rewrite Eq, (st_lookup _ _ _ Ec) in Hst; congruence).
  set (k2 := unblocked w (set_semas (<[s := Semaphore (u32 (value sm + 1)) (list_del w (x :: xs))]> (semas k)) k)).
  assert (sema_up_wake s k = Ok (true, k2)) as E2.
  { unfold sema_up_wake, rd_sema. mrun. rewrite Es, Ew. unfold wr_sema at 1. mrun. rewrite list_max_by_ok.
    2: { intros u Hu. apply Hbl, st_exists in Hu as [th E]. unfold thread_priority_convert_func. simpl. by rewrite E. }
    unfold wr_sema. mrun. cbn [semas set_semas]. rewrite insert_insert_eq.
    fold (priority_of k). change (λ t, default 0 (thread_priority_convert_func _ t)) with (priority_of k).
    fold w. rewrite (thread_unblock_ok _ w tw); try done; [|exact (st_status _ _ _ _ Etw Hst)|simpl; congruence].
    match goal with |- context [unblocked w ?k'] => change (unblocked w k') with k2 end.
    cbn iota. change (priority_donation_enabled k2) with (priority_donation_enabled k).
    rewrite (inv_donation _ _ Hi : priority_donation_enabled k = true).
    rewrite (rd_thread_ok _ _ (with_status THREAD_READY tw)) by (simpl; by rewrite lookup_alter_eq, Etw).
    rewrite (get_priority_ok _ c) by (simpl; rewrite ?lookup_alter_ne; done).
    rewrite bool_decide_eq_true_2; [done|]. unfold priority_of, thread_priority_convert_func in Hp, Hge.
    rewrite Ec in Hp. rewrite Etw in Hge. simpl in *. lia. }
  assert (thread_current k2 = Ok (running k, k2)) as E3.
  { apply (thread_current_ok k2 c); simpl; rewrite ?lookup_alter_ne; done. }
  unfold sema_up. rewrite !prog_bind_assoc. erewrite (run_bool _ _ _ _ _ _ false k).
  2: { mrun. rewrite Hs. cbn iota. rewrite intr_disable_ok, Hoff. by rewrite set_intr_on_same. }
  rewrite prog_bind_assoc. erewrite run_bool by exact E2. rewrite prog_bind_assoc, is_true_Z_of_bool.
  unfold thread_yield. rewrite !prog_bind_assoc. erewrite run_act by exact E3. rewrite !prog_bind_assoc.
  apply run_bool_err. unfold intr_context. mrun. by rewrite (Hx : in_external_intr k2 = true).
Qed.

Lemma sema_up_in_handler_asserts_witness :
  run example_functions 4 (Machine example_handler (sema_up (LockSema 101);~ Ret 0) ∅) = Halted AssertFailed.
Proof.
  assert (∃ sm, semas example_handler !! LockSema 101 = Some sm ∧ waiters sm = [0xc0102000]) as (sm & E & Hw).
  { eexists. split; vm_compute; reflexivity. }
  apply (sema_up_in_handler_asserts example_functions example_handler (LockSema 101) sm 0xc0102000);
    [exact example_handler_inv|vm_compute; reflexivity|vm_compute; reflexivity|reflexivity|exact E| |].
  - rewrite Hw. left.
  - vm_compute. reflexivity.
Defined.

(** C28. A lock taken with [lock_try_acquire] gets no priority record, so once
    priority donation is enabled its release follows a null pointer. *)
Theorem lock_try_acquire_release_faults code k l sm rest sv :
  inv Runs k → intr_on k = false → idle_in_synch (running k) k →
  holders k !! l = Some NULL → semas k !! LockSema l = Some sm → value sm = 1 →
  run code 5 (Machine k (lock_try_acquire l;~ lock_release l;~ rest) sv) = Halted BadAccess.
Proof.
  intros Hi Hoff [Hnw _] Hh Es Hv. destruct (inv_current _ Hi) as (c & Ec & Hcn & Hcm & Hcs & _).
  assert (l ≠ NULL) as Hl by (eapply lock_nonnull; [done|by eexists]).
  set (k1 := downed (LockSema l) sm k). set (k2 := set_holders (<[l := running k]> (holders k1)) k1).
  assert (inv Runs k1) as Hi1 by (apply inv_downed; [done|done|lia]).
  assert (thread_current k2 = Ok (running k, k2)) as E2 by by apply (thread_current_ok k2 c).
  unfold lock_try_acquire. rewrite ?prog_bind_assoc. erewrite (run_unit _ _ _ _ _ _ k).
  2: { unfold lock_try_acquire_check. mrun. rewrite bool_decide_eq_true_2 by done. cbn iota.
       rewrite (lock_held_run k l NULL) by done. by rewrite bool_decide_eq_false_2. }
  rewrite ?prog_bind_assoc. erewrite (run_bool _ _ _ _ _ _ true k1).
  2: { unfold sema_try_down, rd_sema, wr_sema. mrun. cbn [sema_nonnull]. cbn iota.
       rewrite intr_disable_ok. cbn iota. rewrite set_intr_on_same by done. rewrite Es.
       rewrite decide_True by lia. cbn iota. rewrite intr_set_level_ok by (rewrite Hoff; done). cbn iota.
       by rewrite set_intr_on_same. }
  rewrite ?prog_bind_assoc, is_true_Z_of_bool. erewrite (run_unit _ _ _ _ _ _ k2).
  2: { unfold lock_set_holder. erewrite bind_ok by by apply (thread_current_ok k1 c). done. }
  rewrite bind_ret. unfold lock_release. rewrite ?prog_bind_assoc. erewrite (run_bool _ _ _ _ _ _ false k2).
  2: { rewrite intr_disable_ok, set_intr_on_same by done. by rewrite (Hoff : intr_on k2 = false). }
  rewrite ?prog_bind_assoc. apply run_unit_err. unfold lock_release_prepare, lock_held_by_current_thread, rd_holder. mrun.
  rewrite bool_decide_eq_true_2 by done. cbn iota.
  assert (holders k2 !! l = Some (running k)) as Eh2 by apply lookup_insert_eq.
  rewrite Eh2, E2. cbn iota. rewrite bool_decide_eq_true_2 by done. cbn iota. rewrite E2. unfold wr_holder. mrun. cbn [priority_donation_enabled set_holders].
  rewrite (inv_donation _ _ Hi1 : priority_donation_enabled k2 = true). rewrite (rd_thread_ok _ _ c) by done.
  match goal with |- context [find_lock_priority _ _ ?k3] => set (k3' := k3) end.
  destruct (find_lock_priority_ok k3' (lock_priority_list c) l) as (r & Er & Hr).
  { intros j Hj. rewrite <-(lpl_lookup _ _ _ Ec) in Hj.
    destruct (inv_records _ _ Hi _ _ Hj) as (w & l' & q & E & _). by eexists. }
  rewrite Er. destruct r as [i|]; [|done]. destruct Hr as (Hin & r & Ei & Hrl).
  rewrite <-(lpl_lookup _ _ _ Ec) in Hin. destruct (lp_record _ _ _ (inv_lp _ _ Hi) _ _ Hin) as (w & l' & Hlp & _).
  assert (l' = l) as -> by (destruct Hlp as (q & E & _); change (lock_priority_page k !! i = Some r) in Ei;
    rewrite Ei in E; injection E as ->; exact Hrl).
  destruct w; [by destruct (Hnw i l Hin)|].
  assert (holders k !! l = Some (running k)) as E by (apply (lp_holds _ _ _ (inv_lp _ _ Hi)); eauto). congruence.
Qed.

Lemma free_set_intr k :
  free_thread (running k) k → idle_in_synch (running (set_intr_on false k)) (set_intr_on false k).
Proof. by intros [_ H _ _]. Qed.

(** The example with interrupts off and lock 8 free. *)
Lemma lock_try_acquire_release_faults_witness :
  run example_functions 5 (Machine (set_intr_on false example_base)
    (lock_try_acquire 8;~ lock_release 8;~ Ret 0) ∅) = Halted BadAccess.
Proof.
  apply (lock_try_acquire_release_faults _ _ _ (Semaphore 1 [])).
  - exact (inv_set_intr _ false _ (bo_inv _ _ (boots_booted _ _ example_boots))).
  - reflexivity.
  - exact (free_set_intr _ (bo_main _ _ (boots_booted _ _ example_boots))).
  - vm_compute. reflexivity.
  - vm_compute. reflexivity.
  - reflexivity.
Defined.
